(* ===== verification/_CoqProject ===== *)
-Q . S2P
Prelude.v
Js.v
EventTypes.v
PayloadFilter.v
EndpointHeaders.v
EndpointUrl.v
Permissions.v
RetryRules.v
Slugs.v
AllowedIps.v
Limits.v
AuditTrail.v
Db.v
Sessions.v
Scope.v
Statements.v
Transactions.v
RetryPolicies.v
Members.v
EndpointSecrets.v
TenantScope.v
AutoDisable.v
Endpoints.v
Replay.v
Resolver.v
RateLimits.v
Subscriptions.v
Throttle.v
ApiKeys.v
ProjectTemplate.v
Projects.v
ProjectReads.v
Organizations.v
Auth.v
Utf8.v
EventPayload.v
Crypto.v
Outbox.v
NotificationRules.v
Alerts.v
Destinations.v
Usage.v
Series.v
Binary64.v
Analytics.v
Breakdown.v
Ranking.v
Health.v
Ledger.v
EventReads.v
Billing.v
AuditReads.v
Routes.v
Mail.v
Bootstrap.v
Schedulers.v
Tracing.v
ConsoleDeliveries.v
ConsoleEndpoints.v
ConsoleOutbox.v
ConsoleTeam.v
ConsolePolicies.v
ConsoleForms.v
Errors.v
ConsoleSetup.v
ConsoleApi.v
ConsoleShell.v
ConsoleCharts.v
Requests.v
ConsoleRequests.v
