(* ===== verification/Prelude.v ===== *)
(** HookuBit, its control plane and its console, verified.

    HookuBit delivers webhooks.  Its control plane (apps/control-api) is the
    multi-tenant HTTP API that owns the configuration: organizations and their
    members, projects, endpoints and their signing secrets, subscriptions with
    event-type patterns and payload filters, retry policies, and the operator
    actions on the delivery ledger.  A separate data plane in Go ingests events
    and delivers them, driven only by the rows the control plane writes.  The
    console (apps/dashboard) is the browser application the customers of the
    control plane use.  This library models the TypeScript of both; paths below
    are relative to apps/control-api/src, and those of the files named Console...
    to apps/dashboard/src.

    A request reaches a service through the route that matches it, the guards the
    route mounts (session, throttle, tenant) and the validation of its body
    and query; the service works through repositories scoped to the context the
    guard resolved; an error it throws becomes an envelope the console reads back.
    The console decides what to ask, what to show of the answers and what to keep
    of them; the theorems about it are stated against the control plane's own
    definitions, so that the two cannot drift apart unnoticed.

    * How the program is modelled

    The services run against PostgreSQL through a tenant-scoped repository.
    The database is a record of finite maps from ids to rows ([Db.Db], one
    module per table of prisma/schema.prisma); an operation is a program of the
    monad [M Db A] below, a state transformer that returns or throws an
    [AppError] and keeps its earlier writes when it throws; [transact] is
    [TenantTransactionRunner.run] seen from the service, a transaction that
    takes effect entirely or not at all.  Values that come from outside the
    code are arguments: the clock ([now : Z], milliseconds), fresh ids, random
    plaintexts, the hash and encryption functions, the URL parser, and the
    answers of PostgreSQL locks and COMMIT.  JavaScript strings are lists of
    UTF-16 code units, unknown values are [Js.jsval], and the numbers of the
    retry settings are rationals extended with NaN and the infinities.  A
    message that interpolates values is represented by its fixed part.

    * The files

    - Prelude: error codes (common/errors.ts), results, the monad, its
      inversion lemmas and tactics ([minv], [bprop], [respects]), the relational
      reasoning about programs ([Preserves], [Respects], [Atomic]), reachability
      ([star]) and lemmas on lists.
    - Js: strings, numbers, JSON.stringify, byte lengths and ISO dates.
    - EventTypes: webhook-subscriptions/event-type-pattern.ts.
    - PayloadFilter: webhook-subscriptions/payload-filter.ts.
    - EndpointHeaders: endpoints/endpoint-headers.ts.
    - EndpointUrl: endpoints/endpoint-url.ts, with 32-bit integer arithmetic
      written out.  [new URL] and [Number] on a CIDR suffix are parameters.
    - Permissions: authz/permissions.ts, the grant matrix and the role lattice.
    - RetryRules: retry-policies/retry-policy-rules.ts and -limits.ts.  The
      floating-point product and power of the delay formula are parameters that
      are only assumed monotone where the proof needs it.
    - AuditTrail: the redaction of authz/audit.service.ts.
    - Db: tables, request context (authz/tenant-context.ts) and the tenant
      predicate of authz/tenant-scope.ts; class [Table] is the configuration of
      a repository in authz/tenant-scope.factory.ts.
    - Scope: the statements of ScopedRepository on the typed store, the
      constraints PostgreSQL enforces (class [Repo]), the laws the proofs use
      (class [TableLaws]) and the audit write [recordFor].
    - TenantScope: the untyped half of authz/tenant-scope.ts: payload guards,
      the refusal of unfiltered bulk writes, page sizes, findPage, findMany,
      forEachPage, groupBy.
    - Transactions: organizations/tenant-transaction.ts, the serialization
      retry loop around a transaction.
    - RetryPolicies: retry-policies/retry-policies.service.ts.
    - Members: members/members.service.ts, organizations/user-scope.ts and
      auth/token.service.ts.
    - EndpointSecrets: endpoint-secrets/endpoint-secrets.service.ts.
    - AutoDisable: maintenance/auto-disable-policy.ts and
      maintenance/endpoint-auto-disable.service.ts, over a world of a database
      and the alerts already sent.
    - Endpoints: endpoints/endpoints.service.ts, which calls EndpointSecrets and
      shares the endpoint rows with AutoDisable; its operations are not
      transactional and neither is the model.
    - Replay: deliveries/delivery-replay.service.ts, its callers in
      deliveries.service.ts and events.service.ts, and events/delivery-rollup.ts.
    - Resolver: authz/tenant-resolver.service.ts and authz/tenant.guard.ts, where
      the request contexts of every other component come from.
    - RateLimits: rate-limits/rate-limits.service.ts with its rules, limits and
      resource resolution.
    - Limits: the configured ceilings of projects/project-limits.ts,
      api-keys/api-key-limits.ts and webhook-subscriptions/subscription-limits.ts.
    - Subscriptions: webhook-subscriptions/webhook-subscriptions.service.ts.
    - Throttle: common/throttle.store.ts and common/throttle.guard.ts; the two
      stores are instances of the class [ThrottleStore] the guard is proved
      against.
    - ApiKeys: common/api-key.ts, api-keys/api-key-state.ts, effective-scopes.ts
      and api-keys.service.ts.
    - Slugs and AllowedIps: projects/slug.ts, the slug derivation of
      organizations.service.ts, and projects/allowed-ips.ts.
    - ProjectTemplate: projects/project-template.service.ts, which reads through
      one context and writes through another.
    - Projects and ProjectReads: projects/projects.service.ts, its writes and its
      reads.
    - Organizations: organizations/organizations.service.ts.
    - Sessions and Auth: auth/session.service.ts, session.guard.ts and
      auth.service.ts, over the tokens of Members; Argon2 and the JWT library
      are parameters.
    - Utf8: UTF-8, UTF-16, base64 and base64url as Node's Buffer has them.
    - EventPayload: events/event-payload.ts.
    - Crypto: common/crypto.service.ts; AES-256-GCM is a parameter that satisfies
      the class [Aead].
    - Outbox: outbox/outbox.service.ts.
    - NotificationRules, Alerts, Destinations:
      notification-destinations/notification-rules.ts,
      maintenance/notification-dispatcher.service.ts over a world of a database
      and the messages sent, and the destinations with their confirmation
      (notification-destinations.service.ts, notification-confirmation.service.ts,
      notifications/mailbox.ts).
    - Usage: maintenance/usage-aggregator.service.ts, one statement at a time and
      interrupted anywhere.
    - Series and Binary64: analytics/analytics-window.ts, delivery-series.ts and
      the worker pool of analytics.service.ts as interleaved steps; IEEE binary64
      arithmetic on the Standard Library's SpecFloat.
    - Analytics: the reports of analytics/analytics.service.ts; every statement
      of a report reads its own state of the database.  Breakdown holds the
      counts by endpoint and status, Ranking the theorems on the failing
      endpoints and the latency.
    - Health: endpoints/endpoint-health.service.ts and the endpoint list and
      detail that show it.
    - Ledger, EventReads, AuditReads and Billing: what is read of deliveries and
      attempts (deliveries/deliveries.service.ts), of events
      (events/events.service.ts), of the audit log (audit/audit-logs.service.ts)
      and of the usage records (billing/billing.service.ts), with their responses.
    - Routes: the routes the controllers declare with their guards, and the
      assertion of authz/authz.module.ts that every route has them.
    - Errors: the filter of common/errors.ts, and how values are read as JSON.
    - Requests: the request classes under */dto and the validation pipe of main.ts;
      the validation libraries are the class [Validation] with its laws.
    - Mail: notifications/*, the rendering, sending and logging of messages.
    - Bootstrap: cli/bootstrap.ts, any number of processes at once.
    - Schedulers: the timers of maintenance/*.scheduler.ts over a fleet of replicas.
    - Tracing: common/request-id.ts, tracing/* and the network settings of config/*.

    The console:
    - ConsoleDeliveries: lib/delivery-status.ts, lib/pagination.ts, lib/format.ts and
      the event rollup and payload preview of features/events and
      features/deliveries.
    - ConsoleEndpoints: features/endpoints/breaker.ts, endpoint-state.ts, secrets.ts.
    - ConsoleOutbox: features/outbox/requeue-loop.ts, parked.ts, stuck-summary.ts and
      the buttons of RequeueDialogs.tsx.
    - ConsoleTeam: features/team/lattice.ts, lib/role-gate.ts and the permissions.ts of
      the features.
    - ConsolePolicies and ConsoleForms: the rules of the forms for retry policies,
      rate limits, event types, payload filters and headers.
    - ConsoleSetup: features/onboarding/*, the checklist, its visibility and the tour.
    - ConsoleApi: lib/api.ts, lib/api-errors.ts, lib/api-base-url.ts and
      features/policies/write-errors.ts.
    - ConsoleShell: layouts/navigation.ts, lib/theme.ts and the script of index.html.
    - ConsoleCharts: features/analytics/series-layout.ts, derive.ts, window.ts.
    - ConsoleRequests: lib/query-keys.ts and the queries and mutations of every
      features/*/api.ts.

    * What the theorems show

    - Isolation.  [Scope.scoped_statements_isolated]: no statement of a scoped
      repository reads or changes another organization's row;
      [TenantScope.guarded_spec]: no payload sets a tenant column or references
      a row of another tenant; [EndpointUrl.accepted_url_safe] and
      [EndpointHeaders.accepted_headers_cannot_inject] bound what a customer
      can make the platform send.
    - Admission.  [Resolver.guard_sound]: a context that reaches a handler is
      the caller's own and satisfies what isolation assumes of it;
      [Resolver.no_existence_oracle]: outside one's organizations everything
      looks absent.
    - Invariants of reachable states, over every interleaving of requests, each
      of which commits or fails: one default retry policy per project and only
      valid settings ([RetryPolicies.reachable_policies_inv]), an owner in every
      organization ([Members.reachable_has_owner]), the life cycle of endpoints
      ([Endpoints.endpoint_lifecycle]), one valid rate limit per scope and
      resource ([RateLimits.reachable_rate_limits], [create_verdict]) that names
      a resource of its own tenant ([targets_own_tenant]), valid subscriptions
      under their ceiling ([Subscriptions.reachable_subscriptions]), immutable
      environments, unique slugs and final deletion of projects and
      organizations ([Organizations.reachable_tenants]).
    - Tenants: how an organization gets its slug, owner and audit row
      ([orgs_create_verdict], [Slugs.deriveSlug_valid]); a deleted one admits
      nobody ([orgs_remove_closes]); what a project template copies
      ([ProjectTemplate.copy_spec]) and that the route which offers it never
      does ([Projects.create_route_copies_nothing]); the grouped endpoint count
      of a page of projects is the count of each ([projects_list_spec]).
    - Authority: owners are made by owners ([Members.new_owner_needs_owner]), an
      invitation grants what it says once ([accept_grants], [consume_once]), a
      role hands out only what it holds, with the exception the code makes
      ([Permissions.assignable_permissions]), an API key never does more than
      its issuer may do now ([ApiKeys.key_authority]) and nothing once revoked
      ([revocation_final]).
    - Authentication: signing in on every branch ([Auth.login_verdict]); the
      cookie it returns is admitted until it expires or is signed out
      ([session_roundtrip]); a password reset ends every session of the account
      for good ([reset_signs_out]); registration answers alike whether or not
      the address has an account ([register_uniform]).
    - Throttling: the in-memory store, sweeps included, refines an independent
      fixed-window counter per key ([Throttle.store_refines_counter]), which
      admits at most twice the limit in any window ([at_most_twice_the_limit]);
      the guard refuses exactly when an enforced bucket is over
      ([throttle_verdict]); a failing Redis never admits uncounted
      ([redis_hit_spec]).
    - The audit log: what a subscription was is recorded when it changes
      ([Subscriptions.changes_are_logged]), except what redaction removes
      ([removal_forgets_conditions]).
    - Signing: rotation and revocation ([rotate_signing], [rotate_reports],
      [revoke_signing]), nothing goes live unsigned ([goes_live_signed],
      [create_hands_over]); [revoke_in_overlap_goes_silent] is a scenario in
      which the promise of the code's comment fails.
    - The ledger: replays only add ([replay_keeps_history]) and re-send exactly
      the original routing ([event_replay_creates]); the rollup is honest.
    - Maintenance: what a sweep does when it commits, that repeated sweeps
      drain, and that alerts survive a rollback.
    - The outbox: requeueing on every branch ([Outbox.requeue_verdict]), in bulk
      oldest first ([requeueParked_spec]), until nothing is parked
      ([requeue_drains]).
    - Payloads: what is shown is what was received
      ([EventPayload.decodePayload_roundtrip]), and a preview is the beginning of
      it, cut between characters ([preview_spec]).
    - Encryption: secrets survive key rotation ([Crypto.rotation_roundtrip]) and
      open for no other row ([envelope_bound]).
    - Notifications: whom an alert reaches ([Alerts.alert_reaches]), never
      anybody who did not agree ([Destinations.alerts_need_consent]); a recurring
      subject is not reported again ([repeats_stay_silent]).
    - Usage: a pass that completes writes the counts of the source tables
      ([Usage.sweep_bills]); an hour is never counted twice, not even when it was
      counted in part ([recorded_hour_frozen]).
    - Analytics: the buckets of a chart cover the window under the ceiling
      ([Series.series_plan]) and their bars partition the ledger
      ([Analytics.series_counts_ledger]); the pool runs every query once, never
      more than its limit at a time, and ends ([Series.pool_spec]); percentiles
      are the nearest rank of the sample ([Ranking.latency_percentiles]); the
      ranking of failing endpoints is exact up to 200 groups
      ([failing_ranking]), the health of a listed endpoint up to fifty breaker
      rows ([Health.endpoint_list_health]).
    - Validators: each of them accepts exactly the documented language
      (patterns, filters, headers, retry settings, IPv4 ranges, CIDRs), and the
      audit log never stores a value under a credential-like key.
    - The surface: a route that writes runs its handler only for somebody who holds
      its permission ([Routes.writes_need_authority]), in the tenant of its path or
      not at all ([tenant_of_the_path]); a request has at most one route
      ([single_route]).  Of a request the pipe admits, every property has its
      declared type or is absent, and null counts as absent even where the type
      excludes it ([Requests.declared_types_hold]); the page that is asked for is
      the page that is served ([page_asked_is_served]).  Whatever is thrown is
      answered by an envelope of a known code ([Errors.every_error_is_enveloped]).
    - Mail: no value can add markup to a message or a line to its subject
      ([Mail.mail_is_inert]), no log line holds an address or a token
      ([logs_are_redacted]).
    - Processes: one first owner however many bootstraps run
      ([Bootstrap.one_first_owner]); passes of the sweeps do not pile up
      ([Schedulers.passes_do_not_pile_up]).
    - The console agrees with the control plane: its role gates and its lattice are
      the routes' permissions and the rules of Permissions ([ConsoleTeam.gates_agree],
      [lattice_agrees]); its forms refuse what the services refuse; every request
      it sends has a route ([ConsoleRequests.requests_reach_their_route]); the
      errors the filter writes are read back ([ConsoleApi.error_contract]).
    - The console remembers and shows: what it concludes from one page of a list
      about the whole list ([ConsoleSetup.setup_is_judged]), that the guided setup
      is hidden on knowledge only ([hidden_on_knowledge]), that a mutation drops
      the answers it changes, except fourteen ([ConsoleRequests.mutations_refresh]),
      that a cache key names one request ([key_names_request]), that the requeue
      loop ends and counts what it moved ([ConsoleOutbox.requeue_loop]), that a
      chart is drawn to scale ([ConsoleCharts.chart_is_honest]).
    - Loops: page walks and forEachPage see every row and end
      ([walk_complete], [forEachPage_exhausts]); the transaction runner makes
      between one and four attempts ([run_spec]).

    * Bounds

    Recursion is structural.  [Js.digits] recurses on a number's bit length,
    which bounds its decimal digits.  The walks over pages take fuel, and their
    theorems say how much is enough: the number of rows plus one.  The loops of
    the console are runs of presses and events, whose theorems bound their number.
    The depth limits of filters and audit metadata are the code's own.

    * Not modelled

    The wiring of Nest and the start of the process; Redis and SMTP themselves;
    the components of React, of which only the decisions they render are modelled,
    the schemas of the console's forms beyond the rules named above, and the
    demonstration server under lib/mock; the documentation site and the load
    tests; the data plane, a program in Go.  Serializability is PostgreSQL's:
    operations inside the transaction runner are atomic, and between operations
    any other step may occur.

    * Left to do

    A statement that joins the console's bodies to the request classes field by
    field, and the validation of the environment beyond the settings of mail,
    tracing and the network. *)
From Stdlib Require Import ZArith Lia.
From stdpp Require Export base tactics strings gmap fin_maps sets numbers list sorting.

(** ** Errors *)

(** The machine-readable codes of [ERROR_CODES] in common/errors.ts. *)
Inductive error_code : Type :=
| invalid_request | unauthenticated | forbidden | email_not_verified
| not_found | conflict | limit_exceeded | idempotency_key_reused
| payload_too_large | rate_limited | internal_error.

(** [AppError]: the code and the human-readable text (the fixed part of it
    where the source interpolates values). *)
Record app_error : Type := AppError { err_code : error_code; err_msg : string }.

#[export] Instance error_code_eq_dec : EqDecision error_code.
Proof. solve_decision. Defined.
#[export] Instance app_error_eq_dec : EqDecision app_error.
Proof. solve_decision. Defined.

(** ** Results: a value or a thrown [AppError] *)

Inductive result (A : Type) : Type :=
| Ok (a : A)
| Throw (e : app_error).
Arguments Ok {A} _.
Arguments Throw {A} _.

#[export] Instance result_ret : MRet result := @Ok.
#[export] Instance result_bind : MBind result := λ A B f m,
  match m with Ok a => f a | Throw e => Throw e end.

Definition throw {A} (c : error_code) (m : string) : result A := Throw (AppError c m).

(** [if (c) throw e;] followed by the rest of the function. *)
Definition throw_if (b : bool) (c : error_code) (m : string) : result unit :=
  if b then throw c m else Ok tt.

Definition is_ok {A} (r : result A) : bool := if r is Ok _ then true else false.

(** ** State with exceptions

    A statement of the program: it reads and writes the state and either
    returns or throws.  A throw keeps the writes made before it; only
    [transact] undoes them, as a database transaction does. *)
Definition M (S A : Type) : Type := S → result A * S.

#[export] Instance M_ret {S} : MRet (M S) := λ A a s, (Ok a, s).
#[export] Instance M_bind {S} : MBind (M S) := λ A B f m s,
  match m s with
  | (Ok a, s') => f a s'
  | (Throw e, s') => (Throw e, s')
  end.

Definition lift {S A} (r : result A) : M S A := λ s, (r, s).
Definition gets {S A} (f : S → A) : M S A := λ s, (Ok (f s), s).
Definition modify {S} (f : S → S) : M S unit := λ s, (Ok tt, f s).
Definition throwM {S A} (c : error_code) (m : string) : M S A := lift (throw c m).
Definition guardM {S} (b : bool) (c : error_code) (m : string) : M S unit :=
  lift (throw_if b c m).

(** One database transaction: commit on return, roll back on a throw. *)
Definition transact {S A} (m : M S A) : M S A := λ s,
  match m s with
  | (Ok a, s') => (Ok a, s')
  | (Throw e, _) => (Throw e, s)
  end.

(** [for (const x of xs) { ... }] *)
Fixpoint forM {S A} (xs : list A) (f : A → M S unit) : M S unit :=
  match xs with
  | [] => mret tt
  | x :: xs => _ ← f x; forM xs f
  end.

(** [for (const x of xs) out.push(await f(x));] *)
Fixpoint mapM' {S A B} (f : A → M S B) (xs : list A) : M S (list B) :=
  match xs with
  | [] => mret []
  | x :: xs => y ← f x; ys ← mapM' f xs; mret (y :: ys)
  end.

(** ** Inversion of successful runs *)

Lemma bind_Ok {A B} (m : result A) (f : A → result B) b :
  m ≫= f = Ok b ↔ ∃ a, m = Ok a ∧ f a = Ok b.
Proof. destruct m; cbn; naive_solver. Qed.

Lemma throw_if_Ok b c m u : throw_if b c m = Ok u ↔ b = false.
Proof. destruct b, u; cbn; unfold throw; naive_solver. Qed.

Lemma bindM_Ok {S A B} (m : M S A) (f : A → M S B) s b s'' :
  (m ≫= f) s = (Ok b, s'') ↔ ∃ a s', m s = (Ok a, s') ∧ f a s' = (Ok b, s'').
Proof.
  unfold mbind, M_bind. destruct (m s) as [[a|e] s'] eqn:E; split.
  - naive_solver.
  - naive_solver.
  - intros; simplify_eq.
  - intros (?&?&?&?); simplify_eq.
Qed.

Lemma lift_Ok {S A} (r : result A) (s : S) a s' :
  lift r s = (Ok a, s') ↔ r = Ok a ∧ s' = s.
Proof. unfold lift. naive_solver. Qed.

Lemma gets_Ok {S A} (f : S → A) s a s' : gets f s = (Ok a, s') ↔ a = f s ∧ s' = s.
Proof. unfold gets. naive_solver. Qed.

Lemma modify_Ok {S} (f : S → S) s u s' : modify f s = (Ok u, s') ↔ s' = f s.
Proof. destruct u. unfold modify. naive_solver. Qed.

Lemma mret_Ok {S A} (a : A) (s : S) b s' : (mret a : M S A) s = (Ok b, s') ↔ b = a ∧ s' = s.
Proof. unfold mret, M_ret. naive_solver. Qed.

Lemma guardM_Ok {S} b c m (s : S) u s' :
  guardM b c m s = (Ok u, s') ↔ b = false ∧ s' = s.
Proof. unfold guardM. rewrite lift_Ok, throw_if_Ok. done. Qed.

Lemma throwM_Ok {S A} c m (s : S) (a : A) s' : throwM c m s = (Ok a, s') ↔ False.
Proof. unfold throwM, lift, throw. naive_solver. Qed.

Lemma transact_Ok {S A} (m : M S A) s a s' :
  transact m s = (Ok a, s') ↔ m s = (Ok a, s').
Proof. unfold transact. destruct (m s) as [[]?]; naive_solver. Qed.

Lemma transact_Throw {S A} (m : M S A) s e s' :
  transact m s = (Throw e, s') → s' = s.
Proof. unfold transact. destruct (m s) as [[]?]; naive_solver. Qed.

(** Break every successful statement in the context into its parts. *)
Ltac minv :=
  repeat match goal with
  | H : mbind _ _ _ = (Ok _, _) |- _ => apply bindM_Ok in H as (? & ? & ? & H)
  | H : mbind _ _ = Ok _ |- _ => apply bind_Ok in H as (? & ? & H)
  | H : lift _ _ = (Ok _, _) |- _ => apply lift_Ok in H as [? ->]
  | H : gets _ _ = (Ok _, _) |- _ => apply gets_Ok in H as [? ->]
  | H : modify _ _ = (Ok _, _) |- _ => apply modify_Ok in H
  | H : mret _ _ = (Ok _, _) |- _ => apply mret_Ok in H as [? ->]
  | H : guardM _ _ _ _ = (Ok _, _) |- _ => apply guardM_Ok in H as [? ->]
  | H : throwM _ _ _ = (Ok _, _) |- _ => apply throwM_Ok in H as []
  | H : transact _ _ = (Ok _, _) |- _ => apply (proj1 (transact_Ok _ _ _ _)) in H
  | H : throw_if _ _ _ = Ok _ |- _ => apply throw_if_Ok in H
  | H : throw _ _ = Ok _ |- _ => discriminate H
  | H : Throw _ = Ok _ |- _ => discriminate H
  | H : (Throw _, _) = (Ok _, _) |- _ => discriminate H
  end.

(** ** Invariants of effectful programs *)

(** [m] keeps [P], whether it returns or throws. *)
Definition Preserves {S A} (P : S → Prop) (m : M S A) : Prop :=
  ∀ s, P s → P (m s).2.

Create HintDb preserves discriminated.

Section preserves.
  Context {S : Type} (P : S → Prop).

Lemma preserves_ret {A} (a : A) : Preserves P (mret a).
Proof. by intros s. Qed.
Lemma preserves_lift {A} (r : result A) : Preserves P (lift r).
Proof. by intros s. Qed.
Lemma preserves_gets {A} (f : S → A) : Preserves P (gets f).
Proof. by intros s. Qed.
Lemma preserves_throwM {A} c m : Preserves P (throwM (A:=A) c m).
Proof. by intros s. Qed.
Lemma preserves_guardM b c m : Preserves P (guardM b c m).
Proof. by intros s. Qed.
Lemma preserves_bind {A B} (m : M S A) (f : A → M S B) :
  Preserves P m → (∀ a, Preserves P (f a)) → Preserves P (m ≫= f).
Proof.
  intros Hm Hf s Hs. specialize (Hm s Hs). unfold mbind, M_bind.
  destruct (m s) as [[a|e] s']; [by apply Hf | done].
Qed.
Lemma preserves_transact {A} (m : M S A) : Preserves P m → Preserves P (transact m).
Proof.
  intros Hm s Hs. specialize (Hm s Hs). unfold transact.
  destruct (m s) as [[]?]; done.
Qed.
(** A transaction needs its invariant only where it commits. *)
Lemma preserves_transact_commit {A} (m : M S A) :
  (∀ s a s', P s → m s = (Ok a, s') → P s') → Preserves P (transact m).
Proof.
  intros Hm s Hs. unfold transact. destruct (m s) as [[]?] eqn:E; [|done].
  by eapply Hm.
Qed.
Lemma preserves_forM {A} (xs : list A) (f : A → M S unit) :
  (∀ x, Preserves P (f x)) → Preserves P (forM xs f).
Proof.
  intros Hf. induction xs as [|x xs IH]; cbn; [apply preserves_ret|].
  apply preserves_bind; auto.
Qed.
End preserves.

#[export] Hint Resolve preserves_ret preserves_lift preserves_gets preserves_throwM
  preserves_guardM preserves_bind preserves_transact preserves_forM : preserves.

(** [m] has no effect when it throws. *)
Definition Atomic {S A} (m : M S A) : Prop :=
  ∀ s e s', m s = (Throw e, s') → s' = s.

Lemma atomic_transact {S A} (m : M S A) : Atomic (transact m).
Proof. intros s e s'. apply transact_Throw. Qed.
Lemma atomic_lift {S A B} (r : result A) (f : A → M S B) :
  (∀ a, Atomic (f a)) → Atomic (lift r ≫= f).
Proof.
  intros Hf s e s'. unfold mbind, M_bind, lift. destruct r; [apply Hf|naive_solver].
Qed.
Lemma atomic_gets {S A B} (g : S → A) (f : A → M S B) :
  (∀ a, Atomic (f a)) → Atomic (gets g ≫= f).
Proof. intros Hf s e s'. unfold mbind, M_bind, gets. apply Hf. Qed.

(** An atomic operation keeps what its commits keep. *)
Lemma atomic_inv {S A} (P : S → Prop) (m : M S A) s :
  Atomic m → (∀ a s', m s = (Ok a, s') → P s') → P s → P (m s).2.
Proof.
  intros Ha Hc Hs. destruct (m s) as [[a|e] s'] eqn:E; cbn; [by eapply Hc|].
  by rewrite (Ha s e s' E).
Qed.

(** ** Relations between the state before and after *)

(** [m] moves the state along [R], whether it returns or throws. *)
Definition Respects {S A} (R : S → S → Prop) (m : M S A) : Prop :=
  ∀ s, R s (m s).2.

Create HintDb respects discriminated.

Section respects.
  Context {S : Type} (R : S → S → Prop) `{!PreOrder R}.

Lemma respects_ret {A} (a : A) : Respects R (mret a).
Proof. intros s. cbn. reflexivity. Qed.
Lemma respects_lift {A} (r : result A) : Respects R (lift r).
Proof. intros s. cbn. reflexivity. Qed.
Lemma respects_gets {A} (f : S → A) : Respects R (gets f).
Proof. intros s. cbn. reflexivity. Qed.
Lemma respects_throwM {A} c m : Respects R (throwM (A:=A) c m).
Proof. intros s. cbn. reflexivity. Qed.
Lemma respects_guardM b c m : Respects R (guardM b c m).
Proof. intros s. cbn. reflexivity. Qed.
Lemma respects_bind {A B} (m : M S A) (f : A → M S B) :
  Respects R m → (∀ a, Respects R (f a)) → Respects R (m ≫= f).
Proof.
  intros Hm Hf s. specialize (Hm s). unfold mbind, M_bind.
  destruct (m s) as [[a|e] s']; [|done]. etrans; [exact Hm|apply Hf].
Qed.
(** A computation that only validates: what follows may use its result. *)
Lemma respects_lift_bind {A B} (r : result A) (f : A → M S B) :
  (∀ a, r = Ok a → Respects R (f a)) → Respects R (lift r ≫= f).
Proof. intros H s. unfold mbind, M_bind, lift. destruct r as [a|e]; [by apply H|done]. Qed.

Lemma respects_transact {A} (m : M S A) : Respects R m → Respects R (transact m).
Proof.
  intros Hm s. specialize (Hm s). unfold transact.
  destruct (m s) as [[]?]; [done|cbn; reflexivity].
Qed.
Lemma respects_forM {A} (xs : list A) (f : A → M S unit) :
  (∀ x, Respects R (f x)) → Respects R (forM xs f).
Proof.
  intros Hf. induction xs as [|x xs IH]; cbn; [apply respects_ret|].
  apply respects_bind; auto.
Qed.
Lemma respects_mapM {A B} (f : A → M S B) (xs : list A) :
  (∀ x, Respects R (f x)) → Respects R (mapM' f xs).
Proof.
  intros Hf. induction xs as [|x xs IH]; cbn; [apply respects_ret|].
  apply respects_bind; [apply Hf|]. intros y. apply respects_bind; [done|].
  intros ys. apply respects_ret.
Qed.
End respects.

Lemma respects_mono {S A} (R R' : S → S → Prop) (m : M S A) :
  (∀ s s', R s s' → R' s s') → Respects R m → Respects R' m.
Proof. intros HR Hm s. apply HR, Hm. Qed.

(** A program that leaves a component of the state alone. *)
Definition keeps {S X} (T : S → X) (s s' : S) : Prop := T s' = T s.
#[export] Instance keeps_preorder {S X} (T : S → X) : PreOrder (keeps T).
Proof. split; unfold keeps; [done|]. intros s s' s'' E1 E2. by rewrite E2. Qed.

(** Walk through a program, leaving its statements as goals. *)
Ltac respects_step :=
  match goal with
  | |- Respects _ (mret _) => apply respects_ret; typeclasses eauto
  | |- Respects _ (lift _) => apply respects_lift; typeclasses eauto
  | |- Respects _ (gets _) => apply respects_gets; typeclasses eauto
  | |- Respects _ (throwM _ _) => apply respects_throwM; typeclasses eauto
  | |- Respects _ (guardM _ _ _) => apply respects_guardM; typeclasses eauto
  | |- Respects _ (_ ≫= _) => apply respects_bind; [typeclasses eauto| |intros ?]
  | |- Respects _ (transact _) => apply respects_transact; [typeclasses eauto|]
  | |- Respects _ (forM _ _) => apply respects_forM; [typeclasses eauto|intros ?]
  | |- Respects _ (mapM' _ _) => apply respects_mapM; [typeclasses eauto|intros ?]
  | |- Respects _ (match ?x with _ => _ end) => destruct x
  | |- Respects _ (let '_ := ?x in _) => destruct x
  | |- Respects _ _ => progress (eauto with respects)
  end.
Ltac respects := repeat respects_step.

(** ** Step relations *)

(** Reflexive transitive closure, for reachability. *)
Inductive star {A} (R : A → A → Prop) : A → A → Prop :=
| star_refl a : star R a a
| star_step a b c : R a b → star R b c → star R a c.

Lemma star_invariant {A} (R : A → A → Prop) (P : A → Prop) :
  (∀ a b, P a → R a b → P b) → ∀ a b, star R a b → P a → P b.
Proof. intros HR a b Hs. induction Hs; eauto. Qed.

(** ** Lists, options and booleans *)

Lemma existsb_True {A} (f : A → bool) l : existsb f l = true ↔ ∃ x, x ∈ l ∧ f x = true.
Proof.
  rewrite existsb_exists. split; intros (x & Hx & Hf); exists x; split; auto;
  by apply list_elem_of_In.
Qed.

Lemma forallb_True {A} (f : A → bool) l : forallb f l = true ↔ ∀ x, x ∈ l → f x = true.
Proof.
  rewrite forallb_forall. split; intros H x Hx; apply H; by apply list_elem_of_In.
Qed.

Lemma filter_none {A} (P : A → Prop) `{!∀ x, Decision (P x)} (l : list A) :
  (∀ x, x ∈ l → ¬ P x) → filter P l = [].
Proof.
  induction l as [|x l IH]; intros Hl; [done|].
  rewrite filter_cons_False by (apply Hl; left). apply IH. intros y Hy. apply Hl. by right.
Qed.
Lemma filter_every {A} (P : A → Prop) `{!∀ x, Decision (P x)} (l : list A) :
  (∀ x, x ∈ l → P x) → filter P l = l.
Proof.
  induction l as [|x l IH]; intros Hl; [done|].
  rewrite filter_cons_True by (apply Hl; left). f_equal. apply IH. intros y Hy. apply Hl. by right.
Qed.

(** [Array.prototype.sort] with a comparator: a stable sort; [le a b] says
    that [a] may stay before [b]. *)
Fixpoint insert_by {A} (le : A → A → bool) (x : A) (l : list A) : list A :=
  match l with
  | [] => [x]
  | y :: l' => if le x y then x :: l else y :: insert_by le x l'
  end.
Fixpoint sort_by {A} (le : A → A → bool) (l : list A) : list A :=
  match l with
  | [] => []
  | x :: l => insert_by le x (sort_by le l)
  end.

Lemma insert_by_perm {A} (le : A → A → bool) x l : insert_by le x l ≡ₚ x :: l.
Proof.
  induction l as [|y l IH]; cbn [insert_by]; [done|]. destruct (le x y); [done|].
  rewrite IH. apply Permutation_swap.
Qed.
Lemma sort_by_perm {A} (le : A → A → bool) l : sort_by le l ≡ₚ l.
Proof. induction l as [|x l IH]; cbn [sort_by]; [done|]. by rewrite insert_by_perm, IH. Qed.
Lemma elem_of_sort_by {A} (le : A → A → bool) x l : x ∈ sort_by le l ↔ x ∈ l.
Proof. by rewrite sort_by_perm. Qed.

Lemma insert_by_sorted {A} (le : A → A → bool) x l :
  (∀ a b, le a b = false → le b a = true) → (∀ a b c, le a b = true → le b c = true → le a c = true) →
  StronglySorted (λ a b, le a b = true) l → StronglySorted (λ a b, le a b = true) (insert_by le x l).
Proof.
  intros Htot Htr. induction 1 as [|y l Hl IH Hy]; cbn [insert_by]; [repeat constructor|].
  destruct (le x y) eqn:E.
  - constructor; [by constructor|]. constructor; [done|].
    eapply Forall_impl; [exact Hy|]. cbn. eauto.
  - constructor; [done|]. rewrite insert_by_perm. constructor; auto.
Qed.
Lemma sort_by_sorted {A} (le : A → A → bool) l :
  (∀ a b, le a b = false → le b a = true) → (∀ a b c, le a b = true → le b c = true → le a c = true) →
  StronglySorted (λ a b, le a b = true) (sort_by le l).
Proof.
  intros Htot Htr. induction l as [|x l IH]; cbn [sort_by]; [constructor|]. by apply insert_by_sorted.
Qed.

(** Sorting by a number, up or down. *)
Lemma sort_by_key {A} (key : A → Z) l : StronglySorted (λ a b, key a <= key b)%Z (sort_by (λ a b, (key a <=? key b)%Z) l).
Proof.
  assert (StronglySorted (λ a b, (key a <=? key b)%Z = true) (sort_by (λ a b, (key a <=? key b)%Z) l)) as H.
  { apply sort_by_sorted; intros; rewrite ?Z.leb_le, ?Z.leb_gt in *; lia. }
  induction H as [|x l' _ IH Hx]; constructor; [done|]. eapply Forall_impl; [exact Hx|]. intros y Hy. by apply Z.leb_le.
Qed.
Lemma sort_by_key_desc {A} (key : A → Z) l : StronglySorted (λ a b, key b <= key a)%Z (sort_by (λ a b, (key b <=? key a)%Z) l).
Proof.
  assert (StronglySorted (λ a b, (key b <=? key a)%Z = true) (sort_by (λ a b, (key b <=? key a)%Z) l)) as H.
  { apply sort_by_sorted; intros; rewrite ?Z.leb_le, ?Z.leb_gt in *; lia. }
  induction H as [|x l' _ IH Hx]; constructor; [done|]. eapply Forall_impl; [exact Hx|]. intros y Hy. by apply Z.leb_le.
Qed.

(** Rows that satisfy a condition, counted in the list or in the table. *)
Lemma length_filter_list {R} (Q : string * R → Prop) `{!∀ x, Decision (Q x)} (m : gmap string R) :
  length (filter Q (map_to_list m)) = size (filter Q m).
Proof.
  rewrite <- length_map_to_list, map_filter_alt. rewrite map_to_list_to_map; [done|].
  apply (sublist_NoDup _ (map_to_list m).*1); [apply NoDup_fst_map_to_list|].
  apply fmap_sublist, sublist_filter.
Qed.

(** [GROUP BY] with a count: every key that occurs, once, with how often. *)
Definition tally {K} `{EqDecision K} (l : list K) : list (K * Z) :=
  map (λ k, (k, Z.of_nat (length (filter (λ x, x = k) l)))) (remove_dups l).

Lemma tally_fst {K} `{EqDecision K} (l : list K) : (tally l).*1 = remove_dups l.
Proof. unfold tally. rewrite <- list_fmap_compose. apply list_fmap_id. Qed.
Lemma tally_elem {K} `{EqDecision K} (l : list K) k n :
  (k, n) ∈ tally l ↔ k ∈ l ∧ n = Z.of_nat (length (filter (λ x, x = k) l)).
Proof.
  unfold tally. rewrite list_elem_of_fmap. split.
  - intros (x & [= -> ->] & Hx). by rewrite elem_of_remove_dups in Hx.
  - intros [Hk ->]. exists k. by rewrite elem_of_remove_dups.
Qed.

Lemma filter_everything {A} (P : A → Prop) `{!∀ x, Decision (P x)} (l : list A) : (∀ x, x ∈ l → P x) → filter P l = l.
Proof.
  induction l as [|a l IH]; intros Hl; [done|]. rewrite filter_cons_True by (apply Hl; left). f_equal. apply IH. intros x Hx. apply Hl. by right.
Qed.
Lemma filter_nothing {A} (P : A → Prop) `{!∀ x, Decision (P x)} (l : list A) : (∀ x, x ∈ l → ¬ P x) → filter P l = [].
Proof.
  induction l as [|a l IH]; intros Hl; [done|]. rewrite filter_cons_False by (apply Hl; left). apply IH. intros x Hx. apply Hl. by right.
Qed.

(** The groups of the keys of a list, and how many elements each has. *)
Lemma tally_map_elem {A K} `{EqDecision K} (key : A → K) (l : list A) k n :
  (k, n) ∈ tally (map key l) ↔ n = Z.of_nat (length (filter (λ x, key x = k) l)) ∧ (0 < n)%Z.
Proof.
  assert (length (filter (λ x, x = k) (map key l)) = length (filter (λ x, key x = k) l)) as E.
  { induction l as [|a l IH]; [done|]. cbn [map]. rewrite !filter_cons. by destruct (decide (key a = k)); cbn; rewrite IH. }
  rewrite tally_elem, E. split.
  - intros [(x & -> & Hx)%list_elem_of_fmap ->]. split; [done|].
    assert (x ∈ filter (λ y, key y = key x) l) as Hin by (by apply list_elem_of_filter).
    destruct (filter _ l); [by apply not_elem_of_nil in Hin|cbn; lia].
  - intros [-> Hn]. split; [|done]. destruct (filter (λ x, key x = k) l) as [|x l'] eqn:Ef; [cbn in Hn; lia|].
    assert (x ∈ x :: l') as Hx by left. rewrite <- Ef in Hx. apply list_elem_of_filter in Hx as [<- Hx].
    by apply list_elem_of_fmap_2.
Qed.

Lemma fst_unique {A B} (l : list (A * B)) k v v' : NoDup l.*1 → (k, v) ∈ l → (k, v') ∈ l → v = v'.
Proof.
  induction l as [|[a b] l IH]; cbn; intros Hn H1 H2; [by apply not_elem_of_nil in H1|].
  apply NoDup_cons in Hn as [Ha Hn].
  assert (∀ x, (a, x) ∉ l) as Hno.
  { intros x Hx. apply Ha. apply list_elem_of_fmap. by exists (a, x). }
  apply elem_of_cons in H1 as [[= -> ->]|H1], H2 as [[= ->]|H2]; try done; [by destruct (Hno v')|by destruct (Hno v)|by apply IH].
Qed.

(** Case analysis on every boolean test in sight. *)
Ltac bool_cases :=
  repeat match goal with
  | H : context [if ?b then _ else _] |- _ =>
      lazymatch type of b with bool => destruct b eqn:?; try discriminate end
  | |- context [if ?b then _ else _] =>
      lazymatch type of b with bool => destruct b eqn:? end
  end.

(** Boolean connectives and comparisons as propositions. *)
Ltac bprop :=
  repeat match goal with
  | H : _ && _ = true |- _ => apply andb_true_iff in H as [? ?]
  | H : _ && _ = false |- _ => apply andb_false_iff in H
  | H : _ || _ = false |- _ => apply orb_false_iff in H as [? ?]
  | H : _ || _ = true |- _ => apply orb_true_iff in H
  | H : negb _ = true |- _ => apply negb_true_iff in H
  | H : negb _ = false |- _ => apply negb_false_iff in H
  | H : bool_decide _ = true |- _ => apply bool_decide_eq_true in H
  | H : bool_decide _ = false |- _ => apply bool_decide_eq_false in H
  | H : (_ =? _)%Z = true |- _ => apply Z.eqb_eq in H
  | H : (_ =? _)%Z = false |- _ => apply Z.eqb_neq in H
  | H : (_ <? _)%Z = true |- _ => apply Z.ltb_lt in H
  | H : (_ <? _)%Z = false |- _ => apply Z.ltb_ge in H
  | H : (_ <=? _)%Z = true |- _ => apply Z.leb_le in H
  | H : (_ <=? _)%Z = false |- _ => apply Z.leb_gt in H
  | H : (_ =? _)%N = true |- _ => apply N.eqb_eq in H
  | H : (_ =? _)%N = false |- _ => apply N.eqb_neq in H
  | H : (_ <=? _)%N = true |- _ => apply N.leb_le in H
  | H : (_ <=? _)%N = false |- _ => apply N.leb_gt in H
  | H : (_ =? _)%nat = true |- _ => apply Nat.eqb_eq in H
  | H : (_ =? _)%nat = false |- _ => apply Nat.eqb_neq in H
  | H : (_ <? _)%nat = true |- _ => apply Nat.ltb_lt in H
  | H : (_ <? _)%nat = false |- _ => apply Nat.ltb_ge in H
  | H : (_ <=? _)%nat = true |- _ => apply Nat.leb_le in H
  | H : (_ <=? _)%nat = false |- _ => apply Nat.leb_gt in H
  end.
