(* ===== verification/Js.v ===== *)
(** JavaScript values as the control plane's validators see them: strings as
    sequences of UTF-16 code units with the String and RegExp operations the
    source uses, numbers by their shortest decimal form, and [unknown] values
    as trees, with [JSON.stringify] and [Buffer.byteLength]. *)
From Stdlib Require Import ZArith Lia Ascii.
From S2P Require Import Prelude.

(** ** Strings *)

(** A JavaScript string is the list of its UTF-16 code units. *)
Abbreviation jsstr := (list N).

(** A literal of the source, written in ASCII. *)
Fixpoint js (s : string) : jsstr :=
  match s with
  | EmptyString => []
  | String c s => N_of_ascii c :: js s
  end.
Arguments js _%_string : simpl never.

Definition jslen (s : jsstr) : Z := Z.of_nat (length s).

Definition seqb (a b : jsstr) : bool := bool_decide (a = b).

Definition startsWith (s p : jsstr) : bool := bool_decide (p `prefix_of` s).
Definition endsWith (s p : jsstr) : bool := bool_decide (p `suffix_of` s).

(** [s.includes(c)] for a one-character [c]. *)
Definition includes (s : jsstr) (c : N) : bool := existsb (N.eqb c) s.

(** [s.slice(0, -n)] *)
Definition slice_end (s : jsstr) (n : nat) : jsstr := take (length s - n) s.

(** [s.split(c)] for a one-character [c]. *)
Fixpoint split (c : N) (s : jsstr) : list jsstr :=
  match s with
  | [] => [[]]
  | x :: s =>
      let r := split c s in
      if (x =? c)%N then [] :: r
      else match r with
           | [] => [[x]]
           | w :: ws => (x :: w) :: ws
           end
  end.

(** The text before the first [c], and what follows it if there is one. *)
Fixpoint take_until (c : N) (s : jsstr) : jsstr * option jsstr :=
  match s with
  | [] => ([], None)
  | x :: s' => if (x =? c)%N then ([], Some s') else let '(a, b) := take_until c s' in (x :: a, b)
  end.

(** [parts.join(c)] *)
Fixpoint join (c : N) (l : list jsstr) : jsstr :=
  match l with
  | [] => []
  | [w] => w
  | w :: l => w ++ c :: join c l
  end.

(** ECMAScript WhiteSpace and LineTerminator, which [trim] and the [\s] of a
    regular expression remove or match. *)
Definition is_ws (c : N) : bool :=
  (((9 <=? c) && (c <=? 13)) || (c =? 32) || (c =? 160) || (c =? 5760)
   || ((8192 <=? c) && (c <=? 8202)) || (c =? 8232) || (c =? 8233)
   || (c =? 8239) || (c =? 8287) || (c =? 12288) || (c =? 65279))%N.

Fixpoint trimStart (s : jsstr) : jsstr :=
  match s with
  | c :: s' => if is_ws c then trimStart s' else s
  | [] => []
  end.

Definition trim (s : jsstr) : jsstr := reverse (trimStart (reverse (trimStart s))).

(** [replace(/\/+$/, '')] and [replace(/^\/+/, '')] *)
Fixpoint strip_leading_slashes (s : jsstr) : jsstr :=
  match s with
  | c :: s' => if (c =? 47)%N then strip_leading_slashes s' else s
  | s => s
  end.
Definition strip_trailing_slashes (s : jsstr) : jsstr := reverse (strip_leading_slashes (reverse s)).

Definition is_digit (c : N) : bool := ((48 <=? c) && (c <=? 57))%N.
Definition is_upper (c : N) : bool := ((65 <=? c) && (c <=? 90))%N.
Definition is_lower (c : N) : bool := ((97 <=? c) && (c <=? 122))%N.
Definition is_hex (c : N) : bool :=
  is_digit c || ((65 <=? c) && (c <=? 70))%N || ((97 <=? c) && (c <=? 102))%N.

(** [s.toLowerCase()] on the ASCII range; a code unit outside it is kept.  The
    callers apply it to strings a regular expression restricted to ASCII. *)
Definition lower1 (c : N) : N := if is_upper c then (c + 32)%N else c.
Definition toLowerCase (s : jsstr) : jsstr := map lower1 s.

(** [/^[class]+$/.test(s)] *)
Definition all_plus (class : N → bool) (s : jsstr) : bool :=
  negb (bool_decide (s = [])) && forallb class s.

(** [Buffer.byteLength(s, 'utf8')]: a surrogate pair takes four bytes and a
    lone surrogate is replaced by U+FFFD, which takes three. *)
Definition is_high (c : N) : bool := ((55296 <=? c) && (c <=? 56319))%N.
Definition is_low (c : N) : bool := ((56320 <=? c) && (c <=? 57343))%N.

Fixpoint byteLength (s : jsstr) : Z :=
  match s with
  | [] => 0
  | c :: s' =>
      if (c <? 128)%N then 1 + byteLength s'
      else if (c <? 2048)%N then 2 + byteLength s'
      else match s' with
           | d :: s'' => if is_high c && is_low d then 4 + byteLength s''
                         else 3 + byteLength s'
           | [] => 3
           end
  end%Z.

(** ** Numbers *)

(** A double is finite, NaN or an infinity.  A finite one is given by its sign
    and the integers [s] and [n] of ECMAScript's Number::toString: its value is
    [s * 10^(n - k)], where [k] is the number of decimal digits of [s] and is
    as small as possible ([s = 0] for zero). *)
Inductive jsnum : Type :=
| NFin (neg : bool) (s : N) (n : Z)
| NNaN
| NInf (neg : bool).

(** [Number.isFinite] *)
Definition isFinite (x : jsnum) : bool := if x is NFin _ _ _ then true else false.

Fixpoint digits_aux (fuel : nat) (n : N) (acc : jsstr) : jsstr :=
  match fuel with
  | O => acc
  | S fuel =>
      let acc := (48 + n mod 10)%N :: acc in
      if (n <? 10)%N then acc else digits_aux fuel (n / 10)%N acc
  end.

(** Decimal digits; a number has at most as many of them as bits. *)
Definition digits (n : N) : jsstr := digits_aux (S (N.to_nat (N.size n))) n [].

Definition zeros (n : Z) : jsstr := replicate (Z.to_nat n) 48%N.

(** [Number::toString], radix 10, for a finite number. *)
Definition num_toString (neg : bool) (s : N) (n : Z) : jsstr :=
  if (s =? 0)%N then js "0" else
  let ds := digits s in
  let k := jslen ds in
  let body :=
    if ((k <=? n) && (n <=? 21))%Z then ds ++ zeros (n - k)
    else if ((0 <? n) && (n <=? 21))%Z then
      take (Z.to_nat n) ds ++ js "." ++ drop (Z.to_nat n) ds
    else if ((-6 <? n) && (n <=? 0))%Z then js "0." ++ zeros (- n) ++ ds
    else
      let e := (n - 1)%Z in
      let sign := if (e <? 0)%Z then js "-" else js "+" in
      let tail := js "e" ++ sign ++ digits (Z.to_N (Z.abs e)) in
      match ds with
      | [d] => d :: tail
      | d :: ds => d :: js "." ++ ds ++ tail
      | [] => tail
      end
  in if neg then js "-" ++ body else body.

(** [String(z)] for an integer in the safe range. *)
Definition int_toString (z : Z) : jsstr :=
  if (z <? 0)%Z then js "-" ++ digits (Z.to_N (- z)) else digits (Z.to_N z).

(** ** Values *)

(** A value of type [unknown].  [JObj] lists the own enumerable entries in the
    order of [Object.entries]. *)
Inductive jsval : Type :=
| JUndefined
| JNull
| JBool (b : bool)
| JNum (x : jsnum)
| JStr (s : jsstr)
| JArr (l : list jsval)
| JObj (l : list (jsstr * jsval)).

(** [typeof v === 'object' && v !== null && !Array.isArray(v)] *)
Definition isPlainObject (v : jsval) : bool := if v is JObj _ then true else false.

(** ** JSON.stringify *)

Definition hex1 (n : N) : N := if (n <? 10)%N then (48 + n)%N else (87 + n)%N.
Definition u_escape (c : N) : jsstr :=
  js "\u" ++ [hex1 (c / 4096); hex1 (c / 256 mod 16); hex1 (c / 16 mod 16); hex1 (c mod 16)]%N.

(** QuoteJSONString without its quotes. *)
Fixpoint quote_body (s : jsstr) : jsstr :=
  match s with
  | [] => []
  | c :: s' =>
      if (c =? 8)%N then js "\b" ++ quote_body s'
      else if (c =? 9)%N then js "\t" ++ quote_body s'
      else if (c =? 10)%N then js "\n" ++ quote_body s'
      else if (c =? 12)%N then js "\f" ++ quote_body s'
      else if (c =? 13)%N then js "\r" ++ quote_body s'
      else if (c =? 34)%N then [92; 34]%N ++ quote_body s'
      else if (c =? 92)%N then [92; 92]%N ++ quote_body s'
      else if (c <? 32)%N then u_escape c ++ quote_body s'
      else if is_high c then
        match s' with
        | d :: s'' => if is_low d then c :: d :: quote_body s''
                      else u_escape c ++ quote_body s'
        | [] => u_escape c
        end
      else if is_low c then u_escape c ++ quote_body s'
      else c :: quote_body s'
  end.

Definition quote (s : jsstr) : jsstr := [34%N] ++ quote_body s ++ [34%N].

(** [JSON.stringify(v)]; [None] is the [undefined] it returns for [undefined],
    which an object omits and an array writes as [null]. *)
Fixpoint stringify (v : jsval) : option jsstr :=
  match v with
  | JUndefined => None
  | JNull => Some (js "null")
  | JBool b => Some (if b then js "true" else js "false")
  | JNum (NFin neg s n) => Some (num_toString neg s n)
  | JNum _ => Some (js "null")
  | JStr s => Some (quote s)
  | JArr l =>
      let ws := map (λ x, default (js "null") (stringify x)) l in
      Some (js "[" ++ join 44%N ws ++ js "]")
  | JObj l =>
      let ws := omap (λ kv, (λ w, quote kv.1 ++ js ":" ++ w) <$> stringify kv.2) l in
      Some (js "{" ++ join 44%N ws ++ js "}")
  end.

(** ** Dates *)

(** [Date.prototype.toISOString] on a time value in milliseconds: the
    proleptic Gregorian calendar date and the UTC time of day. *)
Definition pad (n : nat) (z : Z) : jsstr :=
  let d := digits (Z.to_N z) in replicate (n - length d) 48%N ++ d.

(** Year, month and day of a day number counted from 1970-01-01; eras are the
    400-year cycles that start on 1 March. *)
Definition civil_from_days (days : Z) : Z * Z * Z :=
  (let z := days + 719468 in
   let era := z / 146097 in
   let doe := z mod 146097 in
   let yoe := (doe - doe / 1460 + doe / 36524 - doe / 146096) / 365 in
   let doy := doe - (365 * yoe + yoe / 4 - yoe / 100) in
   let mp := (5 * doy + 2) / 153 in
   let d := doy - (153 * mp + 2) / 5 + 1 in
   let m := if mp <? 10 then mp + 3 else mp - 9 in
   let y := yoe + era * 400 + (if m <=? 2 then 1 else 0) in
   (y, m, d))%Z.

Definition toISOString (ms : Z) : jsstr :=
  let '(y, m, d) := civil_from_days (ms / 86400000)%Z in
  let t := (ms mod 86400000)%Z in
  let year := if (y <? 0)%Z then js "-" ++ pad 6 (- y)
              else if (9999 <? y)%Z then js "+" ++ pad 6 y else pad 4 y in
  year ++ js "-" ++ pad 2 m ++ js "-" ++ pad 2 d ++ js "T"
  ++ pad 2 (t / 3600000)%Z ++ js ":" ++ pad 2 (t / 60000 mod 60)%Z ++ js ":"
  ++ pad 2 (t / 1000 mod 60)%Z ++ js "." ++ pad 3 (t mod 1000)%Z ++ js "Z".

Example toISOString_epoch : toISOString 0 = js "1970-01-01T00:00:00.000Z".
Proof. reflexivity. Qed.
Example toISOString_leap : toISOString 1709251199999 = js "2024-02-29T23:59:59.999Z".
Proof. reflexivity. Qed.

(** ** Facts *)

#[export] Instance JStr_inj : Inj (=) (=) JStr.
Proof. by intros ?? [= ->]. Qed.

Lemma seqb_eq a b : seqb a b = true ↔ a = b.
Proof. apply bool_decide_eq_true. Qed.

Lemma jslen_0 s : jslen s = 0%Z ↔ s = [].
Proof. unfold jslen. rewrite <- length_zero_iff_nil. lia. Qed.

Lemma startsWith_spec s p : startsWith s p = true ↔ ∃ t, s = p ++ t.
Proof. apply bool_decide_eq_true. Qed.

Lemma endsWith_spec s p : endsWith s p = true ↔ ∃ t, s = t ++ p.
Proof. apply bool_decide_eq_true. Qed.

Lemma includes_spec s c : includes s c = true ↔ c ∈ s.
Proof.
  unfold includes. rewrite existsb_True. split.
  - intros (x & Hx & <-%N.eqb_eq). done.
  - intros H. exists c. by rewrite N.eqb_refl.
Qed.

Lemma includes_false s c : includes s c = false ↔ c ∉ s.
Proof. rewrite <- includes_spec. destruct (includes s c); naive_solver. Qed.

Lemma slice_end_app s p : slice_end (s ++ p) (length p) = s.
Proof. unfold slice_end. by rewrite length_app, Nat.add_sub, take_app_length. Qed.

Lemma take_until_app c a b : c ∉ a → take_until c (a ++ c :: b) = (a, Some b).
Proof.
  induction a as [|x a IH]; intros Hc; cbn; [by rewrite N.eqb_refl|].
  apply not_elem_of_cons in Hc as [Hx Hc]. rewrite (proj2 (N.eqb_neq x c)) by congruence. by rewrite IH.
Qed.

Lemma split_ne c s : split c s ≠ [].
Proof. destruct s; cbn; repeat case_match; done. Qed.

Lemma join_cons c w l : l ≠ [] → join c (w :: l) = w ++ c :: join c l.
Proof. by destruct l. Qed.

(** Splitting and joining are inverse. *)
Lemma join_split c s : join c (split c s) = s.
Proof.
  induction s as [|x s IH]; [done|]. cbn [split].
  pose proof (split_ne c s) as Hne. destruct (x =? c)%N eqn:E.
  - apply N.eqb_eq in E as ->. rewrite join_cons by done. cbn. by rewrite IH.
  - destruct (split c s) as [|w ws]; [done|].
    destruct ws; cbn in *; by rewrite <- IH.
Qed.

Lemma split_no_sep c s w : w ∈ split c s → c ∉ w.
Proof.
  revert w. induction s as [|x s IH]; intros w; cbn [split].
  - intros ->%list_elem_of_singleton. apply not_elem_of_nil.
  - destruct (x =? c)%N eqn:E.
    + intros [->|Hw]%elem_of_cons; [apply not_elem_of_nil|by apply IH].
    + apply N.eqb_neq in E. destruct (split c s) as [|v vs] eqn:Hs.
      * by pose proof (split_ne c s).
      * intros [->|Hw]%elem_of_cons.
        -- rewrite not_elem_of_cons. split; [done|]. apply IH. left.
        -- apply IH. by right.
Qed.

Lemma split_elem c s w x : w ∈ split c s → x ∈ w → x ∈ s.
Proof.
  revert w. induction s as [|y s IH]; intros w; cbn [split].
  - intros ->%list_elem_of_singleton. by intros ?%not_elem_of_nil.
  - destruct (y =? c)%N.
    + intros [->|Hw]%elem_of_cons Hx; [by apply not_elem_of_nil in Hx|].
      right. by eapply IH.
    + destruct (split c s) as [|v vs].
      * intros ->%list_elem_of_singleton. intros ->%list_elem_of_singleton. left.
      * intros [->|Hw]%elem_of_cons.
        -- intros [->|Hx]%elem_of_cons; [left|]. right. by eapply IH; [left|].
        -- intros Hx. right. eapply IH; [by right|done].
Qed.

Lemma all_plus_spec class s :
  all_plus class s = true ↔ s ≠ [] ∧ ∀ c, c ∈ s → class c = true.
Proof.
  unfold all_plus. rewrite andb_true_iff, negb_true_iff, bool_decide_eq_false, forallb_True.
  done.
Qed.

Lemma trimStart_id s : (∀ c, head s = Some c → is_ws c = false) → trimStart s = s.
Proof. destruct s as [|c s]; cbn; [done|]. intros H. by rewrite H. Qed.

Lemma trim_id s :
  (∀ c, c ∈ s → is_ws c = false) → trim s = s.
Proof.
  intros H. unfold trim. rewrite (trimStart_id s).
  - rewrite trimStart_id; [apply reverse_involutive|].
    intros c Hc%head_Some_elem_of. apply H. by apply elem_of_reverse.
  - intros c Hc%head_Some_elem_of. by apply H.
Qed.

Lemma trimStart_suffix s : ∃ w, s = w ++ trimStart s.
Proof.
  induction s as [|c s [w IH]]; [by exists []|]. cbn. destruct (is_ws c); [exists (c :: w); cbn; by f_equal|by exists []].
Qed.
Lemma trimStart_head s c : head (trimStart s) = Some c → is_ws c = false.
Proof. induction s as [|x s IH]; [done|]. cbn. destruct (is_ws x) eqn:E; [exact IH|]. by intros [= <-]. Qed.
Lemma trimStart_idemp s : trimStart (trimStart s) = trimStart s.
Proof. apply trimStart_id. apply trimStart_head. Qed.
Lemma trim_elem s c : c ∈ trim s → c ∈ s.
Proof.
  unfold trim. rewrite elem_of_reverse. intros Hc. destruct (trimStart_suffix (reverse (trimStart s))) as [w Hw].
  assert (c ∈ reverse (trimStart s)) as Hr by (rewrite Hw; apply elem_of_app; by right).
  rewrite elem_of_reverse in Hr. destruct (trimStart_suffix s) as [w' ->]. apply elem_of_app. by right.
Qed.

(** A text whose ends are no white space is left alone, and a trimmed text is one. *)
Lemma trim_ends s :
  (∀ c, head s = Some c → is_ws c = false) → (∀ c, last s = Some c → is_ws c = false) → trim s = s.
Proof.
  intros Hh Hl. unfold trim. rewrite (trimStart_id s Hh), trimStart_id, reverse_involutive; [done|].
  intros c Hc. apply Hl. by rewrite <- head_reverse.
Qed.
Lemma trim_idemp s : trim (trim s) = trim s.
Proof.
  apply trim_ends; unfold trim; intros c.
  - set (t := trimStart s). destruct (trimStart_suffix (reverse t)) as [w Hw]. intros Hc.
    apply (trimStart_head s). fold t. apply (f_equal reverse) in Hw. rewrite reverse_involutive, reverse_app in Hw.
    rewrite Hw. destruct (reverse (trimStart (reverse t))); [done|]. exact Hc.
  - rewrite last_reverse. apply trimStart_head.
Qed.

Lemma trim_fixed_ends s : trim s = s → s ≠ [] → (∀ c, head s = Some c → is_ws c = false) ∧ (∀ c, last s = Some c → is_ws c = false).
Proof.
  intros Ht Hne. split; intros c Hc.
  - assert (trimStart s = s) as Hs.
    { destruct (trimStart_suffix s) as [w Hw]. unfold trim in Ht.
      destruct (trimStart_suffix (reverse (trimStart s))) as [w' Hw'].
      assert (length s = length (trimStart (reverse (trimStart s)))) as Hl by (rewrite <- Ht at 1; by rewrite length_reverse).
      apply (f_equal length) in Hw'. rewrite length_app, length_reverse in Hw'.
      pose proof (f_equal length Hw) as Hlw. rewrite length_app in Hlw. destruct w; [done|cbn in Hlw; lia]. }
    apply (trimStart_head s). by rewrite Hs.
  - rewrite <- Ht in Hc. unfold trim in Hc. rewrite last_reverse in Hc. by apply trimStart_head in Hc.
Qed.

Lemma is_lower_not_upper c : is_upper (lower1 c) = false.
Proof. unfold lower1. destruct (is_upper c) eqn:E; [|done]. unfold is_upper in *. bprop.
  apply andb_false_iff. right. apply N.leb_gt. lia.
Qed.

Lemma toLowerCase_idemp s : toLowerCase (toLowerCase s) = toLowerCase s.
Proof.
  unfold toLowerCase. rewrite map_map. apply map_ext. intros c.
  unfold lower1 at 1. by rewrite is_lower_not_upper.
Qed.

Lemma stringify_obj l : ∃ w, stringify (JObj l) = Some w.
Proof. cbn. eauto. Qed.

Example stringify_ex :
  stringify (JObj [(js "a", JNum (NFin false 15 1)); (js "b", JArr [JUndefined; JBool true]);
                   (js "c", JUndefined); (js "d", JNum (NFin true 1 (-7)))])
  = Some (js "{" ++ quote (js "a") ++ js ":1.5," ++ quote (js "b") ++ js ":[null,true],"
          ++ quote (js "d") ++ js ":-1e-8}").
Proof. vm_compute. reflexivity. Qed.

Lemma split_no c s : c ∉ s → split c s = [s].
Proof.
  induction s as [|x s IH]; [done|]. rewrite not_elem_of_cons. intros [Hx Hs].
  cbn. destruct (x =? c)%N eqn:E; [apply N.eqb_eq in E; congruence|].
  by rewrite IH.
Qed.

(** Splitting distributes over an explicit separator. *)
Lemma split_app c a b : split c (a ++ c :: b) = split c a ++ split c b.
Proof.
  induction a as [|x a IH]; cbn; [by rewrite N.eqb_refl|].
  rewrite IH. destruct (x =? c)%N; [done|].
  pose proof (split_ne c a). by destruct (split c a).
Qed.

Lemma split_join c ws : ws ≠ [] → (∀ w, w ∈ ws → c ∉ w) → split c (join c ws) = ws.
Proof.
  induction ws as [|w ws IH]; [done|]. intros _ H.
  destruct ws as [|v ws].
  - apply split_no. apply H. left.
  - rewrite join_cons, split_app, IH by (done || (intros; apply H; by right)).
    rewrite split_no; [done|]. apply H. left.
Qed.

Lemma join_app c a b : a ≠ [] → b ≠ [] → join c (a ++ b) = join c a ++ c :: join c b.
Proof.
  intros Ha Hb. induction a as [|w a IH]; [done|]. destruct a as [|v a].
  - cbn [app]. by rewrite join_cons.
  - change ((w :: v :: a) ++ b) with (w :: (v :: a) ++ b).
    rewrite join_cons by discriminate. rewrite IH by done.
    rewrite (join_cons c w (v :: a)) by done. by rewrite <- app_assoc.
Qed.

(** Slashes stripped at an end leave none there. *)
Lemma strip_leading_head s c : head (strip_leading_slashes s) = Some c → c ≠ 47%N.
Proof. induction s as [|x s IH]; cbn; [done|]. destruct (N.eqb_spec x 47); [exact IH|]. by intros [= <-]. Qed.
