(* ===== verification/EventTypes.v ===== *)
(** Event-type filters: webhook-subscriptions/event-type-pattern.ts.

    [matchesEventType] is the matcher; [rejectEventTypePattern] and
    [rejectEventTypes] decide what may be stored.  The rejection values keep
    one constructor per message of the source. *)
From Stdlib Require Import ZArith Lia.
From S2P Require Import Prelude Js.

Definition WILDCARD_ALL : jsstr := js "*".
Definition WILDCARD_SUFFIX : jsstr := js ".*".
Definition MAX_EVENT_TYPE_LENGTH : Z := 255.
Definition MAX_EVENT_TYPES_PER_SUBSCRIPTION : Z := 100.
Definition MAX_EVENT_TYPE_SEGMENTS : Z := 8.

Definition dot : N := 46.
Definition asterisk : N := 42.

(** [/^[A-Za-z0-9_-]+$/] *)
Definition segment_char (c : N) : bool :=
  is_upper c || is_lower c || is_digit c || (c =? 95)%N || (c =? 45)%N.
Definition SEGMENT (s : jsstr) : bool := all_plus segment_char s.

(** ** The matcher *)

Fixpoint matchesEventType (patterns : list jsstr) (eventType : jsstr) : bool :=
  match patterns with
  | [] => false
  | pattern :: rest =>
      if seqb pattern WILDCARD_ALL then true
      else if endsWith pattern WILDCARD_SUFFIX then
        let prefix := slice_end pattern (length WILDCARD_SUFFIX) in
        if startsWith eventType (prefix ++ [dot]) then true
        else matchesEventType rest eventType
      else if seqb pattern eventType then true
      else matchesEventType rest eventType
  end.

(** ** The validators *)

Inductive dotted_rejection : Type :=
| TooManySegments (n : Z)
| EmptySegment
| BadSegment (segment : jsstr).

Inductive pattern_rejection : Type :=
| NotAString
| EmptyPattern
| PatternTooLong (n : Z)
| SurroundingWhitespace
| BareDotStar
| StarInsidePrefix (prefix : jsstr)
| StarNotAWildcard
| Dotted (r : dotted_rejection).

Fixpoint reject_segments (segments : list jsstr) : option dotted_rejection :=
  match segments with
  | [] => None
  | segment :: rest =>
      if (jslen segment =? 0)%Z then Some EmptySegment
      else if negb (SEGMENT segment) then Some (BadSegment segment)
      else reject_segments rest
  end.

Definition rejectDottedName (value : jsstr) : option dotted_rejection :=
  let segments := split dot value in
  if (MAX_EVENT_TYPE_SEGMENTS <? Z.of_nat (length segments))%Z
  then Some (TooManySegments (Z.of_nat (length segments)))
  else reject_segments segments.

Definition rejectEventTypePattern (value : jsval) : option pattern_rejection :=
  match value with
  | JStr value =>
      if (jslen value =? 0)%Z then Some EmptyPattern
      else if (MAX_EVENT_TYPE_LENGTH <? jslen value)%Z then Some (PatternTooLong (jslen value))
      else if negb (seqb value (trim value)) then Some SurroundingWhitespace
      else if seqb value WILDCARD_ALL then None
      else if endsWith value WILDCARD_SUFFIX then
        let prefix := slice_end value (length WILDCARD_SUFFIX) in
        if (jslen prefix =? 0)%Z then Some BareDotStar
        else if includes prefix asterisk then Some (StarInsidePrefix prefix)
        else Dotted <$> rejectDottedName prefix
      else if includes value asterisk then Some StarNotAWildcard
      else Dotted <$> rejectDottedName value
  | _ => Some NotAString
  end.

Inductive list_rejection : Type :=
| NotAnArray
| EmptyList
| TooManyEntries (n : Z)
| AtIndex (index : nat) (r : pattern_rejection)
| Repeats (index : nat) (key : jsstr)
| WildcardWithOthers.

(** The loop over [value.entries()]: the first rejection, or the set of
    patterns seen. *)
Fixpoint reject_entries (index : nat) (seen : list jsstr) (l : list jsval)
  : list_rejection + list jsstr :=
  match l with
  | [] => inr seen
  | pattern :: rest =>
      match rejectEventTypePattern pattern, pattern with
      | Some rejection, _ => inl (AtIndex index rejection)
      | None, JStr key =>
          if existsb (seqb key) seen then inl (Repeats index key)
          else reject_entries (S index) (key :: seen) rest
      | None, _ => inl (AtIndex index NotAString)
      end
  end.

Definition rejectEventTypes (value : jsval) : option list_rejection :=
  match value with
  | JArr l =>
      if bool_decide (l = []) then Some EmptyList
      else if (MAX_EVENT_TYPES_PER_SUBSCRIPTION <? Z.of_nat (length l))%Z
      then Some (TooManyEntries (Z.of_nat (length l)))
      else match reject_entries 0 [] l with
           | inl r => Some r
           | inr seen =>
               if existsb (seqb WILDCARD_ALL) seen && (1 <? Z.of_nat (length seen))%Z
               then Some WildcardWithOthers else None
           end
  | _ => Some NotAnArray
  end.

(** ** The grammar of stored patterns *)

(** One to eight non-empty segments of letters, digits, [_] and [-]. *)
Definition dotted_name (s : jsstr) : Prop :=
  ∃ ws, ws ≠ [] ∧ (length ws ≤ 8)%nat ∧ (∀ w, w ∈ ws → SEGMENT w = true) ∧ s = join dot ws.

Definition pattern_grammar (s : jsstr) : Prop :=
  s = WILDCARD_ALL
  ∨ (∃ p, s = p ++ WILDCARD_SUFFIX ∧ dotted_name p)
  ∨ dotted_name s.

(** What one pattern selects, by segments. *)
Definition selects (pattern eventType : jsstr) : Prop :=
  pattern = WILDCARD_ALL
  ∨ (∃ p rest, pattern = p ++ WILDCARD_SUFFIX ∧ rest ≠ []
               ∧ split dot eventType = split dot p ++ rest)
  ∨ (¬ WILDCARD_SUFFIX `suffix_of` pattern ∧ pattern = eventType).

Lemma segment_char_facts c :
  segment_char c = true → is_ws c = false ∧ c ≠ dot ∧ c ≠ asterisk.
Proof.
  unfold segment_char, is_upper, is_lower, is_digit, is_ws, dot, asterisk.
  intros H. assert (45 <= c <= 122 ∧ c ≠ 46)%N as [Hc Hd].
  { repeat (bprop; match goal with H : _ ∨ _ |- _ => destruct H end); bprop; lia. }
  split; [|lia].
  repeat (apply orb_false_iff; split); try (apply N.eqb_neq; lia);
    apply andb_false_iff; (left + right); apply N.leb_gt; lia.
Qed.

Lemma SEGMENT_spec w :
  SEGMENT w = true → w ≠ [] ∧ ∀ c, c ∈ w → is_ws c = false ∧ c ≠ dot ∧ c ≠ asterisk.
Proof.
  unfold SEGMENT. rewrite all_plus_spec. intros [Hn Hc]. split; [done|].
  intros c ?. by apply segment_char_facts, Hc.
Qed.

Lemma SEGMENT_no_dot w : SEGMENT w = true → dot ∉ w.
Proof. intros [_ H]%SEGMENT_spec Hd. by apply H in Hd as (?&?&?). Qed.

Lemma reject_segments_None ws :
  reject_segments ws = None ↔ ∀ w, w ∈ ws → SEGMENT w = true.
Proof.
  induction ws as [|w ws IH]; cbn; [split; [by intros _ w ?%not_elem_of_nil|done]|].
  unfold jslen. destruct (Z.of_nat (length w) =? 0)%Z eqn:E; bprop.
  { split; [done|]. intros H. specialize (H w ltac:(left)).
    apply SEGMENT_spec in H as [H _]. by destruct w. }
  destruct (SEGMENT w) eqn:Hw; cbn.
  - rewrite IH. setoid_rewrite elem_of_cons. naive_solver.
  - split; [done|]. intros H. specialize (H w ltac:(left)). congruence.
Qed.

Lemma rejectDottedName_None s : rejectDottedName s = None ↔ dotted_name s.
Proof.
  unfold rejectDottedName, dotted_name, MAX_EVENT_TYPE_SEGMENTS. split.
  - destruct (8 <? _)%Z eqn:E; [done|]. bprop. rewrite reject_segments_None. intros H.
    exists (split dot s). split_and!; [apply split_ne|lia|done|by rewrite join_split].
  - intros (ws & Hn & Hl & Hw & ->).
    rewrite split_join by eauto using SEGMENT_no_dot.
    destruct (8 <? _)%Z eqn:E; bprop; [lia|]. by apply reject_segments_None.
Qed.

Lemma join_elem c ws x : x ∈ join c ws → x = c ∨ ∃ w, w ∈ ws ∧ x ∈ w.
Proof.
  induction ws as [|w ws IH]; cbn; [by intros ?%not_elem_of_nil|].
  destruct ws as [|v ws]; [intros; right; exists w; split; [left|done]|].
  rewrite elem_of_app, elem_of_cons. intros [?|[?|H]]; [|by left|].
  - right. exists w. split; [left|done].
  - apply IH in H as [?|(u&?&?)]; [by left|]. right. exists u. split; [by right|done].
Qed.

Lemma dotted_name_chars s c :
  dotted_name s → c ∈ s → is_ws c = false ∧ c ≠ asterisk.
Proof.
  intros (ws & _ & _ & Hw & ->) [->|(w & Hin & Hc)]%join_elem; [by vm_compute|].
  apply Hw, SEGMENT_spec in Hin as [_ Hin]. naive_solver.
Qed.

Lemma dotted_name_ne s : dotted_name s → s ≠ [].
Proof.
  intros (ws & Hn & _ & Hw & Hs) Hnil. subst s. destruct ws as [|w ws]; [done|].
  specialize (Hw w ltac:(left)). apply SEGMENT_spec in Hw as [Hw _].
  destruct w; [done|]. by destruct ws.
Qed.

Lemma dotted_name_not_star s : dotted_name s → asterisk ∉ s.
Proof. intros H Hc. by apply dotted_name_chars with (c:=asterisk) in H as [_ ?]. Qed.

Lemma dotted_name_not_wild s p : dotted_name s → s ≠ p ++ WILDCARD_SUFFIX.
Proof.
  intros H ->. apply (dotted_name_not_star _ H). rewrite elem_of_app. right.
  right. left.
Qed.

Lemma grammar_trim s : pattern_grammar s → trim s = s.
Proof.
  intros [->|[(p & -> & Hp)|H]]; [done| |];
    apply trim_id; intros c Hc.
  - apply elem_of_app in Hc as [Hc|Hc]; [by eapply dotted_name_chars|].
    apply elem_of_cons in Hc as [->| ->%list_elem_of_singleton]; done.
  - by eapply dotted_name_chars.
Qed.

(** A pattern is accepted for storage exactly when it is [*], a dotted name
    of one to eight segments, or such a name followed by [.*], and has at most
    255 code units: the validator decides this grammar, on every value. *)
Theorem rejectEventTypePattern_spec (v : jsval) :
  rejectEventTypePattern v = None
  ↔ ∃ s, v = JStr s ∧ (jslen s <= 255)%Z ∧ pattern_grammar s.
Proof.
  split.
  - destruct v as [| | | |s| |]; try discriminate.
    unfold rejectEventTypePattern. intros H. exists s. split; [done|].
    destruct (jslen s =? 0)%Z; [done|].
    destruct (MAX_EVENT_TYPE_LENGTH <? jslen s)%Z eqn:El; [done|].
    apply Z.ltb_ge in El. split; [exact El|].
    destruct (negb _); [done|].
    destruct (seqb s WILDCARD_ALL) eqn:Ea; [left; by apply seqb_eq|].
    destruct (endsWith s WILDCARD_SUFFIX) eqn:Ew.
    + apply endsWith_spec in Ew as [p ->]. rewrite slice_end_app in H.
      bool_cases. apply fmap_None, rejectDottedName_None in H. right. left. eauto.
    + bool_cases. apply fmap_None, rejectDottedName_None in H. by right; right.
  - intros (s & -> & Hl & Hg). unfold rejectEventTypePattern. pose proof (grammar_trim s Hg) as Ht.
    assert (s ≠ []) as Hne.
    { destruct Hg as [->|[(p & -> & _)|H]]; [done| |by apply dotted_name_ne].
      by destruct p. }
    unfold MAX_EVENT_TYPE_LENGTH.
    destruct (jslen s =? 0)%Z eqn:E0; bprop; [by apply jslen_0 in E0|].
    destruct (255 <? jslen s)%Z eqn:E1; bprop; [lia|].
    rewrite Ht, (proj2 (seqb_eq s s)) by done. cbv beta iota delta [negb].
    destruct (seqb s WILDCARD_ALL) eqn:Ea; [done|].
    destruct Hg as [->|[(p & -> & Hp)|H]]; [done| |].
    + assert (endsWith (p ++ WILDCARD_SUFFIX) WILDCARD_SUFFIX = true) as ->
        by (apply endsWith_spec; eauto).
      rewrite slice_end_app.
      destruct (jslen p =? 0)%Z eqn:E2; bprop;
        [by apply jslen_0 in E2; apply dotted_name_ne in Hp|].
      rewrite (proj2 (includes_false _ _)) by by apply dotted_name_not_star.
      apply fmap_None. by apply rejectDottedName_None.
    + destruct (endsWith s WILDCARD_SUFFIX) eqn:Ew.
      { apply endsWith_spec in Ew as [p Hp]. by apply dotted_name_not_wild with (p:=p) in H. }
      rewrite (proj2 (includes_false _ _)) by by apply dotted_name_not_star.
      apply fmap_None. by apply rejectDottedName_None.
Qed.

(** The matcher on segments. *)
Lemma matches_selects (ps : list jsstr) (t : jsstr) :
  matchesEventType ps t = true ↔ ∃ p, p ∈ ps ∧ selects p t.
Proof.
  assert (∀ p, startsWith t (p ++ [dot]) = true
               ↔ ∃ rest, rest ≠ [] ∧ split dot t = split dot p ++ rest) as Hpre.
  { intros p. rewrite startsWith_spec. split.
    - intros [u ->]. exists (split dot u). split; [apply split_ne|].
      rewrite <- app_assoc. apply split_app.
    - intros (rest & Hne & Hs). exists (join dot rest).
      rewrite <- (join_split dot t), Hs, join_app, join_split by (done || apply split_ne).
      by rewrite <- app_assoc. }
  induction ps as [|p ps IH]; cbn [matchesEventType].
  { split; [done|]. by intros (p & ?%not_elem_of_nil & _). }
  assert ((∃ q, q ∈ p :: ps ∧ selects q t) ↔ selects p t ∨ ∃ q, q ∈ ps ∧ selects q t)
    as -> by (setoid_rewrite elem_of_cons; naive_solver).
  rewrite <- IH. clear IH. destruct (seqb p WILDCARD_ALL) eqn:Ea.
  { apply seqb_eq in Ea. unfold selects. naive_solver. }
  assert (p ≠ WILDCARD_ALL) by (rewrite <- seqb_eq; by rewrite Ea).
  unfold selects. destruct (endsWith p WILDCARD_SUFFIX) eqn:Ew.
  - pose proof Ew as [q ->]%endsWith_spec. rewrite slice_end_app.
    specialize (Hpre q). destruct (startsWith t (q ++ [dot])).
    + destruct Hpre as [(rest & ? & ?) _]; [done|].
      split; [|done]. intros _. left. right. left. by exists q, rest.
    + split; [by right|]. intros [[?|[(q' & rest & Hq & Hr)|[Hn _]]]|?]; try done.
      * apply app_inj_2 in Hq as [-> _]; [|done]. assert (false = true) by (apply Hpre; eauto). done.
      * destruct Hn. by exists q.
  - assert (¬ WILDCARD_SUFFIX `suffix_of` p) as Hn.
    { intros [q Hq]. rewrite (proj2 (endsWith_spec _ _)) in Ew; naive_solver. }
    destruct (seqb p t) eqn:Et.
    + apply seqb_eq in Et. naive_solver.
    + split; [by right|]. intros [[?|[(q & rest & -> & _)|[_ ->]]]|?]; try done.
      * destruct Hn. by exists q.
      * rewrite (proj2 (seqb_eq _ _)) in Et; done.
Qed.

(** What the matcher selects, stated on dot-separated segments: an event
    type matches a list when some pattern is [*], or is [p.*] with the segments
    of [p] a proper prefix of the event type's, or (not being a wildcard) equals
    it.  So [payment.*] selects neither [payment] nor [payments.settled]. *)
Theorem matchesEventType_segments (ps : list jsstr) (t : jsstr) :
  matchesEventType ps t = true ↔ ∃ p, p ∈ ps ∧ selects p t.
Proof. exact (matches_selects ps t). Qed.

Lemma existsb_seqb k seen : existsb (seqb k) seen = true ↔ k ∈ seen.
Proof.
  rewrite existsb_True. setoid_rewrite seqb_eq. naive_solver.
Qed.

Definition accepted (p : jsstr) : Prop := rejectEventTypePattern (JStr p) = None.

Lemma reject_entries_inr l i seen seen' :
  reject_entries i seen l = inr seen'
  ↔ ∃ ps, l = JStr <$> ps ∧ Forall accepted ps ∧ NoDup ps
          ∧ (∀ p, p ∈ ps → p ∉ seen) ∧ seen' = reverse ps ++ seen.
Proof.
  revert i seen. induction l as [|v l IH]; intros i seen; cbn.
  - split.
    + intros [= ->]. exists []. split_and!; [done|constructor|constructor| |done].
      by intros p ?%not_elem_of_nil.
    + intros (ps & Hl & _ & _ & _ & ->). by destruct ps.
  - destruct (rejectEventTypePattern v) eqn:Ev.
    { split; [done|]. intros (ps & Hl & Ha & _). destruct ps as [|p0 ps]; [done|].
      injection Hl as -> _. apply Forall_cons in Ha as [Ha _]. unfold accepted in Ha. congruence. }
    destruct v as [| | | |k| |]; try discriminate.
    destruct (existsb (seqb k) seen) eqn:Ek.
    + apply existsb_seqb in Ek. split; [done|].
      intros (ps & Hl & _ & _ & Hd & _). destruct ps as [|p0 ps]; [done|].
      injection Hl as -> _. by destruct (Hd p0 ltac:(left)).
    + assert (k ∉ seen) as Hk by (rewrite <- existsb_seqb; by rewrite Ek).
      rewrite IH. split.
      * intros (ps & -> & Ha & Hnd & Hd & ->). exists (k :: ps).
        split_and!; [done|by constructor| | |by rewrite reverse_cons, <- app_assoc].
        -- constructor; [|done]. intros Hin. apply (Hd _ Hin). left.
        -- intros p [->|Hp]%elem_of_cons; [done|]. intros Hs. apply (Hd _ Hp). by right.
      * intros (ps & Hl & Ha & Hnd & Hd & ->). destruct ps as [|p ps]; [done|].
        injection Hl as <- ->. apply Forall_cons in Ha as [_ Ha].
        apply NoDup_cons in Hnd as [Hp Hnd]. exists ps.
        split_and!; [done|done|done| |by rewrite reverse_cons, <- app_assoc].
        intros q Hq. rewrite not_elem_of_cons. split; [by intros ->|].
        apply Hd. by right.
Qed.

(** What an accepted list is. *)
Lemma rejectEventTypes_None (v : jsval) :
  rejectEventTypes v = None
  ↔ ∃ ps, v = JArr (JStr <$> ps) ∧ (1 ≤ length ps ≤ 100)%nat ∧ NoDup ps
          ∧ Forall accepted ps ∧ (WILDCARD_ALL ∈ ps → ps = [WILDCARD_ALL]).
Proof.
  split.
  - destruct v as [| | | | |l|]; try discriminate. unfold rejectEventTypes.
    case_bool_decide as Hl; [done|].
    destruct (MAX_EVENT_TYPES_PER_SUBSCRIPTION <? _)%Z eqn:En; [done|].
    unfold MAX_EVENT_TYPES_PER_SUBSCRIPTION in En. apply Z.ltb_ge in En.
    destruct (reject_entries 0 [] l) as [|seen] eqn:Er; [done|].
    apply reject_entries_inr in Er as (ps & -> & Ha & Hnd & _ & ->).
    rewrite app_nil_r, length_reverse. rewrite length_fmap in En.
    destruct (_ && _) eqn:Ew; [done|]. intros _. exists ps. split_and!; try done; [|lia|].
    { destruct ps; [done|]. cbn. lia. }
    intros Hw. apply andb_false_iff in Ew as [Ew|Ew]; bprop.
    { rewrite (proj2 (existsb_seqb _ _)) in Ew; [done|]. by apply elem_of_reverse. }
    destruct ps as [|p [|q ps]]; [by apply not_elem_of_nil in Hw| |cbn in Ew; lia].
    by apply list_elem_of_singleton in Hw as ->.
  - intros (ps & -> & Hlen & Hnd & Ha & Hw). unfold rejectEventTypes.
    rewrite bool_decide_false by (destruct ps; cbn in *; [lia|done]).
    unfold MAX_EVENT_TYPES_PER_SUBSCRIPTION. rewrite length_fmap.
    destruct (100 <? _)%Z eqn:En; bprop; [lia|].
    assert (reject_entries 0 [] (JStr <$> ps) = inr (reverse ps)) as ->.
    { apply reject_entries_inr. exists ps. rewrite app_nil_r. split_and!; try done.
      by intros p _ ?%not_elem_of_nil. }
    destruct (existsb _ _) eqn:Ew; [|done]. apply existsb_seqb in Ew.
    rewrite elem_of_reverse in Ew.
    by rewrite (Hw Ew).
Qed.


Lemma split_dotted_hd p : dotted_name p → ∃ w ws, split dot p = w :: ws ∧ SEGMENT w = true.
Proof.
  intros (ws & Hn & _ & Hw & ->). rewrite split_join by eauto using SEGMENT_no_dot.
  destruct ws as [|w ws]; [done|]. exists w, ws. split; [done|]. apply Hw. left.
Qed.

(** A stored filter is never widened: if an accepted list is not exactly
    [["*"]], every event type it selects shares its first segment with one of
    the listed patterns. *)
Theorem accepted_never_widened (ps : list jsstr) (t : jsstr)
  (Hacc : rejectEventTypes (JArr (JStr <$> ps)) = None)
  (Hne : ps ≠ [WILDCARD_ALL])
  (Hm : matchesEventType ps t = true) :
  ∃ p, p ∈ ps ∧ head (split dot t) = head (split dot p).
Proof.
  apply rejectEventTypes_None in Hacc as (ps' & Heq & _ & _ & Ha & Hw).
  assert (ps = ps') as <-.
  { injection Heq as Heq. by apply (inj (fmap JStr)) in Heq. }
  apply matches_selects in Hm as (p & Hp & [->|[(q & rest & -> & _ & Hs)|[_ ->]]]).
  - by apply Hw in Hp.
  - exists (q ++ WILDCARD_SUFFIX). split; [done|]. rewrite Hs.
    rewrite Forall_forall in Ha. specialize (Ha _ Hp).
    change WILDCARD_SUFFIX with (dot :: [asterisk]). rewrite split_app.
    pose proof (split_ne dot q). by destruct (split dot q).
  - by exists t.
Qed.

Lemma accepted_never_widened_witness :
  ∃ p, p ∈ [js "payment.*"; js "user.created"]
       ∧ head (split dot (js "payment.card.settled")) = head (split dot p).
Proof.
  apply (accepted_never_widened [js "payment.*"; js "user.created"] (js "payment.card.settled"));
    [vm_compute; reflexivity|discriminate|vm_compute; reflexivity].
Defined.
