(* ===== verification/PayloadFilter.v ===== *)
(** Payload predicates: webhook-subscriptions/payload-filter.ts.

    The validator walks a JSON value with a shared node budget and stops at the
    first problem.  [where] strings only feed the messages and are left out;
    each message is a constructor of [filter_rejection]. *)
From Stdlib Require Import ZArith Lia.
From S2P Require Import Prelude Js.

(** [PAYLOAD_FILTER_LIMITS] *)
Definition maxBytes : Z := 4096.
Definition maxDepth : nat := 5.
Definition maxNodes : Z := 64.
Definition maxPathSegments : Z := 8.
Definition maxPathLength : Z := 200.
Definition maxListValues : Z := 50.
Definition maxBranches : Z := 20.
Definition maxStringLength : Z := 500.

Definition COMPARISON_OPERATORS : list jsstr :=
  [js "$eq"; js "$ne"; js "$gt"; js "$gte"; js "$lt"; js "$lte"; js "$in"; js "$nin"; js "$exists"].
Definition NUMERIC : list jsstr := [js "$gt"; js "$gte"; js "$lt"; js "$lte"].
Definition LIST : list jsstr := [js "$in"; js "$nin"].
Definition FORBIDDEN_SEGMENTS : list jsstr := [js "__proto__"; js "constructor"; js "prototype"].

(** [set.has(k)] *)
Definition has (set : list jsstr) (k : jsstr) : bool := existsb (seqb k) set.

(** [/^[A-Za-z0-9_-]+$/] *)
Definition PATH_SEGMENT (s : jsstr) : bool :=
  all_plus (λ c, is_upper c || is_lower c || is_digit c || (c =? 95)%N || (c =? 45)%N) s.

Inductive filter_rejection : Type :=
| NotAnObject | EmptyObject | NestedTooDeep | TooManyConditions
| NeedsBranches | TooManyBranches | UnknownLogicalOperator
| PathEmpty | PathTooLong | PathTooManySegments | PathEmptySegment
| PathForbidden | PathBadSegment
| ScalarNotFinite | ScalarStringTooLong | NotAScalar
| EmptyCondition | UnknownOperator | ExistsNotBoolean | OrderingNotNumeric
| ListNotArray | ListEmpty | ListTooLong
| FilterTooLarge (bytes : Z) | FilterNotObjectOrNull.

(** ** Scalars and paths *)

Definition isScalar (v : jsval) : bool :=
  match v with
  | JNull | JStr _ | JBool _ => true
  | JNum x => isFinite x
  | _ => false
  end.

Definition rejectScalar (v : jsval) : option filter_rejection :=
  match v with
  | JNum x => if negb (isFinite x) then Some ScalarNotFinite
              else if negb (isScalar v) then Some NotAScalar else None
  | JStr s => if (maxStringLength <? jslen s)%Z then Some ScalarStringTooLong
              else if negb (isScalar v) then Some NotAScalar else None
  | _ => if negb (isScalar v) then Some NotAScalar else None
  end.

Fixpoint reject_path_segments (segments : list jsstr) : option filter_rejection :=
  match segments with
  | [] => None
  | segment :: rest =>
      if (jslen segment =? 0)%Z then Some PathEmptySegment
      else if has FORBIDDEN_SEGMENTS segment then Some PathForbidden
      else if negb (PATH_SEGMENT segment) then Some PathBadSegment
      else reject_path_segments rest
  end.

Definition rejectFieldPath (path : jsstr) : option filter_rejection :=
  if (jslen path =? 0)%Z then Some PathEmpty
  else if (maxPathLength <? jslen path)%Z then Some PathTooLong
  else let segments := split 46%N path in
  if (maxPathSegments <? Z.of_nat (length segments))%Z then Some PathTooManySegments
  else reject_path_segments segments.

(** ** Loops with the shared budget *)

(** [budget.nodes], and a check that either rejects or goes on. *)
Definition checked : Type := option filter_rejection * Z.

(** [for (const x of l) { const r = f(x); if (r) return r; }] *)
Fixpoint loop {A} (f : A → Z → checked) (l : list A) (nodes : Z) : checked :=
  match l with
  | [] => (None, nodes)
  | x :: l =>
      match f x nodes with
      | (None, nodes) => loop f l nodes
      | r => r
      end
  end.

(** [budget.nodes += 1; if (budget.nodes > maxNodes) return ...; k] *)
Definition charge (nodes : Z) (k : Z → checked) : checked :=
  let nodes := (nodes + 1)%Z in
  if (maxNodes <? nodes)%Z then (Some TooManyConditions, nodes) else k nodes.

(** A check that does not touch the budget. *)
Definition pure (r : option filter_rejection) (nodes : Z) : checked := (r, nodes).

(** One [operator: operand] entry of a condition. *)
Definition rejectOperand (operator : jsstr) (operand : jsval) : option filter_rejection :=
  if negb (has COMPARISON_OPERATORS operator) then Some UnknownOperator
  else if seqb operator (js "$exists") then
    match operand with JBool _ => None | _ => Some ExistsNotBoolean end
  else if has NUMERIC operator then
    match operand with
    | JNum x => if negb (isFinite x) then Some OrderingNotNumeric else None
    | _ => Some OrderingNotNumeric
    end
  else if has LIST operator then
    match operand with
    | JArr l =>
        if bool_decide (l = []) then Some ListEmpty
        else if (maxListValues <? Z.of_nat (length l))%Z then Some ListTooLong
        else (loop (λ member, pure (rejectScalar member)) l 0).1
    | _ => Some ListNotArray
    end
  else rejectScalar operand.

Definition rejectCondition (value : jsval) (nodes : Z) : checked :=
  match value with
  | JObj entries =>
      if bool_decide (entries = []) then (Some EmptyCondition, nodes)
      else loop (λ e nodes, charge nodes (pure (rejectOperand e.1 e.2))) entries nodes
  | _ => (rejectScalar value, nodes)
  end.

(** ** Filters

    [depth] starts at 1 and grows by one per nested filter; the model counts
    the levels left instead, [lvl = maxDepth + 1 - depth], so [lvl = 0] is the
    code's [depth > maxDepth]. *)
Fixpoint rejectFilterObject (lvl : nat) (value : jsval) (nodes : Z) : checked :=
  match lvl with
  | O => (Some NestedTooDeep, nodes)
  | S lvl =>
      match value with
      | JObj entries =>
          if bool_decide (entries = []) then (Some EmptyObject, nodes)
          else loop (λ e nodes,
            let '(key, condition) := e in
            charge nodes (λ nodes,
              if seqb key (js "$and") || seqb key (js "$or") then
                match condition with
                | JArr l =>
                    if bool_decide (l = []) then (Some NeedsBranches, nodes)
                    else if (maxBranches <? Z.of_nat (length l))%Z
                    then (Some TooManyBranches, nodes)
                    else loop (λ branch, rejectFilterObject lvl branch) l nodes
                | _ => (Some NeedsBranches, nodes)
                end
              else if seqb key (js "$not") then rejectFilterObject lvl condition nodes
              else if startsWith key (js "$") then (Some UnknownLogicalOperator, nodes)
              else match rejectFieldPath key with
                   | Some r => (Some r, nodes)
                   | None => rejectCondition condition nodes
                   end)) entries nodes
      | _ => (Some NotAnObject, nodes)
      end
  end.

(** The [catch] of the source (a cycle, a throwing [toJSON]) does not arise on
    a finite tree of plain values. *)
Definition rejectPayloadFilter (value : jsval) : option filter_rejection :=
  match value with
  | JNull | JUndefined => None
  | JObj _ =>
      let bytes := byteLength (default [] (stringify value)) in
      if (maxBytes <? bytes)%Z then Some (FilterTooLarge bytes)
      else (rejectFilterObject maxDepth value 0).1
  | _ => Some FilterNotObjectOrNull
  end.

(** ** Specification: the language without a budget *)

(** What a condition and a filter cost: one node per entry, at every level. *)
Definition condition_nodes (v : jsval) : Z :=
  match v with JObj entries => Z.of_nat (length entries) | _ => 0 end.

Definition sum {A} (f : A → Z) (l : list A) : Z := foldr (λ x n, f x + n)%Z 0%Z l.

Definition is_and_or (key : jsstr) : bool := seqb key (js "$and") || seqb key (js "$or").

Fixpoint filter_nodes (lvl : nat) (v : jsval) : Z :=
  match lvl, v with
  | S lvl, JObj entries =>
      sum (λ e, 1 + (if is_and_or e.1 then
                       match e.2 with JArr l => sum (filter_nodes lvl) l | _ => 0 end
                     else if seqb e.1 (js "$not") then filter_nodes lvl e.2
                     else condition_nodes e.2))%Z entries
  | _, _ => 0
  end.

(** JSON scalars with strings of at most 500 code units. *)
Definition scalar_ok (v : jsval) : Prop :=
  v = JNull ∨ (∃ b, v = JBool b) ∨ (∃ neg s n, v = JNum (NFin neg s n))
  ∨ (∃ s, v = JStr s ∧ (jslen s <= 500)%Z).

(** Which operand each comparison operator takes. *)
Definition operand_ok (operator : jsstr) (v : jsval) : Prop :=
  (operator = js "$exists" ∧ ∃ b, v = JBool b)
  ∨ (operator ∈ NUMERIC ∧ ∃ neg s n, v = JNum (NFin neg s n))
  ∨ (operator ∈ LIST ∧ ∃ l, v = JArr l ∧ (1 ≤ length l ≤ 50)%nat ∧ ∀ x, x ∈ l → scalar_ok x)
  ∨ (operator ∈ [js "$eq"; js "$ne"] ∧ scalar_ok v).

Definition condition_ok (v : jsval) : Prop :=
  match v with
  | JObj entries => entries ≠ [] ∧ ∀ e, e ∈ entries → operand_ok e.1 e.2
  | _ => scalar_ok v
  end.

(** At most 200 code units in at most eight segments, none of them empty,
    outside the segment alphabet or a prototype key. *)
Definition path_ok (path : jsstr) : Prop :=
  (jslen path <= 200)%Z ∧ (length (split 46%N path) ≤ 8)%nat
  ∧ ∀ w, w ∈ split 46%N path → PATH_SEGMENT w = true ∧ w ∉ FORBIDDEN_SEGMENTS.

(** Filters of at most [lvl] levels. *)
Inductive filter_ok : nat → jsval → Prop :=
| filter_ok_obj lvl entries :
    entries ≠ [] →
    (∀ e, e ∈ entries → entry_ok lvl e.1 e.2) →
    filter_ok (S lvl) (JObj entries)
with entry_ok : nat → jsstr → jsval → Prop :=
| entry_and_or lvl key l :
    is_and_or key = true → l ≠ [] → (Z.of_nat (length l) <= maxBranches)%Z →
    (∀ b, b ∈ l → filter_ok lvl b) →
    entry_ok lvl key (JArr l)
| entry_not lvl f : filter_ok lvl f → entry_ok lvl (js "$not") f
| entry_field lvl path c :
    path_ok path → condition_ok c →
    entry_ok lvl path c.

(** ** Proofs *)

Lemma sum_nonneg {A} (f : A → Z) l : (∀ x, x ∈ l → (0 <= f x)%Z) → (0 <= sum f l)%Z.
Proof.
  induction l as [|x l IH]; intros H; cbn; [done|].
  pose proof (H x ltac:(left)). assert (0 <= sum f l)%Z by (apply IH; intros; apply H; by right).
  unfold sum in *. lia.
Qed.

Lemma charges_loop {A} (f : A → Z → checked) ok cost l :
  (∀ x, x ∈ l → (0 <= cost x)%Z) →
  (∀ x b b', x ∈ l → (b <= maxNodes)%Z →
     f x b = (None, b') ↔ ok x ∧ b' = (b + cost x)%Z ∧ (b' <= maxNodes)%Z) →
  ∀ b b', (b <= maxNodes)%Z →
    loop f l b = (None, b')
    ↔ (∀ x, x ∈ l → ok x) ∧ b' = (b + sum cost l)%Z ∧ (b' <= maxNodes)%Z.
Proof.
  intros Hpos Hf. induction l as [|x l IH]; intros b b' Hb; cbn.
  { split.
    - intros [= <-]. split_and!; [by intros x ?%not_elem_of_nil|lia|done].
    - intros (_ & -> & _). f_equal. lia. }
  assert (∀ y, y ∈ l → y ∈ x :: l) as Hin by (intros; by right).
  specialize (IH (λ y Hy, Hpos y (Hin y Hy)) (λ y b b' Hy, Hf y b b' (Hin y Hy))).
  destruct (f x b) as [[r|] b1] eqn:E.
  - split; [done|]. intros (Hok & -> & Hle).
    assert (0 <= sum cost l)%Z by (apply sum_nonneg; eauto).
    destruct (Hf x b (b + cost x)%Z ltac:(left) Hb) as [_ Hback].
    rewrite E in Hback. discriminate Hback. split_and!; [apply Hok; left|done|].
    unfold sum in *. lia.
  - apply Hf in E as (Hx' & -> & Hle); [|left|done]. rewrite IH by done.
    setoid_rewrite elem_of_cons. unfold sum. split.
    + intros (Hok & -> & ?). split_and!; [naive_solver|lia|done].
    + intros (Hok & -> & ?). split_and!; [naive_solver|lia|lia].
Qed.

Lemma charge_None k nodes b' :
  charge nodes k = (None, b') ↔ (nodes + 1 <= maxNodes)%Z ∧ k (nodes + 1)%Z = (None, b').
Proof.
  unfold charge. destruct (maxNodes <? nodes + 1)%Z eqn:E; bprop; [|naive_solver].
  split; [done|]. intros [? _]. lia.
Qed.

Lemma has_spec l k : has l k = true ↔ k ∈ l.
Proof. unfold has. rewrite existsb_True. setoid_rewrite seqb_eq. naive_solver. Qed.

Lemma rejectScalar_None v : rejectScalar v = None ↔ scalar_ok v.
Proof.
  unfold scalar_ok. destruct v as [| |b|[neg s n| |]|s| |]; cbn; unfold maxStringLength; split;
    try (intros H; repeat (destruct H as [H|H]); naive_solver); try naive_solver.
  - destruct (500 <? jslen s)%Z eqn:E; [done|]. bprop. intros _. do 3 right. eauto.
  - intros [?|[[? ?]|[(?&?&?&?)|(s' & [= <-] & Hs)]]]; try done.
    destruct (500 <? jslen s)%Z eqn:E; bprop; [lia|done].
Qed.

Lemma pure_loop {A} (f : A → option filter_rejection) l n :
  (loop (λ x, pure (f x)) l n).1 = None ↔ ∀ x, x ∈ l → f x = None.
Proof.
  revert n. induction l as [|x l IH]; intros n; cbn.
  - split; [by intros _ x ?%not_elem_of_nil|done].
  - unfold pure at 1. destruct (f x) eqn:E; setoid_rewrite elem_of_cons.
    + split; [done|]. intros H. specialize (H x). naive_solver.
    + rewrite IH. naive_solver.
Qed.

(** The four operator classes of the dispatch in [rejectOperand]. *)
Inductive op_class : jsstr → Prop :=
| op_exists : op_class (js "$exists")
| op_numeric o : o ∈ NUMERIC → op_class o
| op_list o : o ∈ LIST → op_class o
| op_eq o : o ∈ [js "$eq"; js "$ne"] → op_class o.

Lemma op_classify o : o ∈ COMPARISON_OPERATORS ↔ op_class o.
Proof.
  split.
  - unfold COMPARISON_OPERATORS. intros H. repeat (apply elem_of_cons in H as [->|H]);
      try (by apply not_elem_of_nil in H);
      first [by apply op_exists | by apply op_eq; set_solver
            | by apply op_numeric; unfold NUMERIC; set_solver
            | by apply op_list; unfold LIST; set_solver].
  - destruct 1; unfold COMPARISON_OPERATORS, NUMERIC, LIST in *; set_solver.
Qed.

Lemma rejectOperand_None o v : rejectOperand o v = None ↔ operand_ok o v.
Proof.
  unfold rejectOperand. destruct (has COMPARISON_OPERATORS o) eqn:Hc; cbn [negb].
  2:{ split; [done|]. intros H. assert (o ∈ COMPARISON_OPERATORS) as Hin.
      { apply op_classify. destruct H as [[-> _]|[[H _]|[[H _]|[H _]]]];
          eauto using op_class. }
      apply has_spec in Hin. congruence. }
  apply has_spec, op_classify in Hc.
  assert (∀ a, a ∈ NUMERIC → has NUMERIC a = true ∧ seqb a (js "$exists") = false
               ∧ a ∉ LIST ∧ a ∉ [js "$eq"; js "$ne"] ∧ a ≠ js "$exists") as HN.
  { intros a H. unfold NUMERIC in H. repeat (apply elem_of_cons in H as [->|H]);
      try (by apply not_elem_of_nil in H);
      (split_and!; [done|done|by rewrite <- has_spec|by rewrite <- has_spec|done]). }
  assert (∀ a, a ∈ LIST → has LIST a = true ∧ seqb a (js "$exists") = false
               ∧ a ∉ NUMERIC ∧ a ∉ [js "$eq"; js "$ne"] ∧ a ≠ js "$exists") as HL.
  { intros a H. unfold LIST in H. repeat (apply elem_of_cons in H as [->|H]);
      try (by apply not_elem_of_nil in H);
      (split_and!; [done|done|by rewrite <- has_spec|by rewrite <- has_spec|done]). }
  assert (∀ a, a ∈ [js "$eq"; js "$ne"] → seqb a (js "$exists") = false
               ∧ has NUMERIC a = false ∧ has LIST a = false ∧ a ≠ js "$exists") as HE.
  { intros a H. repeat (apply elem_of_cons in H as [->|H]);
      try (by apply not_elem_of_nil in H); by split_and!. }
  unfold operand_ok. destruct Hc as [|o Ho|o Ho|o Ho].
  - rewrite (proj2 (seqb_eq _ _)) by done.
    assert (js "$exists" ∉ NUMERIC ∧ js "$exists" ∉ LIST ∧ js "$exists" ∉ [js "$eq"; js "$ne"])
      as (?&?&?) by (rewrite <- !has_spec; done).
    clear HN HL HE. destruct v; naive_solver.
  - destruct (HN o Ho) as (-> & -> & ? & ? & ?). clear HN HL HE.
    destruct v as [| | |[]| | |]; cbn; naive_solver.
  - destruct (HL o Ho) as (E & -> & Hn & ? & ?). clear HN HL HE.
    destruct (has NUMERIC o) eqn:E'; [by apply has_spec in E'|]. rewrite E.
    destruct v as [| | | | |l|]; try (split; [done|]; naive_solver).
    case_bool_decide as Hl; [subst; split; [done|]; cbn; naive_solver lia|].
    unfold maxListValues. destruct (50 <? _)%Z eqn:E1; bprop.
    { split; [done|]. intros [?|[?|[(?&?&?&?&?)|?]]]; naive_solver lia. }
    rewrite pure_loop. setoid_rewrite rejectScalar_None.
    assert (1 ≤ length l)%nat by (destruct l; cbn; [done|lia]).
    split; [|naive_solver]. intros ?. right. right. left. split; [done|].
    exists l. split_and!; [done|done|lia|done].
  - destruct (HE o Ho) as (-> & EN & EL & ?). rewrite EN, EL, rejectScalar_None.
    split; [naive_solver|]. intros [[? _]|[[Hn%has_spec _]|[[Hn%has_spec _]|[_ ?]]]];
      congruence || done.
Qed.

Lemma reject_path_segments_None ws :
  reject_path_segments ws = None
  ↔ ∀ w, w ∈ ws → PATH_SEGMENT w = true ∧ w ∉ FORBIDDEN_SEGMENTS.
Proof.
  induction ws as [|w ws IH]; cbn [reject_path_segments].
  { split; [by intros _ w ?%not_elem_of_nil|done]. }
  destruct (jslen w =? 0)%Z eqn:E0; bprop.
  { apply jslen_0 in E0 as ->. split; [done|]. intros H. by destruct (H [] ltac:(left)). }
  destruct (has FORBIDDEN_SEGMENTS w) eqn:Ef.
  { apply has_spec in Ef. split; [done|]. intros H. by destruct (H w ltac:(left)). }
  assert (w ∉ FORBIDDEN_SEGMENTS) by (rewrite <- has_spec; by rewrite Ef).
  destruct (PATH_SEGMENT w) eqn:Ep; cbn [negb].
  - rewrite IH. split.
    + intros Hw u [->|Hu]%elem_of_cons; auto.
    + intros Hw u Hu. apply Hw. by right.
  - split; [done|]. intros H'. destruct (H' w ltac:(left)). congruence.
Qed.

Lemma rejectFieldPath_None path : rejectFieldPath path = None ↔ path_ok path.
Proof.
  unfold rejectFieldPath, path_ok, maxPathLength, maxPathSegments.
  destruct (jslen path =? 0)%Z eqn:E0; bprop.
  { apply jslen_0 in E0 as ->. split; [done|]. intros (_ & _ & H).
    by destruct (H [] ltac:(left)). }
  destruct (200 <? jslen path)%Z eqn:E1; bprop; [split; [done|intros (?&_); lia]|].
  destruct (8 <? _)%Z eqn:E2; bprop; [split; [done|intros (_&?&_); lia]|].
  rewrite reject_path_segments_None. split; [|naive_solver].
  intros. split_and!; [done|lia|done].
Qed.

Lemma path_ok_no_dollar path : path_ok path → startsWith path (js "$") = false.
Proof.
  intros (_ & _ & H). destruct (startsWith path (js "$")) eqn:E; [|done].
  apply startsWith_spec in E as [t ->]. exfalso.
  pose proof (split_ne 46%N t). change (js "$" ++ t) with (36%N :: t) in H. cbn in H. destruct (split 46%N t) as [|w ws]; [done|].
  destruct (H (36%N :: w) ltac:(left)) as [Hs _].
  apply all_plus_spec in Hs as [_ Hs]. specialize (Hs 36%N ltac:(left)). done.
Qed.

Lemma rejectCondition_None v b b' :
  (b <= maxNodes)%Z →
  rejectCondition v b = (None, b')
  ↔ condition_ok v ∧ b' = (b + condition_nodes v)%Z ∧ (b' <= maxNodes)%Z.
Proof.
  intros Hb.
  assert ((rejectScalar v, b) = (None, b')
          ↔ scalar_ok v ∧ b' = (b + 0)%Z ∧ (b' <= maxNodes)%Z) as Hs.
  { rewrite Z.add_0_r, <- rejectScalar_None. destruct (rejectScalar v); split; [done|by intros [? _]| |].
    - intros [= <-]. done.
    - by intros (_ & -> & _). }
  destruct v as [| | | | | |entries]; try exact Hs.
  cbn [rejectCondition condition_ok condition_nodes].
  case_bool_decide as He; [split; [done|by intros [[? _] _]]|].
  assert (Z.of_nat (length entries) = sum (λ _, 1%Z) entries) as ->.
  { clear. induction entries as [|e l IH]; [done|]. cbn [length]. unfold sum in *. cbn. lia. }
  rewrite (charges_loop _ (λ e, operand_ok e.1 e.2) (λ _, 1%Z)); [| | |done].
  - split; [intros (?&?&?)|intros ([_ ?]&?&?)]; split_and!; done.
  - intros; lia.
  - intros [op v] n n' _ Hn. rewrite charge_None, <- rejectOperand_None.
    unfold pure. cbn. split.
    + intros [? [= -> <-]]. done.
    + intros (-> & -> & ?). done.
Qed.

Lemma filter_nodes_nonneg lvl v : (0 <= filter_nodes lvl v)%Z.
Proof.
  revert v. induction lvl as [|lvl IH]; intros [| | | | | |l]; cbn; try lia.
  apply sum_nonneg. intros [k v] _. cbn.
  assert (0 <= condition_nodes v)%Z by (destruct v; cbn; lia).
  destruct (is_and_or k); [destruct v; try lia|destruct (seqb _ _); [|lia]; specialize (IH v); lia].
  assert (0 <= sum (filter_nodes lvl) l0)%Z by (apply sum_nonneg; auto). lia.
Qed.

Lemma and_or_dollar k : is_and_or k = true → startsWith k (js "$") = true.
Proof.
  unfold is_and_or. intros [H|H]%orb_true_iff; apply seqb_eq in H as ->; done.
Qed.

Lemma rejectFilterObject_None lvl v b b' :
  (b <= maxNodes)%Z →
  rejectFilterObject lvl v b = (None, b')
  ↔ filter_ok lvl v ∧ b' = (b + filter_nodes lvl v)%Z ∧ (b' <= maxNodes)%Z.
Proof.
  revert v b b'. induction lvl as [|lvl IH]; intros v b b' Hb.
  { cbn. split; [done|]. intros (H & _). inversion H. }
  destruct v as [| | | | | |entries]; try (cbn; split; [done|intros (H & _); inversion H]).
  cbn [rejectFilterObject filter_nodes].
  case_bool_decide as He.
  { split; [done|]. intros (H & _). inversion H; congruence. }
  erewrite (charges_loop _ (λ e, entry_ok lvl e.1 e.2)); [| | |done].
  - split.
    + intros (H & -> & ?). split_and!; [by constructor|done|done].
    + intros (H & -> & ?). inversion H; subst. naive_solver.
  - intros [k v] _. cbn. assert (0 <= condition_nodes v)%Z by (destruct v; cbn; lia).
    pose proof (filter_nodes_nonneg lvl v).
    destruct (is_and_or k); [destruct v; try lia|by destruct (seqb _ _); lia].
    assert (0 <= sum (filter_nodes lvl) l)%Z
      by (apply sum_nonneg; auto using filter_nodes_nonneg). lia.
  - intros [k v] n n' _ Hn. cbn [fst snd]. rewrite charge_None. fold (is_and_or k).
    destruct (is_and_or k) eqn:Ek.
    { pose proof (and_or_dollar k Ek) as Hd.
      assert (entry_ok lvl k v ↔ ∃ l, v = JArr l ∧ l ≠ []
                ∧ (Z.of_nat (length l) <= maxBranches)%Z ∧ ∀ b, b ∈ l → filter_ok lvl b) as ->.
      { split; [|intros (l & -> & ? & ? & ?); by constructor].
        inversion 1; subst; [eauto|by vm_compute in Ek|].
        match goal with H : path_ok k |- _ => apply path_ok_no_dollar in H end. congruence. }
      destruct v; try (split; [by intros [? ?]|intros ((l' & ? & _) & _); discriminate]).
      case_bool_decide as Hl.
      { split; [by intros [? ?]|]. by intros ((l' & [= <-] & ? & _) & _). }
      destruct (maxBranches <? _)%Z eqn:Eb; bprop.
      { split; [by intros [? ?]|]. intros ((l' & [= <-] & _ & ? & _) & _). lia. }
      split.
      - intros [H1 H2]. apply (charges_loop _ (filter_ok lvl) (filter_nodes lvl)) in H2 as (?&->&?);
          auto using filter_nodes_nonneg. split_and!; [eauto 6|lia|lia].
      - intros ((l' & [= <-] & _ & _ & Hok) & -> & ?).
        assert (0 <= sum (filter_nodes lvl) l)%Z
          by (apply sum_nonneg; auto using filter_nodes_nonneg).
        split; [lia|]. apply (charges_loop _ (filter_ok lvl) (filter_nodes lvl));
          auto using filter_nodes_nonneg; [lia|]. split_and!; [done|lia|lia]. }
    destruct (seqb k (js "$not")) eqn:En.
    { apply seqb_eq in En as ->.
      assert (entry_ok lvl (js "$not") v ↔ filter_ok lvl v) as ->.
      { split; [|by constructor]. inversion 1 as [? ? ? Hk|? ? Hk|? ? ? Hk]; subst; [by vm_compute in Hk|done|].
        by apply path_ok_no_dollar in Hk. }
      pose proof (filter_nodes_nonneg lvl v).
      split; [intros [? (?&->&?)%IH]; [split_and!; (done || lia)|lia]|].
      intros (? & -> & ?). split; [lia|]. apply IH; [lia|]. split_and!; (done || lia). }
    destruct (startsWith k (js "$")) eqn:Es.
    { split; [by intros [? ?]|]. intros (H & _). inversion H as [|? ? Hk|? ? ? Hk]; subst; [congruence| |].
      - by vm_compute in En.
      - apply path_ok_no_dollar in Hk. congruence. }
    assert (entry_ok lvl k v ↔ rejectFieldPath k = None ∧ condition_ok v) as ->.
    { rewrite rejectFieldPath_None. split; [|by intros [? ?]; constructor]. inversion 1; subst; [congruence| |done].
      by vm_compute in En. }
    assert (0 <= condition_nodes v)%Z by (destruct v; cbn; lia).
    destruct (rejectFieldPath k); [split; [by intros [? ?]|by intros ([? _] & _)]|].
    split; [intros [? (?&->&?)%rejectCondition_None]; [split_and!; (done || lia)|lia]|].
    intros ([_ ?] & -> & ?). split; [lia|]. apply rejectCondition_None; [lia|].
    split_and!; (done || lia).
Qed.

(** A payload predicate is accepted exactly when it is [null] or absent, or
    an object of at most 4096 serialised bytes that belongs to the documented
    filter language (operators with the right operands, bounded paths, at most
    five levels and twenty branches, nothing empty) and has at most 64
    conditions in total: the shared, early-exiting budget computes that total. *)
Theorem rejectPayloadFilter_spec (v : jsval) :
  rejectPayloadFilter v = None
  ↔ v = JNull ∨ v = JUndefined
    ∨ (byteLength (default [] (stringify v)) <= 4096)%Z
      ∧ filter_ok 5 v ∧ (filter_nodes 5 v <= 64)%Z.
Proof.
  assert (rejectFilterObject maxDepth v 0 = (None, (0 + filter_nodes 5 v)%Z)
          ↔ filter_ok 5 v ∧ (filter_nodes 5 v <= 64)%Z) as Hf.
  { rewrite rejectFilterObject_None by (unfold maxNodes; lia). unfold maxNodes, maxDepth.
    split; [intros (?&?&?)|intros (?&?)]; split_and!; (done || lia). }
  assert (∀ w, filter_ok 5 w → ∃ l, w = JObj l) as Hobj by (inversion 1; eauto).
  destruct v as [| | | | | |l]; cbn [rejectPayloadFilter];
    try (split; [by auto|intros [?|[?|(_ & Ho & _)]]; first [done|by destruct (Hobj _ Ho)]]).
  unfold maxBytes. destruct (4096 <? _)%Z eqn:Eb; bprop.
  { split; [done|]. intros [?|[?|[? _]]]; [done|done|lia]. }
  destruct (rejectFilterObject maxDepth (JObj l) 0) as [[r|] b] eqn:E; cbn [fst].
  - split; [done|]. intros [?|[?|(_ & H)]]; [done|done|]. apply Hf in H. done.
  - apply rejectFilterObject_None in E as (? & ? & ?); [|unfold maxNodes; lia].
    unfold maxNodes, maxDepth in *. split; [|done]. intros _. right. right. split_and!; [done|done|lia].
Qed.
