(* ===== verification/EndpointHeaders.v ===== *)
(** Custom request headers of an endpoint: endpoints/endpoint-headers.ts. *)
From Stdlib Require Import ZArith Lia.
From S2P Require Import Prelude Js.

Definition MAX_CUSTOM_HEADERS : Z := 20.
Definition MAX_HEADER_NAME_LENGTH : Z := 128.
Definition MAX_HEADER_VALUE_LENGTH : Z := 1024.
Definition MAX_CUSTOM_HEADERS_BYTES : Z := 8192.

Definition RESERVED_HEADER_NAMES : list jsstr :=
  [js "authorization"; js "host"; js "content-length"; js "transfer-encoding"].
Definition RESERVED_HEADER_PREFIX : jsstr := js "webhook-".

(** The class of the HEADER_NAME expression: RFC 9110 token characters. *)
Definition token_char (c : N) : bool :=
  existsb (N.eqb c) (js "!#$%&'*+-.^_`|~") || is_digit c || is_upper c || is_lower c.
Definition HEADER_NAME (s : jsstr) : bool := all_plus token_char s.

(** The class of HEADER_VALUE: tab, visible ASCII with space, and 0x80-0xFF. *)
Definition value_char (c : N) : bool :=
  ((c =? 9) || ((32 <=? c) && (c <=? 126)) || ((128 <=? c) && (c <=? 255)))%N.
Definition HEADER_VALUE (s : jsstr) : bool := forallb value_char s.

Inductive header_rejection : Type :=
| HeadersNotAnObject
| TooManyHeaders
| BadNameLength (header : jsstr)
| BadNameCharacters (header : jsstr)
| ReservedHeader (header : jsstr)
| DuplicateHeader (header : jsstr)
| ValueNotAString (header : jsstr)
| ValueTooLong (header : jsstr)
| BadValueCharacters (header : jsstr)
| HeadersTooLarge.

Definition isReservedHeader (name : jsstr) : bool :=
  let lower := toLowerCase (trim name) in
  startsWith lower RESERVED_HEADER_PREFIX || existsb (seqb lower) RESERVED_HEADER_NAMES.

(** The loop over the entries, with [seen] and [bytes]. *)
Fixpoint reject_headers (entries : list (jsstr * jsval)) (seen : list jsstr) (bytes : Z)
  : header_rejection + Z :=
  match entries with
  | [] => inr bytes
  | (name, value) :: rest =>
      let lower := toLowerCase name in
      if ((jslen name =? 0) || (MAX_HEADER_NAME_LENGTH <? jslen name))%Z
      then inl (BadNameLength name)
      else if negb (HEADER_NAME name) then inl (BadNameCharacters name)
      else if isReservedHeader name then inl (ReservedHeader name)
      else if existsb (seqb lower) seen then inl (DuplicateHeader name)
      else match value with
           | JStr v =>
               if (MAX_HEADER_VALUE_LENGTH <? jslen v)%Z then inl (ValueTooLong name)
               else if negb (HEADER_VALUE v) then inl (BadValueCharacters name)
               else reject_headers rest (lower :: seen)
                      (bytes + (byteLength name + byteLength v + 4))%Z
           | _ => inl (ValueNotAString name)
           end
  end.

Definition rejectCustomHeaders (headers : jsval) : option header_rejection :=
  match headers with
  | JUndefined | JNull => None
  | JObj entries =>
      if (MAX_CUSTOM_HEADERS <? Z.of_nat (length entries))%Z then Some TooManyHeaders
      else match reject_headers entries [] 0 with
           | inl r => Some r
           | inr bytes => if (MAX_CUSTOM_HEADERS_BYTES <? bytes)%Z
                          then Some HeadersTooLarge else None
           end
  | _ => Some HeadersNotAnObject
  end.

(** [headers] is a record of strings or null; an empty one is stored as null. *)
Definition normaliseCustomHeaders (headers : option (list (jsstr * jsstr)))
  : option (list (jsstr * jsstr)) :=
  match headers with
  | None => None
  | Some entries => if bool_decide (entries = []) then None else Some entries
  end.

(** ** Specification *)

Definition header_bytes (h : jsstr * jsstr) : Z := (byteLength h.1 + byteLength h.2 + 4)%Z.

Definition headers_bytes (hs : list (jsstr * jsstr)) : Z :=
  foldr (λ h n, header_bytes h + n)%Z 0%Z hs.

Definition to_entry (h : jsstr * jsstr) : jsstr * jsval := (h.1, JStr h.2).

(** One acceptable header: a token of 1 to 128 characters that is neither under
    [webhook-] nor one of the framing headers, in any letter case, and a value
    of at most 1024 characters without control characters. *)
Definition header_ok (h : jsstr * jsstr) : Prop :=
  (1 <= jslen h.1 <= 128)%Z ∧ (∀ c, c ∈ h.1 → token_char c = true)
  ∧ ¬ RESERVED_HEADER_PREFIX `prefix_of` toLowerCase h.1
  ∧ toLowerCase h.1 ∉ RESERVED_HEADER_NAMES
  ∧ (jslen h.2 <= 1024)%Z ∧ (∀ c, c ∈ h.2 → value_char c = true).

(** ** Proofs *)

Lemma token_char_not_ws c : token_char c = true → is_ws c = false.
Proof.
  unfold token_char, is_digit, is_upper, is_lower. intros H.
  assert (33 <= c <= 126)%N.
  { repeat (bprop; match goal with H : _ ∨ _ |- _ => destruct H as [H|H] end); bprop; try lia.
    apply existsb_True in H as (x & Hx & ->%N.eqb_eq).
    repeat (apply elem_of_cons in Hx as [->|Hx]; [vm_compute; split; discriminate|]).
    by apply not_elem_of_nil in Hx. }
  unfold is_ws. repeat (apply orb_false_iff; split); try (apply N.eqb_neq; lia);
    apply andb_false_iff; (left + right); apply N.leb_gt; lia.
Qed.

Lemma isReservedHeader_spec name :
  HEADER_NAME name = true →
  isReservedHeader name = false
  ↔ ¬ RESERVED_HEADER_PREFIX `prefix_of` toLowerCase name
    ∧ toLowerCase name ∉ RESERVED_HEADER_NAMES.
Proof.
  intros [_ Hn]%all_plus_spec. unfold isReservedHeader. rewrite trim_id
    by (intros; by apply token_char_not_ws, Hn).
  rewrite orb_false_iff. unfold startsWith. rewrite bool_decide_eq_false.
  rewrite <- not_true_iff_false, existsb_True. setoid_rewrite seqb_eq. naive_solver.
Qed.

(** One iteration of the loop goes on exactly on an acceptable header that was
    not seen before. *)
Lemma reject_headers_cons name value rest seen bytes r :
  reject_headers ((name, value) :: rest) seen bytes = inr r
  ↔ ∃ v, value = JStr v ∧ header_ok (name, v) ∧ toLowerCase name ∉ seen
         ∧ reject_headers rest (toLowerCase name :: seen) (bytes + header_bytes (name, v))%Z = inr r.
Proof.
  unfold header_ok. cbn [reject_headers fst snd].
  unfold MAX_HEADER_NAME_LENGTH, MAX_HEADER_VALUE_LENGTH.
  destruct (_ || _)%Z eqn:El.
  { split; [done|]. intros (v & _ & ([? ?] & _) & _).
    apply orb_true_iff in El as [?|?]; bprop; lia. }
  bprop. destruct (HEADER_NAME name) eqn:En; cbn [negb].
  2:{ split; [done|]. intros (v & _ & (Hl & Hc & _) & _).
      assert (HEADER_NAME name = true); [|congruence].
      apply all_plus_spec. split; [|done]. intros ->. done. }
  pose proof (isReservedHeader_spec name En) as Hr.
  pose proof En as [Hne Htok]%all_plus_spec.
  assert (1 <= jslen name)%Z by (unfold jslen in *; lia).
  destruct (isReservedHeader name).
  { split; [done|]. intros (v & _ & (_ & _ & ? & ? & _) & _).
    assert (true = false) by (by apply Hr). done. }
  destruct Hr as [[Hp Hres] _]; [done|].
  assert (existsb (seqb (toLowerCase name)) seen = true ↔ toLowerCase name ∈ seen) as Hs.
  { rewrite existsb_True. setoid_rewrite seqb_eq. naive_solver. }
  destruct (existsb _ seen). { naive_solver. }
  assert (toLowerCase name ∉ seen) by (intros ?%Hs; done).
  destruct value as [| | | |v| |]; try (split; [done|naive_solver]).
  destruct (1024 <? jslen v)%Z eqn:Ev; bprop.
  { split; [done|]. intros (v' & [= <-] & (_&_&_&_&?&_) & _). lia. }
  destruct (HEADER_VALUE v) eqn:Ehv; cbn [negb].
  - pose proof (proj1 (forallb_True value_char v) Ehv) as Hv. split.
    + intros. exists v. by split_and!.
    + by intros (v' & [= <-] & _ & _ & ?).
  - split; [done|]. intros (v' & [= <-] & (_&_&_&_&_&Hv) & _).
    apply (proj2 (forallb_True value_char v)) in Hv. unfold HEADER_VALUE in Ehv. congruence.
Qed.

Lemma headers_bytes_cons h hs :
  headers_bytes (h :: hs) = (header_bytes h + headers_bytes hs)%Z.
Proof. done. Qed.

Lemma reject_headers_spec entries seen bytes r :
  reject_headers entries seen bytes = inr r
  ↔ ∃ hs, entries = to_entry <$> hs ∧ Forall header_ok hs
          ∧ NoDup ((toLowerCase ∘ fst) <$> hs)
          ∧ (∀ h, h ∈ hs → toLowerCase h.1 ∉ seen) ∧ r = (bytes + headers_bytes hs)%Z.
Proof.
  revert seen bytes. induction entries as [|[name value] rest IH]; intros seen bytes.
  { cbn. split.
    - intros [= <-]. exists []. split_and!; [done|constructor|constructor| |cbn; lia].
      by intros h ?%not_elem_of_nil.
    - intros (hs & Hl & _ & _ & _ & ->). destruct hs; [|done]. cbn. f_equal. lia. }
  rewrite reject_headers_cons. setoid_rewrite IH. split.
  - intros (v & -> & Hok & Hs & hs & -> & Hf & Hnd & Hd & ->). exists ((name, v) :: hs).
    split_and!; [done|by constructor| | |rewrite headers_bytes_cons; lia].
    + cbn. constructor; [|done]. intros (h & Heq & Hin)%list_elem_of_fmap.
      apply (Hd _ Hin). change (toLowerCase name = toLowerCase h.1) in Heq. rewrite Heq. left.
    + intros h [->|Hh]%elem_of_cons; [done|]. intros ?. apply (Hd _ Hh). by right.
  - intros (hs & Hl & Hf & Hnd & Hd & ->). destruct hs as [|[n v] hs]; [done|].
    injection Hl as -> -> ->. apply Forall_cons in Hf as [? Hf].
    cbn in Hnd. apply NoDup_cons in Hnd as [Hn Hnd].
    exists v. split_and!; [done|done|apply (Hd (n, v)); left|].
    exists hs. split_and!; [done|done|done| |rewrite headers_bytes_cons; lia].
    intros h Hh. rewrite not_elem_of_cons. split; [|apply Hd; by right].
    intros Heq. apply Hn. apply list_elem_of_fmap. by exists h.
Qed.

(** What an accepted header object is. *)
Lemma rejectCustomHeaders_None (v : jsval) :
  rejectCustomHeaders v = None
  ↔ v = JUndefined ∨ v = JNull
    ∨ ∃ hs, v = JObj (to_entry <$> hs) ∧ (length hs ≤ 20)%nat ∧ Forall header_ok hs
            ∧ NoDup ((toLowerCase ∘ fst) <$> hs) ∧ (headers_bytes hs <= 8192)%Z.
Proof.
  split.
  - destruct v as [| | | | | |entries]; cbn [rejectCustomHeaders]; try discriminate; auto.
    unfold MAX_CUSTOM_HEADERS, MAX_CUSTOM_HEADERS_BYTES.
    destruct (20 <? _)%Z eqn:El; [done|]. destruct (reject_headers _ _ _) eqn:Er; [done|].
    destruct (8192 <? _)%Z eqn:Eb; [done|]. bprop. intros _. right. right.
    apply reject_headers_spec in Er as (hs & -> & ? & ? & _ & ->). rewrite length_fmap in El.
    exists hs. split_and!; (done || lia).
  - intros [->|[->|(hs & -> & Hl & Hok & Hnd & Hb)]]; [done|done|].
    cbn [rejectCustomHeaders]. unfold MAX_CUSTOM_HEADERS, MAX_CUSTOM_HEADERS_BYTES.
    rewrite length_fmap. destruct (20 <? _)%Z eqn:El; bprop; [lia|].
    assert (reject_headers (to_entry <$> hs) [] 0 = inr (0 + headers_bytes hs)%Z) as ->.
    { apply reject_headers_spec. exists hs. split_and!; try done.
      by intros h _ ?%not_elem_of_nil. }
    destruct (8192 <? _)%Z eqn:Eb; bprop; [lia|done].
Qed.

(** Custom headers are accepted exactly when they are absent or an object
    of at most twenty string values in which every name is a token of 1-128
    characters outside the reserved names and the [webhook-] namespace in any
    letter case, names are pairwise distinct ignoring case, every value is free
    of control characters, and the total is at most 8192 bytes. *)
Theorem rejectCustomHeaders_spec (v : jsval) :
  rejectCustomHeaders v = None
  ↔ v = JUndefined ∨ v = JNull
    ∨ ∃ hs, v = JObj (to_entry <$> hs) ∧ (length hs ≤ 20)%nat ∧ Forall header_ok hs
            ∧ NoDup ((toLowerCase ∘ fst) <$> hs) ∧ (headers_bytes hs <= 8192)%Z.
Proof. exact (rejectCustomHeaders_None v). Qed.

(** No accepted header can restate a platform header or break the header
    block: no stored name equals a reserved or [Webhook-*] name when both are
    lower-cased, and neither a name nor a value contains CR, LF or NUL. *)
Theorem accepted_headers_cannot_inject (entries : list (jsstr * jsval))
  (Hacc : rejectCustomHeaders (JObj entries) = None) (name : jsstr) (value : jsval)
  (Hin : (name, value) ∈ entries) :
  (∀ other, toLowerCase other = toLowerCase name →
     toLowerCase other ∉ RESERVED_HEADER_NAMES
     ∧ ¬ RESERVED_HEADER_PREFIX `prefix_of` toLowerCase other)
  ∧ ∃ v, value = JStr v ∧ ∀ c, c ∈ name ++ v → c ≠ 0%N ∧ c ≠ 10%N ∧ c ≠ 13%N.
Proof.
  apply rejectCustomHeaders_None in Hacc as [?|[?|(hs & [= ->] & _ & Hok & _ & _)]]; [done|done|].
  apply list_elem_of_fmap in Hin as ([n v] & [= -> ->] & Hin).
  rewrite Forall_forall in Hok. destruct (Hok _ Hin) as (_ & Hn & Hp & Hr & _ & Hv). cbn in *.
  split; [by intros other ->|]. exists v. split; [done|].
  intros c [Hc|Hc]%elem_of_app.
  - apply Hn in Hc as Ht. apply token_char_not_ws in Ht as Hw. split_and!; by intros ->.
  - specialize (Hv _ Hc). split_and!; intros ->; done.
Qed.

Lemma accepted_headers_cannot_inject_witness :
  (∀ other, toLowerCase other = toLowerCase (js "X-Trace") →
     toLowerCase other ∉ RESERVED_HEADER_NAMES
     ∧ ¬ RESERVED_HEADER_PREFIX `prefix_of` toLowerCase other)
  ∧ ∃ v, JStr (js "on") = JStr v ∧ ∀ c, c ∈ js "X-Trace" ++ v → c ≠ 0%N ∧ c ≠ 10%N ∧ c ≠ 13%N.
Proof.
  apply (accepted_headers_cannot_inject [(js "X-Trace", JStr (js "on"))]).
  - vm_compute. reflexivity.
  - left.
Defined.
