(* ===== verification/EndpointUrl.v ===== *)
(** Endpoint URLs: endpoints/endpoint-url.ts.

    Address literals are taken apart and classified the way the source does it,
    with JavaScript's 32-bit operators in the CIDR test.  Two functions of the
    runtime are parameters: the WHATWG URL parser ([parseURL]) and the integer
    value of [Number(text)] ([toInteger], [None] when it is not an integer);
    [net.isIP] is written out below. *)
From Stdlib Require Import ZArith Lia.
From S2P Require Import Prelude Js.

Definition MAX_URL_LENGTH : Z := 2048.

Inductive reason : Type :=
| UnspecifiedAddress | LoopbackAddress | LinkLocalAddress | MulticastAddress
| PrivateAddress | CarrierGradeNat | ProtocolAssignments | DocumentationRange
| BenchmarkingRange | ReservedRange | DiscardPrefix | Ipv6Documentation
| Ipv6SpecialPurpose | CloudMetadata
| TransitionAddress (embedded : list Z) (why : reason).

(** ** net.isIP *)

Definition colon : N := 58.
Definition dec_digit (c : N) : Z := (Z.of_N c - 48)%Z.

(** [Number(part)] of a run of decimal digits. *)
Definition parse_dec (s : jsstr) : Z := foldl (λ n c, n * 10 + dec_digit c)%Z 0%Z s.

(** One octet of a dotted quad: no sign, no leading zero, at most 255. *)
Definition is_octet (s : jsstr) : bool :=
  all_plus is_digit s && (length s <=? 3)%nat
  && (bool_decide (s = [48%N]) || negb (bool_decide (head s = Some 48%N)))
  && (parse_dec s <=? 255)%Z.

Definition isIPv4 (s : jsstr) : bool :=
  let parts := split 46%N s in (length parts =? 4)%nat && forallb is_octet parts.

(** [text.split('::')] *)
Fixpoint split_cc (s : jsstr) : list jsstr :=
  match s with
  | [] => [[]]
  | x :: s' =>
      match s' with
      | y :: s'' =>
          if ((x =? colon) && (y =? colon))%N then [] :: split_cc s''
          else match split_cc s' with
               | [] => [[x]]
               | w :: ws => (x :: w) :: ws
               end
      | [] => [[x]]
      end
  end.

Definition is_group (s : jsstr) : bool := all_plus is_hex s && (length s <=? 4)%nat.

(** The number of 16-bit groups a list of colon-separated parts stands for, a
    dotted quad being allowed last when [v4] is set. *)
Fixpoint count_groups (v4 : bool) (parts : list jsstr) : option nat :=
  match parts with
  | [] => Some O
  | [p] => if is_group p then Some 1%nat
           else if v4 && isIPv4 p then Some 2%nat else None
  | p :: ps => if is_group p then S <$> count_groups v4 ps else None
  end.

Definition half_parts (half : jsstr) : list jsstr :=
  if bool_decide (half = []) then [] else split colon half.

(** Everything before the zone, and whether the zone is well formed. *)
Definition zone_char (c : N) : bool :=
  is_digit c || is_upper c || is_lower c || (c =? 45)%N || (c =? 46)%N || (c =? colon)%N.
Fixpoint cut_zone (s : jsstr) : jsstr * option jsstr :=
  match s with
  | [] => ([], None)
  | c :: s => if (c =? 37)%N then ([], Some s)
              else let '(a, z) := cut_zone s in (c :: a, z)
  end.

Definition isIPv6 (s : jsstr) : bool :=
  let '(addr, zone) := cut_zone s in
  match zone with Some z => all_plus zone_char z | None => true end
  && match split_cc addr with
     | [h] => bool_decide (count_groups true (half_parts h) = Some 8%nat)
     | [h; t] =>
         match count_groups false (half_parts h), count_groups true (half_parts t) with
         | Some a, Some b => (a + b <=? 7)%nat
         | _, _ => false
         end
     | _ => false
     end.

Definition isIP (s : jsstr) : Z := if isIPv4 s then 4 else if isIPv6 s then 6 else 0.

(** ** Literals to bytes *)

Definition ipv4Bytes (text : jsstr) : option (list Z) :=
  if negb (isIP text =? 4)%Z then None
  else Some (map parse_dec (split 46%N text)).

Definition hex_digit (c : N) : Z :=
  if is_digit c then (Z.of_N c - 48)%Z
  else if is_upper c then (Z.of_N c - 55)%Z else (Z.of_N c - 87)%Z.
(** [Number.parseInt(group, 16)] on hexadecimal digits. *)
Definition parse_hex (s : jsstr) : Z := foldl (λ n c, n * 16 + hex_digit c)%Z 0%Z s.

(** [x.toString(16)] for [0 <= x < 65536]. *)
Definition to_hex (x : Z) : jsstr :=
  let d k := hex1 (Z.to_N (Z.shiftr x k mod 16)) in
  if (x <? 16)%Z then [d 0%Z]
  else if (x <? 256)%Z then [d 4; d 0]%Z
  else if (x <? 4096)%Z then [d 8; d 4; d 0]%Z
  else [d 12; d 8; d 4; d 0]%Z.

(** [text.lastIndexOf(':')], as the text up to it and the text after it. *)
Definition cut_last_colon (s : jsstr) : option (jsstr * jsstr) :=
  match reverse (split colon s) with
  | last :: (_ :: _) as init => Some (take (length s - length last) s, last)
  | _ => None
  end.

Definition group_bytes (group : jsstr) : option (list Z) :=
  if is_group group
  then let value := parse_hex group in
       Some [Z.land (Z.shiftr value 8) 255; Z.land value 255]
  else None.

Definition ipv6Bytes (literal : jsstr) : option (list Z) :=
  if negb (isIP literal =? 6)%Z then None else
  let text := (cut_zone literal).1 in
  text ←
    (if includes text 46%N then
       '(front, tail) ← cut_last_colon text;
       embedded ← ipv4Bytes tail;
       match embedded with
       | [e0; e1; e2; e3] =>
           let high := to_hex (Z.lor (Z.shiftl e0 8) e1) in
           let low := to_hex (Z.lor (Z.shiftl e2 8) e3) in
           Some (front ++ high ++ [colon] ++ low)
       | _ => None
       end
     else Some text);
  let halves := split_cc text in
  if (2 <? length halves)%nat then None else
  let head := half_parts (nth 0 halves []) in
  let tail := if (length halves =? 2)%nat then half_parts (nth 1 halves []) else [] in
  if (length halves =? 1)%nat && negb (length head =? 8)%nat then None
  else if (8 <? length head + length tail)%nat then None
  else
    let groups := head ++ replicate (8 - length head - length tail) [48%N] ++ tail in
    mjoin <$> mapM group_bytes groups.

(** ** Classification *)

(** [b[i] === v], false on a hole. *)
Definition at_is (b : list Z) (i : nat) (v : Z) : bool := (nth i b (-1) =? v)%Z.
Definition all_zero (b : list Z) : bool := forallb (Z.eqb 0) b.

Definition mappedIpv4 (bytes : list Z) : option (list Z) :=
  if negb (length bytes =? 16)%nat then None
  else if all_zero (take 10 bytes) && at_is bytes 10 255 && at_is bytes 11 255
  then Some (drop 12 bytes) else None.

Definition transitionIpv4 (bytes : list Z) : option (list Z) :=
  if negb (length bytes =? 16)%nat || (if mappedIpv4 bytes is Some _ then true else false)
  then None
  else if at_is bytes 0 32 && at_is bytes 1 2 then Some (take 4 (drop 2 bytes))
  else if at_is bytes 0 0 && at_is bytes 1 100 && at_is bytes 2 255 && at_is bytes 3 155
  then Some (drop 12 bytes)
  else None.

Definition classifyIpv4 (b : list Z) : option reason :=
  let same i v := at_is b i v in
  let b0 := nth 0 b (-1)%Z in
  let b1 := nth 1 b (-1)%Z in
  if same 0%nat 0%Z && same 1%nat 0%Z && same 2%nat 0%Z && same 3%nat 0%Z then Some UnspecifiedAddress
  else if same 0%nat 127%Z then Some LoopbackAddress
  else if same 0%nat 169%Z && same 1%nat 254%Z then Some LinkLocalAddress
  else if ((224 <=? b0) && (b0 <=? 239))%Z then Some MulticastAddress
  else if same 0%nat 10%Z then Some PrivateAddress
  else if same 0%nat 172%Z && ((16 <=? b1) && (b1 <=? 31))%Z then Some PrivateAddress
  else if same 0%nat 192%Z && same 1%nat 168%Z then Some PrivateAddress
  else if same 0%nat 100%Z && ((64 <=? b1) && (b1 <=? 127))%Z then Some CarrierGradeNat
  else if same 0%nat 192%Z && same 1%nat 0%Z && same 2%nat 0%Z then Some ProtocolAssignments
  else if (same 0%nat 192%Z && same 1%nat 0%Z && same 2%nat 2%Z)
          || (same 0%nat 198%Z && same 1%nat 51%Z && same 2%nat 100%Z)
          || (same 0%nat 203%Z && same 1%nat 0%Z && same 2%nat 113%Z) then Some DocumentationRange
  else if same 0%nat 198%Z && (same 1%nat 18%Z || same 1%nat 19%Z) then Some BenchmarkingRange
  else if (240 <=? b0)%Z then Some ReservedRange
  else None.

Definition classifyIpv6 (b : list Z) : option reason :=
  let same i v := at_is b i v in
  let b0 := nth 0 b (-1)%Z in
  let b1 := nth 1 b (-1)%Z in
  let b2 := nth 2 b (-1)%Z in
  if all_zero b then Some UnspecifiedAddress
  else if all_zero (take 15 b) && same 15%nat 1%Z then Some LoopbackAddress
  else if same 0%nat 254%Z && (Z.land b1 192 =? 128)%Z then Some LinkLocalAddress
  else if same 0%nat 255%Z && (Z.land b1 15 =? 2)%Z then Some LinkLocalAddress
  else if same 0%nat 255%Z then Some MulticastAddress
  else if (Z.land b0 254 =? 252)%Z then Some PrivateAddress
  else if same 0%nat 1%Z && same 1%nat 0%Z && all_zero (take 6 (drop 2 b)) then Some DiscardPrefix
  else if same 0%nat 32%Z && same 1%nat 1%Z && same 2%nat 13%Z && same 3%nat 184%Z
  then Some Ipv6Documentation
  else if same 0%nat 32%Z && same 1%nat 1%Z && (b2 <=? 1)%Z then Some Ipv6SpecialPurpose
  else None.

Definition sameAddress (a b : list Z) : bool := bool_decide (a = b).

Definition METADATA_LITERALS : list jsstr :=
  [js "169.254.169.254"; js "100.100.100.200"; js "fd00:ec2::254"].

Fixpoint metadata_scan (literals : list jsstr) (bytes : list Z) : option reason :=
  match literals with
  | [] => None
  | literal :: rest =>
      let candidate := match ipv4Bytes literal with
                       | Some b => Some b | None => ipv6Bytes literal end in
      match candidate with
      | Some c => if sameAddress bytes c then Some CloudMetadata else metadata_scan rest bytes
      | None => metadata_scan rest bytes
      end
  end.
Definition metadataReason (bytes : list Z) : option reason := metadata_scan METADATA_LITERALS bytes.

(** [a ?? b] *)
Definition orElse {A} (a b : option A) : option A := if a is Some _ then a else b.

(** The part of [classifyLiteral] that judges sixteen bytes. *)
Definition classify_v6 (v6 : list Z) : option reason :=
  match metadataReason v6 with
  | Some m => Some m
  | None =>
      match mappedIpv4 v6 with
      | Some mapped => orElse (metadataReason mapped) (classifyIpv4 mapped)
      | None =>
          match transitionIpv4 v6 with
          | Some transition =>
              match orElse (metadataReason transition) (classifyIpv4 transition) with
              | Some r => Some (TransitionAddress transition r)
              | None => classifyIpv6 v6
              end
          | None => classifyIpv6 v6
          end
      end
  end.

Definition classifyLiteral (host : jsstr) : option reason :=
  match ipv4Bytes host with
  | Some v4 => orElse (metadataReason v4) (classifyIpv4 v4)
  | None => match ipv6Bytes host with
            | None => None
            | Some v6 => classify_v6 v6
            end
  end.

Definition isLocalhostName (host : jsstr) : bool :=
  seqb host (js "localhost") || endsWith host (js ".localhost").

(** ** Policy *)

Record EgressPolicy : Type := {
  allowPrivateNetworks : bool;
  privateAllowlist : list jsstr
}.

(** [env.X ?? ''] arrives as [option jsstr]. *)
Definition egressPolicyFromEnv (allow allowlist : option jsstr) : EgressPolicy := {|
  allowPrivateNetworks := bool_decide (allow = Some (js "true"));
  privateAllowlist :=
    filter (λ entry, (0 < jslen entry)%Z) (map trim (split 44%N (default [] allowlist)))
|}.

(** 32-bit operators of the language. *)
Definition ToInt32 (x : Z) : Z := ((x + 2 ^ 31) mod 2 ^ 32 - 2 ^ 31)%Z.
Definition ToUint32 (x : Z) : Z := (x mod 2 ^ 32)%Z.
Definition shl32 (x k : Z) : Z := ToInt32 (Z.shiftl (ToInt32 x) (k mod 32)).
Definition and32 (x y : Z) : Z := Z.land (ToInt32 x) (ToInt32 y).
Definition or32 (x y : Z) : Z := Z.lor (ToInt32 x) (ToInt32 y).

Definition toInt (b : list Z) : Z :=
  match b with
  | [b0; b1; b2; b3] =>
      ToUint32 (or32 (or32 (or32 (shl32 b0 24) (shl32 b1 16)) (shl32 b2 8)) b3)
  | _ => 0
  end.

Definition mask (prefix : Z) : Z :=
  if (prefix =? 0)%Z then 0 else ToUint32 (shl32 4294967295 (32 - prefix)).

Record url : Type := {
  protocol : jsstr;
  username : jsstr;
  password : jsstr;
  hostname : jsstr
}.

Inductive url_rejection : Type :=
| UrlRequired | UrlTooLong | UrlWhitespace | UrlMalformed
| SchemeNotPermitted (scheme : jsstr) | UrlCredentials | UrlNoHost
| Unroutable (r : reason).

(** [url.hostname.replace(/^\[|\]$/g, '')] *)
Definition strip_brackets (s : jsstr) : jsstr :=
  let s := match s with c :: t => if (c =? 91)%N then t else s | [] => s end in
  match reverse s with c :: t => if (c =? 93)%N then reverse t else s | [] => s end.

(** [/[\s\u0000-\u001F\u007F]/] *)
Definition bad_url_char (c : N) : bool := is_ws c || (c <=? 31)%N || (c =? 127)%N.

Section Runtime.
  Context (toInteger : jsstr → option Z) (parseURL : jsstr → option url).

Definition withinCidr (bytes : list Z) (cidr : jsstr) : bool :=
  let parts := split 47%N cidr in
  match parts with
  | network :: prefixText :: _ =>
      match toInteger prefixText with
      | None => false
      | Some prefix =>
          if ((prefix <? 0) || (32 <? prefix))%Z then false
          else if (prefix =? 0)%Z then false
          else match ipv4Bytes network with
               | None => false
               | Some net =>
                   if negb (length bytes =? 4)%nat then false
                   else (and32 (toInt bytes) (mask prefix) =? and32 (toInt net) (mask prefix))%Z
               end
      end
  | _ => false
  end.

Definition permittedByPolicy (host : jsstr) (policy : EgressPolicy) : bool :=
  let v4 := ipv4Bytes host in
  if match v4 with Some b => if metadataReason b is Some _ then true else false
     | None => false end then false
  else if allowPrivateNetworks policy then true
  else match v4 with
       | None => false
       | Some b => existsb (withinCidr b) (privateAllowlist policy)
       end.

Definition rejectEndpointUrl (raw : jsval) (policy : EgressPolicy) : option url_rejection :=
  match raw with
  | JStr raw =>
      let text := trim raw in
      if (jslen text =? 0)%Z then Some UrlRequired
      else if (MAX_URL_LENGTH <? jslen text)%Z then Some UrlTooLong
      else if existsb bad_url_char text then Some UrlWhitespace
      else match parseURL text with
           | None => Some UrlMalformed
           | Some url =>
               if negb (seqb (protocol url) (js "http:")) && negb (seqb (protocol url) (js "https:"))
               then Some (SchemeNotPermitted (protocol url))
               else if negb (bool_decide (username url = [])) || negb (bool_decide (password url = []))
               then Some UrlCredentials
               else
                 let host := strip_brackets (hostname url) in
                 if bool_decide (host = []) then Some UrlNoHost else
                 let rejection := if isLocalhostName host then Some LoopbackAddress
                                  else classifyLiteral host in
                 match rejection with
                 | None => None
                 | Some r =>
                     let literal := if isLocalhostName host then js "127.0.0.1" else host in
                     if permittedByPolicy literal policy then None else Some (Unroutable r)
                 end
           end
  | _ => Some UrlRequired
  end.
End Runtime.

Definition normaliseEndpointUrl (raw : jsstr) : jsstr := trim raw.

Example v6_ex : ipv6Bytes (js "::ffff:127.0.0.1")
  = Some [0;0;0;0;0;0;0;0;0;0;255;255;127;0;0;1]%Z.
Proof. vm_compute. reflexivity. Qed.
Example v6_meta : ipv6Bytes (js "fd00:ec2::254")
  = Some [253;0;14;194;0;0;0;0;0;0;0;0;0;0;2;84]%Z.
Proof. vm_compute. reflexivity. Qed.
Example nat64_ex : classifyLiteral (js "64:ff9b::a9fe:a9fe")
  = Some (TransitionAddress [169;254;169;254]%Z CloudMetadata).
Proof. vm_compute. reflexivity. Qed.

(** ** Address arithmetic *)

Definition octet (x : Z) : Prop := (0 <= x <= 255)%Z.

(** The address as a 32-bit number. *)
Definition addr (b : list Z) : Z := foldl (λ n x, n * 256 + x)%Z 0%Z b.

(** The special-purpose IPv4 blocks, as first address and size. *)
Definition blocked_v4 : list (Z * Z) :=
  let ip a b c d := addr [a; b; c; d] in
  [(ip 0 0 0 0, 2 ^ 0); (ip 127 0 0 0, 2 ^ 24); (ip 169 254 0 0, 2 ^ 16);
   (ip 224 0 0 0, 2 ^ 28); (ip 10 0 0 0, 2 ^ 24); (ip 172 16 0 0, 2 ^ 20);
   (ip 192 168 0 0, 2 ^ 16); (ip 100 64 0 0, 2 ^ 22); (ip 192 0 0 0, 2 ^ 8);
   (ip 192 0 2 0, 2 ^ 8); (ip 198 51 100 0, 2 ^ 8); (ip 203 0 113 0, 2 ^ 8);
   (ip 198 18 0 0, 2 ^ 17); (ip 240 0 0 0, 2 ^ 28)]%Z.

Definition in_block (x : Z) (blk : Z * Z) : bool := ((blk.1 <=? x) && (x <? blk.1 + blk.2))%Z.

(** Tests on leading octets are tests on address intervals. *)
Section ranges.
  Context (b0 b1 b2 b3 : Z) (H0 : octet b0) (H1 : octet b1) (H2 : octet b2) (H3 : octet b3).

Local Ltac range := intros; unfold octet, in_block, addr in *; cbn [foldl fst snd] in *;
    apply eq_true_iff_eq; rewrite ?andb_true_iff, ?Z.eqb_eq, ?Z.leb_le, ?Z.ltb_lt; lia.

Lemma range_32 a c d e : octet a → octet c → octet d → octet e →
  ((b0 =? a) && (b1 =? c) && (b2 =? d) && (b3 =? e))%Z
  = in_block (addr [b0; b1; b2; b3]) (addr [a; c; d; e], 2 ^ 0)%Z.
Proof. range. Qed.
Lemma range_24 a c d : octet a → octet c → octet d →
  ((b0 =? a) && (b1 =? c) && (b2 =? d))%Z
  = in_block (addr [b0; b1; b2; b3]) (addr [a; c; d; 0], 2 ^ 8)%Z.
Proof. range. Qed.
Lemma range_16 a c : octet a → octet c →
  ((b0 =? a) && (b1 =? c))%Z
  = in_block (addr [b0; b1; b2; b3]) (addr [a; c; 0; 0], 2 ^ 16)%Z.
Proof. range. Qed.
Lemma range_9_16 a c d : octet a → octet c → (c <= d <= 255)%Z →
  ((b0 =? a) && ((c <=? b1) && (b1 <=? d)))%Z
  = in_block (addr [b0; b1; b2; b3]) (addr [a; c; 0; 0], (d - c + 1) * 2 ^ 16)%Z.
Proof. range. Qed.
Lemma range_8 a : octet a →
  (b0 =? a)%Z = in_block (addr [b0; b1; b2; b3]) (addr [a; 0; 0; 0], 2 ^ 24)%Z.
Proof. range. Qed.
Lemma range_4 a d : octet a → (a <= d <= 255)%Z →
  ((a <=? b0) && (b0 <=? d))%Z
  = in_block (addr [b0; b1; b2; b3]) (addr [a; 0; 0; 0], (d - a + 1) * 2 ^ 24)%Z.
Proof. range. Qed.
End ranges.

(** The byte tests of [classifyIpv4] refuse exactly the addresses of the
    fourteen special-purpose blocks, taken as intervals of 32-bit addresses. *)
Theorem classifyIpv4_blocks (b0 b1 b2 b3 : Z)
  (H0 : octet b0) (H1 : octet b1) (H2 : octet b2) (H3 : octet b3) :
  (classifyIpv4 [b0; b1; b2; b3] = None)
  ↔ existsb (in_block (addr [b0; b1; b2; b3])) blocked_v4 = false.
Proof.
  unfold classifyIpv4, blocked_v4, at_is. cbn [nth existsb].
  assert (((b1 =? 18) || (b1 =? 19))%Z = ((18 <=? b1) && (b1 <=? 19))%Z) as ->.
  { apply eq_true_iff_eq. rewrite andb_true_iff, orb_true_iff. lia. }
  assert ((240 <=? b0)%Z = ((240 <=? b0) && (b0 <=? 255))%Z) as ->.
  { unfold octet in *. apply eq_true_iff_eq. rewrite andb_true_iff. lia. }
  rewrite (range_32 b0 b1 b2 b3), !(range_24 b0 b1 b2 b3),
    !(range_9_16 b0 b1 b2 b3), !(range_16 b0 b1 b2 b3),
    !(range_8 b0 b1 b2 b3), !(range_4 b0 b1 b2 b3)
    by (unfold octet in *; lia).
  generalize (addr [b0; b1; b2; b3]). clear. intros x. cbv -[in_block orb iff].
  repeat match goal with |- context [if ?c then _ else _] => destruct c eqn:? end;
    split; try discriminate; rewrite ?orb_false_iff; intros; bprop;
    repeat match goal with H : _ ∨ _ |- _ => destruct H as [H|H]; bprop end;
    destruct_and?; split_and?; congruence.
Qed.

Lemma classifyIpv4_blocks_witness :
  (classifyIpv4 [8; 8; 8; 8]%Z = None)
  ↔ existsb (in_block (addr [8; 8; 8; 8]%Z)) blocked_v4 = false.
Proof. apply classifyIpv4_blocks; unfold octet; lia. Defined.

(** ** The 32-bit operators *)

Lemma ToInt32_mod x : (ToInt32 x mod 2 ^ 32 = x mod 2 ^ 32)%Z.
Proof.
  unfold ToInt32. rewrite Zminus_mod_idemp_l. f_equal. lia.
Qed.

Lemma ToUint32_or32 x y : ToUint32 (or32 x y) = Z.lor (ToUint32 x) (ToUint32 y).
Proof.
  unfold ToUint32, or32. rewrite <- !Z.land_ones by lia. rewrite Z.land_lor_distr_l.
  rewrite !Z.land_ones by lia. by rewrite !ToInt32_mod.
Qed.

Lemma ToUint32_shl32 x k :
  (0 <= k < 32)%Z → ToUint32 (shl32 x k) = ((x * 2 ^ k) mod 2 ^ 32)%Z.
Proof.
  intros Hk. unfold ToUint32, shl32. rewrite ToInt32_mod, (Z.mod_small k) by lia.
  rewrite Z.shiftl_mul_pow2 by lia. rewrite Z.mul_mod by lia. rewrite ToInt32_mod.
  by rewrite <- Z.mul_mod by lia.
Qed.

Lemma lor_add a b k :
  (0 <= k)%Z → (0 <= b < 2 ^ k)%Z → Z.lor (a * 2 ^ k) b = (a * 2 ^ k + b)%Z.
Proof.
  intros Hk Hb. rewrite <- Z.add_lor_land.
  assert (Z.land (a * 2 ^ k) b = 0)%Z as ->; [|lia].
  rewrite <- (Z.mod_small b (2 ^ k)) by lia. rewrite <- Z.land_ones by lia.
  rewrite (Z.land_comm b), Z.land_assoc, Z.land_ones, Z.mod_mul by lia. apply Z.land_0_l.
Qed.

Lemma toInt_addr b0 b1 b2 b3 :
  octet b0 → octet b1 → octet b2 → octet b3 →
  toInt [b0; b1; b2; b3] = addr [b0; b1; b2; b3].
Proof.
  unfold octet. intros. unfold toInt. rewrite !ToUint32_or32, !ToUint32_shl32 by lia.
  unfold ToUint32. rewrite !Z.mod_small by lia.
  replace (b1 * 2 ^ 16)%Z with (b1 * 2 ^ 16)%Z by lia.
  rewrite (lor_add b0 (b1 * 2 ^ 16) 24) by lia.
  replace (b0 * 2 ^ 24 + b1 * 2 ^ 16)%Z with ((b0 * 256 + b1) * 2 ^ 16)%Z by lia.
  rewrite (lor_add _ (b2 * 2 ^ 8) 16) by lia.
  replace ((b0 * 256 + b1) * 2 ^ 16 + b2 * 2 ^ 8)%Z
    with (((b0 * 256 + b1) * 256 + b2) * 2 ^ 8)%Z by lia.
  rewrite lor_add by lia. unfold addr. cbn [foldl]. lia.
Qed.

Lemma prefix_cases (P : Z → Prop) :
  Forall P (map Z.of_nat (seq 1 32)) → ∀ n, (1 <= n <= 32)%Z → P n.
Proof.
  intros H n Hn. rewrite Forall_forall in H. apply H.
  apply list_elem_of_fmap. exists (Z.to_nat n). split; [lia|].
  apply elem_of_seq. lia.
Qed.

Lemma ToInt32_mask n : (1 <= n <= 32)%Z → ToInt32 (mask n) = (- 2 ^ (32 - n))%Z.
Proof.
  revert n. apply prefix_cases. cbn [map seq].
  repeat (apply Forall_cons; split; [vm_compute; reflexivity|]). constructor.
Qed.

Lemma and32_mask x n :
  (1 <= n <= 32)%Z → and32 x (mask n) = (ToInt32 x / 2 ^ (32 - n) * 2 ^ (32 - n))%Z.
Proof.
  intros Hn. unfold and32. rewrite ToInt32_mask by done.
  replace (- 2 ^ (32 - n))%Z with (Z.lnot (Z.ones (32 - n)))
    by (rewrite Z.ones_equiv; unfold Z.lnot; lia).
  rewrite <- Z.ldiff_land, Z.ldiff_ones_r, Z.shiftl_mul_pow2, Z.shiftr_div_pow2 by lia. done.
Qed.

(** Masking compares the leading [n] bits. *)
Lemma and32_mask_eq x y n :
  (1 <= n <= 32)%Z → (0 <= x < 2 ^ 32)%Z → (0 <= y < 2 ^ 32)%Z →
  and32 x (mask n) = and32 y (mask n) ↔ (x / 2 ^ (32 - n) = y / 2 ^ (32 - n))%Z.
Proof.
  intros Hn Hx Hy. rewrite !and32_mask by done. set (k := (32 - n)%Z).
  assert (0 < 2 ^ k)%Z as Hp by (apply Z.pow_pos_nonneg; unfold k; lia).
  assert (2 ^ 32 = 2 ^ k * 2 ^ n)%Z as E32 by (rewrite <- Z.pow_add_r by lia; f_equal; unfold k; lia).
  assert (2 ^ 31 = 2 ^ k * 2 ^ (n - 1))%Z as E31
    by (rewrite <- Z.pow_add_r by lia; f_equal; unfold k; lia).
  assert (2 ^ n = 2 * 2 ^ (n - 1))%Z as En.
  { rewrite <- Z.pow_succ_r by lia. f_equal. lia. }
  assert (∀ z, (0 <= z < 2 ^ 32)%Z →
            (ToInt32 z / 2 ^ k = z / 2 ^ k
             ∧ (0 <= z / 2 ^ k < 2 ^ (n - 1)))%Z
            ∨ (ToInt32 z / 2 ^ k = z / 2 ^ k - 2 ^ n
               ∧ 2 ^ (n - 1) <= z / 2 ^ k < 2 ^ n)%Z) as Hz.
  { intros z Hz. unfold ToInt32. destruct (Z.lt_ge_cases z (2 ^ 31)) as [Hlt|Hge].
    - left. rewrite Z.mod_small by lia. split; [f_equal; lia|].
      split; [by apply Z.div_pos; lia|]. apply Z.div_lt_upper_bound; lia.
    - right. replace (z + 2 ^ 31)%Z with (z - 2 ^ 31 + 1 * 2 ^ 32)%Z by lia.
      rewrite Z.mod_add, Z.mod_small by lia. split.
      + replace (z - 2 ^ 31 - 2 ^ 31)%Z with (z + (- 2 ^ n) * 2 ^ k)%Z by lia.
        rewrite Z.div_add by lia. lia.
      + split; [apply Z.div_le_lower_bound; lia|apply Z.div_lt_upper_bound; lia]. }
  destruct (Hz x Hx) as [[-> ?]|[-> ?]], (Hz y Hy) as [[-> ?]|[-> ?]]; split; intros E;
    try (apply Z.mul_reg_r in E; lia); try (f_equal; lia); lia.
Qed.

Lemma foldl_dec_nonneg s n :
  (0 <= n)%Z → (∀ c, c ∈ s → is_digit c = true) →
  (0 <= foldl (λ n c, n * 10 + dec_digit c) n s)%Z.
Proof.
  revert n. induction s as [|c s IH]; intros n Hn Hs; [done|]. cbn. apply IH.
  - specialize (Hs c ltac:(left)). unfold is_digit, dec_digit in *. bprop. lia.
  - intros c' ?. apply Hs. by right.
Qed.

Lemma is_octet_parse s : is_octet s = true → octet (parse_dec s).
Proof.
  unfold is_octet. intros H. bprop.
  match goal with H : all_plus _ _ = true |- _ => apply all_plus_spec in H as [_ ?] end.
  split; [by apply foldl_dec_nonneg|done].
Qed.

Lemma ipv4Bytes_octets text b :
  ipv4Bytes text = Some b →
  ∃ b0 b1 b2 b3, b = [b0; b1; b2; b3] ∧ octet b0 ∧ octet b1 ∧ octet b2 ∧ octet b3.
Proof.
  unfold ipv4Bytes, isIP, isIPv4. destruct (_ && _) eqn:E.
  2:{ destruct (isIPv6 text); done. }
  bprop. intros [= <-].
  match goal with H : forallb _ _ = true, H' : length _ = _ |- _ =>
    rename H into Hf; rename H' into Hl end.
  destruct (split 46%N text) as [|p0 [|p1 [|p2 [|p3 [|]]]]]; try (cbn in Hl; lia).
  cbn [forallb] in Hf. bprop. cbn [map].
  do 4 eexists. split_and!; [reflexivity|by apply is_octet_parse..].
Qed.

(** [withinCidr] accepts an IPv4 literal exactly when the entry is
    [network/n] with [n] between 1 and 32 and the two addresses agree on their
    leading [n] bits: the 32-bit shifts and masks, signed as JavaScript has
    them, neither overflow nor let a default route through. *)
Theorem withinCidr_spec (toInteger : jsstr → option Z) (host cidr : jsstr) (b : list Z)
  (Hb : ipv4Bytes host = Some b) :
  withinCidr toInteger b cidr = true
  ↔ ∃ network prefixText rest n net,
      split 47%N cidr = network :: prefixText :: rest
      ∧ toInteger prefixText = Some n ∧ (1 <= n <= 32)%Z
      ∧ ipv4Bytes network = Some net
      ∧ (addr b / 2 ^ (32 - n) = addr net / 2 ^ (32 - n))%Z.
Proof.
  apply ipv4Bytes_octets in Hb as (b0 & b1 & b2 & b3 & -> & ? & ? & ? & ?).
  unfold withinCidr.
  destruct (split 47%N cidr) as [|network [|prefixText rest]];
    [split; [done|naive_solver]..|].
  destruct (toInteger prefixText) as [n|] eqn:Et; [|split; [done|naive_solver]].
  destruct (_ || _)%Z eqn:Er.
  { split; [done|]. intros (?&?&?&m&?&[= <- <- <-]&Hm&?&_). simplify_eq.
    apply orb_true_iff in Er as [Er|Er]; bprop; lia. }
  bprop. destruct (n =? 0)%Z eqn:E0; bprop.
  { subst. split; [done|]. intros (?&?&?&m&?&[= <- <- <-]&?&?&_). simplify_eq. lia. }
  destruct (ipv4Bytes network) as [net|] eqn:En; [|split; [done|]; naive_solver].
  pose proof En as (n0 & n1 & n2 & n3 & -> & ? & ? & ? & ?)%ipv4Bytes_octets.
  cbn [length negb Nat.eqb]. rewrite !toInt_addr by done.
  assert (∀ a b c d, octet a → octet b → octet c → octet d →
            (0 <= addr [a; b; c; d] < 2 ^ 32)%Z) as Hr.
  { unfold octet, addr. cbn. intros. lia. }
  rewrite Z.eqb_eq, and32_mask_eq by (auto; lia). split.
  - intros. do 5 eexists. split_and!; (done || lia).
  - intros (?&?&?&?&?&[= <- <- <-]&?&?&?&?). simplify_eq. done.
Qed.

(** A concrete [toInteger] for the witnesses: plain decimal digits. *)
Definition decimal_integer (s : jsstr) : option Z :=
  if all_plus is_digit s then Some (parse_dec s) else None.

Lemma withinCidr_spec_witness :
  withinCidr decimal_integer [10; 20; 3; 4]%Z (js "10.20.0.0/16") = true
  ↔ ∃ network prefixText rest n net,
      split 47%N (js "10.20.0.0/16") = network :: prefixText :: rest
      ∧ decimal_integer prefixText = Some n ∧ (1 <= n <= 32)%Z
      ∧ ipv4Bytes network = Some net
      ∧ (addr [10; 20; 3; 4] / 2 ^ (32 - n) = addr net / 2 ^ (32 - n))%Z.
Proof.
  apply (withinCidr_spec decimal_integer (js "10.20.3.4")). vm_compute. reflexivity.
Defined.

(** ** The texts of addresses *)

(** A dotted quad; the sixteen-bit groups of an IPv6 address, and one run of zeros
    left out. *)
Definition dotted (b : list Z) : jsstr := join 46%N (map (λ x, digits (Z.to_N x)) b).
Definition v6_text (groups : list Z) : jsstr := join colon (map to_hex groups).
Definition v6_short (head tail : list Z) : jsstr := v6_text head ++ colon :: colon :: v6_text tail.
Definition v6_addr (groups : list Z) : Z := foldl (λ n x, n * 65536 + x)%Z 0%Z groups.
Definition group (x : Z) : Prop := (0 <= x < 65536)%Z.
(** The address a short text stands for. *)
Definition filled (head tail : list Z) : list Z :=
  head ++ replicate (8 - length head - length tail) 0%Z ++ tail.

Lemma octet_text x : octet x →
  is_octet (digits (Z.to_N x)) = true ∧ parse_dec (digits (Z.to_N x)) = x ∧ forallb is_digit (digits (Z.to_N x)) = true.
Proof.
  intros Hx. assert (forallb (λ x, is_octet (digits (N.of_nat x)) && (parse_dec (digits (N.of_nat x)) =? Z.of_nat x)%Z
    && forallb is_digit (digits (N.of_nat x))) (seq 0 256) = true) as H by (vm_compute; reflexivity).
  rewrite forallb_forall in H. specialize (H (Z.to_nat x)). rewrite in_seq in H. unfold octet in Hx.
  rewrite Z_nat_N, Z2Nat.id in H by lia. specialize (H ltac:(lia)). by bprop.
Qed.

Lemma octets_text b : Forall octet b → b ≠ [] →
  split 46%N (dotted b) = map (λ x, digits (Z.to_N x)) b ∧ forallb is_octet (split 46%N (dotted b)) = true
  ∧ map parse_dec (split 46%N (dotted b)) = b ∧ forallb (λ c, is_digit c || (c =? 46)%N) (dotted b) = true.
Proof.
  intros Hb Hne. assert (split 46%N (dotted b) = map (λ x, digits (Z.to_N x)) b) as E.
  { apply split_join; [by destruct b|]. intros w (x & -> & Hx)%list_elem_of_fmap Hc.
    rewrite Forall_forall in Hb. apply Hb, octet_text in Hx as (_ & _ & Hd).
    rewrite forallb_forall in Hd. apply list_elem_of_In, Hd in Hc. done. }
  rewrite E. split_and!; [done| | |].
  - apply forallb_forall. intros w (x & <- & Hx)%in_map_iff. apply octet_text. rewrite Forall_forall in Hb. by apply Hb, list_elem_of_In.
  - clear Hne E. induction Hb as [|x b Hx Hb IH]; [done|]. cbn [map]. rewrite IH. f_equal. by apply octet_text.
  - apply forallb_forall. intros c Hc. rewrite <- (join_split 46%N (dotted b)), E in Hc. clear E Hne.
    induction Hb as [|x b Hx Hb IH]; [done|]. cbn [map] in Hc.
    assert (∀ y, In y (digits (Z.to_N x)) → is_digit y || (y =? 46)%N = true) as Hd.
    { intros y Hy. apply octet_text in Hx as (_ & _ & Hd). rewrite forallb_forall in Hd. by rewrite Hd. }
    destruct b as [|x' b]; [by apply Hd|]. cbn [map] in Hc, IH. rewrite join_cons in Hc by done.
    apply in_app_iff in Hc as [Hc|[<-|Hc]]; [by apply Hd|done|by apply IH].
Qed.

Lemma ipv4Bytes_dotted b : Forall octet b → length b = 4%nat → ipv4Bytes (dotted b) = Some b.
Proof.
  intros Hb Hl. destruct (octets_text b Hb ltac:(by destruct b)) as (E & Ho & Hp & _).
  unfold ipv4Bytes, isIP, isIPv4. rewrite Ho, E, length_map, Hl. cbn [Nat.eqb andb Z.eqb negb]. change (Some (map parse_dec (map (λ x, digits (Z.to_N x)) b)) = Some b). by rewrite <- E, Hp.
Qed.

Lemma hex1_digit d : (0 <= d < 16)%Z → is_hex (hex1 (Z.to_N d)) = true ∧ hex_digit (hex1 (Z.to_N d)) = d.
Proof.
  intros Hd. assert (forallb (λ x, is_hex (hex1 (N.of_nat x)) && (hex_digit (hex1 (N.of_nat x)) =? Z.of_nat x)%Z) (seq 0 16) = true)
    as H by (vm_compute; reflexivity).
  rewrite forallb_forall in H. specialize (H (Z.to_nat d)). rewrite in_seq in H.
  rewrite Z_nat_N, Z2Nat.id in H by lia. specialize (H ltac:(lia)). by bprop.
Qed.

Definition nibble (g k : Z) : N := hex1 (Z.to_N (Z.shiftr g k mod 16)).
Lemma to_hex_nibbles g : to_hex g =
  if (g <? 16)%Z then [nibble g 0] else if (g <? 256)%Z then [nibble g 4; nibble g 0]
  else if (g <? 4096)%Z then [nibble g 8; nibble g 4; nibble g 0]
  else [nibble g 12; nibble g 8; nibble g 4; nibble g 0].
Proof. reflexivity. Qed.
Lemma nibble_hex g k : is_hex (nibble g k) = true.
Proof. apply hex1_digit, Z.mod_pos_bound. lia. Qed.
Lemma nibble_digit g k : (0 <= k)%Z → hex_digit (nibble g k) = ((g / 2 ^ k) mod 16)%Z.
Proof.
  intros Hk. unfold nibble. rewrite <- Z.shiftr_div_pow2 by done. apply hex1_digit, Z.mod_pos_bound. lia.
Qed.

Lemma group_text g : group g → forallb is_hex (to_hex g) = true ∧ is_group (to_hex g) = true ∧ parse_hex (to_hex g) = g.
Proof.
  intros Hg. unfold group in Hg. rewrite to_hex_nibbles.
  assert (∀ s, s ≠ [] → (length s <= 4)%nat → forallb is_hex s = true → is_group s = true) as Hgr.
  { intros s Hs Hl Hf. unfold is_group, all_plus. rewrite Hf, bool_decide_eq_false_2 by done. cbn. by apply Nat.leb_le. }
  repeat case_match; (split; [by cbn [forallb]; rewrite !nibble_hex|split; [apply Hgr; [done|cbn; lia|by cbn [forallb]; rewrite !nibble_hex]|]]);
    unfold parse_hex; cbn [foldl]; rewrite !nibble_digit by lia; rewrite ?Z.ltb_lt, ?Z.ltb_ge in *;
    Z.to_euclidean_division_equations; lia.
Qed.

(** Putting a word in front of the first part. *)
Definition glue (w : jsstr) (l : list jsstr) : list jsstr :=
  match l with [] => [w] | v :: vs => (w ++ v) :: vs end.

Lemma split_cc_cons x s : x ≠ colon ∨ head s ≠ Some colon → split_cc (x :: s) = glue [x] (split_cc s).
Proof.
  intros H. cbn [split_cc]. destruct s as [|y s]; [done|]. destruct (_ && _)%N eqn:E; [|by destruct (split_cc (y :: s))].
  bprop. exfalso. destruct H as [H|H]; [done|]. cbn in H. congruence.
Qed.
Lemma glue_app v w l : glue v (glue w l) = glue (v ++ w) l.
Proof. destruct l; cbn; [done|by rewrite <- app_assoc]. Qed.
Lemma split_cc_ne s : split_cc s ≠ [].
Proof.
  destruct s as [|x [|y s]]; [done..|]. destruct (decide (x = colon ∧ y = colon)) as [[-> ->]|H]; [done|].
  rewrite split_cc_cons; [by destruct (split_cc (y :: s))|]. cbn. destruct (decide (x = colon)); [right|by left]. intros [= ->]. by apply H.
Qed.
Lemma split_cc_word w s : colon ∉ w → split_cc (w ++ s) = glue w (split_cc s).
Proof.
  induction w as [|x w IH]; intros Hw; cbn [app].
  - pose proof (split_cc_ne s). by destruct (split_cc s).
  - apply not_elem_of_cons in Hw as [Hx Hw]. rewrite split_cc_cons by (left; congruence). by rewrite IH, glue_app.
Qed.

Lemma hex_no g c : group g → is_hex c = false → c ∉ to_hex g.
Proof.
  intros Hg Hc Hin. apply group_text in Hg as (Hf & _). rewrite forallb_forall in Hf.
  apply list_elem_of_In, Hf in Hin. congruence.
Qed.
Lemma to_hex_ne g : to_hex g ≠ [].
Proof. rewrite to_hex_nibbles. by repeat case_match. Qed.

Lemma split_cc_text gs s : Forall group gs → split_cc (v6_text gs ++ s) = glue (v6_text gs) (split_cc s).
Proof.
  induction 1 as [|g gs Hg Hgs IH].
  { change (split_cc s = glue [] (split_cc s)). pose proof (split_cc_ne s). by destruct (split_cc s). }
  unfold v6_text in *. cbn [map]. destruct gs as [|g' gs]; [apply split_cc_word; by apply hex_no|].
  cbn [map] in *. rewrite join_cons by done. rewrite <- app_assoc, split_cc_word by by apply hex_no.
  cbn [app]. rewrite split_cc_cons, IH, !glue_app; [by rewrite <- app_assoc|]. right.
  apply Forall_cons in Hgs as [Hg' _]. pose proof (to_hex_ne g') as Hne. pose proof (hex_no g' colon Hg' eq_refl) as Hno.
  destruct (to_hex g') as [|c w]; [done|]. intros E. apply Hno. destruct (map to_hex gs); cbn in E; injection E as ->; left.
Qed.

Lemma v6_text_chars gs c : Forall group gs → c ∈ v6_text gs → is_hex c || (c =? colon)%N = true.
Proof.
  intros Hgs. unfold v6_text. induction Hgs as [|g gs Hg Hgs IH]; [by intros ?%not_elem_of_nil|]. cbn [map].
  assert (c ∈ to_hex g → is_hex c || (c =? colon)%N = true) as Hh.
  { intros Hc. destruct (is_hex c) eqn:E; [done|]. by apply (hex_no g c Hg) in E. }
  destruct gs as [|g' gs]; [done|]. cbn [map] in *. rewrite join_cons by done.
  intros [Hc|[->|Hc]%elem_of_cons]%elem_of_app; [by apply Hh|by rewrite N.eqb_refl, orb_true_r|by apply IH].
Qed.

Lemma half_parts_text gs : Forall group gs → half_parts (v6_text gs) = map to_hex gs.
Proof.
  intros Hgs. unfold half_parts. destruct gs as [|g gs]; [done|].
  rewrite bool_decide_eq_false_2.
  - apply split_join; [done|]. intros w (x & -> & Hx)%list_elem_of_fmap. rewrite Forall_forall in Hgs. by apply hex_no; [apply Hgs|].
  - unfold v6_text. cbn [map]. pose proof (to_hex_ne g). destruct gs; cbn [map]; [done|]. rewrite join_cons by done. by destruct (to_hex g).
Qed.
Lemma count_groups_text v4 gs : Forall group gs → count_groups v4 (map to_hex gs) = Some (length gs).
Proof.
  induction 1 as [|g gs Hg Hgs IH]; [done|]. destruct (group_text g Hg) as (_ & Hi & _). destruct gs as [|g' gs].
  - cbn [map count_groups]. by rewrite Hi.
  - cbn [map] in *. change (count_groups v4 (to_hex g :: to_hex g' :: map to_hex gs))
      with (if is_group (to_hex g) then S <$> count_groups v4 (to_hex g' :: map to_hex gs) else None).
    by rewrite Hi, IH.
Qed.
Lemma cut_zone_none s : 37%N ∉ s → cut_zone s = (s, None).
Proof.
  induction s as [|c s IH]; [done|]. intros [Hc Hs]%not_elem_of_cons. cbn. rewrite (proj2 (N.eqb_neq c 37)) by congruence. by rewrite IH.
Qed.

(** The two bytes of a group. *)
Definition bytes2 (g : Z) : list Z := [Z.land (Z.shiftr g 8) 255; Z.land g 255].
Lemma group_bytes_text gs : Forall group gs → mapM group_bytes (map to_hex gs) = Some (map bytes2 gs).
Proof.
  intros Hgs. apply mapM_Some_2. induction Hgs as [|g gs Hg Hgs IH]; [constructor|]. constructor; [|done].
  destruct (group_text g Hg) as (_ & Hi & Hp). unfold group_bytes. by rewrite Hi, Hp.
Qed.

(** What an IPv6 text without a dot, a zone or a third run parses to. *)
Lemma ipv6Bytes_shape s (hs : list (list Z)) : 46%N ∉ s → 37%N ∉ s → Forall (Forall group) hs →
  split_cc s = map v6_text hs →
  (∃ gs, hs = [gs] ∧ length gs = 8%nat ∧ ipv6Bytes s = Some (mjoin (map bytes2 gs)))
  ∨ (∃ h t, hs = [h; t] ∧ (length h + length t <= 7)%nat ∧ ipv6Bytes s = Some (mjoin (map bytes2 (filled h t))))
  ∨ (∀ gs, hs = [gs] → length gs ≠ 8%nat) ∧ ∀ h t, hs = [h; t] → (7 < length h + length t)%nat.
Proof.
  intros H46 H37 Hhs E.
  assert (isIPv4 s = false) as H4 by (unfold isIPv4; by rewrite split_no).
  assert (includes s 46 = false) as Hi.
  { apply not_true_is_false. intros (c & Hc & <-%N.eqb_eq)%existsb_exists. by apply H46, list_elem_of_In. }
  unfold ipv6Bytes, isIP, isIPv6. rewrite H4, cut_zone_none, E by done. cbn [fst]. rewrite Hi.
  destruct hs as [|h [|t [|]]]; cbn [map].
  - right; right. split; naive_solver.
  - apply Forall_cons in Hhs as [Hhs _]. rewrite half_parts_text, count_groups_text by done.
    destruct (decide (length h = 8%nat)) as [Hl|Hl]; [left|right; right; split; [by intros ? [= <-]|naive_solver]].
    exists h. split_and!; [done..|]. rewrite bool_decide_eq_true_2 by (by rewrite Hl). cbn [andb].
    cbv zeta. cbn [negb Z.eqb Pos.eqb mbind option_bind]. rewrite E. cbn [map length Nat.ltb Nat.leb Nat.eqb nth andb].
    rewrite half_parts_text, length_map, Hl by done. cbn -[mapM mjoin map].
    rewrite app_nil_r, group_bytes_text by done. done.
  - apply Forall_cons in Hhs as [Hh [Ht _]%Forall_cons]. rewrite !half_parts_text, !count_groups_text by done.
    destruct (decide (length h + length t <= 7)%nat) as [Hl|Hl].
    2:{ right; right. split; [naive_solver|]. intros ? ? [= <- <-]. lia. }
    right; left. exists h, t. split_and!; [done..|]. rewrite (proj2 (Nat.leb_le _ 7)) by done. cbn [andb].
    cbv zeta. cbn [negb Z.eqb Pos.eqb mbind option_bind]. rewrite E. cbn [map length Nat.eqb nth].
    rewrite !half_parts_text, !length_map by done.
    rewrite (proj2 (Nat.ltb_ge 8 _)) by lia. rewrite (proj2 (Nat.ltb_ge 2 2)) by lia. cbn [andb].
    change [48%N] with (to_hex 0). rewrite <- (fmap_replicate to_hex). change (@fmap list _ _ _ to_hex) with (map to_hex).
    rewrite <- !map_app, group_bytes_text; [done|].
    rewrite !Forall_app. split_and!; [done| |done]. apply Forall_replicate. unfold group. lia.
  - right; right. split; naive_solver.
Qed.

Lemma v6_text_no gs c : Forall group gs → is_hex c || (c =? colon)%N = false → c ∉ v6_text gs.
Proof. intros Hgs Hc Hin. apply (v6_text_chars gs c Hgs) in Hin. congruence. Qed.
Lemma v6_short_no h t c : Forall group h → Forall group t → is_hex c || (c =? colon)%N = false → c ∉ v6_short h t.
Proof.
  intros Hh Ht Hc. unfold v6_short. rewrite not_elem_of_app, !not_elem_of_cons. apply orb_false_iff in Hc as Hc'.
  destruct Hc' as [_ Hc'%N.eqb_neq]. split_and!; auto using v6_text_no.
Qed.

Lemma ipv6Bytes_text gs : Forall group gs → length gs = 8%nat → ipv6Bytes (v6_text gs) = Some (mjoin (map bytes2 gs)).
Proof.
  intros Hgs Hl. destruct (ipv6Bytes_shape (v6_text gs) [gs]) as [(? & [= <-] & _ & E)|[(? & ? & [=] & _)|[Hn _]]].
  - by apply v6_text_no.
  - by apply v6_text_no.
  - by constructor.
  - pose proof (split_cc_text gs [] Hgs) as E. rewrite app_nil_r in E. rewrite E. cbn. by rewrite app_nil_r.
  - done.
  - by destruct (Hn gs).
Qed.
Lemma ipv6Bytes_short h t : Forall group h → Forall group t → (length h + length t <= 7)%nat →
  ipv6Bytes (v6_short h t) = Some (mjoin (map bytes2 (filled h t))).
Proof.
  intros Hh Ht Hl. destruct (ipv6Bytes_shape (v6_short h t) [h; t]) as [(? & [=] & _)|[(? & ? & [= <- <-] & _ & E)|[_ Hn]]].
  - by apply v6_short_no.
  - by apply v6_short_no.
  - by repeat constructor.
  - unfold v6_short. rewrite split_cc_text by done. cbn [split_cc N.eqb andb Pos.eqb colon].
    pose proof (split_cc_text t [] Ht) as E. rewrite app_nil_r in E. cbn. rewrite E. cbn. by rewrite !app_nil_r.
  - done.
  - specialize (Hn h t eq_refl). lia.
Qed.

Lemma addr_app a b : addr (a ++ b) = foldl (λ n x, n * 256 + x)%Z (addr a) b.
Proof. unfold addr. by rewrite foldl_app. Qed.
Lemma bytes2_octets g : Forall octet (bytes2 g).
Proof.
  assert (∀ x, octet (Z.land x 255)) as H.
  { intros x. change 255%Z with (Z.ones 8). rewrite Z.land_ones by lia. pose proof (Z.mod_pos_bound x (2 ^ 8)). unfold octet. lia. }
  by repeat constructor; apply H.
Qed.
Lemma bytes_addr gs : Forall group gs →
  Forall octet (mjoin (map bytes2 gs)) ∧ length (mjoin (map bytes2 gs)) = (2 * length gs)%nat
  ∧ addr (mjoin (map bytes2 gs)) = v6_addr gs.
Proof.
  intros Hgs. split_and!.
  - apply Forall_forall. intros x (l & Hx & (g & -> & _)%list_elem_of_fmap)%list_elem_of_join. revert Hx. by apply Forall_forall, bytes2_octets.
  - induction gs as [|g gs IH]; [done|]. apply Forall_cons in Hgs as [_ Hgs].
    change (mjoin (map bytes2 (g :: gs))) with (bytes2 g ++ mjoin (map bytes2 gs)). rewrite length_app, IH by done. cbn. lia.
  - unfold addr, v6_addr. generalize 0%Z. induction Hgs as [|g gs Hg Hgs IH]; intros n; [done|].
    change (mjoin (map bytes2 (g :: gs))) with (bytes2 g ++ mjoin (map bytes2 gs)). rewrite foldl_app.
    cbn [foldl bytes2]. rewrite <- IH. f_equal. change 255%Z with (Z.ones 8).
    rewrite !Z.land_ones, Z.shiftr_div_pow2 by lia. change (2 ^ 8)%Z with 256%Z. unfold group in Hg. Z.to_euclidean_division_equations; lia.
Qed.
Lemma filled_group h t : Forall group h → Forall group t → Forall group (filled h t).
Proof. intros Hh Ht. unfold filled. rewrite !Forall_app. split_and!; [done| |done]. apply Forall_replicate. unfold group. lia. Qed.
Lemma filled_length h t : (length h + length t <= 7)%nat → length (filled h t) = 8%nat.
Proof. intros H. unfold filled. rewrite !length_app, length_replicate. lia. Qed.

(** ** Addresses nobody outside can reach, by number *)

(** The IPv6 blocks: ::, ::1, fe80::/10, ff00::/8, fc00::/7, 100::/64, 2001:db8::/32, 2001::/23. *)
Definition blocked_v6 : list (Z * Z) :=
  let ip g0 g1 := v6_addr [g0; g1; 0; 0; 0; 0; 0; 0]%Z in
  [(0, 1); (1, 1); (ip 0xfe80 0, 2 ^ 118); (ip 0xff00 0, 2 ^ 120); (ip 0xfc00 0, 2 ^ 121);
   (ip 0x100 0, 2 ^ 64); (ip 0x2001 0xdb8, 2 ^ 96); (ip 0x2001 0, 2 ^ 105)]%Z.
Definition nonpublic4 (x : Z) : bool := existsb (in_block x) blocked_v4.
(** Or an IPv4 address carried by ::ffff:0:0/96, 2002::/16 or 64:ff9b::/32. *)
Definition nonpublic6 (x : Z) : bool :=
  existsb (in_block x) blocked_v6
  || (in_block x (v6_addr [0; 0; 0; 0; 0; 0xffff; 0; 0]%Z, 2 ^ 32)%Z && nonpublic4 (x mod 2 ^ 32)%Z)
  || (in_block x (v6_addr [0x2002; 0; 0; 0; 0; 0; 0; 0]%Z, 2 ^ 112)%Z && nonpublic4 (x / 2 ^ 80 mod 2 ^ 32)%Z)
  || (in_block x (v6_addr [0x64; 0xff9b; 0; 0; 0; 0; 0; 0]%Z, 2 ^ 96)%Z && nonpublic4 (x mod 2 ^ 32)%Z).

Lemma land_mask (P : Z → bool) x : forallb P (map Z.of_nat (seq 0 256)) = true → octet x → P x = true.
Proof.
  intros H Hx. rewrite forallb_forall in H. apply H, in_map_iff. unfold octet in Hx. exists (Z.to_nat x). rewrite in_seq. lia.
Qed.

Lemma classify_v4_nonpublic b : Forall octet b → length b = 4%nat → nonpublic4 (addr b) = true →
  orElse (metadataReason b) (classifyIpv4 b) ≠ None.
Proof.
  intros Hb Hl Hn. destruct b as [|b0 [|b1 [|b2 [|b3 [|]]]]]; try done. rewrite !Forall_cons in Hb.
  destruct Hb as (H0 & H1 & H2 & H3 & _). destruct (metadataReason _); [done|]. cbn [orElse].
  intros E. apply classifyIpv4_blocks in E; [|done..]. unfold nonpublic4 in Hn. congruence.
Qed.

(** The number of a text of bytes, by its parts. *)
Lemma addr_bound b : Forall octet b → (0 <= addr b < 256 ^ Z.of_nat (length b))%Z.
Proof.
  induction b as [|x b IH] using rev_ind; intros Hb; [done|]. apply Forall_app in Hb as [Hb [Hx _]%Forall_cons].
  specialize (IH Hb). rewrite addr_app, length_app. cbn [foldl length]. unfold octet in Hx.
  replace (Z.of_nat (length b + 1)) with (Z.succ (Z.of_nat (length b))) by lia. rewrite Z.pow_succ_r by lia. lia.
Qed.
Lemma addr_snoc a x : addr (a ++ [x]) = (addr a * 256 + x)%Z.
Proof. by rewrite addr_app. Qed.
Lemma addr_parts a b : addr (a ++ b) = (addr a * 256 ^ Z.of_nat (length b) + addr b)%Z.
Proof.
  induction b as [|x b IH] using rev_ind; [rewrite app_nil_r; cbn; lia|]. rewrite app_assoc, !addr_snoc, IH, length_app.
  cbn [length]. replace (Z.of_nat (length b + 1)) with (Z.succ (Z.of_nat (length b))) by lia. rewrite Z.pow_succ_r by lia. lia.
Qed.
Lemma addr_take_drop k b : Forall octet b → let m := (256 ^ Z.of_nat (length b - k))%Z in
  (addr (take k b) = addr b / m ∧ addr (drop k b) = addr b mod m)%Z.
Proof.
  intros Hb m. pose proof (addr_parts (take k b) (drop k b)) as E. rewrite take_drop in E.
  pose proof (addr_bound (drop k b) ltac:(by apply Forall_drop)) as Hd. rewrite length_drop in *. fold m in E, Hd. rewrite E.
  rewrite (Z.mul_comm _ m). split.
  - rewrite Z.mul_comm, Z.div_add_l, Z.div_small by lia. lia.
  - by rewrite Z.add_comm, Z.mul_comm, Z.mod_add, Z.mod_small by lia.
Qed.
Lemma addr_inj a b : Forall octet a → Forall octet b → length a = length b → addr a = addr b → a = b.
Proof.
  revert b. induction a as [|x a IH] using rev_ind; intros b Ha Hb Hl E.
  - by destruct b.
  - rewrite length_app in Hl. destruct b as [|y b _] using rev_ind; [cbn in Hl; lia|]. rewrite length_app in Hl. cbn in Hl.
    apply Forall_app in Ha as [Ha [Hx _]%Forall_cons], Hb as [Hb [Hy _]%Forall_cons].
    rewrite !addr_snoc in E. unfold octet in Hx, Hy. assert (x = y ∧ addr a = addr b)%Z as [-> Hab] by lia.
    f_equal. apply IH; [done|done|lia|done].
Qed.
(** The first bytes of an address of a block. *)
Lemma take_is k b p : Forall octet b → Forall octet p → length p = k → (k <= length b)%nat →
  (addr b / 256 ^ Z.of_nat (length b - k))%Z = addr p → take k b = p.
Proof.
  intros Hb Hp Hk Hl E. apply addr_inj; [by apply Forall_take|done| |].
  - rewrite length_take. lia.
  - rewrite <- E. by apply addr_take_drop.
Qed.
Lemma in_block_prefix x p m : (0 < m)%Z → in_block x (p * m, m)%Z = true → (x / m = p)%Z.
Proof.
  unfold in_block. cbn. intros Hm [?%Z.leb_le ?%Z.ltb_lt]%andb_true_iff. symmetry. apply Z.div_unique with (x - p * m)%Z; lia.
Qed.
Lemma in_block_bounds x lo n m : (0 < m)%Z → in_block x (lo * m, n * m)%Z = true → (lo <= x / m < lo + n)%Z.
Proof.
  unfold in_block. cbn. intros Hm [?%Z.leb_le ?%Z.ltb_lt]%andb_true_iff.
  split; [apply Z.div_le_lower_bound; lia|apply Z.div_lt_upper_bound; lia].
Qed.

Section v6.
  Context (b : list Z) (Hb : Forall octet b) (Hl : length b = 16%nat).

Lemma block_take k p blk : Forall octet p → length p = k → (k <= 16)%nat →
  blk = (addr p * 256 ^ Z.of_nat (16 - k), 256 ^ Z.of_nat (16 - k))%Z → in_block (addr b) blk = true → take k b = p.
Proof.
  intros Hp Hk Hk' -> Hin. apply take_is; [done|done|done|lia|]. rewrite Hl. apply in_block_prefix; [|done]. lia.
Qed.
Lemma block_bounds k lo n blk : (k <= 16)%nat → blk = (lo * 256 ^ Z.of_nat (16 - k), n * 256 ^ Z.of_nat (16 - k))%Z →
  in_block (addr b) blk = true → (lo <= addr (take k b) < lo + n)%Z.
Proof.
  intros Hk -> Hin. destruct (addr_take_drop k b Hb) as [-> _]. rewrite Hl. apply in_block_bounds; [|done]. lia.
Qed.

(** No test of the chain holds. *)
Lemma classifyIpv6_None : classifyIpv6 b = None →
  all_zero b = false ∧ all_zero (take 15 b) && at_is b 15 1 = false
  ∧ at_is b 0 254 && (Z.land (nth 1 b (-1)) 192 =? 128)%Z = false ∧ at_is b 0 255 = false ∧ (Z.land (nth 0 b (-1)) 254 =? 252)%Z = false
  ∧ at_is b 0 1 && at_is b 1 0 && all_zero (take 6 (drop 2 b)) = false
  ∧ at_is b 0 32 && at_is b 1 1 && at_is b 2 13 && at_is b 3 184 = false
  ∧ at_is b 0 32 && at_is b 1 1 && (nth 2 b (-1) <=? 1)%Z = false.
Proof.
  unfold classifyIpv6. cbv zeta.
  repeat (match goal with |- context [if ?c then _ else _] => destruct c eqn:? end; [by intros|]). intros _. by split_and!.
Qed.

(** A list by its first elements. *)
Lemma take_split k p : take k b = p → ∃ t, b = p ++ t ∧ length t = (16 - k)%nat.
Proof. intros <-. exists (drop k b). by rewrite take_drop, length_drop, Hl. Qed.

Lemma blocked_classified : existsb (in_block (addr b)) blocked_v6 = true → classifyIpv6 b ≠ None.
Proof.
  intros (blk & Hblk & Hin)%existsb_exists (Z0 & Z1 & Hfe & Hff & Hfc & Hdis & Hdoc & Hspec)%classifyIpv6_None.
  assert (∀ x, octet x → 128 <= x < 192 → (Z.land x 192 =? 128) = true)%Z as Hfe'.
  { intros x Hx Hr. pose proof (land_mask (λ x, negb ((128 <=? x) && (x <? 192)) || (Z.land x 192 =? 128))%Z x ltac:(vm_compute; reflexivity) Hx) as E.
    cbn beta in E. rewrite (proj2 (Z.leb_le 128 x)), (proj2 (Z.ltb_lt x 192)) in E by lia. done. }
  unfold blocked_v6 in Hblk. repeat (destruct Hblk as [<-|Hblk]); [..|done].
  - apply (block_take 16 (replicate 16 0%Z)) in Hin; [|repeat constructor; unfold octet; lia|done|done|reflexivity].
    apply take_split in Hin as (t & -> & Ht). by destruct t.
  - apply (block_take 16 (replicate 15 0%Z ++ [1%Z])) in Hin; [|repeat constructor; unfold octet; lia|done|done|reflexivity].
    apply take_split in Hin as (t & -> & Ht). by destruct t.
  - apply (block_bounds 2 0xfe80 0x40) in Hin; [|lia|reflexivity]. destruct b as [|b0 [|b1 t]]; try done.
    apply Forall_cons in Hb as [H0 [H1 _]%Forall_cons]. unfold addr in Hin. cbn [take foldl firstn] in Hin; rewrite ?take_0 in Hin; cbn [foldl] in Hin. unfold octet in H0, H1.
    assert (b0 = 254 ∧ 128 <= b1 < 192)%Z as [-> Hr] by lia. cbn in Hfe. by rewrite Hfe' in Hfe.
  - apply (block_take 1 [255%Z]) in Hin; [|repeat constructor; unfold octet; lia|done|lia|reflexivity].
    apply take_split in Hin as (t & -> & _). done.
  - apply (block_bounds 1 0xfc 2) in Hin; [|lia|reflexivity]. destruct b as [|b0 t]; [done|]. unfold addr in Hin. cbn [take foldl firstn] in Hin; rewrite ?take_0 in Hin; cbn [foldl] in Hin.
    assert (b0 = 252 ∨ b0 = 253)%Z as [-> | ->] by lia; done.
  - apply (block_take 8 [1; 0; 0; 0; 0; 0; 0; 0]%Z) in Hin; [|repeat constructor; unfold octet; lia|done|lia|reflexivity].
    apply take_split in Hin as (t & -> & _). done.
  - apply (block_take 4 [32; 1; 13; 184]%Z) in Hin; [|repeat constructor; unfold octet; lia|done|lia|reflexivity].
    apply take_split in Hin as (t & -> & _). done.
  - apply (block_bounds 3 0x200100 2) in Hin; [|lia|reflexivity]. destruct b as [|b0 [|b1 [|b2 t]]]; try done.
    apply Forall_cons in Hb as [H0 [H1 [H2 _]%Forall_cons]%Forall_cons]. unfold addr in Hin. cbn [take foldl firstn] in Hin; rewrite ?take_0 in Hin; cbn [foldl] in Hin. unfold octet in H0, H1, H2.
    assert (b0 = 32 ∧ b1 = 1 ∧ 0 <= b2 <= 1)%Z as (-> & -> & Hr) by lia. cbn in Hspec. apply Z.leb_gt in Hspec. lia.
Qed.

Lemma mapped_not_blocked : existsb (in_block (addr b)) blocked_v6 = true → mappedIpv4 b = None.
Proof.
  intros Hn. unfold mappedIpv4. rewrite Hl. cbn [Nat.eqb negb].
  destruct (all_zero (take 10 b) && at_is b 10 255 && at_is b 11 255) eqn:E; [|done]. exfalso. bprop.
  destruct b as [|b0 [|b1 [|b2 [|b3 [|b4 [|b5 [|b6 [|b7 [|b8 [|b9 [|b10 [|b11 t]]]]]]]]]]]]; try done.
  unfold all_zero, at_is in *. cbn [take forallb nth] in *. bprop. subst.
  pose proof (addr_parts [0; 0; 0; 0; 0; 0; 0; 0; 0; 0; 255; 255]%Z t) as Ea. cbn [app] in Ea. cbn [length] in Hl.
  replace (length t) with 4%nat in Ea by lia. rewrite Ea in Hn. pose proof (addr_bound t) as Ht.
  replace (length t) with 4%nat in Ht by lia. assert (Forall octet t) as Hot by (by repeat (apply Forall_cons in Hb as [_ Hb])). specialize (Ht Hot).
  apply existsb_exists in Hn as (blk & Hblk & Hin). unfold in_block in Hin. apply andb_true_iff in Hin as [?%Z.leb_le ?%Z.ltb_lt].
  change (addr [0; 0; 0; 0; 0; 0; 0; 0; 0; 0; 255; 255]%Z) with 65535%Z in *. unfold blocked_v6, v6_addr in Hblk. cbn [foldl] in Hblk.
  repeat (destruct Hblk as [<-|Hblk]); [..|done]; cbn [fst snd] in *; lia.
Qed.

(** The four bytes an address carries. *)
Lemma carried k a t : b = a ++ t → length a = k → (k <= 16)%nat → (addr t = addr b mod 256 ^ Z.of_nat (16 - k))%Z.
Proof.
  intros E Hk Hk'. destruct (addr_take_drop k b Hb) as [_ Hd]. rewrite Hl in Hd. rewrite <- Hd, E, drop_app_length'; done.
Qed.

Lemma carried_judged l l4 : mappedIpv4 l = None → transitionIpv4 l = Some l4 →
  match mappedIpv4 l with
  | Some mapped => orElse (metadataReason mapped) (classifyIpv4 mapped)
  | None => match transitionIpv4 l with
            | Some transition => match orElse (metadataReason transition) (classifyIpv4 transition) with
                                 | Some r => Some (TransitionAddress transition r) | None => classifyIpv6 l end
            | None => classifyIpv6 l
            end
  end = None → orElse (metadataReason l4) (classifyIpv4 l4) = None.
Proof. intros -> ->. by destruct (orElse _ _). Qed.

Lemma classify_v6_nonpublic : nonpublic6 (addr b) = true → classify_v6 b ≠ None.
Proof.
  intros Hn E. unfold classify_v6 in E. destruct (metadataReason b); [done|].
  assert (∀ b4, Forall octet b4 → length b4 = 4%nat → nonpublic4 (addr b4) = true → orElse (metadataReason b4) (classifyIpv4 b4) = None → False)
    as H4 by (intros; by eapply classify_v4_nonpublic).
  unfold nonpublic6 in Hn. apply orb_true_iff in Hn as [[[Hn|Hn]%orb_true_iff|Hn]%orb_true_iff|Hn].
  - rewrite mapped_not_blocked in E by done. apply (blocked_classified Hn). destruct (transitionIpv4 b); [|done]. by destruct (orElse _ _).
  - apply andb_true_iff in Hn as [Hin Hn].
    apply (block_take 12 [0; 0; 0; 0; 0; 0; 0; 0; 0; 0; 255; 255]%Z) in Hin; [|repeat constructor; unfold octet; lia|done|lia|reflexivity].
    apply take_split in Hin as (t & Eb & Ht). pose proof (carried 12 _ t Eb eq_refl ltac:(lia)) as Hc. rewrite Eb in E.
    destruct t as [|t0 [|t1 [|t2 [|t3 [|]]]]]; try done. apply (H4 [t0; t1; t2; t3]); [rewrite Eb in Hb; by apply Forall_app in Hb as []|done|by rewrite Hc|exact E].
  - apply andb_true_iff in Hn as [Hin Hn].
    apply (block_take 2 [32; 2]%Z) in Hin; [|repeat constructor; unfold octet; lia|done|lia|reflexivity].
    apply take_split in Hin as (t & Eb & Ht). destruct t as [|t0 [|t1 [|t2 [|t3 t]]]]; try done.
    destruct (addr_take_drop 6 b Hb) as [H6 _]. rewrite Hl, Eb in H6.
    assert (Forall octet [t0; t1; t2; t3]) as Hot. { rewrite Eb in Hb. cbn [app] in Hb. rewrite !Forall_cons in Hb. rewrite !Forall_cons. by destruct_and!. }
    apply (H4 [t0; t1; t2; t3]); [done|done| |].
    + rewrite Eb in Hn. pose proof (addr_parts [32; 2]%Z [t0; t1; t2; t3]) as Ep. cbn [app] in Ep, H6, Hn. cbn [take firstn] in H6. rewrite ?take_0 in H6.
      rewrite Ep in H6. pose proof (addr_bound _ Hot) as Ha. cbn [length] in *. 
      replace (addr [t0; t1; t2; t3]) with (addr (32 :: 2 :: t0 :: t1 :: t2 :: t3 :: t) / 2 ^ 80 mod 2 ^ 32)%Z; [done|].
      change (2 ^ 80)%Z with (256 ^ Z.of_nat (16 - 6))%Z. rewrite <- H6. rewrite Z.add_comm, Z.mod_add by done. apply Z.mod_small. exact Ha.
    + rewrite Eb in E. destruct t as [|t4 [|t5 [|t6 [|t7 [|t8 [|t9 [|t10 [|t11 [|t12 [|t13 [|]]]]]]]]]]]; try done.
      cbn [app] in E. by apply (carried_judged _ [t0; t1; t2; t3]) in E.
  - apply andb_true_iff in Hn as [Hin Hn].
    apply (block_take 4 [0; 100; 255; 155]%Z) in Hin; [|repeat constructor; unfold octet; lia|done|lia|reflexivity].
    apply take_split in Hin as (t & Eb & Ht). assert (∃ u v, t = u ++ v ∧ length u = 8%nat ∧ length v = 4%nat) as (u & v & -> & Hu & Hv).
    { exists (take 8 t), (drop 8 t). split_and!; [by rewrite take_drop|rewrite length_take; lia|rewrite length_drop; lia]. }
    rewrite app_assoc in Eb. pose proof (carried 12 _ v Eb ltac:(rewrite length_app, Hu; done) ltac:(lia)) as Hc. rewrite Eb in E.
    assert (Forall octet v) as Hov by (rewrite Eb in Hb; by apply Forall_app in Hb as []).
    destruct v as [|v0 [|v1 [|v2 [|v3 [|]]]]]; try done. apply (H4 [v0; v1; v2; v3]); [done|done|by rewrite Hc|]. destruct u as [|u0 [|u1 [|u2 [|u3 [|u4 [|u5 [|u6 [|u7 [|]]]]]]]]]; try done.
    cbn [app] in E. by apply (carried_judged _ [v0; v1; v2; v3]) in E.
Qed.
End v6.

(** ** What an accepted URL guarantees *)

Definition metadata_v4 : list (list Z) := [[169; 254; 169; 254]; [100; 100; 100; 200]]%Z.

Lemma metadata_v4_reason b : b ∈ metadata_v4 → metadataReason b = Some CloudMetadata.
Proof.
  intros H. repeat (apply elem_of_cons in H as [->|H]; [vm_compute; reflexivity|]).
  by apply not_elem_of_nil in H.
Qed.

(** A name every resolver answers with a loopback address. *)
Definition localhost_name (host : jsstr) : Prop := host = js "localhost" ∨ ∃ t, host = t ++ js ".localhost".
Lemma isLocalhostName_spec host : isLocalhostName host = true ↔ localhost_name host.
Proof.
  unfold isLocalhostName, localhost_name. rewrite orb_true_iff. split; (intros [H|H]; [left|right]).
  - by apply seqb_eq.
  - by apply endsWith_spec.
  - by apply seqb_eq.
  - by apply endsWith_spec.
Qed.
(** An address literal is not one: it has no letter beyond f. *)
Lemma no_localhost host : 108%N ∉ host → isLocalhostName host = false.
Proof.
  intros Hno. apply not_true_is_false. intros [->|[t ->]]%isLocalhostName_spec; apply Hno; [vm_compute; left|].
  apply elem_of_app. right. vm_compute. right. left.
Qed.
Lemma dotted_no_l b : Forall octet b → b ≠ [] → 108%N ∉ dotted b.
Proof.
  intros Hb Hne Hin. destruct (octets_text b Hb Hne) as (_ & _ & _ & Hc). rewrite forallb_forall in Hc.
  by apply list_elem_of_In, Hc in Hin.
Qed.

(** The texts a URL can carry an IPv6 address as. *)
Definition v6_host (groups : list Z) (host : jsstr) : Prop :=
  Forall group groups ∧ length groups = 8%nat ∧ host = v6_text groups
  ∨ ∃ head tail, Forall group head ∧ Forall group tail ∧ (length head + length tail <= 7)%nat
      ∧ groups = filled head tail ∧ host = v6_short head tail.
Lemma v6_host_bytes gs host : v6_host gs host →
  ∃ b, ipv6Bytes host = Some b ∧ ipv4Bytes host = None ∧ isLocalhostName host = false
    ∧ Forall octet b ∧ length b = 16%nat ∧ addr b = v6_addr gs.
Proof.
  intros H. exists (mjoin (map bytes2 gs)).
  assert (Forall group gs ∧ length gs = 8%nat) as [Hgs Hl].
  { destruct H as [(? & ? & _)|(h & t & ? & ? & ? & -> & _)]; [done|]. by split; [apply filled_group|apply filled_length]. }
  destruct (bytes_addr gs Hgs) as (Ho & Hn & Ha). rewrite Hl in Hn.
  assert (∀ c, is_hex c || (c =? colon)%N = false → c ∉ host) as Hno.
  { intros c Hc. destruct H as [(? & _ & ->)|(h & t & ? & ? & _ & _ & ->)]; [by apply v6_text_no|by apply v6_short_no]. }
  split_and!; [|unfold ipv4Bytes, isIP, isIPv4; cbv zeta; rewrite (split_no 46 host) by (by apply Hno); by destruct (isIPv6 host)
    |by apply no_localhost, Hno|done|done|done].
  destruct H as [(? & _ & ->)|(h & t & ? & ? & ? & -> & ->)]; [by apply ipv6Bytes_text|by apply ipv6Bytes_short].
Qed.

(** An allowlist entry [network/n] with [n] from 1 to 32 whose leading [n] bits are those of
    the address. *)
Definition covers (toInteger : jsstr → option Z) (cidr : jsstr) (b : list Z) : Prop :=
  ∃ network prefixText rest n net,
    split 47%N cidr = network :: prefixText :: rest ∧ toInteger prefixText = Some n ∧ (1 <= n <= 32)%Z
    ∧ ipv4Bytes network = Some net ∧ (addr b / 2 ^ (32 - n) = addr net / 2 ^ (32 - n))%Z.

Section accepted.
  Context (toInteger : jsstr → option Z) (parseURL : jsstr → option url) (policy : EgressPolicy).

Lemma permitted_v4 host b : ipv4Bytes host = Some b → permittedByPolicy toInteger host policy = true →
  metadataReason b = None
  ∧ (allowPrivateNetworks policy = false → ∃ cidr, cidr ∈ privateAllowlist policy ∧ covers toInteger cidr b).
Proof.
  unfold permittedByPolicy. intros Hb. rewrite Hb. destruct (metadataReason b); [done|]. intros Hp. split; [done|].
  intros Ha. rewrite Ha in Hp. apply existsb_True in Hp as (cidr & Hc & Hw). exists cidr. split; [done|].
  by apply (withinCidr_spec toInteger host cidr b Hb).
Qed.
Lemma permitted_not_v4 host : ipv4Bytes host = None → allowPrivateNetworks policy = false →
  permittedByPolicy toInteger host policy = false.
Proof. unfold permittedByPolicy. by intros -> ->. Qed.

Lemma accepted_cases raw : rejectEndpointUrl toInteger parseURL (JStr raw) policy = None →
  (0 < jslen (trim raw) <= MAX_URL_LENGTH)%Z ∧ (∀ c, c ∈ trim raw → bad_url_char c = false)
  ∧ ∃ u, parseURL (trim raw) = Some u
    ∧ protocol u ∈ [js "http:"; js "https:"] ∧ username u = [] ∧ password u = []
    ∧ let host := strip_brackets (hostname u) in
      host ≠ []
      ∧ (isLocalhostName host = true → permittedByPolicy toInteger (js "127.0.0.1") policy = true)
      ∧ (isLocalhostName host = false → classifyLiteral host = None ∨ permittedByPolicy toInteger host policy = true).
Proof.
  unfold rejectEndpointUrl. intros Hacc.
  destruct (jslen (trim raw) =? 0)%Z eqn:E0; [done|]. destruct (MAX_URL_LENGTH <? _)%Z eqn:E1; [done|].
  destruct (existsb _ _) eqn:Ew; [done|]. split; [unfold jslen in *; bprop; lia|]. split.
  { intros c Hc. apply not_true_is_false. intros Hbad. apply not_true_iff_false in Ew. apply Ew, existsb_exists. exists c.
    by rewrite <- list_elem_of_In. }
  destruct (parseURL (trim raw)) as [u|]; [|done].
  exists u. split; [done|]. destruct (_ && _) eqn:Ep; [done|]. destruct (_ || _) eqn:Ec; [done|]. bprop.
  split. { destruct Ep as [Ep|Ep]; bprop; apply seqb_eq in Ep as ->; set_solver. }
  split; [done|]. split; [done|]. cbv zeta. case_bool_decide as Eh; [done|]. split; [done|].
  destruct (isLocalhostName _) eqn:El; (split; [|done || intros _]); [intros _|done|].
  - by destruct (permittedByPolicy _ _ _).
  - destruct (classifyLiteral _); [|by left]. right. by destruct (permittedByPolicy _ _ _).
Qed.
End accepted.

(** C25. An accepted URL is one line of at most 2048 characters, http or https, carries
    no credentials and names a host.  Whatever the policy, the host is not the text of
    an IPv4 metadata address.  Unless all private networks are allowed: a dotted quad
    in one of the fourteen special-purpose blocks, taken as intervals of 32-bit
    numbers, and localhost with every name under it, taken as 127.0.0.1, agree with
    an allowlist entry on its leading bits; and an IPv6 literal, however its zeros are
    left out, lies outside the special-purpose blocks, taken as intervals of 128-bit
    numbers, and carries no IPv4 address of the fourteen blocks. *)
Theorem accepted_url_safe (toInteger : jsstr → option Z) (parseURL : jsstr → option url)
  (raw : jsstr) (policy : EgressPolicy)
  (Hacc : rejectEndpointUrl toInteger parseURL (JStr raw) policy = None) :
  (0 < jslen (trim raw) <= 2048)%Z ∧ (∀ c, c ∈ trim raw → bad_url_char c = false)
  ∧ ∃ u, parseURL (trim raw) = Some u
    ∧ protocol u ∈ [js "http:"; js "https:"] ∧ username u = [] ∧ password u = []
    ∧ let host := strip_brackets (hostname u) in
      host ≠ []
      ∧ (∀ b, Forall octet b → length b = 4%nat → host = dotted b → b ∉ metadata_v4)
      ∧ (allowPrivateNetworks policy = false →
         (∀ b, Forall octet b → length b = 4%nat → host = dotted b → nonpublic4 (addr b) = true →
            ∃ cidr, cidr ∈ privateAllowlist policy ∧ covers toInteger cidr b)
         ∧ (localhost_name host → ∃ cidr, cidr ∈ privateAllowlist policy ∧ covers toInteger cidr [127; 0; 0; 1]%Z)
         ∧ (∀ groups, v6_host groups host → nonpublic6 (v6_addr groups) = false)).
Proof.
  destruct (accepted_cases toInteger parseURL policy raw Hacc) as (Hl & Hc & u & Hu & Hp & Hn & Hw & Hrest).
  split; [exact Hl|]. split; [done|]. exists u. split; [done|]. split; [done|]. split; [done|]. split; [done|]. cbv zeta in *. destruct Hrest as (Hh & Hloc & Hlit). split; [done|].
  assert (∀ b, Forall octet b → length b = 4%nat → strip_brackets (hostname u) = dotted b →
    ipv4Bytes (strip_brackets (hostname u)) = Some b ∧ isLocalhostName (strip_brackets (hostname u)) = false) as Hdot.
  { intros b Hb Hb4 ->. split; [by apply ipv4Bytes_dotted|]. apply no_localhost, dotted_no_l; [done|by destruct b]. }
  split; [|intros Ha; split; [|split]].
  - intros b Hb Hb4 Eh Hm. destruct (Hdot b Hb Hb4 Eh) as [H4 Hno]. destruct (Hlit Hno) as [Hcl|Hperm].
    + unfold classifyLiteral in Hcl. by rewrite H4, metadata_v4_reason in Hcl.
    + apply (permitted_v4 _ _ _ _ H4) in Hperm as [Hmeta _]. by rewrite metadata_v4_reason in Hmeta.
  - intros b Hb Hb4 Eh Hnp. destruct (Hdot b Hb Hb4 Eh) as [H4 Hno]. destruct (Hlit Hno) as [Hcl|Hperm].
    + unfold classifyLiteral in Hcl. rewrite H4 in Hcl. by destruct (classify_v4_nonpublic b Hb Hb4 Hnp).
    + by apply (permitted_v4 _ _ _ _ H4) in Hperm as [_ Hperm]; apply Hperm.
  - intros Hname%isLocalhostName_spec. specialize (Hloc Hname). by apply (permitted_v4 _ _ _ [127; 0; 0; 1]%Z) in Hloc as [_ Hloc]; [apply Hloc|].
  - intros gs (b & H6 & H4 & Hno & Hb & Hb16 & <-)%v6_host_bytes. destruct (Hlit Hno) as [Hcl|Hperm].
    + unfold classifyLiteral in Hcl. rewrite H4, H6 in Hcl. apply not_true_is_false. intros Hnp. by apply (classify_v6_nonpublic b Hb Hb16 Hnp).
    + by rewrite permitted_not_v4 in Hperm.
Qed.

(** A parser for the witnesses: scheme, [//], host up to the next slash. *)
Definition toy_url (host : jsstr) (_ : jsstr) : option url :=
  Some {| protocol := js "http:"; username := []; password := []; hostname := host |}.

Lemma accepted_url_safe_witness :
  (nonpublic4 (addr [10; 20; 3; 4]) = true ∧ js "10.20.3.4" = dotted [10; 20; 3; 4])%Z
  ∧ (nonpublic6 (v6_addr [0xfd00; 0xec2; 0; 0; 0; 0; 0; 0x254]) = true
     ∧ js "fd00:ec2::254" = v6_short [0xfd00; 0xec2] [0x254])%Z
  ∧ (0 < jslen (trim (js "http://10.20.3.4/hook")) <= 2048)%Z ∧ (∀ c, c ∈ trim (js "http://10.20.3.4/hook") → bad_url_char c = false)
  ∧ ∃ u, toy_url (js "10.20.3.4") (trim (js "http://10.20.3.4/hook")) = Some u
    ∧ protocol u ∈ [js "http:"; js "https:"] ∧ username u = [] ∧ password u = []
    ∧ let host := strip_brackets (hostname u) in
      host ≠ []
      ∧ (∀ b, Forall octet b → length b = 4%nat → host = dotted b → b ∉ metadata_v4)
      ∧ (false = false →
         (∀ b, Forall octet b → length b = 4%nat → host = dotted b → nonpublic4 (addr b) = true →
            ∃ cidr, cidr ∈ [js "10.20.0.0/16"] ∧ covers decimal_integer cidr b)
         ∧ (localhost_name host → ∃ cidr, cidr ∈ [js "10.20.0.0/16"] ∧ covers decimal_integer cidr [127; 0; 0; 1]%Z)
         ∧ (∀ groups, v6_host groups host → nonpublic6 (v6_addr groups) = false)).
Proof.
  split; [vm_compute; by split|]. split; [vm_compute; by split|].
  apply (accepted_url_safe decimal_integer (toy_url (js "10.20.3.4")) (js "http://10.20.3.4/hook")
           {| allowPrivateNetworks := false; privateAllowlist := [js "10.20.0.0/16"] |}).
  vm_compute. reflexivity.
Defined.

(** The metadata refusal is not unconditional for IPv6: with all private
    networks allowed, the AWS metadata address in its IPv6 form and an
    IPv4-mapped 169.254.169.254 are both accepted, because
    [permittedByPolicy] asks [metadataReason] about IPv4 literals only. *)
Theorem ipv6_metadata_permitted (toInteger : jsstr → option Z)
  (parseURL : jsstr → option url) (u : url) (policy : EgressPolicy)
  (Hpol : allowPrivateNetworks policy = true)
  (Hproto : protocol u = js "http:") (Hcred : username u = [] ∧ password u = [])
  (Hhost : hostname u ∈ [js "[fd00:ec2::254]"; js "[::ffff:a9fe:a9fe]"])
  (Hparse : parseURL (js "http://metadata/") = Some u) :
  classifyLiteral (strip_brackets (hostname u)) = Some CloudMetadata
  ∧ rejectEndpointUrl toInteger parseURL (JStr (js "http://metadata/")) policy = None.
Proof.
  assert (trim (js "http://metadata/") = js "http://metadata/") as Ht by by vm_compute.
  assert (∀ h, isLocalhostName h = false → h ≠ [] → classifyLiteral h = Some CloudMetadata →
                 ipv4Bytes h = None → strip_brackets (hostname u) = h →
            rejectEndpointUrl toInteger parseURL (JStr (js "http://metadata/")) policy = None)
    as Hgo.
  { intros h Hl Hn Hc H4 Hs. unfold rejectEndpointUrl. rewrite Ht, Hparse, Hproto.
    destruct Hcred as [-> ->]. rewrite Hs, Hl, Hc. rewrite (bool_decide_false (h = [])) by done.
    unfold permittedByPolicy. rewrite H4, Hpol. reflexivity. }
  apply elem_of_cons in Hhost as [Hhost|Hhost%list_elem_of_singleton]; rewrite Hhost;
    (split; [vm_compute; reflexivity|]).
  - apply (Hgo (js "fd00:ec2::254")); [by vm_compute..|by rewrite Hhost].
  - apply (Hgo (js "::ffff:a9fe:a9fe")); [by vm_compute..|by rewrite Hhost].
Qed.

Lemma ipv6_metadata_permitted_witness :
  classifyLiteral (strip_brackets (js "[fd00:ec2::254]")) = Some CloudMetadata
  ∧ rejectEndpointUrl decimal_integer (toy_url (js "[fd00:ec2::254]"))
      (JStr (js "http://metadata/")) {| allowPrivateNetworks := true; privateAllowlist := [] |}
    = None.
Proof.
  apply (ipv6_metadata_permitted decimal_integer (toy_url (js "[fd00:ec2::254]"))
    {| protocol := js "http:"; username := []; password := []; hostname := js "[fd00:ec2::254]" |});
    [reflexivity|reflexivity|split; reflexivity|left|reflexivity].
Defined.
