(* ===== verification/Permissions.v ===== *)
(** The permission matrix and the role lattice: authz/permissions.ts. *)
From Stdlib Require Import ZArith Lia Ascii.
From S2P Require Import Prelude Js.

Inductive MemberRole : Type := owner | admin | developer | viewer | billing.

Inductive Permission : Type :=
| projects_read | projects_write
| endpoints_read | endpoints_write
| endpoint_secrets_read | endpoint_secrets_write
| subscriptions_read | subscriptions_write
| api_keys_read | api_keys_write
| events_read | events_replay
| deliveries_read | deliveries_replay
| policies_read | policies_write
| notifications_read | notifications_write
| members_read | members_write
| audit_read
| billing_read | billing_write.

#[export] Instance MemberRole_eq_dec : EqDecision MemberRole.
Proof. solve_decision. Defined.
#[export] Instance Permission_eq_dec : EqDecision Permission.
Proof. solve_decision. Defined.

(** The key of a permission in the matrix. *)
Definition permission_name (p : Permission) : jsstr :=
  match p with
  | projects_read => js "projects.read" | projects_write => js "projects.write"
  | endpoints_read => js "endpoints.read" | endpoints_write => js "endpoints.write"
  | endpoint_secrets_read => js "endpoint-secrets.read"
  | endpoint_secrets_write => js "endpoint-secrets.write"
  | subscriptions_read => js "subscriptions.read"
  | subscriptions_write => js "subscriptions.write"
  | api_keys_read => js "api-keys.read" | api_keys_write => js "api-keys.write"
  | events_read => js "events.read" | events_replay => js "events.replay"
  | deliveries_read => js "deliveries.read" | deliveries_replay => js "deliveries.replay"
  | policies_read => js "policies.read" | policies_write => js "policies.write"
  | notifications_read => js "notifications.read"
  | notifications_write => js "notifications.write"
  | members_read => js "members.read" | members_write => js "members.write"
  | audit_read => js "audit.read"
  | billing_read => js "billing.read" | billing_write => js "billing.write"
  end.

(** ** The matrix *)

(** One row: owner, admin, developer, viewer, billing. *)
Definition row : Type := bool * bool * bool * bool * bool.
Definition cell (r : row) (role : MemberRole) : bool :=
  let '(o, a, d, v, b) := r in
  match role with owner => o | admin => a | developer => d | viewer => v | billing => b end.

Definition GRANTS : list (Permission * row) :=
  let t := true in let f := false in
  [ (projects_read,          (t, t, t, t, t));
    (projects_write,         (t, t, f, f, f));
    (endpoints_read,         (t, t, t, t, f));
    (endpoints_write,        (t, t, t, f, f));
    (endpoint_secrets_read,  (t, t, f, f, f));
    (endpoint_secrets_write, (t, t, f, f, f));
    (subscriptions_read,     (t, t, t, t, f));
    (subscriptions_write,    (t, t, t, f, f));
    (api_keys_read,          (t, t, t, f, f));
    (api_keys_write,         (t, t, t, f, f));
    (events_read,            (t, t, t, t, f));
    (events_replay,          (t, t, t, f, f));
    (deliveries_read,        (t, t, t, t, f));
    (deliveries_replay,      (t, t, t, f, f));
    (policies_read,          (t, t, t, t, f));
    (policies_write,         (t, t, t, f, f));
    (notifications_read,     (t, t, t, t, f));
    (notifications_write,    (t, t, t, f, f));
    (members_read,           (t, t, t, t, t));
    (members_write,          (t, t, f, f, f));
    (audit_read,             (t, t, f, f, f));
    (billing_read,           (t, t, f, f, t));
    (billing_write,          (t, f, f, f, t)) ].

(** [PERMISSIONS]: the keys, in declaration order. *)
Definition PERMISSIONS : list Permission := fst <$> GRANTS.

(** [MEMBER_ROLES]: the columns of a row, in declaration order. *)
Definition MEMBER_ROLES : list MemberRole := [owner; admin; developer; viewer; billing].

(** [ROLE_PERMISSIONS[role]], as [buildRolePermissions] fills it. *)
Definition permissionsForRole (role : MemberRole) : list Permission :=
  fst <$> filter (λ g, cell g.2 role = true) GRANTS.

Definition roleHasPermission (role : MemberRole) (p : Permission) : bool :=
  bool_decide (p ∈ permissionsForRole role).

Definition isPermission (value : jsstr) : bool :=
  existsb (λ p, seqb value (permission_name p)) PERMISSIONS.

Definition isReadPermission (p : Permission) : bool :=
  bool_decide (p ∈ filter (λ p, endsWith (permission_name p) (js ".read") = true) PERMISSIONS).

(** What is left of a permission set under a suspension. *)
Definition permissionsUnderSuspension (granted : list Permission) : list Permission :=
  filter (λ p, isReadPermission p = true ∨ p = billing_write) granted.

(** ** The role lattice *)

Definition ROLE_RANK (r : MemberRole) : Z :=
  match r with owner => 40 | admin => 30 | developer => 20 | viewer => 10 | billing => 10 end.

Definition mayAssignRole (actor target : MemberRole) : bool :=
  roleHasPermission actor members_write && (ROLE_RANK target <=? ROLE_RANK actor)%Z.

Record RoleChange : Type := {
  actorRole : MemberRole;
  actorMembershipId : string;
  targetMembershipId : string;
  currentRole : MemberRole;
  nextRole : MemberRole;
  ownerCount : Z
}.

(** [nextRole] is [None] for a removal. *)
Definition assertOwnerSurvives (current : MemberRole) (next : option MemberRole) (count : Z)
  : result unit :=
  if negb (bool_decide (current = owner)) || bool_decide (next = Some owner) then Ok tt
  else throw_if (count <=? 1)%Z conflict
         "An organization must always have at least one owner. Promote another member first.".

(** The roles and the quotation mark of the sentences. *)
Definition role_name (r : MemberRole) : string :=
  match r with
  | owner => "owner" | admin => "admin" | developer => "developer"
  | viewer => "viewer" | billing => "billing"
  end.
Definition quote (s : string) : string := String (ascii_of_nat 34) (s +:+ String (ascii_of_nat 34) EmptyString).

Definition assertRoleChangeAllowed (c : RoleChange) : result unit :=
  _ ← throw_if (negb (roleHasPermission (actorRole c) members_write)) forbidden
        "You may not change member roles.";
  _ ← throw_if (bool_decide (actorMembershipId c = targetMembershipId c)) forbidden
        "You cannot change your own role. Ask another owner or admin to do it.";
  _ ← throw_if (negb (mayAssignRole (actorRole c) (nextRole c))) forbidden
        ("You may not assign the role " +:+ quote (role_name (nextRole c)) +:+ ".");
  _ ← throw_if (negb (mayAssignRole (actorRole c) (currentRole c))) forbidden
        ("You may not change the role of an " +:+ role_name (currentRole c) +:+ ".");
  assertOwnerSurvives (currentRole c) (Some (nextRole c)) (ownerCount c).

(** [nextRole] is not read. *)
Definition assertMemberRemovalAllowed (c : RoleChange) : result unit :=
  _ ← throw_if (negb (roleHasPermission (actorRole c) members_write)) forbidden
        "You may not remove members.";
  _ ← throw_if (bool_decide (actorMembershipId c = targetMembershipId c)) forbidden
        "You cannot remove your own membership. Ask another owner or admin to do it.";
  _ ← throw_if (negb (mayAssignRole (actorRole c) (currentRole c))) forbidden
        ("You may not remove an " +:+ role_name (currentRole c) +:+ ".");
  assertOwnerSurvives (currentRole c) None (ownerCount c).

(** ** Theorems *)

(** The one role below another that holds something the other does not. *)
Definition billing_exception (actor target : MemberRole) (p : Permission) : Prop :=
  actor = admin ∧ target = billing ∧ p = billing_write.

(** Assigning a role hands out no permission the assigner lacks, with one
    exception: an admin may assign [billing], whose [billing.write] the matrix
    denies to admin. *)
Theorem assignable_permissions (actor target : MemberRole) (p : Permission)
  (Hassign : mayAssignRole actor target = true)
  (Hp : roleHasPermission target p = true) :
  roleHasPermission actor p = true ∨ billing_exception actor target p.
Proof.
  unfold billing_exception.
  destruct actor, target; vm_compute in Hassign; try discriminate Hassign;
    destruct p; vm_compute in Hp; try discriminate Hp; (by left) || (by right).
Qed.

Lemma assignable_permissions_witness :
  roleHasPermission admin billing_write = true ∨ billing_exception admin billing billing_write.
Proof.
  apply (assignable_permissions admin billing billing_write); vm_compute; reflexivity.
Defined.

(** A suspension leaves exactly the granted permissions that read, plus
    [billing.write]; in particular neither replay survives it. *)
Theorem suspension_keeps_reads (role : MemberRole) (p : Permission) :
  p ∈ permissionsUnderSuspension (permissionsForRole role)
  ↔ p ∈ permissionsForRole role
    ∧ p ∈ [projects_read; endpoints_read; endpoint_secrets_read; subscriptions_read;
           api_keys_read; events_read; deliveries_read; policies_read; notifications_read;
           members_read; audit_read; billing_read; billing_write].
Proof.
  unfold permissionsUnderSuspension. rewrite list_elem_of_filter.
  set (reads := [_; _; _; _; _; _; _; _; _; _; _; _; _]).
  assert (bool_decide (isReadPermission p = true ∨ p = billing_write) = bool_decide (p ∈ reads))
    as H by (destruct p; vm_compute; reflexivity).
  pose proof (bool_decide_eq_true (p ∈ reads)) as H1.
  pose proof (bool_decide_eq_true (isReadPermission p = true ∨ p = billing_write)) as H2.
  rewrite H in H2.
  naive_solver.
Qed.

(** Only owners and admins hold [members.write]. *)
Lemma members_write_roles r :
  roleHasPermission r members_write = true ↔ r = owner ∨ r = admin.
Proof. destruct r; vm_compute; naive_solver. Qed.

Lemma mayAssign_owner actor : mayAssignRole actor owner = true ↔ actor = owner.
Proof. destruct actor; vm_compute; naive_solver. Qed.

(** What an allowed change has established. *)
Lemma roleChange_Ok c :
  assertRoleChangeAllowed c = Ok tt →
  actorMembershipId c ≠ targetMembershipId c
  ∧ mayAssignRole (actorRole c) (nextRole c) = true
  ∧ mayAssignRole (actorRole c) (currentRole c) = true
  ∧ (currentRole c = owner → nextRole c ≠ owner → (1 < ownerCount c)%Z).
Proof.
  unfold assertRoleChangeAllowed, assertOwnerSurvives. intros H.
  repeat (apply bind_Ok in H as (? & ?%throw_if_Ok & H)). bprop. split_and!; try done.
  intros Hc Hn. rewrite Hc in H. rewrite bool_decide_true in H by done. cbn [negb orb] in H.
  rewrite bool_decide_false in H by congruence. apply throw_if_Ok in H. bprop. done.
Qed.

Lemma memberRemoval_Ok c :
  assertMemberRemovalAllowed c = Ok tt →
  actorMembershipId c ≠ targetMembershipId c
  ∧ mayAssignRole (actorRole c) (currentRole c) = true
  ∧ (currentRole c = owner → (1 < ownerCount c)%Z).
Proof.
  unfold assertMemberRemovalAllowed, assertOwnerSurvives. intros H.
  repeat (apply bind_Ok in H as (? & ?%throw_if_Ok & H)). bprop. split_and!; try done.
  intros Hc. rewrite Hc in H. rewrite bool_decide_true in H by done. cbn [negb orb] in H.
  rewrite bool_decide_false in H by congruence. apply throw_if_Ok in H. bprop. done.
Qed.
