(* ===== verification/RetryRules.v ===== *)
(** What a storable retry policy is: retry-policies/retry-policy-rules.ts and
    retry-policy-limits.ts.

    A JavaScript number is a rational (every finite double is one), NaN or an
    infinity.  The two floating-point operations of the delay computation,
    multiplication and [Math.pow], are parameters; what the theorem needs of
    them is stated as hypotheses. *)
From Stdlib Require Import ZArith Lia QArith Lqa.
From S2P Require Import Prelude.

(** ** Numbers *)

Inductive num : Type := Fin (q : Q) | NaN | Inf (neg : bool).

(** [x < y], false when either is NaN. *)
Definition num_ltb (x y : num) : bool :=
  match x, y with
  | NaN, _ | _, NaN => false
  | Fin a, Fin b => negb (Qle_bool b a)
  | Inf true, Inf true | Inf false, Inf false => false
  | Inf true, _ | _, Inf false => true
  | _, _ => false
  end.
Definition num_gtb (x y : num) : bool := num_ltb y x.
(** [x <= y] *)
Definition num_leb (x y : num) : bool :=
  match x, y with
  | NaN, _ | _, NaN => false
  | _, _ => negb (num_ltb y x)
  end.
Definition isFinite (x : num) : bool := if x is Fin _ then true else false.
Definition isNaN (x : num) : bool := if x is NaN then true else false.
(** [Number.isInteger] *)
Definition isInteger (x : num) : bool :=
  if x is Fin q then (Qnum q mod Zpos (Qden q) =? 0)%Z else false.
(** [Math.min] *)
Definition num_min (x y : num) : num :=
  match x, y with
  | NaN, _ | _, NaN => NaN
  | _, _ => if num_ltb y x then y else x
  end.
Definition int (z : Z) : num := Fin (inject_Z z).

(** ** Settings *)

Inductive RetryStrategy : Type := exponential | linear | constant.

Record RetrySettings : Type := {
  strategy : RetryStrategy;
  maxAttempts : num;
  initialDelayMs : num;
  maxDelayMs : num;
  multiplier : num;
  jitterRatio : num;
  maxRetryDurationMs : num
}.

(** [RETRY_POLICY_LIMITS]: minimum and maximum. *)
Record bounds : Type := { bmin : num; bmax : num }.
Definition limit_maxAttempts : bounds := {| bmin := int 1; bmax := int 50 |}.
Definition limit_initialDelayMs : bounds := {| bmin := int 1; bmax := int 86400000 |}.
Definition limit_maxDelayMs : bounds := {| bmin := int 1; bmax := int 86400000 |}.
Definition limit_multiplier : bounds := {| bmin := int 1; bmax := int 100 |}.
Definition limit_jitterRatio : bounds := {| bmin := int 0; bmax := int 1 |}.
Definition limit_maxRetryDurationMs : bounds := {| bmin := int 1000; bmax := int 604800000 |}.

Definition DEFAULT_RETRY_SETTINGS : RetrySettings := {|
  strategy := exponential;
  maxAttempts := int 8;
  initialDelayMs := int 5000;
  maxDelayMs := int 3600000;
  multiplier := int 2;
  jitterRatio := Fin (2 # 10);
  maxRetryDurationMs := int 86400000
|}.

(** ** Validation *)

(** One iteration of the first loop of [assertBounds]. *)
Definition assert_bound (value : num) (b : bounds) : result unit :=
  _ ← throw_if (negb (isFinite value)) invalid_request "must be a finite number.";
  throw_if (num_ltb value (bmin b) || num_gtb value (bmax b)) invalid_request "must be between".

(** One iteration of the second. *)
Definition assert_whole (value : num) : result unit :=
  throw_if (negb (isInteger value)) invalid_request "must be a whole number".

Definition assertBounds (s : RetrySettings) : result unit :=
  _ ← assert_bound (maxAttempts s) limit_maxAttempts;
  _ ← assert_bound (initialDelayMs s) limit_initialDelayMs;
  _ ← assert_bound (maxDelayMs s) limit_maxDelayMs;
  _ ← assert_bound (multiplier s) limit_multiplier;
  _ ← assert_bound (jitterRatio s) limit_jitterRatio;
  _ ← assert_bound (maxRetryDurationMs s) limit_maxRetryDurationMs;
  _ ← assert_whole (maxAttempts s);
  _ ← assert_whole (initialDelayMs s);
  _ ← assert_whole (maxDelayMs s);
  assert_whole (maxRetryDurationMs s).

Definition is_exponential (s : RetryStrategy) : bool := if s is exponential then true else false.

Definition assertCoherent (s : RetrySettings) : result unit :=
  _ ← throw_if (num_gtb (initialDelayMs s) (maxDelayMs s)) invalid_request
        "initial_delay_ms must not exceed max_delay_ms";
  _ ← throw_if (num_gtb (maxAttempts s) (int 1)
                && num_ltb (maxRetryDurationMs s) (initialDelayMs s)) invalid_request
        "max_retry_duration_ms is shorter than initial_delay_ms";
  throw_if (is_exponential (strategy s) && num_leb (multiplier s) (int 1)) invalid_request
    "multiplier must be greater than 1 for the exponential strategy".

Definition assertRetrySettings (s : RetrySettings) : result RetrySettings :=
  _ ← assertBounds s;
  _ ← assertCoherent s;
  Ok s.

(** ** The delay *)

Section Floats.
  (** [x * y] and [Math.pow(x, n)] on doubles. *)
  Context (fmul : num → num → num) (fpow : num → Z → num).

Definition delayMsForAttempt (s : RetrySettings) (attempt : Z) : num :=
  if (attempt <=? 1)%Z then int 0 else
  let n := (attempt - 2)%Z in
  let d :=
    match strategy s with
    | constant => initialDelayMs s
    | linear => fmul (initialDelayMs s) (int (n + 1))
    | exponential =>
        let mult := if num_leb (multiplier s) (int 1) then int 2 else multiplier s in
        fmul (initialDelayMs s) (fpow mult n)
    end in
  let d := if isNaN d || num_ltb d (int 0) then int 0 else d in
  num_min d (maxDelayMs s).

(** A value of at least [q], possibly rounded up to infinity. *)
Definition at_least (q : Q) (x : num) : Prop :=
  match x with Fin r => (q <= r)%Q | Inf false => True | _ => False end.

(** What IEEE arithmetic guarantees here: a power of a base above one is at
    least one, and multiplying a positive number by a factor of at least one
    does not make it smaller. *)
Definition pow_ge_1 : Prop :=
  ∀ m n, (1 < m)%Q → (0 <= n)%Z → at_least 1 (fpow (Fin m) n).
Definition mul_ge : Prop :=
  ∀ a x, (0 < a)%Q → at_least 1 x → at_least a (fmul (Fin a) x).
End Floats.

(** ** Proofs *)

Lemma assert_bound_Ok x b lo hi u :
  bmin b = Fin lo → bmax b = Fin hi →
  assert_bound x b = Ok u ↔ ∃ q, x = Fin q ∧ (lo <= q <= hi)%Q.
Proof.
  intros Hlo Hhi. unfold assert_bound. rewrite bind_Ok. rewrite Hlo, Hhi.
  destruct x as [q| |neg]; cbn.
  - split.
    + intros (_ & _ & H). apply throw_if_Ok in H. bprop. exists q. split; [done|].
      split; by apply Qle_bool_iff.
    + intros (q' & [= <-] & [H1 H2]). exists tt. split; [done|]. apply throw_if_Ok.
      apply Qle_bool_iff in H1, H2. by rewrite H1, H2.
  - split; [by intros (? & ? & _)|by intros (? & ? & _)].
  - split; [by intros (? & ? & _)|by intros (? & ? & _)].
Qed.

(** The declarative reading of an accepted policy. *)
Record settings_ok (s : RetrySettings) (attempts init dmax mult jitter budget : Q) : Prop := {
  so_attempts : maxAttempts s = Fin attempts ∧ (1 <= attempts <= 50)%Q;
  so_init : initialDelayMs s = Fin init ∧ (1 <= init)%Q;
  so_max : maxDelayMs s = Fin dmax ∧ (init <= dmax <= 86400000)%Q;
  so_mult : multiplier s = Fin mult ∧ (1 <= mult <= 100)%Q;
  so_jitter : jitterRatio s = Fin jitter ∧ (0 <= jitter <= 1)%Q;
  so_budget : maxRetryDurationMs s = Fin budget ∧ (1000 <= budget <= 604800000)%Q;
  so_whole : Forall (λ x, isInteger x = true)
               [maxAttempts s; initialDelayMs s; maxDelayMs s; maxRetryDurationMs s];
  so_first_retry : (1 < attempts)%Q → (init <= budget)%Q;
  so_growth : strategy s = exponential → (1 < mult)%Q
}.

Lemma negb_Qle a b : negb (Qle_bool a b) = true ↔ (b < a)%Q.
Proof.
  rewrite negb_true_iff, <- not_true_iff_false, Qle_bool_iff.
  split; [apply Qnot_le_lt|apply Qlt_not_le].
Qed.

Lemma assertBounds_Ok s u :
  assertBounds s = Ok u
  ↔ ∃ a i d m j b,
      (maxAttempts s = Fin a ∧ (1 <= a <= 50)%Q)
      ∧ (initialDelayMs s = Fin i ∧ (1 <= i <= 86400000)%Q)
      ∧ (maxDelayMs s = Fin d ∧ (1 <= d <= 86400000)%Q)
      ∧ (multiplier s = Fin m ∧ (1 <= m <= 100)%Q)
      ∧ (jitterRatio s = Fin j ∧ (0 <= j <= 1)%Q)
      ∧ (maxRetryDurationMs s = Fin b ∧ (1000 <= b <= 604800000)%Q)
      ∧ Forall (λ x, isInteger x = true)
          [maxAttempts s; initialDelayMs s; maxDelayMs s; maxRetryDurationMs s].
Proof.
  unfold assertBounds, assert_whole. split.
  - intros H. minv. bprop.
    repeat match goal with
    | H : assert_bound _ _ = Ok _ |- _ =>
        eapply assert_bound_Ok in H as (? & ? & [? ?]); [|reflexivity..]
    end.
    do 6 eexists. rewrite !Forall_cons, Forall_nil. by split_and!.
  - intros (a & i & d & m & j & b & [? ?] & [? ?] & [? ?] & [? ?] & [? ?] & [? ?]
            & Hw).
    rewrite !Forall_cons in Hw. destruct Hw as (? & ? & ? & ? & _).
    do 6 (apply bind_Ok; exists tt; split;
          [eapply assert_bound_Ok; [reflexivity..|by eauto]|]).
    do 3 (apply bind_Ok; exists tt; split; [apply throw_if_Ok; by apply negb_false_iff|]).
    destruct u. apply throw_if_Ok. by apply negb_false_iff.
Qed.

Lemma assertCoherent_Ok s u a i d m b :
  maxAttempts s = Fin a → initialDelayMs s = Fin i → maxDelayMs s = Fin d →
  multiplier s = Fin m → maxRetryDurationMs s = Fin b →
  assertCoherent s = Ok u
  ↔ (i <= d)%Q ∧ ((1 < a)%Q → (i <= b)%Q) ∧ (strategy s = exponential → (1 < m)%Q).
Proof.
  intros Ha Hi Hd Hm Hb. unfold assertCoherent. rewrite Ha, Hi, Hd, Hm, Hb.
  assert (∀ x y, num_gtb (Fin x) (Fin y) = false ↔ (x <= y)%Q) as Hg.
  { intros. unfold num_gtb, num_ltb. by rewrite negb_false_iff, Qle_bool_iff. }
  assert (∀ x y, num_leb (Fin x) (Fin y) = false ↔ (y < x)%Q) as Hl.
  { intros. unfold num_leb, num_ltb. rewrite negb_involutive, <- not_true_iff_false, Qle_bool_iff.
    split; [apply Qnot_le_lt|apply Qlt_not_le]. }
  assert (is_exponential (strategy s) = false ↔ strategy s ≠ exponential) as He
    by (destruct (strategy s); naive_solver).
  unfold int. split.
  - intros H. minv. apply Hg in H0. apply andb_false_iff in H1, H.
    rewrite Hg in H1. rewrite He, Hl in H.
    change (num_ltb (Fin b) (Fin i)) with (num_gtb (Fin i) (Fin b)) in H1. rewrite Hg in H1.
    split_and!; [done| |].
    + intros. destruct H1 as [H1|H1]; [|done]. change (inject_Z 1) with 1%Q in H1. lra.
    + intros. by destruct H.
  - intros (H1 & H2 & H3).
    apply bind_Ok. exists tt. split; [by apply throw_if_Ok, Hg|].
    apply bind_Ok. exists tt. split.
    + apply throw_if_Ok, andb_false_iff.
      change (num_ltb (Fin b) (Fin i)) with (num_gtb (Fin i) (Fin b)). rewrite !Hg.
      destruct (Qlt_le_dec 1 a); auto.
    + destruct u. apply throw_if_Ok, andb_false_iff. rewrite He, Hl.
      destruct (strategy s); auto.
Qed.

Lemma assertRetrySettings_Ok (s s' : RetrySettings) :
  assertRetrySettings s = Ok s'
  ↔ s' = s ∧ ∃ attempts init dmax mult jitter budget,
      settings_ok s attempts init dmax mult jitter budget.
Proof.
  unfold assertRetrySettings. rewrite bind_Ok. split.
  - intros (u & H & H'). apply bind_Ok in H' as (u' & H' & [= <-]). split; [done|].
    apply assertBounds_Ok in H as (a & i & d & m & j & b & [? ?] & [? ?] & [? ?] & [? ?]
      & [? ?] & [? ?] & ?).
    apply (assertCoherent_Ok _ _ a i d m b) in H' as (? & ? & ?); [|done..].
    exists a, i, d, m, j, b. split; try done; split; (done || lra).
  - intros (-> & a & i & d & m & j & b & [[? ?] [? ?] [? ?] [? ?] [? ?] [? ?] ? ? ?]).
    exists tt. split.
    + apply assertBounds_Ok. exists a, i, d, m, j, b. split_and!; (done || lra).
    + apply bind_Ok. exists tt. split; [|done].
      apply (assertCoherent_Ok _ _ a i d m b); try done. split_and!; (done || lra).
Qed.

(** Validation accepts exactly the settings in range, whole where they
    must be, whose first delay is below the ceiling and inside the budget, and
    whose exponential multiplier exceeds one; it returns them unchanged. *)
Theorem assertRetrySettings_spec (s s' : RetrySettings) :
  assertRetrySettings s = Ok s'
  ↔ s' = s ∧ ∃ attempts init dmax mult jitter budget,
      settings_ok s attempts init dmax mult jitter budget.
Proof.
  apply assertRetrySettings_Ok.
Qed.

Lemma num_min_at_least q d x :
  (q <= d)%Q → at_least q x → ∃ r, num_min x (Fin d) = Fin r ∧ (q <= r <= d)%Q.
Proof.
  intros Hq Hx. destruct x as [r| |[]]; cbn in *; try done.
  - destruct (negb (Qle_bool r d)) eqn:E.
    + apply negb_Qle in E. exists d. split; [done|lra].
    + apply negb_false_iff, Qle_bool_iff in E. exists r. split; [done|lra].
  - exists d. split; [done|lra].
Qed.

Lemma clamp_at_least q x :
  (0 <= q)%Q → at_least q x →
  (if isNaN x || num_ltb x (int 0) then int 0 else x) = x.
Proof.
  intros Hq Hx. destruct x as [r| |[]]; cbn in *; try done.
  assert (Qle_bool (inject_Z 0) r = true) as ->; [|done].
  apply Qle_bool_iff. change (inject_Z 0) with 0%Q. lra.
Qed.

(** No accepted policy can stampede: for every retry (attempt two
    onwards) the delay is a finite number of milliseconds, at least the initial
    delay, hence at least one, and at most the configured ceiling, even when
    the exponential term overflows to infinity. *)
Theorem delay_within_bounds (fmul : num → num → num) (fpow : num → Z → num)
  (s : RetrySettings) (attempt : Z)
  (Hpow : pow_ge_1 fpow) (Hmul : mul_ge fmul)
  (Hok : assertRetrySettings s = Ok s) (Hatt : (2 <= attempt)%Z) :
  ∃ d i m, delayMsForAttempt fmul fpow s attempt = Fin d
    ∧ initialDelayMs s = Fin i ∧ maxDelayMs s = Fin m ∧ (1 <= i)%Q ∧ (i <= d <= m)%Q.
Proof.
  apply assertRetrySettings_Ok in Hok as (_ & a & i & m & mult & j & b & Hs).
  destruct Hs as [_ [Hi Hi1] [Hm [Him _]] [Hmu _] _ _ _ _ Hg].
  unfold delayMsForAttempt. destruct (attempt <=? 1)%Z eqn:E; bprop; [lia|].
  set (d := match strategy s with exponential => _ | linear => _ | constant => _ end).
  assert (at_least i d) as Hd.
  { subst d. destruct (strategy s) eqn:Hst; rewrite Hi.
    - assert (1 < mult)%Q as Hlt by auto. rewrite Hmu.
      assert (num_leb (Fin mult) (int 1) = false) as ->.
      { unfold num_leb, num_ltb, int. change (inject_Z 1) with 1%Q.
        rewrite negb_involutive, <- not_true_iff_false, Qle_bool_iff. lra. }
      apply Hmul; [lra|]. apply Hpow; [done|lia].
    - apply Hmul; [lra|]. cbn. change 1%Q with (inject_Z 1). rewrite <- Zle_Qle. lia.
    - cbn. lra. }
  cbv zeta. rewrite (clamp_at_least i) by (done || lra). rewrite Hm.
  destruct (num_min_at_least i m d) as (r & -> & [? ?]); [lra|done|].
  exists r, i, m. by split_and!.
Qed.

(** Exact arithmetic meets the two hypotheses. *)
Definition exact_mul (x y : num) : num :=
  match x, y with
  | Fin a, Fin b => Fin (a * b)
  | Fin a, Inf neg => Inf neg
  | _, _ => NaN
  end.
Definition exact_pow (x : num) (n : Z) : num :=
  match x with Fin a => Fin (a ^ n) | _ => NaN end.

Lemma Qmul_ge_1 (a b : Q) : (1 <= a)%Q → (1 <= b)%Q → (1 <= a * b)%Q.
Proof. intros. nra. Qed.

Lemma exact_pow_ge_1 : pow_ge_1 exact_pow.
Proof.
  intros m n Hm Hn. unfold at_least, exact_pow. destruct n as [|p|p]; [apply Qle_refl| |lia].
  change (1 <= pow_pos Qmult m p)%Q. clear Hn. induction p as [p IH|p IH|];
    cbn [pow_pos]; repeat apply Qmul_ge_1; (done || lra).
Qed.

Lemma exact_mul_ge : mul_ge exact_mul.
Proof. intros a [x| |[]] Ha Hx; unfold at_least, exact_mul in *; try done. nra. Qed.

Lemma delay_within_bounds_witness :
  ∃ d i m, delayMsForAttempt exact_mul exact_pow DEFAULT_RETRY_SETTINGS 12 = Fin d
    ∧ initialDelayMs DEFAULT_RETRY_SETTINGS = Fin i ∧ maxDelayMs DEFAULT_RETRY_SETTINGS = Fin m
    ∧ (1 <= i)%Q ∧ (i <= d <= m)%Q.
Proof.
  apply (delay_within_bounds exact_mul exact_pow DEFAULT_RETRY_SETTINGS 12
           exact_pow_ge_1 exact_mul_ge); [vm_compute; reflexivity|lia].
Defined.
