(* ===== verification/Slugs.v ===== *)
(** Slugs: projects/slug.ts and the slug derivation of
    organizations/organizations.service.ts.

    Unicode normalisation and lower-casing need the Unicode tables; they are
    parameters, and every theorem holds for any functions in their place. *)
From Stdlib Require Import ZArith Lia.
From S2P Require Import Prelude Js.

Definition hyphen : N := 45.
(** [[a-z0-9]] *)
Definition slug_char (c : N) : bool := is_lower c || is_digit c.

(** [/^[a-z0-9]+(?:-[a-z0-9]+)*$/]: the pieces between hyphens. *)
Definition SLUG_PATTERN (s : jsstr) : bool := forallb (all_plus slug_char) (split hyphen s).
Definition SLUG_MIN_LENGTH : nat := 2.
Definition SLUG_MAX_LENGTH : nat := 64.

(** The class [[\u0300-\u036f]] of combining marks *)
Definition combining (c : N) : bool := ((768 <=? c) && (c <=? 879))%N.

(** [.replace(/[^a-z0-9]+/g, '-')]; [in_run] while inside a match. *)
Fixpoint hyphenate (in_run : bool) (s : jsstr) : jsstr :=
  match s with
  | [] => []
  | c :: s =>
      if slug_char c then c :: hyphenate false s
      else if in_run then hyphenate true s else hyphen :: hyphenate true s
  end.

(** [.replace(/^-+/, '')] *)
Fixpoint strip_leading (s : jsstr) : jsstr :=
  match s with
  | c :: s' => if (c =? hyphen)%N then strip_leading s' else s
  | [] => []
  end.
(** [.replace(/-+$/g, '')] *)
Fixpoint strip_trailing (s : jsstr) : jsstr :=
  match s with
  | [] => []
  | c :: s =>
      match strip_trailing s with
      | [] => if (c =? hyphen)%N then [] else [c]
      | t => c :: t
      end
  end.

(** The steps from the lower-cased name on. *)
Definition slug_core (max : nat) (lowered : jsstr) : jsstr :=
  strip_trailing (take max (strip_trailing (strip_leading (hyphenate false lowered)))).

Definition usable_slug (s : jsstr) : bool := (SLUG_MIN_LENGTH <=? length s) && SLUG_PATTERN s.

Section Derive.
  (** [normalize('NFKD')] and [toLowerCase] *)
  Context (normalize lower : jsstr → jsstr).

Definition slugFromName (name : jsstr) : option jsstr :=
  let slug := slug_core SLUG_MAX_LENGTH
    (lower (filter (λ c, combining c = false) (normalize name))) in
  if (length slug <? SLUG_MIN_LENGTH) || negb (SLUG_PATTERN slug) then None else Some slug.

(** The limit of organizations/dto/create-organization.dto.ts. *)
Definition ORG_SLUG_MAX_LENGTH : nat := 48.

(** [Math.random().toString(36).slice(2, 8).padEnd(6, '0')] of the string the
    first two calls return. *)
Definition suffix (random : jsstr) : jsstr :=
  let s := take 6 (drop 2 random) in s ++ replicate (6 - length s) 48%N.

Definition deriveSlug (name : jsstr) (forceSuffix : bool) (random : jsstr) : jsstr :=
  let base := slug_core ORG_SLUG_MAX_LENGTH (lower name) in
  let usable := usable_slug base in
  let stem := if usable then base else js "workspace" in
  if negb forceSuffix && usable then stem
  else
    let head := strip_trailing (take (ORG_SLUG_MAX_LENGTH - 7) stem) in
    let head := if bool_decide (head = []) then js "workspace" else head in
    head ++ hyphen :: suffix random.
End Derive.

(** ** The pattern as an automaton *)

(** [after]: the previous character is a hyphen, or there is none. *)
Fixpoint accepts (after : bool) (s : jsstr) : bool :=
  match s with
  | [] => negb after
  | c :: s => if slug_char c then accepts false s
              else (c =? hyphen)%N && negb after && accepts true s
  end.
(** The strings an accepted one can begin with. *)
Fixpoint viable (after : bool) (s : jsstr) : bool :=
  match s with
  | [] => true
  | c :: s => if slug_char c then viable false s
              else (c =? hyphen)%N && negb after && viable true s
  end.

Lemma slug_char_hyphen : slug_char hyphen = false.
Proof. done. Qed.
Lemma slug_char_ne c : slug_char c = true → (c =? hyphen)%N = false.
Proof. intros H. apply N.eqb_neq. intros ->. by rewrite slug_char_hyphen in H. Qed.

(** Case analysis on the first character. *)
Ltac char_cases c :=
  let H := fresh "Hc" in
  destruct (slug_char c) eqn:H;
  [ try rewrite (slug_char_ne c H) in *
  | destruct (N.eqb_spec c hyphen) as [->|]; cbn [andb negb] in *; try done ].

Lemma all_plus_cons f c (w : jsstr) : all_plus f (c :: w) = f c && forallb f w.
Proof. unfold all_plus. by rewrite bool_decide_false. Qed.

Lemma pattern_pieces s : ∀ w ws, split hyphen s = w :: ws →
  SLUG_PATTERN s = accepts true s ∧
  forallb slug_char w && forallb (all_plus slug_char) ws = accepts false s.
Proof.
  unfold SLUG_PATTERN.
  induction s as [|c s IH]; cbn [split accepts negb]; intros w ws E.
  - injection E as <- <-. done.
  - destruct (split hyphen s) as [|w' ws'] eqn:Es; [by destruct (split_ne hyphen s)|].
    destruct (IH _ _ eq_refl) as [IH1 IH2].
    destruct (N.eqb_spec c hyphen) as [->|Hne]; injection E as <- <-.
    + rewrite slug_char_hyphen. cbn [andb negb]. split; [done|]. by rewrite <- IH1.
    + cbn [forallb]. rewrite all_plus_cons, <- IH2.
      by destruct (slug_char c).
Qed.

Lemma SLUG_PATTERN_accepts s : SLUG_PATTERN s = accepts true s.
Proof.
  destruct (split hyphen s) as [|w ws] eqn:E; [by destruct (split_ne hyphen s)|].
  by destruct (pattern_pieces s w ws E).
Qed.

(** ** The steps *)

Lemma accepts_viable b s : accepts b s = true → viable b s = true.
Proof.
  revert b. induction s as [|c s IH]; intros b; cbn; [done|].
  char_cases c; [apply IH|]. destruct b; cbn; [done|apply IH].
Qed.

Lemma hyphenate_viable s : ∀ b, viable b (hyphenate b s) = true.
Proof.
  induction s as [|c s IH]; intros b; cbn [hyphenate]; [done|].
  destruct (slug_char c) eqn:Hc; [cbn; rewrite Hc; apply IH|].
  destruct b; [apply IH|]. cbn. apply IH.
Qed.

Lemma viable_leading s : ∀ b, viable b s = true → viable true (strip_leading s) = true.
Proof.
  induction s as [|c s IH]; intros b; cbn [viable strip_leading]; [done|].
  char_cases c; [cbn; by rewrite Hc|]. destruct b; cbn; [done|apply IH].
Qed.

Lemma viable_take n s : ∀ b, viable b s = true → viable b (take n s) = true.
Proof.
  revert s. induction n as [|n IH]; intros [|c s] b; cbn; try done.
  char_cases c; [apply IH|]. destruct b; cbn; [done|apply IH].
Qed.

Lemma strip_trailing_accepts s : ∀ b, viable b s = true →
  strip_trailing s = [] ∨ accepts b (strip_trailing s) = true.
Proof.
  induction s as [|c s IH]; intros b; cbn [viable strip_trailing]; [by left|].
  char_cases c.
  - intros [E|E]%IH; right.
    + rewrite E. cbn. by rewrite Hc.
    + destruct (strip_trailing s); cbn; [by rewrite Hc|]. cbn in E. by rewrite Hc.
  - destruct b; cbn [negb andb]; [done|].
    intros [E|E]%IH; [by left; rewrite E|].
    destruct (strip_trailing s) as [|d t]; [by left|right]. exact E.
Qed.

Lemma strip_trailing_viable b s : viable b s = true → viable b (strip_trailing s) = true.
Proof.
  intros H. destruct (strip_trailing_accepts s b H) as [->|E]; [done|by apply accepts_viable].
Qed.

Lemma strip_trailing_length s : length (strip_trailing s) <= length s.
Proof.
  induction s as [|c s IH]; cbn; [lia|].
  destruct (strip_trailing s) as [|d t]; [destruct (c =? hyphen)%N|]; cbn in *; lia.
Qed.

(** What the steps leave is empty or a slug. *)
Lemma slug_core_clean max s :
  length (slug_core max s) <= max ∧ (slug_core max s = [] ∨ SLUG_PATTERN (slug_core max s) = true).
Proof.
  unfold slug_core. split.
  - etrans; [apply strip_trailing_length|]. rewrite length_take. lia.
  - rewrite SLUG_PATTERN_accepts. apply strip_trailing_accepts, viable_take, strip_trailing_viable.
    eapply viable_leading, (hyphenate_viable s false).
Qed.

(** A slug goes through unchanged. *)
Lemma hyphenate_id s : ∀ b, viable b s = true → hyphenate b s = s.
Proof.
  induction s as [|c s IH]; intros b; cbn; [done|].
  char_cases c; [by intros ->%IH|]. destruct b; cbn; [done|by intros ->%IH].
Qed.
Lemma strip_leading_id s : viable true s = true → strip_leading s = s.
Proof. destruct s as [|c s]; cbn; [done|]. by char_cases c. Qed.
Lemma strip_trailing_id s : ∀ b, accepts b s = true → strip_trailing s = s.
Proof.
  induction s as [|c s IH]; intros b; cbn; [done|]. char_cases c.
  - intros H. rewrite (IH _ H). by destruct s.
  - destruct b; cbn; [done|]. intros H. rewrite (IH _ H). by destruct s.
Qed.

Lemma slug_core_id max s : SLUG_PATTERN s = true → length s <= max → slug_core max s = s.
Proof.
  rewrite SLUG_PATTERN_accepts. intros H Hl. pose proof (accepts_viable _ _ H) as Hv.
  unfold slug_core. rewrite hyphenate_id, (strip_leading_id s Hv), (strip_trailing_id s true H).
  - rewrite take_ge by done. by eapply strip_trailing_id.
  - destruct s as [|c s]; [done|]. cbn in *. by char_cases c.
Qed.

Lemma accepts_chars b s c : accepts b s = true → c ∈ s → slug_char c = true ∨ c = hyphen.
Proof.
  revert b. induction s as [|d s IH]; intros b; cbn [accepts]; [by intros _ ?%elem_of_nil|].
  rewrite elem_of_cons. char_cases d.
  - intros H [->|Hin]; [by left|by eapply IH].
  - intros [_ H]%andb_true_iff [->|Hin]; [by right|by eapply IH].
Qed.

Lemma accepts_run t : ∀ b, forallb slug_char t = true → (b = true → t ≠ []) → accepts b t = true.
Proof.
  induction t as [|c t IH]; intros b; cbn; [destruct b; by firstorder|].
  intros [-> H]%andb_true_iff _. by apply IH.
Qed.

Lemma accepts_join h t : ∀ b, accepts b h = true → forallb slug_char t = true → t ≠ [] →
  accepts b (h ++ hyphen :: t) = true.
Proof.
  induction h as [|c h IH]; intros b; cbn [app accepts].
  - destruct b; cbn; [done|]. intros _ Ht Hne. by apply accepts_run.
  - intros H Ht Hne. char_cases c; [by apply IH|].
    apply andb_true_iff in H as [-> H]. by apply IH.
Qed.

Lemma slug_not_combining s :
  SLUG_PATTERN s = true → filter (λ c, combining c = false) s = s.
Proof.
  rewrite SLUG_PATTERN_accepts. intros H. apply filter_every. intros c Hc.
  destruct (accepts_chars _ _ _ H Hc) as [Hs| ->]; [|done].
  unfold slug_char, is_lower, is_digit, combining in *.
  apply not_true_iff_false. rewrite andb_true_iff, !N.leb_le.
  apply orb_true_iff in Hs. rewrite !andb_true_iff, !N.leb_le in Hs. lia.
Qed.

(** A string [Math.random().toString(36)] can return: after the two characters
    of the integer part and the point, base-36 digits. *)
Definition base36 (random : jsstr) : Prop := forallb slug_char (drop 2 random) = true.

Lemma suffix_spec random : base36 random →
  length (suffix random) = 6 ∧ forallb slug_char (suffix random) = true.
Proof.
  unfold base36, suffix. intros H. split.
  - rewrite length_app, length_replicate. pose proof (length_take_le (drop 2 random) 6).
    rewrite length_take. lia.
  - rewrite forallb_app. apply andb_true_iff. split.
    + apply forallb_True. intros c Hc. apply (proj1 (forallb_True _ _) H).
      rewrite <- (take_drop 6 (drop 2 random)). apply elem_of_app. by left.
    + apply forallb_True. by intros c [-> _]%elem_of_replicate.
Qed.

(** ** Theorems *)

(** Deriving a project slug from a name, whatever Unicode normalisation and
    lower-casing return: the result is a slug of 2 to 64 characters in the wire
    format, the final test against the pattern never refuses what the earlier
    steps left (a name has no slug only if fewer than two characters survive),
    and a name that is already a slug is kept as it is. *)
Theorem slugFromName_spec (normalize lower : jsstr → jsstr) (name : jsstr) :
  let core := slug_core SLUG_MAX_LENGTH (lower (filter (λ c, combining c = false) (normalize name))) in
  slugFromName normalize lower name = (if length core <? SLUG_MIN_LENGTH then None else Some core)
  ∧ (∀ slug, slugFromName normalize lower name = Some slug →
       SLUG_PATTERN slug = true ∧ 2 <= length slug <= 64)
  ∧ (SLUG_PATTERN name = true → 2 <= length name <= 64 →
       normalize name = name → lower name = name → slugFromName normalize lower name = Some name).
Proof.
  intros core.
  destruct (slug_core_clean SLUG_MAX_LENGTH (lower (filter (λ c, combining c = false) (normalize name))))
    as [Hlen Hc]. fold core in Hlen, Hc.
  assert (slugFromName normalize lower name = (if length core <? SLUG_MIN_LENGTH then None else Some core)) as E.
  { unfold slugFromName. fold core. destruct (Nat.ltb_spec (length core) SLUG_MIN_LENGTH) as [|Hge]; [done|].
    destruct Hc as [Hc| ->]; [|done]. rewrite Hc in Hge. unfold SLUG_MIN_LENGTH in Hge. cbn in Hge. lia. }
  split_and!; [done| |].
  - rewrite E. intros slug. destruct (Nat.ltb_spec (length core) SLUG_MIN_LENGTH) as [|Hge]; [done|].
    intros [= <-]. unfold SLUG_MIN_LENGTH, SLUG_MAX_LENGTH in *. split; [|lia].
    destruct Hc as [Hc|]; [|done]. rewrite Hc in Hge. cbn in Hge. lia.
  - intros Hp Hl Hn Hlow. rewrite E. subst core.
    rewrite Hn, slug_not_combining, Hlow, slug_core_id by (done || unfold SLUG_MAX_LENGTH; lia).
    by destruct (Nat.ltb_spec (length name) SLUG_MIN_LENGTH); unfold SLUG_MIN_LENGTH in *; [lia|].
Qed.

(** The stem of a derived slug. *)
Lemma head_clean stem n :
  SLUG_PATTERN stem = true → 0 < n → accepts true (strip_trailing (take n stem)) = true.
Proof.
  rewrite SLUG_PATTERN_accepts. intros H Hn.
  destruct stem as [|c s]; [done|]. destruct n as [|n]; [lia|]. cbn [take].
  pose proof (viable_take (S n) (c :: s) true (accepts_viable _ _ H)) as Hv. cbn [take] in Hv.
  destruct (strip_trailing_accepts _ _ Hv) as [E|E]; [|exact E].
  cbn in H, E. char_cases c. by destruct (strip_trailing (take n s)).
Qed.

(** The slug an organization gets from its name always satisfies the pattern
    and the length of the module's own validation, on the first attempt and with
    a random suffix, for any name (with no usable character in it, too), and the
    fallback for an empty stem is never reached. *)
Theorem deriveSlug_valid (lower : jsstr → jsstr) (name random : jsstr) (forceSuffix : bool)
    (Hrandom : base36 random) :
  let slug := deriveSlug lower name forceSuffix random in
  let base := slug_core ORG_SLUG_MAX_LENGTH (lower name) in
  SLUG_PATTERN slug = true ∧ SLUG_MIN_LENGTH <= length slug <= ORG_SLUG_MAX_LENGTH
  ∧ (usable_slug base = true ∧ forceSuffix = false → slug = base)
  ∧ (¬ (usable_slug base = true ∧ forceSuffix = false) →
       slug = strip_trailing (take 41 (if usable_slug base then base else js "workspace"))
              ++ hyphen :: suffix random).
Proof.
  intros slug base. unfold deriveSlug in slug. fold base in slug.
  destruct (slug_core_clean ORG_SLUG_MAX_LENGTH (lower name)) as [Hlen Hc]. fold base in Hlen, Hc.
  set (stem := if usable_slug base then base else js "workspace") in *.
  assert (SLUG_PATTERN stem = true) as Hstem.
  { subst stem. destruct (usable_slug base) eqn:E; [|done]. by apply andb_true_iff in E as [_ ?]. }
  pose proof (head_clean stem 41 Hstem ltac:(lia)) as Hh.
  destruct (negb forceSuffix && usable_slug base) eqn:Ef.
  { apply andb_true_iff in Ef as [Hf Hu]. apply negb_true_iff in Hf.
    subst slug stem. rewrite Hu in *. split_and!; [done| |done|done|by intros []].
    unfold usable_slug in Hu. bprop. lia. }
  assert (slug = strip_trailing (take 41 stem) ++ hyphen :: suffix random) as Es.
  { subst slug. cbn [Nat.sub ORG_SLUG_MAX_LENGTH]. rewrite bool_decide_false; [done|].
    intros E. by rewrite E in Hh. }
  clearbody slug. destruct (suffix_spec random Hrandom) as [Hs1 Hs2].
  split_and!.
  - rewrite Es, SLUG_PATTERN_accepts. apply accepts_join; [done..|]. by destruct (suffix random).
  - rewrite Es, length_app. cbn. rewrite Hs1. unfold SLUG_MIN_LENGTH. lia.
  - rewrite Es, length_app. cbn. rewrite Hs1. pose proof (strip_trailing_length (take 41 stem)).
    rewrite length_take in *. unfold ORG_SLUG_MAX_LENGTH. lia.
  - intros [Hu Hf]. by rewrite Hu, Hf in Ef.
  - done.
Qed.

(** ** Witnesses *)

Lemma slugFromName_example :
  slugFromName id toLowerCase (js " Acme & Sons -- Payments! ") = Some (js "acme-sons-payments").
Proof. reflexivity. Qed.

Lemma deriveSlug_valid_witness :
  SLUG_PATTERN (deriveSlug toLowerCase (js "!!!") false (js "0.4fzyo82mvyr")) = true
  ∧ deriveSlug toLowerCase (js "!!!") false (js "0.4fzyo82mvyr") = js "workspace-4fzyo8".
Proof.
  split; [|reflexivity].
  apply (deriveSlug_valid toLowerCase (js "!!!") (js "0.4fzyo82mvyr") false). reflexivity.
Defined.
