(* ===== verification/AllowedIps.v ===== *)
(** The publish allowlist of a project: projects/allowed-ips.ts. *)
From Stdlib Require Import ZArith Lia.
From S2P Require Import Prelude Js.

Definition MAX_ALLOWED_IPS : nat := 50.
Definition dot : N := 46.
Definition colon : N := 58.
Definition slash : N := 47.

(** [Number] of a string of decimal digits *)
Definition decimal (s : jsstr) : N := fold_left (λ n c, 10 * n + (c - 48))%N s 0%N.

(** [/^\d{1,3}$/] *)
Definition digits3 (s : jsstr) : bool := all_plus is_digit s && (length s <=? 3).

(** The regular expression of [IPV4]: its four groups. *)
Definition IPV4 (address : jsstr) : option (jsstr * jsstr * jsstr * jsstr) :=
  match split dot address with
  | [a; b; c; d] => if digits3 a && digits3 b && digits3 c && digits3 d then Some (a, b, c, d) else None
  | _ => None
  end.

(** [address.split('::').length - 1]: occurrences from the left. *)
Fixpoint double_colons (s : jsstr) : nat :=
  match s with
  | c :: (d :: s') as t =>
      if ((c =? colon) && (d =? colon))%N then S (double_colons s') else double_colons t
  | _ => 0
  end.

Definition v6_char (c : N) : bool := is_hex c || (c =? colon)%N || (c =? dot)%N.

Inductive version : Type := V4 | V6.
Definition addressVersion (address : jsstr) : option version :=
  match IPV4 address with
  | Some (a, b, c, d) =>
      if forallb (λ octet, (length octet <=? 3) && (decimal octet <=? 255)%N) [a; b; c; d]
      then Some V4 else None
  | None =>
      if negb (includes address colon) then None
      else if negb (all_plus v6_char address) then None
      else if 2 <? S (double_colons address) then None
      else Some V6
  end.

(** Cut at the last slash. *)
Fixpoint splitCidr (entry : jsstr) : jsstr * option jsstr :=
  match entry with
  | [] => ([], None)
  | c :: s =>
      match splitCidr s with
      | (a, Some p) => (c :: a, Some p)
      | (a, None) => if (c =? slash)%N then ([], Some s) else (c :: s, None)
      end
  end.

Definition max_prefix (v : version) : N := match v with V4 => 32 | V6 => 128 end.

Definition assertValid (entry : jsstr) : result unit :=
  let '(address, prefix) := splitCidr entry in
  match addressVersion address with
  | None => throw invalid_request "is not an IP address or CIDR block."
  | Some v =>
      match prefix with
      | None => Ok tt
      | Some p =>
          throw_if (negb (digits3 p) || (max_prefix v <? decimal p)%N) invalid_request
            "has a prefix length outside the range of its family."
      end
  end.

(** The loop; [out] also stands for the set [seen], which has the same elements. *)
Fixpoint normalise_loop (entries : list jsstr) (out : list jsstr) : result (list jsstr) :=
  match entries with
  | [] => Ok out
  | raw :: entries =>
      let entry := trim raw in
      if bool_decide (entry = []) then normalise_loop entries out
      else
        _ ← assertValid entry;
        if bool_decide (entry ∈ out) then normalise_loop entries out
        else normalise_loop entries (out ++ [entry])
  end.

Definition normaliseAllowedIps (entries : list jsstr) : result (list jsstr) :=
  out ← normalise_loop entries [];
  _ ← throw_if (MAX_ALLOWED_IPS <? length out) invalid_request
        "allowed_ips may hold at most 50 entries";
  Ok out.

(** ** What an entry is *)

(** One to three digits. *)
Definition number_upto (max : N) (s : jsstr) : Prop :=
  s ≠ [] ∧ length s ≤ 3 ∧ Forall (λ c, is_digit c = true) s ∧ (decimal s <= max)%N.

Definition ipv4 (address : jsstr) : Prop :=
  ∃ a b c d, address = a ++ dot :: b ++ dot :: c ++ dot :: d
    ∧ Forall (number_upto 255) [a; b; c; d].

(** The shape the code leaves to the data plane to parse. *)
Definition ipv6_like (address : jsstr) : Prop :=
  colon ∈ address ∧ Forall (λ c, v6_char c = true) address ∧ double_colons address ≤ 1.

Definition block (p : jsstr → Prop) (max : N) (entry : jsstr) : Prop :=
  p entry ∨ ∃ address prefix, entry = address ++ slash :: prefix ∧ p address ∧ number_upto max prefix.

Definition valid_entry (entry : jsstr) : Prop := block ipv4 32 entry ∨ block ipv6_like 128 entry.

(** The given entries, trimmed, without the empty ones. *)
Definition wanted (entries : list jsstr) : list jsstr := filter (λ e, e ≠ []) (map trim entries).

Lemma digits3_spec s : digits3 s = true ↔ s ≠ [] ∧ length s ≤ 3 ∧ Forall (λ c, is_digit c = true) s.
Proof.
  unfold digits3. rewrite andb_true_iff, Nat.leb_le, all_plus_spec, Forall_forall. naive_solver.
Qed.

Lemma digit_not c x : is_digit c = true → (x < 48 ∨ 57 < x)%N → c ≠ x.
Proof. unfold is_digit. rewrite andb_true_iff, !N.leb_le. intros ? ? ->. lia. Qed.

Lemma no_sep s x : Forall (λ c, is_digit c = true) s → (x < 48 ∨ 57 < x)%N → x ∉ s.
Proof. rewrite Forall_forall. intros H Hx Hin. by eapply digit_not; [apply H|..]. Qed.

Lemma IPV4_spec s a b c d :
  IPV4 s = Some (a, b, c, d) ↔
  s = a ++ dot :: b ++ dot :: c ++ dot :: d ∧ Forall (λ w, digits3 w = true) [a; b; c; d].
Proof.
  unfold IPV4. split.
  - pose proof (join_split dot s) as Hj. destruct (split dot s) as [|a' [|b' [|c' [|d' []]]]]; try done.
    destruct (digits3 a' && digits3 b' && digits3 c' && digits3 d') eqn:E; [|done].
    intros [= -> -> -> ->]. bprop. split; [by rewrite <- Hj|by repeat constructor].
  - rewrite !Forall_cons. intros [-> (Ha & Hb & Hc & Hd & _)].
    assert (∀ w, digits3 w = true → split dot w = [w]) as Hw.
    { intros w (_ & _ & H)%digits3_spec. apply split_no, no_sep; [done|unfold dot; lia]. }
    rewrite !split_app, !Hw by done. cbn [app]. by rewrite Ha, Hb, Hc, Hd.
Qed.

Lemma number_digits3 max s : number_upto max s ↔ digits3 s = true ∧ (decimal s <= max)%N.
Proof. unfold number_upto. rewrite digits3_spec. naive_solver. Qed.

Lemma ipv4_groups address :
  ipv4 address ↔ ∃ a b c d, IPV4 address = Some (a, b, c, d)
    ∧ Forall (λ w, (decimal w <= 255)%N) [a; b; c; d].
Proof.
  unfold ipv4. split; intros (a & b & c & d & H); exists a, b, c, d; rewrite IPV4_spec in *;
    rewrite ?Forall_cons, ?number_digits3 in *; naive_solver.
Qed.

Lemma addressVersion_v4 address : addressVersion address = Some V4 ↔ ipv4 address.
Proof.
  rewrite ipv4_groups. unfold addressVersion.
  destruct (IPV4 address) as [[[[a b] c] d]|] eqn:E.
  - apply IPV4_spec in E as [_ Hd]. set (ok := forallb _ _).
    assert (ok = true ↔ Forall (λ w, (decimal w <= 255)%N) [a; b; c; d]) as Hok.
    { subst ok. rewrite Forall_forall in Hd. rewrite forallb_True, Forall_forall.
      split; intros H w Hw; specialize (H w Hw); [bprop; lia|].
      apply andb_true_iff. split; [|by apply N.leb_le].
      apply Nat.leb_le. by apply Hd, digits3_spec in Hw as (_ & ? & _). }
    destruct ok; split; try done; [intros _; exists a, b, c, d; naive_solver|].
    intros (? & ? & ? & ? & [= <- <- <- <-] & H). by apply Hok in H.
  - split; [|by intros (? & ? & ? & ? & ? & _)]. bool_cases; done.
Qed.

Lemma v4_no_colon address a b c d : IPV4 address = Some (a, b, c, d) → colon ∉ address.
Proof.
  intros [-> Hd]%IPV4_spec. rewrite !Forall_cons, !digits3_spec in Hd.
  destruct Hd as ((_ & _ & H1) & (_ & _ & H2) & (_ & _ & H3) & (_ & _ & H4) & _).
  rewrite !elem_of_app, !elem_of_cons, !elem_of_app, !elem_of_cons, elem_of_app, elem_of_cons.
  assert (∀ w, Forall (λ c, is_digit c = true) w → colon ∉ w) as Hn
    by (intros w Hw; apply no_sep; [done|unfold colon; lia]).
  unfold colon, dot in *. naive_solver.
Qed.

Lemma addressVersion_v6 address : addressVersion address = Some V6 ↔ ipv6_like address.
Proof.
  unfold addressVersion, ipv6_like. rewrite Forall_forall.
  destruct (IPV4 address) as [[[[a b] c] d]|] eqn:E.
  { apply v4_no_colon in E. destruct (forallb _ _); naive_solver. }
  destruct (includes address colon) eqn:Ei; cbn [negb];
    [apply includes_spec in Ei|apply includes_false in Ei; naive_solver].
  destruct (all_plus v6_char address) eqn:Ea; cbn [negb].
  - apply all_plus_spec in Ea as [_ Ha].
    destruct (Nat.ltb_spec 2 (S (double_colons address))); split; intros; try done; [lia|].
    split_and!; [done|done|lia].
  - split; [done|]. intros (_ & H & _). apply not_true_iff_false in Ea. destruct Ea.
    apply all_plus_spec. split; [by intros ->; apply elem_of_nil in Ei|done].
Qed.

(** No address holds a slash, so the last slash is the only one. *)
Lemma no_slash address : ipv4 address ∨ ipv6_like address → slash ∉ address.
Proof.
  intros [(a & b & c & d & -> & H)|(_ & H & _)].
  - rewrite !elem_of_app, !elem_of_cons, !elem_of_app, !elem_of_cons, elem_of_app, elem_of_cons.
    assert (∀ w, number_upto 255 w → slash ∉ w) as Hn
      by (intros w (_ & _ & Hw & _); apply no_sep; [done|unfold slash; lia]).
    rewrite !Forall_cons in H. unfold slash, dot in *. naive_solver.
  - rewrite Forall_forall in H. intros Hs. by apply H in Hs.
Qed.

Lemma splitCidr_spec entry a o :
  splitCidr entry = (a, o) →
  match o with
  | None => a = entry ∧ slash ∉ entry
  | Some p => entry = a ++ slash :: p ∧ slash ∉ p
  end.
Proof.
  revert a o. induction entry as [|c s IH]; cbn; intros a o.
  { intros [= <- <-]. split; [done|apply not_elem_of_nil]. }
  destruct (splitCidr s) as [a' o'] eqn:E. specialize (IH _ _ eq_refl). destruct o' as [p|].
  - intros [= <- <-]. destruct IH as [-> Hp]. done.
  - destruct IH as [-> Hs]. destruct (N.eqb_spec c slash) as [->|Hne]; intros [= <- <-]; [done|].
    split; [done|]. rewrite elem_of_cons. naive_solver.
Qed.

Lemma splitCidr_no entry : slash ∉ entry → splitCidr entry = (entry, None).
Proof.
  intros H. destruct (splitCidr entry) as [a [p|]] eqn:E; apply splitCidr_spec in E as [E ?].
  - destruct H. rewrite E, elem_of_app, elem_of_cons. naive_solver.
  - by rewrite E.
Qed.

Lemma splitCidr_app a p : slash ∉ p → splitCidr (a ++ slash :: p) = (a, Some p).
Proof.
  intros Hp. induction a as [|c a IH]; cbn [app splitCidr]; [by rewrite splitCidr_no|by rewrite IH].
Qed.

Lemma block_split (P : jsstr → Prop) v entry :
  (∀ a, P a → slash ∉ a) →
  block P (max_prefix v) entry ↔
  P (splitCidr entry).1 ∧ ∀ p, (splitCidr entry).2 = Some p → number_upto (max_prefix v) p.
Proof.
  intros Hno. unfold block. split.
  - intros [H|(a & p & -> & Ha & Hp)].
    + rewrite splitCidr_no by auto. cbn. split; [done|by intros].
    + rewrite splitCidr_app; [naive_solver|]. destruct Hp as (_ & _ & Hd & _).
      apply no_sep; [done|unfold slash; lia].
  - destruct (splitCidr entry) as [a o] eqn:E. apply splitCidr_spec in E. cbn. intros [Ha Hp].
    destruct o as [p|]; destruct E as [-> ?]; [right|by left]. exists a, p. auto.
Qed.

(** The code's check decides the grammar. *)
Lemma assertValid_spec entry : assertValid entry = Ok tt ↔ valid_entry entry.
Proof.
  unfold valid_entry.
  rewrite (block_split ipv4 V4), (block_split ipv6_like V6) by (intros; apply no_slash; auto).
  unfold assertValid. destruct (splitCidr entry) as [a o]. cbn [fst snd].
  rewrite <- addressVersion_v4, <- addressVersion_v6.
  destruct (addressVersion a) as [v|]; [|naive_solver].
  destruct o as [p|]; [|destruct v; naive_solver].
  rewrite throw_if_Ok, orb_false_iff, negb_false_iff, N.ltb_ge, <- number_digits3.
  destruct v; cbn [max_prefix]; split.
  - intros H. left. split; [done|by intros ? [= <-]].
  - intros [[_ H]|[? _]]; [by apply H|done].
  - intros H. right. split; [done|by intros ? [= <-]].
  - intros [[? _]|[_ H]]; [done|by apply H].
Qed.

Lemma assertValid_Throw entry e : assertValid entry = Throw e → err_code e = invalid_request.
Proof.
  unfold assertValid, throw_if, throw. destruct (splitCidr entry) as [a o].
  destruct (addressVersion a), o; bool_cases; naive_solver.
Qed.

(** ** The list *)

(** The first occurrence of each element. *)
Fixpoint distinct (seen l : list jsstr) : list jsstr :=
  match l with
  | [] => []
  | x :: l => if bool_decide (x ∈ seen) then distinct seen l else x :: distinct (seen ++ [x]) l
  end.

Lemma distinct_spec l : ∀ seen,
  NoDup (distinct seen l) ∧ (∀ x, x ∈ distinct seen l ↔ x ∈ l ∧ x ∉ seen).
Proof.
  induction l as [|y l IH]; intros seen; cbn [distinct].
  { split; [constructor|]. intros x. by rewrite elem_of_nil; naive_solver. }
  case_bool_decide as Hy; [|destruct (IH (seen ++ [y])) as [Hn Hm]; split].
  - destruct (IH seen) as [Hn Hm]. split; [done|]. intros x. rewrite Hm, elem_of_cons. naive_solver.
  - constructor; [|done]. rewrite Hm, elem_of_app, list_elem_of_singleton. naive_solver.
  - intros x. rewrite elem_of_cons, Hm, elem_of_app, list_elem_of_singleton, elem_of_cons.
    destruct (decide (x = y)); naive_solver.
Qed.

Lemma distinct_id l : ∀ seen, NoDup l → (∀ x, x ∈ l → x ∉ seen) → distinct seen l = l.
Proof.
  induction l as [|y l IH]; intros seen Hn Hd; [done|]. apply NoDup_cons in Hn as [Hy Hn].
  cbn. rewrite bool_decide_false by (apply Hd, elem_of_cons; by left).
  rewrite IH; [done|done|]. intros x Hx. rewrite elem_of_app, list_elem_of_singleton.
  intros [Hs| ->]; [|done]. eapply Hd; [|exact Hs]. apply elem_of_cons. by right.
Qed.

Lemma normalise_loop_spec entries : ∀ out,
  match normalise_loop entries out with
  | Ok res => Forall valid_entry (wanted entries) ∧ res = out ++ distinct out (wanted entries)
  | Throw e => ¬ Forall valid_entry (wanted entries) ∧ err_code e = invalid_request
  end.
Proof.
  induction entries as [|raw entries IH]; intros out; cbn [normalise_loop].
  { split; [constructor|]. cbn. by rewrite app_nil_r. }
  unfold wanted. cbn [map]. rewrite filter_cons. fold (wanted entries).
  case_bool_decide as Ht.
  { rewrite decide_False by naive_solver. apply IH. }
  rewrite decide_True by done. pose proof (assertValid_spec (trim raw)) as Hs.
  pose proof (Forall_cons valid_entry (trim raw) (wanted entries)) as Hc.
  destruct (assertValid (trim raw)) as [[]|e] eqn:Ev; cbn [mbind result_bind].
  - cbn [distinct]. case_bool_decide as Hin;
      [specialize (IH out)|specialize (IH (out ++ [trim raw]))];
      destruct (normalise_loop _ _); [naive_solver..| |naive_solver].
    destruct IH as [? ->]. split; [naive_solver|]. by rewrite <- app_assoc.
  - apply assertValid_Throw in Ev. naive_solver.
Qed.

Lemma trimStart_facts s :
  (∃ p, s = p ++ trimStart s) ∧ ∀ c, head (trimStart s) = Some c → is_ws c = false.
Proof.
  induction s as [|c s [[p IH] IHh]]; cbn [trimStart]; [split; [by exists []|done]|].
  destruct (is_ws c) eqn:E.
  - split; [exists (c :: p); cbn; by rewrite <- IH|done].
  - split; [by exists []|]. by intros ? [= <-].
Qed.

Lemma trim_trim s : trim (trim s) = trim s.
Proof.
  destruct (trimStart_facts s) as [_ H1].
  destruct (trimStart_facts (reverse (trimStart s))) as [[p Hp] H2].
  assert (trimStart (trim s) = trim s) as E.
  { apply trimStart_id. unfold trim. intros c Hc. apply H1. apply (f_equal reverse) in Hp.
    rewrite reverse_involutive, reverse_app in Hp. rewrite Hp.
    by destruct (reverse (trimStart (reverse (trimStart s)))). }
  unfold trim at 1. rewrite E. unfold trim. rewrite reverse_involutive.
  by rewrite (trimStart_id (trimStart (reverse _))).
Qed.

Lemma wanted_id l : (∀ e, e ∈ l → e ≠ [] ∧ trim e = e) → wanted l = l.
Proof.
  intros H. unfold wanted. replace (map trim l) with l.
  - apply filter_every. intros e He. by apply H.
  - induction l as [|e l IH]; [done|]. cbn. f_equal; [symmetry; apply H; by left|].
    apply IH. intros e' He'. apply H. by right.
Qed.

Lemma elem_of_wanted e l : e ∈ wanted l → e ≠ [] ∧ trim e = e.
Proof.
  unfold wanted. intros [Hne Hin]%list_elem_of_filter. split; [done|].
  apply list_elem_of_fmap in Hin as (x & -> & _). apply trim_trim.
Qed.

(** A publish allowlist is accepted exactly when every entry, trimmed, is an
    address or a block of the documented form (four decimal octets, or the
    characters of an IPv6 address with at most one double colon, with a prefix
    length within the family's range) and at most fifty are distinct; what is
    stored has the distinct entries in the order given and nothing else, no bad
    entry is dropped silently, and storing it again changes nothing.  Every
    refusal is [invalid_request]. *)
Theorem normaliseAllowedIps_spec (entries : list jsstr) :
  let d := distinct [] (wanted entries) in
  (∀ out, normaliseAllowedIps entries = Ok out ↔
     Forall valid_entry (wanted entries) ∧ length d ≤ 50 ∧ out = d)
  ∧ (∀ e, normaliseAllowedIps entries = Throw e → err_code e = invalid_request)
  ∧ NoDup d ∧ (∀ x, x ∈ d ↔ x ∈ wanted entries)
  ∧ (∀ out, normaliseAllowedIps entries = Ok out → normaliseAllowedIps out = Ok out).
Proof.
  intros d. destruct (distinct_spec (wanted entries) []) as [Hn Hm]. fold d in Hn, Hm.
  assert (∀ x, x ∈ d ↔ x ∈ wanted entries) as Hd.
  { intros x. rewrite Hm. pose proof (not_elem_of_nil x). naive_solver. }
  assert (∀ l out, normaliseAllowedIps l = Ok out ↔
     Forall valid_entry (wanted l) ∧ length (distinct [] (wanted l)) ≤ 50 ∧ out = distinct [] (wanted l))
    as Hok.
  { intros l out. unfold normaliseAllowedIps. pose proof (normalise_loop_spec l []) as Hl.
    destruct (normalise_loop l []) as [res|e]; cbn [mbind result_bind]; [|naive_solver].
    destruct Hl as [Hv ->]. cbn [app]. unfold throw_if, MAX_ALLOWED_IPS.
    destruct (Nat.ltb_spec 50 (length (distinct [] (wanted l)))); cbn; split; try naive_solver lia. }
  split_and!; [apply Hok| |done|done|].
  - intros e. unfold normaliseAllowedIps. pose proof (normalise_loop_spec entries []) as Hl.
    destruct (normalise_loop entries []) as [res|e']; cbn [mbind result_bind]; [|naive_solver].
    unfold throw_if, throw. bool_cases; cbn; naive_solver.
  - intros out (Hv & Hl & ->)%Hok. fold d in Hl |- *. apply Hok.
    rewrite (wanted_id d) by (intros e He%Hd; by eapply elem_of_wanted).
    rewrite distinct_id; [|done|intros; apply not_elem_of_nil].
    split_and!; [|done|done]. rewrite Forall_forall in *. intros x Hx%Hd. auto.
Qed.

(** ** Examples *)

Lemma normalise_example :
  normaliseAllowedIps [js " 203.0.113.4 "; js ""; js "2001:db8::/32"; js "203.0.113.4"]
  = Ok [js "203.0.113.4"; js "2001:db8::/32"].
Proof. reflexivity. Qed.
Lemma normalise_refuses :
  is_ok (normaliseAllowedIps [js "203.0.113.4"; js "10.0.0.0/33"]) = false
  ∧ is_ok (normaliseAllowedIps [js "256.0.0.1"]) = false
  ∧ is_ok (normaliseAllowedIps [js "::1::"]) = false.
Proof. repeat split. Qed.
