(* ===== verification/Limits.v ===== *)
(** Configured ceilings: projects/project-limits.ts, api-keys/api-key-limits.ts
    and webhook-subscriptions/subscription-limits.ts, which read a number out of
    the environment and clamp it the same way. *)
From Stdlib Require Import ZArith Lia QArith Qround.
From S2P Require Import Prelude Js RetryRules.

Record Ceiling : Type := MkCeiling { ce_default : Z; ce_min : Z; ce_max : Z }.

Definition PROJECTS_PER_ORGANIZATION : Ceiling := MkCeiling 100 1 10000.
Definition API_KEYS_PER_PROJECT : Ceiling := MkCeiling 50 1 1000.
Definition SUBSCRIPTIONS_PER_PROJECT : Ceiling := MkCeiling 500 1 10000.

(** A configuration value: a number or a string of the environment; null and
    undefined are [None]. *)
Inductive raw_value : Type := RawNum (x : num) | RawStr (s : jsstr).

Section Limits.
  (** [Number] on a string. *)
  Context (Number : jsstr → num).

Definition clamp (raw : option raw_value) (bounds : Ceiling) : Z :=
  match raw with
  | None | Some (RawStr []) => ce_default bounds
  | Some raw =>
      match (match raw with RawNum x => x | RawStr s => Number s end) with
      | Fin q =>
          let floored := Qfloor q in
          if ((floored <? ce_min bounds) || (ce_max bounds <? floored))%Z
          then Z.min (Z.max floored (ce_min bounds)) (ce_max bounds)
          else floored
      | _ => ce_default bounds
      end
  end.

Definition maxProjectsPerOrganization (raw : option raw_value) : Z := clamp raw PROJECTS_PER_ORGANIZATION.
Definition maxApiKeysPerProject (raw : option raw_value) : Z := clamp raw API_KEYS_PER_PROJECT.
Definition maxSubscriptionsPerProject (raw : option raw_value) : Z := clamp raw SUBSCRIPTIONS_PER_PROJECT.

(** A ceiling whose default lies in its range is always in its range. *)
Lemma clamp_range raw b :
  (ce_min b <= ce_default b <= ce_max b)%Z → (ce_min b <= clamp raw b <= ce_max b)%Z.
Proof.
  intros Hd. unfold clamp. destruct raw as [[x|[|a s]]|]; [destruct x| |destruct (Number (a :: s))|]; try lia;
    destruct (_ || _)%bool eqn:E; bprop; lia.
Qed.
End Limits.
