(* ===== verification/AuditTrail.v ===== *)
(** What reaches the audit log: the credential-key rule and the recursive
    redaction of authz/audit.service.ts.

    Metadata is the tree of values the modules hand over; a [Date] and a binary
    view are leaves of their own because the redaction treats them apart. *)
From Stdlib Require Import ZArith Lia.
From S2P Require Import Prelude Js RetryRules.

(** ** The words of a key *)

Definition is_alnum (c : N) : bool := is_digit c || is_upper c || is_lower c.

(** [.replace(/([a-z0-9])([A-Z])/g, '$1 $2')] *)
Fixpoint break_camel (s : jsstr) : jsstr :=
  match s with
  | a :: ((b :: _) as s') =>
      if (is_lower a || is_digit a) && is_upper b then a :: 32%N :: break_camel s'
      else a :: break_camel s'
  | _ => s
  end.

(** [.replace(/([A-Z]+)([A-Z][a-z])/g, '$1 $2')] *)
Fixpoint break_acronym (s : jsstr) : jsstr :=
  match s with
  | a :: ((b :: c :: _) as s') =>
      if is_upper a && is_upper b && is_lower c then a :: 32%N :: break_acronym s'
      else a :: break_acronym s'
  | _ => s
  end.

(** [.split(/[^A-Za-z0-9]+/).filter((word) => word.length > 0)]: the maximal
    alphanumeric runs; [w] is the run being read, in reverse. *)
Definition push_word (w : jsstr) (l : list jsstr) : list jsstr :=
  if bool_decide (w = []) then l else reverse w :: l.
Fixpoint runs (w s : jsstr) : list jsstr :=
  match s with
  | [] => push_word w []
  | c :: s => if is_alnum c then runs (c :: w) s else push_word w (runs [] s)
  end.

Definition keyWords (key : jsstr) : list jsstr :=
  map toLowerCase (runs [] (break_acronym (break_camel key))).

(** ** The rule *)

Definition CREDENTIAL_WORDS : list jsstr := map js
  ["secret"; "secrets"; "password"; "passwords"; "passwd"; "passphrase"; "pwd"; "token";
   "tokens"; "credential"; "credentials"; "authorization"; "authorisation"; "signature";
   "signatures"; "apikey"; "apikeys"; "bearer"; "otp"]%string.
Definition NON_SECRET_TERMINAL : list jsstr :=
  map js ["at"; "id"; "ids"; "count"; "version"; "prefix"]%string.
Definition TRANSPARENT_SUFFIX : list jsstr :=
  map js ["hash"; "hashes"; "digest"; "value"; "values"; "plaintext"; "raw"]%string.
Definition KEY_QUALIFIERS : list jsstr := map js
  ["api"; "private"; "public"; "secret"; "signing"; "access"; "encryption"; "session";
   "client"; "master"; "shared"; "webhook"]%string.

Definition set_has (set : list jsstr) (w : jsstr) : bool := existsb (seqb w) set.

(** [while (words.length > 1 && TRANSPARENT_SUFFIX.has(last)) words.pop();] on
    the words in reverse. *)
Fixpoint strip_transparent (rev_words : list jsstr) : list jsstr :=
  match rev_words with
  | w :: ((_ :: _) as rest) =>
      if set_has TRANSPARENT_SUFFIX w then strip_transparent rest else rev_words
  | _ => rev_words
  end.

Definition is_key_word (w : jsstr) : bool := seqb w (js "key") || seqb w (js "keys").

(** [words.some((word, index) => qualifier(word) && key(words[index + 1]))] *)
Fixpoint qualified_key (words : list jsstr) : bool :=
  match words with
  | a :: ((b :: _) as rest) => (set_has KEY_QUALIFIERS a && is_key_word b) || qualified_key rest
  | _ => false
  end.

(** The decision on the words of a key. *)
Definition credential_words (words : list jsstr) : bool :=
  match strip_transparent (reverse words) with
  | [] => false
  | last :: rev_rest =>
      let words := reverse (last :: rev_rest) in
      if set_has NON_SECRET_TERMINAL last then false
      else if existsb (set_has CREDENTIAL_WORDS) words then true
      else if is_key_word last then true
      else qualified_key words
  end.

Definition isCredentialKey (key : jsstr) : bool := credential_words (keyWords key).

(** ** Redaction *)

Inductive meta : Type :=
| MNull
| MBool (b : bool)
| MNum (x : num)
| MStr (s : jsstr)
| MDate (ms : Z)
| MBinary
| MArr (l : list meta)
| MObj (l : list (jsstr * meta)).

Definition REDACTED : jsstr := js "[redacted]".
Definition TRUNCATED : jsstr := js "[truncated]".
Definition MAX_METADATA_DEPTH : nat := 6.

Fixpoint redactValue (value : meta) (depth : nat) : meta :=
  match value with
  | MNull | MBool _ | MNum _ | MStr _ => value
  | MDate ms => MStr (toISOString ms)
  | MBinary => MStr (js "[binary]")
  | MArr l =>
      if MAX_METADATA_DEPTH <=? depth then MStr TRUNCATED
      else MArr (map (λ item, redactValue item (S depth)) l)
  | MObj l =>
      if MAX_METADATA_DEPTH <=? depth then MStr TRUNCATED
      else MObj (map (λ kv, (kv.1, if isCredentialKey kv.1 then MStr REDACTED
                                   else redactValue kv.2 (S depth))) l)
  end.

Definition redactObject (value : list (jsstr * meta)) (depth : nat) : list (jsstr * meta) :=
  map (λ kv, (kv.1, if isCredentialKey kv.1 then MStr REDACTED
                    else redactValue kv.2 (S depth))) value.

(** [None] is SQL NULL. *)
Definition sanitise (metadata : option (list (jsstr * meta))) : option (list (jsstr * meta)) :=
  m ← metadata; Some (redactObject m 0).

(** ** Induction on metadata *)

Section meta_ind.
  Context (P : meta → Prop).
  Context (Hleaf : ∀ v, (∀ l, v ≠ MArr l) → (∀ l, v ≠ MObj l) → P v).
  Context (Harr : ∀ l, Forall P l → P (MArr l)).
  Context (Hobj : ∀ l, Forall (λ kv, P kv.2) l → P (MObj l)).

Fixpoint meta_ind' (v : meta) : P v :=
  match v with
  | MArr l =>
      Harr l ((fix go l : Forall P l :=
                 match l with
                 | [] => Forall_nil_2 _
                 | x :: l => Forall_cons_2 _ _ _ (meta_ind' x) (go l)
                 end) l)
  | MObj l =>
      Hobj l ((fix go l : Forall (λ kv, P kv.2) l :=
                 match l with
                 | [] => Forall_nil_2 _
                 | x :: l => Forall_cons_2 _ _ _ (meta_ind' x.2) (go l)
                 end) l)
  | MNull => Hleaf MNull (λ l, ltac:(done)) (λ l, ltac:(done))
  | MBool b => Hleaf (MBool b) (λ l, ltac:(done)) (λ l, ltac:(done))
  | MNum x => Hleaf (MNum x) (λ l, ltac:(done)) (λ l, ltac:(done))
  | MStr s => Hleaf (MStr s) (λ l, ltac:(done)) (λ l, ltac:(done))
  | MDate z => Hleaf (MDate z) (λ l, ltac:(done)) (λ l, ltac:(done))
  | MBinary => Hleaf MBinary (λ l, ltac:(done)) (λ l, ltac:(done))
  end.
End meta_ind.

(** ** What a redacted tree looks like *)

(** [safe n v]: [v] is plain JSON with containers nested at most [n] deep, and
    every value under a credential key, at every depth, is the redaction mark. *)
Fixpoint safe (n : nat) (v : meta) {struct v} : Prop :=
  match v with
  | MNull | MBool _ | MNum _ | MStr _ => True
  | MDate _ | MBinary => False
  | MArr l => match n with O => False | S n => foldr (λ x p, safe n x ∧ p) True l end
  | MObj l =>
      match n with
      | O => False
      | S n => foldr (λ kv p, ((if isCredentialKey kv.1 then kv.2 = MStr REDACTED
                                else safe n kv.2)) ∧ p) True l
      end
  end.

Lemma foldr_and_Forall {A} (P : A → Prop) l :
  foldr (λ x p, P x ∧ p) True l ↔ Forall P l.
Proof. induction l as [|x l IH]; cbn [foldr]; [by rewrite Forall_nil|by rewrite Forall_cons, IH]. Qed.

Lemma map_id_Forall {A} (f : A → A) l : Forall (λ x, f x = x) l → map f l = l.
Proof. induction 1; cbn [map]; congruence. Qed.

(** Nothing in [v] needs changing: [v] is what a careful caller passes. *)
Definition entry_safe (n : nat) (kv : jsstr * meta) : Prop :=
  if isCredentialKey kv.1 then kv.2 = MStr REDACTED else safe n kv.2.

Lemma safe_MArr n l : safe (S n) (MArr l) ↔ Forall (safe n) l.
Proof. apply (foldr_and_Forall (safe n)). Qed.
Lemma safe_MObj n l : safe (S n) (MObj l) ↔ Forall (entry_safe n) l.
Proof. apply (foldr_and_Forall (entry_safe n)). Qed.

Lemma redactValue_safe v : ∀ d, safe (MAX_METADATA_DEPTH - d) (redactValue v d).
Proof.
  induction v as [v Ha Ho|l IH|l IH] using meta_ind'; intros d.
  - destruct v; try done; [destruct (Ha _ eq_refl)|destruct (Ho _ eq_refl)].
  - cbn [redactValue]. destruct (MAX_METADATA_DEPTH <=? d)%nat eqn:E; [done|].
    bprop. replace (MAX_METADATA_DEPTH - d) with (S (MAX_METADATA_DEPTH - S d)) by lia.
    apply safe_MArr. rewrite Forall_map. eapply Forall_impl; [exact IH|]. by intros x Hx.
  - cbn [redactValue]. destruct (MAX_METADATA_DEPTH <=? d)%nat eqn:E; [done|].
    bprop. replace (MAX_METADATA_DEPTH - d) with (S (MAX_METADATA_DEPTH - S d)) by lia.
    apply safe_MObj. rewrite Forall_map. eapply Forall_impl; [exact IH|].
    intros [k x] Hx. unfold entry_safe, compose. cbn [fst snd] in *.
    by destruct (isCredentialKey k).
Qed.

Lemma redactValue_id v : ∀ d, safe (MAX_METADATA_DEPTH - d) v → redactValue v d = v.
Proof.
  induction v as [v Ha Ho|l IH|l IH] using meta_ind'; intros d H.
  - destruct v; try done; [destruct (Ha _ eq_refl)|destruct (Ho _ eq_refl)].
  - cbn [redactValue]. destruct (MAX_METADATA_DEPTH <=? d)%nat eqn:E; bprop.
    { by replace (MAX_METADATA_DEPTH - d) with 0 in H by lia. }
    replace (MAX_METADATA_DEPTH - d) with (S (MAX_METADATA_DEPTH - S d)) in H by lia.
    apply safe_MArr in H. f_equal. apply map_id_Forall.
    eapply Forall_impl; [apply Forall_and; split; [exact IH|exact H]|].
    intros x [Hx Hs]. by apply Hx.
  - cbn [redactValue]. destruct (MAX_METADATA_DEPTH <=? d)%nat eqn:E; bprop.
    { by replace (MAX_METADATA_DEPTH - d) with 0 in H by lia. }
    replace (MAX_METADATA_DEPTH - d) with (S (MAX_METADATA_DEPTH - S d)) in H by lia.
    apply safe_MObj in H. f_equal. apply map_id_Forall.
    eapply Forall_impl; [apply Forall_and; split; [exact IH|exact H]|].
    intros [k x] [Hx Hs]. unfold entry_safe in Hs. cbn [fst snd] in *.
    destruct (isCredentialKey k); [by rewrite Hs|by rewrite Hx].
Qed.

(** What the audit log stores is safe at every depth: it has the keys the
    caller gave, in order; each value under a credential key is the redaction
    mark, whatever it was; no date object or binary survives and containers
    nest at most six deep.  Metadata that is already of that shape is stored
    unchanged, so redaction loses nothing it does not have to, and redacting
    twice is redacting once. *)
Theorem sanitise_spec (m : list (jsstr * meta)) :
  ∃ m', sanitise (Some m) = Some m'
    ∧ map fst m' = map fst m
    ∧ Forall (entry_safe 5) m'
    ∧ (Forall (entry_safe 5) m → m' = m)
    ∧ sanitise (Some m') = Some m'.
Proof.
  exists (redactObject m 0).
  assert (Forall (entry_safe 5) (redactObject m 0)) as Hs.
  { unfold redactObject. rewrite Forall_map. apply Forall_true. intros [k x].
    unfold entry_safe, compose. cbn [fst snd]. destruct (isCredentialKey k); [done|].
    apply (redactValue_safe x 1). }
  assert (∀ l, Forall (entry_safe 5) l → redactObject l 0 = l) as Hid.
  { intros l Hl. unfold redactObject. apply map_id_Forall. eapply Forall_impl; [exact Hl|].
    intros [k x]. unfold entry_safe. cbn [fst snd].
    destruct (isCredentialKey k); [by intros ->|]. intros Hx.
    by rewrite (redactValue_id x 1). }
  split_and!; [done| |done|by apply Hid|].
  - unfold redactObject. rewrite map_map. by apply map_ext.
  - unfold sanitise. cbn [mbind option_bind]. by rewrite (Hid _ Hs).
Qed.

(** ** Spellings of a key *)

Definition lowdig (c : N) : bool := is_lower c || is_digit c.

(** A word as the modules write it: a lower-case letter, then at least one
    more lower-case letter or digit. *)
Definition good_word (w : jsstr) : Prop :=
  ∃ x t, w = x :: t ∧ is_lower x = true ∧ t ≠ [] ∧ Forall (λ c, lowdig c = true) t.

Definition capitalise (w : jsstr) : jsstr :=
  match w with [] => [] | x :: t => (x - 32)%N :: t end.
Definition camelCase (ws : list jsstr) : jsstr :=
  match ws with [] => [] | w :: ws => w ++ concat (map capitalise ws) end.

(** The shape shared by a word and its capitalised form. *)
Definition token (w : jsstr) : Prop :=
  ∃ x t, w = x :: t ∧ is_alnum x = true ∧ t ≠ [] ∧ Forall (λ c, lowdig c = true) t.

Ltac char_facts :=
  unfold lowdig, is_alnum, is_lower, is_upper, is_digit, lower1 in *;
  repeat match goal with
  | H : _ = true |- _ => progress bprop
  | H : _ ∨ _ |- _ => destruct H; bprop
  end;
  rewrite ?andb_true_iff, ?orb_true_iff, ?andb_false_iff, ?N.leb_le, ?N.leb_gt; try lia.

Lemma lowdig_not_upper c : lowdig c = true → is_upper c = false.
Proof. intros. char_facts. Qed.
Lemma lowdig_alnum c : lowdig c = true → is_alnum c = true.
Proof.
  unfold is_alnum, lowdig. rewrite !orb_true_iff. naive_solver.
Qed.
Lemma cap_upper x : is_lower x = true → is_upper (x - 32) = true.
Proof. intros. char_facts. Qed.
Lemma lower_cap x : is_lower x = true → lower1 (x - 32) = x.
Proof. intros H. unfold lower1. rewrite cap_upper by done. char_facts. Qed.
Lemma lower_lowdig c : lowdig c = true → lower1 c = c.
Proof. intros. unfold lower1. by rewrite lowdig_not_upper. Qed.

Lemma toLowerCase_lowdig t : Forall (λ c, lowdig c = true) t → toLowerCase t = t.
Proof. intros. apply map_id_Forall. eapply Forall_impl; [done|]. apply lower_lowdig. Qed.

Lemma good_word_token w : good_word w → token w.
Proof.
  intros (x & t & -> & Hx & Ht & Hf). exists x, t. split_and!; try done.
  apply lowdig_alnum. unfold lowdig. by rewrite Hx.
Qed.
Lemma capitalise_token w : good_word w → token (capitalise w).
Proof.
  intros (x & t & -> & Hx & Ht & Hf). exists (x - 32)%N, t. split_and!; try done.
  unfold is_alnum. by rewrite (cap_upper x Hx), orb_true_r.
Qed.
Lemma good_word_lower w : good_word w → toLowerCase w = w ∧ toLowerCase (capitalise w) = w.
Proof.
  intros (x & t & -> & Hx & Ht & Hf). unfold toLowerCase, capitalise. cbn [map].
  pose proof (toLowerCase_lowdig t Hf) as E. unfold toLowerCase in E. rewrite E.
  rewrite lower_cap by done. rewrite lower_lowdig by (unfold lowdig; by rewrite Hx). done.
Qed.

Lemma runs_word w : ∀ acc s, Forall (λ c, is_alnum c = true) w →
  runs acc (w ++ s) = runs (reverse w ++ acc) s.
Proof.
  induction w as [|c w IH]; intros acc s Hw; [done|]. apply Forall_cons in Hw as [Hc Hw].
  cbn [app runs]. rewrite Hc, IH by done. f_equal. by rewrite reverse_cons, <- app_assoc.
Qed.

Lemma token_alnum w : token w → w ≠ [] ∧ Forall (λ c, is_alnum c = true) w.
Proof.
  intros (x & t & -> & Hx & _ & Hf). split; [done|]. apply Forall_cons. split; [done|].
  eapply Forall_impl; [done|]. apply lowdig_alnum.
Qed.

Lemma runs_join sep ws :
  is_alnum sep = false → Forall token ws → runs [] (join sep ws) = ws.
Proof.
  intros Hs. induction ws as [|w ws IH]; intros Hw; [done|].
  apply Forall_cons in Hw as [[Hne Hw]%token_alnum Hws]. specialize (IH Hws).
  assert (push_word (reverse w ++ []) (runs [] (join sep ws)) = w :: ws) as Hp.
  { rewrite app_nil_r. unfold push_word. rewrite bool_decide_eq_false_2.
    - by rewrite reverse_involutive, IH.
    - intros E. apply (f_equal reverse) in E. by rewrite reverse_involutive in E. }
  destruct ws as [|w' ws].
  - cbn [join]. rewrite <- (app_nil_r w) at 1. rewrite runs_word by done. exact Hp.
  - change (join sep (w :: w' :: ws)) with (w ++ sep :: join sep (w' :: ws)).
    rewrite runs_word by done. cbn [runs]. by rewrite Hs.
Qed.

(** No break inside a token, and one before a capitalised token. *)
Lemma break_camel_last x t :
  Forall (λ c, lowdig c = true) t → break_camel (x :: t) = x :: t.
Proof.
  revert x. induction t as [|y t IH]; intros x Hf; [done|]. apply Forall_cons in Hf as [Hy Hf].
  cbn [break_camel]. rewrite (lowdig_not_upper y Hy), andb_false_r.
  f_equal. by apply IH.
Qed.
Lemma break_camel_step t : ∀ x y s,
  t ≠ [] → Forall (λ c, lowdig c = true) t → is_upper y = true →
  break_camel (x :: t ++ y :: s) = x :: t ++ 32%N :: break_camel (y :: s).
Proof.
  induction t as [|z t IH]; intros x y s Ht Hf Hy; [done|]. apply Forall_cons in Hf as [Hz Hf].
  change (x :: (z :: t) ++ y :: s) with (x :: z :: t ++ y :: s). cbn [break_camel].
  rewrite (lowdig_not_upper z Hz), andb_false_r. f_equal.
  destruct t as [|z' t]; [|by apply IH]. cbn [app].
  change (is_lower z || is_digit z) with (lowdig z). by rewrite Hz, Hy.
Qed.
Lemma break_camel_id s : Forall (λ c, is_upper c = false) s → break_camel s = s.
Proof.
  induction s as [|a [|b s] IH]; intros Hf; [done..|]. apply Forall_cons in Hf as [Ha Hf].
  cbn [break_camel]. pose proof Hf as [Hb _]%Forall_cons. rewrite Hb, andb_false_r.
  f_equal. by apply IH.
Qed.

Lemma break_camel_camelCase ws : ∀ w, token w → Forall good_word ws →
  break_camel (w ++ concat (map capitalise ws)) = join 32 (w :: map capitalise ws).
Proof.
  induction ws as [|w' ws IH]; intros w (x & t & -> & Hx & Ht & Hf) Hws.
  - cbn [map concat]. rewrite app_nil_r. by apply break_camel_last.
  - apply Forall_cons in Hws as [Hw' Hws].
    specialize (IH (capitalise w') (capitalise_token w' Hw') Hws).
    destruct Hw' as (x' & t' & -> & Hx' & Ht' & Hf').
    cbn [map concat capitalise] in *. rewrite <- !app_comm_cons in *.
    rewrite break_camel_step; [|done|done|by apply cap_upper]. rewrite IH. done.
Qed.

Lemma break_acronym_fst a s : is_upper a = false → break_acronym (a :: s) = a :: break_acronym s.
Proof. intros Ha. destruct s as [|b [|c s]]; [done..|]. cbn [break_acronym]. by rewrite Ha. Qed.
Lemma break_acronym_snd a b s :
  is_upper b = false → break_acronym (a :: b :: s) = a :: break_acronym (b :: s).
Proof. intros Hb. destruct s as [|c s]; [done|]. cbn [break_acronym]. by rewrite Hb, andb_false_r. Qed.

Lemma break_acronym_lowdig t s :
  Forall (λ c, lowdig c = true) t → break_acronym (t ++ s) = t ++ break_acronym s.
Proof.
  induction 1 as [|c t Hc Ht IH]; [done|]. rewrite <- app_comm_cons.
  rewrite break_acronym_fst by by apply lowdig_not_upper. by rewrite IH.
Qed.
Lemma break_acronym_token w s : token w → break_acronym (w ++ s) = w ++ break_acronym s.
Proof.
  intros (x & t & -> & Hx & Ht & Hf). destruct t as [|y t]; [done|].
  rewrite <- !app_comm_cons, break_acronym_snd.
  - by rewrite (app_comm_cons t), break_acronym_lowdig.
  - apply Forall_cons in Hf as [Hy _]. by apply lowdig_not_upper.
Qed.
Lemma break_acronym_join sep ws :
  is_upper sep = false → Forall token ws → break_acronym (join sep ws) = join sep ws.
Proof.
  intros Hs. induction 1 as [|w ws Hw Hws IH]; [done|]. destruct ws as [|w' ws].
  - cbn [join]. rewrite <- (app_nil_r w) at 1. by rewrite break_acronym_token, app_nil_r.
  - change (join sep (w :: w' :: ws)) with (w ++ sep :: join sep (w' :: ws)).
    by rewrite break_acronym_token, break_acronym_fst, IH.
Qed.

Lemma good_word_not_upper w : good_word w → Forall (λ c, is_upper c = false) w.
Proof.
  intros (x & t & -> & Hx & Ht & Hf). apply Forall_cons. split.
  - apply lowdig_not_upper. unfold lowdig. by rewrite Hx.
  - eapply Forall_impl; [done|]. apply lowdig_not_upper.
Qed.
Lemma join_not_upper sep ws :
  is_upper sep = false → Forall good_word ws → Forall (λ c, is_upper c = false) (join sep ws).
Proof.
  intros Hs. induction 1 as [|w ws Hw Hws IH]; [by apply Forall_nil|].
  destruct ws as [|w' ws]; [by apply good_word_not_upper|].
  change (join sep (w :: w' :: ws)) with (w ++ sep :: join sep (w' :: ws)).
  apply Forall_app. split; [by apply good_word_not_upper|]. by apply Forall_cons.
Qed.
Lemma not_alnum_not_upper c : is_alnum c = false → is_upper c = false.
Proof. unfold is_alnum. intros H. bprop. done. Qed.

(** The rule asks about words, not spellings: for words of at least two
    characters, joining them with any non-alphanumeric separator ([_], [-],
    [.], a space) and writing them in camelCase give the same decision, the
    one on the words themselves. *)
Theorem isCredentialKey_spelling (sep : N) (ws : list jsstr)
  (Hsep : is_alnum sep = false) (Hws : Forall good_word ws) :
  isCredentialKey (join sep ws) = credential_words ws
  ∧ isCredentialKey (camelCase ws) = credential_words ws.
Proof.
  assert (Forall token ws) as Ht by (eapply Forall_impl; [exact Hws|apply good_word_token]).
  assert (is_upper sep = false) as Hu by by apply not_alnum_not_upper.
  unfold isCredentialKey, keyWords. split; f_equal.
  - rewrite break_camel_id, break_acronym_join, runs_join by (done || by apply join_not_upper).
    apply map_id_Forall. eapply Forall_impl; [exact Hws|]. intros w Hw. by apply good_word_lower.
  - destruct ws as [|w ws]; [done|]. apply Forall_cons in Hws as [Hw Hws].
    unfold camelCase. rewrite break_camel_camelCase by (done || by apply good_word_token).
    assert (Forall token (w :: map capitalise ws)) as Ht'.
    { apply Forall_cons. split; [by apply good_word_token|]. rewrite Forall_map.
      eapply Forall_impl; [exact Hws|]. intros v. apply capitalise_token. }
    rewrite break_acronym_join, runs_join by done. cbn [map]. f_equal.
    + by apply good_word_lower.
    + rewrite map_map. apply map_id_Forall. eapply Forall_impl; [done|].
      intros v Hv. by apply good_word_lower.
Qed.

Lemma isCredentialKey_spelling_witness :
  isCredentialKey (js "signing_secret_hash") = true
  ∧ isCredentialKey (js "signingSecretHash") = true
  ∧ isCredentialKey (js "previous_secrets_expire_at") = false.
Proof.
  assert (Forall good_word [js "signing"; js "secret"; js "hash"]) as H.
  { repeat (apply Forall_cons; split;
      [eexists _, _; split; [reflexivity|]; split; [reflexivity|]; split; [discriminate|];
       repeat (apply Forall_cons; split; [reflexivity|]); by apply Forall_nil|]).
    by apply Forall_nil. }
  destruct (isCredentialKey_spelling 95%N [js "signing"; js "secret"; js "hash"] eq_refl H)
    as [H1 H2].
  split; [exact (eq_trans H1 eq_refl)|]. split; [exact (eq_trans H2 eq_refl)|].
  vm_compute. reflexivity.
Defined.
