(* ===== verification/Db.v ===== *)
(** The store: one typed row per table of prisma/schema.prisma that the
    services below use, the request context of authz/tenant-context.ts, and the
    tenant predicate every scoped statement carries
    (authz/tenant-scope.ts, authz/tenant-scope.factory.ts).

    A table is a finite map from primary keys to rows, an identifier is a
    [string], a text column is a JavaScript string, a timestamp is a number of
    milliseconds.  Columns no modelled operation reads or writes are left out. *)
From Stdlib Require Import ZArith Lia.
From S2P Require Import Prelude Js Permissions RetryRules AuditTrail.

(** ** Enumerations *)

Module OrganizationStatus.
Inductive t : Type := active | suspended | deleted.
#[global] Instance eq_dec : EqDecision t.
Proof. solve_decision. Defined.
End OrganizationStatus.

Module ProjectStatus.
Inductive t : Type := active | suspended | deleted.
#[global] Instance eq_dec : EqDecision t.
Proof. solve_decision. Defined.
End ProjectStatus.

Module UserTokenType.
Inductive t : Type := email_verification | password_reset | invitation.
#[global] Instance eq_dec : EqDecision t.
Proof. solve_decision. Defined.
End UserTokenType.

Module EndpointStatus.
Inductive t : Type := active | paused | disabled | deleted.
#[global] Instance eq_dec : EqDecision t.
Proof. solve_decision. Defined.
End EndpointStatus.

Module EndpointHealthState.
Inductive t : Type := healthy | degraded | open | half_open.
#[global] Instance eq_dec : EqDecision t.
Proof. solve_decision. Defined.
End EndpointHealthState.

Module RateLimitScope.
Inductive t : Type := organization | project | endpoint | ingest.
#[global] Instance eq_dec : EqDecision t.
Proof. solve_decision. Defined.
End RateLimitScope.

Module EventStatus.
Inductive t : Type := received | processing | processed | failed.
#[global] Instance eq_dec : EqDecision t.
Proof. solve_decision. Defined.
End EventStatus.

Module OutboxStatus.
Inductive t : Type := pending | processing | processed | failed.
#[global] Instance eq_dec : EqDecision t.
Proof. solve_decision. Defined.
End OutboxStatus.

Module DeliveryStatus.
Inductive t : Type := pending | scheduled | queued | processing | succeeded | failed | retrying | exhausted | cancelled.
#[global] Instance eq_dec : EqDecision t.
Proof. solve_decision. Defined.
End DeliveryStatus.

Module AttemptStatus.
Inductive t : Type := success | failure | timeout | error.
#[global] Instance eq_dec : EqDecision t.
Proof. solve_decision. Defined.
End AttemptStatus.

Module NotificationKind.
Inductive t : Type := email | slack.
#[global] Instance eq_dec : EqDecision t.
Proof. solve_decision. Defined.
End NotificationKind.

Module NotificationStatus.
Inductive t : Type := pending | confirmed | failing | disabled.
#[global] Instance eq_dec : EqDecision t.
Proof. solve_decision. Defined.
End NotificationStatus.

(** ** Rows *)

Module Organization.
Record t : Type := mk {
  name : jsstr;
  slug : jsstr;
  status : OrganizationStatus.t
}.
Definition set_name (v : jsstr) (r : t) : t :=
  mk v (slug r) (status r).
Definition set_slug (v : jsstr) (r : t) : t :=
  mk (name r) v (status r).
Definition set_status (v : OrganizationStatus.t) (r : t) : t :=
  mk (name r) (slug r) v.
End Organization.

Module User.
Record t : Type := mk {
  email : jsstr;
  name : option jsstr;
  passwordHash : jsstr;
  emailVerifiedAt : option Z;
  lastLoginAt : option Z;
  disabledAt : option Z;
  onboardingCompletedAt : option Z
}.
Definition set_passwordHash (v : jsstr) (r : t) : t :=
  mk (email r) (name r) v (emailVerifiedAt r) (lastLoginAt r) (disabledAt r) (onboardingCompletedAt r).
Definition set_emailVerifiedAt (v : option Z) (r : t) : t :=
  mk (email r) (name r) (passwordHash r) v (lastLoginAt r) (disabledAt r) (onboardingCompletedAt r).
Definition set_lastLoginAt (v : option Z) (r : t) : t :=
  mk (email r) (name r) (passwordHash r) (emailVerifiedAt r) v (disabledAt r) (onboardingCompletedAt r).
Definition set_onboardingCompletedAt (v : option Z) (r : t) : t :=
  mk (email r) (name r) (passwordHash r) (emailVerifiedAt r) (lastLoginAt r) (disabledAt r) v.
End User.

(** A browser session; the address and user agent are left out. *)
Module Session.
Record t : Type := mk {
  userId : string;
  expiresAt : Z;
  revokedAt : option Z;
  revokedReason : option string
}.
Definition set_revokedAt (v : option Z) (r : t) : t :=
  mk (userId r) (expiresAt r) v (revokedReason r).
Definition set_revokedReason (v : option string) (r : t) : t :=
  mk (userId r) (expiresAt r) (revokedAt r) v.
End Session.

Module UserToken.
Record t : Type := mk {
  userId : option string;
  email : jsstr;
  type : UserTokenType.t;
  tokenHash : jsstr;
  metadata : option meta;
  expiresAt : Z;
  consumedAt : option Z
}.
Definition set_consumedAt (v : option Z) (r : t) : t :=
  mk (userId r) (email r) (type r) (tokenHash r) (metadata r) (expiresAt r) v.
End UserToken.

Module Member.
Record t : Type := mk {
  organizationId : string;
  userId : string;
  role : MemberRole
}.
Definition set_role (v : MemberRole) (r : t) : t :=
  mk (organizationId r) (userId r) v.
End Member.

Module Project.
Record t : Type := mk {
  organizationId : string;
  name : jsstr;
  slug : jsstr;
  live : bool;
  status : ProjectStatus.t;
  allowedIps : list jsstr
}.
Definition set_name (v : jsstr) (r : t) : t :=
  mk (organizationId r) v (slug r) (live r) (status r) (allowedIps r).
Definition set_slug (v : jsstr) (r : t) : t :=
  mk (organizationId r) (name r) v (live r) (status r) (allowedIps r).
Definition set_live (v : bool) (r : t) : t :=
  mk (organizationId r) (name r) (slug r) v (status r) (allowedIps r).
Definition set_status (v : ProjectStatus.t) (r : t) : t :=
  mk (organizationId r) (name r) (slug r) (live r) v (allowedIps r).
Definition set_allowedIps (v : list jsstr) (r : t) : t :=
  mk (organizationId r) (name r) (slug r) (live r) (status r) v.
End Project.

Module ApiKey.
Record t : Type := mk {
  projectId : string;
  name : jsstr;
  keyHash : jsstr;
  keyPrefix : jsstr;
  scopes : list jsstr;
  live : bool;
  expiresAt : option Z;
  lastUsedAt : option Z;
  revokedAt : option Z;
  createdByUserId : option string;
  createdByMembershipId : option string;
  createdAt : Z;
  updatedAt : Z
}.
Definition set_name (v : jsstr) (r : t) : t :=
  mk (projectId r) v (keyHash r) (keyPrefix r) (scopes r) (live r) (expiresAt r) (lastUsedAt r) (revokedAt r) (createdByUserId r) (createdByMembershipId r) (createdAt r) (updatedAt r).
Definition set_scopes (v : list jsstr) (r : t) : t :=
  mk (projectId r) (name r) (keyHash r) (keyPrefix r) v (live r) (expiresAt r) (lastUsedAt r) (revokedAt r) (createdByUserId r) (createdByMembershipId r) (createdAt r) (updatedAt r).
Definition set_expiresAt (v : option Z) (r : t) : t :=
  mk (projectId r) (name r) (keyHash r) (keyPrefix r) (scopes r) (live r) v (lastUsedAt r) (revokedAt r) (createdByUserId r) (createdByMembershipId r) (createdAt r) (updatedAt r).
Definition set_revokedAt (v : option Z) (r : t) : t :=
  mk (projectId r) (name r) (keyHash r) (keyPrefix r) (scopes r) (live r) (expiresAt r) (lastUsedAt r) v (createdByUserId r) (createdByMembershipId r) (createdAt r) (updatedAt r).
Definition set_updatedAt (v : Z) (r : t) : t :=
  mk (projectId r) (name r) (keyHash r) (keyPrefix r) (scopes r) (live r) (expiresAt r) (lastUsedAt r) (revokedAt r) (createdByUserId r) (createdByMembershipId r) (createdAt r) v.
End ApiKey.

Module Endpoint.
Record t : Type := mk {
  projectId : string;
  name : jsstr;
  url : jsstr;
  description : option jsstr;
  status : EndpointStatus.t;
  enabled : bool;
  disabledReason : option jsstr;
  disabledAt : option Z;
  timeoutMs : Z;
  maxConcurrency : Z;
  rateLimit : option Z;
  rateLimitWindowSeconds : Z;
  retryPolicyId : option string;
  customHeaders : option (list (jsstr * jsstr));
  createdAt : Z;
  updatedAt : Z
}.
Definition set_status (v : EndpointStatus.t) (r : t) : t :=
  mk (projectId r) (name r) (url r) (description r) v (enabled r) (disabledReason r) (disabledAt r) (timeoutMs r) (maxConcurrency r) (rateLimit r) (rateLimitWindowSeconds r) (retryPolicyId r) (customHeaders r) (createdAt r) (updatedAt r).
Definition set_enabled (v : bool) (r : t) : t :=
  mk (projectId r) (name r) (url r) (description r) (status r) v (disabledReason r) (disabledAt r) (timeoutMs r) (maxConcurrency r) (rateLimit r) (rateLimitWindowSeconds r) (retryPolicyId r) (customHeaders r) (createdAt r) (updatedAt r).
Definition set_disabledReason (v : option jsstr) (r : t) : t :=
  mk (projectId r) (name r) (url r) (description r) (status r) (enabled r) v (disabledAt r) (timeoutMs r) (maxConcurrency r) (rateLimit r) (rateLimitWindowSeconds r) (retryPolicyId r) (customHeaders r) (createdAt r) (updatedAt r).
Definition set_disabledAt (v : option Z) (r : t) : t :=
  mk (projectId r) (name r) (url r) (description r) (status r) (enabled r) (disabledReason r) v (timeoutMs r) (maxConcurrency r) (rateLimit r) (rateLimitWindowSeconds r) (retryPolicyId r) (customHeaders r) (createdAt r) (updatedAt r).
Definition set_retryPolicyId (v : option string) (r : t) : t :=
  mk (projectId r) (name r) (url r) (description r) (status r) (enabled r) (disabledReason r) (disabledAt r) (timeoutMs r) (maxConcurrency r) (rateLimit r) (rateLimitWindowSeconds r) v (customHeaders r) (createdAt r) (updatedAt r).
Definition set_updatedAt (v : Z) (r : t) : t :=
  mk (projectId r) (name r) (url r) (description r) (status r) (enabled r) (disabledReason r) (disabledAt r) (timeoutMs r) (maxConcurrency r) (rateLimit r) (rateLimitWindowSeconds r) (retryPolicyId r) (customHeaders r) (createdAt r) v.
End Endpoint.

Module EndpointSecret.
Record t : Type := mk {
  endpointId : string;
  secretEncrypted : jsstr;
  version : Z;
  active : bool;
  createdAt : Z;
  expiresAt : option Z;
  rotatedAt : option Z
}.
Definition set_active (v : bool) (r : t) : t :=
  mk (endpointId r) (secretEncrypted r) (version r) v (createdAt r) (expiresAt r) (rotatedAt r).
Definition set_expiresAt (v : option Z) (r : t) : t :=
  mk (endpointId r) (secretEncrypted r) (version r) (active r) (createdAt r) v (rotatedAt r).
Definition set_rotatedAt (v : option Z) (r : t) : t :=
  mk (endpointId r) (secretEncrypted r) (version r) (active r) (createdAt r) (expiresAt r) v.
End EndpointSecret.

Module EndpointHealth.
Record t : Type := mk {
  state : EndpointHealthState.t;
  consecutiveFailures : Z;
  consecutiveSuccesses : Z;
  lastSuccessAt : option Z;
  lastFailureAt : option Z;
  openedAt : option Z;
  probeAfter : option Z;
  updatedAt : Z
}.
Definition set_probeAfter (v : option Z) (r : t) : t :=
  mk (state r) (consecutiveFailures r) (consecutiveSuccesses r) (lastSuccessAt r) (lastFailureAt r) (openedAt r) v (updatedAt r).
Definition set_updatedAt (v : Z) (r : t) : t :=
  mk (state r) (consecutiveFailures r) (consecutiveSuccesses r) (lastSuccessAt r) (lastFailureAt r) (openedAt r) (probeAfter r) v.
End EndpointHealth.

Module Subscription.
Record t : Type := mk {
  projectId : string;
  endpointId : string;
  name : option jsstr;
  eventTypes : list jsstr;
  payloadFilter : option jsval;
  enabled : bool;
  createdAt : Z;
  updatedAt : Z
}.
Definition set_name (v : option jsstr) (r : t) : t :=
  mk (projectId r) (endpointId r) v (eventTypes r) (payloadFilter r) (enabled r) (createdAt r) (updatedAt r).
Definition set_endpointId (v : string) (r : t) : t :=
  mk (projectId r) v (name r) (eventTypes r) (payloadFilter r) (enabled r) (createdAt r) (updatedAt r).
Definition set_eventTypes (v : list jsstr) (r : t) : t :=
  mk (projectId r) (endpointId r) (name r) v (payloadFilter r) (enabled r) (createdAt r) (updatedAt r).
Definition set_payloadFilter (v : option jsval) (r : t) : t :=
  mk (projectId r) (endpointId r) (name r) (eventTypes r) v (enabled r) (createdAt r) (updatedAt r).
Definition set_enabled (v : bool) (r : t) : t :=
  mk (projectId r) (endpointId r) (name r) (eventTypes r) (payloadFilter r) v (createdAt r) (updatedAt r).
Definition set_updatedAt (v : Z) (r : t) : t :=
  mk (projectId r) (endpointId r) (name r) (eventTypes r) (payloadFilter r) (enabled r) (createdAt r) v.
End Subscription.

Module RetryPolicy.
Record t : Type := mk {
  projectId : string;
  name : jsstr;
  isDefault : bool;
  settings : RetrySettings;
  createdAt : Z;
  updatedAt : Z
}.
Definition set_name (v : jsstr) (r : t) : t :=
  mk (projectId r) v (isDefault r) (settings r) (createdAt r) (updatedAt r).
Definition set_isDefault (v : bool) (r : t) : t :=
  mk (projectId r) (name r) v (settings r) (createdAt r) (updatedAt r).
Definition set_settings (v : RetrySettings) (r : t) : t :=
  mk (projectId r) (name r) (isDefault r) v (createdAt r) (updatedAt r).
Definition set_updatedAt (v : Z) (r : t) : t :=
  mk (projectId r) (name r) (isDefault r) (settings r) (createdAt r) v.
End RetryPolicy.

Module RateLimitPolicy.
Record t : Type := mk {
  projectId : string;
  scope : RateLimitScope.t;
  resourceId : option string;
  limit : num;
  windowSeconds : num;
  burst : option num;
  createdAt : Z;
  updatedAt : Z
}.
End RateLimitPolicy.

Module Event.
Record t : Type := mk {
  organizationId : string;
  projectId : string;
  eventType : jsstr;
  idempotencyKey : option jsstr;
  payloadRaw : option (list N);
  payload : option jsval;
  payloadLocation : option jsstr;
  payloadSize : Z;
  payloadHash : jsstr;
  orderingKey : option jsstr;
  headers : option jsval;
  status : EventStatus.t;
  createdAt : Z;
  processedAt : option Z
}.
Definition set_status (v : EventStatus.t) (r : t) : t :=
  mk (organizationId r) (projectId r) (eventType r) (idempotencyKey r) (payloadRaw r) (payload r) (payloadLocation r) (payloadSize r) (payloadHash r) (orderingKey r) (headers r) v (createdAt r) (processedAt r).
(** A body of no bytes. *)
Definition bare (org project : string) (type : jsstr) (st : EventStatus.t) (at_ : Z) : t :=
  mk org project type None (Some []) None None 0 [] None None st at_ None.
End Event.

Module EventOutbox.
Record t : Type := mk {
  eventId : string;
  type : jsstr;
  status : OutboxStatus.t;
  attempts : Z;
  unaccountedAttempts : Z;
  failingSince : option Z;
  routingCursor : option jsstr;
  availableAt : Z;
  lockedBy : option jsstr;
  lockedUntil : option Z;
  lastError : option jsstr;
  processedAt : option Z;
  createdAt : Z
}.
Definition set_status (v : OutboxStatus.t) (r : t) : t :=
  mk (eventId r) (type r) v (attempts r) (unaccountedAttempts r) (failingSince r) (routingCursor r) (availableAt r) (lockedBy r) (lockedUntil r) (lastError r) (processedAt r) (createdAt r).
Definition set_attempts (v : Z) (r : t) : t :=
  mk (eventId r) (type r) (status r) v (unaccountedAttempts r) (failingSince r) (routingCursor r) (availableAt r) (lockedBy r) (lockedUntil r) (lastError r) (processedAt r) (createdAt r).
Definition set_unaccountedAttempts (v : Z) (r : t) : t :=
  mk (eventId r) (type r) (status r) (attempts r) v (failingSince r) (routingCursor r) (availableAt r) (lockedBy r) (lockedUntil r) (lastError r) (processedAt r) (createdAt r).
Definition set_failingSince (v : option Z) (r : t) : t :=
  mk (eventId r) (type r) (status r) (attempts r) (unaccountedAttempts r) v (routingCursor r) (availableAt r) (lockedBy r) (lockedUntil r) (lastError r) (processedAt r) (createdAt r).
Definition set_availableAt (v : Z) (r : t) : t :=
  mk (eventId r) (type r) (status r) (attempts r) (unaccountedAttempts r) (failingSince r) (routingCursor r) v (lockedBy r) (lockedUntil r) (lastError r) (processedAt r) (createdAt r).
Definition set_lockedBy (v : option jsstr) (r : t) : t :=
  mk (eventId r) (type r) (status r) (attempts r) (unaccountedAttempts r) (failingSince r) (routingCursor r) (availableAt r) v (lockedUntil r) (lastError r) (processedAt r) (createdAt r).
Definition set_lockedUntil (v : option Z) (r : t) : t :=
  mk (eventId r) (type r) (status r) (attempts r) (unaccountedAttempts r) (failingSince r) (routingCursor r) (availableAt r) (lockedBy r) v (lastError r) (processedAt r) (createdAt r).
Definition set_lastError (v : option jsstr) (r : t) : t :=
  mk (eventId r) (type r) (status r) (attempts r) (unaccountedAttempts r) (failingSince r) (routingCursor r) (availableAt r) (lockedBy r) (lockedUntil r) v (processedAt r) (createdAt r).
Definition set_processedAt (v : option Z) (r : t) : t :=
  mk (eventId r) (type r) (status r) (attempts r) (unaccountedAttempts r) (failingSince r) (routingCursor r) (availableAt r) (lockedBy r) (lockedUntil r) (lastError r) v (createdAt r).
End EventOutbox.

Module Delivery.
Record t : Type := mk {
  eventId : string;
  endpointId : string;
  subscriptionId : option string;
  organizationId : string;
  projectId : string;
  status : DeliveryStatus.t;
  attemptCount : Z;
  maxAttempts : Z;
  nextAttemptAt : Z;
  lastAttemptAt : option Z;
  completedAt : option Z;
  orderingKey : option jsstr;
  lockedBy : option jsstr;
  lockedUntil : option Z;
  replayOfDeliveryId : option string;
  replayedBy : option string;
  lastError : option jsstr;
  traceContext : option jsstr;
  createdAt : Z;
  updatedAt : Z;
  attemptsPrunedAt : option Z
}.
End Delivery.

Module DeliveryAttempt.
Record t : Type := mk {
  deliveryId : string;
  attemptNumber : Z;
  startedAt : Z;
  completedAt : option Z;
  status : AttemptStatus.t;
  httpStatus : option Z;
  requestHeaders : option jsval;
  responseHeaders : option jsval;
  responseBody : option jsstr;
  responseBodyLocation : option jsstr;
  responseSize : option Z;
  errorCode : option jsstr;
  errorMessage : option jsstr;
  durationMs : option Z;
  workerId : option jsstr;
  createdAt : Z;
  traceId : option jsstr
}.
End DeliveryAttempt.

Module Destination.
Record t : Type := mk {
  projectId : string;
  kind : NotificationKind.t;
  target : jsstr;
  label : jsstr;
  status : NotificationStatus.t;
  events : list string;
  confirmedAt : option Z;
  confirmationTokenHash : option jsstr;
  confirmationExpiresAt : option Z;
  lastSentAt : option Z;
  lastError : option jsstr;
  createdAt : Z
}.
Definition set_label (v : jsstr) (r : t) : t :=
  mk (projectId r) (kind r) (target r) v (status r) (events r) (confirmedAt r) (confirmationTokenHash r) (confirmationExpiresAt r) (lastSentAt r) (lastError r) (createdAt r).
Definition set_status (v : NotificationStatus.t) (r : t) : t :=
  mk (projectId r) (kind r) (target r) (label r) v (events r) (confirmedAt r) (confirmationTokenHash r) (confirmationExpiresAt r) (lastSentAt r) (lastError r) (createdAt r).
Definition set_events (v : list string) (r : t) : t :=
  mk (projectId r) (kind r) (target r) (label r) (status r) v (confirmedAt r) (confirmationTokenHash r) (confirmationExpiresAt r) (lastSentAt r) (lastError r) (createdAt r).
Definition set_confirmedAt (v : option Z) (r : t) : t :=
  mk (projectId r) (kind r) (target r) (label r) (status r) (events r) v (confirmationTokenHash r) (confirmationExpiresAt r) (lastSentAt r) (lastError r) (createdAt r).
Definition set_confirmationTokenHash (v : option jsstr) (r : t) : t :=
  mk (projectId r) (kind r) (target r) (label r) (status r) (events r) (confirmedAt r) v (confirmationExpiresAt r) (lastSentAt r) (lastError r) (createdAt r).
Definition set_confirmationExpiresAt (v : option Z) (r : t) : t :=
  mk (projectId r) (kind r) (target r) (label r) (status r) (events r) (confirmedAt r) (confirmationTokenHash r) v (lastSentAt r) (lastError r) (createdAt r).
Definition set_lastSentAt (v : option Z) (r : t) : t :=
  mk (projectId r) (kind r) (target r) (label r) (status r) (events r) (confirmedAt r) (confirmationTokenHash r) (confirmationExpiresAt r) v (lastError r) (createdAt r).
Definition set_lastError (v : option jsstr) (r : t) : t :=
  mk (projectId r) (kind r) (target r) (label r) (status r) (events r) (confirmedAt r) (confirmationTokenHash r) (confirmationExpiresAt r) (lastSentAt r) v (createdAt r).
End Destination.

(** Keyed by its unique index, (destination, subject). *)
Module Dispatch.
Record t : Type := mk {
  event : string;
  occurrences : Z;
  firstAt : Z;
  lastAt : Z;
  sentAt : option Z
}.
Definition set_event (v : string) (r : t) : t :=
  mk v (occurrences r) (firstAt r) (lastAt r) (sentAt r).
Definition set_occurrences (v : Z) (r : t) : t :=
  mk (event r) v (firstAt r) (lastAt r) (sentAt r).
Definition set_firstAt (v : Z) (r : t) : t :=
  mk (event r) (occurrences r) v (lastAt r) (sentAt r).
Definition set_lastAt (v : Z) (r : t) : t :=
  mk (event r) (occurrences r) (firstAt r) v (sentAt r).
Definition set_sentAt (v : option Z) (r : t) : t :=
  mk (event r) (occurrences r) (firstAt r) (lastAt r) v.
End Dispatch.

(** A row of audit_logs: who, what, and the redacted metadata. *)
Module AuditLog.
Record t : Type := mk {
  organizationId : string;
  userId : option string;
  action : string;
  resourceType : string;
  resourceId : option string;
  metadata : option (list (jsstr * meta))
}.
End AuditLog.

(** ** The database *)

Record Db : Type := MkDb {
  organizations : gmap string Organization.t;
  users : gmap string User.t;
  sessions : gmap string Session.t;
  userTokens : gmap string UserToken.t;
  members : gmap string Member.t;
  projects : gmap string Project.t;
  apiKeys : gmap string ApiKey.t;
  endpoints : gmap string Endpoint.t;
  endpointSecrets : gmap string EndpointSecret.t;
  endpointHealth : gmap string EndpointHealth.t;
  subscriptions : gmap string Subscription.t;
  retryPolicies : gmap string RetryPolicy.t;
  rateLimitPolicies : gmap string RateLimitPolicy.t;
  events : gmap string Event.t;
  eventOutbox : gmap string EventOutbox.t;
  deliveries : gmap string Delivery.t;
  deliveryAttempts : gmap string DeliveryAttempt.t;
  destinations : gmap string Destination.t;
  dispatches : gmap (string * jsstr) Dispatch.t;
  auditLogs : list AuditLog.t
}.

Definition upd_organizations (f : gmap string Organization.t → gmap string Organization.t) (db : Db) : Db :=
  MkDb (f (organizations db)) (users db) (sessions db) (userTokens db) (members db) (projects db) (apiKeys db) (endpoints db) (endpointSecrets db) (endpointHealth db) (subscriptions db) (retryPolicies db) (rateLimitPolicies db) (events db) (eventOutbox db) (deliveries db) (deliveryAttempts db) (destinations db) (dispatches db) (auditLogs db).
Definition upd_users (f : gmap string User.t → gmap string User.t) (db : Db) : Db :=
  MkDb (organizations db) (f (users db)) (sessions db) (userTokens db) (members db) (projects db) (apiKeys db) (endpoints db) (endpointSecrets db) (endpointHealth db) (subscriptions db) (retryPolicies db) (rateLimitPolicies db) (events db) (eventOutbox db) (deliveries db) (deliveryAttempts db) (destinations db) (dispatches db) (auditLogs db).
Definition upd_sessions (f : gmap string Session.t → gmap string Session.t) (db : Db) : Db :=
  MkDb (organizations db) (users db) (f (sessions db)) (userTokens db) (members db) (projects db) (apiKeys db) (endpoints db) (endpointSecrets db) (endpointHealth db) (subscriptions db) (retryPolicies db) (rateLimitPolicies db) (events db) (eventOutbox db) (deliveries db) (deliveryAttempts db) (destinations db) (dispatches db) (auditLogs db).
Definition upd_userTokens (f : gmap string UserToken.t → gmap string UserToken.t) (db : Db) : Db :=
  MkDb (organizations db) (users db) (sessions db) (f (userTokens db)) (members db) (projects db) (apiKeys db) (endpoints db) (endpointSecrets db) (endpointHealth db) (subscriptions db) (retryPolicies db) (rateLimitPolicies db) (events db) (eventOutbox db) (deliveries db) (deliveryAttempts db) (destinations db) (dispatches db) (auditLogs db).
Definition upd_members (f : gmap string Member.t → gmap string Member.t) (db : Db) : Db :=
  MkDb (organizations db) (users db) (sessions db) (userTokens db) (f (members db)) (projects db) (apiKeys db) (endpoints db) (endpointSecrets db) (endpointHealth db) (subscriptions db) (retryPolicies db) (rateLimitPolicies db) (events db) (eventOutbox db) (deliveries db) (deliveryAttempts db) (destinations db) (dispatches db) (auditLogs db).
Definition upd_projects (f : gmap string Project.t → gmap string Project.t) (db : Db) : Db :=
  MkDb (organizations db) (users db) (sessions db) (userTokens db) (members db) (f (projects db)) (apiKeys db) (endpoints db) (endpointSecrets db) (endpointHealth db) (subscriptions db) (retryPolicies db) (rateLimitPolicies db) (events db) (eventOutbox db) (deliveries db) (deliveryAttempts db) (destinations db) (dispatches db) (auditLogs db).
Definition upd_apiKeys (f : gmap string ApiKey.t → gmap string ApiKey.t) (db : Db) : Db :=
  MkDb (organizations db) (users db) (sessions db) (userTokens db) (members db) (projects db) (f (apiKeys db)) (endpoints db) (endpointSecrets db) (endpointHealth db) (subscriptions db) (retryPolicies db) (rateLimitPolicies db) (events db) (eventOutbox db) (deliveries db) (deliveryAttempts db) (destinations db) (dispatches db) (auditLogs db).
Definition upd_endpoints (f : gmap string Endpoint.t → gmap string Endpoint.t) (db : Db) : Db :=
  MkDb (organizations db) (users db) (sessions db) (userTokens db) (members db) (projects db) (apiKeys db) (f (endpoints db)) (endpointSecrets db) (endpointHealth db) (subscriptions db) (retryPolicies db) (rateLimitPolicies db) (events db) (eventOutbox db) (deliveries db) (deliveryAttempts db) (destinations db) (dispatches db) (auditLogs db).
Definition upd_endpointSecrets (f : gmap string EndpointSecret.t → gmap string EndpointSecret.t) (db : Db) : Db :=
  MkDb (organizations db) (users db) (sessions db) (userTokens db) (members db) (projects db) (apiKeys db) (endpoints db) (f (endpointSecrets db)) (endpointHealth db) (subscriptions db) (retryPolicies db) (rateLimitPolicies db) (events db) (eventOutbox db) (deliveries db) (deliveryAttempts db) (destinations db) (dispatches db) (auditLogs db).
Definition upd_endpointHealth (f : gmap string EndpointHealth.t → gmap string EndpointHealth.t) (db : Db) : Db :=
  MkDb (organizations db) (users db) (sessions db) (userTokens db) (members db) (projects db) (apiKeys db) (endpoints db) (endpointSecrets db) (f (endpointHealth db)) (subscriptions db) (retryPolicies db) (rateLimitPolicies db) (events db) (eventOutbox db) (deliveries db) (deliveryAttempts db) (destinations db) (dispatches db) (auditLogs db).
Definition upd_subscriptions (f : gmap string Subscription.t → gmap string Subscription.t) (db : Db) : Db :=
  MkDb (organizations db) (users db) (sessions db) (userTokens db) (members db) (projects db) (apiKeys db) (endpoints db) (endpointSecrets db) (endpointHealth db) (f (subscriptions db)) (retryPolicies db) (rateLimitPolicies db) (events db) (eventOutbox db) (deliveries db) (deliveryAttempts db) (destinations db) (dispatches db) (auditLogs db).
Definition upd_retryPolicies (f : gmap string RetryPolicy.t → gmap string RetryPolicy.t) (db : Db) : Db :=
  MkDb (organizations db) (users db) (sessions db) (userTokens db) (members db) (projects db) (apiKeys db) (endpoints db) (endpointSecrets db) (endpointHealth db) (subscriptions db) (f (retryPolicies db)) (rateLimitPolicies db) (events db) (eventOutbox db) (deliveries db) (deliveryAttempts db) (destinations db) (dispatches db) (auditLogs db).
Definition upd_rateLimitPolicies (f : gmap string RateLimitPolicy.t → gmap string RateLimitPolicy.t) (db : Db) : Db :=
  MkDb (organizations db) (users db) (sessions db) (userTokens db) (members db) (projects db) (apiKeys db) (endpoints db) (endpointSecrets db) (endpointHealth db) (subscriptions db) (retryPolicies db) (f (rateLimitPolicies db)) (events db) (eventOutbox db) (deliveries db) (deliveryAttempts db) (destinations db) (dispatches db) (auditLogs db).
Definition upd_events (f : gmap string Event.t → gmap string Event.t) (db : Db) : Db :=
  MkDb (organizations db) (users db) (sessions db) (userTokens db) (members db) (projects db) (apiKeys db) (endpoints db) (endpointSecrets db) (endpointHealth db) (subscriptions db) (retryPolicies db) (rateLimitPolicies db) (f (events db)) (eventOutbox db) (deliveries db) (deliveryAttempts db) (destinations db) (dispatches db) (auditLogs db).
Definition upd_eventOutbox (f : gmap string EventOutbox.t → gmap string EventOutbox.t) (db : Db) : Db :=
  MkDb (organizations db) (users db) (sessions db) (userTokens db) (members db) (projects db) (apiKeys db) (endpoints db) (endpointSecrets db) (endpointHealth db) (subscriptions db) (retryPolicies db) (rateLimitPolicies db) (events db) (f (eventOutbox db)) (deliveries db) (deliveryAttempts db) (destinations db) (dispatches db) (auditLogs db).
Definition upd_deliveries (f : gmap string Delivery.t → gmap string Delivery.t) (db : Db) : Db :=
  MkDb (organizations db) (users db) (sessions db) (userTokens db) (members db) (projects db) (apiKeys db) (endpoints db) (endpointSecrets db) (endpointHealth db) (subscriptions db) (retryPolicies db) (rateLimitPolicies db) (events db) (eventOutbox db) (f (deliveries db)) (deliveryAttempts db) (destinations db) (dispatches db) (auditLogs db).
Definition upd_deliveryAttempts (f : gmap string DeliveryAttempt.t → gmap string DeliveryAttempt.t) (db : Db) : Db :=
  MkDb (organizations db) (users db) (sessions db) (userTokens db) (members db) (projects db) (apiKeys db) (endpoints db) (endpointSecrets db) (endpointHealth db) (subscriptions db) (retryPolicies db) (rateLimitPolicies db) (events db) (eventOutbox db) (deliveries db) (f (deliveryAttempts db)) (destinations db) (dispatches db) (auditLogs db).
Definition upd_destinations (f : gmap string Destination.t → gmap string Destination.t) (db : Db) : Db :=
  MkDb (organizations db) (users db) (sessions db) (userTokens db) (members db) (projects db) (apiKeys db) (endpoints db) (endpointSecrets db) (endpointHealth db) (subscriptions db) (retryPolicies db) (rateLimitPolicies db) (events db) (eventOutbox db) (deliveries db) (deliveryAttempts db) (f (destinations db)) (dispatches db) (auditLogs db).
Definition upd_dispatches (f : gmap (string * jsstr) Dispatch.t → gmap (string * jsstr) Dispatch.t) (db : Db) : Db :=
  MkDb (organizations db) (users db) (sessions db) (userTokens db) (members db) (projects db) (apiKeys db) (endpoints db) (endpointSecrets db) (endpointHealth db) (subscriptions db) (retryPolicies db) (rateLimitPolicies db) (events db) (eventOutbox db) (deliveries db) (deliveryAttempts db) (destinations db) (f (dispatches db)) (auditLogs db).
Definition upd_auditLogs (f : list AuditLog.t → list AuditLog.t) (db : Db) : Db :=
  MkDb (organizations db) (users db) (sessions db) (userTokens db) (members db) (projects db) (apiKeys db) (endpoints db) (endpointSecrets db) (endpointHealth db) (subscriptions db) (retryPolicies db) (rateLimitPolicies db) (events db) (eventOutbox db) (deliveries db) (deliveryAttempts db) (destinations db) (dispatches db) (f (auditLogs db)).

Definition empty_db : Db :=
  MkDb ∅ ∅ ∅ ∅ ∅ ∅ ∅ ∅ ∅ ∅ ∅ ∅ ∅ ∅ ∅ ∅ ∅ ∅ ∅ [].

(** ** The request context *)

(** The part of [RequestContext] the services read. *)
Record Ctx : Type := MkCtx {
  ctx_org : string;
  ctx_project : option string;
  ctx_membership : string;
  ctx_role : MemberRole;
  ctx_user : string
}.

(** [requireProject()]: the resolved project or a programming error. *)
Definition requireProject (c : Ctx) : result string :=
  match ctx_project c with
  | Some p => Ok p
  | None => throw internal_error "This route resolved no project."
  end.

(** ** The tenant predicate *)

Inductive TenantScopeKind : Type :=
| organization | organizationSelf | project | projectAndOrganization
| viaEndpoint | viaEvent | delivery | viaDelivery.

(** The columns of a row its tenancy can depend on; [None] when the table has
    no such column. *)
Record cols : Type := MkCols {
  x_id : string;
  x_org : option string;
  x_project : option string;
  x_endpoint : option string;
  x_event : option string;
  x_delivery : option string
}.

(** Relation traversals of a [where] clause. *)
Definition project_org (db : Db) (p : string) : option string :=
  Project.organizationId <$> projects db !! p.
Definition endpoint_project (db : Db) (e : string) : option string :=
  Endpoint.projectId <$> endpoints db !! e.

Definition eqo (a : option string) (b : string) : bool := bool_decide (a = Some b).

(** [{ projectId }], or [{ project: { organizationId } }] without a project. *)
Definition project_matches (c : Ctx) (db : Db) (p : option string) : bool :=
  match ctx_project c with
  | Some q => eqo p q
  | None => eqo (p ≫= project_org db) (ctx_org c)
  end.
(** [{ endpoint: ... }] of the same *)
Definition endpoint_matches (c : Ctx) (db : Db) (e : option string) : bool :=
  project_matches c db (e ≫= endpoint_project db).
(** [{ organizationId, projectId }], or [{ organizationId }] without a project. *)
Definition both_match (c : Ctx) (o p : option string) : bool :=
  match ctx_project c with
  | Some q => eqo o (ctx_org c) && eqo p q
  | None => eqo o (ctx_org c)
  end.

Definition delivery_matches (c : Ctx) (db : Db) (e o p : option string) : bool :=
  endpoint_matches c db e && both_match c o p.

Definition tenantPredicate (k : TenantScopeKind) (c : Ctx) (db : Db) (x : cols) : bool :=
  match k with
  | organization => eqo (x_org x) (ctx_org c)
  | organizationSelf => bool_decide (x_id x = ctx_org c)
  | project => project_matches c db (x_project x)
  | projectAndOrganization => both_match c (x_org x) (x_project x)
  | viaEndpoint => endpoint_matches c db (x_endpoint x)
  | viaEvent =>
      match x_event x ≫= λ e, events db !! e with
      | Some ev => both_match c (Some (Event.organizationId ev)) (Some (Event.projectId ev))
      | None => false
      end
  | delivery => delivery_matches c db (x_endpoint x) (x_org x) (x_project x)
  | viaDelivery =>
      match x_delivery x ≫= λ d, deliveries db !! d with
      | Some d => delivery_matches c db (Some (Delivery.endpointId d)) (Some (Delivery.organizationId d))
                    (Some (Delivery.projectId d))
      | None => false
      end
  end.

(** ** Tables *)

(** What a scoped repository is configured with: the strategy that ties its
    rows to a tenant, their tenancy columns, and where they are stored. *)
Class Table (R : Type) : Type := {
  t_kind : TenantScopeKind;
  t_cols : string → R → cols;
  tbl : Db → gmap string R;
  upd_tbl : (gmap string R → gmap string R) → Db → Db
}.

#[export] Instance Organization_table : Table Organization.t := {|
  t_kind := organizationSelf;
  t_cols id r := MkCols id None None None None None;
  tbl := organizations;
  upd_tbl := upd_organizations
|}.
#[export] Instance Member_table : Table Member.t := {|
  t_kind := organization;
  t_cols id r := MkCols id (Some (Member.organizationId r)) None None None None;
  tbl := members;
  upd_tbl := upd_members
|}.
#[export] Instance Project_table : Table Project.t := {|
  t_kind := organization;
  t_cols id r := MkCols id (Some (Project.organizationId r)) None None None None;
  tbl := projects;
  upd_tbl := upd_projects
|}.
#[export] Instance ApiKey_table : Table ApiKey.t := {|
  t_kind := project;
  t_cols id r := MkCols id None (Some (ApiKey.projectId r)) None None None;
  tbl := apiKeys;
  upd_tbl := upd_apiKeys
|}.
#[export] Instance Endpoint_table : Table Endpoint.t := {|
  t_kind := project;
  t_cols id r := MkCols id None (Some (Endpoint.projectId r)) None None None;
  tbl := endpoints;
  upd_tbl := upd_endpoints
|}.
#[export] Instance EndpointSecret_table : Table EndpointSecret.t := {|
  t_kind := viaEndpoint;
  t_cols id r := MkCols id None None (Some (EndpointSecret.endpointId r)) None None;
  tbl := endpointSecrets;
  upd_tbl := upd_endpointSecrets
|}.
#[export] Instance EndpointHealth_table : Table EndpointHealth.t := {|
  t_kind := viaEndpoint;
  t_cols id r := MkCols id None None (Some id) None None;
  tbl := endpointHealth;
  upd_tbl := upd_endpointHealth
|}.
#[export] Instance Subscription_table : Table Subscription.t := {|
  t_kind := project;
  t_cols id r := MkCols id None (Some (Subscription.projectId r)) None None None;
  tbl := subscriptions;
  upd_tbl := upd_subscriptions
|}.
#[export] Instance RetryPolicy_table : Table RetryPolicy.t := {|
  t_kind := project;
  t_cols id r := MkCols id None (Some (RetryPolicy.projectId r)) None None None;
  tbl := retryPolicies;
  upd_tbl := upd_retryPolicies
|}.
#[export] Instance RateLimitPolicy_table : Table RateLimitPolicy.t := {|
  t_kind := project;
  t_cols id r := MkCols id None (Some (RateLimitPolicy.projectId r)) None None None;
  tbl := rateLimitPolicies;
  upd_tbl := upd_rateLimitPolicies
|}.
#[export] Instance Event_table : Table Event.t := {|
  t_kind := projectAndOrganization;
  t_cols id r := MkCols id (Some (Event.organizationId r)) (Some (Event.projectId r)) None None None;
  tbl := events;
  upd_tbl := upd_events
|}.
#[export] Instance EventOutbox_table : Table EventOutbox.t := {|
  t_kind := viaEvent;
  t_cols id r := MkCols id None None None (Some (EventOutbox.eventId r)) None;
  tbl := eventOutbox;
  upd_tbl := upd_eventOutbox
|}.
#[export] Instance Delivery_table : Table Delivery.t := {|
  t_kind := delivery;
  t_cols id r := MkCols id (Some (Delivery.organizationId r)) (Some (Delivery.projectId r)) (Some (Delivery.endpointId r)) None None;
  tbl := deliveries;
  upd_tbl := upd_deliveries
|}.
#[export] Instance DeliveryAttempt_table : Table DeliveryAttempt.t := {|
  t_kind := viaDelivery;
  t_cols id r := MkCols id None None None None (Some (DeliveryAttempt.deliveryId r));
  tbl := deliveryAttempts;
  upd_tbl := upd_deliveryAttempts
|}.
#[export] Instance Destination_table : Table Destination.t := {|
  t_kind := project;
  t_cols id r := MkCols id None (Some (Destination.projectId r)) None None None;
  tbl := destinations;
  upd_tbl := upd_destinations
|}.
