(* ===== verification/Sessions.v ===== *)
(** Browser sessions: auth/session.service.ts and auth/session.guard.ts.

    A cookie is a signed token that names a session row.  Signing and verifying
    tokens is the JWT library's and a parameter: [verifyJwt token now] returns the
    claims of a token whose signature is this deployment's and which has not
    expired.  Cookies are returned, not stored. *)
From Stdlib Require Import ZArith Lia.
From S2P Require Import Prelude Js Permissions RetryRules AuditTrail Db.

Definition SESSION_TTL_SECONDS : Z := 7 * 24 * 60 * 60.

Inductive SessionRevocationReason : Type := by_logout | by_password_reset | by_admin | by_expired.
Definition reason_name (r : SessionRevocationReason) : string :=
  match r with
  | by_logout => "logout" | by_password_reset => "password_reset"
  | by_admin => "admin" | by_expired => "expired"
  end.

Record SessionUser : Type := MkSessionUser { su_userId : string; su_email : jsstr; su_sessionId : string }.

(** A missing claim is the empty string, which the code treats alike. *)
Record SessionClaims : Type := MkClaims { cl_sub : string; cl_email : jsstr; cl_sid : string }.

(** Only these two environments are served without TLS. *)
Definition PLAINTEXT_ENVS : list string := ["development"; "test"].
Definition secure (app_env : option string) : bool :=
  negb (bool_decide (default EmptyString app_env ∈ PLAINTEXT_ENVS)).

Record CookieOptions : Type := MkCookie {
  co_httpOnly : bool; co_secure : bool; co_sameSite : string; co_path : string; co_maxAge : Z
}.
Definition cookieOptions (app_env : option string) (maxAgeMs : Z) : CookieOptions :=
  MkCookie true (secure app_env) "lax" "/" maxAgeMs.

Section Sessions.
  Context (verifyJwt : jsstr → Z → option SessionClaims) (signJwt : SessionClaims → Z → jsstr).

Definition issue_session (userId : string) (email : jsstr) (sessionId : string) (now : Z) : M Db jsstr :=
  let expiresAt := (now + SESSION_TTL_SECONDS * 1000)%Z in
  clash ← gets (λ db, bool_decide (is_Some (sessions db !! sessionId)));
  _ ← guardM clash internal_error "P2002:id";
  _ ← modify (upd_sessions (insert sessionId (Session.mk userId expiresAt None None)));
  mret (signJwt (MkClaims userId email sessionId) now).

Definition incomplete (c : SessionClaims) : bool :=
  bool_decide (cl_sub c = EmptyString) || bool_decide (cl_email c = []) || bool_decide (cl_sid c = EmptyString).

(** The row, joined with the account it belongs to. *)
Definition session_live (db : Db) (claims : SessionClaims) (now : Z) : bool :=
  match sessions db !! cl_sid claims with
  | None => false
  | Some s =>
      if negb (bool_decide (Session.userId s = cl_sub claims)) then false
      else if bool_decide (Session.revokedAt s ≠ None) then false
      else if (Session.expiresAt s <=? now)%Z then false
      else match users db !! Session.userId s with
           | None => false
           | Some u => bool_decide (User.disabledAt u = None)
           end
  end.

Definition verify (token : jsstr) (now : Z) : M Db (option SessionUser) :=
  match verifyJwt token now with
  | None => mret None
  | Some claims =>
      if incomplete claims then mret None
      else gets (λ db, if session_live db claims now
                       then Some (MkSessionUser (cl_sub claims) (cl_email claims) (cl_sid claims))
                       else None)
  end.

Definition mark_revoked (reason : SessionRevocationReason) (now : Z) (s : Session.t) : Session.t :=
  Session.set_revokedReason (Some (reason_name reason)) (Session.set_revokedAt (Some now) s).

Definition revoke (sessionId : string) (reason : SessionRevocationReason) (now : Z) : M Db unit :=
  modify (upd_sessions (map_imap (λ id s, Some
    (if bool_decide (id = sessionId) && bool_decide (Session.revokedAt s = None)
     then mark_revoked reason now s else s)))).

Definition revocable (userId : string) (s : Session.t) : bool :=
  bool_decide (Session.userId s = userId) && bool_decide (Session.revokedAt s = None).

Definition revokeAllForUser (userId : string) (reason : SessionRevocationReason) (now : Z) : M Db nat :=
  n ← gets (λ db, size (filter (λ kv, revocable userId kv.2 = true) (sessions db)));
  _ ← modify (upd_sessions (fmap (λ s, if revocable userId s then mark_revoked reason now s else s)));
  mret n.

(** [SessionGuard.canActivate] *)
Definition session_guard (cookie : option jsstr) (now : Z) : M Db SessionUser :=
  match cookie with
  | None | Some [] => throwM unauthenticated "Authentication required."
  | Some token =>
      user ← verify token now;
      match user with
      | None => throwM unauthenticated "Session is invalid or has expired."
      | Some u => mret u
      end
  end.
End Sessions.

(** ** What verification establishes *)

Record live_session (db : Db) (u : SessionUser) (now : Z) (s : Session.t) (a : User.t) : Prop := {
  ls_row : sessions db !! su_sessionId u = Some s;
  ls_owner : Session.userId s = su_userId u;
  ls_unrevoked : Session.revokedAt s = None;
  ls_unexpired : (now < Session.expiresAt s)%Z;
  ls_account : users db !! su_userId u = Some a;
  ls_enabled : User.disabledAt a = None
}.

Lemma session_live_spec db claims now :
  session_live db claims now = true ↔
  ∃ s a, live_session db (MkSessionUser (cl_sub claims) (cl_email claims) (cl_sid claims)) now s a.
Proof.
  unfold session_live. split.
  - destruct (sessions db !! cl_sid claims) as [s|] eqn:Es; [|done].
    case_bool_decide as Ho; [|done]. cbn. case_bool_decide as Hr; [done|].
    destruct (Z.leb_spec (Session.expiresAt s) now); [done|].
    destruct (users db !! Session.userId s) as [a|] eqn:Eu; [|done]. intros Hd. bprop.
    exists s, a. split; cbn; [done|done|by destruct (Session.revokedAt s)|lia|congruence|done].
  - intros (s & a & [Hs Ho Hr He Hu Hd]). cbn in *. rewrite Hs, Ho.
    rewrite (bool_decide_eq_true_2 (cl_sub claims = cl_sub claims)) by done. cbn.
    rewrite (bool_decide_eq_false_2 (Session.revokedAt s ≠ None)) by naive_solver.
    destruct (Z.leb_spec (Session.expiresAt s) now); [lia|]. rewrite Hu. by apply bool_decide_eq_true_2.
Qed.

Lemma verify_run verifyJwt token now db :
  verify verifyJwt token now db =
  (Ok (match verifyJwt token now with
       | Some c => if negb (incomplete c) && session_live db c now
                   then Some (MkSessionUser (cl_sub c) (cl_email c) (cl_sid c)) else None
       | None => None
       end), db).
Proof.
  unfold verify. destruct (verifyJwt token now) as [c|]; [|done].
  destruct (incomplete c); [done|]. unfold gets. by destruct (session_live db c now).
Qed.

(** ** Sessions over time *)

(** A session row stays, keeps its owner and its expiry, and once revoked keeps
    its revocation. *)
Definition session_kept (s s' : Session.t) : Prop :=
  Session.userId s' = Session.userId s ∧ Session.expiresAt s' = Session.expiresAt s
  ∧ (Session.revokedAt s ≠ None → s' = s).

Definition sessions_kept (db db' : Db) : Prop :=
  ∀ i s, sessions db !! i = Some s → ∃ s', sessions db' !! i = Some s' ∧ session_kept s s'.

#[export] Instance session_kept_preorder : PreOrder session_kept.
Proof.
  split; [by repeat split|]. intros a b c (H1 & H2 & H3) (H4 & H5 & H6).
  split_and!; [congruence..|]. intros Hr. rewrite <- (H3 Hr). apply H6. by rewrite (H3 Hr).
Qed.
#[export] Instance sessions_kept_preorder : PreOrder sessions_kept.
Proof.
  split; [intros db i s Hs; by exists s|]. intros a b c H1 H2 i s Hs.
  destruct (H1 i s Hs) as (s' & Hs' & K1). destruct (H2 i s' Hs') as (s'' & Hs'' & K2).
  exists s''. split; [done|]. by etrans.
Qed.

Lemma sessions_same db db' : keeps sessions db db' → sessions_kept db db'.
Proof. unfold keeps. intros E i s Hs. rewrite E. by exists s. Qed.

Lemma mark_kept reason now s : Session.revokedAt s = None → session_kept s (mark_revoked reason now s).
Proof. by repeat split. Qed.

Lemma issue_session_kept sign u e i now : Respects sessions_kept (issue_session sign u e i now).
Proof.
  unfold issue_session. intros db. unfold mbind, M_bind, gets, guardM, lift, modify, throw_if.
  case_bool_decide as Hn; [done|]. cbn. intros j s Hs. cbn.
  rewrite lookup_insert_ne; [by exists s|]. intros ->. apply Hn. by eexists.
Qed.
Lemma revoke_kept i reason now : Respects sessions_kept (revoke i reason now).
Proof.
  intros db j s Hs. cbn. rewrite map_lookup_imap, Hs. cbn.
  destruct (bool_decide (j = i) && bool_decide (Session.revokedAt s = None)) eqn:E; eexists;
    (split; [done|]); [|done]. bprop. by apply mark_kept.
Qed.
Lemma revokeAll_kept u reason now : Respects sessions_kept (revokeAllForUser u reason now).
Proof.
  intros db j s Hs. unfold revokeAllForUser, mbind, M_bind, gets, modify, upd_sessions.
  cbn [snd mret M_ret sessions]. rewrite lookup_fmap, Hs. eexists. split; [done|].
  destruct (revocable u s) eqn:E; [|done]. unfold revocable in E. bprop. by apply mark_kept.
Qed.

(** Nothing is live on a revoked row, now or later. *)
Lemma revoked_dead db db' claims now s :
  sessions_kept db db' → sessions db !! cl_sid claims = Some s → Session.revokedAt s ≠ None →
  session_live db' claims now = false.
Proof.
  intros Hk Hs Hr. destruct (Hk _ _ Hs) as (s' & Hs' & _ & _ & E).
  apply not_true_iff_false. intros (s'' & a & H)%session_live_spec.
  pose proof (ls_row _ _ _ _ _ H) as H1. pose proof (ls_unrevoked _ _ _ _ _ H) as H2. cbn in H1.
  rewrite Hs' in H1. injection H1 as <-. apply Hr. by rewrite <- (E Hr).
Qed.
