(* ===== verification/Scope.v ===== *)
(** The scoped repository of authz/tenant-scope.ts on the typed store, one
    instance per accessor of authz/tenant-scope.factory.ts, and the proof that
    no statement issued through it can touch a row of another organization.

    A [where] clause of the caller is a boolean function of the key and the row;
    it is always conjoined with the tenant predicate. *)
From Stdlib Require Import ZArith Lia.
From S2P Require Import Prelude Js Permissions RetryRules AuditTrail Db.

Definition CROSS_TENANT_MESSAGE : string := "Resource not found.".

(** ** Tenancy of a row *)

Definition in_tenant {R} `{Table R} (c : Ctx) (db : Db) (id : string) (r : R) : bool :=
  tenantPredicate t_kind c db (t_cols id r).

(** The rows a statement addresses: [AND: [tenantPredicate, where]]. *)
Definition matching {R} `{Table R} (c : Ctx) (db : Db) (p : string → R → bool) : gmap string R :=
  filter (λ kv, in_tenant c db kv.1 kv.2 && p kv.1 kv.2 = true) (tbl db).

Definition find {R} `{Table R} (c : Ctx) (db : Db) (id : string) : option R :=
  r ← tbl db !! id; if in_tenant c db id r then Some r else None.

(** Does the id name a row of this tenant?  A null reference is not checked. *)
Definition owned {R} `{Table R} (c : Ctx) (db : Db) (id : string) : bool :=
  if find (R:=R) c db id is Some _ then true else false.
Definition owned_opt {R} `{Table R} (c : Ctx) (db : Db) (id : option string) : bool :=
  if id is Some i then owned (R:=R) c db i else true.

(** ** Constraints of a table *)

(** The declared tenant-owned foreign keys of a repository, and what PostgreSQL
    enforces: the unique index beside the primary key, with the columns a
    violation of it reports, and [ON DELETE SET NULL]. *)
Class Repo (R : Type) `{Table R} : Type := {
  fks_owned : Ctx → Db → R → bool;
  unique_target : string;
  unique_violation : Db → R → bool;
  on_delete : string → Db → Db
}.

Definition exists_row {R} (m : gmap string R) (p : R → bool) : bool :=
  existsb (λ kv, p kv.2) (map_to_list m).

Lemma exists_row_false {R} (m : gmap string R) p :
  exists_row m p = false ↔ ∀ i r, m !! i = Some r → p r = false.
Proof.
  unfold exists_row. rewrite <- not_true_iff_false, existsb_True. split.
  - intros Hn i r Hr. apply not_true_iff_false. intros Hp. apply Hn. exists (i, r).
    split; [by apply elem_of_map_to_list|done].
  - intros Hn ([i r] & Hi%elem_of_map_to_list & Hp). cbn in Hp. by rewrite (Hn i r Hi) in Hp.
Qed.

#[export] Instance Organization_repo : Repo Organization.t := {|
  fks_owned _ _ _ := true;
  unique_target := "slug";
  unique_violation db r :=
    exists_row (organizations db) (λ o, bool_decide (Organization.slug o = Organization.slug r));
  on_delete _ db := db
|}.
#[export] Instance Project_repo : Repo Project.t := {|
  fks_owned _ _ _ := true;
  unique_target := "organization_id,slug";
  unique_violation db r := exists_row (projects db) (λ q,
    bool_decide (Project.organizationId q = Project.organizationId r ∧ Project.slug q = Project.slug r));
  on_delete _ db := db
|}.
#[export] Instance Member_repo : Repo Member.t := {|
  fks_owned _ _ _ := true;
  unique_target := "organization_id,user_id";
  unique_violation db r := exists_row (members db) (λ m,
    bool_decide (Member.organizationId m = Member.organizationId r ∧ Member.userId m = Member.userId r));
  on_delete id := upd_apiKeys (fmap (λ k,
    if bool_decide (ApiKey.createdByMembershipId k = Some id)
    then ApiKey.mk (ApiKey.projectId k) (ApiKey.name k) (ApiKey.keyHash k) (ApiKey.keyPrefix k)
           (ApiKey.scopes k) (ApiKey.live k) (ApiKey.expiresAt k) (ApiKey.lastUsedAt k)
           (ApiKey.revokedAt k) (ApiKey.createdByUserId k) None (ApiKey.createdAt k)
           (ApiKey.updatedAt k)
    else k))
|}.
#[export] Instance ApiKey_repo : Repo ApiKey.t := {|
  fks_owned _ _ _ := true;
  unique_target := "key_hash";
  unique_violation db r :=
    exists_row (apiKeys db) (λ k, bool_decide (ApiKey.keyHash k = ApiKey.keyHash r));
  on_delete _ db := db
|}.
#[export] Instance RetryPolicy_repo : Repo RetryPolicy.t := {|
  fks_owned _ _ _ := true;
  unique_target := EmptyString;
  unique_violation _ _ := false;
  on_delete id := upd_endpoints (fmap (λ e,
    if bool_decide (Endpoint.retryPolicyId e = Some id) then Endpoint.set_retryPolicyId None e else e))
|}.
#[export] Instance RateLimitPolicy_repo : Repo RateLimitPolicy.t := {|
  fks_owned _ _ _ := true;
  unique_target := "project_id,scope,resource_id";
  (* NULLS NOT DISTINCT: a null resource_id is a value like any other *)
  unique_violation db r := exists_row (rateLimitPolicies db) (λ q,
    bool_decide (RateLimitPolicy.projectId q = RateLimitPolicy.projectId r
      ∧ RateLimitPolicy.scope q = RateLimitPolicy.scope r
      ∧ RateLimitPolicy.resourceId q = RateLimitPolicy.resourceId r));
  on_delete _ db := db
|}.
#[export] Instance Endpoint_repo : Repo Endpoint.t := {|
  fks_owned c db r := owned_opt (R:=RetryPolicy.t) c db (Endpoint.retryPolicyId r);
  unique_target := EmptyString;
  unique_violation _ _ := false;
  on_delete _ db := db
|}.
#[export] Instance Subscription_repo : Repo Subscription.t := {|
  fks_owned c db r := owned (R:=Endpoint.t) c db (Subscription.endpointId r);
  unique_target := EmptyString;
  unique_violation _ _ := false;
  on_delete _ db := db
|}.
#[export] Instance EndpointSecret_repo : Repo EndpointSecret.t := {|
  fks_owned c db r := owned (R:=Endpoint.t) c db (EndpointSecret.endpointId r);
  unique_target := "endpoint_id,version";
  unique_violation db r := exists_row (endpointSecrets db) (λ s,
    bool_decide (EndpointSecret.endpointId s = EndpointSecret.endpointId r
                 ∧ EndpointSecret.version s = EndpointSecret.version r));
  on_delete _ db := db
|}.
#[export] Instance Event_repo : Repo Event.t := {|
  fks_owned _ _ _ := true; unique_target := EmptyString; unique_violation _ _ := false; on_delete _ db := db
|}.
#[export] Instance EventOutbox_repo : Repo EventOutbox.t := {|
  fks_owned c db r := owned (R:=Event.t) c db (EventOutbox.eventId r);
  unique_target := EmptyString;
  unique_violation _ _ := false;
  on_delete _ db := db
|}.
#[export] Instance Delivery_repo : Repo Delivery.t := {|
  fks_owned c db r :=
    owned (R:=Event.t) c db (Delivery.eventId r)
    && owned (R:=Endpoint.t) c db (Delivery.endpointId r)
    && owned_opt (R:=Subscription.t) c db (Delivery.subscriptionId r)
    && owned_opt (R:=Delivery.t) c db (Delivery.replayOfDeliveryId r);
  unique_target := "event_id,endpoint_id";
  (* deliveries_event_endpoint_original_key, a partial index *)
  unique_violation db r :=
    bool_decide (Delivery.replayOfDeliveryId r = None)
    && exists_row (deliveries db) (λ d,
         bool_decide (Delivery.replayOfDeliveryId d = None
                      ∧ Delivery.eventId d = Delivery.eventId r
                      ∧ Delivery.endpointId d = Delivery.endpointId r));
  on_delete _ db := db
|}.
#[export] Instance DeliveryAttempt_repo : Repo DeliveryAttempt.t := {|
  fks_owned c db r := owned (R:=Delivery.t) c db (DeliveryAttempt.deliveryId r);
  unique_target := "delivery_id,attempt_number";
  unique_violation db r := exists_row (deliveryAttempts db) (λ a,
    bool_decide (DeliveryAttempt.deliveryId a = DeliveryAttempt.deliveryId r
                 ∧ DeliveryAttempt.attemptNumber a = DeliveryAttempt.attemptNumber r));
  on_delete _ db := db
|}.
#[export] Instance Destination_repo : Repo Destination.t := {|
  fks_owned _ _ _ := true;
  unique_target := "project_id,kind,target";
  unique_violation db r :=
    exists_row (destinations db) (λ d,
      bool_decide (Destination.projectId d = Destination.projectId r
                   ∧ Destination.kind d = Destination.kind r ∧ Destination.target d = Destination.target r)
      || (if Destination.confirmationTokenHash r is Some h
          then bool_decide (Destination.confirmationTokenHash d = Some h) else false));
  on_delete id := upd_dispatches (filter (λ kv, kv.1.1 ≠ id))
|}.


(** The error of the driver on a unique violation: code P2002, with the columns
    of the index as its target. *)
Definition P2002 (target : string) : string := "P2002:" +:+ target.

(** [uniqueViolationTarget]: null when the error is something else.  Column
    names are in lower case. *)
Definition uniqueViolationTarget (e : app_error) : option string :=
  if bool_decide (err_code e = internal_error) && String.prefix "P2002:" (err_msg e)
  then Some (String.substring 6 (String.length (err_msg e)) (err_msg e)) else None.

(** [String.prototype.includes] *)
Definition includes (s sub : string) : bool := if String.index 0 sub s is Some _ then true else false.

(** ** Statements *)

(** The tenant columns a new row must carry.  A strategy that reaches the
    tenant through a parent stamps nothing. *)
Record TenantColumns : Type := { tc_org : string; tc_project : string }.
Definition tenantColumns (k : TenantScopeKind) (c : Ctx) : result TenantColumns :=
  match k with
  | organization => Ok {| tc_org := ctx_org c; tc_project := EmptyString |}
  | project | projectAndOrganization | delivery =>
      p ← requireProject c; Ok {| tc_org := ctx_org c; tc_project := p |}
  | organizationSelf =>
      throw internal_error "rows cannot be created by a scoped repository"
  | viaEndpoint | viaEvent | viaDelivery => Ok {| tc_org := EmptyString; tc_project := EmptyString |}
  end.

Section Statements.
  Context {R : Type} `{Table R} `{!Repo R} (c : Ctx).

Definition findById (id : string) : M Db (option R) := gets (λ db, find c db id).

Definition requireById (id : string) : M Db R :=
  r ← findById id;
  match r with
  | Some r => mret r
  | None => throwM not_found CROSS_TENANT_MESSAGE
  end.

Definition findFirst (p : string → R → bool) : M Db (option (string * R)) :=
  gets (λ db, head (map_to_list (matching c db p))).

(** Every matching row, in key order. *)
Definition findAll (p : string → R → bool) : M Db (list (string * R)) :=
  gets (λ db, map_to_list (matching c db p)).

Definition count (p : string → R → bool) : M Db Z :=
  gets (λ db, Z.of_nat (size (matching c db p))).

(** The statement [UPDATE ... WHERE]: matched rows are rewritten. *)
Definition update_rows (db : Db) (p : string → R → bool) (f : R → R) : gmap string R :=
  map_imap (λ id r, Some (if in_tenant c db id r && p id r then f r else r)) (tbl db).

Definition updateMany (p : string → R → bool) (f : R → R) : M Db Z :=
  n ← count p;
  _ ← modify (λ db, upd_tbl (λ _, update_rows db p f) db);
  mret n.

(** Update and read back in one transaction. *)
Definition updateById (id : string) (f : R → R) : M Db R :=
  transact (
    n ← updateMany (λ i _, bool_decide (i = id)) f;
    _ ← guardM (n =? 0)%Z not_found CROSS_TENANT_MESSAGE;
    requireById id).

(** The same for an update of the columns of the unique index, which PostgreSQL
    checks against the other rows. *)
Definition updateById_unique (id : string) (f : R → R) : M Db R :=
  clash ← gets (λ db, if find c db id is Some r
                      then unique_violation (upd_tbl (delete id) db) (f r) else false);
  _ ← guardM clash internal_error (P2002 unique_target);
  updateById id f.

(** [create]: stamp, prove the foreign keys owned, insert. *)
Definition create (id : string) (mk : TenantColumns → R) : M Db R :=
  t ← lift (tenantColumns t_kind c);
  ok ← gets (λ db, fks_owned c db (mk t));
  _ ← guardM (negb ok) not_found CROSS_TENANT_MESSAGE;
  clash ← gets (λ db, bool_decide (is_Some (tbl db !! id)));
  _ ← guardM clash internal_error (P2002 "id");
  clash ← gets (λ db, unique_violation db (mk t));
  _ ← guardM clash internal_error (P2002 unique_target);
  _ ← modify (upd_tbl (insert id (mk t)));
  mret (mk t).

Definition deleteMany (p : string → R → bool) : M Db Z :=
  n ← count p;
  ids ← gets (λ db, (map_to_list (matching c db p)).*1);
  _ ← modify (λ db, upd_tbl (λ m, m ∖ matching c db p) db);
  _ ← forM ids (λ id, modify (on_delete id));
  mret n.

Definition deleteById (id : string) : M Db unit :=
  n ← deleteMany (λ i _, bool_decide (i = id));
  guardM (n =? 0)%Z not_found CROSS_TENANT_MESSAGE.

End Statements.

(** ** The audit hook *)

(** [TenantAudit.record], which is [AuditService.recordFor]: organization and
    actor come from the context, the resolved project overrides a
    [project_id] of the caller's. *)
Definition set_key (k : jsstr) (v : meta) (l : list (jsstr * meta)) : list (jsstr * meta) :=
  if existsb (λ kv, seqb kv.1 k) l
  then map (λ kv, if seqb kv.1 k then (k, v) else kv) l
  else l ++ [(k, v)].

Definition recordFor (c : Ctx) (action resourceType : string) (resourceId : option string)
    (metadata : list (jsstr * meta)) : M Db unit :=
  let metadata :=
    match ctx_project c with
    | Some p => set_key (js "project_id") (MStr (js p)) metadata
    | None => metadata
    end in
  modify (upd_auditLogs (λ l, l ++ [AuditLog.mk (ctx_org c) (Some (ctx_user c)) action
    resourceType resourceId (sanitise (Some metadata))])).

(** ** Isolation *)

Definition endpoint_org (db : Db) (e : string) : option string :=
  p ← endpoint_project db e; project_org db p.

(** The organization a row belongs to, by the ownership chain. *)
Definition owner_org (k : TenantScopeKind) (db : Db) (x : cols) : option string :=
  match k with
  | organization | projectAndOrganization => x_org x
  | organizationSelf => Some (x_id x)
  | project => p ← x_project x; project_org db p
  | viaEndpoint | delivery => e ← x_endpoint x; endpoint_org db e
  | viaEvent => e ← x_event x; Event.organizationId <$> events db !! e
  | viaDelivery => d ← x_delivery x; r ← deliveries db !! d; endpoint_org db (Delivery.endpointId r)
  end.

(** Every row of another organization is still there, unchanged. *)
Definition kept {R} `{Table R} (c : Ctx) (db db' : Db) : Prop :=
  ∀ id (r : R) o, tbl db !! id = Some r →
    owner_org t_kind db (t_cols id r) = Some o → o ≠ ctx_org c → tbl db' !! id = Some r.

Record foreign_kept (c : Ctx) (db db' : Db) : Prop := {
  fk_organizations : kept (R:=Organization.t) c db db';
  fk_projects : kept (R:=Project.t) c db db';
  fk_members : kept (R:=Member.t) c db db';
  fk_apiKeys : kept (R:=ApiKey.t) c db db';
  fk_endpoints : kept (R:=Endpoint.t) c db db';
  fk_endpointSecrets : kept (R:=EndpointSecret.t) c db db';
  fk_endpointHealth : kept (R:=EndpointHealth.t) c db db';
  fk_subscriptions : kept (R:=Subscription.t) c db db';
  fk_retryPolicies : kept (R:=RetryPolicy.t) c db db';
  fk_rateLimitPolicies : kept (R:=RateLimitPolicy.t) c db db';
  fk_events : kept (R:=Event.t) c db db';
  fk_eventOutbox : kept (R:=EventOutbox.t) c db db';
  fk_deliveries : kept (R:=Delivery.t) c db db';
  fk_deliveryAttempts : kept (R:=DeliveryAttempt.t) c db db';
  fk_destinations : kept (R:=Destination.t) c db db';
  fk_audit : ∃ l, auditLogs db' = auditLogs db ++ l
               ∧ Forall (λ a, AuditLog.organizationId a = ctx_org c) l
}.

(** The resolver only builds a context whose project is in its organization. *)
Definition ctx_ok (c : Ctx) (db : Db) : Prop :=
  ∀ p pr, ctx_project c = Some p → projects db !! p = Some pr →
    Project.organizationId pr = ctx_org c.

(** What a tenant's statements may do to the database. *)
Definition safe (c : Ctx) (db db' : Db) : Prop :=
  ctx_ok c db → foreign_kept c db db' ∧ ctx_ok c db'.

Lemma owner_stable c k db db' x o :
  foreign_kept c db db' → owner_org k db x = Some o → o ≠ ctx_org c →
  owner_org k db' x = Some o.
Proof.
  intros Hk. assert (∀ p, project_org db p = Some o → o ≠ ctx_org c → project_org db' p = Some o) as Hp.
  { unfold project_org. intros p (pr & Hpr & ->)%fmap_Some Hne. apply fmap_Some.
    exists pr. split; [|done]. by eapply (fk_projects _ _ _ Hk). }
  assert (∀ e, endpoint_org db e = Some o → o ≠ ctx_org c → endpoint_org db' e = Some o) as He.
  { unfold endpoint_org, endpoint_project. intros e (p & (er & Her & ->)%fmap_Some & Ho)%bind_Some Hne.
    apply bind_Some. exists (Endpoint.projectId er). split; [|by apply Hp].
    apply fmap_Some. exists er. split; [|done]. by eapply (fk_endpoints _ _ _ Hk). }
  destruct k; cbn [owner_org]; try done; intros (y & Hx & Ho)%bind_Some Hne;
    apply bind_Some; exists y; (split; [done|]); auto.
  - apply fmap_Some in Ho as (ev & Hev & ->). apply fmap_Some. exists ev. split; [|done].
    by eapply (fk_events _ _ _ Hk).
  - apply bind_Some in Ho as (d & Hd & Ho). apply bind_Some. exists d. split; [|by apply He].
    by eapply (fk_deliveries _ _ _ Hk).
Qed.

Lemma kept_refl {R} `{Table R} c db : kept (R:=R) c db db.
Proof. by intros id r o. Qed.

Lemma kept_trans {R} `{Table R} c db db' db'' :
  foreign_kept c db db' → kept (R:=R) c db db' → kept (R:=R) c db' db'' → kept (R:=R) c db db''.
Proof.
  intros Hk H1 H2 id r o Hr Ho Hne. eapply H2; [by eapply H1| |done].
  by eapply owner_stable.
Qed.

#[export] Instance safe_preorder c : PreOrder (safe c).
Proof.
  split.
  - intros db Hc. split; [|done]. split; try apply kept_refl. exists []. by rewrite app_nil_r.
  - intros db db' db'' H1 H2 Hc. destruct (H1 Hc) as [K1 Hc']. destruct (H2 Hc') as [K2 Hc''].
    split; [|done].
    destruct (fk_audit _ _ _ K1) as (l1 & E1 & F1). destruct (fk_audit _ _ _ K2) as (l2 & E2 & F2).
    split; try (eapply kept_trans; [exact K1|apply K1|apply K2]).
    exists (l1 ++ l2). rewrite E2, E1, app_assoc. split; [done|]. by apply Forall_app.
Qed.

(** What the proofs need of a table: it is a component of the database, and
    changing only rows outside every other organization, into rows that do not
    claim another organization, is safe. *)
Class TableLaws (R : Type) `{Table R} : Prop := {
  tbl_upd f db : tbl (upd_tbl f db) = f (tbl db);
  upd_ext f g db : f (tbl db) = g (tbl db) → upd_tbl f db = upd_tbl g db;
  upd_same db : upd_tbl (λ m, m) db = db;
  upd_upd f g db : upd_tbl f (upd_tbl g db) = upd_tbl (λ m, f (g m)) db;
  org_column id r : x_org (t_cols id r) = None ∨
    ∀ c db, tenantPredicate t_kind c db (t_cols id r) = true → x_org (t_cols id r) = Some (ctx_org c);
  upd_safe c db f :
    (∀ id r o, tbl db !! id = Some r → owner_org t_kind db (t_cols id r) = Some o →
       o ≠ ctx_org c → f (tbl db) !! id = Some r) →
    (∀ id r, f (tbl db) !! id = Some r → tbl db !! id = Some r ∨
       x_org (t_cols id r) = None ∨ x_org (t_cols id r) = Some (ctx_org c)) →
    safe c db (upd_tbl f db)
}.

Lemma both_match_org c o p : both_match c o p = true → o = Some (ctx_org c).
Proof. unfold both_match, eqo. destruct (ctx_project c); intros H; bprop; done. Qed.

Ltac unfold_upd :=
  unfold upd_organizations, upd_projects, upd_members, upd_apiKeys, upd_endpoints,
    upd_endpointSecrets, upd_endpointHealth, upd_subscriptions, upd_retryPolicies,
    upd_rateLimitPolicies, upd_events, upd_eventOutbox, upd_deliveries, upd_deliveryAttempts, upd_destinations; cbn.
Ltac table_laws :=
  split;
  [ done
  | intros f g [] E; cbn in *; unfold_upd; by rewrite E
  | by intros []
  | done
  | intros id r; first [by left | right; intros c db; cbn; unfold eqo, delivery_matches; intros; bprop;
      eauto using both_match_org]
  | intros c db f Hkeep Horg Hc; split;
    [ split; try (intros id r o; cbn; done); try exact Hkeep; exists []; cbn;
      by rewrite app_nil_r
    | intros p pr Hp; cbn; first [by apply Hc | intros Hpr;
      destruct (Horg p pr Hpr) as [?|[|[=]]]; [by eapply Hc|done|done]] ] ].

#[export] Instance Organization_laws : TableLaws Organization.t.
Proof. table_laws. Qed.
#[export] Instance Member_laws : TableLaws Member.t.
Proof. table_laws. Qed.
#[export] Instance Project_laws : TableLaws Project.t.
Proof. table_laws. Qed.
#[export] Instance ApiKey_laws : TableLaws ApiKey.t.
Proof. table_laws. Qed.
#[export] Instance Endpoint_laws : TableLaws Endpoint.t.
Proof. table_laws. Qed.
#[export] Instance EndpointSecret_laws : TableLaws EndpointSecret.t.
Proof. table_laws. Qed.
#[export] Instance EndpointHealth_laws : TableLaws EndpointHealth.t.
Proof. table_laws. Qed.
#[export] Instance Subscription_laws : TableLaws Subscription.t.
Proof. table_laws. Qed.
#[export] Instance RetryPolicy_laws : TableLaws RetryPolicy.t.
Proof. table_laws. Qed.
#[export] Instance RateLimitPolicy_laws : TableLaws RateLimitPolicy.t.
Proof. table_laws. Qed.
#[export] Instance Event_laws : TableLaws Event.t.
Proof. table_laws. Qed.
#[export] Instance EventOutbox_laws : TableLaws EventOutbox.t.
Proof. table_laws. Qed.
#[export] Instance Delivery_laws : TableLaws Delivery.t.
Proof. table_laws. Qed.
#[export] Instance DeliveryAttempt_laws : TableLaws DeliveryAttempt.t.
Proof. table_laws. Qed.
#[export] Instance Destination_laws : TableLaws Destination.t.
Proof. table_laws. Qed.

(** A statement of this tenant never addresses another tenant's row. *)
Lemma in_tenant_owner {R} `{Table R} c db id (r : R) o :
  ctx_ok c db → in_tenant c db id r = true →
  owner_org t_kind db (t_cols id r) = Some o → o = ctx_org c.
Proof.
  intros Hc. unfold in_tenant. destruct (t_cols id r) as [i xo xp xe xv xd].
  assert (∀ p, project_matches c db (Some p) = true → project_org db p = Some o → o = ctx_org c) as Hp.
  { intros p. unfold project_matches, eqo, project_org. destruct (ctx_project c) as [q|] eqn:E.
    - intros Hm (pr & Hpr & ->)%fmap_Some. bprop. simplify_eq. by eapply Hc.
    - cbn. intros Hm Ho. bprop. unfold project_org in Hm. congruence. }
  assert (∀ e, endpoint_matches c db (Some e) = true → endpoint_org db e = Some o → o = ctx_org c) as He.
  { intros e. unfold endpoint_matches, endpoint_org. cbn.
    intros Hm (p & Hep & Ho)%bind_Some. rewrite Hep in Hm. eauto. }
  destruct t_kind; cbn [tenantPredicate owner_org x_org x_id x_project x_endpoint x_event x_delivery];
    unfold eqo, delivery_matches; intros Hm Ho; bprop; try congruence.
  - destruct xp; cbn in Ho; [|done]. eauto.
  - apply both_match_org in Hm. congruence.
  - destruct xe; cbn in Ho; [|done]. eauto.
  - destruct xv as [v|]; cbn in *; [|done]. destruct (events db !! v); cbn in *; [|done].
    apply both_match_org in Hm. congruence.
  - destruct xe; cbn in Ho; [|done]. eauto.
  - destruct xd as [d|]; cbn in *; [|done]. destruct (deliveries db !! d); cbn in *; [|done]. bprop. eauto.
Qed.

(** ** The statements, one by one *)

#[global] Arguments in_tenant : simpl never.
#[global] Arguments matching : simpl never.
#[global] Arguments update_rows : simpl never.
#[global] Arguments find : simpl never.

Section statement_facts.
  Context {R : Type} `{TableLaws R} `{!Repo R} (c : Ctx).

Lemma find_Some db id (r : R) :
  find c db id = Some r ↔ tbl db !! id = Some r ∧ in_tenant c db id r = true.
Proof.
  unfold find. rewrite bind_Some. split.
  - intros (r' & Hr & E). destruct (in_tenant c db id r') eqn:?; naive_solver.
  - intros [Hr Ht]. exists r. by rewrite Ht.
Qed.

Lemma matching_lookup db p id (r : R) :
  matching c db p !! id = Some r
  ↔ tbl db !! id = Some r ∧ in_tenant c db id r = true ∧ p id r = true.
Proof. unfold matching. rewrite map_lookup_filter_Some. cbn. by rewrite andb_true_iff. Qed.

Lemma update_rows_lookup db p (f : R → R) id :
  update_rows c db p f !! id
  = (λ r, if in_tenant c db id r && p id r then f r else r) <$> tbl db !! id.
Proof. unfold update_rows. rewrite map_lookup_imap. by destruct (tbl db !! id). Qed.

Lemma requireById_Ok id db (r : R) db' :
  requireById c id db = (Ok r, db') ↔ find c db id = Some r ∧ db' = db.
Proof.
  unfold requireById, findById. rewrite bindM_Ok. split.
  - intros (o & s & [-> ->]%gets_Ok & E). destruct (find c db id) as [r'|].
    + apply mret_Ok in E as [-> ->]. done.
    + by apply throwM_Ok in E.
  - intros [E ->]. eexists _, db. split; [done|]. by rewrite E.
Qed.

Lemma updateMany_run p (f : R → R) db :
  updateMany c p f db
  = (Ok (Z.of_nat (size (matching c db p))), upd_tbl (λ _, update_rows c db p f) db).
Proof. done. Qed.

(** A successful [updateById] found the row, rewrote it and returns it. *)
Lemma updateById_Ok id (f : R → R) db r' db' :
  updateById c id f db = (Ok r', db') →
  ∃ r, find c db id = Some r ∧ r' = f r
     ∧ db' = upd_tbl (λ _, update_rows c db (λ i _, bool_decide (i = id)) f) db.
Proof.
  unfold updateById. intros Hu. rewrite transact_Ok in Hu.
  apply bindM_Ok in Hu as (n & s & Hn & Hu). rewrite updateMany_run in Hn. injection Hn as <- <-.
  apply bindM_Ok in Hu as (u & s & [Hz ->]%guardM_Ok & Hu).
  apply requireById_Ok in Hu as [Hf ->]. bprop.
  destruct (map_choose (matching c db (λ i (_ : R), bool_decide (i = id)))) as (j & r & Hj).
  { intros E. rewrite E, map_size_empty in Hz. done. }
  apply matching_lookup in Hj as (Hr & Ht & Hp). bprop. subst j.
  exists r. split; [by apply find_Some|]. split; [|done].
  apply find_Some in Hf as [Hf _]. rewrite tbl_upd, update_rows_lookup, Hr in Hf. cbn in Hf.
  rewrite Ht, bool_decide_eq_true_2 in Hf by done. cbn in Hf. congruence.
Qed.

Lemma updateById_unique_Ok id (f : R → R) db r' db' :
  updateById_unique c id f db = (Ok r', db') →
  ∃ r, find c db id = Some r ∧ r' = f r ∧ unique_violation (upd_tbl (delete id) db) (f r) = false
     ∧ db' = upd_tbl (λ _, update_rows c db (λ i _, bool_decide (i = id)) f) db.
Proof.
  unfold updateById_unique. intros Hu. minv. apply updateById_Ok in Hu as (r & Hf & -> & ->).
  rewrite Hf in *. subst. by exists r.
Qed.

Lemma matching_key db id :
  matching c db (λ i (_ : R), bool_decide (i = id))
  = match find c db id with Some r => {[id := r]} | None => ∅ end.
Proof.
  apply map_eq. intros j. apply option_eq. intros r. rewrite matching_lookup.
  destruct (find c db id) as [r'|] eqn:E.
  - apply find_Some in E as [E Ht]. rewrite lookup_singleton_Some. split.
    + intros (Hr & _ & Hj). bprop. simplify_eq. done.
    + intros [<- <-]. by rewrite bool_decide_eq_true_2.
  - rewrite lookup_empty. split; [|done]. intros (Hr & Ht & Hj). bprop. subst j.
    assert (find c db id = Some r) by by apply find_Some. congruence.
Qed.

Lemma deleteById_run id db r :
  find (R:=R) c db id = Some r →
  deleteById (R:=R) c id db = (Ok tt, on_delete id (upd_tbl (delete id) db)).
Proof.
  intros E. unfold deleteById, deleteMany, count, mbind, M_bind, gets, modify. rewrite matching_key, E.
  rewrite map_to_list_singleton, map_size_singleton. cbn. do 2 f_equal. apply upd_ext.
  apply map_eq. intros j. apply option_eq. intros r'. rewrite lookup_difference_Some.
  rewrite lookup_delete_Some, lookup_singleton_None. naive_solver.
Qed.

Lemma deleteById_Ok id db u db' :
  deleteById (R:=R) c id db = (Ok u, db') →
  ∃ r, find (R:=R) c db id = Some r ∧ db' = on_delete id (upd_tbl (delete id) db).
Proof.
  intros Hd. destruct (find c db id) as [r|] eqn:E.
  - rewrite (deleteById_run id db r E) in Hd. injection Hd as <- <-. by exists r.
  - revert Hd. unfold deleteById, deleteMany, count, mbind, M_bind, gets, modify. rewrite matching_key, E.
    rewrite map_to_list_empty, map_size_empty. done.
Qed.

Lemma create_Ok id mk db (r : R) db' :
  create c id mk db = (Ok r, db') ↔
  ∃ t, tenantColumns t_kind c = Ok t ∧ r = mk t ∧ fks_owned c db (mk t) = true
    ∧ tbl db !! id = None ∧ unique_violation db (mk t) = false
    ∧ db' = upd_tbl (insert id (mk t)) db.
Proof.
  unfold create. split.
  - intros Hc. minv. bprop. subst. bprop. eexists. split_and!; try done.
    by apply eq_None_not_Some.
  - intros (t & Ht & -> & Hfk & Hid & Hu & ->). unfold mbind, M_bind.
    unfold lift, gets, guardM, modify. rewrite Ht, Hfk. cbn. rewrite Hu.
    rewrite bool_decide_eq_false_2 by (rewrite Hid; by intros [? ?]). done.
Qed.

Lemma create_Throw id (mk : TenantColumns → R) db e db' :
  create c id mk db = (Throw e, db') → db' = db.
Proof.
  unfold create, mbind, M_bind, lift, gets, guardM, modify. intros E.
  destruct (tenantColumns t_kind c); [|naive_solver]. cbn in E.
  destruct (throw_if (negb _) _ _); [|naive_solver]. cbn in E.
  destruct (throw_if _ _ _); [|naive_solver]. cbn in E.
  destruct (throw_if _ _ _); naive_solver.
Qed.

Lemma matched_not_foreign db p id (r : R) o :
  ctx_ok c db → owner_org t_kind db (t_cols id r) = Some o → o ≠ ctx_org c →
  in_tenant c db id r && p id r = false.
Proof.
  intros Hc Ho Hne. destruct (in_tenant c db id r) eqn:E; [|done].
  exfalso. by eapply Hne, in_tenant_owner.
Qed.

Lemma updateMany_safe p (f : R → R) :
  (∀ id r, x_org (t_cols id (f r)) = x_org (t_cols id r)) →
  Respects (safe c) (updateMany c p f).
Proof.
  intros Hf db. rewrite updateMany_run. intros Hc. apply upd_safe; [| |done].
  - intros id r o Hr Ho Hne. rewrite update_rows_lookup, Hr. cbn.
    by rewrite (matched_not_foreign db p id r o).
  - intros id r. rewrite update_rows_lookup. intros (r0 & Hr & ->)%fmap_Some.
    destruct (in_tenant c db id r0) eqn:E; cbn; [|by left]. destruct (p id r0); [|by left].
    right. rewrite Hf. destruct (org_column id r0) as [|Ho]; [by left|].
    right. by eapply Ho.
Qed.

Lemma requireById_safe id : Respects (safe c) (requireById (R:=R) c id).
Proof. unfold requireById, findById. respects. Qed.

Lemma updateById_safe id (f : R → R) :
  (∀ id r, x_org (t_cols id (f r)) = x_org (t_cols id r)) →
  Respects (safe c) (updateById c id f).
Proof.
  intros Hf. unfold updateById. repeat respects_step.
  - by apply updateMany_safe.
  - apply requireById_safe.
Qed.

Lemma create_safe id (mk : TenantColumns → R) :
  (∀ t, tenantColumns t_kind c = Ok t →
     x_org (t_cols id (mk t)) = None ∨ x_org (t_cols id (mk t)) = Some (ctx_org c)) →
  Respects (safe c) (create c id mk).
Proof.
  intros Hmk db. destruct (create c id mk db) as [[r|e] db'] eqn:E; cbn [snd].
  - apply create_Ok in E as (t & Ht & -> & _ & Hid & _ & ->). intros Hc.
    apply upd_safe; [| |done].
    + intros i r o Hr _ _. rewrite lookup_insert_ne; [done|]. intros ->. congruence.
    + intros i r. destruct (decide (i = id)) as [->|Hne].
      * rewrite lookup_insert_eq. intros [= <-]. right. by apply Hmk.
      * rewrite lookup_insert_ne by done. by left.
  - apply create_Throw in E as ->. done.
Qed.

Lemma deleteMany_safe (p : string → R → bool) :
  (∀ id, Respects (safe c) (modify (on_delete id))) → Respects (safe c) (deleteMany c p).
Proof.
  intros Hd. unfold deleteMany, count. repeat respects_step; try apply Hd.
  intros db Hc. cbn [modify snd]. apply upd_safe; [| |done].
  - intros id r o Hr Ho Hne. apply lookup_difference_Some. split; [done|].
    apply eq_None_not_Some. intros [r' (Hr' & Ht & _)%matching_lookup]. simplify_eq.
    by eapply Hne, in_tenant_owner.
  - intros id r [Hr _]%lookup_difference_Some. by left.
Qed.

Lemma deleteById_safe id :
  (∀ id, Respects (safe c) (modify (on_delete id))) → Respects (safe c) (deleteById (R:=R) c id).
Proof. intros Hd. unfold deleteById. repeat respects_step. by apply deleteMany_safe. Qed.
End statement_facts.

Lemma recordFor_safe c action ty id metadata :
  Respects (safe c) (recordFor c action ty id metadata).
Proof.
  intros db Hc. split; [|exact Hc]. split; try (intros i r o; unfold recordFor; cbn; done).
  eexists. split; [reflexivity|]. by apply Forall_singleton.
Qed.

Lemma findById_safe {R} `{Table R} c id : Respects (safe c) (findById (R:=R) c id).
Proof. unfold findById. respects. Qed.
Lemma findFirst_safe {R} `{Table R} c p : Respects (safe c) (findFirst (R:=R) c p).
Proof. unfold findFirst. respects. Qed.
Lemma findAll_safe {R} `{Table R} c p : Respects (safe c) (findAll (R:=R) c p).
Proof. unfold findAll. respects. Qed.
Lemma count_safe {R} `{Table R} c p : Respects (safe c) (count (R:=R) c p).
Proof. unfold count. respects. Qed.

#[export] Hint Resolve findById_safe findFirst_safe findAll_safe count_safe requireById_safe
  recordFor_safe : respects.
#[export] Hint Extern 2 (Respects _ (updateMany _ _ _)) =>
  apply updateMany_safe; intros; reflexivity : respects.
#[export] Hint Extern 2 (Respects _ (updateById _ _ _)) =>
  apply updateById_safe; intros; reflexivity : respects.
#[export] Hint Extern 2 (Respects _ (create _ _ _)) =>
  apply create_safe; intros; by left : respects.

(** *** Deletes and what hangs off the rows they remove *)

(** References that stay in an organization, as the foreign-key check of [create] and
    [updateById] keeps them: the retry policy of an endpoint, the membership an API key
    was issued under. *)
Record refs_own (db : Db) : Prop := {
  ref_policy e r i p o : endpoints db !! e = Some r → Endpoint.retryPolicyId r = Some i →
    retryPolicies db !! i = Some p → project_org db (Endpoint.projectId r) = Some o → project_org db (RetryPolicy.projectId p) = Some o;
  ref_membership k r i m o : apiKeys db !! k = Some r → ApiKey.createdByMembershipId r = Some i →
    members db !! i = Some m → project_org db (ApiKey.projectId r) = Some o → Member.organizationId m = o
}.

(** The whole fence: the rows of other organizations in every table of a tenant, the
    record of the alerts sent to their destinations, and the tables that have no tenant. *)
Record fence (c : Ctx) (db db' : Db) : Prop := {
  fence_rows : foreign_kept c db db';
  fence_dispatches d k x r o : dispatches db !! (d, k) = Some x → destinations db !! d = Some r →
    project_org db (Destination.projectId r) = Some o → o ≠ ctx_org c → dispatches db' !! (d, k) = Some x;
  fence_users : users db' = users db;
  fence_sessions : sessions db' = sessions db;
  fence_userTokens : userTokens db' = userTokens db
}.

(** Nothing but tenant tables and their cascades. *)
Definition untouched (db db' : Db) : Prop :=
  dispatches db' = dispatches db ∧ users db' = users db ∧ sessions db' = sessions db ∧ userTokens db' = userTokens db.
#[export] Instance untouched_preorder : PreOrder untouched.
Proof. split; [by intros db|]. intros a b d (?&?&?&?) (?&?&?&?). unfold untouched. split_and!; congruence. Qed.

(** What the fence needs of a repository: its table is apart from the others, and the
    cascade of a row of this tenant, run anywhere behind the fence, stays behind it. *)
Class RepoLaws (R : Type) `{TableLaws R} `{!Repo R} : Prop := {
  upd_untouched f db : untouched db (upd_tbl f db);
  on_delete_fence c db db' id r : ctx_ok c db → refs_own db → find (R:=R) c db id = Some r →
    fence c db db' → fence c db (on_delete id db')
}.

Lemma fence_of c db db' : foreign_kept c db db' → untouched db db' → fence c db db'.
Proof. intros Hk (Hd & Hu & Hs & Ht). split; try done. intros. by rewrite Hd. Qed.

Ltac repo_laws := split; [intros f []; done|intros c db db' id r _ _ _ Hf; exact Hf].
#[export] Instance Organization_repo_laws : RepoLaws Organization.t.
Proof. repo_laws. Qed.
#[export] Instance Project_repo_laws : RepoLaws Project.t.
Proof. repo_laws. Qed.
#[export] Instance ApiKey_repo_laws : RepoLaws ApiKey.t.
Proof. repo_laws. Qed.
#[export] Instance RateLimitPolicy_repo_laws : RepoLaws RateLimitPolicy.t.
Proof. repo_laws. Qed.
#[export] Instance Endpoint_repo_laws : RepoLaws Endpoint.t.
Proof. repo_laws. Qed.
#[export] Instance Subscription_repo_laws : RepoLaws Subscription.t.
Proof. repo_laws. Qed.
#[export] Instance EndpointSecret_repo_laws : RepoLaws EndpointSecret.t.
Proof. repo_laws. Qed.
#[export] Instance Event_repo_laws : RepoLaws Event.t.
Proof. repo_laws. Qed.
#[export] Instance EventOutbox_repo_laws : RepoLaws EventOutbox.t.
Proof. repo_laws. Qed.
#[export] Instance Delivery_repo_laws : RepoLaws Delivery.t.
Proof. repo_laws. Qed.
#[export] Instance DeliveryAttempt_repo_laws : RepoLaws DeliveryAttempt.t.
Proof. repo_laws. Qed.

#[export] Instance RetryPolicy_repo_laws : RepoLaws RetryPolicy.t.
Proof.
  split; [intros f []; done|]. intros c db db' id p Hc Hr Hp [Hk Hd ???]. split; try done.
  apply find_Some in Hp as [Hp Ht]. destruct Hk. split; try assumption.
  intros e r o He Ho Hne. pose proof (fk_endpoints0 e r o He Ho Hne) as Hx. cbn in Hx |- *.
  rewrite lookup_fmap, Hx. cbn. f_equal.
  case_bool_decide as E; [|done]. exfalso. apply Hne.
  eapply (in_tenant_owner (R:=RetryPolicy.t) c db id p o Hc Ht). exact (ref_policy _ Hr e r id p o He E Hp Ho).
Qed.
#[export] Instance Member_repo_laws : RepoLaws Member.t.
Proof.
  split; [intros f []; done|]. intros c db db' id m Hc Hr Hm [Hk Hd ???]. split; try done.
  apply find_Some in Hm as [Hm Ht]. destruct Hk. split; try assumption.
  intros k r o He Ho Hne. pose proof (fk_apiKeys0 k r o He Ho Hne) as Hx. cbn in Hx |- *.
  rewrite lookup_fmap, Hx. cbn. f_equal.
  case_bool_decide as E; [|done]. exfalso. apply Hne.
  eapply (in_tenant_owner (R:=Member.t) c db id m o Hc Ht). cbn. f_equal. exact (ref_membership _ Hr k r id m o He E Hm Ho).
Qed.
#[export] Instance Destination_repo_laws : RepoLaws Destination.t.
Proof.
  split; [intros f []; done|]. intros c db db' id r Hc _ Hm [Hk Hd ???]. split; try done.
  - by destruct Hk.
  - apply find_Some in Hm as [Hm Ht]. intros d k x r' o Hx Hr' Ho Hne. cbn. apply map_lookup_filter_Some.
    split; [by eapply Hd|]. cbn. intros ->. apply Hne. cbn in Hm. simplify_eq.
    eapply (in_tenant_owner (R:=Destination.t) c db id r o Hc Ht). exact Ho.
Qed.

Section Fenced.
  Context {R : Type} `{RepoLaws R} (c : Ctx).

Lemma update_rows_fence db p (f : R → R) : ctx_ok c db → (∀ id r, x_org (t_cols id (f r)) = x_org (t_cols id r)) →
  fence c db (upd_tbl (λ _, update_rows c db p f) db).
Proof.
  intros Hc Hf. apply fence_of; [|apply upd_untouched]. exact (proj1 (updateMany_safe c p f Hf db Hc)).
Qed.

Lemma fence_refl db : ctx_ok c db → fence c db db.
Proof. intros Hc. apply fence_of; [|done]. exact (proj1 (reflexivity (R:=safe c) db Hc)). Qed.

Lemma deleteMany_fence db (p : string → R → bool) : ctx_ok c db → refs_own db →
  fence c db (deleteMany (R:=R) c p db).2.
Proof.
  intros Hc Hr. unfold deleteMany, count, mbind, M_bind, gets, modify. cbn [fst snd].
  set (db1 := upd_tbl (λ m, m ∖ matching c db p) db).
  assert (fence c db db1) as Hf1.
  { apply fence_of; [|apply upd_untouched]. apply upd_safe; [| |done].
    - intros id r o Hrow Ho Hne. apply lookup_difference_Some. split; [done|].
      apply eq_None_not_Some. intros [r' (Hr' & Ht & _)%matching_lookup]. simplify_eq.
      by eapply Hne, in_tenant_owner.
    - intros id r [Hrow _]%lookup_difference_Some. by left. }
  assert (∀ i, i ∈ (map_to_list (matching c db p)).*1 → ∃ r, find (R:=R) c db i = Some r) as Hin.
  { intros i ([j r] & -> & Hj)%list_elem_of_fmap. apply elem_of_map_to_list, matching_lookup in Hj as (? & ? & _).
    exists r. by apply find_Some. }
  revert Hf1 Hin. generalize db1 ((map_to_list (matching c db p)).*1). clear db1. intros db1 ids Hf1 Hin.
  assert (∃ db2, forM ids (λ id s, (Ok tt, on_delete id s)) db1 = (Ok tt, db2) ∧ fence c db db2) as (db2 & E & Hf2).
  { revert db1 Hf1. induction ids as [|i ids IH]; intros db1 Hf1; [by exists db1|].
    destruct (Hin i) as [r Hi]; [by left|]. cbn. apply IH; [intros j Hj; apply Hin; by right|].
    by eapply on_delete_fence. }
  rewrite E. exact Hf2.
Qed.

Lemma deleteById_fence db id : ctx_ok c db → refs_own db → fence c db (deleteById (R:=R) c id db).2.
Proof.
  intros Hc Hr. unfold deleteById, mbind, M_bind.
  pose proof (deleteMany_fence db (λ i _, bool_decide (i = id)) Hc Hr) as Hf.
  destruct (deleteMany c _ db) as [[n|e] db']; [|done]. unfold guardM, lift. by destruct (throw_if _ _ _).
Qed.

Lemma updateById_fence db id (f : R → R) : ctx_ok c db → (∀ i r, x_org (t_cols i (f r)) = x_org (t_cols i r)) →
  fence c db (updateById c id f db).2.
Proof.
  intros Hc Hf. destruct (updateById c id f db) as [[r|e] db'] eqn:E.
  - apply updateById_Ok in E as (r0 & _ & _ & ->). by apply update_rows_fence.
  - replace db' with db; [by apply fence_refl|]. symmetry. eapply transact_Throw. exact E.
Qed.

Lemma create_fence db id mk : ctx_ok c db →
  (∀ t, tenantColumns t_kind c = Ok t → x_org (t_cols id (mk t)) = None ∨ x_org (t_cols id (mk t)) = Some (ctx_org c)) →
  fence c db (create (R:=R) c id mk db).2.
Proof.
  intros Hc Hmk. pose proof (proj1 (create_safe c id mk Hmk db Hc)) as Hs.
  apply fence_of; [exact Hs|]. destruct (create c id mk db) as [[r|e] db'] eqn:E.
  - apply create_Ok in E as (t & _ & _ & _ & _ & _ & ->). apply upd_untouched.
  - by apply create_Throw in E as ->.
Qed.
End Fenced.


(** Two organizations with one endpoint each; the first one's key rewrites and
    deletes everything it can reach. *)
Definition ep (p : string) : Endpoint.t :=
  Endpoint.mk p (js "e") (js "https://a.example/") None EndpointStatus.active true None None
    30000 16 None 1 None None 0 0.
Definition two_orgs : Db :=
  MkDb ∅ ∅ ∅ ∅ ∅
    (<["p1" := Project.mk "o1" (js "p") (js "p") false ProjectStatus.active []]>
     (<["p2" := Project.mk "o2" (js "p") (js "p") false ProjectStatus.active []]> ∅))
    ∅ (<["e1" := ep "p1"]> (<["e2" := ep "p2"]> ∅)) ∅ ∅ ∅ ∅ ∅ ∅ ∅ ∅ ∅ ∅ ∅ [].
Definition ctx_o1 : Ctx := MkCtx "o1" None "m1" owner "u1".

(** Each has a retry policy too, and the first one deletes all it can reach. *)
Definition pol (p : string) : RetryPolicy.t := RetryPolicy.mk p (js "r") false DEFAULT_RETRY_SETTINGS 0 0.
Definition two_policies : Db :=
  upd_endpoints (λ m, Endpoint.set_retryPolicyId (Some "r2") <$> delete "e1" m)
    (upd_retryPolicies (λ _, <["r1" := pol "p1"]> {["r2" := pol "p2"]}) two_orgs).

Lemma two_policies_refs : refs_own two_policies.
Proof.
  split.
  - intros e r i p o He Hi Hp Ho. vm_compute in He.
    destruct (decide (e = "e2")) as [->|Hne].
    + vm_compute in He. injection He as <-. vm_compute in Hi. injection Hi as <-. vm_compute in Hp. injection Hp as <-. exact Ho.
    + assert (map_Forall (λ e (_ : Endpoint.t), e = "e2") (endpoints two_policies)) as Hf by (apply (bool_decide_unpack _); vm_compute; exact I).
      by destruct (Hne (Hf e r He)).
  - intros k r i m o Hk. change (apiKeys two_policies) with (∅ : gmap string ApiKey.t) in Hk. by rewrite lookup_empty in Hk.
Qed.


(** ** Inversion of successful statements *)

Lemma requireById_atomic {R} `{Table R} c id : Atomic (requireById (R:=R) c id).
Proof.
  unfold requireById, findById. apply atomic_gets. intros [r|] s e s'; [done|].
  by intros [= _ <-].
Qed.

Lemma count_Ok {R} `{Table R} c p db n db' :
  count (R:=R) c p db = (Ok n, db') → n = Z.of_nat (size (matching c db p)) ∧ db' = db.
Proof. unfold count. by intros [-> ->]%gets_Ok. Qed.
Lemma findFirst_Ok {R} `{Table R} c p db o db' :
  findFirst (R:=R) c p db = (Ok o, db') → o = head (map_to_list (matching c db p)) ∧ db' = db.
Proof. unfold findFirst. by intros [-> ->]%gets_Ok. Qed.
Lemma findAll_Ok {R} `{Table R} c p db l db' :
  findAll (R:=R) c p db = (Ok l, db') → l = map_to_list (matching c db p) ∧ db' = db.
Proof. unfold findAll. by intros [-> ->]%gets_Ok. Qed.
Lemma findById_Ok {R} `{Table R} c id db o db' :
  findById (R:=R) c id db = (Ok o, db') → o = find c db id ∧ db' = db.
Proof. unfold findById. by intros [-> ->]%gets_Ok. Qed.
Lemma updateMany_Ok {R} `{Table R} c p f db n db' :
  updateMany (R:=R) c p f db = (Ok n, db') →
  n = Z.of_nat (size (matching c db p)) ∧ db' = upd_tbl (λ _, update_rows c db p f) db.
Proof. by intros [= <- <-]. Qed.

(** The audit row is appended; no table changes. *)
Lemma recordFor_Ok c a ty id md db u db' :
  recordFor c a ty id md db = (Ok u, db') → ∃ f, db' = upd_auditLogs f db.
Proof. unfold recordFor. intros H%modify_Ok. eauto. Qed.

Ltac sinv :=
  repeat first [progress minv | match goal with
  | H : count _ _ _ = (Ok _, _) |- _ => apply count_Ok in H as [? ->]
  | H : findFirst _ _ _ = (Ok _, _) |- _ => apply findFirst_Ok in H as [? ->]
  | H : findAll _ _ _ = (Ok _, _) |- _ => apply findAll_Ok in H as [? ->]
  | H : findById _ _ _ = (Ok _, _) |- _ => apply findById_Ok in H as [? ->]
  | H : requireById _ _ _ = (Ok _, _) |- _ => apply (proj1 (requireById_Ok _ _ _ _ _)) in H as [? ->]
  | H : updateMany _ _ _ _ = (Ok _, _) |- _ => apply updateMany_Ok in H as [? ->]
  | H : updateById _ _ _ _ = (Ok _, _) |- _ => apply updateById_Ok in H as (? & ? & ? & ->)
  | H : create _ _ _ _ = (Ok _, _) |- _ =>
      apply (proj1 (create_Ok _ _ _ _ _ _)) in H as (? & ? & ? & ? & ? & ? & ->)
  | H : deleteById _ _ _ = (Ok _, _) |- _ => apply deleteById_Ok in H as (? & ? & ->)
  | H : recordFor _ _ _ _ _ _ = (Ok _, _) |- _ => apply recordFor_Ok in H as (? & ->)
  end].

Lemma matching_empty {R} `{TableLaws R} c db p :
  head (map_to_list (matching (R:=R) c db p)) = None ↔ matching c db p = ∅.
Proof.
  rewrite <- map_to_list_empty_iff. destruct (map_to_list _); split; naive_solver.
Qed.
Lemma matching_head {R} `{TableLaws R} c db p kv :
  head (map_to_list (matching (R:=R) c db p)) = Some kv → matching c db p !! kv.1 = Some kv.2.
Proof.
  intros Hh. apply elem_of_map_to_list. destruct (map_to_list _) as [|x l]; [done|].
  injection Hh as ->. destruct kv. by left.
Qed.
Lemma matching_size_0 {R} `{TableLaws R} c db p :
  Z.of_nat (size (matching (R:=R) c db p)) = 0%Z ↔
  ∀ id r, tbl db !! id = Some r → in_tenant c db id r = true → p id r = false.
Proof.
  replace 0%Z with (Z.of_nat 0) by done. rewrite Nat2Z.inj_iff, map_size_empty_iff. split.
  - intros E id r Hr Ht. destruct (p id r) eqn:Hp; [|done].
    assert (matching c db p !! id = Some r) as Hm by by apply matching_lookup.
    by rewrite E in Hm.
  - intros Hn. apply map_eq. intros id. rewrite lookup_empty. apply eq_None_not_Some.
    intros [r (Hr & Ht & Hp)%matching_lookup]. rewrite (Hn id r) in Hp by done. done.
Qed.

(** Rewriting the row of one key, as a map. *)
Lemma update_rows_key {R} `{TableLaws R} c db id (f : R → R) r :
  find c db id = Some r →
  update_rows c db (λ i _, bool_decide (i = id)) f = <[id := f r]> (tbl db).
Proof.
  intros [Hr Ht]%find_Some. apply map_eq. intros j. rewrite update_rows_lookup.
  destruct (decide (j = id)) as [->|Hne].
  - rewrite lookup_insert_eq, Hr. cbn. by rewrite Ht, bool_decide_eq_true_2.
  - rewrite lookup_insert_ne by done. destruct (tbl db !! j); cbn; [|done].
    by rewrite bool_decide_eq_false_2, andb_false_r.
Qed.

Lemma requireById_run {R} `{Table R} c id db :
  (requireById (R:=R) c id db).1
  = match find c db id with Some r => Ok r | None => throw not_found CROSS_TENANT_MESSAGE end.
Proof. unfold requireById, findById, mbind, M_bind, gets. by destruct (find c db id). Qed.

Lemma requireById_eq {R} `{Table R} c id db :
  requireById (R:=R) c id db
  = (match find c db id with Some r => Ok r | None => throw not_found CROSS_TENANT_MESSAGE end, db).
Proof. unfold requireById, findById, mbind, M_bind, gets. by destruct (find c db id). Qed.

(** [updateById] as a function, when the new row is still in the tenant. *)
Lemma updateById_run {R} `{TableLaws R} c id (f : R → R) db :
  (∀ r, find c db id = Some r → in_tenant c (upd_tbl (insert id (f r)) db) id (f r) = true) →
  updateById c id f db
  = match find c db id with
    | Some r => (Ok (f r), upd_tbl (insert id (f r)) db)
    | None => (throw not_found CROSS_TENANT_MESSAGE, db)
    end.
Proof.
  intros Hf. unfold updateById, transact, mbind, M_bind. rewrite updateMany_run, matching_key.
  destruct (find c db id) as [r|] eqn:E; [|by rewrite map_size_empty].
  rewrite map_size_singleton, (update_rows_key _ _ _ _ _ E). unfold guardM, lift. cbn.
  rewrite (upd_ext _ (insert id (f r))) by done.
  unfold requireById, findById, mbind, M_bind, gets.
  rewrite (proj2 (find_Some _ _ id (f r))); [done|]. rewrite tbl_upd, lookup_insert_eq. auto.
Qed.

(** Rows that satisfy [P], counted: never more after a change that makes no new
    ones. *)
Lemma filter_size_le {R} (P : R → Prop) `{!∀ r, Decision (P r)} (m m' : gmap string R) :
  (∀ i r, m' !! i = Some r → P r → ∃ s, m !! i = Some s ∧ P s) →
  (size (filter (λ kv : string * R, P kv.2) m') <= size (filter (λ kv : string * R, P kv.2) m))%nat.
Proof.
  intros Hm. rewrite <- !size_dom. apply subseteq_size. intros i.
  rewrite !elem_of_dom. intros [r [Hr HP]%map_lookup_filter_Some].
  destruct (Hm i r Hr HP) as (s & Hs & HPs). exists s. by apply map_lookup_filter_Some.
Qed.
