(* ===== verification/Statements.v ===== *)
(** Services without a transaction: a request is a sequence of statements, between which
    anything else may happen.

    The code of such a service is written once, for any type of programs that can
    [call] a repository operation ([Calls]).  Read in the monad [M] it is the request
    running alone; read as a [Prog] it is the list of its statements, of which a
    system of any number of requests in flight runs one at a time. *)
From S2P Require Import Prelude.

(** ** Code *)

(** [call m] is one statement of the database, [raise r] a value or an exception of the
    code, [attempt p h] is [try { p } catch (err) { h; throw err }] with the failures of [h]
    swallowed. *)
Class Calls (S : Type) (P : Type → Type) : Type := {
  call : ∀ {A}, M S A → P A;
  raise : ∀ {A}, result A → P A;
  attempt : ∀ {A}, P A → P unit → P A
}.

Definition M_attempt {S A} (m : M S A) (h : M S unit) : M S A := λ s,
  match m s with
  | (Throw e, s') => (Throw e, (h s').2)
  | r => r
  end.
#[export] Instance M_calls S : Calls S (M S) := {| call _ m := m; raise _ r := lift r; attempt _ := M_attempt |}.

(** A statement changes the database and goes on with what it saw. *)
Inductive Prog (S A : Type) : Type :=
| over (r : result A)
| stmt (w : S → S) (k : S → Prog S A).
Arguments over {S A}.
Arguments stmt {S A}.

Fixpoint prog_bind {S A B} (f : A → Prog S B) (p : Prog S A) : Prog S B :=
  match p with
  | over (Ok a) => f a
  | over (Throw e) => over (Throw e)
  | stmt w k => stmt w (λ s, prog_bind f (k s))
  end.
#[export] Instance Prog_ret S : MRet (Prog S) := λ A a, over (Ok a).
#[export] Instance Prog_bind S : MBind (Prog S) := @prog_bind S.

(** The handler, after which the exception is thrown again whatever the handler did. *)
Fixpoint rethrowing {S A} (e : app_error) (h : Prog S unit) : Prog S A :=
  match h with
  | over _ => over (Throw e)
  | stmt w k => stmt w (λ s, rethrowing e (k s))
  end.
Fixpoint prog_attempt {S A} (p : Prog S A) (h : Prog S unit) : Prog S A :=
  match p with
  | over (Ok a) => over (Ok a)
  | over (Throw e) => rethrowing e h
  | stmt w k => stmt w (λ s, prog_attempt (k s) h)
  end.
#[export] Instance Prog_calls S : Calls S (Prog S) := {|
  call _ m := stmt (λ s, (m s).2) (λ s, over (m s).1);
  raise _ r := over r;
  attempt _ := prog_attempt
|}.

(** ** Alone *)

Fixpoint run {S A} (p : Prog S A) : M S A := λ s,
  match p with
  | over r => (r, s)
  | stmt w k => run (k s) (w s)
  end.

(** A program that does alone what a computation of the monad does. *)
Definition same {S A} (p : Prog S A) (m : M S A) : Prop := ∀ s, run p s = m s.

Section Alone.
  Context {S : Type}.

Lemma same_call {A} (m : M S A) : same (call m) m.
Proof. intros s. cbn. by destruct (m s). Qed.
Lemma same_raise {A} (r : result A) : same (raise r) (lift (S:=S) r).
Proof. by intros s. Qed.
Lemma same_ret {A} (a : A) : same (mret a) (mret (M:=M S) a).
Proof. by intros s. Qed.

Lemma run_bind {A B} (p : Prog S A) (f : A → Prog S B) s :
  run (p ≫= f) s = match run p s with (Ok a, s') => run (f a) s' | (Throw e, s') => (Throw e, s') end.
Proof.
  revert s. unfold mbind, Prog_bind. induction p as [[a|e]|w k IH]; intros s; [done..|]. cbn. apply IH.
Qed.
Lemma same_bind {A B} (p : Prog S A) m (f : A → Prog S B) g :
  same p m → (∀ a, same (f a) (g a)) → same (p ≫= f) (m ≫= g).
Proof.
  intros Hp Hf s. rewrite run_bind, Hp. unfold mbind, M_bind. destruct (m s) as [[a|e] s']; [apply Hf|done].
Qed.

Lemma run_rethrowing {A} e (h : Prog S unit) s : run (rethrowing (A:=A) e h) s = (Throw e, (run h s).2).
Proof. revert s. induction h as [r|w k IH]; intros s; [done|]. cbn. apply IH. Qed.
Lemma same_attempt {A} (p : Prog S A) m h n : same p m → same h n → same (attempt p h) (attempt m n).
Proof.
  intros Hp Hh. assert (∀ s, run (prog_attempt p h) s = M_attempt (run p) (run h) s) as Hr.
  { clear. unfold M_attempt. induction p as [[a|e]|w k IH]; intros s; [done| |cbn; apply IH]. cbn. apply run_rethrowing. }
  intros s. cbn. rewrite Hr. unfold M_attempt. rewrite Hp. destruct (m s) as [[a|e] s']; [done|]. by rewrite Hh.
Qed.
End Alone.
Ltac same_code :=
  repeat first [ apply same_call | apply same_raise | apply same_ret
               | apply same_attempt | apply same_bind; [|intros ?]
               | match goal with |- same (if ?b then _ else _) _ => destruct b end ].

(** ** What a program may do *)

(** From a state in which [P] holds, each statement makes a change that [R] allows, whatever
    happened since the one before. *)
Inductive stays {S A} (P : S → Prop) (R : S → S → Prop) : Prog S A → Prop :=
| stays_over r : stays P R (over r)
| stays_stmt w k : (∀ s, P s → R s (w s)) → (∀ s, P s → stays P R (k s)) → stays P R (stmt w k).

Section Stays.
  Context {S : Type} (P : S → Prop) (R : S → S → Prop).

Lemma stays_call {A} (m : M S A) : (∀ s, P s → R s (m s).2) → stays P R (call m).
Proof. intros Hm. constructor; intros s Hs; [by apply Hm|constructor]. Qed.
Lemma stays_raise {A} (r : result A) : stays P R (raise r).
Proof. constructor. Qed.
Lemma stays_ret {A} (a : A) : stays P R (mret a).
Proof. constructor. Qed.
Lemma stays_bind {A B} (p : Prog S A) (f : A → Prog S B) :
  stays P R p → (∀ a, stays P R (f a)) → stays P R (p ≫= f).
Proof.
  intros Hp Hf. unfold mbind, Prog_bind. induction Hp as [[a|e]|w k Hw Hk IH]; [apply Hf|constructor|].
  constructor; [done|exact IH].
Qed.
Lemma stays_attempt {A} (p : Prog S A) h : stays P R p → stays P R h → stays P R (attempt p h).
Proof.
  intros Hp Hh. assert (∀ e, stays P R (rethrowing (A:=A) e h)) as Hr.
  { intros e. induction Hh as [r|w k Hw Hk IH]; [constructor|]. constructor; [done|exact IH]. }
  cbn. induction Hp as [[a|e]|w k Hw Hk IH]; [constructor|apply Hr|].
  constructor; [done|exact IH].
Qed.
(** A first statement after which the rest is known to stay. *)
Lemma stays_then {A B} (m : M S A) (f : A → Prog S B) :
  (∀ s, P s → R s (m s).2 ∧ ∀ a, (m s).1 = Ok a → stays P R (f a)) → stays P R (call m ≫= f).
Proof.
  intros Hm. constructor; intros s Hs; destruct (Hm s Hs) as [H1 H2]; [done|]. cbn.
  destruct (m s).1; [by apply H2|constructor].
Qed.
End Stays.

(** ** The system *)

(** A request in flight, with what it is about. *)
Record Thread (S : Type) : Type := MkThread { th_about : string; th_result : Type; th_rest : Prog S th_result }.
Arguments MkThread {S}.
Arguments th_about {S}.
Arguments th_result {S}.
Arguments th_rest {S}.
Record Sys (S : Type) : Type := MkSys { sy_db : S; sy_flight : list (Thread S) }.
Arguments MkSys {S}.
Arguments sy_db {S}.
Arguments sy_flight {S}.

Lemma star_trans {A} (R : A → A → Prop) x y z : star R x y → star R y z → star R x z.
Proof. intros H1 H2. induction H1; [done|]. eapply star_step; eauto. Qed.

Section System.
  Context {S : Type} (request : Thread S → Prop) (other : S → S → Prop).

(** A request arrives, runs its next statement, or leaves, answered or lost with its
    process; or something else changes the database. *)
Inductive sys_step : Sys S → Sys S → Prop :=
| sy_arrive s l t : request t → sys_step (MkSys s l) (MkSys s (t :: l))
| sy_statement s l1 l2 about A w k :
    sys_step (MkSys s (l1 ++ MkThread about A (stmt w k) :: l2)) (MkSys (w s) (l1 ++ MkThread about A (k s) :: l2))
| sy_leave s l1 l2 t : sys_step (MkSys s (l1 ++ t :: l2)) (MkSys s (l1 ++ l2))
| sy_other s s' l : other s s' → sys_step (MkSys s l) (MkSys s' l).

(** An invariant of the database and of every request in flight. *)
Lemma sys_invariant (P : S → Prop) (Q : Thread S → Prop) (R : S → S → Prop) :
  (∀ t, request t → Q t) →
  (∀ s about A w k, P s → Q (MkThread about A (stmt w k)) → P (w s) ∧ R s (w s) ∧ Q (MkThread about A (k s))) →
  (∀ s s', P s → other s s' → P s' ∧ R s s') →
  PreOrder R →
  ∀ x y, star sys_step x y → P (sy_db x) → Forall Q (sy_flight x) →
    P (sy_db y) ∧ Forall Q (sy_flight y) ∧ R (sy_db x) (sy_db y).
Proof.
  intros Hreq Hst Hoth HR. induction 1 as [x|x y z H1 _ IH]; intros HP HQ; [by split_and!|].
  assert (P (sy_db y) ∧ Forall Q (sy_flight y) ∧ R (sy_db x) (sy_db y)) as (HP' & HQ' & HR').
  { destruct H1 as [s l t Ht|s l1 l2 about A w k|s l1 l2 t|s s' l Ho]; cbn in *.
    - split_and!; [done|constructor; auto|done].
    - apply Forall_app in HQ as [HQ1 [HQt HQ2]%Forall_cons].
      destruct (Hst s about A w k HP HQt) as (? & ? & ?). split_and!; [done| |done].
      apply Forall_app. split; [done|]. by constructor.
    - apply Forall_app in HQ as [HQ1 [HQt HQ2]%Forall_cons]. split_and!; [done|by apply Forall_app|done].
    - destruct (Hoth s s' HP Ho) as [? ?]. by split_and!. }
  destruct (IH HP' HQ') as (? & ? & ?). split_and!; [done..|]. by transitivity (sy_db y).
Qed.

(** The [n]-th request in flight runs its next statement, if it has one. *)
Definition advance (n : nat) (x : Sys S) : Sys S :=
  match sy_flight x !! n with
  | Some (MkThread about A (stmt w k)) => MkSys (w (sy_db x)) (<[n := MkThread about A (k (sy_db x))]> (sy_flight x))
  | _ => x
  end.
Lemma advance_star n x : star sys_step x (advance n x).
Proof.
  unfold advance. destruct x as [s l]. cbn. destruct (l !! n) as [[about A [r|w k]]|] eqn:E; try apply star_refl.
  eapply star_step; [|apply star_refl]. pose proof (take_drop_middle l n _ E) as Hl.
  pose proof (lookup_lt_Some _ _ _ E) as Hn. rewrite insert_take_drop by done. rewrite <- Hl at 1. apply sy_statement.
Qed.
End System.
