(* ===== verification/Transactions.v ===== *)
(** The retrying transaction runner: organizations/tenant-transaction.ts.

    One attempt is [prisma.$transaction], a parameter: it returns with the
    callback's writes committed, or raises with the database as it was.  The
    loop around it is the source's. *)
From Stdlib Require Import ZArith Lia.
From S2P Require Import Prelude Js.

(** [message.includes(s)] *)
Definition includes_str (s p : jsstr) : bool :=
  existsb (λ k, startsWith (drop k s) p) (seq 0 (S (length s))).

(** What [catch (err)] sees: the [code], [meta.code] and [message] properties
    when they are strings, of an object or of something that is none. *)
Inductive thrown : Type :=
| NotObject
| ErrorObject (code meta_code message : option jsstr).

Definition is_str (o : option jsstr) (s : jsstr) : bool := bool_decide (o = Some s).

Definition isSerializationFailure (err : thrown) : bool :=
  match err with
  | NotObject => false
  | ErrorObject code sqlState message =>
      if is_str code (js "P2034") then true
      else if is_str sqlState (js "40001") || is_str sqlState (js "40P01") then true
      else match message with
           | None => false
           | Some m =>
               includes_str m (js "could not serialize access")
               || includes_str m (js "deadlock detected")
               || includes_str m (js "40001") || includes_str m (js "40P01")
           end
  end.

Definition MAX_TRANSACTION_ATTEMPTS : nat := 4.

Inductive outcome (A : Type) : Type :=
| Committed (a : A)
| Rethrown (err : thrown)
| Collided.  (* AppError('conflict', 'That change collided with another change ...') *)
Arguments Committed {A} _.
Arguments Rethrown {A} _.
Arguments Collided {A}.

Section Runner.
  Context {S A : Type}.
  (** The n-th attempt of the transaction. *)
  Context (attempt_tx : nat → S → (A + thrown) * S).

(** [for (let attempt = 1; ; attempt += 1)], on the attempts left. *)
Fixpoint run_from (budget attempt : nat) (s : S) : outcome A * S :=
  match attempt_tx attempt s with
  | (inl a, s') => (Committed a, s')
  | (inr err, s') =>
      if negb (isSerializationFailure err) then (Rethrown err, s')
      else if MAX_TRANSACTION_ATTEMPTS <=? attempt then (Collided, s')
      else match budget with
           | O => (Collided, s')
           | Datatypes.S budget => run_from budget (Datatypes.S attempt) s'
           end
  end.

Definition run (s : S) : outcome A * S := run_from MAX_TRANSACTION_ATTEMPTS 1 s.

(** A transaction that raises has no effect. *)
Definition rolls_back : Prop := ∀ n s err s', attempt_tx n s = (inr err, s') → s' = s.

(** Attempt [n] was aborted as unserialisable. *)
Definition aborted (n : nat) (s : S) : Prop :=
  ∃ err, attempt_tx n s = (inr err, s) ∧ isSerializationFailure err = true.

Lemma run_from_spec (Hrb : rolls_back) s : ∀ budget attempt,
  1 <= attempt → MAX_TRANSACTION_ATTEMPTS <= attempt + budget →
  ∃ n, attempt <= n <= Nat.max attempt MAX_TRANSACTION_ATTEMPTS
    ∧ (∀ k, attempt <= k < n → aborted k s)
    ∧ ((∃ a s', attempt_tx n s = (inl a, s') ∧ run_from budget attempt s = (Committed a, s'))
       ∨ (∃ err, attempt_tx n s = (inr err, s) ∧ isSerializationFailure err = false
            ∧ run_from budget attempt s = (Rethrown err, s))
       ∨ (MAX_TRANSACTION_ATTEMPTS <= n ∧ aborted n s
            ∧ run_from budget attempt s = (Collided, s))).
Proof.
  induction budget as [|budget IH]; intros attempt H1 Hl;
    (destruct (attempt_tx attempt s) as [[a|err] s'] eqn:E;
     [exists attempt; split; [lia|]; split; [lia|]; left; exists a, s'; cbn [run_from];
      by rewrite E|]);
    pose proof (Hrb _ _ _ _ E) as ->;
    (destruct (isSerializationFailure err) eqn:Es;
     [|exists attempt; split; [lia|]; split; [lia|]; right; left; exists err; cbn [run_from];
       by rewrite E, Es]);
    cbn [run_from]; rewrite E, Es; cbn [negb];
    (destruct (MAX_TRANSACTION_ATTEMPTS <=? attempt)%nat eqn:Em; bprop;
     [exists attempt; split; [lia|]; split; [lia|]; right; right;
      (split_and!; [lia|by exists err|done])|]); [lia|].
  destruct (IH (Datatypes.S attempt)) as (n & Hn & Hk & Ho); [lia..|].
  exists n. split; [lia|]. split; [|exact Ho].
  intros k Hk'. destruct (decide (k = attempt)) as [->|]; [by exists err|]. apply Hk. lia.
Qed.
End Runner.

(** The runner makes between one and four attempts and returns.  All but
    the last were aborted as unserialisable, each without effect, so the
    callback takes effect at most once and on the state the caller found: the
    outcome is the last attempt's commit, its own error unchanged, or, after
    four aborts, the conflict with nothing written. *)
Theorem run_spec {S A : Type} (attempt_tx : nat → S → (A + thrown) * S) (s : S)
  (Hrb : rolls_back attempt_tx) :
  ∃ n, 1 <= n <= 4
    ∧ (∀ k, 1 <= k < n → aborted attempt_tx k s)
    ∧ ((∃ a s', attempt_tx n s = (inl a, s') ∧ run attempt_tx s = (Committed a, s'))
       ∨ (∃ err, attempt_tx n s = (inr err, s) ∧ isSerializationFailure err = false
            ∧ run attempt_tx s = (Rethrown err, s))
       ∨ (n = 4 ∧ aborted attempt_tx 4 s ∧ run attempt_tx s = (Collided, s))).
Proof.
  destruct (run_from_spec attempt_tx Hrb s MAX_TRANSACTION_ATTEMPTS 1) as (n & Hn & Hk & Ho);
    [lia..|]. unfold MAX_TRANSACTION_ATTEMPTS in Hn. cbn in Hn.
  exists n. split; [done|]. split; [done|].
  destruct Ho as [Ho|[Ho|(Hm & Ha & Ho)]]; [by left|right; by left|right; right].
  unfold MAX_TRANSACTION_ATTEMPTS in Hm. assert (n = 4) as -> by lia. done.
Qed.

(** Two aborts, then a commit that adds one. *)
Definition flaky (n : nat) (s : nat) : (unit + thrown) * nat :=
  if n <? 3 then (inr (ErrorObject (Some (js "P2034")) None None), s) else (inl tt, Datatypes.S s).

Lemma run_spec_witness : run flaky 7 = (Committed tt, 8).
Proof.
  destruct (run_spec flaky 7) as (n & Hn & Hk & Ho).
  { intros m s err s'. unfold flaky. destruct (m <? 3); intros [=]; congruence. }
  vm_compute. reflexivity.
Defined.
