(* ===== verification/RetryPolicies.v ===== *)
(** The retry policies of a project: retry-policies/retry-policies.service.ts.

    Every write runs in one serialisable transaction, so an operation is a
    step from one database to the next.  Fresh ids and the clock are arguments. *)
From Stdlib Require Import ZArith Lia.
From S2P Require Import Prelude Js Permissions RetryRules AuditTrail Db Scope.

(** ** Settings *)

(** [Partial<RetrySettings>] *)
Record Patch : Type := MkPatch {
  p_strategy : option RetryStrategy;
  p_maxAttempts : option num;
  p_initialDelayMs : option num;
  p_maxDelayMs : option num;
  p_multiplier : option num;
  p_jitterRatio : option num;
  p_maxRetryDurationMs : option num
}.

(** [{ ...settings, ...patch }] *)
Definition merge (s : RetrySettings) (p : Patch) : RetrySettings := {|
  strategy := default (strategy s) (p_strategy p);
  maxAttempts := default (maxAttempts s) (p_maxAttempts p);
  initialDelayMs := default (initialDelayMs s) (p_initialDelayMs p);
  maxDelayMs := default (maxDelayMs s) (p_maxDelayMs p);
  multiplier := default (multiplier s) (p_multiplier p);
  jitterRatio := default (jitterRatio s) (p_jitterRatio p);
  maxRetryDurationMs := default (maxRetryDurationMs s) (p_maxRetryDurationMs p)
|}.

(** The request bodies; [patch(dto)] is the part that maps to settings. *)
Record CreateDto : Type := {
  c_name : jsstr;
  c_is_default : option bool;
  c_patch : Patch
}.
Record UpdateDto : Type := {
  u_name : option jsstr;
  u_patch : Patch
}.

(** [Object.keys(patch)] *)
Definition is_set {A} (name : string) (o : option A) : list jsstr :=
  if o is Some _ then [js name] else [].
Definition patch_keys (p : Patch) : list jsstr :=
  is_set "strategy" (p_strategy p) ++ is_set "maxAttempts" (p_maxAttempts p)
  ++ is_set "initialDelayMs" (p_initialDelayMs p) ++ is_set "maxDelayMs" (p_maxDelayMs p)
  ++ is_set "multiplier" (p_multiplier p) ++ is_set "jitterRatio" (p_jitterRatio p)
  ++ is_set "maxRetryDurationMs" (p_maxRetryDurationMs p).

(** [[...Object.keys(patch), 'name'?].sort()]: the keys in code-unit order. *)
Definition updated_fields (dto : UpdateDto) : list jsstr :=
  let p := u_patch dto in
  is_set "initialDelayMs" (p_initialDelayMs p) ++ is_set "jitterRatio" (p_jitterRatio p)
  ++ is_set "maxAttempts" (p_maxAttempts p) ++ is_set "maxDelayMs" (p_maxDelayMs p)
  ++ is_set "maxRetryDurationMs" (p_maxRetryDurationMs p)
  ++ is_set "multiplier" (p_multiplier p) ++ is_set "name" (u_name dto)
  ++ is_set "strategy" (p_strategy p).

(** [...settings] in an audit row. *)
Definition strategy_name (s : RetryStrategy) : string :=
  match s with exponential => "exponential" | linear => "linear" | constant => "constant" end.
Definition settings_meta (s : RetrySettings) : list (jsstr * meta) :=
  [(js "strategy", MStr (js (strategy_name (strategy s))));
   (js "maxAttempts", MNum (maxAttempts s)); (js "initialDelayMs", MNum (initialDelayMs s));
   (js "maxDelayMs", MNum (maxDelayMs s)); (js "multiplier", MNum (multiplier s));
   (js "jitterRatio", MNum (jitterRatio s));
   (js "maxRetryDurationMs", MNum (maxRetryDurationMs s))].

Definition MAX_RETRY_POLICIES_PER_PROJECT : Z := 50.

Definition opt_id (o : option string) : meta := if o is Some i then MStr (js i) else MNull.

(** ** Operations *)

Section Service.
  Context (c : Ctx).

(** [findById] with the single not-found message. *)
Definition require (policyId : string) : M Db RetryPolicy.t := requireById c policyId.

Definition requireHeadroom : M Db unit :=
  existing ← count (R:=RetryPolicy.t) c (λ _ _, true);
  guardM (negb (existing <? MAX_RETRY_POLICIES_PER_PROJECT)%Z) limit_exceeded
    "This project already has the maximum number of retry policies.".

Definition policies_create (dto : CreateDto) (id : string) (now : Z) : M Db RetryPolicy.t :=
  settings ← lift (assertRetrySettings (merge DEFAULT_RETRY_SETTINGS (c_patch dto)));
  transact (
    _ ← requireHeadroom;
    currentDefault ← findFirst c (λ _ r, RetryPolicy.isDefault r);
    let promote := bool_decide (c_is_default dto = Some true)
                   || bool_decide (currentDefault = None) in
    _ ← (if promote && negb (bool_decide (currentDefault = None))
         then updateMany c (λ _ r, RetryPolicy.isDefault r) (RetryPolicy.set_isDefault false)
         else mret 0%Z);
    created ← create c id (λ t, RetryPolicy.mk (tc_project t) (c_name dto) promote settings now now);
    _ ← recordFor c "retry_policy.created" "retry_policy" (Some id)
          ([(js "name", MStr (c_name dto)); (js "is_default", MBool promote);
            (js "replaced_default_id",
             if promote then opt_id (fst <$> currentDefault) else MNull)] ++ settings_meta settings);
    mret created).

(** The non-empty case of [update]; an empty patch only reads. *)
Definition policies_update (policyId : string) (dto : UpdateDto) (now : Z) : M Db RetryPolicy.t :=
  if bool_decide (patch_keys (u_patch dto) = []) && bool_decide (u_name dto = None)
  then require policyId
  else transact (
    current ← require policyId;
    settings ← lift (assertRetrySettings (merge (RetryPolicy.settings current) (u_patch dto)));
    updated ← updateById c policyId (λ r,
      RetryPolicy.set_name (default (RetryPolicy.name r) (u_name dto))
        (RetryPolicy.set_updatedAt now (RetryPolicy.set_settings settings r)));
    _ ← recordFor c "retry_policy.updated" "retry_policy" (Some policyId)
          ((js "fields", MArr (map MStr (updated_fields dto))) :: settings_meta settings);
    mret updated).

Definition other_default (policyId i : string) (r : RetryPolicy.t) : bool :=
  RetryPolicy.isDefault r && negb (bool_decide (i = policyId)).

Definition setDefault (policyId : string) (now : Z) : M Db RetryPolicy.t :=
  transact (
    target ← require policyId;
    previous ← findFirst c (other_default policyId);
    _ ← updateMany c (other_default policyId) (RetryPolicy.set_isDefault false);
    updated ← (if RetryPolicy.isDefault target then mret target
               else updateById c policyId (λ r,
                      RetryPolicy.set_updatedAt now (RetryPolicy.set_isDefault true r)));
    _ ← recordFor c "retry_policy.default_set" "retry_policy" (Some policyId)
          [(js "name", MStr (RetryPolicy.name target));
           (js "previous_default_id", opt_id (fst <$> previous))];
    mret updated).

Definition uses (policyId : string) (e : Endpoint.t) : bool :=
  bool_decide (Endpoint.retryPolicyId e = Some policyId).
Definition is_deleted (e : Endpoint.t) : bool :=
  bool_decide (Endpoint.status e = EndpointStatus.deleted).

Definition unlinkDeletedEndpoints (policyId : string) : M Db Z :=
  deleted ← count c (λ _ e, uses policyId e && is_deleted e);
  if (deleted =? 0)%Z then mret 0%Z
  else updateMany c (λ _ e, uses policyId e && is_deleted e) (Endpoint.set_retryPolicyId None).

(** [?replacement_id=]: the empty string is falsy. *)
Definition given (o : option string) : option string :=
  match o with Some EmptyString => None | _ => o end.

(** The successor of a default policy, or the refusals around it. *)
Definition promote_successor (policyId : string) (policy : RetryPolicy.t) (others : Z)
    (replacementId : option string) (now : Z) : M Db (option string) :=
  if RetryPolicy.isDefault policy && (0 <? others)%Z then
    match given replacementId with
    | None => throwM conflict "This is the project default retry policy and other policies exist."
    | Some rid =>
        _ ← guardM (bool_decide (rid = policyId)) invalid_request
              "replacement_id cannot be the policy being deleted.";
        _ ← require rid;
        _ ← updateById (R:=RetryPolicy.t) c rid (λ r,
              RetryPolicy.set_updatedAt now (RetryPolicy.set_isDefault true r));
        mret (Some rid)
    end
  else match given replacementId with
    | Some _ => throwM invalid_request "replacement_id is not accepted here"
    | None => mret None
    end.

Definition policies_remove (policyId : string) (replacementId : option string) (now : Z) : M Db unit :=
  transact (
    policy ← require policyId;
    live ← count c (λ _ e, uses policyId e && negb (is_deleted e));
    _ ← guardM (0 <? live)%Z conflict "endpoints in this project still use this retry policy.";
    others ← count (R:=RetryPolicy.t) c (λ i _, negb (bool_decide (i = policyId)));
    promoted ← promote_successor policyId policy others replacementId now;
    unlinked ← unlinkDeletedEndpoints policyId;
    _ ← deleteById (R:=RetryPolicy.t) c policyId;
    recordFor c "retry_policy.deleted" "retry_policy" (Some policyId)
      [(js "name", MStr (RetryPolicy.name policy));
       (js "was_default", MBool (RetryPolicy.isDefault policy));
       (js "promoted_policy_id", opt_id promoted);
       (js "unlinked_deleted_endpoints", MNum (int unlinked))]).
End Service.

(** ** Invariants *)

(** A project with policies has exactly one default. *)
Definition one_default (m : gmap string RetryPolicy.t) (p : string) : Prop :=
  (∀ i r, m !! i = Some r → RetryPolicy.projectId r = p →
     ∃ j s, m !! j = Some s ∧ RetryPolicy.projectId s = p ∧ RetryPolicy.isDefault s = true)
  ∧ (∀ i r j s, m !! i = Some r → m !! j = Some s →
       RetryPolicy.projectId r = p → RetryPolicy.projectId s = p →
       RetryPolicy.isDefault r = true → RetryPolicy.isDefault s = true → i = j).

Definition valid_settings (s : RetrySettings) : Prop := assertRetrySettings s = Ok s.

Record policies_inv (db : Db) : Prop := {
  pi_default p : one_default (retryPolicies db) p;
  pi_valid i r : retryPolicies db !! i = Some r → valid_settings (RetryPolicy.settings r)
}.

(** Rows of other projects are the same in both maps. *)
Definition same_elsewhere (p : string) (m m' : gmap string RetryPolicy.t) : Prop :=
  ∀ i r, RetryPolicy.projectId r ≠ p → m !! i = Some r ↔ m' !! i = Some r.

Lemma one_default_elsewhere p q m m' :
  same_elsewhere p m m' → q ≠ p → one_default m q → one_default m' q.
Proof.
  intros Hs Hq [He Hu]. split.
  - intros i r Hr Hp. apply Hs in Hr; [|congruence].
    destruct (He i r Hr Hp) as (j & s & Hj & Hsp & Hd). exists j, s. split_and!; [|done..].
    apply Hs; congruence.
  - intros i r j s Hr Hs' Hp Hp'. apply Hs in Hr; [|congruence]. apply Hs in Hs'; [|congruence].
    by eapply Hu.
Qed.

(** When the defaults of [p] are exactly [k], and [k] is there if anything is. *)
Lemma one_default_mark m p k :
  (∀ i r, m !! i = Some r → RetryPolicy.projectId r = p → RetryPolicy.isDefault r = true ↔ i = k) →
  ((∃ r, m !! k = Some r ∧ RetryPolicy.projectId r = p)
   ∨ (∀ i r, m !! i = Some r → RetryPolicy.projectId r ≠ p)) →
  one_default m p.
Proof.
  intros Hm Hk. split.
  - intros i r Hr Hp. destruct Hk as [(s & Hs & Hsp)|Hn]; [|by destruct (Hn i r)].
    exists k, s. split_and!; [done..|]. by apply (Hm k s).
  - intros i r j s Hr Hs Hp Hp' Hd Hd'. apply (Hm i r) in Hd; [|done..].
    apply (Hm j s) in Hd'; [|done..]. congruence.
Qed.

Lemma policies_inv_ext db db' :
  retryPolicies db' = retryPolicies db → policies_inv db → policies_inv db'.
Proof. intros E [Hd Hv]. split; rewrite E; done. Qed.
Lemma policies_inv_audit f db : policies_inv db → policies_inv (upd_auditLogs f db).
Proof. by apply policies_inv_ext. Qed.

Lemma same_elsewhere_trans p m m' m'' :
  same_elsewhere p m m' → same_elsewhere p m' m'' → same_elsewhere p m m''.
Proof. intros H1 H2 i r Hne. rewrite (H1 i r Hne). by apply H2. Qed.

(** A change within project [p] that settles its default. *)
Lemma policies_inv_step p db db' :
  same_elsewhere p (retryPolicies db) (retryPolicies db') →
  one_default (retryPolicies db') p →
  (∀ i r, retryPolicies db' !! i = Some r → RetryPolicy.projectId r = p →
     valid_settings (RetryPolicy.settings r)) →
  policies_inv db → policies_inv db'.
Proof.
  intros Hs Hd Hv [Hi Hv']. split.
  - intros q. destruct (decide (q = p)) as [->|Hq]; [done|]. by eapply one_default_elsewhere.
  - intros i r Hr. destruct (decide (RetryPolicy.projectId r = p)) as [Hq|Hq]; [by eapply Hv|].
    eapply Hv'. by apply (Hs i r Hq).
Qed.

(** [g] rewrites columns other than project, default flag and settings. *)
Definition same_shape (r r' : RetryPolicy.t) : Prop :=
  RetryPolicy.projectId r' = RetryPolicy.projectId r
  ∧ RetryPolicy.isDefault r' = RetryPolicy.isDefault r.

Lemma one_default_pointwise m m' q :
  (∀ i r', m' !! i = Some r' → ∃ r, m !! i = Some r ∧ same_shape r r') →
  (∀ i r, m !! i = Some r → ∃ r', m' !! i = Some r' ∧ same_shape r r') →
  one_default m q → one_default m' q.
Proof.
  intros Hb Hf [He Hu]. split.
  - intros i r' Hr' Hq. destruct (Hb i r' Hr') as (r & Hr & [Hp Hd]).
    destruct (He i r Hr) as (j & s & Hj & Hsq & Hsd); [congruence|].
    destruct (Hf j s Hj) as (s' & Hs' & [Hp' Hd']). exists j, s'. split_and!; congruence.
  - intros i r' j s' Hr' Hs' Hq Hq' Hd Hd'.
    destruct (Hb i r' Hr') as (r & Hr & [? ?]). destruct (Hb j s' Hs') as (s & Hs & [? ?]).
    eapply Hu; [exact Hr|exact Hs|congruence..].
Qed.

Lemma assertRetrySettings_valid s s' : assertRetrySettings s = Ok s' → valid_settings s'.
Proof.
  intros H. pose proof H as [-> _]%assertRetrySettings_Ok. done.
Qed.

Section proofs.
  Context (c : Ctx) (p : string) (Hp : ctx_project c = Some p).

Lemma rp_in_tenant db i r :
  in_tenant c db i r = bool_decide (RetryPolicy.projectId r = p).
Proof.
  unfold in_tenant. cbn. unfold project_matches, eqo. rewrite Hp. apply bool_decide_ext.
  naive_solver.
Qed.

(** An update leaves other projects alone when it keeps the project column. *)
Lemma update_elsewhere db m pr f :
  retryPolicies db = m → (∀ r, RetryPolicy.projectId (f r) = RetryPolicy.projectId r) →
  same_elsewhere p m (update_rows c db pr f).
Proof.
  intros <- Hf i r Hne. rewrite update_rows_lookup. change (tbl db) with (retryPolicies db).
  split.
  - intros ->. cbn. rewrite rp_in_tenant, bool_decide_eq_false_2; done.
  - intros (r0 & Hr & ->)%fmap_Some. rewrite Hr. f_equal. rewrite rp_in_tenant in *.
    case_bool_decide; [|done]. destruct (pr i r0); [|done]. cbn in Hne. by rewrite Hf in Hne.
Qed.

(** The rows of project [p] after an update. *)
Lemma update_here db pr f i r' :
  (∀ r, RetryPolicy.projectId (f r) = RetryPolicy.projectId r) →
  update_rows c db pr f !! i = Some r' → RetryPolicy.projectId r' = p →
  ∃ r, retryPolicies db !! i = Some r ∧ RetryPolicy.projectId r = p
     ∧ r' = if pr i r then f r else r.
Proof.
  intros Hf. rewrite update_rows_lookup. intros (r & Hr & ->)%fmap_Some Hq.
  rewrite rp_in_tenant in *. exists r. split; [done|].
  case_bool_decide; cbn in *; [by destruct (pr i r)|done].
Qed.
Lemma update_here_2 db pr f i r :
  retryPolicies db !! i = Some r → RetryPolicy.projectId r = p →
  update_rows c db pr f !! i = Some (if pr i r then f r else r).
Proof.
  intros Hr Hq. rewrite update_rows_lookup. change (tbl db) with (retryPolicies db).
  rewrite Hr. cbn. by rewrite rp_in_tenant, bool_decide_eq_true_2.
Qed.
Lemma rp_find db i r :
  find c db i = Some r ↔ retryPolicies db !! i = Some r ∧ RetryPolicy.projectId r = p.
Proof. by rewrite find_Some, rp_in_tenant, bool_decide_eq_true. Qed.

(** After a change within [p] that keeps settings and leaves [k] as the one
    default, the invariant holds. *)
Lemma settle_default db db' k :
  policies_inv db →
  same_elsewhere p (retryPolicies db) (retryPolicies db') →
  (∀ i r', retryPolicies db' !! i = Some r' → RetryPolicy.projectId r' = p →
     valid_settings (RetryPolicy.settings r') ∧ (RetryPolicy.isDefault r' = true ↔ i = k)) →
  (∃ r, retryPolicies db' !! k = Some r ∧ RetryPolicy.projectId r = p) →
  policies_inv db'.
Proof.
  intros Hi Hs Hr Hk. eapply policies_inv_step; [exact Hs| | |exact Hi].
  - apply (one_default_mark _ _ k); [|by left]. intros i r H1 H2. by apply (Hr i r).
  - intros i r H1 H2. by apply (Hr i r).
Qed.

Lemma cleared db k i r' :
  policies_inv db →
  update_rows c db (other_default k) (RetryPolicy.set_isDefault false) !! i = Some r' →
  RetryPolicy.projectId r' = p →
  valid_settings (RetryPolicy.settings r') ∧ (RetryPolicy.isDefault r' = true → i = k).
Proof.
  intros Hi Hr Hq. apply update_here in Hr as (r & Hr & _ & ->); [|done..].
  unfold other_default. destruct (RetryPolicy.isDefault r) eqn:Es; cbn.
  - case_bool_decide; cbn; (split; [by eapply pi_valid|done]).
  - split; [by eapply pi_valid|]. congruence.
Qed.

Lemma setDefault_commit policyId now db r db' :
  policies_inv db → setDefault c policyId now db = (Ok r, db') → policies_inv db'.
Proof.
  intros Hi. unfold setDefault, require. intros Hr. sinv. subst.
  apply rp_find in H as [Ht Htp].
  assert (update_rows c db (other_default policyId) (RetryPolicy.set_isDefault false) !! policyId
          = Some x) as Hk.
  { erewrite update_here_2 by done. unfold other_default.
    by rewrite bool_decide_eq_true_2, andb_false_r. }
  destruct (RetryPolicy.isDefault x) eqn:Hd; sinv;
    apply (settle_default db _ policyId); try done; cbn.
  - by apply update_elsewhere.
  - intros i r' Hr' Hq. destruct (cleared _ _ _ _ Hi Hr' Hq) as [? Hdef]. split; [done|].
    split; [done|]. intros ->. congruence.
  - eauto.
  - eapply same_elsewhere_trans;
      [by apply (update_elsewhere db _ (other_default policyId) (RetryPolicy.set_isDefault false))
      |by apply update_elsewhere].
  - intros i r' Hr' Hq. apply update_here in Hr' as (r & Hr' & Hq' & ->); [|done..].
    destruct (cleared _ _ _ _ Hi Hr' Hq') as [? Hdef]. case_bool_decide; [done|].
    split; [done|]. split; [by intros ?%Hdef|done].
  - eexists. split; [by eapply update_here_2|]. by rewrite bool_decide_eq_true_2.
Qed.

Lemma policies_update_commit policyId dto now db r db' :
  policies_inv db → policies_update c policyId dto now db = (Ok r, db') → policies_inv db'.
Proof.
  intros Hi. unfold policies_update, require.
  destruct (bool_decide _ && bool_decide _); intros Hr; sinv; [done|].
  assert (valid_settings x1) as Hv by by eapply assertRetrySettings_valid.
  eapply (policies_inv_step p); [| | |exact Hi]; cbn.
  - by apply update_elsewhere.
  - apply (one_default_pointwise (retryPolicies db)); [| |by apply pi_default].
    + intros i r' Hr'. rewrite update_rows_lookup in Hr'.
      apply fmap_Some in Hr' as (r0 & Hr0 & ->). exists r0. split; [done|].
      by destruct (_ && _).
    + intros i r0 Hr0. rewrite update_rows_lookup.
      change (tbl db) with (retryPolicies db). rewrite Hr0. eexists. split; [done|].
      by destruct (_ && _).
  - intros i r' Hr' Hq. apply update_here in Hr' as (r0 & Hr0 & _ & ->); [|done..].
    case_bool_decide; [done|]. by eapply pi_valid.
Qed.

(** No default in [p]: then, by the invariant, nothing in [p]. *)
Lemma no_default_no_policy db :
  policies_inv db → matching c db (λ _ r, RetryPolicy.isDefault r) = ∅ →
  ∀ i r, retryPolicies db !! i = Some r → RetryPolicy.projectId r ≠ p.
Proof.
  intros Hi He i r Hr Hq. destruct (pi_default _ Hi p) as [Hex _].
  destruct (Hex i r Hr Hq) as (j & s & Hj & Hsq & Hd).
  assert (matching c db (λ _ r, RetryPolicy.isDefault r) !! j = Some s) as Hm.
  { apply matching_lookup. by rewrite rp_in_tenant, bool_decide_eq_true_2. }
  by rewrite He in Hm.
Qed.

Lemma insert_elsewhere m k r :
  m !! k = None → RetryPolicy.projectId r = p → same_elsewhere p m (<[k:=r]> m).
Proof.
  intros Hk Hr i s Hne. rewrite lookup_insert_Some. split.
  - intros Hs. right. split; [congruence|done].
  - intros [[-> <-]|[_ ?]]; done.
Qed.

(** Inserting a default when [p] has none, or a further policy when it has one. *)
Lemma insert_default db db1 k r :
  policies_inv db → same_elsewhere p (retryPolicies db) (retryPolicies db1) →
  retryPolicies db1 !! k = None → RetryPolicy.projectId r = p →
  valid_settings (RetryPolicy.settings r) → RetryPolicy.isDefault r = true →
  (∀ i s, retryPolicies db1 !! i = Some s → RetryPolicy.projectId s = p →
     valid_settings (RetryPolicy.settings s) ∧ RetryPolicy.isDefault s = false) →
  policies_inv (upd_retryPolicies (<[k:=r]>) db1).
Proof.
  intros Hi Hs Hk Hq Hv Hd Hold. apply (settle_default db _ k); cbn; [done| | |].
  - eapply same_elsewhere_trans; [exact Hs|by apply insert_elsewhere].
  - intros i s [[<- <-]|[Hne Hs']]%lookup_insert_Some Hsq; [done|].
    destruct (Hold i s Hs' Hsq) as [? Hf]. split; [done|]. rewrite Hf. split; [done|congruence].
  - exists r. by rewrite lookup_insert_eq.
Qed.

Lemma insert_plain db k r j d :
  policies_inv db → retryPolicies db !! k = None → RetryPolicy.projectId r = p →
  valid_settings (RetryPolicy.settings r) → RetryPolicy.isDefault r = false →
  retryPolicies db !! j = Some d → RetryPolicy.projectId d = p → RetryPolicy.isDefault d = true →
  policies_inv (upd_retryPolicies (<[k:=r]>) db).
Proof.
  intros Hi Hk Hq Hv Hd Hj Hjq Hjd. apply (settle_default db _ j); cbn; [done| | |].
  - by apply insert_elsewhere.
  - intros i s [[<- <-]|[Hne Hs']]%lookup_insert_Some Hsq.
    + split; [done|]. rewrite Hd. split; [done|congruence].
    + split; [by eapply pi_valid|]. split; [|intros ->; congruence].
      intros Hsd. destruct (pi_default _ Hi p) as [_ Hu]. by eapply Hu.
  - exists d. rewrite lookup_insert_ne by congruence. done.
Qed.

Lemma policies_create_commit dto id now db r db' :
  policies_inv db → policies_create c dto id now db = (Ok r, db') → policies_inv db'.
Proof.
  intros Hi. unfold policies_create, requireHeadroom. intros Hr. sinv. subst.
  apply assertRetrySettings_valid in H.
  assert (tc_project x1 = p) as Ht.
  { cbn in H3. unfold requireProject in H3. rewrite Hp in H3. cbn in H3. by injection H3 as <-. }
  clear H0 H3 H8 H10. apply policies_inv_audit. destruct (head _) as [[j d]|] eqn:Eh.
  - apply matching_head, matching_lookup in Eh as (Hj & Hjt & Hjd). cbn in Hj, Hjt, Hjd.
    rewrite rp_in_tenant in Hjt. apply bool_decide_eq_true in Hjt.
    destruct (bool_decide (c_is_default dto = Some true)) eqn:Ed;
      rewrite bool_decide_eq_false_2 in H2 by done; cbn [andb orb negb] in H2; sinv.
    + apply (insert_default db); try done.
      * by apply update_elsewhere.
      * intros i s Hs Hsq. apply update_here in Hs as (s0 & Hs & Hsq' & ->); [|done..].
        destruct (RetryPolicy.isDefault s0) eqn:Es; cbn; (split; [by eapply pi_valid|done]).
    + apply (insert_plain db id _ j d); try done.
  - apply matching_empty in Eh.
    destruct (bool_decide (c_is_default dto = Some true)); cbn in H2; sinv;
      (apply (insert_default db); try done; intros i s Hs Hsq;
       by destruct (no_default_no_policy db Hi Eh i s)).
Qed.

Lemma promote_successor_Ok policyId policy others rid now db o db' :
  promote_successor c policyId policy others rid now db = (Ok o, db') →
  (db' = db ∧ (RetryPolicy.isDefault policy = false ∨ (others <= 0)%Z))
  ∨ (∃ k (r : RetryPolicy.t), k ≠ policyId ∧ find c db k = Some r
      ∧ RetryPolicy.isDefault policy = true
      ∧ db' = upd_tbl (λ _, update_rows c db (λ i _, bool_decide (i = k))
                (λ r, RetryPolicy.set_updatedAt now (RetryPolicy.set_isDefault true r))) db).
Proof.
  unfold promote_successor, require.
  destruct (RetryPolicy.isDefault policy && (0 <? others)%Z) eqn:E.
  - destruct (given rid) as [k|]; intros Hr; sinv. right. bprop. eauto 10.
  - destruct (given rid); intros Hr; sinv. left. split; [done|]. bprop.
    destruct E; bprop; auto.
Qed.

Lemma unlink_Ok policyId db n db' :
  unlinkDeletedEndpoints c policyId db = (Ok n, db') →
  retryPolicies db' = retryPolicies db
  ∧ (∀ e r, endpoints db !! e = Some r → is_deleted r = false → endpoints db' !! e = Some r).
Proof.
  unfold unlinkDeletedEndpoints. intros Hr. sinv.
  destruct (_ =? 0)%Z; sinv; [done|]. split; [done|]. intros e r He Hd. cbn.
  rewrite update_rows_lookup. change (tbl db) with (endpoints db).
  rewrite He. cbn. by rewrite Hd, !andb_false_r.
Qed.

Lemma delete_elsewhere m k r :
  m !! k = Some r → RetryPolicy.projectId r = p → same_elsewhere p m (delete k m).
Proof.
  intros Hk Hr i s Hne. rewrite lookup_delete_Some. split; [|by intros [_ ?]].
  intros Hs. split; [congruence|done].
Qed.

(** What [remove] does to the policies, on each of its three branches. *)
Lemma remove_policies policyId rid now db u db' :
  policies_remove c policyId rid now db = (Ok u, db') →
  ∃ policy, retryPolicies db !! policyId = Some policy ∧ RetryPolicy.projectId policy = p ∧
  ((retryPolicies db' = delete policyId (retryPolicies db)
    ∧ (RetryPolicy.isDefault policy = false
       ∨ ∀ i r, retryPolicies db !! i = Some r → RetryPolicy.projectId r = p → i = policyId))
   ∨ ∃ k r, k ≠ policyId ∧ retryPolicies db !! k = Some r ∧ RetryPolicy.projectId r = p
      ∧ RetryPolicy.isDefault policy = true
      ∧ retryPolicies db' = delete policyId (update_rows c db (λ i _, bool_decide (i = k))
          (λ r, RetryPolicy.set_updatedAt now (RetryPolicy.set_isDefault true r)))).
Proof.
  unfold policies_remove, require. intros Hr. sinv. apply rp_find in H as [Hx Hxp].
  exists x. split; [done|]. split; [done|]. cbn.
  apply unlink_Ok in H4 as [-> _].
  apply promote_successor_Ok in H3 as [[-> Hd]|(k & r & Hne & Hk & Hxd & ->)].
  - left. split; [done|]. destruct Hd as [|Ho]; [by left|]. right. intros i r Hi Hr.
    assert (x5 = 0%Z) as E by lia. rewrite H2 in E.
    pose proof (proj1 (matching_size_0 c db _) E i r Hi) as Hz.
    rewrite rp_in_tenant, bool_decide_eq_true_2 in Hz by done. specialize (Hz eq_refl).
    by bprop.
  - right. apply rp_find in Hk as [Hk Hkp]. by exists k, r.
Qed.

Lemma policies_remove_commit policyId rid now db u db' :
  policies_inv db → policies_remove c policyId rid now db = (Ok u, db') → policies_inv db'.
Proof.
  intros Hi Hr. apply remove_policies in Hr as (x & Hx & Hxp & [[E Hc]|(k & r & Hne & Hk & Hkp & Hxd & E)]).
  - destruct Hc as [Hd|Hall].
    + destruct (pi_default _ Hi p) as [Hex Hu].
      destruct (Hex policyId x Hx Hxp) as (j & s & Hj & Hjp & Hjd).
      apply (settle_default db _ j); rewrite ?E; [done|by eapply delete_elsewhere| |].
      * intros i r [Hne Hr]%lookup_delete_Some Hq. split; [by eapply pi_valid|].
        split; [intros ?; by eapply Hu|intros ->; congruence].
      * exists s. rewrite lookup_delete_ne by congruence. done.
    + apply (policies_inv_step p db); rewrite ?E; [by eapply delete_elsewhere| | |exact Hi].
      * apply (one_default_mark _ _ policyId); [|right].
        -- intros i r [Hne Hr]%lookup_delete_Some Hq. by destruct Hne; symmetry; eapply Hall.
        -- intros i r [Hne Hr]%lookup_delete_Some Hq. by destruct Hne; symmetry; eapply Hall.
      * intros i r [_ Hr]%lookup_delete_Some _. by eapply pi_valid.
  - destruct (pi_default _ Hi p) as [Hex Hu].
    apply (settle_default db _ k); rewrite ?E; [done| | |].
    + eapply same_elsewhere_trans; [by apply (update_elsewhere db _ (λ i _, bool_decide (i = k))
        (λ r, RetryPolicy.set_updatedAt now (RetryPolicy.set_isDefault true r)))|].
      eapply delete_elsewhere; [by eapply update_here_2|].
      rewrite bool_decide_eq_false_2; done.
    + intros i r' [Hni Hr']%lookup_delete_Some Hq.
      apply update_here in Hr' as (r0 & Hr0 & Hq0 & ->); [|done..].
      case_bool_decide; cbn; [split; [by eapply pi_valid|done]|].
      split; [by eapply pi_valid|]. split; [|done]. intros Hd.
      destruct Hni. eapply Hu; [exact Hx|exact Hr0|done..].
    + eexists. rewrite lookup_delete_ne by done. split; [by eapply update_here_2|].
      by rewrite bool_decide_eq_true_2.
Qed.

Lemma no_live_user policyId rid now db u db' e r :
  policies_remove c policyId rid now db = (Ok u, db') →
  endpoints db !! e = Some r → Endpoint.projectId r = p → is_deleted r = false →
  uses policyId r = false.
Proof.
  unfold policies_remove, require. intros Hr He Hep Hed. sinv.
  bprop. assert (x1 = 0%Z) as E by lia. rewrite H0 in E.
  pose proof (proj1 (matching_size_0 c db _) E e r He) as Hz.
  unfold in_tenant in Hz. cbn in Hz. unfold project_matches, eqo in Hz.
  rewrite Hp, bool_decide_eq_true_2 in Hz by congruence. specialize (Hz eq_refl).
  by rewrite Hed, andb_true_r in Hz.
Qed.

(** Endpoints that are not deleted are never rewritten by a removal. *)
Lemma remove_endpoints policyId rid now db u db' e r :
  policies_remove c policyId rid now db = (Ok u, db') →
  endpoints db !! e = Some r → Endpoint.projectId r = p → is_deleted r = false →
  endpoints db' !! e = Some r.
Proof.
  intros Hr He Hep Hed.
  assert (uses policyId r = false) as Hu by by eapply no_live_user.
  revert Hr. unfold policies_remove, require. intros Hr. sinv.
  assert (endpoints x8 !! e = Some r) as He8.
  { by apply promote_successor_Ok in H3 as [[-> _]|(? & ? & _ & _ & _ & ->)]. }
  apply unlink_Ok in H4 as [_ Hk]. cbn. rewrite lookup_fmap. cbn. rewrite (Hk e r He8 Hed). cbn.
  unfold uses in Hu. by rewrite Hu.
Qed.
End proofs.

(** ** Reachable states *)

(** One request against the service, by any member of any organization, with a
    resolved project; it commits or it throws. *)
Inductive step : Db → Db → Prop :=
| step_create c p dto id now db :
    ctx_project c = Some p → step db (policies_create c dto id now db).2
| step_update c p id dto now db :
    ctx_project c = Some p → step db (policies_update c id dto now db).2
| step_setDefault c p id now db :
    ctx_project c = Some p → step db (setDefault c id now db).2
| step_remove c p id rid now db :
    ctx_project c = Some p → step db (policies_remove c id rid now db).2
(* anything else that does not write the table *)
| step_other db db' : retryPolicies db' = retryPolicies db → step db db'.

Lemma policies_update_atomic c id dto now : Atomic (policies_update c id dto now).
Proof.
  unfold policies_update. destruct (_ && _); [apply requireById_atomic|apply atomic_transact].
Qed.
Lemma policies_create_atomic c dto id now : Atomic (policies_create c dto id now).
Proof. apply atomic_lift. intros s. apply atomic_transact. Qed.

Lemma step_inv db db' : policies_inv db → step db db' → policies_inv db'.
Proof.
  intros Hi Hs. revert Hi. destruct Hs as [c p ???? Hp|c p ???? Hp|c p ??? Hp|c p ???? Hp|?? E];
    intros Hi; [..|by eapply policies_inv_ext]; apply atomic_inv; try done.
  - apply policies_create_atomic.
  - intros r db' Hr. by eapply policies_create_commit.
  - apply policies_update_atomic.
  - intros r db' Hr. by eapply policies_update_commit.
  - apply atomic_transact.
  - intros r db' Hr. by eapply setDefault_commit.
  - apply atomic_transact.
  - intros r db' Hr. by eapply policies_remove_commit.
Qed.

(** C2. Through any sequence of requests, by anyone, in any order, committed
    or refused: a project that has retry policies has exactly one default, and
    every stored policy is one validation accepts. *)
Theorem reachable_policies_inv (db db' : Db) (Hi : policies_inv db) (Hs : star step db db') :
  (∀ p i r, retryPolicies db' !! i = Some r → RetryPolicy.projectId r = p →
     ∃ j, (∃ s, retryPolicies db' !! j = Some s ∧ RetryPolicy.projectId s = p
              ∧ RetryPolicy.isDefault s = true)
        ∧ ∀ k s, retryPolicies db' !! k = Some s → RetryPolicy.projectId s = p →
            RetryPolicy.isDefault s = true → k = j)
  ∧ (∀ i r, retryPolicies db' !! i = Some r →
       assertRetrySettings (RetryPolicy.settings r) = Ok (RetryPolicy.settings r)).
Proof.
  apply (star_invariant step policies_inv step_inv) in Hs as [Hd Hv]; [|done].
  split; [|exact Hv]. intros p i r Hr Hp. destruct (Hd p) as [He Hu].
  destruct (He i r Hr Hp) as (j & s & Hj & Hjp & Hjd). exists j. split; [eauto|].
  intros k s' Hk Hkp Hkd. by eapply Hu.
Qed.

Definition rp_ctx : Ctx := MkCtx "o1" (Some "p1") "m1" admin "u1".
Definition rp_dto (name : string) (d : option bool) : CreateDto :=
  {| c_name := js name; c_is_default := d;
     c_patch := MkPatch None None None None None None None |}.
(** Three requests: a first policy, a second that takes over, a refused removal. *)
Definition rp_db : Db :=
  (policies_remove rp_ctx "b" None 3
    (policies_create rp_ctx (rp_dto "b" (Some true)) "b" 2
      (policies_create rp_ctx (rp_dto "a" None) "a" 1 empty_db).2).2).2.

Lemma reachable_policies_inv_witness :
  RetryPolicy.isDefault <$> retryPolicies rp_db !! "b" = Some true
  ∧ RetryPolicy.isDefault <$> retryPolicies rp_db !! "a" = Some false
  ∧ ∃ r, retryPolicies rp_db !! "b" = Some r
       ∧ assertRetrySettings (RetryPolicy.settings r) = Ok (RetryPolicy.settings r).
Proof.
  split; [vm_compute; reflexivity|]. split; [vm_compute; reflexivity|].
  assert (policies_inv empty_db) as Hi by (split; [split|]; cbn; intros; simplify_map_eq).
  assert (star step empty_db rp_db) as Hs.
  { eapply star_step; [by eapply (step_create rp_ctx "p1" (rp_dto "a" None) "a" 1)|].
    eapply star_step; [by eapply (step_create rp_ctx "p1" (rp_dto "b" (Some true)) "b" 2)|].
    eapply star_step; [by eapply (step_remove rp_ctx "p1" "b" None 3)|]. apply star_refl. }
  destruct (reachable_policies_inv empty_db rp_db Hi Hs) as [_ Hv].
  assert (is_Some (retryPolicies rp_db !! "b")) as [r Hr] by (vm_compute; eauto).
  exists r. split; [exact Hr|]. exact (Hv "b" r Hr).
Defined.

(** Removing a policy never moves a live endpoint onto another backoff:
    it succeeds only when no live endpoint of the project uses the policy, and
    afterwards the policy is gone while every live endpoint of the project is
    exactly what it was. *)
Theorem remove_spares_live_endpoints (c : Ctx) (p policyId : string) (rid : option string)
  (now : Z) (db db' : Db) (u : unit)
  (Hp : ctx_project c = Some p) (Hr : policies_remove c policyId rid now db = (Ok u, db')) :
  retryPolicies db' !! policyId = None
  ∧ ∀ e r, endpoints db !! e = Some r → Endpoint.projectId r = p →
      Endpoint.status r ≠ EndpointStatus.deleted →
      endpoints db' !! e = Some r ∧ Endpoint.retryPolicyId r ≠ Some policyId.
Proof.
  split.
  - destruct (remove_policies c p Hp policyId rid now db u db' Hr)
      as (x & _ & _ & [[-> _]|(k & r & _ & _ & _ & _ & ->)]); apply lookup_delete_eq.
  - intros e r He Hep Hed.
    assert (is_deleted r = false) as Hd by by apply bool_decide_eq_false_2.
    split; [by eapply remove_endpoints|]. intros Hu.
    assert (uses policyId r = true) as Hu' by by apply bool_decide_eq_true_2.
    by rewrite (no_live_user c p Hp policyId rid now db u db' e r) in Hu'.
Qed.

Lemma remove_spares_live_endpoints_witness :
  let db0 := upd_endpoints (insert "e1" (ep "p1")) rp_db in
  let db1 := (policies_remove rp_ctx "b" (Some "a") 4 db0).2 in
  retryPolicies db1 !! "b" = None ∧ endpoints db1 !! "e1" = Some (ep "p1").
Proof.
  intros db0 db1.
  assert (policies_remove rp_ctx "b" (Some "a") 4 db0 = (Ok tt, db1)) as Hr
    by (vm_compute; reflexivity).
  destruct (remove_spares_live_endpoints rp_ctx "p1" "b" (Some "a") 4 db0 db1 tt eq_refl Hr)
    as [H1 H2].
  split; [exact H1|]. refine (proj1 (H2 "e1" (ep "p1") _ eq_refl _)); [vm_compute; reflexivity|].
  discriminate.
Defined.
