(* ===== verification/Members.v ===== *)
(** Memberships and invitations: auth/token.service.ts,
    organizations/user-scope.ts and members/members.service.ts.

    SHA-256 is a parameter.  Mail is sent after the fact and leaves no state,
    so it is not modelled; fresh ids, raw tokens and the clock are arguments. *)
From Stdlib Require Import ZArith Lia Ascii.
From S2P Require Import Prelude Js Permissions RetryRules AuditTrail Db Scope.

(** ** Identifiers inside JSON *)

(** The identifier a JSON string spells; identifiers are Latin-1. *)
Fixpoint unjs (s : jsstr) : option string :=
  match s with
  | [] => Some EmptyString
  | c :: s => if (c <? 256)%N then String (ascii_of_N c) <$> unjs s else None
  end.

Fixpoint lookup_key (k : jsstr) (l : list (jsstr * meta)) : option meta :=
  match l with
  | [] => None
  | (k', v) :: l => if seqb k' k then Some v else lookup_key k l
  end.

(** A property that must be a non-empty string. *)
Definition id_field (k : string) (l : list (jsstr * meta)) : option string :=
  match lookup_key (js k) l with
  | Some (MStr s) => match unjs s with Some EmptyString => None | o => o end
  | _ => None
  end.

(** [MEMBER_ROLES.includes(role)] *)
Definition parse_role (s : jsstr) : option MemberRole :=
  head (filter (λ r, js (role_name r) = s) MEMBER_ROLES).

(** ** Tokens *)

Definition TOKEN_TTL_MS (t : UserTokenType.t) : Z :=
  match t with
  | UserTokenType.email_verification => 86400000
  | UserTokenType.password_reset => 3600000
  | UserTokenType.invitation => 604800000
  end.

Section Tokens.
  (** The hex digest of SHA-256. *)
  Context (hashToken : jsstr → jsstr).

Definition issue (type : UserTokenType.t) (email : jsstr) (userId : option string)
    (metadata : option meta) (ttlMs : option Z) (id : string) (raw : jsstr) (now : Z)
    : M Db unit :=
  let ttl := default (TOKEN_TTL_MS type) ttlMs in
  let record := UserToken.mk userId (toLowerCase email) type (hashToken raw) metadata
                  (now + ttl)%Z None in
  clash ← gets (λ db, bool_decide (is_Some (userTokens db !! id))
    || exists_row (userTokens db) (λ t, bool_decide (UserToken.tokenHash t = hashToken raw)));
  _ ← guardM clash internal_error (P2002 "token_hash");
  modify (upd_userTokens (insert id record)).

(** The row is claimed by one conditional UPDATE. *)
Definition claimable (raw : jsstr) (type : UserTokenType.t) (now : Z) (t : UserToken.t) : bool :=
  bool_decide (UserToken.tokenHash t = hashToken raw) && bool_decide (UserToken.type t = type)
  && bool_decide (UserToken.consumedAt t = None) && (now <? UserToken.expiresAt t)%Z.

Definition consume (raw : jsstr) (type : UserTokenType.t) (now : Z) : M Db (option UserToken.t) :=
  claimed ← gets (λ db, size (filter (λ kv, claimable raw type now kv.2 = true) (userTokens db)));
  _ ← modify (upd_userTokens (fmap (λ t,
        if claimable raw type now t then UserToken.set_consumedAt (Some now) t else t)));
  if negb (claimed =? 1) then mret None
  else gets (λ db, snd <$> head (map_to_list (filter
         (λ kv, UserToken.tokenHash kv.2 = hashToken raw) (userTokens db)))).

Definition revokeOutstanding (email : jsstr) (type : UserTokenType.t) (now : Z) : M Db nat :=
  let outstanding t := bool_decide (UserToken.email t = toLowerCase email)
    && bool_decide (UserToken.type t = type) && bool_decide (UserToken.consumedAt t = None) in
  n ← gets (λ db, size (filter (λ kv, outstanding kv.2 = true) (userTokens db)));
  _ ← modify (upd_userTokens (fmap (λ t,
        if outstanding t then UserToken.set_consumedAt (Some now) t else t)));
  mret n.
End Tokens.

(** ** The user's own scope *)

Record Principal : Type := { pr_user : string; pr_email : jsstr }.

(** [contextForNewMembership]: every field from rows just written. *)
Definition contextForNewMembership (pr : Principal) (orgId membershipId : string)
    (m : Member.t) : Ctx :=
  MkCtx orgId None membershipId (Member.role m) (pr_user pr).

Definition createOwnedOrganization (pr : Principal) (orgId : string) (name slug : jsstr)
    (membershipId : string) (andThen : string → Member.t → M Db unit) : M Db Member.t :=
  transact (
    clash ← gets (λ db, bool_decide (is_Some (organizations db !! orgId)));
    _ ← guardM clash internal_error (P2002 "id");
    clash ← gets (λ db, exists_row (organizations db) (λ o, bool_decide (Organization.slug o = slug)));
    _ ← guardM clash internal_error (P2002 "slug");
    _ ← modify (upd_organizations (insert orgId
          (Organization.mk name slug OrganizationStatus.active)));
    let m := Member.mk orgId (pr_user pr) owner in
    clash ← gets (λ db, bool_decide (is_Some (members db !! membershipId)));
    _ ← guardM clash internal_error (P2002 "id");
    _ ← modify (upd_members (insert membershipId m));
    _ ← andThen membershipId m;
    mret m).

Definition is_membership (orgId userId : string) (m : Member.t) : bool :=
  bool_decide (Member.organizationId m = orgId) && bool_decide (Member.userId m = userId).
Definition membership_of (db : Db) (orgId userId : string) : option (string * Member.t) :=
  head (map_to_list (filter (λ kv, is_membership orgId userId kv.2 = true) (members db))).

(** What [verify] is shown. *)
Record InvitationState : Type := {
  is_organization : Organization.t;
  is_inviter : option Member.t;
  is_existing : option (string * Member.t)
}.

Definition INVALID_INVITATION : string := "This invitation is invalid or has expired.".

Definition join (pr : Principal) (orgId invitedBy membershipId : string) (role : MemberRole)
    (verify : InvitationState → result unit) (andThen : string → Member.t → M Db unit)
    : M Db (string * Member.t) :=
  transact (
    org ← gets (λ db, organizations db !! orgId);
    match org with
    | None => throwM invalid_request INVALID_INVITATION
    | Some org =>
        inviterRow ← gets (λ db, members db !! invitedBy);
        let inviter := m ← inviterRow;
          if bool_decide (Member.organizationId m = orgId) then Some m else None in
        existing ← gets (λ db, membership_of db orgId (pr_user pr));
        _ ← lift (verify {| is_organization := org; is_inviter := inviter;
                            is_existing := existing |});
        match existing with
        | Some e => mret e
        | None =>
            let m := Member.mk orgId (pr_user pr) role in
            clash ← gets (λ db, bool_decide (is_Some (members db !! membershipId)));
            _ ← guardM clash internal_error (P2002 "id");
            _ ← modify (upd_members (insert membershipId m));
            _ ← andThen membershipId m;
            mret (membershipId, m)
        end
    end).

(** ** The members service *)

Record Invitation : Type := {
  inv_org : string;
  inv_role : MemberRole;
  inv_membership : string;
  inv_user : string
}.

Definition parseInvitation (value : option meta) : option Invitation :=
  match value with
  | Some (MObj raw) =>
      o ← id_field "organizationId" raw;
      m ← id_field "invitedByMembershipId" raw;
      u ← id_field "invitedByUserId" raw;
      match lookup_key (js "role") raw with
      | Some (MStr s) =>
          r ← parse_role s;
          Some {| inv_org := o; inv_role := r; inv_membership := m; inv_user := u |}
      | _ => None
      end
  | _ => None
  end.

Definition invitation_metadata (i : Invitation) : meta :=
  MObj [(js "organizationId", MStr (js (inv_org i)));
        (js "role", MStr (js (role_name (inv_role i))));
        (js "invitedByMembershipId", MStr (js (inv_membership i)));
        (js "invitedByUserId", MStr (js (inv_user i)))].

(** [safely]: a failure is logged and becomes null. *)
Definition safely {A} (m : M Db A) : M Db (option A) := λ db,
  match m db with
  | (Ok a, db') => (Ok (Some a), db')
  | (Throw _, db') => (Ok None, db')
  end.

Section Members.
  Context (hashToken : jsstr → jsstr).

Definition assertMayAssign (actor target : MemberRole) : result unit :=
  throw_if (negb (mayAssignRole actor target)) forbidden ("You may not assign the role " +:+ quote (role_name target) +:+ ".").

(** [directory.findByEmail]: the account with that address. *)
Definition findByEmail (db : Db) (email : jsstr) : option string :=
  fst <$> head (map_to_list (filter (λ kv, User.email kv.2 = email) (users db))).

Definition invite (c : Ctx) (email : jsstr) (role : MemberRole) (id : string) (raw : jsstr)
    (now : Z) : M Db unit :=
  _ ← lift (assertMayAssign (ctx_role c) role);
  let email := toLowerCase (trim email) in
  identity ← gets (λ db, findByEmail db email);
  existing ← match identity with
             | Some u => findFirst (R:=Member.t) c (λ _ m, bool_decide (Member.userId m = u))
             | None => mret None
             end;
  match existing with
  | Some (mid, _) =>
      recordFor c "member.invite_ignored" "member" (Some mid)
        [(js "email", MStr email); (js "reason", MStr (js "already_a_member"));
         (js "requested_role", MStr (js (role_name role)))]
  | None =>
      let metadata := {| inv_org := ctx_org c; inv_role := role;
                         inv_membership := ctx_membership c; inv_user := ctx_user c |} in
      issued ← safely (issue hashToken UserTokenType.invitation email None
                         (Some (invitation_metadata metadata)) None id raw now);
      match issued with
      | Some _ =>
          recordFor c "member.invited" "member" None
            [(js "email", MStr email); (js "role", MStr (js (role_name role)))]
      | None => mret tt
      end
  end.

Definition is_owner (m : Member.t) : bool := bool_decide (Member.role m = owner).

Definition changeRole (c : Ctx) (memberId : string) (role : MemberRole) : M Db Member.t :=
  transact (
    target ← requireById c memberId;
    owners ← count c (λ _ m, is_owner m);
    _ ← lift (assertRoleChangeAllowed {|
          actorRole := ctx_role c;
          actorMembershipId := ctx_membership c;
          targetMembershipId := memberId;
          currentRole := Member.role target;
          nextRole := role;
          ownerCount := owners |});
    if bool_decide (Member.role target = role) then mret target
    else
      changed ← updateById c memberId (Member.set_role role);
      _ ← recordFor c "member.role_changed" "member" (Some memberId)
            [(js "user_id", MStr (js (Member.userId changed)));
             (js "from", MStr (js (role_name (Member.role target))));
             (js "to", MStr (js (role_name (Member.role changed))))];
      mret changed).

Definition members_remove (c : Ctx) (memberId : string) : M Db unit :=
  transact (
    target ← requireById (R:=Member.t) c memberId;
    owners ← count c (λ _ m, is_owner m);
    _ ← lift (assertMemberRemovalAllowed {|
          actorRole := ctx_role c;
          actorMembershipId := ctx_membership c;
          targetMembershipId := memberId;
          currentRole := Member.role target;
          nextRole := Member.role target;
          ownerCount := owners |});
    _ ← deleteById (R:=Member.t) c memberId;
    recordFor c "member.removed" "member" (Some memberId)
      [(js "user_id", MStr (js (Member.userId target)));
       (js "role", MStr (js (role_name (Member.role target))))]).

(** The policy [accept] hands to [joinOrganization]. *)
Definition verify_invitation (i : Invitation) (s : InvitationState) : result unit :=
  if is_existing s is Some _ then Ok tt else
  _ ← throw_if (negb (bool_decide (Organization.status (is_organization s)
                                   = OrganizationStatus.active))) conflict
        "That organization is not accepting new members right now.";
  match is_inviter s with
  | None => throw conflict
      "The member who invited you is no longer part of that organization. Ask for a new invitation."
  | Some m =>
      throw_if (negb (mayAssignRole (Member.role m) (inv_role i))) conflict
        "The member who invited you can no longer grant that role. Ask for a new invitation."
  end.

Definition audit_joined (pr : Principal) (i : Invitation) (mid : string) (m : Member.t) : M Db unit :=
  recordFor (contextForNewMembership pr (inv_org i) mid m) "member.joined" "member" (Some mid)
    [(js "user_id", MStr (js (Member.userId m)));
     (js "role", MStr (js (role_name (Member.role m))));
     (js "invited_by_membership_id", MStr (js (inv_membership i)));
     (js "invited_by_user_id", MStr (js (inv_user i)))].

(** Redemption: consume first, then prove. *)
Definition accept (pr : Principal) (token : jsstr) (membershipId : string) (now : Z)
    : M Db (string * Member.t) :=
  record ← consume hashToken token UserTokenType.invitation now;
  match record with
  | None => throwM invalid_request INVALID_INVITATION
  | Some record =>
      match parseInvitation (UserToken.metadata record) with
      | None => throwM invalid_request INVALID_INVITATION
      | Some i =>
          _ ← guardM (negb (seqb (toLowerCase (UserToken.email record))
                                 (toLowerCase (trim (pr_email pr)))))
                invalid_request INVALID_INVITATION;
          join pr (inv_org i) (inv_membership i) membershipId (inv_role i)
            (verify_invitation i) (audit_joined pr i)
      end
  end.
End Members.

(** ** At least one owner *)

Definition owner_inv (db : Db) : Prop :=
  ∀ o, is_Some (organizations db !! o) →
    ∃ i m, members db !! i = Some m ∧ Member.organizationId m = o ∧ Member.role m = owner.

(** A change that keeps organizations and, for each of them, some owner. *)
Lemma owner_inv_step db db' :
  organizations db' = organizations db →
  (∀ i m, members db !! i = Some m → Member.role m = owner →
     ∃ j m', members db' !! j = Some m' ∧ Member.organizationId m' = Member.organizationId m
           ∧ Member.role m' = owner) →
  owner_inv db → owner_inv db'.
Proof.
  intros Eo Hk Hi o Ho. rewrite Eo in Ho. destruct (Hi o Ho) as (i & m & Hm & Hmo & Hr).
  destruct (Hk i m Hm Hr) as (j & m' & Hj & Hjo & Hjr). exists j, m'. split_and!; congruence.
Qed.

Lemma owner_inv_ext db db' :
  organizations db' = organizations db → members db' = members db → owner_inv db → owner_inv db'.
Proof. intros E1 E2. apply owner_inv_step; [done|]. rewrite E2. eauto. Qed.

Lemma member_in_tenant c db i m :
  in_tenant c db i m = bool_decide (Member.organizationId m = ctx_org c).
Proof. unfold in_tenant. cbn. unfold eqo. apply bool_decide_ext. split; congruence. Qed.

Lemma member_find c db i (m : Member.t) :
  find c db i = Some m ↔ members db !! i = Some m ∧ Member.organizationId m = ctx_org c.
Proof. by rewrite find_Some, member_in_tenant, bool_decide_eq_true. Qed.

Lemma size_another {V} (m : gmap string V) i :
  (1 < Z.of_nat (size m))%Z → ∃ j v, j ≠ i ∧ m !! j = Some v.
Proof.
  intros Hs. destruct (map_choose (delete i m)) as (j & v & Hj).
  - intros E. apply map_size_empty_iff in E. rewrite map_size_delete in E.
    destruct (m !! i); unfold id in E; lia.
  - apply lookup_delete_Some in Hj as [? ?]. eauto.
Qed.

(** Another owner of the organization, when there are at least two. *)
Lemma another_owner c db i :
  (1 < Z.of_nat (size (matching c db (λ _ m, is_owner m))))%Z →
  ∃ j m, j ≠ i ∧ members db !! j = Some m ∧ Member.organizationId m = ctx_org c
       ∧ Member.role m = owner.
Proof.
  intros (j & m & Hne & (Hm & Ht & Hr)%matching_lookup)%(size_another _ i).
  rewrite member_in_tenant in Ht. unfold is_owner in Hr. bprop. by exists j, m.
Qed.

Lemma changeRole_members c id role db m db' :
  changeRole c id role db = (Ok m, db') →
  organizations db' = organizations db ∧
  (members db' = members db ∨
   ∃ old, members db !! id = Some old ∧ Member.organizationId old = ctx_org c
     ∧ mayAssignRole (ctx_role c) role = true
     ∧ (Member.role old = owner → role ≠ owner →
        (1 < Z.of_nat (size (matching c db (λ _ m, is_owner m))))%Z)
     ∧ members db' = <[id := Member.set_role role old]> (members db)).
Proof.
  unfold changeRole. intros Hr. sinv. subst. destruct x3.
  apply roleChange_Ok in H1 as (_ & Hmay & _ & Hc). cbn in Hmay, Hc.
  apply member_find in H as [Hx Hxo]. case_bool_decide; sinv; [by eauto|].
  split; [done|]. right. exists x. split_and!; try done. cbn.
  apply map_eq. intros i. rewrite update_rows_lookup. change (tbl db) with (members db).
  destruct (decide (i = id)) as [->|Hne].
  - rewrite lookup_insert_eq, Hx. cbn. rewrite member_in_tenant, !bool_decide_eq_true_2; done.
  - rewrite lookup_insert_ne by done. destruct (members db !! i); cbn; [|done].
    by rewrite (bool_decide_eq_false_2 (i = id)), andb_false_r.
Qed.

Lemma changeRole_commit c id role db m db' :
  owner_inv db → changeRole c id role db = (Ok m, db') → owner_inv db'.
Proof.
  intros Hi Hr. apply changeRole_members in Hr as (Eo & [Em|(old & Hold & Ho & _ & Hc & Em)]).
  { by eapply owner_inv_ext. }
  eapply owner_inv_step; [exact Eo| |exact Hi]. rewrite Em. intros i m' Hm Hrole.
  destruct (decide (i = id)) as [->|Hne]; [|exists i, m'; by rewrite lookup_insert_ne].
  simplify_eq. destruct (decide (role = owner)) as [->|Hr].
  - eexists id, _. by rewrite lookup_insert_eq.
  - destruct (another_owner c db id (Hc Hrole Hr)) as (j & m2 & Hj & Hm2 & Ho2 & Hr2).
    exists j, m2. rewrite lookup_insert_ne by done. split_and!; congruence.
Qed.

Lemma members_remove_members c id db u db' :
  members_remove c id db = (Ok u, db') →
  organizations db' = organizations db ∧
  ∃ old, members db !! id = Some old ∧ Member.organizationId old = ctx_org c
    ∧ mayAssignRole (ctx_role c) (Member.role old) = true ∧ id ≠ ctx_membership c
    ∧ (Member.role old = owner →
       (1 < Z.of_nat (size (matching c db (λ _ m, is_owner m))))%Z)
    ∧ members db' = delete id (members db).
Proof.
  unfold members_remove. intros Hr. sinv. subst. destruct x3.
  apply memberRemoval_Ok in H1 as (Hself & Hmay & Hc). cbn in Hself, Hmay, Hc.
  apply member_find in H as [Hx Hxo]. split; [done|]. by exists x.
Qed.

Lemma members_remove_commit c id db u db' :
  owner_inv db → members_remove c id db = (Ok u, db') → owner_inv db'.
Proof.
  intros Hi Hr. apply members_remove_members in Hr as (Eo & old & Hold & Ho & _ & _ & Hc & Em).
  eapply owner_inv_step; [exact Eo| |exact Hi]. rewrite Em. intros i m' Hm Hrole.
  destruct (decide (i = id)) as [->|Hne]; [|exists i, m'; by rewrite lookup_delete_ne].
  simplify_eq. destruct (another_owner c db id (Hc Hrole)) as (j & m2 & Hj & Hm2 & Ho2 & Hr2).
  exists j, m2. rewrite lookup_delete_ne by done. split_and!; congruence.
Qed.

(** ** Joining *)

(** What a successful [join] has done: nothing for a member, or one insert that
    [verify] saw the state of. *)
Lemma join_Ok pr o by_ mid role verify i db p db' :
  join pr o by_ mid role verify (audit_joined pr i) db = (Ok p, db') →
  ∃ org inviter, organizations db !! o = Some org
    ∧ inviter = (m ← members db !! by_; if bool_decide (Member.organizationId m = o)
                                         then Some m else None)
    ∧ verify {| is_organization := org; is_inviter := inviter;
                is_existing := membership_of db o (pr_user pr) |} = Ok tt
    ∧ ((membership_of db o (pr_user pr) = Some p ∧ db' = db)
       ∨ (membership_of db o (pr_user pr) = None ∧ members db !! mid = None
          ∧ p = (mid, Member.mk o (pr_user pr) role)
          ∧ organizations db' = organizations db
          ∧ members db' = <[mid := Member.mk o (pr_user pr) role]> (members db))).
Proof.
  unfold join. intros Hj. sinv. subst. destruct (organizations db !! o) as [org|] eqn:Eo; sinv.
  subst. exists org. eexists. split; [done|]. split; [done|].
  match goal with H : verify _ = Ok ?u |- _ => destruct u end. split; [done|].
  destruct (membership_of db o (pr_user pr)) as [e|]; sinv; [by left; subst|].
  right. subst. bprop. unfold audit_joined in *. sinv. subst. split_and!; try done.
  by apply eq_None_not_Some.
Qed.

Lemma owner_inv_insert db db' mid m :
  members db !! mid = None → organizations db' = organizations db →
  members db' = <[mid := m]> (members db) → owner_inv db → owner_inv db'.
Proof.
  intros Hn Eo Em. apply owner_inv_step; [done|]. rewrite Em. intros i m' Hm' Hr.
  exists i, m'. rewrite lookup_insert_ne by congruence. done.
Qed.

Lemma owner_inv_tokens f : Preserves owner_inv (modify (upd_userTokens f)).
Proof. intros db. by apply owner_inv_ext. Qed.

Lemma owner_inv_audit c a ty id md : Preserves owner_inv (recordFor c a ty id md).
Proof. intros db. unfold recordFor. by apply owner_inv_ext. Qed.
#[export] Hint Resolve owner_inv_tokens owner_inv_audit : preserves.

Lemma consume_preserves h raw ty now : Preserves owner_inv (consume h raw ty now).
Proof.
  unfold consume. apply preserves_bind; [apply preserves_gets|]. intros n.
  apply preserves_bind; [apply owner_inv_tokens|]. intros _. destruct (negb _); eauto with preserves.
Qed.

Lemma accept_preserves h pr tok mid now : Preserves owner_inv (accept h pr tok mid now).
Proof.
  unfold accept. apply preserves_bind; [apply consume_preserves|]. intros [r|]; [|eauto with preserves].
  destruct (parseInvitation _) as [i|]; [|eauto with preserves].
  apply preserves_bind; [eauto with preserves|]. intros _.
  intros db Hi. destruct (join _ _ _ _ _ _ _ db) as [[p|e] db'] eqn:E; cbn.
  - apply join_Ok in E as (org & inv & _ & _ & _ & [[_ ->]|(_ & Hn & _ & Eo & Em)]); [done|].
    by eapply owner_inv_insert.
  - apply transact_Throw in E. by subst.
Qed.

Lemma preserves_safely {A} P (m : M Db A) : Preserves P m → Preserves P (safely m).
Proof. intros Hm db Hi. specialize (Hm db Hi). unfold safely. by destruct (m db) as [[]?]. Qed.

Lemma issue_preserves h ty email u md ttl id raw now :
  Preserves owner_inv (issue h ty email u md ttl id raw now).
Proof. unfold issue. eauto 10 with preserves. Qed.

Lemma invite_preserves h c email role id raw now : Preserves owner_inv (invite h c email role id raw now).
Proof.
  unfold invite. apply preserves_bind; [eauto with preserves|]. intros _.
  apply preserves_bind; [eauto with preserves|]. intros u. apply preserves_bind.
  { destruct u; [unfold findFirst|]; eauto with preserves. }
  intros [[e ?]|]; [eauto with preserves|]. apply preserves_bind.
  - apply preserves_safely, issue_preserves.
  - intros [|]; eauto with preserves.
Qed.

Lemma createOwned_preserves pr o name slug mid :
  Preserves owner_inv (createOwnedOrganization pr o name slug mid (λ i m,
    recordFor (contextForNewMembership pr o i m) "organization.created" "organization" (Some o)
      [(js "name", MStr name); (js "slug", MStr slug)])).
Proof.
  apply preserves_transact_commit. intros db m db' Hi Hr. cbv zeta in Hr. sinv. subst. bprop.
  intros o' Ho'. cbn in Ho'. destruct (decide (o' = o)) as [->|Hne].
  - exists mid, (Member.mk o (pr_user pr) owner). cbn. by rewrite lookup_insert_eq.
  - rewrite lookup_insert_ne in Ho' by done. destruct (Hi o' Ho') as (i & m & Hm & Hmo & Hmr).
    exists i, m. cbn. rewrite lookup_insert_ne; [done|]. intros ->.
    match goal with H : ¬ is_Some (members _ !! _) |- _ => apply H end. cbn. eauto.
Qed.

(** ** Reachable states *)

Section Reachable.
  Context (hashToken : jsstr → jsstr).

(** One request that writes memberships, by anyone; it commits or it throws. *)
Inductive member_step : Db → Db → Prop :=
| ms_changeRole c id role db : member_step db (changeRole c id role db).2
| ms_remove c id db : member_step db (members_remove c id db).2
| ms_invite c email role id raw now db :
    member_step db (invite hashToken c email role id raw now db).2
| ms_accept pr tok mid now db : member_step db (accept hashToken pr tok mid now db).2
| ms_create pr o name slug mid db :
    member_step db (createOwnedOrganization pr o name slug mid (λ i m,
      recordFor (contextForNewMembership pr o i m) "organization.created" "organization" (Some o)
        [(js "name", MStr name); (js "slug", MStr slug)]) db).2
(* anything else: it neither creates organizations nor touches memberships *)
| ms_other db db' :
    (∀ o, is_Some (organizations db' !! o) → is_Some (organizations db !! o)) →
    members db' = members db → member_step db db'.

Lemma member_step_inv db db' : owner_inv db → member_step db db' → owner_inv db'.
Proof.
  intros Hi Hs. revert Hi. destruct Hs as [c id role db|c id db|c email role id raw now db
    |pr tok mid now db|pr o name slug mid db|db db' Ho Em]; intros Hi.
  - apply atomic_inv; [apply atomic_transact| |done]. intros m db' Hr. by eapply changeRole_commit.
  - apply atomic_inv; [apply atomic_transact| |done]. intros u db' Hr. by eapply members_remove_commit.
  - by apply invite_preserves.
  - by apply accept_preserves.
  - by apply createOwned_preserves.
  - intros o Hso. rewrite Em. by apply Hi, Ho.
Qed.
End Reachable.

(** C3. An organization is never left without an owner: whatever sequence of
    role changes, removals, invitations, redemptions and organization creations
    runs, by whomever, every organization has a member whose role is owner. *)
Theorem reachable_has_owner (hashToken : jsstr → jsstr) (db db' : Db)
  (Hi : owner_inv db) (Hs : star (member_step hashToken) db db') (o : string)
  (Ho : is_Some (organizations db' !! o)) :
  ∃ i m, members db' !! i = Some m ∧ Member.organizationId m = o ∧ Member.role m = owner.
Proof. by apply (star_invariant _ _ (member_step_inv hashToken) _ _ Hs Hi). Qed.

Definition no_hash (s : jsstr) : jsstr := s.
Definition alice : Principal := {| pr_user := "u1"; pr_email := js "a@x.io" |}.
Definition bob : Principal := {| pr_user := "u2"; pr_email := js " B@x.io" |}.
Definition alice_ctx : Ctx := MkCtx "o1" None "m1" owner "u1".
(** Alice creates an organization, invites Bob as owner, and he accepts. *)
Definition org_created : Db :=
  (createOwnedOrganization alice "o1" (js "Acme") (js "acme") "m1" (λ i m,
     recordFor (contextForNewMembership alice "o1" i m) "organization.created" "organization"
       (Some "o1") [(js "name", MStr (js "Acme")); (js "slug", MStr (js "acme"))]) empty_db).2.
Definition invited : Db := (invite no_hash alice_ctx (js "b@x.io") owner "t1" (js "raw") 0 org_created).2.
Definition joined : Db := (accept no_hash bob (js "raw") "m2" 5 invited).2.

Lemma reachable_has_owner_witness :
  Member.role <$> members joined !! "m2" = Some owner ∧
  ∃ i m, members joined !! i = Some m ∧ Member.organizationId m = "o1" ∧ Member.role m = owner.
Proof.
  split; [vm_compute; reflexivity|].
  apply (reachable_has_owner no_hash empty_db joined).
  - intros o [x Hx]. cbn in Hx. by rewrite lookup_empty in Hx.
  - eapply star_step; [apply (ms_create no_hash alice "o1" (js "Acme") (js "acme") "m1")|].
    eapply star_step; [apply (ms_invite no_hash alice_ctx (js "b@x.io") owner "t1" (js "raw") 0)|].
    eapply star_step; [apply (ms_accept no_hash bob (js "raw") "m2" 5)|]. apply star_refl.
  - vm_compute. eauto.
Defined.

(** ** Who can make an owner *)

Definition owns (db : Db) (i o : string) : Prop :=
  ∃ m, members db !! i = Some m ∧ Member.organizationId m = o ∧ Member.role m = owner.

Lemma consume_members h raw ty now db r db' :
  consume h raw ty now db = (Ok r, db') →
  members db' = members db ∧ organizations db' = organizations db.
Proof. unfold consume. intros Hr. sinv. subst. destruct (negb _); by sinv. Qed.

(** A redemption that returned, taken apart. *)
Lemma accept_Ok h pr tok mid now db p db' :
  accept h pr tok mid now db = (Ok p, db') →
  ∃ db1 t i, consume h tok UserTokenType.invitation now db = (Ok (Some t), db1)
    ∧ parseInvitation (UserToken.metadata t) = Some i
    ∧ toLowerCase (UserToken.email t) = toLowerCase (trim (pr_email pr))
    ∧ join pr (inv_org i) (inv_membership i) mid (inv_role i)
        (verify_invitation i) (audit_joined pr i) db1 = (Ok p, db').
Proof.
  unfold accept. intros Ha. apply bindM_Ok in Ha as ([t|] & db1 & Hc & Ha); [|by sinv].
  destruct (parseInvitation (UserToken.metadata t)) as [i|] eqn:Ei; [|by sinv].
  apply bindM_Ok in Ha as (u & db2 & [Hg ->]%guardM_Ok & Ha).
  apply negb_false_iff, bool_decide_eq_true in Hg. by exists db1, t, i.
Qed.

(** ** Tokens are single-use *)

(** The unique index on token_hash. *)
Definition hash_unique (db : Db) : Prop :=
  ∀ i j t u, userTokens db !! i = Some t → userTokens db !! j = Some u →
    UserToken.tokenHash t = UserToken.tokenHash u → i = j.

Lemma claimable_hash h raw ty now t :
  claimable h raw ty now t = true → UserToken.tokenHash t = h raw ∧ UserToken.consumedAt t = None.
Proof. unfold claimable. intros H. bprop. done. Qed.

(** What a claim found, and what it left. *)
Lemma consume_Some h raw ty now db t db' :
  hash_unique db → consume h raw ty now db = (Ok (Some t), db') →
  ∃ id t0, userTokens db !! id = Some t0 ∧ claimable h raw ty now t0 = true
    ∧ t = UserToken.set_consumedAt (Some now) t0
    ∧ userTokens db' !! id = Some t.
Proof.
  intros Hu. unfold consume. intros Hc. sinv. subst.
  destruct (negb _) eqn:E; sinv; [done|]. bprop.
  destruct (map_choose (filter (λ kv, claimable h raw ty now kv.2 = true) (userTokens db)))
    as (id & t0 & Ht0). { intros Ee. rewrite Ee, map_size_empty in E. done. }
  apply map_lookup_filter_Some in Ht0 as [Ht0 Hcl]. cbn in Hcl.
  exists id, t0. split; [done|]. split; [done|].
  set (db' := upd_userTokens _ db) in *.
  assert (userTokens db' !! id = Some (UserToken.set_consumedAt (Some now) t0)) as Hid.
  { cbn. rewrite lookup_fmap, Ht0. cbn. by rewrite Hcl. }
  match goal with H : Some t = _ |- _ => symmetry in H; apply fmap_Some in H as ([j u] & Hh & ->) end.
  cbn [snd].
  assert ((j, u) ∈ map_to_list (filter (λ kv, UserToken.tokenHash kv.2 = h raw) (userTokens db')))
    as Hin. { destruct (map_to_list _); [done|]. injection Hh as ->. by left. }
  apply elem_of_map_to_list, map_lookup_filter_Some in Hin as [Hj Hjh]. cbn in Hjh.
  pose proof Hj as Hj'. cbn in Hj'. rewrite lookup_fmap in Hj'.
  apply fmap_Some in Hj' as (u0 & Hu0 & ->).
  assert (UserToken.tokenHash u0 = h raw) as Hh0 by (by destruct (claimable _ _ _ _ u0)).
  assert (j = id) as ->; [|simplify_eq; rewrite Hcl in *; done].
  eapply (Hu _ _ u0 t0); [done..|]. rewrite Hh0. symmetry. by eapply claimable_hash.
Qed.

(** Operations on the token table, any user's, in any order. *)
Inductive token_step (h : jsstr → jsstr) : Db → Db → Prop :=
| ts_issue ty email u md ttl id raw now db :
    token_step h db (issue h ty email u md ttl id raw now db).2
| ts_consume raw ty now db : token_step h db (consume h raw ty now db).2
| ts_revoke email ty now db : token_step h db (revokeOutstanding email ty now db).2.

(** The row with this hash is consumed. *)
Definition spent (db : Db) (hash : jsstr) : Prop :=
  hash_unique db ∧ ∃ id t, userTokens db !! id = Some t ∧ UserToken.tokenHash t = hash
    ∧ UserToken.consumedAt t ≠ None.

(** Rewriting rows in place, hash kept, never clears a consumption. *)
Lemma spent_fmap (f : UserToken.t → UserToken.t) db hash :
  (∀ t, UserToken.tokenHash (f t) = UserToken.tokenHash t) →
  (∀ t, UserToken.consumedAt t ≠ None → UserToken.consumedAt (f t) ≠ None) →
  spent db hash → spent (upd_userTokens (fmap f) db) hash.
Proof.
  intros Hf Hc [Hu (id & t & Ht & Hh & Hn)]. split.
  - intros i j t1 t2. cbn. rewrite !lookup_fmap.
    intros (u1 & H1 & ->)%fmap_Some (u2 & H2 & ->)%fmap_Some. rewrite !Hf. by eapply Hu.
  - exists id, (f t). cbn. rewrite lookup_fmap, Ht, Hf. cbn. eauto.
Qed.

Lemma spent_step h db db' hash : spent db hash → token_step h db db' → spent db' hash.
Proof.
  intros Hs Ht. revert Hs. destruct Ht as [ty email u md ttl id raw now db|raw ty now db
    |email ty now db]; intros Hs.
  - apply (atomic_inv (λ db, spent db hash)); [| |done].
    { apply atomic_gets. intros [] db0 e db1; [by intros [= _ <-]|done]. }
    intros x db' Hr. unfold issue in Hr. sinv. subst. bprop. destruct Hs as [Hu (i & t & Hi & Hh & Hn)].
    assert (userTokens db !! id = None) as Hid by by apply eq_None_not_Some.
    assert (∀ j v, userTokens db !! j = Some v → UserToken.tokenHash v ≠ h raw) as Hfresh.
    { intros j v Hj Hv. apply (proj1 (exists_row_false _ _) H0) in Hj.
      cbv beta in Hj. by bprop. }
    split.
    + intros j k t1 t2. cbn. rewrite !lookup_insert_Some.
      intros [[<- <-]|[Hj H1]] [[<- <-]|[Hk H2]] He; cbn in He; try done;
        try (by destruct (Hfresh _ _ H1)); try (by destruct (Hfresh _ _ H2)). by eapply Hu.
    + exists i, t. cbn. rewrite lookup_insert_ne by congruence. done.
  - assert ((consume h raw ty now db).2 = upd_userTokens (fmap (λ t, if claimable h raw ty now t
      then UserToken.set_consumedAt (Some now) t else t)) db) as ->.
    { unfold consume, mbind, M_bind, gets, modify. by destruct (negb _). }
    apply spent_fmap; [| |done]; intros t; by destruct (claimable _ _ _ _ t).
  - cbn. apply spent_fmap; [| |done]; intros t; by destruct (_ && _).
Qed.

Lemma consume_spent h raw ty now db : spent db (h raw) → (consume h raw ty now db).1 = Ok None.
Proof.
  intros [Hu (id & t & Ht & Hh & Hn)]. unfold consume, mbind, M_bind, gets, modify.
  assert (filter (λ kv, claimable h raw ty now kv.2 = true) (userTokens db) = ∅) as ->.
  { apply map_eq. intros i. rewrite lookup_empty. apply eq_None_not_Some.
    intros [v [Hv Hc]%map_lookup_filter_Some]. cbn in Hc. apply claimable_hash in Hc as [Hvh Hvn].
    assert (i = id) as -> by (eapply (Hu i id v t); congruence). congruence. }
  by rewrite map_size_empty.
Qed.

(** A redemption that returned a row has spent its token. *)
Lemma consume_spends h raw ty now db t db1 :
  hash_unique db → consume h raw ty now db = (Ok (Some t), db1) → spent db1 (h raw).
Proof.
  intros Hu Hc.
  destruct (consume_Some h raw ty now db t db1 Hu Hc) as (id & t0 & Ht0 & Hcl & -> & Hid).
  pose proof (claimable_hash _ _ _ _ _ Hcl) as [Hh _]. split; [|by exists id, (UserToken.set_consumedAt (Some now) t0)].
  assert (db1 = upd_userTokens (fmap (λ t, if claimable h raw ty now t
      then UserToken.set_consumedAt (Some now) t else t)) db) as ->.
  { change db1 with ((Ok (Some t0), db1).2). apply (f_equal snd) in Hc. cbn in Hc. rewrite <- Hc.
    unfold consume, mbind, M_bind, gets, modify. by destruct (negb _). }
  intros i j t1 t2. cbn. rewrite !lookup_fmap.
  intros (u1 & H1 & ->)%fmap_Some (u2 & H2 & ->)%fmap_Some He. eapply (Hu i j u1 u2); try done.
  by destruct (claimable _ _ _ _ u1), (claimable _ _ _ _ u2).
Qed.

(** A token works once.  After a redemption that succeeded, no further
    presentation of the same token, at any time, as any type, after any
    sequence of issues, redemptions and revocations, returns a row. *)
Theorem consume_once (h : jsstr → jsstr) (raw : jsstr) (ty ty' : UserTokenType.t) (now now' : Z)
  (t : UserToken.t) (db db1 db2 : Db) (Hu : hash_unique db)
  (Hc : consume h raw ty now db = (Ok (Some t), db1)) (Hs : star (token_step h) db1 db2) :
  (consume h raw ty' now' db2).1 = Ok None.
Proof.
  apply consume_spent. apply (star_invariant (token_step h) (λ db, spent db (h raw))) with (2 := Hs).
  { intros a b. apply spent_step. }
  by eapply consume_spends.
Qed.
Lemma hash_unique_one db id t :
  userTokens db = {[id := t]} → hash_unique db.
Proof.
  intros E i j u v. rewrite E, !lookup_singleton_Some. naive_solver.
Qed.

Lemma consume_once_witness :
  let db1 := (consume no_hash (js "raw") UserTokenType.invitation 5 invited).2 in
  (consume no_hash (js "raw") UserTokenType.invitation 6
     (revokeOutstanding (js "b@x.io") UserTokenType.invitation 6 db1).2).1 = Ok None.
Proof.
  intros db1.
  assert (∃ t, userTokens invited = {[ "t1" := t ]}
             ∧ consume no_hash (js "raw") UserTokenType.invitation 5 invited
               = (Ok (Some (UserToken.set_consumedAt (Some 5%Z) t)), db1)) as (t & Ht & Hc).
  { eexists. split; vm_compute; reflexivity. }
  apply (consume_once no_hash (js "raw") UserTokenType.invitation UserTokenType.invitation 5 6
    _ invited db1 _ (hash_unique_one _ _ _ Ht) Hc).
  eapply star_step; [apply (ts_revoke no_hash (js "b@x.io") UserTokenType.invitation 6)|].
  apply star_refl.
Defined.

(** The effect of a redemption that returned. *)
Definition redeemed (h : jsstr → jsstr) (pr : Principal) (tok : jsstr) (mid : string) (now : Z)
    (db db' : Db) : Prop :=
  ∃ id t i, userTokens db !! id = Some t
    ∧ claimable h tok UserTokenType.invitation now t = true
    ∧ parseInvitation (UserToken.metadata t) = Some i
    ∧ toLowerCase (UserToken.email t) = toLowerCase (trim (pr_email pr))
    ∧ (members db' = members db
       ∨ members db !! mid = None
         ∧ members db' = <[mid := Member.mk (inv_org i) (pr_user pr) (inv_role i)]> (members db)
         ∧ (∃ org, organizations db !! inv_org i = Some org
                 ∧ Organization.status org = OrganizationStatus.active)
         ∧ ∃ m, members db !! inv_membership i = Some m ∧ Member.organizationId m = inv_org i
              ∧ mayAssignRole (Member.role m) (inv_role i) = true).

Lemma accept_redeemed h pr tok mid now db db' p :
  hash_unique db → accept h pr tok mid now db = (Ok p, db') → redeemed h pr tok mid now db db'.
Proof.
  intros Hu Ha.
  apply accept_Ok in Ha as (db1 & t & i & Hc & Hi & He & Hj).
  destruct (consume_members _ _ _ _ _ _ _ Hc) as [Em Eo].
  destruct (consume_Some h tok _ now db t db1 Hu Hc) as (id & t0 & Ht0 & Hcl & -> & _).
  exists id, t0, i. split_and!; try done.
  apply join_Ok in Hj as (org & inviter & Horg & Hinv & Hv & [[_ ->]|(He' & Hn & _ & _ & Em')]);
    [by left|right]. rewrite Em in *. rewrite Eo in *. split; [done|]. split; [done|].
  unfold verify_invitation in Hv. cbn in Hv. rewrite He' in Hv.
  apply bind_Ok in Hv as (u & Hact%throw_if_Ok & Hv). bprop. split; [by exists org|].
  rewrite Hinv in Hv. destruct (members db !! inv_membership i) as [m|]; cbn in Hv; [|done].
  case_bool_decide; [|done]. apply throw_if_Ok in Hv. bprop. by exists m.
Qed.

(** Redeeming an invitation: on success the token was live, unconsumed and
    addressed to the caller's own session address; either the caller was a
    member already and no membership changed, or exactly one membership was
    added, for the caller's own user id, in an active organization, at the
    invited role, and the inviter is still a member there whose current role
    may assign it. *)
Theorem accept_grants (h : jsstr → jsstr) (pr : Principal) (tok : jsstr) (mid : string) (now : Z)
  (db db' : Db) (p : string * Member.t) (Hu : hash_unique db)
  (Ha : accept h pr tok mid now db = (Ok p, db')) :
  redeemed h pr tok mid now db db'.
Proof. by eapply accept_redeemed. Qed.

Lemma accept_grants_witness :
  ∃ id t i, userTokens invited !! id = Some t
    ∧ claimable no_hash (js "raw") UserTokenType.invitation 5 t = true
    ∧ parseInvitation (UserToken.metadata t) = Some i
    ∧ members joined !! "m2" = Some (Member.mk "o1" "u2" owner).
Proof.
  assert (∃ t, userTokens invited = {[ "t1" := t ]}) as [t Ht] by (eexists; vm_compute; reflexivity).
  assert (accept no_hash bob (js "raw") "m2" 5 invited
          = (Ok ("m2", Member.mk "o1" "u2" owner), joined)) as Ha by (vm_compute; reflexivity).
  destruct (accept_grants no_hash bob (js "raw") "m2" 5 invited joined _
              (hash_unique_one _ _ _ Ht) Ha) as (id & t' & i & H1 & H2 & H3 & _).
  exists id, t', i. split; [exact H1|]. split; [exact H2|]. split; [exact H3|].
  vm_compute. reflexivity.
Defined.

Lemma consume_total h raw ty now db : ∃ r db', consume h raw ty now db = (Ok r, db').
Proof. unfold consume, mbind, M_bind, gets, modify. destruct (negb _); by do 2 eexists. Qed.

(** A refused redemption may have spent the token; it changed no membership. *)
Lemma accept_Throw h pr tok mid now db e db' :
  accept h pr tok mid now db = (Throw e, db') → members db' = members db.
Proof.
  destruct (consume_total h tok UserTokenType.invitation now db) as (r & db1 & Hc).
  destruct (consume_members _ _ _ _ _ _ _ Hc) as [<- _].
  unfold accept. unfold mbind at 1, M_bind at 1. rewrite Hc.
  destruct r as [t|]; [|by intros [= _ <-]].
  destruct (parseInvitation _) as [i|]; [|by intros [= _ <-]].
  unfold mbind at 1, M_bind at 1, guardM, lift. destruct (throw_if _ _ _); [|by intros [= _ <-]].
  intros Hj. apply transact_Throw in Hj. by subst.
Qed.

(** Owners are made by owners.  A membership of an organization that was
    not an owner of it before a request and is one afterwards was promoted by
    an actor whose role in that organization is owner, or joined on the
    invitation of a membership that is an owner there at that moment; a removal
    makes nobody an owner. *)
Theorem new_owner_needs_owner (h : jsstr → jsstr) (db : Db) (i o : string) (Hn : ¬ owns db i o) :
  (∀ c id role, owns (changeRole c id role db).2 i o → o = ctx_org c ∧ ctx_role c = owner)
  ∧ (∀ c id, ¬ owns (members_remove c id db).2 i o)
  ∧ (∀ pr tok mid now, hash_unique db → owns (accept h pr tok mid now db).2 i o →
       i = mid ∧ ∃ j, owns db j o).
Proof.
  split_and!.
  - intros c id role Hc. destruct (changeRole c id role db) as [[m|e] db'] eqn:E; cbn in Hc.
    + apply changeRole_members in E as (_ & [Em|(old & Hold & Ho & Hmay & _ & Em)]).
      { destruct Hn. unfold owns. by rewrite <- Em. }
      destruct Hc as (m' & Hm' & Hmo & Hr). rewrite Em in Hm'.
      apply lookup_insert_Some in Hm' as [[<- <-]|[_ Hm']]; [|destruct Hn; by exists m'].
      cbn in Hmo, Hr. subst role. split; [congruence|]. by apply mayAssign_owner.
    + apply transact_Throw in E. by subst.
  - intros c id Hc. destruct (members_remove c id db) as [[m|e] db'] eqn:E; cbn in Hc.
    + apply members_remove_members in E as (_ & old & _ & _ & _ & _ & _ & Em).
      destruct Hc as (m' & Hm' & Hmo & Hr). rewrite Em in Hm'.
      apply lookup_delete_Some in Hm' as [_ Hm']. destruct Hn. by exists m'.
    + apply transact_Throw in E. by subst.
  - intros pr tok mid now Hu Hc. destruct (accept h pr tok mid now db) as [[p|e] db'] eqn:E; cbn in Hc.
    + apply (accept_redeemed _ _ _ _ _ _ _ _ Hu) in E
        as (id & t & inv & _ & _ & _ & _ & [Em|Hnew]).
      { destruct Hn. unfold owns. by rewrite <- Em. }
      destruct Hnew as (_ & Em & _ & m & Hm & Hmo & Hmay). destruct Hc as (m' & Hm' & Hmo' & Hr).
      rewrite Em in Hm'. apply lookup_insert_Some in Hm' as [[<- <-]|[_ Hm']];
        [|destruct Hn; by exists m']. split; [done|]. cbn in Hmo', Hr. subst o.
      exists (inv_membership inv), m. split_and!; [done..|]. rewrite Hr in Hmay.
      by apply mayAssign_owner.
    + apply accept_Throw in E. destruct Hn. unfold owns. by rewrite <- E.
Qed.

Lemma new_owner_needs_owner_witness :
  ¬ owns invited "m2" "o1" ∧ owns joined "m2" "o1" ∧ ∃ j, owns invited j "o1".
Proof.
  assert (¬ owns invited "m2" "o1") as Hn.
  { intros (m & Hm & _). vm_compute in Hm. discriminate Hm. }
  assert (owns joined "m2" "o1") as Hy
    by (exists (Member.mk "o1" "u2" owner); vm_compute; repeat split; reflexivity).
  assert (∃ t, userTokens invited = {[ "t1" := t ]}) as [t Ht] by (eexists; vm_compute; reflexivity).
  split; [exact Hn|]. split; [exact Hy|].
  destruct (new_owner_needs_owner no_hash invited "m2" "o1" Hn) as (_ & _ & Ha).
  exact (proj2 (Ha bob (js "raw") "m2" 5%Z (hash_unique_one _ _ _ Ht) Hy)).
Defined.

(** ** Round trip of the invitation *)

Lemma unjs_js s : unjs (js s) = Some s.
Proof.
  induction s as [|a s IH]; [done|]. change (js (String a s)) with (N_of_ascii a :: js s).
  cbn [unjs]. rewrite IH. assert (N_of_ascii a <? 256 = true)%N as ->.
  { apply N.ltb_lt, N_ascii_bounded. }
  cbn. by rewrite ascii_N_embedding.
Qed.

(** What [invite] writes into a token is what [accept] reads out of it. *)
Theorem parseInvitation_roundtrip (i : Invitation)
  (Ho : inv_org i ≠ EmptyString) (Hm : inv_membership i ≠ EmptyString)
  (Hu : inv_user i ≠ EmptyString) :
  parseInvitation (Some (invitation_metadata i)) = Some i.
Proof.
  assert (∀ k s raw, lookup_key (js k) raw = Some (MStr (js s)) → s ≠ EmptyString →
    id_field k raw = Some s) as Hs.
  { intros k s raw Hk Hne. unfold id_field. rewrite Hk, unjs_js. by destruct s. }
  unfold parseInvitation, invitation_metadata.
  rewrite (Hs "organizationId" (inv_org i)) by done.
  cbn [mbind option_bind]. rewrite (Hs "invitedByMembershipId" (inv_membership i)) by done.
  cbn [mbind option_bind]. rewrite (Hs "invitedByUserId" (inv_user i)) by done.
  by destruct i as [o [] m u].
Qed.

Lemma parseInvitation_roundtrip_witness :
  parseInvitation (Some (invitation_metadata
    {| inv_org := "o1"; inv_role := admin; inv_membership := "m1"; inv_user := "u1" |}))
  = Some {| inv_org := "o1"; inv_role := admin; inv_membership := "m1"; inv_user := "u1" |}.
Proof. apply parseInvitation_roundtrip; discriminate. Defined.
