(* ===== verification/EndpointSecrets.v ===== *)
(** Signing secrets and their rotation:
    endpoint-secrets/endpoint-secrets.service.ts and dto/index.ts.

    AES-GCM encryption is a parameter; the generated plaintext, fresh ids and
    the clock are arguments. *)
From Stdlib Require Import ZArith Lia.
From S2P Require Import Prelude Js Permissions RetryRules AuditTrail Db Scope.

Definition DEFAULT_OVERLAP_SECONDS : Z := 86400.
Definition SECRETS_TABLE : jsstr := js "endpoint_secrets".

(** Would this secret sign at [now]? *)
Definition isEffectivelyActive (s : EndpointSecret.t) (now : Z) : bool :=
  if negb (EndpointSecret.active s) then false
  else match EndpointSecret.expiresAt s with
       | None => true
       | Some t => (now <? t)%Z
       end.

(** A row and its id. *)
Definition secret_row : Type := string * EndpointSecret.t.

(** Which prior versions are still signing, and until when. *)
Definition stillSigningAfter (liveBefore : list secret_row) (extendedIds : list string)
    (newExpiry now : Z) : list Z * option Z :=
  let surviving :=
    filter (λ vu, (now <? vu.2)%Z = true)
      (map (λ s : secret_row,
         (EndpointSecret.version s.2,
          if bool_decide (s.1 ∈ extendedIds) then newExpiry
          else default 0%Z (EndpointSecret.expiresAt s.2))) liveBefore) in
  match surviving with
  | [] => ([], None)
  | v :: rest =>
      (sort_by (λ a b, (b <=? a)%Z) (map fst surviving),
       Some (foldr Z.max v.2 (map snd rest)))
  end.

Section Service.
(** [crypto.encrypt(plaintext, { table, id, owner })] *)
  Context (encrypt : jsstr → jsstr → string → string → jsstr).
  Context (c : Ctx).

Definition requireEndpoint (endpointId : string) : M Db Endpoint.t := requireById c endpointId.

Definition of_endpoint (endpointId : string) (_ : string) (s : EndpointSecret.t) : bool :=
  bool_decide (EndpointSecret.endpointId s = endpointId).

(** Every secret of the endpoint, newest version first. *)
Definition secretsFor (endpointId : string) : M Db (list secret_row) :=
  rows ← findAll c (of_endpoint endpointId);
  mret (sort_by (λ a b : secret_row,
    (EndpointSecret.version b.2 <=? EndpointSecret.version a.2)%Z) rows).

Definition endpoint_deleted (e : Endpoint.t) : bool :=
  bool_decide (Endpoint.status e = EndpointStatus.deleted).

Definition assertStillSigning (endpointId : string) (e : Endpoint.t) (now : Z) : M Db unit :=
  if endpoint_deleted e then mret tt
  else
    remaining ← secretsFor endpointId;
    guardM (negb (existsb (λ s : secret_row, isEffectivelyActive s.2 now) remaining)) internal_error
      "Refusing to commit: this would have left an active endpoint with no signing secret".

Definition next_version (existing : list secret_row) : Z :=
  foldl (λ highest s, Z.max highest (EndpointSecret.version s.2)) 0%Z existing + 1.

(** A unique violation is reported as a conflict. *)
Definition catch_P2002 {A} (m : M Db A) : M Db A := λ db,
  match m db with
  | (Throw e, db') =>
      if bool_decide (is_Some (uniqueViolationTarget e))
      then (throw conflict "Another rotation for this endpoint is in progress. Retry the request.", db')
      else (Throw e, db')
  | r => r
  end.

Definition insertSecret (endpointId : string) (existing : list secret_row) (id : string)
    (plaintext : jsstr) (now : Z) : M Db EndpointSecret.t :=
  catch_P2002 (create c id (λ _,
    EndpointSecret.mk endpointId (encrypt plaintext SECRETS_TABLE id endpointId)
      (next_version existing) true now None None)).

Definition in_ids (endpointId : string) (ids : list string) (id : string) (s : EndpointSecret.t) : bool :=
  of_endpoint endpointId id s && bool_decide (id ∈ ids).

(** [secret.active && expiresAt !== null && expiresAt <= now] *)
Definition is_stale (now : Z) (s : EndpointSecret.t) : bool :=
  EndpointSecret.active s &&
  if EndpointSecret.expiresAt s is Some t then (t <=? now)%Z else false.

Definition sweepExpired (endpointId : string) (secrets : list secret_row) (now : Z) : M Db unit :=
  let stale := filter (λ s : secret_row, is_stale now s.2 = true) secrets in
  if bool_decide (stale = []) then mret tt
  else
    _ ← updateMany c (in_ids endpointId (map fst stale)) (EndpointSecret.set_active false);
    mret tt.

(** [secret.expiresAt === null || secret.expiresAt > expiresAt] *)
Definition outlives (t : Z) (s : EndpointSecret.t) : bool :=
  if EndpointSecret.expiresAt s is Some u then (t <? u)%Z else true.

Definition rotate (endpointId : string) (overlapSeconds : Z) (id : string) (plaintext : jsstr)
    (now : Z) : M Db (EndpointSecret.t * (list Z * option Z)) :=
  transact (
    endpoint ← requireEndpoint endpointId;
    _ ← guardM (endpoint_deleted endpoint) conflict
          "This endpoint is deleted. Rotating a secret for it would create a credential nothing can use.";
    existing ← secretsFor endpointId;
    let liveBefore := filter (λ s : secret_row, isEffectivelyActive s.2 now = true) existing in
    created ← insertSecret endpointId existing id plaintext now;
    let expiresAt := (now + overlapSeconds * 1000)%Z in
    let extended := filter (λ s : secret_row, outlives expiresAt s.2 = true) liveBefore in
    _ ← (if bool_decide (extended = []) then mret 0%Z
         else updateMany c (in_ids endpointId (map fst extended)) (λ s,
                EndpointSecret.set_rotatedAt (Some now) (EndpointSecret.set_expiresAt (Some expiresAt) s)));
    _ ← sweepExpired endpointId existing now;
    let stillSigning := stillSigningAfter liveBefore (map fst extended) expiresAt now in
    _ ← assertStillSigning endpointId endpoint now;
    _ ← recordFor c "endpoint_secret.rotated" "endpoint_secret" (Some id)
          [(js "endpoint_id", MStr (js endpointId));
           (js "version", MNum (int (EndpointSecret.version created)));
           (js "overlap_seconds", MNum (int overlapSeconds));
           (js "previous_versions", MArr (map (λ v, MNum (int v)) stillSigning.1));
           (js "previous_secrets_expire_at",
            if stillSigning.2 is Some t then MStr (toISOString t) else MNull)];
    mret (created, stillSigning)).

Definition revoke (endpointId secretId : string) (now : Z) : M Db unit :=
  transact (
    endpoint ← requireEndpoint endpointId;
    secrets ← secretsFor endpointId;
    match head (filter (λ s : secret_row, s.1 = secretId) secrets) with
    | None => throwM not_found CROSS_TENANT_MESSAGE
    | Some target =>
        let survivors := filter (λ s : secret_row,
          s.1 ≠ secretId ∧ isEffectivelyActive s.2 now = true) secrets in
        _ ← guardM (bool_decide (survivors = []) && negb (endpoint_deleted endpoint)) conflict
              "This is the only secret currently signing for this endpoint.";
        _ ← updateMany c (in_ids endpointId [secretId]) (λ s,
              EndpointSecret.set_rotatedAt (Some now) (EndpointSecret.set_expiresAt (Some now)
                (EndpointSecret.set_active false s)));
        _ ← assertStillSigning endpointId endpoint now;
        recordFor c "endpoint_secret.revoked" "endpoint_secret" (Some secretId)
          [(js "endpoint_id", MStr (js endpointId));
           (js "version", MNum (int (EndpointSecret.version target.2)))]
    end).

Definition mintInitial (endpointId id : string) (plaintext : jsstr) (now : Z) : M Db EndpointSecret.t :=
  created ← insertSecret endpointId [] id plaintext now;
  _ ← recordFor c "endpoint_secret.created" "endpoint_secret" (Some id)
        [(js "endpoint_id", MStr (js endpointId));
         (js "version", MNum (int (EndpointSecret.version created)))];
  mret created.

(** One grouped read: the endpoints, among those asked about, with a live secret. *)
Definition liveSecretEndpointIds (endpointIds : list string) (now : Z) : M Db (list string) :=
  rows ← findAll c (λ _ s, bool_decide (EndpointSecret.endpointId s ∈ endpointIds)
                         && isEffectivelyActive s now);
  mret (remove_dups (map (λ r : secret_row, EndpointSecret.endpointId r.2) rows)).

Definition hasLiveSecret (endpointId : string) (now : Z) : M Db bool :=
  live ← liveSecretEndpointIds [endpointId] now;
  mret (bool_decide (endpointId ∈ live)).
End Service.

(** ** What a rotation does to each row *)

(** The fate of a prior secret: closed windows are flipped inactive, a window
    that would outlast the overlap is cut to it, the rest stays. *)
Definition rotated (now expiry : Z) (s : EndpointSecret.t) : EndpointSecret.t :=
  if is_stale now s then EndpointSecret.set_active false s
  else if isEffectivelyActive s now && outlives expiry s
       then EndpointSecret.set_rotatedAt (Some now) (EndpointSecret.set_expiresAt (Some expiry) s)
       else s.

Lemma stale_not_live now s : is_stale now s = true → isEffectivelyActive s now = false.
Proof.
  unfold is_stale, isEffectivelyActive. destruct (EndpointSecret.active s); [|done]. cbn.
  destruct (EndpointSecret.expiresAt s); [|done]. intros. bprop. by apply Z.ltb_ge.
Qed.

Section proofs.
  Context (encrypt : jsstr → jsstr → string → string → jsstr) (c : Ctx).

(** The secrets of an endpoint of the tenant are in the tenant. *)
Lemma secret_tenant db e (ep : Endpoint.t) i s :
  find c db e = Some ep → EndpointSecret.endpointId s = e → in_tenant c db i s = true.
Proof.
  intros [He Ht]%find_Some <-. unfold in_tenant in *. cbn in *. unfold endpoint_matches.
  cbn. unfold endpoint_project. by rewrite He.
Qed.

Lemma secretsFor_Ok e db l db' :
  secretsFor c e db = (Ok l, db') →
  db' = db ∧ ∀ i s, (i, s) ∈ l ↔ endpointSecrets db !! i = Some s
    ∧ in_tenant c db i s = true ∧ EndpointSecret.endpointId s = e.
Proof.
  unfold secretsFor. intros Hs. sinv. subst. split; [done|]. intros i s.
  rewrite elem_of_sort_by, elem_of_map_to_list, matching_lookup. unfold of_endpoint.
  by rewrite bool_decide_eq_true.
Qed.

Lemma insertSecret_Ok e existing id pt now db r db' :
  insertSecret encrypt c e existing id pt now db = (Ok r, db') →
  r = EndpointSecret.mk e (encrypt pt SECRETS_TABLE id e) (next_version existing) true now None None
  ∧ endpointSecrets db !! id = None ∧ db' = upd_endpointSecrets (<[id := r]>) db.
Proof.
  unfold insertSecret, catch_P2002.
  destruct (create _ _ _ _) as [[a|er] db1] eqn:E; [|by destruct (bool_decide _)].
  intros [= <- <-]. apply create_Ok in E as (t & _ & -> & _ & Hid & _ & ->). done.
Qed.

(** [l] lists the rows of endpoint [e] that satisfy [q]. *)
Definition snapshot (db : Db) (e : string) (q : EndpointSecret.t → bool) (l : list secret_row) : Prop :=
  ∀ i s, (i, s) ∈ l ↔ endpointSecrets db !! i = Some s ∧ EndpointSecret.endpointId s = e ∧ q s = true.

Lemma snapshot_filter db e q q' l :
  snapshot db e q l →
  snapshot db e (λ s, q s && q' s) (filter (λ x : secret_row, q' x.2 = true) l).
Proof.
  intros Hl i s. rewrite list_elem_of_filter, (Hl i s), andb_true_iff. cbn. naive_solver.
Qed.
Lemma snapshot_ids db e q l i s :
  snapshot db e q l → endpointSecrets db !! i = Some s → EndpointSecret.endpointId s = e →
  bool_decide (i ∈ map fst l) = q s.
Proof.
  intros Hl Hi He. destruct (q s) eqn:Hq.
  - apply bool_decide_eq_true_2, list_elem_of_fmap. exists (i, s). split; [done|]. by apply Hl.
  - apply bool_decide_eq_false_2. intros ([j s'] & [= ->] & Hin)%list_elem_of_fmap.
    apply Hl in Hin as (Hj & _ & Hq'). cbn in *. congruence.
Qed.
Lemma secretsFor_snapshot e (ep : Endpoint.t) db l db' :
  find c db e = Some ep → secretsFor c e db = (Ok l, db') →
  db' = db ∧ snapshot db e (λ _, true) l.
Proof.
  intros He [-> Hl]%secretsFor_Ok. split; [done|]. intros i s. rewrite (Hl i s). split.
  - naive_solver.
  - intros (Hi & Hs & _). split_and!; try done. by eapply secret_tenant.
Qed.

(** The conditional bulk update over selected ids, as a function on rows. *)
Lemma update_ids db e (ep : Endpoint.t) ids (b : bool) f n db' :
  find c db e = Some ep → (b = true → ids = []) →
  (if b then mret 0%Z else updateMany c (in_ids e ids) f) db = (Ok n, db') →
  ∃ m, db' = upd_endpointSecrets (λ _, m) db ∧
    ∀ i, m !! i = (λ s, if bool_decide (EndpointSecret.endpointId s = e) && bool_decide (i ∈ ids)
                        then f s else s) <$> endpointSecrets db !! i.
Proof.
  intros He Hb Hu. destruct b; sinv.
  - exists (endpointSecrets db). split; [by destruct db|]. intros i. rewrite (Hb eq_refl).
    destruct (endpointSecrets db !! i); cbn; [|done]. by rewrite andb_false_r.
  - eexists. split; [reflexivity|]. intros i. rewrite update_rows_lookup.
    change (tbl db) with (endpointSecrets db). destruct (endpointSecrets db !! i) as [s|]; cbn; [|done].
    unfold in_ids, of_endpoint. destruct (bool_decide (EndpointSecret.endpointId s = e)) eqn:Hs.
    + bprop. by erewrite secret_tenant.
    + by rewrite andb_false_r.
Qed.

Lemma sweepExpired_Ok db e (ep : Endpoint.t) l now u db' :
  find c db e = Some ep → sweepExpired c e l now db = (Ok u, db') →
  ∃ m, db' = upd_endpointSecrets (λ _, m) db ∧
    ∀ i, m !! i = (λ s, if bool_decide (EndpointSecret.endpointId s = e)
      && bool_decide (i ∈ map fst (filter (λ x : secret_row, is_stale now x.2 = true) l))
      then EndpointSecret.set_active false s else s) <$> endpointSecrets db !! i.
Proof.
  unfold sweepExpired. intros He Hs.
  apply (update_ids db e ep _ (bool_decide (filter (λ x : secret_row, is_stale now x.2 = true) l = []))
           _ (if bool_decide (filter (λ x : secret_row, is_stale now x.2 = true) l = []) then 0%Z
              else Z.of_nat (size (matching c db (in_ids e (map fst (filter
                (λ x : secret_row, is_stale now x.2 = true) l))))))); [done| |].
  - intros Hb. bprop. by rewrite Hb.
  - destruct (bool_decide _); sinv; done.
Qed.
Lemma snapshot_fresh db e q l i :
  snapshot db e q l → endpointSecrets db !! i = None → bool_decide (i ∈ map fst l) = false.
Proof.
  intros Hl Hi. apply bool_decide_eq_false_2. intros ([j s] & -> & Hin)%list_elem_of_fmap.
  apply Hl in Hin as (Hj & _). cbn in *. congruence.
Qed.
Lemma assertStillSigning_Ok e (ep : Endpoint.t) now db u db' :
  find c db e = Some ep → assertStillSigning c e ep now db = (Ok u, db') →
  db' = db ∧ (endpoint_deleted ep = false →
    ∃ i s, endpointSecrets db !! i = Some s ∧ EndpointSecret.endpointId s = e
         ∧ isEffectivelyActive s now = true).
Proof.
  unfold assertStillSigning. intros He Hs. destruct (endpoint_deleted ep); sinv; [done|].
  eapply secretsFor_snapshot in H as [-> Hl]; [|done]. split; [done|]. intros _. bprop.
  apply existsb_True in H0 as ([i s] & Hin & Hs). apply Hl in Hin as (Hi & He' & _). eauto.
Qed.

Lemma rotate_rows e overlap id pt now db r db' :
  rotate encrypt c e overlap id pt now db = (Ok r, db') →
  ∃ (ep : Endpoint.t) existing, find c db e = Some ep ∧ endpoint_deleted ep = false
    ∧ snapshot db e (λ _, true) existing
    ∧ endpointSecrets db !! id = None
    ∧ r.1 = EndpointSecret.mk e (encrypt pt SECRETS_TABLE id e) (next_version existing) true now None None
    ∧ r.2 = stillSigningAfter
              (filter (λ s : secret_row, isEffectivelyActive s.2 now = true) existing)
              (map fst (filter (λ s : secret_row, outlives (now + overlap * 1000) s.2 = true)
                 (filter (λ s : secret_row, isEffectivelyActive s.2 now = true) existing)))
              (now + overlap * 1000) now
    ∧ endpoints db' = endpoints db ∧ projects db' = projects db
    ∧ endpointSecrets db' !! id = Some r.1
    ∧ ∀ i, i ≠ id → endpointSecrets db' !! i
        = (λ s, if bool_decide (EndpointSecret.endpointId s = e)
                then rotated now (now + overlap * 1000) s else s) <$> endpointSecrets db !! i.
Proof.
  unfold rotate, requireEndpoint. intros Hr. sinv.
  match goal with H : secretsFor _ _ _ = _ |- _ =>
    eapply secretsFor_snapshot in H as [-> Hsnap]; [|done] end.
  apply insertSecret_Ok in H2 as (Hx5 & Hid & ->).
  pose proof (snapshot_filter _ _ _ (λ s, isEffectivelyActive s now) _ Hsnap) as Hlive.
  pose proof (snapshot_filter _ _ _ (outlives (now + overlap * 1000)) _ Hlive) as Hext.
  pose proof (snapshot_filter _ _ _ (is_stale now) _ Hsnap) as Hstale.
  eapply (update_ids _ e x) in H3 as (m1 & -> & Hm1); [|done|intros Hb; bprop; by rewrite Hb].
  eapply (sweepExpired_Ok _ e x) in H4 as (m2 & -> & Hm2); [|done].
  apply (assertStillSigning_Ok e x) in H5 as [-> _]; [|done]. subst r.
  exists x, x3. split_and!; try done; cbn in *.
  - rewrite Hm2, Hm1, lookup_insert_eq. cbn. rewrite (snapshot_fresh _ _ _ _ _ Hext Hid).
    rewrite (snapshot_fresh _ _ _ _ _ Hstale Hid). by rewrite !andb_false_r.
  - intros i Hne. rewrite Hm2, Hm1, lookup_insert_ne by done.
    destruct (endpointSecrets db !! i) as [s|] eqn:Ei; cbn; [|done]. f_equal.
    destruct (bool_decide (EndpointSecret.endpointId s = e)) eqn:Ee; cbn; [|by rewrite Ee].
    bprop. rewrite (snapshot_ids _ _ _ _ i s Hext Ei Ee). cbn.
    rewrite (snapshot_ids _ _ _ _ i s Hstale Ei Ee). cbn. unfold rotated.
    destruct (is_stale now s) eqn:Est; [rewrite (stale_not_live _ _ Est)|].
    + cbn. by rewrite bool_decide_eq_true_2.
    + by rewrite andb_false_r.
Qed.
End proofs.

(** ** Rotation *)

(** Does row [i] sign for endpoint [e] at time [t]? *)
Definition signs (db : Db) (e i : string) (t : Z) : Prop :=
  ∃ s, endpointSecrets db !! i = Some s ∧ EndpointSecret.endpointId s = e
     ∧ isEffectivelyActive s t = true.

Lemma isEffectivelyActive_spec s t :
  isEffectivelyActive s t = true ↔
  EndpointSecret.active s = true ∧ ∀ u, EndpointSecret.expiresAt s = Some u → (t < u)%Z.
Proof.
  unfold isEffectivelyActive. destruct (EndpointSecret.active s); cbn; [|naive_solver].
  destruct (EndpointSecret.expiresAt s) as [u|]; [|naive_solver].
  rewrite Z.ltb_lt. split; [intros ?; split; [done|]; by intros ? [= <-]|naive_solver].
Qed.

(** From the rotation on, a prior secret signs exactly while it would have
    signed anyway and the overlap lasts. *)
Lemma rotated_signs now expiry s t :
  (now <= t)%Z →
  isEffectivelyActive (rotated now expiry s) t = isEffectivelyActive s t && (t <? expiry)%Z.
Proof.
  intros Ht. unfold rotated, is_stale, isEffectivelyActive, outlives.
  destruct s as [e enc v [] cr [u|] ro]; cbn; [|destruct (_ <? _)%Z; done|done..].
  destruct (u <=? now)%Z eqn:Eu; cbn; bprop.
  - assert (t <? u = false)%Z as -> by (apply Z.ltb_ge; lia). done.
  - assert (now <? u = true)%Z as -> by (apply Z.ltb_lt; lia). cbn.
    destruct (expiry <? u)%Z eqn:Ex; cbn; bprop.
    + destruct (t <? expiry)%Z eqn:E1; bprop; [|by rewrite andb_false_r].
      rewrite andb_true_r. symmetry. apply Z.ltb_lt. lia.
    + destruct (t <? u)%Z eqn:E2; bprop; [|done]. symmetry. apply Z.ltb_lt. lia.
Qed.

Lemma rotated_endpoint now expiry s :
  EndpointSecret.endpointId (rotated now expiry s) = EndpointSecret.endpointId s
  ∧ EndpointSecret.version (rotated now expiry s) = EndpointSecret.version s.
Proof. unfold rotated. destruct (is_stale _ _); [done|]. by destruct (_ && _). Qed.

Lemma foldl_max_ge (l : list secret_row) : ∀ z,
  (z <= foldl (λ h s, Z.max h (EndpointSecret.version s.2)) z l)%Z
  ∧ ∀ x, x ∈ l → (EndpointSecret.version x.2 <= foldl (λ h s, Z.max h (EndpointSecret.version s.2)) z l)%Z.
Proof.
  induction l as [|y l IH]; intros z; cbn; [split; [lia|by intros x ?%not_elem_of_nil]|].
  destruct (IH (Z.max z (EndpointSecret.version y.2))) as [H1 H2]. split; [lia|].
  intros x [->|Hx]%elem_of_cons; [lia|]. by apply H2.
Qed.

(** C7. Rotation never interrupts signing.  When it succeeds, the endpoint has
    a new secret, with a version above all its others, that signs at every
    time from then on; each prior secret signs, at every later instant, exactly
    when it would have signed anyway and the overlap is not over; and no other
    endpoint's secret changes. *)
Theorem rotate_signing (encrypt : jsstr → jsstr → string → string → jsstr) (c : Ctx)
  (e id : string) (overlap now : Z) (pt : jsstr) (db db' : Db)
  (r : EndpointSecret.t * (list Z * option Z))
  (Hr : rotate encrypt c e overlap id pt now db = (Ok r, db')) :
  (∀ t, signs db' e id t)
  ∧ (∀ i s, endpointSecrets db !! i = Some s → EndpointSecret.endpointId s = e →
       (EndpointSecret.version s < EndpointSecret.version r.1)%Z)
  ∧ (∀ i t, i ≠ id → (now <= t)%Z →
       signs db' e i t ↔ signs db e i t ∧ (t < now + overlap * 1000)%Z)
  ∧ (∀ i s, endpointSecrets db !! i = Some s → EndpointSecret.endpointId s ≠ e →
       endpointSecrets db' !! i = Some s).
Proof.
  apply rotate_rows in Hr as (ep & ex & Hep & Hdel & Hsnap & Hid & Hr1 & _ & _ & _ & Hnew & Hrows).
  split_and!.
  - intros t. exists r.1. split; [done|]. by rewrite Hr1.
  - intros i s Hi Hs. rewrite Hr1. cbn [EndpointSecret.version]. unfold next_version.
    destruct (foldl_max_ge ex 0) as [_ Hmax]. assert ((i, s) ∈ ex) as Hin by by apply Hsnap.
    specialize (Hmax _ Hin). cbn in Hmax. lia.
  - intros i t Hne Ht. unfold signs. rewrite (Hrows i Hne). split.
    + intros (s' & (s & Hi & ->)%fmap_Some & Hs & Ha). case_bool_decide as He; [|done].
      rewrite rotated_signs in Ha by done. bprop. eauto 10.
    + intros ((s & Hi & Hs & Ha) & Hlt). eexists. rewrite Hi. cbn. split; [done|].
      rewrite bool_decide_eq_true_2 by done. split; [by rewrite (proj1 (rotated_endpoint _ _ _))|].
      rewrite rotated_signs, Ha by done. by apply Z.ltb_lt.
  - intros i s Hi Hs. rewrite Hrows, Hi by congruence. cbn. by rewrite bool_decide_eq_false_2.
Qed.

(** A project with one endpoint and its first secret. *)
Definition es_ctx : Ctx := MkCtx "o1" (Some "p1") "m1" admin "u1".
Definition plain_text (pt : jsstr) (_ : jsstr) (_ _ : string) : jsstr := pt.
Definition es_db0 : Db :=
  upd_endpoints (insert "e1" (ep "p1"))
    (upd_projects (insert "p1" (Project.mk "o1" (js "p") (js "p") true ProjectStatus.active [])) empty_db).
Definition es_db1 : Db := (mintInitial plain_text es_ctx "e1" "s1" (js "k1") 0 es_db0).2.
Definition es_db2 : Db := (rotate plain_text es_ctx "e1" 3600 "s2" (js "k2") 1000 es_db1).2.

Lemma rotate_signing_witness :
  signs es_db2 "e1" "s2" 99999999 ∧ signs es_db2 "e1" "s1" 3600999 ∧ ¬ signs es_db2 "e1" "s1" 3601000.
Proof.
  assert (∃ r, rotate plain_text es_ctx "e1" 3600 "s2" (js "k2") 1000 es_db1 = (Ok r, es_db2))
    as [r Hr] by (eexists; vm_compute; reflexivity).
  assert (∀ t, signs es_db1 "e1" "s1" t) as H1.
  { intros t. eexists. split; [vm_compute; reflexivity|]. split; reflexivity. }
  destruct (rotate_signing plain_text es_ctx "e1" "s2" 3600 1000 (js "k2") es_db1 es_db2 r Hr)
    as (Hn & _ & Hp & _).
  split; [apply Hn|]. split.
  - apply Hp; [discriminate|lia|]. split; [apply H1|lia].
  - rewrite Hp; [|discriminate|lia]. intros [_ H]. lia.
Defined.

(** ** What a rotation reports *)

(** [foldr Z.max] is an upper bound, and one of the values. *)
Lemma foldr_max_spec (l : list Z) : ∀ z t,
  (t < foldr Z.max z l)%Z ↔ (t < z)%Z ∨ ∃ x, x ∈ l ∧ (t < x)%Z.
Proof.
  induction l as [|y l IH]; intros z t; cbn [foldr].
  - split; [by left|]. intros [?|(x & []%not_elem_of_nil & _)]. done.
  - rewrite Z.max_lt_iff, IH. setoid_rewrite elem_of_cons. naive_solver.
Qed.

(** The end of a prior secret's window after the rotation. *)
Definition until_of (ids : list string) (expiry : Z) (x : secret_row) : Z :=
  if bool_decide (x.1 ∈ ids) then expiry else default 0%Z (EndpointSecret.expiresAt x.2).

Lemma stillSigningAfter_spec live ids expiry now :
  (∀ v, v ∈ (stillSigningAfter live ids expiry now).1 ↔
     ∃ x, x ∈ live ∧ EndpointSecret.version x.2 = v ∧ (now < until_of ids expiry x)%Z)
  ∧ (∀ t, (now <= t)%Z →
       (∃ u, (stillSigningAfter live ids expiry now).2 = Some u ∧ (t < u)%Z)
       ↔ ∃ x, x ∈ live ∧ (t < until_of ids expiry x)%Z).
Proof.
  unfold stillSigningAfter.
  set (sur := filter _ _).
  assert (∀ v u, (v, u) ∈ sur ↔ ∃ x, x ∈ live ∧ EndpointSecret.version x.2 = v
            ∧ until_of ids expiry x = u ∧ (now < u)%Z) as Hsur.
  { intros v u. unfold sur. rewrite list_elem_of_filter, list_elem_of_fmap. cbn.
    rewrite Z.ltb_lt. unfold until_of. split.
    - intros (Hu & x & [= -> ->] & Hx). by exists x.
    - intros (x & Hx & <- & <- & Hu). split; [done|]. by exists x. }
  destruct sur as [|[v0 u0] rest] eqn:Es; cbn [fst snd].
  - split.
    + intros v. rewrite elem_of_nil. split; [done|]. intros (x & Hx & Hv & Hu).
      assert ((v, until_of ids expiry x) ∈ ([] : list (Z * Z))) as []%not_elem_of_nil.
      apply Hsur. by exists x.
    + intros t Ht. split; [by intros (u & [=] & _)|]. intros (x & Hx & Hu).
      assert ((EndpointSecret.version x.2, until_of ids expiry x) ∈ ([] : list (Z * Z)))
        as []%not_elem_of_nil. apply Hsur. exists x. split_and!; [done..|lia].
  - split.
    + intros v. rewrite elem_of_sort_by, list_elem_of_fmap. split.
      * intros ([v' u'] & -> & (x & Hx & Hv & Hu & Hn)%Hsur). exists x. cbn.
        split_and!; [done..|]. by rewrite Hu.
      * intros (x & Hx & <- & Hn). exists (EndpointSecret.version x.2, until_of ids expiry x).
        split; [done|]. apply Hsur. by exists x.
    + intros t Ht. split.
      * intros (u & [= <-] & [Hu|(w & Hw & Hu)]%foldr_max_spec).
        -- assert ((v0, u0) ∈ (v0, u0) :: rest) as (x & Hx & _ & Hxu & _)%Hsur by by left.
           exists x. by rewrite Hxu.
        -- apply list_elem_of_fmap in Hw as ([v' u'] & -> & Hin). cbn in Hu.
           assert ((v', u') ∈ (v0, u0) :: rest) as (x & Hx & _ & Hxu & _)%Hsur by by right.
           exists x. by rewrite Hxu.
      * intros (x & Hx & Hu). eexists. split; [done|]. apply foldr_max_spec.
        assert ((EndpointSecret.version x.2, until_of ids expiry x) ∈ (v0, u0) :: rest) as Hin.
        { apply Hsur. exists x. split_and!; [done..|lia]. }
        apply elem_of_cons in Hin as [[= Hv Hu']|Hin]; [left; lia|right].
        exists (until_of ids expiry x). split; [|done]. apply list_elem_of_fmap.
        by exists (EndpointSecret.version x.2, until_of ids expiry x).
Qed.

Lemma isEffectivelyActive_earlier s t now :
  (now <= t)%Z → isEffectivelyActive s t = true → isEffectivelyActive s now = true.
Proof.
  rewrite !isEffectivelyActive_spec. intros Ht [Ha Hu]. split; [done|]. intros u E.
  specialize (Hu u E). lia.
Qed.

(** A secret that signs now has its window cut to [until_of]. *)
Lemma until_of_window s expiry now t (b : bool) u :
  (now <= t)%Z → isEffectivelyActive s now = true → b = outlives expiry s →
  u = (if b then expiry else default 0%Z (EndpointSecret.expiresAt s)) →
  (t < u)%Z ↔ isEffectivelyActive s t = true ∧ (t < expiry)%Z.
Proof.
  intros Ht Hnow -> ->. rewrite isEffectivelyActive_spec in *. destruct Hnow as [Ha Hu].
  unfold outlives. destruct (EndpointSecret.expiresAt s) as [w|]; cbn.
  - specialize (Hu w eq_refl). destruct (expiry <? w)%Z eqn:E; bprop.
    + split; [intros; split; [split; [done|]|done]; intros ? [= <-]; lia|naive_solver].
    + split; [|intros [[_ Hx] _]; by apply Hx]. intros Hlt. split; [|lia].
      split; [done|]. by intros ? [= <-].
  - split; [|naive_solver]. intros; split; [|done]. by split.
Qed.

(** The snapshot the report is computed from, in terms of the database the
    rotation leaves. *)
Lemma rotate_windows encrypt c e id overlap now pt db db' r :
  rotate encrypt c e overlap id pt now db = (Ok r, db') →
  ∃ live ids, r.2 = stillSigningAfter live ids (now + overlap * 1000) now
    ∧ (∀ i s, (i, s) ∈ live → endpointSecrets db !! i = Some s)
    ∧ (∀ i s t, endpointSecrets db !! i = Some s → (now <= t)%Z →
         ((i, s) ∈ live ∧ (t < until_of ids (now + overlap * 1000) (i, s))%Z) ↔ signs db' e i t)
    ∧ endpointSecrets db !! id = None
    ∧ (∀ i s', i ≠ id → endpointSecrets db' !! i = Some s' →
         ∃ s, endpointSecrets db !! i = Some s ∧ EndpointSecret.version s' = EndpointSecret.version s).
Proof.
  intros Hr.
  apply rotate_rows in Hr as (ep & ex & Hep & Hdel & Hsnap & Hid & _ & Hr2 & _ & _ & _ & Hrows).
  pose proof (snapshot_filter _ _ _ (λ s, isEffectivelyActive s now) _ Hsnap) as Hlive.
  pose proof (snapshot_filter _ _ _ (outlives (now + overlap * 1000)) _ Hlive) as Hext.
  rewrite Hr2. set (live := filter (λ s : secret_row, isEffectivelyActive s.2 now = true) ex) in *.
  set (ids := map fst _) in *.
  assert (∀ i s, endpointSecrets db !! i = Some s → EndpointSecret.endpointId s = e →
    isEffectivelyActive s now = true →
    bool_decide (i ∈ ids) = outlives (now + overlap * 1000) s) as Hsel.
  { intros i s Hi He Hl. unfold ids. by rewrite (snapshot_ids _ _ _ _ i s Hext Hi He), Hl. }
  assert (∀ i s t, endpointSecrets db !! i = Some s → (now <= t)%Z →
    ((i, s) ∈ live ∧ (t < until_of ids (now + overlap * 1000) (i, s))%Z) ↔ signs db' e i t) as Hkey.
  { intros i s t Hi Ht. assert (i ≠ id) as Hne by congruence.
    unfold signs. rewrite (Hrows i Hne), Hi. cbn. split.
    - intros [(_ & He & Hl)%Hlive Hlt]. cbn [andb] in Hl. eexists. split; [done|].
      rewrite bool_decide_eq_true_2 by done. split; [by rewrite (proj1 (rotated_endpoint _ _ _))|].
      rewrite rotated_signs by done.
      apply (until_of_window s _ now t _ _ Ht Hl (Hsel i s Hi He Hl) eq_refl) in Hlt as [-> Hlt].
      by apply Z.ltb_lt.
    - intros (s' & [= <-] & He & Ha). case_bool_decide as Hs; [|done].
      rewrite rotated_signs in Ha by done. bprop.
      assert (isEffectivelyActive s now = true) as Hnow by by eapply isEffectivelyActive_earlier.
      split; [by apply Hlive|].
      by apply (until_of_window s _ now t _ _ Ht Hnow (Hsel i s Hi Hs Hnow) eq_refl). }
  assert (∀ i s', i ≠ id → endpointSecrets db' !! i = Some s' →
    ∃ s, endpointSecrets db !! i = Some s ∧ EndpointSecret.version s' = EndpointSecret.version s) as Hback.
  { intros i s' Hne. rewrite (Hrows i Hne). intros (s & Hi & ->)%fmap_Some. exists s. split; [done|].
    case_bool_decide; [apply rotated_endpoint|done]. }
  exists live, ids. split_and!; try done. intros i s Hx. by apply Hlive in Hx as [? _].
Qed.

(** What a rotation tells its caller about the old secrets is true: a
    version is listed exactly when a prior secret with that version is still
    signing once the rotation has committed, and the reported instant is when
    the last of them stops. *)
Theorem rotate_reports (encrypt : jsstr → jsstr → string → string → jsstr) (c : Ctx)
  (e id : string) (overlap now : Z) (pt : jsstr) (db db' : Db)
  (r : EndpointSecret.t * (list Z * option Z))
  (Hr : rotate encrypt c e overlap id pt now db = (Ok r, db')) :
  (∀ v, v ∈ r.2.1 ↔ ∃ i s, i ≠ id ∧ endpointSecrets db' !! i = Some s
     ∧ EndpointSecret.version s = v ∧ signs db' e i now)
  ∧ (∀ t, (now <= t)%Z →
       (∃ u, r.2.2 = Some u ∧ (t < u)%Z) ↔ ∃ i, i ≠ id ∧ signs db' e i t).
Proof.
  apply rotate_windows in Hr as (live & ids & -> & Hl & Hkey & Hid & Hback).
  destruct (stillSigningAfter_spec live ids (now + overlap * 1000) now) as [Hv Hu].
  split.
  - intros v. rewrite Hv. split.
    + intros ([i s] & Hx & <- & Hlt). pose proof (Hl _ _ Hx) as Hi.
      assert (signs db' e i now) as Hs by (apply (Hkey i s); [done|lia|done]).
      pose proof Hs as (s' & Hs' & _). assert (i ≠ id) as Hne by congruence. exists i, s'.
      destruct (Hback i s' Hne Hs') as (s0 & Hs0 & Hv0). cbn. split_and!; try done. congruence.
    + intros (i & s' & Hne & Hs' & <- & Hsig). destruct (Hback i s' Hne Hs') as (s & Hs & Hvs).
      destruct (proj2 (Hkey i s now Hs (Z.le_refl _)) Hsig) as [Hx Hlt]. exists (i, s). by rewrite Hvs.
  - intros t Ht. rewrite (Hu t Ht). split.
    + intros ([i s] & Hx & Hlt). pose proof (Hl _ _ Hx) as Hi. exists i. split; [congruence|].
      by apply (Hkey i s).
    + intros (i & Hne & Hsig). pose proof Hsig as (s' & Hs' & _).
      destruct (Hback i s' Hne Hs') as (s & Hs & _). destruct (proj2 (Hkey i s t Hs Ht) Hsig) as [Hx Hlt].
      by exists (i, s).
Qed.

Lemma rotate_reports_witness :
  ∃ r, rotate plain_text es_ctx "e1" 3600 "s2" (js "k2") 1000 es_db1 = (Ok r, es_db2)
    ∧ r.2 = ([1%Z], Some 3601000%Z)
    ∧ ∃ i, i ≠ "s2" ∧ signs es_db2 "e1" i 3600999.
Proof.
  eexists. split; [vm_compute; reflexivity|]. split; [reflexivity|].
  refine (proj1 (proj2 (rotate_reports plain_text es_ctx "e1" "s2" 3600 1000 (js "k2") es_db1 es_db2
            _ _) 3600999%Z _) _); [vm_compute; reflexivity|lia|].
  eexists. split; [reflexivity|]. lia.
Defined.

(** ** Revocation *)

(** Revoking a secret stops it at once and touches no other: at no later
    instant does it sign, every other secret is unchanged, and when the
    endpoint is not deleted some other secret of it is signing at that moment;
    a deleted endpoint is exempt. *)
Theorem revoke_signing (c : Ctx) (e sid : string) (now : Z) (db db' : Db) (u : unit)
  (Hr : revoke c e sid now db = (Ok u, db')) :
  (∀ t, ¬ signs db' e sid t)
  ∧ (∀ i, i ≠ sid → endpointSecrets db' !! i = endpointSecrets db !! i)
  ∧ ∃ ep, endpoints db !! e = Some ep
      ∧ (Endpoint.status ep ≠ EndpointStatus.deleted → ∃ i, i ≠ sid ∧ signs db' e i now).
Proof.
  unfold revoke, requireEndpoint in Hr. sinv. rename H into He.
  match goal with H : secretsFor _ _ _ = _ |- _ =>
    eapply secretsFor_snapshot in H as [-> Hsnap]; [|done] end.
  destruct (head (filter _ _)) as [[i0 tgt]|] eqn:Eh; sinv.
  match goal with H : assertStillSigning _ _ _ _ _ = _ |- _ =>
    apply (assertStillSigning_Ok c e x) in H as [-> Hlive]; [|exact He] end.
(* the only row the update rewrites *)
  assert (∀ i, update_rows c db (in_ids e [sid]) (λ s, EndpointSecret.set_rotatedAt (Some now)
     (EndpointSecret.set_expiresAt (Some now) (EndpointSecret.set_active false s))) !! i
     = (λ s, if bool_decide (EndpointSecret.endpointId s = e) && bool_decide (i = sid)
             then EndpointSecret.set_rotatedAt (Some now)
               (EndpointSecret.set_expiresAt (Some now) (EndpointSecret.set_active false s))
             else s) <$> endpointSecrets db !! i) as Hrow.
  { intros i. rewrite update_rows_lookup. change (tbl db) with (endpointSecrets db).
    destruct (endpointSecrets db !! i) as [s|]; cbn; [|done]. f_equal. unfold in_ids, of_endpoint.
    rewrite (bool_decide_ext (i ∈ [sid]) (i = sid)) by apply list_elem_of_singleton.
    destruct (bool_decide (EndpointSecret.endpointId s = e)) eqn:E; [|by rewrite andb_false_r].
    bprop. by erewrite secret_tenant. }
  assert (∀ t, ¬ signs (upd_endpointSecrets (λ _, update_rows c db (in_ids e [sid]) (λ s,
     EndpointSecret.set_rotatedAt (Some now) (EndpointSecret.set_expiresAt (Some now)
       (EndpointSecret.set_active false s)))) db) e sid t) as Hdead.
  { intros t (s & Hs & Hse & Ha). cbn in Hs. rewrite Hrow in Hs.
    apply fmap_Some in Hs as (s0 & Hs0 & ->). revert Hse Ha.
    rewrite (bool_decide_eq_true_2 (sid = sid)) by done. rewrite andb_true_r.
    unfold isEffectivelyActive.
    destruct (bool_decide (EndpointSecret.endpointId s0 = e)) eqn:E; bprop; done. }
  split; [exact Hdead|]. split.
  - intros i Hne. cbn. rewrite Hrow. destruct (endpointSecrets db !! i); cbn; [|done].
    by rewrite (bool_decide_eq_false_2 (i = sid)), andb_false_r.
  - apply find_Some in He as [He _]. exists x. split; [done|]. intros Hd.
    destruct Hlive as (i & s & Hi & Hse & Ha). { by apply bool_decide_eq_false_2. }
    exists i. split; [|by exists s]. intros ->. apply (Hdead now). by exists s.
Qed.

Definition es_db3 : Db := (revoke es_ctx "e1" "s2" 2000 es_db2).2.

Lemma revoke_signing_witness : ¬ signs es_db3 "e1" "s2" 2000 ∧ ∃ i, i ≠ "s2" ∧ signs es_db3 "e1" i 2000.
Proof.
  assert (revoke es_ctx "e1" "s2" 2000 es_db2 = (Ok tt, es_db3)) as Hr by (vm_compute; reflexivity).
  destruct (revoke_signing es_ctx "e1" "s2" 2000 es_db2 es_db3 tt Hr) as (Hd & _ & ep' & He & Hs).
  split; [apply Hd|]. apply Hs. vm_compute in He. injection He as <-. discriminate.
Defined.

(** The check looks at the moment of the call only, and that is not enough
    for "a live endpoint must ALWAYS have an active, unexpired secret".  An
    endpoint is created, its secret rotated with an hour's overlap, and the new
    secret revoked during that hour: every call succeeds, the endpoint stays
    active and enabled, and once the hour is over none of its secrets signs,
    ever again. *)
Theorem revoke_in_overlap_goes_silent :
  (∃ r, rotate plain_text es_ctx "e1" 3600 "s2" (js "k2") 1000 es_db1 = (Ok r, es_db2))
  ∧ revoke es_ctx "e1" "s2" 2000 es_db2 = (Ok tt, es_db3)
  ∧ (∃ ep, endpoints es_db3 !! "e1" = Some ep
      ∧ Endpoint.status ep = EndpointStatus.active ∧ Endpoint.enabled ep = true)
  ∧ ∀ i t, (3601000 <= t)%Z → ¬ signs es_db3 "e1" i t.
Proof.
  split; [eexists; vm_compute; reflexivity|]. split; [vm_compute; reflexivity|].
  split; [eexists; vm_compute; repeat split; reflexivity|].
  intros i t Ht (s & Hs & _ & Ha).
  assert (Forall (λ kv, EndpointSecret.active kv.2 = false
                      ∨ EndpointSecret.expiresAt kv.2 = Some 3601000%Z)
            (map_to_list (endpointSecrets es_db3))) as Hall.
  { vm_compute. repeat constructor; (by left) || (by right). }
  rewrite Forall_forall in Hall. specialize (Hall (i, s)).
  apply isEffectivelyActive_spec in Ha as [Ha Hu].
  destruct Hall as [Hf|Hf]; [by apply elem_of_map_to_list|cbn in Hf; congruence|].
  specialize (Hu _ Hf). lia.
Qed.
