(* ===== verification/TenantScope.v ===== *)
(** The parts of authz/tenant-scope.ts that work on untyped values: the write
    guards on a [data] payload, the refusal of unconstrained bulk writes, and
    the paging of reads.

    The generated field list of a model and the ownership test of a sibling
    repository are parameters. *)
From Stdlib Require Import ZArith Lia QArith Qround Sorted.
From S2P Require Import Prelude Js RetryRules.

(** ** Write guards *)

Definition has_key (k : jsstr) (l : list (jsstr * jsval)) : bool := existsb (λ kv, seqb kv.1 k) l.
Fixpoint get_key (k : jsstr) (l : list (jsstr * jsval)) : option jsval :=
  match l with
  | [] => None
  | (k', v) :: l => if seqb k' k then Some v else get_key k l
  end.

Definition TENANT_COLUMNS : list jsstr := [js "organizationId"; js "projectId"].
Definition in_set (l : list jsstr) (k : jsstr) : bool := bool_decide (k ∈ l).

Inductive operation : Type := op_create | op_update.

Section Guards.
(** [modelShape(model)], the primary key, the declared foreign keys with the
    repository that owns each, and that repository's [requireById]. *)
  Context (scalars relations : list jsstr) (idField : jsstr).
  Context (foreignKeys : list (jsstr * jsstr)).
  Context (is_owned : jsstr → jsstr → bool).

(** One entry of the payload: skipped, refused or kept. *)
Definition sanitize_entry (op : operation) (key : jsstr) (value : jsval) : result bool :=
  if value is JUndefined then Ok false else
  _ ← throw_if (in_set relations key) invalid_request
        "is a relation and cannot be written through a scoped repository.";
  _ ← throw_if (negb (in_set scalars key)) invalid_request "is not a column on this table.";
  _ ← throw_if (in_set TENANT_COLUMNS key) invalid_request
        "is set by the tenant scope and cannot be supplied.";
  _ ← throw_if ((if op is op_update then true else false) && seqb key idField) invalid_request
        "is the primary key and cannot be updated.";
  Ok true.

Fixpoint sanitize_entries (op : operation) (l : list (jsstr * jsval)) : result (list (jsstr * jsval)) :=
  match l with
  | [] => Ok []
  | (key, value) :: l =>
      keep ← sanitize_entry op key value;
      rest ← sanitize_entries op l;
      Ok (if (keep : bool) then (key, value) :: rest else rest)
  end.

Definition sanitize (data : jsval) (op : operation) : result (list (jsstr * jsval)) :=
  match data with
  | JObj l => sanitize_entries op l
  | _ => throw invalid_request "'data' must be an object."
  end.

(** Prisma's [{ set: value }] wrapper. *)
Definition unwrap_set (raw : jsval) : jsval :=
  match raw with
  | JObj l => default raw (get_key (js "set") l)
  | _ => raw
  end.

(** One declared foreign key. *)
Definition assertOwnedColumn (payload : list (jsstr * jsval)) (column repository : jsstr) : result unit :=
  match get_key column payload with
  | None | Some JNull => Ok tt
  | Some raw =>
      match unwrap_set raw with
      | JStr ((_ :: _) as id) =>
          throw_if (negb (is_owned repository id)) not_found "Resource not found."
      | _ => throw invalid_request "must be an id string."
      end
  end.

Fixpoint assertForeignKeys (fks : list (jsstr * jsstr)) (payload : list (jsstr * jsval)) : result unit :=
  match fks with
  | [] => Ok tt
  | (column, repository) :: fks =>
      _ ← assertOwnedColumn payload column repository;
      assertForeignKeys fks payload
  end.
Definition assertForeignKeysOwned (payload : list (jsstr * jsval)) : result unit :=
  assertForeignKeys foreignKeys payload.

(** The data an update or insert may carry to the database. *)
Definition guarded (data : jsval) (op : operation) : result (list (jsstr * jsval)) :=
  payload ← sanitize data op;
  _ ← assertForeignKeysOwned payload;
  Ok payload.
End Guards.

(** ** Unconstrained predicates *)

Definition is_combinator (k : jsstr) : bool :=
  seqb k (js "AND") || seqb k (js "OR") || seqb k (js "NOT").

Fixpoint isEmptyPredicate (w : jsval) : bool :=
  match w with
  | JUndefined | JNull => true
  | JArr l => forallb isEmptyPredicate l
  | JObj l => forallb (λ kv, is_combinator kv.1 && isEmptyPredicate kv.2) l
  | JBool _ | JNum _ | JStr _ => false
  end.

Definition requirePredicate (w : jsval) : result unit :=
  throw_if (isEmptyPredicate w) internal_error
    "requires an explicit where clause; an unfiltered bulk write would affect every row in the tenant.".

(** ** Paging *)

Definition MAX_PAGE_SIZE : Z := 200.
Definition DEFAULT_PAGE_SIZE : Z := 50.

Definition pageSize (take : option num) : Z :=
  match take with
  | Some (Fin q) => Z.min (Z.max 1 (Qfloor q)) MAX_PAGE_SIZE
  | _ => DEFAULT_PAGE_SIZE
  end.
Definition offset (skip : option num) : option Z :=
  match skip with
  | Some (Fin q) => Some (Z.max 0 (Qfloor q))
  | _ => None
  end.

Section Paging.
  Context {R : Type}.

(** [delegate.findMany({ where, orderBy, take, skip })] on the rows that match,
    in the requested order. *)
Definition slice (rows : list R) (n skip : Z) : list R :=
  take (Z.to_nat n) (drop (Z.to_nat skip) rows).

Record Page : Type := { p_rows : list R; p_hasMore : bool; p_nextSkip : option Z }.

Definition findPage (rows : list R) (take_ skip_ : option num) : Page :=
  let n := pageSize take_ in
  let skip := default 0%Z (offset skip_) in
  let got := slice rows (n + 1) skip in
  let hasMore := (n <? Z.of_nat (length got))%Z in
  {| p_rows := if hasMore then take (Z.to_nat n) got else got;
     p_hasMore := hasMore;
     p_nextSkip := if hasMore then Some (skip + n)%Z else None |}.

Definition findMany (rows : list R) (take_ skip_ : option num) : result (list R) :=
  let page := findPage rows take_ skip_ in
  _ ← throw_if (p_hasMore page && (if take_ is None then true else false)) internal_error
        "matched more rows than the default page and no 'take' was given";
  Ok (p_rows page).

(** [groupBy]: bounded like a page, refused rather than truncated in silence. *)
Definition groupBy (groups : list R) (take_ skip_ : option num) : result (list R) :=
  let limit := if take_ is Some _ then pageSize take_ else MAX_PAGE_SIZE in
  let got := slice groups (limit + 1) (default 0%Z (offset skip_)) in
  if (Z.of_nat (length got) <=? limit)%Z then Ok got
  else
    _ ← throw_if (if take_ is Some _ then false else true) internal_error
          "produced more groups than the maximum and no 'take' was given";
    Ok (take (Z.to_nat limit) got).

(** The loop that callers write around [groupBy] to read every group: pages of
    the maximal size until one comes back short. *)
Fixpoint group_pages (fuel : nat) (groups : list R) (skip : Z) : result (list R) :=
  match fuel with
  | O => Ok []
  | S fuel =>
      page ← groupBy groups (Some (int MAX_PAGE_SIZE)) (Some (int skip));
      if (Z.of_nat (length page) <? MAX_PAGE_SIZE)%Z then Ok page
      else rest ← group_pages fuel groups (skip + MAX_PAGE_SIZE)%Z; Ok (page ++ rest)
  end.
End Paging.
Arguments Page : clear implicits.

(** ** What the guards let through *)

Definition defined (v : jsval) : bool := if v is JUndefined then false else true.

Section guard_facts.
  Context (scalars relations : list jsstr) (idField : jsstr).
  Context (foreignKeys : list (jsstr * jsstr)) (is_owned : jsstr → jsstr → bool).

(** A column the caller may write. *)
Definition writable (op : operation) (k : jsstr) : Prop :=
  k ∉ relations ∧ k ∈ scalars ∧ k ∉ TENANT_COLUMNS ∧ (op = op_update → k ≠ idField).

(** A reference that is absent, null, or names a row of this tenant. *)
Definition reference_ok (payload : list (jsstr * jsval)) (fk : jsstr * jsstr) : Prop :=
  get_key fk.1 payload = None ∨ get_key fk.1 payload = Some JNull
  ∨ ∃ raw id, get_key fk.1 payload = Some raw ∧ unwrap_set raw = JStr id
      ∧ id ≠ [] ∧ is_owned fk.2 id = true.

Lemma sanitize_entry_Ok op k v b :
  sanitize_entry scalars relations idField op k v = Ok b
  ↔ b = defined v ∧ (defined v = true → writable op k).
Proof.
  unfold sanitize_entry, writable, in_set. destruct v; cbn [defined];
    [split; [intros [= <-]; by split|by intros [-> _]]|..].
  all: split;
    [ intros H; minv; injection H as <-; unfold seqb in *; destruct op; cbn [andb] in *; bprop;
      (split; [done|]); intros _; split_and!; done
    | intros [-> Hw]; destruct (Hw eq_refl) as (H1 & H2 & H3 & H4);
      rewrite (bool_decide_eq_false_2 (k ∈ relations)), (bool_decide_eq_true_2 (k ∈ scalars)),
        (bool_decide_eq_false_2 (k ∈ TENANT_COLUMNS)) by done; cbn;
      destruct op; cbn; [done|]; unfold seqb; by rewrite bool_decide_eq_false_2 by auto ].
Qed.

Lemma sanitize_entries_Ok op l payload :
  sanitize_entries scalars relations idField op l = Ok payload
  ↔ payload = filter (λ kv, defined kv.2 = true) l
    ∧ Forall (λ kv, defined kv.2 = true → writable op kv.1) l.
Proof.
  revert payload. induction l as [|[k v] l IH]; intros payload; cbn [sanitize_entries].
  - rewrite Forall_nil. split; [by intros [= <-]|by intros [-> _]].
  - rewrite Forall_cons, filter_cons. cbn [fst snd]. split.
    + intros H. minv. injection H as <-.
      match goal with H : sanitize_entry _ _ _ _ _ _ = _ |- _ => apply sanitize_entry_Ok in H as [-> Hw] end.
      match goal with H : sanitize_entries _ _ _ _ _ = _ |- _ => apply IH in H as [-> Hf] end.
      split; [|done]. destruct (defined v) eqn:E; [by rewrite decide_True|by rewrite decide_False].
    + intros [-> [Hw Hf]]. apply bind_Ok. exists (defined v). split; [by apply sanitize_entry_Ok|].
      apply bind_Ok. eexists. split; [by apply IH|].
      destruct (defined v) eqn:E; [by rewrite decide_True|by rewrite decide_False].
Qed.

Lemma assertOwnedColumn_Ok payload fk u :
  assertOwnedColumn is_owned payload fk.1 fk.2 = Ok u ↔ reference_ok payload fk.
Proof.
  unfold assertOwnedColumn, reference_ok. destruct u.
  destruct (get_key fk.1 payload) as [raw|]; [|by split; auto].
  assert ((match unwrap_set raw with
           | JStr ((_ :: _) as id) => throw_if (negb (is_owned fk.2 id)) not_found "Resource not found."
           | _ => throw invalid_request "must be an id string."
           end = Ok tt) ↔ ∃ id, unwrap_set raw = JStr id ∧ id ≠ [] ∧ is_owned fk.2 id = true) as Hm.
  { destruct (unwrap_set raw) as [| | | |[|x id]| |];
      try (split; [done|intros (id' & [=] & Hn & _); by subst]).
    rewrite throw_if_Ok, negb_false_iff. split; [intros Ho; by exists (x :: id)|].
    by intros (id' & [= <-] & _ & Ho). }
  destruct raw; try (split; [by eauto|done]); rewrite Hm;
    (split; [intros (id & Hid); right; right; eexists _, id; (split; [reflexivity|exact Hid])|]);
    intros [[=]|[[=]|(raw & id & [= <-] & Hid)]]; by exists id.
Qed.

Lemma assertForeignKeys_Ok fks payload u :
  assertForeignKeys is_owned fks payload = Ok u ↔ Forall (reference_ok payload) fks.
Proof.
  destruct u. induction fks as [|[col repo] fks IH]; cbn [assertForeignKeys].
  - by rewrite Forall_nil.
  - rewrite Forall_cons, bind_Ok, <- IH. split.
    + intros (u & H & H'). split; [|done]. by apply (assertOwnedColumn_Ok payload (col, repo)) in H.
    + intros [H H']. exists tt. split; [|done]. by apply (assertOwnedColumn_Ok payload (col, repo)).
Qed.
End guard_facts.

(** What reaches the database through a scoped write is exactly the
    defined entries of the caller's object, unchanged and in order, and only
    when each is a writable column (no relation, no tenant column, no unknown
    name, not the primary key of an update) and every declared foreign key
    among them is null or, with or without Prisma's [set] wrapper, the id of a
    row the sibling repository finds inside the tenant. *)
Theorem guarded_spec (scalars relations : list jsstr) (idField : jsstr)
  (foreignKeys : list (jsstr * jsstr)) (is_owned : jsstr → jsstr → bool)
  (data : jsval) (op : operation) (payload : list (jsstr * jsval)) :
  guarded scalars relations idField foreignKeys is_owned data op = Ok payload
  ↔ ∃ l, data = JObj l
      ∧ payload = filter (λ kv, defined kv.2 = true) l
      ∧ Forall (λ kv, defined kv.2 = true → writable scalars relations idField op kv.1) l
      ∧ Forall (reference_ok is_owned payload) foreignKeys.
Proof.
  unfold guarded, assertForeignKeysOwned. split.
  - intros H. minv. injection H as <-. destruct data; try done. cbn [sanitize] in *.
    match goal with H : sanitize_entries _ _ _ _ _ = _ |- _ => apply sanitize_entries_Ok in H as [-> Hf] end.
    match goal with H : assertForeignKeys _ _ _ = _ |- _ => apply assertForeignKeys_Ok in H end.
    by exists l.
  - intros (l & -> & Hp & Hf & Hk). apply bind_Ok. exists payload.
    split; [by apply sanitize_entries_Ok|]. apply bind_Ok. exists tt.
    split; [by apply assertForeignKeys_Ok|done].
Qed.

(** ** Which predicates are refused *)

(** A condition on a column occurs somewhere in the predicate. *)
Inductive constrains : jsval → Prop :=
| con_bool b : constrains (JBool b)
| con_num x : constrains (JNum x)
| con_str s : constrains (JStr s)
| con_arr l v : v ∈ l → constrains v → constrains (JArr l)
| con_column l k v : (k, v) ∈ l → is_combinator k = false → constrains (JObj l)
| con_branch l k v : (k, v) ∈ l → constrains v → constrains (JObj l).

Section jsval_ind.
  Context (P : jsval → Prop).
  Context (Hleaf : ∀ v, (∀ l, v ≠ JArr l) → (∀ l, v ≠ JObj l) → P v).
  Context (Harr : ∀ l, (∀ v, v ∈ l → P v) → P (JArr l)).
  Context (Hobj : ∀ l, (∀ k v, (k, v) ∈ l → P v) → P (JObj l)).

Fixpoint jsval_ind' (v : jsval) : P v :=
  match v with
  | JArr l =>
      Harr l (proj1 (Forall_forall _ _) ((fix go l : Forall P l :=
        match l with
        | [] => Forall_nil_2 _
        | x :: l => Forall_cons_2 _ _ _ (jsval_ind' x) (go l)
        end) l))
  | JObj l =>
      Hobj l (λ k v Hin, proj1 (Forall_forall (λ kv, P kv.2) _) ((fix go l : Forall (λ kv, P kv.2) l :=
        match l with
        | [] => Forall_nil_2 _
        | x :: l => Forall_cons_2 _ _ _ (jsval_ind' x.2) (go l)
        end) l) (k, v) Hin)
  | JUndefined => Hleaf JUndefined (λ l, ltac:(discriminate)) (λ l, ltac:(discriminate))
  | JNull => Hleaf JNull (λ l, ltac:(discriminate)) (λ l, ltac:(discriminate))
  | JBool b => Hleaf (JBool b) (λ l, ltac:(discriminate)) (λ l, ltac:(discriminate))
  | JNum x => Hleaf (JNum x) (λ l, ltac:(discriminate)) (λ l, ltac:(discriminate))
  | JStr s => Hleaf (JStr s) (λ l, ltac:(discriminate)) (λ l, ltac:(discriminate))
  end.
End jsval_ind.

(** A bulk write is refused exactly when no condition on any column occurs
    in its predicate at any depth: an absent predicate, [{}], and every nesting
    of empty [AND], [OR] and [NOT] are refused, and nothing else is. *)
Theorem requirePredicate_spec (w : jsval) : requirePredicate w = Ok tt ↔ constrains w.
Proof.
  unfold requirePredicate. rewrite throw_if_Ok.
  induction w as [v Ha Ho|l IH|l IH] using jsval_ind'.
  - destruct v; cbn; try (split; [done|by inversion 1]); try (split; [constructor|done]).
    + by destruct (Ha l).
    + by destruct (Ho l).
  - cbn [isEmptyPredicate]. rewrite <- not_true_iff_false, forallb_True. split.
    + intros Hn. destruct (existsb (λ v, negb (isEmptyPredicate v)) l) eqn:E.
      * apply existsb_True in E as (v & Hv & Hx). bprop. apply (con_arr l v); [done|]. by apply IH.
      * destruct Hn. intros v Hv. destruct (isEmptyPredicate v) eqn:Ev; [done|].
        rewrite <- not_true_iff_false, existsb_True in E. destruct E. exists v. by rewrite Ev.
    + intros Hc Hall. inversion Hc as [| | |l' v Hv Hcv| |]; subst.
      apply IH in Hcv; [|done]. by rewrite Hall in Hcv.
  - cbn [isEmptyPredicate]. rewrite <- not_true_iff_false, forallb_True. split.
    + intros Hn.
      destruct (existsb (λ kv, negb (is_combinator kv.1 && isEmptyPredicate kv.2)) l) eqn:E.
      * apply existsb_True in E as ([k v] & Hv & Hx). apply negb_true_iff in Hx. cbn in Hx.
        destruct (is_combinator k) eqn:Ek; [|by eapply con_column].
        apply (con_branch l k v); [done|]. by apply (IH k).
      * destruct Hn. intros kv Hv. destruct (_ && _) eqn:Ev; [done|].
        rewrite <- not_true_iff_false, existsb_True in E. destruct E. exists kv. by rewrite Ev.
    + intros Hc Hall. inversion Hc as [| | | |l' k v Hv Hk|l' k v Hv Hcv]; subst;
        specialize (Hall _ Hv); cbn in Hall; bprop; [congruence|].
      apply (IH k) in Hcv; [congruence|done].
Qed.

(** ** Pages *)

Lemma pageSize_bounds o : (1 <= pageSize o <= 200)%Z.
Proof.
  unfold pageSize, DEFAULT_PAGE_SIZE, MAX_PAGE_SIZE. destruct o as [[]|]; lia.
Qed.

Lemma offset_int z : (0 <= z)%Z → offset (Some (int z)) = Some z.
Proof. intros Hz. unfold offset, int. rewrite Qfloor_Z. f_equal. lia. Qed.

Lemma offset_nonneg o : (0 <= default 0 (offset o))%Z.
Proof. destruct o as [[]|]; cbn; lia. Qed.

Section page_facts.
  Context {R : Type} (rows : list R).

Lemma findPage_facts o sk (p := findPage rows o sk) (n := Z.to_nat (pageSize o))
    (skip := Z.to_nat (default 0%Z (offset sk))) :
  p_rows p = take n (drop skip rows)
  ∧ (p_hasMore p = true ↔ skip + n < length rows)
  ∧ p_nextSkip p = if p_hasMore p then Some (default 0 (offset sk) + pageSize o)%Z else None.
Proof.
  subst p n skip. unfold findPage, slice. cbn [p_rows p_hasMore p_nextSkip].
  pose proof (pageSize_bounds o) as Hn. pose proof (offset_nonneg sk) as Hs.
  set (n := pageSize o) in *. set (s := default 0%Z (offset sk)) in *.
  replace (Z.to_nat (n + 1)) with (S (Z.to_nat n)) by lia.
  rewrite length_take, length_drop.
  destruct (n <? Z.of_nat (S (Z.to_nat n) `min` (length rows - Z.to_nat s)))%Z eqn:E; bprop.
  - split_and!; [|split; [lia|done]|done]. rewrite take_take. f_equal. lia.
  - split_and!; [|split; [done|lia]|done].
    rewrite !take_ge; [done|rewrite length_drop; lia..].
Qed.

Lemma groupBy_page q sk :
  groupBy rows (Some q) sk
  = Ok (take (Z.to_nat (pageSize (Some q))) (drop (Z.to_nat (default 0%Z (offset sk))) rows)).
Proof.
  unfold groupBy, slice. pose proof (pageSize_bounds (Some q)) as Hn. set (n := pageSize (Some q)) in *.
  set (l := drop _ rows). replace (Z.to_nat (n + 1)) with (S (Z.to_nat n)) by lia. rewrite length_take.
  destruct (_ <=? n)%Z eqn:E; bprop.
  - f_equal. rewrite !take_ge; [done|lia..].
  - cbn [throw_if mbind result_bind]. rewrite take_take. do 2 f_equal. lia.
Qed.

(** The loop reads every group, once and in order. *)
Lemma group_pages_all skip fuel : (0 <= skip)%Z → length rows < fuel + Z.to_nat skip →
  group_pages fuel rows skip = Ok (drop (Z.to_nat skip) rows).
Proof.
  revert skip. induction fuel as [|fuel IH]; intros skip Hs Hf; cbn [group_pages].
  { rewrite drop_ge by lia. done. }
  rewrite groupBy_page, offset_int by done. cbn [mbind result_bind from_option id].
  change (Z.to_nat (pageSize (Some (int MAX_PAGE_SIZE)))) with 200. rewrite length_take, length_drop.
  unfold MAX_PAGE_SIZE. destruct (Z.ltb_spec (Z.of_nat (200 `min` (length rows - Z.to_nat skip))) 200).
  - rewrite take_ge; [done|rewrite length_drop; lia].
  - rewrite IH by lia. cbn [mbind result_bind]. f_equal.
    replace (Z.to_nat (skip + 200)) with (Z.to_nat skip + 200) by lia. rewrite <- drop_drop. apply take_drop.
Qed.

(** Reading on from [skip] with a fixed page size until a page says it is the last. *)
Fixpoint walk (fuel : nat) (o : option num) (skip : Z) : list R :=
  match fuel with
  | O => []
  | S fuel =>
      let p := findPage rows o (Some (int skip)) in
      p_rows p ++ if p_nextSkip p is Some s then walk fuel o s else []
  end.
End page_facts.

(** Pages are complete and bounded: a page never holds more than 200 rows,
    says it has more exactly when rows remain, and following its next offset
    from any start, with any requested size, yields every remaining row once
    and in order, within as many pages as there are rows plus one. *)
Theorem walk_complete {R : Type} (rows : list R) (o : option num) (skip : Z) (fuel : nat)
  (Hskip : (0 <= skip)%Z) (Hfuel : length rows < fuel + Z.to_nat skip) :
  walk rows fuel o skip = drop (Z.to_nat skip) rows
  ∧ length (p_rows (findPage rows o (Some (int skip)))) <= 200
  ∧ (p_hasMore (findPage rows o (Some (int skip))) = true ↔
     Z.to_nat skip + Z.to_nat (pageSize o) < length rows).
Proof.
  destruct (findPage_facts rows o (Some (int skip))) as (Hr & Hm & _).
  rewrite offset_int in Hr, Hm by done. cbn [from_option id] in Hr, Hm.
  pose proof (pageSize_bounds o) as Hn. split_and!; [|rewrite Hr, length_take; lia|exact Hm].
  clear Hr Hm. revert skip Hskip Hfuel. induction fuel as [|fuel IH]; intros skip Hskip Hfuel.
  - rewrite drop_ge by lia. done.
  - cbn [walk]. destruct (findPage_facts rows o (Some (int skip))) as (Hr & Hm & Hnx).
    rewrite offset_int in Hr, Hm, Hnx by done. cbn [from_option id] in Hr, Hm, Hnx. rewrite Hr, Hnx.
    destruct (p_hasMore _) eqn:E.
    + pose proof (proj1 Hm eq_refl) as Hlt. rewrite IH by lia.
      replace (Z.to_nat (skip + pageSize o)) with (Z.to_nat skip + Z.to_nat (pageSize o)) by lia.
      rewrite <- drop_drop. apply take_drop.
    + rewrite app_nil_r. apply take_ge. rewrite length_drop.
      assert (¬ Z.to_nat skip + Z.to_nat (pageSize o) < length rows); [|lia].
      intros Hx. apply Hm in Hx. congruence.
Qed.

Lemma walk_complete_witness :
  walk [1; 2; 3; 4; 5] 6 (Some (int 2)) 1 = [2; 3; 4; 5].
Proof. apply (walk_complete [1; 2; 3; 4; 5] (Some (int 2)) 1 6); cbn; lia. Defined.

(** A list read without a stated size never lies by omission: it returns
    every remaining row or it throws, and it throws exactly when more than the
    default page remains; with a stated size it returns that page. *)
Theorem findMany_honest {R : Type} (rows : list R) (sk : option num) :
  (findMany rows None sk
   = if Z.of_nat (length (drop (Z.to_nat (default 0%Z (offset sk))) rows)) <=? DEFAULT_PAGE_SIZE
     then Ok (drop (Z.to_nat (default 0%Z (offset sk))) rows)
     else throw internal_error "matched more rows than the default page and no 'take' was given")%Z
  ∧ ∀ q, findMany rows (Some q) sk
         = Ok (take (Z.to_nat (pageSize (Some q))) (drop (Z.to_nat (default 0%Z (offset sk))) rows)).
Proof.
  split.
  - unfold findMany. destruct (findPage_facts rows None sk) as (Hr & Hm & _).
    pose proof (offset_nonneg sk). rewrite length_drop. cbn [pageSize] in *.
    unfold DEFAULT_PAGE_SIZE in *. destruct (p_hasMore _) eqn:E; cbn [andb].
    + pose proof (proj1 Hm eq_refl) as Hlt.
      destruct (_ <=? 50)%Z eqn:E2; bprop; [lia|done].
    + destruct (_ <=? 50)%Z eqn:E2; bprop.
      * cbn [throw_if mbind result_bind]. rewrite Hr. f_equal. apply take_ge. rewrite length_drop. lia.
      * assert (false = true); [apply Hm; lia|done].
  - intros q. unfold findMany. destruct (findPage_facts rows (Some q) sk) as (Hr & _ & _).
    rewrite andb_false_r. cbn [throw_if mbind result_bind]. by rewrite Hr.
Qed.

(** ** Processing every row *)

Section ForEach.
  Context {S R : Type}.
(** The order of the primary key, the rows that match in a state (in that
    order), and the caller's handler. *)
  Context (ltb : string → string → bool).
  Context (rows_of : S → list (string * R)).
  Context (handler : list (string * R) → nat → M S unit).

(** [WHERE id > cursor ORDER BY id LIMIT size] *)
Definition beyond (cursor : option string) (r : string * R) : bool :=
  if cursor is Some k then ltb k r.1 else true.
Definition keyset (size : nat) (cursor : option string) (s : S) : list (string * R) :=
  take size (filter (λ r, beyond cursor r = true) (rows_of s)).

(** The loop of [forEachPage]; it also collects the rows it hands over.
    [None] when the fuel runs out. *)
Fixpoint forEach (fuel size : nat) (cursor : option string) (processed pageIndex : nat) (s : S)
    : option (result nat * S * list (string * R)) :=
  match fuel with
  | O => None
  | Datatypes.S fuel =>
      let rows := keyset size cursor s in
      match last rows with
      | None => Some (Ok processed, s, [])
      | Some (k, _) =>
          match handler rows pageIndex s with
          | (Throw e, s') => Some (Throw e, s', rows)
          | (Ok _, s') =>
              let processed := processed + length rows in
              if bool_decide (k = EmptyString)
              then Some (throw internal_error "forEachPage cannot page", s', rows)
              else if length rows <? size then Some (Ok processed, s', rows)
              else
                '(r, s'', more) ← forEach fuel size (Some k) processed (Datatypes.S pageIndex) s';
                Some (r, s'', rows ++ more)
          end
      end
  end.

Definition forEachPage (fuel : nat) (size : option num) (s : S)
    : option (result nat * S * list (string * R)) :=
  forEach fuel (Z.to_nat (pageSize size)) None 0 0 s.

(** Primary keys are totally ordered; a query returns rows in key order. *)
  Context (Hirr : ∀ a, ltb a a = false).
  Context (Htrans : ∀ a b d, ltb a b = true → ltb b d = true → ltb a d = true).
Definition before (a b : string * R) : Prop := ltb a.1 b.1 = true.
Context (Hsorted : ∀ s, StronglySorted before (rows_of s)).
Context (Hids : ∀ s k r, (k, r) ∈ rows_of s → k ≠ EmptyString).
(** The handler succeeds and decides only about the rows it is given: other
    rows match afterwards exactly if they matched before. *)
  Context (Hlocal : ∀ l n s, ∃ s', handler l n s = (Ok tt, s')
    ∧ ∀ x, x.1 ∉ l.*1 → x ∈ rows_of s' ↔ x ∈ rows_of s).

Lemma sorted_filter l p : StronglySorted before l → StronglySorted before (filter (λ r, p r = true) l).
Proof.
  induction 1 as [|x l Hl IH Hx]; [constructor|]. rewrite filter_cons.
  destruct (decide (p x = true)); [|done]. constructor; [done|].
  rewrite Forall_forall in *. intros y [_ Hy]%list_elem_of_filter. by apply Hx.
Qed.

Lemma sorted_app l1 l2 :
  StronglySorted before (l1 ++ l2) →
  StronglySorted before l1 ∧ StronglySorted before l2 ∧ ∀ x y, x ∈ l1 → y ∈ l2 → before x y.
Proof.
  induction l1 as [|z l1 IH]; cbn; intros Hs.
  - split_and!; [constructor|done|]. by intros x y ?%not_elem_of_nil.
  - inversion Hs as [|? ? Hs' Hz]; subst. destruct (IH Hs') as (H1 & H2 & H3).
    rewrite Forall_app in Hz. destruct Hz as [Hz1 Hz2]. split_and!; [by constructor|done|].
    intros x y [->|Hx]%elem_of_cons Hy; [|by apply H3]. rewrite Forall_forall in Hz2. by apply Hz2.
Qed.

Lemma sorted_ext l1 : ∀ l2, StronglySorted before l1 → StronglySorted before l2 →
  (∀ x, x ∈ l1 ↔ x ∈ l2) → l1 = l2.
Proof.
  assert (∀ x l, Forall (before x) l → x ∉ l) as Hnot.
  { intros x l Hf Hx. rewrite Forall_forall in Hf. specialize (Hf x Hx).
    unfold before in Hf. by rewrite Hirr in Hf. }
  induction l1 as [|x l1 IH]; intros [|y l2] Hs1 Hs2 Hm; [done|..].
  - destruct (not_elem_of_nil y). apply Hm. by left.
  - destruct (not_elem_of_nil x). apply Hm. by left.
  - inversion Hs1 as [|? ? Hs1' Hx]; inversion Hs2 as [|? ? Hs2' Hy]; subst.
    assert (x = y) as ->.
    { assert (x ∈ y :: l2) as Hxin by (apply Hm; by left).
      assert (y ∈ x :: l1) as Hyin by (apply Hm; by left).
      apply elem_of_cons in Hxin as [->|Hxin]; [done|].
      apply elem_of_cons in Hyin as [->|Hyin]; [done|].
      rewrite Forall_forall in Hx, Hy. specialize (Hx y Hyin). specialize (Hy x Hxin).
      unfold before in *. pose proof (Htrans _ _ _ Hx Hy) as Hc. by rewrite Hirr in Hc. }
    f_equal. apply IH; try done. intros z. specialize (Hm z). rewrite !elem_of_cons in Hm.
    assert (z ∈ l1 → z ≠ y) by (intros ? ->; by apply (Hnot y l1)).
    assert (z ∈ l2 → z ≠ y) by (intros ? ->; by apply (Hnot y l2)). tauto.
Qed.

Definition remaining (cursor : option string) (s : S) : list (string * R) :=
  filter (λ r, beyond cursor r = true) (rows_of s).

Lemma last_take_sorted size (l : list (string * R)) k r :
  StronglySorted before l → last (take size l) = Some (k, r) →
  (k, r) ∈ take size l
  ∧ (∀ x, x ∈ take size l → x.1 = k ∨ ltb x.1 k = true)
  ∧ (∀ x, x ∈ drop size l → ltb k x.1 = true).
Proof.
  intros Hs Hl. apply last_Some in Hl as [l' El].
  rewrite <- (take_drop size l) in Hs. destruct (sorted_app _ _ Hs) as (H1 & _ & H3).
  rewrite El in H1, H3 |- *. destruct (sorted_app _ _ H1) as (_ & _ & H4). split_and!.
  - apply elem_of_app. right. by left.
  - intros x [Hx|Hx]%elem_of_app; [right|left].
    + apply (H4 x (k, r) Hx). by left.
    + apply list_elem_of_singleton in Hx as ->. done.
  - intros x Hx. apply (H3 (k, r) x); [|done]. apply elem_of_app. right. by left.
Qed.

(** After a page, what remains beyond its last key is the rest of the list. *)
Lemma remaining_next size cursor s s' k r :
  last (keyset size cursor s) = Some (k, r) →
  (∀ x, x.1 ∉ (keyset size cursor s).*1 → x ∈ rows_of s' ↔ x ∈ rows_of s) →
  remaining (Some k) s' = drop size (remaining cursor s).
Proof.
  unfold keyset. fold (remaining cursor s). intros Hl Hloc.
  assert (StronglySorted before (remaining cursor s)) as Hs by by apply sorted_filter.
  destruct (last_take_sorted size _ k r Hs Hl) as (Hk & Hle & Hgt).
  assert (∀ x : string * R, ltb k x.1 = true → x.1 ∉ (take size (remaining cursor s)).*1) as Hout.
  { intros x Hx (y & Ey & Hy)%list_elem_of_fmap. destruct (Hle y Hy) as [E|E];
      rewrite <- Ey in E; [by rewrite E, Hirr in Hx|].
    pose proof (Htrans _ _ _ Hx E) as Hc. by rewrite Hirr in Hc. }
  apply sorted_ext.
  - by apply sorted_filter.
  - rewrite <- (take_drop size (remaining cursor s)) in Hs. by apply sorted_app in Hs as (_ & ? & _).
  - intros x. unfold remaining at 1. rewrite list_elem_of_filter. cbn [beyond]. split.
    + intros [Hx Hin]. rewrite (Hloc x (Hout x Hx)) in Hin.
      assert (x ∈ remaining cursor s) as Hr.
      { apply list_elem_of_filter. split; [|done]. destruct cursor as [k0|]; [|done]. cbn.
        apply (Htrans _ k); [|done]. apply elem_of_take in Hk as (i & Hi & _).
        apply list_elem_of_lookup_2 in Hi. by apply list_elem_of_filter in Hi as [? _]. }
      rewrite <- (take_drop size (remaining cursor s)) in Hr. apply elem_of_app in Hr as [Hr|]; [|done].
      destruct (Hout x Hx). by apply list_elem_of_fmap_2.
    + intros Hin. pose proof (Hgt x Hin) as Hx. split; [done|]. rewrite (Hloc x (Hout x Hx)).
      assert (x ∈ remaining cursor s) as Hr.
      { rewrite <- (take_drop size (remaining cursor s)). apply elem_of_app. by right. }
      by apply list_elem_of_filter in Hr as [_ ?].
Qed.

Lemma forEach_all size (Hsize : 1 <= size) fuel : ∀ cursor processed idx s,
  length (remaining cursor s) < fuel →
  ∃ s', forEach fuel size cursor processed idx s
        = Some (Ok (processed + length (remaining cursor s)), s', remaining cursor s).
Proof.
  induction fuel as [|fuel IH]; intros cursor processed idx s Hf; [lia|]. cbn [forEach].
  destruct (last (keyset size cursor s)) as [[k r]|] eqn:El.
  - destruct (Hlocal (keyset size cursor s) idx s) as (s' & -> & Hloc).
    pose proof (remaining_next size cursor s s' k r El Hloc) as Hnext.
    assert ((k, r) ∈ rows_of s) as Hkr.
    { apply last_Some in El as [l' El]. unfold keyset in El.
      assert ((k, r) ∈ take size (remaining cursor s)) as Hin.
      { unfold remaining. rewrite El. apply elem_of_app. right. by left. }
      apply elem_of_take in Hin as (i & Hi & _). apply list_elem_of_lookup_2 in Hi.
      by apply list_elem_of_filter in Hi as [_ ?]. }
    rewrite bool_decide_eq_false_2 by by eapply Hids.
    unfold keyset. fold (remaining cursor s). rewrite length_take.
    destruct (size `min` length (remaining cursor s) <? size)%nat eqn:E; bprop.
    + exists s'. rewrite take_ge by lia. do 2 f_equal. f_equal. f_equal. lia.
    + destruct (IH (Some k) (processed + size `min` length (remaining cursor s)) (Datatypes.S idx) s')
        as (s'' & ->). { rewrite Hnext, length_drop. lia. }
      exists s''. cbn [mbind option_bind]. rewrite Hnext, length_drop, take_drop.
      do 2 f_equal. f_equal. f_equal. lia.
  - apply last_None in El. unfold keyset in El. fold (remaining cursor s) in El.
    assert (remaining cursor s = []) as ->.
    { destruct (remaining cursor s); [done|]. destruct size; [lia|done]. }
    exists s. by rewrite Nat.add_0_r.
Qed.
End ForEach.

(** [forEachPage] really processes everything, also when the handler is
    what stops rows matching: for a handler that succeeds and affects only the
    rows it is given, the walk ends, hands over exactly the rows that matched
    at the start, each once and in key order, and returns their number. *)
Theorem forEachPage_exhausts {S R : Type} (ltb : string → string → bool)
  (rows_of : S → list (string * R)) (handler : list (string * R) → nat → M S unit)
  (size : option num) (s : S) (fuel : nat)
  (Hirr : ∀ a, ltb a a = false)
  (Htrans : ∀ a b d, ltb a b = true → ltb b d = true → ltb a d = true)
  (Hsorted : ∀ s, StronglySorted (before ltb) (rows_of s))
  (Hids : ∀ s k r, (k, r) ∈ rows_of s → k ≠ EmptyString)
  (Hlocal : ∀ l n s, ∃ s', handler l n s = (Ok tt, s')
     ∧ ∀ x, x.1 ∉ l.*1 → x ∈ rows_of s' ↔ x ∈ rows_of s)
  (Hfuel : length (rows_of s) < fuel) :
  ∃ s', forEachPage ltb rows_of handler fuel size s
        = Some (Ok (length (rows_of s)), s', rows_of s).
Proof.
  assert (remaining ltb rows_of None s = rows_of s) as E.
  { unfold remaining. generalize (rows_of s). intros l. induction l as [|x l IH]; [done|].
    rewrite filter_cons, decide_True by done. by rewrite IH. }
  pose proof (pageSize_bounds size) as Hb.
  destruct (forEach_all ltb rows_of handler Hirr Htrans Hsorted Hids Hlocal
              (Z.to_nat (pageSize size)) ltac:(lia) fuel None 0 0 s) as (s' & Hs').
  { by rewrite E. }
  exists s'. unfold forEachPage. rewrite Hs', E. done.
Qed.

(** Two rows, and a handler that deletes what it is given. *)
Definition two_ltb (a b : string) : bool := bool_decide (a = "a") && bool_decide (b = "b").
Definition two_rows (s : bool * bool) : list (string * unit) :=
  (if s.1 then [("a", tt)] else []) ++ (if s.2 then [("b", tt)] else []).
Definition two_delete (l : list (string * unit)) (_ : nat) : M (bool * bool) unit := λ s,
  (Ok tt, (s.1 && negb (bool_decide ("a" ∈ l.*1)), s.2 && negb (bool_decide ("b" ∈ l.*1)))).

Lemma forEachPage_exhausts_witness :
  ∃ s', forEachPage two_ltb two_rows two_delete 3 (Some (int 1)) (true, true)
        = Some (Ok 2, s', [("a", tt); ("b", tt)]).
Proof.
  apply (forEachPage_exhausts two_ltb two_rows two_delete (Some (int 1)) (true, true) 3).
  - intros a. unfold two_ltb. do 2 (case_bool_decide; try done). congruence.
  - intros a b d. unfold two_ltb. intros H1 H2. bprop. congruence.
  - intros [[] []]; repeat constructor.
  - intros [[] []] k r; unfold two_rows; cbn [fst snd app]; rewrite ?elem_of_cons, ?elem_of_nil;
      intros; destruct_or?; congruence.
  - intros l n [x y]. eexists. split; [reflexivity|]. intros [k []] Hk. cbn [fst] in Hk.
    unfold two_rows. cbn [fst snd]. rewrite !elem_of_app.
    assert (("a" ∈ l.*1) → k ≠ "a") as Ha by congruence.
    assert (("b" ∈ l.*1) → k ≠ "b") as Hb by congruence.
    destruct x, y; cbn [andb]; repeat case_bool_decide; cbn [negb];
      rewrite ?elem_of_cons, ?elem_of_nil; split; intros; destruct_or?; simplify_eq; auto; tauto.
  - cbn. lia.
Defined.
