(* ===== verification/AutoDisable.v ===== *)
(** The endpoint auto-disable sweep: maintenance/auto-disable-policy.ts and
    maintenance/endpoint-auto-disable.service.ts.

    The sweep runs outside any tenant, on the whole database, inside one
    transaction.  The alerts it fires are not part of the database: the world
    keeps them beside it, and a rollback does not take them back. *)
From Stdlib Require Import ZArith Lia.
From S2P Require Import Prelude Js Permissions RetryRules AuditTrail Db Scope.

(** ** The policy *)

Definition AUTO_DISABLE_AUDIT_ACTION : string := "endpoint.auto_disabled".
Definition AUTO_DISABLE_REASON_PREFIX : jsstr := js "auto-disabled".
Definition HOUR_MS : Z := 3600000.

Record BreakerSnapshot : Type := {
  openedAt : option Z;
  consecutiveFailures : Z;
  lastSuccessAt : option Z
}.

Definition hasBeenOpenLongEnough (s : BreakerSnapshot) (now afterHours : Z) : bool :=
  match openedAt s with
  | None => false
  | Some t => (afterHours * HOUR_MS <=? now - t)%Z
  end.

Definition humaniseDuration (ms : Z) : jsstr :=
  let hours := (ms / HOUR_MS)%Z in
  let days := (hours / 24)%Z in
  if (1 <=? days)%Z then
    let remainder := (hours - days * 24)%Z in
    if (remainder =? 0)%Z then int_toString days ++ js "d"
    else int_toString days ++ js "d " ++ int_toString remainder ++ js "h"
  else int_toString hours ++ js "h".

Definition autoDisableReason (s : BreakerSnapshot) (now : Z) : jsstr :=
  let openFor := if openedAt s is Some t then humaniseDuration (now - t) else js "an unknown period" in
  let lastSuccess := if lastSuccessAt s is Some t then toISOString t else js "never" in
  AUTO_DISABLE_REASON_PREFIX ++ js ": the circuit breaker had been open for " ++ openFor
  ++ js " (" ++ int_toString (consecutiveFailures s)
  ++ js " consecutive failures, last successful delivery: " ++ lastSuccess
  ++ js "). New events are no longer queued for this endpoint. Re-enable it once the endpoint is answering.".

(** ** The world *)

Record Alert : Type := MkAlert {
  al_project : string;
  al_event : jsstr;
  al_subject : jsstr;
  al_headline : jsstr;
  al_body : jsstr;
  al_link : jsstr
}.

Record World : Type := MkWorld { w_db : Db; w_alerts : list Alert }.

Definition on_db {A} (m : M Db A) : M World A := λ w,
  let '(r, db) := m (w_db w) in (r, MkWorld db (w_alerts w)).

(** [prisma.$transaction]: a throw, or a COMMIT that fails, restores the
    database and nothing else. *)
Definition dollar_transaction {A} (commits : bool) (m : M World A) : M World A := λ w,
  match m w with
  | (Ok a, w') =>
      if commits then (Ok a, w')
      else (throw internal_error "transaction did not commit", MkWorld (w_db w) (w_alerts w'))
  | (Throw e, w') => (Throw e, MkWorld (w_db w) (w_alerts w'))
  end.

(** [AuditService.recordSystem]: no user, no request. *)
Definition recordSystem (organizationId action resourceType : string) (resourceId : option string)
    (metadata : list (jsstr * meta)) : M Db unit :=
  modify (upd_auditLogs (λ l, l ++ [AuditLog.mk organizationId None action resourceType resourceId
    (sanitise (Some metadata))])).

(** ** The sweep *)

Record AutoDisableOptions : Type := { o_enabled : bool; afterHours : Z; maxPerRun : nat }.
Record AutoDisableReport : Type := MkReport {
  skipped : bool; considered : nat; disabled_ : nat; truncated : bool
}.
Definition empty_report : AutoDisableReport := MkReport false 0 0 false.

Record Candidate : Type := {
  snapshot : BreakerSnapshot;
  endpointId : string;
  endpointName : jsstr;
  endpointUrl : jsstr;
  projectId : string;
  organizationId : string;
  previousStatus : EndpointStatus.t
}.

(** [status: 'active', enabled: true] *)
Definition armed (e : Endpoint.t) : bool :=
  bool_decide (Endpoint.status e = EndpointStatus.active) && Endpoint.enabled e.

Definition dark (cutoff : Z) (h : EndpointHealth.t) : bool :=
  bool_decide (EndpointHealth.state h = EndpointHealthState.open)
  && (if EndpointHealth.openedAt h is Some t then (t <=? cutoff)%Z else false).

Definition candidate_of (db : Db) (cutoff : Z) (kv : string * EndpointHealth.t) : option Candidate :=
  e ← endpoints db !! kv.1;
  pr ← projects db !! Endpoint.projectId e;
  if dark cutoff kv.2 && armed e then
    Some {| snapshot := {| openedAt := EndpointHealth.openedAt kv.2;
                           consecutiveFailures := EndpointHealth.consecutiveFailures kv.2;
                           lastSuccessAt := EndpointHealth.lastSuccessAt kv.2 |};
            endpointId := kv.1;
            endpointName := Endpoint.name e;
            endpointUrl := Endpoint.url e;
            projectId := Endpoint.projectId e;
            organizationId := Project.organizationId pr;
            previousStatus := Endpoint.status e |}
  else None.

(** [orderBy: { openedAt: 'asc' }] *)
Definition opened (c : Candidate) : Z := default 0%Z (openedAt (snapshot c)).
Definition opened_le (a b : Candidate) : bool := (opened a <=? opened b)%Z.

Definition waiting (db : Db) (cutoff : Z) : list Candidate :=
  omap (candidate_of db cutoff) (map_to_list (endpointHealth db)).

Definition candidates (db : Db) (o : AutoDisableOptions) (now : Z) : list Candidate :=
  let cutoff := (now - afterHours o * HOUR_MS)%Z in
  take (maxPerRun o) (sort_by opened_le (waiting db cutoff)).

Definition switched_off (c : Candidate) (now : Z) (e : Endpoint.t) : Endpoint.t :=
  Endpoint.set_updatedAt now (Endpoint.set_disabledAt (Some now)
    (Endpoint.set_disabledReason (Some (autoDisableReason (snapshot c) now))
      (Endpoint.set_enabled false (Endpoint.set_status EndpointStatus.disabled e)))).

(** [tx.endpoint.updateMany] by primary key, on an armed row only. *)
Definition updateArmed (id : string) (f : Endpoint.t → Endpoint.t) : M Db nat := λ db,
  match endpoints db !! id with
  | Some e => if armed e then (Ok 1, upd_endpoints (insert id (f e)) db) else (Ok 0, db)
  | None => (Ok 0, db)
  end.

Definition status_name (s : EndpointStatus.t) : string :=
  match s with
  | EndpointStatus.active => "active" | EndpointStatus.paused => "paused"
  | EndpointStatus.disabled => "disabled" | EndpointStatus.deleted => "deleted"
  end.

Definition iso_or_null (t : option Z) : meta := if t is Some t then MStr (toISOString t) else MNull.

Definition disable_metadata (c : Candidate) (o : AutoDisableOptions) (now : Z) : list (jsstr * meta) :=
  [(js "project_id", MStr (js (projectId c)));
   (js "name", MStr (endpointName c));
   (js "url", MStr (endpointUrl c));
   (js "previous_status", MStr (js (status_name (previousStatus c))));
   (js "reason", MStr (autoDisableReason (snapshot c) now));
   (js "circuit_open_since", iso_or_null (openedAt (snapshot c)));
   (js "consecutive_failures", MNum (int (consecutiveFailures (snapshot c))));
   (js "last_success_at", iso_or_null (lastSuccessAt (snapshot c)));
   (js "threshold_hours", MNum (int (afterHours o)));
   (js "remedy", MStr (js "POST /v1/projects/{projectId}/endpoints/{endpointId}/enable"))].

Definition stopped_alert (c : Candidate) : Alert := {|
  al_project := projectId c;
  al_event := js "endpoint.stopped";
  al_subject := js "endpoint:" ++ js (endpointId c) ++ js ":stopped";
  al_headline := js "We stopped sending to " ++ endpointName c;
  al_body := endpointName c ++ js " failed " ++ int_toString (consecutiveFailures (snapshot c))
    ++ js " times in a row, so we stopped sending to it. New events create nothing for this endpoint and queued deliveries are being cancelled until someone starts it again. Nothing you did caused this, and starting it again is a button on the endpoint.";
  al_link := js "/orgs/" ++ js (organizationId c) ++ js "/projects/" ++ js (projectId c)
    ++ js "/endpoints/" ++ js (endpointId c)
|}.

Definition disable (c : Candidate) (o : AutoDisableOptions) (now : Z) : M World bool :=
  n ← on_db (updateArmed (endpointId c) (switched_off c now));
  if (n =? 0)%nat then mret false
  else
    _ ← on_db (recordSystem (organizationId c) AUTO_DISABLE_AUDIT_ACTION "endpoint"
                 (Some (endpointId c)) (disable_metadata c o now));
    _ ← modify (λ w, MkWorld (w_db w) (w_alerts w ++ [stopped_alert c]));
    mret true.

(** [for (const candidate of candidates)], counting the disabled. *)
Fixpoint disable_all (o : AutoDisableOptions) (now : Z) (cs : list Candidate) (n : nat) : M World nat :=
  match cs with
  | [] => mret n
  | c :: cs =>
      if negb (hasBeenOpenLongEnough (snapshot c) now (afterHours o)) then disable_all o now cs n
      else
        b ← disable c o now;
        disable_all o now cs (if (b : bool) then S n else n)
  end.

(** [locked] is the answer of [pg_try_advisory_xact_lock], [commits] whether
    COMMIT succeeds. *)
Definition sweep (o : AutoDisableOptions) (now : Z) (locked commits : bool) : M World AutoDisableReport :=
  if negb (o_enabled o) then mret empty_report
  else dollar_transaction commits (
    if negb locked then mret (MkReport true 0 0 false)
    else
      cs ← gets (λ w, candidates (w_db w) o now);
      n ← disable_all o now cs 0;
      mret (MkReport false (length cs) n (maxPerRun o <=? length cs))).

(** ** What a pass should do *)

(** Endpoint [id] is armed and its breaker has been open since [t], which is at
    or before [cutoff]. *)
Definition eligible (db : Db) (cutoff : Z) (id : string) (t : Z) : Prop :=
  ∃ h e pr, endpointHealth db !! id = Some h ∧ EndpointHealth.state h = EndpointHealthState.open
    ∧ EndpointHealth.openedAt h = Some t ∧ (t <= cutoff)%Z
    ∧ endpoints db !! id = Some e ∧ armed e = true ∧ projects db !! Endpoint.projectId e = Some pr.

Definition cutoff_of (o : AutoDisableOptions) (now : Z) : Z := (now - afterHours o * HOUR_MS)%Z.

Definition audit_row (o : AutoDisableOptions) (now : Z) (c : Candidate) : AuditLog.t :=
  AuditLog.mk (organizationId c) None AUTO_DISABLE_AUDIT_ACTION "endpoint" (Some (endpointId c))
    (sanitise (Some (disable_metadata c o now))).

(** The effect of disabling one candidate, and all of them. *)
Definition off1 (o : AutoDisableOptions) (now : Z) (db : Db) (c : Candidate) : Db :=
  upd_auditLogs (λ l, l ++ [audit_row o now c])
    (updateArmed (endpointId c) (switched_off c now) db).2.
Definition off_all (o : AutoDisableOptions) (now : Z) : list Candidate → Db → Db :=
  λ cs db, foldl (off1 o now) db cs.

Lemma candidate_of_Some db cutoff id h c :
  candidate_of db cutoff (id, h) = Some c ↔
  ∃ e pr t, endpoints db !! id = Some e ∧ projects db !! Endpoint.projectId e = Some pr
    ∧ EndpointHealth.state h = EndpointHealthState.open ∧ EndpointHealth.openedAt h = Some t
    ∧ (t <= cutoff)%Z ∧ armed e = true
    ∧ c = {| snapshot := {| openedAt := Some t;
                            consecutiveFailures := EndpointHealth.consecutiveFailures h;
                            lastSuccessAt := EndpointHealth.lastSuccessAt h |};
             endpointId := id; endpointName := Endpoint.name e; endpointUrl := Endpoint.url e;
             projectId := Endpoint.projectId e; organizationId := Project.organizationId pr;
             previousStatus := Endpoint.status e |}.
Proof.
  unfold candidate_of, dark. cbn [fst snd]. rewrite bind_Some. setoid_rewrite bind_Some. split.
  - intros (e & He & pr & Hpr & Hc). destruct (EndpointHealth.openedAt h) as [t|] eqn:Et.
    + destruct (_ && _) eqn:Hb; [|done]. bprop. injection Hc as <-. exists e, pr, t. by split_and!.
    + rewrite andb_false_r in Hc. done.
  - intros (e & pr & t & He & Hpr & Hs & Ht & Hle & Ha & ->). exists e. split; [done|].
    exists pr. split; [done|]. rewrite Ht, Ha, bool_decide_eq_true_2 by done.
    by rewrite (proj2 (Z.leb_le t cutoff)).
Qed.

Lemma waiting_elem db cutoff c :
  c ∈ waiting db cutoff ↔
  ∃ h, endpointHealth db !! endpointId c = Some h ∧ candidate_of db cutoff (endpointId c, h) = Some c.
Proof.
  unfold waiting. rewrite list_elem_of_omap. split.
  - intros ([id h] & Hin & Hc). apply elem_of_map_to_list in Hin.
    assert (id = endpointId c) as ->.
    { apply candidate_of_Some in Hc as (? & ? & ? & _ & _ & _ & _ & _ & _ & ->). done. }
    by exists h.
  - intros (h & Hh & Hc). exists (endpointId c, h). split; [|done]. by apply elem_of_map_to_list.
Qed.

Lemma waiting_eligible db cutoff c :
  c ∈ waiting db cutoff →
  eligible db cutoff (endpointId c) (opened c) ∧ openedAt (snapshot c) = Some (opened c)
  ∧ endpoint_org db (endpointId c) = Some (organizationId c).
Proof.
  intros (h & Hh & (e & pr & t & He & Hpr & Hs & Ht & Hle & Ha & Hc)%candidate_of_Some)%waiting_elem.
  rewrite Hc in Hh, He |- *. cbn [endpointId snapshot openedAt opened default organizationId] in *.
  split_and!; [|done|].
  - exists h, e, pr. by split_and!.
  - unfold endpoint_org, endpoint_project, project_org. rewrite He. cbn. by rewrite Hpr.
Qed.

Lemma eligible_waiting db cutoff id t :
  eligible db cutoff id t → ∃ c, c ∈ waiting db cutoff ∧ endpointId c = id ∧ opened c = t.
Proof.
  intros (h & e & pr & Hh & Hs & Ht & Hle & He & Ha & Hpr). eexists (Build_Candidate _ id _ _ _ _ _).
  split; [|split; [reflexivity|]].
  - apply waiting_elem. exists h. split; [done|]. apply candidate_of_Some.
    exists e, pr, t. by split_and!.
  - done.
Qed.

Lemma waiting_NoDup db cutoff : NoDup (endpointId <$> waiting db cutoff).
Proof.
  unfold waiting. generalize (NoDup_fst_map_to_list (endpointHealth db)).
  induction (map_to_list (endpointHealth db)) as [|[id h] l IH]; cbn [fmap list_fmap omap list_omap fst].
  { intros _. constructor. }
  intros [Hn Hl]%NoDup_cons. destruct (candidate_of db cutoff (id, h)) as [c|] eqn:E; [|auto].
  cbn. constructor; [|auto]. intros Hin. apply Hn.
  apply candidate_of_Some in E as (? & ? & ? & _ & _ & _ & _ & _ & _ & ->). cbn in Hin.
  apply list_elem_of_fmap in Hin as (c & Hid & ([id' h'] & Hl' & Hc)%list_elem_of_omap).
  apply candidate_of_Some in Hc as (? & ? & ? & _ & _ & _ & _ & _ & _ & ->). cbn in Hid. subst id'.
  apply list_elem_of_fmap. by exists (id, h').
Qed.

(** The candidates of a pass are the oldest waiting endpoints. *)
Lemma candidates_split db o now :
  waiting db (cutoff_of o now) ≡ₚ
    candidates db o now ++ drop (maxPerRun o) (sort_by opened_le (waiting db (cutoff_of o now))).
Proof. unfold candidates, cutoff_of. rewrite take_drop. symmetry. apply sort_by_perm. Qed.

Lemma candidates_waiting db o now c :
  c ∈ candidates db o now → c ∈ waiting db (cutoff_of o now).
Proof. intros Hc. rewrite candidates_split. apply elem_of_app. by left. Qed.

Lemma candidates_NoDup db o now : NoDup (endpointId <$> candidates db o now).
Proof.
  pose proof (waiting_NoDup db (cutoff_of o now)) as Hn.
  rewrite (candidates_split db o now), fmap_app in Hn. by apply NoDup_app in Hn as [? _].
Qed.

Lemma candidates_left db o now d :
  d ∈ waiting db (cutoff_of o now) → d ∉ candidates db o now →
  length (candidates db o now) = maxPerRun o
  ∧ ∀ c, c ∈ candidates db o now → (opened c <= opened d)%Z.
Proof.
  intros Hd Hn. rewrite (candidates_split db o now) in Hd.
  apply elem_of_app in Hd as [Hd|Hd]; [done|]. split.
  - unfold candidates. rewrite length_take. change (now - _)%Z with (cutoff_of o now).
    apply Nat.min_l. destruct (decide (maxPerRun o ≤ length (sort_by opened_le (waiting db (cutoff_of o now)))));
      [done|]. rewrite drop_ge in Hd by lia. by apply not_elem_of_nil in Hd.
  - intros c Hc. apply Z.leb_le. change (opened_le c d = true).
    apply (StronglySorted_app_1_elem_of (λ a b, opened_le a b = true)
      (take (maxPerRun o) (sort_by opened_le (waiting db (cutoff_of o now))))
      (drop (maxPerRun o) (sort_by opened_le (waiting db (cutoff_of o now))))); [|done|done].
    rewrite take_drop. apply sort_by_sorted; unfold opened_le.
    + intros a b. rewrite Z.leb_gt, Z.leb_le. lia.
    + intros a b e. rewrite !Z.leb_le. lia.
Qed.

(** ** Running a pass *)

Lemma off1_shape o now db c :
  ∃ m, off1 o now db c = upd_auditLogs (λ l, l ++ [audit_row o now c]) (upd_endpoints (λ _, m) db)
    ∧ (∀ id, id ≠ endpointId c → m !! id = endpoints db !! id)
    ∧ (∀ e, endpoints db !! endpointId c = Some e → armed e = true →
         m !! endpointId c = Some (switched_off c now e)).
Proof.
  unfold off1, updateArmed. destruct (endpoints db !! endpointId c) as [e|] eqn:He;
    [destruct (armed e) eqn:Ha|].
  - eexists. split; [reflexivity|]. split; [intros; by rewrite lookup_insert_ne|].
    intros e' [= <-] _. by rewrite lookup_insert_eq.
  - exists (endpoints db). split; [by destruct db|]. split; [done|]. congruence.
  - exists (endpoints db). split; [by destruct db|]. by split.
Qed.

Lemma off_all_shape o now cs db :
  NoDup (endpointId <$> cs) →
  ∃ m, off_all o now cs db
       = upd_auditLogs (λ l, l ++ map (audit_row o now) cs) (upd_endpoints (λ _, m) db)
    ∧ (∀ id, id ∉ endpointId <$> cs → m !! id = endpoints db !! id)
    ∧ (∀ c e, c ∈ cs → endpoints db !! endpointId c = Some e → armed e = true →
         m !! endpointId c = Some (switched_off c now e)).
Proof.
  revert db. induction cs as [|c cs IH]; intros db Hn.
  { exists (endpoints db). split; [destruct db; cbn; unfold upd_auditLogs; cbn; by rewrite app_nil_r|].
    split; [done|]. by intros c e ?%not_elem_of_nil. }
  cbn in Hn. apply NoDup_cons in Hn as [Hc Hn].
  destruct (off1_shape o now db c) as (m1 & E1 & Hother & Hhere).
  destruct (IH (off1 o now db c) Hn) as (m & E & Hrest & Hin).
  exists m. split_and!.
  - cbn. unfold off_all in E. rewrite E, E1. unfold upd_auditLogs, upd_endpoints. cbn.
    by rewrite <- app_assoc.
  - intros id [Hne Hni]%not_elem_of_cons. rewrite Hrest by done. rewrite E1. cbn. by apply Hother.
  - intros d e [->|Hd]%elem_of_cons He Ha.
    + rewrite Hrest by done. rewrite E1. cbn. by apply Hhere.
    + apply Hin; [done| |done]. rewrite E1. cbn. rewrite Hother; [done|].
      intros Heq. apply Hc. rewrite <- Heq. by apply list_elem_of_fmap_2.
Qed.

Lemma disable_run c o now w e :
  endpoints (w_db w) !! endpointId c = Some e → armed e = true →
  disable c o now w = (Ok true, MkWorld (off1 o now (w_db w) c) (w_alerts w ++ [stopped_alert c])).
Proof.
  intros He Ha. unfold disable, off1, on_db, updateArmed, mbind, M_bind, modify.
  rewrite He, Ha. done.
Qed.

Lemma disable_all_run o now cs n w :
  NoDup (endpointId <$> cs) →
  (∀ c, c ∈ cs → hasBeenOpenLongEnough (snapshot c) now (afterHours o) = true
     ∧ ∃ e, endpoints (w_db w) !! endpointId c = Some e ∧ armed e = true) →
  disable_all o now cs n w
  = (Ok (n + length cs), MkWorld (off_all o now cs (w_db w)) (w_alerts w ++ map stopped_alert cs)).
Proof.
  revert n w. induction cs as [|c cs IH]; intros n w Hn Hcs.
  { cbn. destruct w. by rewrite Nat.add_0_r, app_nil_r. }
  cbn in Hn. apply NoDup_cons in Hn as [Hc Hn].
  destruct (Hcs c) as (Hlong & e & He & Ha); [left|]. cbn [disable_all]. rewrite Hlong.
  cbn [negb]. unfold mbind, M_bind. rewrite (disable_run c o now w e He Ha).
  rewrite IH; [|done|].
  - cbn. rewrite <- app_assoc. f_equal. f_equal. lia.
  - intros d Hd. destruct (Hcs d) as (Hl & e' & He' & Ha'); [by right|]. split; [done|].
    exists e'. split; [|done]. destruct (off1_shape o now (w_db w) c) as (m & E & Hother & _).
    cbn [w_db]. rewrite E. cbn. rewrite Hother; [done|]. intros Heq. apply Hc. rewrite <- Heq.
    by apply list_elem_of_fmap_2.
Qed.

(** The body of the transaction on the candidates it reads. *)
Lemma pass_run o now w :
  disable_all o now (candidates (w_db w) o now) 0 w
  = (Ok (length (candidates (w_db w) o now)),
     MkWorld (off_all o now (candidates (w_db w) o now) (w_db w))
             (w_alerts w ++ map stopped_alert (candidates (w_db w) o now))).
Proof.
  apply disable_all_run; [apply candidates_NoDup|].
  intros c Hc%candidates_waiting. apply waiting_eligible in Hc as ((h & e & pr & Hel) & Ho & _).
  destruct Hel as (_ & _ & _ & Hle & He & Ha & _). split; [|by exists e].
  unfold hasBeenOpenLongEnough. rewrite Ho. apply Z.leb_le. unfold cutoff_of in Hle. lia.
Qed.

(** A pass that takes the lock and ends with COMMIT ([true]) or not. *)
Lemma sweep_run o now commits w :
  o_enabled o = true →
  sweep o now true commits w
  = (if commits then Ok (MkReport false (length (candidates (w_db w) o now))
       (length (candidates (w_db w) o now)) (maxPerRun o <=? length (candidates (w_db w) o now)))
     else throw internal_error "transaction did not commit",
     MkWorld (if commits then off_all o now (candidates (w_db w) o now) (w_db w) else w_db w)
             (w_alerts w ++ map stopped_alert (candidates (w_db w) o now))).
Proof.
  intros Hon. unfold sweep. rewrite Hon. unfold dollar_transaction, mbind, M_bind, gets. cbn [negb].
  rewrite (pass_run o now w). by destruct commits.
Qed.

(** One pass of the sweep, committed.  It switches off only endpoints that
    were active and enabled and whose breaker has been open, without one
    success, for at least the threshold; it takes the ones dark longest and
    leaves one behind only when the ceiling binds; each keeps its row but for
    the disable columns, and gets exactly one audit entry, filed against the
    organization that owns it, and one alert; nothing else in the database
    changes, and the report counts what was done. *)
Theorem sweep_committed (o : AutoDisableOptions) (now : Z) (w : World) (Hon : o_enabled o = true) :
  ∃ cs m,
    sweep o now true true w
    = (Ok (MkReport false (length cs) (length cs) (maxPerRun o <=? length cs)),
       MkWorld (upd_auditLogs (λ l, l ++ map (audit_row o now) cs) (upd_endpoints (λ _, m) (w_db w)))
               (w_alerts w ++ map stopped_alert cs))
    ∧ length cs ≤ maxPerRun o ∧ NoDup (endpointId <$> cs)
    ∧ (∀ c, c ∈ cs → eligible (w_db w) (cutoff_of o now) (endpointId c) (opened c)
         ∧ endpoint_org (w_db w) (endpointId c) = Some (organizationId c)
         ∧ ∃ e, endpoints (w_db w) !! endpointId c = Some e
              ∧ m !! endpointId c = Some (switched_off c now e))
    ∧ (∀ id, id ∉ endpointId <$> cs → m !! id = endpoints (w_db w) !! id)
    ∧ (∀ id t, eligible (w_db w) (cutoff_of o now) id t → id ∉ endpointId <$> cs →
         length cs = maxPerRun o ∧ ∀ c, c ∈ cs → (opened c <= t)%Z).
Proof.
  set (cs := candidates (w_db w) o now).
  destruct (off_all_shape o now cs (w_db w) (candidates_NoDup _ _ _)) as (m & E & Hout & Hin).
  exists cs, m. split_and!.
  - rewrite sweep_run by done. fold cs. by rewrite E.
  - unfold cs, candidates. rewrite length_take. lia.
  - apply candidates_NoDup.
  - intros c Hc. apply candidates_waiting in Hc as Hw.
    apply waiting_eligible in Hw as (Hel & _ & Horg). split_and!; [done|done|].
    destruct Hel as (h & e & pr & _ & _ & _ & _ & He & Ha & _). exists e. split; [done|].
    by apply Hin.
  - done.
  - intros id t Hel Hid. apply eligible_waiting in Hel as (d & Hd & <- & <-).
    assert (d ∉ cs) as Hdn by (intros ?; by apply Hid, list_elem_of_fmap_2).
    by apply candidates_left.
Qed.

(** ** Draining the backlog *)

Lemma waiting_after o now db (m : gmap string Endpoint.t) (cs : list Candidate) l :
  (∀ id, id ∉ endpointId <$> cs → m !! id = endpoints db !! id) →
  (∀ c, c ∈ cs → ∃ e, m !! endpointId c = Some (switched_off c now e)) →
  waiting (upd_auditLogs l (upd_endpoints (λ _, m) db)) (cutoff_of o now)
  = filter (λ c, endpointId c ∉ endpointId <$> cs) (waiting db (cutoff_of o now)).
Proof.
  intros Hout Hin. unfold waiting. change (endpointHealth (upd_auditLogs _ _)) with (endpointHealth db).
  induction (map_to_list (endpointHealth db)) as [|[id h] hs IH]; [done|].
  cbn [omap list_omap]. destruct (decide (id ∈ endpointId <$> cs)) as [Hid|Hid].
  - assert (candidate_of (upd_auditLogs l (upd_endpoints (λ _, m) db)) (cutoff_of o now) (id, h) = None) as ->.
    { apply eq_None_not_Some. intros [c Hc].
      apply candidate_of_Some in Hc as (e & ? & ? & He & _ & _ & _ & _ & Ha & _). cbn in He.
      apply list_elem_of_fmap in Hid as (d & -> & Hd). destruct (Hin d Hd) as [e' He'].
      rewrite He' in He. by injection He as <-. }
    rewrite IH. destruct (candidate_of db _ (id, h)) as [c|] eqn:E; [|done].
    rewrite filter_cons_False; [done|].
    apply candidate_of_Some in E as (? & ? & ? & _ & _ & _ & _ & _ & _ & ->). by intros [].
  - assert (candidate_of (upd_auditLogs l (upd_endpoints (λ _, m) db)) (cutoff_of o now) (id, h)
            = candidate_of db (cutoff_of o now) (id, h)) as ->.
    { unfold candidate_of. cbn. by rewrite Hout. }
    rewrite IH. destruct (candidate_of db _ (id, h)) as [c|] eqn:E; [|done].
    rewrite filter_cons_True; [done|].
    apply candidate_of_Some in E as (? & ? & ? & _ & _ & _ & _ & _ & _ & ->). done.
Qed.

Definition pass (o : AutoDisableOptions) (now : Z) (w : World) : World := (sweep o now true true w).2.

Lemma pass_waiting o now w :
  o_enabled o = true →
  length (waiting (w_db (pass o now w)) (cutoff_of o now))
  = length (waiting (w_db w) (cutoff_of o now)) - maxPerRun o.
Proof.
  intros Hon. set (cs := candidates (w_db w) o now).
  unfold pass. rewrite sweep_run by done. cbn [snd w_db]. fold cs.
  destruct (off_all_shape o now cs (w_db w) (candidates_NoDup _ _ _)) as (m & E & Hout & Hin).
  rewrite E, (waiting_after o now (w_db w) m cs); [|done|].
  - pose proof (waiting_NoDup (w_db w) (cutoff_of o now)) as Hn.
    rewrite (candidates_split (w_db w) o now) in Hn |- *. fold cs in Hn |- *.
    set (rest := drop _ _) in *. rewrite fmap_app in Hn. apply NoDup_app in Hn as (_ & Hd & _).
    rewrite filter_app, length_app.
    assert (filter (λ c, endpointId c ∉ endpointId <$> cs) cs = []) as ->.
    { apply filter_none. intros c Hc Hx. by apply Hx, list_elem_of_fmap_2. }
    assert (filter (λ c, endpointId c ∉ endpointId <$> cs) rest = rest) as ->.
    { apply filter_every. intros c Hc Hx. apply (Hd _ Hx). by apply list_elem_of_fmap_2. }
    unfold rest. rewrite length_app, length_drop. unfold cs, candidates.
    rewrite length_take. change (now - _)%Z with (cutoff_of o now).
    rewrite (sort_by_perm opened_le). cbn. lia.
  - intros c Hc. destruct (waiting_eligible _ _ _ (candidates_waiting _ _ _ _ Hc)) as
      ((h & e & pr & _ & _ & _ & _ & He & Ha & _) & _). exists e. by apply Hin.
Qed.

(** The ceiling delays, it never forgets: passes repeated at the same
    moment leave no eligible endpoint once their ceilings add up to the number
    of endpoints waiting. *)
Theorem passes_drain (o : AutoDisableOptions) (now : Z) (k : nat) (w : World)
  (Hon : o_enabled o = true)
  (Hk : length (waiting (w_db w) (cutoff_of o now)) ≤ k * maxPerRun o) (id : string) (t : Z) :
  ¬ eligible (w_db (Nat.iter k (pass o now) w)) (cutoff_of o now) id t.
Proof.
  assert (∀ k, length (waiting (w_db (Nat.iter k (pass o now) w)) (cutoff_of o now))
               = length (waiting (w_db w) (cutoff_of o now)) - k * maxPerRun o) as Hlen.
  { clear k Hk. intros k. induction k as [|k IH]; cbn [Nat.iter nat_rect].
    - cbn. lia.
    - change (nat_rect _ w _ k) with (Nat.iter k (pass o now) w). rewrite pass_waiting by done. lia. }
  intros (c & Hc & _)%eligible_waiting. specialize (Hlen k).
  destruct (waiting _ _) as [|d l] in Hc, Hlen; [by apply not_elem_of_nil in Hc|cbn in Hlen; lia].
Qed.

(** The alert is not part of the transaction.  When COMMIT fails the
    database is exactly as before, no endpoint having been switched off, yet
    one "We stopped sending" alert per candidate has gone out. *)
Theorem rollback_keeps_alerts (o : AutoDisableOptions) (now : Z) (w : World) (Hon : o_enabled o = true) :
  ∃ e, sweep o now true false w
       = (Throw e, MkWorld (w_db w) (w_alerts w ++ map stopped_alert (candidates (w_db w) o now))).
Proof. eexists. by rewrite sweep_run. Qed.

(** ** Witnesses *)

Definition dead : EndpointHealth.t :=
  EndpointHealth.mk EndpointHealthState.open 430 0 None (Some 100%Z) (Some 0%Z) None 100.
Definition ad_db : Db :=
  upd_endpointHealth (λ _, <["e1" := dead]> {["e2" := dead]})
    (upd_endpoints (λ _, <["e1" := ep "p1"]> {["e2" := ep "p2"]}) two_orgs).
Definition ad_world : World := MkWorld ad_db [].
Definition ad_options : AutoDisableOptions := {| o_enabled := true; afterHours := 72; maxPerRun := 1 |}.
Definition ad_now : Z := 259200000.

Lemma sweep_committed_witness :
  ∃ (cs : list Candidate) (m : gmap string Endpoint.t), (sweep ad_options ad_now true true ad_world).1
          = Ok (MkReport false (length cs) (length cs) (1 <=? length cs))
          ∧ length cs = 1 ∧ (∀ id, id ∉ endpointId <$> cs → m !! id = endpoints ad_db !! id).
Proof.
  destruct (sweep_committed ad_options ad_now ad_world eq_refl)
    as (cs & m & E & Hlen & _ & _ & Hout & Hleft).
  exists cs, m. rewrite E. split_and!; [done| |done].
  destruct cs as [|c [|]]; [|done|cbn in Hlen; lia].
  vm_compute in E. discriminate E.
Defined.

Lemma passes_drain_witness :
  ¬ eligible (w_db (Nat.iter 2 (pass ad_options ad_now) ad_world)) (cutoff_of ad_options ad_now) "e2" 0
  ∧ length (waiting ad_db (cutoff_of ad_options ad_now)) = 2.
Proof.
  split; [|vm_compute; reflexivity].
  apply (passes_drain ad_options ad_now 2 ad_world eq_refl). vm_compute. lia.
Defined.

Lemma rollback_keeps_alerts_witness :
  w_db (sweep ad_options ad_now true false ad_world).2 = ad_db
  ∧ length (w_alerts (sweep ad_options ad_now true false ad_world).2) = 1.
Proof.
  destruct (rollback_keeps_alerts ad_options ad_now ad_world eq_refl) as [e E].
  rewrite E. split; [done|vm_compute; reflexivity].
Defined.
