(* ===== verification/Endpoints.v ===== *)
(** The endpoints service: endpoints/endpoints.service.ts, on top of the
    secrets service and beside the auto-disable sweep.

    None of these operations runs in a transaction: a throw keeps the writes
    made before it, and between two statements of a request any other may run.
    Each operation is written once, for any type of programs ([Calls]); read in the
    monad it is the request running alone, read as a [Prog] its statements.  Only the fields of a body that reach a column are modelled;
    the DTO validators of the URL and the headers are in EndpointUrl and
    EndpointHeaders. *)
From Stdlib Require Import ZArith Lia.
From S2P Require Import Prelude Js EndpointHeaders EndpointUrl Permissions RetryRules AuditTrail.
From S2P Require Import Db Scope Statements RetryPolicies EndpointSecrets AutoDisable.

Definition MAX_ENDPOINTS_PER_PROJECT : Z := 500.

(** The optional fields of a body; the inner option is an explicit null. *)
Record Fields : Type := MkFields {
  f_description : option (option jsstr);
  f_timeoutMs : option Z;
  f_maxConcurrency : option Z;
  f_rateLimit : option (option Z);
  f_rateLimitWindowSeconds : option Z;
  f_retryPolicyId : option (option string);
  f_customHeaders : option (option (list (jsstr * jsstr)))
}.
Record CreateEndpointDto : Type := { ce_name : jsstr; ce_url : jsstr; ce_fields : Fields }.
Record UpdateEndpointDto : Type := {
  ue_name : option jsstr; ue_url : option jsstr; ue_fields : Fields
}.

(** [writableColumns]: headers are normalised, the rest goes through. *)
Definition writableColumns (f : Fields) : Fields :=
  MkFields (f_description f) (f_timeoutMs f) (f_maxConcurrency f) (f_rateLimit f)
    (f_rateLimitWindowSeconds f) (f_retryPolicyId f) (normaliseCustomHeaders <$> f_customHeaders f).

(** The row [{ ...current, name, url, ...data }], for the columns that are set. *)
Definition apply_columns (name url : option jsstr) (f : Fields) (e : Endpoint.t) : Endpoint.t :=
  Endpoint.mk (Endpoint.projectId e) (default (Endpoint.name e) name) (default (Endpoint.url e) url)
    (default (Endpoint.description e) (f_description f)) (Endpoint.status e) (Endpoint.enabled e)
    (Endpoint.disabledReason e) (Endpoint.disabledAt e)
    (default (Endpoint.timeoutMs e) (f_timeoutMs f))
    (default (Endpoint.maxConcurrency e) (f_maxConcurrency f))
    (default (Endpoint.rateLimit e) (f_rateLimit f))
    (default (Endpoint.rateLimitWindowSeconds e) (f_rateLimitWindowSeconds f))
    (default (Endpoint.retryPolicyId e) (f_retryPolicyId f))
    (default (Endpoint.customHeaders e) (f_customHeaders f))
    (Endpoint.createdAt e) (Endpoint.updatedAt e).

(** [Object.keys(data).sort()] *)
Definition updated_columns (name url : option jsstr) (f : Fields) : list jsstr :=
  is_set "customHeaders" (f_customHeaders f) ++ is_set "description" (f_description f)
  ++ is_set "maxConcurrency" (f_maxConcurrency f) ++ is_set "name" name
  ++ is_set "rateLimit" (f_rateLimit f) ++ is_set "rateLimitWindowSeconds" (f_rateLimitWindowSeconds f)
  ++ is_set "retryPolicyId" (f_retryPolicyId f) ++ is_set "timeoutMs" (f_timeoutMs f)
  ++ is_set "url" url.

Definition set_lifecycle (status : EndpointStatus.t) (enabled : bool) (now : Z) (e : Endpoint.t)
  : Endpoint.t :=
  Endpoint.set_updatedAt now (Endpoint.set_enabled enabled (Endpoint.set_status status e)).

Section Service.
  Context (encrypt : jsstr → jsstr → string → string → jsstr).
  Context (c : Ctx).

(** [context.has(permission)] *)
Definition has (p : Permission) : bool := roleHasPermission (ctx_role c) p.

Definition requireRetryPolicy (retryPolicyId : option (option string)) : M Db unit :=
  match retryPolicyId with
  | Some (Some id) =>
      policy ← findById (R:=RetryPolicy.t) c id;
      match policy with
      | Some _ => mret tt
      | None => throwM not_found CROSS_TENANT_MESSAGE
      end
  | _ => mret tt
  end.

Definition requireHeadroom : M Db unit :=
  live ← count (R:=Endpoint.t) c (λ _ e, negb (endpoint_deleted e));
  if (live <? MAX_ENDPOINTS_PER_PROJECT)%Z then mret tt
  else throwM limit_exceeded "This project already has 500 endpoints, which is the maximum.".

Definition assertNotDeleted (e : Endpoint.t) : result unit :=
  throw_if (endpoint_deleted e) conflict "This endpoint has been deleted.".

Definition new_endpoint (dto : CreateEndpointDto) (now : Z) (t : TenantColumns) : Endpoint.t :=
  apply_columns (Some (ce_name dto)) (Some (normaliseEndpointUrl (ce_url dto)))
    (writableColumns (ce_fields dto))
    (Endpoint.mk (tc_project t) [] [] None EndpointStatus.paused false None None 30000 16 None 1 None
       None now now).

Definition tripped (endpointId i : string) (h : EndpointHealth.t) : bool :=
  bool_decide (i = endpointId)
  && (bool_decide (EndpointHealth.state h = EndpointHealthState.open)
      || bool_decide (EndpointHealth.state h = EndpointHealthState.half_open)).

Definition opt_str (o : option jsstr) : meta := if o is Some s then MStr s else MNull.

(** *** The handlers *)
Section Code.
  Context {P : Type → Type} `{!MRet P, !MBind P, !Calls Db P}.

Definition createP (dto : CreateEndpointDto) (id secretId : string) (plaintext : jsstr)
    (now : Z) : P (Endpoint.t * option jsstr) :=
  _ ← call (requireRetryPolicy (f_retryPolicyId (ce_fields dto)));
  _ ← call requireHeadroom;
  let mayReceiveSecret := has endpoint_secrets_write in
  created ← call (create c id (new_endpoint dto now));
  minted ← attempt (call (mintInitial encrypt c id secretId plaintext now))
             (_ ← call (updateById c id (set_lifecycle EndpointStatus.deleted false now)); mret tt);
  live ← (if mayReceiveSecret then call (updateById c id (set_lifecycle EndpointStatus.active true now))
          else mret created);
  _ ← call (recordFor c "endpoint.created" "endpoint" (Some id)
        [(js "url", MStr (Endpoint.url live)); (js "name", MStr (Endpoint.name live));
         (js "secret_version", MNum (int (EndpointSecret.version minted)));
         (js "status", MStr (js (status_name (Endpoint.status live))));
         (js "awaiting_key_handover", MBool (negb mayReceiveSecret))]);
  mret (live, if mayReceiveSecret then Some plaintext else None).

Definition updateP (endpointId : string) (dto : UpdateEndpointDto) (now : Z) : P Endpoint.t :=
  current ← call (requireById c endpointId);
  _ ← raise (assertNotDeleted current);
  _ ← call (requireRetryPolicy (f_retryPolicyId (ue_fields dto)));
  let data := writableColumns (ue_fields dto) in
  let url := normaliseEndpointUrl <$> ue_url dto in
  let keys := updated_columns (ue_name dto) url data in
  _ ← call (hasLiveSecret c endpointId now);
  if bool_decide (keys = []) then mret current
  else
    (* the foreign-key check of updateById *)
    _ ← call (requireRetryPolicy (f_retryPolicyId data));
    updated ← call (updateById c endpointId (λ e, Endpoint.set_updatedAt now (apply_columns (ue_name dto) url data e)));
    _ ← call (recordFor c "endpoint.updated" "endpoint" (Some endpointId)
          ((js "fields", MArr (map MStr keys)) ::
           (if url is Some _ then
              if bool_decide (Endpoint.url current = Endpoint.url updated) then []
              else [(js "url_from", MStr (Endpoint.url current)); (js "url_to", MStr (Endpoint.url updated))]
            else [])));
    mret updated.

Definition armBreakerProbe (endpointId : string) (now : Z) : P bool :=
  armed ← call (updateMany c (tripped endpointId) (λ h,
            EndpointHealth.set_updatedAt now (EndpointHealth.set_probeAfter (Some now) h)));
  mret (0 <? armed)%Z.

Definition enableP (endpointId : string) (now : Z) : P Endpoint.t :=
  current ← call (requireById c endpointId);
  _ ← raise (assertNotDeleted current);
  live ← call (hasLiveSecret c endpointId now);
  _ ← raise (throw_if (negb live) conflict "This endpoint has no active signing secret.");
  updated ← call (updateById c endpointId (λ e,
              Endpoint.set_disabledAt None (Endpoint.set_disabledReason None
                (set_lifecycle EndpointStatus.active true now e))));
  probeArmed ← armBreakerProbe endpointId now;
  _ ← call (recordFor c "endpoint.enabled" "endpoint" (Some endpointId)
        [(js "previous_status", MStr (js (status_name (Endpoint.status current))));
         (js "previous_disabled_reason", opt_str (Endpoint.disabledReason current));
         (js "breaker_probe_armed", MBool probeArmed)]);
  mret updated.

Definition disableP (endpointId : string) (reason : option jsstr) (now : Z) : P Endpoint.t :=
  current ← call (requireById c endpointId);
  _ ← raise (assertNotDeleted current);
  updated ← call (updateById c endpointId (set_lifecycle EndpointStatus.paused false now));
  _ ← call (recordFor c "endpoint.disabled" "endpoint" (Some endpointId)
        [(js "previous_status", MStr (js (status_name (Endpoint.status current))));
         (js "reason", opt_str reason)]);
  _ ← call (hasLiveSecret c endpointId now);
  mret updated.

Definition removeP (endpointId : string) (now : Z) : P unit :=
  current ← call (requireById c endpointId);
  if endpoint_deleted current then mret tt
  else
    _ ← call (updateById c endpointId (set_lifecycle EndpointStatus.deleted false now));
    call (recordFor c "endpoint.deleted" "endpoint" (Some endpointId)
      [(js "url", MStr (Endpoint.url current)); (js "name", MStr (Endpoint.name current));
       (js "soft_delete", MBool true)]).
End Code.

(** *** A request alone *)
Definition endpoints_create := createP (P:=M Db).
Definition endpoints_update := updateP (P:=M Db).
Definition enable := enableP (P:=M Db).
Definition endpoints_disable := disableP (P:=M Db).
Definition endpoints_remove := removeP (P:=M Db).
End Service.

(** ** Running the statements *)

(** The handlers of the monad, with their statements. *)
Ltac handler :=
  cbv beta iota delta [endpoints_create endpoints_update enable endpoints_disable endpoints_remove
    createP updateP enableP disableP removeP armBreakerProbe call raise attempt M_calls].
Tactic Notation "handler" "in" hyp(H) :=
  cbv beta iota delta [endpoints_create endpoints_update enable endpoints_disable endpoints_remove
    createP updateP enableP disableP removeP armBreakerProbe call raise attempt M_calls] in H.

(** A program that only reads. *)
Definition Reads {A} (m : M Db A) : Prop := ∀ db, (m db).2 = db.

Lemma reads_bind {A B} (m : M Db A) (f : A → M Db B) db :
  Reads m → (m ≫= f) db = match (m db).1 with Ok a => f a db | Throw e => (Throw e, db) end.
Proof. intros Hm. specialize (Hm db). unfold mbind, M_bind. by destruct (m db) as [[] ?]; cbn in *; subst. Qed.

Lemma requireRetryPolicy_reads c o : Reads (requireRetryPolicy c o).
Proof.
  intros db. destruct o as [[id|]|]; [|done..]. cbn. unfold findById, mbind, M_bind, gets. cbn.
  by destruct (find c db id).
Qed.
Lemma requireHeadroom_reads c : Reads (requireHeadroom c).
Proof. intros db. unfold requireHeadroom, count, mbind, M_bind, gets. by destruct (_ <? _)%Z. Qed.
Lemma requireById_reads {R} `{Table R} c id : Reads (requireById (R:=R) c id).
Proof. intros db. unfold requireById, findById, mbind, M_bind, gets. by destruct (find c db id). Qed.
Lemma lift_reads {A} (r : result A) : Reads (lift r).
Proof. by intros db. Qed.
Lemma hasLiveSecret_reads c e now : Reads (hasLiveSecret c e now).
Proof. by intros db. Qed.

(** An endpoint's tenancy is its project's. *)
Lemma endpoint_tenant_eq c db db' i j (e e' : Endpoint.t) :
  projects db' = projects db → Endpoint.projectId e' = Endpoint.projectId e →
  in_tenant c db' j e' = in_tenant c db i e.
Proof.
  intros Hp He. unfold in_tenant. cbn. unfold project_matches, project_org. cbn. by rewrite Hp, He.
Qed.

(** An update by id that keeps the project of an endpoint. *)
Lemma endpoint_updateById c id f db :
  (∀ e, Endpoint.projectId (f e) = Endpoint.projectId e) →
  updateById c id f db
  = match find c db id with
    | Some e => (Ok (f e), upd_endpoints (insert id (f e)) db)
    | None => (throw not_found CROSS_TENANT_MESSAGE, db)
    end.
Proof.
  intros Hf. refine (updateById_run (R:=Endpoint.t) c id f db _). intros e [_ Ht]%find_Some.
  by rewrite (endpoint_tenant_eq c db _ id id e (f e)).
Qed.

(** ** The effect of an operation on the endpoints *)

(** [enabled] and [status = active] go together. *)
Definition coherent (e : Endpoint.t) : Prop :=
  Endpoint.enabled e = true ↔ Endpoint.status e = EndpointStatus.active.

Definition live_at (db : Db) (id : string) (now : Z) : Prop := ∃ i, signs db id i now.

(** What one operation at time [now] may do: nothing, add a row, or change one
    row that is not deleted; and it arms an endpoint only if a secret signs. *)
Inductive effect (now : Z) (db db' : Db) : Prop :=
| eff_none : endpoints db' = endpoints db → effect now db db'
| eff_new id e :
    endpoints db !! id = None → endpoints db' = <[id := e]> (endpoints db) →
    coherent e → (armed e = true → live_at db' id now) → effect now db db'
| eff_change id e e' :
    endpoints db !! id = Some e → endpoint_deleted e = false →
    Endpoint.projectId e' = Endpoint.projectId e → Endpoint.createdAt e' = Endpoint.createdAt e →
    (coherent e → coherent e') → (armed e' = true → armed e = true ∨ live_at db' id now) →
    endpoints db' = <[id := e']> (endpoints db) → effect now db db'.

Lemma hasLiveSecret_live c id now db :
  (hasLiveSecret c id now db).1 = Ok true → live_at db id now.
Proof.
  unfold hasLiveSecret, liveSecretEndpointIds, findAll, mbind, M_bind, gets. cbn.
  intros [= Hin]. bprop. rewrite elem_of_remove_dups in Hin.
  apply list_elem_of_fmap in Hin as ([i s] & Hs & Hi).
  apply elem_of_map_to_list, matching_lookup in Hi as (Hrow & _ & Hl). bprop.
  exists i, s. by split_and!.
Qed.

(** A change of one row that was found and is not deleted. *)
Lemma change_effect now c db db' id (e : Endpoint.t) e' :
  find c db id = Some e → endpoint_deleted e = false →
  endpoints db' = <[id := e']> (endpoints db) →
  Endpoint.projectId e' = Endpoint.projectId e → Endpoint.createdAt e' = Endpoint.createdAt e →
  (coherent e → coherent e') → (armed e' = true → armed e = true ∨ live_at db' id now) →
  effect now db db'.
Proof. intros [He _]%find_Some. intros. by eapply eff_change. Qed.

Ltac read H := rewrite reads_bind by apply H.

Lemma update_effect c id dto now db : effect now db (endpoints_update c id dto now db).2.
Proof.
  handler. read (requireById_reads (R:=Endpoint.t)). rewrite requireById_run.
  destruct (find c db id) as [e|] eqn:E; [|by apply eff_none]. read @lift_reads. unfold assertNotDeleted.
  destruct (endpoint_deleted e) eqn:Ed; [by apply eff_none|]. cbn [lift fst throw_if].
  read requireRetryPolicy_reads. destruct (requireRetryPolicy c _ db).1; [|by apply eff_none]. cbv zeta.
  read hasLiveSecret_reads. destruct (hasLiveSecret c id now db).1; [|by apply eff_none].
  case_bool_decide; [by apply eff_none|]. read requireRetryPolicy_reads.
  destruct (requireRetryPolicy c _ db).1; [|by apply eff_none].
  unfold mbind, M_bind. rewrite endpoint_updateById, E by done.
  eapply (change_effect now c); [exact E|exact Ed|reflexivity|done..|]. by left.
Qed.

Lemma enable_effect c id now db : effect now db (enable c id now db).2.
Proof.
  handler. read (requireById_reads (R:=Endpoint.t)). rewrite requireById_run.
  destruct (find c db id) as [e|] eqn:E; [|by apply eff_none]. read @lift_reads. unfold assertNotDeleted.
  destruct (endpoint_deleted e) eqn:Ed; [by apply eff_none|]. cbn [lift fst throw_if].
  read hasLiveSecret_reads. destruct (hasLiveSecret c id now db).1 as [[]|] eqn:El; [|by apply eff_none..].
  apply hasLiveSecret_live in El. read @lift_reads. cbn [lift fst throw_if negb].
  unfold mbind, M_bind. rewrite endpoint_updateById, E by done.
  eapply (change_effect now c); [exact E|exact Ed|reflexivity|done..|]. by right.
Qed.

Lemma disable_effect c id reason now db : effect now db (endpoints_disable c id reason now db).2.
Proof.
  handler. read (requireById_reads (R:=Endpoint.t)). rewrite requireById_run.
  destruct (find c db id) as [e|] eqn:E; [|by apply eff_none]. read @lift_reads. unfold assertNotDeleted.
  destruct (endpoint_deleted e) eqn:Ed; [by apply eff_none|]. cbn [lift fst throw_if].
  unfold mbind, M_bind. rewrite endpoint_updateById, E by done.
  eapply (change_effect now c); [exact E|exact Ed|reflexivity|done..].
Qed.

Lemma remove_effect c id now db : effect now db (endpoints_remove c id now db).2.
Proof.
  handler. read (requireById_reads (R:=Endpoint.t)). rewrite requireById_run.
  destruct (find c db id) as [e|] eqn:E; [|by apply eff_none].
  destruct (endpoint_deleted e) eqn:Ed; [by apply eff_none|].
  unfold mbind, M_bind. rewrite endpoint_updateById, E by done.
  eapply (change_effect now c); [exact E|exact Ed|reflexivity|done..].
Qed.

Lemma mintInitial_endpoints encrypt c id sid pt now db :
  endpoints (mintInitial encrypt c id sid pt now db).2 = endpoints db.
Proof.
  unfold mintInitial, mbind, M_bind, insertSecret, catch_P2002.
  destruct (create c sid _ db) as [[s|er] db'] eqn:E.
  - by apply create_Ok in E as (t & _ & _ & _ & _ & _ & ->).
  - apply create_Throw in E as ->. by destruct (bool_decide _).
Qed.

Lemma mintInitial_live encrypt c id sid pt now db s db' :
  mintInitial encrypt c id sid pt now db = (Ok s, db') → live_at db' id now.
Proof.
  intros H. unfold mintInitial in H. apply bindM_Ok in H as (x & db1 & Hi & H). sinv.
  apply insertSecret_Ok in Hi as (-> & _ & ->). eexists sid, _. split; [cbn; apply lookup_insert_eq|done].
Qed.

Lemma live_at_ext db db' id now : endpointSecrets db' = endpointSecrets db → live_at db id now → live_at db' id now.
Proof. intros E (i & s & Hs & ?). exists i, s. by rewrite E. Qed.

Lemma create_effect encrypt c dto id sid pt now db :
  effect now db (endpoints_create encrypt c dto id sid pt now db).2.
Proof.
  handler. read requireRetryPolicy_reads.
  destruct (requireRetryPolicy c _ db).1; [|by apply eff_none]. read requireHeadroom_reads.
  destruct (requireHeadroom c db).1; [|by apply eff_none]. cbv zeta. unfold mbind, M_bind at 1.
  destruct (create c id (new_endpoint dto now) db) as [[e|er] db1] eqn:Ec.
  2:{ apply create_Throw in Ec as ->. by apply eff_none. }
  apply create_Ok in Ec as (t & _ & He & _ & Hid & _ & Hdb1).
  assert (coherent e ∧ (armed e = true → live_at db1 id now)) as [Hco Har] by by rewrite He; split.
  assert (Hrow : endpoints db1 = <[id := e]> (endpoints db)) by by rewrite Hdb1, He.
  unfold M_attempt, M_bind. pose proof (mintInitial_endpoints encrypt c id sid pt now db1) as Hm.
  destruct (mintInitial encrypt c id sid pt now db1) as [[s|er] db2] eqn:Em; cbn [snd] in Hm.
  - apply mintInitial_live in Em as Hl. destruct (has c endpoint_secrets_write).
    + rewrite endpoint_updateById by done. destruct (find c db2 id) as [e2|] eqn:Ef.
      * apply (eff_new now db _ id (set_lifecycle EndpointStatus.active true now e2));
          [done| |by split|intros _; by eapply live_at_ext; [|exact Hl]].
        cbn. by rewrite Hm, Hrow, insert_insert_eq.
      * by apply (eff_new now db _ id e); [|cbn; rewrite Hm| |rewrite He].
    + by apply (eff_new now db _ id e); [|cbn; rewrite Hm| |rewrite He].
  - rewrite endpoint_updateById by done. destruct (find c db2 id) as [e2|] eqn:Ef.
    + apply (eff_new now db _ id (set_lifecycle EndpointStatus.deleted false now e2));
        [done| |by split|done].
      cbn. by rewrite Hm, Hrow, insert_insert_eq.
    + by apply (eff_new now db _ id e); [|cbn; rewrite Hm| |rewrite He].
Qed.

(** ** Sequences of operations *)

(** Everything of an endpoint but its retry policy and its update time. *)
Definition face (e : Endpoint.t) : Endpoint.t :=
  Endpoint.set_updatedAt 0 (Endpoint.set_retryPolicyId None e).

(** One operation on the endpoints, at time [now], by anyone, whether it
    returns or throws; or one pass of the sweep; or any operation of another
    service, none of which writes an endpoint's column other than its retry
    policy. *)
Inductive ep_step (now : Z) (db : Db) : Db → Prop :=
| st_create encrypt c dto id sid pt : ep_step now db (endpoints_create encrypt c dto id sid pt now db).2
| st_update c id dto : ep_step now db (endpoints_update c id dto now db).2
| st_enable c id : ep_step now db (enable c id now db).2
| st_disable c id reason : ep_step now db (endpoints_disable c id reason now db).2
| st_remove c id : ep_step now db (endpoints_remove c id now db).2
| st_sweep o locked commits alerts : ep_step now db (w_db (sweep o now locked commits (MkWorld db alerts)).2)
| st_other db' : fmap face (endpoints db') = fmap face (endpoints db) → ep_step now db db'.

(** What a step may do to one endpoint. *)
Definition follows (now : Z) (db' : Db) (id : string) (o o' : option Endpoint.t) : Prop :=
  match o, o' with
  | Some e, Some e' =>
      Endpoint.projectId e' = Endpoint.projectId e ∧ Endpoint.createdAt e' = Endpoint.createdAt e
      ∧ (endpoint_deleted e = true → face e' = face e) ∧ (coherent e → coherent e')
      ∧ (armed e' = true → armed e = true ∨ live_at db' id now)
  | Some _, None => False
  | None, Some e' => coherent e' ∧ (armed e' = true → live_at db' id now)
  | None, None => True
  end.

Lemma follows_face now db' id e e' : face e' = face e → follows now db' id (Some e) (Some e').
Proof.
  destruct e, e'. unfold face, follows. cbn. intros [=]. subst. split_and!; [done..| |by left].
  unfold coherent. done.
Qed.

Lemma follows_refl now db' id o : follows now db' id o o.
Proof. destruct o; [by apply follows_face|done]. Qed.

Lemma effect_follows now db db' id :
  effect now db db' → follows now db' id (endpoints db !! id) (endpoints db' !! id).
Proof.
  intros [E|i e Hi E Hc Ha|i e e' Hi Hd Hp Ht Hc Ha E]; rewrite E.
  - apply follows_refl.
  - destruct (decide (i = id)) as [->|Hne].
    + rewrite Hi, lookup_insert_eq. done.
    + rewrite lookup_insert_ne by done. apply follows_refl.
  - destruct (decide (i = id)) as [->|Hne].
    + rewrite Hi, lookup_insert_eq. cbn. split_and!; [done|done| |done|done]. by rewrite Hd.
    + rewrite lookup_insert_ne by done. apply follows_refl.
Qed.

Lemma sweep_follows o now locked commits w id :
  follows now (w_db (sweep o now locked commits w).2) id
    (endpoints (w_db w) !! id) (endpoints (w_db (sweep o now locked commits w).2) !! id).
Proof.
  destruct (o_enabled o) eqn:Eo; [|unfold sweep; rewrite Eo; apply follows_refl].
  destruct locked; [|unfold sweep; rewrite Eo; destruct commits; apply follows_refl].
  rewrite sweep_run by done. cbn [snd w_db]. destruct commits; [|apply follows_refl].
  set (cs := candidates (w_db w) o now).
  destruct (off_all_shape o now cs (w_db w) (candidates_NoDup _ _ _)) as (m & -> & Hout & Hin). cbn.
  destruct (decide (id ∈ endpointId <$> cs)) as [Hid|Hid]; [|rewrite Hout by done; apply follows_refl].
  apply list_elem_of_fmap in Hid as (cd & -> & Hcd).
  destruct (waiting_eligible _ _ _ (candidates_waiting _ _ _ _ Hcd))
    as ((h & e & pr & _ & _ & _ & _ & He & Ha & _) & _).
  rewrite (Hin cd e Hcd He Ha), He. cbn. split_and!; [done|done| |by intros _|done].
  unfold armed in Ha. bprop. unfold endpoint_deleted. intros Hx. bprop. congruence.
Qed.

Lemma step_follows now db db' id :
  ep_step now db db' → follows now db' id (endpoints db !! id) (endpoints db' !! id).
Proof.
  intros [].
  - apply effect_follows, create_effect.
  - apply effect_follows, update_effect.
  - apply effect_follows, enable_effect.
  - apply effect_follows, disable_effect.
  - apply effect_follows, remove_effect.
  - apply (sweep_follows o now locked commits (MkWorld db alerts)).
  - apply (f_equal (lookup id)) in H. rewrite !lookup_fmap in H.
    destruct (endpoints db !! id), (endpoints db'0 !! id); try done.
    apply follows_face. by apply (inj Some) in H.
Qed.

Definition any_step (db db' : Db) : Prop := ∃ now, ep_step now db db'.

(** [enabled] and [status = active] stay together. *)
Lemma steps_coherent db db' :
  star any_step db db' →
  (∀ id e, endpoints db !! id = Some e → coherent e) → ∀ id e, endpoints db' !! id = Some e → coherent e.
Proof.
  induction 1 as [db|db db1 db2 [now H1] _ IH]; [done|]. intros Hc. apply IH.
  intros id e1 E1. pose proof (step_follows now db db1 id H1) as Hf.
  rewrite E1 in Hf. destruct (endpoints db !! id) as [e|] eqn:E; [|by destruct Hf].
  destruct Hf as (_ & _ & _ & Hco & _). eauto.
Qed.

(** ** Requests in flight together *)

(** A request just arrived, with the endpoint it is about. *)
Inductive ep_request : Thread Db → Prop :=
| rq_create encrypt c dto id sid pt now : ep_request (MkThread id _ (createP (P:=Prog Db) encrypt c dto id sid pt now))
| rq_update c id dto now : ep_request (MkThread id _ (updateP (P:=Prog Db) c id dto now))
| rq_enable c id now : ep_request (MkThread id _ (enableP (P:=Prog Db) c id now))
| rq_disable c id reason now : ep_request (MkThread id _ (disableP (P:=Prog Db) c id reason now))
| rq_remove c id now : ep_request (MkThread id _ (removeP (P:=Prog Db) c id now)).

(** What is not a request of this service: a pass of the sweep, which is a transaction,
    or a statement of another service, none of which writes an endpoint's column other
    than its retry policy. *)
Inductive ep_other (db : Db) : Db → Prop :=
| ot_sweep o now locked commits alerts : ep_other db (w_db (sweep o now locked commits (MkWorld db alerts)).2)
| ot_other db' : fmap face (endpoints db') = fmap face (endpoints db) → ep_other db db'.

Notation ep_system := (star (sys_step ep_request ep_other)).

(** Alone, a request does what its handler does in the monad. *)
Theorem requests_alone (encrypt : jsstr → jsstr → string → string → jsstr) (c : Ctx) (id sid : string) (pt : jsstr) (now : Z) :
  (∀ dto, same (createP encrypt c dto id sid pt now) (endpoints_create encrypt c dto id sid pt now))
  ∧ (∀ dto, same (updateP c id dto now) (endpoints_update c id dto now))
  ∧ same (enableP c id now) (enable c id now)
  ∧ (∀ reason, same (disableP c id reason now) (endpoints_disable c id reason now))
  ∧ same (removeP c id now) (endpoints_remove c id now).
Proof. split_and!; intros; handler; unfold createP, updateP, enableP, disableP, removeP, armBreakerProbe; same_code. Qed.

(** *** One statement *)

(** A statement about one endpoint: the others stay, that one keeps its project, its
    birthday and its coherence. *)
Definition row_ok (o o' : option Endpoint.t) : Prop :=
  match o, o' with
  | Some e, Some e' =>
      Endpoint.projectId e' = Endpoint.projectId e ∧ Endpoint.createdAt e' = Endpoint.createdAt e ∧ (coherent e → coherent e')
  | Some _, None => False
  | None, Some e' => coherent e'
  | None, None => True
  end.
Definition about (id : string) (db db' : Db) : Prop :=
  (∀ j, j ≠ id → endpoints db' !! j = endpoints db !! j) ∧ row_ok (endpoints db !! id) (endpoints db' !! id).

Lemma row_ok_refl o : row_ok o o.
Proof. by destruct o. Qed.
Lemma about_same id db db' : endpoints db' = endpoints db → about id db db'.
Proof. intros E. split; rewrite E; [done|apply row_ok_refl]. Qed.
Lemma about_reads {A} id (m : M Db A) db : Reads m → about id db (m db).2.
Proof. intros Hm. apply about_same. by rewrite Hm. Qed.
Lemma about_update c id f db :
  (∀ e, Endpoint.projectId (f e) = Endpoint.projectId e ∧ Endpoint.createdAt (f e) = Endpoint.createdAt e ∧ (coherent e → coherent (f e))) →
  about id db (updateById c id f db).2.
Proof.
  intros Hf. rewrite endpoint_updateById by apply Hf. destruct (find c db id) as [e|] eqn:E; [|by apply about_same].
  apply find_Some in E as [E _]. cbn in E |- *. split; cbn.
  - intros j Hj. by rewrite lookup_insert_ne.
  - rewrite lookup_insert_eq, E. apply Hf.
Qed.
Lemma about_create c id dto now db : about id db (create c id (new_endpoint dto now) db).2.
Proof.
  destruct (create c id (new_endpoint dto now) db) as [[e|er] db'] eqn:E; cbn [snd].
  - apply create_Ok in E as (t & _ & _ & _ & Hid & _ & ->). cbn in Hid |- *. split; cbn.
    + intros j Hj. by rewrite lookup_insert_ne.
    + by rewrite lookup_insert_eq, Hid.
  - apply create_Throw in E as ->. by apply about_same.
Qed.

(** The statements of every request are about its endpoint. *)
Ltac about_statement := idtac;
  match goal with
  | |- about _ _ (updateById _ _ _ _).2 => by apply about_update
  | |- about _ _ (create _ _ _ _).2 => apply about_create
  | |- about _ _ (mintInitial _ _ _ _ _ _ _).2 => apply about_same, mintInitial_endpoints
  | |- about _ _ (recordFor _ _ _ _ _ _).2 => by apply about_same
  | |- about _ _ (updateMany _ _ _ _).2 => by apply about_same
  | |- _ => apply about_reads; first
      [ apply requireRetryPolicy_reads | apply requireHeadroom_reads | apply requireById_reads | apply hasLiveSecret_reads ]
  end.
Ltac stays_code tac :=
  repeat lazymatch goal with
  | |- stays _ _ (raise _) => apply stays_raise
  | |- stays _ _ (mret _) => apply stays_ret
  | |- stays _ _ (call _) => apply stays_call; intros ? _; tac
  | |- stays _ _ (attempt _ _) => apply stays_attempt
  | |- stays _ _ (mbind _ _) => apply stays_bind; [|intros ?]
  | |- stays _ _ (let _ := _ in _) => cbv zeta
  | |- stays _ _ (if ?b then _ else _) => destruct b
  end.
Lemma request_about t : ep_request t → stays (λ _, True) (about (th_about t)) (th_rest t).
Proof.
  intros []; cbn [th_about th_rest]; unfold createP, updateP, enableP, disableP, removeP, armBreakerProbe;
    stays_code about_statement.
Qed.

(** *** A deleted endpoint *)

Definition is_deleted_as (id : string) (e : Endpoint.t) (db : Db) : Prop :=
  ∃ e', endpoints db !! id = Some e' ∧ face e' = face e ∧ endpoint_deleted e' = true.
(** What changes nothing of an endpoint but its retry policy. *)
Definition leaves (id : string) (db db' : Db) : Prop := face <$> (endpoints db' !! id) = face <$> (endpoints db !! id).
#[export] Instance leaves_preorder id : PreOrder (leaves id).
Proof. split; [done|]. intros a b d Hab Hbd. unfold leaves in *. congruence. Qed.

Lemma leaves_deleted id e db db' : is_deleted_as id e db → leaves id db db' → is_deleted_as id e db'.
Proof.
  intros (e0 & He0 & Hf & Hd) Hl. unfold leaves in Hl. rewrite He0 in Hl. apply fmap_Some in Hl as (e1 & He1 & Hf1).
  exists e1. split_and!; [done|congruence|]. apply (f_equal Endpoint.status) in Hf1. unfold endpoint_deleted in *. cbn in Hf1.
  by rewrite <- Hf1.
Qed.
Lemma about_leaves id j db db' : about id db db' → j ≠ id → leaves j db db'.
Proof. intros [Ho _] Hj. unfold leaves. by rewrite Ho. Qed.
Lemma reads_leaves {A} id (m : M Db A) db : Reads m → leaves id db (m db).2.
Proof. intros Hm. unfold leaves. by rewrite Hm. Qed.

(** What reads the endpoint and finds it deleted goes no further. *)
Lemma stays_refused {A} c id e (f : Endpoint.t → unit → Prog Db A) :
  stays (is_deleted_as id e) (leaves id) (x ← call (requireById c id); u ← raise (assertNotDeleted x); f x u).
Proof.
  apply stays_then. intros db (e' & He' & _ & Hd). split; [apply reads_leaves, requireById_reads|].
  intros x. rewrite requireById_run. destruct (find c db id) as [e0|] eqn:E; [|done]. intros [= <-].
  apply find_Some in E as [E _]. cbn in E. simplify_eq. unfold assertNotDeleted. rewrite Hd. constructor.
Qed.

(** A request that arrives when its endpoint is deleted leaves it so. *)
Lemma request_leaves t e : ep_request t → stays (is_deleted_as (th_about t) e) (leaves (th_about t)) (th_rest t).
Proof.
  intros []; cbn [th_about th_rest].
  - unfold createP. apply stays_bind; [apply stays_call; intros; apply reads_leaves, requireRetryPolicy_reads|intros _].
    apply stays_bind; [apply stays_call; intros; apply reads_leaves, requireHeadroom_reads|intros _]. cbv zeta.
    apply stays_then. intros db (e' & He' & _ & _).
    destruct (create c id (new_endpoint dto now) db) as [[x|er] db'] eqn:E.
    + apply create_Ok in E as (cols & _ & _ & _ & Hid & _ & _). cbn in Hid. congruence.
    + apply create_Throw in E as ->. by split.
  - apply stays_refused.
  - apply stays_refused.
  - apply stays_refused.
  - unfold removeP. apply stays_then. intros db (e' & He' & _ & Hd). split; [apply reads_leaves, requireById_reads|].
    intros x. rewrite requireById_run. destruct (find c db id) as [e0|] eqn:E; [|done]. intros [= <-].
    apply find_Some in E as [E _]. cbn in E. simplify_eq. rewrite Hd. constructor.
Qed.

(** *** The system *)

Definition all_rows (db db' : Db) : Prop := ∀ id, row_ok (endpoints db !! id) (endpoints db' !! id).
#[export] Instance all_rows_preorder : PreOrder all_rows.
Proof.
  split; [intros db id; apply row_ok_refl|]. intros a b d H1 H2 id. specialize (H1 id). specialize (H2 id).
  destruct (endpoints a !! id), (endpoints b !! id), (endpoints d !! id); cbn in *; try done;
    repeat match goal with H : _ ∧ _ |- _ => destruct H end; split_and?; first [congruence|auto].
Qed.
Lemma about_all id db db' : about id db db' → all_rows db db'.
Proof. intros [Ho Hr] j. destruct (decide (j = id)) as [->|Hj]; [done|]. rewrite Ho by done. apply row_ok_refl. Qed.

Lemma other_step (now : Z) db db' : ep_other db db' → ∃ now, ep_step now db db'.
Proof. intros [o n locked commits alerts|db2 E]; [exists n; apply st_sweep|exists now; by apply st_other]. Qed.
Lemma other_follows db db' id : ep_other db db' →
  row_ok (endpoints db !! id) (endpoints db' !! id)
  ∧ ∀ e, endpoints db !! id = Some e → endpoint_deleted e = true → leaves id db db'.
Proof.
  intros [now Hs]%(other_step 0). pose proof (step_follows _ _ _ id Hs) as Hf. unfold leaves.
  destruct (endpoints db !! id) as [e|], (endpoints db' !! id) as [e'|]; cbn in *; try done.
  - destruct Hf as (? & ? & Hd & ? & _). split; [done|]. intros e0 [= <-] Hdel. cbn. f_equal. by apply Hd.
  - by destruct Hf.
Qed.

Definition quiet_thread (t : Thread Db) : Prop := stays (λ _, True) (about (th_about t)) (th_rest t).
Lemma system_rows x y : ep_system x y → Forall quiet_thread (sy_flight x) →
  Forall quiet_thread (sy_flight y) ∧ all_rows (sy_db x) (sy_db y).
Proof.
  intros Hs HQ. destruct (sys_invariant ep_request ep_other (λ _, True) quiet_thread all_rows) with (x := x) (y := y) as (_ & ? & ?); try done.
  - intros t. apply request_about.
  - intros s n A w k _ Hq. inversion Hq as [|w' k' Hw Hk Hi]. simplify_eq. split_and!; [done| |].
    + eapply about_all. apply (Hw s I).
    + by apply Hk.
  - intros db db' _ Ho. split; [done|]. intros id. by apply other_follows.
  - apply _.
Qed.

(** Each request in flight is about another endpoint, or leaves this one as it is. *)
Definition harmless (id : string) (e : Endpoint.t) (t : Thread Db) : Prop :=
  quiet_thread t ∧ (th_about t = id → stays (is_deleted_as id e) (leaves id) (th_rest t)).
Lemma system_deleted id e x y : ep_system x y → Forall (harmless id e) (sy_flight x) → is_deleted_as id e (sy_db x) →
  leaves id (sy_db x) (sy_db y).
Proof.
  intros Hs HQ Hd. destruct (sys_invariant ep_request ep_other (is_deleted_as id e) (harmless id e) (leaves id)) with (x := x) (y := y)
    as (_ & _ & Hl); try done.
  - intros t Ht. split; [by apply request_about|]. intros <-. by apply request_leaves.
  - intros s n A w k Hs0 [Hq Hst]. inversion Hq as [|w' k' Hw Hk Hi]. simplify_eq.
    assert (leaves id s (w s) ∧ (n = id → stays (is_deleted_as id e) (leaves id) (k s))) as [Hl Hk'].
    { destruct (decide (n = id)) as [->|Hne].
      - specialize (Hst eq_refl). cbn in Hst. inversion Hst as [|w' k' Hw' Hk' Hi']. simplify_eq. split; [by apply Hw'|intros _; by apply Hk'].
      - split; [|done]. eapply about_leaves; [apply (Hw s I)|done]. }
    split_and!; [by eapply leaves_deleted|done|]. split; [by apply Hk|done].
  - intros db db' Hd0 Ho. pose proof Hd0 as (e0 & He0 & _ & Hdel).
    assert (leaves id db db') as Hl by (destruct (other_follows db db' id Ho) as [_ H]; by apply (H e0)).
    split; [by eapply leaves_deleted|done].
  - apply _.
Qed.

(** C6. The life of an endpoint.  The requests of the service run no transaction: any number of
    them are in flight and their statements interleave at will, any of them may be lost
    half way, and between them come sweeps and the statements of other services.
    Whatever the interleaving, no endpoint row ever disappears or changes its project or
    its birthday, and [enabled] and [status = active] never part ways.  A deleted endpoint
    for which no request is in flight stays deleted and is never edited again, its retry
    policy reference apart, whatever arrives later, so the ledger keeps pointing at what
    it pointed at.  (A request in flight that read the endpoint before it was deleted may
    still write it: [deleted_comes_back].) *)
Theorem endpoint_lifecycle (db0 : Db) (x y : Sys Db)
  (Hx : ep_system (MkSys db0 []) x) (Hy : ep_system x y) :
  (∀ id e, endpoints (sy_db x) !! id = Some e → ∃ e', endpoints (sy_db y) !! id = Some e'
     ∧ Endpoint.projectId e' = Endpoint.projectId e ∧ Endpoint.createdAt e' = Endpoint.createdAt e
     ∧ (Endpoint.status e = EndpointStatus.deleted → (∀ t, t ∈ sy_flight x → th_about t ≠ id) → face e' = face e))
  ∧ ((∀ id e, endpoints db0 !! id = Some e → coherent e) →
     ∀ id e, endpoints (sy_db y) !! id = Some e → coherent e).
Proof.
  destruct (system_rows _ _ Hx) as [HQ Hrows0]; [by constructor|]. destruct (system_rows _ _ Hy HQ) as [_ Hrows]. split.
  - intros id e He. pose proof (Hrows id) as Hr. rewrite He in Hr. destruct (endpoints (sy_db y) !! id) as [e'|] eqn:He'; [|done].
    destruct Hr as (? & ? & _). exists e'. split_and!; try done. intros Hdel Hfl.
    assert (leaves id (sy_db x) (sy_db y)) as Hl.
    { eapply (system_deleted id e); [exact Hy| |].
      - rewrite Forall_forall in HQ |- *. intros t Ht. split; [by apply HQ|]. intros E. by destruct (Hfl t Ht).
      - exists e. split_and!; try done. unfold endpoint_deleted. by apply bool_decide_eq_true. }
    unfold leaves in Hl. rewrite He, He' in Hl. by apply (inj Some) in Hl.
  - intros Hc id e He. pose proof (transitivity Hrows0 Hrows id) as Hr. cbn in Hr. rewrite He in Hr.
    destruct (endpoints db0 !! id) as [e0|] eqn:E0; cbn in Hr; [|done]. destruct Hr as (_ & _ & Hr). eauto.
Qed.

(** Nothing goes live unsigned: when an operation or a sweep leaves an
    endpoint active and enabled that was not so before, a secret signs for it
    at that moment. *)
Theorem goes_live_signed (now : Z) (db db' : Db) (id : string) (e' : Endpoint.t)
  (Hs : ep_step now db db') (He : endpoints db' !! id = Some e') (Ha : armed e' = true)
  (Hb : ∀ e, endpoints db !! id = Some e → armed e = false) :
  ∃ i, signs db' id i now.
Proof.
  pose proof (step_follows now db db' id Hs) as Hf. rewrite He in Hf.
  destruct (endpoints db !! id) as [e|] eqn:E; [|by apply Hf].
  destruct Hf as (_ & _ & _ & _ & Hl). destruct (Hl Ha) as [Hx|]; [|done].
  rewrite (Hb e) in Hx by done. done.
Qed.

(** Creation hands over the key or stays dark.  A successful create stores
    a new endpoint in the caller's project, which had fewer than 500 live ones,
    together with a secret that signs for it; it is active and enabled exactly
    when the caller may hold signing secrets and the plaintext is in the
    response, and otherwise paused, with no plaintext in the response. *)
Theorem create_hands_over (encrypt : jsstr → jsstr → string → string → jsstr) (c : Ctx)
  (dto : CreateEndpointDto) (id sid : string) (pt : jsstr) (now : Z) (db db' : Db)
  (live : Endpoint.t) (secret : option jsstr)
  (Hok : endpoints_create encrypt c dto id sid pt now db = (Ok (live, secret), db')) :
  endpoints db !! id = None ∧ endpoints db' !! id = Some live
  ∧ ctx_project c = Some (Endpoint.projectId live) ∧ Endpoint.url live = trim (ce_url dto)
  ∧ (Z.of_nat (size (matching c db (λ _ e, negb (endpoint_deleted e)))) < 500)%Z
  ∧ (∃ i, signs db' id i now)
  ∧ (if roleHasPermission (ctx_role c) endpoint_secrets_write
     then secret = Some pt ∧ armed live = true
     else secret = None ∧ Endpoint.status live = EndpointStatus.paused ∧ Endpoint.enabled live = false).
Proof.
  handler in Hok. rewrite reads_bind in Hok by apply requireRetryPolicy_reads.
  destruct (requireRetryPolicy c _ db).1; [|done]. rewrite reads_bind in Hok by apply requireHeadroom_reads.
  destruct (requireHeadroom c db).1 eqn:Eh; [|done].
  assert (Z.of_nat (size (matching c db (λ _ e, negb (endpoint_deleted e)))) < 500)%Z as Hroom.
  { revert Eh. unfold requireHeadroom, count, mbind, M_bind, gets. cbn.
    destruct (_ <? _)%Z eqn:E; [|done]. by bprop. }
  cbv zeta in Hok. apply bindM_Ok in Hok as (e & db1 & Hc & Hok).
  apply create_Ok in Hc as (t & Ht & -> & _ & Hid & _ & ->).
  apply bindM_Ok in Hok as (s & db2 & Hm & Hok).
  assert (mintInitial encrypt c id sid pt now (upd_tbl (insert id (new_endpoint dto now t)) db)
          = (Ok s, db2)) as Hm'.
  { revert Hm. unfold M_attempt. by destruct (mintInitial _ _ _ _ _ _ _) as [[] ?]. }
  pose proof (mintInitial_endpoints encrypt c id sid pt now
                (upd_tbl (insert id (new_endpoint dto now t)) db)) as Hend.
  rewrite Hm' in Hend. cbn in Hend. apply mintInitial_live in Hm'.
  assert (ctx_project c = Some (tc_project t)) as Hp.
  { cbn in Ht. apply bind_Ok in Ht as (p & Hp & [= <-]). unfold requireProject in Hp.
    destruct (ctx_project c); [|done]. by injection Hp as ->. }
  apply bindM_Ok in Hok as (lv & db3 & Hl & Hok).
  apply bindM_Ok in Hok as (u0 & db4 & (f & ->)%recordFor_Ok & [[= -> ->] ->]%mret_Ok). unfold has in *.
  destruct (roleHasPermission (ctx_role c) endpoint_secrets_write).
  - rewrite endpoint_updateById in Hl by done. destruct (find c db2 id) as [e2|] eqn:Ef; [|done].
    injection Hl as <- <-. apply find_Some in Ef as [Ef _]. cbn in Ef.
    rewrite Hend, lookup_insert_eq in Ef. injection Ef as <-.
    split_and!; try done; cbn; try by rewrite lookup_insert_eq.
  - apply mret_Ok in Hl as [-> ->]. split_and!; try done. cbn. by rewrite Hend, lookup_insert_eq.
Qed.

(** ** The other services *)

Definition same_faces (db db' : Db) : Prop := fmap face (endpoints db') = fmap face (endpoints db).

#[export] Instance same_faces_preorder : PreOrder same_faces.
Proof. split; [done|]. intros a b d Hab Hbd. unfold same_faces in *. congruence. Qed.

Lemma insertSecret_faces encrypt c e l id pt now : Respects same_faces (insertSecret encrypt c e l id pt now).
Proof.
  intros db. unfold insertSecret, catch_P2002. destruct (create c id _ db) as [[s|er] db'] eqn:E.
  - by apply create_Ok in E as (t & _ & _ & _ & _ & _ & ->).
  - apply create_Throw in E as ->. by destruct (bool_decide _).
Qed.

(** Rotating and revoking secrets are operations of the kind [st_other]. *)
Lemma secrets_other encrypt c e overlap id pt now :
  Respects same_faces (rotate encrypt c e overlap id pt now)
  ∧ Respects same_faces (revoke c e id now).
Proof.
  assert (∀ x, Respects same_faces (secretsFor c x)) by (intros; unfold secretsFor, findAll; respects).
  assert (∀ (p : string → EndpointSecret.t → bool) f, Respects same_faces (updateMany c p f)) by done.
  assert (∀ a ty i md, Respects same_faces (recordFor c a ty i md)) by done.
  split; unfold rotate, revoke, sweepExpired, assertStillSigning, requireEndpoint, requireById, findById;
    respects. apply insertSecret_faces.
Qed.

(** ** Witnesses *)

Definition no_fields : Fields := MkFields None None None None None None None.
Definition ep_dto : CreateEndpointDto :=
  {| ce_name := js "Ledger"; ce_url := js " https://a.example/hook "; ce_fields := no_fields |}.
Definition ep_created : Db :=
  (endpoints_create plain_text es_ctx ep_dto "e9" "s9" (js "k") 5 es_db0).2.
Definition ep_removed : Db := (endpoints_remove es_ctx "e9" 6 ep_created).2.

(** Enabling [e9] when nothing else runs, after its removal. *)
Definition ep_after : Sys Db :=
  advance 0 (advance 0 (MkSys ep_removed [MkThread "e9" _ (enableP (P:=Prog Db) es_ctx "e9" 7)])).
Lemma endpoint_lifecycle_witness :
  ∃ e', endpoints (sy_db ep_after) !! "e9" = Some e' ∧ Endpoint.status e' = EndpointStatus.deleted.
Proof.
  assert (ep_system (MkSys ep_removed []) ep_after) as Hs.
  { eapply star_step; [apply sy_arrive, rq_enable|]. eapply star_trans; apply advance_star. }
  destruct (endpoint_lifecycle _ _ _ (star_refl _ _) Hs) as [Hk _].
  destruct (Hk "e9" (default (ep "x") (endpoints ep_removed !! "e9"))) as (e' & He & _ & _ & Hd);
    [vm_compute; reflexivity|].
  exists e'. split; [exact He|].
  assert (face e' = face (default (ep "x") (endpoints ep_removed !! "e9"))) as Hf.
  { apply Hd; [vm_compute; reflexivity|]. intros t Ht. cbn [sy_flight] in Ht. destruct (not_elem_of_nil t Ht). }
  apply (f_equal Endpoint.status) in Hf. vm_compute in Hf. exact Hf.
Defined.

(** A request to enable the endpoint reads it, one to remove it runs from beginning to
    end, and the first goes on: the endpoint is active again. *)
Definition ep_race : Sys Db :=
  MkSys ep_created [MkThread "e9" _ (enableP (P:=Prog Db) es_ctx "e9" 6); MkThread "e9" _ (removeP (P:=Prog Db) es_ctx "e9" 6)].
Definition ep_race_removed : Sys Db := advance 1 (advance 1 (advance 1 (advance 0 ep_race))).
Definition ep_race_over : Sys Db := advance 0 (advance 0 ep_race_removed).
Example deleted_comes_back :
  ep_system (MkSys ep_created []) ep_race_removed ∧ ep_system ep_race_removed ep_race_over
  ∧ Endpoint.status <$> endpoints (sy_db ep_race_removed) !! "e9" = Some EndpointStatus.deleted
  ∧ Endpoint.status <$> endpoints (sy_db ep_race_over) !! "e9" = Some EndpointStatus.active.
Proof.
  split_and!.
  - eapply star_step; [apply sy_arrive, rq_remove|]. eapply star_step; [apply sy_arrive, rq_enable|].
    unfold ep_race_removed. do 4 (eapply star_trans; [|apply advance_star]). apply star_refl.
  - unfold ep_race_over. do 2 (eapply star_trans; [|apply advance_star]). apply star_refl.
  - vm_compute. reflexivity.
  - vm_compute. reflexivity.
Qed.

Lemma goes_live_signed_witness : ∃ i, signs ep_created "e9" i 5.
Proof.
  apply (goes_live_signed 5 es_db0 ep_created "e9" (default (ep "x") (endpoints ep_created !! "e9"))).
  - apply st_create.
  - vm_compute. reflexivity.
  - vm_compute. reflexivity.
  - intros e He. vm_compute in He. discriminate He.
Defined.

Lemma create_hands_over_witness :
  ∃ live, endpoints ep_created !! "e9" = Some live ∧ Endpoint.url live = js "https://a.example/hook".
Proof.
  destruct (endpoints_create plain_text es_ctx ep_dto "e9" "s9" (js "k") 5 es_db0)
    as [[[live secret]|er] db'] eqn:E; [|vm_compute in E; discriminate E].
  destruct (create_hands_over plain_text es_ctx ep_dto "e9" "s9" (js "k") 5 es_db0 db' live secret E)
    as (_ & Hl & _ & Hu & _).
  exists live. unfold ep_created. rewrite E. split; [exact Hl|]. rewrite Hu. vm_compute. reflexivity.
Defined.
