(* ===== verification/Replay.v ===== *)
(** Replaying deliveries: deliveries/delivery-replay.service.ts with its two
    callers, DeliveriesService.replay and EventsService.replay, and the event
    rollup of events/delivery-rollup.ts.

    A replay is an insert and only an insert.  The ids [newId('delivery')]
    mints, the clock and the active trace context are arguments. *)
From Stdlib Require Import ZArith Lia.
From S2P Require Import Prelude Js Permissions RetryRules AuditTrail Db Scope TenantScope.

Definition MAX_REPLAY_DELIVERIES : nat := 50.

Definition isDeliverable (e : Endpoint.t) : bool :=
  Endpoint.enabled e && bool_decide (Endpoint.status e = EndpointStatus.active).

Definition assertReplayable (e : Endpoint.t) : result unit :=
  if bool_decide (Endpoint.status e = EndpointStatus.deleted)
  then throw conflict "This endpoint has been deleted; nothing can be delivered to it again."
  else throw_if (negb (isDeliverable e)) conflict "This endpoint is not accepting deliveries.".

Definition assertWithinReplayCap (count : nat) : result unit :=
  if count <=? MAX_REPLAY_DELIVERIES then Ok tt
  else throw limit_exceeded "A single replay may create at most 50 deliveries.".

Definition delivery_row : Type := string * Delivery.t.

Record ReplayPlan : Type := MkPlan {
  originals : list delivery_row;
  action : string;
  resourceType : string;
  resourceId : string;
  plan_metadata : list (jsstr * meta)
}.

(** Only the message of a [not_found] is rewritten. *)
Definition withCrossTenantNotFound {A} (m : M Db A) : M Db A := λ db,
  match m db with
  | (Throw (AppError not_found _), db') => (throw not_found CROSS_TENANT_MESSAGE, db')
  | r => r
  end.

(** [{ ...base, ...extra }] *)
Definition spread (base extra : list (jsstr * meta)) : list (jsstr * meta) :=
  foldl (λ l kv, set_key kv.1 kv.2 l) base extra.

Definition ids_meta (l : list string) : meta := MArr (map (λ i, MStr (js i)) l).

Section Replay.
  Context (c : Ctx).

(** The ids of the distinct endpoints of a plan, in the order a Map keeps them. *)
Fixpoint resolveEndpoints (l : list delivery_row) (seen : list string) : M Db (list string) :=
  match l with
  | [] => mret seen
  | (_, original) :: l =>
      if bool_decide (Delivery.endpointId original ∈ seen) then resolveEndpoints l seen
      else
        endpoint ← findById (R:=Endpoint.t) c (Delivery.endpointId original);
        match endpoint with
        | None => throwM not_found CROSS_TENANT_MESSAGE
        | Some e =>
            _ ← lift (assertReplayable e);
            resolveEndpoints l (seen ++ [Delivery.endpointId original])
        end
  end.

(** The row of the replay of [original]. *)
Definition replay_row (originalId : string) (original : Delivery.t) (subscriptionId : option string)
    (now : Z) (trace : option jsstr) (t : TenantColumns) : Delivery.t :=
  Delivery.mk (Delivery.eventId original) (Delivery.endpointId original) subscriptionId
    (tc_org t) (tc_project t) DeliveryStatus.pending 0 (Delivery.maxAttempts original) now None None
    (Delivery.orderingKey original) None None (Some originalId) (Some (ctx_user c)) None trace now now None.

Definition insertReplay (original : delivery_row) (id : string) (now : Z) (trace : option jsstr)
  : M Db delivery_row :=
  sub ← match Delivery.subscriptionId original.2 with
        | None => mret None
        | Some s =>
            found ← findById (R:=Subscription.t) c s;
            mret (if found is Some _ then Some s else None)
        end;
  created ← create c id (replay_row original.1 original.2 sub now trace);
  mret (id, created).

Definition replay (plan : M Db ReplayPlan) (reason : option jsstr) (newIds : nat → string)
    (now : Z) (trace : option jsstr) : M Db (list delivery_row) :=
  transact (
    p ← plan;
    _ ← lift (assertWithinReplayCap (length (originals p)));
    endpoints ← resolveEndpoints (originals p) [];
    created ← mapM' (λ '(i, original), insertReplay original (newIds i) now trace)
                    (imap pair (originals p));
    _ ← recordFor c (action p) (resourceType p) (Some (resourceId p))
          (spread (plan_metadata p)
             [(js "reason", if reason is Some r then MStr r else MNull);
              (js "replayed_count", MNum (int (Z.of_nat (length created))));
              (js "replay_of_delivery_ids", ids_meta (map fst (originals p)));
              (js "created_delivery_ids", ids_meta (map fst created));
              (js "endpoint_ids", ids_meta endpoints)]);
    _ ← lift (requireProject c);
    mret created).

(** ** DeliveriesService.replay *)

Definition delivery_status_name (s : DeliveryStatus.t) : string :=
  match s with
  | DeliveryStatus.pending => "pending" | DeliveryStatus.scheduled => "scheduled"
  | DeliveryStatus.queued => "queued" | DeliveryStatus.processing => "processing"
  | DeliveryStatus.succeeded => "succeeded" | DeliveryStatus.failed => "failed"
  | DeliveryStatus.retrying => "retrying" | DeliveryStatus.exhausted => "exhausted"
  | DeliveryStatus.cancelled => "cancelled"
  end.

Definition delivery_plan (deliveryId : string) : M Db ReplayPlan :=
  d ← requireById (R:=Delivery.t) c deliveryId;
  mret {|
    originals := [(deliveryId, d)];
    action := "delivery.replayed";
    resourceType := "delivery";
    resourceId := deliveryId;
    plan_metadata :=
      [(js "event_id", MStr (js (Delivery.eventId d)));
       (js "endpoint_id", MStr (js (Delivery.endpointId d)));
       (js "original_status", MStr (js (delivery_status_name (Delivery.status d))));
       (js "original_attempt_count", MNum (int (Delivery.attemptCount d)))]
  |}.

Definition delivery_replay (deliveryId : string) (reason : option jsstr) (newIds : nat → string)
    (now : Z) (trace : option jsstr) : M Db (list delivery_row) :=
  withCrossTenantNotFound (replay (delivery_plan deliveryId) reason newIds now trace).

(** ** EventsService.replay *)

(** [{ eventId, replayOfDeliveryId: null }] *)
Definition is_original (eventId : string) (_ : string) (d : Delivery.t) : bool :=
  bool_decide (Delivery.eventId d = eventId) && bool_decide (Delivery.replayOfDeliveryId d = None).

Definition originalFor (eventId endpointId : string) : M Db delivery_row :=
  endpoint ← findById (R:=Endpoint.t) c endpointId;
  match endpoint with
  | None => throwM not_found CROSS_TENANT_MESSAGE
  | Some _ =>
      original ← findFirst c (λ i d, is_original eventId i d
                                     && bool_decide (Delivery.endpointId d = endpointId));
      match original with
      | Some d => mret d
      | None => throwM conflict "The event was never routed to this endpoint."
      end
  end.

Definition older (a b : delivery_row) : bool := (Delivery.createdAt a.2 <=? Delivery.createdAt b.2)%Z.

Definition originalsFor (eventId : string) : M Db (list delivery_row) :=
  rows ← findAll c (is_original eventId);
  let page := findPage (sort_by older rows) (Some (int (Z.of_nat MAX_REPLAY_DELIVERIES))) None in
  if p_hasMore page then
    _ ← count c (is_original eventId);
    throwM limit_exceeded "A single replay may create at most 50 deliveries."
  else
    _ ← guardM (length (p_rows page) =? 0)%nat conflict "The event has no deliveries to replay.";
    mret (p_rows page).

Definition event_plan (eventId : string) (endpointId : option string) : M Db ReplayPlan :=
  event ← requireById (R:=Event.t) c eventId;
  rows ← match endpointId with
         | Some e => d ← originalFor eventId e; mret [d]
         | None => originalsFor eventId
         end;
  mret {|
    originals := rows;
    action := "event.replayed";
    resourceType := "event";
    resourceId := eventId;
    plan_metadata :=
      [(js "event_type", MStr (Event.eventType event));
       (js "target", MStr (js (if endpointId is Some _ then "endpoint" else "all_originally_matched")));
       (js "requested_endpoint_id", if endpointId is Some e then MStr (js e) else MNull)]
  |}.

Definition event_replay (eventId : string) (endpointId : option string) (reason : option jsstr)
    (newIds : nat → string) (now : Z) (trace : option jsstr) : M Db (list delivery_row) :=
  withCrossTenantNotFound (replay (event_plan eventId endpointId) reason newIds now trace).
End Replay.

(** ** The rollup of an event *)

Inductive EventRollupState : Type :=
| rs_received | rs_in_progress | rs_delivered | rs_partly_delivered | rs_all_failed | rs_dropped.

Record DeliveryRollup : Type := MkRollup {
  ru_state : EventRollupState;
  ru_total : nat; ru_succeeded : nat; ru_failed : nat; ru_in_flight : nat; ru_cancelled : nat
}.

Definition ALL_STATUSES : list DeliveryStatus.t :=
  [DeliveryStatus.pending; DeliveryStatus.scheduled; DeliveryStatus.queued; DeliveryStatus.processing;
   DeliveryStatus.succeeded; DeliveryStatus.failed; DeliveryStatus.retrying; DeliveryStatus.exhausted;
   DeliveryStatus.cancelled].
Definition IN_FLIGHT : list DeliveryStatus.t :=
  [DeliveryStatus.pending; DeliveryStatus.scheduled; DeliveryStatus.queued; DeliveryStatus.processing;
   DeliveryStatus.retrying].

Definition rollUp (eventStatus : EventStatus.t) (counts : DeliveryStatus.t → nat) : DeliveryRollup :=
  let total := foldl (λ n s, n + counts s) 0 ALL_STATUSES in
  let succeeded := counts DeliveryStatus.succeeded in
  let failed := counts DeliveryStatus.failed + counts DeliveryStatus.exhausted in
  let cancelled := counts DeliveryStatus.cancelled in
  let inFlight := foldl (λ n s, n + counts s) 0 IN_FLIGHT in
  let base st := MkRollup st total succeeded failed inFlight cancelled in
  if (total =? 0)%nat then
    base (if bool_decide (eventStatus = EventStatus.processed) then rs_dropped else rs_received)
  else if (0 <? inFlight)%nat then base rs_in_progress
  else if (succeeded =? total)%nat then base rs_delivered
  else if (succeeded =? 0)%nat then base rs_all_failed
  else base rs_partly_delivered.

(** ** History is only added to *)

(** [db'] is [db] with deliveries and audit entries added. *)
Definition only_adds (db db' : Db) : Prop :=
  ∃ m l, db' = upd_auditLogs (λ old, old ++ l) (upd_deliveries (λ _, m) db) ∧ deliveries db ⊆ m.

#[export] Instance only_adds_preorder : PreOrder only_adds.
Proof.
  split.
  - intros db. exists (deliveries db), []. split; [|done].
    destruct db. unfold upd_auditLogs, upd_deliveries. cbn. by rewrite app_nil_r.
  - intros db1 db2 db3 (m & l & -> & Hm) (m' & l' & -> & Hm'). cbn in Hm'.
    exists m', (l ++ l'). split; [|by etrans].
    unfold upd_auditLogs, upd_deliveries. cbn. by rewrite app_assoc.
Qed.

Lemma recordFor_adds c a ty id md : Respects only_adds (recordFor c a ty id md).
Proof. intros db. eexists (deliveries db), _. split; [by destruct db|done]. Qed.

Lemma create_delivery_adds c id (mk : TenantColumns → Delivery.t) : Respects only_adds (create c id mk).
Proof.
  intros db. destruct (create c id mk db) as [[r|e] db'] eqn:E; cbn [snd].
  - apply create_Ok in E as (t & _ & _ & _ & Hid & _ & ->).
    exists (insert id (mk t) (deliveries db)), []. split.
    + cbn. unfold upd_auditLogs, upd_deliveries. cbn. by rewrite app_nil_r.
    + by apply insert_subseteq.
  - apply create_Throw in E as ->. reflexivity.
Qed.
#[export] Hint Resolve recordFor_adds create_delivery_adds : respects.

Lemma resolveEndpoints_adds c l seen : Respects only_adds (resolveEndpoints c l seen).
Proof.
  revert seen. induction l as [|[i d] l IH]; intros seen; cbn [resolveEndpoints]; [respects|].
  case_bool_decide; [apply IH|]. unfold findById. respects. all: try apply IH.
Qed.

Lemma replay_adds c plan reason ids now trace :
  Respects only_adds plan → Respects only_adds (replay c plan reason ids now trace).
Proof.
  intros Hp. unfold replay, insertReplay, findById. respects. apply resolveEndpoints_adds.
Qed.

Lemma withCrossTenant_adds {A} (m : M Db A) :
  Respects only_adds m → Respects only_adds (withCrossTenantNotFound m).
Proof.
  intros Hm db. specialize (Hm db). unfold withCrossTenantNotFound.
  destruct (m db) as [[a|[[] msg]] db']; exact Hm.
Qed.

Lemma delivery_plan_adds c id : Respects only_adds (delivery_plan c id).
Proof. unfold delivery_plan, requireById, findById. respects. Qed.

Lemma event_plan_adds c ev ep : Respects only_adds (event_plan c ev ep).
Proof.
  unfold event_plan, originalFor, originalsFor, requireById, findById, findFirst, findAll, count.
  respects.
Qed.

Lemma replay_throw c plan reason ids now trace db e db' :
  withCrossTenantNotFound (replay c plan reason ids now trace) db = (Throw e, db') → db' = db.
Proof.
  unfold withCrossTenantNotFound. destruct (replay _ _ _ _ _ _ db) as [[a|e'] s] eqn:E.
  - by intros [= ? ?].
  - apply transact_Throw in E as ->. by destruct e' as [[] msg]; intros [= _ <-].
Qed.

(** A replay never rewrites history.  Whatever it is asked, replaying a
    delivery or an event leaves every delivery that existed as it was and every
    other table untouched, adding at most new deliveries and audit entries; and
    a refused replay changes nothing at all. *)
Theorem replay_keeps_history (c : Ctx) (deliveryId eventId : string) (endpointId : option string)
  (reason : option jsstr) (newIds : nat → string) (now : Z) (trace : option jsstr) (db : Db) :
  let one := delivery_replay c deliveryId reason newIds now trace db in
  let many := event_replay c eventId endpointId reason newIds now trace db in
  only_adds db one.2 ∧ only_adds db many.2
  ∧ (∀ e, one.1 = Throw e → one.2 = db) ∧ (∀ e, many.1 = Throw e → many.2 = db).
Proof.
  cbv zeta. split_and!.
  - apply withCrossTenant_adds, replay_adds, delivery_plan_adds.
  - apply withCrossTenant_adds, replay_adds, event_plan_adds.
  - intros e He. eapply replay_throw. rewrite <- He. apply surjective_pairing.
  - intros e He. eapply replay_throw. rewrite <- He. apply surjective_pairing.
Qed.

(** ** What a replay creates *)

(** [n] is a fresh run of [o]: same event, endpoint and attempt budget, nothing
    attempted yet, ready now, and linked to what it replays and to who asked. *)
Record replay_of (c : Ctx) (now : Z) (o : delivery_row) (n : Delivery.t) : Prop := {
  ro_of : Delivery.replayOfDeliveryId n = Some o.1;
  ro_by : Delivery.replayedBy n = Some (ctx_user c);
  ro_event : Delivery.eventId n = Delivery.eventId o.2;
  ro_endpoint : Delivery.endpointId n = Delivery.endpointId o.2;
  ro_budget : Delivery.maxAttempts n = Delivery.maxAttempts o.2;
  ro_status : Delivery.status n = DeliveryStatus.pending;
  ro_attempts : Delivery.attemptCount n = 0%Z;
  ro_due : Delivery.nextAttemptAt n = now;
  ro_org : Delivery.organizationId n = ctx_org c;
  ro_project : ctx_project c = Some (Delivery.projectId n)
}.

Lemma insertReplay_Ok c o id now trace db r db' :
  insertReplay c o id now trace db = (Ok r, db') →
  r.1 = id ∧ replay_of c now o r.2 ∧ deliveries db !! id = None
  ∧ db' = upd_deliveries (insert id r.2) db.
Proof.
  unfold insertReplay. intros H. apply bindM_Ok in H as (sub & s & Hs & H).
  assert (s = db) as -> by (destruct (Delivery.subscriptionId o.2); sinv; done).
  sinv. subst r. cbn [fst snd]. subst.
  match goal with Ht : tenantColumns _ _ = Ok _ |- _ =>
    cbn in Ht; apply bind_Ok in Ht as (p & Hp & [= <-]) end. unfold requireProject in Hp.
  destruct (ctx_project c) eqn:E; [|done]. injection Hp as ->. by split_and!.
Qed.

Lemma insertReplays_Ok c ids now trace l db created db' :
  mapM' (λ '(i, original), insertReplay c original (ids i) now trace) l db = (Ok created, db') →
  Forall2 (λ (io : nat * delivery_row) (n : delivery_row),
             n.1 = ids io.1 ∧ replay_of c now io.2 n.2) l created
  ∧ (∀ n, n ∈ created → deliveries db !! n.1 = None)
  ∧ NoDup created.*1
  ∧ db' = upd_deliveries (λ m, list_to_map created ∪ m) db.
Proof.
  revert db created db'. induction l as [|[i o] l IH]; intros db created db'; cbn [mapM'].
  { intros H. sinv. subst. split_and!; [constructor|by intros ? ?%not_elem_of_nil|constructor|].
    destruct db. unfold upd_deliveries. cbn. by rewrite (left_id_L ∅ _). }
  intros H. apply bindM_Ok in H as (r & s & Hr & H). apply bindM_Ok in H as (rs & s' & Hrs & H). sinv.
  apply insertReplay_Ok in Hr as (Hid & Hof & Hfresh & ->).
  apply IH in Hrs as (Hall & Hnone & Hnd & ->). subst created.
  assert (r.1 ∉ rs.*1) as Hni.
  { intros (n & Hn & Hin)%list_elem_of_fmap. specialize (Hnone n Hin). cbn in Hnone.
    rewrite <- Hn, Hid, lookup_insert_eq in Hnone. done. }
  split_and!.
  - constructor; [done|exact Hall].
  - intros n [->|Hin]%elem_of_cons; [by rewrite Hid|]. specialize (Hnone n Hin). cbn in Hnone.
    by apply lookup_insert_None in Hnone as [? _].
  - by constructor.
  - unfold upd_deliveries. cbn. f_equal. destruct r as [ri rd]. cbn in *. subst ri.
    rewrite <- insert_union_l. symmetry. rewrite <- insert_union_r; [done|].
    by apply not_elem_of_list_to_map_1.
Qed.

Lemma resolveEndpoints_Ok c l seen db ks db' :
  resolveEndpoints c l seen db = (Ok ks, db') →
  db' = db ∧ ∀ o, o ∈ l → Delivery.endpointId o.2 ∈ seen
    ∨ ∃ e : Endpoint.t, find c db (Delivery.endpointId o.2) = Some e ∧ isDeliverable e = true.
Proof.
  revert seen. induction l as [|[i d] l IH]; intros seen; cbn [resolveEndpoints].
  { intros H. sinv. split; [done|]. by intros o ?%not_elem_of_nil. }
  case_bool_decide as Hs.
  - intros [-> Hl]%IH. split; [done|]. intros o [->|Ho]%elem_of_cons; [by left|auto].
  - intros H. apply bindM_Ok in H as (e & s & He & H). sinv. subst e.
    destruct (find c db (Delivery.endpointId d)) as [e|] eqn:Ef; [|by sinv].
    apply bindM_Ok in H as (u & s & Hu & H). sinv.
    assert (isDeliverable e = true) as Hd.
    { match goal with Ha : assertReplayable e = Ok _ |- _ => revert Ha end.
      unfold assertReplayable. case_bool_decide; [done|]. intros Ha%throw_if_Ok. by bprop. }
    apply IH in H as [-> Hl]. split; [done|]. intros o [->|Ho]%elem_of_cons; [right; eauto|].
    destruct (Hl o Ho) as [Hin|]; [|by right]. apply elem_of_app in Hin as [|Hin]; [by left|].
    apply list_elem_of_singleton in Hin. right. rewrite Hin. eauto.
Qed.

Lemma withCrossTenant_Ok {A} (m : M Db A) db a db' :
  withCrossTenantNotFound m db = (Ok a, db') → m db = (Ok a, db').
Proof. unfold withCrossTenantNotFound. destruct (m db) as [[?|[[] ?]] ?]; done. Qed.

Lemma snd_imap_pair {A} (l : list A) : snd <$> imap pair l = l.
Proof. apply list_eq. intros i. rewrite list_lookup_fmap, list_lookup_imap. by destruct (l !! i). Qed.

(** The successful run of a plan that leaves the database as it found it. *)
Lemma replay_Ok c plan reason ids now trace db p created db' :
  plan db = (Ok p, db) → replay c plan reason ids now trace db = (Ok created, db') →
  length (originals p) ≤ MAX_REPLAY_DELIVERIES
  ∧ Forall2 (λ o (n : delivery_row), replay_of c now o n.2) (originals p) created
  ∧ (∀ o, o ∈ originals p → ∃ e : Endpoint.t, find c db (Delivery.endpointId o.2) = Some e
                                            ∧ isDeliverable e = true)
  ∧ (∀ n, n ∈ created → deliveries db !! n.1 = None) ∧ NoDup created.*1
  ∧ ∃ f, db' = upd_auditLogs f (upd_deliveries (λ m, list_to_map created ∪ m) db).
Proof.
  intros Hp H. unfold replay in H. rewrite transact_Ok in H.
  apply bindM_Ok in H as (p' & s & Hp' & H). rewrite Hp in Hp'. injection Hp' as <- <-.
  apply bindM_Ok in H as (u & s & [Hcap ->]%lift_Ok & H).
  apply bindM_Ok in H as (ks & s & [-> Hends]%resolveEndpoints_Ok & H).
  apply bindM_Ok in H as (cr & s & (Hall & Hnone & Hnd & ->)%insertReplays_Ok & H). sinv. subst cr.
  split_and!; [| | |done|done|by eexists].
  - revert Hcap. unfold assertWithinReplayCap. destruct (_ <=? _)%nat eqn:E; [|done]. by bprop.
  - rewrite <- (snd_imap_pair (originals p)). apply Forall2_fmap_l.
    eapply Forall2_impl; [exact Hall|]. by intros io n [_ ?].
  - intros o Ho. destruct (Hends o Ho) as [?%not_elem_of_nil|]; [done|done].
Qed.

Lemma originalsFor_Ok c ev db os db' :
  originalsFor c ev db = (Ok os, db') →
  db' = db ∧ os ≡ₚ map_to_list (matching c db (is_original ev)) ∧ 1 ≤ length os.
Proof.
  unfold originalsFor. intros H. apply bindM_Ok in H as (rows & s & [-> ->]%findAll_Ok & H).
  set (l := map_to_list _) in *. set (pg := findPage _ _ _) in *.
  destruct (findPage_facts (sort_by older l) (Some (int (Z.of_nat MAX_REPLAY_DELIVERIES))) None)
    as (Hrows & Hmore & _). fold pg in Hrows, Hmore.
  destruct (p_hasMore pg) eqn:E; [by sinv|]. sinv. bprop. subst os. split; [done|]. split; [|lia].
  rewrite Hrows. cbn. rewrite drop_0, take_ge; [apply sort_by_perm|].
  destruct (decide (length (sort_by older l) ≤ 50)) as [Hle|Hgt]; [done|].
  exfalso. assert (false = true); [|done]. apply Hmore.
  change (Z.to_nat (pageSize _)) with 50. cbn. lia.
Qed.

(** Replaying an event to everyone re-sends exactly what routing decided
    at the time.  A successful replay creates one fresh pending delivery per
    original delivery of the event, between one and fifty of them, each linked
    to its original, to the user and to the same endpoint, event and budget, in
    the caller's tenant; every target endpoint accepts deliveries; the new rows
    are the only new rows; and the originals a second replay would find are the
    same, so replays do not compound. *)
Theorem event_replay_creates (c : Ctx) (ev : string) (reason : option jsstr) (newIds : nat → string)
  (now : Z) (trace : option jsstr) (db db' : Db) (created : list delivery_row)
  (Hok : event_replay c ev None reason newIds now trace db = (Ok created, db')) :
  ∃ os, os ≡ₚ map_to_list (matching c db (is_original ev))
    ∧ 1 ≤ length os ≤ MAX_REPLAY_DELIVERIES
    ∧ Forall2 (λ o n, replay_of c now o n.2) os created
    ∧ (∀ o, o ∈ os → ∃ e : Endpoint.t, find c db (Delivery.endpointId o.2) = Some e
                                     ∧ isDeliverable e = true)
    ∧ (∀ n, n ∈ created → deliveries db !! n.1 = None) ∧ NoDup created.*1
    ∧ deliveries db' = list_to_map created ∪ deliveries db
    ∧ matching c db' (is_original ev) = matching c db (is_original ev).
Proof.
  apply withCrossTenant_Ok in Hok. pose proof Hok as Hplan. unfold replay in Hplan.
  rewrite transact_Ok in Hplan. apply bindM_Ok in Hplan as (p & s & Hplan & _).
  pose proof Hplan as Hp. unfold event_plan in Hp. apply bindM_Ok in Hp as (e & s' & [Hev ->]%requireById_Ok & Hp).
  apply bindM_Ok in Hp as (os & s' & (-> & Hperm & Hlen)%originalsFor_Ok & [-> ->]%mret_Ok).
  destruct (replay_Ok _ _ _ _ _ _ _ _ _ _ Hplan Hok)
    as (Hcap & Hall & Hends & Hnone & Hnd & f & ->).
  cbn [originals] in *. exists os. split_and!; try done.
  apply map_eq. intros id. apply option_eq. intros d. rewrite !matching_lookup.
  cbn [tbl Delivery_table deliveries upd_auditLogs upd_deliveries].
  change (in_tenant c _ id d) with (in_tenant c db id d) at 1.
  split; intros (Hd & Ht & Ho); (split; [|done]).
  - apply lookup_union_Some_raw in Hd as [Hd|[_ Hd]]; [|done]. exfalso.
    apply elem_of_list_to_map_2 in Hd.
    apply list_elem_of_lookup in Hd as [i Hd].
    destruct (Forall2_lookup_r _ _ _ _ _ Hall Hd) as (o & _ & Hof).
    unfold is_original in Ho. bprop. pose proof (ro_of _ _ _ _ Hof). cbn in *. congruence.
  - apply lookup_union_Some_raw. right. split; [|done]. apply not_elem_of_list_to_map_1.
    intros (n & -> & Hn)%list_elem_of_fmap. specialize (Hnone n Hn). congruence.
Qed.

Definition rep_ctx : Ctx := MkCtx "o1" (Some "p1") "m1" developer "u1".
Definition rep_delivery (replayOf : option string) : Delivery.t :=
  Delivery.mk "v1" "e1" None "o1" "p1" DeliveryStatus.exhausted 5 5 10 (Some 9%Z) (Some 9%Z) None None None
    replayOf None None None 1 9 None.
Definition rep_db : Db :=
  upd_deliveries (λ _, <["d1" := rep_delivery None]> {["d2" := rep_delivery (Some "d1")]})
    (upd_events (λ _, {["v1" := Event.bare "o1" "p1" (js "a.b") EventStatus.processed 0]}) two_orgs).

Lemma event_replay_creates_witness :
  ∃ os created, (event_replay rep_ctx "v1" None None (λ _, "d3") 20 None rep_db).1 = Ok created
    ∧ Forall2 (λ o n, replay_of rep_ctx 20 o n.2) os created
    ∧ os.*1 = ["d1"].
Proof.
  destruct (event_replay rep_ctx "v1" None None (λ _, "d3") 20 None rep_db) as [[created|e] db'] eqn:E.
  - destruct (event_replay_creates rep_ctx "v1" None (λ _, "d3") 20 None rep_db db' created E)
      as (os & Hp & _ & Hall & _).
    exists os, created. split_and!; [done|done|]. vm_compute in Hp.
    by apply Permutation_singleton_r in Hp as ->.
  - vm_compute in E. discriminate E.
Defined.

(** The rollup of an event is honest: its four counts add up to the number
    of deliveries, and each of the six states says exactly what it should about
    them; in particular [delivered] means that all of at least one delivery
    succeeded, and [dropped] that routing finished and matched nobody. *)
Theorem rollUp_spec (st : EventStatus.t) (counts : DeliveryStatus.t → nat) :
  let r := rollUp st counts in
  ru_total r = ru_succeeded r + ru_failed r + ru_in_flight r + ru_cancelled r
  ∧ (ru_state r = rs_dropped ↔ ru_total r = 0 ∧ st = EventStatus.processed)
  ∧ (ru_state r = rs_received ↔ ru_total r = 0 ∧ st ≠ EventStatus.processed)
  ∧ (ru_state r = rs_in_progress ↔ 0 < ru_in_flight r)
  ∧ (ru_state r = rs_delivered ↔ 0 < ru_total r ∧ ru_succeeded r = ru_total r)
  ∧ (ru_state r = rs_all_failed ↔ 0 < ru_total r ∧ ru_in_flight r = 0 ∧ ru_succeeded r = 0)
  ∧ (ru_state r = rs_partly_delivered ↔ ru_in_flight r = 0 ∧ 0 < ru_succeeded r < ru_total r).
Proof.
  cbv zeta. unfold rollUp. cbn [foldl ALL_STATUSES IN_FLIGHT].
  case_bool_decide; repeat (case_match; bprop); cbn;
    repeat split; intros; repeat match goal with H : _ ∧ _ |- _ => destruct H end;
    first [done | discriminate | lia].
Qed.
