(* ===== verification/Resolver.v ===== *)
(** Tenant resolution: authz/tenant-resolver.service.ts and the permission check
    of authz/tenant.guard.ts.

    Every scoped statement is proved isolated for a context whose project lies
    in its organization ([Scope.ctx_ok]); here is where contexts come from, and
    the proof that all of them are of that kind. *)
From Stdlib Require Import ZArith Lia.
From S2P Require Import Prelude Js Permissions RetryRules AuditTrail Db Scope Members.

Inductive TenantAnchorKind : Type :=
| anchor_organization | anchor_project | anchor_endpoint | anchor_subscription
| anchor_apiKey | anchor_event | anchor_delivery.

Inductive TenantSpec : Type :=
| from_params
| from_anchor (kind : TenantAnchorKind) (param : string).

Record TenantCoordinates : Type := MkCoords { co_org : string; co_project : option string }.

(** The route parameters of a request. *)
Definition Params : Type := string → option string.

Definition ORGANIZATION_PARAMS : list string := ["orgId"; "organizationId"].
Definition PROJECT_PARAMS : list string := ["projectId"].

Fixpoint firstParam (params : Params) (names : list string) : option string :=
  match names with
  | [] => None
  | name :: names =>
      match params name with
      | Some (String _ _ as value) => Some value
      | _ => firstParam params names
      end
  end.

Definition requiredParam (params : Params) (name : string) : result string :=
  match params name with
  | Some (String _ _ as value) => Ok value
  | _ => throw internal_error "@ResolveTenantFrom names a route parameter this route does not declare."
  end.

Definition crossTenant {A} : result A := throw not_found CROSS_TENANT_MESSAGE.

(** A required relation of a row: PostgreSQL guarantees that it is there. *)
Definition project_of (db : Db) (p : string) : result string :=
  match project_org db p with
  | Some o => Ok o
  | None => throw internal_error "a required relation is missing"
  end.

Definition assertDenormalisedAgreement (denormalised authoritative : string) : result unit :=
  if bool_decide (denormalised = authoritative) then Ok tt else crossTenant.

Section Resolver.
  Context (db : Db).

Definition coordinatesFromAnchor (kind : TenantAnchorKind) (id : string) : result TenantCoordinates :=
  match kind with
  | anchor_organization => Ok (MkCoords id None)
  | anchor_project =>
      match projects db !! id with
      | None => crossTenant
      | Some p => Ok (MkCoords (Project.organizationId p) (Some id))
      end
  | anchor_endpoint =>
      match endpoints db !! id with
      | None => crossTenant
      | Some e =>
          o ← project_of db (Endpoint.projectId e);
          Ok (MkCoords o (Some (Endpoint.projectId e)))
      end
  | anchor_subscription =>
      match subscriptions db !! id with
      | None => crossTenant
      | Some s =>
          o ← project_of db (Subscription.projectId s);
          Ok (MkCoords o (Some (Subscription.projectId s)))
      end
  | anchor_apiKey =>
      match apiKeys db !! id with
      | None => crossTenant
      | Some k =>
          o ← project_of db (ApiKey.projectId k);
          Ok (MkCoords o (Some (ApiKey.projectId k)))
      end
  | anchor_event =>
      match events db !! id with
      | None => crossTenant
      | Some ev =>
          o ← project_of db (Event.projectId ev);
          _ ← assertDenormalisedAgreement (Event.organizationId ev) o;
          Ok (MkCoords o (Some (Event.projectId ev)))
      end
  | anchor_delivery =>
      match deliveries db !! id with
      | None => crossTenant
      | Some d =>
          match endpoints db !! Delivery.endpointId d with
          | None => throw internal_error "a required relation is missing"
          | Some e =>
              o ← project_of db (Endpoint.projectId e);
              _ ← assertDenormalisedAgreement (Delivery.organizationId d) o;
              _ ← assertDenormalisedAgreement (Delivery.projectId d) (Endpoint.projectId e);
              Ok (MkCoords o (Some (Endpoint.projectId e)))
          end
      end
  end.

Definition coordinatesFromParams (organizationId projectId : option string) : result TenantCoordinates :=
  match organizationId, projectId with
  | Some o, _ => Ok (MkCoords o projectId)
  | None, Some p => coordinatesFromAnchor anchor_project p
  | None, None => throw internal_error "This route is guarded by TenantGuard but names no tenant."
  end.

Definition loadOrganization (id : string) : result Organization.t :=
  match organizations db !! id with
  | None => crossTenant
  | Some o =>
      if bool_decide (Organization.status o = OrganizationStatus.deleted) then crossTenant else Ok o
  end.

Definition loadProject (id organizationId : string) : result Project.t :=
  match projects db !! id with
  | None => crossTenant
  | Some p =>
      if negb (bool_decide (Project.organizationId p = organizationId)) then crossTenant
      else if bool_decide (Project.status p = ProjectStatus.deleted) then crossTenant
      else Ok p
  end.

(** The context with what [buildContext] computes beside it. *)
Record Resolved : Type := MkResolved {
  rc : Ctx;
  rc_suspended : bool;
  rc_permissions : list Permission
}.

Definition is_suspended (o : Organization.t) (p : option Project.t) : bool :=
  bool_decide (Organization.status o = OrganizationStatus.suspended)
  || (if p is Some p then bool_decide (Project.status p = ProjectStatus.suspended) else false).

Definition buildContext (user orgId : string) (organization : Organization.t)
    (project : option (string * Project.t)) (membershipId : string) (role : MemberRole) : Resolved :=
  let suspended := is_suspended organization (snd <$> project) in
  let granted := permissionsForRole role in
  {| rc := MkCtx orgId (fst <$> project) membershipId role user;
     rc_suspended := suspended;
     rc_permissions := if suspended then permissionsUnderSuspension granted else granted |}.

(** A claim of the path that the walk does not confirm. *)
Definition contradicts (claim actual : option string) : bool :=
  match claim with
  | Some x => negb (bool_decide (actual = Some x))
  | None => false
  end.

Definition resolve (user : string) (params : Params) (spec : TenantSpec) : result Resolved :=
  let claimedOrganizationId := firstParam params ORGANIZATION_PARAMS in
  let claimedProjectId := firstParam params PROJECT_PARAMS in
  coordinates ← match spec with
                | from_anchor kind param => id ← requiredParam params param; coordinatesFromAnchor kind id
                | from_params => coordinatesFromParams claimedOrganizationId claimedProjectId
                end;
  _ ← (if contradicts claimedOrganizationId (Some (co_org coordinates)) then crossTenant else Ok tt);
  _ ← (if contradicts claimedProjectId (co_project coordinates) then crossTenant else Ok tt);
  match membership_of db (co_org coordinates) user with
  | None => crossTenant
  | Some (membershipId, membership) =>
      organization ← loadOrganization (co_org coordinates);
      project ← match co_project coordinates with
                | Some p => pr ← loadProject p (co_org coordinates); Ok (Some (p, pr))
                | None => Ok None
                end;
      Ok (buildContext user (co_org coordinates) organization project membershipId (Member.role membership))
  end.

(** [TenantGuard.canActivate]: the user is [None] without a session. *)
Definition canActivate (user : option string) (params : Params) (spec : TenantSpec)
    (required : list Permission) : result Resolved :=
  match user with
  | None => throw unauthenticated "Authentication required."
  | Some user =>
      tenantContext ← resolve user params spec;
      let missing := filter (λ p, p ∉ rc_permissions tenantContext) required in
      if bool_decide (missing = []) then Ok tenantContext
      else throw forbidden (if rc_suspended tenantContext
                            then "This tenant is suspended; only read access and billing changes are permitted."
                            else "Your role does not grant the required permissions.")
  end.
End Resolver.

(** ** What resolution establishes *)

(** The resource a route is anchored at belongs to the context's tenant: a
    scoped read would find it. *)
Definition anchored (db : Db) (kind : TenantAnchorKind) (id : string) (c : Ctx) : Prop :=
  match kind with
  | anchor_organization => ctx_org c = id
  | anchor_project => ctx_project c = Some id
  | anchor_endpoint => ∃ r : Endpoint.t, find c db id = Some r
  | anchor_subscription => ∃ r : Subscription.t, find c db id = Some r
  | anchor_apiKey => ∃ r : ApiKey.t, find c db id = Some r
  | anchor_event => ∃ r : Event.t, find c db id = Some r
  | anchor_delivery => ∃ r : Delivery.t, find c db id = Some r
  end.

Lemma agreement_Ok a b u : assertDenormalisedAgreement a b = Ok u → a = b.
Proof. unfold assertDenormalisedAgreement. by case_bool_decide. Qed.

Lemma contradicts_Ok claim actual (u : unit) :
  (if contradicts claim actual then crossTenant else Ok tt) = Ok u →
  ∀ x, claim = Some x → actual = Some x.
Proof. intros H x ->. cbn in H. by case_bool_decide. Qed.

Lemma anchor_visible db kind id co c :
  coordinatesFromAnchor db kind id = Ok co →
  ctx_org c = co_org co → ctx_project c = co_project co → anchored db kind id c.
Proof.
  intros Hco Ho Hp.
  destruct kind; cbn in *; repeat (case_match; [|discriminate]); minv; simplify_eq;
    cbn [co_org co_project] in *; try done;
    repeat match goal with H : assertDenormalisedAgreement _ _ = Ok _ |- _ => apply agreement_Ok in H end;
    eexists; apply find_Some; (split; [eassumption|]); unfold in_tenant; cbn;
    unfold delivery_matches, endpoint_matches, endpoint_project, project_matches, both_match, eqo; cbn;
    repeat match goal with H : endpoints _ !! _ = _ |- _ => rewrite H end; cbn;
    rewrite Hp; repeat rewrite bool_decide_eq_true_2; try done; congruence.
Qed.

Lemma membership_of_Some db o u i m :
  membership_of db o u = Some (i, m) →
  members db !! i = Some m ∧ Member.organizationId m = o ∧ Member.userId m = u.
Proof.
  unfold membership_of. intros Hh.
  assert ((i, m) ∈ map_to_list (filter (λ kv : string * Member.t, is_membership o u kv.2 = true) (members db)))
    as Hin by (destruct (map_to_list _); [done|]; injection Hh as ->; left).
  apply elem_of_map_to_list, map_lookup_filter_Some in Hin as [Hm Hi]. cbn in Hi.
  unfold is_membership in Hi. by bprop.
Qed.

Lemma loadProject_Ok db p o pr :
  loadProject db p o = Ok pr →
  projects db !! p = Some pr ∧ Project.organizationId pr = o ∧ Project.status pr ≠ ProjectStatus.deleted.
Proof.
  unfold loadProject. destruct (projects db !! p) as [q|]; [|done].
  repeat case_bool_decide; cbn; try done. by intros [= <-].
Qed.

Lemma loadOrganization_Ok db o r :
  loadOrganization db o = Ok r → organizations db !! o = Some r ∧ Organization.status r ≠ OrganizationStatus.deleted.
Proof.
  unfold loadOrganization. destruct (organizations db !! o) as [q|]; [|done].
  case_bool_decide; [done|]. by intros [= <-].
Qed.

(** The shape of a successful resolution. *)
Lemma resolve_Ok db user params spec r :
  resolve db user params spec = Ok r →
  ∃ co i m o,
    (∀ kind param, spec = from_anchor kind param →
       ∃ id, params param = Some id ∧ coordinatesFromAnchor db kind id = Ok co)
    ∧ (∀ x, firstParam params ORGANIZATION_PARAMS = Some x → x = co_org co)
    ∧ (∀ x, firstParam params PROJECT_PARAMS = Some x → co_project co = Some x)
    ∧ membership_of db (co_org co) user = Some (i, m)
    ∧ loadOrganization db (co_org co) = Ok o
    ∧ (∀ p, co_project co = Some p → ∃ pr, loadProject db p (co_org co) = Ok pr)
    ∧ rc r = MkCtx (co_org co) (co_project co) i (Member.role m) user
    ∧ rc_permissions r = (if rc_suspended r then permissionsUnderSuspension (permissionsForRole (Member.role m))
                          else permissionsForRole (Member.role m)).
Proof.
  unfold resolve. intros H. apply bind_Ok in H as (co & Hco & H).
  apply bind_Ok in H as (u1 & Ho & H). apply bind_Ok in H as (u2 & Hp & H).
  destruct (membership_of db (co_org co) user) as [[i m]|] eqn:Em; [|done].
  apply bind_Ok in H as (o & Hor & H). apply bind_Ok in H as (p & Hpr & [= <-]).
  exists co, i, m, o. split_and!; try done.
  - intros kind param ->. apply bind_Ok in Hco as (id & Hid & Hco). exists id. split; [|done].
    unfold requiredParam in Hid. destruct (params param) as [[|a s]|]; try done. by injection Hid as <-.
  - intros x Hx. pose proof (contradicts_Ok _ _ _ Ho x Hx). congruence.
  - intros x Hx. by eapply contradicts_Ok.
  - intros q Hq. rewrite Hq in Hpr. apply bind_Ok in Hpr as (pr & Hpr & _). by exists pr.
  - destruct (co_project co) as [q|]; [|by injection Hpr as <-].
    apply bind_Ok in Hpr as (pr & _ & [= <-]). done.
Qed.

(** A guard that passes has resolved the tenant and found nothing missing. *)
Lemma canActivate_Ok db user params spec required r :
  canActivate db (Some user) params spec required = Ok r →
  resolve db user params spec = Ok r ∧ ∀ p, p ∈ required → p ∈ rc_permissions r.
Proof.
  cbn [canActivate]. intros H. apply bind_Ok in H as (r' & Hr & H).
  case_bool_decide as Hmiss; [|done]. injection H as ->. split; [done|]. intros p Hp.
  destruct (decide (p ∈ rc_permissions r)) as [|Hn]; [done|].
  assert (p ∈ filter (λ p, p ∉ rc_permissions r) required) as Hx by by apply list_elem_of_filter.
  rewrite Hmiss in Hx. by apply not_elem_of_nil in Hx.
Qed.

Lemma required_granted db user params spec required r :
  canActivate db (Some user) params spec required = Ok r →
  ∀ p, p ∈ required → roleHasPermission (ctx_role (rc r)) p = true
    ∧ (rc_suspended r = true → isReadPermission p = true ∨ p = billing_write).
Proof.
  intros H p Hp. apply canActivate_Ok in H as [Hr Hin]. specialize (Hin p Hp).
  destruct (resolve_Ok _ _ _ _ _ Hr) as (co & i & m & o & _ & _ & _ & _ & _ & _ & Hrc & Hperm).
  rewrite Hperm in Hin. unfold roleHasPermission. rewrite Hrc. cbn [ctx_role]. rewrite bool_decide_eq_true.
  destruct (rc_suspended r); [|done]. by apply list_elem_of_filter in Hin as [? ?].
Qed.

(** The organization or the project of a context is suspended, by the rows. *)
Definition tenant_suspended (db : Db) (c : Ctx) : Prop :=
  (∃ o, organizations db !! ctx_org c = Some o ∧ Organization.status o = OrganizationStatus.suspended)
  ∨ ∃ p pr, ctx_project c = Some p ∧ projects db !! p = Some pr ∧ Project.status pr = ProjectStatus.suspended.

Lemma resolve_suspended db user params spec r :
  resolve db user params spec = Ok r → rc_suspended r = true ↔ tenant_suspended db (rc r).
Proof.
  unfold resolve. intros H. apply bind_Ok in H as (co & Hco & H).
  apply bind_Ok in H as (u1 & _ & H). apply bind_Ok in H as (u2 & _ & H).
  destruct (membership_of db (co_org co) user) as [[i m]|]; [|done].
  apply bind_Ok in H as (o & Ho & H). apply bind_Ok in H as (p & Hp & [= <-]).
  apply loadOrganization_Ok in Ho as [Ho _]. unfold tenant_suspended, is_suspended.
  cbn [rc ctx_org ctx_project buildContext rc_suspended]. unfold is_suspended. rewrite orb_true_iff, bool_decide_eq_true, Ho.
  destruct (co_project co) as [q|].
  - apply bind_Ok in Hp as (pr & Hpr & [= <-]). apply loadProject_Ok in Hpr as (Hpr & _ & _). cbn. rewrite bool_decide_eq_true.
    naive_solver.
  - injection Hp as <-. cbn. naive_solver.
Qed.

(** The tenant of a context that is not suspended is active. *)
Lemma admitted_tenant db user params spec r : resolve db user params spec = Ok r → ¬ tenant_suspended db (rc r) →
  ∃ m o, members db !! ctx_membership (rc r) = Some m ∧ Member.organizationId m = ctx_org (rc r) ∧ Member.userId m = user
    ∧ Member.role m = ctx_role (rc r) ∧ organizations db !! ctx_org (rc r) = Some o ∧ Organization.status o = OrganizationStatus.active
    ∧ ∀ p, ctx_project (rc r) = Some p → ∃ pr, projects db !! p = Some pr ∧ Project.organizationId pr = ctx_org (rc r)
        ∧ Project.status pr = ProjectStatus.active.
Proof.
  intros Hr Hns. destruct (resolve_Ok _ _ _ _ _ Hr) as (co & i & m & o & _ & _ & _ & Hm & Hor & Hpr & Hrc & _).
  apply membership_of_Some in Hm as (Hmi & Hmo & Hmu). apply loadOrganization_Ok in Hor as [Ho Hnd].
  unfold tenant_suspended in Hns. rewrite Hrc in Hns |- *. cbn in *. exists m, o. split_and!; try done.
  - destruct (Organization.status o) eqn:E; [done| |done]. destruct Hns. left. by exists o.
  - intros p Hp. destruct (Hpr p Hp) as [pr Hl]. apply loadProject_Ok in Hl as (Hl & Hpo & Hpd). exists pr. split_and!; try done.
    destruct (Project.status pr) eqn:E; [done| |done]. destruct Hns. right. by exists p, pr.
Qed.

(** C4. A request reaches a handler only with a context that is the caller's
    own: the caller is a member, with that role, of the organization; neither
    the organization nor the project is deleted, and the project lies in the
    organization, so every statement made with the context is isolated; what
    the path claims is what the ownership chain says; the resource the route is
    anchored at is one the scope can see; every required permission is one the role
    grants; and where the stored organization or project is suspended, every one of
    them is a read or [billing.write]. *)
Theorem guard_sound (db : Db) (user : string) (params : Params) (spec : TenantSpec)
  (required : list Permission) (r : Resolved)
  (Hok : canActivate db (Some user) params spec required = Ok r) :
  let c := rc r in
  ctx_ok c db ∧ ctx_user c = user
  ∧ (∃ m, members db !! ctx_membership c = Some m ∧ Member.organizationId m = ctx_org c
        ∧ Member.userId m = user ∧ Member.role m = ctx_role c)
  ∧ (∃ o, organizations db !! ctx_org c = Some o ∧ Organization.status o ≠ OrganizationStatus.deleted)
  ∧ (∀ p, ctx_project c = Some p → ∃ pr, projects db !! p = Some pr
        ∧ Project.organizationId pr = ctx_org c ∧ Project.status pr ≠ ProjectStatus.deleted)
  ∧ (∀ x, firstParam params ORGANIZATION_PARAMS = Some x → x = ctx_org c)
  ∧ (∀ x, firstParam params PROJECT_PARAMS = Some x → ctx_project c = Some x)
  ∧ (∀ kind param, spec = from_anchor kind param →
       ∃ id, params param = Some id ∧ anchored db kind id c)
  ∧ (∀ p, p ∈ required → roleHasPermission (ctx_role c) p = true
        ∧ (tenant_suspended db c → isReadPermission p = true ∨ p = billing_write)).
Proof.
  cbv zeta. pose proof Hok as Hcan. apply canActivate_Ok in Hok as [Hr _].
  destruct (resolve_Ok _ _ _ _ _ Hr) as (co & i & m & o & Ha & Hco & Hcp & Hm & Hor & Hpr & Hrc & Hperm).
  apply membership_of_Some in Hm as (Hmi & Hmo & Hmu). apply loadOrganization_Ok in Hor.
  assert (∀ p, co_project co = Some p → ∃ pr, projects db !! p = Some pr
            ∧ Project.organizationId pr = co_org co ∧ Project.status pr ≠ ProjectStatus.deleted) as Hproj.
  { intros p [pr ?%loadProject_Ok]%Hpr. by exists pr. }
  rewrite Hrc. split; [|split; [reflexivity|split; [exists m; exact (conj Hmi (conj Hmo (conj Hmu eq_refl)))|
    split; [exists o; exact Hor|split; [exact Hproj|split; [exact Hco|split; [exact Hcp|split]]]]]]].
  - intros p pr Hp Hpr'. destruct (Hproj p Hp) as (pr' & Hl & Ho & _).
    rewrite Hl in Hpr'. injection Hpr' as <-. exact Ho.
  - intros kind param Hs. destruct (Ha kind param Hs) as (id & Hid & Hc). exists id. split; [done|].
    by eapply anchor_visible.
  - intros p Hp. rewrite <- Hrc. destruct (required_granted db user params spec required r Hcan p Hp) as [? Hs].
    split; [done|]. intros Hsus. apply Hs. by eapply resolve_suspended.
Qed.

(** Required relations are there, as the foreign keys guarantee. *)
Record relations_ok (db : Db) : Prop := {
  rel_endpoint i (e : Endpoint.t) : endpoints db !! i = Some e → is_Some (project_org db (Endpoint.projectId e));
  rel_subscription i s : subscriptions db !! i = Some s → is_Some (project_org db (Subscription.projectId s));
  rel_apiKey i k : apiKeys db !! i = Some k → is_Some (project_org db (ApiKey.projectId k));
  rel_event i e : events db !! i = Some e → is_Some (project_org db (Event.projectId e));
  rel_delivery i d : deliveries db !! i = Some d → is_Some (endpoints db !! Delivery.endpointId d)
}.

Lemma project_of_Ok db p : is_Some (project_org db p) → ∃ o, project_of db p = Ok o.
Proof. intros [o E]. exists o. unfold project_of. by rewrite E. Qed.

Lemma anchor_outcome db kind id :
  relations_ok db →
  coordinatesFromAnchor db kind id = crossTenant ∨ ∃ co, coordinatesFromAnchor db kind id = Ok co.
Proof.
  intros Hr. destruct kind; cbn; [eauto|case_match; eauto|..].
  - case_match; [|eauto]. edestruct project_of_Ok as [o ->]; [by eapply rel_endpoint|]. cbn. eauto.
  - case_match; [|eauto]. edestruct project_of_Ok as [o ->]; [by eapply rel_subscription|]. cbn. eauto.
  - case_match; [|eauto]. edestruct project_of_Ok as [o ->]; [by eapply rel_apiKey|]. cbn. eauto.
  - case_match; [|eauto]. edestruct project_of_Ok as [o ->]; [by eapply rel_event|]. cbn.
    unfold assertDenormalisedAgreement. case_bool_decide; cbn; eauto.
  - case_match; [|eauto]. edestruct (rel_delivery db) as [e He]; [done|done|]. rewrite He.
    edestruct project_of_Ok as [o ->]; [by eapply rel_endpoint|]. cbn.
    unfold assertDenormalisedAgreement. repeat (case_bool_decide; cbn); eauto.
Qed.

(** No existence oracle.  For a caller outside the organization that owns
    it, a resource-addressed route gives one answer, the 404 with the one
    message, whatever the id names and whatever the path claims: a resource of
    someone else is indistinguishable from one that does not exist. *)
Theorem no_existence_oracle (db : Db) (user : string) (params : Params) (kind : TenantAnchorKind)
  (param id : string) (required : list Permission)
  (Hrel : relations_ok db) (Hid : params param = Some id) (Hne : id ≠ EmptyString)
  (Hout : ∀ co, coordinatesFromAnchor db kind id = Ok co → membership_of db (co_org co) user = None) :
  canActivate db (Some user) params (from_anchor kind param) required
  = Throw (AppError not_found CROSS_TENANT_MESSAGE).
Proof.
  unfold canActivate, resolve, requiredParam. rewrite Hid. destruct id as [|a s]; [done|]. cbn [mbind result_bind].
  destruct (anchor_outcome db kind (String a s) Hrel) as [->|[co Hco]]; [done|].
  rewrite Hco. cbn [mbind result_bind].
  destruct (contradicts _ (Some _)); [done|]. cbn [mbind result_bind].
  destruct (contradicts _ (co_project co)); [done|]. cbn [mbind result_bind]. by rewrite (Hout co Hco).
Qed.

Definition rs_db : Db :=
  upd_members (λ _, {["m1" := Member.mk "o1" "u1" developer]})
    (upd_organizations (λ _, <["o1" := Organization.mk (js "A") (js "a") OrganizationStatus.active]>
       {["o2" := Organization.mk (js "B") (js "b") OrganizationStatus.active]}) two_orgs).
Definition rs_params (e : string) : Params := λ n, if String.eqb n "endpointId" then Some e else None.

Lemma guard_sound_witness :
  ∃ r, canActivate rs_db (Some "u1") (rs_params "e1") (from_anchor anchor_endpoint "endpointId")
         [endpoints_write] = Ok r ∧ ctx_ok (rc r) rs_db ∧ ctx_role (rc r) = developer.
Proof.
  destruct (canActivate rs_db (Some "u1") (rs_params "e1") (from_anchor anchor_endpoint "endpointId")
              [endpoints_write]) as [r|e] eqn:E.
  - exists r. split; [done|]. split.
    + apply (guard_sound rs_db "u1" (rs_params "e1") (from_anchor anchor_endpoint "endpointId")
               [endpoints_write] r E).
    + vm_compute in E. injection E as <-. reflexivity.
  - vm_compute in E. discriminate E.
Defined.

Lemma rs_relations : relations_ok rs_db.
Proof.
  split; intros i r Hr.
  - apply (map_Forall_lookup_1 (λ _ (e : Endpoint.t), is_Some (project_org rs_db (Endpoint.projectId e)))
      (endpoints rs_db) i r); [|done].
    by apply (bool_decide_eq_true_1 _); vm_compute.
  - vm_compute in Hr. by rewrite ?lookup_empty in Hr; destruct i.
  - by destruct i.
  - by destruct i.
  - by destruct i.
Qed.

Lemma no_existence_oracle_witness :
  canActivate rs_db (Some "u1") (rs_params "e2") (from_anchor anchor_endpoint "endpointId")
    [endpoints_read] = Throw (AppError not_found CROSS_TENANT_MESSAGE).
Proof.
  apply (no_existence_oracle rs_db "u1" (rs_params "e2") anchor_endpoint "endpointId" "e2").
  - exact rs_relations.
  - reflexivity.
  - discriminate.
  - intros co Hco. vm_compute in Hco. injection Hco as <-. vm_compute. reflexivity.
Defined.
