(* ===== verification/RateLimits.v ===== *)
(** Rate-limit policies: rate-limits/rate-limits.service.ts, rate-limit-rules.ts,
    rate-limit-resource.ts and rate-limit-limits.ts.

    A row says how fast something may go; what it covers is its identity: the
    project, the scope and the resource, where a null resource means all of
    them.  Every write is one serialisable transaction. *)
From Stdlib Require Import ZArith Lia QArith.
From S2P Require Import Prelude Js Permissions RetryRules AuditTrail Db Scope.
Open Scope string_scope.

(** ** Settings *)

Definition RATE_LIMIT_limit : bounds := {| bmin := int 1; bmax := int 10000000 |}.
Definition RATE_LIMIT_windowSeconds : bounds := {| bmin := int 1; bmax := int 86400 |}.
Definition RATE_LIMIT_burst : bounds := {| bmin := int 1; bmax := int 10000000 |}.
Definition MAX_RATE_LIMIT_POLICIES_PER_PROJECT : Z := 300.

Record RateLimitSettings : Type := MkSettings {
  limit : num;
  windowSeconds : num;
  burst : option num
}.

(** A settings object before validation: a patch can carry a null. *)
Record Unchecked : Type := MkUnchecked {
  un_limit : option num;
  un_windowSeconds : option num;
  un_burst : option num
}.

(** One round of the loop over [limit] and [windowSeconds]; null is not a
    number. *)
Definition assert_field (value : option num) (b : bounds) : result num :=
  match value with
  | None => throw invalid_request "must be a whole number."
  | Some v =>
      _ ← throw_if (negb (isInteger v)) invalid_request "must be a whole number.";
      _ ← throw_if (num_ltb v (bmin b) || num_gtb v (bmax b)) invalid_request "must be between";
      Ok v
  end.

Definition assertRateLimitSettings (u : Unchecked) : result RateLimitSettings :=
  limit ← assert_field (un_limit u) RATE_LIMIT_limit;
  windowSeconds ← assert_field (un_windowSeconds u) RATE_LIMIT_windowSeconds;
  _ ← match un_burst u with
      | None => Ok tt
      | Some b =>
          _ ← throw_if (negb (isInteger b)) invalid_request
                "burst must be a whole number, or null for no burst allowance.";
          _ ← throw_if (num_ltb b (bmin RATE_LIMIT_burst) || num_gtb b (bmax RATE_LIMIT_burst))
                invalid_request "burst must be between";
          throw_if (num_ltb b limit) invalid_request "burst must be at least limit"
      end;
  Ok (MkSettings limit windowSeconds (un_burst u)).

Definition settingsOf (r : RateLimitPolicy.t) : RateLimitSettings :=
  MkSettings (RateLimitPolicy.limit r) (RateLimitPolicy.windowSeconds r) (RateLimitPolicy.burst r).

(** The outer option of a patch field says whether it is there, the inner one
    whether it is null. *)
Record CreateRateLimitDto : Type := MkCreate {
  cr_scope : RateLimitScope.t;
  cr_resource_id : option string;
  cr_limit : num;
  cr_window_seconds : option num;
  cr_burst : option num
}.
Record UpdateRateLimitDto : Type := MkUpdate {
  up_scope : option (option RateLimitScope.t);
  up_resource_id : option (option string);
  up_limit : option (option num);
  up_window_seconds : option (option num);
  up_burst : option (option num)
}.

(** [{ ...settingsOf(current), ...settingsPatch(dto) }] *)
Definition settingsPatch (current : RateLimitSettings) (dto : UpdateRateLimitDto) : Unchecked := {|
  un_limit := default (Some (limit current)) (up_limit dto);
  un_windowSeconds := default (Some (windowSeconds current)) (up_window_seconds dto);
  un_burst := default (burst current) (up_burst dto)
|}.

(** ** The service *)

Record RateLimitIdentity : Type := MkIdentity {
  id_scope : RateLimitScope.t;
  id_resourceId : option string
}.
#[export] Instance identity_eq_dec : EqDecision RateLimitIdentity.
Proof. solve_decision. Defined.

Definition identity_of (r : RateLimitPolicy.t) : RateLimitIdentity :=
  MkIdentity (RateLimitPolicy.scope r) (RateLimitPolicy.resourceId r).

Definition scope_name (s : RateLimitScope.t) : string :=
  match s with
  | RateLimitScope.organization => "organization"
  | RateLimitScope.project => "project"
  | RateLimitScope.endpoint => "endpoint"
  | RateLimitScope.ingest => "ingest"
  end.

Definition opt_meta (o : option string) : meta := if o is Some i then MStr (js i) else MNull.
Definition opt_num (o : option num) : meta := if o is Some x then MNum x else MNull.

(** [...settings] in an audit row. *)
Definition settings_meta (s : RateLimitSettings) : list (jsstr * meta) :=
  [(js "limit", MNum (limit s)); (js "windowSeconds", MNum (windowSeconds s));
   (js "burst", opt_num (burst s))].

Section Service.
  Context (c : Ctx).

Definition resolveRateLimitResource (s : RateLimitScope.t) (resourceId : option string)
    : M Db (option string) :=
  match resourceId with
  | None => mret None
  | Some id =>
      match s with
      | RateLimitScope.endpoint => _ ← requireById (R:=Endpoint.t) c id; mret (Some id)
      | RateLimitScope.ingest => _ ← requireById (R:=ApiKey.t) c id; mret (Some id)
      | RateLimitScope.project =>
          _ ← requireById (R:=Project.t) c id;
          p ← lift (requireProject c);
          _ ← guardM (negb (bool_decide (id = p))) invalid_request
                "resource_id at project scope must be null or this project's own id";
          mret (Some id)
      | RateLimitScope.organization => _ ← requireById (R:=Organization.t) c id; mret (Some id)
      end
  end.

Definition rl_requireHeadroom : M Db unit :=
  existing ← count (R:=RateLimitPolicy.t) c (λ _ _, true);
  guardM (negb (existing <? MAX_RATE_LIMIT_POLICIES_PER_PROJECT)%Z) limit_exceeded
    "This project already has 300 rate-limit policies, which is the maximum.".

(** [conflictFor] *)
Definition conflict_message : string := "One ceiling per resource: a rate limit covering this already exists.".

Definition requireUnique (identity : RateLimitIdentity) (excludeId : option string) : M Db unit :=
  existing ← findFirst (R:=RateLimitPolicy.t) c (λ i r,
    bool_decide (identity_of r = identity)
    && negb (bool_decide (excludeId = Some i)));
  guardM (bool_decide (is_Some existing)) conflict conflict_message.

(** A unique violation is mapped by its index; anything else is rethrown. *)
Definition mapConflict {A} (write : M Db A) : M Db A := λ db,
  match write db with
  | (Throw e, db') =>
      let ours := if uniqueViolationTarget e is Some target
                  then (includes target "resource_id" || includes target "resourceid")
                       && includes target "scope"
                  else false in
      if ours then (throw conflict conflict_message, db') else (Throw e, db')
  | r => r
  end.

Definition rl_create (dto : CreateRateLimitDto) (id : string) (now : Z) : M Db RateLimitPolicy.t :=
  settings ← lift (assertRateLimitSettings
    (MkUnchecked (Some (cr_limit dto)) (Some (default (int 1) (cr_window_seconds dto))) (cr_burst dto)));
  transact (
    _ ← rl_requireHeadroom;
    resourceId ← resolveRateLimitResource (cr_scope dto) (cr_resource_id dto);
    _ ← requireUnique (MkIdentity (cr_scope dto) resourceId) None;
    created ← mapConflict (create c id (λ t,
      RateLimitPolicy.mk (tc_project t) (cr_scope dto) resourceId
        (limit settings) (windowSeconds settings) (burst settings) now now));
    _ ← recordFor c "rate_limit_policy.created" "rate_limit_policy" (Some id)
          ([(js "scope", MStr (js (scope_name (cr_scope dto)))); (js "target_resource_id", opt_meta resourceId)]
           ++ settings_meta settings);
    mret created).

Definition identityFor (current : RateLimitPolicy.t) (dto : UpdateRateLimitDto) : M Db RateLimitIdentity :=
  let nextScope := default (RateLimitPolicy.scope current) (mjoin (up_scope dto)) in
  let scopeChanged := if up_scope dto is Some s
                      then negb (bool_decide (s = Some (RateLimitPolicy.scope current))) else false in
  _ ← guardM (scopeChanged && bool_decide (up_resource_id dto = None)
              && negb (bool_decide (RateLimitPolicy.resourceId current = None))) invalid_request
        "Changing `scope` while this policy has a `resource_id` requires stating the new resource_id too";
  let requested := default (RateLimitPolicy.resourceId current) (up_resource_id dto) in
  resourceId ← resolveRateLimitResource nextScope requested;
  mret (MkIdentity nextScope resourceId).

(** The columns an update writes. *)
Definition rewritten (identity : RateLimitIdentity) (s : RateLimitSettings) (now : Z)
    (r : RateLimitPolicy.t) : RateLimitPolicy.t :=
  RateLimitPolicy.mk (RateLimitPolicy.projectId r) (id_scope identity) (id_resourceId identity)
    (limit s) (windowSeconds s) (burst s) (RateLimitPolicy.createdAt r) now.

Definition rl_update (policyId : string) (dto : UpdateRateLimitDto) (now : Z) : M Db RateLimitPolicy.t :=
  transact (
    current ← requireById c policyId;
    settings ← lift (assertRateLimitSettings (settingsPatch (settingsOf current) dto));
    identity ← identityFor current dto;
    let identityChanged := negb (bool_decide (identity = identity_of current)) in
    _ ← (if identityChanged then requireUnique identity (Some policyId) else mret tt);
    updated ← mapConflict (updateById_unique c policyId (rewritten identity settings now));
    _ ← recordFor c "rate_limit_policy.updated" "rate_limit_policy" (Some policyId)
          ([(js "scope", MStr (js (scope_name (id_scope identity))));
            (js "target_resource_id", opt_meta (id_resourceId identity));
            (js "identity_changed", MBool identityChanged)] ++ settings_meta settings);
    mret updated).

Definition rl_remove (policyId : string) : M Db unit :=
  transact (
    policy ← requireById (R:=RateLimitPolicy.t) c policyId;
    _ ← deleteById (R:=RateLimitPolicy.t) c policyId;
    recordFor c "rate_limit_policy.deleted" "rate_limit_policy" (Some policyId)
      [(js "scope", MStr (js (scope_name (RateLimitPolicy.scope policy))));
       (js "target_resource_id", opt_meta (RateLimitPolicy.resourceId policy));
       (js "limit", MNum (RateLimitPolicy.limit policy));
       (js "window_seconds", MNum (RateLimitPolicy.windowSeconds policy))]).
End Service.

(** ** What a stored policy looks like *)

(** A whole number between [lo] and [hi]. *)
Definition in_range (lo hi : Z) (x : num) : Prop :=
  ∃ q z, x = Fin q ∧ (q == inject_Z z)%Q ∧ (lo <= z <= hi)%Z.

Record valid_limits (s : RateLimitSettings) : Prop := {
  vl_limit : in_range 1 10000000 (limit s);
  vl_window : in_range 1 86400 (windowSeconds s);
  vl_burst b : burst s = Some b → in_range 1 10000000 b ∧ num_leb (limit s) b = true
}.

Lemma isInteger_Z q : isInteger (Fin q) = true ↔ ∃ z, (q == inject_Z z)%Q.
Proof.
  destruct q as [n d]. unfold isInteger, Qeq. cbn. rewrite Z.eqb_eq. split.
  - intros H. exists (n / Z.pos d)%Z. rewrite (Z.div_mod n (Z.pos d)) at 1 by lia. lia.
  - intros [z E]. rewrite Z.mul_1_r in E. rewrite E. by apply Z.mod_mul.
Qed.

Lemma range_test lo hi q z :
  (q == inject_Z z)%Q →
  num_ltb (Fin q) (int lo) || num_gtb (Fin q) (int hi) = false ↔ (lo <= z <= hi)%Z.
Proof.
  intros E. unfold num_gtb, int. cbn. rewrite orb_false_iff, !negb_false_iff, !Qle_bool_iff, E.
  by rewrite <- !Zle_Qle.
Qed.

Lemma range_checks lo hi x :
  isInteger x = true ∧ num_ltb x (int lo) || num_gtb x (int hi) = false ↔ in_range lo hi x.
Proof.
  split.
  - destruct x as [q| |]; [|by intros [? _]..]. intros [[z Hz]%isInteger_Z Hr].
    exists q, z. split_and!; try done; by apply (range_test lo hi q z).
  - intros (q & z & -> & Hz & Hr). split; [apply isInteger_Z; eauto|by apply (range_test lo hi q z)].
Qed.

Lemma assert_field_Ok v lo hi x :
  assert_field v {| bmin := int lo; bmax := int hi |} = Ok x ↔ v = Some x ∧ in_range lo hi x.
Proof.
  unfold assert_field. destruct v as [v|]; [|split; [done|by intros [? _]]].
  rewrite <- range_checks. cbn [bmin bmax]. split.
  - intros H. minv. injection H as ->. split; [done|]. split; [by apply negb_false_iff|done].
  - intros ([= ->] & Hi & Hr). by rewrite Hi, Hr.
Qed.

(** The lower bound of a range is what the comparison with the limit needs. *)
Lemma range_leb lo hi lo' hi' x y :
  in_range lo hi x → in_range lo' hi' y → num_leb x y = negb (num_ltb y x).
Proof. by intros (q & z & -> & _) (q' & z' & -> & _). Qed.

Lemma assertRateLimitSettings_Ok l w b s :
  assertRateLimitSettings (MkUnchecked l w b) = Ok s
  ↔ l = Some (limit s) ∧ w = Some (windowSeconds s) ∧ b = burst s ∧ valid_limits s.
Proof.
  unfold assertRateLimitSettings. cbn [un_limit un_windowSeconds un_burst]. split.
  - intros H. minv. unfold RATE_LIMIT_limit, RATE_LIMIT_windowSeconds in *.
    apply assert_field_Ok in H0 as [-> Hl]. apply assert_field_Ok in H1 as [-> Hw].
    injection H as <-. split_and!; try done. split; [done..|]. cbn. intros y ->. minv.
    assert (in_range 1 10000000 y) as Hy by (apply range_checks; split; [by apply negb_false_iff|done]).
    split; [done|]. rewrite (range_leb _ _ _ _ _ _ Hl Hy). by rewrite H2.
  - intros (-> & -> & -> & [Hl Hw Hb]). unfold RATE_LIMIT_limit, RATE_LIMIT_windowSeconds.
    rewrite (proj2 (assert_field_Ok _ 1 10000000 _) (conj eq_refl Hl)).
    rewrite (proj2 (assert_field_Ok _ 1 86400 _) (conj eq_refl Hw)). cbn [mbind result_bind].
    destruct (burst s) as [y|] eqn:Eb; [|by destruct s; cbn in *; subst].
    destruct (Hb y eq_refl) as [Hy Hle]. pose proof Hy as [Hi Hr]%range_checks.
    rewrite (range_leb _ _ _ _ _ _ Hl Hy) in Hle. apply negb_true_iff in Hle.
    unfold RATE_LIMIT_burst. cbn [bmin bmax]. rewrite Hi, Hr, Hle. cbn. by destruct s; cbn in *; subst.
Qed.

(** ** The invariant *)

Definition of_project (p : string) (r : RateLimitPolicy.t) : Prop := RateLimitPolicy.projectId r = p.
#[export] Instance of_project_dec p r : Decision (of_project p r).
Proof. unfold of_project. apply _. Defined.

Definition policies_in (p : string) (m : gmap string RateLimitPolicy.t) : nat :=
  size (filter (λ kv : string * RateLimitPolicy.t, of_project p kv.2) m).

(** No second row for the same identity, valid settings, at most 300 rows in a
    project, and a row at project scope names its own project or none. *)
Record limits_ok (m : gmap string RateLimitPolicy.t) : Prop := {
  lo_unique i j r s : m !! i = Some r → m !! j = Some s →
    RateLimitPolicy.projectId r = RateLimitPolicy.projectId s → identity_of r = identity_of s → i = j;
  lo_valid i r : m !! i = Some r → valid_limits (settingsOf r);
  lo_cap p : (policies_in p m <= 300)%nat;
  lo_self i r x : m !! i = Some r → RateLimitPolicy.scope r = RateLimitScope.project →
    RateLimitPolicy.resourceId r = Some x → x = RateLimitPolicy.projectId r
}.

(** Storing [r] under [i], as a new row or over one of the same project. *)
Lemma limits_ok_insert m i r :
  limits_ok m →
  (∀ j s, m !! j = Some s → RateLimitPolicy.projectId s = RateLimitPolicy.projectId r →
     identity_of s = identity_of r → j = i) →
  valid_limits (settingsOf r) →
  ((policies_in (RateLimitPolicy.projectId r) m < 300)%nat
   ∨ ∃ s, m !! i = Some s ∧ RateLimitPolicy.projectId s = RateLimitPolicy.projectId r) →
  (∀ x, RateLimitPolicy.scope r = RateLimitScope.project → RateLimitPolicy.resourceId r = Some x →
     x = RateLimitPolicy.projectId r) →
  limits_ok (<[i := r]> m).
Proof.
  intros [Hu Hv Hc Hs] Hnew Hr Hcap Hself. split.
  - intros j k a b [[<- <-]|[Hj Ha]]%lookup_insert_Some [[<- <-]|[Hk Hb]]%lookup_insert_Some Hp Hi; [done|..].
    + symmetry. by eapply Hnew.
    + by eapply Hnew.
    + by eapply Hu.
  - intros j a [[<- <-]|[Hj Ha]]%lookup_insert_Some; eauto.
  - intros p. destruct (decide (RateLimitPolicy.projectId r = p)) as [Hp|Hp].
    + destruct Hcap as [Hlt|(s & Hs' & Hsp)].
      * unfold policies_in in *. rewrite map_filter_insert_True by done.
        rewrite map_size_insert, Hp in *. case_match; cbn; lia.
      * etrans; [|apply (Hc p)]. apply filter_size_le.
        intros j a [[<- <-]|[Hj Ha]]%lookup_insert_Some Hap; [|eauto].
        exists s. split; [done|]. unfold of_project. congruence.
    + etrans; [|apply (Hc p)]. apply filter_size_le.
      intros j a [[<- <-]|[Hj Ha]]%lookup_insert_Some Hap; [|eauto]. by destruct Hp.
  - intros j a x [[<- <-]|[Hj Ha]]%lookup_insert_Some; eauto.
Qed.

Lemma limits_ok_delete m i : limits_ok m → limits_ok (delete i m).
Proof.
  intros [Hu Hv Hc Hs]. split.
  - intros j k a b [_ Ha]%lookup_delete_Some [_ Hb]%lookup_delete_Some. by eapply Hu.
  - intros j a [_ Ha]%lookup_delete_Some. by eapply Hv.
  - intros p. etrans; [|apply (Hc p)]. apply filter_size_le.
    intros j a [_ Ha]%lookup_delete_Some ?. eauto.
  - intros j a x [_ Ha]%lookup_delete_Some. by eapply Hs.
Qed.

Lemma mapConflict_Ok {A} (w : M Db A) db a db' :
  mapConflict w db = (Ok a, db') → w db = (Ok a, db').
Proof.
  unfold mapConflict. destruct (w db) as [[x|e] s]; [done|].
  destruct (uniqueViolationTarget e); [destruct (_ && _)|]; done.
Qed.

(** A resource an operation accepts is one the tenant's scope can see. *)
Definition resource_owned (c : Ctx) (db : Db) (s : RateLimitScope.t) (resourceId : option string) : Prop :=
  match resourceId with
  | None => True
  | Some id =>
      match s with
      | RateLimitScope.endpoint => ∃ r : Endpoint.t, find c db id = Some r
      | RateLimitScope.ingest => ∃ r : ApiKey.t, find c db id = Some r
      | RateLimitScope.project => ctx_project c = Some id
      | RateLimitScope.organization => id = ctx_org c
      end
  end.

Section proofs.
  Context (c : Ctx) (p : string) (Hp : ctx_project c = Some p).

Lemma rl_in_tenant db i r :
  in_tenant c db i r = bool_decide (RateLimitPolicy.projectId r = p).
Proof.
  unfold in_tenant. cbn. unfold project_matches, eqo. rewrite Hp. apply bool_decide_ext. naive_solver.
Qed.
Lemma rl_find db i r :
  find c db i = Some r ↔ rateLimitPolicies db !! i = Some r ∧ RateLimitPolicy.projectId r = p.
Proof. by rewrite find_Some, rl_in_tenant, bool_decide_eq_true. Qed.

Lemma rl_count db : size (matching (R:=RateLimitPolicy.t) c db (λ _ _, true)) = policies_in p (rateLimitPolicies db).
Proof.
  unfold policies_in, matching. f_equal. apply map_filter_ext. intros i r _. cbn.
  by rewrite rl_in_tenant, andb_true_r, bool_decide_eq_true.
Qed.

Lemma resource_Ok s rid db x db' :
  resolveRateLimitResource c s rid db = (Ok x, db') → x = rid ∧ db' = db ∧ resource_owned c db s rid.
Proof.
  unfold resolveRateLimitResource. destruct rid as [id|]; [|by intros [-> ->]%mret_Ok].
  destruct s; intros H; sinv; cbn.
  - apply find_Some in H0 as [_ Ht]. unfold in_tenant in Ht. cbn in Ht. unfold eqo in Ht. bprop.
    split_and!; congruence.
  - unfold requireProject in H1. rewrite Hp in *. injection H1 as ->. bprop. by subst.
  - split_and!; eauto.
  - split_and!; eauto.
Qed.

Lemma requireUnique_Ok identity ex db u db' :
  requireUnique c identity ex db = (Ok u, db') →
  db' = db ∧ ∀ j s, rateLimitPolicies db !! j = Some s → RateLimitPolicy.projectId s = p →
    identity_of s = identity → ex = Some j.
Proof.
  unfold requireUnique. intros H. sinv. subst. split; [done|]. bprop.
  intros j s Hj Hs Hi. destruct (decide (ex = Some j)) as [|Hne]; [done|]. exfalso.
  destruct (head _) eqn:Eh; [naive_solver|]. apply matching_empty in Eh.
  assert (matching (R:=RateLimitPolicy.t) c db (λ i r, bool_decide (identity_of r = identity)
            && negb (bool_decide (ex = Some i))) !! j = Some s) as Hm.
  { apply matching_lookup. split; [done|].
    rewrite rl_in_tenant, !bool_decide_eq_true_2, bool_decide_eq_false_2 by done. done. }
  by rewrite Eh in Hm.
Qed.

(** What a committed write has established. *)
Definition stored (id : string) (r : RateLimitPolicy.t) (db db' : Db) : Prop :=
  RateLimitPolicy.projectId r = p
  ∧ valid_limits (settingsOf r)
  ∧ resource_owned c db (RateLimitPolicy.scope r) (RateLimitPolicy.resourceId r)
  ∧ (∀ j s, rateLimitPolicies db !! j = Some s → RateLimitPolicy.projectId s = p →
       identity_of s = identity_of r → j = id)
  ∧ rateLimitPolicies db' = <[id := r]> (rateLimitPolicies db).

Lemma rl_create_Ok dto id now db r db' :
  rl_create c dto id now db = (Ok r, db') →
  stored id r db db' ∧ identity_of r = MkIdentity (cr_scope dto) (cr_resource_id dto)
  ∧ rateLimitPolicies db !! id = None ∧ (policies_in p (rateLimitPolicies db) < 300)%nat.
Proof.
  unfold rl_create, rl_requireHeadroom. intros Hr. sinv.
  apply resource_Ok in H1 as (-> & -> & Hown). apply requireUnique_Ok in H2 as (-> & Huniq).
  apply mapConflict_Ok in H3. sinv. cbn in H1. unfold requireProject in H1. rewrite Hp in H1.
  injection H1 as <-. apply assertRateLimitSettings_Ok in H as (Hl & Hw & Hb & Hv).
  bprop. subst. rewrite rl_count in *. unfold MAX_RATE_LIMIT_POLICIES_PER_PROJECT in *.
  split_and!; try done; [|lia]. split_and!; try done; [by destruct x|].
  intros j s Hj Hs Hi. by specialize (Huniq j s Hj Hs Hi).
Qed.

Lemma identityFor_Ok current dto db i db' :
  identityFor c current dto db = (Ok i, db') → db' = db ∧ resource_owned c db (id_scope i) (id_resourceId i).
Proof.
  unfold identityFor. intros H. sinv. apply resource_Ok in H1 as (-> & -> & Hown). by subst.
Qed.

(** An update rewrites a row of the project and keeps its project. *)
Lemma rl_update_Ok id dto now db r db' :
  limits_ok (rateLimitPolicies db) → rl_update c id dto now db = (Ok r, db') →
  stored id r db db' ∧ ∃ s, rateLimitPolicies db !! id = Some s ∧ RateLimitPolicy.projectId s = p.
Proof.
  intros Hok. unfold rl_update. intros Hr. sinv. apply identityFor_Ok in H1 as (-> & Hown).
  apply mapConflict_Ok, updateById_unique_Ok in H3 as (r0 & Hf & -> & _ & ->).
  assert (x6 = db ∧ ∀ j s, rateLimitPolicies db !! j = Some s → RateLimitPolicy.projectId s = p →
            identity_of s = x3 → j = id) as [-> Huniq].
  { apply rl_find in H as [Hx Hxp]. case_bool_decide as Hi; cbn in H2.
    - sinv. split; [done|]. intros j s Hj Hs His. eapply (lo_unique _ Hok); [done..|congruence|congruence].
    - apply requireUnique_Ok in H2 as (-> & Huniq). split; [done|]. intros j s Hj Hs His.
      specialize (Huniq j s Hj Hs His). congruence. }
  rewrite (update_rows_key _ _ _ _ _ Hf). apply rl_find in Hf as [Hf Hfp].
  apply assertRateLimitSettings_Ok in H0 as (_ & _ & _ & Hv). subst.
  split; [|by exists r0]. split_and!; try done; try by destruct x1. by destruct x3.
Qed.
End proofs.

(** ** Reachable states *)

(** One request against the service; it commits or it throws. *)
Inductive rl_step : Db → Db → Prop :=
| rl_step_create c p dto id now db : ctx_project c = Some p → rl_step db (rl_create c dto id now db).2
| rl_step_update c p id dto now db : ctx_project c = Some p → rl_step db (rl_update c id dto now db).2
| rl_step_remove c p id db : ctx_project c = Some p → rl_step db (rl_remove c id db).2
(* anything else that does not write the table *)
| rl_step_other db db' : rateLimitPolicies db' = rateLimitPolicies db → rl_step db db'.

Lemma stored_ok c p id r db db' :
  ctx_project c = Some p → limits_ok (rateLimitPolicies db) → stored c p id r db db' →
  ((policies_in p (rateLimitPolicies db) < 300)%nat
   ∨ ∃ s, rateLimitPolicies db !! id = Some s ∧ RateLimitPolicy.projectId s = p) →
  limits_ok (rateLimitPolicies db').
Proof.
  intros Hp Hok (Hr & Hv & Hown & Hu & ->) Hcap. apply limits_ok_insert; rewrite ?Hr; try done.
  intros x Hs Hx. unfold resource_owned in Hown. rewrite Hs, Hx in Hown. congruence.
Qed.

Lemma rl_step_ok db db' :
  limits_ok (rateLimitPolicies db) → rl_step db db' → limits_ok (rateLimitPolicies db').
Proof.
  intros Hok Hs. destruct Hs as [c p dto id now db Hp|c p id dto now db Hp|c p id db Hp|db db' ->]; [..|done];
    apply (atomic_inv (λ db, limits_ok (rateLimitPolicies db))); try done.
  - apply atomic_lift. intros s. apply atomic_transact.
  - intros r db' Hr. apply (rl_create_Ok c p Hp) in Hr as (Hst & _ & _ & Hcap). eapply stored_ok; eauto.
  - apply atomic_transact.
  - intros r db' Hr. apply (rl_update_Ok c p Hp) in Hr as (Hst & Hs); [|done]. eapply stored_ok; eauto.
  - apply atomic_transact.
  - intros u db' Hr. unfold rl_remove in Hr. sinv. cbn. by apply limits_ok_delete.
Qed.

(** Through any sequence of requests, by anyone, committed or refused: a
    project has at most one policy for a scope and resource, the null resource
    included; every stored policy has a whole limit and window in range and a
    burst that can hold one window; a project has at most 300 policies; and at
    project scope a policy names its own project or none. *)
Theorem reachable_rate_limits (db db' : Db)
  (Hok : limits_ok (rateLimitPolicies db)) (Hs : star rl_step db db') :
  (∀ i j r s, rateLimitPolicies db' !! i = Some r → rateLimitPolicies db' !! j = Some s →
     RateLimitPolicy.projectId r = RateLimitPolicy.projectId s →
     RateLimitPolicy.scope r = RateLimitPolicy.scope s →
     RateLimitPolicy.resourceId r = RateLimitPolicy.resourceId s → i = j)
  ∧ (∀ i r, rateLimitPolicies db' !! i = Some r →
       in_range 1 10000000 (RateLimitPolicy.limit r)
       ∧ in_range 1 86400 (RateLimitPolicy.windowSeconds r)
       ∧ ∀ b, RateLimitPolicy.burst r = Some b →
           in_range 1 10000000 b ∧ num_leb (RateLimitPolicy.limit r) b = true)
  ∧ (∀ p, (policies_in p (rateLimitPolicies db') <= 300)%nat)
  ∧ (∀ i r x, rateLimitPolicies db' !! i = Some r → RateLimitPolicy.scope r = RateLimitScope.project →
       RateLimitPolicy.resourceId r = Some x → x = RateLimitPolicy.projectId r).
Proof.
  apply (star_invariant rl_step (λ db, limits_ok (rateLimitPolicies db)) rl_step_ok) in Hs as [Hu Hv Hc Hx];
    [|done].
  split; [|split; [|done]].
  - intros i j r s Hi Hj Hp Hsc Hr. eapply Hu; [done..|]. unfold identity_of. congruence.
  - intros i r Hi. destruct (Hv i r Hi) as [Hl Hw Hb]. done.
Qed.

Lemma unique_violation_false db (r : RateLimitPolicy.t) :
  (∀ j s, rateLimitPolicies db !! j = Some s → RateLimitPolicy.projectId s = RateLimitPolicy.projectId r →
     identity_of s ≠ identity_of r) → unique_violation db r = false.
Proof.
  intros Hn. cbn. apply exists_row_false. intros j s Hj. apply bool_decide_eq_false.
  intros (Hp & Hs & Hr). apply (Hn j s Hj Hp). unfold identity_of. congruence.
Qed.

(** The check inside the transaction decides. *)
Lemma requireUnique_run c p identity db (Hp : ctx_project c = Some p) :
  requireUnique c identity None db
  = (if bool_decide (map_Exists (λ _ s, RateLimitPolicy.projectId s = p ∧ identity_of s = identity)
                       (rateLimitPolicies db))
     then throw conflict conflict_message else Ok tt, db).
Proof.
  unfold requireUnique, mbind, M_bind, findFirst, gets, guardM, lift. f_equal.
  destruct (head _) as [[j s]|] eqn:Eh.
  - apply matching_head, matching_lookup in Eh as (Hj & Ht & Hi). cbn in *.
    rewrite (rl_in_tenant c p Hp) in Ht. bprop.
    rewrite (bool_decide_eq_true_2 (map_Exists _ _)); [done|]. by exists j, s.
  - apply matching_empty in Eh. rewrite (bool_decide_eq_false_2 (is_Some None)) by by intros [].
    rewrite (bool_decide_eq_false_2 (map_Exists _ _)); [done|].
    intros (j & s & Hj & Hs & Hi).
    assert ((∅ : gmap string RateLimitPolicy.t) !! j = Some s) as Hm; [|by rewrite lookup_empty in Hm].
    rewrite <- Eh. apply matching_lookup. split; [done|].
    rewrite (rl_in_tenant c p Hp), !bool_decide_eq_true_2, bool_decide_eq_false_2 by done. done.
Qed.

(** The verdict of a create whose settings are valid, whose resource
    resolves and that finds room.  When some policy of the project has the same
    scope and resource, the answer is the 409 and nothing is written; when none
    has, the policy is stored, and nothing but its row and the audit entry
    changes: the unique index is never what refuses, so its error never
    reaches the caller. *)
Theorem create_verdict (c : Ctx) (p : string) (dto : CreateRateLimitDto) (id : string) (now : Z) (db : Db)
  (s : RateLimitSettings)
  (Hp : ctx_project c = Some p) (Hid : rateLimitPolicies db !! id = None)
  (Hs : assertRateLimitSettings (MkUnchecked (Some (cr_limit dto))
          (Some (default (int 1) (cr_window_seconds dto))) (cr_burst dto)) = Ok s)
  (Hroom : (policies_in p (rateLimitPolicies db) < 300)%nat)
  (Hres : resolveRateLimitResource c (cr_scope dto) (cr_resource_id dto) db = (Ok (cr_resource_id dto), db)) :
  let taken := map_Exists (λ _ r, RateLimitPolicy.projectId r = p
                 ∧ RateLimitPolicy.scope r = cr_scope dto
                 ∧ RateLimitPolicy.resourceId r = cr_resource_id dto) (rateLimitPolicies db) in
  let row := RateLimitPolicy.mk p (cr_scope dto) (cr_resource_id dto)
               (limit s) (windowSeconds s) (burst s) now now in
  (taken → rl_create c dto id now db = (Throw (AppError conflict conflict_message), db))
  ∧ (¬ taken → ∃ f, rl_create c dto id now db
                    = (Ok row, upd_auditLogs f (upd_rateLimitPolicies (<[id := row]>) db))).
Proof.
  cbv zeta. set (identity := MkIdentity (cr_scope dto) (cr_resource_id dto)).
  assert (rl_requireHeadroom c db = (Ok tt, db)) as Hroom'.
  { unfold rl_requireHeadroom, mbind, M_bind, count, gets. rewrite (rl_count c p Hp).
    unfold MAX_RATE_LIMIT_POLICIES_PER_PROJECT, guardM, lift, throw_if. rewrite (proj2 (Z.ltb_lt _ _)); [done|lia]. }
  unfold rl_create, mbind, M_bind, transact. cbn [lift]. rewrite Hs, Hroom', Hres. fold identity.
  rewrite (requireUnique_run c p _ _ Hp). split.
  - intros (j & r & Hj & Hr & Hsc & Hx). rewrite bool_decide_eq_true_2; [done|].
    exists j, r. unfold identity_of. subst identity. split_and!; [done..|]. congruence.
  - intros Hn. assert (∀ j r, rateLimitPolicies db !! j = Some r → RateLimitPolicy.projectId r = p →
                         identity_of r ≠ identity) as Hn'.
    { intros j r Hj Hr Hi. apply Hn. exists j, r. by injection Hi as ? ?. }
    rewrite bool_decide_eq_false_2.
    2:{ intros (j & r & Hj & Hr & Hi). by eapply Hn'. }
    unfold mapConflict. erewrite (proj2 (create_Ok c id _ db _ _)).
    2:{ exists {| tc_org := ctx_org c; tc_project := p |}. split_and!; try done.
        - cbn. unfold requireProject. by rewrite Hp.
        - apply unique_violation_false. intros j r Hj Hr. by apply (Hn' j r). }
    unfold recordFor, modify. eexists. reflexivity.
Qed.

(** A committed create or update stores its policy in the caller's project
    and leaves every other policy alone; the resource the policy names is an
    endpoint or an API key the caller's scope can see, the caller's own project
    or the caller's own organization, according to its scope. *)
Theorem targets_own_tenant (c : Ctx) (p id : string) (r : RateLimitPolicy.t) (db db' : Db)
  (Hp : ctx_project c = Some p) (Hok : limits_ok (rateLimitPolicies db))
  (Hcommit : (∃ dto now, rl_create c dto id now db = (Ok r, db'))
             ∨ ∃ dto now, rl_update c id dto now db = (Ok r, db')) :
  rateLimitPolicies db' !! id = Some r ∧ RateLimitPolicy.projectId r = p
  ∧ (∀ j, j ≠ id → rateLimitPolicies db' !! j = rateLimitPolicies db !! j)
  ∧ ∀ x, RateLimitPolicy.resourceId r = Some x →
      match RateLimitPolicy.scope r with
      | RateLimitScope.endpoint => ∃ e : Endpoint.t, find c db x = Some e
      | RateLimitScope.ingest => ∃ k : ApiKey.t, find c db x = Some k
      | RateLimitScope.project => x = p
      | RateLimitScope.organization => x = ctx_org c
      end.
Proof.
  assert (stored c p id r db db') as (Hr & _ & Hown & _ & ->).
  { destruct Hcommit as [(dto & now & H)|(dto & now & H)].
    - by apply (rl_create_Ok c p Hp) in H as [? _].
    - by apply (rl_update_Ok c p Hp) in H as [? _]. }
  split; [by rewrite lookup_insert_eq|]. split; [done|]. split.
  - intros j Hj. by rewrite lookup_insert_ne.
  - intros x Hx. rewrite Hx in Hown. unfold resource_owned in Hown.
    destruct (RateLimitPolicy.scope r); try done. congruence.
Qed.

(** ** Witnesses *)

Definition rl_ctx : Ctx := MkCtx "o1" (Some "p1") "m1" admin "u1".
Definition rl_dto (s : RateLimitScope.t) (x : option string) : CreateRateLimitDto :=
  MkCreate s x (int 10) None (Some (int 20)).
(** An endpoint's limit, a refused duplicate, and an update to the null resource. *)
Definition rl_db : Db :=
  (rl_update rl_ctx "a" (MkUpdate None (Some None) None None None) 3
    (rl_create rl_ctx (rl_dto RateLimitScope.endpoint (Some "e1")) "b" 2
      (rl_create rl_ctx (rl_dto RateLimitScope.endpoint (Some "e1")) "a" 1 two_orgs).2).2).2.

Lemma limits_ok_empty : limits_ok ∅.
Proof.
  split; [..|intros p; unfold policies_in; rewrite map_filter_empty, map_size_empty; lia|];
    intros; simplify_map_eq.
Qed.

Lemma reachable_rate_limits_witness :
  rateLimitPolicies rl_db !! "b" = None
  ∧ ∃ r, rateLimitPolicies rl_db !! "a" = Some r ∧ RateLimitPolicy.resourceId r = None
       ∧ in_range 1 10000000 (RateLimitPolicy.limit r).
Proof.
  split; [vm_compute; reflexivity|].
  assert (star rl_step two_orgs rl_db) as Hs.
  { eapply star_step; [by apply (rl_step_create rl_ctx "p1" (rl_dto RateLimitScope.endpoint (Some "e1")) "a" 1)|].
    eapply star_step; [by apply (rl_step_create rl_ctx "p1" (rl_dto RateLimitScope.endpoint (Some "e1")) "b" 2)|].
    eapply star_step; [by apply (rl_step_update rl_ctx "p1" "a" (MkUpdate None (Some None) None None None) 3)|].
    apply star_refl. }
  destruct (reachable_rate_limits two_orgs rl_db limits_ok_empty Hs) as (_ & Hv & _).
  destruct (rateLimitPolicies rl_db !! "a") as [r|] eqn:E; [|vm_compute in E; discriminate E].
  exists r. split; [reflexivity|]. split; [vm_compute in E; by injection E as <-|].
  exact (proj1 (Hv "a" r E)).
Defined.

Lemma create_verdict_witness :
  (rl_create rl_ctx (rl_dto RateLimitScope.endpoint None) "z" 9 rl_db).1
  = Throw (AppError conflict conflict_message).
Proof.
  destruct (create_verdict rl_ctx "p1" (rl_dto RateLimitScope.endpoint None) "z" 9 rl_db
              (MkSettings (int 10) (int 1) (Some (int 20)))) as [Hc _].
  - reflexivity.
  - vm_compute; reflexivity.
  - reflexivity.
  - apply Nat.ltb_lt. vm_compute. reflexivity.
  - reflexivity.
  - rewrite Hc; [reflexivity|]. destruct (rateLimitPolicies rl_db !! "a") as [r|] eqn:E;
      [|vm_compute in E; discriminate E].
    exists "a", r. split; [exact E|]. vm_compute in E. by injection E as <-.
Defined.

Lemma targets_own_tenant_witness :
  let db := (rl_create rl_ctx (rl_dto RateLimitScope.endpoint (Some "e1")) "a" 1 two_orgs).2 in
  (∃ r, rateLimitPolicies db !! "a" = Some r ∧ RateLimitPolicy.projectId r = "p1"
      ∧ ∃ e : Endpoint.t, find rl_ctx two_orgs "e1" = Some e)
  ∧ (rl_create rl_ctx (rl_dto RateLimitScope.endpoint (Some "e2")) "a" 1 two_orgs).1
    = Throw (AppError not_found CROSS_TENANT_MESSAGE).
Proof.
  split; [|vm_compute; reflexivity].
  destruct (rl_create rl_ctx (rl_dto RateLimitScope.endpoint (Some "e1")) "a" 1 two_orgs)
    as [[r|e] db] eqn:E; [|vm_compute in E; discriminate E]. exists r.
  destruct (targets_own_tenant rl_ctx "p1" "a" r two_orgs db eq_refl limits_ok_empty) as (H1 & H2 & _ & H3).
  { left. by exists (rl_dto RateLimitScope.endpoint (Some "e1")), 1%Z. }
  split; [exact H1|]. split; [exact H2|].
  assert (r = RateLimitPolicy.mk "p1" RateLimitScope.endpoint (Some "e1") (int 10) (int 1) (Some (int 20)) 1 1)
    as -> by (vm_compute in E; by injection E as <- _).
  exact (H3 "e1" eq_refl).
Defined.

(** Uniqueness is by value, not by coverage: at project scope a null resource
    and the project's own id cover the same thing, and both can be stored. *)
Example two_project_rows :
  let db1 := (rl_create rl_ctx (rl_dto RateLimitScope.project None) "a" 1 two_orgs).2 in
  let r2 := rl_create rl_ctx (rl_dto RateLimitScope.project (Some "p1")) "b" 2 db1 in
  is_ok r2.1 = true
  ∧ RateLimitPolicy.resourceId <$> rateLimitPolicies r2.2 !! "a" = Some None
  ∧ RateLimitPolicy.resourceId <$> rateLimitPolicies r2.2 !! "b" = Some (Some "p1").
Proof. vm_compute. repeat split. Qed.
