(* ===== verification/Subscriptions.v ===== *)
(** Webhook subscriptions, which endpoint receives which events:
    webhook-subscriptions/webhook-subscriptions.service.ts and not-found.ts.

    The validators of patterns and filters are EventTypes and PayloadFilter; here
    is what becomes of a list they accept.  Every write is one serialisable
    transaction with its audit entry. *)
From Stdlib Require Import ZArith Lia QArith.
From S2P Require Import Prelude Js EventTypes PayloadFilter Permissions RetryRules Limits AuditTrail Db Scope.

(** ** Requests *)

(** The fields as they reach the service; an absent one is [JUndefined], and the
    outer option of [name] says whether it is there. *)
Record CreateSubscriptionDto : Type := MkCreateSub {
  cs_name : option jsstr;
  cs_endpoint_id : string;
  cs_event_types : jsval;
  cs_payload_filter : jsval;
  cs_enabled : option bool
}.
Record UpdateSubscriptionDto : Type := MkUpdateSub {
  us_name : option (option jsstr);
  us_endpoint_id : option string;
  us_event_types : jsval;
  us_payload_filter : jsval
}.

Definition assertEventTypes (value : jsval) : result unit :=
  throw_if (bool_decide (is_Some (rejectEventTypes value))) invalid_request "event_types".
Definition assertPayloadFilter (value : jsval) : result unit :=
  throw_if (bool_decide (is_Some (rejectPayloadFilter value))) invalid_request "payload_filter".

(** [[...event_types]]: an accepted list holds only strings. *)
Definition strings_of (value : jsval) : list jsstr :=
  match value with
  | JArr l => omap (λ v, if v is JStr s then Some s else None) l
  | _ => []
  end.

(** SQL NULL is [None]. *)
Definition filterColumn (filter : jsval) : option jsval :=
  match filter with JNull | JUndefined => None | _ => Some filter end.

Definition is_undefined (v : jsval) : bool := if v is JUndefined then true else false.

(** The columns a patch reaches. *)
Record SubscriptionColumns : Type := MkColumns {
  sc_name : option (option jsstr);
  sc_endpointId : option string;
  sc_eventTypes : option (list jsstr);
  sc_payloadFilter : option (option jsval)
}.
Definition is_given {A} (name : string) (o : option A) : list jsstr :=
  if o is Some _ then [js name] else [].
(** [Object.keys(data).sort()] *)
Definition data_keys (d : SubscriptionColumns) : list jsstr :=
  is_given "endpointId" (sc_endpointId d) ++ is_given "eventTypes" (sc_eventTypes d)
  ++ is_given "name" (sc_name d) ++ is_given "payloadFilter" (sc_payloadFilter d).

Definition columns_of (dto : UpdateSubscriptionDto) : SubscriptionColumns := {|
  sc_name := us_name dto;
  sc_endpointId := us_endpoint_id dto;
  sc_eventTypes := if is_undefined (us_event_types dto) then None
                   else Some (strings_of (us_event_types dto));
  sc_payloadFilter := if is_undefined (us_payload_filter dto) then None
                      else Some (filterColumn (us_payload_filter dto))
|}.

Definition write_columns (d : SubscriptionColumns) (now : Z) (s : Subscription.t) : Subscription.t :=
  Subscription.mk (Subscription.projectId s)
    (default (Subscription.endpointId s) (sc_endpointId d))
    (default (Subscription.name s) (sc_name d))
    (default (Subscription.eventTypes s) (sc_eventTypes d))
    (default (Subscription.payloadFilter s) (sc_payloadFilter d))
    (Subscription.enabled s) (Subscription.createdAt s) now.

(** ** Metadata *)

(** The value of a finite number, from its decimal form. *)
Definition num_of (x : jsnum) : num :=
  match x with
  | NFin neg s n =>
      let q := (inject_Z (Z.of_N s) * Qpower (inject_Z 10) (n - jslen (digits s)))%Q in
      Fin (if neg then (- q)%Q else q)
  | NNaN => NaN
  | NInf neg => Inf neg
  end.

(** A JSON value as metadata; a JSON column holds no undefined. *)
Fixpoint meta_of (v : jsval) : meta :=
  match v with
  | JUndefined | JNull => MNull
  | JBool b => MBool b
  | JNum x => MNum (num_of x)
  | JStr s => MStr s
  | JArr l => MArr (map meta_of l)
  | JObj l => MObj (map (λ kv, (kv.1, meta_of kv.2)) l)
  end.

Definition types_meta (l : list jsstr) : meta := MArr (map MStr l).
Definition name_meta (n : option jsstr) : meta := if n is Some s then MStr s else MNull.

(** ** The service *)

Section Service.
  Context (c : Ctx) (ceiling : Z).

Definition withCrossTenantNotFound {A} (work : M Db A) : M Db A := λ db,
  match work db with
  | (Throw (AppError not_found _), db') => (throw not_found CROSS_TENANT_MESSAGE, db')
  | r => r
  end.

(** [require] *)
Definition requireSubscription (id : string) : M Db Subscription.t := requireById c id.

Definition requireEndpoint (endpointId : string) : M Db Endpoint.t :=
  endpoint ← requireById c endpointId;
  _ ← guardM (bool_decide (Endpoint.status endpoint = EndpointStatus.deleted)) conflict
        "That endpoint has been deleted, so a subscription pointed at it could never deliver.";
  mret endpoint.

Definition requireHeadroom : M Db unit :=
  existing ← count (R:=Subscription.t) c (λ _ _, true);
  guardM (negb (existing <? ceiling)%Z) limit_exceeded "This project is at its limit of subscriptions.".

Definition sub_create (dto : CreateSubscriptionDto) (id : string) (now : Z) : M Db Subscription.t :=
  _ ← lift (assertEventTypes (cs_event_types dto));
  _ ← lift (assertPayloadFilter (cs_payload_filter dto));
  withCrossTenantNotFound (transact (
    _ ← requireEndpoint (cs_endpoint_id dto);
    _ ← requireHeadroom;
    created ← create c id (λ t, Subscription.mk (tc_project t) (cs_endpoint_id dto) (cs_name dto)
      (strings_of (cs_event_types dto)) (filterColumn (cs_payload_filter dto))
      (default true (cs_enabled dto)) now now);
    _ ← recordFor c "subscription.created" "subscription" (Some id)
          [(js "endpoint_id", MStr (js (Subscription.endpointId created)));
           (js "name", name_meta (Subscription.name created));
           (js "event_types", types_meta (Subscription.eventTypes created));
           (js "has_payload_filter", MBool (bool_decide (is_Some (Subscription.payloadFilter created))));
           (js "enabled", MBool (Subscription.enabled created))];
    mret created)).

(** The metadata of an update. *)
Definition update_metadata (data : SubscriptionColumns) (current updated : Subscription.t)
    : list (jsstr * meta) :=
  [(js "fields", types_meta (data_keys data))]
  ++ (if sc_eventTypes data is Some _
      then [(js "event_types_from", types_meta (Subscription.eventTypes current));
            (js "event_types_to", types_meta (Subscription.eventTypes updated))] else [])
  ++ (if sc_endpointId data is Some _ then
        if bool_decide (Subscription.endpointId current = Subscription.endpointId updated) then []
        else [(js "endpoint_id_from", MStr (js (Subscription.endpointId current)));
              (js "endpoint_id_to", MStr (js (Subscription.endpointId updated)))]
      else [])
  ++ (if sc_payloadFilter data is Some _
      then [(js "has_payload_filter", MBool (bool_decide (is_Some (Subscription.payloadFilter updated))))]
      else []).

Definition sub_update (id : string) (dto : UpdateSubscriptionDto) (now : Z) : M Db Subscription.t :=
  _ ← lift (if is_undefined (us_event_types dto) then Ok tt else assertEventTypes (us_event_types dto));
  _ ← lift (if is_undefined (us_payload_filter dto) then Ok tt
            else assertPayloadFilter (us_payload_filter dto));
  withCrossTenantNotFound (transact (
    current ← requireSubscription id;
    let data := columns_of dto in
    _ ← (if us_endpoint_id dto is Some e then _ ← requireEndpoint e; mret tt else mret tt);
    if bool_decide (data_keys data = []) then mret current
    else
      (* the foreign-key check of updateById *)
      _ ← (if sc_endpointId data is Some e
           then _ ← requireById (R:=Endpoint.t) c e; mret tt else mret tt);
      updated ← updateById c id (write_columns data now);
      _ ← recordFor c "subscription.updated" "subscription" (Some id) (update_metadata data current updated);
      mret updated)).

Definition setEnabled (id : string) (enabled : bool) (reason : option jsstr) (now : Z) : M Db Subscription.t :=
  withCrossTenantNotFound (transact (
    current ← requireSubscription id;
    if Bool.eqb (Subscription.enabled current) enabled then mret current
    else
      updated ← updateById c id (λ s, Subscription.set_updatedAt now (Subscription.set_enabled enabled s));
      _ ← recordFor c (if enabled then "subscription.enabled" else "subscription.disabled")
            "subscription" (Some id)
            [(js "endpoint_id", MStr (js (Subscription.endpointId current)));
             (js "event_types", types_meta (Subscription.eventTypes current));
             (js "reason", name_meta reason)];
      mret updated)).

Definition sub_enable (id : string) (now : Z) : M Db Subscription.t := setEnabled id true None now.
Definition sub_disable (id : string) (reason : option jsstr) (now : Z) : M Db Subscription.t :=
  setEnabled id false reason now.

(** The whole rule, on its way out. *)
Definition rule_metadata (s : Subscription.t) : list (jsstr * meta) :=
  [(js "hard_delete", MBool true);
   (js "endpoint_id", MStr (js (Subscription.endpointId s)));
   (js "name", name_meta (Subscription.name s));
   (js "event_types", types_meta (Subscription.eventTypes s));
   (js "payload_filter", if Subscription.payloadFilter s is Some f then meta_of f else MNull);
   (js "enabled", MBool (Subscription.enabled s))].

Definition sub_remove (id : string) : M Db unit :=
  withCrossTenantNotFound (transact (
    current ← findById c id;
    match current with
    | None => mret tt
    | Some current =>
        _ ← deleteById (R:=Subscription.t) c id;
        recordFor c "subscription.deleted" "subscription" (Some id) (rule_metadata current)
    end)).
End Service.

(** ** Runs *)

Lemma withCross_Ok {A} (m : M Db A) db a db' :
  withCrossTenantNotFound m db = (Ok a, db') → m db = (Ok a, db').
Proof. unfold withCrossTenantNotFound. by destruct (m db) as [[|[[] ?]] ?]. Qed.
Lemma withCross_atomic {A} (m : M Db A) : Atomic m → Atomic (withCrossTenantNotFound m).
Proof.
  intros Ha s e s'. unfold withCrossTenantNotFound. destruct (m s) as [r s1] eqn:E.
  intros H. assert (∃ e0, r = Throw e0 ∧ s1 = s') as (e0 & -> & ->).
  { destruct r as [|[[] ?]]; naive_solver. }
  by eapply Ha.
Qed.

(** An accepted value is a list of strings, and the stored copy is that list. *)
Lemma assertEventTypes_Ok v u :
  assertEventTypes v = Ok u →
  v = JArr (JStr <$> strings_of v) ∧ rejectEventTypes (JArr (JStr <$> strings_of v)) = None.
Proof.
  intros Hn%throw_if_Ok. assert (rejectEventTypes v = None) as Ha.
  { apply eq_None_not_Some. by bprop. }
  pose proof Ha as (ps & -> & _)%rejectEventTypes_None.
  assert (strings_of (JArr (JStr <$> ps)) = ps) as ->; [|done].
  cbn. clear. induction ps; cbn; congruence.
Qed.

Lemma assertPayloadFilter_Ok v u f :
  assertPayloadFilter v = Ok u → filterColumn v = Some f → f = v ∧ rejectPayloadFilter v = None.
Proof.
  intros Hn%throw_if_Ok Hf. split; [by destruct v; cbn in Hf; simplify_eq|].
  apply eq_None_not_Some. by bprop.
Qed.

(** ** The invariant *)

Definition subs_of (p : string) (s : Subscription.t) : Prop := Subscription.projectId s = p.
#[export] Instance subs_of_dec p s : Decision (subs_of p s).
Proof. unfold subs_of. apply _. Defined.
Definition subscriptions_in (p : string) (m : gmap string Subscription.t) : nat :=
  size (filter (λ kv : string * Subscription.t, subs_of p kv.2) m).

(** One stored row: accepted patterns, an accepted filter or none, and an
    endpoint of its own project. *)
Record row_ok (db : Db) (s : Subscription.t) : Prop := {
  ro_types : rejectEventTypes (JArr (JStr <$> Subscription.eventTypes s)) = None;
  ro_filter f : Subscription.payloadFilter s = Some f → rejectPayloadFilter f = None;
  ro_endpoint : ∃ e, endpoints db !! Subscription.endpointId s = Some e
                   ∧ Endpoint.projectId e = Subscription.projectId s
}.

Record subs_ok (ceiling : Z) (db : Db) : Prop := {
  so_row i s : subscriptions db !! i = Some s → row_ok db s;
  so_cap p : (Z.of_nat (subscriptions_in p (subscriptions db)) <= ceiling)%Z
}.

(** No endpoint disappears or moves to another project. *)
Definition endpoints_stay (db db' : Db) : Prop :=
  ∀ i e, endpoints db !! i = Some e →
    ∃ e', endpoints db' !! i = Some e' ∧ Endpoint.projectId e' = Endpoint.projectId e.

Lemma row_ok_stay db db' s : endpoints_stay db db' → row_ok db s → row_ok db' s.
Proof.
  intros He [Ht Hf (e & Hl & Hp)]. split; [done..|]. destruct (He _ _ Hl) as (e' & Hl' & Hp').
  exists e'. split; [done|congruence].
Qed.
Lemma stay_refl db db' : endpoints db' = endpoints db → endpoints_stay db db'.
Proof. intros E i e. rewrite E. eauto. Qed.

Lemma subs_ok_insert ceiling db db' i s :
  subs_ok ceiling db → row_ok db s → endpoints db' = endpoints db →
  subscriptions db' = <[i := s]> (subscriptions db) →
  ((Z.of_nat (subscriptions_in (Subscription.projectId s) (subscriptions db)) < ceiling)%Z
   ∨ ∃ s0, subscriptions db !! i = Some s0 ∧ Subscription.projectId s0 = Subscription.projectId s) →
  subs_ok ceiling db'.
Proof.
  intros [Hr Hc] Hs He Hm Hcap. split.
  - intros j a. rewrite Hm. intros Ha. apply (row_ok_stay db); [by apply stay_refl|].
    apply lookup_insert_Some in Ha as [[<- <-]|[_ Ha]]; eauto.
  - intros p. rewrite Hm. specialize (Hc p).
    destruct (decide (Subscription.projectId s = p)) as [Hp|Hp].
    + destruct Hcap as [Hlt|(s0 & H0 & Hp0)].
      * unfold subscriptions_in in *. rewrite map_filter_insert_True by done.
        rewrite map_size_insert, Hp in *. case_match; cbn; lia.
      * etrans; [apply Nat2Z.inj_le, (filter_size_le (subs_of p) (subscriptions db))|exact Hc].
        intros j a [[<- <-]|[_ Ha]]%lookup_insert_Some Hap; [|eauto].
        exists s0. split; [done|]. unfold subs_of. congruence.
    + etrans; [apply Nat2Z.inj_le, (filter_size_le (subs_of p) (subscriptions db))|exact Hc].
      intros j a [[<- <-]|[_ Ha]]%lookup_insert_Some Hap; [|eauto]. by destruct Hp.
Qed.

Lemma subs_ok_delete ceiling db db' i :
  subs_ok ceiling db → endpoints db' = endpoints db →
  subscriptions db' = delete i (subscriptions db) → subs_ok ceiling db'.
Proof.
  intros [Hr Hc] He Hm. split.
  - intros j a. rewrite Hm. intros [_ Ha]%lookup_delete_Some.
    apply (row_ok_stay db); [by apply stay_refl|eauto].
  - intros p. rewrite Hm. etrans; [apply Nat2Z.inj_le, (filter_size_le (subs_of p) (subscriptions db))|apply Hc].
    intros j a [_ Ha]%lookup_delete_Some Hap. eauto.
Qed.

Section proofs.
  Context (c : Ctx) (p : string) (Hp : ctx_project c = Some p) (ceiling : Z).

Lemma sub_in_tenant db i s :
  in_tenant c db i s = bool_decide (Subscription.projectId s = p).
Proof.
  unfold in_tenant. cbn. unfold project_matches, eqo. rewrite Hp. apply bool_decide_ext. naive_solver.
Qed.
Lemma sub_find db i s :
  find c db i = Some s ↔ subscriptions db !! i = Some s ∧ Subscription.projectId s = p.
Proof. by rewrite find_Some, sub_in_tenant, bool_decide_eq_true. Qed.
Lemma sub_endpoint_find db i e :
  find c db i = Some e ↔ endpoints db !! i = Some e ∧ Endpoint.projectId e = p.
Proof.
  rewrite find_Some. unfold in_tenant. cbn. unfold project_matches, eqo. rewrite Hp, bool_decide_eq_true.
  naive_solver.
Qed.
Lemma sub_count db :
  size (matching (R:=Subscription.t) c db (λ _ _, true)) = subscriptions_in p (subscriptions db).
Proof.
  unfold subscriptions_in, matching. f_equal. apply map_filter_ext. intros i s _. cbn.
  by rewrite sub_in_tenant, andb_true_r, bool_decide_eq_true.
Qed.

Lemma requireEndpoint_Ok e db r db' :
  requireEndpoint c e db = (Ok r, db') →
  db' = db ∧ endpoints db !! e = Some r ∧ Endpoint.projectId r = p
  ∧ Endpoint.status r ≠ EndpointStatus.deleted.
Proof.
  unfold requireEndpoint. intros H. sinv. subst. apply sub_endpoint_find in H0 as [? ?]. bprop. done.
Qed.

(** A committed create. *)
Lemma sub_create_Ok dto id now db s db' :
  sub_create c ceiling dto id now db = (Ok s, db') →
  ∃ f, db' = upd_auditLogs f (upd_subscriptions (<[id := s]>) db)
  ∧ subscriptions db !! id = None ∧ Subscription.projectId s = p
  ∧ Subscription.endpointId s = cs_endpoint_id dto
  ∧ cs_event_types dto = JArr (JStr <$> Subscription.eventTypes s)
  ∧ Subscription.payloadFilter s = filterColumn (cs_payload_filter dto)
  ∧ Subscription.enabled s = default true (cs_enabled dto)
  ∧ row_ok db s ∧ (Z.of_nat (subscriptions_in p (subscriptions db)) < ceiling)%Z.
Proof.
  unfold sub_create, requireHeadroom. intros Hr. minv. apply withCross_Ok in Hr. sinv.
  pose proof (assertEventTypes_Ok _ _ H) as [Ht Ha].
  apply requireEndpoint_Ok in H1 as (-> & He & Hep & _).
  cbn in H3. unfold requireProject in H3. rewrite Hp in H3. injection H3 as <-.
  pose proof (sub_count db) as Hc. subst. rewrite Hc in *. bprop. eexists. split; [reflexivity|]. split_and!; try done.
  split; [done| |by eexists]. cbn. intros f Hf.
  destruct (assertPayloadFilter_Ok _ _ _ H0 Hf) as [-> ?]. done.
Qed.

(** A committed update that is not empty. *)
Lemma sub_update_Ok id dto now db s db' :
  sub_update c id dto now db = (Ok s, db') →
  ∃ s0, subscriptions db !! id = Some s0 ∧ Subscription.projectId s0 = p ∧
  ((db' = db ∧ s = s0 ∧ data_keys (columns_of dto) = [])
   ∨ (s = write_columns (columns_of dto) now s0
      ∧ recordFor c "subscription.updated" "subscription" (Some id)
          (update_metadata (columns_of dto) s0 s) (upd_subscriptions (<[id := s]>) db) = (Ok tt, db')
      ∧ (row_ok db s0 → row_ok db s))).
Proof.
  unfold sub_update, requireSubscription. intros Hr. minv. apply withCross_Ok in Hr. sinv.
  pose proof H1 as [Hx Hxp]%sub_find. exists x0. split; [done|]. split; [done|].
  assert (x4 = db ∧ ∀ e, us_endpoint_id dto = Some e →
            ∃ r, endpoints db !! e = Some r ∧ Endpoint.projectId r = p) as [-> Hend].
  { destruct (us_endpoint_id dto) as [e|]; sinv; [|done].
    match goal with H : requireEndpoint _ _ _ = _ |- _ =>
      apply requireEndpoint_Ok in H as (-> & ? & ? & _) end.
    split; [done|]. intros ? [= <-]. eauto. }
  case_bool_decide as Hk; minv; [left; by subst|]. right.
  assert (x4 = db) as -> by (destruct (sc_endpointId _); sinv; done).
  apply updateById_Ok in H4 as (s1 & Hs1 & -> & ->). rewrite H1 in Hs1. injection Hs1 as <-.
  subst s. destruct x7. split; [done|]. split.
  { rewrite <- H5. by rewrite (update_rows_key _ _ _ _ _ H1). }
  intros [Ht Hf He]. split; cbn.
  - destruct (is_undefined (us_event_types dto)); [done|]. by apply assertEventTypes_Ok in H as [_ H].
  - intros f. destruct (is_undefined (us_payload_filter dto)); cbn; [apply Hf|]. intros E.
    by destruct (assertPayloadFilter_Ok _ _ _ H0 E) as [-> ?].
  - destruct (us_endpoint_id dto) as [e|]; cbn; [|done].
    destruct (Hend e eq_refl) as (r & ? & ?). exists r. split; congruence.
Qed.

(** The flag is all that [enable] and [disable] change. *)
Lemma setEnabled_Ok id b reason now db s db' :
  setEnabled c id b reason now db = (Ok s, db') →
  ∃ s0, subscriptions db !! id = Some s0 ∧ Subscription.projectId s0 = p ∧
  (db' = db ∨ (s = Subscription.set_updatedAt now (Subscription.set_enabled b s0)
               ∧ ∃ f, db' = upd_auditLogs f (upd_subscriptions (<[id := s]>) db))).
Proof.
  unfold setEnabled, requireSubscription. intros Hr. apply withCross_Ok in Hr. sinv.
  pose proof H as [Hx Hxp]%sub_find. exists x. split; [done|]. split; [done|].
  destruct (Bool.eqb _ _); sinv; [by left|]. right. rewrite H in *. simplify_eq. split; [done|].
  rewrite (update_rows_key _ _ _ _ _ H) in *. eauto.
Qed.

Lemma sub_remove_Ok id db u db' :
  sub_remove c id db = (Ok u, db') →
  db' = db ∨ ∃ s0, subscriptions db !! id = Some s0 ∧ Subscription.projectId s0 = p
    ∧ recordFor c "subscription.deleted" "subscription" (Some id) (rule_metadata s0)
        (upd_subscriptions (delete id) db) = (Ok tt, db').
Proof.
  unfold sub_remove. intros Hr. apply withCross_Ok in Hr. minv. apply findById_Ok in H as [-> ->].
  destruct (find c db id) as [s0|] eqn:E; minv; [|by left]. right. exists s0.
  apply sub_find in E as [? ?]. split; [done|]. split; [done|].
  apply deleteById_Ok in H as (r & _ & ->). by destruct u.
Qed.
End proofs.

(** ** Reachable states *)

(** One request against the service, or anything else: the other services leave
    the table alone, and none of them removes or moves an endpoint. *)
Inductive sub_step (ceiling : Z) : Db → Db → Prop :=
| ss_create c p dto id now db :
    ctx_project c = Some p → sub_step ceiling db (sub_create c ceiling dto id now db).2
| ss_update c p id dto now db :
    ctx_project c = Some p → sub_step ceiling db (sub_update c id dto now db).2
| ss_setEnabled c p id b reason now db :
    ctx_project c = Some p → sub_step ceiling db (setEnabled c id b reason now db).2
| ss_remove c p id db : ctx_project c = Some p → sub_step ceiling db (sub_remove c id db).2
| ss_other db db' :
    subscriptions db' = subscriptions db → endpoints_stay db db' → sub_step ceiling db db'.

Lemma sub_create_atomic c ceiling dto id now : Atomic (sub_create c ceiling dto id now).
Proof. do 2 (apply atomic_lift; intros ?). apply withCross_atomic, atomic_transact. Qed.
Lemma sub_update_atomic c id dto now : Atomic (sub_update c id dto now).
Proof. do 2 (apply atomic_lift; intros ?). apply withCross_atomic, atomic_transact. Qed.
Lemma setEnabled_atomic c id b reason now : Atomic (setEnabled c id b reason now).
Proof. apply withCross_atomic, atomic_transact. Qed.
Lemma sub_remove_atomic c id : Atomic (sub_remove c id).
Proof. apply withCross_atomic, atomic_transact. Qed.

Lemma sub_step_ok ceiling db db' : subs_ok ceiling db → sub_step ceiling db db' → subs_ok ceiling db'.
Proof.
  intros Hok Hs. destruct Hs as [c p dto id now db Hp|c p id dto now db Hp|c p id b reason now db Hp
    |c p id db Hp|db db' E He].
  - apply (atomic_inv (subs_ok ceiling)); [apply sub_create_atomic| |done]. intros s db' Hr.
    apply (sub_create_Ok c p Hp) in Hr as (f & -> & _ & Hsp & _ & _ & _ & _ & Hrow & Hcap).
    apply (subs_ok_insert ceiling db _ id s); try done. left. by rewrite Hsp.
  - apply (atomic_inv (subs_ok ceiling)); [apply sub_update_atomic| |done]. intros s db' Hr.
    apply (sub_update_Ok c p Hp) in Hr as (s0 & H0 & Hp0 & [(-> & _)|(-> & Hrec & Hrow)]); [done|].
    apply recordFor_Ok in Hrec as (f & ->).
    eapply (subs_ok_insert ceiling db _ id); [done| |done|done|right; by exists s0].
    apply Hrow. by eapply so_row.
  - apply (atomic_inv (subs_ok ceiling)); [apply setEnabled_atomic| |done]. intros s db' Hr.
    apply (setEnabled_Ok c p Hp) in Hr as (s0 & H0 & Hp0 & [->|(-> & f & ->)]); [done|].
    eapply (subs_ok_insert ceiling db _ id); [done| |done|done|right; by exists s0].
    destruct (so_row _ _ Hok _ _ H0) as [Ht Hf He]. by split.
  - apply (atomic_inv (subs_ok ceiling)); [apply sub_remove_atomic| |done]. intros u db' Hr.
    apply (sub_remove_Ok c p Hp) in Hr as [->|(s0 & _ & _ & (f & ->)%recordFor_Ok)]; [done|].
    by eapply (subs_ok_delete ceiling db _ id).
  - destruct Hok as [Hr Hc]. split; rewrite E; [|done]. intros i s Hi. eapply row_ok_stay; eauto.
Qed.

(** What is stored can be honoured.  Through any sequence of requests, by
    anyone, committed or refused, every subscription has a list of patterns the
    validator accepts, so it is neither empty nor wider than it reads; its
    payload filter, if any, is one the validator accepts; its endpoint exists
    and belongs to the same project; and no project exceeds the configured
    ceiling, which is always between 1 and 10,000. *)
Theorem reachable_subscriptions (Number : jsstr → num) (raw : option raw_value) (db db' : Db)
  (Hok : subs_ok (maxSubscriptionsPerProject Number raw) db)
  (Hs : star (sub_step (maxSubscriptionsPerProject Number raw)) db db') :
  (∀ i s, subscriptions db' !! i = Some s →
     rejectEventTypes (JArr (JStr <$> Subscription.eventTypes s)) = None
     ∧ Subscription.eventTypes s ≠ []
     ∧ (∀ f, Subscription.payloadFilter s = Some f → rejectPayloadFilter f = None)
     ∧ ∃ e, endpoints db' !! Subscription.endpointId s = Some e
          ∧ Endpoint.projectId e = Subscription.projectId s)
  ∧ (∀ p, (Z.of_nat (subscriptions_in p (subscriptions db')) <= maxSubscriptionsPerProject Number raw)%Z)
  ∧ (1 <= maxSubscriptionsPerProject Number raw <= 10000)%Z.
Proof.
  apply (star_invariant _ (subs_ok _) (sub_step_ok _)) in Hs as [Hr Hc]; [|done].
  split; [|split; [exact Hc|apply (clamp_range Number raw SUBSCRIPTIONS_PER_PROJECT); cbn; lia]].
  intros i s Hi. destruct (Hr i s Hi) as [Ht Hf He]. split; [done|]. split; [|done].
  intros E. by rewrite E in Ht.
Qed.

(** Stored verbatim.  The patterns and the filter a committed create or
    update stores are exactly the values of the request, in their order; a field
    the request leaves out keeps what was stored; and no other subscription
    changes. *)
Theorem stored_verbatim (c : Ctx) (p : string) (ceiling : Z) (id : string) (now : Z) (db db' : Db)
  (s : Subscription.t) (Hp : ctx_project c = Some p) :
  (∀ dto, sub_create c ceiling dto id now db = (Ok s, db') →
     cs_event_types dto = JArr (JStr <$> Subscription.eventTypes s)
     ∧ Subscription.payloadFilter s = filterColumn (cs_payload_filter dto)
     ∧ Subscription.enabled s = default true (cs_enabled dto)
     ∧ subscriptions db !! id = None
     ∧ subscriptions db' = <[id := s]> (subscriptions db))
  ∧ (∀ dto, sub_update c id dto now db = (Ok s, db') →
       ∃ s0, subscriptions db !! id = Some s0
       ∧ (if is_undefined (us_event_types dto) then Subscription.eventTypes s = Subscription.eventTypes s0
          else us_event_types dto = JArr (JStr <$> Subscription.eventTypes s))
       ∧ Subscription.payloadFilter s
         = (if is_undefined (us_payload_filter dto) then Subscription.payloadFilter s0
            else filterColumn (us_payload_filter dto))
       ∧ Subscription.enabled s = Subscription.enabled s0
       ∧ subscriptions db' = <[id := s]> (subscriptions db)).
Proof.
  split; intros dto Hr.
  - apply (sub_create_Ok c p Hp) in Hr as (f & -> & Hid & _ & _ & Ht & Hf & He & _). done.
  - assert (is_undefined (us_event_types dto) = false →
            us_event_types dto = JArr (JStr <$> strings_of (us_event_types dto))) as Hv.
    { unfold sub_update in Hr. minv. intros E. rewrite E in *. by eapply assertEventTypes_Ok. }
    apply (sub_update_Ok c p Hp) in Hr as (s0 & H0 & _ & [(-> & -> & Hk)|(-> & (f & ->)%recordFor_Ok & _)]);
      exists s0; (split; [done|]).
    + unfold data_keys, columns_of in Hk. cbn in Hk.
      destruct (is_undefined (us_event_types dto)), (is_undefined (us_payload_filter dto)); cbn in Hk;
        try (by destruct (us_endpoint_id dto), (us_name dto)).
      by rewrite insert_id.
    + cbn. destruct (is_undefined (us_event_types dto)), (is_undefined (us_payload_filter dto)); cbn; auto 10.
Qed.

(** ** The log *)

(** Exactly one entry was written, about [id], by the caller, with these fields
    among its metadata. *)
Definition logged (c : Ctx) (id action : string) (fields : list (jsstr * meta)) (db db' : Db) : Prop :=
  ∃ a md, auditLogs db' = auditLogs db ++ [a]
    ∧ AuditLog.organizationId a = ctx_org c ∧ AuditLog.userId a = Some (ctx_user c)
    ∧ AuditLog.action a = action ∧ AuditLog.resourceId a = Some id
    ∧ AuditLog.metadata a = Some md ∧ ∀ kv, kv ∈ fields → kv ∈ md.

Lemma set_key_keeps k v kv l : kv ∈ l → kv.1 ≠ k → kv ∈ set_key k v l.
Proof.
  intros Hin Hne. unfold set_key. destruct (existsb _ l); [|set_solver].
  apply list_elem_of_fmap. exists kv. split; [|done].
  destruct (seqb kv.1 k) eqn:E; [|done]. by apply seqb_eq in E.
Qed.

Lemma set_key_fresh k v l :
  existsb (λ kv, seqb kv.1 k) l = false → set_key k v l = l ++ [(k, v)].
Proof. unfold set_key. by intros ->. Qed.

(** A field the redaction leaves alone, under a key of its own. *)
Definition plain (kv : jsstr * meta) : Prop :=
  isCredentialKey kv.1 = false ∧ redactValue kv.2 1 = kv.2 ∧ kv.1 ≠ js "project_id".

Lemma recordFor_logged c action ty id md fields db u db' :
  recordFor c action ty (Some id) md db = (Ok u, db') →
  (∀ kv, kv ∈ fields → kv ∈ md ∧ plain kv) → logged c id action fields db db'.
Proof.
  unfold recordFor. intros ->%modify_Ok Hf. eexists _, _. split; [reflexivity|]. cbn.
  do 4 (split; [reflexivity|]). split; [reflexivity|].
  intros [k v] Hin. destruct (Hf _ Hin) as (Hmd & Hc & Hr & Hne). cbn in *.
  unfold redactObject. apply list_elem_of_fmap. exists (k, v). cbn. rewrite Hc, Hr. split; [done|].
  destruct (ctx_project c); [by apply set_key_keeps|done].
Qed.

Lemma plain_types k l :
  isCredentialKey k = false → k ≠ js "project_id" → plain (k, types_meta l).
Proof.
  intros Hc Hk. split_and!; [done| |done]. unfold types_meta. cbn. by rewrite map_map.
Qed.
Lemma plain_str k s : isCredentialKey k = false → k ≠ js "project_id" → plain (k, MStr s).
Proof. by intros Hc Hk. Qed.
Lemma plain_bool k b : isCredentialKey k = false → k ≠ js "project_id" → plain (k, MBool b).
Proof. by intros Hc Hk. Qed.

(** What the log must say about a subscription [s] that was there before. *)
Definition log_keeps_up (c : Ctx) (i : string) (s : Subscription.t) (db db' : Db) : Prop :=
  (∀ s', subscriptions db' !! i = Some s' → Subscription.eventTypes s' ≠ Subscription.eventTypes s →
     logged c i "subscription.updated"
       [(js "event_types_from", types_meta (Subscription.eventTypes s));
        (js "event_types_to", types_meta (Subscription.eventTypes s'))] db db')
  ∧ (∀ s', subscriptions db' !! i = Some s' → Subscription.endpointId s' ≠ Subscription.endpointId s →
       logged c i "subscription.updated"
         [(js "endpoint_id_from", MStr (js (Subscription.endpointId s)));
          (js "endpoint_id_to", MStr (js (Subscription.endpointId s')))] db db')
  ∧ (subscriptions db' !! i = None →
       logged c i "subscription.deleted"
         [(js "endpoint_id", MStr (js (Subscription.endpointId s)));
          (js "event_types", types_meta (Subscription.eventTypes s));
          (js "enabled", MBool (Subscription.enabled s))] db db').

(** Nothing to say when the subscription has kept its patterns and endpoint. *)
Lemma keeps_up_same c i s s' db db' :
  subscriptions db' !! i = Some s' → Subscription.eventTypes s' = Subscription.eventTypes s →
  Subscription.endpointId s' = Subscription.endpointId s → log_keeps_up c i s db db'.
Proof. intros H Ht He. split_and!; congruence. Qed.

Lemma keeps_up_update c p i id s0 dto now db db' u :
  ctx_project c = Some p → subscriptions db !! i = Some s0 →
  let s1 := write_columns (columns_of dto) now s0 in
  recordFor c "subscription.updated" "subscription" (Some id)
    (update_metadata (columns_of dto) s0 s1) (upd_subscriptions (<[id := s1]>) db) = (Ok u, db') →
  i = id → log_keeps_up c i s0 db db'.
Proof.
  intros Hp Hi s1 Hrec ->. pose proof Hrec as (f & Hdb)%recordFor_Ok.
  assert (subscriptions db' !! id = Some s1) as Hs1 by (rewrite Hdb; cbn; apply lookup_insert_eq).
  split_and!; [..|congruence]; intros s' Hs' Hne; rewrite Hs1 in Hs'; injection Hs' as <-;
    (eapply (recordFor_logged c _ _ id _ _ (upd_subscriptions _ db)); [exact Hrec|]);
    unfold update_metadata; cbn in Hne |- *.
  - destruct (is_undefined (us_event_types dto)); cbn in Hne |- *; [done|].
    intros kv Hkv. split; [set_solver|].
    apply elem_of_cons in Hkv as [->|[->|[]%not_elem_of_nil]%elem_of_cons]; by apply plain_types.
  - destruct (us_endpoint_id dto) as [e|]; cbn in Hne |- *; [|done].
    rewrite bool_decide_eq_false_2 by congruence.
    intros kv Hkv. split; [set_solver|].
    apply elem_of_cons in Hkv as [->|[->|[]%not_elem_of_nil]%elem_of_cons]; by apply plain_str.
Qed.

Lemma keeps_up_remove c i s0 db db' u :
  recordFor c "subscription.deleted" "subscription" (Some i) (rule_metadata s0)
    (upd_subscriptions (delete i) db) = (Ok u, db') → log_keeps_up c i s0 db db'.
Proof.
  intros Hrec. pose proof Hrec as (f & Hdb)%recordFor_Ok.
  assert (subscriptions db' !! i = None) as Hn by (rewrite Hdb; cbn; apply lookup_delete_eq).
  split_and!; [congruence..|]. intros _.
  eapply (recordFor_logged c _ _ i _ _ (upd_subscriptions _ db)); [exact Hrec|].
  intros kv Hkv. unfold rule_metadata. split; [set_solver|].
  apply elem_of_cons in Hkv as [->|[->|[->|[]%not_elem_of_nil]%elem_of_cons]%elem_of_cons];
    [by apply plain_str|by apply plain_types|by apply plain_bool].
Qed.

(** No silent widening.  Whatever request runs, committed or refused: if
    the patterns of a subscription are different afterwards, the log has gained
    exactly one entry, by the caller, with the patterns before and after; if its
    endpoint is different, an entry with the endpoint before and after; and if
    the subscription is gone, an entry with its endpoint, its patterns and its
    flag. *)
Theorem changes_are_logged (c : Ctx) (p : string) (ceiling : Z) (db db' : Db) (i : string) (s : Subscription.t)
  (Hp : ctx_project c = Some p) (Hi : subscriptions db !! i = Some s)
  (Hop : (∃ dto id now, db' = (sub_create c ceiling dto id now db).2)
         ∨ (∃ dto id now, db' = (sub_update c id dto now db).2)
         ∨ (∃ id b reason now, db' = (setEnabled c id b reason now db).2)
         ∨ (∃ id, db' = (sub_remove c id db).2)) :
  log_keeps_up c i s db db'.
Proof.
  assert (log_keeps_up c i s db db) as Hid by by eapply keeps_up_same.
  destruct Hop as [(dto & id & now & ->)|[(dto & id & now & ->)|[(id & b & reason & now & ->)|(id & ->)]]].
  - apply (atomic_inv (log_keeps_up c i s db)); [apply sub_create_atomic| |done]. intros s1 db' Hr.
    apply (sub_create_Ok c p Hp) in Hr as (f & -> & Hn & _).
    eapply keeps_up_same; [|done..]. cbn. rewrite lookup_insert_ne by congruence. done.
  - apply (atomic_inv (log_keeps_up c i s db)); [apply sub_update_atomic| |done]. intros s1 db' Hr.
    apply (sub_update_Ok c p Hp) in Hr as (s0 & H0 & _ & [(-> & _)|(-> & Hrec & _)]); [done|].
    destruct (decide (i = id)) as [->|Hne].
    + rewrite Hi in H0. injection H0 as <-. by eapply (keeps_up_update c p id id).
    + apply recordFor_Ok in Hrec as (f & ->). eapply keeps_up_same; [|done..]. cbn.
      by rewrite lookup_insert_ne.
  - apply (atomic_inv (log_keeps_up c i s db)); [apply setEnabled_atomic| |done]. intros s1 db' Hr.
    apply (setEnabled_Ok c p Hp) in Hr as (s0 & H0 & _ & [->|(-> & f & ->)]); [done|].
    destruct (decide (i = id)) as [->|Hne].
    + rewrite Hi in H0. injection H0 as <-. eapply keeps_up_same; [cbn; apply lookup_insert_eq|done..].
    + eapply keeps_up_same; [|done..]. cbn. by rewrite lookup_insert_ne.
  - apply (atomic_inv (log_keeps_up c i s db)); [apply sub_remove_atomic| |done]. intros u db' Hr.
    apply (sub_remove_Ok c p Hp) in Hr as [->|(s0 & H0 & _ & Hrec)]; [done|].
    destruct (decide (i = id)) as [->|Hne].
    + rewrite Hi in H0. injection H0 as <-. by eapply keeps_up_remove.
    + apply recordFor_Ok in Hrec as (f & ->). eapply keeps_up_same; [|done..]. cbn.
      by rewrite lookup_delete_ne.
Qed.

(** A removal with its entry, as a function. *)
Lemma sub_remove_run c id db s :
  find c db id = Some s →
  sub_remove c id db
  = recordFor c "subscription.deleted" "subscription" (Some id) (rule_metadata s)
      (upd_subscriptions (delete id) db).
Proof.
  intros E. unfold sub_remove, withCrossTenantNotFound, transact, mbind, M_bind, findById, gets.
  rewrite E. by rewrite (deleteById_run (R:=Subscription.t) c id db s E).
Qed.

(** The entry of a removal is not the whole rule: a filter condition on a
    field whose name looks like a credential is redacted, so two subscriptions
    that match different events leave the same log behind. *)
Theorem removal_forgets_conditions (c : Ctx) (p id : string) (db : Db) (s : Subscription.t)
  (key : jsstr) (v1 v2 : jsval) (Hp : ctx_project c = Some p) (Hs : Subscription.projectId s = p)
  (Hkey : isCredentialKey key = true) :
  let stored v := upd_subscriptions (<[id := Subscription.set_payloadFilter (Some (JObj [(key, v)])) s]>) db in
  auditLogs (sub_remove c id (stored v1)).2 = auditLogs (sub_remove c id (stored v2)).2.
Proof.
  intros stored.
  assert (∀ v, sub_remove c id (stored v)
               = recordFor c "subscription.deleted" "subscription" (Some id)
                   (rule_metadata (Subscription.set_payloadFilter (Some (JObj [(key, v)])) s))
                   (upd_subscriptions (delete id) (stored v))) as Hrun.
  { intros v. apply sub_remove_run, (sub_find c p Hp). cbn. by rewrite lookup_insert_eq. }
  rewrite !Hrun. unfold recordFor, modify. cbn [snd]. unfold upd_auditLogs, stored. cbn [auditLogs].
  f_equal. do 2 f_equal. unfold sanitise. cbn [mbind option_bind]. f_equal.
  assert (∀ v, redactValue (meta_of (JObj [(key, v)])) 1 = MObj [(key, MStr REDACTED)]) as Hred.
  { intros v. cbn. by rewrite Hkey. }
  rewrite Hp. unfold redactObject, rule_metadata. cbn [Subscription.payloadFilter Subscription.set_payloadFilter].
  pose proof (Hred v1) as H1. pose proof (Hred v2) as H2.
  generalize dependent (meta_of (JObj [(key, v1)])). generalize dependent (meta_of (JObj [(key, v2)])).
  intros m2 H2 m1 H1. rewrite !set_key_fresh by reflexivity.
  cbn [app map fst snd]. by rewrite H1, H2.
Qed.

(** ** Witnesses *)

Definition sub_ctx : Ctx := MkCtx "o1" (Some "p1") "m1" admin "u1".
Definition strs (l : list string) : jsval := JArr (map (λ s, JStr (js s)) l).
Definition sub_dto (types : list string) : CreateSubscriptionDto :=
  MkCreateSub None "e1" (strs types) JUndefined None.
Definition retype (types : list string) : UpdateSubscriptionDto := MkUpdateSub None None (strs types) JUndefined.

(** A subscription, a refused empty one, and a change of its patterns. *)
Definition sub_db0 : Db := (sub_create sub_ctx 500 (sub_dto ["payment.settled"]) "s1" 1 two_orgs).2.
Definition sub_db1 : Db := (sub_create sub_ctx 500 (sub_dto []) "s2" 2 sub_db0).2.
Definition sub_db2 : Db := (sub_update sub_ctx "s1" (retype ["payment.*"]) 3 sub_db1).2.

Lemma two_orgs_subs_ok : subs_ok 500 two_orgs.
Proof.
  split; [by intros i s ?|]. intros p. unfold subscriptions_in. cbn.
  by rewrite map_filter_empty, map_size_empty.
Qed.

Lemma reachable_subscriptions_witness :
  ∃ s, subscriptions sub_db2 !! "s1" = Some s ∧ Subscription.eventTypes s = [js "payment.*"]
     ∧ Subscription.eventTypes s ≠ [].
Proof.
  assert (star (sub_step 500) two_orgs sub_db2) as Hs.
  { eapply star_step; [by apply (ss_create 500 sub_ctx "p1" (sub_dto ["payment.settled"]) "s1" 1)|].
    eapply star_step; [by apply (ss_create 500 sub_ctx "p1" (sub_dto []) "s2" 2)|].
    eapply star_step; [by apply (ss_update 500 sub_ctx "p1" "s1" (retype ["payment.*"]) 3)|].
    apply star_refl. }
  destruct (reachable_subscriptions (λ _, NaN) None two_orgs sub_db2 two_orgs_subs_ok Hs) as (Hr & _).
  destruct (subscriptions sub_db2 !! "s1") as [s|] eqn:E; [|vm_compute in E; discriminate E].
  exists s. split; [reflexivity|]. split; [vm_compute in E; by injection E as <-|].
  destruct (Hr "s1" s E) as (_ & Hne & _). exact Hne.
Defined.

Lemma stored_verbatim_witness :
  ∃ s db', sub_create sub_ctx 500 (sub_dto ["b.x"; "a.*"]) "s9" 1 two_orgs = (Ok s, db')
         ∧ Subscription.enabled s = true ∧ subscriptions db' = <["s9" := s]> (subscriptions two_orgs).
Proof.
  destruct (sub_create sub_ctx 500 (sub_dto ["b.x"; "a.*"]) "s9" 1 two_orgs) as [[s|e] db'] eqn:E;
    [|vm_compute in E; discriminate E].
  exists s, db'. split; [reflexivity|].
  destruct (stored_verbatim sub_ctx "p1" 500 "s9" 1 two_orgs db' s eq_refl) as [Hc _].
  destruct (Hc _ E) as (_ & _ & He & _ & Hdb). split; [exact He|exact Hdb].
Defined.

Lemma changes_are_logged_witness :
  logged sub_ctx "s1" "subscription.updated"
    [(js "event_types_from", types_meta [js "payment.settled"]);
     (js "event_types_to", types_meta [js "payment.*"])] sub_db1 sub_db2.
Proof.
  destruct (subscriptions sub_db1 !! "s1") as [s|] eqn:E; [|vm_compute in E; discriminate E].
  destruct (subscriptions sub_db2 !! "s1") as [s'|] eqn:E'; [|vm_compute in E'; discriminate E'].
  assert (Subscription.eventTypes s = [js "payment.settled"]) as Ht by (vm_compute in E; by injection E as <-).
  assert (Subscription.eventTypes s' = [js "payment.*"]) as Ht' by (vm_compute in E'; by injection E' as <-).
  destruct (changes_are_logged sub_ctx "p1" 500 sub_db1 sub_db2 "s1" s eq_refl E) as [Hl _].
  { right. left. by exists (retype ["payment.*"]), "s1", 3%Z. }
  specialize (Hl s' E'). rewrite Ht, Ht' in Hl. apply Hl. discriminate.
Defined.

Definition any_sub : Subscription.t := Subscription.mk "p1" "e1" None [js "*"] None true 0 0.
Lemma removal_forgets_conditions_witness :
  rejectPayloadFilter (JObj [(js "data.token", JStr (js "a"))]) = None
  ∧ rejectPayloadFilter (JObj [(js "data.token", JStr (js "b"))]) = None
  ∧ let stored v := upd_subscriptions (<["s" := Subscription.set_payloadFilter (Some (JObj [(js "data.token", v)])) any_sub]>) two_orgs in
    auditLogs (sub_remove sub_ctx "s" (stored (JStr (js "a")))).2
    = auditLogs (sub_remove sub_ctx "s" (stored (JStr (js "b")))).2.
Proof.
  split; [vm_compute; reflexivity|]. split; [vm_compute; reflexivity|].
  apply (removal_forgets_conditions sub_ctx "p1" "s" two_orgs any_sub (js "data.token")
           (JStr (js "a")) (JStr (js "b"))); vm_compute; reflexivity.
Defined.
