(* ===== verification/Throttle.v ===== *)
(** Request throttling: common/throttle.store.ts and common/throttle.guard.ts.

    The guard is written against the interface [ThrottleStore]; two stores
    implement it, a counter in process memory and a shared one in Redis that
    falls back to the first.  Redis itself is a parameter. *)
From Stdlib Require Import ZArith Lia.
From S2P Require Import Prelude Js.

Record ThrottleHit : Type := MkHit { count : Z; resetAt : Z }.

(** A store with state [S]; the clock is read once per call. *)
Class ThrottleStore (S : Type) : Type := {
  hit : string → Z → Z → S → ThrottleHit * S;
  reset : string → Z → S → S
}.

(** ** InMemoryThrottleStore *)

Record InMemory : Type := MkMem { windows : gmap string ThrottleHit; sweepCountdown : Z }.
Definition new_store : InMemory := MkMem ∅ 1000.

Definition expired (now : Z) (w : ThrottleHit) : bool := (resetAt w <=? now)%Z.

Definition maybeSweep (now : Z) (s : InMemory) : InMemory :=
  let sweepCountdown := (sweepCountdown s - 1)%Z in
  if (0 <? sweepCountdown)%Z then MkMem (windows s) sweepCountdown
  else MkMem (filter (λ kv, expired now kv.2 = false) (windows s)) 1000.

Definition mem_hit (key : string) (windowMs now : Z) (s : InMemory) : ThrottleHit * InMemory :=
  let s := maybeSweep now s in
  let fresh := MkHit 1 (now + windowMs) in
  match windows s !! key with
  | Some current =>
      if expired now current
      then (fresh, MkMem (<[key := fresh]> (windows s)) (sweepCountdown s))
      else
        let current := MkHit (count current + 1) (resetAt current) in
        (current, MkMem (<[key := current]> (windows s)) (sweepCountdown s))
  | None => (fresh, MkMem (<[key := fresh]> (windows s)) (sweepCountdown s))
  end.

Definition mem_reset (key : string) (s : InMemory) : InMemory :=
  MkMem (delete key (windows s)) (sweepCountdown s).

#[export] Instance InMemoryThrottleStore : ThrottleStore InMemory := {|
  hit := mem_hit;
  reset key _ s := mem_reset key s
|}.

(** ** RedisThrottleStore *)

Definition KEY_PREFIX : string := "throttle:".

(** The client the store is given: a call answers or throws ([None]), at a time,
    and the server keeps state. *)
Record ThrottleRedis (R : Type) : Type := MkRedis {
  incr : string → Z → R → option Z * R;
  pttl : string → Z → R → option Z * R;
  pexpire : string → Z → Z → R → option unit * R;
  del : string → Z → R → option unit * R
}.
Arguments incr {R}.
Arguments pttl {R}.
Arguments pexpire {R}.
Arguments del {R}.

Record RedisStore (R : Type) : Type := MkRedisStore {
  server : R;
  fallback : InMemory;
  degradedSince : option Z
}.
Arguments MkRedisStore {R}.
Arguments server {R}.
Arguments fallback {R}.
Arguments degradedSince {R}.

Section Redis.
  Context {R : Type} (redis : ThrottleRedis R).

Definition degraded (now : Z) (s : RedisStore R) : RedisStore R :=
  MkRedisStore (server s) (fallback s)
    (match degradedSince s with Some t => Some t | None => Some now end).
Definition recovered (s : RedisStore R) : RedisStore R := MkRedisStore (server s) (fallback s) None.
Definition set_server (r : R) (s : RedisStore R) : RedisStore R :=
  MkRedisStore r (fallback s) (degradedSince s).

(** The [try] block: [None] when a call throws. *)
Definition redis_count (namespaced : string) (windowMs now : Z) (r : R) : option (Z * Z) * R :=
  match incr redis namespaced now r with
  | (None, r) => (None, r)
  | (Some count, r) =>
      match pttl redis namespaced now r with
      | (None, r) => (None, r)
      | (Some ttl, r) =>
          if (ttl <? 0)%Z then
            match pexpire redis namespaced windowMs now r with
            | (None, r) => (None, r)
            | (Some _, r) => (Some (count, windowMs), r)
            end
          else (Some (count, ttl), r)
      end
  end.

Definition redis_hit (key : string) (windowMs now : Z) (s : RedisStore R) : ThrottleHit * RedisStore R :=
  match redis_count (KEY_PREFIX +:+ key) windowMs now (server s) with
  | (Some (count, ttl), r) => (MkHit count (now + ttl), recovered (set_server r s))
  | (None, r) =>
      let s := degraded now (set_server r s) in
      let '(h, f) := mem_hit key windowMs now (fallback s) in
      (h, MkRedisStore (server s) f (degradedSince s))
  end.

Definition redis_reset (key : string) (now : Z) (s : RedisStore R) : RedisStore R :=
  let '(o, r) := del redis (KEY_PREFIX +:+ key) now (server s) in
  let s := if o is Some _ then set_server r s else degraded now (set_server r s) in
  MkRedisStore (server s) (mem_reset key (fallback s)) (degradedSince s).

#[export] Instance RedisThrottleStore : ThrottleStore (RedisStore R) := {|
  hit := redis_hit;
  reset := redis_reset
|}.
End Redis.

(** ** The guard *)

Record ThrottleOptions : Type := MkOptions {
  o_name : string;
  o_limit : Z;
  o_windowMs : Z;
  byBodyField : option string;
  enforcePerIp : option bool
}.

(** What the guard reads of a request: the address and the string fields of the
    body. *)
Record Request : Type := MkRequest {
  req_ip : option string;
  req_remoteAddress : option string;
  req_body : string → option jsstr
}.

Definition clientIp (req : Request) : string :=
  match req_ip req, req_remoteAddress req with
  | Some ip, _ => ip
  | None, Some a => a
  | None, None => "unknown"
  end.

(** An empty field name is falsy. *)
Definition bodyValue (req : Request) (field : option string) : option jsstr :=
  match field with
  | None | Some EmptyString => None
  | Some f =>
      match req_body req f with
      | Some v => if bool_decide (trim v = []) then None else Some (toLowerCase (trim v))
      | None => None
      end
  end.

Record Bucket : Type := MkBucket { b_key : string; b_enforced : bool }.

Section Guard.
  Context {S : Type} `{ThrottleStore S} (fingerprint : jsstr → string).

Definition buckets_of (options : ThrottleOptions) (req : Request) : list Bucket :=
  let enforcePerIp := negb (bool_decide (enforcePerIp options = Some false)) in
  MkBucket (o_name options +:+ ":ip:" +:+ clientIp req) enforcePerIp ::
  match bodyValue req (byBodyField options) with
  | Some subject => [MkBucket (o_name options +:+ ":sub:" +:+ fingerprint subject) true]
  | None => []
  end.

(** [Promise.all] over the buckets, each charged in turn. *)
Fixpoint charge_all (buckets : list Bucket) (windowMs now : Z) (s : S) : list (ThrottleHit * bool) * S :=
  match buckets with
  | [] => ([], s)
  | b :: bs =>
      let '(h, s) := hit (b_key b) windowMs now s in
      let '(hs, s) := charge_all bs windowMs now s in
      ((h, b_enforced b) :: hs, s)
  end.

(** [Math.ceil(x / 1000)] of an integer. *)
Definition ceil_seconds (ms : Z) : Z := (- (- ms / 1000))%Z.

(** Whether a charged bucket refuses the request. *)
Definition over (limit : Z) (h : ThrottleHit * bool) : bool := h.2 && (limit <? count h.1)%Z.

(** [Math.max] of a list that is not empty. *)
Definition latest (hits : list (ThrottleHit * bool)) : Z :=
  match hits with
  | [] => 0
  | h :: hs => foldr (λ h m, Z.max (resetAt h.1) m) (resetAt h.1) hs
  end.

(** Admission, or the refusal with its Retry-After. *)
Definition throttle (options : option ThrottleOptions) (req : Request) (now : Z) (s : S)
    : (unit + Z) * S :=
  match options with
  | None => (inl tt, s)
  | Some options =>
      let '(hits, s) := charge_all (buckets_of options req) (o_windowMs options) now s in
      let exceeded := filter (λ h, over (o_limit options) h = true) hits in
      if bool_decide (exceeded = []) then (inl tt, s)
      else (inr (Z.max 1 (ceil_seconds (latest exceeded - now))), s)
  end.
End Guard.

(** ** The abstract counter *)

(** What is left of a window at a time. *)
Definition live (now : Z) (w : option ThrottleHit) : option ThrottleHit :=
  w ≫= λ w, if expired now w then None else Some w.

(** A counter for one key: a hit with its window length, or a reset. *)
Definition next (now : Z) (st : option ThrottleHit) (w : option Z) : option ThrottleHit :=
  windowMs ← w;
  Some (match live now st with
        | Some c => MkHit (count c + 1) (resetAt c)
        | None => MkHit 1 (now + windowMs)
        end).

Fixpoint own_run (st : option ThrottleHit) (evs : list (Z * option Z)) : list (Z * option ThrottleHit) :=
  match evs with
  | [] => []
  | (t, w) :: evs => let st := next t st w in (t, st) :: own_run st evs
  end.

(** Traffic on a store: who, when, and a hit or a reset. *)
Record Call : Type := MkCall { c_key : string; c_at : Z; c_window : option Z }.

Definition call (e : Call) (s : InMemory) : option ThrottleHit * InMemory :=
  match c_window e with
  | Some w => let '(h, s) := hit (c_key e) w (c_at e) s in (Some h, s)
  | None => (None, reset (c_key e) (c_at e) s)
  end.

(** Each call with its answer. *)
Fixpoint run (s : InMemory) (tr : list Call) : list (Call * option ThrottleHit) :=
  match tr with
  | [] => []
  | e :: tr => let '(o, s) := call e s in (e, o) :: run s tr
  end.

Definition for_key (k : string) (l : list (Call * option ThrottleHit))
  : list (Z * option ThrottleHit) :=
  omap (λ eo, if bool_decide (c_key eo.1 = k) then Some (c_at eo.1, eo.2) else None) l.
Definition own (k : string) (tr : list Call) : list (Z * option Z) :=
  omap (λ e, if bool_decide (c_key e = k) then Some (c_at e, c_window e) else None) tr.

(** The clock does not run backwards. *)
Definition in_order (tr : list Call) : Prop := StronglySorted (λ e e', (c_at e <= c_at e')%Z) tr.

Lemma live_Some now st c :
  live now st = Some c ↔ st = Some c ∧ expired now c = false.
Proof.
  unfold live. destruct st as [w|]; cbn; [|split; [done|by intros [? _]]].
  destruct (expired now w) eqn:E; (split; [intros H|intros [H Hc]]); simplify_eq; try done. congruence.
Qed.

Lemma expired_mono now now' c : (now <= now')%Z → expired now' c = false → expired now c = false.
Proof. unfold expired. intros Hle H. bprop. apply Z.leb_gt. lia. Qed.

Lemma live_live now now' w : (now <= now')%Z → live now' (live now w) = live now' w.
Proof.
  intros Hle. apply option_eq. intros c. rewrite !live_Some. split; [naive_solver|].
  intros [-> H]. split_and!; [done| |done]. by eapply expired_mono.
Qed.

Lemma live_mono now now' w w' : (now <= now')%Z → live now w = live now w' → live now' w = live now' w'.
Proof. intros Hle E. rewrite <- (live_live now now' w Hle), <- (live_live now now' w' Hle). by rewrite E. Qed.

Lemma maybeSweep_live now s k : live now (windows (maybeSweep now s) !! k) = live now (windows s !! k).
Proof.
  unfold maybeSweep. destruct (0 <? _)%Z; [done|]. apply option_eq. intros c.
  rewrite !live_Some. cbn. rewrite map_lookup_filter_Some. cbn. naive_solver.
Qed.

(** A hit answers from what is live, and touches its own key only. *)
Lemma mem_hit_run k w now s :
  ∃ h s', mem_hit k w now s = (h, s') ∧ Some h = next now (windows s !! k) (Some w)
    ∧ windows s' !! k = Some h
    ∧ ∀ k', k' ≠ k → windows s' !! k' = windows (maybeSweep now s) !! k'.
Proof.
  unfold mem_hit, next. cbn. rewrite <- (maybeSweep_live now s k). unfold live.
  destruct (windows (maybeSweep now s) !! k) as [c|]; cbn; [destruct (expired now c)|];
    (eexists _, _; split; [reflexivity|]; split; [reflexivity|]; cbn;
     split; [by rewrite lookup_insert_eq|]; intros k' Hk; by rewrite lookup_insert_ne).
Qed.

(** The simulation: the store and the counter agree on what is live. *)
Lemma run_simulates k tr : ∀ s st lo,
  Forall (λ e, (lo <= c_at e)%Z) tr → in_order tr → live lo (windows s !! k) = live lo st →
  for_key k (run s tr) = own_run st (own k tr).
Proof.
  induction tr as [|[k' t w] tr IH]; intros s st lo Hlo Hord Hst; [done|].
  apply Forall_cons in Hlo as [Hle Hlo]. apply StronglySorted_cons in Hord as [Ht Hord].
  cbn in Hle, Ht |- *. unfold call. cbn [c_window c_key c_at].
  pose proof (live_mono lo t _ _ Hle Hst) as Hst'.
  destruct w as [w|].
  - cbn [hit InMemoryThrottleStore]. destruct (mem_hit_run k' w t s) as (h & s' & -> & Hh & Hk & Hother).
    cbn. case_bool_decide as E; cbn.
    + subst k'. assert (Some h = next t st (Some w)) as Hn.
      { rewrite Hh. unfold next. cbn. by rewrite Hst'. }
      cbn in Hn. rewrite <- Hn. f_equal. apply (IH _ _ t); [done|done|by rewrite Hk].
    + apply (IH _ _ t); [done|done|]. rewrite Hother by congruence. by rewrite maybeSweep_live.
  - cbn. case_bool_decide as E; cbn.
    + subst k'. f_equal. apply (IH _ _ t); [done|done|]. cbn. by rewrite lookup_delete_eq.
    + apply (IH _ _ t); [done|done|]. cbn. by rewrite lookup_delete_ne.
Qed.

(** C23. The in-memory store implements one counter per key.  For any traffic
    with a clock that does not run backwards, what the store answers to a key
    is what a counter would answer that sees only this key's hits and resets
    and never forgets: neither the other keys nor the sweep, which deletes
    entries every thousandth hit, can be observed. *)
Theorem store_refines_counter (k : string) (tr : list Call) (Hord : in_order tr) :
  for_key k (run new_store tr) = own_run None (own k tr).
Proof.
  destruct tr as [|e tr]; [done|].
  apply (run_simulates k (e :: tr) new_store None (c_at e)); [|done|done].
  apply StronglySorted_cons in Hord as [He _]. constructor; [lia|done].
Qed.

(** ** What a limit means *)

(** The times at which a bucket with this limit admitted. *)
Definition admitted_at (limit : Z) (l : list (Z * option ThrottleHit)) : list Z :=
  omap (λ to, h ← to.2; if (count h <=? limit)%Z then Some to.1 else None) l.

(** How many of these times are in [[a, b)]. *)
Definition between (a b : Z) (l : list Z) : Z :=
  Z.of_nat (length (filter (λ t, (a <= t < b)%Z) l)).

Lemma between_cons a b t l :
  between a b (t :: l) = ((if bool_decide (a <= t < b)%Z then 1 else 0) + between a b l)%Z.
Proof. unfold between. rewrite filter_cons. rewrite decide_bool_decide. case_bool_decide; cbn [length]; lia. Qed.
Lemma between_none a b l : (∀ t, t ∈ l → (b <= t)%Z) → between a b l = 0%Z.
Proof. intros Hl. unfold between. rewrite filter_none; [done|]. intros t Ht [_ ?]. apply Hl in Ht. lia. Qed.
Lemma between_split a m b l : (between a b l <= between a m l + between m b l)%Z.
Proof.
  induction l as [|t l IH]; [done|]. rewrite !between_cons.
  repeat case_bool_decide; lia.
Qed.

Section bound.
  Context (limit W : Z) (Hlimit : (0 <= limit)%Z).

Definition adm (st : option ThrottleHit) (ts : list Z) : list Z :=
  admitted_at limit (own_run st (map (λ t, (t, Some W)) ts)).

(** The answer to a hit at [t]. *)
Definition answer (t : Z) (st : option ThrottleHit) : ThrottleHit :=
  match live t st with
  | Some c => MkHit (count c + 1) (resetAt c)
  | None => MkHit 1 (t + W)
  end.

Lemma adm_cons st t ts :
  adm st (t :: ts)
  = if (count (answer t st) <=? limit)%Z then t :: adm (Some (answer t st)) ts else adm (Some (answer t st)) ts.
Proof. unfold adm, answer. cbn. by destruct (live t st); cbn; destruct (_ <=? limit)%Z. Qed.

Lemma adm_sub ts : ∀ st t, t ∈ adm st ts → t ∈ ts.
Proof.
  induction ts as [|x ts IH]; intros st t; [done|]. rewrite adm_cons.
  destruct (_ <=? limit)%Z; rewrite ?elem_of_cons; naive_solver.
Qed.

Notation increasing := (StronglySorted Z.le).

Lemma increasing_lb t ts st : increasing (t :: ts) → ∀ x, x ∈ adm st ts → (t <= x)%Z.
Proof. intros [Hf _]%StronglySorted_cons x Hx%adm_sub. rewrite Forall_forall in Hf. by apply Hf. Qed.

(** A charge of one admission, or none, on top of the rest. *)
Lemma between_adm a b st t ts :
  (between a b (adm st (t :: ts))
   <= (if (count (answer t st) <=? limit)%Z && bool_decide (a <= t < b)%Z then 1 else 0)
      + between a b (adm (Some (answer t st)) ts))%Z.
Proof.
  rewrite adm_cons. destruct (count _ <=? limit)%Z; cbn [andb]; [|lia]. by rewrite between_cons.
Qed.

(** Within a window that has already counted some. *)
Lemma rest_of_window ts : ∀ a b c, increasing ts → (b <= resetAt c)%Z →
  (between a b (adm (Some c) ts) <= Z.max 0 (limit - count c))%Z.
Proof.
  induction ts as [|t ts IH]; intros a b c Hs Hb; [unfold between; cbn; lia|].
  destruct (resetAt c <=? t)%Z eqn:E; bprop.
  - rewrite between_none; [lia|]. intros x Hx%adm_sub. apply StronglySorted_cons in Hs as [Hf _].
    rewrite Forall_forall in Hf. apply elem_of_cons in Hx as [->|Hx%Hf]; lia.
  - assert (answer t (Some c) = MkHit (count c + 1) (resetAt c)) as Ha.
    { unfold answer, live, expired. cbn. by rewrite (proj2 (Z.leb_gt _ _)). }
    etrans; [apply between_adm|]. rewrite Ha. cbn [count].
    apply StronglySorted_cons in Hs as [_ Hs].
    pose proof (IH a b (MkHit (count c + 1) (resetAt c)) Hs Hb) as H. cbn [count] in H.
    destruct (count c + 1 <=? limit)%Z eqn:El; cbn [andb]; [|bprop; lia].
    bprop. case_bool_decide; lia.
Qed.

(** From a moment at which no window is open. *)
Lemma fresh_window ts a b x st :
  increasing ts → Forall (Z.le x) ts → live x st = None → (b <= x + W)%Z →
  (between a b (adm st ts) <= limit)%Z.
Proof.
  intros Hs Hx Hl Hb. destruct ts as [|t ts]; [unfold between; cbn; lia|].
  apply Forall_cons in Hx as [Hxt _]. assert (answer t st = MkHit 1 (t + W)) as Ha.
  { unfold answer. rewrite (live_mono x t st None Hxt Hl). done. }
  etrans; [apply between_adm|]. rewrite Ha. cbn [count]. apply StronglySorted_cons in Hs as [_ Hs].
  assert (b <= resetAt (MkHit 1 (t + W)))%Z as Hb' by (cbn; lia).
  pose proof (rest_of_window ts a b (MkHit 1 (t + W)) Hs Hb') as H. cbn [count] in H.
  destruct (1 <=? limit)%Z eqn:El; cbn [andb]; bprop; [case_bool_decide|]; lia.
Qed.

(** After the end of a window. *)
Lemma after_window ts : ∀ b c, increasing ts → (b <= resetAt c + W)%Z →
  (between (resetAt c) b (adm (Some c) ts) <= limit)%Z.
Proof.
  induction ts as [|t ts IH]; intros b c Hs Hb; [unfold between; cbn; lia|].
  destruct (resetAt c <=? t)%Z eqn:E; bprop.
  - apply (fresh_window (t :: ts) _ b (resetAt c)); [done| |unfold live, expired; cbn; by rewrite Z.leb_refl|done].
    apply StronglySorted_cons in Hs as [Hf _]. constructor; [done|]. eapply Forall_impl; [exact Hf|]. cbn. intros. lia.
  - assert (answer t (Some c) = MkHit (count c + 1) (resetAt c)) as Ha.
    { unfold answer, live, expired. cbn. by rewrite (proj2 (Z.leb_gt _ _)). }
    etrans; [apply between_adm|]. rewrite Ha, bool_decide_eq_false_2, andb_false_r by lia.
    apply StronglySorted_cons in Hs as [_ Hs].
    apply (IH b (MkHit (count c + 1) (resetAt c)) Hs Hb).
Qed.

Lemma two_windows ts : ∀ a st, increasing ts → (∀ c, st = Some c → (0 <= count c)%Z) →
  (between a (a + W) (adm st ts) <= 2 * limit)%Z.
Proof.
  induction ts as [|t ts IH]; intros a st Hs Hst; [unfold between; cbn; lia|].
  assert (0 <= count (answer t st))%Z as Hpos.
  { unfold answer. destruct (live t st) as [c|] eqn:E; cbn; [|lia].
    apply live_Some in E as [-> _]. specialize (Hst c eq_refl). lia. }
  destruct (t <? a)%Z eqn:E; bprop.
  - etrans; [apply between_adm|]. rewrite bool_decide_eq_false_2, andb_false_r by lia.
    apply StronglySorted_cons in Hs as [_ Hs]. apply (IH a _ Hs). by intros c [= <-].
  - assert (Forall (Z.le a) (t :: ts)) as Ha.
    { apply StronglySorted_cons in Hs as [Hf _]. constructor; [done|].
      eapply Forall_impl; [exact Hf|]. cbn. intros. lia. }
    destruct (live a st) as [c|] eqn:El.
    + apply live_Some in El as [-> Hc]. specialize (Hst c eq_refl). unfold expired in Hc. bprop.
      pose proof (between_split a (resetAt c) (a + W) (adm (Some c) (t :: ts))).
      pose proof (rest_of_window (t :: ts) a (resetAt c) c Hs ltac:(lia)).
      pose proof (after_window (t :: ts) (a + W) c Hs ltac:(lia)). lia.
    + pose proof (fresh_window (t :: ts) a (a + W) a st Hs Ha El ltac:(lia)). lia.
Qed.
End bound.

Lemma own_hits k W tr :
  (∀ e, e ∈ tr → c_key e = k → c_window e = Some W) →
  own k tr = map (λ t, (t, Some W)) (own k tr).*1.
Proof.
  induction tr as [|e tr IH]; intros Hw; [done|].
  specialize (IH (λ e' He', Hw e' (list_elem_of_further _ _ _ He'))). cbn.
  case_bool_decide as E; [|exact IH]. cbn. rewrite (Hw e ltac:(left) E). f_equal. exact IH.
Qed.

Lemma own_sorted k tr : in_order tr → StronglySorted Z.le (own k tr).*1.
Proof.
  induction 1 as [|e tr Htr IH Hf]; [constructor|]. cbn. case_bool_decide; [|done]. cbn. constructor; [done|].
  apply Forall_fmap, Forall_forall. intros [t w] (e' & He' & Hk)%list_elem_of_omap. rewrite Forall_forall in Hf.
  specialize (Hf e' He'). case_bool_decide; simplify_eq. exact Hf.
Qed.

(** What a limit is worth.  Whatever else the store serves and whenever it
    sweeps: in any stretch of time as long as the window, wherever it starts, a
    bucket that is only ever hit with this window admits at most twice its
    limit; one limit before a rollover and one after it. *)
Theorem at_most_twice_the_limit (k : string) (tr : list Call) (limit W a : Z)
  (Hord : in_order tr) (Hlimit : (0 <= limit)%Z)
  (Hw : ∀ e, e ∈ tr → c_key e = k → c_window e = Some W) :
  (between a (a + W) (admitted_at limit (for_key k (run new_store tr))) <= 2 * limit)%Z.
Proof.
  destruct tr as [|e tr]; [unfold between; cbn; lia|].
  rewrite (run_simulates k (e :: tr) new_store None (c_at e)); [| |done|done].
  - rewrite (own_hits k W) by done.
    apply (two_windows limit W Hlimit _ a None); [by apply own_sorted|done].
  - apply StronglySorted_cons in Hord as [He _]. constructor; [lia|done].
Qed.

(** ** The guard *)

Lemma charge_all_length {S} `{ThrottleStore S} bs w now (s : S) :
  length (charge_all bs w now s).1 = length bs.
Proof.
  revert s. induction bs as [|b bs IH]; intros s; [done|]. cbn.
  destruct (hit _ _ _ s) as [h s1]. specialize (IH s1). destruct (charge_all bs w now s1). cbn in *. lia.
Qed.

Lemma latest_ge hits h : h ∈ hits → (resetAt h.1 <= latest hits)%Z.
Proof.
  destruct hits as [|g hs]; [by intros ?%not_elem_of_nil|]. cbn.
  assert (∀ x, x ∈ hs → (resetAt x.1 <= foldr (λ h m, Z.max (resetAt h.1) m) (resetAt g.1) hs)%Z) as Hin.
  { induction hs as [|y hs IH]; [by intros x ?%not_elem_of_nil|]. cbn.
    intros x [->|Hx%IH]%elem_of_cons; lia. }
  assert (resetAt g.1 <= foldr (λ h m, Z.max (resetAt h.1) m) (resetAt g.1) hs)%Z as Hg.
  { clear. induction hs; cbn; lia. }
  intros [->|Hx%Hin]%elem_of_cons; done.
Qed.

Lemma ceil_seconds_ge ms : (ms <= 1000 * ceil_seconds ms)%Z.
Proof. unfold ceil_seconds. pose proof (Z.mul_div_le (- ms) 1000). lia. Qed.

(** The guard, over any store.  Every bucket is charged, also when another
    one already refuses; the request is admitted exactly when no enforced bucket
    is over the limit; and a refusal asks for at least one second and for no
    less than it takes every exceeded window to end. *)
Theorem throttle_verdict {S} `{ThrottleStore S} (fingerprint : jsstr → string) (options : ThrottleOptions)
  (req : Request) (now : Z) (s : S) :
  let '(hits, s') := charge_all (buckets_of fingerprint options req) (o_windowMs options) now s in
  let '(verdict, s'') := throttle fingerprint (Some options) req now s in
  s'' = s' ∧ length hits = length (buckets_of fingerprint options req)
  ∧ (verdict = inl tt ↔ ∀ h, h ∈ hits → h.2 = true → (count h.1 <= o_limit options)%Z)
  ∧ ∀ retryAfter, verdict = inr retryAfter →
      (1 <= retryAfter)%Z
      ∧ ∀ h, h ∈ hits → h.2 = true → (o_limit options < count h.1)%Z →
          (resetAt h.1 <= now + 1000 * retryAfter)%Z.
Proof.
  unfold throttle.
  pose proof (charge_all_length (buckets_of fingerprint options req) (o_windowMs options) now s) as Hl.
  destruct (charge_all _ _ _ s) as [hits s']. cbn in Hl.
  assert (∀ h, over (o_limit options) h = true ↔ h.2 = true ∧ (o_limit options < count h.1)%Z) as Hover.
  { intros h. unfold over. by rewrite andb_true_iff, Z.ltb_lt. }
  case_bool_decide as He.
  - split; [done|]. split; [done|]. split; [|done]. split; [|done]. intros _ h Hh Hen.
    destruct (Z.le_gt_cases (count h.1) (o_limit options)) as [|Hgt]; [done|].
    assert (h ∈ filter (λ h, over (o_limit options) h = true) hits) as Hin.
    { apply list_elem_of_filter. split; [|done]. apply Hover. done. }
    rewrite He in Hin. by apply not_elem_of_nil in Hin.
  - split; [done|]. split; [done|]. split.
    + split; [done|]. intros Hall. destruct He. apply filter_none. intros h Hh [Hen Hgt]%Hover.
      specialize (Hall h Hh Hen). lia.
    + intros r [= <-]. split; [lia|]. intros h Hh Hen Hgt.
      assert (h ∈ filter (λ h, over (o_limit options) h = true) hits) as Hin.
      { apply list_elem_of_filter. split; [|done]. apply Hover. done. }
      apply latest_ge in Hin. pose proof (ceil_seconds_ge (latest (filter (λ h, over (o_limit options) h = true) hits) - now)).
      lia.
Qed.

(** ** Redis *)

(** What the store relies on: [PTTL] answers the time to live and changes
    nothing, and a successful [PEXPIRE] sets it. *)
Record RedisLaws {R} (redis : ThrottleRedis R) (ttl_of : R → string → Z → Z) : Prop := {
  law_pttl k now r t r' : pttl redis k now r = (Some t, r') → t = ttl_of r k now ∧ r' = r;
  law_pexpire k ms now r u r' : pexpire redis k ms now r = (Some u, r') → ttl_of r' k now = ms
}.

(** The shared store fails neither open nor forever.  When a call to Redis
    throws, the answer and the next state are the local counter's; when none
    does, the key is left with a time to live, the one the answer reports, so
    that a key that had lost its expiry cannot count up for good. *)
Theorem redis_hit_spec {R} (redis : ThrottleRedis R) (ttl_of : R → string → Z → Z) (key : string)
  (windowMs now : Z) (s : RedisStore R)
  (Hlaws : RedisLaws redis ttl_of) (Hw : (0 <= windowMs)%Z) :
  let '(h, s') := redis_hit redis key windowMs now s in
  ((redis_count redis (KEY_PREFIX +:+ key) windowMs now (server s)).1 = None →
     (h, fallback s') = mem_hit key windowMs now (fallback s) ∧ is_Some (degradedSince s'))
  ∧ (∀ n t, (redis_count redis (KEY_PREFIX +:+ key) windowMs now (server s)).1 = Some (n, t) →
       count h = n ∧ fallback s' = fallback s ∧ degradedSince s' = None
       ∧ (0 <= ttl_of (server s') (KEY_PREFIX +:+ key) now)%Z
       ∧ resetAt h = (now + ttl_of (server s') (KEY_PREFIX +:+ key) now)%Z).
Proof.
  unfold redis_hit. destruct (redis_count redis _ windowMs now (server s)) as [[[n t]|] r] eqn:E.
  - split; [done|]. cbn. intros n' t' [= <- <-]. split; [done|]. split; [done|]. split; [done|].
    assert (t = ttl_of r (KEY_PREFIX +:+ key) now ∧ 0 <= t)%Z as [<- ?]; [|done].
    revert E. unfold redis_count. destruct (incr _ _ _ _) as [[n0|] r0]; [|done].
    destruct (pttl _ _ _ _) as [[t0|] r1] eqn:Et; [|done]. apply (law_pttl _ _ Hlaws) in Et as [-> ->].
    destruct (_ <? 0)%Z eqn:E; bprop.
    + destruct (pexpire _ _ _ _ _) as [[u|] r2] eqn:Ep; [|done].
      apply (law_pexpire _ _ Hlaws) in Ep as Ep'. intros [= -> <- <-]. done.
    + intros [= -> <- <-]. done.
  - cbn. destruct (mem_hit key windowMs now (fallback s)) as [h f]. cbn.
    split; [|done]. intros _. split; [done|]. destruct (degradedSince s); by eexists.
Qed.

(** ** Witnesses *)

(** Three hits on one key around a rollover, with other traffic between. *)
Definition tr_example : list Call :=
  [MkCall "a" 0 (Some 100); MkCall "b" 1 (Some 100); MkCall "a" 99 (Some 100);
   MkCall "a" 100 (Some 100); MkCall "b" 101 None; MkCall "a" 150 (Some 100)]%Z.
Lemma tr_in_order : in_order tr_example.
Proof. repeat (constructor; [|repeat (constructor; [cbn; lia|]); constructor]). constructor. Qed.

Lemma store_refines_counter_witness :
  for_key "a" (run new_store tr_example)
  = [(0, Some (MkHit 1 100)); (99, Some (MkHit 2 100)); (100, Some (MkHit 1 200)); (150, Some (MkHit 2 200))]%Z.
Proof. rewrite (store_refines_counter "a" tr_example tr_in_order). reflexivity. Defined.

Lemma at_most_twice_the_limit_witness :
  (between 99 (99 + 100) (admitted_at 2 (for_key "a" (run new_store tr_example))) <= 2 * 2)%Z
  ∧ between 99 (99 + 100) (admitted_at 2 (for_key "a" (run new_store tr_example))) = 3%Z.
Proof.
  split; [|vm_compute; reflexivity].
  apply (at_most_twice_the_limit "a" tr_example 2 100 99 tr_in_order); [lia|].
  intros e He Hk. unfold tr_example in He.
  repeat (apply elem_of_cons in He as [->|He]; [first [reflexivity|discriminate Hk]|]).
  by apply not_elem_of_nil in He.
Defined.

(** A server that keeps a count and a deadline per key. *)
Notation Server := (gmap string (Z * option Z)).
Definition server_ttl (r : Server) (k : string) (now : Z) : Z :=
  match r !! k with
  | Some (_, Some d) => (d - now)%Z
  | Some (_, None) => -1
  | None => -2
  end%Z.
Definition toy_redis : ThrottleRedis Server := {|
  incr k _ r := let n := match r !! k with Some (n, _) => n + 1 | None => 1 end%Z in
                (Some n, <[k := (n, match r !! k with Some (_, d) => d | None => None end)]> r);
  pttl k now r := (Some (server_ttl r k now), r);
  pexpire k ms now r := match r !! k with
                        | Some (n, _) => (Some tt, <[k := (n, Some (now + ms)%Z)]> r)
                        | None => (None, r)
                        end;
  del k _ r := (Some tt, delete k r)
|}.
Lemma toy_laws : RedisLaws toy_redis server_ttl.
Proof.
  split; cbn; [by intros k now r t r' [= <- <-]|]. intros k ms now r u r'.
  destruct (r !! k) as [[n d]|]; [|done]. intros [= <- <-]. unfold server_ttl. rewrite lookup_insert_eq. lia.
Qed.

(** A key that lost its expiry after five hits gets one back. *)
Lemma redis_hit_spec_witness :
  let s := MkRedisStore (<["throttle:a" := (5%Z, None)]> ∅ : Server) new_store None in
  let '(h, s') := redis_hit toy_redis "a" 100 7 s in
  count h = 6%Z ∧ (0 <= server_ttl (server s') "throttle:a" 7)%Z.
Proof.
  intros s. pose proof (redis_hit_spec toy_redis server_ttl "a" 100 7 s toy_laws ltac:(lia)) as H.
  destruct (redis_hit toy_redis "a" 100 7 s) as [h s'].
  destruct H as [_ H]. destruct (H 6%Z 100%Z) as (Hc & _ & _ & Ht & _); [vm_compute; reflexivity|].
  split; [exact Hc|exact Ht].
Defined.
