(* ===== verification/ApiKeys.v ===== *)
(** API keys: the wire format of common/api-key.ts, the derived state of
    api-keys/api-key-state.ts, the derived authority of api-keys/effective-scopes.ts
    and the service of api-keys/api-keys.service.ts.

    SHA-256, the draws of [randomInt] and [new Date] on a string are parameters.
    The service does not use a transaction, and neither does the model. *)
From Stdlib Require Import ZArith Lia QArith.
From S2P Require Import Prelude Js Permissions RetryRules AuditTrail Db Scope.

(** ** The wire format *)

Definition API_KEY_SCHEME : jsstr := js "wk_".
Definition API_KEY_PREFIX_LENGTH : nat := 12.
Definition API_KEY_MIN_LENGTH : nat := 24.
Definition API_KEY_SECRET_LENGTH : nat := 32.
Definition ALPHABET : jsstr := js "ABCDEFGHIJKLMNOPQRSTUVWXYZabcdefghijklmnopqrstuvwxyz0123456789".
Definition underscore : N := 95.

(** [Environment] *)
Definition env_name (live : bool) : jsstr := if live then js "live" else js "test".

(** [s.indexOf(c)]; -1 is [None]. *)
Fixpoint indexOf (c : N) (s : jsstr) : option nat :=
  match s with
  | [] => None
  | x :: s => if (x =? c)%N then Some O else S <$> indexOf c s
  end.

Definition apiKeyPrefix (key : jsstr) : jsstr :=
  if (length key <=? API_KEY_PREFIX_LENGTH)%nat then key else take API_KEY_PREFIX_LENGTH key.

Definition apiKeyEnvironment (key : jsstr) : jsstr :=
  let rest := if startsWith key API_KEY_SCHEME then drop (length API_KEY_SCHEME) key else key in
  match indexOf underscore rest with
  | None => []
  | Some i => take i rest
  end.

Definition isValidApiKeyShape (key : jsstr) : bool :=
  if (length key <? API_KEY_MIN_LENGTH)%nat || negb (startsWith key API_KEY_SCHEME) then false
  else
    let rest := drop (length API_KEY_SCHEME) key in
    match indexOf underscore rest with
    | None => false
    | Some i =>
        let env := take i rest in
        let secret := drop (S i) rest in
        if (length secret =? 0)%nat then false
        else seqb env (js "live") || seqb env (js "test")
    end.

(** [ALPHABET[i]] *)
Definition letter (i : nat) : N := default 0%N (ALPHABET !! i).
(** One draw of [randomInt(62)] per character. *)
Definition randomSecret (draws : list nat) : jsstr := map letter draws.

Record GeneratedApiKey : Type := MkGenerated {
  g_key : jsstr;
  g_keyHash : jsstr;
  g_keyPrefix : jsstr;
  g_live : bool
}.

Section Format.
  (** Lowercase hex SHA-256. *)
  Context (hashApiKey : jsstr → jsstr).

Definition generateApiKey (live : bool) (draws : list nat) : GeneratedApiKey :=
  let key := API_KEY_SCHEME ++ env_name live ++ [underscore] ++ randomSecret draws in
  MkGenerated key (hashApiKey key) (apiKeyPrefix key) live.
End Format.

(** ** State *)

Inductive ApiKeyState : Type := state_active | state_expired | state_revoked.
#[export] Instance ApiKeyState_eq_dec : EqDecision ApiKeyState.
Proof. solve_decision. Defined.

Definition reached (t : option Z) (now : Z) : bool := if t is Some t then (t <=? now)%Z else false.

Definition apiKeyState (k : ApiKey.t) (now : Z) : ApiKeyState :=
  if reached (ApiKey.revokedAt k) now then state_revoked
  else if reached (ApiKey.expiresAt k) now then state_expired
  else state_active.

Definition isApiKeyUsable (k : ApiKey.t) (now : Z) : bool := bool_decide (apiKeyState k now = state_active).

(** ** Authority *)

(** The permission a string names. *)
Definition permission_of (s : jsstr) : option Permission :=
  snd <$> list_find (λ p, permission_name p = s) PERMISSIONS.

(** The loop over the stored scopes; [effective] is what it has pushed. *)
Fixpoint effective_loop (held : list Permission) (stored : list jsstr) (effective : list Permission)
  : list Permission :=
  match stored with
  | [] => effective
  | s :: stored =>
      match permission_of s with
      | Some p =>
          if bool_decide (p ∈ held) && negb (bool_decide (p ∈ effective))
          then effective_loop held stored (effective ++ [p])
          else effective_loop held stored effective
      | None => effective_loop held stored effective
      end
  end.

Definition effectiveScopes (stored : list jsstr) (issuerRole : option MemberRole) : list Permission :=
  match issuerRole with
  | None => []
  | Some role => effective_loop (permissionsForRole role) stored []
  end.

(** ** The service *)

Record CreateApiKeyDto : Type := MkCreateKey {
  ck_name : jsstr;
  ck_expires_at : option jsstr;
  ck_scopes : option (list jsstr)
}.

(** The fields of a response that are derived. *)
Record ApiKeyDto : Type := MkKeyDto {
  kd_key : ApiKey.t;
  kd_status : ApiKeyState;
  kd_effective_scopes : list Permission;
  kd_created_by_role : option MemberRole
}.

Definition toApiKeyDto (k : ApiKey.t) (now : Z) (issuerRole : option MemberRole) : ApiKeyDto :=
  MkKeyDto k (apiKeyState k now) (effectiveScopes (ApiKey.scopes k) issuerRole) issuerRole.

(** [resolveScopes]: the scopes must be known and held by the caller. *)
Fixpoint resolve_loop (granted : list Permission) (requested : list jsstr) (scopes : list Permission)
  : result (list Permission) :=
  match requested with
  | [] => Ok scopes
  | raw :: requested =>
      match permission_of (trim raw) with
      | None => throw invalid_request "is not a known permission."
      | Some p =>
          if negb (bool_decide (p ∈ granted))
          then throw forbidden "You cannot issue a key with a scope your role does not hold."
          else resolve_loop granted requested (if bool_decide (p ∈ scopes) then scopes else scopes ++ [p])
      end
  end.
Definition resolveScopes (granted : list Permission) (requested : option (list jsstr))
  : result (list Permission) := resolve_loop granted (default [] requested) [].

Definition assertContract (key : jsstr) (live : bool) : result unit :=
  _ ← throw_if (negb (isValidApiKeyShape key)) internal_error
        "Generated API key does not satisfy the shared key shape.";
  throw_if (negb (seqb (apiKeyEnvironment key) (env_name live))) internal_error
    "Generated API key claims another environment than the project's.".

Definition opt_date (o : option Z) : meta := if o is Some t then MStr (toISOString t) else MNull.
Definition role_name (r : MemberRole) : string :=
  match r with
  | owner => "owner" | admin => "admin" | developer => "developer" | viewer => "viewer" | billing => "billing"
  end.

Section Service.
  Context (hashApiKey : jsstr → jsstr) (parseDate : jsstr → option Z).
  Context (c : Ctx) (granted : list Permission) (ceiling : Z).

Definition parseExpiry (value : option jsstr) (now : Z) : result (option Z) :=
  match value with
  | None => Ok None
  | Some v =>
      match parseDate v with
      | None => throw invalid_request "expires_at must be an ISO-8601 timestamp."
      | Some t => if (t <=? now)%Z then throw invalid_request "expires_at must be in the future." else Ok (Some t)
      end
  end.

Definition assertBelowCeiling : M Db unit :=
  existing ← count c (λ _ k, bool_decide (ApiKey.revokedAt k = None));
  guardM (negb (existing <? ceiling)%Z) limit_exceeded "This project is at its limit of un-revoked API keys.".

(** The project of the context, as the resolver loaded it: [live] is its
    environment. *)
Definition keys_create (live : bool) (dto : CreateApiKeyDto) (id : string) (draws : list nat) (now : Z)
    : M Db (ApiKeyDto * jsstr) :=
  _ ← lift (requireProject c);
  let name := trim (ck_name dto) in
  expiresAt ← lift (parseExpiry (ck_expires_at dto) now);
  scopes ← lift (resolveScopes granted (ck_scopes dto));
  _ ← assertBelowCeiling;
  let generated := generateApiKey hashApiKey live draws in
  _ ← lift (assertContract (g_key generated) live);
  key ← create c id (λ t, ApiKey.mk (tc_project t) name (g_keyHash generated) (g_keyPrefix generated)
    (map permission_name scopes) (g_live generated) expiresAt None None
    (Some (ctx_user c)) (Some (ctx_membership c)) now now);
  _ ← recordFor c "api_key.created" "api_key" (Some id)
        [(js "name", MStr name); (js "key_prefix", MStr (ApiKey.keyPrefix key));
         (js "environment", MStr (env_name (ApiKey.live key)));
         (js "expires_at", opt_date expiresAt);
         (js "scopes", MArr (map (λ p, MStr (permission_name p)) scopes));
         (js "created_by_user_id", MStr (js (ctx_user c)));
         (js "created_by_membership_id", MStr (js (ctx_membership c)));
         (js "created_by_role", MStr (js (role_name (ctx_role c))))];
  mret (toApiKeyDto key now (Some (ctx_role c)), g_key generated).

(** The role the issuer's membership has now, if it is still a member of this
    organization: [issuerRoles] and [roleOf] for one key. *)
Definition issuerRole (k : ApiKey.t) : M Db (option MemberRole) :=
  match ApiKey.createdByMembershipId k with
  | None | Some EmptyString => mret None
  | Some m =>
      members ← findAll (R:=Member.t) c (λ i _, bool_decide (i = m));
      mret (Member.role ∘ snd <$> head members)
  end.

Definition present (k : ApiKey.t) (now : Z) : M Db ApiKeyDto :=
  role ← issuerRole k; mret (toApiKeyDto k now role).

(** [revoke]; the second reading is what the [catch] does. *)
Definition keys_revoke (id : string) (now : Z) : M Db ApiKeyDto :=
  existing ← requireById c id;
  if negb (bool_decide (ApiKey.revokedAt existing = None)) then present existing now
  else λ db,
    match updateById c id (λ k, ApiKey.set_updatedAt now (ApiKey.set_revokedAt (Some now) k)) db with
    | (Throw e, db) =>
        match find (R:=ApiKey.t) c db id with
        | Some raced => if bool_decide (ApiKey.revokedAt raced = None) then (Throw e, db) else present raced now db
        | None => (Throw e, db)
        end
    | (Ok key, db) =>
        (_ ← recordFor c "api_key.revoked" "api_key" (Some id)
               [(js "name", MStr (ApiKey.name key)); (js "key_prefix", MStr (ApiKey.keyPrefix key));
                (js "environment", MStr (env_name (ApiKey.live key)));
                (js "revoked_at", MStr (toISOString now))];
         present key now) db
    end.
End Service.

(** ** The format *)

(** What is generated parses.  For either environment and any thirty-two
    draws, the generated key satisfies the shape the data plane checks, so the
    assertion before the insert never fires; reading the key gives back its
    environment and its secret; and the stored prefix is the scheme, the
    environment and the first four characters of the secret. *)
Theorem generated_key_roundtrip (hashApiKey : jsstr → jsstr) (live : bool) (draws : list nat)
  (Hlen : length draws = API_KEY_SECRET_LENGTH) :
  let g := generateApiKey hashApiKey live draws in
  assertContract (g_key g) live = Ok tt
  ∧ isValidApiKeyShape (g_key g) = true
  ∧ apiKeyEnvironment (g_key g) = env_name live
  ∧ drop 8 (g_key g) = randomSecret draws
  ∧ g_keyPrefix g = API_KEY_SCHEME ++ env_name live ++ [underscore] ++ take 4 (randomSecret draws)
  ∧ g_keyHash g = hashApiKey (g_key g).
Proof.
  intros g. set (s := randomSecret draws). assert (length s = 32) as Hs.
  { unfold s, randomSecret. by rewrite length_map. }
  assert (g_key g = API_KEY_SCHEME ++ env_name live ++ [underscore] ++ s) as Hg by done.
  assert (startsWith (g_key g) API_KEY_SCHEME = true) as Hst.
  { apply startsWith_spec. rewrite Hg. eauto. }
  assert (drop (length API_KEY_SCHEME) (g_key g) = env_name live ++ [underscore] ++ s) as Hdrop.
  { rewrite Hg. apply drop_app_length. }
  assert (indexOf underscore (env_name live ++ [underscore] ++ s) = Some 4) as Hi by by destruct live.
  assert (take 4 (env_name live ++ [underscore] ++ s) = env_name live) as Ht by by destruct live.
  assert (apiKeyEnvironment (g_key g) = env_name live) as He.
  { unfold apiKeyEnvironment. by rewrite Hst, Hdrop, Hi, Ht. }
  assert (isValidApiKeyShape (g_key g) = true) as Hv.
  { unfold isValidApiKeyShape. rewrite Hst, Hdrop, Hi, Ht.
    assert (length (g_key g) = 40) as -> by (rewrite Hg, !length_app, Hs; by destruct live).
    assert (drop 5 (env_name live ++ [underscore] ++ s) = s) as -> by by destruct live.
    rewrite Hs. by destruct live. }
  split_and!; try done.
  - unfold assertContract. rewrite Hv, He. unfold seqb. by rewrite bool_decide_eq_true_2.
  - rewrite Hg. by destruct live.
  - assert (g_keyPrefix g = apiKeyPrefix (g_key g)) as -> by done. rewrite Hg. unfold apiKeyPrefix.
    rewrite (proj2 (Nat.leb_gt _ _)); [by destruct live|]. rewrite !length_app, Hs.
    apply Nat.ltb_lt. by destruct live.
Qed.

(** ** Authority *)

Lemma permission_of_name p : permission_of (permission_name p) = Some p.
Proof. by destruct p. Qed.
Lemma permission_of_Some s p : permission_of s = Some p ↔ s = permission_name p.
Proof.
  split; [|intros ->; apply permission_of_name].
  unfold permission_of. intros ([i q] & Hf & [= ->])%fmap_Some. by apply list_find_Some in Hf as (_ & -> & _).
Qed.

Lemma effective_loop_spec held stored : ∀ eff p,
  p ∈ effective_loop held stored eff ↔ p ∈ eff ∨ (p ∈ held ∧ permission_name p ∈ stored).
Proof.
  induction stored as [|s stored IH]; intros eff p; cbn [effective_loop]; [set_solver|].
  setoid_rewrite elem_of_cons. destruct (permission_of s) as [q|] eqn:E.
  - apply permission_of_Some in E as ->.
    assert (permission_name p = permission_name q ↔ p = q) as Hpq.
    { split; [|by intros ->]. intros E. apply (inj Some). by rewrite <- !permission_of_name, E. }
    repeat case_bool_decide; cbn [andb negb]; rewrite IH, ?elem_of_app, ?list_elem_of_singleton, Hpq;
      naive_solver.
  - rewrite IH. assert (permission_name p ≠ s) as Hn; [|naive_solver].
    intros <-. by rewrite permission_of_name in E.
Qed.

Lemma resolve_loop_Ok granted requested : ∀ scopes out,
  resolve_loop granted requested scopes = Ok out →
  (∀ p, p ∈ scopes → p ∈ granted) → ∀ p, p ∈ out → p ∈ granted.
Proof.
  induction requested as [|raw requested IH]; intros scopes out; cbn [resolve_loop]; [by intros [= <-]|].
  destruct (permission_of (trim raw)) as [q|]; [|done].
  case_bool_decide as Hq; cbn; [|done]. intros Hr Hs. eapply IH; [exact Hr|].
  case_bool_decide; [done|]. intros p [?|Hx%list_elem_of_singleton]%elem_of_app; subst; auto.
Qed.

(** What [present] reports as effective. *)
Lemma present_spec c k now db d db' :
  present c k now db = (Ok d, db') →
  db' = db ∧ kd_key d = k ∧ kd_status d = apiKeyState k now
  ∧ ∀ p, p ∈ kd_effective_scopes d ↔
      permission_name p ∈ ApiKey.scopes k
      ∧ ∃ i m, ApiKey.createdByMembershipId k = Some i ∧ i ≠ EmptyString ∧ members db !! i = Some m
          ∧ Member.organizationId m = ctx_org c ∧ p ∈ permissionsForRole (Member.role m).
Proof.
  unfold present, issuerRole. intros H. minv. destruct (ApiKey.createdByMembershipId k) as [[|a i]|]; sinv; subst;
    (split; [done|]; split; [done|]; split; [done|]); intros p.
  - split; [by intros ?%not_elem_of_nil|]. intros (_ & i & m & [= <-] & Hne & _). by destruct Hne.
  - rewrite (matching_key c db (String a i)). cbn [kd_effective_scopes toApiKeyDto].
    destruct (find c db (String a i)) as [m|] eqn:E.
    + rewrite map_to_list_singleton.
      cbn [head]. change ((Member.role ∘ snd) <$> Some (String a i, m)) with (Some (Member.role m)).
      cbn [effectiveScopes]. rewrite effective_loop_spec.
      apply find_Some in E as [Hm Ht]. unfold in_tenant in Ht. cbn in Ht. unfold eqo in Ht. bprop.
      injection Ht as Ht. split.
      * intros [H%not_elem_of_nil|[Hh Hs]]; [destruct H|]. split; [exact Hs|]. exists (String a i), m.
        split_and!; [reflexivity|discriminate|exact Hm|exact Ht|exact Hh].
      * intros (Hs & i' & m' & [= <-] & _ & Hm' & _ & Hp). right. change (tbl db) with (members db) in Hm.
        rewrite Hm in Hm'. by injection Hm' as <-.
    + rewrite map_to_list_empty. split; [by intros ?%not_elem_of_nil|].
      intros (_ & i' & m & [= <-] & _ & Hm & Ho & _). exfalso.
      assert (find c db (String a i) = Some m) as E'; [|congruence].
      apply find_Some. split; [done|]. unfold in_tenant. cbn. unfold eqo. rewrite Ho. by apply bool_decide_eq_true_2.
  - split; [by intros ?%not_elem_of_nil|]. by intros (_ & i & m & ? & _).
Qed.

(** ** The life of a key *)

(** What may become of a row: its issuer can be forgotten and it can be revoked
    once; nothing else about it ever changes. *)
Record descends (k k' : ApiKey.t) : Prop := {
  de_project : ApiKey.projectId k' = ApiKey.projectId k;
  de_hash : ApiKey.keyHash k' = ApiKey.keyHash k;
  de_scopes : ApiKey.scopes k' = ApiKey.scopes k;
  de_live : ApiKey.live k' = ApiKey.live k;
  de_expires : ApiKey.expiresAt k' = ApiKey.expiresAt k;
  de_issuer : ApiKey.createdByMembershipId k' = ApiKey.createdByMembershipId k
              ∨ ApiKey.createdByMembershipId k' = None;
  de_revoked t : ApiKey.revokedAt k = Some t → ApiKey.revokedAt k' = Some t
}.
#[export] Instance descends_preorder : PreOrder descends.
Proof.
  split; [by intros k; split; auto|]. intros a b d [] []. split; try congruence; [|eauto].
  destruct de_issuer0, de_issuer1; [left; congruence|by right|right; congruence|by right].
Qed.

Definition keys_kept (db db' : Db) : Prop :=
  ∀ i k, apiKeys db !! i = Some k → ∃ k', apiKeys db' !! i = Some k' ∧ descends k k'.
#[export] Instance keys_kept_preorder : PreOrder keys_kept.
Proof.
  split; [by intros db i k Hk; exists k|]. intros a b d H1 H2 i k (k1 & Hk1 & D1)%H1.
  destruct (H2 i k1 Hk1) as (k2 & Hk2 & D2). exists k2. split; [done|]. by etrans.
Qed.

Lemma kept_same db db' : apiKeys db' = apiKeys db → keys_kept db db'.
Proof. intros E i k Hk. exists k. by rewrite E. Qed.

Lemma recordFor_kept c action ty id md : Respects keys_kept (recordFor c action ty id md).
Proof. intros db. by apply kept_same. Qed.

Lemma create_kept c id (mk : TenantColumns → ApiKey.t) : Respects keys_kept (create c id mk).
Proof.
  intros db. destruct (create c id mk db) as [[r|e] db'] eqn:E; cbn [snd].
  - apply create_Ok in E as (t & _ & _ & _ & Hid & _ & ->). intros i k Hk. exists k. cbn.
    rewrite lookup_insert_ne; [done|]. intros ->. change (tbl db) with (apiKeys db) in Hid. congruence.
  - apply create_Throw in E as ->. reflexivity.
Qed.

Lemma keys_create_kept h pd c granted ceiling live dto id draws now :
  Respects keys_kept (keys_create h pd c granted ceiling live dto id draws now).
Proof.
  unfold keys_create, assertBelowCeiling, count. repeat respects_step; [apply create_kept|apply recordFor_kept].
Qed.

Lemma present_run c k now db : ∃ d, present c k now db = (Ok d, db) ∧ kd_key d = k.
Proof.
  unfold present, issuerRole. destruct (ApiKey.createdByMembershipId k) as [[|a i]|]; by eexists.
Qed.

(** A revocation, as a function of the row it finds. *)
Definition revoked_row (now : Z) (k : ApiKey.t) : ApiKey.t :=
  ApiKey.set_updatedAt now (ApiKey.set_revokedAt (Some now) k).

Lemma keys_revoke_run c id now db :
  match find (R:=ApiKey.t) c db id with
  | None => (keys_revoke c id now db) = (throw not_found CROSS_TENANT_MESSAGE, db)
  | Some k =>
      ∃ d, if bool_decide (ApiKey.revokedAt k = None)
           then ∃ f, keys_revoke c id now db
                     = (Ok d, upd_auditLogs f (upd_apiKeys (<[id := revoked_row now k]>) db))
                     ∧ kd_key d = revoked_row now k
           else keys_revoke c id now db = (Ok d, db) ∧ kd_key d = k
  end.
Proof.
  unfold keys_revoke, mbind, M_bind. rewrite (requireById_eq (R:=ApiKey.t)).
  destruct (find c db id) as [k|] eqn:E; [|done].
  case_bool_decide as Hr; cbn [negb].
  - rewrite (updateById_run (R:=ApiKey.t) c id); fold (revoked_row now).
    2:{ intros r [_ Ht]%find_Some. unfold in_tenant in *. cbn in *. unfold project_matches, project_org in *.
        destruct r; cbn in *. exact Ht. }
    rewrite E. unfold recordFor, modify.
    match goal with |- context [present c ?k now ?s] => destruct (present_run c k now s) as (d & Hd & Hk) end.
    exists d. eexists. split; [exact Hd|exact Hk].
  - destruct (present_run c k now db) as (d & -> & Hk). by exists d.
Qed.

(** One request, the end of a membership, or anything that leaves the keys
    alone. *)
Inductive key_step : Db → Db → Prop :=
| ks_create h pd c granted ceiling live dto id draws now db :
    key_step db (keys_create h pd c granted ceiling live dto id draws now db).2
| ks_revoke c id now db : key_step db (keys_revoke c id now db).2
| ks_member_gone m db : key_step db (on_delete (R:=Member.t) m db)
| ks_other db db' : apiKeys db' = apiKeys db → key_step db db'.

Lemma key_step_kept db db' : key_step db db' → keys_kept db db'.
Proof.
  destruct 1 as [h pd c granted ceiling live dto id draws now db|c id now db|m db|db db' E].
  - apply keys_create_kept.
  - pose proof (keys_revoke_run c id now db) as Hr. destruct (find c db id) as [k|] eqn:E; [|by rewrite Hr].
    destruct Hr as [d Hr]. case_bool_decide as Hn; [|destruct Hr as [-> _]; done].
    destruct Hr as (f & -> & _). cbn [snd]. apply find_Some in E as [E _]. change (tbl db) with (apiKeys db) in E.
    intros i k0 Hk0. cbn. destruct (decide (i = id)) as [->|Hne].
    + rewrite lookup_insert_eq. eexists. split; [reflexivity|]. rewrite E in Hk0. injection Hk0 as <-.
      split; try done; [by left|]. intros t Ht. congruence.
    + rewrite lookup_insert_ne by done. eauto. exists k0. done.
  - intros i k Hk. cbn. rewrite lookup_fmap, Hk. eexists. split; [reflexivity|].
    case_bool_decide; [split; cbn; auto|reflexivity].
  - by apply kept_same.
Qed.

Lemma keys_kept_star db db' : star key_step db db' → keys_kept db db'.
Proof. induction 1; [reflexivity|]. etrans; [by apply key_step_kept|done]. Qed.

(** C24. A key never outgrows its issuer.  Whatever happens after a key was
    minted, the scopes reported as effective for it are among the permissions
    its issuer held when minting it, and among those the issuer's membership has
    at that moment in the organization that asks; when that membership is gone
    there are none. *)
Theorem key_authority (h : jsstr → jsstr) (pd : jsstr → option Z) (c : Ctx) (granted : list Permission)
  (ceiling : Z) (live : bool) (dto : CreateApiKeyDto) (id : string) (draws : list nat) (now : Z)
  (db0 db1 db2 db3 : Db) (d d' : ApiKeyDto) (plaintext : jsstr) (c' : Ctx) (k : ApiKey.t) (now' : Z)
  (Hmint : keys_create h pd c granted ceiling live dto id draws now db0 = (Ok (d, plaintext), db1))
  (Hrun : star key_step db1 db2) (Hk : apiKeys db2 !! id = Some k)
  (Hpresent : present c' k now' db2 = (Ok d', db3)) :
  ApiKey.keyHash k = h plaintext ∧ ApiKey.live k = live
  ∧ ∀ p, p ∈ kd_effective_scopes d' →
      p ∈ granted
      ∧ ∃ m, members db2 !! ctx_membership c = Some m ∧ Member.organizationId m = ctx_org c'
           ∧ p ∈ permissionsForRole (Member.role m).
Proof.
  unfold keys_create, assertBelowCeiling in Hmint. sinv. subst.
  destruct (keys_kept_star _ _ Hrun id _ (lookup_insert_eq _ _ _)) as (k' & Hk' & D).
  rewrite Hk in Hk'. injection Hk' as <-. destruct D as [_ Dh Ds Dl _ Di _].
  simplify_eq. split; [done|]. split; [done|]. intros p Hp.
  apply present_spec in Hpresent as (_ & _ & _ & Hspec). apply Hspec in Hp as (Hs & i & m & Hi & _ & Hm & Ho & Hr).
  split.
  - rewrite Ds in Hs. apply list_elem_of_fmap in Hs as (q & E & Hq).
    assert (p = q) as -> by (apply (inj Some); by rewrite <- !permission_of_name, E).
    eapply (resolve_loop_Ok granted _ []); [eassumption| |done]. by intros ? ?%not_elem_of_nil.
  - destruct Di as [Di|Di]; rewrite Di in Hi; [|done]. injection Hi as <-. eauto.
Qed.

(** Revocation is final and idempotent.  Once a revocation has answered,
    the row is there and reads revoked at every later moment, whatever requests
    follow; the moment it was first revoked stays on record; and revoking again
    changes nothing at all. *)
Theorem revocation_final (c : Ctx) (id : string) (now : Z) (db db1 db2 : Db) (d : ApiKeyDto)
  (Hrev : keys_revoke c id now db = (Ok d, db1)) (Hrun : star key_step db1 db2) :
  ∃ k t, apiKeys db2 !! id = Some k ∧ ApiKey.revokedAt k = Some t
    ∧ ApiKey.revokedAt (kd_key d) = Some t
    ∧ (∀ now', (Z.max now t <= now')%Z → apiKeyState k now' = state_revoked ∧ isApiKeyUsable k now' = false)
    ∧ ∀ c' now', (∃ r, keys_revoke c' id now' db2 = (r, db2)).
Proof.
  assert (∃ k t, apiKeys db1 !! id = Some k ∧ ApiKey.revokedAt k = Some t ∧ kd_key d = k) as (k1 & t & Hk1 & Ht & Hd).
  { pose proof (keys_revoke_run c id now db) as Hr. destruct (find c db id) as [k|] eqn:E; [|by rewrite Hrev in Hr].
    destruct Hr as [d0 Hr]. case_bool_decide as Hn.
    - destruct Hr as (f & Hr & Hd). rewrite Hrev in Hr. simplify_eq. eexists _, now.
      split; [cbn; apply lookup_insert_eq|]. done.
    - destruct Hr as [Hr Hd]. rewrite Hrev in Hr. injection Hr as <- <-. apply find_Some in E as [E _].
      destruct (ApiKey.revokedAt k) as [t|] eqn:Ht; [|done]. by exists k, t. }
  destruct (keys_kept_star _ _ Hrun id k1 Hk1) as (k & Hk & D). exists k, t.
  pose proof (de_revoked _ _ D t Ht) as Hkt. split; [done|]. split; [done|]. split; [by subst|]. split.
  - intros now' Hle. assert (apiKeyState k now' = state_revoked) as E.
    { unfold apiKeyState, reached. rewrite Hkt. by rewrite (proj2 (Z.leb_le _ _)) by lia. }
    split; [done|]. unfold isApiKeyUsable. by rewrite E.
  - intros c' now'. pose proof (keys_revoke_run c' id now' db2) as Hr.
    destruct (find c' db2 id) as [k'|] eqn:E; [|eauto]. destruct Hr as [d' Hr].
    apply find_Some in E as [E _]. change (tbl db2) with (apiKeys db2) in E. rewrite Hk in E. injection E as <-.
    rewrite bool_decide_eq_false_2 in Hr by congruence. destruct Hr as [-> _]. eauto.
Qed.

(** ** Witnesses *)

Definition key_ctx : Ctx := MkCtx "o1" (Some "p1") "m1" developer "u1".
Definition key_dto : CreateApiKeyDto := MkCreateKey (js " ingest ") None (Some [js "events.read"; js "endpoints.write"]).
Definition key_db : Db := upd_members (λ _, {["m1" := Member.mk "o1" "u1" developer]}) two_orgs.
Definition minted : result (ApiKeyDto * jsstr) * Db :=
  keys_create id (λ _, None) key_ctx (permissionsForRole developer) 50 true key_dto "k1" (repeat 0 32) 1 key_db.

Lemma generated_key_roundtrip_witness :
  isValidApiKeyShape (g_key (generateApiKey id true (repeat 61 32))) = true
  ∧ apiKeyEnvironment (g_key (generateApiKey id true (repeat 61 32))) = js "live".
Proof.
  destruct (generated_key_roundtrip id true (repeat 61 32)) as (_ & Hv & He & _); [reflexivity|].
  split; [exact Hv|exact He].
Defined.

(** The issuer is demoted to viewer after minting: only the read is left. *)
Definition demoted_db : Db := upd_members (λ _, {["m1" := Member.mk "o1" "u1" viewer]}) minted.2.

Lemma key_authority_witness :
  ∃ k d', apiKeys demoted_db !! "k1" = Some k
    ∧ present key_ctx k 5 demoted_db = (Ok d', demoted_db)
    ∧ kd_effective_scopes d' = [events_read]
    ∧ ∀ p, p ∈ kd_effective_scopes d' → p ∈ permissionsForRole developer.
Proof.
  assert (∃ d pt, minted.1 = Ok (d, pt)) as (d & pt & Hm) by (vm_compute; eauto).
  assert (∃ k, apiKeys demoted_db !! "k1" = Some k) as [k Hk] by (vm_compute; eauto).
  destruct (present_run key_ctx k 5 demoted_db) as (d' & Hp & _).
  exists k, d'. split; [exact Hk|]. split; [exact Hp|]. split.
  - assert (k = ApiKey.mk "p1" (js "ingest") (g_key (generateApiKey id true (repeat 0 32)))
              (js "wk_live_AAAA") [js "events.read"; js "endpoints.write"] true None None None
              (Some "u1") (Some "m1") 1 1) as -> by (vm_compute in Hk; by injection Hk as <-).
    vm_compute in Hp. by injection Hp as <-.
  - intros p Hin.
    destruct (key_authority id (λ _, None) key_ctx (permissionsForRole developer) 50 true key_dto "k1" (repeat 0 32) 1
                key_db minted.2 demoted_db demoted_db d d' pt key_ctx k 5) as (_ & _ & Ha).
    + rewrite <- Hm. apply surjective_pairing.
    + eapply star_step; [|apply star_refl]. by apply ks_other.
    + exact Hk.
    + exact Hp.
    + apply (Ha p Hin).
Defined.

Lemma revocation_final_witness :
  ∃ k t, apiKeys (keys_revoke key_ctx "k1" 7 minted.2).2 !! "k1" = Some k ∧ ApiKey.revokedAt k = Some t.
Proof.
  destruct (keys_revoke key_ctx "k1" 7 minted.2) as [[d|e] db1] eqn:E; [|vm_compute in E; discriminate E].
  destruct (revocation_final key_ctx "k1" 7 minted.2 db1 db1 d E (star_refl _ _)) as (k & t & Hk & Ht & _).
  exists k, t. split; [exact Hk|exact Ht].
Defined.
