(* ===== verification/ProjectTemplate.v ===== *)
(** Starting a project from an existing one: projects/project-template.service.ts.

    The ids drawn for the copies are functions of the source row; the order in
    which PostgreSQL returns rows when none is asked for is a parameter. *)
From Stdlib Require Import ZArith Lia.
From S2P Require Import Prelude Js Permissions RetryRules AuditTrail Db Scope TenantScope EndpointSecrets Endpoints.

Record TemplateResult : Type := MkTemplate {
  tr_endpoints : nat;
  tr_subscriptions : nat;
  tr_retry_policies : nat;
  tr_signing_secrets : nat
}.

Definition MAX_COPIED : Z := 100.

(** [newId], per row copied. *)
Record FreshIds : Type := MkFresh {
  f_policy : string → string;
  f_endpoint : string → string;
  f_subscription : string → string
}.

Definition COPIED_REASON : jsstr :=
  js "Copied from another project. Check the URL, issue a signing secret, then resume it.".

(** The rows written. *)
Definition policy_copy (p : RetryPolicy.t) (now : Z) (t : TenantColumns) : RetryPolicy.t :=
  RetryPolicy.mk (tc_project t) (RetryPolicy.name p) (RetryPolicy.isDefault p) (RetryPolicy.settings p) now now.

Definition endpoint_copy (policies : gmap string string) (e : Endpoint.t) (now : Z) (t : TenantColumns)
    : Endpoint.t :=
  Endpoint.mk (tc_project t) (Endpoint.name e) (Endpoint.url e) (Endpoint.description e)
    EndpointStatus.paused false (Some COPIED_REASON) None (Endpoint.timeoutMs e)
    (Endpoint.maxConcurrency e) (Endpoint.rateLimit e) (Endpoint.rateLimitWindowSeconds e)
    (Endpoint.retryPolicyId e ≫= λ p, policies !! p) (Endpoint.customHeaders e) now now.

Definition subscription_copy (endpointId : string) (s : Subscription.t) (now : Z) (t : TenantColumns)
    : Subscription.t :=
  Subscription.mk (tc_project t) endpointId (Subscription.name s) (Subscription.eventTypes s)
    (Subscription.payloadFilter s) (Subscription.enabled s) now now.

(** [for (const row of page.rows) { await into.create(...); mapping.set(row.id, id) }] *)
Fixpoint copy_rows {R} `{Table R} `{!Repo R} (into : Ctx) (fresh : string → string)
    (mk : R → TenantColumns → R) (rows : list (string * R)) (mapping : gmap string string)
    : M Db (gmap string string) :=
  match rows with
  | [] => mret mapping
  | (id, r) :: rows =>
      _ ← create into (fresh id) (mk r);
      copy_rows into fresh mk rows (<[id := fresh id]> mapping)
  end.

Section Copy.
  Context (arrange : ∀ R : Type, list (string * R) → list (string * R)) (ids : FreshIds) (now : Z).

(** [findPage({ where, take: MAX_COPIED })] *)
Definition source_page {R} `{Table R} (from : Ctx) (p : string → R → bool) : M Db (list (string * R)) :=
  rows ← findAll from p;
  mret (p_rows (findPage (arrange R rows) (Some (int MAX_COPIED)) None)).

Definition copyRetryPolicies (from into : Ctx) (sourceProjectId : string) : M Db (gmap string string) :=
  rows ← source_page from (λ _ p, bool_decide (RetryPolicy.projectId p = sourceProjectId));
  copy_rows into (f_policy ids) (λ p, policy_copy p now) rows ∅.

Definition live_source (sourceProjectId : string) (e : Endpoint.t) : bool :=
  bool_decide (Endpoint.projectId e = sourceProjectId)
  && negb (bool_decide (Endpoint.status e = EndpointStatus.deleted)).

Definition copyEndpoints (from into : Ctx) (sourceProjectId : string) (policies : gmap string string)
    : M Db (gmap string string) :=
  rows ← source_page from (λ _ e, live_source sourceProjectId e);
  copy_rows into (f_endpoint ids) (λ e, endpoint_copy policies e now) rows ∅.

(** The loop of [copySubscriptions]; [copied] counts. *)
Fixpoint copy_subscriptions (into : Ctx) (endpoints : gmap string string)
    (rows : list (string * Subscription.t)) (copied : nat) : M Db nat :=
  match rows with
  | [] => mret copied
  | (id, s) :: rows =>
      match endpoints !! Subscription.endpointId s with
      | None => copy_subscriptions into endpoints rows copied
      | Some endpointId =>
          _ ← create into (f_subscription ids id) (subscription_copy endpointId s now);
          copy_subscriptions into endpoints rows (S copied)
      end
  end.

Definition copySubscriptions (from into : Ctx) (sourceProjectId : string) (endpoints : gmap string string)
    : M Db nat :=
  rows ← source_page from (λ _ s, bool_decide (Subscription.projectId s = sourceProjectId));
  copy_subscriptions into endpoints rows 0.

(** The context pinned to the source. *)
Definition sourceContext (c : Ctx) (sourceProjectId : string) : Ctx :=
  MkCtx (ctx_org c) (Some sourceProjectId) (ctx_membership c) (ctx_role c) (ctx_user c).

Definition copy (c : Ctx) (sourceProjectId targetProjectId : string) : M Db TemplateResult :=
  source ← findById (R:=Project.t) c sourceProjectId;
  match source with
  | None => throwM invalid_request
      "The project to copy from does not exist, or belongs to another organization."
  | Some _ =>
      _ ← guardM (bool_decide (sourceProjectId = targetProjectId)) invalid_request
            "A project cannot be copied from itself.";
      let from := sourceContext c sourceProjectId in
      policies ← copyRetryPolicies from c sourceProjectId;
      endpoints ← copyEndpoints from c sourceProjectId policies;
      subscriptions ← copySubscriptions from c sourceProjectId endpoints;
      mret (MkTemplate (size endpoints) subscriptions (size policies) 0)
  end.
End Copy.

(** ** The loops *)

(** What a loop of creations adds to a table. *)
Record added {R} `{Table R} (fresh : string → string) (row : R → R) (rows : list (string * R))
    (db db' : Db) : Prop := {
  ad_frame : db' = upd_tbl (λ _, tbl db') db;
  ad_rows j x : tbl db' !! j = Some x ↔
    tbl db !! j = Some x ∨ ∃ i r, (i, r) ∈ rows ∧ j = fresh i ∧ x = row r;
  ad_fresh i r : (i, r) ∈ rows → tbl db !! fresh i = None;
  ad_size : size (tbl db') = size (tbl db) + length rows
}.

Lemma added_nil {R} `{TableLaws R} fresh (row : R → R) db : added fresh row [] db db.
Proof.
  split.
  - rewrite <- (upd_same (R:=R) db) at 1. by apply upd_ext.
  - intros j x. split; [by left|intros [?|(? & ? & []%not_elem_of_nil & _)]; done].
  - by intros ? ? ?%not_elem_of_nil.
  - by rewrite Nat.add_0_r.
Qed.

Lemma added_cons {R} `{TableLaws R} fresh (row : R → R) i r rows db db' :
  tbl db !! fresh i = None →
  added fresh row rows (upd_tbl (insert (fresh i) (row r)) db) db' →
  added fresh row ((i, r) :: rows) db db'.
Proof.
  intros Hi [Hf Hr Hn Hs]. setoid_rewrite tbl_upd in Hr. setoid_rewrite tbl_upd in Hn.
  rewrite tbl_upd in Hs. split.
  - rewrite Hf at 1. rewrite upd_upd. by apply upd_ext.
  - intros j x. rewrite Hr. setoid_rewrite elem_of_cons.
    destruct (decide (j = fresh i)) as [->|Hj].
    + rewrite lookup_insert_eq, Hi. naive_solver.
    + rewrite lookup_insert_ne by done. naive_solver.
  - intros i' r' [[= -> ->]|Hin]%elem_of_cons; [done|].
    apply Hn in Hin. by apply lookup_insert_None in Hin as [? _].
  - rewrite Hs, map_size_insert_None by done. cbn. lia.
Qed.

Lemma copy_rows_Ok {R} `{TableLaws R} `{!Repo R} c fresh mk (rows : list (string * R)) : ∀ m m' db db',
  copy_rows c fresh mk rows m db = (Ok m', db') →
  (rows = [] ∧ m' = m ∧ db' = db) ∨
  ∃ t, tenantColumns t_kind c = Ok t
    ∧ added fresh (λ r, mk r t) rows db db'
    ∧ (∀ i, m' !! i = if bool_decide (i ∈ rows.*1) then Some (fresh i) else m !! i).
Proof.
  induction rows as [|[i r] rows IH]; intros m m' db db' E; cbn [copy_rows] in E.
  { apply mret_Ok in E as [-> ->]. by left. }
  right. apply bindM_Ok in E as (x & db1 & (t & Ht & -> & _ & Hi & _ & ->)%create_Ok & E).
  exists t. split; [done|].
  apply IH in E as [(-> & -> & ->)|(t' & Ht' & Ha & Hm)].
  - split; [by eapply added_cons, added_nil|]. intros j. cbn [fmap list_fmap fst].
    case_bool_decide as Hj; [apply list_elem_of_singleton in Hj as ->; by rewrite lookup_insert_eq|].
    rewrite lookup_insert_ne; [done|]. intros ->. apply Hj. by left.
  - assert (t' = t) as -> by congruence. split; [by apply added_cons|].
    intros j. rewrite Hm. cbn [fmap list_fmap fst]. destruct (decide (j = i)) as [->|Hj].
    + rewrite lookup_insert_eq, (bool_decide_eq_true_2 (i ∈ i :: _)) by by left.
      by destruct (bool_decide _).
    + rewrite lookup_insert_ne by done. erewrite bool_decide_ext; [done|].
      rewrite elem_of_cons. naive_solver.
Qed.

Section copy_facts.
  Context (arrange : ∀ R : Type, list (string * R) → list (string * R)) (ids : FreshIds) (now : Z).

(** The endpoint a copied subscription points at. *)
Definition moved (m : gmap string string) (s : Subscription.t) : string :=
  default EmptyString (m !! Subscription.endpointId s).
Definition has_home (m : gmap string string) (r : string * Subscription.t) : Prop :=
  is_Some (m !! Subscription.endpointId r.2).

Lemma copy_subscriptions_Ok c m rows : ∀ n n' db db',
  copy_subscriptions ids now c m rows n db = (Ok n', db') →
  let kept := filter (has_home m) rows in
  (kept = [] ∧ n' = n ∧ db' = db) ∨
  ∃ t, tenantColumns project c = Ok t
    ∧ added (f_subscription ids) (λ s, subscription_copy (moved m s) s now t) kept db db'
    ∧ n' = n + length kept.
Proof.
  induction rows as [|[i s] rows IH]; intros n n' db db' E; cbn [copy_subscriptions] in E.
  { apply mret_Ok in E as [-> ->]. by left. }
  cbn zeta. rewrite filter_cons. destruct (m !! Subscription.endpointId s) as [e|] eqn:He.
  - rewrite decide_True by (by exists e). right.
    apply bindM_Ok in E as (x & db1 & (t & Ht & -> & _ & Hi & _ & ->)%create_Ok & E).
    exists t. split; [done|].
    assert (subscription_copy e s now t = subscription_copy (moved m s) s now t) as Hrow
      by (unfold moved; by rewrite He).
    rewrite Hrow in E. apply IH in E as [(-> & -> & ->)|(t' & Ht' & Ha & ->)].
    + split; [by eapply (added_cons (R:=Subscription.t)), added_nil|]. cbn. lia.
    + change (tenantColumns project c = Ok t) in Ht. assert (t' = t) as -> by congruence.
      split; [by apply (added_cons (R:=Subscription.t))|]. cbn. lia.
  - rewrite decide_False by (intros [? ?]; cbn in *; congruence). by apply IH.
Qed.

Context (Hperm : ∀ R l, arrange R l ≡ₚ l).

Lemma source_page_Ok {R} `{TableLaws R} from p db rows db' :
  source_page arrange from p db = (Ok rows, db') →
  db' = db ∧ NoDup rows.*1
  ∧ (∀ i (r : R), (i, r) ∈ rows → matching from db p !! i = Some r)
  ∧ (size (matching from db p) ≤ 100 → ∀ i r, matching from db p !! i = Some r → (i, r) ∈ rows).
Proof.
  unfold source_page. intros E.
  apply bindM_Ok in E as (l & s & [-> ->]%findAll_Ok & E). apply mret_Ok in E as [-> ->].
  set (l := map_to_list (matching from db p)).
  destruct (findPage_facts (arrange R l) (Some (int MAX_COPIED)) None) as (-> & _ & _).
  change (Z.to_nat (pageSize (Some (int MAX_COPIED)))) with 100. 
  change (Z.to_nat (default 0%Z (offset None))) with 0. rewrite drop_0.
  pose proof (Hperm R l) as Hp. split; [done|]. split_and!.
  - apply (sublist_NoDup _ (arrange R l).*1).
    + rewrite Hp. apply NoDup_fst_map_to_list.
    + rewrite fmap_take. apply sublist_take.
  - intros i r Hin. apply elem_of_map_to_list. fold l. rewrite <- Hp.
    rewrite <- (take_drop 100 (arrange R l)). apply elem_of_app. by left.
  - intros Hs i r Hi. rewrite take_ge.
    + rewrite Hp. by apply elem_of_map_to_list.
    + rewrite Hp. unfold l. by rewrite length_map_to_list.
Qed.
End copy_facts.

(** ** What a copy is *)

Definition of_policies (src : string) (_ : string) (p : RetryPolicy.t) : bool :=
  bool_decide (RetryPolicy.projectId p = src).

(** [db'] extends [db] by copies of rows of project [src] into the tenant
    columns [t], and by nothing else; [mp] and [me] take the id of a source
    policy and endpoint to that of its copy. *)
Record template_copied (now : Z) (src : string) (t : TenantColumns) (mp me : gmap string string)
    (db db' : Db) (r : TemplateResult) : Prop := {
  (* only these tables change: no secret, key, delivery or health row appears *)
  tc_frame : db' = upd_subscriptions (λ _, subscriptions db') (upd_endpoints (λ _, endpoints db')
               (upd_retryPolicies (λ _, retryPolicies db') db));
  tc_kept : retryPolicies db ⊆ retryPolicies db' ∧ endpoints db ⊆ endpoints db'
            ∧ subscriptions db ⊆ subscriptions db';
  tc_policies j p' : retryPolicies db' !! j = Some p' → retryPolicies db !! j = Some p' ∨
    ∃ i p, retryPolicies db !! i = Some p ∧ RetryPolicy.projectId p = src ∧ mp !! i = Some j
         ∧ p' = policy_copy p now t;
  tc_endpoints j e' : endpoints db' !! j = Some e' → endpoints db !! j = Some e' ∨
    ∃ i e, endpoints db !! i = Some e ∧ live_source src e = true ∧ me !! i = Some j
         ∧ e' = endpoint_copy mp e now t;
  tc_subscriptions j s' : subscriptions db' !! j = Some s' → subscriptions db !! j = Some s' ∨
    ∃ i s e', subscriptions db !! i = Some s ∧ Subscription.projectId s = src
         ∧ me !! Subscription.endpointId s = Some e' ∧ s' = subscription_copy e' s now t;
  tc_mp i j : mp !! i = Some j → retryPolicies db !! j = None ∧ ∃ p, retryPolicies db !! i = Some p
    ∧ retryPolicies db' !! j = Some (policy_copy p now t);
  tc_me i j : me !! i = Some j → endpoints db !! j = None ∧ ∃ e, endpoints db !! i = Some e
    ∧ endpoints db' !! j = Some (endpoint_copy mp e now t);
  tc_counts : size (retryPolicies db') = size (retryPolicies db) + tr_retry_policies r
    ∧ size (endpoints db') = size (endpoints db) + tr_endpoints r
    ∧ size (subscriptions db') = size (subscriptions db) + tr_subscriptions r
    ∧ tr_signing_secrets r = 0
}.

(** A project small enough to be copied whole. *)
Definition small {R} (m : gmap string R) (p : R → bool) : Prop :=
  size (filter (λ kv, p kv.2 = true) m) ≤ 100.

Lemma in_source {R} `{Table R} c src db i (r : R) :
  t_kind = project → ctx_project c = Some src →
  in_tenant c db i r = eqo (x_project (t_cols i r)) src.
Proof. unfold in_tenant, project_matches. intros -> Hp. cbn. unfold project_matches. by rewrite Hp. Qed.

Lemma matching_source {R} `{TableLaws R} c src db (q : R → bool) :
  t_kind = project → ctx_project c = Some src →
  (∀ i r, q r = true → x_project (t_cols i r) = Some src) →
  matching c db (λ _ r, q r) = filter (λ kv, q kv.2 = true) (tbl db).
Proof.
  intros Hk Hc Hq. apply map_eq. intros i. apply option_eq. intros r.
  rewrite matching_lookup, map_lookup_filter_Some, (in_source c src) by done. cbn.
  unfold eqo. rewrite bool_decide_eq_true. naive_solver.
Qed.

(** A page of a loop of creations, seen from the table. *)
Lemma added_facts {R} `{TableLaws R} fresh (row : R → R) rows db db' (m : gmap string string) :
  added fresh row rows db db' → NoDup rows.*1 →
  (∀ i, m !! i = if bool_decide (i ∈ rows.*1) then Some (fresh i) else None) →
  tbl db ⊆ tbl db'
  ∧ (∀ j x, tbl db' !! j = Some x → tbl db !! j = Some x ∨
       ∃ i r, (i, r) ∈ rows ∧ m !! i = Some j ∧ x = row r)
  ∧ (∀ i j, m !! i = Some j → tbl db !! j = None ∧ ∃ r, (i, r) ∈ rows ∧ tbl db' !! j = Some (row r))
  ∧ size m = length rows.
Proof.
  intros [_ Hr Hn _] Hnd Hm. split_and!.
  - apply map_subseteq_spec. intros j x Hx. apply Hr. by left.
  - intros j x [Hx|(i & r & Hin & -> & ->)]%Hr; [by left|right]. exists i, r. split_and!; [done| |done].
    rewrite Hm, bool_decide_eq_true_2; [done|]. apply list_elem_of_fmap. by exists (i, r).
  - intros i j. rewrite Hm. case_bool_decide as Hi; [|done]. intros [= <-].
    apply list_elem_of_fmap in Hi as ([i' r] & -> & Hin). cbn. split; [by eapply Hn|].
    exists r. split; [done|]. apply Hr. right. eauto.
  - rewrite <- (length_fmap fst rows), <- (size_list_to_set (C:=gset string) rows.*1) by done.
    rewrite <- size_dom. f_equal. apply set_eq. intros i. rewrite elem_of_dom, Hm, elem_of_list_to_set.
    case_bool_decide; [naive_solver|]. split; [by intros []|done].
Qed.

(** A finished loop over a page: what it added, whether or not it added anything. *)
Lemma copy_page_Ok {R} `{TableLaws R} `{!Repo R} arrange (Hperm : ∀ R l, arrange R l ≡ₚ l)
    from c t fresh mk p db (m : gmap string string) db' :
  tenantColumns (t_kind (R:=R)) c = Ok t →
  (rows ← source_page arrange from p; copy_rows c fresh mk rows ∅) db = (Ok m, db') →
  ∃ rows : list (string * R),
    (∀ i r, (i, r) ∈ rows → tbl db !! i = Some r ∧ in_tenant from db i r = true ∧ p i r = true)
    ∧ db' = upd_tbl (λ _, tbl db') db
    ∧ (tbl db ⊆ tbl db'
       ∧ (∀ j x, tbl db' !! j = Some x → tbl db !! j = Some x ∨
            ∃ i r, (i, r) ∈ rows ∧ m !! i = Some j ∧ x = mk r t)
       ∧ (∀ i j, m !! i = Some j → tbl db !! j = None ∧ ∃ r, (i, r) ∈ rows ∧ tbl db' !! j = Some (mk r t))
       ∧ size m = length rows)
    ∧ size (tbl db') = size (tbl db) + length rows
    ∧ (size (matching from db p) ≤ 100 → ∀ i r, matching from db p !! i = Some r → is_Some (m !! i)).
Proof.
  intros Ht E. apply bindM_Ok in E as (rows & s & Hpage & E).
  apply (source_page_Ok _ Hperm) in Hpage as (-> & Hnd & Hin & Hall). exists rows.
  assert (added fresh (λ r, mk r t) rows db db'
          ∧ (∀ i, m !! i = if bool_decide (i ∈ rows.*1) then Some (fresh i) else None)) as [Ha Hm].
  { apply copy_rows_Ok in E as [(-> & -> & ->)|(t' & Ht' & Ha & Hm)].
    - split; [apply added_nil|]. intros i. rewrite lookup_empty, bool_decide_eq_false_2; [done|].
      apply not_elem_of_nil.
    - assert (t' = t) as -> by congruence. split; [done|]. intros i. by rewrite Hm, lookup_empty. }
  split_and!; [|apply Ha|by eapply (added_facts fresh (λ r, mk r t))..|by apply (ad_size _ _ _ _ _ Ha)|].
  - intros i r Hi%Hin. by apply matching_lookup.
  - intros Hs i r Hi. apply Hall in Hi; [|done]. rewrite Hm, bool_decide_eq_true_2; [by eexists|].
    apply list_elem_of_fmap. by exists (i, r).
Qed.

(** The same for the loop over subscriptions. *)
Lemma copy_subs_page_Ok arrange (Hperm : ∀ R l, arrange R l ≡ₚ l) ids now from c t m src db n db' :
  tenantColumns project c = Ok t →
  copySubscriptions arrange ids now from c src m db = (Ok n, db') →
  db' = upd_subscriptions (λ _, subscriptions db') db
  ∧ subscriptions db ⊆ subscriptions db'
  ∧ (∀ j s', subscriptions db' !! j = Some s' → subscriptions db !! j = Some s' ∨
       ∃ i s e', subscriptions db !! i = Some s ∧ Subscription.projectId s = src
         ∧ m !! Subscription.endpointId s = Some e' ∧ s' = subscription_copy e' s now t)
  ∧ size (subscriptions db') = size (subscriptions db) + n.
Proof.
  intros Ht E. apply bindM_Ok in E as (rows & s & Hpage & E).
  apply (source_page_Ok _ Hperm) in Hpage as (-> & _ & Hin & _).
  set (moving := filter (has_home m) rows).
  assert (added (f_subscription ids) (λ s, subscription_copy (moved m s) s now t) moving db db'
          ∧ n = length moving) as [Ha ->].
  { apply copy_subscriptions_Ok in E as [(E & -> & ->)|(t' & Ht' & Ha & ->)]; fold moving in E || fold moving in Ha.
    - rewrite E. split; [apply (added_nil (R:=Subscription.t))|done].
    - assert (t' = t) as -> by congruence. done. }
  split_and!; [apply Ha| | |apply (ad_size _ _ _ _ _ Ha)].
  - apply map_subseteq_spec. intros j x Hx. apply (ad_rows _ _ _ _ _ Ha). by left.
  - intros j s' [Hj|(i & s & Hi & -> & ->)]%(ad_rows _ _ _ _ _ Ha); [by left|right].
    apply list_elem_of_filter in Hi as [[e' He] Hi]. apply Hin, matching_lookup in Hi as (Hs & _ & Hp).
    exists i, s, e'. cbn in He. unfold moved. rewrite He. bprop. done.
Qed.

Lemma copy_Ok (arrange : ∀ R : Type, list (string * R) → list (string * R)) (ids : FreshIds)
    (now : Z) (c : Ctx) (src tgt : string) (db db' : Db) (r : TemplateResult)
    (Hperm : ∀ R l, arrange R l ≡ₚ l) (Hctx : ctx_project c = Some tgt)
    (Hcopy : copy arrange ids now c src tgt db = (Ok r, db')) :
  let t := {| tc_org := ctx_org c; tc_project := tgt |} in
  (∃ source, projects db !! src = Some source ∧ Project.organizationId source = ctx_org c)
  ∧ ∃ mp me, template_copied now src t mp me db db' r
    ∧ (small (retryPolicies db) (λ p, bool_decide (RetryPolicy.projectId p = src)) →
       ∀ i p, retryPolicies db !! i = Some p → RetryPolicy.projectId p = src → is_Some (mp !! i))
    ∧ (small (endpoints db) (live_source src) →
       ∀ i e, endpoints db !! i = Some e → live_source src e = true → is_Some (me !! i)).
Proof.
  intros t.
  assert (tenantColumns project c = Ok t) as Ht by (cbn; unfold requireProject; by rewrite Hctx).
  unfold copy in Hcopy.
  apply bindM_Ok in Hcopy as (source & s & [-> ->]%findById_Ok & E).
  destruct (find c db src) as [source|] eqn:Hsrc; [|by apply throwM_Ok in E].
  apply find_Some in Hsrc as [Hsrc Hso]. unfold in_tenant in Hso. cbn in Hso. unfold eqo in Hso. bprop.
  split; [by exists source; split; [done|congruence]|].
  apply bindM_Ok in E as (u & s & [_ ->]%guardM_Ok & E).
  apply bindM_Ok in E as (mp & db1 & E1 & E). apply bindM_Ok in E as (me & db2 & E2 & E).
  apply bindM_Ok in E as (n & db3 & E3 & E). apply mret_Ok in E as [-> ->].
  apply (copy_page_Ok _ Hperm _ _ t) in E1 as (rows1 & Hr1 & F1 & (K1 & N1 & M1 & S1) & Z1 & A1); [|done].
  apply (copy_page_Ok _ Hperm _ _ t) in E2 as (rows2 & Hr2 & F2 & (K2 & N2 & M2 & S2) & Z2 & A2); [|done].
  apply (copy_subs_page_Ok _ Hperm _ _ _ _ t) in E3 as (F3 & K3 & N3 & Z3); [|done].
  exists mp, me.
  cbn [tbl RetryPolicy_table Endpoint_table upd_tbl] in *.
  assert (endpoints db1 = endpoints db) as Q1 by by rewrite F1.
  assert (subscriptions db2 = subscriptions db) as Q2 by (rewrite F2, F1; done).
  assert (retryPolicies db3 = retryPolicies db1) as Q3 by (rewrite F3, F2; done).
  assert (endpoints db3 = endpoints db2) as Q4 by by rewrite F3.
  rewrite Q1 in *. rewrite Q2 in *. rewrite <- Q3 in *. rewrite <- Q4 in *.
  split_and!; [split| |].
  - rewrite F3 at 1. rewrite F2 at 1. rewrite F1 at 1. done.
  - done.
  - intros j p' [Hj|(i & p & Hi & Hm & ->)]%N1; [by left|right]. apply Hr1 in Hi as (Hi & _ & Hp).
    exists i, p. bprop. done.
  - intros j e' [Hj|(i & e & Hi & Hm & ->)]%N2; [by left|right]. apply Hr2 in Hi as (Hi & _ & Hp).
    exists i, e. done.
  - exact N3.
  - intros i j Hi. apply M1 in Hi as (Hn & p & Hi & Hj). apply Hr1 in Hi as (Hi & _). eauto.
  - intros i j Hi. apply M2 in Hi as (Hn & p & Hi & Hj). apply Hr2 in Hi as (Hi & _). eauto.
  - cbn. rewrite S1, S2. done.
  - rewrite (matching_source (sourceContext c src) src db (λ p, bool_decide (RetryPolicy.projectId p = src)))
      in A1 by (done || intros; bprop; cbn; congruence).
    intros Hs i p Hi Hp. eapply (A1 Hs i p), map_lookup_filter_Some. cbn.
    by rewrite bool_decide_eq_true_2.
  - rewrite (matching_source (sourceContext c src) src db1 (live_source src)) in A2
      by (done || unfold live_source; intros; bprop; cbn; congruence).
    cbn [tbl Endpoint_table] in A2. rewrite Q1 in A2.
    intros Hs i e Hi Hl. by eapply (A2 Hs i e), map_lookup_filter_Some.
Qed.

(** A paused copy has no secret to be enabled with. *)
Lemma enable_without_secret c id now db (e : Endpoint.t) :
  find c db id = Some e → endpoint_deleted e = false →
  (∀ k s, endpointSecrets db !! k = Some s → EndpointSecret.endpointId s ≠ id) →
  enable c id now db = (Throw (AppError conflict "This endpoint has no active signing secret."), db).
Proof.
  intros Hf Hd Hs. handler. unfold mbind, M_bind, lift, guardM, assertNotDeleted.
  rewrite requireById_eq, Hf, Hd. cbn [throw_if].
  destruct (hasLiveSecret c id now db) as [[b|er] db1] eqn:E.
  - assert (db1 = db) as -> by (revert E; unfold hasLiveSecret, liveSecretEndpointIds, findAll;
      cbn; by intros [= _ <-]).
    destruct b; [|done]. exfalso.
    destruct (hasLiveSecret_live c id now db) as (k & s & Hk & Hi & _); [by rewrite E|].
    by eapply Hs.
  - revert E. unfold hasLiveSecret, liveSecretEndpointIds, findAll. cbn. done.
Qed.

(** Copying a project into the project of the request's own context, when it
    succeeds: only retry policies, endpoints and subscriptions are added, no
    existing row changes, and no signing secret, key or other row appears.
    Every row added is a copy of a row of the source project in the target
    project: an endpoint arrives paused and disabled, with its settings and with
    its retry policy replaced by that policy's copy, and a subscription points at
    the copy of its endpoint, never at the source's.  The reported counts are the
    numbers of rows added, and a source with at most a hundred policies and
    endpoints is copied whole.  No copied endpoint can send: enabling one is
    refused for want of a signing secret. *)
Theorem copy_spec (arrange : ∀ R : Type, list (string * R) → list (string * R)) (ids : FreshIds)
    (now : Z) (c : Ctx) (src tgt : string) (db db' : Db) (r : TemplateResult)
    (Hperm : ∀ R l, arrange R l ≡ₚ l) (Hctx : ctx_project c = Some tgt)
    (Hsecrets : ∀ k s, endpointSecrets db !! k = Some s → is_Some (endpoints db !! EndpointSecret.endpointId s))
    (Hcopy : copy arrange ids now c src tgt db = (Ok r, db')) :
  let t := {| tc_org := ctx_org c; tc_project := tgt |} in
  (∃ source, projects db !! src = Some source ∧ Project.organizationId source = ctx_org c)
  ∧ ∃ mp me, template_copied now src t mp me db db' r
    ∧ (small (retryPolicies db) (λ p, bool_decide (RetryPolicy.projectId p = src)) →
       ∀ i p, retryPolicies db !! i = Some p → RetryPolicy.projectId p = src → is_Some (mp !! i))
    ∧ (small (endpoints db) (live_source src) →
       ∀ i e, endpoints db !! i = Some e → live_source src e = true → is_Some (me !! i))
    ∧ (∀ i j later, me !! i = Some j →
       enable c j later db' = (Throw (AppError conflict "This endpoint has no active signing secret."), db')).
Proof.
  intros t. destruct (copy_Ok arrange ids now c src tgt db db' r Hperm Hctx Hcopy)
    as (Hsrc & mp & me & Htc & Hp & He).
  split; [done|]. exists mp, me. split_and!; [done..|]. intros i j later Hj.
  destruct (tc_me _ _ _ _ _ _ _ _ Htc i j Hj) as (Hnew & e & Hi & Hrow).
  apply (enable_without_secret c j later db' (endpoint_copy mp e now t)); [|done|].
  - apply find_Some. split; [exact Hrow|]. rewrite (in_source c tgt) by done. cbn.
    unfold eqo. by rewrite bool_decide_eq_true_2.
  - rewrite (tc_frame _ _ _ _ _ _ _ _ Htc). cbn. intros k s Hk Ej.
    destruct (Hsecrets k s Hk) as [? Hx]. rewrite Ej in Hx. congruence.
Qed.

(** ** Without a project *)

(** In a context that resolved no project nothing can be created in one: the
    copy stops at the first row it has to write. *)
Lemma copy_rows_no_project {R} `{Table R} `{!Repo R} c fresh mk (rows : list (string * R)) m db :
  t_kind = project → ctx_project c = None →
  copy_rows c fresh mk rows m db =
  match rows with
  | [] => (Ok m, db)
  | _ => (throw internal_error "This route resolved no project.", db)
  end.
Proof.
  intros Hk Hc. destruct rows as [|[i r] rows]; [done|]. cbn [copy_rows].
  unfold create, mbind, M_bind, lift. rewrite Hk. cbn. unfold requireProject. by rewrite Hc.
Qed.

Lemma copy_subscriptions_empty ids now c rows n db :
  copy_subscriptions ids now c ∅ rows n db = (Ok n, db).
Proof. induction rows as [|[i s] rows IH]; [done|]. cbn. by rewrite lookup_empty. Qed.

(** The rows of the source that would have to be copied. *)
Definition has_policy (db : Db) (src : string) : Prop :=
  ∃ i p, retryPolicies db !! i = Some p ∧ RetryPolicy.projectId p = src.
Definition has_endpoint (db : Db) (src : string) : Prop :=
  ∃ i e, endpoints db !! i = Some e ∧ live_source src e = true.

Lemma page_nil {R} `{TableLaws R} arrange from src p db rows (q : R → bool) :
  (∀ R l, arrange R l ≡ₚ l) → t_kind = project → ctx_project from = Some src →
  (∀ i r, q r = true → x_project (t_cols i r) = Some src) → p = (λ _ r, q r) →
  source_page arrange from p db = (Ok rows, db) →
  rows = [] ↔ ¬ ∃ i r, tbl db !! i = Some r ∧ q r = true.
Proof.
  intros Hperm Hk Hc Hq -> E. unfold source_page in E.
  apply bindM_Ok in E as (l & s & [-> ->]%findAll_Ok & E). apply mret_Ok in E as [-> _].
  rewrite (matching_source from src) by done.
  destruct (findPage_facts (arrange R (map_to_list (filter (λ kv, q kv.2 = true) (tbl db))))
    (Some (int MAX_COPIED)) None) as (-> & _ & _).
  change (Z.to_nat (default 0%Z (offset None))) with 0. rewrite drop_0.
  change (Z.to_nat (pageSize (Some (int MAX_COPIED)))) with 100.
  set (m := filter (λ kv, q kv.2 = true) (tbl db)).
  assert (take 100 (arrange R (map_to_list m)) = [] ↔ m = ∅) as ->.
  { rewrite <- map_to_list_empty_iff. pose proof (Hperm R (map_to_list m)) as Hp. split.
    - intros E. destruct (arrange R (map_to_list m)); [by apply Permutation_nil_l in Hp|done].
    - intros E. rewrite E in Hp. apply Permutation_nil_r in Hp. by rewrite E, Hp. }
  rewrite map_empty. split.
  - intros He (i & r & Hi & Hr). assert (m !! i = Some r) as E by by apply map_lookup_filter_Some.
    by rewrite He in E.
  - intros Hn i. apply eq_None_not_Some. intros [r Hr]. apply Hn. exists i, r.
    by apply map_lookup_filter_Some in Hr.
Qed.

Lemma source_page_run {R} `{Table R} arrange from p db :
  ∃ rows : list (string * R), source_page arrange from p db = (Ok rows, db).
Proof. unfold source_page, findAll, mbind, M_bind, gets. by eexists. Qed.

Lemma copy_without_project arrange ids now c src tgt db :
  (∀ R l, arrange R l ≡ₚ l) → ctx_project c = None →
  ∃ res, copy arrange ids now c src tgt db = (res, db)
    ∧ (res = Ok (MkTemplate 0 0 0 0) ∨ ∃ e, res = Throw e)
    ∧ (has_policy db src ∨ has_endpoint db src → ∃ e, res = Throw e).
Proof.
  intros Hperm Hc. unfold copy, findById, mbind, M_bind, gets.
  destruct (find c db src) as [source|]; [|by eexists; split; [done|]; eauto].
  unfold guardM, lift, throw_if. case_bool_decide; [by eexists; split; [done|]; eauto|].
  unfold copyRetryPolicies, copyEndpoints, copySubscriptions, mbind, M_bind.
  destruct (source_page_run (R:=RetryPolicy.t) arrange (sourceContext c src)
    (λ _ p, bool_decide (RetryPolicy.projectId p = src)) db) as [rows1 E1].
  rewrite E1, copy_rows_no_project by done.
  apply (page_nil _ _ src _ _ _ (λ p, bool_decide (RetryPolicy.projectId p = src))) in E1;
    [|done..|intros; bprop; cbn; congruence|done].
  destruct rows1; [|by eexists; split; [done|]; eauto].
  destruct (source_page_run (R:=Endpoint.t) arrange (sourceContext c src)
    (λ _ e, live_source src e) db) as [rows2 E2].
  rewrite E2, copy_rows_no_project by done.
  apply (page_nil _ _ src _ _ _ (live_source src)) in E2;
    [|done..|unfold live_source; intros; bprop; cbn; congruence|done].
  destruct rows2; [|by eexists; split; [done|]; eauto].
  destruct (source_page_run (R:=Subscription.t) arrange (sourceContext c src)
    (λ _ s, bool_decide (Subscription.projectId s = src)) db) as [rows3 ->].
  rewrite copy_subscriptions_empty. eexists. split_and!; [done|by left|].
  intros [(i & p & Hi & Hp)|(i & e & Hi & He)]; exfalso.
  - apply (proj1 E1 eq_refl). exists i, p. split; [done|by apply bool_decide_eq_true_2].
  - apply (proj1 E2 eq_refl). eauto.
Qed.

(** ** Witness *)

Definition any_order (R : Type) (l : list (string * R)) : list (string * R) := l.
Definition tagged : FreshIds :=
  MkFresh (λ i, i +:+ "-copy") (λ i, i +:+ "-copy") (λ i, i +:+ "-copy").

(** Project p1 with a policy, an endpoint that uses it and a subscription; p9 is empty. *)
Definition template_db : Db :=
  upd_projects (insert "p9" (Project.mk "o1" (js "Copy") (js "copy") true ProjectStatus.active []))
  (upd_retryPolicies (λ _, {["r1" := RetryPolicy.mk "p1" (js "slow") true DEFAULT_RETRY_SETTINGS 0 0]})
  (upd_endpoints (fmap (Endpoint.set_retryPolicyId (Some "r1")))
  (upd_subscriptions (λ _, {["s1" := Subscription.mk "p1" "e1" None [js "*"] None true 0 0]}) two_orgs))).
Definition template_ctx : Ctx := MkCtx "o1" (Some "p9") "m1" owner "u1".

Definition template_run := copy any_order tagged 5 template_ctx "p1" "p9" template_db.

Lemma copy_spec_witness :
  template_run.1 = Ok (MkTemplate 1 1 1 0)
  ∧ ∃ mp me, template_copied 5 "p1" {| tc_org := "o1"; tc_project := "p9" |} mp me template_db
               template_run.2 (MkTemplate 1 1 1 0)
    ∧ is_Some (mp !! "r1") ∧ is_Some (me !! "e1").
Proof.
  split; [reflexivity|].
  assert (template_run = (Ok (MkTemplate 1 1 1 0), template_run.2)) as E
    by (rewrite (surjective_pairing template_run) at 1; f_equal; reflexivity).
  destruct (copy_spec any_order tagged 5 template_ctx "p1" "p9" template_db template_run.2
    (MkTemplate 1 1 1 0) (λ R l, Permutation_refl l) eq_refl
    ltac:(intros k s Hk; by vm_compute in Hk) E) as (_ & mp & me & Htc & Hp & He & _).
  exists mp, me. split_and!; [exact Htc| |].
  - by eapply Hp; [vm_compute; lia|reflexivity|].
  - by eapply He; [vm_compute; lia|reflexivity|].
Defined.
