(* ===== verification/Projects.v ===== *)
(** Projects: projects/projects.service.ts.

    The service is not transactional and neither is the model.  The fresh id,
    the clock, the Unicode functions of the slug derivation and the configured
    ceiling are arguments. *)
From Stdlib Require Import ZArith Lia.
From S2P Require Import Prelude Js Permissions RetryRules AuditTrail Slugs AllowedIps Db Scope Members EndpointSecrets TenantScope Endpoints Replay Resolver Subscriptions ProjectTemplate.

Record CreateProjectDto : Type := MkCreateProject {
  cp_name : jsstr;
  cp_slug : option jsstr;
  cp_live : option bool;
  cp_copy_from : option string
}.

(** The two flags: does the body carry the key at all? *)
Record UpdateProjectDto : Type := MkUpdateProject {
  up_name : option jsstr;
  up_slug : option jsstr;
  up_allowed_ips : option (list jsstr);
  up_has_environment : bool;
  up_has_status : bool
}.

(** [toProjectDto] with the fields [create] adds. *)
Record ProjectDto : Type := MkProjectDto {
  pd_id : string;
  pd_project : Project.t;
  pd_active_endpoints : Z;
  pd_copied : option TemplateResult;
  pd_copy_error : option string
}.

(** ** Errors of the database *)

Definition isUniqueViolationOn (e : app_error) (column : string) : bool :=
  if uniqueViolationTarget e is Some target then Scope.includes target column else false.

Definition translateSlugCollision (e : app_error) : app_error :=
  if isUniqueViolationOn e "slug"
  then AppError conflict "A project with that slug already exists in this organization."
  else e.

(** [try { work } catch (err) { throw f(err) }] *)
Definition rethrow {A} (f : app_error → app_error) (work : M Db A) : M Db A := λ db,
  match work db with
  | (Throw e, db') => (Throw (f e), db')
  | r => r
  end.

(** [try { return work } catch (err) { record the message }] *)
Definition attempt {A} (work : M Db A) : M Db (A + string) := λ db,
  match work db with
  | (Ok a, db') => (Ok (inl a), db')
  | (Throw e, db') => (Ok (inr (err_msg e)), db')
  end.

Definition assertEnvironmentNotSupplied (dto : UpdateProjectDto) : result unit :=
  throw_if (up_has_environment dto) invalid_request "A project's environment is fixed at creation.".
Definition assertStatusNotSupplied (dto : UpdateProjectDto) : result unit :=
  throw_if (up_has_status dto) invalid_request "Project status is not editable here.".

Definition is_deleted (p : Project.t) : bool := bool_decide (Project.status p = ProjectStatus.deleted).

(** The columns an update writes. *)
Record ProjectUpdate : Type := MkProjectUpdate {
  pu_name : option jsstr;
  pu_slug : option jsstr;
  pu_allowedIps : option (list jsstr)
}.
Definition empty_update (d : ProjectUpdate) : bool :=
  match d with MkProjectUpdate None None None => true | _ => false end.
Definition write_update (d : ProjectUpdate) (p : Project.t) : Project.t :=
  Project.mk (Project.organizationId p) (default (Project.name p) (pu_name d))
    (default (Project.slug p) (pu_slug d)) (Project.live p) (Project.status p)
    (default (Project.allowedIps p) (pu_allowedIps d)).

Definition changed_metadata (d : ProjectUpdate) : list (jsstr * meta) :=
  (if pu_name d is Some n then [(js "name", MStr n)] else [])
  ++ (if pu_slug d is Some s then [(js "slug", MStr s)] else [])
  ++ (if pu_allowedIps d is Some l
      then [(js "allowed_ips_count", MNum (int (Z.of_nat (length l))));
            (js "allowed_ips_now_enforcing", MBool (0 <? length l))] else []).

Definition template_meta (r : TemplateResult) : meta :=
  MObj [(js "endpoints", MNum (int (Z.of_nat (tr_endpoints r))));
        (js "subscriptions", MNum (int (Z.of_nat (tr_subscriptions r))));
        (js "retry_policies", MNum (int (Z.of_nat (tr_retry_policies r))));
        (js "signing_secrets", MNum (int (Z.of_nat (tr_signing_secrets r))))].

Section Service.
  Context (normalize lower : jsstr → jsstr)
    (arrange : ∀ R : Type, list (string * R) → list (string * R))
    (c : Ctx) (ceiling : Z).

Definition activeEndpointCount (projectId : string) : M Db Z :=
  count (R:=Endpoint.t) c (λ _ e, isDeliverable e && bool_decide (Endpoint.projectId e = projectId)).

Definition assertBelowCeiling : M Db unit :=
  existing ← count (R:=Project.t) c (λ _ p, negb (is_deleted p));
  guardM (negb (existing <? ceiling)%Z) limit_exceeded
    "This organization is at its limit of projects.".

(** [dto.slug ?? slugFromName(name)], with the empty string refused as well. *)
Definition chosen_slug (dto : CreateProjectDto) : option jsstr :=
  match (match cp_slug dto with Some s => Some s | None => slugFromName normalize lower (trim (cp_name dto)) end) with
  | Some [] => None
  | o => o
  end.

Definition copy_source (dto : CreateProjectDto) : option string :=
  match cp_copy_from dto with Some EmptyString => None | o => o end.

Definition projects_create (dto : CreateProjectDto) (id : string) (ids : FreshIds) (now : Z)
    : M Db ProjectDto :=
  let name := trim (cp_name dto) in
  match chosen_slug dto with
  | None => throwM invalid_request "Could not derive a slug from that name."
  | Some slug =>
      let live := default false (cp_live dto) in
      _ ← assertBelowCeiling;
      project ← rethrow translateSlugCollision
        (create c id (λ t, Project.mk (tc_org t) name slug live ProjectStatus.active []));
      copy_outcome ← match copy_source dto with
        | Some source => o ← attempt (copy arrange ids now c source id); mret (Some o)
        | None => mret None
        end;
      let copied := match copy_outcome with Some (inl r) => Some r | _ => None end in
      let copyError := match copy_outcome with Some (inr e) => Some e | _ => None end in
      _ ← recordFor c "project.created" "project" (Some id)
            ([(js "name", MStr name); (js "slug", MStr slug);
              (js "environment", MStr (js (if live then "live" else "test")))]
             ++ match copy_source dto with
                | Some source =>
                    [(js "copied_from", MStr (js source));
                     (js "copied", if copied is Some r then template_meta r else MStr (js "failed"))]
                | None => []
                end);
      active ← activeEndpointCount id;
      mret (MkProjectDto id project active copied copyError)
  end.

Definition projects_update (projectId : string) (dto : UpdateProjectDto) : M Db ProjectDto :=
  _ ← lift (assertEnvironmentNotSupplied dto);
  _ ← lift (assertStatusNotSupplied dto);
  ips ← lift (match up_allowed_ips dto with
              | Some l => l ← normaliseAllowedIps l; Ok (Some l)
              | None => Ok None
              end);
  let data := MkProjectUpdate (trim <$> up_name dto) (up_slug dto) ips in
  _ ← guardM (empty_update data) invalid_request "Supply at least one of name, slug or allowed_ips.";
  project ← rethrow translateSlugCollision
    (withCrossTenantNotFound (updateById_unique c projectId (write_update data)));
  _ ← recordFor c "project.updated" "project" (Some projectId) (changed_metadata data);
  active ← activeEndpointCount projectId;
  mret (MkProjectDto projectId project active None None).

Definition projects_remove (projectId : string) : M Db ProjectDto :=
  project ← withCrossTenantNotFound
    (updateById c projectId (Project.set_status ProjectStatus.deleted));
  _ ← recordFor c "project.deleted" "project" (Some projectId)
        [(js "slug", MStr (Project.slug project)); (js "soft_delete", MBool true)];
  active ← activeEndpointCount projectId;
  mret (MkProjectDto projectId project active None None).
End Service.

(** ** Wrappers *)

Lemma rethrow_Ok {A} f (m : M Db A) db a db' : rethrow f m db = (Ok a, db') ↔ m db = (Ok a, db').
Proof. unfold rethrow. destruct (m db) as [[] ?]; naive_solver. Qed.

Lemma rethrow_state {A} f (m : M Db A) db : (rethrow f m db).2 = (m db).2.
Proof. unfold rethrow. by destruct (m db) as [[] ?]. Qed.
Lemma attempt_state {A} (m : M Db A) db : (attempt m db).2 = (m db).2.
Proof. unfold attempt. by destruct (m db) as [[] ?]. Qed.
Lemma withCross_state {A} (m : M Db A) db : (withCrossTenantNotFound m db).2 = (m db).2.
Proof. unfold withCrossTenantNotFound. destruct (m db) as [[] ?]; [done|]. by repeat case_match. Qed.

Lemma respects_state {A B} (R : Db → Db → Prop) (m : M Db A) (m' : M Db B) :
  (∀ db, (m db).2 = (m' db).2) → Respects R m' → Respects R m.
Proof. intros E H db. rewrite E. apply H. Qed.

(** ** The life of a project row *)

(** What never changes, and the door that opens one way. *)
Record evolves (p p' : Project.t) : Prop := {
  ev_org : Project.organizationId p' = Project.organizationId p;
  ev_live : Project.live p' = Project.live p;
  ev_deleted : is_deleted p = true → is_deleted p' = true
}.
#[export] Instance evolves_preorder : PreOrder evolves.
Proof. split; [by intros p; split|]. intros p q r [] []. split; [congruence..|auto]. Qed.

Definition slug_unique (db : Db) : Prop :=
  ∀ i j p q, projects db !! i = Some p → projects db !! j = Some q →
    Project.organizationId p = Project.organizationId q → Project.slug p = Project.slug q → i = j.

(** What the allowlist of a stored project is. *)
Definition ips_ok (db : Db) : Prop :=
  ∀ i p, projects db !! i = Some p →
    NoDup (Project.allowedIps p) ∧ length (Project.allowedIps p) ≤ 50
    ∧ Forall valid_entry (Project.allowedIps p).

Record projects_step (db db' : Db) : Prop := {
  ps_row i p : projects db !! i = Some p → ∃ p', projects db' !! i = Some p' ∧ evolves p p';
  ps_slug : slug_unique db → slug_unique db';
  ps_ips : ips_ok db → ips_ok db'
}.
#[export] Instance projects_step_preorder : PreOrder projects_step.
Proof.
  split.
  - intros db. split; [|done..]. intros i p Hp. by exists p.
  - intros db db' db'' H1 H2. split.
    + intros i p Hp. destruct (ps_row _ _ H1 i p Hp) as (p' & Hp' & E1).
      destruct (ps_row _ _ H2 i p' Hp') as (p'' & Hp'' & E2). exists p''. split; [done|]. by etrans.
    + intros Hs. by apply H2, H1.
    + intros Hs. by apply H2, H1.
Qed.

Lemma step_same db db' : projects db' = projects db → projects_step db db'.
Proof.
  intros E. split; unfold slug_unique, ips_ok; rewrite E; [|done..]. intros i p Hp. by exists p.
Qed.

(** One row rewritten to [f]. *)
Lemma step_rewrite db db' i p p' :
  projects db !! i = Some p → projects db' = <[i := p']> (projects db) → evolves p p' →
  (Project.slug p' = Project.slug p ∨ ∀ j q, projects db !! j = Some q → j ≠ i →
     Project.organizationId q = Project.organizationId p' → Project.slug q ≠ Project.slug p') →
  (ips_ok db → NoDup (Project.allowedIps p') ∧ length (Project.allowedIps p') ≤ 50
     ∧ Forall valid_entry (Project.allowedIps p')) →
  projects_step db db'.
Proof.
  intros Hi E Hev Hs Hip. split.
  - intros j q Hj. rewrite E. destruct (decide (i = j)) as [->|Hij].
    + rewrite lookup_insert_eq. exists p'. split; [done|]. by simplify_eq.
    + rewrite lookup_insert_ne by done. by exists q.
  - intros Hu j k q q'. rewrite E. setoid_rewrite lookup_insert_Some.
    pose proof (ev_org _ _ Hev) as Ho.
    intros [[<- <-]|[Hj Hq]] [[<- <-]|[Hk Hq']] Eo Es; try done.
    + destruct Hs as [Hs|Hs].
      * apply (Hu i k p q'); congruence.
      * by destruct (Hs k q').
    + destruct Hs as [Hs|Hs].
      * apply (Hu j i q p); congruence.
      * by destruct (Hs j q).
    + by eapply Hu.
  - intros Hp j q. rewrite E, lookup_insert_Some. intros [[_ <-]|[_ Hq]]; [by apply Hip|by eapply Hp].
Qed.

Lemma step_insert db db' i p :
  projects db !! i = None → projects db' = <[i := p]> (projects db) → Project.allowedIps p = [] →
  (∀ j q, projects db !! j = Some q → Project.organizationId q = Project.organizationId p →
     Project.slug q ≠ Project.slug p) →
  projects_step db db'.
Proof.
  intros Hi E Ha Hs. split.
  - intros j q Hj. rewrite E, lookup_insert_ne by congruence. by exists q.
  - intros Hu j k q q'. rewrite E. setoid_rewrite lookup_insert_Some.
    intros [[<- <-]|[Hj Hq]] [[<- <-]|[Hk Hq']] Eo Es; try done.
    + by destruct (Hs k q').
    + by destruct (Hs j q).
    + by eapply Hu.
  - intros Hp j q. rewrite E, lookup_insert_Some. intros [[_ <-]|[_ Hq]]; [|by eapply Hp].
    rewrite Ha. split_and!; [constructor|cbn; lia|constructor].
Qed.

(** ** Each operation is such a step *)

Section keep.
  Context {X : Type} (T : Db → X).

Lemma create_keeps {R} `{TableLaws R} `{!Repo R} c id (mk : TenantColumns → R) :
  (∀ f db, T (upd_tbl f db) = T db) → Respects (keeps T) (create c id mk).
Proof.
  intros Hf db. unfold keeps. destruct (create c id mk db) as [[r|e] db'] eqn:E; cbn.
  - by apply create_Ok in E as (t & _ & _ & _ & _ & _ & ->).
  - by apply create_Throw in E as ->.
Qed.

Lemma copy_rows_keeps {R} `{TableLaws R} `{!Repo R} c fresh mk (rows : list (string * R)) m :
  (∀ f db, T (upd_tbl f db) = T db) → Respects (keeps T) (copy_rows c fresh mk rows m).
Proof.
  intros Hf. revert m. induction rows as [|[i r] rows IH]; intros m; cbn [copy_rows]; respects.
  by apply create_keeps.
Qed.

Context (Hpolicies : ∀ f db, T (upd_retryPolicies f db) = T db)
  (Hendpoints : ∀ f db, T (upd_endpoints f db) = T db)
  (Hsubscriptions : ∀ f db, T (upd_subscriptions f db) = T db)
  (Haudit : ∀ f db, T (upd_auditLogs f db) = T db).

Lemma copy_subscriptions_keeps ids now c m rows n :
  Respects (keeps T) (copy_subscriptions ids now c m rows n).
Proof.
  revert n. induction rows as [|[i s] rows IH]; intros n; cbn [copy_subscriptions]; respects;
    [|apply IH..]. by apply create_keeps.
Qed.

Lemma copy_keeps arrange ids now c src tgt : Respects (keeps T) (copy arrange ids now c src tgt).
Proof.
  unfold copy, copyRetryPolicies, copyEndpoints, copySubscriptions, source_page, findById, findAll.
  respects; try (by apply copy_rows_keeps); apply copy_subscriptions_keeps.
Qed.

Lemma recordFor_keeps c a ty id md : Respects (keeps T) (recordFor c a ty id md).
Proof. intros db. unfold keeps, recordFor. cbn. apply Haudit. Qed.
End keep.

Lemma copy_step arrange ids now c src tgt : Respects projects_step (copy arrange ids now c src tgt).
Proof. eapply respects_mono; [exact step_same|]. by apply copy_keeps. Qed.
Lemma recordFor_step c a ty id md : Respects projects_step (recordFor c a ty id md).
Proof. intros db. by apply step_same. Qed.
Lemma activeEndpointCount_step c id : Respects projects_step (activeEndpointCount c id).
Proof. unfold activeEndpointCount, count. respects. Qed.
#[export] Hint Resolve recordFor_step activeEndpointCount_step copy_step : respects.

Lemma project_in_tenant c db i (p : Project.t) :
  in_tenant c db i p = bool_decide (Project.organizationId p = ctx_org c).
Proof. unfold in_tenant. cbn. unfold eqo. apply bool_decide_ext. split; congruence. Qed.

Lemma project_unique db (p : Project.t) :
  unique_violation db p = false → ∀ j q, projects db !! j = Some q →
    Project.organizationId q = Project.organizationId p → Project.slug q ≠ Project.slug p.
Proof.
  cbn. rewrite exists_row_false. intros Hu j q Hj Ho Hs. specialize (Hu j q Hj).
  apply bool_decide_eq_false in Hu. naive_solver.
Qed.

Lemma create_project_step c id name slug live :
  Respects projects_step
    (create c id (λ t, Project.mk (tc_org t) name slug live ProjectStatus.active [])).
Proof.
  intros db. destruct (create c id _ db) as [[r|e] db'] eqn:E; cbn.
  - apply create_Ok in E as (t & _ & _ & _ & Hn & Hu & ->).
    eapply step_insert; [exact Hn|done|done|by apply project_unique].
  - by apply create_Throw in E as ->.
Qed.

Lemma projects_create_step normalize lower arrange c ceiling dto id ids now :
  Respects projects_step (projects_create normalize lower arrange c ceiling dto id ids now).
Proof.
  unfold projects_create, assertBelowCeiling, count. respects.
  - eapply respects_state; [apply rethrow_state|]. apply create_project_step.
  - eapply respects_state; [apply attempt_state|]. apply copy_step.
Qed.

Lemma write_update_evolves d p : evolves p (write_update d p).
Proof. by split. Qed.

Lemma update_project_step c id d :
  (∀ l, pu_allowedIps d = Some l → NoDup l ∧ length l ≤ 50 ∧ Forall valid_entry l) →
  Respects projects_step (updateById_unique c id (write_update d)).
Proof.
  intros Hd db. destruct (updateById_unique c id (write_update d) db) as [[r|e] db'] eqn:E; cbn.
  - apply updateById_unique_Ok in E as (p & Hf & -> & Hu & ->).
    rewrite (update_rows_key c db id _ p Hf). apply find_Some in Hf as [Hp _].
    eapply step_rewrite; [exact Hp|done|apply write_update_evolves| |].
    + right. intros j q Hj Hne. eapply (project_unique _ _ Hu j). cbn. by rewrite lookup_delete_ne.
    + intros Hi. cbn. destruct (pu_allowedIps d) as [l|]; [by apply Hd|by eapply Hi].
  - apply step_same. revert E. unfold updateById_unique, guardM, mbind, M_bind, gets, lift, throw_if.
    destruct (find c db id) as [r|] eqn:Hf; [destruct (unique_violation _ _)|]; cbn;
      [by intros [= _ <-]|..]; intros E; by apply transact_Throw in E as ->.
Qed.

Lemma normalised_ok l out : normaliseAllowedIps l = Ok out →
  NoDup out ∧ length out ≤ 50 ∧ Forall valid_entry out.
Proof.
  intros E. unfold normaliseAllowedIps in E. pose proof (normalise_loop_spec l []) as Hl.
  destruct (normalise_loop l []) as [res|]; cbn [mbind result_bind] in E; [|done].
  destruct Hl as [Hv ->]. cbn [app] in *.
  destruct (distinct_spec (wanted l) []) as [Hn Hm].
  unfold throw_if, MAX_ALLOWED_IPS in E.
  destruct (Nat.ltb_spec 50 (length (distinct [] (wanted l)))); [done|]. cbn in E. injection E as <-.
  split_and!; [done|lia|]. apply Forall_forall. intros x [Hx _]%Hm.
  by apply (proj1 (Forall_forall _ _) Hv).
Qed.

Lemma projects_update_step c id dto : Respects projects_step (projects_update c id dto).
Proof.
  unfold projects_update. respects_step; [respects_step|]. respects_step; [respects_step|].
  apply respects_lift_bind; [typeclasses eauto|]. intros ips Hips.
  respects; (eapply respects_state; [apply rethrow_state|]);
    (eapply respects_state; [apply withCross_state|]); apply update_project_step.
  intros l E. cbn in E. subst ips.
  destruct (up_allowed_ips dto) as [l'|]; [|done]. cbn in Hips.
  destruct (normaliseAllowedIps l') eqn:En; [|done]. injection Hips as <-. by eapply normalised_ok.
Qed.

Lemma projects_remove_step c id : Respects projects_step (projects_remove c id).
Proof.
  unfold projects_remove. respects. eapply respects_state; [apply withCross_state|].
  intros db. destruct (updateById c id _ db) as [[r|e] db'] eqn:E; cbn.
  - apply updateById_Ok in E as (p & Hf & -> & ->).
    rewrite (update_rows_key c db id _ p Hf). apply find_Some in Hf as [Hp _].
    eapply step_rewrite; [exact Hp|done|by split|by left|]. intros Hi. exact (Hi id p Hp).
  - by apply transact_Throw in E as ->.
Qed.

(** ** Creation *)

Lemma live_projects c db :
  matching c db (λ _ p, negb (is_deleted p))
  = filter (λ kv, Project.organizationId kv.2 = ctx_org c ∧ is_deleted kv.2 = false) (projects db).
Proof.
  apply map_eq. intros i. apply option_eq. intros p.
  rewrite matching_lookup, map_lookup_filter_Some, project_in_tenant, bool_decide_eq_true, negb_true_iff.
  cbn. naive_solver.
Qed.

(** The live projects of an organization. *)
Definition project_count (db : Db) (org : string) : Z :=
  Z.of_nat (size (filter (λ kv, Project.organizationId kv.2 = org ∧ is_deleted kv.2 = false) (projects db))).

Definition slug_taken (db : Db) (org : string) (slug : jsstr) : bool :=
  exists_row (projects db) (λ q, bool_decide (Project.organizationId q = org ∧ Project.slug q = slug)).

Lemma assertBelowCeiling_run c ceiling db :
  assertBelowCeiling c ceiling db =
  (if (project_count db (ctx_org c) <? ceiling)%Z then Ok tt
   else throw limit_exceeded "This organization is at its limit of projects.", db).
Proof.
  unfold assertBelowCeiling, count, guardM, mbind, M_bind, gets, lift, throw_if.
  rewrite live_projects. unfold project_count. by destruct (_ <? _)%Z.
Qed.

Lemma create_project_run c id name slug live db :
  projects db !! id = None →
  rethrow translateSlugCollision
    (create c id (λ t, Project.mk (tc_org t) name slug live ProjectStatus.active [])) db =
  let p := Project.mk (ctx_org c) name slug live ProjectStatus.active [] in
  if slug_taken db (ctx_org c) slug
  then (throw conflict "A project with that slug already exists in this organization.", db)
  else (Ok p, upd_projects (insert id p) db).
Proof.
  intros Hid. unfold rethrow, create, slug_taken, mbind, M_bind, lift, gets, guardM, modify. cbn.
  rewrite Hid. rewrite bool_decide_eq_false_2 by (by intros []). cbn.
  by destruct (exists_row _ _).
Qed.

(** The row [create] stores. *)
Definition new_project (c : Ctx) (dto : CreateProjectDto) (slug : jsstr) : Project.t :=
  Project.mk (ctx_org c) (trim (cp_name dto)) slug (default false (cp_live dto)) ProjectStatus.active [].

(** Creating a project, without a copy and with a fresh id, on every branch: a
    name with no usable slug is refused; at the ceiling, which counts live
    projects only, the answer is [limit_exceeded]; a slug already held in the
    organization, by a deleted project too, is a [conflict] and never another
    error; otherwise the project is stored active, in the caller's organization,
    in the test environment unless live was asked for.  A refusal leaves the
    database as it was. *)
Theorem projects_create_verdict (normalize lower : jsstr → jsstr)
    (arrange : ∀ R : Type, list (string * R) → list (string * R)) (c : Ctx) (ceiling : Z)
    (dto : CreateProjectDto) (id : string) (ids : FreshIds) (now : Z) (db : Db)
    (Hid : projects db !! id = None) (Hcopy : copy_source dto = None) :
  let run := projects_create normalize lower arrange c ceiling dto id ids now db in
  match chosen_slug normalize lower dto with
  | None => run.1 = throw invalid_request "Could not derive a slug from that name." ∧ run.2 = db
  | Some slug =>
      if negb (project_count db (ctx_org c) <? ceiling)%Z
      then run.1 = throw limit_exceeded "This organization is at its limit of projects." ∧ run.2 = db
      else if slug_taken db (ctx_org c) slug
      then run.1 = throw conflict "A project with that slug already exists in this organization."
           ∧ run.2 = db
      else (∃ dto', run.1 = Ok dto' ∧ pd_project dto' = new_project c dto slug)
           ∧ projects run.2 = <[id := new_project c dto slug]> (projects db)
           ∧ ∃ entry, run.2 = upd_auditLogs (λ l, l ++ [entry])
                                (upd_projects (insert id (new_project c dto slug)) db)
  end.
Proof.
  intros run. assert (run = projects_create normalize lower arrange c ceiling dto id ids now db) as E by done.
  clearbody run. unfold projects_create in E. rewrite Hcopy in E.
  destruct (chosen_slug normalize lower dto) as [slug|]; [|by rewrite E].
  unfold mbind at 1, M_bind at 1 in E. rewrite assertBelowCeiling_run in E.
  destruct (project_count db (ctx_org c) <? ceiling)%Z; cbn [negb]; [|by rewrite E].
  unfold mbind at 1, M_bind at 1 in E. rewrite create_project_run in E by done. cbn zeta in E.
  destruct (slug_taken db (ctx_org c) slug); rewrite E; [done|].
  cbn. split_and!; [by eexists|done|by eexists].
Qed.

(** A path that names an organization and no project resolves no project. *)
Lemma route_no_project db user params required r :
  params "projectId" = None → canActivate db (Some user) params from_params required = Ok r →
  ctx_project (rc r) = None.
Proof.
  intros Hp E. unfold canActivate, resolve in E.
  assert (firstParam params PROJECT_PARAMS = None) as Hf by (cbn; by rewrite Hp).
  rewrite Hf in E. unfold coordinatesFromParams in E.
  destruct (firstParam params ORGANIZATION_PARAMS) as [o|]; [|done].
  apply bind_Ok in E as (rs & E & Hr). case_bool_decide; [|done]. injection Hr as ->.
  apply bind_Ok in E as (co & [= <-] & E). apply bind_Ok in E as (? & _ & E).
  apply bind_Ok in E as (? & _ & E). cbn [co_org co_project] in E.
  destruct (membership_of db o user) as [[mid m]|]; [|done].
  apply bind_Ok in E as (org & _ & E). apply bind_Ok in E as (pr & [= <-] & [= <-]). done.
Qed.

(** Creating a project through its route, POST /organizations/:orgId/projects,
    never copies anything: the guard resolves no project for that path, so the
    context the copy writes with has none.  With any project to copy from, no
    retry policy, endpoint or subscription is created, and if the source has a
    retry policy or an endpoint that is not deleted, the response reports that
    the copy failed. *)
Theorem create_route_copies_nothing (normalize lower : jsstr → jsstr)
    (arrange : ∀ R : Type, list (string * R) → list (string * R)) (ceiling : Z)
    (user : string) (params : Params) (required : list Permission) (before : Db) (r : Resolved)
    (dto : CreateProjectDto) (src id : string) (ids : FreshIds) (now : Z) (db db' : Db) (res : ProjectDto)
    (Hperm : ∀ R l, arrange R l ≡ₚ l)
    (Hroute : params "projectId" = None)
    (Hguard : canActivate before (Some user) params from_params required = Ok r)
    (Hsrc : copy_source dto = Some src)
    (Hrun : projects_create normalize lower arrange (rc r) ceiling dto id ids now db = (Ok res, db')) :
  (retryPolicies db' = retryPolicies db ∧ endpoints db' = endpoints db
   ∧ subscriptions db' = subscriptions db)
  ∧ (pd_copied res = None ∨ pd_copied res = Some (MkTemplate 0 0 0 0))
  ∧ (has_policy db src ∨ has_endpoint db src → pd_copied res = None ∧ is_Some (pd_copy_error res)).
Proof.
  assert (ctx_project (rc r) = None) as Hc by by eapply route_no_project.
  unfold projects_create in Hrun. rewrite Hsrc in Hrun.
  destruct (chosen_slug normalize lower dto) as [slug|]; [|by apply throwM_Ok in Hrun].
  apply bindM_Ok in Hrun as (u & s & Hb & Hrun). rewrite assertBelowCeiling_run in Hb.
  injection Hb as _ <-.
  apply bindM_Ok in Hrun as (p & db1 & Hp & Hrun).
  apply rethrow_Ok, create_Ok in Hp as (t & _ & _ & _ & _ & _ & ->).
  apply bindM_Ok in Hrun as (o & db2 & Ho & Hrun).
  apply bindM_Ok in Ho as (o' & db3 & Ho & [-> ->]%mret_Ok).
  destruct (copy_without_project arrange ids now (rc r) src id
    (upd_projects (insert id (Project.mk (tc_org t) (trim (cp_name dto)) slug (default false (cp_live dto))
      ProjectStatus.active [])) db) Hperm Hc) as (oc & Ec & Hcases & Hfail).
  unfold attempt in Ho. cbn [upd_tbl Project_table] in Ho. rewrite Ec in Ho.
  apply bindM_Ok in Hrun as (u' & db4 & [fl ->]%recordFor_Ok & Hrun).
  apply bindM_Ok in Hrun as (n & db5 & [-> ->]%count_Ok & [-> ->]%mret_Ok).
  destruct oc as [tr|e]; injection Ho as <- <-; cbn.
  - destruct Hcases as [[= ->]|[? ?]]; [|done]. split_and!; [done..|by right|].
    intros Hx. destruct (Hfail Hx) as [? ?]. done.
  - split_and!; [done..|by left|]. intros _. by split; [|eexists].
Qed.

(** ** Witnesses *)

Definition project_db : Db :=
  upd_organizations (λ _, {["o1" := Organization.mk (js "Acme") (js "acme") OrganizationStatus.active]})
  (upd_members (λ _, {["m1" := Member.mk "o1" "u1" owner]}) template_db).
Definition org_route : Params := λ name, if bool_decide (name = "orgId") then Some "o1" else None.
Definition copy_dto : CreateProjectDto := MkCreateProject (js "Payments EU") None (Some true) (Some "p1").
Definition plain_dto : CreateProjectDto := MkCreateProject (js "Payments EU") None None None.
Definition route_ctx : Ctx := MkCtx "o1" None "m1" owner "u1".

Lemma projects_create_verdict_witness :
  ∃ dto', (projects_create id toLowerCase any_order route_ctx 100 plain_dto "p7" tagged 3 project_db).1 = Ok dto'
    ∧ pd_project dto' = Project.mk "o1" (js "Payments EU") (js "payments-eu") false ProjectStatus.active [].
Proof.
  apply (projects_create_verdict id toLowerCase any_order route_ctx 100 plain_dto "p7" tagged 3 project_db);
    reflexivity.
Defined.

Lemma create_route_copies_nothing_witness :
  ∃ r res db', canActivate project_db (Some "u1") org_route from_params [] = Ok r
    ∧ projects_create id toLowerCase any_order (rc r) 100 copy_dto "p7" tagged 3 project_db = (Ok res, db')
    ∧ endpoints db' = endpoints project_db ∧ pd_copied res = None.
Proof.
  destruct (canActivate project_db (Some "u1") org_route from_params []) as [r|] eqn:Eg;
    [|vm_compute in Eg; discriminate].
  assert (rc r = route_ctx) as Hc by (vm_compute in Eg; injection Eg as <-; reflexivity).
  destruct (projects_create id toLowerCase any_order (rc r) 100 copy_dto "p7" tagged 3 project_db)
    as [[res|] db'] eqn:E; [|rewrite Hc in E; vm_compute in E; discriminate].
  exists r, res, db'.
  destruct (create_route_copies_nothing id toLowerCase any_order 100 "u1" org_route [] project_db r
    copy_dto "p1" "p7" tagged 3 project_db db' res (λ R l, Permutation_refl l) eq_refl Eg eq_refl E)
    as ((_ & He & _) & _ & Hf).
  split_and!; [done|done|exact He|]. apply Hf. left. exists "r1". by eexists.
Defined.
