(* ===== verification/ProjectReads.v ===== *)
(** The reads of projects/projects.service.ts: one page of projects with the
    number of endpoints each would deliver to, counted in one grouped statement.

    The order of a page ([createdAt] descending) and of the groups of a grouped
    statement is a parameter. *)
From Stdlib Require Import ZArith Lia.
From S2P Require Import Prelude Js Permissions RetryRules AuditTrail Db Scope TenantScope Replay Subscriptions ProjectTemplate Projects.

(** The groups of [GROUP BY project_id] with [COUNT] of the rows of each. *)
Definition group_counts (rows : list (string * Endpoint.t)) : list (string * Z) :=
  map (λ p, (p, Z.of_nat (length (filter (λ kv, Endpoint.projectId kv.2 = p) rows))))
    (remove_dups (map (λ kv : string * Endpoint.t, Endpoint.projectId kv.2) rows)).

Record ListProjectsQuery : Type := MkListProjects {
  lp_status : option ProjectStatus.t;
  lp_limit : option num;
  lp_offset : option num
}.
Record ProjectListDto : Type := MkProjectList {
  pl_data : list ProjectDto;
  pl_has_more : bool;
  pl_next_offset : option Z
}.

Section Reads.
  Context (arrange : ∀ R : Type, list (string * R) → list (string * R)) (c : Ctx).

Definition activeEndpointCounts (projectIds : list string) : M Db (gmap string Z) :=
  if bool_decide (projectIds = []) then mret ∅
  else
    _ ← guardM (MAX_PAGE_SIZE <? Z.of_nat (length projectIds))%Z internal_error
          "activeEndpointCounts was given more project ids than one grouped query can return.";
    rows ← findAll c (λ _ e, isDeliverable e && bool_decide (Endpoint.projectId e ∈ projectIds));
    groups ← lift (groupBy (arrange Z (group_counts rows)) (Some (int MAX_PAGE_SIZE)) None);
    mret (list_to_map groups).

Definition listed_status (query : ListProjectsQuery) (p : Project.t) : bool :=
  match lp_status query with
  | Some s => bool_decide (Project.status p = s)
  | None => negb (is_deleted p)
  end.

Definition projects_list (query : ListProjectsQuery) : M Db ProjectListDto :=
  rows ← findAll c (λ _ p, listed_status query p);
  let page := findPage (arrange Project.t rows) (lp_limit query) (lp_offset query) in
  active ← activeEndpointCounts (p_rows page).*1;
  mret (MkProjectList
    (map (λ kv, MkProjectDto kv.1 kv.2 (default 0%Z (active !! kv.1)) None None) (p_rows page))
    (p_hasMore page) (p_nextSkip page)).

Definition projects_get (projectId : string) : M Db ProjectDto :=
  project ← withCrossTenantNotFound (requireById c projectId);
  active ← activeEndpointCount c projectId;
  mret (MkProjectDto projectId project active None None).
End Reads.

(** ** The grouped count *)

Lemma group_counts_fst rows :
  (group_counts rows).*1 = remove_dups (map (λ kv : string * Endpoint.t, Endpoint.projectId kv.2) rows).
Proof.
  unfold group_counts. rewrite <- list_fmap_compose. apply list_fmap_id.
Qed.

Lemma group_counts_lookup rows p :
  default 0%Z ((list_to_map (group_counts rows) : gmap string Z) !! p)
  = Z.of_nat (length (filter (λ kv : string * Endpoint.t, Endpoint.projectId kv.2 = p) rows)).
Proof.
  destruct (decide (p ∈ (group_counts rows).*1)) as [Hin|Hout].
  - erewrite elem_of_list_to_map_1; [reflexivity|rewrite group_counts_fst; apply NoDup_remove_dups|].
    rewrite group_counts_fst in Hin. unfold group_counts. apply list_elem_of_fmap. eauto.
  - rewrite not_elem_of_list_to_map_1 by done. cbn. rewrite group_counts_fst in Hout.
    rewrite elem_of_remove_dups, list_elem_of_fmap in Hout. rewrite filter_none; [done|].
    intros kv Hkv E. apply Hout. by exists kv.
Qed.

Lemma groupBy_all {R} (groups : list R) :
  length groups ≤ 200 → groupBy groups (Some (int MAX_PAGE_SIZE)) None = Ok groups.
Proof.
  intros Hl. unfold groupBy, slice.
  change (pageSize (Some (int MAX_PAGE_SIZE))) with 200%Z. cbn [offset default].
  change (Z.to_nat (200 + 1)) with 201. change (Z.to_nat (default 0%Z None)) with 0. rewrite drop_0.
  rewrite take_ge by lia.
  destruct (Z.leb_spec (Z.of_nat (length groups)) 200); [done|lia].
Qed.

Section counted.
  Context (arrange : ∀ R : Type, list (string * R) → list (string * R)) (c : Ctx)
    (Hperm : ∀ R l, arrange R l ≡ₚ l).

(** The grouped statement counts, for every project asked about, what one count
    per project would. *)
Lemma activeEndpointCounts_run ids db :
  length ids ≤ 200 →
  ∃ m, activeEndpointCounts arrange c ids db = (Ok m, db)
    ∧ ∀ p, p ∈ ids → activeEndpointCount c p db = (Ok (default 0%Z (m !! p)), db).
Proof.
  intros Hl. unfold activeEndpointCounts. case_bool_decide as Hids.
  { exists ∅. split; [done|]. subst ids. by intros p ?%not_elem_of_nil. }
  unfold guardM, throw_if, mbind, M_bind, lift, findAll, gets.
  unfold MAX_PAGE_SIZE at 1. destruct (Z.ltb_spec 200 (Z.of_nat (length ids))); [lia|].
  set (rows := map_to_list _). set (g := group_counts rows).
  assert (length g ≤ 200) as Hg.
  { etrans; [|exact Hl]. rewrite <- (length_fmap fst). apply submseteq_length, NoDup_submseteq.
    - unfold g. rewrite group_counts_fst. apply NoDup_remove_dups.
    - intros p. unfold g. rewrite group_counts_fst, elem_of_remove_dups, list_elem_of_fmap.
      intros ([i e] & -> & Hi). apply elem_of_map_to_list, matching_lookup in Hi as (_ & _ & Hp).
      by bprop. }
  rewrite groupBy_all by (by rewrite Hperm). eexists. split; [done|]. intros p Hp.
  unfold activeEndpointCount, count, gets. do 2 f_equal.
  rewrite (list_to_map_proper _ g); [|rewrite Hperm; unfold g; rewrite group_counts_fst; apply NoDup_remove_dups|apply Hperm].
  unfold g. rewrite group_counts_lookup. unfold rows. rewrite length_filter_list. do 2 f_equal.
  apply map_eq. intros i. apply option_eq. intros e.
  rewrite map_lookup_filter_Some, !matching_lookup, !andb_true_iff, !bool_decide_eq_true. cbn.
  naive_solver.
Qed.
End counted.

(** Listing projects: the list always succeeds and changes nothing, every entry
    is a project of the tenant with the requested status, its number of active
    endpoints, read off one grouped statement for the whole page, is exactly what
    a separate count for that project returns, and the page says there is more
    exactly when rows remain after it. *)
Theorem projects_list_spec (arrange : ∀ R : Type, list (string * R) → list (string * R)) (c : Ctx)
    (query : ListProjectsQuery) (db : Db) (Hperm : ∀ R l, arrange R l ≡ₚ l) :
  ∃ l, projects_list arrange c query db = (Ok l, db)
    ∧ (∀ d, d ∈ pl_data l →
         projects db !! pd_id d = Some (pd_project d)
         ∧ Project.organizationId (pd_project d) = ctx_org c
         ∧ listed_status query (pd_project d) = true
         ∧ activeEndpointCount c (pd_id d) db = (Ok (pd_active_endpoints d), db))
    ∧ NoDup (pd_id <$> pl_data l)
    ∧ (pl_has_more l = true ↔
         Z.to_nat (default 0%Z (offset (lp_offset query))) + Z.to_nat (pageSize (lp_limit query))
           < size (matching c db (λ _ p, listed_status query p))).
Proof.
  unfold projects_list, findAll, mbind, M_bind, gets.
  set (rows := map_to_list _).
  destruct (findPage_facts (arrange Project.t rows) (lp_limit query) (lp_offset query)) as (Hr & Hm & _).
  set (page := findPage _ _ _) in *. cbn beta iota zeta.
  assert (length (p_rows page).*1 ≤ 200) as Hl.
  { rewrite length_fmap, Hr, length_take. pose proof (pageSize_bounds (lp_limit query)). lia. }
  assert (p_rows page `sublist_of` arrange Project.t rows) as Hsub.
  { rewrite Hr. etrans; [apply sublist_take|apply sublist_drop]. }
  destruct (activeEndpointCounts_run arrange c Hperm _ db Hl) as (m & -> & Hcount).
  eexists. split; [reflexivity|]. cbn [pl_data pl_has_more]. split_and!.
  - intros d ([i p] & -> & Hi)%list_elem_of_fmap. cbn.
    assert ((i, p) ∈ rows) as Hrow.
    { rewrite <- (Hperm _ rows). by eapply elem_of_sublist. }
    apply elem_of_map_to_list, matching_lookup in Hrow as (Hp & Ht & Hs).
    rewrite project_in_tenant in Ht. bprop. split_and!; [done..|].
    apply Hcount. apply list_elem_of_fmap. by exists (i, p).
  - rewrite <- list_fmap_compose. change (NoDup ((p_rows page).*1)).
    eapply sublist_NoDup; [|by apply fmap_sublist]. rewrite Hperm. apply NoDup_fst_map_to_list.
  - rewrite Hm, Hperm. unfold rows. by rewrite length_map_to_list.
Qed.

(** ** Witness *)

Lemma projects_list_spec_witness :
  ∃ l, projects_list any_order route_ctx (MkListProjects None None None) project_db = (Ok l, project_db)
    ∧ pl_has_more l = false.
Proof.
  destruct (projects_list_spec any_order route_ctx (MkListProjects None None None) project_db
    (λ R l, Permutation_refl l)) as (l & E & _).
  exists l. split; [exact E|]. vm_compute in E. by injection E as <-.
Defined.
