(* ===== verification/Organizations.v ===== *)
(** Organizations: organizations/organizations.service.ts.

    What each attempt of [create] draws (two ids and a random string) is an
    argument; [org] is the organization the resolver put into the context. *)
From Stdlib Require Import ZArith Lia.
From S2P Require Import Prelude Js Permissions RetryRules AuditTrail Slugs AllowedIps Db Scope Members Resolver Subscriptions ProjectTemplate Projects.

Definition MAX_SLUG_ATTEMPTS : nat := 5.
Definition MAX_ORGANIZATIONS_PER_USER : Z := 10.

Record CreateOrganizationDto : Type := MkCreateOrg { co_name : jsstr; co_slug : option jsstr }.
Record UpdateOrganizationDto : Type := MkUpdateOrg { uo_name : option jsstr; uo_slug : option jsstr }.

(** [toOrganizationDto] *)
Record OrganizationDto : Type := MkOrgDto {
  od_id : string;
  od_organization : Organization.t;
  od_role : MemberRole
}.

Record Draw : Type := MkDraw { d_org : string; d_member : string; d_random : jsstr }.

Definition isSlugCollision (e : app_error) : bool := isUniqueViolationOn e "slug".

Definition org_deleted (o : Organization.t) : bool :=
  bool_decide (Organization.status o = OrganizationStatus.deleted).

(** The memberships [predicate] selects: the principal's, in organizations that
    are not deleted. *)
Definition mine (pr : Principal) (db : Db) (m : Member.t) : bool :=
  bool_decide (Member.userId m = pr_user pr)
  && (if organizations db !! Member.organizationId m is Some o then negb (org_deleted o) else false).

Definition countOwnedOrganizations (pr : Principal) : M Db Z :=
  gets (λ db, Z.of_nat (size (filter (λ kv, mine pr db kv.2 && is_owner kv.2 = true) (members db)))).

Definition is_truthy (s : option jsstr) : bool := if s is Some (_ :: _) then true else false.

Section Create.
  Context (lower : jsstr → jsstr) (pr : Principal).

Definition audit_created (orgId : string) (name slug : jsstr) (mid : string) (m : Member.t) : M Db unit :=
  recordFor (contextForNewMembership pr orgId mid m) "organization.created" "organization" (Some orgId)
    [(js "name", MStr name); (js "slug", MStr slug); (js "role", MStr (js "owner"))].

Definition attempt_slug (name : jsstr) (explicitSlug : option jsstr) (attempt : nat) (random : jsstr) : jsstr :=
  match explicitSlug with
  | Some s => s
  | None => deriveSlug lower name (0 <? attempt) random
  end.

(** The loop: [attempt] counts up while [remaining] are left. *)
Fixpoint create_attempts (name : jsstr) (explicitSlug : option jsstr) (draws : nat → Draw)
    (attempt remaining : nat) : M Db OrganizationDto :=
  match remaining with
  | O => throwM conflict "Could not allocate an organization slug."
  | S remaining => λ db,
      let d := draws attempt in
      let slug := attempt_slug name explicitSlug attempt (d_random d) in
      match createOwnedOrganization pr (d_org d) name slug (d_member d)
              (audit_created (d_org d) name slug) db with
      | (Ok m, db') =>
          (Ok (MkOrgDto (d_org d) (Organization.mk name slug OrganizationStatus.active) (Member.role m)), db')
      | (Throw err, db') =>
          if negb (isSlugCollision err) then (Throw err, db')
          else if is_truthy explicitSlug
          then (throw conflict "That organization slug is already taken.", db')
          else create_attempts name explicitSlug draws (S attempt) remaining db'
      end
  end.

Definition orgs_create (dto : CreateOrganizationDto) (draws : nat → Draw) : M Db OrganizationDto :=
  let name := trim (co_name dto) in
  let explicitSlug := trim <$> co_slug dto in
  owned ← countOwnedOrganizations pr;
  _ ← guardM (MAX_ORGANIZATIONS_PER_USER <=? owned)%Z limit_exceeded
        "You already own 10 organizations, which is the limit.";
  create_attempts name explicitSlug draws 0 MAX_SLUG_ATTEMPTS.
End Create.

Section Tenant.
  Context (c : Ctx) (org : Organization.t).

Definition write_org (dto : UpdateOrganizationDto) (o : Organization.t) : Organization.t :=
  Organization.mk (default (Organization.name o) (trim <$> uo_name dto))
    (default (Organization.slug o) (trim <$> uo_slug dto)) (Organization.status o).

Definition slug_conflict (e : app_error) : app_error :=
  if isSlugCollision e then AppError conflict "That organization slug is already taken." else e.

Definition org_meta (o : Organization.t) : meta :=
  MObj [(js "name", MStr (Organization.name o)); (js "slug", MStr (Organization.slug o))].

Definition orgs_update (dto : UpdateOrganizationDto) : M Db OrganizationDto :=
  _ ← guardM (match uo_name dto, uo_slug dto with None, None => true | _, _ => false end)
        invalid_request "Supply at least one of name or slug.";
  updated ← rethrow slug_conflict (updateById_unique c (ctx_org c) (write_org dto));
  _ ← recordFor c "organization.updated" "organization" (Some (ctx_org c))
        [(js "from", org_meta org); (js "to", org_meta updated)];
  mret (MkOrgDto (ctx_org c) updated (ctx_role c)).

Definition orgs_remove : M Db unit :=
  _ ← guardM (negb (bool_decide (ctx_role c = owner))) forbidden
        "Only an owner can delete an organization. Ask an owner to do it.";
  transact (
    projects ← updateMany c (λ _ p, negb (is_deleted p)) (Project.set_status ProjectStatus.deleted);
    _ ← updateById c (ctx_org c) (Organization.set_status OrganizationStatus.deleted);
    recordFor c "organization.deleted" "organization" (Some (ctx_org c))
      [(js "name", MStr (Organization.name org)); (js "slug", MStr (Organization.slug org));
       (js "projects_deleted", MNum (int projects))]).
End Tenant.

(** ** Creation *)

Definition org_slug_taken (db : Db) (slug : jsstr) : bool :=
  exists_row (organizations db) (λ o, bool_decide (Organization.slug o = slug)).

Definition fresh_draw (db : Db) (d : Draw) : Prop :=
  organizations db !! d_org d = None ∧ members db !! d_member d = None.

(** The database with the organization, its owner and the audit row. *)
Definition created_org (pr : Principal) (d : Draw) (name slug : jsstr) (db : Db) : Db :=
  (audit_created pr (d_org d) name slug (d_member d) (Member.mk (d_org d) (pr_user pr) owner)
    (upd_members (insert (d_member d) (Member.mk (d_org d) (pr_user pr) owner))
      (upd_organizations (insert (d_org d) (Organization.mk name slug OrganizationStatus.active)) db))).2.

Lemma createOwned_run pr d name slug db :
  fresh_draw db d →
  createOwnedOrganization pr (d_org d) name slug (d_member d) (audit_created pr (d_org d) name slug) db
  = if org_slug_taken db slug then (throw internal_error (P2002 "slug"), db)
    else (Ok (Member.mk (d_org d) (pr_user pr) owner), created_org pr d name slug db).
Proof.
  intros [Ho Hm]. unfold createOwnedOrganization, transact, org_slug_taken, created_org, audit_created, recordFor.
  unfold mbind, M_bind, gets, guardM, lift, modify, throw_if. rewrite Ho. cbn.
  destruct (exists_row _ _); [done|]. cbn. rewrite Hm. done.
Qed.

(** The first attempt, from [attempt] on, whose slug is free. *)
Fixpoint first_free (cand : nat → jsstr) (db : Db) (attempt remaining : nat) : option nat :=
  match remaining with
  | O => None
  | S remaining => if org_slug_taken db (cand attempt) then first_free cand db (S attempt) remaining
                   else Some attempt
  end.

Lemma first_free_spec cand db a n k :
  first_free cand db a n = Some k ↔
  a ≤ k < a + n ∧ org_slug_taken db (cand k) = false
  ∧ ∀ i, a ≤ i < k → org_slug_taken db (cand i) = true.
Proof.
  revert a. induction n as [|n IH]; intros a; cbn [first_free]; [naive_solver lia|].
  destruct (org_slug_taken db (cand a)) eqn:E.
  - rewrite IH. split.
    + intros (Hk & Hf & Hi). split_and!; [lia|lia|done|]. intros i Hi'.
      destruct (decide (i = a)) as [->|]; [done|]. apply Hi. lia.
    + intros (Hk & Hf & Hi). destruct (decide (k = a)) as [->|]; [congruence|].
      split_and!; [lia|lia|done|]. intros i Hi'. apply Hi. lia.
  - split.
    + intros [= <-]. split_and!; [lia|lia|done|]. intros; lia.
    + intros (Hk & Hf & Hi). destruct (decide (k = a)) as [->|]; [done|].
      rewrite Hi in E by lia. done.
Qed.

Lemma create_attempts_derived lower pr name draws db n : ∀ a,
  (∀ k, fresh_draw db (draws k)) →
  let cand k := deriveSlug lower name (0 <? k) (d_random (draws k)) in
  create_attempts lower pr name None draws a n db =
  match first_free cand db a n with
  | Some k => (Ok (MkOrgDto (d_org (draws k)) (Organization.mk name (cand k) OrganizationStatus.active) owner),
               created_org pr (draws k) name (cand k) db)
  | None => (throw conflict "Could not allocate an organization slug.", db)
  end.
Proof.
  induction n as [|n IH]; intros a Hfresh; cbn zeta; cbn [create_attempts first_free]; [done|].
  unfold attempt_slug. rewrite createOwned_run by done.
  destruct (org_slug_taken _ _); [|done]. by apply IH.
Qed.

Lemma create_attempts_explicit lower pr name ch slug draws db n a :
  fresh_draw db (draws a) →
  create_attempts lower pr name (Some (ch :: slug)) draws a (S n) db =
  if org_slug_taken db (ch :: slug)
  then (throw conflict "That organization slug is already taken.", db)
  else (Ok (MkOrgDto (d_org (draws a)) (Organization.mk name (ch :: slug) OrganizationStatus.active) owner),
        created_org pr (draws a) name (ch :: slug) db).
Proof.
  intros Hf. cbn [create_attempts attempt_slug]. rewrite createOwned_run by done.
  by destruct (org_slug_taken _ _).
Qed.

(** What a successful creation leaves behind. *)
Record org_created (pr : Principal) (d : Draw) (name slug : jsstr) (db db' : Db) : Prop := {
  oc_org : organizations db' = <[d_org d := Organization.mk name slug OrganizationStatus.active]> (organizations db);
  oc_owner : members db' = <[d_member d := Member.mk (d_org d) (pr_user pr) owner]> (members db);
  oc_audit : ∃ e, auditLogs db' = auditLogs db ++ [e] ∧ AuditLog.organizationId e = d_org d
               ∧ AuditLog.userId e = Some (pr_user pr) ∧ AuditLog.action e = "organization.created"
}.

Lemma created_org_spec pr d name slug db : org_created pr d name slug db (created_org pr d name slug db).
Proof. split; [done|done|]. by eexists. Qed.

(** Creating an organization, on every branch, when the drawn ids are new: at
    ten live organizations owned the answer is [limit_exceeded]; a requested slug
    is used as it is or refused with a [conflict], never replaced; without one
    the service takes the first of its five candidates that is free, the bare
    slug of the name first, and gives up with a [conflict] only when all five are
    held.  On success the organization, its owner (the caller) and the audit row
    are there together; on a refusal nothing is. *)
Theorem orgs_create_verdict (lower : jsstr → jsstr) (pr : Principal) (dto : CreateOrganizationDto)
    (draws : nat → Draw) (db : Db) (Hfresh : ∀ k, fresh_draw db (draws k)) :
  let run := orgs_create lower pr dto draws db in
  let name := trim (co_name dto) in
  let cand k := deriveSlug lower name (0 <? k) (d_random (draws k)) in
  let owned := size (filter (λ kv, mine pr db kv.2 && is_owner kv.2 = true) (members db)) in
  if 10 <=? owned
  then run = (throw limit_exceeded "You already own 10 organizations, which is the limit.", db)
  else match trim <$> co_slug dto with
  | Some ((_ :: _) as slug) =>
      if org_slug_taken db slug
      then run = (throw conflict "That organization slug is already taken.", db)
      else (∃ o, run.1 = Ok o ∧ od_role o = owner) ∧ org_created pr (draws 0) name slug db run.2
  | Some [] => True
  | None =>
      (∀ k, k < 5 → org_slug_taken db (cand k) = false →
         (∀ i, i < k → org_slug_taken db (cand i) = true) →
         (∃ o, run.1 = Ok o ∧ od_role o = owner) ∧ org_created pr (draws k) name (cand k) db run.2)
      ∧ ((∀ k, k < 5 → org_slug_taken db (cand k) = true) →
         run = (throw conflict "Could not allocate an organization slug.", db))
  end.
Proof.
  intros run name cand owned.
  assert (run = if 10 <=? owned
    then (throw limit_exceeded "You already own 10 organizations, which is the limit.", db)
    else create_attempts lower pr name (trim <$> co_slug dto) draws 0 MAX_SLUG_ATTEMPTS db) as E.
  { subst run. unfold orgs_create, countOwnedOrganizations, guardM, throw_if, mbind, M_bind, gets, lift.
    fold owned. unfold MAX_ORGANIZATIONS_PER_USER.
    destruct (Nat.leb_spec 10 owned), (Z.leb_spec 10 (Z.of_nat owned)); (done || lia). }
  clearbody run. destruct (10 <=? owned); [done|].
  destruct (trim <$> co_slug dto) as [[|ch slug]|] eqn:Es; [done| |].
  - unfold MAX_SLUG_ATTEMPTS in E. rewrite create_attempts_explicit in E by done.
    destruct (org_slug_taken db (ch :: slug)); [done|]. rewrite E.
    split; [by eexists|apply created_org_spec].
  - rewrite create_attempts_derived in E by done. cbn zeta in E. fold cand in E. split.
    + intros k Hk Hf Hi.
      rewrite (proj2 (first_free_spec cand db 0 MAX_SLUG_ATTEMPTS k)) in E
        by (split_and!; [lia|unfold MAX_SLUG_ATTEMPTS; lia|done|intros; apply Hi; lia]).
      rewrite E. split; [by eexists|apply created_org_spec].
    + intros Hall. destruct (first_free cand db 0 MAX_SLUG_ATTEMPTS) as [k|] eqn:Ef; [|done].
      apply first_free_spec in Ef as (Hk & Hf & _). unfold MAX_SLUG_ATTEMPTS in Hk.
      rewrite Hall in Hf by lia. done.
Qed.

(** ** The life of an organization *)

Definition org_slugs_unique (db : Db) : Prop :=
  ∀ i j o o', organizations db !! i = Some o → organizations db !! j = Some o' →
    Organization.slug o = Organization.slug o' → i = j.

(** Rows stay, deletion is final, and slugs stay unique. *)
Record orgs_step (db db' : Db) : Prop := {
  os_row i o : organizations db !! i = Some o →
    ∃ o', organizations db' !! i = Some o' ∧ (org_deleted o = true → org_deleted o' = true);
  os_slug : org_slugs_unique db → org_slugs_unique db'
}.
#[export] Instance orgs_step_preorder : PreOrder orgs_step.
Proof.
  split.
  - intros db. split; [|done]. intros i o Ho. by exists o.
  - intros db db' db'' H1 H2. split.
    + intros i o Ho. destruct (os_row _ _ H1 i o Ho) as (o' & Ho' & E1).
      destruct (os_row _ _ H2 i o' Ho') as (o'' & Ho'' & E2). exists o''. auto.
    + intros Hu. by apply H2, H1.
Qed.

Lemma orgs_same db db' : keeps organizations db db' → orgs_step db db'.
Proof.
  unfold keeps. intros E. split; unfold org_slugs_unique; rewrite E; [|done]. intros i o Ho. by exists o.
Qed.

Lemma orgs_rewrite db db' i o o' :
  organizations db !! i = Some o → organizations db' = <[i := o']> (organizations db) →
  (org_deleted o = true → org_deleted o' = true) →
  (Organization.slug o' = Organization.slug o ∨
   ∀ j q, organizations db !! j = Some q → j ≠ i → Organization.slug q ≠ Organization.slug o') →
  orgs_step db db'.
Proof.
  intros Hi E Hd Hs. split.
  - intros j q Hj. rewrite E. destruct (decide (i = j)) as [->|Hij].
    + rewrite lookup_insert_eq. exists o'. by simplify_eq.
    + rewrite lookup_insert_ne by done. by exists q.
  - intros Hu j k q q'. rewrite E. setoid_rewrite lookup_insert_Some.
    intros [[<- <-]|[Hj Hq]] [[<- <-]|[Hk Hq']] Es; try done.
    + destruct Hs as [Hs|Hs]; [apply (Hu i k o q'); congruence|by destruct (Hs k q')].
    + destruct Hs as [Hs|Hs]; [apply (Hu j i q o); congruence|by destruct (Hs j q)].
    + by eapply Hu.
Qed.

Lemma orgs_insert db db' i o :
  organizations db !! i = None → organizations db' = <[i := o]> (organizations db) →
  org_slug_taken db (Organization.slug o) = false → orgs_step db db'.
Proof.
  intros Hi E Hs. unfold org_slug_taken in Hs. rewrite exists_row_false in Hs. split.
  - intros j q Hj. rewrite E, lookup_insert_ne by congruence. by exists q.
  - intros Hu j k q q'. rewrite E. setoid_rewrite lookup_insert_Some.
    intros [[<- <-]|[Hj Hq]] [[<- <-]|[Hk Hq']] Es; try done.
    + specialize (Hs k q' Hq'). bprop. congruence.
    + specialize (Hs j q Hq). bprop. congruence.
    + by eapply Hu.
Qed.

(** Every row rewritten, its slug and allowlist kept. *)
Lemma step_map db db' (f : Project.t → Project.t) :
  projects db' = f <$> projects db → (∀ p, evolves p (f p)) →
  (∀ p, Project.slug (f p) = Project.slug p ∧ Project.allowedIps (f p) = Project.allowedIps p) →
  projects_step db db'.
Proof.
  intros E Hev Hs.
  assert (∀ i p', projects db' !! i = Some p' → ∃ p, projects db !! i = Some p ∧ p' = f p) as Hinv.
  { intros i p'. rewrite E, lookup_fmap. intros (p & Hp & ->)%fmap_Some. by exists p. }
  split.
  - intros i p Hp. exists (f p). rewrite E, lookup_fmap, Hp. done.
  - intros Hu i j p q (p0 & Hp & ->)%Hinv (q0 & Hq & ->)%Hinv.
    rewrite (ev_org _ _ (Hev p0)), (ev_org _ _ (Hev q0)).
    destruct (Hs p0) as [-> _], (Hs q0) as [-> _]. by apply Hu.
  - intros Hi i p (p0 & Hp & ->)%Hinv. destruct (Hs p0) as [_ ->]. by eapply Hi.
Qed.

(** The services, statement by statement. *)
Lemma updateById_keeps {R X} `{TableLaws R} (T : Db → X) c id (f : R → R) :
  (∀ g db, T (upd_tbl g db) = T db) → Respects (keeps T) (updateById c id f).
Proof.
  intros Hf db. unfold keeps. destruct (updateById c id f db) as [[r|e] db'] eqn:E; cbn.
  - by apply updateById_Ok in E as (p & _ & _ & ->).
  - by apply transact_Throw in E as ->.
Qed.

Lemma updateById_unique_keeps {R X} `{TableLaws R} `{!Repo R} (T : Db → X) c id (f : R → R) :
  (∀ g db, T (upd_tbl g db) = T db) → Respects (keeps T) (updateById_unique c id f).
Proof. intros Hf. unfold updateById_unique. respects. by apply updateById_keeps. Qed.

Lemma projects_create_orgs normalize lower arrange c ceiling dto id ids now :
  Respects (keeps organizations) (projects_create normalize lower arrange c ceiling dto id ids now).
Proof.
  unfold projects_create, assertBelowCeiling, activeEndpointCount, count. respects;
    try by apply recordFor_keeps.
  - eapply respects_state; [apply rethrow_state|]. apply (create_keeps organizations (R:=Project.t)); intros; reflexivity.
  - eapply respects_state; [apply attempt_state|]. by apply copy_keeps.
Qed.
Lemma projects_update_orgs c id dto : Respects (keeps organizations) (projects_update c id dto).
Proof.
  unfold projects_update, activeEndpointCount, count. respects; try by apply recordFor_keeps.
  eapply respects_state; [apply rethrow_state|]. eapply respects_state; [apply withCross_state|].
  by apply updateById_unique_keeps.
Qed.
Lemma projects_remove_orgs c id : Respects (keeps organizations) (projects_remove c id).
Proof.
  unfold projects_remove, activeEndpointCount, count. respects; try by apply recordFor_keeps.
  eapply respects_state; [apply withCross_state|]. by apply updateById_keeps.
Qed.

Lemma createOwned_keeps pr o name slug mid andThen :
  (∀ i m, Respects (keeps organizations) (andThen i m)) → (∀ i m, Respects (keeps projects) (andThen i m)) →
  Respects orgs_step (createOwnedOrganization pr o name slug mid andThen)
  ∧ Respects (keeps projects) (createOwnedOrganization pr o name slug mid andThen).
Proof.
  intros Ho Hp. split.
  - intros db. destruct (createOwnedOrganization pr o name slug mid andThen db) as [[m|e] db'] eqn:E; cbn.
    + unfold createOwnedOrganization in E. apply transact_Ok in E. minv. bprop. subst.
      match goal with H : andThen _ _ ?s = (Ok _, ?s') |- _ =>
        specialize (Ho mid (Member.mk o (pr_user pr) owner) s); rewrite H in Ho; cbn in Ho end.
      eapply orgs_insert; [|exact Ho|done].
      apply eq_None_not_Some. by eapply bool_decide_eq_false.
    + unfold createOwnedOrganization in E. by apply transact_Throw in E as ->.
  - unfold createOwnedOrganization. respects. all: by intros db.
Qed.

Lemma create_attempts_respects (R : Db → Db → Prop) `{!PreOrder R} lower pr name explicit draws n : ∀ a,
  (∀ d slug, Respects R (createOwnedOrganization pr (d_org d) name slug (d_member d)
                           (audit_created pr (d_org d) name slug))) →
  Respects R (create_attempts lower pr name explicit draws a n).
Proof.
  induction n as [|n IH]; intros a Hc; cbn [create_attempts]; [respects|]. intros db.
  pose proof (Hc (draws a) (attempt_slug lower name explicit a (d_random (draws a))) db) as H1.
  destruct (createOwnedOrganization _ _ _ _ _ _ db) as [[m|e] db'] eqn:E; cbn in H1 |- *; [done|].
  destruct (isSlugCollision e); cbn; [|done]. destruct (is_truthy explicit); cbn; [done|].
  etrans; [exact H1|]. by apply IH.
Qed.

Lemma createOwned_audited pr d name slug :
  Respects orgs_step (createOwnedOrganization pr (d_org d) name slug (d_member d)
                        (audit_created pr (d_org d) name slug))
  ∧ Respects (keeps projects) (createOwnedOrganization pr (d_org d) name slug (d_member d)
                                 (audit_created pr (d_org d) name slug)).
Proof. apply createOwned_keeps; intros; by apply recordFor_keeps. Qed.

Lemma orgs_create_step lower pr dto draws :
  Respects orgs_step (orgs_create lower pr dto draws)
  ∧ Respects (keeps projects) (orgs_create lower pr dto draws).
Proof.
  unfold orgs_create, countOwnedOrganizations. split; respects;
    apply create_attempts_respects; try typeclasses eauto; intros; apply createOwned_audited.
Qed.

Lemma org_find c db (o : Organization.t) :
  find c db (ctx_org c) = Some o ↔ organizations db !! ctx_org c = Some o.
Proof.
  rewrite find_Some. unfold in_tenant. cbn. rewrite bool_decide_eq_true_2 by done. naive_solver.
Qed.

Lemma orgs_update_step c org dto :
  Respects orgs_step (orgs_update c org dto) ∧ Respects (keeps projects) (orgs_update c org dto).
Proof.
  unfold orgs_update. split; respects; try by apply recordFor_keeps.
  - eapply respects_state; [apply rethrow_state|]. intros db.
    destruct (updateById_unique c (ctx_org c) (write_org dto) db) as [[r|e] db'] eqn:E; cbn.
    + apply updateById_unique_Ok in E as (o & Hf & -> & Hu & ->).
      rewrite (update_rows_key c db _ _ o Hf). apply org_find in Hf.
      eapply orgs_rewrite; [exact Hf|done|done|]. right. intros j q Hj Hne Es.
      cbn in Hu. rewrite exists_row_false in Hu. specialize (Hu j q).
      rewrite lookup_delete_ne in Hu by done. specialize (Hu Hj). bprop. done.
    + apply orgs_same. revert E. unfold keeps, updateById_unique, guardM, mbind, M_bind, gets, lift, throw_if.
      destruct (find c db (ctx_org c)) as [r|]; [destruct (unique_violation _ _)|]; cbn;
        [by intros [= _ <-]|..]; intros E; by apply transact_Throw in E as ->.
  - intros db. by apply orgs_same.
  - eapply respects_state; [apply rethrow_state|]. by apply updateById_unique_keeps.
Qed.

(** ** Removal *)

Lemma orgs_remove_Ok c org db u db' :
  orgs_remove c org db = (Ok u, db') →
  ctx_role c = owner ∧ ∃ o f,
    organizations db !! ctx_org c = Some o
    ∧ organizations db' = <[ctx_org c := Organization.set_status OrganizationStatus.deleted o]> (organizations db)
    ∧ projects db' = (λ p, if bool_decide (Project.organizationId p = ctx_org c)
                           then Project.set_status ProjectStatus.deleted p else p) <$> projects db
    ∧ db' = upd_auditLogs f (upd_organizations (λ _, organizations db') (upd_projects (λ _, projects db') db)).
Proof.
  unfold orgs_remove. intros E. apply bindM_Ok in E as (? & s & [Hr ->]%guardM_Ok & E).
  apply negb_false_iff, bool_decide_eq_true in Hr. split; [done|].
  rewrite transact_Ok in E. apply bindM_Ok in E as (n & db1 & E1 & E). rewrite updateMany_run in E1.
  injection E1 as <- <-. apply bindM_Ok in E as (o' & db2 & E2 & [f ->]%recordFor_Ok).
  apply updateById_Ok in E2 as (o & Hf & -> & ->).
  rewrite (update_rows_key c _ _ _ o Hf). apply org_find in Hf.
  exists o, f. cbn in Hf |- *. split_and!; [done|done| |done].
  apply map_eq. intros i. rewrite update_rows_lookup, lookup_fmap. cbn [tbl Project_table].
  destruct (projects db !! i) as [p|]; [|done]. cbn. f_equal. rewrite project_in_tenant.
  case_bool_decide; [|done]. cbn. destruct (is_deleted p) eqn:Ed; [|done]. cbn.
  destruct p; unfold is_deleted in Ed; cbn in *. bprop. by subst.
Qed.

Lemma orgs_remove_step c org :
  Respects orgs_step (orgs_remove c org) ∧ Respects projects_step (orgs_remove c org).
Proof.
  assert (∀ db, let r := orgs_remove c org db in
            r.2 = db ∨ ∃ u, orgs_remove c org db = (Ok u, r.2)) as Hcase.
  { intros db r. destruct r as [[u|e] db'] eqn:E; [right; exists u; exact E|left]. subst r.
    revert E. unfold orgs_remove, guardM, throw_if, lift, mbind at 1, M_bind at 1.
    destruct (negb _); cbn; [by intros [= _ <-]|]. intros E. by apply transact_Throw in E as ->. }
  split; intros db; destruct (Hcase db) as [->|[u E]]; try done;
    apply orgs_remove_Ok in E as (_ & o & f & Ho & Eo & Ep & _).
  - eapply orgs_rewrite; [exact Ho|exact Eo|done|by left].
  - eapply step_map; [exact Ep|..]; intros p; cbn beta; case_bool_decide; by repeat split.
Qed.

(** ** Reachable states *)

(** One request to either service, by anyone, whether it succeeds or not. *)
Inductive tenant_step : Db → Db → Prop :=
| ts_project_create normalize lower arrange c ceiling dto id ids now db :
    tenant_step db (projects_create normalize lower arrange c ceiling dto id ids now db).2
| ts_project_update c id dto db : tenant_step db (projects_update c id dto db).2
| ts_project_remove c id db : tenant_step db (projects_remove c id db).2
| ts_org_create lower pr dto draws db : tenant_step db (orgs_create lower pr dto draws db).2
| ts_org_update c org dto db : tenant_step db (orgs_update c org dto db).2
| ts_org_remove c org db : tenant_step db (orgs_remove c org db).2.

Lemma tenant_step_ok db db' : tenant_step db db' → projects_step db db' ∧ orgs_step db db'.
Proof.
  destruct 1.
  - split; [apply projects_create_step|apply orgs_same, projects_create_orgs].
  - split; [apply projects_update_step|apply orgs_same, projects_update_orgs].
  - split; [apply projects_remove_step|apply orgs_same, projects_remove_orgs].
  - split; [apply step_same, orgs_create_step|apply orgs_create_step].
  - split; [apply step_same, orgs_update_step|apply orgs_update_step].
  - split; apply orgs_remove_step.
Qed.

Lemma tenant_steps_ok db db' : star tenant_step db db' → projects_step db db' ∧ orgs_step db db'.
Proof.
  induction 1 as [|a b d [H1 H2]%tenant_step_ok _ [IH1 IH2]]; [done|]. split; by etrans.
Qed.

(** C5. Whatever requests reach the project and organization services, in any
    order: a project row never disappears, never changes its organization or its
    environment, and once deleted stays deleted; two projects of an organization
    never share a slug and two organizations never do, deleted ones included; an
    organization once deleted stays deleted; and every stored publish allowlist
    holds at most fifty distinct, well-formed entries. *)
Theorem reachable_tenants (db db' : Db) (Hreach : star tenant_step db db') :
  (∀ i p, projects db !! i = Some p → ∃ p', projects db' !! i = Some p'
     ∧ Project.organizationId p' = Project.organizationId p ∧ Project.live p' = Project.live p
     ∧ (Project.status p = ProjectStatus.deleted → Project.status p' = ProjectStatus.deleted))
  ∧ (slug_unique db → slug_unique db')
  ∧ (org_slugs_unique db → org_slugs_unique db')
  ∧ (ips_ok db → ips_ok db')
  ∧ (∀ i o, organizations db !! i = Some o → Organization.status o = OrganizationStatus.deleted →
       ∃ o', organizations db' !! i = Some o' ∧ Organization.status o' = OrganizationStatus.deleted).
Proof.
  destruct (tenant_steps_ok db db' Hreach) as [Hp Ho]. split_and!; try apply Hp; [|apply Ho|].
  - intros i p Hi. destruct (ps_row _ _ Hp i p Hi) as (p' & Hi' & [E1 E2 E3]).
    exists p'. unfold is_deleted in E3. rewrite !bool_decide_eq_true in E3. done.
  - intros i o Hi Hd. destruct (os_row _ _ Ho i o Hi) as (o' & Hi' & E). exists o'. split; [done|].
    unfold org_deleted in E. rewrite !bool_decide_eq_true in E. auto.
Qed.

Lemma deleted_not_admitted db user params spec required r o :
  organizations db !! ctx_org (rc r) = Some o → org_deleted o = true →
  canActivate db (Some user) params spec required = Ok r → False.
Proof.
  intros Ho Hd E. unfold canActivate in E. apply bind_Ok in E as (rs & E & Hr).
  case_bool_decide; [|done]. injection Hr as ->. unfold resolve in E.
  apply bind_Ok in E as (co & _ & E). do 2 apply bind_Ok in E as (? & _ & E).
  destruct (membership_of db (co_org co) user) as [[mid m]|]; [|done].
  apply bind_Ok in E as (org & El & E). apply bind_Ok in E as (pr & _ & [= <-]). cbn in Ho.
  unfold loadOrganization in El. rewrite Ho in El. unfold org_deleted in Hd. by rewrite Hd in El.
Qed.

(** C8. Deleting an organization takes an owner and, in one transaction, deletes
    the organization and every project under it: projects of other organizations
    and every other table stay as they were.  From then on, after any further
    requests to these services, no request whatever is admitted to the
    organization. *)
Theorem orgs_remove_closes (c : Ctx) (org : Organization.t) (db db' later : Db) (u : unit)
    (Hrun : orgs_remove c org db = (Ok u, db')) (Hlater : star tenant_step db' later) :
  ctx_role c = owner
  ∧ (∀ i p, projects db !! i = Some p → projects db' !! i =
       Some (if bool_decide (Project.organizationId p = ctx_org c)
             then Project.set_status ProjectStatus.deleted p else p))
  ∧ (∃ o f, organizations db !! ctx_org c = Some o
       ∧ organizations db' = <[ctx_org c := Organization.set_status OrganizationStatus.deleted o]> (organizations db)
       ∧ db' = upd_auditLogs f (upd_organizations (λ _, organizations db') (upd_projects (λ _, projects db') db)))
  ∧ (∀ user params spec required r,
       canActivate later (Some user) params spec required = Ok r → ctx_org (rc r) ≠ ctx_org c).
Proof.
  apply orgs_remove_Ok in Hrun as (Hr & o & f & Ho & Eo & Ep & Ef). split_and!; [done| |eauto 10|].
  - intros i p Hp. by rewrite Ep, lookup_fmap, Hp.
  - intros user params spec required r Hadm E.
    destruct (tenant_steps_ok db' later Hlater) as [_ Hs].
    destruct (os_row _ _ Hs (ctx_org c) (Organization.set_status OrganizationStatus.deleted o)) as (o' & Ho' & Hd).
    { by rewrite Eo, lookup_insert_eq. }
    eapply deleted_not_admitted; [by rewrite E|by apply Hd|exact Hadm].
Qed.

(** ** Witnesses *)

Definition drawn (k : nat) : Draw :=
  match k with
  | O => MkDraw "org_a" "mem_a" (js "0.9qzxr1ab")
  | _ => MkDraw "org_b" "mem_b" (js "0.4fzyo82mvyr")
  end.
Definition alice_pr : Principal := {| pr_user := "u1"; pr_email := js "alice@example.com" |}.
Definition acme_dto : CreateOrganizationDto := MkCreateOrg (js " Acme ") None.

Lemma drawn_fresh k : fresh_draw project_db (drawn k).
Proof.
  destruct k; split; reflexivity.
Qed.

(** The bare slug is held, so the organization gets the second candidate. *)
Lemma orgs_create_verdict_witness :
  org_created alice_pr (drawn 1) (js "Acme") (js "acme-4fzyo8") project_db
    (orgs_create toLowerCase alice_pr acme_dto drawn project_db).2.
Proof.
  apply (orgs_create_verdict toLowerCase alice_pr acme_dto drawn project_db drawn_fresh); [lia|reflexivity|].
  intros i Hi. assert (i = 0) as -> by lia. reflexivity.
Defined.

Definition acme : Organization.t := Organization.mk (js "Acme") (js "acme") OrganizationStatus.active.
Definition after_removal : Db := (orgs_remove route_ctx acme project_db).2.

Lemma reachable_tenants_witness :
  star tenant_step project_db after_removal
  ∧ ∃ p', projects after_removal !! "p9" = Some p' ∧ Project.live p' = true.
Proof.
  assert (star tenant_step project_db after_removal) as Hs.
  { eapply star_step; [apply (ts_org_remove route_ctx acme)|]. apply star_refl. }
  split; [exact Hs|].
  destruct (reachable_tenants project_db after_removal Hs) as (Hp & _).
  edestruct (Hp "p9") as (p' & Hp' & _ & Hl & _); [reflexivity|]. by exists p'.
Defined.

Lemma orgs_remove_closes_witness :
  projects after_removal !! "p9"
    = Some (Project.mk "o1" (js "Copy") (js "copy") true ProjectStatus.deleted [])
  ∧ is_ok (canActivate after_removal (Some "u1") org_route from_params []) = false.
Proof.
  destruct (orgs_remove_closes route_ctx acme project_db after_removal after_removal tt
    eq_refl (star_refl _ _)) as (_ & Hp & _ & Hno).
  split; [exact (Hp "p9" _ eq_refl)|].
  destruct (canActivate after_removal (Some "u1") org_route from_params []) as [r|] eqn:E; [|done].
  exfalso. apply (Hno _ _ _ _ _ E). vm_compute in E. discriminate.
Defined.
