(* ===== verification/Auth.v ===== *)
(** Authentication: auth/auth.service.ts over the tokens of Members and the
    sessions of Sessions.

    Argon2 and the JWT library are parameters, as is the choice of the oldest
    membership (rows of the model carry no creation time).  Mail leaves no state
    and its failures are swallowed by the code; it is not modelled.  Fresh ids,
    raw tokens, random strings, salts and the clock are arguments. *)
From Stdlib Require Import ZArith Lia.
From S2P Require Import Prelude Js Permissions RetryRules AuditTrail Slugs Db Sessions Scope Members.

Definition MAX_REGISTRATION_ATTEMPTS : nat := 5.

Record RegisterDto : Type := MkRegister {
  rg_email : jsstr;
  rg_password : jsstr;
  rg_name : option jsstr;
  rg_organization_name : option jsstr
}.
Record AuthUserDto : Type := MkAuthUser {
  au_id : string;
  au_email : jsstr;
  au_name : option jsstr;
  au_email_verified : bool;
  au_onboarding_completed_at : option jsstr
}.
Definition toDto (id : string) (u : User.t) : AuthUserDto :=
  MkAuthUser id (User.email u) (User.name u) (bool_decide (User.emailVerifiedAt u ≠ None))
    (toISOString <$> User.onboardingCompletedAt u).

Definition normalizeEmail (email : jsstr) : jsstr := toLowerCase (trim email).
Definition at_sign : N := 64.
(** [email.split('@')[0] || 'workspace'] *)
Definition defaultOrgName (email : jsstr) : jsstr :=
  match split at_sign email with
  | (_ :: _) as w :: _ => w
  | _ => js "workspace"
  end.

(** Which index a unique violation came from. *)
Inductive UniqueTarget : Type := user_email | organization_slug | unknown_index.
Definition registrationTarget (e : app_error) : option UniqueTarget :=
  match uniqueViolationTarget e with
  | None => None
  | Some target =>
      Some (if Scope.includes target "slug" then organization_slug
            else if Scope.includes target "email" then user_email else unknown_index)
  end.

Definition invalidCredentials {A} : result A := throw unauthenticated "Invalid email or password.".

(** [findUnique({ where: { email } })] *)
Definition user_by_email (db : Db) (email : jsstr) : option (string * User.t) :=
  head (map_to_list (filter (λ kv, User.email kv.2 = email) (users db))).
Definition user_by_id (db : Db) (id : string) : option (string * User.t) :=
  (λ u, (id, u)) <$> users db !! id.

Definition set_user (id : string) (f : User.t → User.t) : M Db unit := modify (upd_users (alter f id)).

(** What one registration attempt draws. *)
Record RegDraw : Type := MkRegDraw {
  rd_org : string; rd_user : string; rd_member : string; rd_randoms : nat → jsstr
}.

Section Slug.
  Context (lower : jsstr → jsstr).

(** [.replace(/^-|-$/g, '')]: one hyphen at each end. *)
Definition drop_edge (s : jsstr) : jsstr :=
  let s := match s with c :: s' => if (c =? hyphen)%N then s' else s | [] => [] end in
  match last s with
  | Some c => if (c =? hyphen)%N then take (length s - 1) s else s
  | None => s
  end.

Definition slugify (value : jsstr) : jsstr :=
  match take 48 (drop_edge (hyphenate false (lower value))) with
  | [] => js "workspace"
  | slug => slug
  end.

Definition slug_held (db : Db) (slug : jsstr) : bool :=
  exists_row (organizations db) (λ o, bool_decide (Organization.slug o = slug)).

Definition slug_candidate (base : jsstr) (forceSuffix : bool) (attempt : nat) (random : jsstr) : jsstr :=
  if (attempt =? 0) && negb forceSuffix then base else base ++ hyphen :: take 6 (drop 2 random).

Fixpoint unique_slug_loop (base : jsstr) (forceSuffix : bool) (randoms : nat → jsstr)
    (attempt remaining : nat) : M Db jsstr :=
  match remaining with
  | O => throwM conflict "Could not allocate an organization slug. Try a different name."
  | S remaining =>
      let candidate := slug_candidate base forceSuffix attempt (randoms attempt) in
      gets (λ db, slug_held db candidate) ≫= λ taken : bool,
      if taken then unique_slug_loop base forceSuffix randoms (S attempt) remaining
      else mret candidate
  end.

Definition uniqueSlug (name : jsstr) (forceSuffix : bool) (randoms : nat → jsstr) : M Db jsstr :=
  unique_slug_loop (slugify name) forceSuffix randoms 0 5.

(** [tx.<table>.create], with the unique index beside the key. *)
Definition insert_user (id : string) (u : User.t) : M Db unit :=
  clash ← gets (λ db, bool_decide (is_Some (users db !! id)));
  _ ← guardM clash internal_error (P2002 "id");
  clash ← gets (λ db, exists_row (users db) (λ v, bool_decide (User.email v = User.email u)));
  _ ← guardM clash internal_error (P2002 "email");
  modify (upd_users (insert id u)).
Definition insert_org (id : string) (o : Organization.t) : M Db unit :=
  clash ← gets (λ db, bool_decide (is_Some (organizations db !! id)));
  _ ← guardM clash internal_error (P2002 "id");
  clash ← gets (λ db, slug_held db (Organization.slug o));
  _ ← guardM clash internal_error (P2002 "slug");
  modify (upd_organizations (insert id o)).
Definition insert_member (id : string) (m : Member.t) : M Db unit :=
  clash ← gets (λ db, bool_decide (is_Some (members db !! id)));
  _ ← guardM clash internal_error (P2002 "id");
  modify (upd_members (insert id m)).

Definition audit_row (org userId action : string) : AuditLog.t :=
  AuditLog.mk org (Some userId) action "user" (Some userId) None.

Definition createAccount (email passwordHash orgName : jsstr) (name : option jsstr) (attempt : nat)
    (d : RegDraw) : M Db (string * User.t) :=
  transact (
    slug ← uniqueSlug orgName (0 <? attempt) (rd_randoms d);
    _ ← insert_org (rd_org d) (Organization.mk orgName slug OrganizationStatus.active);
    let created := User.mk email name passwordHash None None None None in
    _ ← insert_user (rd_user d) created;
    _ ← insert_member (rd_member d) (Member.mk (rd_org d) (rd_user d) owner);
    _ ← modify (upd_auditLogs (λ l, l ++ [audit_row (rd_org d) (rd_user d) "user.registered"]));
    mret (rd_user d, created)).
End Slug.

Section Auth.
  Context (lower : jsstr → jsstr)
    (hashPassword : jsstr → jsstr → jsstr) (verifyPassword : jsstr → jsstr → bool)
    (hashToken : jsstr → jsstr)
    (verifyJwt : jsstr → Z → option SessionClaims) (signJwt : SessionClaims → Z → jsstr)
    (oldest : list (string * Member.t) → option (string * Member.t)).

(** Never fails the request; an account with no membership produces no row. *)
Definition audit (userId action : string) : M Db unit :=
  membership ← gets (λ db, oldest (map_to_list (filter (λ kv, Member.userId kv.2 = userId) (members db))));
  match membership with
  | None => mret tt
  | Some (_, m) =>
      modify (upd_auditLogs (λ l, l ++ [audit_row (Member.organizationId m) userId action]))
  end.

(** Best effort: a failed write of the token is logged. *)
Definition sendVerification (userId : string) (user : User.t) (tokenId : string) (raw : jsstr) (now : Z)
    : M Db unit :=
  _ ← safely (issue hashToken UserTokenType.email_verification (User.email user) (Some userId) None None
                tokenId raw now);
  mret tt.

(** The retry loop of [register]: the account, or [None] when the address is taken. *)
Fixpoint register_loop (email passwordHash orgName : jsstr) (name : option jsstr) (draws : nat → RegDraw)
    (attempt remaining : nat) : M Db (option (string * User.t)) :=
  match remaining with
  | O => throwM conflict "Could not allocate an organization slug. Try a different organization name."
  | S remaining => λ db,
      match createAccount lower email passwordHash orgName name attempt (draws attempt) db with
      | (Ok user, db') => (Ok (Some user), db')
      | (Throw err, db') =>
          match registrationTarget err with
          | Some organization_slug =>
              register_loop email passwordHash orgName name draws (S attempt) remaining db'
          | Some user_email => (Ok None, db')
          | _ => (Throw err, db')
          end
      end
  end.

Definition register_org_name (dto : RegisterDto) (email : jsstr) : jsstr :=
  match trim <$> rg_organization_name dto with
  | Some ((_ :: _) as n) => n
  | _ => defaultOrgName email
  end.

Definition register (open : bool) (dto : RegisterDto) (salt : jsstr) (draws : nat → RegDraw)
    (tokenId : string) (raw : jsstr) (now : Z) : M Db unit :=
  _ ← guardM (negb open) forbidden "Self-serve registration is disabled. Ask an organization owner for an invitation.";
  let email := normalizeEmail (rg_email dto) in
  let passwordHash := hashPassword salt (rg_password dto) in
  user ← register_loop email passwordHash (register_org_name dto email) (rg_name dto) draws 0
           MAX_REGISTRATION_ATTEMPTS;
  match user with
  | None => mret tt
  | Some (id, u) => sendVerification id u tokenId raw now
  end.

Definition login (email password : jsstr) (sessionId : string) (now : Z) : M Db (AuthUserDto * jsstr) :=
  user ← gets (λ db, user_by_email db (normalizeEmail email));
  match user with
  | None => lift invalidCredentials
  | Some (id, user) =>
      if bool_decide (User.disabledAt user ≠ None) then lift invalidCredentials
      else if negb (verifyPassword (User.passwordHash user) password) then lift invalidCredentials
      else
        _ ← guardM (bool_decide (User.emailVerifiedAt user = None)) email_not_verified
              "Confirm your email address before signing in. Request a new link if the last one expired.";
        _ ← set_user id (User.set_lastLoginAt (Some now));
        _ ← audit id "user.login";
        cookie ← issue_session signJwt id (User.email user) sessionId now;
        mret (toDto id user, cookie)
  end.

Definition logout (sessionCookie : option jsstr) (now : Z) : M Db unit :=
  session ← match sessionCookie with
            | Some ((_ :: _) as token) => verify verifyJwt token now
            | _ => mret None
            end;
  match session with
  | Some s =>
      _ ← revoke (su_sessionId s) by_logout now;
      audit (su_userId s) "user.logout"
  | None => mret tt
  end.

(** The account a token was issued to. *)
Definition token_user (db : Db) (record : UserToken.t) : option (string * User.t) :=
  match UserToken.userId record with
  | Some ((String _ _) as id) => user_by_id db id
  | _ => user_by_email db (UserToken.email record)
  end.

Definition INVALID_VERIFICATION : string := "This verification link is invalid or has expired.".
Definition INVALID_RESET : string := "This reset link is invalid or has expired.".

Definition verifyEmail (token : jsstr) (now : Z) : M Db AuthUserDto :=
  record ← consume hashToken token UserTokenType.email_verification now;
  match record with
  | None => throwM invalid_request INVALID_VERIFICATION
  | Some record =>
      user ← gets (λ db, token_user db record);
      match user with
      | None => throwM invalid_request INVALID_VERIFICATION
      | Some (id, user) =>
          let verified := if bool_decide (User.emailVerifiedAt user ≠ None) then user
                          else User.set_emailVerifiedAt (Some now) user in
          _ ← (if bool_decide (User.emailVerifiedAt user ≠ None) then mret tt
               else set_user id (User.set_emailVerifiedAt (Some now)));
          _ ← audit id "user.email_verified";
          mret (toDto id verified)
      end
  end.

Definition resendVerification (email : jsstr) (tokenId : string) (raw : jsstr) (now : Z) : M Db unit :=
  user ← gets (λ db, user_by_email db (normalizeEmail email));
  match user with
  | None => mret tt
  | Some (id, user) =>
      if bool_decide (User.disabledAt user ≠ None) || bool_decide (User.emailVerifiedAt user ≠ None)
      then mret tt
      else
        _ ← safely (_ ← revokeOutstanding (User.email user) UserTokenType.email_verification now;
                    sendVerification id user tokenId raw now);
        mret tt
  end.

Definition onboardable (u : User.t) : bool :=
  bool_decide (User.onboardingCompletedAt u = None) && bool_decide (User.disabledAt u = None).

Definition completeOnboarding (userId : string) (now : Z) : M Db (option Z) :=
  gets (λ db, if users db !! userId is Some u then onboardable u else false) ≫= λ claimed : bool,
  if claimed then
    _ ← set_user userId (User.set_onboardingCompletedAt (Some now));
    _ ← audit userId "user.onboarding_completed";
    mret (Some now)
  else gets (λ db, users db !! userId ≫= User.onboardingCompletedAt).

Definition forgotPassword (email : jsstr) (tokenId : string) (raw : jsstr) (now : Z) : M Db unit :=
  user ← gets (λ db, user_by_email db (normalizeEmail email));
  match user with
  | None => mret tt
  | Some (id, user) =>
      if bool_decide (User.disabledAt user ≠ None) then mret tt
      else
        _ ← safely (_ ← revokeOutstanding (User.email user) UserTokenType.password_reset now;
                    issue hashToken UserTokenType.password_reset (User.email user) (Some id) None None
                      tokenId raw now);
        mret tt
  end.

Definition resetPassword (token password salt : jsstr) (now : Z) : M Db unit :=
  record ← consume hashToken token UserTokenType.password_reset now;
  match record with
  | None => throwM invalid_request INVALID_RESET
  | Some record =>
      user ← gets (λ db, token_user db record);
      match user with
      | None => throwM invalid_request INVALID_RESET
      | Some (id, user) =>
          if bool_decide (User.disabledAt user ≠ None) then throwM invalid_request INVALID_RESET
          else
            let passwordHash := hashPassword salt password in
            _ ← set_user id (User.set_passwordHash passwordHash);
            _ ← revokeOutstanding (User.email user) UserTokenType.password_reset now;
            _ ← revokeAllForUser id by_password_reset now;
            audit id "user.password_reset"
      end
  end.

Definition currentUser (session : SessionUser) : M Db AuthUserDto :=
  user ← gets (λ db, users db !! su_userId session);
  match user with
  | Some u =>
      if bool_decide (User.disabledAt u ≠ None) then throwM unauthenticated "Session is no longer valid."
      else mret (toDto (su_userId session) u)
  | None => throwM unauthenticated "Session is no longer valid."
  end.
End Auth.

(** ** What every request keeps *)

(** Sessions keep their revocation and tokens stay spent. *)
Record auth_kept (db db' : Db) : Prop := {
  ak_sessions : sessions_kept db db';
  ak_tokens hash : spent db hash → spent db' hash
}.
#[export] Instance auth_kept_preorder : PreOrder auth_kept.
Proof.
  split; [by intros db; split|]. intros a b c [H1 H2] [H3 H4]. split; [by etrans|auto].
Qed.

Lemma kept_neither db db' : keeps sessions db db' → keeps userTokens db db' → auth_kept db db'.
Proof.
  intros H1 H2. split; [by apply sessions_same|]. unfold keeps, spent, hash_unique in *. by rewrite H2.
Qed.
Lemma kept_sessions {A} (m : M Db A) :
  Respects sessions_kept m → Respects (keeps userTokens) m → Respects auth_kept m.
Proof.
  intros H1 H2 db. split; [apply H1|]. specialize (H2 db). unfold keeps, spent, hash_unique in *. by rewrite H2.
Qed.
Lemma kept_tokens {A} h (m : M Db A) :
  (∀ db, token_step h db (m db).2) → Respects (keeps sessions) m → Respects auth_kept m.
Proof.
  intros H1 H2 db. split; [apply sessions_same, H2|]. intros hash Hs. by eapply spent_step.
Qed.

(** The statements. *)
Lemma set_user_kept id f : Respects auth_kept (set_user id f).
Proof. intros db. by apply kept_neither. Qed.
Lemma upd_organizations_kept f : Respects auth_kept (modify (upd_organizations f)).
Proof. intros db. by apply kept_neither. Qed.
Lemma upd_users_kept f : Respects auth_kept (modify (upd_users f)).
Proof. intros db. by apply kept_neither. Qed.
Lemma upd_members_kept f : Respects auth_kept (modify (upd_members f)).
Proof. intros db. by apply kept_neither. Qed.
Lemma upd_auditLogs_kept f : Respects auth_kept (modify (upd_auditLogs f)).
Proof. intros db. by apply kept_neither. Qed.
Lemma issue_kept h ty e u md ttl id raw now : Respects auth_kept (issue h ty e u md ttl id raw now).
Proof.
  apply (kept_tokens h); [intros db; apply ts_issue|]. unfold issue. respects. by intros db.
Qed.
Lemma consume_kept h raw ty now : Respects auth_kept (consume h raw ty now).
Proof.
  apply (kept_tokens h); [intros db; apply ts_consume|]. unfold consume. respects. by intros db.
Qed.
Lemma revokeOutstanding_kept e ty now : Respects auth_kept (revokeOutstanding e ty now).
Proof.
  apply (kept_tokens id); [intros db; apply ts_revoke|]. unfold revokeOutstanding. respects. by intros db.
Qed.
Lemma session_issue_kept sign u e i now : Respects auth_kept (issue_session sign u e i now).
Proof.
  apply kept_sessions; [apply issue_session_kept|]. unfold issue_session. respects. by intros db.
Qed.
Lemma session_revoke_kept i r now : Respects auth_kept (revoke i r now).
Proof. apply kept_sessions; [apply revoke_kept|]. by intros db. Qed.
Lemma session_revokeAll_kept u r now : Respects auth_kept (revokeAllForUser u r now).
Proof.
  apply kept_sessions; [apply revokeAll_kept|]. unfold revokeAllForUser. respects. by intros db.
Qed.
Lemma safely_kept {A} (m : M Db A) : Respects auth_kept m → Respects auth_kept (safely m).
Proof. intros H db. specialize (H db). unfold safely. by destruct (m db) as [[] ?]. Qed.
#[export] Hint Resolve set_user_kept upd_organizations_kept upd_users_kept upd_members_kept
  upd_auditLogs_kept issue_kept consume_kept revokeOutstanding_kept session_issue_kept
  session_revoke_kept session_revokeAll_kept : respects.

Lemma unique_slug_kept base force randoms n : ∀ a, Respects auth_kept (unique_slug_loop base force randoms a n).
Proof. induction n as [|n IH]; intros a; cbn [unique_slug_loop]; respects. Qed.

Lemma createAccount_kept lower e ph o n a d : Respects auth_kept (createAccount lower e ph o n a d).
Proof.
  unfold createAccount, uniqueSlug, insert_org, insert_user, insert_member. respects. apply unique_slug_kept.
Qed.

Lemma register_loop_kept lower e ph o nm draws n : ∀ a,
  Respects auth_kept (register_loop lower e ph o nm draws a n).
Proof.
  induction n as [|n IH]; intros a; cbn [register_loop]; [respects|]. intros db.
  pose proof (createAccount_kept lower e ph o nm a (draws a) db) as H.
  destruct (createAccount _ _ _ _ _ _ _ db) as [[u|err] db'] eqn:E; [done|]. cbn in H.
  destruct (registrationTarget err) as [[]|]; try done. etrans; [exact H|]. apply IH.
Qed.
#[export] Hint Resolve createAccount_kept register_loop_kept : respects.

Section kept.
  Context (lower : jsstr → jsstr)
    (hashPassword : jsstr → jsstr → jsstr) (verifyPassword : jsstr → jsstr → bool)
    (hashToken : jsstr → jsstr)
    (verifyJwt : jsstr → Z → option SessionClaims) (signJwt : SessionClaims → Z → jsstr)
    (oldest : list (string * Member.t) → option (string * Member.t)).

(** One request to the service, by anyone, whatever its outcome. *)
Inductive auth_step : Db → Db → Prop :=
| as_register open dto salt draws tid raw now db :
    auth_step db (register lower hashPassword hashToken open dto salt draws tid raw now db).2
| as_login e p sid now db : auth_step db (login verifyPassword signJwt oldest e p sid now db).2
| as_logout cookie now db : auth_step db (logout verifyJwt oldest cookie now db).2
| as_verifyEmail tok now db : auth_step db (verifyEmail hashToken oldest tok now db).2
| as_resend e tid raw now db : auth_step db (resendVerification hashToken e tid raw now db).2
| as_onboard u now db : auth_step db (completeOnboarding oldest u now db).2
| as_forgot e tid raw now db : auth_step db (forgotPassword hashToken e tid raw now db).2
| as_reset tok p salt now db : auth_step db (resetPassword hashPassword hashToken oldest tok p salt now db).2.

Lemma audit_kept u a : Respects auth_kept (audit oldest u a).
Proof. unfold audit. respects. Qed.
Lemma sendVerification_kept id u tid raw now : Respects auth_kept (sendVerification hashToken id u tid raw now).
Proof. unfold sendVerification. respects. apply safely_kept. respects. Qed.
Hint Resolve audit_kept sendVerification_kept : respects.

Lemma auth_step_kept db db' : auth_step db db' → auth_kept db db'.
Proof.
  destruct 1.
  - revert db. change (Respects auth_kept (register lower hashPassword hashToken open dto salt draws tid raw now)).
    unfold register. respects.
  - revert db. change (Respects auth_kept (login verifyPassword signJwt oldest e p sid now)).
    unfold login. respects.
  - revert db. change (Respects auth_kept (logout verifyJwt oldest cookie now)).
    unfold logout, verify. respects.
  - revert db. change (Respects auth_kept (verifyEmail hashToken oldest tok now)).
    unfold verifyEmail. respects.
  - revert db. change (Respects auth_kept (resendVerification hashToken e tid raw now)).
    unfold resendVerification. respects. apply safely_kept. respects.
  - revert db. change (Respects auth_kept (completeOnboarding oldest u now)).
    unfold completeOnboarding. respects.
  - revert db. change (Respects auth_kept (forgotPassword hashToken e tid raw now)).
    unfold forgotPassword. respects. apply safely_kept. respects.
  - revert db. change (Respects auth_kept (resetPassword hashPassword hashToken oldest tok p salt now)).
    unfold resetPassword. respects.
Qed.

Lemma auth_steps_kept db db' : star auth_step db db' → auth_kept db db'.
Proof. induction 1 as [|a b c H%auth_step_kept _ IH]; [done|by etrans]. Qed.
End kept.

(** ** Password reset *)

Lemma consume_users h raw ty now db r db' :
  consume h raw ty now db = (Ok r, db') → users db' = users db ∧ sessions db' = sessions db.
Proof. unfold consume. intros Hr. sinv. subst. destruct (negb _); by sinv. Qed.

Lemma user_by_email_Some db email id u :
  user_by_email db email = Some (id, u) → users db !! id = Some u ∧ User.email u = email.
Proof.
  unfold user_by_email. intros H.
  assert ((id, u) ∈ map_to_list (filter (λ kv, User.email kv.2 = email) (users db))) as Hin.
  { destruct (map_to_list _); [done|]. injection H as ->. by left. }
  apply elem_of_map_to_list, map_lookup_filter_Some in Hin. done.
Qed.

Lemma token_user_Some db r id u : token_user db r = Some (id, u) → users db !! id = Some u.
Proof.
  unfold token_user, user_by_id. destruct (UserToken.userId r) as [[|]|].
  - by intros [? _]%user_by_email_Some.
  - intros (x & Hx & [= -> ->])%fmap_Some. done.
  - by intros [? _]%user_by_email_Some.
Qed.

Lemma audit_run oldest u a db : ∃ f, audit oldest u a db = (Ok tt, upd_auditLogs f db).
Proof.
  unfold audit, mbind, M_bind, gets. destruct (oldest _) as [[i m]|]; [by eexists|].
  exists (λ l, l). by destruct db.
Qed.

(** The tables after the statements of a reset that went through. *)
Lemma resetPassword_Ok hashPassword hashToken oldest token password salt now db db' :
  hash_unique db →
  resetPassword hashPassword hashToken oldest token password salt now db = (Ok tt, db') →
  ∃ id user, users db !! id = Some user ∧ User.disabledAt user = None
    ∧ users db' = <[id := User.set_passwordHash (hashPassword salt password) user]> (users db)
    ∧ sessions db' = (λ s, if revocable id s then mark_revoked by_password_reset now s else s) <$> sessions db
    ∧ spent db' (hashToken token)
    ∧ (∀ i t, userTokens db' !! i = Some t → UserToken.type t = UserTokenType.password_reset →
         UserToken.email t = toLowerCase (User.email user) → UserToken.consumedAt t ≠ None).
Proof.
  intros Hu E. unfold resetPassword in E. apply bindM_Ok in E as (record & db1 & Hc & E).
  destruct record as [record|]; [|by apply throwM_Ok in E].
  pose proof (consume_spends _ _ _ _ _ _ _ Hu Hc) as Hspent.
  destruct (consume_users _ _ _ _ _ _ _ Hc) as [Eu Es].
  apply bindM_Ok in E as (user & s & [-> ->]%gets_Ok & E).
  destruct (token_user db1 record) as [[id user]|] eqn:Ht; [|by apply throwM_Ok in E].
  apply token_user_Some in Ht. rewrite Eu in Ht.
  case_bool_decide as Hd; [by apply throwM_Ok in E|].
  exists id, user. split; [done|]. split; [by destruct (User.disabledAt user)|].
  apply bindM_Ok in E as (u1 & db2 & ->%modify_Ok & E).
  apply bindM_Ok in E as (n1 & db3 & E3 & E). apply bindM_Ok in E as (n2 & db4 & E4 & E).
  destruct (audit_run oldest id "user.password_reset" db4) as [f Ef]. rewrite Ef in E. injection E as <-.
  assert (spent db3 (hashToken token)) as H3.
  { replace db3 with (revokeOutstanding (User.email user) UserTokenType.password_reset now
      (upd_users (alter (User.set_passwordHash (hashPassword salt password)) id) db1)).2 by (by rewrite E3).
    eapply (spent_step hashToken); [|apply ts_revoke]. exact Hspent. }
  unfold revokeAllForUser in E4. minv. unfold revokeOutstanding in E3. minv. subst. cbn. split_and!.
  - rewrite Eu. apply map_eq. intros j. destruct (decide (id = j)) as [->|Hj].
    + by rewrite lookup_alter_eq, lookup_insert_eq, Ht.
    + by rewrite lookup_alter_ne, lookup_insert_ne.
  - by rewrite Es.
  - exact H3.
  - intros i t. rewrite lookup_fmap. intros (t0 & Hi & ->)%fmap_Some Hty Hem.
    destruct (bool_decide (UserToken.email t0 = toLowerCase (User.email user)) && _ && _) eqn:Eo; [done|].
    rewrite Hty, Hem in Eo. rewrite !(bool_decide_eq_true_2 (_ = _)) in Eo by done. cbn in Eo.
    by bprop.
Qed.

Lemma resetPassword_spent hashPassword hashToken oldest token p salt t db :
  spent db (hashToken token) →
  (resetPassword hashPassword hashToken oldest token p salt t db).1 = throw invalid_request INVALID_RESET.
Proof.
  intros Hs. unfold resetPassword, mbind, M_bind.
  pose proof (consume_spent hashToken token UserTokenType.password_reset t db Hs) as E.
  destruct (consume hashToken token UserTokenType.password_reset t db) as [r db']. cbn in E. by rewrite E.
Qed.

(** C9. A password reset signs the account out everywhere, for good: when it goes
    through, the account behind the token has the new password and nobody else's
    row changes; every session the account had is dead in every later state,
    whatever signed token names it; the link is refused from then on, and every
    other outstanding reset link for the address is consumed. *)
Theorem reset_signs_out (lower : jsstr → jsstr) (hashPassword : jsstr → jsstr → jsstr)
    (verifyPassword : jsstr → jsstr → bool) (hashToken : jsstr → jsstr)
    (verifyJwt : jsstr → Z → option SessionClaims) (signJwt : SessionClaims → Z → jsstr)
    (oldest : list (string * Member.t) → option (string * Member.t))
    (token password salt : jsstr) (now : Z) (db db' later : Db)
    (Hunique : hash_unique db)
    (Hrun : resetPassword hashPassword hashToken oldest token password salt now db = (Ok tt, db'))
    (Hlater : star (auth_step lower hashPassword verifyPassword hashToken verifyJwt signJwt oldest) db' later) :
  ∃ id user, users db !! id = Some user ∧ User.disabledAt user = None
    ∧ users db' = <[id := User.set_passwordHash (hashPassword salt password) user]> (users db)
    ∧ (∀ cookie t claims s, verifyJwt cookie t = Some claims →
         sessions db !! cl_sid claims = Some s → Session.userId s = id →
         verify verifyJwt cookie t later = (Ok None, later))
    ∧ (∀ password' salt' t,
         (resetPassword hashPassword hashToken oldest token password' salt' t later).1
         = throw invalid_request INVALID_RESET)
    ∧ (∀ i t, userTokens db' !! i = Some t → UserToken.type t = UserTokenType.password_reset →
         UserToken.email t = toLowerCase (User.email user) → UserToken.consumedAt t ≠ None).
Proof.
  destruct (resetPassword_Ok _ _ _ _ _ _ _ _ _ Hunique Hrun) as (id & user & Hu & Hd & Eu & Es & Hs & Ho).
  destruct (auth_steps_kept _ _ _ _ _ _ _ _ _ Hlater) as [Hks Hkt].
  exists id, user. split_and!; [done..| | |done].
  - intros cookie t claims s Hjwt Hsid Hown. rewrite verify_run, Hjwt.
    assert (session_live later claims t = false) as ->; [|by rewrite andb_false_r].
    eapply (revoked_dead db' later); [done|by rewrite Es, lookup_fmap, Hsid|].
    unfold revocable. rewrite Hown, bool_decide_eq_true_2 by done. cbn.
    case_bool_decide; [done|]. by destruct (Session.revokedAt s).
  - intros p' salt' t. apply resetPassword_spent. by apply Hkt.
Qed.

(** ** Signing in *)

(** Signing in, on every branch, with a fresh session id: an unknown address, a
    disabled account and a wrong password get the same answer and change nothing;
    a caller who proved the password of an unverified account is told so, and
    nothing changes; otherwise exactly one session of seven days is created for
    the account, and the answer carries a cookie that names it. *)
Theorem login_verdict (verifyPassword : jsstr → jsstr → bool) (signJwt : SessionClaims → Z → jsstr)
    (oldest : list (string * Member.t) → option (string * Member.t))
    (email password : jsstr) (sid : string) (now : Z) (db : Db) (Hsid : sessions db !! sid = None) :
  let run := login verifyPassword signJwt oldest email password sid now db in
  match user_by_email db (normalizeEmail email) with
  | Some (id, u) =>
      if bool_decide (User.disabledAt u = None) && verifyPassword (User.passwordHash u) password
      then if bool_decide (User.emailVerifiedAt u = None)
           then run = (throw email_not_verified "Confirm your email address before signing in. Request a new link if the last one expired.", db)
           else run.1 = Ok (toDto id u, signJwt (MkClaims id (User.email u) sid) now)
                ∧ sessions run.2 = <[sid := Session.mk id (now + 604800000) None None]> (sessions db)
                ∧ users run.2 = alter (User.set_lastLoginAt (Some now)) id (users db)
                ∧ userTokens run.2 = userTokens db ∧ members run.2 = members db
      else run = (invalidCredentials, db)
  | None => run = (invalidCredentials, db)
  end.
Proof.
  intros run. assert (run = login verifyPassword signJwt oldest email password sid now db) as E by done.
  clearbody run. unfold login in E. unfold mbind at 1, M_bind at 1, gets at 1 in E.
  destruct (user_by_email db (normalizeEmail email)) as [[id u]|]; [|done].
  destruct (User.disabledAt u) as [d|]; cbn [bool_decide andb] in *.
  { rewrite bool_decide_eq_true_2 in E by done. by rewrite bool_decide_eq_false_2. }
  rewrite (bool_decide_eq_false_2 (None ≠ None)) in E by naive_solver.
  rewrite (bool_decide_eq_true_2 (None = None)) by done. cbn [andb].
  destruct (verifyPassword (User.passwordHash u) password); [|done]. cbn [negb] in E.
  unfold guardM, throw_if, lift, mbind at 1, M_bind at 1 in E. case_bool_decide as Hv; [done|].
  unfold set_user, mbind at 1, M_bind at 1, modify at 1 in E.
  unfold mbind at 1, M_bind at 1 in E.
  destruct (audit_run oldest id "user.login" (upd_users (alter (User.set_lastLoginAt (Some now)) id) db))
    as [f Ef]. rewrite Ef in E.
  unfold issue_session, mbind, M_bind, gets, guardM, lift, throw_if, modify in E. cbn in E.
  rewrite Hsid in E. rewrite bool_decide_eq_false_2 in E by (by intros []).
  rewrite E. cbn. done.
Qed.

Lemma audit_spec oldest u a db v db' : audit oldest u a db = (Ok v, db') → ∃ f, db' = upd_auditLogs f db.
Proof. intros E. destruct (audit_run oldest u a db) as [f Ef]. exists f. congruence. Qed.

(** A sign-in that went through. *)
Lemma login_Ok verifyPassword signJwt oldest email password sid now db dto cookie db' :
  login verifyPassword signJwt oldest email password sid now db = (Ok (dto, cookie), db') →
  ∃ id u f, users db !! id = Some u ∧ User.email u = normalizeEmail email ∧ User.disabledAt u = None
    ∧ cookie = signJwt (MkClaims id (User.email u) sid) now
    ∧ db' = upd_sessions (insert sid (Session.mk id (now + SESSION_TTL_SECONDS * 1000) None None))
              (upd_auditLogs f (upd_users (alter (User.set_lastLoginAt (Some now)) id) db)).
Proof.
  unfold login. intros (user & s & [-> ->]%gets_Ok & E)%bindM_Ok.
  destruct (user_by_email db (normalizeEmail email)) as [[id u]|] eqn:Hu; [|done].
  apply user_by_email_Some in Hu as [Hu Hem]. case_bool_decide as Hd; [done|].
  destruct (negb _); [done|].
  apply bindM_Ok in E as (u1 & db1 & [_ ->]%guardM_Ok & E).
  apply bindM_Ok in E as (u2 & db2 & ->%modify_Ok & E).
  apply bindM_Ok in E as (u3 & db3 & [f ->]%audit_spec & E).
  apply bindM_Ok in E as (ck & db4 & Ei & [= <- <- <-]).
  unfold issue_session in Ei. minv. subst.
  exists id, u, f. split_and!; [done|done|by destruct (User.disabledAt u)|done|done].
Qed.

(** What jsonwebtoken does with [expiresIn]: whole seconds, rounded down. *)
Definition jwt_fresh (issued t : Z) : bool := (t / 1000 <? issued / 1000 + SESSION_TTL_SECONDS)%Z.
Lemma jwt_fresh_row issued t : jwt_fresh issued t = true → (t < issued + SESSION_TTL_SECONDS * 1000)%Z.
Proof. unfold jwt_fresh, SESSION_TTL_SECONDS. intros ?%Z.ltb_lt. Z.div_mod_to_equations. lia. Qed.

Lemma guard_run verifyJwt cookie now db : cookie ≠ [] →
  session_guard verifyJwt (Some cookie) now db =
  (match verifyJwt cookie now with
   | Some c => if negb (incomplete c) && session_live db c now
               then Ok (MkSessionUser (cl_sub c) (cl_email c) (cl_sid c))
               else throw unauthenticated "Session is invalid or has expired."
   | None => throw unauthenticated "Session is invalid or has expired."
   end, db).
Proof.
  intros H. destruct cookie as [|x cookie]; [done|]. unfold session_guard, mbind, M_bind. rewrite verify_run.
  destruct (verifyJwt (x :: cookie) now) as [c|]; [|done]. by destruct (negb (incomplete c) && _).
Qed.

Lemma logout_run verifyJwt oldest cookie now db c :
  cookie ≠ [] → verifyJwt cookie now = Some c → incomplete c = false → session_live db c now = true →
  ∃ f, (logout verifyJwt oldest (Some cookie) now db).2
       = upd_auditLogs f (revoke (cl_sid c) by_logout now db).2.
Proof.
  intros Hne Hj Hi Hl. destruct cookie as [|x cookie]; [done|].
  unfold logout, mbind, M_bind. rewrite verify_run, Hj, Hi, Hl. cbn [negb andb su_sessionId su_userId].
  destruct (revoke (cl_sid c) by_logout now db) as [r db1] eqn:Er. unfold revoke, modify in Er.
  injection Er as <- <-. cbn [snd]. edestruct audit_run as [f Ef]. exists f. by rewrite Ef.
Qed.

(** C11. The cookie of a sign-in opens a session and signing out closes it.  With a
    token library that returns what was signed until its whole-second expiry, the
    guard admits the cookie as the account that signed in for exactly that long,
    and no longer; once the cookie has been presented to [logout], the guard
    refuses it at every time and in every later state of the service. *)
Theorem session_roundtrip (lower : jsstr → jsstr) (hashPassword : jsstr → jsstr → jsstr)
    (verifyPassword : jsstr → jsstr → bool) (hashToken : jsstr → jsstr)
    (verifyJwt : jsstr → Z → option SessionClaims) (signJwt : SessionClaims → Z → jsstr)
    (oldest : list (string * Member.t) → option (string * Member.t))
    (email password : jsstr) (sid : string) (now : Z) (db db' : Db) (dto : AuthUserDto) (cookie : jsstr)
    (Hjwt : ∀ c t, verifyJwt (signJwt c now) t = if jwt_fresh now t then Some c else None)
    (Htoken : ∀ c, signJwt c now ≠ [])
    (Hids : sid ≠ EmptyString ∧ users db !! EmptyString = None) (Hemail : normalizeEmail email ≠ [])
    (Hrun : login verifyPassword signJwt oldest email password sid now db = (Ok (dto, cookie), db')) :
  ∃ id, is_Some (users db !! id)
    ∧ (∀ t, session_guard verifyJwt (Some cookie) t db'
            = (if jwt_fresh now t then Ok (MkSessionUser id (normalizeEmail email) sid)
               else throw unauthenticated "Session is invalid or has expired.", db'))
    ∧ (∀ t1 t2 later, jwt_fresh now t1 = true →
         star (auth_step lower hashPassword verifyPassword hashToken verifyJwt signJwt oldest)
           (logout verifyJwt oldest (Some cookie) t1 db').2 later →
         session_guard verifyJwt (Some cookie) t2 later
         = (throw unauthenticated "Session is invalid or has expired.", later)).
Proof.
  destruct (login_Ok _ _ _ _ _ _ _ _ _ _ _ Hrun) as (id & u & f & Hu & Hem & Hd & -> & Edb).
  destruct Hids as [Hsid Hno]. rewrite Hem in *. set (c := MkClaims id (normalizeEmail email) sid).
  assert (incomplete c = false) as Hi.
  { unfold incomplete. cbn. rewrite !bool_decide_eq_false_2; [done|done..|]. intros ->. congruence. }
  assert (∀ t, jwt_fresh now t = true → session_live db' c t = true) as Hlive.
  { intros t Ht%jwt_fresh_row. apply session_live_spec. rewrite Edb. eexists _, _.
    split; cbn; [apply lookup_insert_eq|done|done|exact Ht|by rewrite lookup_alter_eq, Hu|done]. }
  exists id. split; [by eexists|]. split.
  - intros t. rewrite guard_run, Hjwt by done. destruct (jwt_fresh now t) eqn:Ht; [|done].
    by rewrite Hi, Hlive.
  - intros t1 t2 later H1 Hl%auth_steps_kept. rewrite guard_run, Hjwt by done.
    destruct (jwt_fresh now t2); [|done]. rewrite Hi.
    destruct (logout_run verifyJwt oldest (signJwt c now) t1 db' c) as [g Eg];
      [done|by rewrite Hjwt, H1|done|by apply Hlive|].
    rewrite Eg in Hl. erewrite (revoked_dead _ later c t2 _ (ak_sessions _ _ Hl)); [done| |].
    + rewrite Edb. cbn. rewrite map_lookup_imap, lookup_insert_eq. cbn.
      rewrite bool_decide_eq_true_2 by done. cbn. reflexivity.
    + done.
Qed.

(** ** Registration *)

Definition email_taken (db : Db) (email : jsstr) : bool :=
  exists_row (users db) (λ v, bool_decide (User.email v = email)).

Definition fresh_reg (db : Db) (d : RegDraw) : Prop :=
  organizations db !! rd_org d = None ∧ users db !! rd_user d = None ∧ members db !! rd_member d = None.

(** The account a registration creates. *)
Definition new_account (email passwordHash : jsstr) (name : option jsstr) : User.t :=
  User.mk email name passwordHash None None None None.
Definition registered (email passwordHash orgName slug : jsstr) (name : option jsstr) (d : RegDraw) (db : Db) : Db :=
  upd_auditLogs (λ l, l ++ [audit_row (rd_org d) (rd_user d) "user.registered"])
    (upd_members (insert (rd_member d) (Member.mk (rd_org d) (rd_user d) owner))
      (upd_users (insert (rd_user d) (new_account email passwordHash name))
        (upd_organizations (insert (rd_org d) (Organization.mk orgName slug OrganizationStatus.active)) db))).

(** The slug search reads organizations only, and what it returns is free. *)
Fixpoint free_slug (db : Db) (base : jsstr) (force : bool) (randoms : nat → jsstr) (a n : nat) : option jsstr :=
  match n with
  | O => None
  | S n => let candidate := slug_candidate base force a (randoms a) in
           if slug_held db candidate then free_slug db base force randoms (S a) n else Some candidate
  end.
Definition NO_SLUG : string := "Could not allocate an organization slug. Try a different name.".

Lemma unique_slug_run base force randoms n db : ∀ a,
  unique_slug_loop base force randoms a n db =
  (match free_slug db base force randoms a n with Some s => Ok s | None => throw conflict NO_SLUG end, db).
Proof.
  induction n as [|n IH]; intros a; [done|]. cbn [unique_slug_loop free_slug].
  unfold mbind, M_bind, gets. destruct (slug_held db _); [apply IH|done].
Qed.
Lemma free_slug_free db base force randoms n s : ∀ a,
  free_slug db base force randoms a n = Some s → slug_held db s = false.
Proof.
  induction n as [|n IH]; intros a; cbn; [done|].
  destruct (slug_held db (slug_candidate base force a (randoms a))) eqn:E; [apply IH|]. by intros [= <-].
Qed.
Lemma free_slug_ext db1 db2 base force randoms n : organizations db1 = organizations db2 →
  ∀ a, free_slug db1 base force randoms a n = free_slug db2 base force randoms a n.
Proof.
  intros E. induction n as [|n IH]; intros a; cbn; [done|]. unfold slug_held. rewrite E.
  by destruct (exists_row _ _).
Qed.

Lemma createAccount_run lower email ph orgName name a d db :
  fresh_reg db d →
  createAccount lower email ph orgName name a d db =
  match free_slug db (slugify lower orgName) (0 <? a) (rd_randoms d) 0 5 with
  | None => (throw conflict NO_SLUG, db)
  | Some slug =>
      if email_taken db email then (throw internal_error (P2002 "email"), db)
      else (Ok (rd_user d, new_account email ph name), registered email ph orgName slug name d db)
  end.
Proof.
  intros (Ho & Hu & Hm). unfold createAccount, transact, uniqueSlug, mbind at 1, M_bind at 1.
  rewrite unique_slug_run. destruct (free_slug _ _ _ _ _ _) as [slug|] eqn:Ef; [|done].
  apply free_slug_free in Ef.
  unfold insert_org, insert_user, insert_member, email_taken, mbind, M_bind, gets, guardM, lift, throw_if, modify.
  rewrite Ho, bool_decide_eq_false_2 by (by intros []). cbn [Organization.slug]. rewrite Ef. cbn [users upd_organizations].
  rewrite Hu, bool_decide_eq_false_2 by (by intros []). cbn [User.email].
  destruct (exists_row (users db) _); [done|]. cbn. rewrite Hm. done.
Qed.

Lemma register_loop_run lower email ph orgName name draws n a db :
  fresh_reg db (draws a) →
  register_loop lower email ph orgName name draws a (S n) db =
  match free_slug db (slugify lower orgName) (0 <? a) (rd_randoms (draws a)) 0 5 with
  | None => (throw conflict NO_SLUG, db)
  | Some slug =>
      if email_taken db email then (Ok None, db)
      else (Ok (Some (rd_user (draws a), new_account email ph name)),
            registered email ph orgName slug name (draws a) db)
  end.
Proof.
  intros Hf. cbn [register_loop]. rewrite createAccount_run by done.
  destruct (free_slug _ _ _ _ _ _); [|done]. by destruct (email_taken db email).
Qed.

Lemma sendVerification_run h id u tid raw now db :
  ∃ f, sendVerification h id u tid raw now db = (Ok tt, upd_userTokens f db).
Proof.
  unfold sendVerification, safely, issue, mbind, M_bind, gets, guardM, lift, throw_if, modify.
  destruct (_ || _); [|by eexists]. exists (λ m, m). by destruct db.
Qed.

(** C10. Registration does not say whether an address has an account.  For any two
    databases that agree on the organizations, whatever accounts, sessions,
    tokens and memberships they hold, the answer to the same request is the same:
    it depends on the switch and on the organization slugs alone.  When the
    address is taken nothing is written; when it is free and the answer is
    positive, the account, its organization and its owner membership are written
    together, with the password hashed and the address not yet verified. *)
Theorem register_uniform (lower : jsstr → jsstr) (hashPassword : jsstr → jsstr → jsstr)
    (hashToken : jsstr → jsstr) (open : bool) (dto : RegisterDto) (salt : jsstr) (draws : nat → RegDraw)
    (tid : string) (raw : jsstr) (now : Z) (db1 db2 : Db)
    (Horgs : organizations db1 = organizations db2)
    (Hfresh1 : fresh_reg db1 (draws 0)) (Hfresh2 : fresh_reg db2 (draws 0)) :
  let run := register lower hashPassword hashToken open dto salt draws tid raw now in
  let email := normalizeEmail (rg_email dto) in
  (run db1).1 = (run db2).1
  ∧ (email_taken db1 email = true → (run db1).2 = db1)
  ∧ (email_taken db1 email = false → (run db1).1 = Ok tt →
     ∃ slug f, slug_held db1 slug = false
       ∧ (run db1).2 = upd_userTokens f (registered email (hashPassword salt (rg_password dto))
            (register_org_name dto email) slug (rg_name dto) (draws 0) db1)).
Proof.
  intros run email.
  assert (∀ db, fresh_reg db (draws 0) → ∃ f,
    run db = if negb open then (throw forbidden "Self-serve registration is disabled. Ask an organization owner for an invitation.", db) else
      match free_slug db (slugify lower (register_org_name dto email)) false (rd_randoms (draws 0)) 0 5 with
      | None => (throw conflict NO_SLUG, db)
      | Some slug =>
          if email_taken db email then (Ok tt, db)
          else (Ok tt, upd_userTokens f (registered email (hashPassword salt (rg_password dto))
                         (register_org_name dto email) slug (rg_name dto) (draws 0) db))
      end) as Hrun.
  { intros db Hf. subst run. unfold register, guardM, lift, throw_if, mbind at 1, M_bind at 1.
    destruct open; cbn [negb]; [|by exists (λ m, m)].
    unfold MAX_REGISTRATION_ATTEMPTS, mbind, M_bind. rewrite register_loop_run by done. fold email.
    change (0 <? 0) with false.
    destruct (free_slug _ _ _ _ _ _) as [slug|]; [|by exists (λ m, m)].
    destruct (email_taken db email); [by exists (λ m, m)|].
    edestruct sendVerification_run as [f Ef]. exists f. apply Ef. }
  clearbody run. destruct (Hrun db1 Hfresh1) as [f1 E1], (Hrun db2 Hfresh2) as [f2 E2].
  rewrite (free_slug_ext db2 db1) in E2 by done. rewrite E1, E2.
  destruct open; cbn [negb]; [|done].
  destruct (free_slug _ _ _ _ _ _) as [slug|] eqn:Ef; [|done]. split_and!.
  - by destruct (email_taken db1 email), (email_taken db2 email).
  - by intros ->.
  - intros -> _. exists slug, f1. split; [by eapply free_slug_free|done].
Qed.

(** ** A run of the service *)

(** A token library that meets the contract: the claims and the time of signing,
    encoded as a number. *)
Definition sample_sign (c : SessionClaims) (now : Z) : jsstr :=
  [Npos (encode (cl_sub c, cl_email c, cl_sid c, now))].
Definition sample_verify (token : jsstr) (t : Z) : option SessionClaims :=
  match token with
  | [Npos p] =>
      match decode p : option (string * jsstr * string * Z) with
      | Some (sub, email, sid, issued) => if jwt_fresh issued t then Some (MkClaims sub email sid) else None
      | None => None
      end
  | _ => None
  end.
Lemma sample_jwt now c t : sample_verify (sample_sign c now) t = if jwt_fresh now t then Some c else None.
Proof. unfold sample_verify, sample_sign. rewrite decode_encode. by destruct c. Qed.

Definition same_password (h p : jsstr) : bool := bool_decide (h = p).
Definition keep_password (salt p : jsstr) : jsstr := p.

Definition carol : User.t := User.mk (js "carol@x.io") None (js "pw") (Some 1%Z) None None None.
Definition one_account : Db := upd_users (insert "u1" carol) empty_db.
Definition signed_in : Db :=
  (login same_password sample_sign head (js " Carol@x.io") (js "pw") "s1" 0 one_account).2.
Definition asked_reset : Db := (forgotPassword no_hash (js "carol@x.io") "t1" (js "raw") 0 signed_in).2.

Lemma login_verdict_witness :
  sessions signed_in = <["s1" := Session.mk "u1" 604800000 None None]> (sessions one_account).
Proof.
  assert (sessions one_account !! "s1" = None) as Hs by (vm_compute; reflexivity).
  pose proof (login_verdict same_password sample_sign head (js " Carol@x.io") (js "pw") "s1" 0 one_account Hs) as H.
  cbv zeta in H.
  assert (user_by_email one_account (normalizeEmail (js " Carol@x.io")) = Some ("u1", carol)) as Hu
    by (vm_compute; reflexivity).
  rewrite Hu in H. exact (proj1 (proj2 H)).
Defined.

Lemma session_roundtrip_witness :
  ∃ id, (∀ t, session_guard sample_verify (Some (sample_sign (MkClaims "u1" (js "carol@x.io") "s1") 0)) t signed_in
              = (if jwt_fresh 0 t then Ok (MkSessionUser id (js "carol@x.io") "s1")
                 else throw unauthenticated "Session is invalid or has expired.", signed_in)).
Proof.
  destruct (session_roundtrip id keep_password same_password no_hash sample_verify sample_sign head
    (js " Carol@x.io") (js "pw") "s1" 0 one_account signed_in (toDto "u1" carol)
    (sample_sign (MkClaims "u1" (js "carol@x.io") "s1") 0)) as (i & _ & H & _).
  - intros c t. apply sample_jwt.
  - intros c H. discriminate H.
  - split; [discriminate|vm_compute; reflexivity].
  - vm_compute. discriminate.
  - vm_compute. reflexivity.
  - exists i. exact H.
Defined.

Lemma reset_signs_out_witness :
  ∃ user, users asked_reset !! "u1" = Some user ∧
  let db' := (resetPassword keep_password no_hash head (js "raw") (js "new") [] 5 asked_reset).2 in
  verify sample_verify (sample_sign (MkClaims "u1" (js "carol@x.io") "s1") 0) 6 asked_reset
    = (Ok (Some (MkSessionUser "u1" (js "carol@x.io") "s1")), asked_reset)
  ∧ verify sample_verify (sample_sign (MkClaims "u1" (js "carol@x.io") "s1") 0) 6 db' = (Ok None, db').
Proof.
  eexists. split; [vm_compute; reflexivity|]. intros db'. split; [vm_compute; reflexivity|].
  assert (∃ t, userTokens asked_reset = {[ "t1" := t ]}) as [t Ht] by (eexists; vm_compute; reflexivity).
  destruct (reset_signs_out id keep_password same_password no_hash sample_verify sample_sign head
    (js "raw") (js "new") [] 5 asked_reset db' db' (hash_unique_one _ _ _ Ht)) as (id & u & Hu & _ & _ & H & _).
  - vm_compute. reflexivity.
  - apply star_refl.
  - apply (H _ 6%Z (MkClaims "u1" (js "carol@x.io") "s1") (Session.mk "u1" 604800000 None None)).
    + vm_compute. reflexivity.
    + vm_compute. reflexivity.
    + cbn. destruct (decide (id = "u1")) as [->|Hn]; [reflexivity|]. exfalso.
      assert (users asked_reset = {[ "u1" := User.set_lastLoginAt (Some 0%Z) carol ]}) as E
        by (vm_compute; reflexivity).
      rewrite E in Hu. apply lookup_singleton_Some in Hu as [Hu _]. apply Hn. symmetry. exact Hu.
Defined.

Lemma register_uniform_witness :
  let dto := MkRegister (js "carol@x.io") (js "pw") None (Some (js "Acme")) in
  let draws := λ _, MkRegDraw "o9" "u9" "m9" (λ _, js "0.abcdefgh") in
  let run := register id keep_password no_hash true dto [] draws "t9" (js "raw") 0 in
  email_taken one_account (js "carol@x.io") = true ∧ email_taken empty_db (js "carol@x.io") = false
  ∧ (run one_account).1 = (run empty_db).1 ∧ (run one_account).2 = one_account.
Proof.
  intros dto draws run. split; [vm_compute; reflexivity|]. split; [vm_compute; reflexivity|].
  destruct (register_uniform id keep_password no_hash true dto [] draws "t9" (js "raw") 0 one_account empty_db)
    as (H1 & H2 & _); [reflexivity|repeat split; vm_compute; reflexivity..|].
  split; [exact H1|]. apply H2. vm_compute. reflexivity.
Defined.

(** ** Slugs of registration *)

(** The organization slug that registration derives can violate the service's own
    slug pattern, which the update endpoint then refuses: the edge hyphens are
    stripped before the cut at 48 characters, so a name whose 48th character is a
    separator keeps its trailing hyphen. *)
Example registered_slug_malformed :
  let name := repeat 97%N 47 ++ js " b" in
  let draws := λ _, MkRegDraw "o9" "u9" "m9" (λ _, js "0.abcdefgh") in
  let dto := MkRegister (js "carol@x.io") (js "pw") None (Some name) in
  let db := (register id keep_password no_hash true dto [] draws "t9" (js "raw") 0 empty_db).2 in
  Organization.slug <$> organizations db !! "o9" = Some (repeat 97%N 47 ++ [hyphen])
  ∧ SLUG_PATTERN (repeat 97%N 47 ++ [hyphen]) = false.
Proof. split; vm_compute; reflexivity. Qed.
