(* ===== verification/Utf8.v ===== *)
(** Text encodings of the language: UTF-16 strings and their code points, Node's
    UTF-8 encoder and decoder ([Buffer.from(text, 'utf8')] and
    [buffer.toString('utf8')]), and base64.

    Bytes, code units and code points are numbers.  The decoder is the one the
    Encoding standard prescribes: it replaces each maximal ill-formed part by
    U+FFFD. *)
From Stdlib Require Import ZArith Lia.
From S2P Require Import Prelude Js.
Local Open Scope N_scope.

Definition is_byte (b : N) : Prop := b < 256.
Definition is_scalar (c : N) : bool := (c <=? 1114111) && negb ((55296 <=? c) && (c <=? 57343)).
Definition REPLACEMENT : N := 65533.
Abbreviation scalars := (Forall (λ c, is_scalar c = true)).

(** ** UTF-16 *)

Definition utf16_1 (c : N) : jsstr :=
  if c <? 65536 then [c]
  else [55296 + (c - 65536) / 1024; 56320 + (c - 65536) mod 1024].
(** [String.fromCodePoint], joined. *)
Definition utf16 (l : list N) : jsstr := concat (map utf16_1 l).

(** [Array.from(text)]: the code points, a lone surrogate being itself. *)
Fixpoint points (s : jsstr) : list N :=
  match s with
  | [] => []
  | c :: s' =>
      match s' with
      | d :: s'' =>
          if is_high c && is_low d then (65536 + (c - 55296) * 1024 + (d - 56320)) :: points s''
          else c :: points s'
      | [] => [c]
      end
  end.

(** ** UTF-8 *)

Definition utf8_1 (c : N) : list N :=
  if c <? 128 then [c]
  else if c <? 2048 then [192 + c / 64; 128 + c mod 64]
  else if c <? 65536 then [224 + c / 4096; 128 + c / 64 mod 64; 128 + c mod 64]
  else [240 + c / 262144; 128 + c / 4096 mod 64; 128 + c / 64 mod 64; 128 + c mod 64].
Definition utf8 (l : list N) : list N := concat (map utf8_1 l).

Definition to_scalar (c : N) : N := if is_scalar c then c else REPLACEMENT.
(** [Buffer.from(text, 'utf8')] *)
Definition encode_text (s : jsstr) : list N := utf8 (map to_scalar (points s)).

(** The decoder's state: how many continuation bytes are owed, the bits so far,
    and the range the next byte must be in. *)
Record dstate : Type := MkD { owed : nat; bits : N; lower : N; upper : N }.
Definition d0 : dstate := MkD 0 0 128 191.

Definition lead (b : N) : list N * dstate :=
  if b <? 128 then ([b], d0)
  else if b <? 194 then ([REPLACEMENT], d0)
  else if b <? 224 then ([], MkD 1 (b - 192) 128 191)
  else if b <? 240 then ([], MkD 2 (b - 224) (if b =? 224 then 160 else 128) (if b =? 237 then 159 else 191))
  else if b <? 245 then ([], MkD 3 (b - 240) (if b =? 240 then 144 else 128) (if b =? 244 then 143 else 191))
  else ([REPLACEMENT], d0).

Definition dstep (st : dstate) (b : N) : list N * dstate :=
  match owed st with
  | O => lead b
  | S n =>
      if (b <? lower st) || (upper st <? b) then let '(out, st') := lead b in (REPLACEMENT :: out, st')
      else
        let cp := bits st * 64 + (b - 128) in
        match n with
        | O => ([cp], d0)
        | S _ => ([], MkD n cp 128 191)
        end
  end.

Fixpoint decode_from (st : dstate) (l : list N) : list N :=
  match l with
  | [] => if (owed st =? 0)%nat then [] else [REPLACEMENT]
  | b :: l => let '(out, st') := dstep st b in out ++ decode_from st' l
  end.
Definition utf8_decode (l : list N) : list N := decode_from d0 l.

(** [buffer.toString('utf8')] *)
Definition decode_text (l : list N) : jsstr := utf16 (utf8_decode l).

(** ** Base64 *)

Definition b64 (i : N) : N :=
  if i <? 26 then 65 + i else if i <? 52 then 71 + i else if i <? 62 then i - 4
  else if i =? 62 then 43 else 47.
Definition equals : N := 61.
(** [buffer.toString('base64')] *)
Fixpoint base64 (l : list N) : jsstr :=
  match l with
  | [] => []
  | [a] => [b64 (a / 4); b64 (a mod 4 * 16); equals; equals]
  | [a; b] => [b64 (a / 4); b64 (a mod 4 * 16 + b / 16); b64 (b mod 16 * 4); equals]
  | a :: b :: c :: l =>
      b64 (a / 4) :: b64 (a mod 4 * 16 + b / 16) :: b64 (b mod 16 * 4 + c / 64) :: b64 (c mod 64) :: base64 l
  end.

Definition un64 (c : N) : N :=
  if is_upper c then c - 65 else if is_lower c then c - 71 else if is_digit c then c + 4
  else if c =? 43 then 62 else 63.
(** [Buffer.from(text, 'base64')] on padded text. *)
Fixpoint unbase64 (s : jsstr) : list N :=
  match s with
  | a :: b :: c :: d :: s =>
      let '(a, b) := (un64 a, un64 b) in
      (a * 4 + b / 16) ::
      (if c =? equals then []
       else (b mod 16 * 16 + un64 c / 4) :: (if d =? equals then [] else [un64 c mod 4 * 64 + un64 d]))
      ++ unbase64 s
  | _ => []
  end.

(** ** Code points survive UTF-16 *)

Lemma is_scalar_spec c : is_scalar c = true ↔ c < 55296 ∨ 57344 <= c <= 1114111.
Proof.
  unfold is_scalar. rewrite andb_true_iff, negb_true_iff, andb_false_iff, !N.leb_le, !N.leb_gt. lia.
Qed.

Lemma points_utf16_1 c rest : is_scalar c = true → points (utf16_1 c ++ rest) = c :: points rest.
Proof.
  rewrite is_scalar_spec. intros Hc. unfold utf16_1. destruct (N.ltb_spec c 65536) as [Hl|Hl].
  - destruct rest as [|d rest]; [done|]. cbn [app points].
    assert (is_high c = false) as ->; [|done].
    unfold is_high. apply andb_false_iff. rewrite !N.leb_gt. lia.
  - cbn [app points].
    pose proof (N.div_mod' (c - 65536) 1024). pose proof (N.mod_lt (c - 65536) 1024 ltac:(lia)).
    set (q := (c - 65536) / 1024) in *. set (r := (c - 65536) mod 1024) in *.
    assert (is_high (55296 + q) && is_low (56320 + r) = true) as ->.
    { unfold is_high, is_low. rewrite !andb_true_iff, !N.leb_le. lia. }
    f_equal. lia.
Qed.
Lemma points_utf16 l : scalars l → points (utf16 l) = l.
Proof.
  induction 1 as [|c l Hc _ IH]; [done|]. unfold utf16. cbn [map concat].
  rewrite points_utf16_1 by done. by f_equal.
Qed.
Lemma to_scalar_id l : scalars l → map to_scalar l = l.
Proof.
  induction 1 as [|c l Hc _ IH]; [done|]. cbn. rewrite IH. unfold to_scalar. by rewrite Hc.
Qed.
Lemma encode_utf16 l : scalars l → encode_text (utf16 l) = utf8 l.
Proof. intros H. unfold encode_text. by rewrite points_utf16, to_scalar_id. Qed.

(** ** The decoder inverts the encoder *)

(** A continuation in range, in the middle and at the end of a sequence. *)
Lemma dstep_more n cp lo hi b : lo <= b <= hi →
  dstep (MkD (S (S n)) cp lo hi) b = ([], MkD (S n) (cp * 64 + (b - 128)) 128 191).
Proof.
  intros H. unfold dstep. cbn [owed lower upper bits].
  destruct (N.ltb_spec b lo); [lia|]. destruct (N.ltb_spec hi b); [lia|done].
Qed.
Lemma dstep_last cp lo hi b : lo <= b <= hi →
  dstep (MkD 1 cp lo hi) b = ([cp * 64 + (b - 128)], d0).
Proof.
  intros H. unfold dstep. cbn [owed lower upper bits].
  destruct (N.ltb_spec b lo); [lia|]. destruct (N.ltb_spec hi b); [lia|done].
Qed.

Lemma decode_more n cp lo hi b l : lo <= b <= hi →
  decode_from (MkD (S (S n)) cp lo hi) (b :: l) = decode_from (MkD (S n) (cp * 64 + (b - 128)) 128 191) l.
Proof. intros H. cbn [decode_from]. by rewrite dstep_more. Qed.
Lemma decode_last cp lo hi b l : lo <= b <= hi →
  decode_from (MkD 1 cp lo hi) (b :: l) = (cp * 64 + (b - 128)) :: decode_from d0 l.
Proof. intros H. cbn [decode_from]. by rewrite dstep_last. Qed.

Lemma decode_lead b l : decode_from d0 (b :: l) = (lead b).1 ++ decode_from (lead b).2 l.
Proof. cbn. by destruct (lead b). Qed.

(** The base-64 digits of a code point. *)
Ltac digits64 c :=
  let H1 := fresh "E" in let H2 := fresh "F" in
  pose proof (N.div_mod' c 64); pose proof (N.mod_lt c 64 ltac:(lia));
  pose proof (N.div_mod' (c / 64) 64) as H1; pose proof (N.mod_lt (c / 64) 64 ltac:(lia));
  pose proof (N.div_mod' (c / 4096) 64) as H2; pose proof (N.mod_lt (c / 4096) 64 ltac:(lia));
  rewrite N.Div0.div_div in H1, H2; change (64 * 64) with 4096 in H1; change (4096 * 64) with 262144 in H2;
  generalize dependent ((c / 4096) mod 64); generalize dependent ((c / 64) mod 64);
  generalize dependent (c mod 64); generalize dependent (c / 262144);
  generalize dependent (c / 4096); generalize dependent (c / 64); intros.

Ltac ltbs := repeat match goal with
  | |- context [?a <? ?b] => destruct (N.ltb_spec a b); try lia
  | |- context [?a =? ?b] => destruct (N.eqb_spec a b); try lia
  end.

Lemma decode_utf8_1 c l : is_scalar c = true → decode_from d0 (utf8_1 c ++ l) = c :: decode_from d0 l.
Proof.
  rewrite is_scalar_spec. intros Hc. unfold utf8_1. digits64 c.
  destruct (N.ltb_spec c 128) as [L1|L1]; [|destruct (N.ltb_spec c 2048) as [L2|L2];
    [|destruct (N.ltb_spec c 65536) as [L3|L3]]]; cbn [app]; rewrite decode_lead; unfold lead.
  - by destruct (N.ltb_spec c 128); [|lia].
  - ltbs. cbn [fst snd]; rewrite app_nil_l, decode_last by lia. f_equal. lia.
  - ltbs; cbn [fst snd]; rewrite app_nil_l, decode_more, decode_last by lia; f_equal; lia.
  - ltbs; cbn [fst snd]; rewrite app_nil_l, !decode_more, decode_last by lia; f_equal; lia.
Qed.

Lemma decode_utf8_app l l' : scalars l → utf8_decode (utf8 l ++ l') = l ++ utf8_decode l'.
Proof.
  induction 1 as [|c l Hc _ IH]; [done|]. unfold utf8, utf8_decode in *. cbn [map concat].
  rewrite <- app_assoc, decode_utf8_1 by done. by rewrite IH.
Qed.
Lemma decode_utf8 l : scalars l → utf8_decode (utf8 l) = l.
Proof. intros H. rewrite <- (app_nil_r (utf8 l)), decode_utf8_app by done. apply app_nil_r. Qed.

(** ** The decoder yields scalar values only *)

Fixpoint finishes (n : nat) (cp lo hi : N) : Prop :=
  match n with
  | O => is_scalar cp = true
  | S n => ∀ b, lo <= b <= hi → finishes n (cp * 64 + (b - 128)) 128 191
  end.
Definition dstate_ok (st : dstate) : Prop := owed st = 0%nat ∨ finishes (owed st) (bits st) (lower st) (upper st).

Lemma lead_ok b : scalars (lead b).1 ∧ dstate_ok (lead b).2.
Proof.
  unfold lead, dstate_ok.
  ltbs; (split; [repeat constructor; try (apply is_scalar_spec; lia); done|]);
    cbn [owed bits lower upper snd finishes]; try (by left); right;
    intros; rewrite is_scalar_spec; lia.
Qed.

Lemma dstep_ok st b : dstate_ok st → scalars (dstep st b).1 ∧ dstate_ok (dstep st b).2.
Proof.
  intros Hst. unfold dstep. destruct (owed st) as [|n] eqn:En; [apply lead_ok|].
  destruct (N.ltb_spec b (lower st)); cbn [orb].
  { pose proof (lead_ok b) as [H1 H2]. destruct (lead b). split; [by constructor|done]. }
  destruct (N.ltb_spec (upper st) b).
  { pose proof (lead_ok b) as [H1 H2]. destruct (lead b). split; [by constructor|done]. }
  destruct Hst as [Hst|Hst]; [congruence|]. rewrite En in Hst. cbn in Hst. specialize (Hst b ltac:(lia)).
  destruct n as [|n]; (split; [repeat constructor; exact Hst|]); [by left|by right].
Qed.

Lemma decode_scalars l : ∀ st, dstate_ok st → scalars (decode_from st l).
Proof.
  induction l as [|b l IH]; intros st Hst; cbn.
  - destruct (owed st =? 0)%nat; repeat constructor.
  - pose proof (dstep_ok st b Hst) as [H1 H2]. destruct (dstep st b) as [out st'].
    apply Forall_app. split; [done|]. by apply IH.
Qed.
Lemma utf8_decode_scalars l : scalars (utf8_decode l).
Proof. apply decode_scalars. by left. Qed.

(** Decoding and encoding again; the identity exactly on well-formed UTF-8. *)
Lemma reencode raw : encode_text (decode_text raw) = utf8 (utf8_decode raw).
Proof. apply encode_utf16, utf8_decode_scalars. Qed.

Definition well_formed (raw : list N) : Prop := ∃ l, scalars l ∧ raw = utf8 l.

Lemma reencode_spec raw : encode_text (decode_text raw) = raw ↔ well_formed raw.
Proof.
  rewrite reencode. split.
  - intros E. exists (utf8_decode raw). split; [apply utf8_decode_scalars|done].
  - intros (l & Hl & ->). by rewrite decode_utf8.
Qed.

(** ** Base64 keeps the bytes *)

Lemma un64_b64 i : i < 64 → un64 (b64 i) = i ∧ b64 i ≠ equals.
Proof.
  intros H. assert (Forall (λ i, un64 (b64 i) = i ∧ b64 i ≠ equals) (map N.of_nat (seq 0 64))) as Ha.
  { apply (bool_decide_unpack _). vm_compute. exact I. }
  rewrite Forall_forall in Ha. apply Ha. apply list_elem_of_fmap. exists (N.to_nat i).
  rewrite N2Nat.id. split; [done|]. apply elem_of_seq. lia.
Qed.

Lemma list_ind3 {A} (P : list A → Prop) :
  P [] → (∀ a, P [a]) → (∀ a b, P [a; b]) → (∀ a b c l, P l → P (a :: b :: c :: l)) → ∀ l, P l.
Proof.
  intros H0 H1 H2 H3. fix IH 1. intros [|a [|b [|c l]]]; [done|apply H1|apply H2|]. apply H3, IH.
Qed.

Lemma euclid a n : n ≠ 0 → ∃ q r, a = n * q + r ∧ r < n ∧ a / n = q ∧ a mod n = r.
Proof. intros Hn. exists (a / n), (a mod n). split_and!; [apply N.div_mod'|by apply N.mod_lt|done..]. Qed.
Lemma div_mod_low q r n : r < n → (q * n + r) / n = q ∧ (q * n + r) mod n = r.
Proof.
  intros Hr. split; [rewrite N.div_add_l, N.div_small by lia; lia|].
  by rewrite N.add_comm, N.Div0.mod_add, N.mod_small.
Qed.
Ltac low q r n := destruct (div_mod_low q r n ltac:(lia)) as [-> ->].

Lemma unbase64_base64 l : Forall is_byte l → unbase64 (base64 l) = l.
Proof.
  induction l as [|a|a b|a b c l IH] using list_ind3; intros Hl; [done|..];
    rewrite ?Forall_cons in Hl; unfold is_byte in Hl; cbn [base64 unbase64];
    destruct (euclid a 4) as (qa & ra & Ea & Ha & -> & ->); try done.
  - destruct (un64_b64 qa) as [-> _]; [lia|]. destruct (un64_b64 (ra * 16)) as [-> _]; [lia|].
    cbn. rewrite N.div_mul by lia. f_equal. lia.
  - destruct (euclid b 16) as (qb & rb & Eb & Hb & -> & ->); [done|].
    destruct (un64_b64 qa) as [-> _]; [lia|]. destruct (un64_b64 (ra * 16 + qb)) as [-> _]; [lia|].
    destruct (un64_b64 (rb * 4)) as [-> Hn%N.eqb_neq]; [lia|]. rewrite Hn. low ra qb 16.
    cbn. rewrite N.div_mul by lia. f_equal; [lia|]. f_equal. lia.
  - destruct (euclid b 16) as (qb & rb & Eb & Hb & -> & ->); [done|].
    destruct (euclid c 64) as (qc & rc & Ec & Hc & -> & ->); [done|].
    destruct (un64_b64 qa) as [-> _]; [lia|]. destruct (un64_b64 (ra * 16 + qb)) as [-> _]; [lia|].
    destruct (un64_b64 (rb * 4 + qc)) as [-> Hn1%N.eqb_neq]; [lia|].
    destruct (un64_b64 rc) as [-> Hn2%N.eqb_neq]; [lia|].
    rewrite Hn1, Hn2, IH by naive_solver. low ra qb 16. low rb qc 4.
    cbn. f_equal; [lia|]. f_equal; [lia|]. f_equal. lia.
Qed.

(** ** Base64url and lenient decoding *)

(** The six-bit groups of the bytes; the last one is padded with zero bits. *)
Fixpoint to_sextets (l : list N) : list N :=
  match l with
  | [] => []
  | [a] => [a / 4; a mod 4 * 16]
  | [a; b] => [a / 4; a mod 4 * 16 + b / 16; b mod 16 * 4]
  | a :: b :: c :: l => a / 4 :: a mod 4 * 16 + b / 16 :: b mod 16 * 4 + c / 64 :: c mod 64 :: to_sextets l
  end.
(** Whole bytes of the groups; a lone last group is dropped. *)
Fixpoint of_sextets (s : list N) : list N :=
  match s with
  | a :: b :: c :: d :: s =>
      a * 4 + b / 16 :: b mod 16 * 16 + c / 4 :: c mod 4 * 64 + d :: of_sextets s
  | [a; b; c] => [a * 4 + b / 16; b mod 16 * 16 + c / 4]
  | [a; b] => [a * 4 + b / 16]
  | _ => []
  end.

Definition b64url (i : N) : N := if i =? 62 then 45 else if i =? 63 then 95 else b64 i.
(** [buffer.toString('base64url')] *)
Definition base64url (l : list N) : jsstr := map b64url (to_sextets l).

(** Both alphabets are read, other characters are skipped, [=] ends the text. *)
Definition sextet (c : N) : option N :=
  if is_upper c then Some (c - 65) else if is_lower c then Some (c - 71) else if is_digit c then Some (c + 4)
  else if (c =? 43) || (c =? 45) then Some 62 else if (c =? 47) || (c =? 95) then Some 63 else None.
Fixpoint sextets (s : jsstr) : list N :=
  match s with
  | [] => []
  | c :: s =>
      if c =? equals then []
      else match sextet c with Some i => i :: sextets s | None => sextets s end
  end.
(** [Buffer.from(text, 'base64')] and [Buffer.from(text, 'base64url')] *)
Definition decode_base64 (s : jsstr) : list N := of_sextets (sextets s).

Lemma sextet_b64url i : i < 64 → sextet (b64url i) = Some i ∧ b64url i ≠ equals ∧ b64url i ≠ 46.
Proof.
  intros H. assert (Forall (λ i, sextet (b64url i) = Some i ∧ b64url i ≠ equals ∧ b64url i ≠ 46)
                           (map N.of_nat (seq 0 64))) as Ha.
  { apply (bool_decide_unpack _). vm_compute. exact I. }
  rewrite Forall_forall in Ha. apply Ha. apply list_elem_of_fmap. exists (N.to_nat i).
  rewrite N2Nat.id. split; [done|]. apply elem_of_seq. lia.
Qed.

Lemma to_sextets_small l : Forall is_byte l → Forall (λ i, i < 64) (to_sextets l).
Proof.
  induction l as [|a|a b|a b c l IH] using list_ind3; intros Hl; [constructor|..];
    rewrite ?Forall_cons in Hl; unfold is_byte in Hl; cbn [to_sextets];
    destruct (euclid a 4) as (qa & ra & Ea & Ha & -> & ->); try done.
  - repeat constructor; lia.
  - destruct (euclid b 16) as (qb & rb & Eb & Hb & -> & ->); [done|]. repeat constructor; lia.
  - destruct (euclid b 16) as (qb & rb & Eb & Hb & -> & ->); [done|].
    destruct (euclid c 64) as (qc & rc & Ec & Hc & -> & ->); [done|].
    repeat (constructor; [lia|]). apply IH. naive_solver.
Qed.

Lemma of_to_sextets l : Forall is_byte l → of_sextets (to_sextets l) = l.
Proof.
  induction l as [|a|a b|a b c l IH] using list_ind3; intros Hl; [done|..];
    rewrite ?Forall_cons in Hl; unfold is_byte in Hl; cbn [to_sextets of_sextets];
    destruct (euclid a 4) as (qa & ra & Ea & Ha & -> & ->); try done.
  - rewrite N.div_mul by lia. f_equal. lia.
  - destruct (euclid b 16) as (qb & rb & Eb & Hb & -> & ->); [done|]. low ra qb 16.
    rewrite N.div_mul by lia. f_equal; [lia|]. f_equal. lia.
  - destruct (euclid b 16) as (qb & rb & Eb & Hb & -> & ->); [done|].
    destruct (euclid c 64) as (qc & rc & Ec & Hc & -> & ->); [done|].
    rewrite IH by naive_solver. low ra qb 16. low rb qc 4.
    f_equal; [lia|]. f_equal; [lia|]. f_equal. lia.
Qed.

Lemma sextets_b64url l : Forall (λ i, i < 64) l → sextets (map b64url l) = l.
Proof.
  induction 1 as [|i l Hi _ IH]; [done|]. cbn [map sextets].
  destruct (sextet_b64url i Hi) as (-> & Hn%N.eqb_neq & _). rewrite Hn. by f_equal.
Qed.

Lemma decode_base64url l : Forall is_byte l → decode_base64 (base64url l) = l.
Proof.
  intros H. unfold decode_base64, base64url. rewrite sextets_b64url by (by apply to_sextets_small).
  by apply of_to_sextets.
Qed.
Lemma base64url_no_dot l : Forall is_byte l → 46 ∉ base64url l.
Proof.
  intros H (i & E & Hi)%list_elem_of_fmap. pose proof (to_sextets_small l H) as Hs.
  rewrite Forall_forall in Hs. destruct (sextet_b64url i (Hs i Hi)) as (_ & _ & Hn). congruence.
Qed.
Lemma base64url_nil l : base64url l = [] → l = [].
Proof. by destruct l as [|a [|b [|c l]]]. Qed.

Lemma utf8_bytes l : scalars l → Forall is_byte (utf8 l).
Proof.
  induction 1 as [|c l Hc _ IH]; [constructor|]. unfold utf8 in *. cbn [map concat].
  apply Forall_app. split; [|done]. apply is_scalar_spec in Hc. unfold utf8_1. digits64 c.
  unfold is_byte. ltbs; repeat constructor; lia.
Qed.
