(* ===== verification/EventPayload.v ===== *)
(** Event payloads: events/event-payload.ts.

    Payloads are lists of bytes, texts are JavaScript strings; the encoders and
    decoders of the language are those of Utf8. *)
From Stdlib Require Import ZArith Lia.
From S2P Require Import Prelude Js Utf8.

Inductive PayloadEncoding : Type := utf_8 | base_64.
Inductive PayloadSource : Type := inline | object_storage | unavailable.

Definition PAYLOAD_NOTICE (s : PayloadSource) : string :=
  match s with
  | inline => "`body` is the exact bytes received on the wire - what was hashed into `sha256` and what the data plane signs and delivers. `normalised_json` is a PostgreSQL jsonb copy kept for filtering and search only: jsonb does not preserve key order, insignificant whitespace or duplicate keys, so it is NOT what was delivered and an HMAC computed over it will not match the signature a consumer received."
  | object_storage => "This payload exceeded the inline threshold and was written to object storage, so `payload_raw` is NULL by design and `body` is null here. The control plane has no object-storage client - fetch `location` directly rather than trusting anything else on this response to stand in for it. `normalised_json`, if present, is a jsonb copy and is NOT what was delivered."
  | unavailable => "Neither the raw bytes nor an object-storage location is recorded for this event, so the delivered payload is not recoverable through this API - retention has removed it, or the row predates `payload_raw`. `normalised_json`, if present, is a jsonb copy and is NOT what was delivered."
  end.

Record RenderedPayload : Type := MkRendered {
  rp_source : PayloadSource;
  rp_body : option jsstr;
  rp_encoding : option PayloadEncoding;
  rp_location : option jsstr;
  rp_notice : string
}.

Definition decodePayload (raw : list N) : jsstr * PayloadEncoding :=
  let text := decode_text raw in
  if bool_decide (encode_text text = raw) then (text, utf_8) else (base64 raw, base_64).

Definition renderPayload (payloadRaw : option (list N)) (payloadLocation : option jsstr) : RenderedPayload :=
  match payloadRaw with
  | Some raw =>
      let '(body, encoding) := decodePayload raw in
      MkRendered inline (Some body) (Some encoding) payloadLocation (PAYLOAD_NOTICE inline)
  | None =>
      match payloadLocation with
      | Some ((_ :: _) as loc) =>
          MkRendered object_storage None None (Some loc) (PAYLOAD_NOTICE object_storage)
      | _ => MkRendered unavailable None None None (PAYLOAD_NOTICE unavailable)
      end
  end.

(** ** The list preview *)

Definition PAYLOAD_PREVIEW_MAX_CHARS : nat := 160.
Definition PAYLOAD_PREVIEW_READ_BYTES : nat := PAYLOAD_PREVIEW_MAX_CHARS * 4.

Record PayloadPreview : Type := MkPreview { pv_preview : option jsstr; pv_size : option Z; pv_truncated : bool }.
Record PayloadHead : Type := MkHead {
  ph_head : option (list N);
  ph_inlineBytes : option nat;
  ph_payloadSize : option Z;
  ph_payloadLocation : option jsstr
}.
Definition NO_PREVIEW (size : option Z) : PayloadPreview := MkPreview None size false.

Definition is_continuation (byte : N) : bool := (N.land byte 192 =? 128)%N.
Definition needed (byte : N) : nat :=
  if (byte <? 128)%N then 1
  else if (N.land byte 224 =? 192)%N then 2
  else if (N.land byte 240 =? 224)%N then 3
  else if (N.land byte 248 =? 240)%N then 4
  else 0.

(** The loop from the end of the buffer; the bytes not yet visited are reversed. *)
Fixpoint drop_loop (buffer unvisited : list N) (continuations : nat) : list N :=
  match unvisited with
  | [] => buffer
  | byte :: before =>
      if continuations <? 4 then
        if is_continuation byte then drop_loop buffer before (S continuations)
        else if (needed byte =? 0) || (needed byte <=? continuations) then buffer
        else if needed byte =? continuations + 1 then buffer
        else reverse before
      else buffer
  end.
Definition dropPartialTrailingSequence (buffer : list N) : list N := drop_loop buffer (reverse buffer) 0.

Definition previewPayload (row : PayloadHead) : PayloadPreview :=
  let size := ph_payloadSize row in
  match ph_head row, ph_inlineBytes row with
  | Some head, Some inlineBytes =>
      let cutMidBody := length head <? inlineBytes in
      let candidate := if cutMidBody then dropPartialTrailingSequence head else head in
      let text := decode_text candidate in
      if negb (bool_decide (encode_text text = candidate)) then NO_PREVIEW size
      else
        let pts := points text in
        let overLength := PAYLOAD_PREVIEW_MAX_CHARS <? length pts in
        MkPreview (Some (if overLength then utf16 (take PAYLOAD_PREVIEW_MAX_CHARS pts) else text))
          size (cutMidBody || overLength)
  | _, _ => NO_PREVIEW size
  end.

(** ** The detail view loses nothing *)

(** Reading the body back by its label. *)
Definition body_bytes (r : jsstr * PayloadEncoding) : list N :=
  match r.2 with utf_8 => encode_text r.1 | base_64 => unbase64 r.1 end.

(** The rendered payload is exactly the bytes received: reading the body back by
    the encoding it is labelled with gives them, whatever they are, and the text
    label is used exactly for well-formed UTF-8, so no replacement character is
    ever invented. *)
Theorem decodePayload_roundtrip (raw : list N) (Hraw : Forall is_byte raw) :
  body_bytes (decodePayload raw) = raw
  ∧ ((decodePayload raw).2 = utf_8 ↔ well_formed raw)
  ∧ (∀ l, scalars l → raw = utf8 l → (decodePayload raw).1 = utf16 l).
Proof.
  unfold decodePayload. split_and!.
  - case_bool_decide; [done|]. by apply unbase64_base64.
  - rewrite <- reencode_spec. by case_bool_decide.
  - intros l Hl ->. rewrite bool_decide_eq_true_2 by (apply reencode_spec; by exists l).
    cbn. unfold decode_text. by rewrite decode_utf8.
Qed.
Lemma decodePayload_roundtrip_witness :
  body_bytes (decodePayload [226; 130; 172; 33]%N) = [226; 130; 172; 33]%N
  ∧ decodePayload [226; 130; 172; 33]%N = ([8364; 33]%N, utf_8)
  ∧ body_bytes (decodePayload [226; 130; 33]%N) = [226; 130; 33]%N
  ∧ decodePayload [226; 130; 33]%N = (js "4oIh", base_64).
Proof.
  split_and!; [|vm_compute; reflexivity| |vm_compute; reflexivity];
    apply decodePayload_roundtrip; repeat (constructor; [reflexivity|]); constructor.
Defined.

(** ** Classes of bytes *)

Lemma byte_cases (P : N → bool) : forallb P (map N.of_nat (seq 0 256)) = true → ∀ b, is_byte b → P b = true.
Proof.
  rewrite forallb_forall. intros H b Hb. apply H. apply in_map_iff. exists (N.to_nat b).
  rewrite N2Nat.id. split; [done|]. apply in_seq. unfold is_byte in Hb. lia.
Qed.

Lemma is_continuation_spec b : is_byte b → is_continuation b = ((128 <=? b) && (b <? 192))%N.
Proof. intros Hb. apply eqb_prop. revert b Hb. apply byte_cases. vm_compute. reflexivity. Qed.
Lemma needed_spec b : is_byte b →
  needed b = if (b <? 128)%N then 1 else if (b <? 192)%N then 0 else if (b <? 224)%N then 2
             else if (b <? 240)%N then 3 else if (b <? 248)%N then 4 else 0.
Proof. intros Hb. apply Nat.eqb_eq. revert b Hb. apply byte_cases. vm_compute. reflexivity. Qed.

Lemma continuation_in b : (128 <= b < 192)%N → is_continuation b = true.
Proof. intros H. rewrite is_continuation_spec by (unfold is_byte; lia). rewrite andb_true_iff, N.leb_le, N.ltb_lt. lia. Qed.
Lemma continuation_out b : (b < 128 ∨ 192 <= b < 256)%N → is_continuation b = false.
Proof.
  intros H. rewrite is_continuation_spec by (unfold is_byte; lia). rewrite andb_false_iff, N.leb_gt, N.ltb_ge. lia.
Qed.

(** A code point's bytes: a lead that says how many there are, and continuations. *)
Record sequence (b : N) (conts : list N) : Prop := {
  seq_lead : is_continuation b = false;
  seq_conts : Forall (λ c, is_continuation c = true) conts;
  seq_needed : needed b = S (length conts);
  seq_short : length conts ≤ 3
}.

Lemma utf8_1_sequence c : is_scalar c = true → ∃ b conts, utf8_1 c = b :: conts ∧ sequence b conts.
Proof.
  rewrite is_scalar_spec. intros Hc. unfold utf8_1. digits64 c.
  ltbs; eexists _, _; (split; [reflexivity|]);
    (split; [apply continuation_out; lia
            |repeat (constructor; [apply continuation_in; lia|]); constructor
            |rewrite needed_spec by (unfold is_byte; lia); ltbs; done
            |cbn; lia]).
Qed.

(** The loop over one sequence, of which the last bytes may be missing. *)
Lemma drop_loop_sequence buffer b conts before k :
  is_continuation b = false → Forall (λ c, is_continuation c = true) conts → k + length conts ≤ 3 →
  drop_loop buffer (reverse conts ++ b :: before) k =
  if (needed b =? 0) || (needed b <=? k + length conts) then buffer
  else if needed b =? k + length conts + 1 then buffer else reverse before.
Proof.
  intros Hb. revert k. induction conts as [|c conts IH] using rev_ind; intros k Hc Hk.
  - rewrite reverse_nil, Nat.add_0_r. cbn [app drop_loop]. rewrite Hb. cbn in Hk.
    destruct (Nat.ltb_spec k 4); [done|lia].
  - apply Forall_app in Hc as [Hc Hc1]. rewrite Forall_singleton in Hc1. rewrite length_app in *. cbn [length] in *.
    rewrite reverse_snoc. cbn [app drop_loop]. rewrite Hc1. destruct (Nat.ltb_spec k 4); [|lia].
    rewrite IH by (done || lia). by replace (S k + length conts) with (k + (length conts + 1)) by lia.
Qed.

Lemma drop_complete p b conts : sequence b conts →
  dropPartialTrailingSequence (p ++ b :: conts) = p ++ b :: conts.
Proof.
  intros [H1 H2 H3 H4]. unfold dropPartialTrailingSequence.
  rewrite reverse_app, reverse_cons, <- app_assoc. cbn [app]. rewrite drop_loop_sequence, H3 by (done || lia).
  destruct (_ || _); [done|]. by destruct (_ =? _) eqn:E; [|apply Nat.eqb_neq in E; lia].
Qed.
Lemma drop_partial p b conts j : sequence b conts → 0 < j ≤ length conts →
  dropPartialTrailingSequence (p ++ take j (b :: conts)) = p.
Proof.
  intros [H1 H2 H3 H4] Hj. destruct j as [|j]; [lia|]. cbn [take]. unfold dropPartialTrailingSequence.
  rewrite reverse_app, reverse_cons, <- app_assoc. cbn [app].
  rewrite drop_loop_sequence, H3; [|done|by apply Forall_take|rewrite length_take; lia].
  rewrite length_take. destruct (Nat.eqb_spec (S (length conts)) 0); [lia|]. cbn [orb].
  destruct (Nat.leb_spec (S (length conts)) (0 + j `min` length conts)); [lia|].
  destruct (Nat.eqb_spec (S (length conts)) (0 + j `min` length conts + 1)); [lia|].
  apply reverse_involutive.
Qed.

(** ** A slice of well-formed text *)

Lemma utf8_app l1 l2 : utf8 (l1 ++ l2) = utf8 l1 ++ utf8 l2.
Proof. unfold utf8. by rewrite map_app, concat_app. Qed.
Lemma utf8_1_length c : is_scalar c = true → 1 ≤ length (utf8_1 c) ≤ 4.
Proof. intros (b & conts & -> & [_ _ _ H])%utf8_1_sequence. cbn. lia. Qed.
Lemma utf8_length l : scalars l → length l ≤ length (utf8 l) ≤ 4 * length l.
Proof.
  induction 1 as [|c l Hc _ IH]; [cbn; lia|]. unfold utf8 in *. cbn [map concat length].
  rewrite length_app. pose proof (utf8_1_length c Hc). lia.
Qed.

(** What a slice of [n] bytes keeps: whole code points, and perhaps part of one more. *)
Lemma take_utf8 n l : scalars l → ∃ l1 l2 j,
  l = l1 ++ l2 ∧ take n (utf8 l) = utf8 l1 ++ take j (utf8 l2)
  ∧ (j = 0 ∨ ∃ c l3, l2 = c :: l3 ∧ 0 < j < length (utf8_1 c) ∧ take j (utf8 l2) = take j (utf8_1 c)).
Proof.
  intros H. revert n. induction H as [|c l Hc _ IH]; intros n.
  { exists [], [], 0. split_and!; [done|by destruct n|by left]. }
  unfold utf8. cbn [map concat]. fold (utf8 l). destruct (decide (n < length (utf8_1 c))) as [Hn|Hn].
  - exists [], (c :: l), n. rewrite take_app_le by lia. split_and!; [done| |].
    + cbn. by rewrite take_app_le by lia.
    + destruct n as [|n]; [by left|right]. exists c, l. split_and!; [done|lia|lia|].
      unfold utf8. cbn [map concat]. by rewrite take_app_le by lia.
  - destruct (IH (n - length (utf8_1 c))) as (l1 & l2 & j & -> & E & Hj).
    exists (c :: l1), l2, j. split_and!; [done| |done].
    rewrite take_app, (take_ge (utf8_1 c)), E by lia. unfold utf8. cbn [map concat].
    by rewrite <- app_assoc.
Qed.

Lemma drop_utf8 l : scalars l → dropPartialTrailingSequence (utf8 l) = utf8 l.
Proof.
  intros H. destruct l as [|c l _] using rev_ind; [done|].
  apply Forall_app in H as [_ Hc]. rewrite Forall_singleton in Hc. rewrite utf8_app.
  destruct (utf8_1_sequence c Hc) as (b & conts & E & Hs). unfold utf8 at 2 4. cbn [map concat].
  rewrite E, app_nil_r. by apply drop_complete.
Qed.

Lemma drop_take_utf8 n l : scalars l → ∃ l1 l2,
  l = l1 ++ l2 ∧ dropPartialTrailingSequence (take n (utf8 l)) = utf8 l1
  ∧ length (take n (utf8 l)) ≤ length (utf8 l1) + 3.
Proof.
  intros H. destruct (take_utf8 n l H) as (l1 & l2 & j & -> & E & Hj). exists l1, l2.
  rewrite E. apply Forall_app in H as [H1 H2]. destruct Hj as [->|(c & l3 & -> & Hj & Ej)].
  - rewrite take_0, app_nil_r. split_and!; [done|by apply drop_utf8|lia].
  - apply Forall_cons in H2 as [Hc _]. rewrite Ej. pose proof (utf8_1_length c Hc).
    destruct (utf8_1_sequence c Hc) as (b & conts & Ec & Hs). rewrite Ec in *. cbn [length] in *.
    split_and!; [done|apply drop_partial; [done|lia]|]. rewrite length_app, length_take. cbn. lia.
Qed.

Lemma decode_text_utf8 l : scalars l → decode_text (utf8 l) = utf16 l.
Proof. intros H. unfold decode_text. by rewrite decode_utf8. Qed.

(** The last part of [previewPayload], on well-formed text. *)
Lemma preview_text l : scalars l →
  bool_decide (encode_text (decode_text (utf8 l)) = utf8 l) = true ∧ points (decode_text (utf8 l)) = l.
Proof.
  intros H. split; [apply bool_decide_eq_true_2, reencode_spec; by exists l|].
  by rewrite decode_text_utf8, points_utf16.
Qed.

Lemma drop_loop_prefix buffer unvisited : ∀ suffix k,
  buffer = reverse unvisited ++ suffix → drop_loop buffer unvisited k `prefix_of` buffer.
Proof.
  induction unvisited as [|b before IH]; intros suffix k E; cbn [drop_loop]; [done|].
  rewrite reverse_cons, <- app_assoc in E. destruct (k <? 4); [|done]. destruct (is_continuation b).
  - by apply (IH ([b] ++ suffix)).
  - destruct (_ || _); [done|]. destruct (_ =? _); [done|]. rewrite E. by apply prefix_app_r.
Qed.
Lemma drop_prefix buffer : dropPartialTrailingSequence buffer `prefix_of` buffer.
Proof. apply (drop_loop_prefix _ _ []). by rewrite reverse_involutive, app_nil_r. Qed.

Lemma utf8_take n l : ∃ rest, utf8 l = utf8 (take n l) ++ rest.
Proof. exists (utf8 (drop n l)). by rewrite <- utf8_app, take_drop. Qed.

(** The row as the query reads it. *)
Definition head_of (raw : list N) (size : option Z) (loc : option jsstr) : PayloadHead :=
  MkHead (Some (take PAYLOAD_PREVIEW_READ_BYTES raw)) (Some (length raw)) size loc.

Lemma preview_well_formed l size loc : scalars l →
  previewPayload (head_of (utf8 l) size loc)
  = MkPreview (Some (utf16 (take PAYLOAD_PREVIEW_MAX_CHARS l))) size (PAYLOAD_PREVIEW_MAX_CHARS <? length l).
Proof.
  intros Hl. unfold previewPayload. cbn [ph_head ph_inlineBytes ph_payloadSize head_of].
  destruct (Nat.ltb_spec (length (take PAYLOAD_PREVIEW_READ_BYTES (utf8 l))) (length (utf8 l))) as [Hcut|Hall].
  - destruct (drop_take_utf8 PAYLOAD_PREVIEW_READ_BYTES l Hl) as (l1 & l2 & -> & -> & Hlen).
    apply Forall_app in Hl as [H1 H2]. destruct (preview_text l1 H1) as [-> ->]. cbn [negb orb].
    pose proof (utf8_length l1 H1). rewrite length_take in Hcut, Hlen. unfold PAYLOAD_PREVIEW_READ_BYTES, PAYLOAD_PREVIEW_MAX_CHARS in *.
    assert (160 ≤ length l1) by lia.
    assert (160 < length (l1 ++ l2)) as E%Nat.ltb_lt.
    { pose proof (utf8_length (l1 ++ l2) ltac:(by apply Forall_app)). lia. }
    rewrite E, take_app_le by lia.
    destruct (Nat.ltb_spec 160 (length l1)); [done|]. by rewrite decode_text_utf8, take_ge by (done || lia).
  - rewrite take_ge by (rewrite length_take in Hall; lia). destruct (preview_text l Hl) as [-> ->]. cbn [negb orb].
    destruct (Nat.ltb_spec PAYLOAD_PREVIEW_MAX_CHARS (length l)); [done|].
    by rewrite decode_text_utf8, take_ge by (done || lia).
Qed.

Lemma preview_is_prefix raw size loc p :
  pv_preview (previewPayload (head_of raw size loc)) = Some p →
  ∃ l rest, scalars l ∧ length l ≤ PAYLOAD_PREVIEW_MAX_CHARS ∧ p = utf16 l ∧ raw = utf8 l ++ rest.
Proof.
  unfold previewPayload. cbn [ph_head ph_inlineBytes ph_payloadSize head_of].
  set (head := take PAYLOAD_PREVIEW_READ_BYTES raw). set (cut := length head <? length raw).
  set (candidate := if cut then _ else head).
  assert (candidate `prefix_of` raw) as [rest Hr].
  { etrans; [|apply prefix_take]. subst candidate. destruct cut; [apply drop_prefix|done]. }
  clearbody candidate. case_bool_decide as Hw; [|done]. cbn [negb pv_preview]. intros [= <-].
  apply reencode_spec in Hw as (l & Hl & ->). rewrite (proj2 (preview_text l Hl)), decode_text_utf8 by done.
  destruct (Nat.ltb_spec PAYLOAD_PREVIEW_MAX_CHARS (length l)).
  - destruct (utf8_take PAYLOAD_PREVIEW_MAX_CHARS l) as [rest' E].
    exists (take PAYLOAD_PREVIEW_MAX_CHARS l), (rest' ++ rest). split_and!.
    + by apply Forall_take.
    + rewrite length_take. lia.
    + done.
    + by rewrite Hr, E, <- app_assoc.
  - by exists l, rest.
Qed.

(** The preview in a list is the beginning of the body.  For a well-formed body it
    is exactly its first 160 characters, although only 640 bytes are read, and the
    row says it is truncated exactly when there are more; for any bytes, what is
    shown is the text of a prefix of the body, of at most 160 characters, cut
    between characters. *)
Theorem preview_spec (raw : list N) (size : option Z) (loc : option jsstr) :
  let out := previewPayload (head_of raw size loc) in
  (∀ l, scalars l → raw = utf8 l →
     out = MkPreview (Some (utf16 (take PAYLOAD_PREVIEW_MAX_CHARS l))) size (PAYLOAD_PREVIEW_MAX_CHARS <? length l))
  ∧ (∀ p, pv_preview out = Some p →
     ∃ l rest, scalars l ∧ length l ≤ PAYLOAD_PREVIEW_MAX_CHARS ∧ p = utf16 l ∧ raw = utf8 l ++ rest).
Proof.
  split; [intros l Hl ->; by apply preview_well_formed|]. intros p. apply preview_is_prefix.
Qed.

(** A body of 250 three-byte characters: the slice of 640 bytes ends inside one. *)
Lemma preview_spec_witness :
  previewPayload (head_of (utf8 (replicate 250 8364%N)) (Some 750%Z) None)
  = MkPreview (Some (replicate 160 8364%N)) (Some 750%Z) true.
Proof.
  rewrite (proj1 (preview_spec _ (Some 750%Z) None) (replicate 250 8364%N)).
  - vm_compute. reflexivity.
  - repeat (constructor; [reflexivity|]). constructor.
  - reflexivity.
Defined.
