(* ===== verification/Crypto.v ===== *)
(** Envelope encryption: common/crypto.service.ts.

    AES-256-GCM is Node's: [seal key iv aad plaintext] returns ciphertext and
    tag, [unseal key iv aad tag ciphertext] the plaintext or nothing.  The
    initialisation vector is an argument.  A plain [Error] is an internal error.  *)
From Stdlib Require Import ZArith Lia.
From S2P Require Import Prelude Js Utf8.

Definition IV_BYTES : nat := 12.
Definition TAG_BYTES : nat := 16.
Definition KEY_BYTES : nat := 32.
Definition VERSION : jsstr := js "v1".
Definition dot_sep : N := 46.
Definition colon_sep : N := 58.
Definition comma_sep : N := 44.

(** [/^[A-Za-z0-9_-]{1,16}$/] *)
Definition kid_char (c : N) : bool :=
  is_upper c || is_lower c || is_digit c || (c =? 95)%N || (c =? 45)%N.
Definition KID_PATTERN (kid : jsstr) : bool :=
  (1 <=? length kid) && (length kid <=? 16) && forallb kid_char kid.

Record EncryptionContext : Type := MkContext { ec_table : jsstr; ec_id : jsstr; ec_owner : jsstr }.

(** [byKid] keeps insertion order, as a Map does. *)
Record Keyring : Type := MkKeyring {
  kr_primary_kid : jsstr;
  kr_primary_key : list N;
  kr_byKid : list (jsstr * list N)
}.

Fixpoint key_of (kid : jsstr) (m : list (jsstr * list N)) : option (list N) :=
  match m with
  | [] => None
  | (k, key) :: m => if seqb k kid then Some key else key_of kid m
  end.

Definition decodeKey (value : jsstr) : result (list N) :=
  let key := decode_base64 value in
  _ ← throw_if (negb (length key =? KEY_BYTES)) internal_error "must be 32 bytes, base64-encoded";
  Ok key.

(** [entry.indexOf(':')] and the two slices around it. *)
Fixpoint cut_at (c : N) (s : jsstr) : option (jsstr * jsstr) :=
  match s with
  | [] => None
  | x :: s => if (x =? c)%N then Some ([], s)
              else match cut_at c s with Some (a, b) => Some (x :: a, b) | None => None end
  end.

Definition non_empty (s : jsstr) : bool := if s is [] then false else true.
Definition retired_entries (retired : jsstr) : list jsstr :=
  filter (λ s, non_empty s = true) (map trim (split comma_sep retired)).

Fixpoint add_retired (entries : list jsstr) (byKid : list (jsstr * list N)) : result (list (jsstr * list N)) :=
  match entries with
  | [] => Ok byKid
  | entry :: entries =>
      match cut_at colon_sep entry with
      | None | Some ([], _) =>
          throw internal_error "ENCRYPTION_KEYS_RETIRED entries must be <kid>:<base64key>"
      | Some (kid, value) =>
          _ ← throw_if (negb (KID_PATTERN kid)) internal_error "ENCRYPTION_KEYS_RETIRED key id must match";
          _ ← throw_if (if key_of kid byKid is Some _ then true else false) internal_error
                "Duplicate encryption key id";
          key ← decodeKey value;
          add_retired entries (byKid ++ [(kid, key)])
      end
  end.

Definition buildKeyring (primaryKey primaryKid retired : jsstr) : result Keyring :=
  _ ← throw_if (negb (KID_PATTERN primaryKid)) internal_error "ENCRYPTION_KEY_ID must match";
  key ← decodeKey primaryKey;
  byKid ← add_retired (retired_entries retired) [(primaryKid, key)];
  Ok (MkKeyring primaryKid key byKid).

Definition acceptedKeyIds (k : Keyring) : list jsstr := (kr_byKid k).*1.
Definition primaryKeyId (k : Keyring) : jsstr := kr_primary_kid k.

Definition aad (ctx : EncryptionContext) : result (list N) :=
  _ ← throw_if (negb (non_empty (ec_table ctx)) || negb (non_empty (ec_id ctx)) || negb (non_empty (ec_owner ctx)))
        internal_error "Encryption context requires a table, a row id and an owner id";
  Ok (encode_text (ec_table ctx ++ colon_sep :: ec_id ctx ++ colon_sep :: ec_owner ctx)).

Section Crypto.
  Context (seal : list N → list N → list N → list N → list N * list N)
    (unseal : list N → list N → list N → list N → list N → option (list N)).

Definition encrypt (ring : Keyring) (plaintext : jsstr) (ctx : EncryptionContext) (iv : list N) : result jsstr :=
  aad ← aad ctx;
  let '(ciphertext, tag) := seal (kr_primary_key ring) iv aad (encode_text plaintext) in
  Ok (join dot_sep [VERSION; kr_primary_kid ring; base64url iv; base64url tag; base64url ciphertext]).

Definition open (key : list N) (ivB64 tagB64 dataB64 : jsstr) (aad : list N) : result jsstr :=
  let tag := decode_base64 tagB64 in
  _ ← throw_if (negb (length tag =? TAG_BYTES)) internal_error "Malformed auth tag";
  let iv := decode_base64 ivB64 in
  _ ← throw_if (negb (length iv =? IV_BYTES)) internal_error "Malformed iv";
  match unseal key iv aad tag (decode_base64 dataB64) with
  | Some bytes => Ok (decode_text bytes)
  | None => throw internal_error "Unsupported state or unable to authenticate data"
  end.

Definition decrypt (ring : Keyring) (encoded : jsstr) (ctx : EncryptionContext) : result jsstr :=
  match split dot_sep encoded with
  | [version; kid; ivB64; tagB64; dataB64] =>
      _ ← throw_if (negb (seqb version VERSION) || negb (non_empty kid) || negb (non_empty ivB64)
                    || negb (non_empty tagB64) || negb (non_empty dataB64)) internal_error "Malformed ciphertext";
      match key_of kid (kr_byKid ring) with
      | None => throw internal_error "No encryption key configured for key id"
      | Some key => aad ← aad ctx; open key ivB64 tagB64 dataB64 aad
      end
  | _ => throw internal_error "Malformed ciphertext"
  end.
End Crypto.

(** ** The keyring *)

Lemma key_of_app kid m m' :
  key_of kid (m ++ m') = if key_of kid m is Some k then Some k else key_of kid m'.
Proof. induction m as [|[k key] m IH]; cbn; [done|]. by destruct (seqb k kid). Qed.

Lemma cut_at_spec c a b : c ∉ a → cut_at c (a ++ c :: b) = Some (a, b).
Proof.
  induction a as [|x a IH]; intros Hc; cbn.
  - by rewrite N.eqb_refl.
  - apply not_elem_of_cons in Hc as [Hx Ha]. destruct (N.eqb_spec x c); [congruence|]. by rewrite IH.
Qed.

(** What the configuration puts on the ring: an earlier key is never shadowed, and
    every retired entry is there. *)
Lemma add_retired_Ok entries : ∀ byKid m, add_retired entries byKid = Ok m →
  (∀ kid key, key_of kid byKid = Some key → key_of kid m = Some key)
  ∧ (∀ kid value, colon_sep ∉ kid → kid ++ colon_sep :: value ∈ entries →
       ∃ key, decodeKey value = Ok key ∧ key_of kid m = Some key).
Proof.
  induction entries as [|entry entries IH]; intros byKid m; cbn [add_retired].
  { intros [= <-]. split; [done|]. intros ? ? _ []%not_elem_of_nil. }
  destruct (cut_at colon_sep entry) as [[[|x kid] value]|] eqn:Ec; [done| |done]. intros E.
  apply bind_Ok in E as (u1 & _ & E). apply bind_Ok in E as (u2 & Hnew%throw_if_Ok & E).
  apply bind_Ok in E as (key & Hkey & E). apply IH in E as [Hold Hin].
  assert (key_of (x :: kid) byKid = None) as Hnone by (by destruct (key_of (x :: kid) byKid)).
  split.
  - intros k key' Hk. apply Hold. by rewrite key_of_app, Hk.
  - intros k v Hk [<-|Hv]%elem_of_cons; [|by apply Hin]. rewrite cut_at_spec in Ec by done.
    injection Ec as -> ->. exists key. split; [done|]. apply Hold. rewrite key_of_app, Hnone. cbn.
    unfold seqb. by rewrite bool_decide_eq_true_2.
Qed.

Lemma buildKeyring_Ok pk kid retired ring : buildKeyring pk kid retired = Ok ring →
  KID_PATTERN kid = true ∧ kr_primary_kid ring = kid ∧ decodeKey pk = Ok (kr_primary_key ring)
  ∧ key_of kid (kr_byKid ring) = Some (kr_primary_key ring)
  ∧ (∀ k v, colon_sep ∉ k → k ++ colon_sep :: v ∈ retired_entries retired →
       ∃ key, decodeKey v = Ok key ∧ key_of k (kr_byKid ring) = Some key).
Proof.
  unfold buildKeyring. intros E. apply bind_Ok in E as (u & Hk%throw_if_Ok & E).
  apply bind_Ok in E as (key & Hkey & E). apply bind_Ok in E as (m & Hm & [= <-]). cbn.
  apply add_retired_Ok in Hm as [Hold Hin]. apply negb_false_iff in Hk. split_and!; [done..| |done].
  apply Hold. cbn. unfold seqb. by rewrite bool_decide_eq_true_2.
Qed.

Lemma kid_no_sep kid c : KID_PATTERN kid = true → kid_char c = false → c ∉ kid.
Proof.
  unfold KID_PATTERN. rewrite andb_true_iff, forallb_forall. intros [_ H] Hc Hin.
  apply list_elem_of_In, H in Hin. congruence.
Qed.
Lemma kid_non_empty kid : KID_PATTERN kid = true → non_empty kid = true.
Proof. by destruct kid. Qed.

(** ** Authenticated encryption *)

(** What AES-GCM promises: opening inverts sealing; what opens is what sealing
    produces; the sizes and the range of bytes. *)
Class Aead (seal : list N → list N → list N → list N → list N * list N)
    (unseal : list N → list N → list N → list N → list N → option (list N)) : Prop := {
  unseal_seal key iv a p : unseal key iv a (seal key iv a p).2 (seal key iv a p).1 = Some p;
  unseal_sound key iv a tag ct p : unseal key iv a tag ct = Some p → seal key iv a p = (ct, tag);
  seal_length key iv a p : length (seal key iv a p).1 = length p ∧ length (seal key iv a p).2 = TAG_BYTES;
  seal_bytes key iv a p : Forall is_byte p → Forall is_byte a →
    Forall is_byte (seal key iv a p).1 ∧ Forall is_byte (seal key iv a p).2
}.

(** Text without lone surrogates. *)
Definition is_text (s : jsstr) : Prop := ∃ l, scalars l ∧ s = utf16 l.
Lemma text_roundtrip s : is_text s → decode_text (encode_text s) = s.
Proof. intros (l & Hl & ->). rewrite encode_utf16 by done. unfold decode_text. by rewrite decode_utf8. Qed.

Lemma to_scalar_scalar c : is_scalar (to_scalar c) = true.
Proof. unfold to_scalar. by destruct (is_scalar c) eqn:E. Qed.
Lemma encode_text_bytes s : Forall is_byte (encode_text s).
Proof.
  apply utf8_bytes. apply Forall_forall. intros c (x & -> & _)%list_elem_of_fmap. apply to_scalar_scalar.
Qed.
Lemma encode_text_nil s : encode_text s = [] → s = [].
Proof.
  destruct s as [|c s]; [done|]. unfold encode_text, utf8. intros E. exfalso.
  assert (∃ x l, points (c :: s) = x :: l) as (x & l & Ep).
  { cbn. destruct s as [|d s]; [eauto|]. destruct (is_high c && is_low d); eauto. }
  rewrite Ep in E. cbn [map concat] in E. apply app_eq_nil in E as [E _].
  unfold utf8_1 in E. repeat case_match; done.
Qed.

Section envelope.
  Context seal unseal `{!Aead seal unseal}.

Definition iv_ok (iv : list N) : Prop := Forall is_byte iv ∧ length iv = IV_BYTES.

(** Reading an envelope back into its parts. *)
Lemma decrypt_envelope ring ctx kid iv tag ct :
  KID_PATTERN kid = true → iv_ok iv → Forall is_byte tag → length tag = TAG_BYTES → Forall is_byte ct → ct ≠ [] →
  decrypt unseal ring (join dot_sep [VERSION; kid; base64url iv; base64url tag; base64url ct]) ctx =
  match key_of kid (kr_byKid ring) with
  | None => throw internal_error "No encryption key configured for key id"
  | Some key =>
      a ← aad ctx;
      match unseal key iv a tag ct with
      | Some bytes => Ok (decode_text bytes)
      | None => throw internal_error "Unsupported state or unable to authenticate data"
      end
  end.
Proof.
  intros Hk [Hiv Hivl] Htag Htagl Hct Hne. unfold decrypt. rewrite split_join; [|done|].
  2: { intros w Hw. rewrite !elem_of_cons in Hw. destruct Hw as [->|[->|[->|[->|[->|[]%not_elem_of_nil]]]]].
       - vm_compute. intros H. by repeat (apply elem_of_cons in H as [H|H]); [..|apply not_elem_of_nil in H].
       - by apply kid_no_sep.
       - by apply base64url_no_dot.
       - by apply base64url_no_dot.
       - by apply base64url_no_dot. }
  assert (∀ l, l ≠ [] → non_empty (base64url l) = true) as Hb.
  { intros l Hl. destruct (base64url l) eqn:E; [|done]. by apply base64url_nil in E. }
  unfold seqb. rewrite bool_decide_eq_true_2 by done. rewrite (kid_non_empty kid Hk), !Hb;
    [|done|by intros ->|by intros ->]. cbn [negb orb]. unfold throw_if at 1. cbn [mbind result_bind].
  destruct (key_of kid (kr_byKid ring)) as [key|]; [|done]. destruct (aad ctx) as [a|e]; [|done].
  unfold open. cbn [mbind result_bind]. rewrite !decode_base64url by done. by rewrite Htagl, Hivl.
Qed.

Lemma encrypt_Ok ring p ctx iv env : encrypt seal ring p ctx iv = Ok env →
  ∃ a, aad ctx = Ok a ∧ Forall is_byte a
    ∧ env = join dot_sep [VERSION; kr_primary_kid ring; base64url iv;
              base64url (seal (kr_primary_key ring) iv a (encode_text p)).2;
              base64url (seal (kr_primary_key ring) iv a (encode_text p)).1].
Proof.
  unfold encrypt. intros (a & Ha & E)%bind_Ok. exists a. split; [done|].
  destruct (seal (kr_primary_key ring) iv a (encode_text p)) as [ct tag]. injection E as <-. split; [|done].
  unfold aad in Ha. apply bind_Ok in Ha as (u & _ & [= <-]). apply encode_text_bytes.
Qed.

(** Decrypting what was encrypted, on any ring and for any context. *)
Lemma decrypt_encrypt ring1 ring2 p ctx1 ctx2 iv env :
  KID_PATTERN (kr_primary_kid ring1) = true → iv_ok iv → p ≠ [] → encrypt seal ring1 p ctx1 iv = Ok env →
  ∃ a1, aad ctx1 = Ok a1 ∧
  let s := seal (kr_primary_key ring1) iv a1 (encode_text p) in
  decrypt unseal ring2 env ctx2 =
  match key_of (kr_primary_kid ring1) (kr_byKid ring2) with
  | None => throw internal_error "No encryption key configured for key id"
  | Some key =>
      a ← aad ctx2;
      match unseal key iv a s.2 s.1 with
      | Some bytes => Ok (decode_text bytes)
      | None => throw internal_error "Unsupported state or unable to authenticate data"
      end
  end.
Proof.
  intros Hk Hiv Hp (a & Ha & Hab & ->)%encrypt_Ok. exists a. split; [done|]. cbv zeta.
  destruct (seal_bytes (kr_primary_key ring1) iv a (encode_text p) (encode_text_bytes p) Hab) as [Hc Ht].
  destruct (seal_length (kr_primary_key ring1) iv a (encode_text p)) as [Hcl Htl].
  apply decrypt_envelope; try done. intros E. rewrite E in Hcl. cbn in Hcl.
  apply Hp, encode_text_nil. by destruct (encode_text p).
Qed.
End envelope.

(** ** The context *)

(** Table names and ids: ASCII without a colon. *)
Definition plain (s : jsstr) : Prop := Forall (λ c, (c < 128)%N ∧ c ≠ colon_sep) s.
Definition plain_context (ctx : EncryptionContext) : Prop :=
  plain (ec_table ctx) ∧ plain (ec_id ctx) ∧ plain (ec_owner ctx).

Lemma encode_ascii s : Forall (λ c, (c < 128)%N) s → encode_text s = s.
Proof.
  intros H. assert (scalars s) as Hs.
  { eapply Forall_impl; [exact H|]. intros c Hc. apply is_scalar_spec. cbn in Hc. lia. }
  assert (utf16 s = s ∧ utf8 s = s) as [E1 E2]; [|by rewrite <- E1 at 1; rewrite encode_utf16].
  clear Hs. unfold utf16, utf8. induction H as [|c s Hc _ [IH1 IH2]]; [done|]. cbn [map concat].
  rewrite IH1, IH2. unfold utf16_1, utf8_1. cbn in Hc.
  destruct (N.ltb_spec c 65536); [|lia]. destruct (N.ltb_spec c 128); [done|lia].
Qed.

Lemma plain_no_colon s : plain s → colon_sep ∉ s.
Proof. unfold plain. rewrite Forall_forall. intros H Hin. by destruct (H _ Hin). Qed.
Lemma plain_ascii s : plain s → Forall (λ c, (c < 128)%N) s.
Proof. intros H. eapply Forall_impl; [exact H|]. naive_solver. Qed.

Lemma aad_plain ctx a : plain_context ctx → aad ctx = Ok a →
  a = ec_table ctx ++ colon_sep :: ec_id ctx ++ colon_sep :: ec_owner ctx.
Proof.
  intros (H1 & H2 & H3) (u & _ & [= <-])%bind_Ok. apply encode_ascii.
  apply Forall_app. split; [by apply plain_ascii|]. constructor; [done|].
  apply Forall_app. split; [by apply plain_ascii|]. constructor; [done|]. by apply plain_ascii.
Qed.

Lemma aad_inj ctx1 ctx2 a : plain_context ctx1 → plain_context ctx2 → aad ctx1 = Ok a → aad ctx2 = Ok a → ctx1 = ctx2.
Proof.
  intros P1 P2 E1%(aad_plain _ _ P1) E2%(aad_plain _ _ P2). rewrite E1 in E2. clear E1.
  destruct P1 as (T1 & I1 & _), P2 as (T2 & I2 & _), ctx1 as [t1 i1 o1], ctx2 as [t2 i2 o2]. cbn in *.
  apply (f_equal (cut_at colon_sep)) in E2. rewrite !cut_at_spec in E2 by (by apply plain_no_colon).
  injection E2 as <- E2. apply (f_equal (cut_at colon_sep)) in E2.
  rewrite !cut_at_spec in E2 by (by apply plain_no_colon). by injection E2 as <- <-.
Qed.

(** C12. Encrypted secrets survive a key rotation: what one deployment encrypted under
    its primary key is decrypted, for the same row and owner, by every deployment
    that has that key on its ring, as its primary or listed as retired, whatever
    its own primary key is. *)
Theorem rotation_roundtrip seal unseal (Haead : Aead seal unseal)
    (key1 kid1 retired1 key2 kid2 retired2 : jsstr) (ring1 ring2 : Keyring)
    (Hring1 : buildKeyring key1 kid1 retired1 = Ok ring1) (Hring2 : buildKeyring key2 kid2 retired2 = Ok ring2)
    (Hkept : kid2 = kid1 ∧ key2 = key1 ∨ kid1 ++ colon_sep :: key1 ∈ retired_entries retired2)
    (plaintext : jsstr) (ctx : EncryptionContext) (iv : list N) (envelope : jsstr)
    (Htext : is_text plaintext) (Hne : plaintext ≠ []) (Hiv : iv_ok iv)
    (Henc : encrypt seal ring1 plaintext ctx iv = Ok envelope) :
  decrypt unseal ring2 envelope ctx = Ok plaintext.
Proof.
  apply buildKeyring_Ok in Hring1 as (Hk & <- & Hkey1 & _), Hring2 as (_ & <- & Hkey2 & Hprim & Hret).
  destruct (decrypt_encrypt seal unseal ring1 ring2 plaintext ctx ctx iv envelope Hk Hiv Hne Henc) as (a & Ha & ->).
  assert (key_of (kr_primary_kid ring1) (kr_byKid ring2) = Some (kr_primary_key ring1)) as ->.
  { destruct Hkept as [[<- ->]|Hin]; [congruence|].
    destruct (Hret _ _ (kid_no_sep _ colon_sep Hk eq_refl) Hin) as (key & Hd & ->). congruence. }
  rewrite Ha. cbn [mbind result_bind]. rewrite unseal_seal. by rewrite text_roundtrip.
Qed.

(** C13. A ciphertext is bound to the row it was written for.  If an envelope is opened
    for any context of plain ids, by any ring, then it is opened for the row and
    owner it was encrypted for and gives back what was encrypted; or else AES-GCM
    sealed two different (key, context) pairs to the same ciphertext and tag. *)
Theorem envelope_bound seal unseal (Haead : Aead seal unseal)
    (key1 kid1 retired1 : jsstr) (ring1 ring2 : Keyring) (Hring1 : buildKeyring key1 kid1 retired1 = Ok ring1)
    (plaintext stolen : jsstr) (ctx1 ctx2 : EncryptionContext) (iv : list N) (envelope : jsstr)
    (Hctx1 : plain_context ctx1) (Hctx2 : plain_context ctx2)
    (Htext : is_text plaintext) (Hne : plaintext ≠ []) (Hiv : iv_ok iv)
    (Henc : encrypt seal ring1 plaintext ctx1 iv = Ok envelope)
    (Hdec : decrypt unseal ring2 envelope ctx2 = Ok stolen) :
  ctx2 = ctx1 ∧ stolen = plaintext
  ∨ ∃ k1 k2 a1 a2 p2, (k1, a1) ≠ (k2, a2) ∧ seal k1 iv a1 (encode_text plaintext) = seal k2 iv a2 p2.
Proof.
  apply buildKeyring_Ok in Hring1 as (Hk & <- & _).
  destruct (decrypt_encrypt seal unseal ring1 ring2 plaintext ctx1 ctx2 iv envelope Hk Hiv Hne Henc) as (a1 & Ha1 & E).
  rewrite E in Hdec. clear E. destruct (key_of _ (kr_byKid ring2)) as [k2|]; [|done].
  apply bind_Ok in Hdec as (a2 & Ha2 & Hdec).
  destruct (unseal k2 iv a2 _ _) as [p2|] eqn:Eu; [|done]. injection Hdec as <-. apply unseal_sound in Eu.
  rewrite <- surjective_pairing in Eu.
  destruct (decide ((kr_primary_key ring1, a1) = (k2, a2))) as [[= <- <-]|Hd]; [left|right].
  - split; [by eapply aad_inj|]. pose proof (unseal_seal (kr_primary_key ring1) iv a1 p2) as H1.
    pose proof (unseal_seal (kr_primary_key ring1) iv a1 (encode_text plaintext)) as H2. rewrite Eu in H1. rewrite H1 in H2.
    injection H2 as ->. by apply text_roundtrip.
  - by exists (kr_primary_key ring1), k2, a1, a2, p2.
Qed.

(** An envelope of the empty text cannot be read back: its last part is empty,
    which [decrypt] takes for a malformed envelope. *)
Lemma empty_plaintext_unreadable seal unseal `{!Aead seal unseal} ring ring2 ctx ctx2 iv env :
  KID_PATTERN (kr_primary_kid ring) = true → iv_ok iv → encrypt seal ring [] ctx iv = Ok env →
  decrypt unseal ring2 env ctx2 = throw internal_error "Malformed ciphertext".
Proof.
  intros Hk [Hiv _] (a & Ha & Hab & ->)%encrypt_Ok.
  destruct (seal_length (kr_primary_key ring) iv a []) as [Hcl _].
  destruct (seal_bytes (kr_primary_key ring) iv a [] ltac:(constructor) Hab) as [_ Ht].
  change (encode_text []) with (@nil N). destruct (seal (kr_primary_key ring) iv a []) as [ct tag]. cbn [fst snd length] in *.
  destruct ct; [|done]. unfold decrypt. rewrite split_join; [|done|].
  - unfold seqb. rewrite bool_decide_eq_true_2 by done. cbn [negb orb base64url to_sextets map non_empty].
    by rewrite !orb_true_r.
  - intros w Hw. rewrite !elem_of_cons in Hw. destruct Hw as [->|[->|[->|[->|[->|[]%not_elem_of_nil]]]]].
    + vm_compute. intros H. by repeat (apply elem_of_cons in H as [H|H]); [..|apply not_elem_of_nil in H].
    + by apply kid_no_sep.
    + by apply base64url_no_dot.
    + by apply base64url_no_dot.
    + apply not_elem_of_nil.
Qed.

(** ** A deployment before and after a rotation *)

(** A toy cipher that meets the contract: the text itself, and a checksum of the
    context as the tag. *)
Definition sum_seal (key iv a p : list N) : list N * list N :=
  (p, replicate 15 0%N ++ [(foldr N.add 0 a mod 256)%N]).
Definition sum_unseal (key iv a tag ct : list N) : option (list N) :=
  if bool_decide (tag = (sum_seal key iv a ct).2) then Some ct else None.
#[export] Instance sum_aead : Aead sum_seal sum_unseal.
Proof.
  split.
  - intros key iv a p. unfold sum_unseal. by rewrite bool_decide_eq_true_2.
  - intros key iv a tag ct p. unfold sum_unseal. case_bool_decide as H; [|done]. intros [= <-]. by rewrite H.
  - done.
  - intros key iv a p Hp _. split; [done|]. apply Forall_app. split; [by apply Forall_replicate|].
    constructor; [|constructor]. by apply N.mod_lt.
Qed.

Definition key_a : jsstr := replicate 43 65%N ++ [61%N].
Definition key_b : jsstr := 66%N :: replicate 42 65%N ++ [61%N].
Definition secret_row : EncryptionContext := MkContext (js "endpoint_secrets") (js "sec_1") (js "ep_1").
Definition some_iv : list N := replicate 12 7%N.

Definition ring_of (r : result Keyring) : Keyring := if r is Ok k then k else MkKeyring [] [] [].
Definition old_ring : Keyring := ring_of (buildKeyring key_a (js "k1") []).
Definition new_ring : Keyring := ring_of (buildKeyring key_b (js "k2") (js " k1:" ++ key_a)).
Definition stored : jsstr :=
  if encrypt sum_seal old_ring (js "whsec_x") secret_row some_iv is Ok e then e else [].

Lemma rotation_roundtrip_witness :
  kr_primary_kid new_ring = js "k2"
  ∧ decrypt sum_unseal new_ring stored secret_row = Ok (js "whsec_x").
Proof.
  split; [vm_compute; reflexivity|].
  apply (rotation_roundtrip sum_seal sum_unseal sum_aead key_a (js "k1") [] key_b (js "k2") (js " k1:" ++ key_a)
    old_ring new_ring) with (iv := some_iv).
  - vm_compute. reflexivity.
  - vm_compute. reflexivity.
  - right. apply list_elem_of_In. vm_compute. left. reflexivity.
  - exists (js "whsec_x"). split; [repeat (constructor; [reflexivity|]); constructor|vm_compute; reflexivity].
  - discriminate.
  - split; [repeat (constructor; [reflexivity|]); constructor|reflexivity].
  - vm_compute. reflexivity.
Defined.

(** Another endpoint's context is refused; the right one is accepted. *)
Lemma envelope_bound_witness :
  is_ok (decrypt sum_unseal old_ring stored (MkContext (js "endpoint_secrets") (js "sec_1") (js "ep_2"))) = false
  ∧ (secret_row = secret_row ∧ js "whsec_x" = js "whsec_x"
     ∨ ∃ k1 k2 a1 a2 p2, (k1, a1) ≠ (k2, a2) ∧ sum_seal k1 some_iv a1 (encode_text (js "whsec_x")) = sum_seal k2 some_iv a2 p2).
Proof.
  split; [vm_compute; reflexivity|].
  apply (envelope_bound sum_seal sum_unseal sum_aead key_a (js "k1") [] old_ring old_ring) with (envelope := stored).
  - vm_compute. reflexivity.
  - repeat split; repeat (constructor; [split; [reflexivity|discriminate]|]); constructor.
  - repeat split; repeat (constructor; [split; [reflexivity|discriminate]|]); constructor.
  - exists (js "whsec_x"). split; [repeat (constructor; [reflexivity|]); constructor|vm_compute; reflexivity].
  - discriminate.
  - split; [repeat (constructor; [reflexivity|]); constructor|reflexivity].
  - vm_compute. reflexivity.
  - vm_compute. reflexivity.
Defined.
