(* ===== verification/Outbox.v ===== *)
(** The outbox: outbox/outbox.service.ts, which shows the rows the router has
    parked and returns them to its queue.

    The order of rows is the database's: [by_created] is [ORDER BY created_at]
    and [unordered] a query without one.  The clock is an argument. *)
From Stdlib Require Import ZArith QArith Qround Lia.
From S2P Require Import Prelude Js Permissions RetryRules AuditTrail Db Scope TenantScope Replay.

Definition MAX_REQUEUE_BATCH : Z := 100.
Definition REQUEUEABLE_STATUS : OutboxStatus.t := OutboxStatus.failed.

Abbreviation outbox_row := (string * EventOutbox.t)%type.

Record OutboxEntryDto : Type := MkEntry {
  oe_id : string; oe_event_id : string; oe_type : jsstr; oe_status : OutboxStatus.t;
  oe_attempts : Z; oe_unaccounted_attempts : Z; oe_last_error : option jsstr;
  oe_failing_since : option jsstr; oe_routing_cursor : option jsstr; oe_available_at : jsstr;
  oe_locked_by : option jsstr; oe_locked_until : option jsstr; oe_processed_at : option jsstr;
  oe_created_at : jsstr
}.
Definition toOutboxEntryDto (row : outbox_row) : OutboxEntryDto :=
  let '(id, r) := row in
  MkEntry id (EventOutbox.eventId r) (EventOutbox.type r) (EventOutbox.status r)
    (EventOutbox.attempts r) (EventOutbox.unaccountedAttempts r) (EventOutbox.lastError r)
    (toISOString <$> EventOutbox.failingSince r) (EventOutbox.routingCursor r)
    (toISOString (EventOutbox.availableAt r)) (EventOutbox.lockedBy r)
    (toISOString <$> EventOutbox.lockedUntil r) (toISOString <$> EventOutbox.processedAt r)
    (toISOString (EventOutbox.createdAt r)).

Record ListOutboxQuery : Type := MkOutboxQuery {
  oq_status : option OutboxStatus.t; oq_event_id : option string; oq_limit : option num; oq_offset : option num
}.
Record OutboxEntryList : Type := MkEntryList {
  el_data : list OutboxEntryDto; el_has_more : bool; el_next_offset : option Z
}.
Record RequeueResult : Type := MkRequeueResult {
  rr_requeued : nat; rr_has_more : bool; rr_data : list OutboxEntryDto
}.

Definition filterWhere (query : ListOutboxQuery) (_ : string) (r : EventOutbox.t) : bool :=
  (if oq_status query is Some s then bool_decide (EventOutbox.status r = s) else true)
  && (if oq_event_id query is Some e then bool_decide (EventOutbox.eventId r = e) else true).

Definition assertRequeueable (r : EventOutbox.t) : result unit :=
  if bool_decide (EventOutbox.status r = REQUEUEABLE_STATUS) then Ok tt
  else throw conflict
    (if bool_decide (EventOutbox.status r = OutboxStatus.processed)
     then "has already been routed; there is nothing to requeue."
     else "it is already in the queue and a router is working on it.").

(** The columns a requeue writes. *)
Definition back_to_pending (now : Z) (r : EventOutbox.t) : EventOutbox.t :=
  EventOutbox.set_failingSince None (EventOutbox.set_unaccountedAttempts 0
    (EventOutbox.set_lockedUntil None (EventOutbox.set_lockedBy None
      (EventOutbox.set_processedAt None (EventOutbox.set_availableAt now
        (EventOutbox.set_status OutboxStatus.pending r)))))).

Definition opt_meta (o : option jsstr) : meta := if o is Some s then MStr s else MNull.

Section Outbox.
  Context (by_created newest_first unordered : list outbox_row → list outbox_row) (c : Ctx).

Definition outbox_list (query : ListOutboxQuery) : M Db OutboxEntryList :=
  rows ← findAll c (filterWhere query);
  let page := findPage (newest_first rows) (oq_limit query) (oq_offset query) in
  mret (MkEntryList (map toOutboxEntryDto (p_rows page)) (p_hasMore page) (p_nextSkip page)).

Definition outbox_get (outboxId : string) : M Db OutboxEntryDto :=
  row ← findById c outboxId;
  match row with
  | Some r => mret (toOutboxEntryDto (outboxId, r))
  | None => throwM not_found CROSS_TENANT_MESSAGE
  end.

(** [parked.map((row) => byId.get(row.id) ?? throw)] *)
Fixpoint read_back (byId : gmap string EventOutbox.t) (parked : list outbox_row) : result (list outbox_row) :=
  match parked with
  | [] => Ok []
  | (id, _) :: parked =>
      match byId !! id with
      | None => throw internal_error "was requeued but could not be read back in the same transaction."
      | Some requeued => rest ← read_back byId parked; Ok ((id, requeued) :: rest)
      end
  end.

Definition returnToQueue (parked : list outbox_row) (now : Z) : M Db (list outbox_row) :=
  if bool_decide (parked = []) then mret []
  else
    let ids := parked.*1 in
    let eventIds := remove_dups (map (λ row, EventOutbox.eventId row.2) parked) in
    _ ← updateMany c (λ id r, bool_decide (id ∈ ids) && bool_decide (EventOutbox.status r = REQUEUEABLE_STATUS))
          (back_to_pending now);
    _ ← updateMany c (λ id e, bool_decide (id ∈ eventIds) && bool_decide (Event.status e = EventStatus.failed))
          (Event.set_status EventStatus.received);
    rows ← findAll c (λ id _, bool_decide (id ∈ ids));
    let page := findPage (unordered rows) (Some (int (Z.of_nat (length ids)))) None in
    lift (read_back (list_to_map (p_rows page)) parked).

Definition requeue (outboxId : string) (reason : option jsstr) (now : Z) : M Db OutboxEntryDto :=
  row ← withCrossTenantNotFound (transact (
    parked ← findById c outboxId;
    match parked with
    | None => throwM not_found CROSS_TENANT_MESSAGE
    | Some parked =>
        _ ← lift (assertRequeueable parked);
        requeued ← returnToQueue [(outboxId, parked)] now;
        _ ← recordFor c "event_outbox.requeued" "event_outbox" (Some outboxId)
              [(js "event_id", MStr (js (EventOutbox.eventId parked)));
               (js "reason", opt_meta reason);
               (js "parked_error", opt_meta (EventOutbox.lastError parked));
               (js "parked_attempts", MNum (int (EventOutbox.attempts parked)));
               (js "parked_unaccounted_attempts", MNum (int (EventOutbox.unaccountedAttempts parked)));
               (js "routing_cursor", opt_meta (EventOutbox.routingCursor parked));
               (js "requeued_count", MNum (int 1))];
        mret (head requeued)
    end));
  _ ← lift (requireProject c);
  match row with
  | Some row => mret (toOutboxEntryDto row)
  | None => throwM internal_error "Cannot read properties of undefined"
  end.

Definition parked_where (event_id : option string) (_ : string) (r : EventOutbox.t) : bool :=
  bool_decide (EventOutbox.status r = REQUEUEABLE_STATUS)
  && (if event_id is Some e then bool_decide (EventOutbox.eventId r = e) else true).

(** [if (dto.event_id !== undefined) await scope.eventOutbox.assertOwned('eventId', dto.event_id)] *)
Definition assert_event_owned (event_id : option string) : M Db unit :=
  match event_id with
  | Some e => _ ← requireById (R:=Event.t) c e; mret tt
  | None => mret tt
  end.

Definition requeueParked (event_id : option string) (reason : option jsstr) (now : Z) : M Db RequeueResult :=
  result ← withCrossTenantNotFound (transact (
    _ ← assert_event_owned event_id;
    rows ← findAll c (parked_where event_id);
    let page := findPage (by_created rows) (Some (int MAX_REQUEUE_BATCH)) None in
    requeued ← returnToQueue (p_rows page) now;
    _ ← recordFor c "event_outbox.requeued" "event_outbox" event_id
          [(js "reason", opt_meta reason);
           (js "scope", MStr (if event_id is Some (String _ _) then js "event" else js "project"));
           (js "requested_event_id", opt_meta (js <$> event_id));
           (js "requeued_count", MNum (int (Z.of_nat (length requeued))));
           (js "has_more", MBool (p_hasMore page));
           (js "limit", MNum (int MAX_REQUEUE_BATCH));
           (js "requeued_outbox_ids", ids_meta requeued.*1);
           (js "requeued_event_ids", ids_meta (map (λ row, EventOutbox.eventId row.2) requeued))];
    mret (requeued, p_hasMore page)));
  let '(rows, hasMore) := result in
  _ ← lift (requireProject c);
  mret (MkRequeueResult (length rows) hasMore (map toOutboxEntryDto rows)).
End Outbox.

(** ** What a requeue changes *)

Definition requeue_rows (ids : list string) (now : Z) (m : gmap string EventOutbox.t) : gmap string EventOutbox.t :=
  map_imap (λ i r, Some (if bool_decide (i ∈ ids) then back_to_pending now r else r)) m.
Definition revive (ids : list string) (m : gmap string Event.t) : gmap string Event.t :=
  map_imap (λ i e, Some (if bool_decide (i ∈ ids) && bool_decide (Event.status e = EventStatus.failed)
                         then Event.set_status EventStatus.received e else e)) m.
Definition event_ids (rows : list outbox_row) : list string := map (λ row, EventOutbox.eventId row.2) rows.

(** The rows go back to the queue, their failed events are received again, and
    nothing else changes. *)
Definition requeued_db (rows : list outbox_row) (now : Z) (db : Db) : Db :=
  upd_events (revive (event_ids rows)) (upd_eventOutbox (requeue_rows rows.*1 now) db).

Lemma requeue_rows_lookup ids now m i :
  requeue_rows ids now m !! i = (λ r, if bool_decide (i ∈ ids) then back_to_pending now r else r) <$> m !! i.
Proof. unfold requeue_rows. rewrite map_lookup_imap. by destruct (m !! i). Qed.
Lemma revive_lookup ids m i :
  revive ids m !! i
  = (λ e, if bool_decide (i ∈ ids) && bool_decide (Event.status e = EventStatus.failed)
          then Event.set_status EventStatus.received e else e) <$> m !! i.
Proof. unfold revive. rewrite map_lookup_imap. by destruct (m !! i). Qed.

Lemma requeued_nothing now db : requeued_db [] now db = db.
Proof.
  unfold requeued_db, event_ids. cbn.
  assert (∀ m, revive [] m = m) as Hr.
  { intros m. apply map_eq. intros i. rewrite revive_lookup, bool_decide_eq_false_2 by set_solver.
    by destruct (m !! i). }
  assert (∀ m, requeue_rows [] now m = m) as Hq.
  { intros m. apply map_eq. intros i. rewrite requeue_rows_lookup, bool_decide_eq_false_2 by set_solver.
    by destruct (m !! i). }
  destruct db. unfold upd_events, upd_eventOutbox. cbn. by rewrite Hr, Hq.
Qed.

(** Tenancy of a row does not change. *)
Lemma revive_tenant ids m (e : string) c :
  match revive ids m !! e with
  | Some ev => both_match c (Some (Event.organizationId ev)) (Some (Event.projectId ev))
  | None => false
  end = match m !! e with
  | Some ev => both_match c (Some (Event.organizationId ev)) (Some (Event.projectId ev))
  | None => false
  end.
Proof. rewrite revive_lookup. destruct (m !! e); cbn; [|done]. by destruct (_ && _). Qed.

Lemma requeued_tenant c rows now db i (r : EventOutbox.t) :
  in_tenant c (requeued_db rows now db) i r = in_tenant c db i r.
Proof. unfold in_tenant. cbn. apply revive_tenant. Qed.
Lemma pending_tenant c db i now r : in_tenant c db i (back_to_pending now r) = in_tenant c db i r.
Proof. done. Qed.

Section requeue_facts.
  Context (unordered : list outbox_row → list outbox_row) (Hperm : ∀ l, unordered l ≡ₚ l) (c : Ctx).

(** Rows a transaction has read as parked. *)
Record parked_rows (db : Db) (rows : list outbox_row) : Prop := {
  pr_nodup : NoDup rows.*1;
  pr_found i r : (i, r) ∈ rows → find c db i = Some r ∧ EventOutbox.status r = REQUEUEABLE_STATUS
}.

Lemma parked_id db rows i : parked_rows db rows → i ∈ rows.*1 →
  ∃ r, (i, r) ∈ rows ∧ eventOutbox db !! i = Some r ∧ in_tenant c db i r = true
       ∧ EventOutbox.status r = REQUEUEABLE_STATUS.
Proof.
  intros Hp ([j r] & -> & Hin)%list_elem_of_fmap. exists r.
  destruct (pr_found _ _ Hp j r Hin) as [[Hr Ht]%find_Some Hs]. done.
Qed.

Lemma update_outbox db rows now : parked_rows db rows →
  update_rows c db (λ id r, bool_decide (id ∈ rows.*1) && bool_decide (EventOutbox.status r = REQUEUEABLE_STATUS))
    (back_to_pending now) = requeue_rows rows.*1 now (eventOutbox db).
Proof.
  intros Hp. apply map_eq. intros i. rewrite update_rows_lookup, requeue_rows_lookup. cbn [tbl EventOutbox_table].
  destruct (eventOutbox db !! i) as [r|] eqn:Hr; [|done]. cbn. case_bool_decide as Hi; cbn.
  - destruct (parked_id _ _ _ Hp Hi) as (r' & _ & Hr' & Ht & Hs). assert (r' = r) as -> by congruence.
    by rewrite Ht, bool_decide_eq_true_2.
  - by rewrite andb_false_r.
Qed.

Lemma update_events db rows now : parked_rows db rows →
  update_rows c (upd_eventOutbox (requeue_rows rows.*1 now) db)
    (λ id e, bool_decide (id ∈ remove_dups (event_ids rows)) && bool_decide (Event.status e = EventStatus.failed))
    (Event.set_status EventStatus.received) = revive (event_ids rows) (events db).
Proof.
  intros Hp. apply map_eq. intros i. rewrite update_rows_lookup, revive_lookup. cbn [tbl Event_table events upd_eventOutbox].
  destruct (events db !! i) as [e|] eqn:He; [|done]. cbn.
  rewrite (bool_decide_ext _ (i ∈ event_ids rows)) by (apply elem_of_remove_dups).
  case_bool_decide as Hi; cbn; [|by rewrite andb_false_r].
  assert (in_tenant c (upd_eventOutbox (requeue_rows rows.*1 now) db) i e = true) as ->; [|done].
  apply list_elem_of_fmap in Hi as ([j r] & -> & Hin).
  destruct (pr_found _ _ Hp j r Hin) as [[_ Ht]%find_Some _]. unfold in_tenant in *. cbn in *. by rewrite He in Ht.
Qed.

Lemma read_back_run byId rows now :
  (∀ i r, (i, r) ∈ rows → byId !! i = Some (back_to_pending now r)) →
  read_back byId rows = Ok (map (λ row, (row.1, back_to_pending now row.2)) rows).
Proof.
  induction rows as [|[i r] rows IH]; intros H; cbn; [done|].
  rewrite (H i r) by left. rewrite IH; [done|]. intros j r' Hj. apply H. by right.
Qed.

(** The rows read back. *)
Lemma read_back_rows db rows now : parked_rows db rows →
  ∀ i r', matching c (requeued_db rows now db) (λ id (_ : EventOutbox.t), bool_decide (id ∈ rows.*1)) !! i = Some r'
  ↔ ∃ r, (i, r) ∈ rows ∧ r' = back_to_pending now r.
Proof.
  intros Hp i r'. rewrite matching_lookup, requeued_tenant, bool_decide_eq_true. cbn [tbl EventOutbox_table].
  unfold requeued_db. cbn [eventOutbox upd_events upd_eventOutbox]. rewrite requeue_rows_lookup, fmap_Some. split.
  - intros ((r & Hr & ->) & Ht & Hi). rewrite bool_decide_eq_true_2 by done.
    destruct (parked_id _ _ _ Hp Hi) as (r0 & Hin & Hr0 & _). exists r. split; [|done]. congruence.
  - intros (r & Hin & ->). assert (i ∈ rows.*1) as Hi by (apply list_elem_of_fmap; by exists (i, r)).
    destruct (pr_found _ _ Hp i r Hin) as [[Hr Ht]%find_Some _].
    split; [|done]. exists r. by rewrite bool_decide_eq_true_2.
Qed.

Lemma read_back_page db rows now m : parked_rows db rows → length rows ≤ 200 → rows ≠ [] →
  m = matching c (requeued_db rows now db) (λ id (_ : EventOutbox.t), bool_decide (id ∈ rows.*1)) →
  list_to_map (p_rows (findPage (unordered (map_to_list m)) (Some (int (Z.of_nat (length rows.*1)))) None))
  =@{gmap string EventOutbox.t} m.
Proof.
  intros Hp Hlen Hne ->. set (m := matching _ _ _).
  destruct (findPage_facts (unordered (map_to_list m)) (Some (int (Z.of_nat (length rows.*1)))) None) as (-> & _ & _).
  change (Z.to_nat (default 0%Z (offset None))) with 0. rewrite drop_0, take_ge.
  - rewrite (list_to_map_proper _ (map_to_list m)) by (rewrite ?Hperm; apply NoDup_fst_map_to_list || done).
    apply list_to_map_to_list.
  - rewrite Hperm, length_fmap. unfold pageSize, int. cbn beta iota. rewrite Qfloor_Z. unfold MAX_PAGE_SIZE.
    assert (length (map_to_list m) ≤ length rows) as H; [|assert (length rows ≠ 0) by (by destruct rows); lia].
    rewrite <- (length_fmap fst (map_to_list m)), <- (length_fmap fst rows).
    apply submseteq_length, NoDup_submseteq; [apply NoDup_fst_map_to_list|].
    intros i ([j r'] & -> & Hi%elem_of_map_to_list)%list_elem_of_fmap.
    apply (read_back_rows _ _ _ Hp) in Hi as (r & Hin & _). apply list_elem_of_fmap. by exists (j, r).
Qed.

Lemma returnToQueue_run db rows now : parked_rows db rows → length rows ≤ 200 →
  returnToQueue unordered c rows now db
  = (Ok (map (λ row, (row.1, back_to_pending now row.2)) rows), requeued_db rows now db).
Proof.
  intros Hp Hlen. unfold returnToQueue. case_bool_decide as Hne; [subst; by rewrite requeued_nothing|].
  unfold mbind, M_bind. rewrite updateMany_run. cbn [upd_tbl EventOutbox_table].
  rewrite update_outbox by done. rewrite updateMany_run.
  change (upd_eventOutbox (λ _, requeue_rows rows.*1 now (eventOutbox db)) db)
    with (upd_eventOutbox (requeue_rows rows.*1 now) db).
  cbn [upd_tbl Event_table]. fold (event_ids rows). rewrite update_events by done.
  change (upd_events (λ _, revive (event_ids rows) (events db)) (upd_eventOutbox (requeue_rows rows.*1 now) db))
    with (requeued_db rows now db).
  unfold findAll, gets, lift. rewrite (read_back_page _ _ _ _ Hp Hlen Hne eq_refl).
  rewrite (read_back_run _ _ now); [done|]. intros i r Hin. apply (read_back_rows _ _ _ Hp). by exists r.
Qed.
End requeue_facts.

(** ** One row *)

(** What the recovered row is: queued and available now, its budgets refunded,
    its history kept. *)
Record recovered (now : Z) (r r' : EventOutbox.t) : Prop := {
  rc_pending : EventOutbox.status r' = OutboxStatus.pending;
  rc_available : EventOutbox.availableAt r' = now;
  rc_unlocked : EventOutbox.lockedBy r' = None ∧ EventOutbox.lockedUntil r' = None;
  rc_budget : EventOutbox.unaccountedAttempts r' = 0%Z ∧ EventOutbox.failingSince r' = None;
  rc_history : EventOutbox.attempts r' = EventOutbox.attempts r
    ∧ EventOutbox.lastError r' = EventOutbox.lastError r
    ∧ EventOutbox.routingCursor r' = EventOutbox.routingCursor r;
  rc_event : EventOutbox.eventId r' = EventOutbox.eventId r
}.
Lemma back_to_pending_recovered now r : recovered now r (back_to_pending now r).
Proof. by split. Qed.

(** The event of a requeued row. *)
Definition received_again (e : Event.t) : Event.t :=
  if bool_decide (Event.status e = EventStatus.failed) then Event.set_status EventStatus.received e else e.

Lemma requeued_row rows now db i r :
  i ∈ rows.*1 → eventOutbox db !! i = Some r →
  eventOutbox (requeued_db rows now db) !! i = Some (back_to_pending now r).
Proof.
  intros Hi Hr. unfold requeued_db. cbn. by rewrite requeue_rows_lookup, Hr, bool_decide_eq_true_2.
Qed.
Lemma other_row rows now db i :
  i ∉ rows.*1 → eventOutbox (requeued_db rows now db) !! i = eventOutbox db !! i.
Proof.
  intros Hi. unfold requeued_db. cbn. rewrite requeue_rows_lookup, bool_decide_eq_false_2 by done.
  by destruct (eventOutbox db !! i).
Qed.
Lemma requeued_events rows now db i :
  events (requeued_db rows now db) !! i
  = (if bool_decide (i ∈ event_ids rows) then received_again else id) <$> events db !! i.
Proof.
  unfold requeued_db, received_again. cbn. rewrite revive_lookup. destruct (events db !! i); cbn; [|done].
  by case_bool_decide.
Qed.

(** Requeueing one outbox row, on every branch.  A row the tenant cannot see and a
    row that is not parked are refused and nothing changes.  A parked row is
    available to the router now with its budgets refunded and its error, cursor
    and claim count kept; its event, and only its event, is received again if it
    had failed; no other row of the outbox changes, no delivery is created, and
    exactly one audit row is added. *)
Theorem requeue_verdict (unordered : list outbox_row → list outbox_row) (Hperm : ∀ l, unordered l ≡ₚ l)
    (c : Ctx) (Hproject : is_Some (ctx_project c)) (id : string) (reason : option jsstr) (now : Z) (db : Db) :
  let run := requeue unordered c id reason now db in
  match find (R:=EventOutbox.t) c db id with
  | None => run = (throw not_found CROSS_TENANT_MESSAGE, db)
  | Some r =>
      if bool_decide (EventOutbox.status r = OutboxStatus.failed) then
        ∃ r' a, run.1 = Ok (toOutboxEntryDto (id, r')) ∧ recovered now r r'
          ∧ eventOutbox run.2 = <[id := r']> (eventOutbox db)
          ∧ (∀ i, events run.2 !! i
                  = (if bool_decide (i = EventOutbox.eventId r) then received_again else λ e, e) <$> events db !! i)
          ∧ deliveries run.2 = deliveries db
          ∧ auditLogs run.2 = auditLogs db ++ [a]
          ∧ AuditLog.action a = "event_outbox.requeued" ∧ AuditLog.resourceId a = Some id
      else ∃ m, run = (throw conflict m, db)
  end.
Proof.
  intros run. assert (run = requeue unordered c id reason now db) as Er by done. clearbody run.
  unfold requeue, withCrossTenantNotFound, transact, findById, mbind, M_bind, gets in Er.
  destruct (find c db id) as [r|] eqn:Hf; [|done].
  unfold assertRequeueable, lift, REQUEUEABLE_STATUS in Er.
  case_bool_decide as Hs; cbn beta iota in Er; [|eexists; exact Er].
  destruct Hproject as [p Hproject].
  rewrite (returnToQueue_run unordered Hperm) in Er; [| |cbn; lia].
  2: { split; [apply NoDup_singleton|]. intros i r0 [= -> ->]%list_elem_of_singleton. done. }
  unfold recordFor, modify, requireProject in Er. rewrite Hproject in Er. cbn [map fst snd head mret M_ret] in Er.
  rewrite Er. clear Er. apply find_Some in Hf as [Hr Ht]. eexists (back_to_pending now r), _. cbn [fst snd].
  split_and!; [done|apply back_to_pending_recovered| | |done|reflexivity|done|done].
  - apply map_eq. intros i. cbn [eventOutbox upd_auditLogs]. destruct (decide (i = id)) as [->|Hi].
    + rewrite lookup_insert_eq. apply requeued_row; [by left|done].
    + rewrite lookup_insert_ne by done. apply other_row. cbn. set_solver.
  - intros i. etrans; [exact (requeued_events [(id, r)] now db i)|].
    rewrite (bool_decide_ext (i ∈ event_ids [(id, r)]) (i = EventOutbox.eventId r)) by set_solver. done.
Qed.

(** ** A batch *)

Section batches.
  Context (by_created unordered : list outbox_row → list outbox_row)
    (Hperm : ∀ l, unordered l ≡ₚ l) (Hsort : ∀ l, by_created l ≡ₚ l) (c : Ctx).

(** The parked rows of the request, oldest first. *)
Definition queue_of (ev : option string) (db : Db) : list outbox_row :=
  by_created (map_to_list (matching c db (parked_where ev))).

Lemma queue_of_elem ev db i r :
  (i, r) ∈ queue_of ev db ↔
  find c db i = Some r ∧ parked_where ev i r = true.
Proof.
  unfold queue_of. rewrite Hsort, elem_of_map_to_list, matching_lookup, find_Some. tauto.
Qed.
Lemma queue_of_nodup ev db : NoDup (queue_of ev db).*1.
Proof. unfold queue_of. rewrite Hsort. apply NoDup_fst_map_to_list. Qed.

Lemma batch_parked ev db n : parked_rows c db (take n (queue_of ev db)).
Proof.
  split.
  - rewrite fmap_take. apply (sublist_NoDup _ (queue_of ev db).*1); [apply queue_of_nodup|apply sublist_take].
  - intros i r Hj%subseteq_take. apply queue_of_elem in Hj as [Hf Hp].
    split; [done|]. unfold parked_where in Hp. by bprop.
Qed.

Definition event_owned (ev : option string) (db : Db) : bool := owned_opt (R:=Event.t) c db ev.

Lemma assert_event_run ev db : event_owned ev db = true → assert_event_owned c ev db = (Ok tt, db).
Proof.
  destruct ev as [e|]; [|done]. unfold event_owned, owned_opt, owned.
  unfold assert_event_owned, requireById, findById, mbind, M_bind, gets. by destruct (find c db e).
Qed.

Lemma requeueParked_run ev reason now db :
  is_Some (ctx_project c) → event_owned ev db = true →
  ∃ a, requeueParked by_created unordered c ev reason now db
       = (Ok (MkRequeueResult (length (take 100 (queue_of ev db))) (100 <? length (queue_of ev db))
                (map (λ row, toOutboxEntryDto (row.1, back_to_pending now row.2)) (take 100 (queue_of ev db)))),
          upd_auditLogs (λ l, l ++ [a]) (requeued_db (take 100 (queue_of ev db)) now db))
     ∧ AuditLog.action a = "event_outbox.requeued".
Proof.
  intros [p Hp] He. unfold requeueParked, withCrossTenantNotFound, transact.
  destruct (findPage_facts (queue_of ev db) (Some (int MAX_REQUEUE_BATCH)) None) as (Hrows & Hmore & _).
  change (Z.to_nat (pageSize (Some (int MAX_REQUEUE_BATCH)))) with 100 in *.
  change (Z.to_nat (default 0%Z (offset None))) with 0 in *. rewrite drop_0 in Hrows.
  set (page := findPage (queue_of ev db) (Some (int MAX_REQUEUE_BATCH)) None) in *.
  unfold findAll, gets, mbind, M_bind. cbv zeta. rewrite assert_event_run by done.
  fold (queue_of ev db). fold page. rewrite Hrows.
  rewrite (returnToQueue_run unordered Hperm) by (apply batch_parked || (rewrite length_take; lia)).
  assert (p_hasMore page = (100 <? length (queue_of ev db))) as ->.
  { apply eq_true_iff_eq. by rewrite Hmore, Nat.ltb_lt. }
  unfold recordFor, modify, lift, requireProject. rewrite Hp. unfold mret, M_ret.
  eexists. split; [apply (f_equal2 pair); [by rewrite map_map, length_map|reflexivity]|done].
Qed.

(** The rows still parked after a batch. *)
Lemma queue_after ev n now db a i r :
  (i, r) ∈ queue_of ev (upd_auditLogs a (requeued_db (take n (queue_of ev db)) now db))
  ↔ (i, r) ∈ drop n (queue_of ev db).
Proof.
  rewrite queue_of_elem, find_Some. cbn [tbl EventOutbox_table]. set (sel := take n (queue_of ev db)).
  change (eventOutbox (upd_auditLogs a (requeued_db sel now db))) with (eventOutbox (requeued_db sel now db)).
  change (in_tenant c (upd_auditLogs a (requeued_db sel now db)) i r) with (in_tenant c (requeued_db sel now db) i r).
  rewrite requeued_tenant. pose proof (queue_of_nodup ev db) as Hn.
  assert ((i, r) ∈ drop n (queue_of ev db) ↔ (i, r) ∈ queue_of ev db ∧ i ∉ sel.*1) as ->.
  { rewrite <- (take_drop n (queue_of ev db)) at 2. fold sel. rewrite <- (take_drop n (queue_of ev db)), fmap_app in Hn.
    apply NoDup_app in Hn as (_ & Hd & _). fold sel in Hd. rewrite elem_of_app. split.
    - intros Hin. split; [by right|]. intros Hi. apply (Hd i Hi). apply list_elem_of_fmap. by exists (i, r).
    - intros [[Hin|Hin] Hi]; [|done]. destruct Hi. apply list_elem_of_fmap. by exists (i, r). }
  rewrite queue_of_elem, find_Some. cbn [tbl EventOutbox_table]. destruct (decide (i ∈ sel.*1)) as [Hi|Hi].
  - split; [|tauto]. intros [[Hr _] Hw]. exfalso.
    destruct (parked_id c _ _ _ (batch_parked ev db n) Hi) as (r0 & _ & Hr0 & _).
    rewrite (requeued_row _ _ _ _ _ Hi Hr0) in Hr. injection Hr as <-.
    unfold parked_where in Hw. cbn in Hw. by bprop.
  - rewrite other_row by done. tauto.
Qed.

Lemma queue_after_length ev n now db a :
  length (queue_of ev (upd_auditLogs a (requeued_db (take n (queue_of ev db)) now db)))
  = length (queue_of ev db) - n.
Proof.
  rewrite <- length_drop. apply Permutation_length, NoDup_Permutation.
  - eapply NoDup_fmap_1, queue_of_nodup.
  - apply (sublist_NoDup _ (queue_of ev db)); [eapply NoDup_fmap_1, queue_of_nodup|apply sublist_drop].
  - intros [i r]. apply queue_after.
Qed.
End batches.

(** Requeueing in bulk takes the oldest parked rows of the project, or of one of
    its events, a hundred at most, and says truthfully whether more are left: the
    answer counts the rows it returned to the queue, each of them is recovered,
    no row left behind is older than one taken, and the rows left parked are
    exactly the others. *)
Theorem requeueParked_spec (by_created unordered : list outbox_row → list outbox_row)
    (Hperm : ∀ l, unordered l ≡ₚ l) (Hsort : ∀ l, by_created l ≡ₚ l)
    (Horder : ∀ l, StronglySorted (λ a b, (EventOutbox.createdAt a.2 <= EventOutbox.createdAt b.2)%Z) (by_created l))
    (c : Ctx) (Hproject : is_Some (ctx_project c)) (ev : option string) (reason : option jsstr) (now : Z) (db : Db)
    (Hev : event_owned c ev db = true) :
  let queue := queue_of by_created c ev db in
  let run := requeueParked by_created unordered c ev reason now db in
  ∃ res taken left, run.1 = Ok res ∧ queue = taken ++ left
    ∧ rr_requeued res = length taken ∧ length taken = Nat.min 100 (length queue)
    ∧ (rr_has_more res = true ↔ left ≠ [])
    ∧ (∀ i r, (i, r) ∈ taken → ∃ r', eventOutbox run.2 !! i = Some r' ∧ recovered now r r')
    ∧ (∀ i, i ∉ taken.*1 → eventOutbox run.2 !! i = eventOutbox db !! i)
    ∧ (∀ x y, x ∈ taken → y ∈ left → (EventOutbox.createdAt x.2 <= EventOutbox.createdAt y.2)%Z)
    ∧ (∀ x, x ∈ queue_of by_created c ev run.2 ↔ x ∈ left).
Proof.
  intros queue run. destruct (requeueParked_run by_created unordered Hperm Hsort c ev reason now db Hproject Hev)
    as (a & E & _). fold run queue in E. clearbody run. subst run.
  eexists _, (take 100 queue), (drop 100 queue). cbn [fst snd rr_requeued rr_has_more].
  change (eventOutbox (upd_auditLogs ?f ?d)) with (eventOutbox d).
  split_and!; [done|by rewrite take_drop|done|rewrite length_take; lia| | | | |].
  - cbn [rr_has_more]. rewrite Nat.ltb_lt, <- length_zero_iff_nil, length_drop. lia.
  - intros i r Hin. exists (back_to_pending now r). split; [|apply back_to_pending_recovered].
    destruct (pr_found _ _ _ (batch_parked by_created Hsort c ev db 100) i r Hin) as [[Hr _]%find_Some _].
    apply requeued_row; [apply list_elem_of_fmap; by exists (i, r)|done].
  - intros i Hi. by apply other_row.
  - intros x y Hx Hy. pose proof (Horder (map_to_list (matching c db (parked_where ev)))) as Ho.
    fold (queue_of by_created c ev db) queue in Ho. rewrite <- (take_drop 100 queue) in Ho.
    apply StronglySorted_app in Ho as (Ho & _). exact (Ho x y Hx Hy).
  - intros [i r]. apply (queue_after by_created Hsort).
Qed.

(** Calling again and again. *)
Fixpoint requeue_all (by_created unordered : list outbox_row → list outbox_row) (c : Ctx) (times : list Z) (db : Db) : Db :=
  match times with
  | [] => db
  | now :: times =>
      requeue_all by_created unordered c times (requeueParked by_created unordered c None None now db).2
  end.

(** Calling the bulk requeue until it says there is no more empties the project of
    parked rows: as many calls as there are hundreds of parked rows leave none,
    and create no delivery. *)
Theorem requeue_drains (by_created unordered : list outbox_row → list outbox_row)
    (Hperm : ∀ l, unordered l ≡ₚ l) (Hsort : ∀ l, by_created l ≡ₚ l)
    (c : Ctx) (Hproject : is_Some (ctx_project c)) (times : list Z) (db : Db)
    (Henough : length (queue_of by_created c None db) ≤ 100 * length times) :
  let db' := requeue_all by_created unordered c times db in
  (∀ i r, find c db' i = Some r → EventOutbox.status r ≠ OutboxStatus.failed)
  ∧ deliveries db' = deliveries db
  ∧ length (auditLogs db') = length (auditLogs db) + length times.
Proof.
  revert db Henough. induction times as [|now times IH]; intros db Henough; cbn [requeue_all].
  - split_and!; [|done|cbn; lia]. intros i r Hf Hs.
    assert ((i, r) ∈ queue_of by_created c None db) as Hin.
    { apply (queue_of_elem by_created Hsort). split; [done|]. unfold parked_where. by rewrite bool_decide_eq_true_2. }
    destruct (queue_of by_created c None db); [by apply not_elem_of_nil in Hin|cbn in Henough; lia].
  - destruct (requeueParked_run by_created unordered Hperm Hsort c None None now db Hproject eq_refl)
      as (a & -> & _). cbn [snd].
    destruct (IH (upd_auditLogs (λ l, l ++ [a]) (requeued_db (take 100 (queue_of by_created c None db)) now db)))
      as (H1 & H2 & H3).
    { rewrite (queue_after_length by_created Hsort). cbn [length] in Henough. lia. }
    split_and!; [exact H1|by rewrite H2|]. rewrite H3. cbn. rewrite length_app. cbn. lia.
Qed.

(** ** Two parked rows *)

Definition oldest_first : list outbox_row → list outbox_row :=
  sort_by (λ a b, (EventOutbox.createdAt a.2 <=? EventOutbox.createdAt b.2)%Z).
Lemma oldest_first_sorted l :
  StronglySorted (λ a b, (EventOutbox.createdAt a.2 <= EventOutbox.createdAt b.2)%Z) (oldest_first l).
Proof. apply (sort_by_key (λ r : outbox_row, EventOutbox.createdAt r.2)). Qed.

Definition parked_row (ev : string) (created : Z) : EventOutbox.t :=
  EventOutbox.mk ev (js "event.created") OutboxStatus.failed 7 5 (Some 1%Z) None 3 None None
    (Some (js "boom")) (Some 9%Z) created.
Definition parked_db : Db :=
  upd_eventOutbox (λ _, <["x1" := parked_row "v1" 30]> (<["x2" := parked_row "v2" 20]> ∅))
    (upd_events (λ _, <["v1" := Event.bare "o1" "p1" (js "a.b") EventStatus.failed 0]>
                      (<["v2" := Event.bare "o1" "p1" (js "a.b") EventStatus.failed 0]> ∅)) two_orgs).

Lemma requeue_verdict_witness :
  ∃ r', eventOutbox (requeue id rep_ctx "x1" None 50 parked_db).2 !! "x1" = Some r'
        ∧ recovered 50 (parked_row "v1" 30) r'.
Proof.
  pose proof (requeue_verdict id (λ l, Permutation_refl l) rep_ctx (ex_intro _ "p1" eq_refl) "x1" None 50 parked_db) as H.
  cbv zeta in H.
  assert (find (R:=EventOutbox.t) rep_ctx parked_db "x1" = Some (parked_row "v1" 30)) as Hf
    by (vm_compute; reflexivity).
  rewrite Hf in H. destruct H as (r' & a & _ & Hr & Ho & _). exists r'. split; [|exact Hr].
  rewrite Ho. apply lookup_insert_eq.
Defined.

Lemma requeueParked_spec_witness :
  (queue_of oldest_first rep_ctx None parked_db).*1 = ["x2"; "x1"]
  ∧ ∃ res, (requeueParked oldest_first id rep_ctx None None 50 parked_db).1 = Ok res ∧ rr_requeued res = 2.
Proof.
  split; [vm_compute; reflexivity|].
  destruct (requeueParked_spec oldest_first id (λ l, Permutation_refl l) (sort_by_perm _) oldest_first_sorted
    rep_ctx (ex_intro _ "p1" eq_refl) None None 50 parked_db eq_refl) as (res & taken & left & H1 & _ & H2 & H3 & _).
  exists res. split; [exact H1|]. rewrite H2, H3. vm_compute. reflexivity.
Defined.

Lemma requeue_drains_witness :
  length (queue_of oldest_first rep_ctx None parked_db) = 2
  ∧ ∀ i r, find rep_ctx (requeue_all oldest_first id rep_ctx [50%Z] parked_db) i = Some r →
           EventOutbox.status r ≠ OutboxStatus.failed.
Proof.
  split; [vm_compute; reflexivity|].
  apply (requeue_drains oldest_first id (λ l, Permutation_refl l) (sort_by_perm _)
    rep_ctx (ex_intro _ "p1" eq_refl) [50%Z] parked_db). vm_compute. repeat constructor.
Defined.
