(* ===== verification/NotificationRules.v ===== *)
(** When an alert becomes a message: notification-destinations/notification-rules.ts. *)
From Stdlib Require Import ZArith Lia.
From S2P Require Import Prelude Js Permissions RetryRules AuditTrail Db.

Inductive NotificationEvent : Type := endpoint_stopped | event_stuck | secret_retiring | delivery_exhausted.
Definition event_name (e : NotificationEvent) : string :=
  match e with
  | endpoint_stopped => "endpoint.stopped" | event_stuck => "event.stuck"
  | secret_retiring => "secret.retiring" | delivery_exhausted => "delivery.exhausted"
  end.
Definition NOTIFICATION_EVENT_NAMES : list string :=
  map event_name [endpoint_stopped; event_stuck; secret_retiring; delivery_exhausted].
Definition urgent (e : NotificationEvent) : bool := if e is endpoint_stopped then true else false.
Definition isNotificationEvent (value : string) : bool := bool_decide (value ∈ NOTIFICATION_EVENT_NAMES).

Definition GROUPING_WINDOW_MS : Z := 30 * 60000.
Definition QUIET_HOURS_FROM : Z := 22.
Definition QUIET_HOURS_UNTIL : Z := 7.

Definition getUTCHours (at_ : Z) : Z := (at_ / 3600000) mod 24.
Definition inQuietHours (at_ : Z) : bool :=
  ((QUIET_HOURS_FROM <=? getUTCHours at_) || (getUTCHours at_ <? QUIET_HOURS_UNTIL))%Z.

Inductive SendReason : Type := send_new | window_expired | send_urgent.
Inductive HoldReason : Type := grouped | quiet_hours | not_subscribed | not_confirmed.
Inductive SendVerdict : Type := Send (r : SendReason) | Hold (r : HoldReason).

(** The dispatch that could group with this one; [sentAt] is carried and not read. *)
Record LastDispatch : Type := MkLast { ld_subject : jsstr; ld_lastAt : Z; ld_sentAt : option Z }.

Definition shouldSend (status : NotificationStatus.t) (events : list string) (event : NotificationEvent)
    (subject : jsstr) (previous : option LastDispatch) (now : Z) : SendVerdict :=
  if negb (bool_decide (status = NotificationStatus.confirmed)) then Hold not_confirmed
  else if negb (bool_decide (event_name event ∈ events)) then Hold not_subscribed
  else
    let fresh :=
      if urgent event then Send send_urgent
      else if inQuietHours now then Hold quiet_hours
      else Send send_new in
    match previous with
    | Some p =>
        if seqb (ld_subject p) subject then
          if (now - ld_lastAt p <? GROUPING_WINDOW_MS)%Z then Hold grouped
          else if inQuietHours now && negb (urgent event) then Hold quiet_hours
          else Send window_expired
        else fresh
    | None => fresh
    end.

(** ** The policy *)

(** When a message goes out. *)
Lemma shouldSend_spec status events event subject previous now :
  (∃ r, shouldSend status events event subject previous now = Send r) ↔
  status = NotificationStatus.confirmed ∧ event_name event ∈ events
  ∧ (urgent event = true ∨ inQuietHours now = false)
  ∧ (∀ p, previous = Some p → ld_subject p = subject → (GROUPING_WINDOW_MS <= now - ld_lastAt p)%Z).
Proof.
  unfold shouldSend. case_bool_decide as Hs; cbn [negb]; [|split; [by intros [? ?]|by intros [? _]]].
  case_bool_decide as He; cbn [negb]; [|split; [by intros [? ?]|by intros (_ & ? & _)]].
  destruct (urgent event), (inQuietHours now); cbn [andb negb];
    (destruct previous as [p|]; [destruct (seqb (ld_subject p) subject) eqn:Ep;
       [destruct (Z.ltb_spec (now - ld_lastAt p) GROUPING_WINDOW_MS)|]|]);
    unfold seqb in *; bprop;
    (split; [intros [r E]; try discriminate E; split_and!; auto; intros q [= <-] ?; (lia || congruence)
            |intros (_ & _ & Hq & Hp); try (by eexists);
             first [by destruct Hq|specialize (Hp p eq_refl Ep); lia]]).
Qed.

(** The window crosses midnight. *)
Lemma inQuietHours_spec at_ :
  inQuietHours at_ = true ↔ ¬ (7 <= getUTCHours at_ < 22)%Z.
Proof.
  unfold inQuietHours, QUIET_HOURS_FROM, QUIET_HOURS_UNTIL. rewrite orb_true_iff, Z.leb_le, Z.ltb_lt. lia.
Qed.
