(* ===== verification/Alerts.v ===== *)
(** The alert dispatcher: maintenance/notification-dispatcher.service.ts.

    The state is the database and the messages the mailer has accepted.  Whether
    the mailer accepts a message is an argument, as is the order in which the
    database returns the destinations. *)
From Stdlib Require Import ZArith Lia.
From S2P Require Import Prelude Js Permissions RetryRules AuditTrail Db NotificationRules.

(** A message that left: to whom, about what, and how often it says it happened. *)
Record AlertMail : Type := MkAlertMail { am_destination : string; am_subject : jsstr; am_occurrences : Z; am_at : Z }.

Record AlertWorld : Type := MkWorld { aw_db : Db; aw_sent : list AlertMail }.
Definition on_db (f : Db → Db) (w : AlertWorld) : AlertWorld := MkWorld (f (aw_db w)) (aw_sent w).

Record AlertInput : Type := MkAlert { al_projectId : string; al_event : NotificationEvent; al_subject : jsstr }.
Record AlertReport : Type := MkReport {
  ar_considered : nat; ar_sent : nat; ar_grouped : nat; ar_held : nat; ar_failed : nat
}.
Definition no_report : AlertReport := MkReport 0 0 0 0 0.

Section Alerts.
  Context (mail_ok : string → bool) (order : list (string * Destination.t) → list (string * Destination.t)).

(** The query: confirmed destinations of the project that asked for the event. *)
Definition wants (input : AlertInput) (d : Destination.t) : bool :=
  bool_decide (Destination.projectId d = al_projectId input)
  && bool_decide (Destination.status d = NotificationStatus.confirmed)
  && bool_decide (event_name (al_event input) ∈ Destination.events d).

(** The upsert on (destination, subject). *)
Definition record (destinationId : string) (input : AlertInput) (now : Z) (existed : bool)
    (m : gmap (string * jsstr) Dispatch.t) : Dispatch.t :=
  match m !! (destinationId, al_subject input) with
  | None => Dispatch.mk (event_name (al_event input)) 1 now now None
  | Some row =>
      let row := Dispatch.set_event (event_name (al_event input)) (Dispatch.set_lastAt now row) in
      if existed then Dispatch.set_occurrences (Dispatch.occurrences row + 1) row else row
  end.

Definition sent_row (now : Z) (r : Dispatch.t) : Dispatch.t :=
  Dispatch.set_firstAt now (Dispatch.set_occurrences 1 (Dispatch.set_sentAt (Some now) r)).
Definition sent_destination (now : Z) (d : Destination.t) : Destination.t :=
  Destination.set_lastError None (Destination.set_lastSentAt (Some now) d).

(** One destination of the loop. *)
Definition alert_one (input : AlertInput) (now : Z) (d : string * Destination.t) (rep : AlertReport)
    (w : AlertWorld) : AlertReport * AlertWorld :=
  let key := (d.1, al_subject input) in
  let rep := MkReport (S (ar_considered rep)) (ar_sent rep) (ar_grouped rep) (ar_held rep) (ar_failed rep) in
  let previous := dispatches (aw_db w) !! key in
  let verdict := shouldSend (Destination.status d.2) (Destination.events d.2) (al_event input) (al_subject input)
    ((λ r, MkLast (al_subject input) (Dispatch.lastAt r) (Dispatch.sentAt r)) <$> previous) now in
  let dispatch := record d.1 input now (bool_decide (previous ≠ None)) (dispatches (aw_db w)) in
  let w := on_db (upd_dispatches (insert key dispatch)) w in
  match verdict with
  | Hold grouped => (MkReport (ar_considered rep) (ar_sent rep) (S (ar_grouped rep)) (ar_held rep) (ar_failed rep), w)
  | Hold quiet_hours => (MkReport (ar_considered rep) (ar_sent rep) (ar_grouped rep) (S (ar_held rep)) (ar_failed rep), w)
  | Hold _ => (rep, w)
  | Send _ =>
      if mail_ok d.1 then
        (MkReport (ar_considered rep) (S (ar_sent rep)) (ar_grouped rep) (ar_held rep) (ar_failed rep),
         MkWorld
           (upd_destinations (alter (sent_destination now) d.1)
             (upd_dispatches (insert key (sent_row now dispatch)) (aw_db w)))
           (aw_sent w ++ [MkAlertMail d.1 (al_subject input) (Dispatch.occurrences dispatch) now]))
      else
        (MkReport (ar_considered rep) (ar_sent rep) (ar_grouped rep) (ar_held rep) (S (ar_failed rep)),
         on_db (upd_destinations (alter (Destination.set_lastError
           (Some (js "The last alert could not be delivered"))) d.1)) w)
  end.

Fixpoint alert_loop (input : AlertInput) (now : Z) (l : list (string * Destination.t)) (rep : AlertReport)
    (w : AlertWorld) : AlertReport * AlertWorld :=
  match l with
  | [] => (rep, w)
  | d :: l => let '(rep, w) := alert_one input now d rep w in alert_loop input now l rep w
  end.

Definition candidates (input : AlertInput) (db : Db) : list (string * Destination.t) :=
  order (map_to_list (filter (λ kv, wants input kv.2 = true) (destinations db))).

Definition alert (input : AlertInput) (now : Z) (w : AlertWorld) : AlertReport * AlertWorld :=
  alert_loop input now (candidates input (aw_db w)) no_report w.
End Alerts.

(** ** One destination *)

Section one.
  Context (mail_ok : string → bool) (input : AlertInput) (now : Z).

(** The messages one turn of the loop sends. *)
Definition turn_mail (d : string * Destination.t) (w : AlertWorld) : list AlertMail :=
  let previous := dispatches (aw_db w) !! (d.1, al_subject input) in
  match shouldSend (Destination.status d.2) (Destination.events d.2) (al_event input) (al_subject input)
    ((λ r, MkLast (al_subject input) (Dispatch.lastAt r) (Dispatch.sentAt r)) <$> previous) now with
  | Send _ =>
      if mail_ok d.1
      then [MkAlertMail d.1 (al_subject input) (if previous is Some r then Dispatch.occurrences r + 1 else 1) now]
      else []
  | Hold _ => []
  end.

Lemma record_occurrences (id : string) (m : gmap (string * jsstr) Dispatch.t) :
  Dispatch.occurrences (record id input now (bool_decide (m !! (id, al_subject input) ≠ None)) m)
  = if m !! (id, al_subject input) is Some r then (Dispatch.occurrences r + 1)%Z else 1%Z.
Proof. unfold record. by destruct (m !! _). Qed.
Lemma record_lastAt (id : string) (existed : bool) (m : gmap (string * jsstr) Dispatch.t) :
  Dispatch.lastAt (record id input now existed m) = now.
Proof. unfold record. destruct (m !! _); [by destruct existed|done]. Qed.

Lemma alert_one_sent d rep w :
  aw_sent (alert_one mail_ok input now d rep w).2 = aw_sent w ++ turn_mail d w.
Proof.
  unfold alert_one, turn_mail. destruct (shouldSend _ _ _ _ _ _) as [r|[]]; cbn; rewrite ?app_nil_r; try done.
  destruct (mail_ok d.1); cbn; [|by rewrite app_nil_r]. by rewrite record_occurrences.
Qed.

(** The grouping row of the subject after the turn: its last occurrence is now. *)
Lemma alert_one_row d rep w :
  ∃ r, dispatches (aw_db (alert_one mail_ok input now d rep w).2) !! (d.1, al_subject input) = Some r
       ∧ Dispatch.lastAt r = now.
Proof.
  unfold alert_one. destruct (shouldSend _ _ _ _ _ _) as [|[]]; [destruct (mail_ok d.1)|..]; cbn;
    rewrite lookup_insert_eq; eexists; (split; [done|]); cbn; apply record_lastAt.
Qed.
Lemma alert_one_other d rep w k : k ≠ (d.1, al_subject input) →
  dispatches (aw_db (alert_one mail_ok input now d rep w).2) !! k = dispatches (aw_db w) !! k.
Proof.
  intros Hk. unfold alert_one. destruct (shouldSend _ _ _ _ _ _) as [|[]]; [destruct (mail_ok d.1)|..]; cbn;
    by rewrite ?lookup_insert_ne.
Qed.

(** A turn keeps every destination's subscription. *)
Definition same_subscription (a b : Destination.t) : Prop :=
  Destination.projectId a = Destination.projectId b ∧ Destination.status a = Destination.status b
  ∧ Destination.events a = Destination.events b ∧ Destination.target a = Destination.target b.
Lemma alert_one_destinations d rep w i :
  option_Forall2 same_subscription (destinations (aw_db w) !! i)
    (destinations (aw_db (alert_one mail_ok input now d rep w).2) !! i).
Proof.
  assert (∀ o : option Destination.t, option_Forall2 same_subscription o o) as Hrefl
    by (intros [x|]; constructor; repeat split).
  unfold alert_one. destruct (shouldSend _ _ _ _ _ _) as [|[]]; [destruct (mail_ok d.1)|..]; cbn; try apply Hrefl;
    (destruct (decide (i = d.1)) as [->|Hi]; [rewrite lookup_alter_eq|rewrite lookup_alter_ne by done; apply Hrefl]);
    (destruct (destinations (aw_db w) !! d.1); constructor; repeat split).
Qed.
End one.

(** ** The loop *)

Section loop.
  Context (mail_ok : string → bool) (input : AlertInput) (now : Z).

(** With distinct destinations, each turn sees the rows as they were before. *)
Lemma alert_loop_sent l : NoDup l.*1 → ∀ rep w,
  aw_sent (alert_loop mail_ok input now l rep w).2 = aw_sent w ++ concat (map (λ d, turn_mail mail_ok input now d w) l).
Proof.
  induction l as [|d l IH]; intros Hn rep w; cbn [alert_loop map concat]; [by rewrite app_nil_r|].
  apply NoDup_cons in Hn as [Hd Hn].
  destruct (alert_one mail_ok input now d rep w) as [rep' w'] eqn:E.
  rewrite IH by done. replace w' with (alert_one mail_ok input now d rep w).2 by (by rewrite E).
  rewrite alert_one_sent, <- app_assoc. do 2 f_equal. f_equal. apply map_ext_in. intros x Hx.
  unfold turn_mail. rewrite alert_one_other; [done|]. intros [= Ex]. apply Hd. rewrite <- Ex.
  apply list_elem_of_fmap. exists x. split; [done|]. by apply list_elem_of_In.
Qed.

Lemma alert_loop_row l i : NoDup l.*1 → ∀ rep w,
  (i ∈ l.*1 → ∃ r, dispatches (aw_db (alert_loop mail_ok input now l rep w).2) !! (i, al_subject input) = Some r
                   ∧ Dispatch.lastAt r = now)
  ∧ (i ∉ l.*1 → ∀ s, dispatches (aw_db (alert_loop mail_ok input now l rep w).2) !! (i, s) = dispatches (aw_db w) !! (i, s)).
Proof.
  induction l as [|d l IH]; intros Hn rep w; cbn [alert_loop fmap list_fmap].
  { split; [by intros ?%not_elem_of_nil|done]. }
  apply NoDup_cons in Hn as [Hd Hn].
  destruct (alert_one mail_ok input now d rep w) as [rep' w'] eqn:E.
  destruct (IH Hn rep' w') as [IH1 IH2].
  assert (w' = (alert_one mail_ok input now d rep w).2) as Ew by (by rewrite E). split.
  - intros [->|Hi]%elem_of_cons; [|by apply IH1]. rewrite IH2 by done. rewrite Ew. apply alert_one_row.
  - intros [Hi1 Hi2]%not_elem_of_cons s. rewrite IH2 by done. rewrite Ew. apply alert_one_other. naive_solver.
Qed.

Lemma alert_loop_destinations l : ∀ rep w i,
  option_Forall2 same_subscription (destinations (aw_db w) !! i)
    (destinations (aw_db (alert_loop mail_ok input now l rep w).2) !! i).
Proof.
  induction l as [|d l IH]; intros rep w i; cbn [alert_loop].
  { cbn [snd]. destruct (destinations (aw_db w) !! i); constructor; repeat split. }
  pose proof (alert_one_destinations mail_ok input now d rep w i) as H1.
  destruct (alert_one mail_ok input now d rep w) as [rep' w'] eqn:E. specialize (IH rep' w' i). cbn in H1.
  destruct H1; inversion IH; subst; constructor. unfold same_subscription in *. naive_solver congruence.
Qed.
End loop.

(** ** What an alert sends *)

Section alert_facts.
  Context (mail_ok : string → bool) (order : list (string * Destination.t) → list (string * Destination.t))
    (Horder : ∀ l, order l ≡ₚ l) (input : AlertInput) (now : Z).

Lemma candidates_elem db i d :
  (i, d) ∈ candidates order input db ↔ destinations db !! i = Some d ∧ wants input d = true.
Proof.
  unfold candidates. rewrite Horder, elem_of_map_to_list, map_lookup_filter_Some. done.
Qed.
Lemma candidates_nodup db : NoDup (candidates order input db).*1.
Proof. unfold candidates. rewrite Horder. apply NoDup_fst_map_to_list. Qed.

(** Nothing holds a message about the subject back. *)
Definition due (db : Db) (i : string) : Prop :=
  (urgent (al_event input) = true ∨ inQuietHours now = false)
  ∧ ∀ r, dispatches db !! (i, al_subject input) = Some r → (GROUPING_WINDOW_MS <= now - Dispatch.lastAt r)%Z.
(** How often the message says it happened. *)
Definition reported (db : Db) (i : string) : Z :=
  if dispatches db !! (i, al_subject input) is Some r then (Dispatch.occurrences r + 1)%Z else 1%Z.

Lemma turn_mail_spec i d w m : wants input d = true →
  m ∈ turn_mail mail_ok input now (i, d) w ↔
  due (aw_db w) i ∧ mail_ok i = true ∧ m = MkAlertMail i (al_subject input) (reported (aw_db w) i) now.
Proof.
  unfold wants. intros Hw. bprop. unfold turn_mail. cbn [fst snd].
  set (previous := dispatches (aw_db w) !! (i, al_subject input)).
  destruct (shouldSend _ _ _ _ _ _) as [r|r] eqn:E.
  - assert (due (aw_db w) i) as Hdue.
    { destruct (proj1 (shouldSend_spec _ _ _ _ _ _) (ex_intro _ r E)) as (_ & _ & Hq & Hp).
      split; [done|]. intros x Hx. fold previous in Hx. apply (Hp (MkLast (al_subject input) (Dispatch.lastAt x) (Dispatch.sentAt x))); [|done].
      by rewrite Hx. }
    destruct (mail_ok i); [|set_solver]. rewrite list_elem_of_singleton. unfold reported. fold previous. naive_solver.
  - split; [by intros ?%not_elem_of_nil|]. intros ([Hq Hp] & _). exfalso.
    destruct (proj2 (shouldSend_spec (Destination.status d) (Destination.events d) (al_event input) (al_subject input)
      ((λ r, MkLast (al_subject input) (Dispatch.lastAt r) (Dispatch.sentAt r)) <$> previous) now)) as [r' E']; [|congruence].
    split_and!; [done|done|done|]. intros p (x & Hx & ->)%fmap_Some _. by apply Hp.
Qed.

Lemma alert_mail w :
  (∃ mails, aw_sent (alert mail_ok order input now w).2 = aw_sent w ++ mails
     ∧ NoDup (map am_destination mails)
     ∧ (∀ m, m ∈ mails ↔ ∃ i d, destinations (aw_db w) !! i = Some d ∧ wants input d = true
          ∧ due (aw_db w) i ∧ mail_ok i = true
          ∧ m = MkAlertMail i (al_subject input) (reported (aw_db w) i) now)).
Proof.
  eexists. split; [unfold alert; apply alert_loop_sent, candidates_nodup|]. split.
  - pose proof (candidates_nodup (aw_db w)) as Hn.
    assert (∀ d, d ∈ candidates order input (aw_db w) → wants input d.2 = true) as Hw
      by (intros [i d] [_ ?]%candidates_elem; done).
    induction (candidates order input (aw_db w)) as [|d l IH]; cbn [map concat]; [constructor|].
    apply NoDup_cons in Hn as [Hd Hn]. rewrite map_app. apply NoDup_app. split_and!.
    + unfold turn_mail. destruct (shouldSend _ _ _ _ _ _); [destruct (mail_ok d.1)|]; repeat constructor; set_solver.
    + intros i (x & -> & Hx)%list_elem_of_fmap (y & E & Hy)%list_elem_of_fmap.
      apply list_elem_of_In, in_concat in Hy as (z & (e & <- & He)%in_map_iff & Hy).
      apply list_elem_of_In in He, Hy. destruct d as [i d], e as [j e].
      apply turn_mail_spec in Hx as (_ & _ & ->); [|apply (Hw (i, d)); by left].
      apply turn_mail_spec in Hy as (_ & _ & ->); [|apply (Hw (j, e)); by right]. cbn in E. subst j.
      apply Hd. apply list_elem_of_fmap. by exists (i, e).
    + apply IH; [done|]. intros x Hx. apply Hw. by right.
  - intros m. rewrite list_elem_of_In, in_concat. split.
    + intros (z & ([i d] & <- & He)%in_map_iff & Hm). apply list_elem_of_In in He, Hm.
      apply candidates_elem in He as [Hi Hw]. apply turn_mail_spec in Hm as (H1 & H2 & ->); [|done].
      by exists i, d.
    + intros (i & d & Hi & Hw & H1 & H2 & ->). exists (turn_mail mail_ok input now (i, d) w). split.
      * apply in_map_iff. exists (i, d). split; [done|]. by apply list_elem_of_In, candidates_elem.
      * apply list_elem_of_In. by apply turn_mail_spec.
Qed.
End alert_facts.

(** C15. Who an alert reaches.  A destination is sent a message exactly when it belongs
    to the project, somebody has confirmed it, it asked for this kind of event,
    the same subject did not last occur within the grouping window, and it is not
    quiet hours unless the event is urgent (and the mailer accepts it); no
    destination is sent two.  The message reports one occurrence for a new
    subject, and one more than the grouping row counts otherwise. *)
Theorem alert_reaches (mail_ok : string → bool)
    (order : list (string * Destination.t) → list (string * Destination.t)) (Horder : ∀ l, order l ≡ₚ l)
    (input : AlertInput) (now : Z) (w : AlertWorld) :
  ∃ mails, aw_sent (alert mail_ok order input now w).2 = aw_sent w ++ mails
    ∧ NoDup (map am_destination mails)
    ∧ (∀ m, m ∈ mails → am_occurrences m = reported input (aw_db w) (am_destination m))
    ∧ (∀ i, i ∈ map am_destination mails ↔
        mail_ok i = true ∧ ∃ d, destinations (aw_db w) !! i = Some d
          ∧ Destination.projectId d = al_projectId input
          ∧ Destination.status d = NotificationStatus.confirmed
          ∧ event_name (al_event input) ∈ Destination.events d
          ∧ due input now (aw_db w) i).
Proof.
  destruct (alert_mail mail_ok order Horder input now w) as (mails & E & Hn & Hm).
  exists mails. split_and!; [done|done| |].
  - intros m (i & d & _ & _ & _ & _ & ->)%Hm. done.
  - intros i. rewrite list_elem_of_fmap. unfold wants in Hm. split.
    + intros (m & -> & (j & d & Hd & Hw & Hdue & Hok & ->)%Hm). bprop. split; [done|]. by exists d.
    + intros (Hok & d & Hd & Hp & Hs & He & Hdue).
      exists (MkAlertMail i (al_subject input) (reported input (aw_db w) i) now). split; [done|].
      apply Hm. exists i, d. rewrite !bool_decide_eq_true_2 by done. done.
Qed.

(** The same thing happening again and again. *)
Definition alerts (mail_ok : string → bool) (order : list (string * Destination.t) → list (string * Destination.t))
    (input : AlertInput) (times : list Z) (w : AlertWorld) : AlertWorld :=
  foldl (λ w t, (alert mail_ok order input t w).2) w times.
(** Each time less than a window after the one before. *)
Fixpoint close (t0 : Z) (times : list Z) : Prop :=
  match times with
  | [] => True
  | t :: times => (t - t0 < GROUPING_WINDOW_MS)%Z ∧ close t times
  end.

(** A subject that keeps occurring stays silent: the grouping window is measured
    from the last occurrence, which every repetition moves, and not from the last
    message.  Once a subject has a grouping row, a destination is told nothing
    about it for as long as it recurs more often than the window, however long
    that lasts, and whether or not the destination was ever told. *)
Theorem repeats_stay_silent (mail_ok : string → bool)
    (order : list (string * Destination.t) → list (string * Destination.t)) (Horder : ∀ l, order l ≡ₚ l)
    (input : AlertInput) (times : list Z) (w : AlertWorld) (i : string) (d : Destination.t) (r : Dispatch.t)
    (Hd : destinations (aw_db w) !! i = Some d) (Hwants : wants input d = true)
    (Hrow : dispatches (aw_db w) !! (i, al_subject input) = Some r)
    (Hclose : close (Dispatch.lastAt r) times) (m : AlertMail)
    (Hm : m ∈ aw_sent (alerts mail_ok order input times w)) (Hto : am_destination m = i) :
  m ∈ aw_sent w.
Proof.
  revert w d r Hd Hwants Hrow Hclose Hm. induction times as [|t times IH]; intros w d r Hd Hwants Hrow Hclose Hm;
    [exact Hm|]. destruct Hclose as [Ht Hclose]. cbn [alerts foldl] in Hm.
  destruct (alert_mail mail_ok order Horder input t w) as (mails & E & _ & Hmails).
  pose proof (alert_loop_destinations mail_ok input t (candidates order input (aw_db w)) no_report w i) as Hd'.
  destruct (alert_loop_row mail_ok input t (candidates order input (aw_db w)) i
              (candidates_nodup order Horder input (aw_db w)) no_report w) as [Hr' _].
  fold (alert mail_ok order input t w) in Hd', Hr'. rewrite Hd in Hd'.
  inversion Hd' as [x d' Hsame Ex Ed'|]; subst x.
  destruct Hr' as (r' & Hr' & El).
  { apply list_elem_of_fmap. exists (i, d). split; [done|]. by apply candidates_elem. }
  assert (m ∈ aw_sent (alert mail_ok order input t w).2) as Hm'.
  { apply (IH _ d' r'); [done| |done|by rewrite El|exact Hm].
    unfold wants in *. destruct Hsame as (<- & <- & <- & _). done. }
  rewrite E in Hm'. apply elem_of_app in Hm' as [Hm'|Hm']; [done|]. exfalso.
  apply Hmails in Hm' as (j & dj & _ & _ & [_ Hdue] & _ & ->). cbn in Hto. subst j.
  specialize (Hdue r Hrow). lia.
Qed.

(** ** A night *)

Definition night_input : AlertInput := MkAlert "p1" delivery_exhausted (js "endpoint:ep_1:exhausted").
Definition oncall : Destination.t :=
  Destination.mk "p1" NotificationKind.email (js "oncall@x.io") (js "oncall") NotificationStatus.confirmed
    ["delivery.exhausted"] (Some 1%Z) None None None None 0.
Definition quiet_world : AlertWorld := MkWorld (upd_destinations (λ _, {["n1" := oncall]}) empty_db) [].
(** Ten to seven: held. *)
Definition held_world : AlertWorld := (alert (λ _, true) id night_input 24600000 quiet_world).2.

(** The alert held at 06:50 is never delivered, because its repetition at 07:10,
    when it may be sent, is grouped with it. *)
Lemma repeats_stay_silent_witness :
  ar_held (alert (λ _, true) id night_input 24600000 quiet_world).1 = 1
  ∧ inQuietHours 25800000 = false
  ∧ aw_sent held_world = []
  ∧ aw_sent (alerts (λ _, true) id night_input [25800000; 27000000]%Z held_world) = [].
Proof.
  split; [vm_compute; reflexivity|]. split; [vm_compute; reflexivity|]. split; [vm_compute; reflexivity|].
  destruct (aw_sent (alerts (λ _, true) id night_input [25800000; 27000000]%Z held_world)) as [|m l] eqn:E;
    [reflexivity|]. exfalso.
  assert (m ∈ aw_sent held_world) as H.
  { eapply (repeats_stay_silent (λ _, true) id (λ l, Permutation_refl l) night_input [25800000; 27000000]%Z held_world
      "n1" oncall).
    - vm_compute. reflexivity.
    - vm_compute. reflexivity.
    - vm_compute. reflexivity.
    - vm_compute. repeat split; reflexivity.
    - rewrite E. left.
    - revert E. vm_compute. intros E. discriminate E. }
  vm_compute in H. apply not_elem_of_nil in H. exact H.
Defined.

Definition told_world : AlertWorld := (alert (λ _, true) id night_input 36000000 quiet_world).2.
Lemma alert_reaches_witness :
  aw_sent told_world = [MkAlertMail "n1" (js "endpoint:ep_1:exhausted") 1 36000000]
  ∧ ∃ mails, aw_sent (alert (λ _, true) id night_input 37800000 told_world).2 = aw_sent told_world ++ mails
      ∧ (∀ m, m ∈ mails → am_occurrences m = reported night_input (aw_db told_world) (am_destination m))
      ∧ reported night_input (aw_db told_world) "n1" = 2%Z.
Proof.
  split; [vm_compute; reflexivity|].
  destruct (alert_reaches (λ _, true) id (λ l, Permutation_refl l) night_input 37800000 told_world) as (mails & E & _ & Ho & _).
  exists mails. split; [exact E|]. split; [exact Ho|vm_compute; reflexivity].
Defined.
