(* ===== verification/Destinations.v ===== *)
(** Notification destinations: notifications/mailbox.ts,
    notification-destinations/notification-destinations.service.ts and
    notification-confirmation.service.ts.

    The confirmation token and its hash, String.prototype.toLowerCase, the clock and
    whether the mailer accepts a message are arguments.  The state is the one of the
    alerts, a database and the alerts sent, with the messages the requests send:
    confirmations and tests. *)
From Stdlib Require Import ZArith Lia.
From S2P Require Import Prelude Js Permissions RetryRules AuditTrail Db Scope TenantScope Members NotificationRules Alerts.

(** ** Mailboxes *)

Record Mailbox : Type := MkMailbox { mb_name : option jsstr; mb_address : jsstr }.

(** [[^\s<>@,;]] and the double quote *)
Definition address_char (c : N) : bool :=
  negb (is_ws c || (c =? 60) || (c =? 62) || (c =? 64) || (c =? 44) || (c =? 59) || (c =? 34))%N.
Definition ADDRESS (s : jsstr) : bool :=
  match split 64 s with
  | [user; host] => all_plus address_char user && all_plus address_char host
  | _ => false
  end.

Definition is_line_end (c : N) : bool := ((c =? 10) || (c =? 13) || (c =? 8232) || (c =? 8233))%N.
Definition no_angle (c : N) : bool := negb ((c =? 60) || (c =? 62))%N.
Definition trimEnd (s : jsstr) : jsstr := reverse (trimStart (reverse s)).

(** Up to the last [<]: what is before it and what is after it. *)
Fixpoint cut_last_angle (rev_before : jsstr) (after : jsstr) : option (jsstr * jsstr) :=
  match rev_before with
  | [] => None
  | c :: rest => if (c =? 60)%N then Some (reverse rest, after) else cut_last_angle rest (c :: after)
  end.
(** [/^(.*?)\s*<([^<>]+)>$/]: the shortest name, the address *)
Definition NAMED (s : jsstr) : option (jsstr * jsstr) :=
  match reverse s with
  | 62%N :: rev_body =>
      match cut_last_angle rev_body [] with
      | Some (before, inside) =>
          if all_plus no_angle inside && negb (existsb is_line_end (trimEnd before))
          then Some (trimEnd before, inside) else None
      | None => None
      end
  | _ => None
  end.

(** [.replace(/^"(.*)"$/, '$1')] on a name without line ends *)
Definition unquote (s : jsstr) : jsstr :=
  match s with
  | 34%N :: s' => match reverse s' with 34%N :: inner => reverse inner | _ => s end
  | _ => s
  end.

Definition parseMailbox (value : jsstr) : option Mailbox :=
  let trimmed := trim value in
  match NAMED trimmed with
  | Some (n, a) =>
      let address := trim a in
      if negb (ADDRESS address) then None
      else
        let name := trim (unquote (trim n)) in
        Some (MkMailbox (if name is [] then None else Some name) address)
  | None => if ADDRESS trimmed then Some (MkMailbox None trimmed) else None
  end.

(** ** The service *)

Definition CONFIRMATION_TTL_MS : Z := 7 * 24 * 3600000.
Definition MAX_DESTINATIONS_PER_PROJECT : Z := 20.

Record CreateDestinationDto : Type := MkCreateDestination {
  cd_kind : string; cd_target : jsstr; cd_label : option jsstr; cd_events : option (list string)
}.
Record UpdateDestinationDto : Type := MkUpdateDestination {
  ud_label : option jsstr; ud_events : option (list string)
}.
Record DestinationDto : Type := MkDestinationDto {
  dd_id : string; dd_project_id : string; dd_kind : NotificationKind.t; dd_target : jsstr; dd_label : jsstr;
  dd_status : NotificationStatus.t; dd_events : list string; dd_confirmed_at : option jsstr;
  dd_last_sent_at : option jsstr; dd_last_error : option jsstr; dd_created_at : jsstr
}.
Definition toDestinationDto (id : string) (d : Destination.t) : DestinationDto :=
  MkDestinationDto id (Destination.projectId d) (Destination.kind d) (Destination.target d) (Destination.label d)
    (Destination.status d) (Destination.events d) (toISOString <$> Destination.confirmedAt d)
    (toISOString <$> Destination.lastSentAt d) (Destination.lastError d) (toISOString (Destination.createdAt d)).

(** A Set keeps the first of equal elements, in order. *)
Fixpoint valid_events (events seen : list string) : result (list string) :=
  match events with
  | [] => Ok seen
  | e :: events =>
      if negb (isNotificationEvent e) then throw invalid_request "is not a notification event."
      else valid_events events (if bool_decide (e ∈ seen) then seen else seen ++ [e])
  end.
Definition validateEvents (events : option (list string)) : result (list string) :=
  match events with
  | None => Ok NOTIFICATION_EVENT_NAMES
  | Some events => valid_events events []
  end.

Definition translateDuplicate (e : app_error) : app_error :=
  if uniqueViolationTarget e is Some _
  then AppError conflict "is already a destination for this project." else e.

(** A message a request sends: the link that asks for consent, or a test alert. *)
Inductive RequestMail : Type :=
| ConfirmationMail (destination : string) (to rawToken : jsstr) (at_ : Z)
| TestMail (destination : string) (to : jsstr) (at_ : Z).
Record DestWorld : Type := MkDestWorld { dw_alerts : AlertWorld; dw_posted : list RequestMail }.
Definition dw_db (w : DestWorld) : Db := aw_db (dw_alerts w).

(** A statement of the database; a message the mailer accepts. *)
Definition db_part {A} (m : M Db A) : M DestWorld A := λ w,
  let '(r, db') := m (dw_db w) in (r, MkDestWorld (MkWorld db' (aw_sent (dw_alerts w))) (dw_posted w)).
Definition post (m : RequestMail) : M DestWorld unit := modify (λ w, MkDestWorld (dw_alerts w) (dw_posted w ++ [m])).

Section Destinations.
  Context (hashToken : jsstr → jsstr) (toLowerCase : jsstr → jsstr) (order : list (string * Destination.t) → list (string * Destination.t)) (c : Ctx).

Definition dest_list : M Db (list DestinationDto * bool * option Z) :=
  rows ← findAll c (λ _ (_ : Destination.t), true);
  let page := findPage (order rows) (Some (int MAX_DESTINATIONS_PER_PROJECT)) None in
  mret (map (λ kv, toDestinationDto kv.1 kv.2) (p_rows page), p_hasMore page, p_nextSkip page).

Definition assertRoom : M Db unit :=
  current ← count (R:=Destination.t) c (λ _ _, true);
  guardM (negb (current <? MAX_DESTINATIONS_PER_PROJECT)%Z) limit_exceeded "which is the maximum.".

Definition SEND_FAILED : jsstr := js "The confirmation message could not be sent. Try resending it.".

(** A failure is recorded on the row, not raised. *)
Definition sendConfirmation (id : string) (destination : Destination.t) (raw : jsstr) (mail_ok : bool) (now : Z) : M DestWorld unit :=
  if mail_ok && (if ctx_project c is Some _ then true else false)
  then post (ConfirmationMail id (Destination.target destination) raw now)
  else
    _ ← db_part (safely (updateById c id (Destination.set_lastError (Some SEND_FAILED))));
    mret tt.

Definition new_destination (target label : jsstr) (events : list string) (hash : jsstr) (now : Z) (t : TenantColumns)
    : Destination.t :=
  Destination.mk (tc_project t) NotificationKind.email target label NotificationStatus.pending events None
    (Some hash) (Some (now + CONFIRMATION_TTL_MS)%Z) None None now.

Definition destination_label (label : option jsstr) (target : jsstr) : jsstr :=
  match trim <$> label with Some ((_ :: _) as l) => l | _ => target end.

Definition insert_destination (id : string) (mk : TenantColumns → Destination.t) : M Db Destination.t := λ db,
  match create c id mk db with
  | (Throw e, db') => (Throw (translateDuplicate e), db')
  | r => r
  end.

Definition dest_create (dto : CreateDestinationDto) (id : string) (raw : jsstr) (mail_ok : bool) (now : Z)
    : M DestWorld DestinationDto :=
  _ ← guardM (negb (bool_decide (cd_kind dto = "email"))) invalid_request
        "Only 'email' destinations can be created today.";
  match parseMailbox (cd_target dto) with
  | None => throwM invalid_request "is not a valid email address."
  | Some mailbox =>
      let target := toLowerCase (mb_address mailbox) in
      _ ← db_part assertRoom;
      events ← lift (validateEvents (cd_events dto));
      created ← db_part (insert_destination id
        (new_destination target (destination_label (cd_label dto) target) events (hashToken raw) now));
      _ ← db_part (recordFor c "notification_destination.created" "notification_destination" (Some id)
            [(js "kind", MStr (js "email")); (js "events", MArr (map (λ e, MStr (js e)) (Destination.events created)))]);
      _ ← sendConfirmation id created raw mail_ok now;
      mret (toDestinationDto id created)
  end.

Definition apply_update (label : option jsstr) (events : option (list string)) (d : Destination.t) : Destination.t :=
  let d := if label is Some l then Destination.set_label l d else d in
  if events is Some e then Destination.set_events e d else d.

Definition dest_update (id : string) (dto : UpdateDestinationDto) : M Db DestinationDto :=
  events ← lift (match ud_events dto with
                 | None => Ok None
                 | Some e => es ← validateEvents (Some e); Ok (Some es)
                 end);
  let label := trim <$> ud_label dto in
  _ ← guardM (bool_decide (label = None) && bool_decide (events = None)) invalid_request
        "Supply at least one of label or events.";
  updated ← updateById c id (apply_update label events);
  _ ← recordFor c "notification_destination.updated" "notification_destination" (Some id)
        [(js "events", MArr (map (λ e, MStr (js e)) (Destination.events updated)))];
  mret (toDestinationDto id updated).

Definition dest_remove (id : string) : M Db unit :=
  _ ← requireById (R:=Destination.t) c id;
  _ ← deleteById (R:=Destination.t) c id;
  recordFor c "notification_destination.deleted" "notification_destination" (Some id) [].

Definition reissue (hash : jsstr) (now : Z) (d : Destination.t) : Destination.t :=
  Destination.set_confirmationExpiresAt (Some (now + CONFIRMATION_TTL_MS)%Z)
    (Destination.set_confirmationTokenHash (Some hash) d).

Definition resend (id : string) (raw : jsstr) (mail_ok : bool) (now : Z) : M DestWorld DestinationDto :=
  destination ← db_part (requireById (R:=Destination.t) c id);
  _ ← guardM (bool_decide (Destination.status destination = NotificationStatus.confirmed)) conflict
        "This address is already confirmed. Nothing to send.";
  updated ← db_part (updateById_unique c id (reissue (hashToken raw) now));
  _ ← sendConfirmation id updated raw mail_ok now;
  mret (toDestinationDto id updated).

(** The mailer's failure, unlike above, is the caller's. *)
Definition test (id : string) (mail_ok : bool) (now : Z) : M DestWorld unit :=
  destination ← db_part (requireById (R:=Destination.t) c id);
  _ ← guardM (negb (bool_decide (Destination.status destination = NotificationStatus.confirmed))) conflict
        "This address has not been confirmed yet, so nothing can be sent to it.";
  _ ← lift (requireProject c);
  _ ← guardM (negb mail_ok) internal_error "the mailer failed";
  _ ← post (TestMail id (Destination.target destination) now);
  _ ← db_part (updateById c id (Destination.set_lastSentAt (Some now)));
  mret tt.
End Destinations.

(** ** Confirmation *)

Section Confirmation.
  Context (hashToken : jsstr → jsstr).

Definition INVALID_CONFIRMATION : string := "This confirmation link is not valid.".

(** [findUnique({ where: { confirmationTokenHash: hash } })] *)
Definition by_confirmation (db : Db) (hash : jsstr) : option (string * Destination.t) :=
  head (map_to_list (filter (λ kv, Destination.confirmationTokenHash kv.2 = Some hash) (destinations db))).

Definition expired (d : Destination.t) (now : Z) : bool :=
  if Destination.confirmationExpiresAt d is Some t then (t <=? now)%Z else false.
Definition confirmed_row (now : Z) (d : Destination.t) : Destination.t :=
  Destination.set_confirmationExpiresAt None (Destination.set_confirmationTokenHash None
    (Destination.set_confirmedAt (Some now) (Destination.set_status NotificationStatus.confirmed d))).

Definition confirm (rawToken : jsstr) (now : Z) : M Db (option jsstr * jsstr) :=
  destination ← gets (λ db, by_confirmation db (hashToken rawToken));
  match destination with
  | None => throwM invalid_request INVALID_CONFIRMATION
  | Some (id, d) =>
      _ ← guardM (expired d now) invalid_request INVALID_CONFIRMATION;
      _ ← modify (upd_destinations (alter (confirmed_row now) id));
      project ← gets (λ db, projects db !! Destination.projectId d);
      mret (Project.name <$> project, Destination.target d)
  end.
End Confirmation.

(** The regular expressions on a few addresses. *)
Example mailbox_bare : parseMailbox (js " oncall@x.io ") = Some (MkMailbox None (js "oncall@x.io")).
Proof. vm_compute. reflexivity. Qed.
Example mailbox_named : parseMailbox (js "On Call <oncall@x.io>") = Some (MkMailbox (Some (js "On Call")) (js "oncall@x.io")).
Proof. vm_compute. reflexivity. Qed.
Example mailbox_list : parseMailbox (js "a@x.io,b@x.io") = None.
Proof. vm_compute. reflexivity. Qed.

(** ** How a destination comes to be confirmed *)

(** No row becomes confirmed. *)
Definition none_confirmed (db db' : Db) : Prop :=
  ∀ i d', destinations db' !! i = Some d' → Destination.status d' = NotificationStatus.confirmed →
  ∃ d, destinations db !! i = Some d ∧ Destination.status d = NotificationStatus.confirmed.
#[export] Instance none_confirmed_preorder : PreOrder none_confirmed.
Proof.
  split; [intros db i d H1 H2; by exists d|]. intros a b d H1 H2 i d' Hd Hs.
  destruct (H2 i d' Hd Hs) as (d1 & Hd1 & Hs1). by apply (H1 i d1).
Qed.

Lemma rows_kept_none (f : gmap string Destination.t → gmap string Destination.t) :
  (∀ db i d', f (destinations db) !! i = Some d' → Destination.status d' = NotificationStatus.confirmed →
     ∃ d, destinations db !! i = Some d ∧ Destination.status d = NotificationStatus.confirmed) →
  Respects none_confirmed (modify (upd_destinations f)).
Proof. intros H db i d'. cbn. apply H. Qed.

Lemma updateMany_none c p f : (∀ d, Destination.status (f d) = Destination.status d) →
  Respects none_confirmed (updateMany (R:=Destination.t) c p f).
Proof.
  intros Hf db i d'. rewrite updateMany_run. cbn. rewrite update_rows_lookup.
  intros (d & Hd & ->)%fmap_Some Hs. exists d. split; [done|]. destruct (_ && _); [by rewrite Hf in Hs|done].
Qed.
Lemma requireById_none c i : Respects none_confirmed (requireById (R:=Destination.t) c i).
Proof. unfold requireById, findById. respects. Qed.
Lemma updateById_none c i f : (∀ d, Destination.status (f d) = Destination.status d) →
  Respects none_confirmed (updateById (R:=Destination.t) c i f).
Proof.
  intros Hf. unfold updateById. respects; [by apply updateMany_none|apply requireById_none].
Qed.
Lemma updateById_unique_none c i f : (∀ d, Destination.status (f d) = Destination.status d) →
  Respects none_confirmed (updateById_unique (R:=Destination.t) c i f).
Proof. intros Hf. unfold updateById_unique. respects. by apply updateById_none. Qed.
Lemma deleteById_none c i : Respects none_confirmed (deleteById (R:=Destination.t) c i).
Proof.
  unfold deleteById, deleteMany, count. respects.
  - intros db j d'. cbn. intros [Hd _]%lookup_difference_Some Hs. by exists d'.
  - by intros db j d' Hd Hs; exists d'.
Qed.
Lemma create_none c i mk : (∀ t, Destination.status (mk t) = NotificationStatus.pending) →
  Respects none_confirmed (insert_destination c i mk).
Proof.
  intros Hmk db. unfold insert_destination. destruct (create c i mk db) as [[r|e] db'] eqn:E; cbn [snd].
  - apply create_Ok in E as (t & _ & _ & _ & _ & _ & ->). intros j d'. cbn.
    destruct (decide (j = i)) as [->|Hj].
    + rewrite lookup_insert_eq. intros [= <-]. by rewrite Hmk.
    + rewrite lookup_insert_ne by done. intros Hd Hs. by exists d'.
  - by apply create_Throw in E as ->.
Qed.
Lemma recordFor_none c a ty i md : Respects none_confirmed (recordFor c a ty i md).
Proof. unfold recordFor. intros db j d' Hd Hs. by exists d'. Qed.
Lemma safely_none {A} (m : M Db A) : Respects none_confirmed m → Respects none_confirmed (safely m).
Proof. intros H db. specialize (H db). unfold safely. by destruct (m db) as [[] ?]. Qed.
#[export] Hint Resolve requireById_none deleteById_none recordFor_none : respects.

(** The same for a request. *)
Definition none_confirmed_in (w w' : DestWorld) : Prop := none_confirmed (dw_db w) (dw_db w').
#[export] Instance none_confirmed_in_preorder : PreOrder none_confirmed_in.
Proof. split; [intros w; unfold none_confirmed_in; reflexivity|]. intros a b d Hab Hbd. unfold none_confirmed_in. by transitivity (dw_db b). Qed.
Lemma db_part_none {A} (m : M Db A) : Respects none_confirmed m → Respects none_confirmed_in (db_part m).
Proof. intros H w. specialize (H (dw_db w)). unfold db_part, none_confirmed_in. by destruct (m (dw_db w)). Qed.
Lemma post_none m : Respects none_confirmed_in (post m).
Proof. intros w. unfold none_confirmed_in. cbn. reflexivity. Qed.
Lemma sendConfirmation_none c i d raw ok now : Respects none_confirmed_in (sendConfirmation c i d raw ok now).
Proof.
  unfold sendConfirmation. destruct (_ && _); [apply post_none|]. respects.
  apply db_part_none, safely_none. by apply updateById_none.
Qed.
#[export] Hint Resolve sendConfirmation_none post_none : respects.

(** ** The mail of a request *)

Lemma db_part_bind {A B} (m : M Db A) (f : A → M DestWorld B) w :
  (db_part m ≫= f) w
  = match m (dw_db w) with
    | (Ok a, db') => f a (MkDestWorld (MkWorld db' (aw_sent (dw_alerts w))) (dw_posted w))
    | (Throw e, db') => (Throw e, MkDestWorld (MkWorld db' (aw_sent (dw_alerts w))) (dw_posted w))
    end.
Proof. unfold mbind, M_bind, db_part. by destruct (m (dw_db w)) as [[] ?]. Qed.
Lemma lift_bind {A B} (r : result A) (f : A → M DestWorld B) w :
  (lift r ≫= f) w = match r with Ok a => f a w | Throw e => (Throw e, w) end.
Proof. by destruct r. Qed.

Lemma bind_mret_snd {A B} (m : M DestWorld A) (b : B) w : ((m ≫= λ _, mret b) w).2 = (m w).2.
Proof. unfold mbind, M_bind. by destruct (m w) as [[] ?]. Qed.

(** No message but those listed, none of which is an alert. *)
Definition posts (w w' : DestWorld) (ms : list RequestMail) : Prop :=
  aw_sent (dw_alerts w') = aw_sent (dw_alerts w) ∧ dw_posted w' = dw_posted w ++ ms.
Lemma posts_none w db : posts w (MkDestWorld (MkWorld db (aw_sent (dw_alerts w))) (dw_posted w)) [].
Proof. split; cbn; [done|by rewrite app_nil_r]. Qed.

Lemma sendConfirmation_posts c i d raw ok now w :
  let w' := (sendConfirmation c i d raw ok now w).2 in
  posts w w' [] ∨ posts w w' [ConfirmationMail i (Destination.target d) raw now] ∧ dw_db w' = dw_db w.
Proof.
  cbv zeta. unfold sendConfirmation. destruct (_ && _); [right; by split|left].
  rewrite db_part_bind. by destruct (safely _ _) as [[] ?]; apply posts_none.
Qed.

(** A request to open a link: the row it was sent for, as it then is. *)
Definition asked (hashToken : jsstr → jsstr) (db : Db) (i : string) (to raw : jsstr) : Prop :=
  ∃ d, destinations db !! i = Some d ∧ Destination.status d ≠ NotificationStatus.confirmed
    ∧ Destination.target d = to ∧ Destination.confirmationTokenHash d = Some (hashToken raw).

Section posting.
  Context (hashToken lower : jsstr → jsstr) (c : Ctx).

Lemma create_posts dto id raw ok now w (w' := (dest_create hashToken lower c dto id raw ok now w).2) :
  posts w w' [] ∨ ∃ to, posts w w' [ConfirmationMail id to raw now] ∧ asked hashToken (dw_db w') id to raw.
Proof.
  subst w'. assert (posts w w []) as Hw by (split; [done|by rewrite app_nil_r]). unfold dest_create, guardM. rewrite lift_bind.
  destruct (throw_if _ _ _); [|by left]. destruct (parseMailbox _) as [mb|]; [|by left]. rewrite db_part_bind.
  destruct (assertRoom c (dw_db w)) as [[u|e] db1] eqn:E1; [|left; apply posts_none]. rewrite lift_bind.
  destruct (validateEvents _); [|left; apply posts_none]. rewrite db_part_bind. cbn [dw_db dw_alerts aw_db aw_sent dw_posted].
  unfold insert_destination. destruct (create c id _ db1) as [[d|e] db2] eqn:E2; [|left; apply posts_none].
  apply create_Ok in E2 as (t & _ & Hd & _ & _ & _ & Hdb2). rewrite db_part_bind.
  unfold recordFor. cbn [modify dw_db dw_alerts aw_db aw_sent dw_posted].
  set (w1 := MkDestWorld _ (dw_posted w)).
  pose proof (sendConfirmation_posts c id d raw ok now w1) as Hs. cbv zeta in Hs.
  rewrite bind_mret_snd. destruct Hs as [[Ha Hp]|[[Ha Hp] Hdb]]; [left; split; [exact Ha|exact Hp]|right].
  exists (Destination.target d). split; [split; [exact Ha|exact Hp]|]. unfold asked. rewrite Hdb. exists d. subst w1. cbn.
  rewrite Hdb2. cbn. rewrite lookup_insert_eq, Hd. done.
Qed.

Lemma resend_posts id raw ok now w (w' := (resend hashToken c id raw ok now w).2) :
  posts w w' [] ∨ ∃ to, posts w w' [ConfirmationMail id to raw now] ∧ asked hashToken (dw_db w') id to raw.
Proof.
  subst w'. unfold resend. rewrite db_part_bind.
  destruct (requireById c id (dw_db w)) as [[d|e] db1] eqn:E1; [|left; apply posts_none]. unfold guardM. rewrite lift_bind.
  apply requireById_Ok in E1 as [Hf ->]. case_bool_decide as Hst; [left; apply posts_none|]. cbn [throw_if]. rewrite db_part_bind.
  cbn [dw_db dw_alerts aw_db aw_sent dw_posted].
  destruct (updateById_unique c id (reissue (hashToken raw) now) (dw_db w)) as [[d'|e] db2] eqn:E2; [|left; apply posts_none].
  apply updateById_unique_Ok in E2 as (d0 & Hf0 & -> & _ & Hdb2). rewrite Hf in Hf0. injection Hf0 as <-.
  set (w1 := MkDestWorld _ (dw_posted w)).
  pose proof (sendConfirmation_posts c id (reissue (hashToken raw) now d) raw ok now w1) as Hs. cbv zeta in Hs.
  rewrite bind_mret_snd. destruct Hs as [[Ha Hp]|[[Ha Hp] Hdb]]; [left; split; [exact Ha|exact Hp]|right].
  exists (Destination.target d). split; [split; [exact Ha|exact Hp]|]. unfold asked. rewrite Hdb.
  exists (reissue (hashToken raw) now d). subst w1. cbn. rewrite Hdb2. cbn. apply find_Some in Hf as [Hf Ht]. cbn in Hf.
  rewrite update_rows_lookup. cbn. rewrite Hf. cbn. rewrite Ht, bool_decide_eq_true_2 by done. done.
Qed.

Lemma test_posts id ok now w (w' := (test c id ok now w).2) :
  posts w w' [] ∨ ∃ d, posts w w' [TestMail id (Destination.target d) now]
    ∧ destinations (dw_db w) !! id = Some d ∧ Destination.status d = NotificationStatus.confirmed.
Proof.
  subst w'. unfold test. rewrite db_part_bind.
  destruct (requireById c id (dw_db w)) as [[d|e] db1] eqn:E1; [|left; apply posts_none]. unfold guardM. rewrite lift_bind.
  apply requireById_Ok in E1 as [Hf ->]. apply find_Some in Hf as [Hf _]. cbn in Hf.
  case_bool_decide as Hst; cbn [negb throw_if]; [|left; apply posts_none]. rewrite lift_bind.
  destruct (requireProject c); [|left; apply posts_none]. rewrite lift_bind.
  destruct ok; cbn [negb throw_if]; [|left; apply posts_none]. right. exists d. split; [|done].
  unfold post, mbind at 1, M_bind at 1. cbn [modify]. rewrite db_part_bind. by destruct (updateById _ _ _ _) as [[] ?].
Qed.
End posting.

(** What the requests are, with the link they redeem. *)
Inductive dest_label : Type := Redeem (raw : jsstr) (now : Z) | Other.

Section steps.
  Context (hashToken : jsstr → jsstr).

Inductive dest_step : dest_label → DestWorld → DestWorld → Prop :=
| ds_create lower c dto id raw ok now w : dest_step Other w (dest_create hashToken lower c dto id raw ok now w).2
| ds_update c id dto w : dest_step Other w (db_part (dest_update c id dto) w).2
| ds_remove c id w : dest_step Other w (db_part (dest_remove c id) w).2
| ds_resend c id raw ok now w : dest_step Other w (resend hashToken c id raw ok now w).2
| ds_test c id ok now w : dest_step Other w (test c id ok now w).2
| ds_confirm raw now w : dest_step (Redeem raw now) w (db_part (confirm hashToken raw now) w).2.

(** A request of the service, or an alert of the dispatcher. *)
Inductive world_step : dest_label → DestWorld → DestWorld → Prop :=
| ws_request l w w' : dest_step l w w' → world_step l w w'
| ws_alert mail_ok order input now w : (∀ l, order l ≡ₚ l) →
    world_step Other w (MkDestWorld (alert mail_ok order input now (dw_alerts w)).2 (dw_posted w)).

Inductive world_run : list dest_label → DestWorld → DestWorld → Prop :=
| wr_nil w : world_run [] w w
| wr_snoc ls l w mid w' : world_run ls w mid → world_step l mid w' → world_run (ls ++ [l]) w w'.

Lemma step_none w w' : dest_step Other w w' → none_confirmed_in w w'.
Proof.
  intros Hstep. inversion Hstep; subst; clear Hstep.
  - revert w. change (Respects none_confirmed_in (dest_create hashToken lower c dto id raw ok now)).
    unfold dest_create, assertRoom, count. respects; apply db_part_none; [respects|by apply create_none|respects].
  - revert w. change (Respects none_confirmed_in (db_part (dest_update c id dto))). apply db_part_none.
    unfold dest_update. respects. apply updateById_none. intros d. unfold apply_update.
    by destruct (trim <$> ud_label dto), a.
  - revert w. change (Respects none_confirmed_in (db_part (dest_remove c id))). apply db_part_none. unfold dest_remove. respects.
  - revert w. change (Respects none_confirmed_in (resend hashToken c id raw ok now)).
    unfold resend. respects; apply db_part_none; [respects|by apply updateById_unique_none].
  - revert w. change (Respects none_confirmed_in (test c id ok now)).
    unfold test. respects; apply db_part_none; [respects|by apply updateById_none].
Qed.

(** The mail of one request: to somebody who agreed, or to ask. *)
Lemma step_posts l w w' : dest_step l w w' →
  ∃ ms, posts w w' ms ∧ ∀ m, m ∈ ms →
    match m with
    | TestMail i to _ => ∃ d, destinations (dw_db w) !! i = Some d ∧ Destination.status d = NotificationStatus.confirmed
                              ∧ Destination.target d = to
    | ConfirmationMail i to raw _ => asked hashToken (dw_db w') i to raw
    end.
Proof.
  assert (∀ A (m : M Db A) w, posts w (db_part m w).2 []) as Hdb.
  { intros A m w0. unfold db_part. destruct (m (dw_db w0)). apply posts_none. }
  intros []; try (exists []; split; [apply Hdb|by intros m ?%not_elem_of_nil]).
  - destruct (create_posts hashToken lower c dto id raw ok now w0) as [Hp|(to & Hp & Ha)]; eexists; (split; [exact Hp|]).
    + by intros m ?%not_elem_of_nil.
    + by intros m ->%list_elem_of_singleton.
  - destruct (resend_posts hashToken c id raw ok now w0) as [Hp|(to & Hp & Ha)]; eexists; (split; [exact Hp|]).
    + by intros m ?%not_elem_of_nil.
    + by intros m ->%list_elem_of_singleton.
  - destruct (test_posts c id ok now w0) as [Hp|(d & Hp & Hd & Hs)]; eexists; (split; [exact Hp|]).
    + by intros m ?%not_elem_of_nil.
    + intros m ->%list_elem_of_singleton. by exists d.
Qed.

Lemma by_confirmation_Some db h i d :
  by_confirmation db h = Some (i, d) → destinations db !! i = Some d ∧ Destination.confirmationTokenHash d = Some h.
Proof.
  unfold by_confirmation. intros H.
  assert ((i, d) ∈ map_to_list (filter (λ kv, Destination.confirmationTokenHash kv.2 = Some h) (destinations db))) as Hin.
  { destruct (map_to_list _); [done|]. injection H as ->. by left. }
  apply elem_of_map_to_list, map_lookup_filter_Some in Hin. done.
Qed.

(** Redeeming a link confirms the row that carries its hash, and only that row. *)
Lemma confirm_run raw now db :
  match by_confirmation db (hashToken raw) with
  | Some (i, d) =>
      if expired d now then confirm hashToken raw now db = (throw invalid_request INVALID_CONFIRMATION, db)
      else ∃ r, confirm hashToken raw now db = (Ok r, upd_destinations (alter (confirmed_row now) i) db)
  | None => confirm hashToken raw now db = (throw invalid_request INVALID_CONFIRMATION, db)
  end.
Proof.
  unfold confirm, mbind, M_bind, gets. destruct (by_confirmation db (hashToken raw)) as [[i d]|]; [|done].
  unfold guardM, throw_if, lift. destruct (expired d now); [done|]. by eexists.
Qed.

Lemma step_redeem raw now w w' i d' : dest_step (Redeem raw now) w w' →
  destinations (dw_db w') !! i = Some d' → Destination.status d' = NotificationStatus.confirmed →
  ∃ d, destinations (dw_db w) !! i = Some d
    ∧ (Destination.status d = NotificationStatus.confirmed
       ∨ Destination.confirmationTokenHash d = Some (hashToken raw) ∧ expired d now = false).
Proof.
  intros Hstep. inversion Hstep as [| | | | |raw0 now0 w0 E1 E2 E3]; subst. clear Hstep. unfold db_part.
  pose proof (confirm_run raw now (dw_db w)) as Hr.
  destruct (by_confirmation (dw_db w) (hashToken raw)) as [[j d]|] eqn:Eb; [|rewrite Hr; intros Hd Hs; exists d'; auto].
  destruct (expired d now) eqn:Ex; [rewrite Hr; intros Hd Hs; exists d'; auto|].
  destruct Hr as [r ->]. cbn. apply by_confirmation_Some in Eb as [Hj Hh]. intros Hd Hs.
  destruct (decide (i = j)) as [->|Hi].
  - exists d. split; [done|]. by right.
  - rewrite lookup_alter_ne in Hd by done. exists d'. auto.
Qed.
End steps.

(** An alert changes nobody's consent and writes only to those who gave it. *)
Lemma alert_none mail_ok order input now w : none_confirmed (aw_db w) (aw_db (alert mail_ok order input now w).2).
Proof.
  intros i d' Hd Hs. pose proof (alert_loop_destinations mail_ok input now (candidates order input (aw_db w)) no_report w i) as H.
  fold (alert mail_ok order input now w) in H. rewrite Hd in H. inversion H as [d ? Hsame Ed|]; subst.
  exists d. split; [done|]. destruct Hsame as (_ & -> & _). done.
Qed.
Lemma alert_to_confirmed mail_ok order input now w m : (∀ l, order l ≡ₚ l) →
  m ∈ aw_sent (alert mail_ok order input now w).2 → m ∈ aw_sent w ∨
  ∃ d, destinations (aw_db w) !! am_destination m = Some d ∧ Destination.status d = NotificationStatus.confirmed.
Proof.
  intros Ho Hm. destruct (alert_mail mail_ok order Ho input now w) as (mails & E & _ & Hmails).
  rewrite E in Hm. apply elem_of_app in Hm as [Hm|Hm]; [by left|]. right.
  apply Hmails in Hm as (i & d & Hd & Hw & _ & _ & ->). exists d. split; [done|]. unfold wants in Hw. by bprop.
Qed.

(** What held of the database at some point of a run. *)
Definition at_some_point (hashToken : jsstr → jsstr) (labels : list dest_label) (w0 : DestWorld) (P : Db → Prop) : Prop :=
  ∃ ls1 ls2 mid, labels = ls1 ++ ls2 ∧ world_run hashToken ls1 w0 mid ∧ P (dw_db mid).
(** Destination [i] is to be reached at [to], and agreed to it. *)
Definition consenting (i : string) (to : jsstr) (db : Db) : Prop :=
  ∃ d, destinations db !! i = Some d ∧ Destination.status d = NotificationStatus.confirmed ∧ Destination.target d = to.
Definition unconfirmed (i : string) (db : Db) : Prop :=
  ∀ d, destinations db !! i = Some d → Destination.status d ≠ NotificationStatus.confirmed.
(** A link to destination [i] was redeemed during the run. *)
Definition redeemed (hashToken : jsstr → jsstr) (labels : list dest_label) (w0 : DestWorld) (i : string) : Prop :=
  ∃ ls1 raw now ls2 mid d, labels = ls1 ++ Redeem raw now :: ls2 ∧ world_run hashToken ls1 w0 mid
    ∧ destinations (dw_db mid) !! i = Some d ∧ Destination.confirmationTokenHash d = Some (hashToken raw)
    ∧ expired d now = false.

Lemma redeemed_snoc hashToken ls l w0 i : redeemed hashToken ls w0 i → redeemed hashToken (ls ++ [l]) w0 i.
Proof.
  intros (ls1 & raw & now & ls2 & mid & d & -> & H). exists ls1, raw, now, (ls2 ++ [l]), mid, d.
  split; [by rewrite <- app_assoc|done].
Qed.
Lemma at_some_point_snoc hashToken ls l w0 P : at_some_point hashToken ls w0 P → at_some_point hashToken (ls ++ [l]) w0 P.
Proof. intros (ls1 & ls2 & mid & -> & H). exists ls1, (ls2 ++ [l]), mid. split; [by rewrite <- app_assoc|done]. Qed.
Lemma at_the_end hashToken ls w0 w (P : Db → Prop) : world_run hashToken ls w0 w → P (dw_db w) → at_some_point hashToken ls w0 P.
Proof. intros Hrun HP. exists ls, [], w. by rewrite app_nil_r. Qed.

Lemma confirmed_redeemed hashToken labels w0 w i d' :
  world_run hashToken labels w0 w → unconfirmed i (dw_db w0) →
  destinations (dw_db w) !! i = Some d' → Destination.status d' = NotificationStatus.confirmed →
  redeemed hashToken labels w0 i.
Proof.
  intros Hrun Hbefore. revert d'. induction Hrun as [w0|ls l w0 mid w' Hrun IH Hstep]; intros d' Hd Hs.
  { by destruct (Hbefore d' Hd). }
  assert (none_confirmed_in mid w' → redeemed hashToken (ls ++ [l]) w0 i) as Hnone.
  { intros Hn. destruct (Hn i d' Hd Hs) as (d & Hm & Hc). by eapply redeemed_snoc, IH. }
  destruct Hstep as [l mid w' Hreq|mail_ok order input now mid Ho]; [|apply Hnone, alert_none].
  destruct l as [raw now|]; [|by eapply Hnone, step_none].
  destruct (step_redeem hashToken raw now mid w' i d' Hreq Hd Hs) as (d & Hm & [Hc|[Hh Hx]]).
  - by eapply redeemed_snoc, IH.
  - by exists ls, raw, now, [], mid, d.
Qed.

(** What a message of each kind takes: an alert and a test, the consent of whom they are
    sent to, a link redeemed; a confirmation, a row that has not agreed, whose link it is. *)
Definition alert_due hashToken labels (w0 : DestWorld) (m : AlertMail) : Prop :=
  at_some_point hashToken labels w0 (λ db, ∃ to, consenting (am_destination m) to db)
  ∧ (unconfirmed (am_destination m) (dw_db w0) → redeemed hashToken labels w0 (am_destination m)).
Definition mail_due hashToken labels (w0 : DestWorld) (m : RequestMail) : Prop :=
  match m with
  | TestMail i to _ =>
      at_some_point hashToken labels w0 (consenting i to)
      ∧ (unconfirmed i (dw_db w0) → redeemed hashToken labels w0 i)
  | ConfirmationMail i to raw _ => at_some_point hashToken labels w0 (λ db, asked hashToken db i to raw)
  end.
Lemma alert_due_snoc hashToken ls l w0 m : alert_due hashToken ls w0 m → alert_due hashToken (ls ++ [l]) w0 m.
Proof. intros [H1 H2]. split; [by apply at_some_point_snoc|auto using redeemed_snoc]. Qed.
Lemma mail_due_snoc hashToken ls l w0 m : mail_due hashToken ls w0 m → mail_due hashToken (ls ++ [l]) w0 m.
Proof. destruct m; [apply at_some_point_snoc|]. intros [H1 H2]. split; [by apply at_some_point_snoc|auto using redeemed_snoc]. Qed.

(** A message of one step is due at its end. *)
Lemma step_mail_due hashToken ls l w0 mid w' m : world_run hashToken ls w0 mid → dest_step hashToken l mid w' →
  m ∈ dw_posted w' → m ∈ dw_posted mid ∨ mail_due hashToken (ls ++ [l]) w0 m.
Proof.
  intros Hrun Hstep Hm. destruct (step_posts hashToken l mid w' Hstep) as (ms & [_ Hp] & Hms).
  rewrite Hp in Hm. apply elem_of_app in Hm as [Hm|Hm]; [by left|]. right. specialize (Hms m Hm).
  destruct m as [i to raw t|i to t]; cbn in Hms |- *.
  - eapply at_the_end; [|exact Hms]. by eapply wr_snoc, ws_request.
  - destruct Hms as (d & Hd & Hs & Ht). split.
    + eapply at_some_point_snoc, at_the_end; [done|]. by exists d.
    + intros Hb. by eapply redeemed_snoc, confirmed_redeemed.
Qed.
Lemma request_keeps_alerts hashToken l w w' : dest_step hashToken l w w' → aw_sent (dw_alerts w') = aw_sent (dw_alerts w).
Proof. intros Hstep. by destruct (step_posts hashToken l w w' Hstep) as (ms & [Ha _] & _). Qed.


(** ** A destination is added, confirmed, tested and alerted *)

Definition dest_ctx : Ctx := MkCtx "o1" (Some "p1") "m1" developer "u1".
Definition dest_start : DestWorld := MkDestWorld (MkWorld two_orgs []) [].
Definition added : DestWorld :=
  (dest_create no_hash toLowerCase dest_ctx (MkCreateDestination "email" (js "OnCall@x.io") None None) "n1" (js "raw") true 0 dest_start).2.
Definition agreed : DestWorld := (db_part (confirm no_hash (js "raw") 5) added).2.
Definition tested : DestWorld := (test dest_ctx "n1" true 7 agreed).2.
Definition alerted : DestWorld :=
  MkDestWorld (alert (λ _, true) id (MkAlert "p1" endpoint_stopped (js "e")) 9 (dw_alerts tested)).2 (dw_posted tested).

(** A test before the link is opened is refused, and sends nothing. *)
Example test_refused : (test dest_ctx "n1" true 3 added).2 = added
  ∧ (∃ reason, (test dest_ctx "n1" true 3 added).1 = throw conflict reason).
Proof. split; [vm_compute; reflexivity|eexists; vm_compute; reflexivity]. Qed.

Definition dest_labels : list dest_label := [Other; Redeem (js "raw") 5; Other; Other].
