(* ===== verification/Usage.v ===== *)
(** Usage aggregation: maintenance/usage-aggregator.service.ts.

    The sweep reads events and deliveries and writes usage records, one statement
    at a time and in no transaction.  [survives] is how many more of those
    statements the connection survives ([None]: all of them); whether the
    advisory lock is free and the order in which groups are returned are
    arguments. *)
From Stdlib Require Import ZArith Lia.
From S2P Require Import Prelude Js Permissions RetryRules AuditTrail Db.

Definition HOUR : Z := 3600000.
Definition MAX_BUCKETS_PER_RUN : nat := 48.
Definition USAGE_METRICS : list string := ["events_ingested"; "deliveries"; "replays"].

(** (organization, project, metric, start of the hour) *)
Definition usage_key : Type := string * string * string * Z.
Abbreviation Usage := (gmap (string * string * string * Z) (Z * Z)).

Record UsageRow : Type := MkUsageRow { ur_key : usage_key; ur_quantity : Z; ur_periodEnd : Z }.
Record UsageReport : Type := MkUsageReport {
  us_skipped : bool; us_buckets : nat; us_rows : nat; us_truncated : bool
}.

Definition toRows (metric : string) (groups : list (string * string * Z)) (periodStart periodEnd : Z) : list UsageRow :=
  map (λ g, MkUsageRow (g.1.1, g.1.2, metric, periodStart) g.2 periodEnd) (filter (λ g, (0 < g.2)%Z) groups).

(** Overwrite the quantity, never increment it. *)
Definition upsert (row : UsageRow) (u : Usage) : Usage :=
  <[ur_key row := (ur_quantity row, if u !! ur_key row is Some old then old.2 else ur_periodEnd row)]> u.

Record UsageState : Type := MkUsageState { us_usage : Usage; us_survives : option nat }.

Definition upsert_row (row : UsageRow) : M UsageState unit := λ s,
  match us_survives s with
  | Some O => (throw internal_error "the connection was lost", s)
  | n => (Ok tt, MkUsageState (upsert row (us_usage s)) (pred <$> n))
  end.

Definition in_hour (start at_ : Z) : bool := ((start <=? at_) && (at_ <? start + HOUR))%Z.

Section Usage.
  Context (order : list (string * string * Z) → list (string * string * Z)) (db : Db).

(** [groupBy({ by: ['organizationId', 'projectId'], where, _count })] *)
Definition group_rows {R} (tbl : gmap string R) (where_ : R → bool) (key : R → string * string)
    : list (string * string * Z) :=
  order (tally (map (λ kv, key kv.2) (map_to_list (filter (λ kv, where_ kv.2 = true) tbl)))).

Definition event_key (e : Event.t) : string * string := (Event.organizationId e, Event.projectId e).
Definition delivery_key (d : Delivery.t) : string * string := (Delivery.organizationId d, Delivery.projectId d).
Definition is_replay (d : Delivery.t) : bool := bool_decide (Delivery.replayOfDeliveryId d ≠ None).

Definition hour_rows (start : Z) : list UsageRow :=
  toRows "events_ingested" (group_rows (events db) (λ e, in_hour start (Event.createdAt e)) event_key)
    start (start + HOUR)
  ++ toRows "deliveries" (group_rows (deliveries db) (λ d, in_hour start (Delivery.createdAt d)) delivery_key)
    start (start + HOUR)
  ++ toRows "replays" (group_rows (deliveries db) (λ d, in_hour start (Delivery.createdAt d) && is_replay d) delivery_key)
    start (start + HOUR).

Definition fill (start : Z) : M UsageState nat :=
  let rows := hour_rows start in
  _ ← forM rows upsert_row;
  mret (length rows).

(** The hours with a record of the first metric, of anybody. *)
Definition done_hour (u : Usage) (oldest start : Z) : bool :=
  existsb (λ kv, let '(_, _, metric, s) := kv.1 in
             (oldest <=? s)%Z && bool_decide (metric = "events_ingested") && (s =? start)%Z) (map_to_list u).

Definition pendingBuckets (now : Z) (u : Usage) : list Z :=
  let currentHour := (now / HOUR * HOUR)%Z in
  let oldest := (currentHour - Z.of_nat MAX_BUCKETS_PER_RUN * HOUR)%Z in
  filter (λ start, done_hour u oldest start = false)
    (map (λ i, oldest + Z.of_nat i * HOUR)%Z (seq 0 MAX_BUCKETS_PER_RUN)).

Fixpoint fill_all (buckets : list Z) : M UsageState nat :=
  match buckets with
  | [] => mret 0
  | start :: buckets =>
      n ← fill start;
      rows ← fill_all buckets;
      mret (n + rows)
  end.

Definition sweep (locked : bool) (now : Z) : M UsageState UsageReport :=
  if negb locked then mret (MkUsageReport true 0 0 false)
  else
    buckets ← gets (λ s, pendingBuckets now (us_usage s));
    rows ← fill_all (take MAX_BUCKETS_PER_RUN buckets);
    mret (MkUsageReport false (Nat.min (length buckets) MAX_BUCKETS_PER_RUN) rows
            (MAX_BUCKETS_PER_RUN <? length buckets)).
End Usage.

(** ** What an hour is worth *)

(** The reference: how many rows of the hour the project has. *)
Definition usage_of (db : Db) (metric : string) (k : string * string) (start : Z) : Z :=
  let deliveries_where w :=
    Z.of_nat (size (filter (λ kv, w kv.2 && bool_decide (delivery_key kv.2 = k) = true) (deliveries db))) in
  if bool_decide (metric = "events_ingested") then
    Z.of_nat (size (filter (λ kv, in_hour start (Event.createdAt kv.2) && bool_decide (event_key kv.2 = k) = true) (events db)))
  else if bool_decide (metric = "deliveries") then deliveries_where (λ d, in_hour start (Delivery.createdAt d))
  else deliveries_where (λ d, in_hour start (Delivery.createdAt d) && is_replay d).

Definition quantity (u : Usage) (k : string * string) (metric : string) (start : Z) : option Z :=
  fst <$> u !! (k.1, k.2, metric, start).
Definition recorded (u : Usage) (start : Z) : Prop := ∃ k, is_Some (quantity u k "events_ingested" start).

Lemma size_filter_map {R K} `{EqDecision K} (tbl : gmap string R) (w : R → bool) (key : R → K) k :
  length (filter (λ x, x = k) (map (λ kv : string * R, key kv.2) (map_to_list (filter (λ kv, w kv.2 = true) tbl))))
  = size (filter (λ kv, w kv.2 && bool_decide (key kv.2 = k) = true) tbl).
Proof.
  assert (∀ l : list (string * R), length (filter (λ x, x = k) (map (λ kv, key kv.2) l))
            = length (filter (λ kv, key kv.2 = k) l)) as Hmap.
  { induction l as [|a l IH]; [done|]. cbn [map]. rewrite !filter_cons. by destruct (decide (key a.2 = k)); cbn; rewrite IH. }
  rewrite Hmap, length_filter_list, map_filter_filter.
  f_equal. apply map_filter_ext. intros i x _. cbn. rewrite andb_true_iff, bool_decide_eq_true. tauto.
Qed.

Section facts.
  Context (order : list (string * string * Z) → list (string * string * Z)) (Horder : ∀ l, order l ≡ₚ l) (db : Db).

Lemma group_rows_elem {R} (tbl : gmap string R) w key k n :
  (k, n) ∈ group_rows order tbl w key ↔
  n = Z.of_nat (size (filter (λ kv, w kv.2 && bool_decide (key kv.2 = k) = true) tbl)) ∧ (0 < n)%Z.
Proof.
  unfold group_rows. rewrite Horder, tally_elem, size_filter_map. split.
  - intros [Hk ->]. split; [done|]. rewrite <- size_filter_map.
    assert (0 < length (filter (λ x, x = k) (map (λ kv : string * R, key kv.2) (map_to_list (filter (λ kv, w kv.2 = true) tbl))))); [|lia].
    apply list_elem_of_split in Hk as (l1 & l2 & ->). rewrite filter_app, filter_cons_True, length_app by done. cbn. lia.
  - intros [-> Hn]. split; [|done]. rewrite <- size_filter_map in Hn.
    destruct (filter (λ x, x = k) _) as [|x l] eqn:E; [cbn in Hn; lia|].
    assert (x ∈ x :: l) as Hx by left. rewrite <- E in Hx. apply list_elem_of_filter in Hx as [-> Hx]. done.
Qed.
Lemma group_rows_nodup {R} (tbl : gmap string R) w key : NoDup (group_rows order tbl w key).*1.
Proof. unfold group_rows. rewrite Horder, tally_fst. apply NoDup_remove_dups. Qed.

Lemma toRows_elem metric groups s e r :
  r ∈ toRows metric groups s e ↔ ∃ k n, (k, n) ∈ groups ∧ (0 < n)%Z ∧ r = MkUsageRow (k.1, k.2, metric, s) n e.
Proof.
  unfold toRows. rewrite list_elem_of_fmap. split.
  - intros ([k n] & -> & [Hn Hin]%list_elem_of_filter). by exists k, n.
  - intros (k & n & Hin & Hn & ->). exists (k, n). rewrite list_elem_of_filter. done.
Qed.
Lemma toRows_nodup metric groups s e : NoDup groups.*1 → NoDup (map ur_key (toRows metric groups s e)).
Proof.
  intros Hn. unfold toRows. rewrite map_map. cbn. apply (NoDup_fmap_2_strong (λ g : string * string * Z, (g.1.1, g.1.2, metric, s))).
  - intros [[a b] n] [[a' b'] n'] [H1 Hin1]%list_elem_of_filter [H2 Hin2]%list_elem_of_filter [= -> ->].
    f_equal. by eapply fst_unique.
  - apply NoDup_filter. by eapply NoDup_fmap_1.
Qed.

(** The rows of an hour are the reference counts that are positive. *)
Lemma hour_rows_elem start r :
  r ∈ hour_rows order db start ↔
  ∃ k m, m ∈ USAGE_METRICS ∧ (0 < usage_of db m k start)%Z
    ∧ r = MkUsageRow (k.1, k.2, m, start) (usage_of db m k start) (start + HOUR).
Proof.
  unfold hour_rows, USAGE_METRICS. rewrite !elem_of_app, !toRows_elem.
  setoid_rewrite group_rows_elem. split.
  - intros [(k & n & [-> H] & _ & ->)|[(k & n & [-> H] & _ & ->)|(k & n & [-> H] & _ & ->)]].
    + exists k, "events_ingested". split; [set_solver|done].
    + exists k, "deliveries". split; [set_solver|done].
    + exists k, "replays". split; [set_solver|done].
  - intros (k & m & Hm & Hn & ->). rewrite !elem_of_cons in Hm.
    destruct Hm as [->|[->|[->|[]%not_elem_of_nil]]]; [left|right; left|right; right]; exists k; by eexists.
Qed.

Lemma hour_rows_nodup start : NoDup (map ur_key (hour_rows order db start)).
Proof.
  assert (∀ m m' g g', m ≠ m' → ∀ x, x ∈ map ur_key (toRows m g start (start + HOUR)) →
            x ∉ map ur_key (toRows m' g' start (start + HOUR))) as Hd.
  { intros m m' g g' Hm x (r & -> & (k & n & _ & _ & ->)%toRows_elem)%list_elem_of_fmap
      (r' & E & (k' & n' & _ & _ & ->)%toRows_elem)%list_elem_of_fmap. cbn in E. congruence. }
  unfold hour_rows. rewrite !map_app. apply NoDup_app. split_and!; [apply toRows_nodup, group_rows_nodup| |].
  - intros x Hx. rewrite not_elem_of_app. split; (eapply (Hd "events_ingested"); [done|exact Hx]).
  - apply NoDup_app. split_and!; [apply toRows_nodup, group_rows_nodup| |apply toRows_nodup, group_rows_nodup].
    intros x Hx. eapply (Hd "deliveries"); [done|exact Hx].
Qed.

Lemma upserts_run rows u : forM rows upsert_row (MkUsageState u None)
  = (Ok tt, MkUsageState (foldl (λ u r, upsert r u) u rows) None).
Proof. revert u. induction rows as [|r rows IH]; intros u; [done|]. cbn. unfold mbind, M_bind. cbn. apply IH. Qed.

Lemma upserts_other rows u k : k ∉ map ur_key rows → foldl (λ u r, upsert r u) u rows !! k = u !! k.
Proof.
  revert u. induction rows as [|r rows IH]; intros u Hk; [done|]. cbn in *. apply not_elem_of_cons in Hk as [H1 H2].
  rewrite IH by done. unfold upsert. by rewrite lookup_insert_ne.
Qed.
Lemma upserts_in rows u r : NoDup (map ur_key rows) → r ∈ rows →
  fst <$> foldl (λ u r, upsert r u) u rows !! ur_key r = Some (ur_quantity r).
Proof.
  revert u. induction rows as [|r' rows IH]; intros u Hn Hr; [by apply not_elem_of_nil in Hr|]. cbn in *.
  apply NoDup_cons in Hn as [Hn' Hn]. apply elem_of_cons in Hr as [->|Hr]; [|by apply IH].
  rewrite upserts_other by done. unfold upsert. by rewrite lookup_insert_eq.
Qed.

Lemma fill_run start u : ∃ n u', fill order db start (MkUsageState u None) = (Ok n, MkUsageState u' None)
  ∧ ∀ k m s, quantity u' k m s =
      if decide (s = start ∧ m ∈ USAGE_METRICS ∧ (0 < usage_of db m k start)%Z)
      then Some (usage_of db m k start) else quantity u k m s.
Proof.
  eexists _, _. split; [unfold fill, mbind, M_bind; by rewrite upserts_run|]. intros k m s. unfold quantity.
  destruct (decide _) as [(-> & Hm & Hn)|Hno].
  - apply (upserts_in _ u (MkUsageRow (k.1, k.2, m, start) (usage_of db m k start) (start + HOUR)) (hour_rows_nodup start)).
    apply hour_rows_elem. by exists k, m.
  - rewrite upserts_other; [done|]. intros (r & E & (k' & m' & Hm & Hn & ->)%hour_rows_elem)%list_elem_of_fmap.
    cbn in E. injection E as E1 E2 -> ->. assert (k' = k) as -> by (destruct k, k'; cbn in *; congruence). by apply Hno.
Qed.

Lemma fill_all_run buckets u : ∃ n u', fill_all order db buckets (MkUsageState u None) = (Ok n, MkUsageState u' None)
  ∧ ∀ k m s, quantity u' k m s =
      if decide (s ∈ buckets ∧ m ∈ USAGE_METRICS ∧ (0 < usage_of db m k s)%Z)
      then Some (usage_of db m k s) else quantity u k m s.
Proof.
  revert u. induction buckets as [|b buckets IH]; intros u.
  { exists 0, u. split; [done|]. intros k m s. rewrite decide_False; [done|]. intros [[]%not_elem_of_nil _]. }
  destruct (fill_run b u) as (n1 & u1 & E1 & H1). destruct (IH u1) as (n2 & u2 & E2 & H2).
  exists (n1 + n2), u2. split; [cbn [fill_all]; unfold mbind, M_bind; by rewrite E1, E2|]. intros k m s. rewrite H2, H1.
  repeat case_decide; set_solver.
Qed.
End facts.

(** ** The hours of a pass *)

(** The forty-eight complete hours before now. *)
Definition billable (now s : Z) : Prop := ∃ i, i < 48 ∧ s = ((now / HOUR - 48 + Z.of_nat i) * HOUR)%Z.

Lemma billable_complete now s : billable now s → (s + HOUR <= now)%Z.
Proof.
  intros (i & Hi & ->). unfold HOUR. pose proof (Z.mul_div_le now 3600000 ltac:(lia)). lia.
Qed.

Lemma done_hour_spec u oldest s :
  done_hour u oldest s = true ↔ (oldest <= s)%Z ∧ recorded u s.
Proof.
  unfold done_hour, recorded, quantity. rewrite existsb_True. split.
  - intros ([[[[o p] m] s'] v] & Hin%elem_of_map_to_list & H). cbn in H. bprop. subst.
    split; [lia|]. exists (o, p). cbn. rewrite Hin. by eexists.
  - intros [Ho [[o p] [q (v & Hv & _)%fmap_Some]]]. cbn in Hv. exists ((o, p, "events_ingested", s), v).
    split; [by apply elem_of_map_to_list|]. cbn. rewrite bool_decide_eq_true_2 by done.
    rewrite Z.eqb_refl. apply Z.leb_le in Ho. by rewrite Ho.
Qed.

Lemma pending_elem now u s : s ∈ pendingBuckets now u ↔ billable now s ∧ ¬ recorded u s.
Proof.
  unfold pendingBuckets. rewrite list_elem_of_filter, <- not_true_iff_false, done_hour_spec, list_elem_of_fmap.
  unfold billable. split.
  - intros (Hno & i & -> & Hi%elem_of_seq). split.
    + exists i. unfold MAX_BUCKETS_PER_RUN in *. split; [lia|]. lia.
    + intros Hr. apply Hno. split; [unfold HOUR, MAX_BUCKETS_PER_RUN; lia|done].
  - intros ((i & Hi & ->) & Hno). split; [tauto|]. exists i. rewrite elem_of_seq. unfold MAX_BUCKETS_PER_RUN. split; lia.
Qed.
Lemma pending_length now u : length (pendingBuckets now u) ≤ MAX_BUCKETS_PER_RUN.
Proof.
  unfold pendingBuckets. etrans; [apply length_filter|]. by rewrite length_map, length_seq.
Qed.

Lemma usage_sweep_run order (Horder : ∀ l, order l ≡ₚ l) db now u :
  ∃ rep u', sweep order db true now (MkUsageState u None) = (Ok rep, MkUsageState u' None)
  ∧ us_truncated rep = false
  ∧ ∀ k m s, quantity u' k m s =
      if decide (s ∈ pendingBuckets now u ∧ m ∈ USAGE_METRICS ∧ (0 < usage_of db m k s)%Z)
      then Some (usage_of db m k s) else quantity u k m s.
Proof.
  pose proof (pending_length now u) as Hl.
  destruct (fill_all_run order Horder db (pendingBuckets now u) u) as (n & u' & E & H).
  eexists _, u'. split; [|split; [|exact H]].
  - unfold sweep. cbn [negb]. unfold mbind, M_bind, gets. cbn [us_usage]. rewrite take_ge by done. by rewrite E.
  - cbn [us_truncated]. by apply Nat.ltb_ge.
Qed.

(** C16. What a pass that completes writes.  For every project and every metric, an hour
    among the forty-eight complete hours before now that has no record yet is
    given exactly the number of rows the source tables have for it, if there are
    any; nothing else changes.  No hour still in progress is written, the report
    never says that more hours are waiting, and running the pass again changes
    no number. *)
Theorem sweep_bills (order : list (string * string * Z) → list (string * string * Z)) (Horder : ∀ l, order l ≡ₚ l)
    (db : Db) (now : Z) (u : Usage) :
  ∃ rep u', sweep order db true now (MkUsageState u None) = (Ok rep, MkUsageState u' None)
    ∧ us_truncated rep = false
    ∧ (∀ k m s, m ∈ USAGE_METRICS → billable now s → ¬ recorded u s → (0 < usage_of db m k s)%Z →
         (s + HOUR <= now)%Z ∧ quantity u' k m s = Some (usage_of db m k s))
    ∧ (∀ k m s, quantity u' k m s ≠ quantity u k m s →
         billable now s ∧ ¬ recorded u s ∧ quantity u' k m s = Some (usage_of db m k s))
    ∧ ∃ rep' u'', sweep order db true now (MkUsageState u' None) = (Ok rep', MkUsageState u'' None)
        ∧ ∀ k m s, quantity u'' k m s = quantity u' k m s.
Proof.
  destruct (usage_sweep_run order Horder db now u) as (rep & u' & E & Ht & H). exists rep, u'. split_and!; [done|done| | |].
  - intros k m s Hm Hb Hr Hn. split; [by eapply billable_complete|]. rewrite H, decide_True; [done|].
    by rewrite pending_elem.
  - intros k m s Hne. rewrite H in Hne |- *. destruct (decide _) as [(Hp & _ & _)|]; [|done].
    by apply pending_elem in Hp as [Hb Hr].
  - destruct (usage_sweep_run order Horder db now u') as (rep' & u'' & E' & _ & H'). exists rep', u''. split; [done|].
    intros k m s. rewrite H'. destruct (decide _) as [(Hp & Hm & Hn)|]; [|done].
    apply pending_elem in Hp as [Hb Hr]. rewrite H. destruct (decide _) as [|Hno]; [done|]. exfalso. apply Hno.
    split; [|done]. apply pending_elem. split; [done|]. intros [k' [q Hq]]. apply Hr. exists k'. rewrite H.
    destruct (decide _); by eexists.
Qed.

(** ** A pass that does not complete *)

Record Pass : Type := MkPass {
  ps_order : list (string * string * Z) → list (string * string * Z);
  ps_db : Db; ps_locked : bool; ps_now : Z; ps_survives : option nat
}.
Definition run_pass (u : Usage) (p : Pass) : Usage :=
  us_usage (sweep (ps_order p) (ps_db p) (ps_locked p) (ps_now p) (MkUsageState u (ps_survives p))).2.

(** The records of one hour stay as they are. *)
Definition frozen_at (s : Z) (a b : UsageState) : Prop :=
  ∀ k m, quantity (us_usage b) k m s = quantity (us_usage a) k m s.
#[export] Instance frozen_at_preorder s : PreOrder (frozen_at s).
Proof. split; [by intros a k m|]. intros a b c H1 H2 k m. by rewrite H2. Qed.

Lemma upsert_row_frozen s r : (ur_key r).2 ≠ s → Respects (frozen_at s) (upsert_row r).
Proof.
  intros Hr st. unfold upsert_row. assert (∀ u n, frozen_at s (MkUsageState u n) (MkUsageState (upsert r u) (pred <$> n))) as H.
  { intros u n k m. unfold quantity, upsert. cbn [us_usage]. rewrite lookup_insert_ne; [done|]. intros E. by rewrite E in Hr. }
  destruct st as [u [[|n]|]]; cbn [us_survives snd us_usage]; [done|apply H..].
Qed.

Lemma hour_rows_start order db start r : r ∈ hour_rows order db start → (ur_key r).2 = start.
Proof.
  unfold hour_rows. rewrite !elem_of_app, !toRows_elem.
  intros [(k & n & _ & _ & ->)|[(k & n & _ & _ & ->)|(k & n & _ & _ & ->)]]; done.
Qed.

Lemma upserts_frozen s rows : (∀ r, r ∈ rows → (ur_key r).2 ≠ s) → Respects (frozen_at s) (forM rows upsert_row).
Proof.
  induction rows as [|r rows IH]; intros H; cbn [forM]; [respects|].
  apply respects_bind; [typeclasses eauto|apply upsert_row_frozen, H; left|intros _].
  apply IH. intros r' Hr'. apply H. by right.
Qed.

Lemma fill_all_frozen order db s buckets : s ∉ buckets → Respects (frozen_at s) (fill_all order db buckets).
Proof.
  induction buckets as [|b buckets IH]; intros Hs; cbn [fill_all]; [respects|].
  apply not_elem_of_cons in Hs as [Hb Hs]. respects.
  unfold fill. apply respects_bind; [typeclasses eauto| |intros ?; respects].
  apply upserts_frozen. intros r Hr%hour_rows_start. congruence.
Qed.

Lemma run_pass_frozen u p s : recorded u s → ∀ k m, quantity (run_pass u p) k m s = quantity u k m s.
Proof.
  intros Hr. unfold run_pass, sweep. destruct (ps_locked p); [|done]. cbn [negb]. unfold mbind, M_bind, gets. cbn [us_usage].
  assert (s ∉ take MAX_BUCKETS_PER_RUN (pendingBuckets (ps_now p) u)) as Hs.
  { intros Hin%subseteq_take. by apply pending_elem in Hin as [_ ?]. }
  pose proof (fill_all_frozen (ps_order p) (ps_db p) s _ Hs (MkUsageState u (ps_survives p))) as H.
  destruct (fill_all _ _ _ _) as [[n|e] st]; exact H.
Qed.

(** An hour is counted once, whole or not.  As soon as one project has a record of
    the events of an hour, no later pass, whatever happens to it, changes any
    record of that hour for anybody: what a pass that was cut short had not
    written by then is never written. *)
Theorem recorded_hour_frozen (passes : list Pass) (u : Usage) (s : Z) (Hrecorded : recorded u s)
    (k : string * string) (m : string) :
  quantity (foldl run_pass u passes) k m s = quantity u k m s.
Proof.
  revert u Hrecorded. induction passes as [|p passes IH]; intros u Hr; [done|]. cbn [foldl].
  rewrite IH, run_pass_frozen; [done|done|]. destruct Hr as [k' [q Hq]]. exists k'.
  rewrite run_pass_frozen; [by eexists|]. exists k'. by eexists.
Qed.

(** Two projects with an event in the same hour; the connection is lost after the
    first record, and the second project is never billed. *)
Definition two_events : Db :=
  upd_events (λ _, <["v1" := Event.bare "o1" "p1" (js "a.b") EventStatus.processed 5]>
                   {["v2" := Event.bare "o2" "p2" (js "a.b") EventStatus.processed 6]}) empty_db.
Definition cut_short : Usage := run_pass ∅ (MkPass id two_events true 3600000 (Some 1)).

Lemma recorded_hour_frozen_witness :
  usage_of two_events "events_ingested" ("o1", "p1") 0 = 1%Z
  ∧ usage_of two_events "events_ingested" ("o2", "p2") 0 = 1%Z
  ∧ (∃ k, quantity cut_short k "events_ingested" 0 = Some 1%Z)
  ∧ ∃ k, (k = ("o1", "p1") ∨ k = ("o2", "p2"))
     ∧ ∀ now, quantity (foldl run_pass cut_short [MkPass id two_events true now None]) k "events_ingested" 0 = None.
Proof.
  split; [vm_compute; reflexivity|]. split; [vm_compute; reflexivity|].
  assert (quantity cut_short ("o2", "p2") "events_ingested" 0 = Some 1%Z
          ∧ quantity cut_short ("o1", "p1") "events_ingested" 0 = None
          ∨ quantity cut_short ("o1", "p1") "events_ingested" 0 = Some 1%Z
          ∧ quantity cut_short ("o2", "p2") "events_ingested" 0 = None) as [[H1 H2]|[H1 H2]]
    by (vm_compute; auto).
  - split; [exists ("o2", "p2"); exact H1|]. exists ("o1", "p1"). split; [left; reflexivity|]. intros now.
    rewrite (recorded_hour_frozen [MkPass id two_events true now None] cut_short 0
      (ex_intro _ ("o2", "p2") (ex_intro _ 1%Z H1))). exact H2.
  - split; [exists ("o1", "p1"); exact H1|]. exists ("o2", "p2"). split; [right; reflexivity|]. intros now.
    rewrite (recorded_hour_frozen [MkPass id two_events true now None] cut_short 0
      (ex_intro _ ("o1", "p1") (ex_intro _ 1%Z H1))). exact H2.
Defined.

Lemma sweep_bills_witness :
  ∃ rep u', sweep id two_events true 3600000 (MkUsageState ∅ None) = (Ok rep, MkUsageState u' None)
    ∧ quantity u' ("o2", "p2") "events_ingested" 0 = Some 1%Z.
Proof.
  destruct (sweep_bills id (λ l, Permutation_refl l) two_events 3600000 ∅) as (rep & u' & E & _ & H & _).
  exists rep, u'. split; [exact E|].
  destruct (H ("o2", "p2") "events_ingested" 0%Z) as [_ Hq].
  - left.
  - exists 47. split; [lia|reflexivity].
  - intros [k [q Hq]]. discriminate Hq.
  - vm_compute. reflexivity.
  - rewrite Hq. vm_compute. reflexivity.
Defined.
