(* ===== verification/Series.v ===== *)
(** Windows and time series of the analytics: analytics/analytics-window.ts,
    analytics/delivery-series.ts, and the worker pool mapWithConcurrency of
    analytics/analytics.service.ts.

    Times are milliseconds.  The quotients the source computes are of integers
    below 2^53, whose floor and ceiling in floating point are the exact ones, so
    they are divisions of [Z]. *)
From Stdlib Require Import ZArith Lia QArith Qround.
From S2P Require Import Prelude Js RetryRules.
Local Open Scope Z_scope.

(** ** The window *)

Definition DEFAULT_WINDOW_HOURS : Z := 24.
Definition MAX_WINDOW_HOURS : Z := 720.
Definition HOUR_MS : Z := 3600000.

Record AnalyticsWindow : Type := MkWindow {
  w_hours : Z; w_from : Z; w_to : Z; w_previousFrom : Z; w_previousTo : Z
}.

Definition resolveWindow (hours : option num) (now : Z) : result AnalyticsWindow :=
  let requested := default (int DEFAULT_WINDOW_HOURS) hours in
  _ ← throw_if (negb (isInteger requested) || num_ltb requested (int 1)) invalid_request
        "'window_hours' must be a whole number of hours, 1 or greater.";
  _ ← throw_if (num_gtb requested (int MAX_WINDOW_HOURS)) invalid_request "'window_hours' may not exceed 720 (30 days)";
  let h := if requested is Fin q then Qfloor q else 0 in
  let to := now in
  let from := to - h * HOUR_MS in
  Ok (MkWindow h from to (from - h * HOUR_MS) from).

(** [{ gte: from, lt: to }] *)
Definition range (from to at_ : Z) : bool := (from <=? at_) && (at_ <? to).

(** ** Buckets *)

Definition BUCKET_WIDTHS : list (string * Z) :=
  [("5m", 5 * 60000); ("15m", 15 * 60000); ("30m", 30 * 60000); ("1h", 3600000); ("2h", 2 * 3600000);
   ("3h", 3 * 3600000); ("6h", 6 * 3600000); ("12h", 12 * 3600000); ("1d", 24 * 3600000)].
Definition BUCKET_UNITS : list string := BUCKET_WIDTHS.*1.
(** [BUCKET_WIDTHS[unit]], of the object's own keys *)
Definition bucket_width (unit : string) : option Z :=
  snd <$> head (filter (λ kv, kv.1 = unit) BUCKET_WIDTHS).
Definition MAX_BUCKETS : Z := 32.

Record SeriesBucket : Type := MkBucket { b_start : Z; b_end : Z }.
Record SeriesPlan : Type := MkSeriesPlan {
  sp_unit : string; sp_widthMs : Z; sp_buckets : list SeriesBucket; sp_leadingPartial : bool
}.

(** [Math.ceil(a / b)] *)
Definition ceil_div (a b : Z) : Z := - (- a / b).

Definition defaultBucket (windowHours : Z) : string :=
  let spanMs := windowHours * 3600000 in
  default "1d" (fst <$> head (filter (λ kv, ceil_div spanMs kv.2 + 1 <= MAX_BUCKETS) BUCKET_WIDTHS)).

Definition planSeries (window : AnalyticsWindow) (unit : option string) : result SeriesPlan :=
  let resolved := default (defaultBucket (w_hours window)) unit in
  match bucket_width resolved with
  | None => throw invalid_request "'bucket' must be one of the bucket units."
  | Some widthMs =>
      let firstStart := w_from window / widthMs * widthMs in
      let lastStart := w_to window / widthMs * widthMs in
      let count := (lastStart - firstStart) / widthMs + 1 in
      if MAX_BUCKETS <? count then throw invalid_request "is more buckets than the ceiling. Ask for a coarser bucket."
      else
        Ok (MkSeriesPlan resolved widthMs
              (map (λ index, let start := firstStart + Z.of_nat index * widthMs in MkBucket start (start + widthMs))
                 (seq 0 (Z.to_nat count)))
              (firstStart <? w_from window))
  end.

(** ** The worker pool *)

Section Pool.
  Context {TIn TOut : Type} (items : list TIn) (limit : nat).

(** Between two awaits a worker runs alone: it has taken no item yet, awaits
    [run] on one, or has returned or thrown. *)
Inductive worker : Type := Idle | Running (index : nat) | Returned | Threw (e : app_error).
Record pool : Type := MkPool { next : nat; workers : list worker; results : list (option TOut) }.

Definition pool_start : pool :=
  MkPool 0 (replicate (Nat.min limit (length items)) Idle) (replicate (length items) None).

(** How [run] may end on an item. *)
Context (run : TIn → result TOut → Prop).

Inductive pool_step : pool → pool → Prop :=
| pool_take w i rs s : workers s = w → w !! i = Some Idle → results s = rs → (next s < length items)%nat →
    pool_step s (MkPool (S (next s)) (<[i := Running (next s)]> w) rs)
| pool_return w i rs s : workers s = w → w !! i = Some Idle → results s = rs → (length items <= next s)%nat →
    pool_step s (MkPool (S (next s)) (<[i := Returned]> w) rs)
| pool_finish w i rs s index item v : workers s = w → w !! i = Some (Running index) → results s = rs →
    items !! index = Some item → run item (Ok v) →
    pool_step s (MkPool (next s) (<[i := Idle]> w) (<[index := Some v]> rs))
| pool_throw w i rs s index item e : workers s = w → w !! i = Some (Running index) → results s = rs →
    items !! index = Some item → run item (Throw e) →
    pool_step s (MkPool (next s) (<[i := Threw e]> w) rs).

Inductive pool_run : nat → pool → Prop :=
| pr_start : pool_run 0 pool_start
| pr_step n s s' : pool_run n s → pool_step s s' → pool_run (S n) s'.

(** [Promise.all] of the workers has settled. *)
Definition settled (w : worker) : bool := match w with Returned | Threw _ => true | _ => false end.
Definition is_running (w : worker) : bool := if w is Running _ then true else false.
Definition in_flight (s : pool) : nat := length (filter (λ w, is_running w = true) (workers s)).
End Pool.
Arguments pool : clear implicits.

(** ** The plan *)

Lemma resolveWindow_Ok hours now w : resolveWindow hours now = Ok w →
  1 <= w_hours w <= MAX_WINDOW_HOURS ∧ w_to w = now ∧ w_from w = now - w_hours w * HOUR_MS.
Proof.
  unfold resolveWindow. set (r := default _ _). intros H. minv. simplify_eq. cbn [w_hours w_to w_from].
  destruct r as [q| |[]]; cbn in *; bprop; try done. split; [|done].
  repeat match goal with H : Qle_bool _ _ = true |- _ => apply Qle_bool_iff, Qfloor_resp_le in H end.
  rewrite !Qfloor_Z in *. unfold MAX_WINDOW_HOURS in *. lia.
Qed.

Lemma bucket_width_pos u w : bucket_width u = Some w → 0 < w.
Proof.
  unfold bucket_width. intros ([u' w'] & H & ->)%fmap_Some.
  assert ((u', w') ∈ BUCKET_WIDTHS) as Hin.
  { assert ((u', w') ∈ filter (λ kv, kv.1 = u) BUCKET_WIDTHS) as Hf by (destruct (filter _ _); [done|injection H as ->; left]).
    by apply list_elem_of_filter in Hf as [_ ?]. }
  repeat (apply elem_of_cons in Hin as [[= -> ->]|Hin]; [done|]). by apply not_elem_of_nil in Hin.
Qed.

(** The number of buckets never exceeds the span over the width, rounded up, plus one. *)
Lemma floor_gap a b w : 0 < w → a <= b → b / w - a / w <= ceil_div (b - a) w.
Proof. intros Hw Hab. unfold ceil_div. Z.to_euclidean_division_equations. nia. Qed.
Lemma floor_span a n w : 0 < w → (a + n * w) / w = a / w + n.
Proof. intros Hw. rewrite Z.div_add by lia. done. Qed.

(** Every default fits. *)
Lemma defaultBucket_fits h : 1 <= h <= MAX_WINDOW_HOURS →
  ∃ w, bucket_width (defaultBucket h) = Some w ∧ ceil_div (h * HOUR_MS) w + 1 <= MAX_BUCKETS.
Proof.
  intros Hh.
  assert (forallb (λ n, match bucket_width (defaultBucket (Z.of_nat n)) with
            | Some w => ceil_div (Z.of_nat n * HOUR_MS) w + 1 <=? MAX_BUCKETS | None => false end) (seq 1 720) = true) as Hall
    by (vm_compute; reflexivity).
  rewrite forallb_forall in Hall. specialize (Hall (Z.to_nat h)).
  rewrite Z2Nat.id in Hall by lia. unfold MAX_WINDOW_HOURS in Hh.
  destruct (bucket_width (defaultBucket h)) as [w|]; [|by discriminate Hall; apply in_seq; lia].
  exists w. split; [done|]. apply Z.leb_le, Hall, in_seq. lia.
Qed.

Lemma planSeries_eq w unit width : bucket_width (default (defaultBucket (w_hours w)) unit) = Some width →
  let first := w_from w / width in
  let count := w_to w / width - first + 1 in
  planSeries w unit =
    if MAX_BUCKETS <? count then throw invalid_request "is more buckets than the ceiling. Ask for a coarser bucket."
    else Ok (MkSeriesPlan (default (defaultBucket (w_hours w)) unit) width
           (map (λ i, MkBucket ((first + Z.of_nat i) * width) ((first + Z.of_nat i + 1) * width)) (seq 0 (Z.to_nat count)))
           (first * width <? w_from w)).
Proof.
  intros Hw first count. unfold planSeries. rewrite Hw. pose proof (bucket_width_pos _ _ Hw).
  replace ((w_to w / width * width - w_from w / width * width) / width + 1) with count
    by (subst count first; rewrite <- Z.mul_sub_distr_r, Z.div_mul; lia).
  destruct (MAX_BUCKETS <? count); [done|]. do 2 f_equal. apply map_ext. intros i. f_equal; subst first; lia.
Qed.

(** Time [t] falls in the bucket that starts at [t / width * width] and in no other. *)
Lemma bucket_unique width first i t : 0 < width →
  range ((first + Z.of_nat i) * width) ((first + Z.of_nat i + 1) * width) t = true ↔ Z.of_nat i = t / width - first.
Proof.
  intros Hw. unfold range. rewrite andb_true_iff, Z.leb_le, Z.ltb_lt. split.
  - intros [H1 H2]. enough (t / width = first + Z.of_nat i) by lia.
    symmetry. apply (Z.div_unique_pos t width _ (t - width * (first + Z.of_nat i))); lia.
  - intros H. pose proof (Z.mul_div_le t width Hw). pose proof (Z.mul_succ_div_gt t width Hw). nia.
Qed.

(** The bars of a chart.  For every admitted window the default width fits under the
    ceiling of thirty-two buckets and is never refused; an explicit width is
    refused exactly when it is not a unit or needs more than thirty-two aligned
    buckets.  What is planned is aligned to the width and touches the window,
    every instant of the window falls in exactly one bucket, the first bucket is
    said to be partial exactly when it begins before the window, and a width that
    divides the window yields one bucket more than the quotient. *)
Theorem series_plan (hours : option num) (now : Z) (w : AnalyticsWindow)
    (Hwindow : resolveWindow hours now = Ok w) (unit : option string) :
  (unit = None → is_ok (planSeries w unit) = true)
  ∧ match planSeries w unit with
    | Ok plan =>
        Z.of_nat (length (sp_buckets plan)) <= MAX_BUCKETS
        ∧ bucket_width (sp_unit plan) = Some (sp_widthMs plan)
        ∧ (∀ i b, sp_buckets plan !! i = Some b →
             b_end b = b_start b + sp_widthMs plan ∧ b_start b mod sp_widthMs plan = 0
             ∧ w_from w < b_end b ∧ b_start b <= w_to w)
        ∧ (∀ t, w_from w <= t <= w_to w → ∃ i, is_Some (sp_buckets plan !! i)
             ∧ ∀ j b, sp_buckets plan !! j = Some b → (range (b_start b) (b_end b) t = true ↔ j = i))
        ∧ (∀ b, sp_buckets plan !! 0%nat = Some b → sp_leadingPartial plan = (b_start b <? w_from w))
        ∧ (∀ n, w_hours w * HOUR_MS = n * sp_widthMs plan → Z.of_nat (length (sp_buckets plan)) = n + 1)
    | Throw _ =>
        ∃ u, unit = Some u ∧ (bucket_width u = None
          ∨ ∃ width, bucket_width u = Some width ∧ MAX_BUCKETS < w_to w / width - w_from w / width + 1)
    end.
Proof.
  apply resolveWindow_Ok in Hwindow as (Hh & Hto & Hfrom).
  assert (0 < w_hours w * HOUR_MS) as Hspan by (unfold HOUR_MS; lia).
  assert (∀ width, bucket_width (defaultBucket (w_hours w)) = Some width →
            w_to w / width - w_from w / width + 1 <= MAX_BUCKETS) as Hdefault.
  { intros width Hwd. destruct (defaultBucket_fits _ Hh) as (wd & Hwd' & Hfit). rewrite Hwd' in Hwd. injection Hwd as ->.
    pose proof (floor_gap (w_from w) (w_to w) width (bucket_width_pos _ _ Hwd') ltac:(lia)).
    replace (w_to w - w_from w) with (w_hours w * HOUR_MS) in * by lia. lia. }
  destruct (bucket_width (default (defaultBucket (w_hours w)) unit)) as [width|] eqn:Hwd.
  2: { destruct unit as [u|]; cbn in Hwd.
       - split; [done|]. unfold planSeries. cbn [default]. cbn. rewrite Hwd. exists u. auto.
       - destruct (defaultBucket_fits _ Hh) as (? & ? & _). congruence. }
  pose proof (bucket_width_pos _ _ Hwd) as Hpos. rewrite (planSeries_eq w unit width Hwd).
  set (first := w_from w / width). set (count := w_to w / width - first + 1).
  assert (first <= w_to w / width) as Hle by (apply Z.div_le_mono; lia).
  destruct (Z.ltb_spec MAX_BUCKETS count) as [Hmany|Hfew].
  { destruct unit as [u|]; cbn in Hwd.
    - split; [done|]. exists u. split; [done|]. right. by exists width.
    - specialize (Hdefault width Hwd). lia. }
  split; [done|]. cbn [sp_buckets sp_unit sp_widthMs sp_leadingPartial]. rewrite length_map, length_seq.
  split_and!; [lia|done| | | |].
  - intros i b (j & -> & [-> Hi]%lookup_seq)%list_lookup_fmap_Some. cbn [b_start b_end].
    pose proof (Z.mul_succ_div_gt (w_from w) width Hpos). pose proof (Z.mul_div_le (w_to w) width Hpos).
    split_and!; [lia|apply Z.mod_mul; lia|nia|]. assert (first + Z.of_nat (0 + i) <= w_to w / width) by lia. nia.
  - intros t Ht.
    assert (first <= t / width <= w_to w / width) as Hin by (split; apply Z.div_le_mono; lia).
    exists (Z.to_nat (t / width - first)). split.
    + apply lookup_lt_is_Some. rewrite length_map, length_seq. lia.
    + intros j b (k & -> & [-> Hj]%lookup_seq)%list_lookup_fmap_Some. cbn [b_start b_end]. rewrite bucket_unique by done. lia.
  - intros b (j & -> & [-> _]%lookup_seq)%list_lookup_fmap_Some. cbn [b_start]. f_equal. lia.
  - intros n Hn. pose proof (floor_span (w_from w) n width Hpos) as Hs.
    replace (w_from w + n * width) with (w_to w) in Hs by lia. fold first in Hs. lia.
Qed.

(** A day seen at 14:37: hourly bars, the first of them begins before the window. *)
Definition day_window : AnalyticsWindow := MkWindow 24 (-33780000) 52620000 (-120180000) (-33780000).
Lemma series_plan_witness :
  resolveWindow None 52620000 = Ok day_window
  ∧ match planSeries day_window None with
    | Ok plan => sp_unit plan = "1h" ∧ length (sp_buckets plan) = 25%nat ∧ sp_leadingPartial plan = true
    | Throw _ => False
    end
  ∧ is_ok (planSeries day_window None) = true
  ∧ is_ok (planSeries day_window (Some "15m")) = false.
Proof.
  assert (resolveWindow None 52620000 = Ok day_window) as H by (vm_compute; reflexivity).
  split; [exact H|]. split; [vm_compute; auto|]. split; [|vm_compute; reflexivity].
  exact (proj1 (series_plan None 52620000 day_window H None) eq_refl).
Defined.

(** ** The pool *)

Section pool_facts.
  Context {TIn TOut : Type} (items : list TIn) (limit : nat) (run : TIn → result TOut → Prop).
  Notation pool_run := (pool_run items limit run).
  Notation pool_step := (pool_step items run).

(** Every item taken is in the hands of a worker or has its result in its own place. *)
Record pool_inv (s : pool TOut) : Prop := {
  pi_length : length (results s) = length items;
  pi_workers : length (workers s) = Nat.min limit (length items);
  pi_taken index item : (index < next s)%nat → items !! index = Some item →
    (∃ v, results s !! index = Some (Some v) ∧ run item (Ok v))
    ∨ Running index ∈ workers s ∨ ∃ e, Threw e ∈ workers s;
  pi_running index : Running index ∈ workers s → (index < length items)%nat;
  pi_returned : Returned ∈ workers s → (length items <= next s)%nat
}.

Lemma elem_insert {A} (l : list A) i x y z : l !! i = Some x → z ∈ l → z = x ∨ z ∈ <[i := y]> l.
Proof.
  intros Hi (j & Hj)%list_elem_of_lookup. destruct (decide (j = i)) as [->|Hne]; [left; congruence|].
  right. apply list_elem_of_lookup. exists j. by rewrite list_lookup_insert_ne.
Qed.
Lemma elem_of_insert_here {A} (l : list A) i x y : l !! i = Some x → y ∈ <[i := y]> l.
Proof. intros Hi. apply list_elem_of_lookup. exists i. apply list_lookup_insert_eq. by eapply lookup_lt_Some. Qed.
Lemma elem_of_insert_inv {A} (l : list A) i y z : z ∈ <[i := y]> l → z = y ∨ z ∈ l.
Proof.
  intros (j & Hj)%list_elem_of_lookup. destruct (decide (j = i)) as [->|Hne].
  - left. assert (i < length l)%nat by (apply lookup_lt_Some in Hj; by rewrite length_insert in Hj).
    rewrite list_lookup_insert_eq in Hj by done. congruence.
  - right. rewrite list_lookup_insert_ne in Hj by done. apply list_elem_of_lookup. by exists j.
Qed.

Lemma pool_inv_start : pool_inv (pool_start items limit).
Proof.
  split; cbn; [by rewrite length_replicate..|lia| |]; [intros index|]; intros [? _]%elem_of_replicate; done.
Qed.

Lemma pool_inv_step s s' : pool_inv s → pool_step s s' → pool_inv s'.
Proof.
  intros [Hl Hw Ht Hg Hr] Hstep.
  destruct Hstep as [w i rs s <- Hi <- Hn|w i rs s <- Hi <- Hn|w i rs s index item v <- Hi <- Hit Hrun|w i rs s index item e <- Hi <- Hit Hrun];
    split; cbn [next workers results]; rewrite ?length_insert; try done;
    try (intros j [Hj|Hj]%elem_of_insert_inv; [done|by apply Hg]).
  - intros j it Hj Hit. destruct (decide (j = next s)) as [->|Hne].
    + right. left. by eapply elem_of_insert_here.
    + destruct (Ht j it ltac:(lia) Hit) as [?|[H|[e He]]]; [by left| |].
      * right. left. by destruct (elem_insert _ _ _ (Running (next s)) _ Hi H).
      * right. right. exists e. by destruct (elem_insert _ _ _ (Running (next s)) _ Hi He).
  - intros j [[= ->]|Hj]%elem_of_insert_inv; [done|by apply Hg].
  - intros [?|H]%elem_of_insert_inv; [done|]. specialize (Hr H). lia.
  - intros j it Hj Hit. assert (j < length items)%nat by (by eapply lookup_lt_Some).
    destruct (Ht j it ltac:(lia) Hit) as [?|[H'|[e He]]]; [by left| |].
    + right. left. by destruct (elem_insert _ _ _ Returned _ Hi H').
    + right. right. exists e. by destruct (elem_insert _ _ _ Returned _ Hi He).
  - lia.
  - intros j it Hj Hjt. destruct (decide (j = index)) as [->|Hne].
    + left. exists v. rewrite list_lookup_insert_eq by (rewrite Hl; by eapply lookup_lt_Some). split; [done|congruence].
    + rewrite list_lookup_insert_ne by done. destruct (Ht j it Hj Hjt) as [?|[H|[e He]]]; [by left| |].
      * right. left. destruct (elem_insert _ _ _ Idle _ Hi H) as [[= ?]|]; done.
      * right. right. exists e. by destruct (elem_insert _ _ _ Idle _ Hi He).
  - intros [?|H]%elem_of_insert_inv; [done|auto].
  - intros j it Hj Hjt. right. right. exists e. by eapply elem_of_insert_here.
  - intros [?|H]%elem_of_insert_inv; [done|auto].
Qed.

(** What is left to do. *)
Definition work_of (w : worker) : nat := match w with Idle => 1 | Running _ => 2 | _ => 0 end.
Definition work_left (s : pool TOut) : nat := 2 * (length items - next s) + sum_list_with work_of (workers s).

Lemma sum_insert (l : list worker) i x y : l !! i = Some x →
  (sum_list_with work_of (<[i := y]> l) + work_of x = sum_list_with work_of l + work_of y)%nat.
Proof.
  revert i. induction l as [|a l IH]; intros [|i] Hi; try done.
  - injection Hi as ->. cbn. lia.
  - specialize (IH i Hi). change (<[S i := y]> (a :: l)) with (a :: <[i := y]> l). cbn [sum_list_with]. lia.
Qed.
Lemma pool_step_work s s' : pool_step s s' → (work_left s' < work_left s)%nat.
Proof.
  intros Hstep. unfold work_left.
  destruct Hstep as [w i rs s <- Hi <- Hn|w i rs s <- Hi <- Hn|w i rs s index item v <- Hi <- Hit Hrun|w i rs s index item e <- Hi <- Hit Hrun];
    cbn [next workers]; match goal with |- context [<[_ := ?y]> _] => pose proof (sum_insert _ _ _ y Hi) end; cbn [work_of] in *; lia.
Qed.

Lemma pool_results (rs : list (option TOut)) : length rs = length items →
  (∀ index item, items !! index = Some item → ∃ v, rs !! index = Some (Some v) ∧ run item (Ok v)) →
  ∃ vs, rs = map Some vs ∧ Forall2 (λ item v, run item (Ok v)) items vs.
Proof.
  revert rs. induction items as [|x xs IH]; intros [|r rs] Hl H; cbn in Hl; try done.
  { by exists []. }
  destruct (H 0%nat x eq_refl) as (v & [= ->] & Hv).
  injection Hl as Hl. destruct (IH rs Hl (λ index item, H (S index) item)) as (vs & -> & Hvs).
  exists (v :: vs). split; [done|]. by constructor.
Qed.

Lemma pool_run_inv n s : pool_run n s → pool_inv s ∧ (n + work_left s <= 2 * length items + limit)%nat.
Proof.
  induction 1 as [|n s s' Hrun [IH1 IH2] Hstep].
  - split; [apply pool_inv_start|]. unfold work_left, pool_start. cbn [next workers].
    assert (∀ k, sum_list_with work_of (replicate k Idle) = k) as -> by (induction k; cbn; lia). lia.
  - split; [by eapply pool_inv_step|]. apply pool_step_work in Hstep. lia.
Qed.
End pool_facts.

(** C22. Bounded concurrency.  However the runs interleave, at most [limit] of them are in
    flight, every schedule ends after at most two steps per item and one per
    worker, a pool that can go no further has settled, and if no run threw then
    every item has the result of a run on that very item, at its own index. *)
Theorem pool_spec {TIn TOut : Type} (items : list TIn) (limit : nat) (Hlimit : (0 < limit)%nat)
    (run : TIn → result TOut → Prop) (Htotal : ∀ x, ∃ r, run x r)
    (n : nat) (s : pool TOut) (Hrun : pool_run items limit run n s) :
  (in_flight s <= limit)%nat
  ∧ (n <= 2 * length items + limit)%nat
  ∧ ((∀ s', ¬ pool_step items run s s') → Forall (λ w, settled w = true) (workers s))
  ∧ (Forall (λ w, w = Returned) (workers s) →
       ∃ vs, results s = map Some vs ∧ Forall2 (λ item v, run item (Ok v)) items vs).
Proof.
  destruct (pool_run_inv items limit run n s Hrun) as [[Hl Hw Ht Hg Hr] Hn]. split_and!; [|lia| |].
  - unfold in_flight. etrans; [apply length_filter|]. lia.
  - intros Hstuck. apply Forall_lookup. intros i w Hi. destruct w as [|index| |]; try done; exfalso.
    + destruct (Nat.lt_ge_cases (next s) (length items)); eapply Hstuck; [by eapply pool_take|by eapply pool_return].
    + destruct (lookup_lt_is_Some_2 items index) as [item Hit]; [apply Hg; by eapply list_elem_of_lookup_2|].
      destruct (Htotal item) as [[v|e] Hr']; eapply Hstuck; [by eapply pool_finish|by eapply pool_throw].
  - intros Hall. apply pool_results; [done|]. intros index item Hit.
    assert (index < length items)%nat as Hlt by (by eapply lookup_lt_Some).
    assert (Returned ∈ workers s) as Hret.
    { destruct (workers s) as [|w ws]; [cbn in Hw; lia|]. apply Forall_cons in Hall as [-> _]. left. }
    rewrite Forall_forall in Hall.
    destruct (Ht index item ltac:(specialize (Hr Hret); lia) Hit) as [?|[H|[e H]]]; [done|by specialize (Hall _ H)..].
Qed.

(** One worker, two items. *)
Definition succ_run (x : nat) (r : result nat) : Prop := r = Ok (S x).
Definition pool_end : pool nat := MkPool 3 [Returned] [Some 8%nat; Some 10%nat].
Lemma pool_end_reached : pool_run [7%nat; 9%nat] 1 succ_run 5 pool_end.
Proof.
  refine (pr_step _ _ _ _ (MkPool 2 [Idle] [Some 8%nat; Some 10%nat]) _ _ _).
  2: { exact (pool_return [7%nat; 9%nat] succ_run [Idle] 0 _ (MkPool 2 [Idle] [Some 8%nat; Some 10%nat]) eq_refl eq_refl eq_refl (le_n 2)). }
  refine (pr_step _ _ _ _ (MkPool 2 [Running 1] [Some 8%nat; None]) _ _ _).
  2: { exact (pool_finish [7%nat; 9%nat] succ_run [Running 1] 0 _ (MkPool 2 [Running 1] [Some 8%nat; None]) 1 9%nat 10%nat eq_refl eq_refl eq_refl eq_refl eq_refl). }
  refine (pr_step _ _ _ _ (MkPool 1 [Idle] [Some 8%nat; None]) _ _ _).
  2: { exact (pool_take [7%nat; 9%nat] succ_run [Idle] 0 _ (MkPool 1 [Idle] [Some 8%nat; None]) eq_refl eq_refl eq_refl (le_n 2)). }
  refine (pr_step _ _ _ _ (MkPool 1 [Running 0] [None; None]) _ _ _).
  2: { exact (pool_finish [7%nat; 9%nat] succ_run [Running 0] 0 _ (MkPool 1 [Running 0] [None; None]) 0 7%nat 8%nat eq_refl eq_refl eq_refl eq_refl eq_refl). }
  refine (pr_step _ _ _ _ (MkPool 0 [Idle] [None; None]) _ (pr_start [7%nat; 9%nat] 1 succ_run) _).
  apply (pool_take [7%nat; 9%nat] succ_run [Idle] 0 _ (MkPool 0 [Idle] [None; None]) eq_refl eq_refl eq_refl). cbn. lia.
Qed.
Lemma pool_spec_witness :
  pool_run [7%nat; 9%nat] 1 succ_run 5 pool_end
  ∧ ∃ vs, results pool_end = map Some vs ∧ Forall2 (λ item v, succ_run item (Ok v)) [7%nat; 9%nat] vs.
Proof.
  split; [exact pool_end_reached|].
  apply (pool_spec [7%nat; 9%nat] 1 ltac:(lia) succ_run (λ x, ex_intro _ (Ok (S x)) eq_refl) 5 pool_end pool_end_reached).
  constructor; [reflexivity|constructor].
Defined.
