(* ===== verification/Binary64.v ===== *)
(** The binary64 arithmetic of JavaScript numbers, on the executable
    specification of IEEE 754 of the Standard Library: the conversions and the
    four operations round to nearest even, [Math.ceil] and [Math.round] are
    exact on the value of their argument. *)
From Stdlib Require Import ZArith Lia SpecFloat.
From S2P Require Import Prelude.
Local Open Scope Z_scope.

Abbreviation f64 := spec_float.
Definition f64_of_Z (z : Z) : f64 := binary_normalize 53 1024 z 0 false.
Definition fmul : f64 → f64 → f64 := SFmul 53 1024.
Definition fdiv : f64 → f64 → f64 := SFdiv 53 1024.
Definition fsub : f64 → f64 → f64 := SFsub 53 1024.

(** [⌊(2 x + k) / 2⌋] of a finite value, 0 of the others *)
Definition floor_half (k : Z) (x : f64) : Z :=
  match x with
  | S754_finite s m e =>
      let v := if s then Zneg m else Zpos m in
      if 0 <=? e then (2 * v * 2 ^ e + k) / 2 else (2 * v + k * 2 ^ (- e)) / (2 * 2 ^ (- e))
  | _ => 0
  end.
(** [Math.ceil] *)
Definition fceil (x : f64) : Z := - floor_half 0 (SFopp x).
(** [Math.round]: the nearest integer, the larger one on a tie *)
Definition Math_round (x : f64) : Z := floor_half 1 x.

(** A decimal literal is the nearest number, which is what one division gives. *)
Definition literal (num den : Z) : f64 := fdiv (f64_of_Z num) (f64_of_Z den).

(** [Math.round(value * 10_000) / 10_000] *)
Definition round4 (value : f64) : f64 := fdiv (f64_of_Z (Math_round (fmul value (f64_of_Z 10000)))) (f64_of_Z 10000).

Example ceil_19 : fceil (fmul (literal 95 100) (f64_of_Z 20)) = 19.
Proof. vm_compute. reflexivity. Qed.
Example ceil_up : fceil (fmul (literal 95 100) (f64_of_Z 21)) = 20.
Proof. vm_compute. reflexivity. Qed.
Example round_tie : Math_round (literal 5 2) = 3 ∧ Math_round (SFopp (literal 5 2)) = -2 ∧ Math_round (literal 7 3) = 2.
Proof. vm_compute. auto. Qed.
Example two_thirds : round4 (literal 2 3) = literal 6667 10000.
Proof. vm_compute. reflexivity. Qed.
(** A rate is shown as whole although one delivery in a hundred thousand failed. *)
Example rounds_to_one : round4 (literal 99999 100000) = f64_of_Z 1.
Proof. vm_compute. reflexivity. Qed.
