(* ===== verification/Analytics.v ===== *)
(** Operator analytics: analytics/analytics.service.ts over the windows and
    buckets of Series.

    Every number is read from the ledger.  A route issues several statements and
    no transaction, so each of them is given the state it sees; the order in which
    PostgreSQL returns groups and rows, where the source asks for none or leaves
    ties open, is an argument. *)
From Stdlib Require Import ZArith Lia.
From S2P Require Import Prelude Js Permissions RetryRules AuditTrail Db Scope TenantScope Series Binary64.
Local Open Scope Z_scope.

(** ** Limits *)

Definition MAX_STATUS_GROUPS : Z := 16.
Definition MAX_ENDPOINT_RANKING : Z := 50.
Definition MAX_EVENT_TYPES : Z := 50.
Definition LATENCY_DELIVERY_SAMPLE : Z := MAX_PAGE_SIZE.
Definition LATENCY_ATTEMPT_SAMPLE : Z := MAX_PAGE_SIZE.
Definition SERIES_QUERY_CONCURRENCY : nat := 8.

Definition ALL_STATUSES : list DeliveryStatus.t :=
  [DeliveryStatus.pending; DeliveryStatus.scheduled; DeliveryStatus.queued; DeliveryStatus.processing;
   DeliveryStatus.succeeded; DeliveryStatus.failed; DeliveryStatus.retrying; DeliveryStatus.exhausted;
   DeliveryStatus.cancelled].
Definition FAILING : list DeliveryStatus.t := [DeliveryStatus.failed; DeliveryStatus.exhausted].
Definition IN_FLIGHT : list DeliveryStatus.t :=
  [DeliveryStatus.pending; DeliveryStatus.scheduled; DeliveryStatus.queued; DeliveryStatus.processing;
   DeliveryStatus.retrying].

(** ** Responses *)

Abbreviation StatusCounts := (DeliveryStatus.t → Z).
Definition total_of (counts : StatusCounts) (l : list DeliveryStatus.t) : Z := foldl (λ sum s, sum + counts s) 0 l.

Record DeliveryOutcomeSummary : Type := MkSummary {
  su_total : Z; su_succeeded : Z; su_failing : Z; su_exhausted : Z; su_in_flight : Z; su_cancelled : Z;
  su_success_rate : option f64; su_by_status : StatusCounts
}.
Record DeliveryOutcomes : Type := MkOutcomes {
  do_window : AnalyticsWindow; do_current : DeliveryOutcomeSummary; do_previous : DeliveryOutcomeSummary;
  do_success_rate_delta : option f64; do_total_delta : Z
}.
Record SeriesCounts : Type := MkCounts {
  delivered_first_try : Z; delivered_after_retry : Z; sc_failed : Z; sc_in_flight : Z; sc_cancelled : Z
}.
Record DeliverySeries : Type := MkSeries {
  ds_window : AnalyticsWindow; ds_bucket : string; ds_bucket_ms : Z; ds_leading_partial : bool;
  ds_buckets : list (SeriesBucket * SeriesCounts)
}.
Record FailingEndpoint : Type := MkFailing {
  fe_endpoint_id : string; fe_endpoint : option Endpoint.t; fe_failing : Z; fe_failed : Z; fe_exhausted : Z;
  fe_retrying : Z; fe_total : Z; fe_failure_rate : f64
}.
Record FailingEndpoints : Type := MkFailingList {
  fl_window : AnalyticsWindow; fl_data : list FailingEndpoint; fl_has_more : bool
}.
Record AttemptLatency : Type := MkLatency {
  la_window : AnalyticsWindow; la_p50 : option Z; la_p95 : option Z; la_p99 : option Z; la_min : option Z;
  la_max : option Z; la_sample_size : nat; la_exact : bool; la_sampled_deliveries : nat
}.
Record EventVolume : Type := MkVolume {
  ev_window : AnalyticsWindow; ev_total : Z; ev_previous_total : Z; ev_total_delta : Z;
  ev_by_type : list (jsstr * Z); ev_has_more : bool
}.

(** [total === 0 ? 0 : round(failing / total)] and the like *)
Definition rate (part whole : Z) : f64 := round4 (fdiv (f64_of_Z part) (f64_of_Z whole)).

Definition summarise (counts : StatusCounts) : DeliveryOutcomeSummary :=
  let total := total_of counts ALL_STATUSES in
  let failing := total_of counts FAILING in
  let inFlight := total_of counts IN_FLIGHT in
  let succeeded := counts DeliveryStatus.succeeded in
  let settled := succeeded + failing in
  MkSummary total succeeded failing (counts DeliveryStatus.exhausted) inFlight (counts DeliveryStatus.cancelled)
    (if settled =? 0 then None else Some (rate succeeded settled)) counts.

(** Nearest rank over an ascending sample; [percent] hundredths. *)
Definition percentile (ascending : list Z) (percent : Z) : option Z :=
  let n := Z.of_nat (length ascending) in
  let rank := fceil (fmul (literal percent 100) (f64_of_Z n)) in
  ascending !! Z.to_nat (Z.min (Z.max rank 1) n - 1).

(** ** Queries *)

Section Analytics.
  Context (arrange : ∀ K : Type, list (K * Z) → list (K * Z)) (by_count : ∀ K : Type, list (K * Z) → list (K * Z))
    (newest_first : list (string * Delivery.t) → list (string * Delivery.t))
    (unordered : ∀ R : Type, list (string * R) → list (string * R)) (c : Ctx).

(** The groups of [GROUP BY key], one per value that occurs, with its count. *)
Definition groups {R K} `{Table R} `{EqDecision K} (where_ : R → bool) (key : R → K) (db : Db) : list (K * Z) :=
  tally (map (λ kv, key kv.2) (map_to_list (matching c db (λ _ r, where_ r)))).

(** [counts[status] = n] *)
Definition set_count (counts : StatusCounts) (g : DeliveryStatus.t * Z) : StatusCounts :=
  λ s, if bool_decide (s = g.1) then g.2 else counts s.

Definition statusCounts (from to : Z) (db : Db) : result StatusCounts :=
  gs ← groupBy (arrange _ (groups (λ d, range from to (Delivery.createdAt d)) Delivery.status db))
         (Some (int MAX_STATUS_GROUPS)) None;
  Ok (foldl set_count (λ _, 0) gs).

Definition deliveryOutcomes (hours : option num) (now : Z) (db1 db2 : Db) : result DeliveryOutcomes :=
  window ← resolveWindow hours now;
  current ← statusCounts (w_from window) (w_to window) db1;
  previous ← statusCounts (w_previousFrom window) (w_previousTo window) db2;
  let cur := summarise current in
  let prev := summarise previous in
  Ok (MkOutcomes window cur prev
    (match su_success_rate cur, su_success_rate prev with
     | Some a, Some b => Some (round4 (fsub a b))
     | _, _ => None
     end)
    (su_total cur - su_total prev)).

Definition is_retried (d : Delivery.t) : bool :=
  bool_decide (Delivery.status d = DeliveryStatus.succeeded) && (1 <? Delivery.attemptCount d).

(** The two statements of a bucket see two states. *)
Definition bucketCounts (b : SeriesBucket) (dbs : Db * Db) : result SeriesCounts :=
  statuses ← statusCounts (b_start b) (b_end b) dbs.1;
  let retried := Z.of_nat (size (matching c dbs.2 (λ _ d, range (b_start b) (b_end b) (Delivery.createdAt d) && is_retried d))) in
  let succeeded := statuses DeliveryStatus.succeeded in
  let afterRetry := Z.min retried succeeded in
  Ok (MkCounts (succeeded - afterRetry) afterRetry (total_of statuses FAILING) (total_of statuses IN_FLIGHT)
        (statuses DeliveryStatus.cancelled)).

(** The results of the pool, in input order. *)
Fixpoint all_counts (l : list (SeriesBucket * (Db * Db))) : result (list (SeriesBucket * SeriesCounts)) :=
  match l with
  | [] => Ok []
  | (b, dbs) :: l =>
      n ← bucketCounts b dbs;
      rest ← all_counts l;
      Ok ((b, n) :: rest)
  end.

Definition deliverySeries (hours : option num) (bucket : option string) (now : Z) (dbs : nat → Db * Db)
    : result DeliverySeries :=
  window ← resolveWindow hours now;
  plan ← planSeries window bucket;
  counts ← all_counts (imap (λ i b, (b, dbs i)) (sp_buckets plan));
  Ok (MkSeries window (sp_unit plan) (sp_widthMs plan) (sp_leadingPartial plan) counts).

(** The inner Map of one endpoint: its groups of the breakdown. *)
Definition counts_of (breakdown : list (string * DeliveryStatus.t * Z)) (endpointId : string)
    : list (DeliveryStatus.t * Z) :=
  omap (λ g, if bool_decide (g.1.1 = endpointId) then Some (g.1.2, g.2) else None) breakdown.
Definition at_status (counts : list (DeliveryStatus.t * Z)) (s : DeliveryStatus.t) : Z :=
  default 0 (snd <$> head (filter (λ g, g.1 = s) counts)).

Definition failing_endpoint (breakdown : list (string * DeliveryStatus.t * Z)) (rows : list (string * Endpoint.t))
    (endpointId : string) : FailingEndpoint :=
  let counts := counts_of breakdown endpointId in
  let total := foldl (λ sum g, sum + g.2) 0 counts in
  let failed := at_status counts DeliveryStatus.failed in
  let exhausted := at_status counts DeliveryStatus.exhausted in
  let failing := failed + exhausted in
  MkFailing endpointId (list_to_map (M:=gmap string Endpoint.t) rows !! endpointId) failing failed exhausted
    (at_status counts DeliveryStatus.retrying) total (if total =? 0 then f64_of_Z 0 else rate failing total).

Definition failingEndpoints (hours : option num) (limit_ : option Z) (now : Z) (db1 db2 db3 : Db)
    : result FailingEndpoints :=
  window ← resolveWindow hours now;
  let limit := Z.min (default 10 limit_) MAX_ENDPOINT_RANKING in
  let created d := range (w_from window) (w_to window) (Delivery.createdAt d) in
  ranked ← groupBy (by_count _ (groups (λ d, created d && bool_decide (Delivery.status d ∈ FAILING)) Delivery.endpointId db1))
             (Some (int (limit + 1))) None;
  let hasMore := limit <? Z.of_nat (length ranked) in
  let ranked := if hasMore then take (Z.to_nat limit) ranked else ranked in
  let endpointIds := ranked.*1 in
  if bool_decide (endpointIds = []) then Ok (MkFailingList window [] false)
  else
    breakdown ← groupBy (arrange _ (groups (λ d, created d && bool_decide (Delivery.endpointId d ∈ endpointIds))
                           (λ d, (Delivery.endpointId d, Delivery.status d)) db2))
                  (Some (int (MAX_ENDPOINT_RANKING * Z.of_nat (length ALL_STATUSES)))) None;
    rows ← findMany (unordered _ (map_to_list (matching c db3 (λ id (_ : Endpoint.t), bool_decide (id ∈ endpointIds)))))
             (Some (int limit)) None;
    Ok (MkFailingList window (map (failing_endpoint breakdown rows) endpointIds) hasMore).

Definition attemptLatency (hours : option num) (now : Z) (db1 db2 : Db) : result AttemptLatency :=
  window ← resolveWindow hours now;
  let sample := findPage (newest_first (map_to_list
    (matching c db1 (λ _ d, range (w_from window) (w_to window) (Delivery.createdAt d)))))
    (Some (int LATENCY_DELIVERY_SAMPLE)) None in
  if bool_decide (p_rows sample = []) then
    Ok (MkLatency window None None None None None 0 (negb (p_hasMore sample)) 0)
  else
    let attempts := findPage (unordered _ (map_to_list (matching c db2 (λ _ a,
      bool_decide (DeliveryAttempt.deliveryId a ∈ (p_rows sample).*1)
      && bool_decide (is_Some (DeliveryAttempt.durationMs a)))))) (Some (int LATENCY_ATTEMPT_SAMPLE)) None in
    let durations := merge_sort Z.le (omap (λ kv, DeliveryAttempt.durationMs kv.2) (p_rows attempts)) in
    if bool_decide (durations = []) then
      Ok (MkLatency window None None None None None 0 (negb (p_hasMore sample)) (length (p_rows sample)))
    else
      Ok (MkLatency window (percentile durations 50) (percentile durations 95) (percentile durations 99)
            (head durations) (last durations) (length durations) (negb (p_hasMore sample) && negb (p_hasMore attempts))
            (length (p_rows sample))).

Definition eventVolume (hours : option num) (limit_ : option Z) (now : Z) (db1 db2 db3 : Db) : result EventVolume :=
  window ← resolveWindow hours now;
  let limit := Z.min (default 10 limit_) MAX_EVENT_TYPES in
  let total := Z.of_nat (size (matching c db1 (λ _ e, range (w_from window) (w_to window) (Event.createdAt e)))) in
  let previousTotal := Z.of_nat (size (matching c db2 (λ _ e,
    range (w_previousFrom window) (w_previousTo window) (Event.createdAt e)))) in
  byType ← groupBy (by_count _ (groups (λ e, range (w_from window) (w_to window) (Event.createdAt e)) Event.eventType db3))
             (Some (int (limit + 1))) None;
  let hasMore := limit <? Z.of_nat (length byType) in
  Ok (MkVolume window total previousTotal (total - previousTotal)
        (if hasMore then take (Z.to_nat limit) byType else byType) hasMore).
End Analytics.

(** ** Counting the ledger *)

(** The rows of the tenant, and how many of them satisfy a condition: what every
    number of a response is compared with. *)
Definition ledger {R} `{Table R} (c : Ctx) (db : Db) : list R := (map_to_list (matching c db (λ _ (_ : R), true))).*2.
Definition howmany {R} `{Table R} (c : Ctx) (db : Db) (p : R → bool) : Z :=
  Z.of_nat (length (filter (λ r, p r = true) (ledger c db))).

Lemma length_filter_snd {A B} (P : B → Prop) `{!∀ x, Decision (P x)} (l : list (A * B)) :
  length (filter P l.*2) = length (filter (λ kv, P kv.2) l).
Proof.
  induction l as [|[a b] l IH]; [done|]. cbn [fmap list_fmap snd]. rewrite !filter_cons. cbn [snd].
  destruct (decide (P b)); cbn; by rewrite IH.
Qed.

Lemma matching_true {R} `{Table R} c db (p : R → bool) :
  matching c db (λ _ r, p r) = filter (λ kv, p kv.2 = true) (matching c db (λ _ _, true)).
Proof.
  apply map_eq. intros i. apply option_eq. intros r.
  rewrite map_lookup_filter_Some, !matching_lookup. cbn. naive_solver.
Qed.
Lemma size_matching {R} `{Table R} c db (p : R → bool) :
  Z.of_nat (size (matching c db (λ _ r, p r))) = howmany c db p.
Proof.
  unfold howmany, ledger. rewrite length_filter_snd, length_filter_list, <- matching_true. done.
Qed.

Lemma groups_elem {R K} `{Table R} `{EqDecision K} c (w : R → bool) (key : R → K) db k n :
  (k, n) ∈ groups c w key db ↔ n = howmany c db (λ r, w r && bool_decide (key r = k)) ∧ 0 < n.
Proof.
  unfold groups. rewrite (tally_map_elem (λ kv : string * R, key kv.2)). unfold howmany, ledger.
  rewrite length_filter_snd, length_filter_list, length_filter_list, matching_true.
  enough (filter (λ x : string * R, key x.2 = k) (filter (λ kv, w kv.2 = true) (matching c db (λ _ _, true)))
          = filter (λ kv, w kv.2 && bool_decide (key kv.2 = k) = true) (matching c db (λ _ _, true))) as -> by done.
  rewrite map_filter_filter. apply map_filter_ext. intros i r _. cbn. rewrite andb_true_iff, bool_decide_eq_true. tauto.
Qed.
Lemma groups_nodup {R K} `{Table R} `{EqDecision K} c (w : R → bool) (key : R → K) db : NoDup (groups c w key db).*1.
Proof. unfold groups. rewrite tally_fst. apply NoDup_remove_dups. Qed.

Lemma howmany_nonneg {R} `{Table R} c db (p : R → bool) : 0 <= howmany c db p.
Proof. unfold howmany. lia. Qed.
Lemma howmany_ext {R} `{Table R} c db (p q : R → bool) : (∀ r, p r = q r) → howmany c db p = howmany c db q.
Proof. intros Hpq. unfold howmany. do 2 f_equal. apply list_filter_iff. intros r. by rewrite Hpq. Qed.
Lemma howmany_le {R} `{Table R} c db (p q : R → bool) : (∀ r, p r = true → q r = true) → howmany c db p <= howmany c db q.
Proof.
  intros Hpq. unfold howmany. apply Nat2Z.inj_le. induction (ledger c db) as [|a l IH]; [done|]. rewrite !filter_cons.
  specialize (Hpq a). destruct (p a), (q a); repeat case_decide; try done; cbn; lia || (by specialize (Hpq eq_refl)).
Qed.

Lemma howmany_none {R} `{Table R} c db (p : R → bool) : (∀ r, p r = false) → howmany c db p = 0.
Proof.
  intros Hp. unfold howmany. induction (ledger c db) as [|a l IH]; [done|]. rewrite filter_cons, Hp. by case_decide.
Qed.

(** Splitting a count by a condition. *)
Lemma howmany_split {R} `{Table R} c db (p q : R → bool) :
  howmany c db p = howmany c db (λ r, p r && q r) + howmany c db (λ r, p r && negb (q r)).
Proof.
  unfold howmany. rewrite <- Nat2Z.inj_add. f_equal. induction (ledger c db) as [|a l IH]; [done|]. rewrite !filter_cons.
  destruct (p a), (q a); repeat case_decide; try done; cbn; lia.
Qed.

Lemma nodup_statuses (l : list DeliveryStatus.t) : NoDup l → (length l <= 9)%nat.
Proof.
  intros Hn. change 9%nat with (length ALL_STATUSES). apply submseteq_length, NoDup_submseteq; [done|].
  intros s _. destruct s; set_solver.
Qed.

Lemma fold_counts gs z s : NoDup gs.*1 →
  (∀ n, (s, n) ∈ gs → foldl set_count z gs s = n) ∧ (s ∉ gs.*1 → foldl set_count z gs s = z s).
Proof.
  revert z. induction gs as [|[s' n'] gs IH]; intros z Hn; cbn in *.
  { split; [by intros n ?%not_elem_of_nil|done]. }
  apply NoDup_cons in Hn as [Hs' Hn]. destruct (IH (set_count z (s', n')) Hn) as [IH1 IH2]. split.
  - intros n [[= -> ->]|Hin]%elem_of_cons; [|by apply IH1]. rewrite IH2 by done. unfold set_count. by rewrite bool_decide_eq_true_2.
  - intros [Hne Hni]%not_elem_of_cons. rewrite IH2 by done. unfold set_count. by rewrite bool_decide_eq_false_2.
Qed.

Section facts.
  Context (arrange : ∀ K : Type, list (K * Z) → list (K * Z)) (Harrange : ∀ K l, arrange K l ≡ₚ l) (c : Ctx).

(** The grouped statement counts every status, the absent ones as zero. *)
Lemma statusCounts_run from to db :
  ∃ f, statusCounts arrange c from to db = Ok f
    ∧ ∀ s, f s = howmany c db (λ d, range from to (Delivery.createdAt d) && bool_decide (Delivery.status d = s)).
Proof.
  unfold statusCounts. rewrite groupBy_page. cbn [mbind result_bind].
  set (gs := arrange _ _). change (Z.to_nat (default 0 (offset None))) with 0%nat. rewrite drop_0.
  assert (NoDup gs.*1) as Hn by (unfold gs; rewrite Harrange; apply groups_nodup).
  assert (take (Z.to_nat (pageSize (Some (int MAX_STATUS_GROUPS)))) gs = gs) as ->.
  { apply take_ge. change (Z.to_nat _) with 16%nat. apply nodup_statuses in Hn. rewrite length_fmap in Hn. lia. }
  eexists. split; [done|]. intros s. destruct (fold_counts gs (λ _, 0) s Hn) as [H1 H2].
  destruct (decide (s ∈ gs.*1)) as [([s' n] & -> & Hin)%list_elem_of_fmap|Hno].
  - rewrite (H1 n Hin). unfold gs in Hin. rewrite Harrange in Hin. by apply groups_elem in Hin as [-> _].
  - rewrite H2 by done. symmetry. pose proof (howmany_nonneg c db (λ d, range from to (Delivery.createdAt d) && bool_decide (Delivery.status d = s))).
    destruct (decide (0 < howmany c db (λ d, range from to (Delivery.createdAt d) && bool_decide (Delivery.status d = s)))) as [Hp|]; [|lia].
    destruct Hno. apply list_elem_of_fmap. exists (s, howmany c db (λ d, range from to (Delivery.createdAt d) && bool_decide (Delivery.status d = s))).
    split; [done|]. unfold gs. rewrite Harrange. by apply groups_elem.
Qed.

End facts.

(** A list of different statuses counts the rows whose status is in it. *)
Lemma total_of_statuses c db (p : Delivery.t → bool) (f : StatusCounts) (l : list DeliveryStatus.t) : NoDup l →
  (∀ s, f s = howmany c db (λ d, p d && bool_decide (Delivery.status d = s))) →
  total_of f l = howmany c db (λ d, p d && bool_decide (Delivery.status d ∈ l)).
Proof.
  intros Hn Hf. unfold total_of.
  enough (∀ z, foldl (λ sum s, sum + f s) z l = z + howmany c db (λ d, p d && bool_decide (Delivery.status d ∈ l))) as -> by lia.
  induction l as [|s l IH]; intros z; cbn [foldl].
  - rewrite howmany_none; [lia|]. intros d. rewrite (bool_decide_eq_false_2 (_ ∈ [])); [by rewrite andb_false_r|apply not_elem_of_nil].
  - apply NoDup_cons in Hn as [Hs Hn]. rewrite (IH Hn).
    rewrite (howmany_split c db (λ d, _ && bool_decide (Delivery.status d ∈ s :: l)) (λ d, bool_decide (Delivery.status d = s))).
    rewrite Hf, <- Z.add_assoc. do 2 f_equal; apply howmany_ext; intros d; destruct (p d); cbn; try done;
      repeat case_bool_decide; set_solver.
Qed.

(** ** The series *)

Definition in_bucket (b : SeriesBucket) (d : Delivery.t) : bool := range (b_start b) (b_end b) (Delivery.createdAt d).
Definition has_status (l : list DeliveryStatus.t) (d : Delivery.t) : bool := bool_decide (Delivery.status d ∈ l).
Definition bar_total (n : SeriesCounts) : Z :=
  delivered_first_try n + delivered_after_retry n + sc_failed n + sc_in_flight n + sc_cancelled n.

(** What a bar says of the two states its statements saw. *)
Record bar_exact (c : Ctx) (b : SeriesBucket) (dbs : Db * Db) (n : SeriesCounts) : Prop := {
  be_first : 0 <= delivered_first_try n;
  be_after : 0 <= delivered_after_retry n;
  be_succeeded : delivered_first_try n + delivered_after_retry n
    = howmany c dbs.1 (λ d, in_bucket b d && has_status [DeliveryStatus.succeeded] d);
  be_failed : sc_failed n = howmany c dbs.1 (λ d, in_bucket b d && has_status FAILING d);
  be_in_flight : sc_in_flight n = howmany c dbs.1 (λ d, in_bucket b d && has_status IN_FLIGHT d);
  be_cancelled : sc_cancelled n = howmany c dbs.1 (λ d, in_bucket b d && has_status [DeliveryStatus.cancelled] d);
  be_total : bar_total n = howmany c dbs.1 (in_bucket b);
  be_retried : dbs.1 = dbs.2 → delivered_after_retry n = howmany c dbs.1 (λ d, in_bucket b d && is_retried d)
}.

(** Buckets that follow each other from [a] to [z]. *)
Fixpoint tiles (a z : Z) (l : list SeriesBucket) : Prop :=
  match l with
  | [] => a = z
  | b :: l => b_start b = a ∧ a <= b_end b ∧ tiles (b_end b) z l
  end.

Lemma tiles_le a z l : tiles a z l → a <= z.
Proof. revert a. induction l as [|b l IH]; intros a; cbn; [lia|]. intros (_ & H & Hl%IH). lia. Qed.
Lemma tiles_sum c db a z l : tiles a z l →
  sum_list_with Z.to_nat (map (λ b, howmany c db (in_bucket b)) l)
  = Z.to_nat (howmany c db (λ d, range a z (Delivery.createdAt d))).
Proof.
  revert a. induction l as [|b l IH]; intros a; cbn [tiles map sum_list_with].
  - intros ->. rewrite howmany_none; [done|]. intros d. unfold range. destruct (Z.leb_spec z (Delivery.createdAt d)); cbn; [|done].
    by apply Z.ltb_ge.
  - intros (<- & Hle & Hl). rewrite (IH _ Hl). pose proof (tiles_le _ _ _ Hl).
    rewrite (howmany_split c db (λ d, range (b_start b) z (Delivery.createdAt d)) (λ d, Delivery.createdAt d <? b_end b)).
    rewrite Z2Nat.inj_add by apply howmany_nonneg.
    f_equal; f_equal; apply howmany_ext; intros d; unfold in_bucket, range;
      destruct (Z.leb_spec (b_start b) (Delivery.createdAt d)), (Z.ltb_spec (Delivery.createdAt d) (b_end b)),
        (Z.ltb_spec (Delivery.createdAt d) z), (Z.leb_spec (b_end b) (Delivery.createdAt d)); cbn; done || lia.
Qed.

Lemma plan_tiles w unit plan : planSeries w unit = Ok plan →
  ∃ a z, tiles a z (sp_buckets plan) ∧ (∀ b, head (sp_buckets plan) = Some b → b_start b = a)
    ∧ (∀ b, last (sp_buckets plan) = Some b → b_end b = z).
Proof.
  intros Hp. destruct (bucket_width (default (defaultBucket (w_hours w)) unit)) as [width|] eqn:Hw;
    [|unfold planSeries in Hp; by rewrite Hw in Hp].
  rewrite (planSeries_eq w unit width Hw) in Hp. pose proof (bucket_width_pos _ _ Hw) as Hpos.
  destruct (MAX_BUCKETS <? _); [done|]. injection Hp as <-. cbn [sp_buckets].
  set (first := w_from w / width). set (n := Z.to_nat _). clearbody n.
  set (mk := λ i : nat, MkBucket ((first + Z.of_nat i) * width) ((first + Z.of_nat i + 1) * width)).
  exists (first * width), ((first + Z.of_nat n) * width).
  assert (∀ k m, tiles ((first + Z.of_nat k) * width) ((first + Z.of_nat (k + m)) * width) (map mk (seq k m))) as Ht.
  { intros k m. revert k. induction m as [|m IH]; intros k; cbn [seq map tiles]; [by rewrite Nat.add_0_r|].
    split_and!; [done|cbn; lia|]. specialize (IH (S k)). replace (k + S m)%nat with (S k + m)%nat by lia.
    cbn [mk b_end]. replace (first + Z.of_nat k + 1) with (first + Z.of_nat (S k)) by lia. exact IH. }
  split_and!.
  - specialize (Ht 0%nat n). rewrite Z.add_0_r in Ht. exact Ht.
  - destruct n; cbn; [done|]. intros b [= <-]. cbn. lia.
  - destruct n as [|n]; [done|]. rewrite seq_S, map_app. cbn [map]. rewrite last_snoc. intros b [= <-]. cbn. lia.
Qed.

Section series.
  Context (arrange : ∀ K : Type, list (K * Z) → list (K * Z)) (Harrange : ∀ K l, arrange K l ≡ₚ l) (c : Ctx).

Lemma bucketCounts_run b dbs : ∃ n, bucketCounts arrange c b dbs = Ok n ∧ bar_exact c b dbs n.
Proof.
  unfold bucketCounts. destruct (statusCounts_run arrange Harrange c (b_start b) (b_end b) dbs.1) as (f & -> & Hf).
  cbn [mbind result_bind]. eexists. split; [reflexivity|]. rewrite size_matching.
  set (in_b := λ l d, in_bucket b d && has_status l d).
  assert (∀ l, NoDup l → total_of f l = howmany c dbs.1 (in_b l)) as Htotal.
  { intros l Hl. by apply (total_of_statuses c dbs.1 (in_bucket b) f l Hl). }
  assert (∀ s, f s = howmany c dbs.1 (in_b [s])) as Hone.
  { intros s. rewrite <- Htotal by apply NoDup_singleton. unfold total_of. cbn. lia. }
  pose proof (Htotal FAILING ltac:(repeat constructor; set_solver)) as Hfail.
  pose proof (Htotal IN_FLIGHT ltac:(repeat constructor; set_solver)) as Hfly.
  pose proof (Htotal ALL_STATUSES ltac:(repeat constructor; set_solver)) as Hall.
  set (retried := howmany c dbs.2 _). pose proof (howmany_nonneg c dbs.2 (λ d, range (b_start b) (b_end b) (Delivery.createdAt d) && is_retried d)) as H0.
  fold retried in H0. pose proof (howmany_nonneg c dbs.1 (in_b [DeliveryStatus.succeeded])) as Hs0. rewrite <- Hone in Hs0.
  split; cbn [delivered_first_try delivered_after_retry sc_failed sc_in_flight sc_cancelled].
  - lia.
  - lia.
  - change (λ d, _) with (in_b [DeliveryStatus.succeeded]). rewrite <- Hone. lia.
  - exact Hfail.
  - exact Hfly.
  - exact (Hone DeliveryStatus.cancelled).
  - unfold bar_total. cbn [delivered_first_try delivered_after_retry sc_failed sc_in_flight sc_cancelled].
    rewrite (howmany_ext c dbs.1 (in_bucket b) (in_b ALL_STATUSES)).
    + rewrite <- Hall. unfold total_of, ALL_STATUSES, FAILING, IN_FLIGHT. cbn [foldl]. lia.
    + intros d. unfold in_b, has_status. rewrite bool_decide_eq_true_2; [by rewrite andb_true_r|].
      destruct (Delivery.status d); unfold ALL_STATUSES; set_solver.
  - intros E. unfold retried. rewrite <- E. apply Z.min_l. rewrite Hone. apply howmany_le. intros d. unfold in_b, is_retried, has_status.
    change (range _ _ _) with (in_bucket b d). destruct (in_bucket b d); [|done]. cbn. intros H; bprop.
    apply bool_decide_eq_true_2. set_solver.
Qed.

Lemma all_counts_run l : ∃ out, all_counts arrange c l = Ok out
  ∧ Forall2 (λ x y, y.1 = x.1 ∧ bar_exact c x.1 x.2 y.2) l out.
Proof.
  induction l as [|[b dbs] l (out & IH & Hout)]; [by exists []|]. cbn [all_counts].
  destruct (bucketCounts_run b dbs) as (n & -> & Hn). rewrite IH. cbn [mbind result_bind].
  eexists. split; [done|]. by constructor.
Qed.
End series.

(** C20. The bars count the ledger.  Whatever states the statements of the chart see, a
    bar's successes, failures, cancelled and unsettled deliveries are the
    deliveries of its bucket, each counted once, and no number is negative; the
    successes after a retry are exact when the two statements of a bar see the
    same state.  Over one state the bars together count the deliveries created
    between the start of the first bucket and the end of the last. *)
Theorem series_counts_ledger (arrange : ∀ K : Type, list (K * Z) → list (K * Z)) (Harrange : ∀ K l, arrange K l ≡ₚ l)
    (c : Ctx) (hours : option num) (bucket : option string) (now : Z) (dbs : nat → Db * Db) (out : DeliverySeries)
    (Hout : deliverySeries arrange c hours bucket now dbs = Ok out) :
  (∀ i b n, ds_buckets out !! i = Some (b, n) → bar_exact c b (dbs i) n)
  ∧ ∀ db, (∀ i, dbs i = (db, db)) → ∀ first last_,
      head (ds_buckets out) = Some first → last (ds_buckets out) = Some last_ →
      sum_list_with (λ bn, Z.to_nat (bar_total bn.2)) (ds_buckets out)
      = Z.to_nat (howmany c db (λ d, range (b_start first.1) (b_end last_.1) (Delivery.createdAt d))).
Proof.
  unfold deliverySeries in Hout.
  apply bind_Ok in Hout as (w & Hw & Hout). apply bind_Ok in Hout as (plan & Hplan & Hout).
  destruct (all_counts_run arrange Harrange c (imap (λ i b, (b, dbs i)) (sp_buckets plan))) as (counts & E & Hcounts).
  rewrite E in Hout. cbn [mbind result_bind] in Hout. injection Hout as <-. cbn [ds_buckets].
  assert (∀ i b n, counts !! i = Some (b, n) → sp_buckets plan !! i = Some b ∧ bar_exact c b (dbs i) n) as Hbar.
  { intros i b n Hi. destruct (Forall2_lookup_r _ _ _ _ _ Hcounts Hi) as ([b' dbs'] & Hl & Hb & Hx).
    rewrite list_lookup_imap in Hl. apply fmap_Some in Hl as (b'' & Hl & [= -> ->]). cbn in *. by subst. }
  split; [intros i b n Hi; by apply Hbar|].
  intros db Hdbs first last_ Hfirst Hlast.
  assert (counts.*1 = sp_buckets plan) as Hfst.
  { apply list_eq_same_length with (length counts); rewrite ?length_fmap; [|done|].
    - apply Forall2_length in Hcounts. by rewrite length_imap in Hcounts.
    - intros i b b' _ (bn & -> & Hi)%list_lookup_fmap_Some Hb. destruct bn as [b0 n]. destruct (Hbar i b0 n Hi) as [Hs _]. cbn. congruence. }
  destruct (plan_tiles w bucket plan Hplan) as (a & z & Ht & Ha & Hz).
  rewrite (Ha first.1) by (rewrite <- Hfst; destruct counts; [done|by injection Hfirst as ->]).
  rewrite (Hz last_.1) by (by rewrite <- Hfst, fmap_last, Hlast).
  rewrite <- (tiles_sum c db a z _ Ht), <- Hfst.
  assert (∀ bn, bn ∈ counts → bar_total bn.2 = howmany c db (in_bucket bn.1)) as Htot.
  { intros [b n] (i & Hi)%list_elem_of_lookup. destruct (Hbar i b n Hi) as [_ Hx]. rewrite Hdbs in Hx. apply Hx. }
  clear -Htot. induction counts as [|bn l IH]; [done|]. cbn [sum_list_with fmap list_fmap map]. rewrite (Htot bn) by left.
  f_equal. apply IH. intros bn' Hin. apply Htot. by right.
Qed.

(** Two successes and a failure in one hour. *)
Definition an_ctx : Ctx := MkCtx "o1" (Some "p1") "m1" developer "u1".
Definition an_delivery (endpoint : string) (st : DeliveryStatus.t) (attempts created : Z) : Delivery.t :=
  Delivery.mk "v1" endpoint None "o1" "p1" st attempts 5 0 None None None None None None None None None created 0 None.
Definition an_db : Db :=
  upd_deliveries (λ _, <["d1" := an_delivery "e1" DeliveryStatus.succeeded 1 400000]>
    (<["d2" := an_delivery "e1" DeliveryStatus.succeeded 3 500000]>
       {["d3" := an_delivery "e1" DeliveryStatus.exhausted 5 2000000]})) two_orgs.
Definition an_series : result DeliverySeries :=
  deliverySeries (λ _ l, l) an_ctx (Some (int 1)) None 3600000 (λ _, (an_db, an_db)).
Definition as_written (n : SeriesCounts) : list Z :=
  [delivered_first_try n; delivered_after_retry n; sc_failed n; sc_in_flight n; sc_cancelled n].

Lemma series_counts_ledger_witness :
  ∃ out, an_series = Ok out ∧ map (λ bn, as_written bn.2) (take 2 (ds_buckets out)) = [[0; 0; 0; 0; 0]; [1; 1; 0; 0; 0]]
    ∧ (∀ i b n, ds_buckets out !! i = Some (b, n) → bar_exact an_ctx b (an_db, an_db) n).
Proof.
  destruct an_series as [out|e] eqn:E; [|vm_compute in E; discriminate E]. exists out. split; [reflexivity|]. split.
  - assert (match an_series with Ok out => map (λ bn, as_written bn.2) (take 2 (ds_buckets out)) | _ => [] end
            = [[0; 0; 0; 0; 0]; [1; 1; 0; 0; 0]]) as H by (vm_compute; reflexivity).
    rewrite E in H. exact H.
  - exact (proj1 (series_counts_ledger (λ _ l, l) (λ _ l, Permutation_refl l) an_ctx (Some (int 1)) None 3600000
             (λ _, (an_db, an_db)) out E)).
Defined.
