(* ===== verification/Breakdown.v ===== *)
(** The breakdown by (endpoint, status) that the analytics and the endpoint health
    share: its groups, the entries of one endpoint in it, and the counts of the
    ledger they are. *)
From Stdlib Require Import ZArith Lia.
From S2P Require Import Prelude Js Permissions RetryRules AuditTrail Db Scope TenantScope Series Binary64 Analytics.
Local Open Scope Z_scope.

(** ** The counts of one endpoint *)

(** The deliveries of one endpoint, or of one event, that satisfy [p] and whose
    status is in the list. *)
Definition counted (side : Delivery.t → string) (c : Ctx) (db : Db) (p : Delivery.t → bool) (l : list DeliveryStatus.t)
    (i : string) : Z :=
  howmany c db (λ d, p d && has_status l d && bool_decide (side d = i)).
(** The groups of the breakdown. *)
Definition groups_by (side : Delivery.t → string) (c : Ctx) (db : Db) (p : Delivery.t → bool) (ids : list string)
    : list (string * DeliveryStatus.t * Z) :=
  groups c (λ d, p d && bool_decide (side d ∈ ids)) (λ d, (side d, Delivery.status d)) db.
Abbreviation sent_to := (counted Delivery.endpointId).
Abbreviation status_groups := (groups_by Delivery.endpointId).

Definition sum_counts (l : list (DeliveryStatus.t * Z)) : Z := foldl (λ sum g, sum + g.2) 0 l.
Lemma sum_counts_app l1 l2 : sum_counts (l1 ++ l2) = sum_counts l1 + sum_counts l2.
Proof.
  unfold sum_counts. rewrite foldl_app. generalize (foldl (λ sum g, sum + g.2) 0 l1).
  induction l2 as [|g l2 IH] using rev_ind; intros z; cbn; [lia|]. rewrite !foldl_app. cbn. rewrite IH. lia.
Qed.
Lemma sum_counts_cons g l : sum_counts (g :: l) = g.2 + sum_counts l.
Proof. change (g :: l) with ([g] ++ l). rewrite sum_counts_app. unfold sum_counts. cbn. lia. Qed.

Lemma at_status_cons s n l s' : at_status ((s, n) :: l) s' = if bool_decide (s = s') then n else at_status l s'.
Proof. unfold at_status. rewrite filter_cons. cbn. repeat case_bool_decide; repeat case_decide; done. Qed.
Lemma at_status_absent l s : s ∉ l.*1 → at_status l s = 0.
Proof.
  induction l as [|[s' n] l IH]; [done|]. cbn. intros [Hne Hni]%not_elem_of_cons. rewrite at_status_cons.
  rewrite bool_decide_eq_false_2 by done. auto.
Qed.
Lemma at_status_in l s n : NoDup l.*1 → (s, n) ∈ l → at_status l s = n.
Proof.
  induction l as [|[s' n'] l IH]; [by intros _ ?%not_elem_of_nil|]. cbn. intros [Hs Hn]%NoDup_cons Hin.
  rewrite at_status_cons. apply elem_of_cons in Hin as [[= -> ->]|Hin]; [by rewrite bool_decide_eq_true_2|].
  rewrite bool_decide_eq_false_2; [by apply IH|]. intros ->. apply Hs, list_elem_of_fmap. by exists (s, n).
Qed.
(** The sum over the groups of an endpoint is the sum over the nine statuses. *)
Lemma sum_counts_statuses l : NoDup l.*1 → sum_counts l = total_of (at_status l) ALL_STATUSES.
Proof.
  induction l as [|[s n] l IH]; [done|]. intros [Hs Hn]%NoDup_cons. rewrite sum_counts_cons, (IH Hn).
  apply at_status_absent in Hs. cbn [fst] in Hs. unfold total_of, ALL_STATUSES. cbn [foldl]. rewrite !at_status_cons.
  destruct s; repeat match goal with |- context [bool_decide (?a = ?b)] =>
      let v := eval vm_compute in (bool_decide (a = b)) in change (bool_decide (a = b)) with v end; cbn [snd]; lia.
Qed.

Lemma counts_of_elem b i s n : (s, n) ∈ counts_of b i ↔ (i, s, n) ∈ b.
Proof.
  unfold counts_of. rewrite list_elem_of_omap. split.
  - intros ([[i' s'] n'] & Hin & Hx). cbn in Hx. case_bool_decide; [|done]. by simplify_eq.
  - intros Hin. exists (i, s, n). split; [done|]. cbn. by rewrite bool_decide_eq_true_2.
Qed.
Lemma counts_of_app b1 b2 i : counts_of (b1 ++ b2) i = counts_of b1 i ++ counts_of b2 i.
Proof. unfold counts_of. by rewrite omap_app. Qed.
Lemma counts_of_nodup b i : NoDup b.*1 → NoDup (counts_of b i).*1.
Proof.
  induction b as [|[[i' s] n] b IH]; [constructor|]. cbn. intros [Hk Hn]%NoDup_cons.
  unfold counts_of in *. cbn. case_bool_decide as Hi; [|auto]. cbn. apply NoDup_cons. split; [|auto].
  intros ([s' n'] & [= <-] & Hin)%list_elem_of_fmap. apply (counts_of_elem b i s n') in Hin. subst i'.
  apply Hk, list_elem_of_fmap. by exists (i, s, n').
Qed.

Section entries.
  Context {side : Delivery.t → string} (c : Ctx) (db : Db) (p : Delivery.t → bool) (ids : list string) (b : list (string * DeliveryStatus.t * Z))
    (Hb : b ≡ₚ groups_by side c db p ids).

Lemma breakdown_nodup : NoDup b.*1.
Proof. rewrite Hb. apply groups_nodup. Qed.
Lemma breakdown_elem i s n : (i, s, n) ∈ b ↔ i ∈ ids ∧ n = counted side c db p [s] i ∧ 0 < n.
Proof.
  rewrite Hb. unfold groups_by. rewrite groups_elem. unfold counted.
  assert (i ∈ ids → howmany c db (λ d, p d && bool_decide (side d ∈ ids)
              && bool_decide ((side d, Delivery.status d) = (i, s)))
          = howmany c db (λ d, p d && has_status [s] d && bool_decide (side d = i))) as E.
  { intros Hi. apply howmany_ext. intros d. unfold has_status. destruct (p d); [|done]. cbn.
    repeat case_bool_decide; cbn; try done; set_solver. }
  split.
  - intros [-> Hn]. assert (i ∈ ids) as Hi.
    { destruct (decide (i ∈ ids)); [done|]. rewrite howmany_none in Hn; [lia|]. intros d.
      destruct (bool_decide_reflect ((side d, Delivery.status d) = (i, s))) as [[= -> _]|]; [|by rewrite andb_false_r].
      by rewrite (bool_decide_eq_false_2 (i ∈ ids)), !andb_false_r. }
    by rewrite E in Hn |- *.
  - intros (Hi & -> & Hn). by rewrite E.
Qed.

Lemma at_status_exact i s : i ∈ ids → at_status (counts_of b i) s = counted side c db p [s] i.
Proof.
  intros Hi. destruct (decide (0 < counted side c db p [s] i)) as [Hp|Hz].
  - apply at_status_in; [apply counts_of_nodup, breakdown_nodup|]. apply counts_of_elem, breakdown_elem. done.
  - rewrite at_status_absent.
    + pose proof (howmany_nonneg c db (λ d, p d && has_status [s] d && bool_decide (side d = i))).
      unfold counted in *. lia.
    + intros ([s' n] & -> & Hin)%list_elem_of_fmap. cbn in *. apply counts_of_elem, breakdown_elem in Hin as (_ & -> & Hn). done.
Qed.

Lemma total_of_sent i l : i ∈ ids → NoDup l → total_of (at_status (counts_of b i)) l = counted side c db p l i.
Proof.
  intros Hi Hl. rewrite (total_of_statuses c db (λ d, p d && bool_decide (side d = i)) _ l Hl).
  - apply howmany_ext. intros d. unfold has_status. destruct (p d), (bool_decide (side d = i)); cbn;
      by rewrite ?andb_true_r, ?andb_false_r.
  - intros s. rewrite at_status_exact by done. apply howmany_ext. intros d. unfold has_status.
    destruct (p d); cbn; [|done]. repeat case_bool_decide; cbn; try done; set_solver.
Qed.

End entries.
