(* ===== verification/Ranking.v ===== *)
(** The ranking of failing endpoints and the latency percentiles of
    analytics/analytics.service.ts: what their numbers are of the ledger. *)
From Stdlib Require Import ZArith Lia.
From S2P Require Import Prelude Js Permissions RetryRules AuditTrail Db Scope TenantScope Series Binary64 Analytics Breakdown.
Local Open Scope Z_scope.

(** ** The entries of the ranking *)

Definition created_in (w : AnalyticsWindow) (d : Delivery.t) : bool := range (w_from w) (w_to w) (Delivery.createdAt d).
Definition fails (c : Ctx) (db : Db) (w : AnalyticsWindow) (i : string) : Z := sent_to c db (created_in w) FAILING i.

Record entry_exact (c : Ctx) (db : Db) (w : AnalyticsWindow) (e : FailingEndpoint) : Prop := {
  ee_failing : fe_failing e = fails c db w (fe_endpoint_id e);
  ee_failed : fe_failed e = sent_to c db (created_in w) [DeliveryStatus.failed] (fe_endpoint_id e);
  ee_exhausted : fe_exhausted e = sent_to c db (created_in w) [DeliveryStatus.exhausted] (fe_endpoint_id e);
  ee_retrying : fe_retrying e = sent_to c db (created_in w) [DeliveryStatus.retrying] (fe_endpoint_id e);
  ee_total : fe_total e = sent_to c db (created_in w) ALL_STATUSES (fe_endpoint_id e)
}.

Section entries.
  Context (c : Ctx) (db : Db) (w : AnalyticsWindow) (ids : list string) (b : list (string * DeliveryStatus.t * Z))
    (Hb : b ≡ₚ status_groups c db (created_in w) ids).

Lemma entry_of_all rows i : i ∈ ids → entry_exact c db w (failing_endpoint b rows i).
Proof.
  intros Hi. unfold failing_endpoint. split; cbn [fe_failing fe_failed fe_exhausted fe_retrying fe_total fe_endpoint_id];
    try by apply (at_status_exact c db (created_in w) ids b Hb).
  - pose proof (total_of_sent c db (created_in w) ids b Hb i FAILING Hi ltac:(repeat constructor; set_solver)) as H. unfold fails. rewrite <- H.
    unfold total_of, FAILING. cbn [foldl]. lia.
  - change (sum_counts (counts_of b i) = sent_to c db (created_in w) ALL_STATUSES i).
    rewrite sum_counts_statuses by (apply counts_of_nodup, (breakdown_nodup c db (created_in w) ids b Hb)). apply (total_of_sent c db (created_in w) ids b Hb); [done|]. repeat constructor; set_solver.
Qed.

(** A group that is cut off is missing from the total of its endpoint. *)
Lemma entry_of_some rows k : (k < length b)%nat →
  ∃ i, i ∈ ids ∧ fe_total (failing_endpoint (take k b) rows i) < sent_to c db (created_in w) ALL_STATUSES i.
Proof.
  intros Hk. destruct (lookup_lt_is_Some_2 b k Hk) as [[[i s] n] Hg].
  assert ((i, s, n) ∈ b) as (Hi & _ & Hn)%(breakdown_elem c db (created_in w) ids b Hb) by (by eapply list_elem_of_lookup_2).
  exists i. split; [done|]. pose proof (ee_total _ _ _ _ (entry_of_all rows i Hi)) as Ht. cbn [failing_endpoint fe_total fe_endpoint_id] in Ht |- *.
  change (foldl (λ sum g, sum + g.2) 0 ?l) with (sum_counts l) in *. rewrite <- Ht.
  rewrite <- (take_drop k b) at 2. rewrite counts_of_app, sum_counts_app.
  assert (∀ l : list (DeliveryStatus.t * Z), (∀ g, g ∈ l → 0 < g.2) → l ≠ [] → 0 < sum_counts l) as Hpos.
  { induction l as [|g l IH]; [done|]. intros Hg' _. rewrite sum_counts_cons. pose proof (Hg' g ltac:(left)).
    destruct l as [|g' l]; [unfold sum_counts; cbn; lia|]. pose proof (IH ltac:(intros x Hx; apply Hg'; by right) ltac:(done)). lia. }
  specialize (Hpos (counts_of (drop k b) i)). enough (0 < sum_counts (counts_of (drop k b) i)) by lia. apply Hpos.
  - intros [s' n'] Hin%counts_of_elem. assert ((i, s', n') ∈ b) as Hb' by (rewrite <- (take_drop k b); apply elem_of_app; by right).
    by apply (breakdown_elem c db (created_in w) ids b Hb) in Hb' as (_ & _ & ?).
  - intros E. assert ((s, n) ∈ counts_of (drop k b) i) as Hin; [|rewrite E in Hin; by apply not_elem_of_nil in Hin].
    apply counts_of_elem. apply list_elem_of_lookup. exists 0%nat. rewrite lookup_drop, Nat.add_0_r. done.
Qed.
End entries.

(** ** The ranking *)

Lemma sorted_take_drop {A} (R : A → A → Prop) (l : list A) k x y :
  StronglySorted R l → x ∈ take k l → y ∈ drop k l → R x y.
Proof.
  intros Hs Hx Hy. rewrite <- (take_drop k l) in Hs. apply StronglySorted_app in Hs as (Hs & _). by apply Hs.
Qed.

Lemma sorted_keys (f : string → Z) (l : list (string * Z)) :
  StronglySorted (λ a b, b.2 <= a.2) l → (∀ i n, (i, n) ∈ l → n = f i) → StronglySorted (λ i j, f j <= f i) l.*1.
Proof.
  induction 1 as [|[i n] l Hs IH Hall]; intros Hf; [constructor|]. cbn. constructor.
  - apply IH. intros j m Hj. apply Hf. by right.
  - apply Forall_forall. intros j ([j' m] & -> & Hin)%list_elem_of_fmap. cbn.
    pose proof (proj1 (Forall_forall _ _) Hall _ Hin) as Hle. cbn in Hle. rewrite <- (Hf i n) by left. rewrite <- (Hf j' m) by (by right). done.
Qed.

Section ranking.
  Context (arrange : ∀ K : Type, list (K * Z) → list (K * Z)) (Harrange : ∀ K l, arrange K l ≡ₚ l)
    (by_count : ∀ K : Type, list (K * Z) → list (K * Z)) (Hby : ∀ K l, by_count K l ≡ₚ l)
    (Hdesc : ∀ K l, StronglySorted (λ a b : K * Z, b.2 <= a.2) (by_count K l))
    (unordered : ∀ R : Type, list (string * R) → list (string * R)) (c : Ctx).

(** The endpoints that failed in the window, worst first. *)
Definition ranked_all (w : AnalyticsWindow) (db : Db) : list (string * Z) :=
  by_count _ (groups c (λ d, created_in w d && bool_decide (Delivery.status d ∈ FAILING)) Delivery.endpointId db).

Lemma ranked_elem w db i n : (i, n) ∈ ranked_all w db ↔ n = fails c db w i ∧ 0 < n.
Proof. unfold ranked_all. rewrite Hby. apply groups_elem. Qed.
Lemma ranked_nodup w db : NoDup (ranked_all w db).*1.
Proof. unfold ranked_all. rewrite Hby. apply groups_nodup. Qed.

(** What the route computes. *)
Lemma failingEndpoints_run hours limit now w db : 1 <= limit <= MAX_ENDPOINT_RANKING → resolveWindow hours now = Ok w →
  let ids := (take (Z.to_nat limit) (ranked_all w db)).*1 in
  let b := arrange _ (status_groups c db (created_in w) ids) in
  ∃ rows, failingEndpoints arrange by_count unordered c hours (Some limit) now db db db
    = Ok (MkFailingList w (map (failing_endpoint (take 200 b) rows) ids)
            (limit <? Z.of_nat (length (ranked_all w db)))).
Proof.
  intros Hl Hw ids b. unfold MAX_ENDPOINT_RANKING in *.
  assert (pageSize (Some (int (limit + 1))) = limit + 1) as Hp.
  { unfold pageSize, int, MAX_PAGE_SIZE. rewrite Qround.Qfloor_Z. lia. }
  unfold failingEndpoints. rewrite Hw. cbn [mbind result_bind]. change (default 10 (Some limit)) with limit.
  unfold MAX_ENDPOINT_RANKING. rewrite (Z.min_l limit 50) by lia.
  change (by_count string _) with (ranked_all w db). rewrite groupBy_page, Hp.
  change (Z.to_nat (default 0 (offset None))) with 0%nat. rewrite drop_0. cbn [mbind result_bind].
  set (G := ranked_all w db) in *. rewrite length_take.
  assert ((if limit <? Z.of_nat (Z.to_nat (limit + 1) `min` length G)
           then take (Z.to_nat limit) (take (Z.to_nat (limit + 1)) G) else take (Z.to_nat (limit + 1)) G)
          = take (Z.to_nat limit) G) as ->.
  { destruct (Z.ltb_spec limit (Z.of_nat (Z.to_nat (limit + 1) `min` length G))).
    - rewrite take_take. f_equal. lia.
    - rewrite !take_ge; [done|lia..]. }
  replace (limit <? Z.of_nat (Z.to_nat (limit + 1) `min` length G)) with (limit <? Z.of_nat (length G)).
  2: { destruct (Z.ltb_spec limit (Z.of_nat (length G))), (Z.ltb_spec limit (Z.of_nat (Z.to_nat (limit + 1) `min` length G))); lia || done. }
  fold ids. case_bool_decide as He.
  { exists []. rewrite He. do 2 f_equal. destruct (Z.ltb_spec limit (Z.of_nat (length G))); [|done].
    assert (length ids = 0%nat) as E by (by rewrite He). unfold ids in E. rewrite length_fmap, length_take in E. lia. }
  change (arrange _ _) with b. rewrite groupBy_page. change (Z.to_nat (pageSize _)) with 200%nat.
  change (Z.to_nat (default 0 (offset None))) with 0%nat. rewrite drop_0. cbn [mbind result_bind].
  destruct (findMany_honest (unordered Endpoint.t (map_to_list (matching c db (λ id (_ : Endpoint.t), bool_decide (id ∈ ids))))) None)
    as [_ Hfind]. rewrite Hfind. cbn [mbind result_bind]. eexists. reflexivity.
Qed.
End ranking.

(** The ranking of failing endpoints.  Over one state of the ledger the route lists the
    endpoints with the most failures of the window, worst first, at most as many
    as asked, and says truthfully whether others failed.  The numbers beside an
    endpoint are the counts of the ledger whenever the listed endpoints have at
    most two hundred (endpoint, status) combinations, so always up to twenty-two
    endpoints; beyond two hundred, some listed endpoint is reported with fewer
    deliveries than it had. *)
Theorem failing_ranking (arrange : ∀ K : Type, list (K * Z) → list (K * Z)) (Harrange : ∀ K l, arrange K l ≡ₚ l)
    (by_count : ∀ K : Type, list (K * Z) → list (K * Z)) (Hby : ∀ K l, by_count K l ≡ₚ l)
    (Hdesc : ∀ K l, StronglySorted (λ a b : K * Z, b.2 <= a.2) (by_count K l))
    (unordered : ∀ R : Type, list (string * R) → list (string * R)) (c : Ctx)
    (hours : option num) (limit : Z) (Hlimit : 1 <= limit <= MAX_ENDPOINT_RANKING) (now : Z) (w : AnalyticsWindow)
    (Hw : resolveWindow hours now = Ok w) (db : Db) :
  ∃ out, failingEndpoints arrange by_count unordered c hours (Some limit) now db db db = Ok out
    ∧ let ids := map fe_endpoint_id (fl_data out) in
      NoDup ids ∧ Z.of_nat (length ids) <= limit
      ∧ (∀ i, i ∈ ids → 0 < fails c db w i)
      ∧ (∀ i j, i ∈ ids → j ∉ ids → fails c db w j <= fails c db w i)
      ∧ StronglySorted (λ i j, fails c db w j <= fails c db w i) ids
      ∧ (fl_has_more out = true ↔ ∃ j, j ∉ ids ∧ 0 < fails c db w j)
      ∧ (if (length (status_groups c db (created_in w) ids) <=? 200)%nat
         then ∀ e, e ∈ fl_data out → entry_exact c db w e
         else ∃ e, e ∈ fl_data out ∧ fe_total e < sent_to c db (created_in w) ALL_STATUSES (fe_endpoint_id e))
      ∧ (length (status_groups c db (created_in w) ids) <= 9 * length ids)%nat.
Proof.
  destruct (failingEndpoints_run arrange by_count unordered c hours limit now w db Hlimit Hw) as [rows ->].
  set (G := ranked_all by_count c w db). set (ids := (take (Z.to_nat limit) G).*1).
  set (b := arrange _ (status_groups c db (created_in w) ids)). eexists. split; [reflexivity|]. cbn [fl_data fl_has_more].
  assert (map fe_endpoint_id (map (failing_endpoint (take 200 b) rows) ids) = ids) as -> by (rewrite map_map; apply map_id).
  pose proof (ranked_elem by_count Hby c w db) as HG. fold G in HG.
  assert (NoDup G.*1) as HnG by (by apply ranked_nodup).
  assert (NoDup ids) as Hn by (unfold ids; rewrite fmap_take; eapply sublist_NoDup; [exact HnG|apply sublist_take]).
  assert (StronglySorted (λ a b : string * Z, b.2 <= a.2) G) as Hs by apply Hdesc.
  assert (∀ i, i ∈ ids → (i, fails c db w i) ∈ take (Z.to_nat limit) G) as Hids.
  { intros i ([i' n] & -> & Hin)%list_elem_of_fmap. pose proof Hin as H'. apply subseteq_take, HG in H' as [-> _]. done. }
  assert (∀ j, j ∉ ids → 0 < fails c db w j → (j, fails c db w j) ∈ drop (Z.to_nat limit) G) as Hrest.
  { intros j Hj Hp. assert ((j, fails c db w j) ∈ G) as Hin by (by apply HG). rewrite <- (take_drop (Z.to_nat limit) G) in Hin.
    apply elem_of_app in Hin as [Hin|]; [|done]. destruct Hj. apply list_elem_of_fmap. by exists (j, fails c db w j). }
  split_and!.
  - exact Hn.
  - unfold ids. rewrite length_fmap, length_take. lia.
  - intros i Hi%Hids%subseteq_take%HG. lia.
  - intros i j Hi%Hids Hj. destruct (decide (0 < fails c db w j)) as [Hp|Hz].
    + apply (sorted_take_drop _ _ _ _ _ Hs Hi (Hrest j Hj Hp)).
    + apply subseteq_take, HG in Hi. lia.
  - apply sorted_keys; [|by intros i n [-> _]%subseteq_take%HG].
    rewrite <- (take_drop (Z.to_nat limit) G) in Hs. by apply StronglySorted_app in Hs as (_ & ? & _).
  - split.
    + intros Hm%Z.ltb_lt. destruct (drop (Z.to_nat limit) G) as [|[j n] rest] eqn:Ed.
      { apply (f_equal length) in Ed. rewrite length_drop in Ed. cbn in Ed. lia. }
      exists j. assert ((j, n) ∈ drop (Z.to_nat limit) G) as Hj by (rewrite Ed; left).
      assert ((j, n) ∈ G) as [-> Hp]%HG by (rewrite <- (take_drop (Z.to_nat limit) G); apply elem_of_app; by right).
      split; [|done]. intros Hi. rewrite <- (take_drop (Z.to_nat limit) G), fmap_app in HnG.
      apply NoDup_app in HnG as (_ & Hd & _). apply (Hd j Hi). apply list_elem_of_fmap. by exists (j, fails c db w j).
    + intros (j & Hj & Hp). specialize (Hrest j Hj Hp). apply Z.ltb_lt.
      assert (drop (Z.to_nat limit) G ≠ []) as Hne by (intros E; rewrite E in Hrest; by apply not_elem_of_nil in Hrest).
      destruct (decide (Z.of_nat (length G) <= limit)); [|lia]. destruct Hne. apply drop_ge. lia.
  - assert (b ≡ₚ status_groups c db (created_in w) ids) as Hb by apply Harrange. rewrite <- (Permutation_length Hb).
    destruct (Nat.leb_spec (length b) 200).
    + rewrite take_ge by done. intros e (i & -> & Hi)%list_elem_of_fmap. by eapply entry_of_all.
    + destruct (entry_of_some c db w ids b Hb rows 200 ltac:(lia)) as (i & Hi & Ht).
      exists (failing_endpoint (take 200 b) rows i). split; [by apply list_elem_of_fmap_2|exact Ht].
  - rewrite <- (length_fmap fst). etrans; [apply (submseteq_length _ (list_prod ids ALL_STATUSES)), NoDup_submseteq|].
    + apply groups_nodup.
    + intros [i s] ([[i' s'] n] & [= -> ->] & Hin)%list_elem_of_fmap.
      apply (breakdown_elem c db (created_in w) ids _ (Permutation_refl _)) in Hin as (Hi & _). apply list_elem_of_In, in_prod; [by apply list_elem_of_In|].
      apply list_elem_of_In. destruct s'; unfold ALL_STATUSES; set_solver.
    + rewrite length_prod. cbn [length ALL_STATUSES]. lia.
Qed.

(** ** Twenty-three endpoints with deliveries in all nine states *)

Definition worst_first (K : Type) : list (K * Z) → list (K * Z) := sort_by (λ a b, b.2 <=? a.2).
Lemma worst_first_sorted K l : StronglySorted (λ a b : K * Z, b.2 <= a.2) (worst_first K l).
Proof. apply (sort_by_key_desc snd). Qed.

Definition crowd_name (n : nat) : string := String (Ascii.ascii_of_nat (97 + n)) EmptyString.
Definition crowd_names : list string := map crowd_name (seq 0 23).
Definition crowd : Db :=
  upd_endpoints (λ _, list_to_map (map (λ i, (i, ep "p1")) crowd_names))
    (upd_deliveries (λ _, list_to_map (concat (map (λ i,
       imap (λ k st, (i +:+ crowd_name k, an_delivery i st 1 50000000)) ALL_STATUSES) crowd_names))) two_orgs).
Definition crowd_report : result FailingEndpoints :=
  failingEndpoints (λ _ l, l) worst_first (λ _ l, l) an_ctx None (Some 50) 100000000 crowd crowd crowd.
Definition crowd_window : AnalyticsWindow := MkWindow 24 13600000 100000000 (-72800000) 13600000.

(** Every one of them failed twice, and one is reported as never having failed. *)
Lemma failing_ranking_witness :
  (∃ out, crowd_report = Ok out ∧ length (fl_data out) = 23%nat
     ∧ existsb (λ e, (fe_failing e =? 0) && (fails an_ctx crowd crowd_window (fe_endpoint_id e) =? 2)) (fl_data out) = true
     ∧ ∃ e, e ∈ fl_data out ∧ fe_total e < sent_to an_ctx crowd (created_in crowd_window) ALL_STATUSES (fe_endpoint_id e))
  ∧ ∃ out, failingEndpoints (λ _ l, l) worst_first (λ _ l, l) an_ctx (Some (int 1)) (Some 10) 3600000 an_db an_db an_db = Ok out
      ∧ ∀ e, e ∈ fl_data out → entry_exact an_ctx an_db (MkWindow 1 0 3600000 (-3600000) 0) e.
Proof.
  split.
  - destruct (failing_ranking (λ _ l, l) (λ _ l, Permutation_refl l) worst_first (λ K, sort_by_perm _) worst_first_sorted
      (λ _ l, l) an_ctx None 50 ltac:(unfold MAX_ENDPOINT_RANKING; lia) 100000000 crowd_window eq_refl crowd)
      as (out & E & _ & _ & _ & _ & _ & _ & Hn & _).
    change (crowd_report = Ok out) in E. exists out. split; [exact E|].
    assert (match crowd_report with
            | Ok o => let ids := map fe_endpoint_id (fl_data o) in
                (length (fl_data o), length (status_groups an_ctx crowd (created_in crowd_window) ids),
                 existsb (λ e, (fe_failing e =? 0) && (fails an_ctx crowd crowd_window (fe_endpoint_id e) =? 2)) (fl_data o))
            | _ => (0%nat, 0%nat, false) end = (23%nat, 207%nat, true)) as H by (vm_compute; reflexivity).
    rewrite E in H. cbv beta zeta iota in H. apply pair_equal_spec in H as [H H3]. apply pair_equal_spec in H as [H1 H2].
    rewrite H2 in Hn. exact (conj H1 (conj H3 Hn)).
  - destruct (failing_ranking (λ _ l, l) (λ _ l, Permutation_refl l) worst_first (λ K, sort_by_perm _) worst_first_sorted
      (λ _ l, l) an_ctx (Some (int 1)) 10 ltac:(unfold MAX_ENDPOINT_RANKING; lia) 3600000 (MkWindow 1 0 3600000 (-3600000) 0) eq_refl an_db)
      as (out & E & _ & _ & _ & _ & _ & _ & Hn & Hle).
    exists out. split; [exact E|].
    assert (match failingEndpoints (λ _ l, l) worst_first (λ _ l, l) an_ctx (Some (int 1)) (Some 10) 3600000 an_db an_db an_db with
            | Ok o => length (fl_data o) | _ => 0%nat end = 1%nat) as H by (vm_compute; reflexivity).
    rewrite E in H. rewrite length_map, H in Hle. apply Nat.leb_le in Hle.
    destruct (Nat.leb_spec (length (status_groups an_ctx an_db (created_in (MkWindow 1 0 3600000 (-3600000) 0)) (map fe_endpoint_id (fl_data out)))) 200);
      [exact Hn|apply Nat.leb_le in Hle; lia].
Defined.

(** ** Latency *)

(** [v] is the nearest-rank percentile of a sample: an observed value that at
    least so many hundredths of the sample do not exceed, and fewer fall below. *)
Definition nearest_rank (percent : Z) (sample : list Z) (v : Z) : Prop :=
  v ∈ sample
  ∧ percent * Z.of_nat (length sample) <= 100 * Z.of_nat (length (filter (λ x, x <= v) sample))
  ∧ 100 * Z.of_nat (length (filter (λ x, x < v) sample)) < percent * Z.of_nat (length sample).

#[export] Instance nearest_rank_proper percent : Proper ((≡ₚ) ==> eq ==> iff) (nearest_rank percent).
Proof.
  intros l1 l2 Hl v ? <-. unfold nearest_rank. by rewrite Hl.
Qed.

Definition PERCENTS : list Z := [50; 95; 99].
(** The floating-point product and ceiling find the exact rank. *)
Lemma rank_exact n p : (1 <= n <= 200)%nat → p ∈ PERCENTS →
  let r := Z.min (Z.max (fceil (fmul (literal p 100) (f64_of_Z (Z.of_nat n)))) 1) (Z.of_nat n) in
  1 <= r <= Z.of_nat n ∧ p * Z.of_nat n <= 100 * r ∧ 100 * (r - 1) < p * Z.of_nat n.
Proof.
  intros Hn Hp.
  assert (forallb (λ n, forallb (λ p,
            let r := Z.min (Z.max (fceil (fmul (literal p 100) (f64_of_Z (Z.of_nat n)))) 1) (Z.of_nat n) in
            (1 <=? r) && (r <=? Z.of_nat n) && (p * Z.of_nat n <=? 100 * r) && (100 * (r - 1) <? p * Z.of_nat n)) PERCENTS)
          (seq 1 200) = true) as H by (vm_compute; reflexivity).
  rewrite forallb_forall in H. specialize (H n ltac:(apply in_seq; lia)). rewrite forallb_forall in H.
  specialize (H p ltac:(by apply list_elem_of_In)). cbv zeta in H. bprop. lia.
Qed.

Lemma sorted_prefix_le (l : list Z) (k : nat) (v : Z) : StronglySorted Z.le l → l !! k = Some v →
  (S k <= length (filter (λ x, (x <= v)%Z) l))%nat ∧ (length (filter (λ x, (x < v)%Z) l) <= k)%nat.
Proof.
  intros Hs Hk. pose proof (take_drop_middle _ _ _ Hk) as E. rewrite <- E in Hs |- *.
  apply StronglySorted_app in Hs as (Hle & _ & Hs). inversion Hs as [|? ? _ Hge]; subst.
  assert (length (take k l) = k) as Hlen by (rewrite length_take; apply lookup_lt_Some in Hk; lia).
  rewrite !filter_app, !length_app, !filter_cons. split.
  - rewrite (decide_True (P:=v <= v)) by lia. cbn. rewrite (filter_everything (λ x, x <= v) (take k l)).
    + lia.
    + intros x Hx. apply Hle; [done|left].
  - rewrite (decide_False (P:=v < v)) by lia. rewrite (filter_nothing (λ x, x < v) (drop (S k) l)).
    + etrans; [apply Nat.add_le_mono_r, length_filter|]. cbn. lia.
    + intros x Hx. pose proof (proj1 (Forall_forall _ _) Hge x Hx). lia.
Qed.

Lemma percentile_rank d p : StronglySorted Z.le d → (1 <= length d <= 200)%nat → p ∈ PERCENTS →
  ∃ v, percentile d p = Some v ∧ nearest_rank p d v.
Proof.
  intros Hs Hn Hp. pose proof (rank_exact (length d) p Hn Hp) as Hr. cbv zeta in Hr.
  unfold percentile. set (r := Z.min _ _) in *. destruct (lookup_lt_is_Some_2 d (Z.to_nat (r - 1))) as [v Hv]; [lia|].
  exists v. split; [done|]. destruct (sorted_prefix_le d _ v Hs Hv) as [H1 H2].
  split; [by eapply list_elem_of_lookup_2|]. lia.
Qed.

(** The measured durations of the attempts at the deliveries created in the window. *)
Definition attempt_in_window (db : Db) (w : AnalyticsWindow) (a : DeliveryAttempt.t) : bool :=
  if deliveries db !! DeliveryAttempt.deliveryId a is Some d then created_in w d else false.
Definition window_durations (c : Ctx) (db : Db) (w : AnalyticsWindow) : list Z :=
  omap (λ kv, DeliveryAttempt.durationMs kv.2) (map_to_list (matching c db (λ _ a, attempt_in_window db w a))).

Lemma omap_submseteq {A B} (f : A → option B) l1 l2 : l1 ⊆+ l2 → omap f l1 ⊆+ omap f l2.
Proof. intros (k & ->)%submseteq_Permutation. rewrite omap_app. by apply submseteq_inserts_r. Qed.

Lemma attempt_delivery c db i (a : DeliveryAttempt.t) : in_tenant c db i a = true →
  ∃ d, deliveries db !! DeliveryAttempt.deliveryId a = Some d ∧ in_tenant c db (DeliveryAttempt.deliveryId a) d = true.
Proof.
  unfold in_tenant. cbn. destruct (deliveries db !! DeliveryAttempt.deliveryId a) as [d|]; [|done]. intros H. by exists d.
Qed.

Lemma map_to_list_filter {R} (P : string * R → Prop) `{!∀ x, Decision (P x)} (m : gmap string R) :
  map_to_list (filter P m) ≡ₚ filter P (map_to_list m).
Proof.
  rewrite map_filter_alt. rewrite map_to_list_to_map; [done|].
  apply (sublist_NoDup _ (map_to_list m).*1); [apply NoDup_fst_map_to_list|]. apply fmap_sublist, sublist_filter.
Qed.
Lemma omap_filter_Some {A B} (f : A → option B) (l : list A) : omap f (filter (λ x, is_Some (f x)) l) = omap f l.
Proof.
  induction l as [|a l IH]; [done|]. destruct (f a) as [b|] eqn:E.
  - rewrite filter_cons_True by (by rewrite E). cbn. by rewrite E, IH.
  - rewrite filter_cons_False by (rewrite E; by intros []). cbn. by rewrite E.
Qed.
Lemma length_omap_le {A B} (f : A → option B) (l : list A) : (length (omap f l) <= length l)%nat.
Proof. induction l as [|a l IH]; [done|]. cbn. destruct (f a); cbn; lia. Qed.
Lemma take_nil_inv {A} (l : list A) : take 200 l = [] → l = [].
Proof. by destruct l. Qed.

Lemma sorted_ends (l : list Z) : StronglySorted Z.le l → l ≠ [] →
  ∃ mn mx, head l = Some mn ∧ last l = Some mx ∧ mn ∈ l ∧ mx ∈ l ∧ ∀ x, x ∈ l → mn <= x <= mx.
Proof.
  intros Hs Hne. destruct l as [|mn l]; [done|]. destruct (last (mn :: l)) as [mx|] eqn:E; [|by apply last_None in E].
  apply last_Some in E as (l' & E). exists mn, mx. split_and!; [done|done|left|rewrite E; apply elem_of_app; right; left|].
  intros x Hx. split.
  - inversion Hs as [|? ? _ Hge]; subst. apply elem_of_cons in Hx as [->|Hx]; [done|]. exact (proj1 (Forall_forall _ _) Hge x Hx).
  - rewrite E in Hs, Hx. apply StronglySorted_app in Hs as (Hle & _). apply elem_of_app in Hx as [Hx|Hx]; [|apply list_elem_of_singleton in Hx as ->; done].
    apply Hle; [done|left].
Qed.

Section sample.
  Context (c : Ctx) (db : Db) (w : AnalyticsWindow) (rows : list (string * Delivery.t))
    (Hrows : rows ≡ₚ map_to_list (matching c db (λ _ d, created_in w d))).

Definition wanted (ids : list string) (a : DeliveryAttempt.t) : bool :=
  bool_decide (DeliveryAttempt.deliveryId a ∈ ids) && bool_decide (is_Some (DeliveryAttempt.durationMs a)).
Definition attempts_of (ids : list string) : list (string * DeliveryAttempt.t) :=
  map_to_list (matching c db (λ _ a, wanted ids a)).
Definition durations_of (l : list (string * DeliveryAttempt.t)) : list Z := omap (λ kv, DeliveryAttempt.durationMs kv.2) l.

Lemma rows_elem i d : (i, d) ∈ rows ↔ deliveries db !! i = Some d ∧ in_tenant c db i d = true ∧ created_in w d = true.
Proof. by rewrite Hrows, elem_of_map_to_list, matching_lookup. Qed.

Lemma sample_sub ids : (∀ i, i ∈ ids → i ∈ rows.*1) → durations_of (attempts_of ids) ⊆+ window_durations c db w.
Proof.
  intros Hids. apply omap_submseteq, map_to_list_submseteq, map_subseteq_spec.
  intros i a (Ha & Ht & Hwant)%matching_lookup. apply matching_lookup. split_and!; [done|done|].
  unfold wanted in Hwant. bprop. apply Hids in H as ([j d] & E & (Hd & _ & Hc)%rows_elem)%list_elem_of_fmap. cbn in E. subst j.
  unfold attempt_in_window. by rewrite Hd.
Qed.

Lemma sample_all : durations_of (attempts_of rows.*1) ≡ₚ window_durations c db w.
Proof.
  unfold durations_of, attempts_of, window_durations. set (m := matching c db (λ _ a, attempt_in_window db w a)).
  rewrite <- (omap_filter_Some _ (map_to_list m)), <- map_to_list_filter.
  enough (matching c db (λ _ a, wanted rows.*1 a) = filter (λ x : string * DeliveryAttempt.t, is_Some (DeliveryAttempt.durationMs x.2)) m)
    as -> by done.
  apply map_eq. intros i. apply option_eq. intros a. unfold m. rewrite map_lookup_filter_Some, !matching_lookup. cbn.
  unfold wanted, attempt_in_window. rewrite andb_true_iff, !bool_decide_eq_true. split.
  - intros (Ha & Ht & ([j d] & E & (Hd & _ & Hc)%rows_elem)%list_elem_of_fmap & Hs). cbn in E. subst j. rewrite Hd. done.
  - intros ((Ha & Ht & Hc) & Hs). split_and!; [done|done| |done].
    destruct (attempt_delivery c db i a Ht) as (d & Hd & Htd). rewrite Hd in Hc.
    apply list_elem_of_fmap. exists (DeliveryAttempt.deliveryId a, d). split; [done|]. by apply rows_elem.
Qed.

Lemma attempts_measured ids kv : kv ∈ attempts_of ids → DeliveryAttempt.deliveryId kv.2 ∈ ids ∧ is_Some (DeliveryAttempt.durationMs kv.2).
Proof.
  destruct kv as [i a]. intros (_ & _ & H)%elem_of_map_to_list%matching_lookup. unfold wanted in H. by bprop.
Qed.
Lemma attempts_of_nil : attempts_of [] = [].
Proof.
  destruct (attempts_of []) as [|kv l] eqn:E; [done|].
  destruct (attempts_measured [] kv) as [[]%not_elem_of_nil _]. rewrite E. left.
Qed.
End sample.

(** The latency panel.  Over one state of the ledger the percentiles are nearest-rank
    percentiles of a sample of at most two hundred measured attempts of the
    window, values that were really observed; when the response says it is
    exact, the sample is every measured attempt of every delivery of the window,
    and nothing is reported only when there is none. *)
Theorem latency_percentiles (newest_first : list (string * Delivery.t) → list (string * Delivery.t))
    (Hnew : ∀ l, newest_first l ≡ₚ l) (unordered : ∀ R : Type, list (string * R) → list (string * R))
    (Hunordered : ∀ R l, unordered R l ≡ₚ l) (c : Ctx) (hours : option num) (now : Z) (w : AnalyticsWindow)
    (Hw : resolveWindow hours now = Ok w) (db : Db) :
  ∃ out sample, attemptLatency newest_first unordered c hours now db db = Ok out
    ∧ sample ⊆+ window_durations c db w ∧ (length sample <= 200)%nat ∧ la_sample_size out = length sample
    ∧ (la_exact out = true → sample ≡ₚ window_durations c db w)
    ∧ (sample = [] → la_p50 out = None ∧ la_p95 out = None ∧ la_p99 out = None ∧ la_min out = None ∧ la_max out = None)
    ∧ (sample ≠ [] → ∃ p50 p95 p99 mn mx, la_p50 out = Some p50 ∧ la_p95 out = Some p95 ∧ la_p99 out = Some p99
         ∧ la_min out = Some mn ∧ la_max out = Some mx
         ∧ nearest_rank 50 sample p50 ∧ nearest_rank 95 sample p95 ∧ nearest_rank 99 sample p99
         ∧ mn ∈ sample ∧ mx ∈ sample ∧ ∀ x, x ∈ sample → mn <= x <= mx).
Proof.
  unfold attemptLatency. rewrite Hw. cbn [mbind result_bind].
  set (rows := newest_first _). set (page := findPage rows _ _).
  assert (rows ≡ₚ map_to_list (matching c db (λ _ d, created_in w d))) as Hrows by apply Hnew.
  destruct (findPage_facts rows (Some (int LATENCY_DELIVERY_SAMPLE)) None) as (Hr & Hm & _). fold page in Hr, Hm.
  change (Z.to_nat (pageSize _)) with 200%nat in *. change (Z.to_nat (default 0 (offset None))) with 0%nat in *.
  rewrite drop_0 in Hr. cbn [Nat.add] in Hm.
  set (ids := (p_rows page).*1).
  assert (∀ i, i ∈ ids → i ∈ rows.*1) as Hids.
  { intros i. unfold ids. rewrite Hr, fmap_take. apply subseteq_take. }
  assert (p_hasMore page = false → ids = rows.*1) as Hfull.
  { intros E. unfold ids. rewrite Hr, take_ge; [done|]. destruct (Nat.le_gt_cases (length rows) 200); [done|].
    apply Hm in H. congruence. }
  pose proof (sample_sub c db w rows Hrows ids Hids) as Hsub.
  pose proof (sample_all c db w rows Hrows) as Hall.
  case_bool_decide as Hnil.
  { eexists _, []. split; [reflexivity|]. cbn. split_and!; [apply submseteq_nil_l|lia|done| |done|done].
    intros Hex%negb_true_iff. rewrite <- Hall, <- (Hfull Hex). unfold ids. rewrite Hnil. cbn.
    by rewrite attempts_of_nil. }
  set (A := unordered _ _). assert (A ≡ₚ attempts_of c db ids) as HA by apply Hunordered.
  set (apage := findPage A _ _). destruct (findPage_facts A (Some (int LATENCY_ATTEMPT_SAMPLE)) None) as (Hra & Hma & _).
  fold apage in Hra, Hma. change (Z.to_nat (pageSize _)) with 200%nat in *.
  change (Z.to_nat (default 0 (offset None))) with 0%nat in *. rewrite drop_0 in Hra. cbn [Nat.add] in Hma.
  set (taken := omap (λ kv, DeliveryAttempt.durationMs kv.2) (p_rows apage)).
  assert (taken ⊆+ window_durations c db w) as Htaken.
  { etrans; [|exact Hsub]. unfold durations_of. rewrite <- HA. unfold taken. rewrite Hra. apply omap_submseteq, sublist_submseteq, sublist_take. }
  assert ((length taken <= 200)%nat) as Hlen.
  { unfold taken. etrans; [apply length_omap_le|]. rewrite Hra, length_take. lia. }
  assert (p_hasMore page = false → (length A <= 200)%nat → taken ≡ₚ window_durations c db w) as Hexact.
  { intros Hp HlA. rewrite <- Hall, <- (Hfull Hp). unfold durations_of. rewrite <- HA. unfold taken. by rewrite Hra, take_ge. }
  pose proof (merge_sort_Permutation Z.le taken) as Hsorted. fold taken.
  case_bool_decide as Hempty.
  { rewrite Hempty in Hsorted. apply Permutation_nil in Hsorted.
    eexists _, []. split; [reflexivity|]. cbn. split_and!; [apply submseteq_nil_l|lia|done| |done|done].
    intros Hex%negb_true_iff. rewrite <- Hsorted. apply Hexact; [done|].
    assert (p_rows apage = []) as Hno.
    { unfold taken in Hsorted. destruct (p_rows apage) as [|kv l] eqn:E; [done|].
      assert (kv ∈ A) as Hkv by (apply (subseteq_take 200); rewrite <- Hra; left). rewrite HA in Hkv.
      apply attempts_measured in Hkv as [_ [d Hd]]. cbn in Hsorted. by rewrite Hd in Hsorted. }
    rewrite Hra in Hno. apply take_nil_inv in Hno. rewrite Hno. cbn. lia. }
  set (d := merge_sort Z.le taken) in *.
  assert (StronglySorted Z.le d) as Hs by (apply StronglySorted_merge_sort; [intros x y z; lia|intros x y; lia]).
  assert (1 <= length d <= 200)%nat as Hn by (rewrite (Permutation_length Hsorted); split; [|done]; destruct taken; [by apply Permutation_nil_r in Hsorted|cbn; lia]).
  eexists _, d. split; [reflexivity|]. cbn [la_sample_size la_exact la_p50 la_p95 la_p99 la_min la_max].
  split_and!; [by rewrite Hsorted|lia|done| |done|].
  - intros [H1%negb_true_iff H2%negb_true_iff]%andb_true_iff. rewrite Hsorted. apply Hexact; [done|].
    destruct (Nat.le_gt_cases (length A) 200) as [|Hgt]; [done|]. apply Hma in Hgt. congruence.
  - intros _. destruct (percentile_rank d 50 Hs Hn) as (p50 & -> & H50); [set_solver|].
    destruct (percentile_rank d 95 Hs Hn) as (p95 & -> & H95); [set_solver|].
    destruct (percentile_rank d 99 Hs Hn) as (p99 & -> & H99); [set_solver|].
    destruct (sorted_ends d Hs Hempty) as (mn & mx & Hmn & Hmx & H). exists p50, p95, p99, mn, mx. done.
Qed.

(** Three measured attempts and one that was not. *)
Definition an_attempt (delivery : string) (n : Z) (duration : option Z) : DeliveryAttempt.t :=
  DeliveryAttempt.mk delivery n 0 None AttemptStatus.failure None None None None None None None None duration None 0 None.
Definition measured_db : Db :=
  upd_deliveryAttempts (λ _, <["t1" := an_attempt "d2" 1 (Some 70)]> (<["t2" := an_attempt "d2" 2 (Some 20)]>
    (<["t3" := an_attempt "d2" 3 None]> {["t4" := an_attempt "d1" 1 (Some 30)]}))) an_db.

Lemma latency_percentiles_witness :
  ∃ out sample, attemptLatency (λ l, l) (λ _ l, l) an_ctx (Some (int 1)) 3600000 measured_db measured_db = Ok out
    ∧ la_exact out = true ∧ la_p50 out = Some 30 ∧ la_p95 out = Some 70
    ∧ sample ≡ₚ window_durations an_ctx measured_db (MkWindow 1 0 3600000 (-3600000) 0).
Proof.
  destruct (latency_percentiles (λ l, l) (λ l, Permutation_refl l) (λ _ l, l) (λ _ l, Permutation_refl l) an_ctx
    (Some (int 1)) 3600000 (MkWindow 1 0 3600000 (-3600000) 0) eq_refl measured_db) as (out & sample & E & _ & _ & _ & Hex & _).
  assert (match attemptLatency (λ l, l) (λ _ l, l) an_ctx (Some (int 1)) 3600000 measured_db measured_db with
          | Ok o => (la_exact o, la_p50 o, la_p95 o) | _ => (false, None, None) end = (true, Some 30, Some 70)) as H
    by (vm_compute; reflexivity).
  rewrite E in H. apply pair_equal_spec in H as [H H3]. apply pair_equal_spec in H as [H1 H2].
  exists out, sample. exact (conj E (conj H1 (conj H2 (conj H3 (Hex H1))))).
Defined.
