(* ===== verification/Health.v ===== *)
(** The endpoint list: the reads of endpoints/endpoints.service.ts and the health
    they show, endpoints/endpoint-health.service.ts.

    The orders in which PostgreSQL returns groups and rows are arguments. *)
From Stdlib Require Import ZArith Lia.
From S2P Require Import Prelude Js Permissions RetryRules AuditTrail Db Scope TenantScope EndpointSecrets Members Series Binary64 Analytics Breakdown.
Local Open Scope Z_scope.

(** ** The summary *)

Definition HEALTH_WINDOW_MS : Z := 3600000.

Record EndpointHealthSummary : Type := MkHealth {
  success_rate_1h : option f64; deliveries_1h : Z; deliveries_waiting : Z; consecutive_failures : Z;
  opened_at : option jsstr; last_delivery_at : option jsstr
}.

Section Health.
  Context (arrange : ∀ K : Type, list (K * Z) → list (K * Z))
    (unordered : list (string * EndpointHealth.t) → list (string * EndpointHealth.t))
    (newest_first : list (string * Endpoint.t) → list (string * Endpoint.t)) (c : Ctx).

(** The groups of [groupBy(endpointId, status)], read page by page; the entries of
    one endpoint are its inner Map. *)
Definition countsByEndpoint (where_ : Delivery.t → bool) : M Db (list (string * DeliveryStatus.t * Z)) := λ db,
  let gs := arrange _ (groups c where_ (λ d, (Delivery.endpointId d, Delivery.status d)) db) in
  (group_pages (S (length gs)) gs 0, db).

(** [groupBy(endpointId)] with [_max: { createdAt }] *)
Definition newest (rows : list Delivery.t) (endpointId : string) : Z :=
  match map Delivery.createdAt (filter (λ d, Delivery.endpointId d = endpointId) rows) with
  | [] => 0
  | t :: ts => foldl Z.max t ts
  end.
Definition lastDeliveryByEndpoint (endpointIds : list string) : M Db (gmap string jsstr) := λ db,
  let rows := (map_to_list (matching c db (λ _ d, bool_decide (Delivery.endpointId d ∈ endpointIds)))).*2 in
  let gs := arrange _ (map (λ i, (i, newest rows i)) (remove_dups (map Delivery.endpointId rows))) in
  (page ← groupBy gs (Some (int MAX_PAGE_SIZE)) None; Ok (list_to_map (map (λ g, (g.1, toISOString g.2)) page)), db).

(** [for (const count of counts.values()) total += count] *)
Definition sum_values (counts : list (DeliveryStatus.t * Z)) : Z := foldl (λ sum g, sum + g.2) 0 counts.

Definition health_of (recent waiting : list (string * DeliveryStatus.t * Z)) (breakers : list (string * EndpointHealth.t))
    (lastSeen : gmap string jsstr) (endpointId : string) : EndpointHealthSummary :=
  let counts := counts_of recent endpointId in
  let succeeded := at_status counts DeliveryStatus.succeeded in
  let failing := total_of (at_status counts) FAILING in
  let settled := succeeded + failing in
  let breaker := list_to_map (M:=gmap string EndpointHealth.t) breakers !! endpointId in
  MkHealth (if settled =? 0 then None else Some (rate succeeded settled))
    (sum_values counts) (sum_values (counts_of waiting endpointId))
    (default 0 (EndpointHealth.consecutiveFailures <$> breaker))
    (toISOString <$> (breaker ≫= EndpointHealth.openedAt)) (lastSeen !! endpointId).

Definition health_summarise (endpointIds : list string) (now : Z) : M Db (gmap string EndpointHealthSummary) :=
  if bool_decide (endpointIds = []) then mret ∅
  else
    let since := now - HEALTH_WINDOW_MS in
    recent ← countsByEndpoint (λ d, (since <=? Delivery.createdAt d) && bool_decide (Delivery.endpointId d ∈ endpointIds));
    waiting ← countsByEndpoint (λ d, has_status IN_FLIGHT d && bool_decide (Delivery.endpointId d ∈ endpointIds));
    rows ← findAll c (λ id (_ : EndpointHealth.t), bool_decide (id ∈ endpointIds));
    breakers ← lift (findMany (unordered rows) None None);
    lastSeen ← lastDeliveryByEndpoint endpointIds;
    mret (list_to_map (map (λ i, (i, health_of recent waiting breakers lastSeen i)) endpointIds)).

(** ** The list and the detail *)

Record ListEndpointsQuery : Type := MkListEndpoints {
  le_status : option EndpointStatus.t; le_include_deleted : option bool; le_limit : option num; le_offset : option num
}.
Record EndpointDto : Type := MkEndpointDto {
  ed_id : string; ed_project_id : string; ed_name : jsstr; ed_url : jsstr;
  ed_description : option jsstr; ed_status : EndpointStatus.t; ed_enabled : bool;
  ed_disabled_reason : option jsstr; ed_disabled_at : option jsstr; ed_timeout_ms : Z; ed_max_concurrency : Z;
  ed_rate_limit : option Z; ed_rate_limit_window_seconds : Z; ed_retry_policy_id : option string;
  ed_custom_headers : option (list (jsstr * jsstr)); ed_has_live_secret : bool; ed_created_at : jsstr;
  ed_updated_at : jsstr; ed_health : option EndpointHealthSummary
}.
(** An empty object is null. *)
Definition customHeaders (value : option (list (jsstr * jsstr))) : option (list (jsstr * jsstr)) :=
  if value is Some (h :: hs) then Some (h :: hs) else None.
Definition toEndpointDto (id : string) (e : Endpoint.t) (hasLiveSecret : bool) (health : option EndpointHealthSummary)
    : EndpointDto :=
  MkEndpointDto id (Endpoint.projectId e) (Endpoint.name e) (Endpoint.url e) (Endpoint.description e) (Endpoint.status e)
    (Endpoint.enabled e) (Endpoint.disabledReason e) (toISOString <$> Endpoint.disabledAt e) (Endpoint.timeoutMs e) (Endpoint.maxConcurrency e)
    (Endpoint.rateLimit e) (Endpoint.rateLimitWindowSeconds e) (Endpoint.retryPolicyId e)
    (customHeaders (Endpoint.customHeaders e)) hasLiveSecret (toISOString (Endpoint.createdAt e))
    (toISOString (Endpoint.updatedAt e)) health.

Definition listed (query : ListEndpointsQuery) (e : Endpoint.t) : bool :=
  match le_status query with
  | Some s => bool_decide (Endpoint.status e = s)
  | None => if le_include_deleted query is Some true then true
            else negb (bool_decide (Endpoint.status e = EndpointStatus.deleted))
  end.

(** [.catch(() => new Map())] *)
Definition health_or_nothing (ids : list string) (now : Z) : M Db (gmap string EndpointHealthSummary) :=
  health ← safely (health_summarise ids now);
  mret (default ∅ health).

Definition endpoints_list (query : ListEndpointsQuery) (now : Z) : M Db (list EndpointDto * bool * option Z) :=
  rows ← findAll c (λ _ e, listed query e);
  let page := findPage (newest_first rows) (le_limit query) (le_offset query) in
  let ids := (p_rows page).*1 in
  live ← liveSecretEndpointIds c ids now;
  health ← health_or_nothing ids now;
  mret (map (λ kv, toEndpointDto kv.1 kv.2 (bool_decide (kv.1 ∈ live)) (health !! kv.1)) (p_rows page),
        p_hasMore page, p_nextSkip page).

Definition endpoints_get (endpointId : string) (now : Z) : M Db EndpointDto :=
  endpoint ← requireById c endpointId;
  live ← hasLiveSecret c endpointId now;
  health ← health_or_nothing [endpointId] now;
  mret (toEndpointDto endpointId endpoint live (health !! endpointId)).
End Health.

(** ** What the numbers are *)

Definition recently (now : Z) (d : Delivery.t) : bool := now - HEALTH_WINDOW_MS <=? Delivery.createdAt d.

Record health_exact (c : Ctx) (db : Db) (now : Z) (i : string) (s : EndpointHealthSummary) : Prop := {
  he_rate :
    let succeeded := sent_to c db (recently now) [DeliveryStatus.succeeded] i in
    let settled := succeeded + sent_to c db (recently now) FAILING i in
    success_rate_1h s = if settled =? 0 then None else Some (rate succeeded settled);
  he_deliveries : deliveries_1h s = sent_to c db (recently now) ALL_STATUSES i;
  he_waiting : deliveries_waiting s = sent_to c db (has_status IN_FLIGHT) ALL_STATUSES i;
  he_failures : consecutive_failures s = default 0 (EndpointHealth.consecutiveFailures <$> find c db i);
  he_opened : opened_at s = toISOString <$> (find c db i ≫= EndpointHealth.openedAt);
  he_last : match last_delivery_at s with
            | None => sent_to c db (λ _, true) ALL_STATUSES i = 0
            | Some t => ∃ d, d ∈ ledger c db ∧ Delivery.endpointId d = i ∧ t = toISOString (Delivery.createdAt d)
                ∧ ∀ d' : Delivery.t, d' ∈ ledger c db → Delivery.endpointId d' = i → Delivery.createdAt d' <= Delivery.createdAt d
            end
}.

Lemma foldl_max t ts : foldl Z.max t ts ∈ t :: ts ∧ ∀ x, x ∈ t :: ts → x <= foldl Z.max t ts.
Proof.
  revert t. induction ts as [|u ts IH]; intros t; cbn [foldl].
  { split; [left|]. intros x Hx. apply list_elem_of_singleton in Hx as ->. lia. }
  destruct (IH (Z.max t u)) as [H1 H2]. split.
  - apply elem_of_cons in H1 as [->|H1]; [|right; by right].
    destruct (Z.max_spec t u) as [[_ ->]|[_ ->]]; [right; left|left].
  - intros x Hx. pose proof (H2 (Z.max t u) ltac:(left)). rewrite !elem_of_cons in Hx.
    destruct Hx as [->|[->|Hx]]; [lia|lia|]. apply H2. by right.
Qed.

Lemma keyed_lookup {A} (f : string → A) ids i : i ∈ ids →
  list_to_map (M:=gmap string A) (map (λ i, (i, f i)) ids) !! i = Some (f i).
Proof.
  induction ids as [|k ids IH]; intros Hi; [by apply not_elem_of_nil in Hi|]. cbn. destruct (decide (k = i)) as [->|Hne].
  - by rewrite lookup_insert_eq.
  - rewrite lookup_insert_ne by done. apply IH. by apply elem_of_cons in Hi as [->|].
Qed.

Lemma newest_spec rows i : (∃ d, d ∈ rows ∧ Delivery.endpointId d = i) →
  ∃ d, d ∈ rows ∧ Delivery.endpointId d = i ∧ newest rows i = Delivery.createdAt d
    ∧ ∀ d', d' ∈ rows → Delivery.endpointId d' = i → Delivery.createdAt d' <= Delivery.createdAt d.
Proof.
  intros (d0 & Hd0 & Hi0). unfold newest. set (l := filter _ rows).
  assert (∀ d, d ∈ l ↔ Delivery.endpointId d = i ∧ d ∈ rows) as Hl by (intros d; unfold l; by rewrite list_elem_of_filter).
  destruct (map Delivery.createdAt l) as [|t ts] eqn:E.
  { assert (d0 ∈ l) as Hin by (by apply Hl). destruct l; [by apply not_elem_of_nil in Hin|done]. }
  destruct (foldl_max t ts) as [H1 H2]. rewrite <- E in H1, H2. apply list_elem_of_fmap in H1 as (d & Hd & [Hdi Hdr]%Hl).
  exists d. split_and!; [done|done|done|]. intros d' Hd' Hi'. rewrite <- Hd. apply H2. apply list_elem_of_fmap_2. by apply Hl.
Qed.

Section health_facts.
  Context (arrange : ∀ K : Type, list (K * Z) → list (K * Z)) (Harrange : ∀ K l, arrange K l ≡ₚ l)
    (unordered : list (string * EndpointHealth.t) → list (string * EndpointHealth.t)) (Hunordered : ∀ l, unordered l ≡ₚ l)
    (c : Ctx).

Lemma countsByEndpoint_run p ids db :
  ∃ b, countsByEndpoint arrange c (λ d, p d && bool_decide (Delivery.endpointId d ∈ ids)) db = (Ok b, db)
    ∧ b ≡ₚ status_groups c db p ids.
Proof.
  unfold countsByEndpoint. rewrite group_pages_all by lia. eexists. split; [reflexivity|]. cbn. rewrite drop_0. apply Harrange.
Qed.

Lemma lastDelivery_run ids db : (length ids <= 200)%nat →
  ∃ m, lastDeliveryByEndpoint arrange c ids db = (Ok m, db)
    ∧ ∀ i, i ∈ ids →
      match m !! i with
      | None => sent_to c db (λ _, true) ALL_STATUSES i = 0
      | Some t => ∃ d, d ∈ ledger c db ∧ Delivery.endpointId d = i ∧ t = toISOString (Delivery.createdAt d)
          ∧ ∀ d' : Delivery.t, d' ∈ ledger c db → Delivery.endpointId d' = i → Delivery.createdAt d' <= Delivery.createdAt d
      end.
Proof.
  intros Hlen. unfold lastDeliveryByEndpoint. set (rows := (map_to_list _).*2). set (keys := remove_dups _).
  assert (∀ d : Delivery.t, d ∈ rows ↔ d ∈ ledger c db ∧ Delivery.endpointId d ∈ ids) as Hrows.
  { intros d. unfold rows, ledger. rewrite !list_elem_of_fmap. split.
    - intros ([k d'] & -> & (Hd & Ht & Hi)%elem_of_map_to_list%matching_lookup). bprop. split; [|done].
      exists (k, d'). split; [done|]. by apply elem_of_map_to_list, matching_lookup.
    - intros [([k d'] & -> & (Hd & Ht & _)%elem_of_map_to_list%matching_lookup) Hi]. exists (k, d'). split; [done|].
      apply elem_of_map_to_list, matching_lookup. split_and!; [done|done|]. by apply bool_decide_eq_true. }
  assert (∀ i, i ∈ keys ↔ ∃ d, d ∈ rows ∧ Delivery.endpointId d = i) as Hkeys.
  { intros i. unfold keys. rewrite elem_of_remove_dups, list_elem_of_fmap. naive_solver. }
  set (gs := arrange _ _). assert (gs ≡ₚ map (λ i, (i, newest rows i)) keys) as Hgs by apply Harrange.
  rewrite groupBy_page. change (Z.to_nat (pageSize _)) with 200%nat. change (Z.to_nat (default 0 (offset None))) with 0%nat.
  rewrite drop_0, take_ge.
  2: { rewrite Hgs, length_map. etrans; [|exact Hlen]. apply submseteq_length, NoDup_submseteq; [apply NoDup_remove_dups|].
       intros i (d & Hd & <-)%Hkeys. apply Hrows in Hd as [_ Hd]. exact Hd. }
  cbn [mbind result_bind]. eexists. split; [reflexivity|]. intros i Hi.
  set (l := map _ gs). assert (l.*1 ≡ₚ keys) as Hl.
  { etrans; [apply (Permutation_map fst), Permutation_map, Hgs|]. rewrite !map_map. cbn [fst]. by rewrite map_id. }
  assert (NoDup l.*1) as Hn by (rewrite Hl; apply NoDup_remove_dups).
  destruct (list_to_map l !! i) as [t|] eqn:E.
  - apply (elem_of_list_to_map_2 l) in E. unfold l in E. rewrite Hgs in E. apply list_elem_of_fmap in E as ([j n] & [= -> ->] & E).
    apply list_elem_of_fmap in E as (j' & [= -> ->] & Hj%Hkeys).
    destruct (newest_spec rows j' Hj) as (d & Hd & Hdj & -> & Hmax). exists d. apply Hrows in Hd as [Hd _].
    split_and!; [done|done|done|]. intros d' Hd' Hj'. apply Hmax; [|done]. apply Hrows. split; [done|]. by rewrite Hj'.
  - apply not_elem_of_list_to_map in E. unfold counted, howmany. rewrite filter_nothing; [done|].
    intros d Hd H. cbn in H. bprop. apply E. rewrite Hl. apply Hkeys. exists d. split; [|done]. apply Hrows. by subst.
Qed.

Lemma health_of_exact recent waiting breakers lastSeen ids now db i : i ∈ ids →
  recent ≡ₚ status_groups c db (recently now) ids → waiting ≡ₚ status_groups c db (has_status IN_FLIGHT) ids →
  list_to_map (M:=gmap string EndpointHealth.t) breakers !! i = find c db i →
  match lastSeen !! i with
  | None => sent_to c db (λ _, true) ALL_STATUSES i = 0
  | Some t => ∃ d, d ∈ ledger c db ∧ Delivery.endpointId d = i ∧ t = toISOString (Delivery.createdAt d)
      ∧ ∀ d' : Delivery.t, d' ∈ ledger c db → Delivery.endpointId d' = i → Delivery.createdAt d' <= Delivery.createdAt d
  end →
  health_exact c db now i (health_of recent waiting breakers lastSeen i).
Proof.
  intros Hi Hr Hw Hb Hlast. unfold health_of. split; cbn [success_rate_1h deliveries_1h deliveries_waiting consecutive_failures opened_at last_delivery_at].
  - cbv zeta. rewrite (at_status_exact c db (recently now) ids recent Hr i _ Hi).
    by rewrite (total_of_sent c db (recently now) ids recent Hr i FAILING Hi) by (repeat constructor; set_solver).
  - change (sum_counts (counts_of recent i) = sent_to c db (recently now) ALL_STATUSES i).
    rewrite sum_counts_statuses by (eapply counts_of_nodup, breakdown_nodup, Hr).
    apply (total_of_sent c db (recently now) ids recent Hr i ALL_STATUSES Hi). repeat constructor; set_solver.
  - change (sum_counts (counts_of waiting i) = sent_to c db (has_status IN_FLIGHT) ALL_STATUSES i).
    rewrite sum_counts_statuses by (eapply counts_of_nodup, breakdown_nodup, Hw).
    apply (total_of_sent c db (has_status IN_FLIGHT) ids waiting Hw i ALL_STATUSES Hi). repeat constructor; set_solver.
  - by rewrite Hb.
  - by rewrite Hb.
  - exact Hlast.
Qed.

(** Breakers beyond the default page make the whole summary fail. *)
Lemma health_summarise_run ids now db : (length ids <= 200)%nat →
  if (size (matching c db (λ id (_ : EndpointHealth.t), bool_decide (id ∈ ids))) <=? 50)%nat
  then ∃ m, health_summarise arrange unordered c ids now db = (Ok m, db)
         ∧ ∀ i, i ∈ ids → ∃ s, m !! i = Some s ∧ health_exact c db now i s
  else ∃ e, health_summarise arrange unordered c ids now db = (Throw e, db).
Proof.
  intros Hlen. set (mm := matching c db _). unfold health_summarise. case_bool_decide as Hnil.
  { subst ids. destruct (Nat.leb_spec (size mm) 50).
    - exists ∅. split; [done|]. by intros i ?%not_elem_of_nil.
    - assert (mm = ∅) as E; [|rewrite E, map_size_empty in H; lia].
      apply map_empty. intros i. apply eq_None_not_Some. intros [r (_ & _ & Hx)%matching_lookup]. bprop. set_solver. }
  destruct (countsByEndpoint_run (recently now) ids db) as (recent & Er & Hr).
  destruct (countsByEndpoint_run (has_status IN_FLIGHT) ids db) as (waiting & Ew & Hw).
  destruct (lastDelivery_run ids db Hlen) as (lastSeen & El & Hl).
  unfold recently in Er. unfold findAll, mbind, M_bind, gets, lift. rewrite Er. cbn beta iota. rewrite Ew. cbn beta iota.
  change (matching c db _) with mm.
  destruct (findMany_honest (unordered (map_to_list mm)) None) as [-> _]. change (Z.to_nat (default 0 (offset None))) with 0%nat.
  rewrite drop_0. assert (length (unordered (map_to_list mm)) = size mm) as -> by (rewrite Hunordered; apply length_map_to_list).
  unfold DEFAULT_PAGE_SIZE.
  destruct (Nat.leb_spec (size mm) 50), (Z.leb_spec (Z.of_nat (size mm)) 50); try lia; [|eexists; reflexivity].
  rewrite El. cbn beta iota. eexists. split; [reflexivity|]. intros i Hi.
  exists (health_of recent waiting (unordered (map_to_list mm)) lastSeen i). split.
  - by apply (keyed_lookup (health_of recent waiting (unordered (map_to_list mm)) lastSeen)).
  - apply (health_of_exact _ _ _ _ ids); [done|done|done| |by apply Hl].
    rewrite (list_to_map_proper _ (map_to_list mm)); [|rewrite Hunordered; apply NoDup_fst_map_to_list|apply Hunordered].
    rewrite list_to_map_to_list. apply option_eq. intros r. unfold mm. rewrite matching_lookup, find_Some, bool_decide_eq_true. tauto.
Qed.

Lemma liveSecrets_run ids now db :
  ∃ live, liveSecretEndpointIds c ids now db = (Ok live, db)
    ∧ ∀ i, i ∈ ids → (i ∈ live ↔ ∃ k s, find c db k = Some s ∧ EndpointSecret.endpointId s = i ∧ isEffectivelyActive s now = true).
Proof.
  unfold liveSecretEndpointIds, findAll, mbind, M_bind, gets. eexists. split; [reflexivity|]. intros i Hi.
  rewrite elem_of_remove_dups, list_elem_of_fmap. split.
  - intros ([k s] & -> & (Hs & Ht & Hl)%elem_of_map_to_list%matching_lookup). bprop. exists k, s. by rewrite find_Some.
  - intros (k & s & (Hs & Ht)%find_Some & He & Hl). exists (k, s). split; [done|]. apply elem_of_map_to_list, matching_lookup.
    split_and!; [done|done|]. by rewrite He, Hl, bool_decide_eq_true_2.
Qed.

(** C21. The endpoint list always answers, with at most 200 endpoints, each as its
    row has it and with the live-secret flag true exactly when the tenant holds a
    secret of it that signs now. Its health is exact whenever the page has at most
    fifty breaker rows: the rate over the hour's settled deliveries (none when
    nothing settled), the hour's and the waiting counts, the breaker's counters
    and the newest delivery. With more breaker rows, no endpoint of the page shows
    any health, since the breakers are read without a page size. *)
Theorem endpoint_list_health (newest_first : list (string * Endpoint.t) → list (string * Endpoint.t)) query now db
    (page := findPage (newest_first (map_to_list (matching c db (λ _ e, listed query e)))) (le_limit query) (le_offset query))
    (breakers := size (matching c db (λ id (_ : EndpointHealth.t), bool_decide (id ∈ (p_rows page).*1)))) :
  ∃ data, endpoints_list arrange unordered newest_first c query now db = (Ok (data, p_hasMore page, p_nextSkip page), db)
    ∧ (length data <= 200)%nat
    ∧ Forall2 (λ kv d, d = toEndpointDto kv.1 kv.2 (ed_has_live_secret d) (ed_health d)
        ∧ (ed_has_live_secret d = true
           ↔ ∃ k s, find c db k = Some s ∧ EndpointSecret.endpointId s = kv.1 ∧ isEffectivelyActive s now = true)
        ∧ if (breakers <=? 50)%nat then ∃ s, ed_health d = Some s ∧ health_exact c db now kv.1 s else ed_health d = None)
        (p_rows page) data.
Proof.
  destruct (liveSecrets_run (p_rows page).*1 now db) as (live & El & Hl).
  assert (length (p_rows page) <= 200)%nat as Hlen.
  { unfold page. destruct (findPage_facts (newest_first (map_to_list (matching c db (λ _ e, listed query e)))) (le_limit query)
      (le_offset query)) as [-> _]. rewrite length_take. pose proof (pageSize_bounds (le_limit query)). lia. }
  pose proof (health_summarise_run (p_rows page).*1 now db ltac:(by rewrite length_fmap)) as Hh. fold breakers in Hh.
  assert (∃ m, health_or_nothing arrange unordered c (p_rows page).*1 now db = (Ok m, db)
    ∧ ∀ i, i ∈ (p_rows page).*1 → if (breakers <=? 50)%nat then ∃ s, m !! i = Some s ∧ health_exact c db now i s else m !! i = None)
    as (m & Em & Hm).
  { unfold health_or_nothing, safely, mbind, M_bind. destruct (breakers <=? 50)%nat.
    - destruct Hh as (m & -> & Hm). by exists m.
    - destruct Hh as (e & ->). exists ∅. split; [done|]. intros i _. apply lookup_empty. }
  eexists. split.
  - unfold endpoints_list, findAll, mbind, M_bind, gets. fold page. rewrite El. cbn beta iota. rewrite Em. reflexivity.
  - rewrite length_map. split; [done|]. apply Forall2_fmap_r, Forall_Forall2_diag, Forall_forall. intros [i e] Hi.
    apply (list_elem_of_fmap_2 fst) in Hi. cbn [fst] in Hi. split; [reflexivity|]. split; [|exact (Hm i Hi)].
    change (bool_decide (i ∈ live) = true ↔ ∃ k s, find c db k = Some s ∧ EndpointSecret.endpointId s = i
      ∧ isEffectivelyActive s now = true). rewrite bool_decide_eq_true. by apply Hl.
Qed.
End health_facts.

Definition an_endpoint : Endpoint.t :=
  Endpoint.mk "p1" (js "hooks") (js "https://a.test/") None EndpointStatus.active true None None 5000 4 None 1 None None 0 0.
(** One endpoint with a breaker row: a success and a failure in the hour. *)
Definition health_db : Db :=
  upd_endpointHealth (λ _, {["e1" := EndpointHealth.mk EndpointHealthState.degraded 3 0 None None None None 0]})
    (upd_deliveries (λ _, <["d1" := an_delivery "e1" DeliveryStatus.succeeded 1 400000]>
      (<["d2" := an_delivery "e1" DeliveryStatus.exhausted 5 500000]>
         {["d3" := an_delivery "e1" DeliveryStatus.retrying 2 (-9000000)]}))
      (upd_endpoints (λ _, {["e1" := an_endpoint]}) two_orgs)).
Definition everything : ListEndpointsQuery := MkListEndpoints None None None None.

Lemma endpoint_list_health_witness :
  ∃ d s, (endpoints_list (λ _ l, l) (λ l, l) (λ l, l) an_ctx everything 3600000 health_db).1 = Ok ([d], false, None)
    ∧ ed_health d = Some s ∧ health_exact an_ctx health_db 3600000 "e1" s
    ∧ (deliveries_1h s, deliveries_waiting s, consecutive_failures s) = (2, 1, 3).
Proof.
  destruct (endpoint_list_health (λ _ l, l) (λ _ l, Permutation_refl l) (λ l, l) (λ l, Permutation_refl l) an_ctx (λ l, l)
    everything 3600000 health_db) as (data & E & _ & H). cbv zeta in E, H.
  change (p_rows _) with [("e1", an_endpoint)] in H. change (size _ <=? 50)%nat with true in H. cbn iota in H.
  apply Forall2_cons_inv_l in H as (d & rest & (_ & _ & s & Hs & Hx) & Hrest & ->). apply Forall2_nil_inv_l in Hrest as ->.
  assert (match (endpoints_list (λ _ l, l) (λ l, l) (λ l, l) an_ctx everything 3600000 health_db).1 with
          | Ok ([d], _, _) => (λ s, (deliveries_1h s, deliveries_waiting s, consecutive_failures s)) <$> ed_health d
          | _ => None end = Some (2, 1, 3)) as Hv by (vm_compute; reflexivity).
  rewrite E in Hv.
  change ((λ s, (deliveries_1h s, deliveries_waiting s, consecutive_failures s)) <$> ed_health d = Some (2, 1, 3)) in Hv.
  rewrite Hs in Hv. apply (f_equal (default (0, 0, 0))) in Hv.
  exists d, s. exact (conj (f_equal fst E) (conj Hs (conj Hx Hv))).
Defined.

