(* ===== verification/Ledger.v ===== *)
(** The delivery ledger as it is read: deliveries/deliveries.service.ts (list, get,
    listAttempts), events/events.service.ts (list, get, listDeliveries), their DTOs,
    and authz/event-payload-head.ts.

    [newest_first] and [by_attempt] are ORDER BY created_at DESC and ORDER BY
    attempt_number; [lower] is String.prototype.toLowerCase, [contains] the
    case-insensitive LIKE of PostgreSQL. *)
From Stdlib Require Import ZArith Lia.
From S2P Require Import Prelude Js Permissions RetryRules AuditTrail Db Scope TenantScope Utf8 EventPayload Replay Series Binary64 Analytics Breakdown.
Local Open Scope Z_scope.

(** ** Headers *)

Definition MAX_INLINE_ATTEMPTS : Z := 100.
Definition FAILING_NOW_STATUSES : list DeliveryStatus.t :=
  [DeliveryStatus.retrying; DeliveryStatus.failed; DeliveryStatus.exhausted].
Definition REDACTED_REQUEST_HEADERS : list jsstr :=
  [js "authorization"; js "proxy-authorization"; js "cookie"; js "x-api-key"; js "api-key"; js "x-auth-token"].
Definition HEADER_REDACTED : jsstr := js "[redacted]".

(** The rendered map; a value is undefined where JSON.stringify says so. *)
Abbreviation header_map := (list (jsstr * option jsstr)).
Definition render_header (header : jsval) : option jsstr := if header is JStr s then Some s else stringify header.
(** [out[name] = text] on an object literal: the name __proto__ reaches the accessor
    of the prototype, which ignores a text. *)
Definition assign_header (out : header_map) (name : jsstr) (text : option jsstr) : header_map :=
  if bool_decide (name = js "__proto__") then out else out ++ [(name, text)].

Section Headers.
  Context (lower : jsstr → jsstr).

Definition isRedactedRequestHeader (name : jsstr) : bool := bool_decide (lower name ∈ REDACTED_REQUEST_HEADERS).

Definition headerMap (value : jsval) (redact : bool) : option header_map :=
  match value with
  | JObj entries =>
      Some (foldl (λ out kv, assign_header out kv.1
        (if redact && isRedactedRequestHeader kv.1 then Some HEADER_REDACTED else render_header kv.2)) [] entries)
  | _ => None
  end.

Definition safeHeaders (value : jsval) : option header_map :=
  match value with
  | JObj entries =>
      Some (foldl (λ out kv, assign_header out kv.1
        (if isRedactedRequestHeader kv.1 then Some HEADER_REDACTED else render_header kv.2)) [] entries)
  | _ => None
  end.
End Headers.

(** ** Responses *)

Record DeliveryAttemptDto : Type := MkAttemptDto {
  at_id : string; at_delivery_id : string; at_attempt_number : Z; at_status_ : AttemptStatus.t; at_http_status : option Z;
  at_started_at : jsstr; at_completed_at : option jsstr; at_duration_ms : option Z; at_request_headers : option header_map;
  at_response_headers : option header_map; at_response_body : option jsstr; at_response_body_location : option jsstr;
  at_response_size : option Z; at_error_code : option jsstr; at_error_message : option jsstr; at_worker_id : option jsstr;
  at_trace_id : option jsstr; at_created_at : jsstr
}.
Definition toAttemptDto (lower : jsstr → jsstr) (id : string) (a : DeliveryAttempt.t) : DeliveryAttemptDto :=
  MkAttemptDto id (DeliveryAttempt.deliveryId a) (DeliveryAttempt.attemptNumber a) (DeliveryAttempt.status a)
    (DeliveryAttempt.httpStatus a) (toISOString (DeliveryAttempt.startedAt a)) (toISOString <$> DeliveryAttempt.completedAt a)
    (DeliveryAttempt.durationMs a) (headerMap lower (default JNull (DeliveryAttempt.requestHeaders a)) true)
    (headerMap lower (default JNull (DeliveryAttempt.responseHeaders a)) false) (DeliveryAttempt.responseBody a)
    (DeliveryAttempt.responseBodyLocation a) (DeliveryAttempt.responseSize a) (DeliveryAttempt.errorCode a)
    (DeliveryAttempt.errorMessage a) (DeliveryAttempt.workerId a) (DeliveryAttempt.traceId a)
    (toISOString (DeliveryAttempt.createdAt a)).

Record DeliveryDto : Type := MkDeliveryDto {
  dd_id : string; dd_event_id : string; dd_endpoint_id : string; dd_subscription_id : option string; dd_project_id : string;
  dd_status : DeliveryStatus.t; dd_terminal : bool; dd_attempt_count : Z; dd_max_attempts : Z; dd_next_attempt_at : option jsstr;
  dd_last_attempt_at : option jsstr; dd_completed_at : option jsstr; dd_ordering_key : option jsstr; dd_last_error : option jsstr;
  dd_locked_by : option jsstr; dd_locked_until : option jsstr; dd_replay_of_delivery_id : option string;
  dd_replayed_by : option string; dd_is_replay : bool; dd_attempts_pruned_at : option jsstr; dd_created_at : jsstr;
  dd_updated_at : jsstr
}.
Definition TERMINAL_STATUSES : list DeliveryStatus.t :=
  [DeliveryStatus.succeeded; DeliveryStatus.failed; DeliveryStatus.exhausted; DeliveryStatus.cancelled].
Definition isTerminal (s : DeliveryStatus.t) : bool := bool_decide (s ∈ TERMINAL_STATUSES).
Definition toDeliveryDto (id : string) (d : Delivery.t) : DeliveryDto :=
  MkDeliveryDto id (Delivery.eventId d) (Delivery.endpointId d) (Delivery.subscriptionId d) (Delivery.projectId d)
    (Delivery.status d) (isTerminal (Delivery.status d)) (Delivery.attemptCount d) (Delivery.maxAttempts d)
    (Some (toISOString (Delivery.nextAttemptAt d))) (toISOString <$> Delivery.lastAttemptAt d)
    (toISOString <$> Delivery.completedAt d) (Delivery.orderingKey d) (Delivery.lastError d) (Delivery.lockedBy d)
    (toISOString <$> Delivery.lockedUntil d) (Delivery.replayOfDeliveryId d) (Delivery.replayedBy d)
    (bool_decide (is_Some (Delivery.replayOfDeliveryId d))) (toISOString <$> Delivery.attemptsPrunedAt d)
    (toISOString (Delivery.createdAt d)) (toISOString (Delivery.updatedAt d)).

Record DeliveryListItemDto : Type := MkListItem {
  li_delivery : DeliveryDto; li_payload_preview : option jsstr; li_payload_size : option Z; li_payload_truncated : bool
}.
Definition toDeliveryListItemDto (id : string) (d : Delivery.t) (preview : PayloadPreview) : DeliveryListItemDto :=
  MkListItem (toDeliveryDto id d) (pv_preview preview) (pv_size preview) (pv_truncated preview).

Record DeliveryEventRefDto : Type := MkEventRef {
  er_id : string; er_event_type : jsstr; er_idempotency_key : option jsstr; er_created_at : jsstr
}.
Definition toEventRef (id : string) (e : Event.t) : DeliveryEventRefDto :=
  MkEventRef id (Event.eventType e) (Event.idempotencyKey e) (toISOString (Event.createdAt e)).
Record DeliveryEndpointRefDto : Type := MkEndpointRef {
  pr_id : string; pr_name : jsstr; pr_url : jsstr; pr_status : EndpointStatus.t; pr_disabled_reason : option jsstr
}.
Definition toEndpointRef (id : string) (e : Endpoint.t) : DeliveryEndpointRefDto :=
  MkEndpointRef id (Endpoint.name e) (Endpoint.url e) (Endpoint.status e) (Endpoint.disabledReason e).
Record DeliveryDetailDto : Type := MkDetail {
  dt_delivery : DeliveryDto; dt_event : DeliveryEventRefDto; dt_endpoint : DeliveryEndpointRefDto;
  dt_attempts : list DeliveryAttemptDto; dt_attempts_truncated : bool
}.

Record ReplayResultDto : Type := MkReplayResult { rr_deliveries : list DeliveryDto; rr_replayed_count : nat; rr_replay_of : list string }.
Definition toReplayResult (created : list delivery_row) : ReplayResultDto :=
  MkReplayResult (map (λ r, toDeliveryDto r.1 r.2) created) (length created)
    (map (λ r, default "" (Delivery.replayOfDeliveryId r.2)) created).

(** ** Filters *)

Inductive DeliveryOrigin : Type := original | replayed.
Record ListDeliveriesQuery : Type := MkListDeliveries {
  q_status : option DeliveryStatus.t; q_failing_now : option bool; q_endpoint_id : option string; q_event_id : option string;
  q_event_type : option jsstr; q_created_after : option Z; q_created_before : option Z; q_origin : option DeliveryOrigin;
  q_limit : option num; q_offset : option num
}.
Definition with_event_id (eventId : string) (q : ListDeliveriesQuery) : ListDeliveriesQuery :=
  MkListDeliveries (q_status q) (q_failing_now q) (q_endpoint_id q) (Some eventId) (q_event_type q) (q_created_after q)
    (q_created_before q) (q_origin q) (q_limit q) (q_offset q).

(** A condition of a WHERE clause that may be absent. *)
Definition asked {A} (o : option A) (f : A → bool) : bool := if o is Some a then f a else true.

(** Prisma's [{ gte, lt }] *)
Definition DateTimeFilter : Type := option Z * option Z.
Definition in_range (f : DateTimeFilter) (t : Z) : bool := asked f.1 (λ gte, gte <=? t) && asked f.2 (λ lt, t <? lt).
Definition dateRange (after before : option Z) : result (option DateTimeFilter) :=
  match after, before with
  | None, None => Ok None
  | Some a, Some b =>
      _ ← throw_if (b <=? a) invalid_request "'created_after' must be strictly before 'created_before'; as given, the range selects nothing.";
      Ok (Some (Some a, Some b))
  | _, _ => Ok (Some (after, before))
  end.

Record DeliveryWhere : Type := MkDeliveryWhere {
  dw_status : option (list DeliveryStatus.t); dw_endpointId : option string; dw_eventId : option string;
  dw_eventType : option jsstr; dw_createdAt : option DateTimeFilter; dw_isReplay : option bool
}.
Definition filterWhere (q : ListDeliveriesQuery) : result DeliveryWhere :=
  let failing := bool_decide (q_failing_now q = Some true) in
  _ ← throw_if (failing && bool_decide (is_Some (q_status q))) invalid_request "'status' and 'failing_now' contradict each other.";
  createdAt ← dateRange (q_created_after q) (q_created_before q);
  Ok (MkDeliveryWhere
        (match q_status q with Some s => Some [s] | None => if failing then Some FAILING_NOW_STATUSES else None end)
        (q_endpoint_id q) (q_event_id q) (q_event_type q) createdAt
        ((λ o, if o is replayed then true else false) <$> q_origin q)).
(** The join is on the event's own row, whatever its tenant. *)
Definition where_delivery (db : Db) (w : DeliveryWhere) (d : Delivery.t) : bool :=
  asked (dw_status w) (λ l, bool_decide (Delivery.status d ∈ l))
  && asked (dw_endpointId w) (λ e, bool_decide (Delivery.endpointId d = e))
  && asked (dw_eventId w) (λ e, bool_decide (Delivery.eventId d = e))
  && asked (dw_eventType w) (λ t, bool_decide (Event.eventType <$> events db !! Delivery.eventId d = Some t))
  && asked (dw_createdAt w) (λ f, in_range f (Delivery.createdAt d))
  && asked (dw_isReplay w) (λ b, eqb b (bool_decide (is_Some (Delivery.replayOfDeliveryId d)))).

(** ** Deliveries *)

Section Deliveries.
  Context (newest_first : list delivery_row → list delivery_row)
    (by_attempt : list (string * DeliveryAttempt.t) → list (string * DeliveryAttempt.t)) (lower : jsstr → jsstr) (c : Ctx).

(** The columns of the statement, and its own spelling of the tenant. *)
Definition head_row (maxBytes : nat) (e : Event.t) : PayloadHead :=
  MkHead (take maxBytes <$> Event.payloadRaw e) (length <$> Event.payloadRaw e) (Some (Event.payloadSize e)) (Event.payloadLocation e).
Definition head_selected (eventIds : list string) (kv : string * Event.t) : bool :=
  bool_decide (kv.1 ∈ eventIds) && bool_decide (Event.organizationId kv.2 = ctx_org c)
  && asked (ctx_project c) (λ p, bool_decide (Event.projectId kv.2 = p)).
Definition readEventPayloadHeads (eventIds : list string) (maxBytes : nat) : M Db (gmap string PayloadHead) :=
  if bool_decide (eventIds = []) then mret ∅
  else gets (λ db, head_row maxBytes <$> filter (λ kv, head_selected eventIds kv = true) (events db)).

Definition NO_PAYLOAD_PREVIEW : PayloadPreview := MkPreview None None false.
Definition payloadPreviews (rows : list delivery_row) : M Db (gmap string PayloadPreview) :=
  let eventIds := remove_dups (map (λ r, Delivery.eventId r.2) rows) in
  heads ← readEventPayloadHeads eventIds PAYLOAD_PREVIEW_READ_BYTES;
  mret (list_to_map (omap (λ i, (λ h, (i, previewPayload h)) <$> heads !! i) eventIds)).

Definition deliveries_list (query : ListDeliveriesQuery) : M Db (list DeliveryListItemDto * bool * option Z) :=
  where_ ← lift (filterWhere query);
  rows ← gets (λ db, map_to_list (matching c db (λ _ d, where_delivery db where_ d)));
  let page := findPage (newest_first rows) (q_limit query) (q_offset query) in
  previews ← payloadPreviews (p_rows page);
  mret (map (λ r, toDeliveryListItemDto r.1 r.2 (default NO_PAYLOAD_PREVIEW (previews !! Delivery.eventId r.2))) (p_rows page),
        p_hasMore page, p_nextSkip page).
Definition listForEvent (eventId : string) (query : ListDeliveriesQuery) : M Db (list DeliveryListItemDto * bool * option Z) :=
  deliveries_list (with_event_id eventId query).

Definition attempts_page (deliveryId : string) (take_ skip_ : option num) : M Db (Page (string * DeliveryAttempt.t)) :=
  rows ← findAll c (λ _ a, bool_decide (DeliveryAttempt.deliveryId a = deliveryId));
  mret (findPage (by_attempt rows) take_ skip_).
Definition deliveries_get (deliveryId : string) : M Db DeliveryDetailDto :=
  delivery ← requireById (R:=Delivery.t) c deliveryId;
  event ← findById (R:=Event.t) c (Delivery.eventId delivery);
  endpoint ← findById (R:=Endpoint.t) c (Delivery.endpointId delivery);
  attempts ← attempts_page deliveryId (Some (int MAX_INLINE_ATTEMPTS)) None;
  match event, endpoint with
  | Some event, Some endpoint =>
      mret (MkDetail (toDeliveryDto deliveryId delivery) (toEventRef (Delivery.eventId delivery) event)
              (toEndpointRef (Delivery.endpointId delivery) endpoint)
              (map (λ kv, toAttemptDto lower kv.1 kv.2) (p_rows attempts)) (p_hasMore attempts))
  | _, _ => throwM not_found CROSS_TENANT_MESSAGE
  end.
Definition listAttempts (deliveryId : string) (limit offset : option num) : M Db (list DeliveryAttemptDto * bool * option Z) :=
  _ ← requireById (R:=Delivery.t) c deliveryId;
  page ← attempts_page deliveryId limit offset;
  mret (map (λ kv, toAttemptDto lower kv.1 kv.2) (p_rows page), p_hasMore page, p_nextSkip page).
End Deliveries.

(** ** What a query selects *)

Record selected (db : Db) (q : ListDeliveriesQuery) (d : Delivery.t) : Prop := {
  sel_status : ∀ s, q_status q = Some s → Delivery.status d = s;
  sel_failing : q_failing_now q = Some true →
    Delivery.status d = DeliveryStatus.retrying ∨ Delivery.status d = DeliveryStatus.failed ∨ Delivery.status d = DeliveryStatus.exhausted;
  sel_endpoint : ∀ e, q_endpoint_id q = Some e → Delivery.endpointId d = e;
  sel_event : ∀ e, q_event_id q = Some e → Delivery.eventId d = e;
  sel_type : ∀ t, q_event_type q = Some t → ∃ e, events db !! Delivery.eventId d = Some e ∧ Event.eventType e = t;
  sel_after : ∀ a, q_created_after q = Some a → a <= Delivery.createdAt d;
  sel_before : ∀ b, q_created_before q = Some b → Delivery.createdAt d < b;
  sel_origin : ∀ o, q_origin q = Some o → (o = replayed ↔ is_Some (Delivery.replayOfDeliveryId d))
}.
(** The two questions that are refused. *)
Definition contradictory (q : ListDeliveriesQuery) : Prop :=
  (q_failing_now q = Some true ∧ is_Some (q_status q))
  ∨ ∃ a b, q_created_after q = Some a ∧ q_created_before q = Some b ∧ b <= a.

Lemma asked_true {A} (o : option A) f : asked o f = true ↔ ∀ a, o = Some a → f a = true.
Proof. destruct o as [a|]; cbn; naive_solver. Qed.

Lemma dateRange_spec after before :
  ((∃ a b, after = Some a ∧ before = Some b ∧ b <= a) → ∃ m, dateRange after before = throw invalid_request m)
  ∧ (¬ (∃ a b, after = Some a ∧ before = Some b ∧ b <= a) →
     ∃ f, dateRange after before = Ok f
       ∧ ∀ t, asked f (λ f, in_range f t) = true ↔ (∀ a, after = Some a → a <= t) ∧ (∀ b, before = Some b → t < b)).
Proof.
  split.
  - intros (a & b & -> & -> & Hle). cbn. rewrite (proj2 (Z.leb_le b a) Hle). by eexists.
  - intros Hno. destruct after as [a|], before as [b|]; cbn.
    + destruct (b <=? a) eqn:E; bprop; [destruct Hno; eauto|]. eexists. split; [done|]. intros t. unfold in_range. cbn.
      rewrite andb_true_iff, Z.leb_le, Z.ltb_lt. naive_solver.
    + eexists. split; [done|]. intros t. unfold in_range. cbn. rewrite andb_true_r, Z.leb_le. naive_solver.
    + eexists. split; [done|]. intros t. unfold in_range. cbn. rewrite Z.ltb_lt. naive_solver.
    + eexists. split; [done|]. intros t. cbn. naive_solver.
Qed.

Lemma filterWhere_spec q :
  (contradictory q → ∃ m, filterWhere q = throw invalid_request m)
  ∧ (¬ contradictory q → ∃ w, filterWhere q = Ok w ∧ ∀ db d, where_delivery db w d = true ↔ selected db q d).
Proof.
  unfold filterWhere, contradictory. destruct (dateRange_spec (q_created_after q) (q_created_before q)) as [Hbad Hok].
  assert (∀ P : Prop, bool_decide (q_failing_now q = Some true) && bool_decide (is_Some (q_status q)) = true
    ↔ q_failing_now q = Some true ∧ is_Some (q_status q)) as Hc by (intros; by rewrite andb_true_iff, !bool_decide_eq_true).
  specialize (Hc True). destruct (bool_decide (q_failing_now q = Some true) && bool_decide (is_Some (q_status q))) eqn:Eb.
  { split; [intros _; by eexists|]. intros Hn. destruct Hn. left. by apply Hc. }
  cbn [throw_if mbind result_bind]. split.
  { intros [?|Hr]; [by apply Hc in H|]. destruct (Hbad Hr) as (m & ->). by exists m. }
  intros Hn. destruct (Hok ltac:(tauto)) as (f & -> & Hf). cbn [mbind result_bind]. eexists. split; [done|]. intros db d.
  unfold where_delivery. cbn [dw_status dw_endpointId dw_eventId dw_eventType dw_createdAt dw_isReplay].
  rewrite !andb_true_iff, Hf, !asked_true. split.
  - intros (((((H1 & H2) & H3) & H4) & H5 & H6) & H7). split; try done.
    + intros s Hs. rewrite Hs in H1. specialize (H1 _ eq_refl). bprop. by apply list_elem_of_singleton in H1.
    + intros Hfn. rewrite Hfn, bool_decide_eq_true_2 in H1 by done. destruct (q_status q); [destruct Hn; left; eauto|].
      specialize (H1 _ eq_refl). unfold FAILING_NOW_STATUSES in H1. bprop. set_solver.
    + intros e He. specialize (H2 e He). by bprop.
    + intros e He. specialize (H3 e He). by bprop.
    + intros t Ht. specialize (H4 t Ht). bprop. by apply fmap_Some in H4 as (e & ? & ->); eauto.
    + intros o Ho. rewrite Ho in H7. specialize (H7 _ eq_refl). apply eqb_prop in H7. destruct o; case_bool_decide; naive_solver.
  - intros [S1 S2 S3 S4 S5 S6 S7 S8]. split_and!; try done.
    + intros l Hl. apply bool_decide_eq_true. destruct (q_status q) as [s|] eqn:Es.
      * simplify_eq. apply list_elem_of_singleton. by apply S1.
      * case_bool_decide as Hfn; [|done]. simplify_eq. unfold FAILING_NOW_STATUSES. specialize (S2 Hfn). set_solver.
    + intros e He. by apply bool_decide_eq_true, S3.
    + intros e He. by apply bool_decide_eq_true, S4.
    + intros t Ht. apply bool_decide_eq_true. destruct (S5 t Ht) as (e & -> & <-). done.
    + intros b (o & Ho & ->)%fmap_Some. destruct (S8 o Ho) as [Sa Sb].
      destruct (bool_decide_reflect (is_Some (Delivery.replayOfDeliveryId d))) as [Hr|Hr], o; try done;
        [discriminate (Sb Hr)|by destruct (Hr (Sa eq_refl))].
Qed.

(** ** Heads and previews *)

Section reads.
  Context (newest_first : list delivery_row → list delivery_row) (Hnewest : ∀ l, newest_first l ≡ₚ l)
    (Hsorted : ∀ l, StronglySorted (λ a b, Delivery.createdAt b.2 <= Delivery.createdAt a.2) (newest_first l))
    (by_attempt : list (string * DeliveryAttempt.t) → list (string * DeliveryAttempt.t)) (Hattempts : ∀ l, by_attempt l ≡ₚ l)
    (Hascending : ∀ l, StronglySorted (λ a b, DeliveryAttempt.attemptNumber a.2 <= DeliveryAttempt.attemptNumber b.2) (by_attempt l))
    (lower : jsstr → jsstr) (c : Ctx).

(** The statement's own predicate is the one of the scoped repository. *)
Lemma heads_run ids n db :
  ∃ m, readEventPayloadHeads c ids n db = (Ok m, db) ∧ ∀ i, i ∈ ids → m !! i = head_row n <$> find (R:=Event.t) c db i.
Proof.
  unfold readEventPayloadHeads. case_bool_decide as Hnil.
  { subst. eexists. split; [done|]. by intros i ?%not_elem_of_nil. }
  eexists. split; [done|]. intros i Hi. rewrite lookup_fmap. f_equal. apply option_eq. intros e.
  rewrite map_lookup_filter_Some, find_Some. unfold head_selected, in_tenant. cbn. unfold both_match, eqo.
  rewrite (bool_decide_eq_true_2 (i ∈ ids)) by done. cbn. destruct (ctx_project c); cbn;
    rewrite ?andb_true_iff, ?andb_true_r, !bool_decide_eq_true, !(inj_iff Some); tauto.
Qed.

Lemma previews_run rows db :
  ∃ m, payloadPreviews c rows db = (Ok m, db)
    ∧ ∀ r, r ∈ rows → m !! Delivery.eventId r.2
         = (λ e, previewPayload (head_row PAYLOAD_PREVIEW_READ_BYTES e)) <$> find (R:=Event.t) c db (Delivery.eventId r.2).
Proof.
  unfold payloadPreviews. set (ids := remove_dups _). destruct (heads_run ids PAYLOAD_PREVIEW_READ_BYTES db) as (h & Eh & Hh).
  unfold mbind, M_bind. rewrite Eh. eexists. split; [reflexivity|]. intros r Hr. set (i := Delivery.eventId r.2).
  assert (i ∈ ids) as Hi by (apply elem_of_remove_dups, list_elem_of_fmap; by exists r).
  transitivity (previewPayload <$> h !! i); [|rewrite Hh by done; by destruct (find _ _ _)].
  clear -Hi. induction ids as [|k ids IH]; [by apply not_elem_of_nil in Hi|]. cbn. destruct (decide (k = i)) as [->|Hne].
  - destruct (h !! i) as [x|] eqn:E; cbn; [by rewrite lookup_insert_eq|].
    apply not_elem_of_list_to_map. intros ([j y] & -> & (j' & _ & Hj)%list_elem_of_omap)%list_elem_of_fmap. cbn in *.
    destruct (h !! j') eqn:Ej; by simplify_eq/=.
  - apply elem_of_cons in Hi as [?|Hi]; [congruence|]. destruct (h !! k); cbn; [rewrite lookup_insert_ne by done|]; auto.
Qed.

(** How a row is shown: a body in UTF-8 by its first 160 characters, no body and no
    event of the tenant by nothing. *)
Record shown (db : Db) (r : delivery_row) (it : DeliveryListItemDto) : Prop := {
  sh_delivery : li_delivery it = toDeliveryDto r.1 r.2;
  sh_size : li_payload_size it = Event.payloadSize <$> find c db (Delivery.eventId r.2);
  sh_absent : (find c db (Delivery.eventId r.2) ≫= Event.payloadRaw) = None →
    li_payload_preview it = None ∧ li_payload_truncated it = false;
  sh_text : ∀ l, scalars l → (find c db (Delivery.eventId r.2) ≫= Event.payloadRaw) = Some (utf8 l) →
    li_payload_preview it = Some (utf16 (take 160 l)) ∧ li_payload_truncated it = (160 <? length l)%nat
}.

Lemma preview_size h : pv_size (previewPayload h) = ph_payloadSize h.
Proof. unfold previewPayload. repeat (case_match; cbn; try done). Qed.

(** The delivery list answers exactly what is asked.  A query that contradicts
    itself, by a status beside failing_now or an empty range of times, is refused;
    any other returns the requested page of the tenant's deliveries that satisfy every
    filter, newest first, and says whether there are more.  Each row shows the size
    of its event's body and, when the body is text, exactly its first 160 characters,
    although one statement read 640 bytes per event for the whole page; it shows
    nothing of an event that is not the tenant's. *)
Theorem deliveries_list_spec (q : ListDeliveriesQuery) (db : Db)
    (n := Z.to_nat (pageSize (q_limit q))) (skip := Z.to_nat (default 0 (offset (q_offset q)))) :
  (contradictory q → ∃ m, deliveries_list newest_first c q db = (throw invalid_request m, db))
  ∧ (¬ contradictory q → ∃ all items,
       deliveries_list newest_first c q db
       = (Ok (items, bool_decide (skip + n < length all)%nat,
              if bool_decide (skip + n < length all)%nat then Some (Z.of_nat skip + Z.of_nat n) else None), db)
       ∧ NoDup all.*1 ∧ StronglySorted (λ a b, Delivery.createdAt b.2 <= Delivery.createdAt a.2) all
       ∧ (∀ i d, (i, d) ∈ all ↔ find c db i = Some d ∧ selected db q d)
       ∧ Forall2 (shown db) (take n (drop skip all)) items).
Proof.
  destruct (filterWhere_spec q) as [Hbad Hok]. split.
  { intros Hq. destruct (Hbad Hq) as (m & E). exists m. unfold deliveries_list, lift, mbind, M_bind. by rewrite E. }
  intros Hq. destruct (Hok Hq) as (w & E & Hw). clear Hbad Hok.
  set (all := newest_first (map_to_list (matching c db (λ _ d, where_delivery db w d)))).
  destruct (findPage_facts all (q_limit q) (q_offset q)) as (Hp & Hm & Hnx). fold n skip in Hp, Hm.
  destruct (previews_run (p_rows (findPage all (q_limit q) (q_offset q))) db) as (pv & Ep & Hpv).
  assert (p_hasMore (findPage all (q_limit q) (q_offset q)) = bool_decide (skip + n < length all)%nat) as Em.
  { case_bool_decide as Hx; [by apply Hm|]. destruct (p_hasMore _); [|done]. by destruct Hx; apply Hm. }
  exists all. eexists. split_and!.
  - unfold deliveries_list, lift, gets, mbind, M_bind. rewrite E. cbn beta iota. fold all. rewrite Ep. cbn beta iota.
    rewrite Hnx, Em. replace (default 0 (offset (q_offset q)) + pageSize (q_limit q)) with (Z.of_nat skip + Z.of_nat n); [done|].
    pose proof (pageSize_bounds (q_limit q)). pose proof (offset_nonneg (q_offset q)). lia.
  - unfold all. rewrite Hnewest. apply NoDup_fst_map_to_list.
  - apply Hsorted.
  - intros i d. unfold all. rewrite Hnewest, elem_of_map_to_list, matching_lookup, find_Some, Hw. tauto.
  - refine (eq_ind _ (λ l, Forall2 (shown db) l _) _ _ Hp). apply Forall2_fmap_r, Forall_Forall2_diag, Forall_forall. intros [i d] Hi. specialize (Hpv _ Hi). cbn [snd] in Hpv.
    unfold compose. cbn beta. cbn [fst snd]. rewrite Hpv. destruct (find c db (Delivery.eventId d)) as [e|] eqn:Ef; cbn [fmap option_fmap option_map default from_option id].
    + split; cbn [toDeliveryListItemDto li_delivery li_payload_size li_payload_preview li_payload_truncated fst snd]; [done|..];
        rewrite Ef; cbn [mbind option_bind fmap option_fmap option_map].
      * by rewrite preview_size.
      * intros Hn. unfold head_row. by rewrite Hn.
      * intros l Hl He. unfold head_row. rewrite He. cbn [fmap option_fmap option_map].
        pose proof (preview_well_formed l (Some (Event.payloadSize e)) (Event.payloadLocation e) Hl) as Hw'.
        unfold head_of in Hw'. by rewrite Hw'.
    + split; cbn; rewrite ?Ef; done.
Qed.

(** ** One delivery *)

Lemma assign_all {A} (f : jsstr * A → option jsstr) l out :
  foldl (λ out kv, assign_header out kv.1 (f kv)) out l = out ++ map (λ kv, (kv.1, f kv)) (filter (λ kv, kv.1 ≠ js "__proto__") l).
Proof.
  revert out. induction l as [|[k v] l IH]; intros out; cbn [foldl]; [by rewrite app_nil_r|]. rewrite IH. unfold assign_header.
  rewrite filter_cons. cbn [fst]. case_bool_decide; case_decide; try done. by rewrite <- app_assoc.
Qed.

(** Exactly the six names are withheld, and nothing else. *)
Lemma headerMap_elem v redact hs name t : headerMap lower v redact = Some hs → (name, t) ∈ hs →
  ∃ entries h, v = JObj entries ∧ (name, h) ∈ entries
    ∧ t = if redact && bool_decide (lower name ∈ REDACTED_REQUEST_HEADERS) then Some HEADER_REDACTED else render_header h.
Proof.
  unfold headerMap. destruct v as [| | | | | |entries]; try done. intros [= <-]. rewrite (assign_all (λ kv, _)). cbn [app].
  intros ([name' h] & [= -> ->] & [_ Hin]%list_elem_of_filter)%list_elem_of_fmap. by exists entries, h.
Qed.

(** The attempts of a delivery, whoever asks for them. *)
Definition attempt_history (db : Db) (id : string) : list (string * DeliveryAttempt.t) :=
  by_attempt (map_to_list (matching c db (λ _ a, bool_decide (DeliveryAttempt.deliveryId a = id)))).
Lemma attempt_history_elem db id (d : Delivery.t) k a : find c db id = Some d →
  (k, a) ∈ attempt_history db id ↔ deliveryAttempts db !! k = Some a ∧ DeliveryAttempt.deliveryId a = id.
Proof.
  intros (Hd & Ht)%find_Some. unfold attempt_history. rewrite Hattempts, elem_of_map_to_list, matching_lookup, bool_decide_eq_true.
  split; [tauto|]. intros [Ha <-]. split_and!; [done| |done]. unfold in_tenant in *. cbn in *. by rewrite Hd.
Qed.
Lemma attempts_page_run id tk sk db :
  attempts_page by_attempt c id tk sk db = (Ok (findPage (attempt_history db id) tk sk), db).
Proof. done. Qed.

(** C19. One delivery, with everything that explains it: an id outside the tenant is
    not found, and so is a delivery whose event or endpoint the tenant cannot see;
    otherwise the answer holds the delivery, its event, the endpoint as it is now and
    the first hundred of exactly the attempts recorded for it, by number, saying
    whether there are more, and the pages of the attempt list walk through the same
    history.  The request headers show no value of the six withheld names. *)
Theorem delivery_detail (id : string) (db : Db) :
  match find (R:=Delivery.t) c db id with
  | None => deliveries_get by_attempt lower c id db = (throw not_found CROSS_TENANT_MESSAGE, db)
      ∧ ∀ tk sk, listAttempts by_attempt lower c id tk sk db = (throw not_found CROSS_TENANT_MESSAGE, db)
  | Some d =>
      ∃ all, NoDup all.*1 ∧ StronglySorted (λ a b, DeliveryAttempt.attemptNumber a.2 <= DeliveryAttempt.attemptNumber b.2) all
        ∧ (∀ k a, (k, a) ∈ all ↔ deliveryAttempts db !! k = Some a ∧ DeliveryAttempt.deliveryId a = id)
        ∧ deliveries_get by_attempt lower c id db
          = (match find (R:=Event.t) c db (Delivery.eventId d), find (R:=Endpoint.t) c db (Delivery.endpointId d) with
             | Some e, Some p =>
                 Ok (MkDetail (toDeliveryDto id d) (toEventRef (Delivery.eventId d) e) (toEndpointRef (Delivery.endpointId d) p)
                       (map (λ kv, toAttemptDto lower kv.1 kv.2) (take 100 all)) (bool_decide (100 < length all)%nat))
             | _, _ => throw not_found CROSS_TENANT_MESSAGE
             end, db)
        ∧ (∀ tk sk, (listAttempts by_attempt lower c id tk sk db).1
             = Ok (map (λ kv, toAttemptDto lower kv.1 kv.2) (p_rows (findPage all tk sk)), p_hasMore (findPage all tk sk),
                   p_nextSkip (findPage all tk sk)))
        ∧ ∀ k a hs name text, (k, a) ∈ all → at_request_headers (toAttemptDto lower k a) = Some hs → (name, text) ∈ hs →
            lower name ∈ REDACTED_REQUEST_HEADERS → text = Some (js "[redacted]")
  end.
Proof.
  pose proof (requireById_eq (R:=Delivery.t) c id db) as Hreq. destruct (find c db id) as [d|] eqn:Ef.
  2: { unfold deliveries_get, listAttempts, mbind, M_bind. by rewrite Hreq. }
  exists (attempt_history db id). split_and!.
  - unfold attempt_history. rewrite Hattempts. apply NoDup_fst_map_to_list.
  - apply Hascending.
  - intros k a. by apply (attempt_history_elem db id d).
  - unfold deliveries_get, findById, gets, mbind, M_bind. rewrite Hreq, attempts_page_run. cbn beta iota.
    destruct (findPage_facts (attempt_history db id) (Some (int MAX_INLINE_ATTEMPTS)) None) as (-> & Hm & _).
    change (Z.to_nat (pageSize _)) with 100%nat in *. change (Z.to_nat (default 0 (offset None))) with 0%nat in *. rewrite drop_0.
    assert (p_hasMore (findPage (attempt_history db id) (Some (int MAX_INLINE_ATTEMPTS)) None)
            = bool_decide (100 < length (attempt_history db id))%nat) as ->.
    { case_bool_decide as Hx; [by apply Hm|]. destruct (p_hasMore _); [|done]. by destruct Hx; apply Hm. }
    destruct (find c db (Delivery.eventId d)), (find c db (Delivery.endpointId d)); reflexivity.
  - intros tk sk. unfold listAttempts, mbind, M_bind. by rewrite Hreq, attempts_page_run.
  - intros k a hs name text _ Hhs Hin Hred. destruct (headerMap_elem _ _ _ _ _ Hhs Hin) as (entries & h & _ & _ & ->).
    by rewrite bool_decide_eq_true_2.
Qed.
End reads.

(** ** A small ledger *)

Definition latest_first : list delivery_row → list delivery_row :=
  sort_by (λ a b, Delivery.createdAt b.2 <=? Delivery.createdAt a.2).
Definition in_order : list (string * DeliveryAttempt.t) → list (string * DeliveryAttempt.t) :=
  sort_by (λ a b, DeliveryAttempt.attemptNumber a.2 <=? DeliveryAttempt.attemptNumber b.2).
Definition euro_event : Event.t :=
  Event.mk "o1" "p1" (js "order.paid") None (Some [226; 130; 172; 33]%N) None None 4 [] None None EventStatus.processed 0 None.
Definition sent_headers : jsval := JObj [(js "Authorization", JStr (js "Bearer k")); (js "x-id", JBool true)].
Definition recorded (n : Z) : DeliveryAttempt.t :=
  DeliveryAttempt.mk "d1" n 0 None AttemptStatus.failure None (Some sent_headers) None None None None None None (Some 20) None 0 None.
Definition led_db : Db :=
  upd_deliveryAttempts (λ _, <["t2" := recorded 2]> {["t1" := recorded 1]})
    (upd_events (λ _, {["v1" := euro_event]})
       (upd_endpoints (λ _, {["e1" := Endpoint.mk "p1" (js "hooks") (js "https://a.test/") None EndpointStatus.active true None None
                                5000 4 None 1 None None 0 0]}) an_db)).
Definition recent_failures : ListDeliveriesQuery :=
  MkListDeliveries None (Some true) None None (Some (js "order.paid")) (Some 1000000) None None None None.

Definition as_shown (r : result (list DeliveryListItemDto * bool * option Z)) : list (string * option jsstr) :=
  match r with Ok (items, _, _) => map (λ it, (dd_id (li_delivery it), li_payload_preview it)) items | _ => [] end.

Lemma deliveries_list_spec_witness :
  ∃ all items, as_shown (deliveries_list latest_first an_ctx recent_failures led_db).1 = [("d3", Some [8364; 33]%N)]
    ∧ as_shown (deliveries_list latest_first an_ctx recent_failures led_db).1
      = map (λ it, (dd_id (li_delivery it), li_payload_preview it)) items
    ∧ Forall2 (shown an_ctx led_db) (take 50 (drop 0 all)) items.
Proof.
  destruct (proj2 (deliveries_list_spec latest_first (sort_by_perm _) (sort_by_key_desc (λ r : delivery_row, Delivery.createdAt r.2))
    an_ctx recent_failures led_db)) as (all & items & E & _ & _ & _ & Hitems).
  { intros [[_ [s Hs]]|(a & b & _ & Hb & _)]; discriminate. }
  exists all, items. split; [vm_compute; reflexivity|]. split; [rewrite E; reflexivity|]. exact Hitems.
Defined.

Lemma delivery_detail_witness :
  ∃ all : list (string * DeliveryAttempt.t),
    StronglySorted (λ a b : string * DeliveryAttempt.t, DeliveryAttempt.attemptNumber a.2 <= DeliveryAttempt.attemptNumber b.2) all
    ∧ match (deliveries_get in_order toLowerCase an_ctx "d1" led_db).1 with
      | Ok out => map at_attempt_number (dt_attempts out) = [1; 2]
          ∧ (at_request_headers <$> head (dt_attempts out))
            = Some (Some [(js "Authorization", Some (js "[redacted]")); (js "x-id", Some (js "true"))])
      | _ => False
      end.
Proof.
  destruct (delivery_detail in_order (sort_by_perm _) (sort_by_key (λ r : string * DeliveryAttempt.t, DeliveryAttempt.attemptNumber r.2))
    toLowerCase an_ctx "d1" led_db) as (all & _ & Hs & _).
  exists all. split; [exact Hs|]. vm_compute. split; reflexivity.
Defined.
