(* ===== verification/EventReads.v ===== *)
(** Events as they are read: events/events.service.ts (list with its rollup, get,
    listDeliveries) and events/dto/event-response.dto.ts.

    [arrange] is the order PostgreSQL gives groups, [newest_first] ORDER BY
    created_at DESC, [contains] its case-insensitive LIKE. *)
From Stdlib Require Import ZArith Lia.
From S2P Require Import Prelude Js Permissions RetryRules AuditTrail Db Scope TenantScope Utf8 EventPayload Replay Series Binary64 Analytics Breakdown Ledger.
Local Open Scope Z_scope.

(** ** Responses *)

Record EventDto : Type := MkEventDto {
  ev_id : string; ev_project_id : string; ev_event_type : jsstr; ev_idempotency_key : option jsstr; ev_ordering_key : option jsstr;
  ev_status : EventStatus.t; ev_payload_size : Z; ev_payload_hash : jsstr; ev_payload_inline : bool;
  ev_payload_location : option jsstr; ev_headers : option header_map; ev_created_at : jsstr; ev_processed_at : option jsstr;
  ev_deliveries : option DeliveryRollup
}.
Definition toEventDto (lower : jsstr → jsstr) (id : string) (e : Event.t) (rollup : option DeliveryRollup) : EventDto :=
  MkEventDto id (Event.projectId e) (Event.eventType e) (Event.idempotencyKey e) (Event.orderingKey e) (Event.status e)
    (Event.payloadSize e) (Event.payloadHash e) (bool_decide (is_Some (Event.payloadRaw e))) (Event.payloadLocation e)
    (safeHeaders lower (default JNull (Event.headers e))) (toISOString (Event.createdAt e))
    (toISOString <$> Event.processedAt e) rollup.

Record EventPayloadDto : Type := MkPayloadDto {
  py_source : PayloadSource; py_body : option jsstr; py_encoding : option PayloadEncoding; py_location : option jsstr;
  py_size_bytes : Z; py_sha256 : jsstr; py_normalised_json : option jsval; py_notice : string
}.
Record EventDetailDto : Type := MkEventDetail { vd_event : EventDto; vd_payload : EventPayloadDto }.
Definition toEventDetailDto (lower : jsstr → jsstr) (id : string) (e : Event.t) : EventDetailDto :=
  let rendered := renderPayload (Event.payloadRaw e) (Event.payloadLocation e) in
  MkEventDetail (toEventDto lower id e None)
    (MkPayloadDto (rp_source rendered) (rp_body rendered) (rp_encoding rendered) (rp_location rendered) (Event.payloadSize e)
       (Event.payloadHash e) (Event.payload e) (rp_notice rendered)).

(** ** Queries *)

Record ListEventsQuery : Type := MkListEvents {
  vq_event_type : option jsstr; vq_status : option EventStatus.t; vq_created_after : option Z; vq_created_before : option Z;
  vq_idempotency_key : option jsstr; vq_limit : option num; vq_offset : option num
}.
Record EventWhere : Type := MkEventWhere {
  vw_eventType : option jsstr; vw_status : option EventStatus.t; vw_createdAt : option DateTimeFilter; vw_idempotencyKey : option jsstr
}.
Definition event_filterWhere (q : ListEventsQuery) : result EventWhere :=
  createdAt ← dateRange (vq_created_after q) (vq_created_before q);
  Ok (MkEventWhere (vq_event_type q) (vq_status q) createdAt (vq_idempotency_key q)).

Section Events.
  Context (arrange : ∀ K : Type, list (K * Z) → list (K * Z)) (newest_first : list (string * Event.t) → list (string * Event.t))
    (newest_deliveries : list delivery_row → list delivery_row) (contains : jsstr → jsstr → bool) (lower : jsstr → jsstr) (c : Ctx).

(** A null key contains nothing. *)
Definition where_event (w : EventWhere) (e : Event.t) : bool :=
  asked (vw_eventType w) (λ t, bool_decide (Event.eventType e = t))
  && asked (vw_status w) (λ s, bool_decide (Event.status e = s))
  && asked (vw_createdAt w) (λ f, in_range f (Event.createdAt e))
  && asked (vw_idempotencyKey w) (λ k, if Event.idempotencyKey e is Some key then contains key k else false).

Definition rollUpDeliveries (events_ : list (string * Event.t)) : M Db (gmap string DeliveryRollup) := λ db,
  let eventIds := events_.*1 in
  if bool_decide (eventIds = []) then (Ok ∅, db)
  else
    let gs := arrange _ (groups c (λ d, bool_decide (Delivery.eventId d ∈ eventIds))
                           (λ d, (Delivery.eventId d, Delivery.status d)) db) in
    (pages ← group_pages (S (length gs)) gs 0;
     Ok (list_to_map (map (λ kv, (kv.1, rollUp (Event.status kv.2)
           (λ s, Z.to_nat (foldl set_count (λ _, 0) (counts_of pages kv.1) s)))) events_)), db).

Definition events_list (query : ListEventsQuery) : M Db (list EventDto * bool * option Z) :=
  where_ ← lift (event_filterWhere query);
  rows ← findAll c (λ _ e, where_event where_ e);
  let page := findPage (newest_first rows) (vq_limit query) (vq_offset query) in
  rollups ← rollUpDeliveries (p_rows page);
  mret (map (λ kv, toEventDto lower kv.1 kv.2 (rollups !! kv.1)) (p_rows page), p_hasMore page, p_nextSkip page).

Definition events_get (eventId : string) : M Db EventDetailDto :=
  event ← requireById (R:=Event.t) c eventId;
  mret (toEventDetailDto lower eventId event).

Definition listDeliveries (eventId : string) (query : ListDeliveriesQuery) : M Db (list DeliveryListItemDto * bool * option Z) :=
  _ ← requireById (R:=Event.t) c eventId;
  listForEvent newest_deliveries c eventId query.
End Events.

(** ** The rollup of a page *)

(** The tenant's deliveries of an event in one status. *)
Definition sent_of (c : Ctx) (db : Db) (id : string) (s : DeliveryStatus.t) : nat :=
  length (filter (λ d, Delivery.eventId d = id ∧ Delivery.status d = s) (ledger c db)).

Lemma sent_of_counted c db id s : counted Delivery.eventId c db (λ _, true) [s] id = Z.of_nat (sent_of c db id s).
Proof.
  unfold counted, howmany, sent_of. do 2 f_equal. apply list_filter_iff. intros d. unfold has_status. cbn.
  rewrite andb_true_iff, !bool_decide_eq_true, list_elem_of_singleton. tauto.
Qed.

Lemma rollup_lookup (f : string * Event.t → DeliveryRollup) rows i e : NoDup rows.*1 → (i, e) ∈ rows →
  list_to_map (M:=gmap string DeliveryRollup) (map (λ kv, (kv.1, f kv)) rows) !! i = Some (f (i, e)).
Proof.
  intros Hn Hin. apply elem_of_list_to_map_1.
  - replace ((map (λ kv, (kv.1, f kv)) rows).*1) with rows.*1; [done|]. clear. induction rows; cbn; congruence.
  - apply list_elem_of_fmap. by exists (i, e).
Qed.

Lemma page_nodup {R} (rows : list (string * R)) tk sk : NoDup rows.*1 → NoDup (p_rows (findPage rows tk sk)).*1.
Proof.
  intros Hn. destruct (findPage_facts rows tk sk) as (-> & _). eapply sublist_NoDup; [exact Hn|].
  apply fmap_sublist. etrans; [apply sublist_take|apply sublist_drop].
Qed.
Lemma length_filter_all {A} (P : A → Prop) `{!∀ x, Decision (P x)} l : length (filter P l) = length l ↔ Forall P l.
Proof.
  induction l as [|a l IH]; [by split|]. rewrite filter_cons, Forall_cons. pose proof (length_filter P l).
  case_decide; cbn; [rewrite <- IH; naive_solver lia|]. split; [lia|naive_solver].
Qed.
Lemma length_filter_some {A} (P : A → Prop) `{!∀ x, Decision (P x)} l : (0 < length (filter P l))%nat ↔ Exists P l.
Proof.
  induction l as [|a l IH]; [cbn; rewrite Exists_nil; lia|]. rewrite filter_cons, Exists_cons. case_decide; cbn; [split; [tauto|lia]|].
  rewrite IH. tauto.
Qed.

(** The rollup of counts that are the deliveries' own. *)
Lemma rollUp_ledger c db id st counts (mine := filter (λ d : Delivery.t, Delivery.eventId d = id) (ledger c db)) :
  (∀ s, counts s = sent_of c db id s) →
  ru_total (rollUp st counts) = length mine
  ∧ ru_succeeded (rollUp st counts) = length (filter (λ d, Delivery.status d = DeliveryStatus.succeeded) mine)
  ∧ ru_in_flight (rollUp st counts) = length (filter (λ d, Delivery.status d ∈ Replay.IN_FLIGHT) mine).
Proof.
  intros Hc. set (f := λ s, Z.of_nat (counts s)).
  assert (∀ l, NoDup l → total_of f l = Z.of_nat (length (filter (λ d, Delivery.status d ∈ l) mine))) as Ht.
  { intros l Hl. rewrite (total_of_statuses c db (λ d, bool_decide (Delivery.eventId d = id)) f l Hl).
    - unfold howmany, mine. do 2 f_equal. rewrite list_filter_filter. apply list_filter_iff. intros d.
      rewrite andb_true_iff, !bool_decide_eq_true. tauto.
    - intros s. unfold f, howmany. rewrite Hc. unfold sent_of. do 2 f_equal. apply list_filter_iff. intros d.
      rewrite andb_true_iff, !bool_decide_eq_true. tauto. }
  assert (∀ l, NoDup l → foldl (λ n s, n + counts s)%nat 0%nat l = length (filter (λ d, Delivery.status d ∈ l) mine)) as Hn.
  { intros l Hl. apply Nat2Z.inj. rewrite <- Ht by done. unfold total_of, f. change 0 with (Z.of_nat 0). generalize 0%nat. clear.
    induction l as [|s l IH]; intros n; [done|]. cbn. rewrite IH. f_equal. lia. }
  pose proof (Hn Replay.ALL_STATUSES ltac:(repeat constructor; set_solver)) as H1.
  pose proof (Hn Replay.IN_FLIGHT ltac:(repeat constructor; set_solver)) as H2.
  pose proof (Hn [DeliveryStatus.succeeded] ltac:(repeat constructor; set_solver)) as H3.
  assert (filter (λ d, Delivery.status d ∈ Replay.ALL_STATUSES) mine = mine) as E1.
  { apply filter_everything. intros d _. destruct (Delivery.status d); set_solver. }
  rewrite E1 in H1. split_and!.
  - rewrite <- H1. unfold rollUp. repeat case_match; done.
  - transitivity (counts DeliveryStatus.succeeded); [unfold rollUp; repeat case_match; done|]. cbn [foldl Nat.add] in H3.
    rewrite H3. f_equal. apply list_filter_iff. intros d. apply list_elem_of_singleton.
  - rewrite <- H2. unfold rollUp. repeat case_match; done.
Qed.

Section rollup.
  Context (arrange : ∀ K : Type, list (K * Z) → list (K * Z)) (Harrange : ∀ K l, arrange K l ≡ₚ l)
    (newest_first : list (string * Event.t) → list (string * Event.t)) (Hnewest : ∀ l, newest_first l ≡ₚ l)
    (contains : jsstr → jsstr → bool) (lower : jsstr → jsstr) (c : Ctx).

Lemma rollUpDeliveries_run rows db : NoDup rows.*1 →
  ∃ m, rollUpDeliveries arrange c rows db = (Ok m, db)
    ∧ ∀ i e, (i, e) ∈ rows → ∃ counts, m !! i = Some (rollUp (Event.status e) counts) ∧ ∀ s, counts s = sent_of c db i s.
Proof.
  intros Hn. unfold rollUpDeliveries. case_bool_decide as Hnil.
  { exists ∅. split; [done|]. intros i e Hin. apply (list_elem_of_fmap_2 fst) in Hin. rewrite Hnil in Hin. by apply not_elem_of_nil in Hin. }
  set (gs := arrange _ _). rewrite group_pages_all by lia. rewrite drop_0. cbn [mbind result_bind]. eexists. split; [reflexivity|].
  assert (gs ≡ₚ groups_by Delivery.eventId c db (λ _, true) rows.*1) as Hgs by apply Harrange.
  intros i e Hin. eexists. split.
  { by apply (rollup_lookup (λ kv, rollUp (Event.status kv.2) (λ s, Z.to_nat (foldl set_count (λ _, 0) (counts_of gs kv.1) s)))). }
  intros s. cbn [fst].
  assert (NoDup (counts_of gs i).*1) as Hc by (eapply counts_of_nodup, breakdown_nodup, Hgs).
  apply (list_elem_of_fmap_2 fst) in Hin. apply Nat2Z.inj. rewrite <- sent_of_counted.
  rewrite <- (at_status_exact c db (λ _, true) rows.*1 gs Hgs i s Hin).
  destruct (fold_counts (counts_of gs i) (λ _, 0) s Hc) as [H1 H2].
  destruct (decide (s ∈ (counts_of gs i).*1)) as [([s' n] & -> & Hs)%list_elem_of_fmap|Hno].
  - cbn [fst] in *. rewrite (H1 n Hs), (at_status_in _ _ n Hc Hs). cbn. rewrite Z2Nat.id; [done|].
    apply counts_of_elem, (breakdown_elem c db (λ _, true) rows.*1 gs Hgs) in Hs as (_ & _ & Hs). lia.
  - rewrite (H2 Hno), at_status_absent by done. done.
Qed.

(** The state an event shows in the list is the state of its deliveries.  The
    list refuses exactly an empty range of times; otherwise every event of the page
    carries the rollup of all the tenant's deliveries of it, however many groups the
    page has: its total is their number, it reads delivered exactly when there is one
    and all succeeded, in progress exactly when one is still moving, and dropped
    exactly when routing completed and there is none. *)
Theorem events_list_rollup (q : ListEventsQuery) (db : Db) :
  ((∃ a b, vq_created_after q = Some a ∧ vq_created_before q = Some b ∧ b <= a) →
     ∃ m, events_list arrange newest_first contains lower c q db = (throw invalid_request m, db))
  ∧ (¬ (∃ a b, vq_created_after q = Some a ∧ vq_created_before q = Some b ∧ b <= a) →
     ∃ w, event_filterWhere q = Ok w
       ∧ let page := findPage (newest_first (map_to_list (matching c db (λ _ e, where_event contains w e)))) (vq_limit q) (vq_offset q) in
         ∃ data, events_list arrange newest_first contains lower c q db = (Ok (data, p_hasMore page, p_nextSkip page), db)
           ∧ Forall2 (λ kv out, ∃ r, out = toEventDto lower kv.1 kv.2 (Some r)
               ∧ let mine := filter (λ d : Delivery.t, Delivery.eventId d = kv.1) (ledger c db) in
                 ru_total r = length mine
                 ∧ (ru_state r = rs_delivered ↔ mine ≠ [] ∧ Forall (λ d, Delivery.status d = DeliveryStatus.succeeded) mine)
                 ∧ (ru_state r = rs_in_progress ↔ Exists (λ d, Delivery.status d ∈ Replay.IN_FLIGHT) mine)
                 ∧ (ru_state r = rs_dropped ↔ mine = [] ∧ Event.status kv.2 = EventStatus.processed)) (p_rows page) data).
Proof.
  destruct (dateRange_spec (vq_created_after q) (vq_created_before q)) as [Hbad Hok]. split.
  { intros Hq. destruct (Hbad Hq) as (m & E). exists m. unfold events_list, event_filterWhere, lift, mbind, M_bind. by rewrite E. }
  intros Hq. destruct (Hok Hq) as (f & E & _). exists (MkEventWhere (vq_event_type q) (vq_status q) f (vq_idempotency_key q)).
  split; [unfold event_filterWhere; by rewrite E|]. intros page.
  assert (NoDup (p_rows page).*1) as Hn.
  { apply page_nodup. rewrite Hnewest. apply NoDup_fst_map_to_list. }
  destruct (rollUpDeliveries_run (p_rows page) db Hn) as (m & Em & Hm). eexists. split.
  { unfold events_list, event_filterWhere, findAll, lift, gets, mbind, M_bind. rewrite E. cbn [result_bind]. cbn beta iota.
    fold page. rewrite Em. reflexivity. }
  apply Forall2_fmap_r, Forall_Forall2_diag, Forall_forall. intros [i e] Hi. unfold compose. cbn [fst snd].
  destruct (Hm i e Hi) as (counts & -> & Hc). exists (rollUp (Event.status e) counts). split; [done|].
  set (mine := filter (λ d : Delivery.t, Delivery.eventId d = i) (ledger c db)).
  destruct (rollUp_ledger c db i (Event.status e) counts Hc) as (Ht & Hs & Hf). fold mine in Ht, Hs, Hf.
  destruct (rollUp_spec (Event.status e) counts) as (_ & Hd & _ & Hp & Hdel & _). rewrite Ht in *.
  split; [done|]. split; [rewrite Hdel, Hs, length_filter_all; destruct mine; cbn; [naive_solver lia|split; [naive_solver|split; [lia|tauto]]]|].
  split; [rewrite Hp, Hf; apply length_filter_some|]. rewrite Hd, length_zero_iff_nil. done.
Qed.
End rollup.

Definition led_events : ListEventsQuery := MkListEvents None (Some EventStatus.processed) (Some 0) None None None None.

(** Three deliveries of the event, one of which failed. *)
Lemma events_list_rollup_witness :
  ∃ data more next, (events_list (λ _ l, l) (λ l, l) (λ _ _, true) toLowerCase an_ctx led_events led_db).1 = Ok (data, more, next)
    ∧ map (λ d, (λ r, (ru_state r, ru_total r)) <$> ev_deliveries d) data = [Some (rs_partly_delivered, 3%nat)]
    ∧ length (filter (λ d : Delivery.t, Delivery.eventId d = "v1") (ledger an_ctx led_db)) = 3%nat.
Proof.
  destruct (proj2 (events_list_rollup (λ _ l, l) (λ _ l, Permutation_refl l) (λ l, l) (λ l, Permutation_refl l) (λ _ _, true)
    toLowerCase an_ctx led_events led_db)) as (w & Ew & H).
  { intros (a & b & _ & Hb & _). discriminate. }
  cbv zeta in H. destruct H as (data & E & _).
  exists data. do 2 eexists. split; [rewrite E; reflexivity|]. split; [|vm_compute; reflexivity].
  assert (match (events_list (λ _ l, l) (λ l, l) (λ _ _, true) toLowerCase an_ctx led_events led_db).1 with
          | Ok (data, _, _) => map (λ d, (λ r, (ru_state r, ru_total r)) <$> ev_deliveries d) data | _ => [] end
          = [Some (rs_partly_delivered, 3%nat)]) as Hv by (vm_compute; reflexivity).
  rewrite E in Hv. exact Hv.
Defined.
