(* ===== verification/Billing.v ===== *)
(** The billing summary: billing/billing.service.ts over the usage records of Usage.

    Both tables it reads are the organization's own, whatever project the request
    names.  [arrange] is the order PostgreSQL gives groups, [newest_first] ORDER BY
    created_at DESC. *)
From Stdlib Require Import ZArith Lia.
From S2P Require Import Prelude Js Permissions RetryRules AuditTrail Db Scope TenantScope Usage.
Local Open Scope Z_scope.

(** ** The calendar *)

(** Days since 1970-01-01 of a date of the proleptic Gregorian calendar. *)
Definition days_from_civil (y m d : Z) : Z :=
  let y' := if m <=? 2 then y - 1 else y in
  let mp := if m <=? 2 then m + 9 else m - 3 in
  let yoe := y' mod 400 in
  y' / 400 * 146097 + (yoe * 365 + yoe / 4 - yoe / 100 + ((153 * mp + 2) / 5 + d - 1)) - 719468.
(** [Date.UTC(year, month - 1, day)] *)
Definition Date_UTC (y m d : Z) : Z := days_from_civil y m d * 86400000.
Definition civil_of (ms : Z) : Z * Z * Z := civil_from_days (ms / 86400000).

(** ** The service *)

Definition METRICS : list string := ["events_ingested"; "deliveries"; "replays"].

Inductive BillingStatus : Type := trialing | active | past_due | canceled.
Record BillingSubscription : Type := MkBillingSubscription { bs_organizationId : string; bs_status : BillingStatus; bs_createdAt : Z }.
Record UsageLineDto : Type := MkUsageLine { ul_metric : string; ul_used : jsstr; ul_included : option jsstr }.
(** The plan is always null. *)
Record BillingDto : Type := MkBilling {
  bl_status : option BillingStatus; bl_period_start : jsstr; bl_period_end : jsstr; bl_usage : list UsageLineDto; bl_billable : bool
}.
(** [BigInt.prototype.toString] *)
Definition bigint_toString (z : Z) : jsstr := if z <? 0 then js "-" ++ digits (Z.to_N (- z)) else digits (Z.to_N z).

Definition sumZ (l : list Z) : Z := foldr Z.add 0 l.

Section Billing.
  Context (arrange : list (string * Z) → list (string * Z)) (newest_first : list BillingSubscription → list BillingSubscription) (c : Ctx).

Definition usage_metric (kv : usage_key * (Z * Z)) : string := kv.1.1.2.
Definition in_period (from to : Z) (kv : usage_key * (Z * Z)) : bool :=
  bool_decide (kv.1.1.1.1 = ctx_org c) && (from <=? kv.1.2) && (kv.1.2 <? to).
Definition sum_of (rows : list (usage_key * (Z * Z))) (m : string) : Z :=
  sumZ (map (λ kv, kv.2.1) (filter (λ kv, usage_metric kv = m) rows)).

(** [groupBy(metric)] with [_sum: { quantity }] *)
Definition totals (from to : Z) (u : Usage) : result (gmap string Z) :=
  let rows := filter (λ kv, in_period from to kv = true) (map_to_list u) in
  groups ← groupBy (arrange (map (λ m, (m, sum_of rows m)) (remove_dups (map usage_metric rows)))) (Some (int 16)) None;
  Ok (list_to_map groups).

Definition periodStart (now : Z) : Z := let '(y, m, _) := civil_of now in Date_UTC y m 1.
Definition periodEnd (now : Z) : Z := now / 3600000 * 3600000.

Definition summary (now : Z) (subscriptions : list BillingSubscription) (u : Usage) : result BillingDto :=
  let subscription := head (newest_first (filter (λ s, bs_organizationId s = ctx_org c) subscriptions)) in
  totals ← totals (periodStart now) (periodEnd now) u;
  Ok (MkBilling (bs_status <$> subscription) (toISOString (periodStart now)) (toISOString (periodEnd now))
        (map (λ metric, MkUsageLine metric (bigint_toString (default 0 (totals !! metric))) None) METRICS) false).
End Billing.

(** ** The month to date *)

Definition yoe_of (doe : Z) : Z := (doe - doe / 1460 + doe / 36524 - doe / 146096) / 365.
Definition doy_of (doe : Z) : Z := doe - (365 * yoe_of doe + yoe_of doe / 4 - yoe_of doe / 100).

Lemma yoe_bounds doe : 0 <= doe < 146097 → 0 <= yoe_of doe <= 399.
Proof. unfold yoe_of. intros H. Z.to_euclidean_division_equations; lia. Qed.
Lemma doy_bounds doe : 0 <= doe < 146097 → 0 <= doy_of doe <= 366.
Proof. unfold doy_of, yoe_of. intros H. Z.to_euclidean_division_equations; lia. Qed.
(** Going back within a year that starts on 1 March. *)
Lemma yoe_back doe k : 0 <= doe < 146097 → 0 <= k <= doy_of doe → yoe_of (doe - k) = yoe_of doe.
Proof. unfold doy_of, yoe_of. intros H H2. Z.to_euclidean_division_equations; lia. Qed.

Lemma civil_eq z : let doe := (z + 719468) mod 146097 in let mp := (5 * doy_of doe + 2) / 153 in
  civil_from_days z = (yoe_of doe + (z + 719468) / 146097 * 400 + (if mp <? 10 then 0 else 1), (if mp <? 10 then mp + 3 else mp - 9),
                       doy_of doe - (153 * mp + 2) / 5 + 1).
Proof.
  intros doe mp. assert (0 <= doe < 146097) as Hdoe by (apply Z.mod_pos_bound; lia). pose proof (doy_bounds doe Hdoe) as Hdoy.
  assert (0 <= mp <= 11) as Hmp by (unfold mp; Z.to_euclidean_division_equations; lia).
  unfold civil_from_days. fold doe. fold (yoe_of doe). fold (doy_of doe). fold mp. f_equal. f_equal.
  destruct (mp <? 10) eqn:E; bprop; [rewrite (proj2 (Z.leb_gt _ _)) by lia|rewrite (proj2 (Z.leb_le _ _)) by lia]; lia.
Qed.

(** Any date is a day of its month, counted from the first. *)
Lemma month_first z y m d : civil_from_days z = (y, m, d) →
  1 <= d ∧ days_from_civil y m 1 = z - (d - 1) ∧ civil_from_days (z - (d - 1)) = (y, m, 1).
Proof.
  rewrite civil_eq. set (doe := (z + 719468) mod 146097). set (era := (z + 719468) / 146097).
  assert (0 <= doe < 146097) as Hdoe by (apply Z.mod_pos_bound; lia). pose proof (doy_bounds doe Hdoe) as Hdoy.
  pose proof (yoe_bounds doe Hdoe) as Hyoe. set (doy := doy_of doe) in *. set (yoe := yoe_of doe) in *.
  set (mp := (5 * doy + 2) / 153). assert (0 <= mp <= 11) as Hmp by (unfold mp; Z.to_euclidean_division_equations; lia).
  assert (0 <= (153 * mp + 2) / 5 <= doy) as Hd by (unfold mp; Z.to_euclidean_division_equations; lia).
  intros [= <- <- <-]. split; [lia|].
  assert (doy = doe - (365 * yoe + yoe / 4 - yoe / 100)) as Edef by reflexivity.
  assert (z + 719468 = 146097 * era + doe) as Hz by (apply Z.div_mod; lia).
  split.
  - unfold days_from_civil.
    assert ((if (if mp <? 10 then mp + 3 else mp - 9) <=? 2 then yoe + era * 400 + (if mp <? 10 then 0 else 1) - 1
             else yoe + era * 400 + (if mp <? 10 then 0 else 1)) = yoe + era * 400) as ->.
    { destruct (mp <? 10) eqn:E; bprop; destruct (_ <=? 2) eqn:E2; bprop; lia. }
    assert ((if (if mp <? 10 then mp + 3 else mp - 9) <=? 2 then (if mp <? 10 then mp + 3 else mp - 9) + 9
             else (if mp <? 10 then mp + 3 else mp - 9) - 3) = mp) as ->.
    { destruct (mp <? 10) eqn:E; bprop; destruct (_ <=? 2) eqn:E2; bprop; lia. }
    rewrite <- (Z.mod_unique (yoe + era * 400) 400 era yoe), <- (Z.div_unique (yoe + era * 400) 400 era yoe) by lia.
    lia.
  - set (k := doy - (153 * mp + 2) / 5 + 1 - 1). assert (z - k + 719468 = era * 146097 + (doe - k)) as Hz' by lia.
    assert (doy <= doe) as Hle.
    { rewrite Edef. clearbody yoe. Z.to_euclidean_division_equations; lia. }
    assert ((z - k + 719468) mod 146097 = doe - k) as Em by (symmetry; apply (Z.mod_unique _ _ era); unfold k; lia).
    assert ((z - k + 719468) / 146097 = era) as Ed by (symmetry; apply (Z.div_unique _ _ era (doe - k)); unfold k; lia).
    rewrite civil_eq, Em, Ed. assert (yoe_of (doe - k) = yoe) as Ey by (apply yoe_back; unfold k; lia).
    assert (doy_of (doe - k) = (153 * mp + 2) / 5) as Edoy.
    { unfold doy_of. rewrite Ey. unfold k. lia. }
    rewrite Ey, Edoy. assert ((5 * ((153 * mp + 2) / 5) + 2) / 153 = mp) as -> by (Z.to_euclidean_division_equations; lia).
    do 2 f_equal. lia.
Qed.

(** The period starts at midnight of the first day of the month of [now], which is not
    after [now], and both its ends are hours. *)
Lemma period_facts now :
  civil_of (periodStart now) = ((civil_of now).1, 1) ∧ periodStart now mod 86400000 = 0
  ∧ periodStart now <= periodEnd now ∧ periodEnd now <= now < periodEnd now + HOUR
  ∧ (HOUR | periodStart now) ∧ (HOUR | periodEnd now).
Proof.
  unfold periodStart, periodEnd, civil_of, Date_UTC, HOUR. set (z := now / 86400000).
  destruct (civil_from_days z) as [[y m] d] eqn:E. destruct (month_first z y m d E) as (Hd & -> & Hc).
  rewrite Z.div_mul by lia. assert (z * 86400000 <= now < z * 86400000 + 86400000) as Hz.
  { unfold z. pose proof (Z.div_mod now 86400000 ltac:(lia)). pose proof (Z.mod_pos_bound now 86400000 ltac:(lia)). lia. }
  split_and!; [exact Hc|apply Z.mod_mul; lia| | | |exists ((z - (d - 1)) * 24); lia|by eexists].
  all: pose proof (Z.div_mod now 3600000 ltac:(lia)); pose proof (Z.mod_pos_bound now 3600000 ltac:(lia)).
  2-3: lia.
  assert (z * 24 <= now / 3600000); [|lia]. apply Z.div_le_lower_bound; lia.
Qed.

(** ** The sums *)

(** What one organization did in a period, counted in the source tables. *)
Definition metered (db : Db) (org metric : string) (from to : Z) : Z :=
  let deliveries_where w := Z.of_nat (size (filter (λ kv, w kv.2 = true) (deliveries db))) in
  let within d := bool_decide (Delivery.organizationId d = org) && (from <=? Delivery.createdAt d) && (Delivery.createdAt d <? to) in
  if bool_decide (metric = "events_ingested") then
    Z.of_nat (size (filter (λ kv, bool_decide (Event.organizationId kv.2 = org) && (from <=? Event.createdAt kv.2)
                                  && (Event.createdAt kv.2 <? to) = true) (events db)))
  else if bool_decide (metric = "deliveries") then deliveries_where within
  else deliveries_where (λ d, within d && is_replay d).

Lemma sumZ_app l1 l2 : sumZ (l1 ++ l2) = sumZ l1 + sumZ l2.
Proof. unfold sumZ. induction l1 as [|a l1 IH]; cbn; [done|]. rewrite IH. lia. Qed.

(** Counting by keys counts what has one of the keys. *)
Lemma sum_keys {A K} `{EqDecision K} (f : A → K) (X : list A) (L : list K) : NoDup L →
  sumZ (map (λ k, Z.of_nat (length (filter (λ x, f x = k) X))) L) = Z.of_nat (length (filter (λ x, f x ∈ L) X)).
Proof.
  induction L as [|k L IH]; intros Hn; cbn.
  { rewrite filter_nothing; [done|]. intros x _. apply not_elem_of_nil. }
  apply NoDup_cons in Hn as [Hk Hn]. fold (sumZ (map (λ k, Z.of_nat (length (filter (λ x, f x = k) X))) L)). rewrite (IH Hn).
  rewrite <- Nat2Z.inj_add. f_equal. clear IH Hn. induction X as [|x X IH]; [done|]. rewrite !filter_cons.
  repeat case_decide; cbn; rewrite ?IH; try lia; set_solver.
Qed.

Section meter.
  Context {R : Type} (tbl : gmap string R) (key : R → string * string) (at_ : R → Z) (w : R → bool).
  Context (L : list (string * string * Z)) (org : string) (from to : Z).
  Hypothesis Hnodup : NoDup L.
  Hypothesis Hfrom : (HOUR | from).
  Hypothesis Hto : (HOUR | to).
  (** The records: hours of the period and of the organization, every one that is worth something. *)
  Hypothesis HL : ∀ k s, (k, s) ∈ L → k.1 = org ∧ from <= s < to ∧ (HOUR | s).
  Hypothesis Hall : ∀ k s, k.1 = org → from <= s < to → (HOUR | s) →
    (∃ i x, tbl !! i = Some x ∧ w x = true ∧ in_hour s (at_ x) = true ∧ key x = k) → (k, s) ∈ L.

Definition hour_of (t : Z) : Z := t / HOUR * HOUR.
Lemma in_hour_of s t : (HOUR | s) → in_hour s t = true ↔ hour_of t = s.
Proof.
  unfold in_hour, hour_of, HOUR. intros [q ->]. rewrite andb_true_iff, Z.leb_le, Z.ltb_lt.
  pose proof (Z.div_mod t 3600000 ltac:(lia)). pose proof (Z.mod_pos_bound t 3600000 ltac:(lia)). nia.
Qed.

Lemma meter_sum :
  sumZ (map (λ ks, Z.of_nat (size (filter (λ kv, in_hour ks.2 (at_ kv.2) && w kv.2 && bool_decide (key kv.2 = ks.1) = true) tbl))) L)
  = Z.of_nat (size (filter (λ kv, bool_decide ((key kv.2).1 = org) && (from <=? at_ kv.2) && (at_ kv.2 <? to) && w kv.2 = true) tbl)).
Proof.
  set (X := filter (λ kv : string * R, w kv.2 = true) (map_to_list tbl)).
  set (f := λ kv : string * R, (key kv.2, hour_of (at_ kv.2))).
  rewrite <- length_filter_list. transitivity (Z.of_nat (length (filter (λ kv, f kv ∈ L) X))).
  - rewrite <- (sum_keys f X L Hnodup). f_equal. apply map_ext_in. intros [k s] Hks%list_elem_of_In.
    rewrite <- length_filter_list. unfold X. rewrite list_filter_filter. do 2 f_equal. apply list_filter_iff. intros [i x].
    cbn [fst snd]. rewrite !andb_true_iff, bool_decide_eq_true, in_hour_of by (by destruct (HL k s Hks) as (_ & _ & ?)).
    unfold f. cbn. rewrite pair_equal_spec. tauto.
  - f_equal. unfold X. rewrite list_filter_filter. 
    assert (∀ l, l ⊆ map_to_list tbl → filter (λ x, f x ∈ L ∧ w x.2 = true) l
      = filter (λ kv, bool_decide ((key kv.2).1 = org) && (from <=? at_ kv.2) && (at_ kv.2 <? to) && w kv.2 = true) l) as H;
      [|by rewrite H].
    induction l as [|[i x] l IH]; intros Hsub; [done|]. rewrite !filter_cons, IH by set_solver.
    assert (tbl !! i = Some x) as Hx by (apply elem_of_map_to_list, Hsub; left).
    assert ((f (i, x) ∈ L ∧ w x = true) ↔
      bool_decide ((key x).1 = org) && (from <=? at_ x) && (at_ x <? to) && w x = true) as Hiff.
    { rewrite !andb_true_iff, bool_decide_eq_true, Z.leb_le, Z.ltb_lt. unfold f. cbn [snd].
      assert (hour_of (at_ x) <= at_ x < hour_of (at_ x) + HOUR ∧ (HOUR | hour_of (at_ x))) as [Hh Hd].
      { unfold hour_of, HOUR. pose proof (Z.div_mod (at_ x) 3600000 ltac:(lia)).
        pose proof (Z.mod_pos_bound (at_ x) 3600000 ltac:(lia)). split; [lia|by eexists]. }
      destruct Hfrom as [a ->], Hto as [b ->]. split.
      - intros [Hin Hw]. destruct (HL _ _ Hin) as (Ho & Hr & _). split_and!; [done|lia| |done]. destruct Hd as [q Hq].
        rewrite Hq in *. unfold HOUR in *. nia.
      - intros [[[Ho Hge] Hlt] Hw]. split; [|done]. apply Hall; [done| |done|].
        + destruct Hd as [q Hq]. rewrite Hq in *. unfold HOUR in *. nia.
        + exists i, x. split_and!; [done|done| |done]. by apply in_hour_of. }
    cbn [snd]. repeat case_decide; tauto || (by rewrite ?Hiff in *).
Qed.
End meter.

(** ** The summary *)

(** What the aggregator writes: whole hours of the three metrics. *)
Definition aggregated (u : Usage) : Prop :=
  ∀ o p m s v, u !! (o, p, m, s) = Some v → m ∈ METRICS ∧ (HOUR | s).
(** Every complete hour of the period has been counted. *)
Definition caught_up (org : string) (db : Db) (u : Usage) (from to : Z) : Prop :=
  ∀ p m s, m ∈ METRICS → (HOUR | s) → from <= s < to → default 0 (quantity u (org, p) m s) = usage_of db m (org, p) s.

Lemma size_filter_pos {X} (P : string * X → Prop) `{!∀ x, Decision (P x)} (t : gmap string X) :
  (∃ i x, t !! i = Some x ∧ P (i, x)) → 0 < Z.of_nat (size (filter P t)).
Proof.
  intros (i & x & Hx & HP). enough (size (filter P t) ≠ 0)%nat by lia. intros Hz%map_size_empty_inv.
  assert (filter P t !! i = Some x) as Hf by (by apply map_lookup_filter_Some). by rewrite Hz, lookup_empty in Hf.
Qed.

Section summary.
  Context (arrange : list (string * Z) → list (string * Z)) (Harrange : ∀ l, arrange l ≡ₚ l)
    (newest_first : list BillingSubscription → list BillingSubscription) (c : Ctx).

Lemma totals_run from to u : aggregated u →
  ∃ t, totals arrange c from to u = Ok t
    ∧ ∀ m, default 0 (t !! m) = sum_of (filter (λ kv, in_period c from to kv = true) (map_to_list u)) m.
Proof.
  intros Hu. unfold totals. set (rows := filter _ (map_to_list u)). set (gs := arrange _). rewrite groupBy_page.
  change (Z.to_nat (pageSize _)) with 16%nat. change (Z.to_nat (default 0 (offset None))) with 0%nat. rewrite drop_0.
  assert (gs.*1 ≡ₚ remove_dups (map usage_metric rows)) as Hk.
  { unfold gs. rewrite Harrange. clear. induction (remove_dups _) as [|m l IH]; [done|]. cbn. by f_equiv. }
  assert (NoDup gs.*1) as Hn by (rewrite Hk; apply NoDup_remove_dups).
  rewrite take_ge.
  2: { enough (length gs.*1 <= 3)%nat by (rewrite length_fmap in *; lia). change 3%nat with (length METRICS).
       apply submseteq_length, NoDup_submseteq; [done|]. intros m. rewrite Hk, elem_of_remove_dups.
       intros ([[[[o p] m'] s] v] & -> & Hin)%list_elem_of_fmap. apply list_elem_of_filter in Hin as [_ Hin].
       apply elem_of_map_to_list in Hin. by apply Hu in Hin as [? _]. }
  eexists. split; [reflexivity|]. intros m. destruct (list_to_map gs !! m) as [v|] eqn:E; cbn.
  - apply (elem_of_list_to_map_2 gs) in E. unfold gs in E. rewrite Harrange in E. by apply list_elem_of_fmap in E as (m' & [= -> ->] & _).
  - apply not_elem_of_list_to_map in E. rewrite Hk, elem_of_remove_dups in E. unfold sum_of. rewrite filter_nothing; [done|].
    intros kv Hkv <-. apply E, list_elem_of_fmap. by exists kv.
Qed.

(** The records of one metric, as the hours they count. *)
Definition hours_of (from to : Z) (u : Usage) (m : string) : list (string * string * Z) :=
  map (λ kv : usage_key * (Z * Z), (kv.1.1.1, kv.1.2))
    (filter (λ kv, usage_metric kv = m) (filter (λ kv, in_period c from to kv = true) (map_to_list u))).
Lemma hours_of_elem from to u m o p s :
  (o, p, s) ∈ hours_of from to u m ↔ o = ctx_org c ∧ from <= s < to ∧ is_Some (u !! (o, p, m, s)).
Proof.
  unfold hours_of. rewrite list_elem_of_fmap. split.
  - intros ([[[[o' p'] m'] s'] v] & [= -> -> ->] & Hin). rewrite !list_elem_of_filter, elem_of_map_to_list in Hin.
    destruct Hin as (Hm & Hp & Hl). cbn in Hm. subst m'. unfold in_period in Hp. cbn in Hp. bprop. split_and!; [done|lia..|by eexists].
  - intros (-> & Hs & v & Hv). exists (ctx_org c, p, m, s, v). split; [done|]. rewrite !list_elem_of_filter, elem_of_map_to_list.
    split_and!; [done| |done]. unfold in_period. cbn. rewrite bool_decide_eq_true_2 by done. cbn.
    apply andb_true_iff. split; [apply Z.leb_le|apply Z.ltb_lt]; lia.
Qed.
Lemma hours_of_nodup from to u m : NoDup (hours_of from to u m).
Proof.
  unfold hours_of. set (l := filter _ _). assert (NoDup l) as Hn by (do 2 apply NoDup_filter; apply NoDup_map_to_list).
  assert (∀ a b, a ∈ l → b ∈ l → (a.1.1.1, a.1.2) = (b.1.1.1, b.1.2) → a = b) as Hinj.
  { intros [[[[o p] m1] s] v1] [[[[o2 p2] m2] s2] v2] Ha Hb [= <- <- <-]. unfold l in Ha, Hb.
    rewrite !list_elem_of_filter, !elem_of_map_to_list in Ha, Hb. unfold usage_metric in Ha, Hb. cbn in Ha, Hb.
    destruct Ha as (-> & _ & Ha), Hb as (-> & _ & Hb). congruence. }
  clearbody l. induction Hn as [|a l Ha Hn IH]; cbn; [constructor|]. constructor.
  - intros (b & E & Hb)%list_elem_of_fmap. apply Ha. rewrite (Hinj a b); [done|left|by right|done].
  - apply IH. intros x y Hx Hy. apply Hinj; by right.
Qed.

Lemma sum_is_metered db from to u m : aggregated u → caught_up (ctx_org c) db u from to → m ∈ METRICS →
  (HOUR | from) → (HOUR | to) →
  sum_of (filter (λ kv, in_period c from to kv = true) (map_to_list u)) m = metered db (ctx_org c) m from to.
Proof.
  intros Hagg Hup Hm Hf Ht. set (L := hours_of from to u m).
  transitivity (sumZ (map (λ ks : string * string * Z, usage_of db m ks.1 ks.2) L)).
  { unfold sum_of, L, hours_of. rewrite map_map. f_equal. apply map_ext_in. intros [[[[o p] m'] s] v] Hin%list_elem_of_In.
    rewrite !list_elem_of_filter, elem_of_map_to_list in Hin. destruct Hin as (Hm' & Hp & Hl). cbn in *. subst m'.
    unfold in_period in Hp. cbn in Hp. bprop. subst o. rewrite <- (Hup p m s Hm); [|by apply (Hagg _ _ _ _ _ Hl)|lia].
    assert (quantity u (ctx_org c, p) m s = Some v.1) as Hq; [|by rewrite Hq]. unfold quantity. cbn [fst snd].
    apply fmap_Some. exists v. split; [exact Hl|done]. }
  assert (∀ k s, (k, s) ∈ L → k.1 = ctx_org c ∧ from <= s < to ∧ (HOUR | s)) as HL.
  { intros [o p] s (-> & Hs & [v Hv])%hours_of_elem. split_and!; [done|lia..|by apply (Hagg _ _ _ _ _ Hv)]. }
  assert (∀ k s, k.1 = ctx_org c → from <= s < to → (HOUR | s) → 0 < usage_of db m k s → (k, s) ∈ L) as Hin.
  { intros [o p] s Ho Hs Hd Hpos. cbn in Ho. subst o. apply hours_of_elem. split_and!; [done|lia..|].
    rewrite <- (Hup p m s Hm Hd Hs) in Hpos. change (0 < default 0 (fst <$> u !! (ctx_org c, p, m, s))) in Hpos. destruct (u !! (ctx_org c, p, m, s)); [by eexists|cbn in Hpos; lia]. }
  assert (∀ R (tbl : gmap string R) key at_ w,
    (∀ k s, usage_of db m k s = Z.of_nat (size (filter (λ kv, in_hour s (at_ kv.2) && w kv.2 && bool_decide (key kv.2 = k) = true) tbl))) →
    metered db (ctx_org c) m from to = Z.of_nat (size (filter (λ kv, bool_decide ((key kv.2).1 = ctx_org c) && (from <=? at_ kv.2)
      && (at_ kv.2 <? to) && w kv.2 = true) tbl)) →
    sumZ (map (λ ks : string * string * Z, usage_of db m ks.1 ks.2) L) = metered db (ctx_org c) m from to) as Hmeter.
  { intros R tbl key at_ w Hu ->. rewrite <- (meter_sum tbl key at_ w L (ctx_org c) from to (hours_of_nodup _ _ _ _) Hf Ht HL).
    - f_equal. apply map_ext. intros ks. apply Hu.
    - intros k s Hk Hs Hd (i & x & Hx & Hw & Hh & Hkey). apply Hin; [done..|]. rewrite Hu. apply size_filter_pos. exists i, x.
      split; [done|]. cbn. by rewrite Hh, Hw, bool_decide_eq_true_2. }
  unfold METRICS in Hm. rewrite !elem_of_cons, elem_of_nil in Hm. destruct Hm as [->|[->|[->|[]]]].
  - apply (Hmeter _ (events db) event_key Event.createdAt (λ _, true)); intros; unfold usage_of, metered; cbn; do 2 f_equal;
      apply map_filter_ext; intros i x _; cbn; by rewrite ?andb_true_r.
  - apply (Hmeter _ (deliveries db) delivery_key Delivery.createdAt (λ _, true)); intros; unfold usage_of, metered; cbn; do 2 f_equal;
      apply map_filter_ext; intros i x _; cbn; by rewrite ?andb_true_r.
  - apply (Hmeter _ (deliveries db) delivery_key Delivery.createdAt is_replay); intros; unfold usage_of, metered; cbn; do 2 f_equal;
      apply map_filter_ext; intros i x _; cbn; done.
Qed.

(** The bill is the ledger.  When the aggregator has counted every complete hour
    of the month, the summary states, for each of the three metrics, exactly how many
    rows of the source tables the organization has from midnight of the first day of
    the month of now, inclusive, to the start of the current hour, exclusive, over all
    its projects whatever project the request names; that period is never empty
    backwards and never reaches into the hour in progress. *)
Theorem summary_is_ledger (db : Db) (u : Usage) (subs : list BillingSubscription) (now : Z)
    (Hagg : aggregated u) (Hup : caught_up (ctx_org c) db u (periodStart now) (periodEnd now)) :
  ∃ b, summary arrange newest_first c now subs u = Ok b
    ∧ bl_usage b = map (λ m, MkUsageLine m (bigint_toString (metered db (ctx_org c) m (periodStart now) (periodEnd now))) None) METRICS
    ∧ bl_period_start b = toISOString (periodStart now) ∧ bl_period_end b = toISOString (periodEnd now)
    ∧ civil_of (periodStart now) = ((civil_of now).1, 1) ∧ periodStart now mod 86400000 = 0
    ∧ periodStart now <= periodEnd now ∧ periodEnd now <= now < periodEnd now + HOUR.
Proof.
  destruct (period_facts now) as (Hc & Hday & Hle & Hnow & Hf & Ht).
  destruct (totals_run (periodStart now) (periodEnd now) u Hagg) as (t & Et & Hsum).
  eexists. split; [unfold summary; rewrite Et; reflexivity|]. cbn [bl_usage bl_period_start bl_period_end].
  split_and!; [|done..|lia|lia]. apply map_ext_in. intros m Hm%list_elem_of_In. do 2 f_equal.
  rewrite Hsum. by apply sum_is_metered.
Qed.
End summary.

(** ** The aggregator writes nothing else *)

Lemma upserts_aggregated rows : (∀ r, r ∈ rows → (ur_key r).1.2 ∈ METRICS ∧ (HOUR | (ur_key r).2)) →
  Preserves (λ st, aggregated (us_usage st)) (forM rows upsert_row).
Proof.
  induction rows as [|r rows IH]; intros Hr; cbn [forM]; [apply preserves_ret|]. apply preserves_bind; [|intros _; apply IH; set_solver].
  intros [u n] Hu. destruct (Hr r ltac:(left)) as [Hm Hs]. unfold upsert_row. cbn [us_survives us_usage].
  assert (aggregated (upsert r u)) as Hup.
  { intros o p m s v. unfold upsert. destruct (decide (ur_key r = (o, p, m, s))) as [E|Hne].
    - intros _. by rewrite E in Hm, Hs.
    - intros Hv. apply (Hu o p m s v). rewrite <- Hv. symmetry. by apply (lookup_insert_ne (M:=gmap (string * string * string * Z))). }
  destruct n as [[|n]|]; [done|exact Hup..].
Qed.

(** Every pass, cut short or not, leaves whole hours of the three metrics. *)
Lemma passes_aggregated passes : aggregated (foldl run_pass ∅ passes).
Proof.
  assert (aggregated ∅) as H0 by (intros o p m s v Hv; discriminate Hv). revert H0. generalize (∅ : Usage).
  induction passes as [|p passes IH]; intros u Hu; [done|]. cbn [foldl]. apply IH. clear IH. unfold run_pass, sweep.
  destruct (ps_locked p); [|done]. cbn [negb]. unfold mbind, M_bind, gets. cbn [us_usage].
  assert (∀ b, b ∈ take MAX_BUCKETS_PER_RUN (pendingBuckets (ps_now p) u) → (HOUR | b)) as Hb.
  { intros b Hin%subseteq_take. apply pending_elem in Hin as [(i & _ & ->) _]. by eexists. }
  assert (∀ bs, (∀ b, b ∈ bs → (HOUR | b)) → Preserves (λ st, aggregated (us_usage st)) (fill_all (ps_order p) (ps_db p) bs)) as H.
  { induction bs as [|b bs IH]; intros Hbs; cbn [fill_all]; [apply preserves_ret|].
    apply preserves_bind; [|intros n; apply preserves_bind; [apply IH; set_solver|intros; apply preserves_ret]].
    unfold fill. apply preserves_bind; [|intros; apply preserves_ret]. apply upserts_aggregated. intros r Hr.
    pose proof (hour_rows_start _ _ _ _ Hr) as Hs. rewrite Hs. split; [|apply Hbs; left].
    unfold hour_rows in Hr. rewrite !elem_of_app, !toRows_elem in Hr. unfold METRICS.
    destruct Hr as [(k & n & _ & _ & ->)|[(k & n & _ & _ & ->)|(k & n & _ & _ & ->)]]; cbn; set_solver. }
  specialize (H _ Hb (MkUsageState u (ps_survives p)) Hu). destruct (fill_all _ _ _ _) as [[n|e] st]; exact H.
Qed.

(** The first pass that completes has counted the last forty-eight hours. *)
Lemma pass_counts order (Horder : ∀ l, order l ≡ₚ l) db now k m s : billable now s → m ∈ METRICS →
  default 0 (quantity (run_pass ∅ (MkPass order db true now None)) k m s) = usage_of db m k s.
Proof.
  intros Hb Hm. unfold run_pass. cbn [ps_order ps_db ps_locked ps_now ps_survives].
  destruct (usage_sweep_run order Horder db now ∅) as (rep & u' & -> & _ & ->).
  assert (0 <= usage_of db m k s) by (unfold usage_of; repeat case_match; lia).
  destruct (decide _) as [|Hno]; [done|]. change (default 0 (quantity ∅ k m s)) with 0. destruct (decide (0 < usage_of db m k s)); [|lia]. destruct Hno.
  split; [|done]. apply pending_elem. split; [done|]. intros (k' & v & Hv). discriminate Hv.
Qed.

(** One pass an hour into the month counts the whole of it. *)
Definition billed : Usage := run_pass ∅ (MkPass id two_events true 3600000 None).
Definition bill_ctx : Ctx := MkCtx "o2" None "m2" owner "u2".

Lemma summary_is_ledger_witness :
  ∃ b, summary (λ l, l) (λ l, l) bill_ctx 5400000 [] billed = Ok b
    ∧ map ul_used (bl_usage b) = [js "1"; js "0"; js "0"]
    ∧ bl_period_start b = js "1970-01-01T00:00:00.000Z" ∧ bl_period_end b = js "1970-01-01T01:00:00.000Z".
Proof.
  destruct (summary_is_ledger (λ l, l) (λ l, Permutation_refl l) (λ l, l) bill_ctx two_events billed [] 5400000
    (passes_aggregated [MkPass id two_events true 3600000 None])) as (b & E & Hu & Hs & He & _).
  - intros p m s Hm [q ->] Hs. change (0 <= q * HOUR < 3600000) in Hs. unfold HOUR in Hs. assert (q = 0) as -> by lia.
    apply (pass_counts id (λ l, Permutation_refl l)); [|exact Hm]. exists 47%nat. split; [lia|reflexivity].
  - exists b. rewrite E, Hu, Hs, He. split; [reflexivity|]. split; [vm_compute; reflexivity|]. split; vm_compute; reflexivity.
Defined.
