(* ===== verification/AuditReads.v ===== *)
(** The audit log as it is read: audit/audit-logs.service.ts and its DTOs.

    The rows are those [AuditTrail] writes, with the columns the database adds;
    [newest_first] is ORDER BY created_at DESC, [Date_parse] is the value of
    [new Date(text)], if it is one. *)
From Stdlib Require Import ZArith Lia.
From S2P Require Import Prelude Js Permissions RetryRules AuditTrail Db Scope TenantScope Ledger.
Local Open Scope Z_scope.

Record LogRow : Type := MkLogRow {
  lr_id : string; lr_log : AuditLog.t; lr_apiKeyId : option string; lr_ipAddress : option jsstr; lr_userAgent : option jsstr;
  lr_createdAt : Z
}.
Record AuditLogDto : Type := MkAuditLogDto {
  al_id : string; al_organization_id : string; al_user_id : option string; al_api_key_id : option string; al_action : string;
  al_resource_type : string; al_resource_id : option string; al_metadata : option (list (jsstr * meta));
  al_ip_address : option jsstr; al_user_agent : option jsstr; al_created_at : jsstr
}.
Definition toAuditLogDto (row : LogRow) : AuditLogDto :=
  let l := lr_log row in
  MkAuditLogDto (lr_id row) (AuditLog.organizationId l) (AuditLog.userId l) (lr_apiKeyId row) (AuditLog.action l)
    (AuditLog.resourceType l) (AuditLog.resourceId l) (AuditLog.metadata l) (lr_ipAddress row) (lr_userAgent row)
    (toISOString (lr_createdAt row)).

Record ListAuditLogsQuery : Type := MkListAudit {
  aq_user_id : option string; aq_action : option string; aq_resource_type : option string; aq_resource_id : option string;
  aq_created_after : option jsstr; aq_created_before : option jsstr; aq_limit : option num; aq_offset : option num
}.
(** [{ gte, lte }]: both ends belong to the range. *)
Record AuditWhere : Type := MkAuditWhere {
  aw_userId : option string; aw_action : option string; aw_resourceType : option string; aw_resourceId : option string;
  aw_gte : option Z; aw_lte : option Z
}.
(** An empty filter is no filter. *)
Definition filled (o : option string) : option string := if o is Some "" then None else o.

Section Audit.
  Context (Date_parse : jsstr → option Z) (newest_first : list LogRow → list LogRow) (c : Ctx).

Definition instant (value : option jsstr) : result (option Z) :=
  match value with
  | None => Ok None
  | Some text => if Date_parse text is Some t then Ok (Some t) else throw invalid_request "must be an ISO-8601 timestamp."
  end.

Definition audit_filter (q : ListAuditLogsQuery) : result AuditWhere :=
  after ← instant (aq_created_after q);
  before ← instant (aq_created_before q);
  _ ← throw_if (match after, before with Some a, Some b => b <? a | _, _ => false end) invalid_request
        "is later than created_before, so the range selects nothing.";
  Ok (MkAuditWhere (filled (aq_user_id q)) (filled (aq_action q)) (filled (aq_resource_type q)) (filled (aq_resource_id q)) after before).

Definition where_log (w : AuditWhere) (row : LogRow) : bool :=
  asked (aw_userId w) (λ u, bool_decide (AuditLog.userId (lr_log row) = Some u))
  && asked (aw_action w) (λ a, bool_decide (AuditLog.action (lr_log row) = a))
  && asked (aw_resourceType w) (λ t, bool_decide (AuditLog.resourceType (lr_log row) = t))
  && asked (aw_resourceId w) (λ i, bool_decide (AuditLog.resourceId (lr_log row) = Some i))
  && asked (aw_gte w) (λ a, a <=? lr_createdAt row) && asked (aw_lte w) (λ b, lr_createdAt row <=? b).

(** The scope of the table is the organization. *)
Definition own_log (row : LogRow) : bool := bool_decide (AuditLog.organizationId (lr_log row) = ctx_org c).

Definition audit_list (q : ListAuditLogsQuery) (rows : list LogRow) : result (list AuditLogDto * bool * option Z) :=
  where_ ← audit_filter q;
  let page := findPage (newest_first (filter (λ row, own_log row && where_log where_ row = true) rows)) (aq_limit q) (aq_offset q) in
  Ok (map toAuditLogDto (p_rows page), p_hasMore page, p_nextSkip page).

Definition audit_get (auditLogId : string) (rows : list LogRow) : result AuditLogDto :=
  match head (filter (λ row, own_log row && bool_decide (lr_id row = auditLogId) = true) rows) with
  | Some row => Ok (toAuditLogDto row)
  | None => throw not_found CROSS_TENANT_MESSAGE
  end.
End Audit.

(** ** What a page shows *)

(** The question as it is meant, over parsed times. *)
Record asks (Date_parse : jsstr → option Z) (q : ListAuditLogsQuery) (row : LogRow) : Prop := {
  as_user : ∀ u, filled (aq_user_id q) = Some u → AuditLog.userId (lr_log row) = Some u;
  as_action : ∀ a, filled (aq_action q) = Some a → AuditLog.action (lr_log row) = a;
  as_type : ∀ t, filled (aq_resource_type q) = Some t → AuditLog.resourceType (lr_log row) = t;
  as_resource : ∀ i, filled (aq_resource_id q) = Some i → AuditLog.resourceId (lr_log row) = Some i;
  as_after : ∀ x a, aq_created_after q = Some x → Date_parse x = Some a → a <= lr_createdAt row;
  as_before : ∀ x b, aq_created_before q = Some x → Date_parse x = Some b → lr_createdAt row <= b
}.
Definition unreadable (Date_parse : jsstr → option Z) (q : ListAuditLogsQuery) : Prop :=
  ∃ x, (aq_created_after q = Some x ∨ aq_created_before q = Some x) ∧ Date_parse x = None.
Definition reversed (Date_parse : jsstr → option Z) (q : ListAuditLogsQuery) : Prop :=
  ∃ x y a b, aq_created_after q = Some x ∧ aq_created_before q = Some y ∧ Date_parse x = Some a ∧ Date_parse y = Some b ∧ b < a.

Lemma instant_spec Date_parse o :
  (∃ x, o = Some x ∧ Date_parse x = None ∧ ∃ m, instant Date_parse o = throw invalid_request m)
  ∨ instant Date_parse o = Ok (o ≫= Date_parse) ∧ (∀ x, o = Some x → is_Some (Date_parse x)).
Proof.
  unfold instant. destruct o as [x|]; [|by right]. destruct (Date_parse x) as [t|] eqn:E.
  - right. cbn. rewrite E. split; [done|]. intros y [= <-]. by eexists.
  - left. exists x. split_and!; [done|done|by eexists].
Qed.

Lemma audit_filter_spec Date_parse q :
  (unreadable Date_parse q ∨ reversed Date_parse q → ∃ m, audit_filter Date_parse q = throw invalid_request m)
  ∧ (¬ (unreadable Date_parse q ∨ reversed Date_parse q) →
     ∃ w, audit_filter Date_parse q = Ok w ∧ ∀ row, where_log w row = true ↔ asks Date_parse q row).
Proof.
  unfold audit_filter, unreadable, reversed.
  destruct (instant_spec Date_parse (aq_created_after q)) as [(x & Ea & Ex & m & ->)|[-> Ha]].
  { split; [intros _; by exists m|]. intros Hno. destruct Hno. left. exists x. auto. }
  cbn [mbind result_bind]. destruct (instant_spec Date_parse (aq_created_before q)) as [(x & Eb & Ex & m & ->)|[-> Hb]].
  { split; [intros _; by exists m|]. intros Hno. destruct Hno. left. exists x. auto. }
  cbn [mbind result_bind].
  set (A := aq_created_after q ≫= Date_parse). set (B := aq_created_before q ≫= Date_parse).
  assert ((∃ x y a b, aq_created_after q = Some x ∧ aq_created_before q = Some y ∧ Date_parse x = Some a ∧ Date_parse y = Some b ∧ b < a)
    ↔ ∃ a b, A = Some a ∧ B = Some b ∧ b < a) as Hrev.
  { unfold A, B. setoid_rewrite bind_Some. naive_solver. }
  assert (¬ ∃ x, (aq_created_after q = Some x ∨ aq_created_before q = Some x) ∧ Date_parse x = None) as Hread.
  { intros (x & [Hx|Hx] & Hn); [destruct (Ha x Hx)|destruct (Hb x Hx)]; congruence. }
  rewrite Hrev. set (bad := match A with Some a => _ | None => false end).
  assert (bad = true ↔ ∃ a b, A = Some a ∧ B = Some b ∧ b < a) as Hbad.
  { unfold bad. destruct A as [a|], B as [b|]; try (split; [done|naive_solver]). rewrite Z.ltb_lt. naive_solver. }
  destruct bad; cbn [throw_if mbind result_bind].
  { split; [intros _; by eexists|]. intros Hno. destruct Hno. right. by apply Hbad. }
  split; [intros [?|?]; [done|by apply Hbad in H]|]. intros _. eexists. split; [done|]. intros row.
  unfold where_log. cbn [aw_userId aw_action aw_resourceType aw_resourceId aw_gte aw_lte]. rewrite !andb_true_iff, !asked_true.
  unfold A, B. split.
  - intros (((((H1 & H2) & H3) & H4) & H5) & H6). split; intros.
    1-4: eapply bool_decide_eq_true_1; eauto.
    + apply Z.leb_le, H5, bind_Some. eauto.
    + apply Z.leb_le, H6, bind_Some. eauto.
  - intros [S1 S2 S3 S4 S5 S6]. split_and!; intros ? Hx; try (apply bool_decide_eq_true_2; auto).
    + apply bind_Some in Hx as (x & Hx & Hp). apply Z.leb_le. eauto.
    + apply bind_Some in Hx as (x & Hx & Hp). apply Z.leb_le. eauto.
Qed.

(** The audit log leaves nothing out and shows nothing else.  A time that is not
    one and a range that ends before it begins are refused, never answered with an
    empty page; for any other question, walking from page to page shows, newest
    first, every row of the organization that the question asks for, each as it
    was written, both ends of the range included, and no row of anybody else. *)
Theorem audit_pages (Date_parse : jsstr → option Z) (newest_first : list LogRow → list LogRow) (c : Ctx)
    (Hnewest : ∀ l, newest_first l ≡ₚ l) (q : ListAuditLogsQuery) (rows : list LogRow) :
  (unreadable Date_parse q ∨ reversed Date_parse q → ∃ m, audit_list Date_parse newest_first c q rows = throw invalid_request m)
  ∧ (¬ (unreadable Date_parse q ∨ reversed Date_parse q) → ∃ all,
       (∀ row, row ∈ all ↔ row ∈ rows ∧ AuditLog.organizationId (lr_log row) = ctx_org c ∧ asks Date_parse q row)
       ∧ audit_list Date_parse newest_first c q rows
         = Ok (map toAuditLogDto (take (Z.to_nat (pageSize (aq_limit q))) (drop (Z.to_nat (default 0 (offset (aq_offset q)))) all)),
               bool_decide (Z.to_nat (default 0%Z (offset (aq_offset q))) + Z.to_nat (pageSize (aq_limit q)) < length all)%nat,
               p_nextSkip (findPage all (aq_limit q) (aq_offset q)))
       ∧ walk all (S (length all)) (aq_limit q) 0 = all).
Proof.
  destruct (audit_filter_spec Date_parse q) as [Hbad Hok]. unfold audit_list. split.
  { intros Hq. destruct (Hbad Hq) as (m & ->). by exists m. }
  intros Hq. destruct (Hok Hq) as (w & -> & Hw). cbn [mbind result_bind].
  set (all := newest_first _). exists all. split_and!.
  - intros row. unfold all. rewrite Hnewest, list_elem_of_filter, andb_true_iff, Hw. unfold own_log.
    rewrite bool_decide_eq_true. tauto.
  - destruct (findPage_facts all (aq_limit q) (aq_offset q)) as (-> & Hm & _). do 3 f_equal.
    case_bool_decide as Hx; [by apply Hm|]. destruct (p_hasMore _); [|done]. by destruct Hx; apply Hm.
  - apply walk_complete; [done|cbn; lia].
Qed.

(** Two rows of one organization and one of another. *)
Definition log_row (id org action : string) (at_ : Z) : LogRow :=
  MkLogRow id (AuditLog.mk org (Some "u1") action "endpoint" None None) None None None at_.
Definition some_log : list LogRow :=
  [log_row "a1" "o1" "endpoint.created" 5; log_row "a2" "o2" "endpoint.created" 6; log_row "a3" "o1" "endpoint.created" 9].
Definition created_by_nine : ListAuditLogsQuery := MkListAudit None (Some "endpoint.created") (Some "") None None (Some (js "nine")) None None.
Definition latest_log_first : list LogRow → list LogRow := sort_by (λ a b, lr_createdAt b <=? lr_createdAt a).

Lemma audit_pages_witness :
  ∃ data next, audit_list (λ _, Some 9) latest_log_first (MkCtx "o1" None "m1" owner "u1") created_by_nine some_log
               = Ok (data, false, next)
    ∧ map al_id data = ["a3"; "a1"].
Proof.
  destruct (proj2 (audit_pages (λ _, Some 9) latest_log_first (MkCtx "o1" None "m1" owner "u1") (sort_by_perm _) created_by_nine some_log))
    as (all & _ & E & _).
  { intros [(x & _ & Hx)|(x & y & a & b & Hx & _)]; discriminate. }
  assert (match audit_list (λ _, Some 9) latest_log_first (MkCtx "o1" None "m1" owner "u1") created_by_nine some_log with
          | Ok (data, more, _) => (map al_id data, more) | _ => ([], true) end = (["a3"; "a1"], false)) as H by (vm_compute; reflexivity).
  rewrite E in H. apply pair_equal_spec in H as [H1 H2]. do 2 eexists. split; [rewrite E, H2; reflexivity|exact H1].
Defined.
