(* ===== verification/Routes.v ===== *)
(** The HTTP surface: the routes the controllers of control-api declare, the
    guards their decorators mount, and the boot assertion of
    authz/authz.module.ts.

    A request is a method, the segments of its path, a session cookie and what
    the throttle reads.  How the router compares a literal segment is the
    router's ([fold], Express folds letter case); a parameter binds any segment
    that is not empty.  A route's guards run in the order the decorators mount
    them, over the sessions, the throttle store and the tenant graph. *)
From Stdlib Require Import ZArith Lia Ascii.
From S2P Require Import Prelude Js Permissions RetryRules AuditTrail Db Sessions Scope Members Resolver Throttle.

Inductive Method : Type := GET | POST | PATCH | DELETE.
#[export] Instance Method_eq_dec : EqDecision Method.
Proof. solve_decision. Defined.

(** ** Paths *)

Inductive Segment : Type := Lit (s : string) | Param (name : string).

(** The pieces of a path between its slashes. *)
Fixpoint split_slash (s : string) : list string :=
  match s with
  | EmptyString => [EmptyString]
  | String c s =>
      if bool_decide (c = "/"%char) then EmptyString :: split_slash s
      else match split_slash s with
           | [] => [String c EmptyString]
           | w :: ws => String c w :: ws
           end
  end.

Definition segment (w : string) : Segment :=
  match w with
  | String ":" name => Param name
  | _ => Lit w
  end.

(** Empty pieces come from the slashes at the ends. *)
Definition segments (path : string) : list Segment :=
  segment <$> filter (λ w, w ≠ EmptyString) (split_slash path).

Definition GLOBAL_PREFIX : string := "v1".
Definition GLOBAL_PREFIX_EXCLUDE : list string := ["health/live"; "health/ready"].

(** ** Decorators *)

Inductive Guard : Type := ThrottleGuard | SessionGuard | TenantGuard | UserScopeGuard.
#[export] Instance Guard_eq_dec : EqDecision Guard.
Proof. solve_decision. Defined.

(** What a handler and its class declare: the guards in order, and the metadata
    the guards read. *)
Record Decorators : Type := MkDecorators {
  guards : list Guard;
  permissions_metadata : option (list Permission);
  tenant_spec_metadata : option TenantSpec
}.

Definition Open : Decorators := MkDecorators [] None None.
Definition UseGuards (gs : list Guard) (d : Decorators) : Decorators :=
  MkDecorators (gs ++ guards d) (permissions_metadata d) (tenant_spec_metadata d).
Definition RequirePermission (ps : list Permission) (d : Decorators) : Decorators :=
  MkDecorators (guards d) (Some ps) (tenant_spec_metadata d).
Definition ResolveTenantFrom (kind : TenantAnchorKind) (param : string) (d : Decorators) : Decorators :=
  MkDecorators (guards d) (permissions_metadata d) (Some (from_anchor kind param)).

Definition Authorized (ps : list Permission) : Decorators :=
  UseGuards [SessionGuard; TenantGuard] (RequirePermission ps Open).
Definition UserScoped : Decorators := UseGuards [SessionGuard; UserScopeGuard] Open.
Definition WithSession : Decorators := UseGuards [SessionGuard] Open.
(** The class mounts the throttle before what the handler mounts. *)
Definition Throttled : Decorators → Decorators := UseGuards [ThrottleGuard].

Record Route : Type := MkRoute {
  r_method : Method;
  r_base : string;                        (** of [@Controller] *)
  r_handler : string;                     (** of [@Get] and the others *)
  r_decorators : Decorators;
  r_throttle : option ThrottleOptions;
  r_status : Z;
  r_calls : string                        (** the service method the handler calls *)
}.

Definition r_path (r : Route) : list Segment :=
  let path := (r_base r +:+ "/" +:+ r_handler r)%string in
  if bool_decide (path ∈ GLOBAL_PREFIX_EXCLUDE) then segments path
  else Lit GLOBAL_PREFIX :: segments path.

(** ** The table *)

Definition route_analytics_deliveries : Route :=
  MkRoute GET "projects/:projectId/analytics" "deliveries"
    (Throttled (Authorized [deliveries_read]))
    (Some (MkOptions "analytics.deliveries" 120 300000 None None)) 200 "analytics.deliveryOutcomes".
Definition route_analytics_deliverySeries : Route :=
  MkRoute GET "projects/:projectId/analytics" "deliveries/series"
    (Throttled (Authorized [deliveries_read]))
    (Some (MkOptions "analytics.deliveries.series" 60 300000 None None)) 200 "analytics.deliverySeries".
Definition route_analytics_endpoints : Route :=
  MkRoute GET "projects/:projectId/analytics" "endpoints"
    (Throttled (Authorized [deliveries_read]))
    (Some (MkOptions "analytics.endpoints" 120 300000 None None)) 200 "analytics.failingEndpoints".
Definition route_analytics_latency : Route :=
  MkRoute GET "projects/:projectId/analytics" "latency"
    (Throttled (Authorized [deliveries_read]))
    (Some (MkOptions "analytics.latency" 60 300000 None None)) 200 "analytics.attemptLatency".
Definition route_analytics_events : Route :=
  MkRoute GET "projects/:projectId/analytics" "events"
    (Throttled (Authorized [events_read]))
    (Some (MkOptions "analytics.events" 120 300000 None None)) 200 "analytics.eventVolume".
Definition route_api_keys_list : Route :=
  MkRoute GET "projects/:projectId/api-keys" ""
    (Throttled (Authorized [api_keys_read]))
    None 200 "apiKeys.list".
Definition route_api_keys_create : Route :=
  MkRoute POST "projects/:projectId/api-keys" ""
    (Throttled (Authorized [api_keys_write]))
    (Some (MkOptions "api-keys.create" 10 60000 None None)) 201 "apiKeys.create".
Definition route_api_keys_revoke : Route :=
  MkRoute POST "projects/:projectId/api-keys" ":apiKeyId/revoke"
    (Throttled (Authorized [api_keys_write]))
    (Some (MkOptions "api-keys.revoke" 60 60000 None None)) 200 "apiKeys.revoke".
Definition route_audit_logs_list : Route :=
  MkRoute GET "organizations/:orgId/audit-logs" ""
    (Throttled (Authorized [audit_read]))
    (Some (MkOptions "audit.list" 120 300000 None None)) 200 "auditLogs.list".
Definition route_audit_logs_get : Route :=
  MkRoute GET "organizations/:orgId/audit-logs" ":auditLogId"
    (Throttled (Authorized [audit_read]))
    (Some (MkOptions "audit.get" 300 300000 None None)) 200 "auditLogs.get".
Definition route_auth_register : Route :=
  MkRoute POST "auth" "register"
    (Throttled Open)
    (Some (MkOptions "auth.register" 5 3600000 (Some "email") None)) 202 "auth.register".
Definition route_auth_login : Route :=
  MkRoute POST "auth" "login"
    (Throttled Open)
    (Some (MkOptions "auth.login" 10 900000 (Some "email") None)) 200 "auth.login".
Definition route_auth_logout : Route :=
  MkRoute POST "auth" "logout"
    (Throttled Open)
    None 200 "auth.logout".
Definition route_auth_verifyEmail : Route :=
  MkRoute POST "auth" "verify-email"
    (Throttled Open)
    (Some (MkOptions "auth.verify" 20 3600000 None (Some false))) 200 "auth.verifyEmail".
Definition route_auth_resendVerification : Route :=
  MkRoute POST "auth" "resend-verification"
    (Throttled Open)
    (Some (MkOptions "auth.resend" 5 3600000 (Some "email") None)) 202 "auth.resendVerification".
Definition route_auth_forgotPassword : Route :=
  MkRoute POST "auth" "forgot-password"
    (Throttled Open)
    (Some (MkOptions "auth.forgot" 5 3600000 (Some "email") None)) 202 "auth.forgotPassword".
Definition route_auth_resetPassword : Route :=
  MkRoute POST "auth" "reset-password"
    (Throttled Open)
    (Some (MkOptions "auth.reset" 10 3600000 None (Some false))) 200 "auth.resetPassword".
Definition route_auth_completeOnboarding : Route :=
  MkRoute POST "auth" "onboarding-completed"
    (Throttled WithSession)
    (Some (MkOptions "auth.onboarding" 30 3600000 None None)) 204 "auth.completeOnboarding".
Definition route_auth_session : Route :=
  MkRoute GET "auth" "session"
    (Throttled WithSession)
    None 200 "auth.currentUser".
Definition route_billing_summary : Route :=
  MkRoute GET "organizations/:orgId/billing" ""
    (Throttled (Authorized [billing_read]))
    (Some (MkOptions "billing.read" 60 300000 None None)) 200 "billing.summary".
Definition route_deliveries_list : Route :=
  MkRoute GET "projects/:projectId/deliveries" ""
    (Throttled (Authorized [deliveries_read]))
    None 200 "deliveries.list".
Definition route_deliveries_get : Route :=
  MkRoute GET "projects/:projectId/deliveries" ":deliveryId"
    (Throttled (Authorized [deliveries_read]))
    None 200 "deliveries.get".
Definition route_deliveries_attempts : Route :=
  MkRoute GET "projects/:projectId/deliveries" ":deliveryId/attempts"
    (Throttled (Authorized [deliveries_read]))
    None 200 "deliveries.listAttempts".
Definition route_deliveries_replay : Route :=
  MkRoute POST "projects/:projectId/deliveries" ":deliveryId/replay"
    (Throttled (Authorized [deliveries_replay]))
    (Some (MkOptions "deliveries.replay" 30 300000 None None)) 201 "deliveries.replay".
Definition route_secrets_list : Route :=
  MkRoute GET "endpoints/:endpointId/secrets" ""
    (Throttled (ResolveTenantFrom anchor_endpoint "endpointId" (Authorized [endpoint_secrets_read])))
    None 200 "secrets.list".
Definition route_secrets_rotate : Route :=
  MkRoute POST "endpoints/:endpointId/secrets" "rotate"
    (Throttled (ResolveTenantFrom anchor_endpoint "endpointId" (Authorized [endpoint_secrets_write])))
    (Some (MkOptions "endpoint-secrets.rotate" 30 300000 None None)) 201 "secrets.rotate".
Definition route_secrets_revoke : Route :=
  MkRoute DELETE "endpoints/:endpointId/secrets" ":secretId"
    (Throttled (ResolveTenantFrom anchor_endpoint "endpointId" (Authorized [endpoint_secrets_write])))
    None 200 "secrets.revoke".
Definition route_endpoints_list : Route :=
  MkRoute GET "projects/:projectId/endpoints" ""
    (Throttled (Authorized [endpoints_read]))
    None 200 "endpoints.list".
Definition route_endpoints_create : Route :=
  MkRoute POST "projects/:projectId/endpoints" ""
    (Throttled (Authorized [endpoints_write]))
    (Some (MkOptions "endpoints.create" 60 300000 None None)) 201 "endpoints.create".
Definition route_endpoints_get : Route :=
  MkRoute GET "projects/:projectId/endpoints" ":endpointId"
    (Throttled (Authorized [endpoints_read]))
    None 200 "endpoints.get".
Definition route_endpoints_update : Route :=
  MkRoute PATCH "projects/:projectId/endpoints" ":endpointId"
    (Throttled (Authorized [endpoints_write]))
    None 200 "endpoints.update".
Definition route_endpoints_enable : Route :=
  MkRoute POST "projects/:projectId/endpoints" ":endpointId/enable"
    (Throttled (Authorized [endpoints_write]))
    None 200 "endpoints.enable".
Definition route_endpoints_disable : Route :=
  MkRoute POST "projects/:projectId/endpoints" ":endpointId/disable"
    (Throttled (Authorized [endpoints_write]))
    None 200 "endpoints.disable".
Definition route_endpoints_remove : Route :=
  MkRoute DELETE "projects/:projectId/endpoints" ":endpointId"
    (Throttled (Authorized [endpoints_write]))
    None 204 "endpoints.remove".
Definition route_events_list : Route :=
  MkRoute GET "projects/:projectId/events" ""
    (Throttled (Authorized [events_read]))
    None 200 "events.list".
Definition route_events_get : Route :=
  MkRoute GET "projects/:projectId/events" ":eventId"
    (Throttled (Authorized [events_read]))
    None 200 "events.get".
Definition route_events_deliveries : Route :=
  MkRoute GET "projects/:projectId/events" ":eventId/deliveries"
    (Throttled (Authorized [events_read; deliveries_read]))
    None 200 "events.listDeliveries".
Definition route_events_replay : Route :=
  MkRoute POST "projects/:projectId/events" ":eventId/replay"
    (Throttled (Authorized [events_replay; deliveries_replay]))
    (Some (MkOptions "events.replay" 10 300000 None None)) 201 "events.replay".
Definition route_health_live : Route :=
  MkRoute GET "health" "live"
    Open
    None 200 "live".
Definition route_health_ready : Route :=
  MkRoute GET "health" "ready"
    Open
    None 200 "prisma.$queryRaw".
Definition route_invitations_accept : Route :=
  MkRoute POST "invitations" "accept"
    (Throttled UserScoped)
    (Some (MkOptions "invitations.accept" 20 3600000 None (Some false))) 200 "members.accept".
Definition route_members_list : Route :=
  MkRoute GET "organizations/:orgId/members" ""
    (Throttled (Authorized [members_read]))
    None 200 "members.list".
Definition route_members_invite : Route :=
  MkRoute POST "organizations/:orgId/members" ""
    (Throttled (Authorized [members_write]))
    (Some (MkOptions "members.invite" 20 3600000 (Some "email") None)) 202 "members.invite".
Definition route_members_changeRole : Route :=
  MkRoute PATCH "organizations/:orgId/members" ":memberId"
    (Throttled (Authorized [members_write]))
    None 200 "members.changeRole".
Definition route_members_remove : Route :=
  MkRoute DELETE "organizations/:orgId/members" ":memberId"
    (Throttled (Authorized [members_write]))
    None 204 "members.remove".
Definition route_notification_destinations_list : Route :=
  MkRoute GET "projects/:projectId/notification-destinations" ""
    (Throttled (Authorized [notifications_read]))
    None 200 "destinations.list".
Definition route_notification_destinations_create : Route :=
  MkRoute POST "projects/:projectId/notification-destinations" ""
    (Throttled (Authorized [notifications_write]))
    (Some (MkOptions "notifications.create" 10 600000 None None)) 201 "destinations.create".
Definition route_notification_destinations_update : Route :=
  MkRoute PATCH "projects/:projectId/notification-destinations" ":destinationId"
    (Throttled (Authorized [notifications_write]))
    None 200 "destinations.update".
Definition route_notification_destinations_remove : Route :=
  MkRoute DELETE "projects/:projectId/notification-destinations" ":destinationId"
    (Throttled (Authorized [notifications_write]))
    None 204 "destinations.remove".
Definition route_notification_destinations_resend : Route :=
  MkRoute POST "projects/:projectId/notification-destinations" ":destinationId/resend"
    (Throttled (Authorized [notifications_write]))
    (Some (MkOptions "notifications.resend" 5 600000 None None)) 201 "destinations.resend".
Definition route_notification_destinations_test : Route :=
  MkRoute POST "projects/:projectId/notification-destinations" ":destinationId/test"
    (Throttled (Authorized [notifications_write]))
    (Some (MkOptions "notifications.test" 5 600000 None None)) 204 "destinations.test".
Definition route_confirmation_confirm : Route :=
  MkRoute POST "notification-destinations" "confirm"
    (Throttled Open)
    (Some (MkOptions "notifications.confirm" 10 600000 None None)) 201 "confirmations.confirm".
Definition route_organizations_list : Route :=
  MkRoute GET "organizations" ""
    (Throttled UserScoped)
    None 200 "organizations.list".
Definition route_organizations_create : Route :=
  MkRoute POST "organizations" ""
    (Throttled UserScoped)
    (Some (MkOptions "organizations.create" 10 3600000 None None)) 201 "organizations.create".
Definition route_organizations_get : Route :=
  MkRoute GET "organizations" ":orgId"
    (Throttled (Authorized [projects_read]))
    None 200 "organizations.get".
Definition route_organizations_update : Route :=
  MkRoute PATCH "organizations" ":orgId"
    (Throttled (Authorized [projects_write]))
    None 200 "organizations.update".
Definition route_organizations_remove : Route :=
  MkRoute DELETE "organizations" ":orgId"
    (Throttled (Authorized [projects_write]))
    None 204 "organizations.remove".
Definition route_outbox_list : Route :=
  MkRoute GET "projects/:projectId/outbox" ""
    (Throttled (Authorized [events_read]))
    None 200 "outbox.list".
Definition route_outbox_requeueParked : Route :=
  MkRoute POST "projects/:projectId/outbox" "requeue"
    (Throttled (Authorized [events_replay; deliveries_replay]))
    (Some (MkOptions "outbox.requeue" 10 300000 None None)) 200 "outbox.requeueParked".
Definition route_outbox_get : Route :=
  MkRoute GET "projects/:projectId/outbox" ":outboxId"
    (Throttled (Authorized [events_read]))
    None 200 "outbox.get".
Definition route_outbox_requeue : Route :=
  MkRoute POST "projects/:projectId/outbox" ":outboxId/requeue"
    (Throttled (Authorized [events_replay; deliveries_replay]))
    (Some (MkOptions "outbox.requeue" 10 300000 None None)) 200 "outbox.requeue".
Definition route_projects_list : Route :=
  MkRoute GET "organizations/:orgId/projects" ""
    (Throttled (Authorized [projects_read]))
    None 200 "projects.list".
Definition route_projects_create : Route :=
  MkRoute POST "organizations/:orgId/projects" ""
    (Throttled (Authorized [projects_write]))
    (Some (MkOptions "projects.create" 20 60000 None None)) 201 "projects.create".
Definition route_projects_get : Route :=
  MkRoute GET "organizations/:orgId/projects" ":projectId"
    (Throttled (Authorized [projects_read]))
    None 200 "projects.get".
Definition route_projects_update : Route :=
  MkRoute PATCH "organizations/:orgId/projects" ":projectId"
    (Throttled (Authorized [projects_write]))
    None 200 "projects.update".
Definition route_projects_remove : Route :=
  MkRoute DELETE "organizations/:orgId/projects" ":projectId"
    (Throttled (Authorized [projects_write]))
    None 200 "projects.remove".
Definition route_rate_limits_list : Route :=
  MkRoute GET "projects/:projectId/rate-limits" ""
    (Throttled (Authorized [policies_read]))
    None 200 "rateLimits.list".
Definition route_rate_limits_create : Route :=
  MkRoute POST "projects/:projectId/rate-limits" ""
    (Throttled (Authorized [policies_write]))
    (Some (MkOptions "rate-limits.write" 60 300000 None None)) 201 "rateLimits.create".
Definition route_rate_limits_get : Route :=
  MkRoute GET "projects/:projectId/rate-limits" ":policyId"
    (Throttled (Authorized [policies_read]))
    None 200 "rateLimits.get".
Definition route_rate_limits_update : Route :=
  MkRoute PATCH "projects/:projectId/rate-limits" ":policyId"
    (Throttled (Authorized [policies_write]))
    (Some (MkOptions "rate-limits.write" 60 300000 None None)) 200 "rateLimits.update".
Definition route_rate_limits_remove : Route :=
  MkRoute DELETE "projects/:projectId/rate-limits" ":policyId"
    (Throttled (Authorized [policies_write]))
    (Some (MkOptions "rate-limits.write" 60 300000 None None)) 204 "rateLimits.remove".
Definition route_retry_policies_list : Route :=
  MkRoute GET "projects/:projectId/retry-policies" ""
    (Throttled (Authorized [policies_read]))
    None 200 "policies.list".
Definition route_retry_policies_create : Route :=
  MkRoute POST "projects/:projectId/retry-policies" ""
    (Throttled (Authorized [policies_write]))
    (Some (MkOptions "retry-policies.write" 60 300000 None None)) 201 "policies.create".
Definition route_retry_policies_get : Route :=
  MkRoute GET "projects/:projectId/retry-policies" ":policyId"
    (Throttled (Authorized [policies_read]))
    None 200 "policies.get".
Definition route_retry_policies_update : Route :=
  MkRoute PATCH "projects/:projectId/retry-policies" ":policyId"
    (Throttled (Authorized [policies_write]))
    (Some (MkOptions "retry-policies.write" 60 300000 None None)) 200 "policies.update".
Definition route_retry_policies_setDefault : Route :=
  MkRoute POST "projects/:projectId/retry-policies" ":policyId/default"
    (Throttled (Authorized [policies_write]))
    (Some (MkOptions "retry-policies.write" 60 300000 None None)) 200 "policies.setDefault".
Definition route_retry_policies_remove : Route :=
  MkRoute DELETE "projects/:projectId/retry-policies" ":policyId"
    (Throttled (Authorized [policies_write]))
    (Some (MkOptions "retry-policies.write" 60 300000 None None)) 204 "policies.remove".
Definition route_subscriptions_list : Route :=
  MkRoute GET "projects/:projectId/subscriptions" ""
    (Throttled (Authorized [subscriptions_read]))
    None 200 "subscriptions.list".
Definition route_subscriptions_create : Route :=
  MkRoute POST "projects/:projectId/subscriptions" ""
    (Throttled (Authorized [subscriptions_write]))
    (Some (MkOptions "subscriptions.create" 30 60000 None None)) 201 "subscriptions.create".
Definition route_subscriptions_get : Route :=
  MkRoute GET "projects/:projectId/subscriptions" ":subscriptionId"
    (Throttled (Authorized [subscriptions_read]))
    None 200 "subscriptions.get".
Definition route_subscriptions_update : Route :=
  MkRoute PATCH "projects/:projectId/subscriptions" ":subscriptionId"
    (Throttled (Authorized [subscriptions_write]))
    (Some (MkOptions "subscriptions.mutate" 120 60000 None None)) 200 "subscriptions.update".
Definition route_subscriptions_enable : Route :=
  MkRoute POST "projects/:projectId/subscriptions" ":subscriptionId/enable"
    (Throttled (Authorized [subscriptions_write]))
    (Some (MkOptions "subscriptions.mutate" 120 60000 None None)) 200 "subscriptions.enable".
Definition route_subscriptions_disable : Route :=
  MkRoute POST "projects/:projectId/subscriptions" ":subscriptionId/disable"
    (Throttled (Authorized [subscriptions_write]))
    (Some (MkOptions "subscriptions.mutate" 120 60000 None None)) 200 "subscriptions.disable".
Definition route_subscriptions_remove : Route :=
  MkRoute DELETE "projects/:projectId/subscriptions" ":subscriptionId"
    (Throttled (Authorized [subscriptions_write]))
    (Some (MkOptions "subscriptions.mutate" 120 60000 None None)) 204 "subscriptions.remove".

Definition ROUTES : list Route :=
  [route_analytics_deliveries; route_analytics_deliverySeries; route_analytics_endpoints;
   route_analytics_latency; route_analytics_events; route_api_keys_list; route_api_keys_create;
   route_api_keys_revoke; route_audit_logs_list; route_audit_logs_get; route_auth_register;
   route_auth_login; route_auth_logout; route_auth_verifyEmail; route_auth_resendVerification;
   route_auth_forgotPassword; route_auth_resetPassword; route_auth_completeOnboarding;
   route_auth_session; route_billing_summary; route_deliveries_list; route_deliveries_get;
   route_deliveries_attempts; route_deliveries_replay; route_secrets_list; route_secrets_rotate;
   route_secrets_revoke; route_endpoints_list; route_endpoints_create; route_endpoints_get;
   route_endpoints_update; route_endpoints_enable; route_endpoints_disable; route_endpoints_remove;
   route_events_list; route_events_get; route_events_deliveries; route_events_replay;
   route_health_live; route_health_ready; route_invitations_accept; route_members_list;
   route_members_invite; route_members_changeRole; route_members_remove;
   route_notification_destinations_list; route_notification_destinations_create;
   route_notification_destinations_update; route_notification_destinations_remove;
   route_notification_destinations_resend; route_notification_destinations_test;
   route_confirmation_confirm; route_organizations_list; route_organizations_create;
   route_organizations_get; route_organizations_update; route_organizations_remove; route_outbox_list;
   route_outbox_requeueParked; route_outbox_get; route_outbox_requeue; route_projects_list;
   route_projects_create; route_projects_get; route_projects_update; route_projects_remove;
   route_rate_limits_list; route_rate_limits_create; route_rate_limits_get; route_rate_limits_update;
   route_rate_limits_remove; route_retry_policies_list; route_retry_policies_create;
   route_retry_policies_get; route_retry_policies_update; route_retry_policies_setDefault;
   route_retry_policies_remove; route_subscriptions_list; route_subscriptions_create;
   route_subscriptions_get; route_subscriptions_update; route_subscriptions_enable;
   route_subscriptions_disable; route_subscriptions_remove].

(** ** The boot assertion *)

Definition declares (r : Route) : bool :=
  bool_decide (permissions_metadata (r_decorators r) ≠ None)
  || bool_decide (tenant_spec_metadata (r_decorators r) ≠ None).
Definition hasTenantGuard (r : Route) : bool := bool_decide (TenantGuard ∈ guards (r_decorators r)).

Definition findUnguardedRoutes (routes : list Route) : list Route :=
  filter (λ r, (declares r && negb (hasTenantGuard r)) = true) routes.

Definition assertRoutesAreGuarded (routes : list Route) : result unit :=
  throw_if (negb (bool_decide (findUnguardedRoutes routes = []))) internal_error
    "Authorization metadata without an enforcing guard".

(** ** Dispatch *)

Section Router.
  Context (fold : string → string).

(** The parameters a path binds, the first segment first. *)
Fixpoint match_path (pattern : list Segment) (path : list string) : option (list (string * string)) :=
  match pattern, path with
  | [], [] => Some []
  | Lit l :: pattern, s :: path =>
      if bool_decide (fold s = fold l) then match_path pattern path else None
  | Param n :: pattern, s :: path =>
      if bool_decide (s = EmptyString) then None
      else bound ← match_path pattern path; Some ((n, s) :: bound)
  | _, _ => None
  end.

Definition params_of (bound : list (string * string)) : Params :=
  λ n, snd <$> head (filter (λ kv, kv.1 = n) bound).

Definition route_matches (r : Route) (m : Method) (path : list string) : option Params :=
  if bool_decide (r_method r = m) then params_of <$> match_path (r_path r) path else None.
End Router.

(** What the guards leave on the request. *)
Record TenantRequest : Type := MkTenantRequest {
  sessionUser : option SessionUser;
  tenantContext : option Resolved;
  userPrincipal : option string
}.
Definition new_request : TenantRequest := MkTenantRequest None None None.

Section Pipeline.
  Context {S : Type} `{ThrottleStore S} (fingerprint : jsstr → string)
          (verifyJwt : jsstr → Z → option SessionClaims).
  Context (db : Db) (now : Z) (cookie : option jsstr) (body : Request) (params : Params) (r : Route).

(** [canActivate] of one guard. *)
Definition run_guard (g : Guard) (q : TenantRequest) (s : S) : result TenantRequest * S :=
  match g with
  | ThrottleGuard =>
      let '(verdict, s) := throttle fingerprint (r_throttle r) body now s in
      (match verdict with
       | inl _ => Ok q
       | inr _ => throw rate_limited "Too many attempts. Try again shortly."
       end, s)
  | SessionGuard =>
      ((user ← (session_guard verifyJwt cookie now db).1;
        Ok (MkTenantRequest (Some user) (tenantContext q) (userPrincipal q))), s)
  | TenantGuard =>
      ((ctx ← canActivate db (su_userId <$> sessionUser q) params
                (default from_params (tenant_spec_metadata (r_decorators r)))
                (default [] (permissions_metadata (r_decorators r)));
        Ok (MkTenantRequest (sessionUser q) (Some ctx) (userPrincipal q))), s)
  | UserScopeGuard =>
      (match su_userId <$> sessionUser q with
       | Some (String _ _ as userId) => Ok (MkTenantRequest (sessionUser q) (tenantContext q) (Some userId))
       | _ => throw unauthenticated "Authentication required."
       end, s)
  end.

(** The first guard that refuses is the answer; the handler runs when none does. *)
Fixpoint run_guards (gs : list Guard) (q : TenantRequest) (s : S) : result TenantRequest * S :=
  match gs with
  | [] => (Ok q, s)
  | g :: gs =>
      let '(x, s) := run_guard g q s in
      match x with
      | Ok q => run_guards gs q s
      | Throw e => (Throw e, s)
      end
  end.

Definition enter (s : S) : result TenantRequest * S := run_guards (guards (r_decorators r)) new_request s.
End Pipeline.

(** ** What the guards establish *)

Section Guards.
  Context {S : Type} `{ThrottleStore S} (fingerprint : jsstr → string)
          (verifyJwt : jsstr → Z → option SessionClaims).
  Context (db : Db) (now : Z) (cookie : option jsstr) (body : Request) (params : Params) (r : Route).
  Local Notation session := (session_guard verifyJwt cookie now db).1.
  Local Notation tenant_check user :=
    (canActivate db (Some (su_userId user)) params
       (default from_params (tenant_spec_metadata (r_decorators r)))
       (default [] (permissions_metadata (r_decorators r)))).
  Local Notation step := (run_guard fingerprint verifyJwt db now cookie body params r).
  Local Notation run := (run_guards fingerprint verifyJwt db now cookie body params r).

(** What a request carries came from the guards that write it. *)
Definition authentic (q : TenantRequest) : Prop :=
  (∀ user, sessionUser q = Some user → session = Ok user)
  ∧ (∀ ctx, tenantContext q = Some ctx → ∃ user, session = Ok user ∧ tenant_check user = Ok ctx).

Lemma run_guard_Ok g q s q' s' :
  step g q s = (Ok q', s') → authentic q →
  authentic q' ∧ (is_Some (tenantContext q) ∨ g = TenantGuard → is_Some (tenantContext q')).
Proof.
  intros Hg [Hs Ht]. destruct g; cbn in Hg.
  - destruct (throttle _ _ _ _ _) as [[|] s1]; [|done]. injection Hg as <- <-.
    split; [done|]. by intros [|].
  - destruct session as [user|] eqn:E; [|done]. cbn in Hg. injection Hg as <- <-.
    split; [|by intros [|]]. split; cbn; rewrite E; [by intros u [= <-]|exact Ht].
  - destruct (sessionUser q) as [user|] eqn:Eu; [|done]. cbn [fmap option_fmap option_map] in Hg.
    apply pair_equal_spec in Hg as [Hg _]. apply bind_Ok in Hg as (ctx & Hc & [= <-]).
    split; [|done]. split; cbn; [intros u E; apply Hs; congruence|].
    intros c [= <-]. exists user. auto.
  - destruct (sessionUser q) as [user|] eqn:Eu; [|done]. cbn [fmap option_fmap option_map] in Hg.
    destruct (su_userId user); [done|]. injection Hg as <- <-. split; [|by intros [|]].
    split; cbn; [intros u E; apply Hs; congruence|exact Ht].
Qed.

Lemma run_guards_Ok gs : ∀ q s q' s',
  run gs q s = (Ok q', s') → authentic q →
  authentic q' ∧ (is_Some (tenantContext q) ∨ TenantGuard ∈ gs → is_Some (tenantContext q')).
Proof.
  induction gs as [|g gs IH]; intros q s q' s' Hr Hq; cbn [run_guards] in Hr.
  - injection Hr as <- <-. split; [done|]. intros [|Hin]; [done|]. by apply not_elem_of_nil in Hin.
  - destruct (step g q s) as [[q1|] s1] eqn:Eg; [|done].
    destruct (run_guard_Ok _ _ _ _ _ Eg Hq) as [Ha Hc].
    destruct (IH _ _ _ _ Hr Ha) as [Ha' Hc']. split; [done|]. intros Hin. apply Hc'.
    destruct Hin as [|Hin]; [eauto|]. apply elem_of_cons in Hin as [Hin|]; [|eauto].
    left. apply Hc. right. done.
Qed.

Lemma new_request_authentic : authentic new_request.
Proof. split; cbn; intros ? E; discriminate E. Qed.

(** An entered route that mounts the tenant guard has a context that passed it. *)
Lemma enter_tenant s q s' :
  enter fingerprint verifyJwt db now cookie body params r s = (Ok q, s') →
  hasTenantGuard r = true →
  ∃ user ctx, session = Ok user ∧ tenantContext q = Some ctx ∧ tenant_check user = Ok ctx.
Proof.
  intros He Hg%bool_decide_eq_true.
  destruct (run_guards_Ok _ _ _ _ _ He new_request_authentic) as [[_ Ht] Hc].
  destruct Hc as [ctx Hctx]; [by right|]. destruct (Ht ctx Hctx) as (user & Hu & Ha). eauto.
Qed.
End Guards.

Lemma guarded_of_assertion routes r :
  assertRoutesAreGuarded routes = Ok tt → r ∈ routes → declares r = true → hasTenantGuard r = true.
Proof.
  unfold assertRoutesAreGuarded. intros Ha Hr Hd. apply throw_if_Ok in Ha. bprop.
  destruct (hasTenantGuard r) eqn:E; [done|].
  assert (r ∈ findUnguardedRoutes routes) as Hx
    by (apply list_elem_of_filter; by rewrite Hd, E).
  rewrite Ha in Hx. by apply not_elem_of_nil in Hx.
Qed.

Lemma ROUTES_guarded : assertRoutesAreGuarded ROUTES = Ok tt.
Proof. vm_compute. reflexivity. Qed.

(** The boot assertion makes authorization metadata mean what it says.  In
    any set of routes that passes [assertRoutesAreGuarded], a handler that
    declares permissions or a tenant anchor is entered only for a live session,
    with the tenant context of that session's user resolved from the declared
    anchor, and with a role that grants every permission declared. *)
Theorem metadata_is_enforced {S} `{ThrottleStore S} (fingerprint : jsstr → string)
  (verifyJwt : jsstr → Z → option SessionClaims) (routes : list Route) (r : Route) (db : Db) (now : Z)
  (cookie : option jsstr) (body : Request) (params : Params) (s s' : S) (q : TenantRequest)
  (Hboot : assertRoutesAreGuarded routes = Ok tt) (Hr : r ∈ routes) (Hd : declares r = true)
  (He : enter fingerprint verifyJwt db now cookie body params r s = (Ok q, s')) :
  ∃ user ctx,
    (session_guard verifyJwt cookie now db).1 = Ok user
    ∧ tenantContext q = Some ctx
    ∧ resolve db (su_userId user) params (default from_params (tenant_spec_metadata (r_decorators r))) = Ok ctx
    ∧ ∀ ps p, permissions_metadata (r_decorators r) = Some ps → p ∈ ps →
        roleHasPermission (ctx_role (rc ctx)) p = true
        ∧ (rc_suspended ctx = true → isReadPermission p = true ∨ p = billing_write).
Proof.
  destruct (enter_tenant _ _ _ _ _ _ _ _ _ _ _ He (guarded_of_assertion _ _ Hboot Hr Hd))
    as (user & ctx & Hu & Ht & Hc).
  exists user, ctx. split; [done|]. split; [done|]. split; [by apply canActivate_Ok in Hc as [? _]|].
  intros ps p Hps Hp. rewrite Hps in Hc. by eapply required_granted.
Qed.

(** A permission that a read-only role lacks and a suspension takes away. *)
Definition demands_authority (r : Route) : bool :=
  existsb (λ p, negb (roleHasPermission viewer p) && negb (roleHasPermission billing p)
                && negb (isReadPermission p) && negb (bool_decide (p = billing_write)))
    (default [] (permissions_metadata (r_decorators r))).

Definition writes (r : Route) : bool := declares r && negb (bool_decide (r_method r = GET)).

Lemma writes_demand r : r ∈ ROUTES → writes r = true → demands_authority r = true.
Proof.
  intros Hr Hw. assert (forallb (λ r, negb (writes r) || demands_authority r) ROUTES = true) as Hf
    by (vm_compute; reflexivity).
  rewrite forallb_forall in Hf. specialize (Hf r ltac:(by apply list_elem_of_In)). by rewrite Hw in Hf.
Qed.


(** ** One route per request *)

(** Whether some path satisfies both patterns. *)
Fixpoint overlap (p q : list Segment) : bool :=
  match p, q with
  | [], [] => true
  | Lit a :: p, Lit b :: q => bool_decide (a = b) && overlap p q
  | _ :: p, _ :: q => overlap p q
  | _, _ => false
  end.

Definition collide (r1 r2 : Route) : bool :=
  bool_decide (r_method r1 = r_method r2) && overlap (r_path r1) (r_path r2).

Fixpoint no_collisions (rs : list Route) : bool :=
  match rs with
  | [] => true
  | r :: rs => forallb (λ r2, negb (collide r r2) && negb (collide r2 r)) rs && no_collisions rs
  end.

Lemma no_collisions_spec rs r1 r2 :
  no_collisions rs = true → r1 ∈ rs → r2 ∈ rs → collide r1 r2 = true → r1 = r2.
Proof.
  induction rs as [|r rs IH]; cbn; intros Hn H1 H2 Hc; [by apply not_elem_of_nil in H1|].
  apply andb_true_iff in Hn as [Hf Hn]. rewrite forallb_forall in Hf.
  assert (∀ x, x ∈ rs → collide r x = false ∧ collide x r = false) as Hx.
  { intros x Hin. specialize (Hf x ltac:(by apply list_elem_of_In)). by bprop. }
  apply elem_of_cons in H1 as [->|H1]; apply elem_of_cons in H2 as [->|H2]; [done| | |by apply IH].
  - destruct (Hx r2 H2); congruence.
  - destruct (Hx r1 H1); congruence.
Qed.

(** The literals a router compares. *)
Definition literals (rs : list Route) : list string :=
  omap (λ x, if x is Lit s then Some s else None) (rs ≫= r_path).

Lemma literal_of rs r l : r ∈ rs → Lit l ∈ r_path r → l ∈ literals rs.
Proof.
  intros Hr Hl. unfold literals. apply list_elem_of_omap. exists (Lit l). split; [|done].
  apply list_elem_of_bind. eauto.
Qed.

Lemma match_overlap fold (Q : string → Prop) :
  (∀ a b, Q a → Q b → fold a = fold b → a = b) →
  ∀ p q path b1 b2, (∀ l, Lit l ∈ p → Q l) → (∀ l, Lit l ∈ q → Q l) →
    match_path fold p path = Some b1 → match_path fold q path = Some b2 → overlap p q = true.
Proof.
  intros Hinj p. induction p as [|x p IH]; intros [|y q] path b1 b2 Hp Hq H1 H2; cbn in *.
  - done.
  - by destruct path; [|done]; destruct y.
  - by destruct path; [|done]; destruct x.
  - destruct path as [|s path]; [by destruct x|].
    assert (∀ l, Lit l ∈ p → Q l) as Hp' by (intros; apply Hp; by right).
    assert (∀ l, Lit l ∈ q → Q l) as Hq' by (intros; apply Hq; by right).
    assert ((∃ b, match_path fold p path = Some b) ∧ (∃ b, match_path fold q path = Some b)) as [[c1 E1] [c2 E2]].
    { split; [destruct x|destruct y]; case_bool_decide; try done; simplify_option_eq; eauto. }
    specialize (IH q path c1 c2 Hp' Hq' E1 E2). destruct x as [a|], y as [b|]; try done.
    repeat case_bool_decide; try done.
    assert (a = b) by (apply Hinj; [apply Hp; left|apply Hq; left|congruence]). done.
Qed.

(** No request is matched by two routes. *)
Lemma single_route fold r1 r2 m path p1 p2 :
  (∀ a b, a ∈ literals ROUTES → b ∈ literals ROUTES → fold a = fold b → a = b) →
  r1 ∈ ROUTES → r2 ∈ ROUTES → route_matches fold r1 m path = Some p1 → route_matches fold r2 m path = Some p2 → r1 = r2.
Proof.
  intros Hfold H1 H2 M1 M2. apply (no_collisions_spec ROUTES); [vm_compute; reflexivity|done|done|].
  unfold route_matches in M1, M2. repeat case_bool_decide; try done.
  destruct (match_path fold (r_path r1) path) as [b1|] eqn:E1; [|done].
  destruct (match_path fold (r_path r2) path) as [b2|] eqn:E2; [|done].
  unfold collide. rewrite bool_decide_eq_true_2 by congruence.
  eapply (match_overlap fold (λ l, l ∈ literals ROUTES)); eauto using literal_of.
Qed.

(** A request has one handler.  The router compares a literal up to a folding
    that keeps the program's own literals apart; then no method and path are
    matched by two of the declared routes, so which handler answers, and which
    guards and permissions apply, does not depend on the order of registration. *)
Theorem one_route_per_request (fold : string → string) (r1 r2 : Route) (m : Method) (path : list string)
  (p1 p2 : Params)
  (Hfold : ∀ a b, a ∈ literals ROUTES → b ∈ literals ROUTES → fold a = fold b → a = b)
  (H1 : r1 ∈ ROUTES) (H2 : r2 ∈ ROUTES)
  (M1 : route_matches fold r1 m path = Some p1) (M2 : route_matches fold r2 m path = Some p2) :
  r1 = r2.
Proof. exact (single_route fold r1 r2 m path p1 p2 Hfold H1 H2 M1 M2). Qed.

(** ** The tenant of a path *)

Lemma match_binds fold pattern : ∀ path bound n,
  match_path fold pattern path = Some bound → Param n ∈ pattern →
  ∃ v, params_of bound n = Some v ∧ v ≠ EmptyString.
Proof.
  induction pattern as [|x pattern IH]; intros path bound n Hm Hn; [by apply not_elem_of_nil in Hn|].
  cbn in Hm. destruct x as [l|k], path as [|s path]; try done; case_bool_decide as Hs; try done.
  - apply elem_of_cons in Hn as [|Hn]; [done|]. by eapply IH.
  - destruct (match_path fold pattern path) as [b|] eqn:E; [|done]. injection Hm as <-.
    unfold params_of. rewrite filter_cons. cbn. case_decide as Hk; [cbn; eauto|].
    apply elem_of_cons in Hn as [[= ->]|Hn]; [done|]. by apply (IH path b n E).
Qed.

(** A tenant route's path names the tenant its guard resolves. *)
Definition names_tenant (r : Route) : bool :=
  negb (declares r)
  || match tenant_spec_metadata (r_decorators r) with
     | Some (from_anchor _ p) => existsb (λ x, if x is Param n then String.eqb n p else false) (r_path r)
     | _ => existsb (λ x, if x is Param n then bool_decide (n ∈ ORGANIZATION_PARAMS ++ PROJECT_PARAMS) else false)
              (r_path r)
     end.

Lemma ROUTES_name_tenants r : r ∈ ROUTES → names_tenant r = true.
Proof.
  intros Hr. assert (forallb names_tenant ROUTES = true) as Hf by (vm_compute; reflexivity).
  rewrite forallb_forall in Hf. apply Hf. by apply list_elem_of_In.
Qed.

Lemma ROUTES_declare r : r ∈ ROUTES → hasTenantGuard r = true → declares r = true.
Proof.
  intros Hr Hg. assert (forallb (λ r, negb (hasTenantGuard r) || declares r) ROUTES = true) as Hf
    by (vm_compute; reflexivity).
  rewrite forallb_forall in Hf. specialize (Hf r ltac:(by apply list_elem_of_In)). by rewrite Hg in Hf.
Qed.

Lemma firstParam_Some (params : Params) names n v :
  n ∈ names → params n = Some v → v ≠ EmptyString → ∃ x, firstParam params names = Some x.
Proof.
  intros Hn Hp Hv. induction names as [|k names IH]; [by apply not_elem_of_nil in Hn|].
  cbn. apply elem_of_cons in Hn as [->|Hn].
  - rewrite Hp. destruct v; [done|eauto].
  - destruct (params k) as [[|]|]; eauto.
Qed.

Definition is_internal {A} (x : result A) : Prop := ∃ m, x = Throw (AppError internal_error m).

Lemma bind_not_internal {A B} (x : result A) (f : A → result B) :
  ¬ is_internal x → (∀ a, x = Ok a → ¬ is_internal (f a)) → ¬ is_internal (x ≫= f).
Proof. destruct x as [a|e]; cbn; [auto|]. intros H _ [m Hm]. apply H. exists m. congruence. Qed.

Ltac not_internal := intros [? Hinternal]; discriminate Hinternal.

Lemma resolve_not_internal db user params spec :
  relations_ok db →
  (∀ kind p, spec = from_anchor kind p → ∃ v, params p = Some v ∧ v ≠ EmptyString) →
  (spec = from_params → is_Some (firstParam params ORGANIZATION_PARAMS) ∨ is_Some (firstParam params PROJECT_PARAMS)) →
  ¬ is_internal (resolve db user params spec).
Proof.
  intros Hrel Ha Hp. unfold resolve.
  assert (∀ kind id, ¬ is_internal (coordinatesFromAnchor db kind id)) as Hc.
  { intros kind id. destruct (anchor_outcome db kind id Hrel) as [->|[co ->]]; not_internal. }
  apply bind_not_internal.
  { destruct spec as [|kind p].
    - destruct (firstParam params ORGANIZATION_PARAMS); [not_internal|].
      destruct (firstParam params PROJECT_PARAMS); [apply Hc|]. by destruct (Hp eq_refl) as [[]|[]].
    - destruct (Ha kind p eq_refl) as (v & Hv & Hne). unfold requiredParam. rewrite Hv.
      destruct v; [done|]. apply Hc. }
  intros co _. apply bind_not_internal; [destruct (contradicts _ _); not_internal|intros _ _].
  apply bind_not_internal; [destruct (contradicts _ _); not_internal|intros _ _].
  destruct (membership_of _ _ _) as [[i m]|]; [|not_internal].
  apply bind_not_internal; [unfold loadOrganization; repeat case_match; not_internal|intros o _].
  apply bind_not_internal; [|intros; not_internal].
  destruct (co_project co); [|not_internal].
  apply bind_not_internal; [unfold loadProject; repeat case_match; not_internal|intros; not_internal].
Qed.

Lemma canActivate_not_internal db user params spec required :
  ¬ is_internal (resolve db (default EmptyString user) params spec) →
  ¬ is_internal (canActivate db user params spec required).
Proof.
  intros H. destruct user as [user|]; cbn; [|not_internal].
  apply bind_not_internal; [done|]. intros c _. case_match; not_internal.
Qed.

Lemma session_guard_not_internal verifyJwt cookie now db :
  ¬ is_internal (session_guard verifyJwt cookie now db).1.
Proof.
  destruct cookie as [[|c cookie]|]; cbn; [not_internal| |not_internal].
  unfold mbind, M_bind. rewrite verify_run. repeat case_match; not_internal.
Qed.

(** What the guards of a route may ask for, given that its path matches. *)
Lemma guards_not_internal fold r m path params db user :
  relations_ok db → r ∈ ROUTES → route_matches fold r m path = Some params → declares r = true →
  ¬ is_internal (resolve db user params (default from_params (tenant_spec_metadata (r_decorators r)))).
Proof.
  intros Hrel Hr Hm Hd. unfold route_matches in Hm. case_bool_decide; [|done].
  destruct (match_path fold (r_path r) path) as [b|] eqn:Eb; [|done]. injection Hm as <-.
  pose proof (ROUTES_name_tenants r Hr) as Hn. unfold names_tenant in Hn. rewrite Hd in Hn.
  apply resolve_not_internal; [done| |].
  - intros kind p Hs. destruct (tenant_spec_metadata _) as [[|k q]|]; try done. cbn in Hs. injection Hs as -> ->.
    cbn in Hn. apply existsb_exists in Hn as ([l|n] & Hin & Hx); [done|]. apply String.eqb_eq in Hx as ->.
    eapply match_binds; [done|]. by apply list_elem_of_In.
  - intros Hs.
    assert (∃ n, Param n ∈ r_path r ∧ n ∈ ORGANIZATION_PARAMS ++ PROJECT_PARAMS) as (n & Hin & Ho).
    { destruct (tenant_spec_metadata _) as [[|k q]|]; try done; cbn in Hn;
        apply existsb_exists in Hn as ([l|n] & Hin & Hx); try done; bprop;
        exists n; (split; [by apply list_elem_of_In|done]). }
    destruct (match_binds _ _ _ _ _ Eb Hin) as (v & Hv & Hne).
    apply elem_of_app in Ho as [Ho|Ho]; [left|right]; eapply firstParam_Some; eauto.
Qed.

Lemma params_nonempty fold r m path params n v :
  route_matches fold r m path = Some params → params n = Some v → v ≠ EmptyString.
Proof.
  unfold route_matches. case_bool_decide; [|done]. generalize (r_path r) as pattern.
  intros pattern Hm Hv. destruct (match_path fold pattern path) as [b|] eqn:Eb; [|done]. injection Hm as <-.
  revert path b Eb Hv. induction pattern as [|[l|k] pattern IH]; intros [|s path] b Eb Hv; cbn in Eb; try done.
  - by injection Eb as <-.
  - case_bool_decide; [|done]. by eapply IH.
  - case_bool_decide; [done|]. destruct (match_path fold pattern path) as [b'|] eqn:E; [|done].
    injection Eb as <-. unfold params_of in Hv. rewrite filter_cons in Hv. cbn in Hv.
    case_decide; [cbn in Hv; congruence|]. by eapply (IH path b').
Qed.

Lemma names_the_tenant db user params spec ctx :
  resolve db user params spec = Ok ctx →
  (∀ n v, params n = Some v → v ≠ EmptyString) →
  (∀ o, params "orgId" = Some o → ctx_org (rc ctx) = o)
  ∧ (∀ p, params "projectId" = Some p → ctx_project (rc ctx) = Some p).
Proof.
  intros Hc Hne. destruct (resolve_Ok _ _ _ _ _ Hc) as (co & i & mm & o & _ & Ho & Hp & _ & _ & _ & -> & _).
  split.
  - intros x Hx. symmetry. apply Ho. cbn. rewrite Hx. by destruct x; [destruct (Hne _ _ Hx)|].
  - intros x Hx. apply Hp. cbn. rewrite Hx. by destruct x; [destruct (Hne _ _ Hx)|].
Qed.

Lemma enter_not_internal {S} `{ThrottleStore S} (fingerprint : jsstr → string)
  (verifyJwt : jsstr → Z → option SessionClaims) r db now cookie body params (s : S) :
  (∀ user, hasTenantGuard r = true →
     ¬ is_internal (resolve db user params (default from_params (tenant_spec_metadata (r_decorators r))))) →
  ¬ is_internal (enter fingerprint verifyJwt db now cookie body params r s).1.
Proof.
  intros Hres. unfold enter. generalize new_request as q. unfold hasTenantGuard in Hres.
  revert s. induction (guards (r_decorators r)) as [|g gs IH]; intros s q; [not_internal|].
  cbn [run_guards]. destruct (run_guard _ _ _ _ _ _ _ _ g q s) as [x s1] eqn:Eg.
  destruct x as [q1|e].
  - apply IH. intros user Hin. apply Hres. bprop. rewrite bool_decide_eq_true. by right.
  - cbn. intros [msg [= ->]]. destruct g; cbn in Eg.
    + destruct (throttle _ _ _ _ _) as [[|] ?]; discriminate Eg.
    + destruct (session_guard _ _ _ _).1 as [|e] eqn:E; [done|]. injection Eg as -> _.
      apply (session_guard_not_internal verifyJwt cookie now db). eexists; exact E.
    + apply pair_equal_spec in Eg as [Eg _].
      refine (bind_not_internal _ _ (canActivate_not_internal db _ params _ _ (Hres _ _)) _ (ex_intro _ msg Eg)).
      * by apply bool_decide_eq_true_2; left.
      * intros; not_internal.
    + destruct (su_userId <$> sessionUser q) as [[|]|]; discriminate Eg.
Qed.

(** C18. The tenant of a path.  Every declared route gives its guard what it
    resolves from: over related tables no request that matches a route is
    answered [internal_error] by its guards, and the context the handler gets is
    that of the organization and the project its path names. *)
Theorem tenant_of_the_path {S} `{ThrottleStore S} (fold : string → string) (fingerprint : jsstr → string)
  (verifyJwt : jsstr → Z → option SessionClaims) (r : Route) (m : Method) (path : list string)
  (params : Params) (db : Db) (now : Z) (cookie : option jsstr) (body : Request) (s : S)
  (Hrel : relations_ok db) (Hr : r ∈ ROUTES) (Hm : route_matches fold r m path = Some params) :
  let outcome := (enter fingerprint verifyJwt db now cookie body params r s).1 in
  ¬ is_internal outcome
  ∧ ∀ q, outcome = Ok q → declares r = true →
      ∃ ctx, tenantContext q = Some ctx
        ∧ (∀ o, params "orgId" = Some o → ctx_org (rc ctx) = o)
        ∧ (∀ p, params "projectId" = Some p → ctx_project (rc ctx) = Some p).
Proof.
  cbv zeta. split.
  - apply enter_not_internal. intros user Hg. eapply guards_not_internal; eauto.
    by apply (ROUTES_declare r Hr).
  - intros q Hq Hd.
    destruct (enter fingerprint verifyJwt db now cookie body params r s) as [x s'] eqn:He. cbn in Hq. subst x.
    destruct (enter_tenant _ _ _ _ _ _ _ _ _ _ _ He (guarded_of_assertion _ _ ROUTES_guarded Hr Hd))
      as (user & ctx & _ & Ht & Hc).
    exists ctx. split; [done|]. apply canActivate_Ok in Hc as [Hc _].
    apply (names_the_tenant _ _ _ _ _ Hc); intros n v; by eapply params_nonempty.
Qed.

(** ** A request *)

Definition rt_db : Db :=
  upd_sessions (λ _, {["s1" := Session.mk "u1" 1000 None None]})
    (upd_users (λ _, {["u1" := User.mk (js "carol@x.io") None (js "pw") (Some 1%Z) None None None]}) rs_db).
Definition rt_verify (token : jsstr) (t : Z) : option SessionClaims :=
  Some (MkClaims "u1" (js "carol@x.io") "s1").
Definition rt_body : Request := MkRequest (Some "203.0.113.7") None (λ _, None).
Definition rt_path : list string := ["v1"; "projects"; "p1"; "subscriptions"; "w1"].
Definition rt_params : Params := default (λ _, None) (route_matches id route_subscriptions_remove DELETE rt_path).
Definition rt_enter : result TenantRequest * InMemory :=
  enter (λ _, "") rt_verify rt_db 5 (Some (js "t")) rt_body rt_params route_subscriptions_remove new_store.

Lemma rt_matches : route_matches id route_subscriptions_remove DELETE rt_path = Some rt_params.
Proof. unfold rt_params. destruct (route_matches _ _ _ _) as [p|] eqn:E; [done|]. vm_compute in E. discriminate E. Qed.

Lemma rt_entered : ∃ q s, rt_enter = (Ok q, s).
Proof.
  assert (match rt_enter.1 with Ok _ => true | Throw _ => false end = true) as H by (vm_compute; reflexivity).
  destruct rt_enter as [[q|e] s]; [by exists q, s|done].
Qed.

Lemma rt_declared : route_subscriptions_remove ∈ ROUTES.
Proof. unfold ROUTES. repeat (try (apply list_elem_of_here); apply list_elem_of_further). Qed.

Lemma rt_relations : relations_ok rt_db.
Proof. destruct rs_relations. split; assumption. Qed.

Lemma metadata_is_enforced_witness :
  ∃ ctx, resolve rt_db "u1" rt_params from_params = Ok ctx
    ∧ roleHasPermission (ctx_role (rc ctx)) subscriptions_write = true.
Proof.
  destruct rt_entered as (q & s & E).
  destruct (metadata_is_enforced _ _ ROUTES _ _ _ _ _ _ _ _ _ ROUTES_guarded rt_declared eq_refl E)
    as (user & ctx & Hu & _ & Hr & Hp).
  vm_compute in Hu. injection Hu as <-. exists ctx. split; [exact Hr|].
  apply (Hp [subscriptions_write] subscriptions_write eq_refl). left.
Defined.


Lemma one_route_per_request_witness :
  ∃ r p, last ROUTES = Some r ∧ route_matches id r DELETE rt_path = Some p ∧ r = route_subscriptions_remove.
Proof.
  destruct (last ROUTES) as [r|] eqn:El; [|vm_compute in El; discriminate El].
  assert (r ∈ ROUTES) as Hr by (apply last_Some_elem_of; exact El).
  destruct (route_matches id r DELETE rt_path) as [p|] eqn:Hm;
    [|vm_compute in El; injection El as <-; vm_compute in Hm; discriminate Hm].
  exists r, p. split; [reflexivity|]. split; [exact Hm|].
  refine (one_route_per_request id _ _ DELETE rt_path p _ _ Hr rt_declared Hm rt_matches).
  intros a b _ _ E. exact E.
Defined.

Lemma tenant_of_the_path_witness :
  ∃ q s ctx, rt_enter = (Ok q, s) ∧ tenantContext q = Some ctx ∧ ctx_project (rc ctx) = Some "p1".
Proof.
  destruct rt_entered as (q & s & E).
  destruct (tenant_of_the_path id (λ _, "") rt_verify _ DELETE rt_path _ rt_db 5 (Some (js "t")) rt_body new_store
              rt_relations rt_declared rt_matches) as [_ H].
  fold rt_enter in H. rewrite E in H. destruct (H q eq_refl eq_refl) as (ctx & Ht & _ & Hp).
  exists q, s, ctx. split; [exact E|]. split; [exact Ht|]. apply Hp. vm_compute. reflexivity.
Defined.
