(* ===== verification/Mail.v ===== *)
(** Outbound mail: notifications/templates.ts, mailbox.ts, redaction.ts,
    smtp-mailer.ts, smtp-transport.ts, mailer-selection.ts and the mail rules of
    config/env.schema.ts.

    A message is rendered once as text and once as HTML.  The URL class of the
    runtime, the hash of [node:crypto] and the mail library are parameters.  The
    theorems say that no value that did not come from the templates can add markup
    to a message or a line to its subject, what a log line tells of the recipient, the
    token and the server's answer, and which transport a configuration selects. *)
From Stdlib Require Import ZArith Lia.
From S2P Require Import Prelude Js Db Members.
Open Scope Z_scope.

(** ** Text *)

(** A literal of the source with its double quotes written as backquotes. *)
Definition dq (s : string) : jsstr := map (λ c, if (c =? 96)%N then 34%N else c) (js s).

(** [value.replace(/c/g, by)] *)
Definition replace_char (c : N) (by_ : jsstr) (s : jsstr) : jsstr :=
  flat_map (λ x, if (x =? c)%N then by_ else [x]) s.

Definition escapeHtml (value : jsstr) : jsstr :=
  replace_char 39 (js "&#39;")
    (replace_char 34 (js "&quot;")
      (replace_char 62 (js "&gt;")
        (replace_char 60 (js "&lt;")
          (replace_char 38 (js "&amp;") value)))).

(** [value.replace(/\s+/g, ' ')]: a run of white space is one space. *)
Fixpoint collapse (in_run : bool) (s : jsstr) : jsstr :=
  match s with
  | [] => []
  | c :: s =>
      if is_ws c then if in_run then collapse true s else 32%N :: collapse true s
      else c :: collapse false s
  end.
Definition oneLine (value : jsstr) : jsstr := trim (collapse false value).

(** [Math.round(ms / 60000)] of an integer is the quotient rounded half up. *)
Definition describeDuration (ms : Z) : jsstr :=
  let minutes := Z.max 1 ((ms + 30000) / 60000) in
  let plural n unit := int_toString n ++ js " " ++ js unit ++ (if n =? 1 then [] else js "s") in
  if minutes mod (24 * 60) =? 0 then plural (minutes / (24 * 60)) "day"
  else if minutes mod 60 =? 0 then plural (minutes / 60) "hour"
  else plural minutes "minute".

(** ** Rendering *)

Record RenderedMail : Type := MkMail { subject : jsstr; text : jsstr; html : jsstr }.
Record TemplateContext : Type := MkTemplate { productName : jsstr; dashboardUrl : jsstr }.
Record MailSpec : Type := MkSpec {
  ms_subject : jsstr; ms_title : jsstr; ms_paragraphs : list jsstr; ms_action : option (jsstr * jsstr)
}.

Definition paragraph_html (p : jsstr) : jsstr := dq "<p style=`margin:0 0 14px;line-height:1.5`>" ++ escapeHtml p ++ js "</p>".
Definition action_html (action : option (jsstr * jsstr)) : jsstr :=
  match action with
  | None => []
  | Some (label, link) =>
      dq "<p style=`margin:22px 0`><a href=`" ++ escapeHtml link
      ++ dq "` style=`display:inline-block;padding:10px 18px;border-radius:6px;background:#1f2937;color:#ffffff;text-decoration:none;font-weight:600`>"
      ++ escapeHtml label ++ js "</a></p>" ++ [10%N]
      ++ dq "<p style=`margin:0 0 14px;font-size:13px;color:#6b7280;word-break:break-all`>If the button does not work, copy this link into your browser:<br>"
      ++ escapeHtml link ++ js "</p>"
  end.

Definition render (ctx : TemplateContext) (spec : MailSpec) : RenderedMail :=
  let subject := oneLine (ms_subject spec) in
  let footer := js "You are receiving this because of activity on a " ++ productName ctx ++ js " account with this email address." in
  let textParts :=
    [ms_title spec; []] ++ flat_map (λ p, [p; []]) (ms_paragraphs spec)
    ++ (if ms_action spec is Some (label, link) then [label ++ js ":"; link; []] else [])
    ++ [js "--"; footer] in
  let html := Js.join 10
    [js "<!doctype html>";
     dq "<html><head><meta charset=`utf-8`><title>" ++ escapeHtml subject ++ js "</title></head>";
     dq "<body style=`margin:0;padding:24px;background:#f5f5f4;font-family:-apple-system,BlinkMacSystemFont,'Segoe UI',Roboto,Helvetica,Arial,sans-serif;color:#111827`>";
     dq "<div style=`max-width:560px;margin:0 auto;background:#ffffff;border-radius:8px;padding:28px`>";
     dq "<h1 style=`margin:0 0 18px;font-size:20px`>" ++ escapeHtml (ms_title spec) ++ js "</h1>";
     Js.join 10 (map paragraph_html (ms_paragraphs spec));
     action_html (ms_action spec);
     dq "<p style=`margin:24px 0 0;font-size:12px;color:#9ca3af`>" ++ escapeHtml footer ++ js "</p>";
     js "</div></body></html>"] in
  MkMail subject (Js.join 10 textParts) html.

(** ** The messages *)

(** The URL class: the constructor, which throws, the pathname, and what the
    remaining statements of [buildDashboardLink] do to it. *)
Class UrlApi : Type := {
  Url : Type;
  newUrl : jsstr → option Url;
  pathname : Url → jsstr;
  set_pathname : jsstr → Url → Url;
  clear_search_and_hash : Url → Url;
  set_param : jsstr → jsstr → Url → Url;
  url_toString : Url → jsstr;
  url_host : Url → jsstr
}.

Section Mails.
  Context `{UrlApi}.

(** None: the URL constructor threw. *)
Definition buildDashboardLink (dashboard path : jsstr) (params : list (jsstr * jsstr)) : option jsstr :=
  url ← newUrl dashboard;
  let url := set_pathname (strip_trailing_slashes (pathname url) ++ js "/" ++ strip_leading_slashes path) url in
  let url := clear_search_and_hash url in
  Some (url_toString (foldl (λ url kv, set_param kv.1 kv.2 url) url params)).

Definition emailVerificationMail (ctx : TemplateContext) (link : jsstr) : RenderedMail :=
  let lifetime := describeDuration (TOKEN_TTL_MS UserTokenType.email_verification) in
  render ctx (MkSpec
    (js "Confirm your email address for " ++ productName ctx)
    (js "Confirm your email address")
    [js "Confirm this address to finish setting up your " ++ productName ctx ++ js " account.";
     js "The link works once and expires in " ++ lifetime ++ js ". If it has expired, sign in and request a new one.";
     js "If you did not create this account, ignore this email - nothing happens until the address is confirmed."]
    (Some (js "Confirm email address", link))).

Definition passwordResetMail (ctx : TemplateContext) (link : jsstr) : RenderedMail :=
  let lifetime := describeDuration (TOKEN_TTL_MS UserTokenType.password_reset) in
  render ctx (MkSpec
    (js "Reset your " ++ productName ctx ++ js " password")
    (js "Reset your password")
    [js "Someone asked to reset the password for your " ++ productName ctx ++ js " account. Use the link below to choose a new one.";
     js "The link works once and expires in " ++ lifetime ++ js ". Requesting another link cancels this one.";
     js "If you did not ask for this, ignore this email. Your password has not changed."]
    (Some (js "Choose a new password", link))).

Definition registrationAttemptMail (ctx : TemplateContext) : option RenderedMail :=
  signIn ← buildDashboardLink (dashboardUrl ctx) (js "/login") [];
  forgot ← buildDashboardLink (dashboardUrl ctx) (js "/forgot-password") [];
  Some (render ctx (MkSpec
    (js "Someone tried to sign up for " ++ productName ctx ++ js " with your email")
    (js "This address already has an account")
    [js "Someone just tried to create a " ++ productName ctx ++ js " account with this email address, but it already has one. Nothing has changed.";
     js "If that was you, sign in instead: " ++ signIn;
     js "If you have forgotten your password, reset it here: " ++ forgot;
     js "If it was not you, no action is needed."]
    None)).

Record InvitationTemplateInput : Type := MkInvitation {
  it_organizationName : jsstr; it_invitedByEmail : jsstr; it_role : jsstr; it_email : jsstr; it_link : jsstr
}.
Definition invitationMail (ctx : TemplateContext) (input : InvitationTemplateInput) : RenderedMail :=
  let lifetime := describeDuration (TOKEN_TTL_MS UserTokenType.invitation) in
  let organization := oneLine (it_organizationName input) in
  let inviter := oneLine (it_invitedByEmail input) in
  let role := oneLine (it_role input) in
  render ctx (MkSpec
    (inviter ++ js " invited you to " ++ organization ++ js " on " ++ productName ctx)
    (js "You have been invited to " ++ organization)
    [inviter ++ js " has invited you to join " ++ organization ++ js " on " ++ productName ctx ++ js " as " ++ role ++ js ".";
     js "Accept the invitation while signed in as " ++ it_email input ++ js ". If you do not have a " ++ productName ctx
       ++ js " account yet, create one with this exact address first, confirm it, then open the link.";
     js "The invitation works once and expires in " ++ lifetime ++ js ".";
     js "If you were not expecting this, ignore this email and nothing will change."]
    (Some (js "Accept invitation", it_link input))).

Definition alreadyMemberMail (ctx : TemplateContext) (organizationName : jsstr) : option RenderedMail :=
  let organization := oneLine organizationName in
  dashboard ← buildDashboardLink (dashboardUrl ctx) (js "/") [];
  Some (render ctx (MkSpec
    (js "You are already a member of " ++ organization)
    (js "You are already a member of " ++ organization)
    [js "Someone tried to invite this address to " ++ organization ++ js " on " ++ productName ctx
       ++ js ", but you are already a member. Nothing has changed.";
     js "You can open the organization here: " ++ dashboard]
    None)).

Definition notificationConfirmationMail (ctx : TemplateContext) (projectName link : jsstr) : RenderedMail :=
  render ctx (MkSpec
    (js "Confirm alerts for " ++ projectName)
    (js "Confirm this address for alerts")
    [js "Someone added this address to receive operational alerts for the " ++ projectName ++ js " project on " ++ productName ctx ++ js ".";
     js "Until you confirm, this address receives nothing at all. If you were not expecting this, ignore it " ++ [8212%N]
       ++ js " nothing will be sent."]
    (Some (js "Confirm this address", link))).

Record NotificationAlertInput : Type := MkAlert {
  na_projectName : jsstr; na_headline : jsstr; na_body : jsstr; na_link : jsstr; na_occurrences : Z
}.
Definition notificationAlertMail (ctx : TemplateContext) (input : NotificationAlertInput) : RenderedMail :=
  let repeated :=
    if 1 <? na_occurrences input
    then [js "This has happened " ++ int_toString (na_occurrences input)
            ++ js " times in the last half hour. This is one message for all of them."]
    else [] in
  render ctx (MkSpec
    (js "[" ++ na_projectName input ++ js "] " ++ na_headline input)
    (na_headline input)
    (na_body input :: repeated)
    (Some (js "Open in " ++ productName ctx, na_link input))).
End Mails.

(** ** mailbox.ts *)

Record Mailbox : Type := MkMailbox { mb_name : option jsstr; mb_address : jsstr }.

Definition trimEnd (s : jsstr) : jsstr := reverse (trimStart (reverse s)).
Definition is_line_terminator (c : N) : bool := ((c =? 10) || (c =? 13) || (c =? 8232) || (c =? 8233))%N.

(** No white space, angle bracket, at sign, comma, semicolon or double quote. *)
Definition address_char (c : N) : bool := negb (is_ws c || bool_decide (c ∈ [60; 62; 64; 44; 59; 34]%N)).
Definition ADDRESS_test (s : jsstr) : bool :=
  match split 64 s with
  | [a; b] => all_plus address_char a && all_plus address_char b
  | _ => false
  end.

(** [NAMED.exec]: the closing bracket is the last character, the opening one the
    last of its kind, and the lazy group ends where only white space follows. *)
Definition NAMED_exec (s : jsstr) : option (jsstr * jsstr) :=
  match reverse s with
  | 62%N :: rest =>
      match take_until 60 rest with
      | (inner, Some before) =>
          let name := trimEnd (reverse before) in
          if negb (bool_decide (inner = [])) && negb (includes inner 62) && negb (existsb is_line_terminator name)
          then Some (name, reverse inner) else None
      | _ => None
      end
  | _ => None
  end.

(** A pair of double quotes around a text without line terminators is dropped. *)
Definition unquote (s : jsstr) : jsstr :=
  match s with
  | 34%N :: t => match reverse t with 34%N :: m => reverse m | _ => s end
  | _ => s
  end.

Definition parseMailbox (value : jsstr) : option Mailbox :=
  let trimmed := trim value in
  match NAMED_exec trimmed with
  | Some (group, inner) =>
      let address := trim inner in
      if negb (ADDRESS_test address) then None
      else let name := trim (unquote (trim group)) in
           Some (MkMailbox (if bool_decide (name = []) then None else Some name) address)
  | None => if ADDRESS_test trimmed then Some (MkMailbox None trimmed) else None
  end.

(** ** redaction.ts *)

Definition TOKEN_LOG_PREFIX : nat := 6.
Definition RECIPIENT_HASH_CHARS : nat := 12.

Section Redaction.
  (** The hex digest of SHA-256, and [toLowerCase]. *)
  Context (sha256 toLowerCase : jsstr → jsstr).

Definition redactRecipient (email : jsstr) : jsstr :=
  let normalized := toLowerCase (trim email) in
  let domain := if includes normalized 64 then default [] (last (split 64 normalized)) else js "unknown" in
  take RECIPIENT_HASH_CHARS (sha256 normalized) ++ js "@" ++ domain.

(** As [address_char], and no colon, quote, parenthesis or bracket either. *)
Definition shaped_char (c : N) : bool :=
  negb (is_ws c || bool_decide (c ∈ [60; 62; 64; 44; 59; 58; 34; 39; 40; 41; 91; 93]%N)).
Fixpoint span (f : N → bool) (s : jsstr) : jsstr * jsstr :=
  match s with
  | c :: s' => if f c then let '(a, b) := span f s' in (c :: a, b) else ([], s)
  | [] => ([], [])
  end.
(** A match of [ADDRESS_SHAPED] at the head of the text: what follows it. *)
Definition shaped_here (s : jsstr) : option jsstr :=
  match span shaped_char s with
  | (_ :: _, 64%N :: rest) =>
      match span shaped_char rest with
      | (_ :: _, after) => Some after
      | _ => None
      end
  | _ => None
  end.
Definition REDACTED : jsstr := js "<address redacted>".
Fixpoint scrub (fuel : nat) (s : jsstr) : jsstr :=
  match fuel, s with
  | S fuel, c :: s' =>
      match shaped_here s with
      | Some after => REDACTED ++ scrub fuel after
      | None => c :: scrub fuel s'
      end
  | _, _ => s
  end.
(** A round consumes at least one character. *)
Definition scrubAddresses (text : jsstr) : jsstr := scrub (length text) text.

Definition fingerprintToken (rawToken : jsstr) : jsstr :=
  take TOKEN_LOG_PREFIX rawToken ++ [8230%N] ++ js "(" ++ int_toString (jslen rawToken) ++ js " chars)".

(** ** Sending *)

Inductive MailKind : Type :=
| mk_email_verification | mk_password_reset | mk_registration_attempt | mk_invitation | mk_already_member
| mk_notification_confirmation | mk_notification_alert.
Definition kind_text (k : MailKind) : jsstr :=
  js match k with
     | mk_email_verification => "email_verification" | mk_password_reset => "password_reset"
     | mk_registration_attempt => "registration_attempt" | mk_invitation => "invitation"
     | mk_already_member => "already_member" | mk_notification_confirmation => "notification_confirmation"
     | mk_notification_alert => "notification_alert"
     end%string.
Record OutboundMail : Type := MkOutbound { om_kind : MailKind; om_to : jsstr; om_mail : RenderedMail }.

(** A send answers with the transport's id for the message or throws an error
    with a message; a thrown value that is no Error has none. *)
Definition MailTransport : Type := OutboundMail → option jsstr + option jsstr.
Definition reason (err : option jsstr) : jsstr := default (js "unknown error") err.

(** [NodemailerSmtpTransport.send] over the mail library's [sendMail]. *)
Definition smtp_send (sendMail : MailTransport) (target : jsstr) : MailTransport := λ mail,
  match sendMail mail with
  | inl id => inl id
  | inr err => inr (Some (js "SMTP delivery via " ++ target ++ js " failed: " ++ scrubAddresses (reason err)))
  end.

(** [SmtpMailer.deliver]: the line it logs, and whether it rethrows. *)
Definition deliver (transport : MailTransport) (kind : MailKind) (to : jsstr) (rendered : RenderedMail)
    (rawToken : option jsstr) : jsstr * bool :=
  let recipient := redactRecipient to in
  let token := match rawToken with
               | Some ((_ :: _) as t) => js ", token " ++ fingerprintToken t
               | _ => []
               end in
  match transport (MkOutbound kind to rendered) with
  | inl messageId =>
      let id := match messageId with Some ((_ :: _) as i) => js ", message id " ++ i | _ => [] end in
      (js "Sent " ++ kind_text kind ++ js " to " ++ recipient ++ token ++ id ++ js ".", true)
  | inr err =>
      (js "Failed to send " ++ kind_text kind ++ js " to " ++ recipient ++ token ++ js ": " ++ reason err, false)
  end.

Definition DASHBOARD_PATHS_verifyEmail : jsstr := js "/verify-email".
Definition DASHBOARD_PATHS_resetPassword : jsstr := js "/reset-password".
Definition DASHBOARD_PATHS_acceptInvitation : jsstr := js "/accept-invitation".
Definition DASHBOARD_PATHS_confirmNotification : jsstr := js "/confirm-notifications".

Section Mailer.
  Context `{UrlApi} (transport : MailTransport) (ctx : TemplateContext).

(** The methods of [SmtpMailer]; None: the link could not be built. *)
Definition link (path rawToken : jsstr) : option jsstr := buildDashboardLink (dashboardUrl ctx) path [(js "token", rawToken)].
Definition sendEmailVerification (email rawToken : jsstr) : option (jsstr * bool) :=
  link ← link DASHBOARD_PATHS_verifyEmail rawToken;
  Some (deliver transport mk_email_verification email (emailVerificationMail ctx link) (Some rawToken)).
Definition sendPasswordReset (email rawToken : jsstr) : option (jsstr * bool) :=
  link ← link DASHBOARD_PATHS_resetPassword rawToken;
  Some (deliver transport mk_password_reset email (passwordResetMail ctx link) (Some rawToken)).
Definition sendRegistrationAttemptNotice (email : jsstr) : option (jsstr * bool) :=
  mail ← registrationAttemptMail ctx;
  Some (deliver transport mk_registration_attempt email mail None).
Definition sendInvitation (organizationName invitedByEmail role email rawToken : jsstr) : option (jsstr * bool) :=
  link ← link DASHBOARD_PATHS_acceptInvitation rawToken;
  Some (deliver transport mk_invitation email
          (invitationMail ctx (MkInvitation organizationName invitedByEmail role email link)) (Some rawToken)).
Definition sendAlreadyMemberNotice (email organizationName : jsstr) : option (jsstr * bool) :=
  mail ← alreadyMemberMail ctx organizationName;
  Some (deliver transport mk_already_member email mail None).
Definition sendNotificationConfirmation (email projectName rawToken : jsstr) : option (jsstr * bool) :=
  link ← link DASHBOARD_PATHS_confirmNotification rawToken;
  Some (deliver transport mk_notification_confirmation email (notificationConfirmationMail ctx projectName link) (Some rawToken)).
Definition sendNotificationAlert (email : jsstr) (input : NotificationAlertInput) : jsstr * bool :=
  deliver transport mk_notification_alert email (notificationAlertMail ctx input) None.
End Mailer.
End Redaction.

(** ** mailer-selection.ts and the mail rules of env.schema.ts *)

(** What the configuration service answers. *)
Record MailEnv : Type := MkEnv {
  SMTP_URL : option jsstr; MAIL_FROM : option jsstr; APP_ENV : option jsstr; DASHBOARD_URL : option jsstr
}.
(** [value?.trim()], and whether it is truthy. *)
Definition trimmed (v : option jsstr) : option jsstr :=
  match trim <$> v with Some [] => None | r => r end.

Definition STUB_MAILER_ENVIRONMENTS : list jsstr := [js "development"; js "test"].
Definition DEFAULT_DASHBOARD_URL : jsstr := js "http://localhost:5173".

(** The transport's connection URL and sender. *)
Definition createMailTransport (env : MailEnv) : result (option (jsstr * jsstr)) :=
  match trimmed (SMTP_URL env) with
  | None => Ok None
  | Some smtpUrl =>
      match trimmed (MAIL_FROM env) with
      | Some from => if bool_decide (parseMailbox from = None) then throw internal_error "MAIL_FROM must be set to a mailbox"
                     else Ok (Some (smtpUrl, from))
      | None => throw internal_error "MAIL_FROM must be set to a mailbox"
      end
  end.

Section Selection.
  Context `{UrlApi}.

Definition hostOf (url : jsstr) : jsstr := match newUrl url with Some u => url_host u | None => url end.
Definition templateContextFrom (env : MailEnv) : TemplateContext :=
  let dashboard := default DEFAULT_DASHBOARD_URL (trimmed (DASHBOARD_URL env)) in
  let mailbox := match MAIL_FROM env with Some ((_ :: _) as from) => parseMailbox from | _ => None end in
  MkTemplate (default (hostOf dashboard) (mailbox ≫= mb_name)) dashboard.

Inductive Selected : Type :=
| chose_smtp (transport : jsstr * jsstr) (context : TemplateContext)
| chose_stub.
Definition selectMailer (env : MailEnv) (transport : option (jsstr * jsstr)) : result Selected :=
  match transport with
  | Some t => Ok (chose_smtp t (templateContextFrom env))
  | None =>
      let appEnv := default (js "development") (APP_ENV env) in
      if negb (bool_decide (appEnv ∈ STUB_MAILER_ENVIRONMENTS))
      then throw internal_error "SMTP_URL is not set"
      else Ok chose_stub
  end.
(** The provider, then the choice. *)
Definition mailer (env : MailEnv) : result Selected :=
  transport ← createMailTransport env;
  selectMailer env transport.
End Selection.

(** [blankToUndefined] of a variable. *)
Definition blankToUndefined (v : option jsstr) : option jsstr :=
  match v with
  | Some s => if bool_decide (trim s = []) then None else Some s
  | None => None
  end.
(** The issues the whole-object rule adds: the variable each is about. *)
Definition mail_issues (env : MailEnv) : list string :=
  let set v := match v with Some (_ :: _) => true | _ => false end in
  (if set (SMTP_URL env) && negb (set (MAIL_FROM env)) then ["MAIL_FROM"%string] else [])
  ++ (if negb (set (SMTP_URL env)) && bool_decide (default [] (APP_ENV env) ∈ [js "staging"; js "production"])
      then ["SMTP_URL"%string] else []).

(** ** Escaping *)

Definition esc1 (c : N) : jsstr :=
  if (c =? 38)%N then js "&amp;" else if (c =? 60)%N then js "&lt;" else if (c =? 62)%N then js "&gt;"
  else if (c =? 34)%N then js "&quot;" else if (c =? 39)%N then js "&#39;" else [c].

Lemma replace_flat c by_ (f : N → jsstr) (s : jsstr) : replace_char c by_ (flat_map f s) = flat_map (λ x, replace_char c by_ (f x)) s.
Proof. unfold replace_char. induction s as [|x s IH]; [done|]. cbn [flat_map]. by rewrite flat_map_app, IH. Qed.

Lemma replace_other c by_ x : x ≠ c → replace_char c by_ [x] = [x].
Proof. intros Hx. unfold replace_char. cbn. by rewrite (proj2 (N.eqb_neq x c) Hx). Qed.

Lemma escape_one_pass s : escapeHtml s = flat_map esc1 s.
Proof.
  unfold escapeHtml. unfold replace_char at 5. rewrite !replace_flat. apply flat_map_ext. intros x. unfold esc1.
  repeat match goal with
  | |- context [if (x =? ?n)%N then _ else _] =>
      destruct (N.eqb_spec x n) as [->|?]; [vm_compute; reflexivity|]
  end.
  by rewrite !replace_other.
Qed.

(** The characters that delimit a tag or an attribute, in their order. *)
Definition skeleton (s : jsstr) : jsstr := filter (λ c, c ∈ [60; 62; 34; 39]%N) s.

Lemma skeleton_app a b : skeleton (a ++ b) = skeleton a ++ skeleton b.
Proof. apply filter_app. Qed.

Lemma skeleton_newline t : skeleton (10%N :: t) = skeleton t.
Proof. reflexivity. Qed.

Lemma skeleton_escape s : skeleton (escapeHtml s) = [].
Proof.
  rewrite escape_one_pass. induction s as [|x s IH]; [done|]. cbn [flat_map]. rewrite skeleton_app, IH, app_nil_r.
  unfold esc1. repeat match goal with
  | |- context [if (x =? ?n)%N then _ else _] => destruct (N.eqb_spec x n) as [->|?]; [vm_compute; reflexivity|]
  end.
  unfold skeleton. rewrite filter_cons_False; [done|]. rewrite !elem_of_cons, elem_of_nil. tauto.
Qed.

(** What a reader of HTML makes of the five references. *)
Definition ENTITIES : list (jsstr * N) :=
  [(js "&amp;", 38%N); (js "&lt;", 60%N); (js "&gt;", 62%N); (js "&quot;", 34%N); (js "&#39;", 39%N)].
Fixpoint unescape (fuel : nat) (s : jsstr) : jsstr :=
  match fuel, s with
  | S fuel, c :: s' =>
      match List.find (λ e, bool_decide (take (length e.1) s = e.1)) ENTITIES with
      | Some (e, x) => x :: unescape fuel (drop (length e) s)
      | None => c :: unescape fuel s'
      end
  | _, _ => s
  end.

Lemma unescape_entity e x t fuel : (e, x) ∈ ENTITIES → unescape (S fuel) (e ++ t) = x :: unescape fuel t.
Proof.
  intros He. unfold ENTITIES in He.
  repeat (apply elem_of_cons in He as [[= -> ->]|He];
    [cbn [app unescape]; unfold ENTITIES; cbn [List.find fst snd];
     repeat first [rewrite bool_decide_true by reflexivity | rewrite bool_decide_false by (vm_compute; congruence)];
     reflexivity|]).
  by apply not_elem_of_nil in He.
Qed.

Lemma unescape_escape s fuel : (length s <= fuel)%nat → unescape fuel (flat_map esc1 s) = s.
Proof.
  revert fuel. induction s as [|x s IH]; intros fuel Hf; [by destruct fuel|].
  destruct fuel as [|fuel]; [cbn in Hf; lia|]. specialize (IH fuel ltac:(cbn in Hf; lia)).
  cbn [flat_map]. unfold esc1 at 1.
  repeat match goal with
  | |- context [if (x =? ?n)%N then _ else _] =>
      destruct (N.eqb_spec x n) as [->|?]; [rewrite (unescape_entity _ n) by (unfold ENTITIES; set_solver); by rewrite IH|]
  end.
  cbn [app unescape]. destruct (List.find _ ENTITIES) as [[e y]|] eqn:E; [|by rewrite IH].
  exfalso. apply List.find_some in E as [Hin Ht%bool_decide_eq_true]. cbn [fst] in Ht.
  unfold ENTITIES in Hin. cbn [In] in Hin.
  repeat (destruct Hin as [[= <- <-]|Hin]; [apply (f_equal head) in Ht; vm_compute in Ht; congruence|]). done.
Qed.

Lemma skeleton_paragraphs ps qs :
  length ps = length qs → skeleton (Js.join 10 (map paragraph_html ps)) = skeleton (Js.join 10 (map paragraph_html qs)).
Proof.
  assert (∀ p, skeleton (paragraph_html p) = skeleton (paragraph_html [])) as Hp.
  { intros p. unfold paragraph_html. by rewrite !skeleton_app, !skeleton_escape. }
  revert qs. induction ps as [|p ps IH]; intros [|q qs] Hl; try done. injection Hl as Hl. specialize (IH qs Hl).
  cbn [map]. destruct ps as [|p' ps], qs as [|q' qs]; try done; [cbn [map Js.join]; by rewrite (Hp p), (Hp q)|].
  cbn [map] in *. rewrite (join_cons 10 (paragraph_html p)), (join_cons 10 (paragraph_html q)) by done. change (10%N :: ?t) with ([10%N] ++ t).
  by rewrite !skeleton_app, (Hp p), (Hp q), IH.
Qed.

(** ** Lines *)

Lemma collapse_spaces b s c : c ∈ collapse b s → is_ws c = true → c = 32%N.
Proof.
  revert b. induction s as [|x s IH]; intros b Hc Hw; [by apply not_elem_of_nil in Hc|]. cbn [collapse] in Hc.
  destruct (is_ws x) eqn:Ex; [destruct b|]; try (apply elem_of_cons in Hc as [->|Hc]); [by eapply IH|done|by eapply IH|congruence|by eapply IH].
Qed.
(** C27. Nothing a mail interpolates can add to it.  A subject has no white space other
    than single blanks, so no header can follow it; the markup of the HTML part is
    the template's alone, since two messages with as many paragraphs and an action
    in both or neither have the same delimiters in the same order; and an escaped
    text reads as the text itself. *)
Theorem mail_is_inert (ctx ctx' : TemplateContext) (spec spec' : MailSpec)
  (Hparagraphs : length (ms_paragraphs spec) = length (ms_paragraphs spec'))
  (Haction : ms_action spec = None ↔ ms_action spec' = None) :
  (∀ c, c ∈ subject (render ctx spec) → is_ws c = true → c = 32%N)
  ∧ trim (subject (render ctx spec)) = subject (render ctx spec)
  ∧ skeleton (html (render ctx spec)) = skeleton (html (render ctx' spec'))
  ∧ (∀ value, unescape (length value) (escapeHtml value) = value ∧ skeleton (escapeHtml value) = []).
Proof.
  split_and!.
  - intros c Hc%trim_elem. by eapply collapse_spaces.
  - apply trim_idemp.
  - pose proof (skeleton_paragraphs _ _ Hparagraphs) as Hp. unfold render. cbn [html]. revert Hp.
    generalize (Js.join 10 (map paragraph_html (ms_paragraphs spec))) (Js.join 10 (map paragraph_html (ms_paragraphs spec'))).
    intros P P' Hp. cbn [Js.join].
    assert (skeleton (action_html (ms_action spec)) = skeleton (action_html (ms_action spec'))) as Ha.
    { destruct (ms_action spec) as [[]|], (ms_action spec') as [[]|]; try done;
        [|by discriminate (proj2 Haction eq_refl)|by discriminate (proj1 Haction eq_refl)].
      unfold action_html. by rewrite !skeleton_app, !skeleton_escape. }
    repeat rewrite ?skeleton_app, ?skeleton_newline. by rewrite !skeleton_escape, Hp, Ha.
  - intros value. split; [|apply skeleton_escape]. rewrite escape_one_pass. by apply unescape_escape.
Qed.

(** ** Redaction *)

(** An at sign between two characters an address can hold. *)
Definition at_between (c : N) (t : jsstr) : bool :=
  match t with x :: d :: _ => shaped_char c && (x =? 64)%N && shaped_char d | _ => false end.
Fixpoint has_shaped (s : jsstr) : bool :=
  match s with c :: t => at_between c t || has_shaped t | [] => false end.

Lemma span_split f s a b : span f s = (a, b) → s = a ++ b.
Proof.
  revert a b. induction s as [|c s IH]; cbn; intros a b; [by intros [= <- <-]|].
  destruct (f c); [|by intros [= <- <-]]. destruct (span f s) as [a' b'] eqn:E. intros [= <- <-].
  by rewrite (IH a' b' eq_refl).
Qed.
Lemma shaped_here_shorter s after : shaped_here s = Some after → (length after < length s)%nat.
Proof.
  unfold shaped_here. destruct (span shaped_char s) as [[|c a] [|x rest]] eqn:E; try done.
  destruct (N.eq_dec x 64%N) as [->|Hx];
    [|destruct x as [|p]; [done|]; do 7 (destruct p as [p|p|]; try done)].
  destruct (span shaped_char rest) as [[|d b] after'] eqn:E'; [done|]. intros [= <-].
  rewrite (span_split _ _ _ _ E), (span_split _ _ _ _ E'). cbn. rewrite !length_app. cbn. rewrite length_app. lia.
Qed.

Lemma not_shaped_64 : shaped_char 64%N = false.
Proof. reflexivity. Qed.

(** What is shaped at the head is found there. *)
Lemma shaped_found c d t : shaped_char c = true → shaped_char d = true → shaped_here (c :: 64%N :: d :: t) ≠ None.
Proof.
  intros Hc Hd. unfold shaped_here. cbn [span]. rewrite Hc, not_shaped_64. cbn [span]. rewrite Hd.
  by destruct (span shaped_char t).
Qed.

Lemma scrub_head fuel s x r : scrub fuel s = x :: r → x = 60%N ∨ (head s = Some x ∧ (fuel = 0%nat ∨ shaped_here s = None)).
Proof.
  destruct fuel as [|fuel]; cbn [scrub]; [intros ->; right; auto|]. destruct s as [|c s]; [done|].
  destruct (shaped_here (c :: s)) eqn:E; [intros [= <-]; by left|]. intros [= <- _]. right. auto.
Qed.

Lemma scrub_clean fuel s : (length s <= fuel)%nat → has_shaped (scrub fuel s) = false.
Proof.
  revert s. induction fuel as [|fuel IH]; intros [|c s] Hf; [done|cbn in Hf; lia|done|]. cbn [scrub].
  destruct (shaped_here (c :: s)) as [after|] eqn:E.
  - apply shaped_here_shorter in E. cbn [length] in *.
    specialize (IH after ltac:(lia)). by destruct (scrub fuel after) as [|? []].
  - cbn [has_shaped]. cbn [length] in Hf. rewrite IH by lia. rewrite orb_false_r.
    destruct (scrub fuel s) as [|x [|d r]] eqn:Es; try done. cbn [at_between].
    destruct (shaped_char c) eqn:Ec; [|done]. destruct (N.eqb_spec x 64) as [->|]; [|done]. cbn [andb].
    destruct (shaped_char d) eqn:Ed; [exfalso|done].
    destruct (scrub_head _ _ _ _ Es) as [?|[Hs _]]; [done|]. destruct s as [|y s]; [done|]. injection Hs as ->.
    destruct fuel as [|fuel]; [cbn in Hf; lia|]. cbn [scrub] in Es.
    assert (shaped_here (64%N :: s) = None) as H64 by reflexivity. rewrite H64 in Es. injection Es as Es.
    destruct (scrub_head _ _ _ _ Es) as [->|[Hd _]]; [done|]. destruct s as [|y s]; [done|]. injection Hd as ->.
    by apply (shaped_found c d s Ec Ed).
Qed.

(** What a log line may depend on: the start of the hash of the normalised address,
    its domain, and the first characters and the length of a token. *)
Definition recipient_domain (normalized : jsstr) : jsstr :=
  if includes normalized 64 then default [] (last (split 64 normalized)) else js "unknown".
Definition same_recipient (sha256 toLowerCase : jsstr → jsstr) (a b : jsstr) : Prop :=
  let norm e := toLowerCase (trim e) in
  take 12 (sha256 (norm a)) = take 12 (sha256 (norm b)) ∧ recipient_domain (norm a) = recipient_domain (norm b).
Definition same_token (a b : option jsstr) : Prop :=
  match a, b with
  | None, None => True
  | Some a, Some b => take 6 a = take 6 b ∧ length a = length b
  | _, _ => False
  end.
(** The token's part of a line, and the message id's. *)
Definition token_seen (token : option jsstr) : jsstr :=
  match token with Some ((_ :: _) as t) => js ", token " ++ fingerprintToken t | _ => [] end.
Definition id_seen (id : option jsstr) : jsstr :=
  match id with Some ((_ :: _) as i) => js ", message id " ++ i | _ => [] end.
Lemma token_seen_same a b : same_token a b → token_seen a = token_seen b.
Proof.
  destruct a as [t|], b as [t'|]; try done. intros [Ht Hl]. unfold token_seen.
  assert (fingerprintToken t = fingerprintToken t') as Hf by (unfold fingerprintToken, TOKEN_LOG_PREFIX, jslen; by rewrite Ht, Hl).
  destruct t, t'; try done. by rewrite Hf.
Qed.
Lemma redactRecipient_same sha256 toLowerCase a b : same_recipient sha256 toLowerCase a b →
  redactRecipient sha256 toLowerCase a = redactRecipient sha256 toLowerCase b.
Proof.
  intros [Hh Hd]. unfold redactRecipient. fold (recipient_domain (toLowerCase (trim a))). fold (recipient_domain (toLowerCase (trim b))).
  unfold RECIPIENT_HASH_CHARS. by rewrite Hh, Hd.
Qed.

(** C28. What is logged about a mail.  For two mails of a kind whose recipients have the
    same twelve characters of hash and the same domain, and whose tokens have the
    same first six characters and the same length, whatever the messages: the lines
    of two failures are the same as soon as the two answers of the server read the
    same once every address in them is replaced, and end in the answer so read; the
    lines of two successes start the same and go on with the id the mail library
    answered, as it is: that id is the one text in a line that nothing redacts; and
    the replacement leaves no address behind, whatever the text. *)
Theorem logs_are_redacted (sha256 toLowerCase : jsstr → jsstr) (sendMail sendMail' : MailTransport) (target : jsstr)
  (kind : MailKind) (to to' : jsstr) (mail mail' : RenderedMail) (token token' : option jsstr)
  (Hto : same_recipient sha256 toLowerCase to to') (Htoken : same_token token token') :
  let log := deliver sha256 toLowerCase (smtp_send sendMail target) kind to mail token in
  let log' := deliver sha256 toLowerCase (smtp_send sendMail' target) kind to' mail' token' in
  let reply := sendMail (MkOutbound kind to mail) in
  let reply' := sendMail' (MkOutbound kind to' mail') in
  (∀ err err', reply = inr err → reply' = inr err' → scrubAddresses (reason err) = scrubAddresses (reason err') → log = log')
  ∧ (∃ start, ∀ err, (reply = inr err → log = (start ++ scrubAddresses (reason err), false))
                   ∧ (reply' = inr err → log' = (start ++ scrubAddresses (reason err), false)))
  ∧ (∃ start, ∀ id, (reply = inl id → log = (start ++ id_seen id ++ js ".", true))
                  ∧ (reply' = inl id → log' = (start ++ id_seen id ++ js ".", true)))
  ∧ ∀ text, has_shaped (scrubAddresses text) = false.
Proof.
  cbv zeta. unfold deliver, smtp_send. rewrite <- (redactRecipient_same _ _ _ _ Hto).
  fold (token_seen token). fold (token_seen token'). rewrite <- (token_seen_same _ _ Htoken).
  generalize (redactRecipient sha256 toLowerCase to) (token_seen token). intros rec tok. split_and!.
  - intros err err' -> -> Hs. cbn [reason default from_option]. by rewrite Hs.
  - exists (js "Failed to send " ++ kind_text kind ++ js " to " ++ rec ++ tok ++ js ": " ++ js "SMTP delivery via " ++ target ++ js " failed: ").
    intros err. split; intros ->; rewrite <- !app_assoc; done.
  - exists (js "Sent " ++ kind_text kind ++ js " to " ++ rec ++ tok).
    intros id. split; intros ->; rewrite <- !app_assoc; done.
  - intros text. by apply scrub_clean.
Qed.

(** ** Selection *)

(** What the environment schema has established when the process starts. *)
Record env_validated (env : MailEnv) : Prop := {
  ev_url u : SMTP_URL env = Some u → trim u ≠ [];
  ev_from f : MAIL_FROM env = Some f → trim f ≠ [] ∧ parseMailbox f ≠ None;
  ev_app : APP_ENV env ∈ map Some [js "development"; js "test"; js "staging"; js "production"];
  ev_issues : mail_issues env = []
}.

Lemma parseMailbox_trim f : parseMailbox (trim f) = parseMailbox f.
Proof. unfold parseMailbox. by rewrite trim_idemp. Qed.

Lemma nonblank u : trim u ≠ [] → ∃ c t, u = c :: t.
Proof. destruct u; [done|eauto]. Qed.

Section Selection.
  Context `{UrlApi}.

Lemma mailer_smtp env u f :
  SMTP_URL env = Some u → trim u ≠ [] → MAIL_FROM env = Some f → trim f ≠ [] → parseMailbox f ≠ None →
  mailer env = Ok (chose_smtp (trim u, trim f) (templateContextFrom env)).
Proof.
  intros Hu Hu' Hf Hf' Hp. unfold mailer, createMailTransport, trimmed. rewrite Hu, Hf. cbn [fmap option_fmap option_map].
  destruct (trim u) as [|c t] eqn:Eu; [done|]. destruct (trim f) as [|c' t'] eqn:Ef; [done|].
  rewrite <- Ef, parseMailbox_trim, bool_decide_false by done. done.
Qed.

Lemma mailer_stub env :
  trimmed (SMTP_URL env) = None →
  mailer env = if bool_decide (default (js "development") (APP_ENV env) ∈ STUB_MAILER_ENVIRONMENTS)
               then Ok chose_stub else throw internal_error "SMTP_URL is not set".
Proof.
  intros Hu. unfold mailer, createMailTransport. rewrite Hu. cbn [mbind result_bind selectMailer].
  by destruct (bool_decide _).
Qed.

(** Mail is never silently dropped.  Whatever the configuration, the logging stub
    is chosen only without an SMTP URL and only in development or test, and a real
    transport only with a URL and a sender that parses; an environment that passed
    the schema always selects one of the two, the transport exactly when the URL is
    set, so the choice made later cannot fail after the process has started. *)
Theorem mailer_selected (env : MailEnv) :
  (∀ chosen, mailer env = Ok chosen →
     match chosen with
     | chose_stub => trimmed (SMTP_URL env) = None ∧ default (js "development") (APP_ENV env) ∈ STUB_MAILER_ENVIRONMENTS
     | chose_smtp (url, from) ctx =>
         trimmed (SMTP_URL env) = Some url ∧ trimmed (MAIL_FROM env) = Some from
         ∧ (∃ m, parseMailbox from = Some m ∧ (∀ n, mb_name m = Some n → productName ctx = n))
     end)
  ∧ (env_validated env → ∃ chosen, mailer env = Ok chosen ∧ (chosen = chose_stub ↔ SMTP_URL env = None)).
Proof.
  split.
  - intros chosen. unfold mailer, createMailTransport. destruct (trimmed (SMTP_URL env)) as [url|] eqn:Eu.
    + destruct (trimmed (MAIL_FROM env)) as [from|] eqn:Ef; [|done]. case_bool_decide as Hp; [done|]. intros [= <-].
      destruct (parseMailbox from) as [m|] eqn:Em; [|done]. split_and!; [done..|]. exists m. split; [done|].
      intros n Hn. unfold templateContextFrom. cbn [productName]. unfold trimmed in Ef.
      destruct (MAIL_FROM env) as [f|]; [|done]. cbn [fmap option_fmap option_map] in Ef.
      assert (from = trim f ∧ trim f ≠ []) as [-> Hne] by (by destruct (trim f); [|injection Ef as <-]).
      rewrite parseMailbox_trim in Em. destruct (nonblank f Hne) as (c & t & ->). rewrite Em. cbn. by rewrite Hn.
    + cbn [mbind result_bind selectMailer]. case_bool_decide as Hin; [|done]. intros [= <-]. done.
  - intros [Hurl Hfrom Happ Hissues]. unfold mail_issues in Hissues.
    apply app_eq_nil in Hissues as [Hi1 Hi2]. destruct (SMTP_URL env) as [u|] eqn:Eu.
    + destruct (nonblank u (Hurl u eq_refl)) as (c & t & Ht). rewrite Ht in Hi1. cbn [andb] in Hi1.
      destruct (MAIL_FROM env) as [f|] eqn:Ef; [|done]. destruct (Hfrom f eq_refl) as [Hf Hp].
      exists (chose_smtp (trim u, trim f) (templateContextFrom env)). split; [by apply mailer_smtp; auto|done].
    + exists chose_stub. split; [|done]. rewrite mailer_stub by (unfold trimmed; by rewrite Eu). cbn [andb negb] in Hi2.
      assert (default [] (APP_ENV env) ∉ [js "staging"; js "production"]) as Hbad by (intros Hb; by rewrite bool_decide_true in Hi2).
      rewrite bool_decide_true; [done|].
      destruct (APP_ENV env) as [a|]; [|left]. cbn in Hbad |- *. unfold STUB_MAILER_ENVIRONMENTS.
      cbn [map] in Happ. rewrite !elem_of_cons, !elem_of_nil in *. naive_solver.
Qed.
End Selection.

(** ** Mailboxes *)

Lemma ADDRESS_chars a c : ADDRESS_test a = true → c ∈ a → is_ws c = false ∧ c ≠ 60%N ∧ c ≠ 62%N.
Proof.
  unfold ADDRESS_test. intros Ha Hc. rewrite <- (join_split 64 a) in Hc.
  destruct (split 64 a) as [|x [|y [|]]]; try done. apply andb_true_iff in Ha as [[_ Hx]%all_plus_spec [_ Hy]%all_plus_spec].
  cbn [Js.join] in Hc. apply elem_of_app in Hc as [Hc|Hc%elem_of_cons].
  - apply Hx in Hc. unfold address_char in Hc. apply negb_true_iff, orb_false_iff in Hc as [? Hn].
    apply bool_decide_eq_false in Hn. set_solver.
  - destruct Hc as [->|Hc]; [done|]. apply Hy in Hc. unfold address_char in Hc.
    apply negb_true_iff, orb_false_iff in Hc as [? Hn]. apply bool_decide_eq_false in Hn. set_solver.
Qed.
Lemma ADDRESS_nonempty a : ADDRESS_test a = true → a ≠ [].
Proof. by intros Ha ->. Qed.

(** A name that can be written before an address as it is. *)
Record plain_name (n : jsstr) : Prop := {
  pn_nonempty : n ≠ [];
  pn_trim : trim n = n;
  pn_unquote : unquote n = n;
  pn_lines : existsb is_line_terminator n = false
}.

Lemma named_parse n a :
  plain_name n → ADDRESS_test a = true → parseMailbox (n ++ js " <" ++ a ++ js ">") = Some (MkMailbox (Some n) a).
Proof.
  intros [Hne Htrim Hunq Hlines] Ha. destruct (trim_fixed_ends n Htrim Hne) as [Hhead Hlast].
  assert (trim (n ++ js " <" ++ a ++ js ">") = n ++ js " <" ++ a ++ js ">") as Ht.
  { apply trim_ends; intros c Hc.
    - apply Hhead. by destruct n.
    - change (js ">") with [62%N] in Hc. rewrite !app_assoc, last_snoc in Hc. by injection Hc as <-. }
  unfold parseMailbox. rewrite Ht. unfold NAMED_exec. change (js " <") with [32%N; 60%N]. change (js ">") with [62%N].
  rewrite (app_assoc n), (app_assoc (n ++ _)), reverse_snoc, !reverse_app.
  change (reverse [32%N; 60%N]) with [60%N; 32%N]. cbn [app].
  rewrite take_until_app by (rewrite elem_of_reverse; intros Hc; by apply (ADDRESS_chars a 60 Ha) in Hc as (_ & ? & _)).
  assert (trimEnd (reverse (32%N :: reverse n)) = n) as ->.
  { unfold trimEnd. rewrite reverse_involutive. cbn [trimStart]. change (is_ws 32) with true. cbv iota.
    rewrite trimStart_id; [apply reverse_involutive|]. intros c Hc. apply Hlast. by rewrite <- head_reverse. }
  rewrite bool_decide_false by (intros Hr; apply (ADDRESS_nonempty a Ha); by apply (f_equal reverse) in Hr; rewrite reverse_involutive in Hr).
  rewrite (proj2 (includes_false (reverse a) 62)) by (rewrite elem_of_reverse; intros Hc; by apply (ADDRESS_chars a 62 Ha) in Hc as (_ & _ & ?)).
  rewrite Hlines. cbn [negb andb]. rewrite reverse_involutive.
  rewrite (trim_id a) by (intros c Hc; by apply (ADDRESS_chars a c Ha) in Hc as [? _]).
  rewrite Ha. cbn [negb]. rewrite Htrim, Hunq, Htrim. by rewrite bool_decide_false.
Qed.

Lemma bare_parse a : ADDRESS_test a = true → parseMailbox a = Some (MkMailbox None a).
Proof.
  intros Ha. unfold parseMailbox. rewrite (trim_id a) by (intros c Hc; by apply (ADDRESS_chars a c Ha) in Hc as [? _]).
  assert (NAMED_exec a = None) as ->; [|by rewrite Ha].
  unfold NAMED_exec. destruct (reverse a) as [|x r] eqn:Er; [done|].
  assert (x ∈ a) as Hx by (rewrite <- elem_of_reverse, Er; left). apply (ADDRESS_chars a x Ha) in Hx as (_ & _ & Hx).
  destruct x as [|p]; [done|]. by do 7 (destruct p as [p|p|]; try done).
Qed.

(** A sender that is written out is read back: a name and an address, or an address
    alone, come back from [MAIL_FROM] as they are, and whatever is accepted carries
    an address without white space or brackets. *)
Theorem mailbox_roundtrip (n a : jsstr) (Hn : plain_name n) (Ha : ADDRESS_test a = true) :
  parseMailbox (n ++ js " <" ++ a ++ js ">") = Some (MkMailbox (Some n) a)
  ∧ parseMailbox a = Some (MkMailbox None a)
  ∧ ∀ value m, parseMailbox value = Some m →
      ADDRESS_test (mb_address m) = true ∧ (∀ x, mb_name m = Some x → x ≠ [] ∧ trim x = x).
Proof.
  split_and!; [by apply named_parse|by apply bare_parse|]. intros value m. unfold parseMailbox.
  destruct (NAMED_exec (trim value)) as [[g i]|].
  - destruct (ADDRESS_test (trim i)) eqn:Ei; [|done]. cbn [negb]. intros [= <-]. split; [done|]. cbn [mb_name].
    intros x. case_bool_decide; [done|]. intros [= <-]. split; [done|apply trim_idemp].
  - destruct (ADDRESS_test (trim value)) eqn:Ei; [|done]. intros [= <-]. done.
Qed.

(** ** Witnesses *)

Lemma mail_is_inert_witness :
  let ctx := MkTemplate (js "HookuBit") (js "https://x.io") in
  let mail title := render ctx (MkSpec title title [js "hello"] None) in
  skeleton (html (mail (js "<script>alert('x')</script>"))) = skeleton (html (mail (js "Acme"))).
Proof.
  apply (mail_is_inert (MkTemplate (js "HookuBit") (js "https://x.io")) (MkTemplate (js "HookuBit") (js "https://x.io"))
    (MkSpec (js "<script>alert('x')</script>") (js "<script>alert('x')</script>") [js "hello"] None)
    (MkSpec (js "Acme") (js "Acme") [js "hello"] None)); [reflexivity|split; reflexivity].
Defined.

(** Two people of one domain whose hashes start alike. *)
Lemma logs_are_redacted_witness :
  let reject to : MailTransport := λ _, inr (Some (js "550 <" ++ to ++ js ">: user unknown")) in
  let line to := deliver (λ _, js "9f86d081884c7d65") (λ s, s) (smtp_send (reject to) (js "smtp://mail")) mk_password_reset to
                   (MkMail [] [] []) None in
  line (js "ann@x.io") = line (js "bob@x.io").
Proof.
  apply (logs_are_redacted (λ _, js "9f86d081884c7d65") (λ s, s)
           (λ _, inr (Some (js "550 <" ++ js "ann@x.io" ++ js ">: user unknown")))
           (λ _, inr (Some (js "550 <" ++ js "bob@x.io" ++ js ">: user unknown")))
           (js "smtp://mail") mk_password_reset (js "ann@x.io") (js "bob@x.io") (MkMail [] [] []) (MkMail [] [] []) None None)
    with (err := Some (js "550 <" ++ js "ann@x.io" ++ js ">: user unknown"))
         (err' := Some (js "550 <" ++ js "bob@x.io" ++ js ">: user unknown")).
  - split; vm_compute; reflexivity.
  - exact I.
  - reflexivity.
  - reflexivity.
  - vm_compute. reflexivity.
Defined.

(** A URL as its text. *)
Definition text_url : UrlApi := {|
  Url := jsstr; newUrl := Some; pathname := λ u, u; set_pathname := λ p _, p; clear_search_and_hash := λ u, u;
  set_param := λ k v u, u ++ js "?" ++ k ++ js "=" ++ v; url_toString := λ u, u; url_host := λ u, u
|}.

Lemma mailer_selected_witness :
  let env := MkEnv (Some (js "smtp://mail")) (Some (js "Acme <no-reply@x.io>")) (Some (js "production")) None in
  ∃ chosen, mailer (H:=text_url) env = Ok chosen ∧ chosen ≠ chose_stub.
Proof.
  destruct (proj2 (@mailer_selected text_url
    (MkEnv (Some (js "smtp://mail")) (Some (js "Acme <no-reply@x.io>")) (Some (js "production")) None))) as (chosen & Hc & Hs).
  - split.
    + intros u Hu. injection Hu as <-. discriminate.
    + intros f Hf. injection Hf as <-. split; discriminate.
    + right. right. right. left.
    + reflexivity.
  - exists chosen. split; [exact Hc|]. intros Hstub. apply Hs in Hstub. discriminate Hstub.
Defined.

Lemma mailbox_roundtrip_witness :
  parseMailbox (js "HookuBit" ++ js " <" ++ js "no-reply@x.io" ++ js ">") = Some (MkMailbox (Some (js "HookuBit")) (js "no-reply@x.io")).
Proof.
  apply (mailbox_roundtrip (js "HookuBit") (js "no-reply@x.io")); [split; [discriminate|reflexivity..]|reflexivity].
Defined.
