(* ===== verification/Bootstrap.v ===== *)
(** The first owner: cli/bootstrap.ts.

    The command reads its input, refuses an unusable name, hashes the password, and
    creates the organization, its owner and the membership in one transaction that
    first takes an advisory lock and counts the users.  The transaction is a
    sequence of steps of which any number of processes may be at any point; the
    lock is PostgreSQL's: at most one transaction holds it, until it ends. *)
From Stdlib Require Import ZArith Lia.
From S2P Require Import Prelude Js Permissions RetryRules Slugs AuditTrail Db Sessions Scope Auth.
Open Scope Z_scope.

Definition MIN_BOOTSTRAP_PASSWORD_LENGTH : Z := 12.

(** The variables of the environment. *)
Record BootstrapEnv : Type := MkBootEnv { BOOTSTRAP_EMAIL : jsstr; BOOTSTRAP_PASSWORD : jsstr; BOOTSTRAP_ORG : jsstr }.
Record BootstrapInput : Type := MkInput { bi_email : jsstr; bi_password : jsstr; bi_orgName : jsstr }.
Record BootstrapResult : Type := MkBooted { bt_organizationId : string; bt_userId : string; bt_slug : jsstr }.
Record BootDraw : Type := MkBootDraw { bd_org : string; bd_user : string; bd_member : string }.

Section Command.
  (** [toLowerCase], and the hash with its salt. *)
  Context (lower : jsstr → jsstr) (hash : jsstr → jsstr).

Definition slugifyOrgName (orgName : jsstr) : result jsstr :=
  match drop_edge (hyphenate false (lower orgName)) with
  | [] => throw internal_error "BOOTSTRAP_ORG contains no letters or digits, so it has no usable slug."
  | slug => Ok slug
  end.

(** An unset variable and an empty one are both missing. *)
Definition readBootstrapInput (env : BootstrapEnv) : result BootstrapInput :=
  let missing := (if bool_decide (BOOTSTRAP_EMAIL env = []) then ["BOOTSTRAP_EMAIL"%string] else [])
                 ++ (if bool_decide (BOOTSTRAP_PASSWORD env = []) then ["BOOTSTRAP_PASSWORD"%string] else [])
                 ++ (if bool_decide (BOOTSTRAP_ORG env = []) then ["BOOTSTRAP_ORG"%string] else []) in
  _ ← throw_if (negb (bool_decide (missing = []))) internal_error "Missing required variables";
  _ ← throw_if (jslen (BOOTSTRAP_PASSWORD env) <? MIN_BOOTSTRAP_PASSWORD_LENGTH) internal_error
        "BOOTSTRAP_PASSWORD must be at least 12 characters";
  Ok (MkInput (lower (BOOTSTRAP_EMAIL env)) (BOOTSTRAP_PASSWORD env) (BOOTSTRAP_ORG env)).

(** ** The transaction *)

Definition count_users : M Db Z := gets (λ db, Z.of_nat (size (users db))).

(** What follows the count. *)
Definition create_first (input : BootstrapInput) (slug passwordHash : jsstr) (d : BootDraw) (now existing : Z)
    : M Db BootstrapResult :=
  _ ← guardM (0 <? existing) internal_error "Refusing to bootstrap: the users table already has rows.";
  _ ← insert_org (bd_org d) (Organization.mk (bi_orgName input) slug OrganizationStatus.active);
  _ ← insert_user (bd_user d) (User.mk (bi_email input) None passwordHash (Some now) None None None);
  _ ← insert_member (bd_member d) (Member.mk (bd_org d) (bd_user d) owner);
  _ ← modify (upd_auditLogs (λ l, l ++ [AuditLog.mk (bd_org d) (Some (bd_user d)) "organization.bootstrapped"
                                          "organization" (Some (bd_org d)) None]));
  mret (MkBooted (bd_org d) (bd_user d) slug).

(** The transaction by itself. *)
Definition bootstrap_tx (input : BootstrapInput) (slug passwordHash : jsstr) (d : BootDraw) (now : Z) : M Db BootstrapResult :=
  transact (existing ← count_users; create_first input slug passwordHash d now existing).

Definition runBootstrap (input : BootstrapInput) (d : BootDraw) (now : Z) : M Db BootstrapResult :=
  slug ← lift (slugifyOrgName (bi_orgName input));
  bootstrap_tx input slug (hash (bi_password input)) d now.

(** [main] up to the connection and its messages. *)
Definition bootstrap (env : BootstrapEnv) (d : BootDraw) (now : Z) : M Db BootstrapResult :=
  input ← lift (readBootstrapInput env);
  _ ← lift (slugifyOrgName (bi_orgName input));
  runBootstrap input d now.
End Command.

(** ** Many processes *)

(** What one process was started with: its input, its slug and hash, which are made
    before the transaction, its ids and its clock. *)
Record Process : Type := MkProcess {
  pr_input : BootstrapInput; pr_slug : jsstr; pr_hash : jsstr; pr_draw : BootDraw; pr_now : Z
}.
Inductive Phase : Type :=
| waiting
| locked
| counted (existing : Z)
| finished (r : result BootstrapResult).

Record World : Type := MkWorld { w_db : Db; w_lock : option nat; w_phase : list Phase }.

Section Processes.
  Context (processes : nat → Process).

(** The next step of process [i]: take the lock, count, or write and commit; None
    where it waits for the lock or has finished. *)
Definition boot_step (i : nat) (w : World) : option World :=
  match w_phase w !! i with
  | Some waiting =>
      match w_lock w with
      | None => Some (MkWorld (w_db w) (Some i) (<[i := locked]> (w_phase w)))
      | Some _ => None
      end
  | Some locked =>
      match count_users (w_db w) with
      | (Ok n, _) => Some (MkWorld (w_db w) (w_lock w) (<[i := counted n]> (w_phase w)))
      | (Throw e, _) => Some (MkWorld (w_db w) None (<[i := finished (Throw e)]> (w_phase w)))
      end
  | Some (counted n) =>
      let p := processes i in
      let '(r, db') := transact (create_first (pr_input p) (pr_slug p) (pr_hash p) (pr_draw p) (pr_now p) n) (w_db w) in
      Some (MkWorld db' None (<[i := finished r]> (w_phase w)))
  | _ => None
  end.

Definition started (n : nat) (db : Db) : World := MkWorld db None (replicate n waiting).
Definition moves (w w' : World) : Prop := ∃ i, boot_step i w = Some w'.
End Processes.

(** ** The name *)

Definition drop_last_hyphen (s : jsstr) : jsstr :=
  match last s with
  | Some c => if (c =? hyphen)%N then take (length s - 1) s else s
  | None => s
  end.

Lemma drop_last_cons c d t : drop_last_hyphen (c :: d :: t) = c :: drop_last_hyphen (d :: t).
Proof.
  unfold drop_last_hyphen. change (last (c :: d :: t)) with (last (d :: t)).
  destruct (last (d :: t)) as [x|] eqn:E; [|by apply last_None in E]. destruct (x =? hyphen)%N; [|done].
  cbn [length]. replace (S (S (length t)) - 1)%nat with (S (length (d :: t) - 1)) by (cbn; lia). done.
Qed.

Lemma drop_last_accepts s : ∀ b, viable b s = true → drop_last_hyphen s = [] ∨ accepts b (drop_last_hyphen s) = true.
Proof.
  induction s as [|c s IH]; intros b Hv; [by left|]. destruct s as [|d t].
  - cbn in Hv |- *. destruct (N.eqb_spec c hyphen) as [->|Hc]; [by left|right]. cbn. by destruct (slug_char c).
  - rewrite drop_last_cons. right. cbn [viable] in Hv. cbn [accepts]. destruct (slug_char c) eqn:Ec.
    + destruct (IH false Hv) as [->|?]; done.
    + apply andb_true_iff in Hv as [Hc Hv]. rewrite Hc. cbn [andb]. destruct (IH true Hv) as [E|?]; [|done].
      exfalso. cbn [viable] in Hv. unfold drop_last_hyphen in E. destruct (last (d :: t)) as [x|] eqn:El; [|done].
      destruct (N.eqb_spec x hyphen) as [->|]; [|done]. destruct t as [|e t].
      * injection El as ->. done.
      * done.
Qed.

Lemma slug_of_name lower name slug : slugifyOrgName lower name = Ok slug → SLUG_PATTERN slug = true.
Proof.
  unfold slugifyOrgName, drop_edge. rewrite SLUG_PATTERN_accepts.
  set (s := hyphenate false (lower name)). pose proof (hyphenate_viable (lower name) false) as Hv. fold s in Hv.
  set (t := match s with c :: s' => if (c =? hyphen)%N then s' else s | [] => [] end).
  assert (viable true t = true) as Ht.
  { subst t. destruct s as [|c s']; [done|]. cbn [viable] in Hv. destruct (slug_char c) eqn:Ec.
    - rewrite (slug_char_ne c Ec). cbn [viable]. by rewrite Ec.
    - apply andb_true_iff in Hv as [Hc Hv]. rewrite andb_true_r in Hc. by rewrite Hc. }
  fold (drop_last_hyphen t). destruct (drop_last_accepts t true Ht) as [->|Ha]; [done|].
  destruct (drop_last_hyphen t); [done|]. by intros [= <-].
Qed.

(** ** One first owner *)

(** The database after the first bootstrap. *)
Definition first_owner (p : Process) (db : Db) : Db :=
  let d := pr_draw p in
  upd_auditLogs (λ l, l ++ [AuditLog.mk (bd_org d) (Some (bd_user d)) "organization.bootstrapped" "organization" (Some (bd_org d)) None])
    (upd_members (insert (bd_member d) (Member.mk (bd_org d) (bd_user d) owner))
      (upd_users (insert (bd_user d) (User.mk (bi_email (pr_input p)) None (pr_hash p) (Some (pr_now p)) None None None))
        (upd_organizations (insert (bd_org d) (Organization.mk (bi_orgName (pr_input p)) (pr_slug p) OrganizationStatus.active)) db))).

(** Process [p]'s transaction when nobody else is about. *)
Definition alone (p : Process) : M Db BootstrapResult :=
  bootstrap_tx (pr_input p) (pr_slug p) (pr_hash p) (pr_draw p) (pr_now p).
Definition users_of (db : Db) : Z := Z.of_nat (size (users db)).
Definition commit (p : Process) (n : Z) : M Db BootstrapResult :=
  transact (create_first (pr_input p) (pr_slug p) (pr_hash p) (pr_draw p) (pr_now p) n).

Lemma alone_commits p db : alone p db = commit p (users_of db) db.
Proof. reflexivity. Qed.

Lemma commit_Ok p n db r db' :
  commit p n db = (Ok r, db') →
  n <= 0 ∧ r = MkBooted (bd_org (pr_draw p)) (bd_user (pr_draw p)) (pr_slug p) ∧ db' = first_owner p db
  ∧ users db !! bd_user (pr_draw p) = None.
Proof.
  unfold commit. intros Hc%transact_Ok. unfold create_first, insert_org, insert_user, insert_member in Hc.
  minv. subst. bprop. cbn [users upd_organizations] in *. unfold first_owner.
  split_and!; [lia|done|done|by apply eq_None_not_Some].
Qed.

Lemma commit_Throw p n db e db' : commit p n db = (Throw e, db') → db' = db.
Proof. apply transact_Throw. Qed.

Lemma first_owner_users p db :
  users db !! bd_user (pr_draw p) = None → users_of (first_owner p db) = users_of db + 1.
Proof. intros Hn. unfold users_of, first_owner. cbn [users upd_auditLogs upd_members upd_users upd_organizations]. rewrite map_size_insert_None by done. lia. Qed.

Definition holds_lock (ph : Phase) : Prop := match ph with locked | counted _ => True | _ => False end.
Definition booted (ph : Phase) : Prop := if ph is finished (Ok _) then True else False.

Lemma unbooted ph : (if ph is finished (Ok _) then False else True) → ¬ booted ph.
Proof. destruct ph as [| | |[]]; cbn; auto. Qed.
#[local] Hint Resolve unbooted : core.

Section Reachable.
  Context (processes : nat → Process) (db0 : Db).

(** Nobody has committed an owner yet. *)
Record before (w : World) : Prop := {
  bf_db : w_db w = db0;
  bf_none i ph : w_phase w !! i = Some ph → ¬ booted ph;
  bf_count i n : w_phase w !! i = Some (counted n) → n = users_of db0;
  bf_failed i e : w_phase w !! i = Some (finished (Throw e)) → alone (processes i) db0 = (Throw e, db0)
}.
(** Process [k] has. *)
Record after (k : nat) (r : BootstrapResult) (w : World) : Prop := {
  af_who : w_phase w !! k = Some (finished (Ok r));
  af_only i ph : w_phase w !! i = Some ph → booted ph → i = k;
  af_db : alone (processes k) db0 = (Ok r, w_db w);
  af_users : 0 < users_of (w_db w);
  af_count i n : w_phase w !! i = Some (counted n) → 0 < n
}.
Record boot_ok (w : World) : Prop := {
  bo_lock i ph : w_phase w !! i = Some ph → holds_lock ph ↔ w_lock w = Some i;
  bo_holder i : w_lock w = Some i → is_Some (w_phase w !! i);
  bo_state : before w ∨ ∃ k r, after k r w
}.

(** The phase of a process after [i] has moved to [ph]. *)
Lemma moved_phase (l : list Phase) i j old ph x :
  l !! i = Some old → <[i := ph]> l !! j = Some x → (j = i ∧ x = ph) ∨ (j ≠ i ∧ l !! j = Some x).
Proof.
  intros Hi Hj. destruct (decide (j = i)) as [->|Hne].
  - rewrite list_lookup_insert_eq in Hj by (by eapply lookup_lt_Some). left. by injection Hj as ->.
  - rewrite list_lookup_insert_ne in Hj by done. by right.
Qed.

Lemma started_ok n : boot_ok (started n db0).
Proof.
  split; cbn [started w_lock w_phase w_db].
  - intros i ph [-> _]%lookup_replicate. split; done.
  - done.
  - left. split; [done|..]; cbn [started w_phase].
    + intros i ph [-> _]%lookup_replicate. cbn. auto.
    + by intros i k [? _]%lookup_replicate.
    + by intros i e [? _]%lookup_replicate.
Qed.

(** A step that leaves the database alone and commits nothing. *)
Lemma quiet_step w i old ph lock :
  boot_ok w → w_phase w !! i = Some old → ¬ booted old → ¬ booted ph →
  (∀ n, ph = counted n → n = users_of (w_db w)) →
  (∀ e, ph = finished (Throw e) → before w → alone (processes i) db0 = (Throw e, db0)) →
  before (MkWorld (w_db w) lock (<[i := ph]> (w_phase w)))
  ∨ ∃ k r, after k r (MkWorld (w_db w) lock (<[i := ph]> (w_phase w))).
Proof.
  intros [_ _ Hstate] Hi Hold Hph Hcount Hfail. destruct Hstate as [Hb|(k & r & Ha)].
  - left. pose proof Hb as [Hdb Hnone Hn Hf]. split; cbn [w_db w_phase]; [done|..].
    + intros j x Hj. destruct (moved_phase _ _ _ _ _ _ Hi Hj) as [[-> ->]|[_ ?]]; [done|by eapply Hnone].
    + intros j n Hj. destruct (moved_phase _ _ _ _ _ _ Hi Hj) as [[-> <-]|[_ ?]]; [rewrite <- Hdb; by apply Hcount|by eapply Hn].
    + intros j e Hj. destruct (moved_phase _ _ _ _ _ _ Hi Hj) as [[-> <-]|[_ ?]]; [by apply Hfail|by eapply Hf].
  - right. exists k, r. destruct Ha as [Hk Honly Hdb Hu Hn].
    assert (k ≠ i) as Hki by (intros ->; rewrite Hk in Hi; injection Hi as <-; by apply Hold).
    split; cbn [w_db w_phase]; [by rewrite list_lookup_insert_ne|..|done|done|].
    + intros j x Hj Hx. destruct (moved_phase _ _ _ _ _ _ Hi Hj) as [[-> ->]|[_ ?]]; [done|by eapply Honly].
    + intros j n Hj. destruct (moved_phase _ _ _ _ _ _ Hi Hj) as [[-> <-]|[_ ?]]; [by rewrite (Hcount n)|by eapply Hn].
Qed.

(** The lock after a step of [i] to [ph]. *)
Lemma lock_step w i old ph :
  boot_ok w → w_phase w !! i = Some old → (w_lock w = Some i ∨ w_lock w = None) →
  let lock := match ph with locked | counted _ => Some i | _ => None end in
  (∀ j x, <[i := ph]> (w_phase w) !! j = Some x → holds_lock x ↔ lock = Some j)
  ∧ (∀ j, lock = Some j → is_Some (<[i := ph]> (w_phase w) !! j)).
Proof.
  intros [Hlock _ _] Hi Hl lock. split.
  - intros j x Hj. destruct (moved_phase _ _ _ _ _ _ Hi Hj) as [[-> ->]|[Hne Hj']]; [subst lock; by destruct ph|].
    assert (¬ holds_lock x) as Hx by (rewrite (Hlock j x Hj'); destruct Hl as [->| ->]; congruence).
    split; [done|]. intros E. subst lock. destruct ph; congruence.
  - intros j E. subst lock. exists ph. assert (j = i) as -> by (destruct ph; congruence).
    rewrite list_lookup_insert_eq; [done|]. by eapply lookup_lt_Some.
Qed.

Lemma boot_step_ok w i w' : boot_ok w → boot_step processes i w = Some w' → boot_ok w'.
Proof.
  intros Hok. pose proof Hok as [Hlock Hholder Hstate]. unfold boot_step.
  destruct (w_phase w !! i) as [[| |n|?]|] eqn:Hi; try done.
  - destruct (w_lock w) eqn:El; [done|]. intros [= <-].
    destruct (lock_step w i _ locked Hok Hi (or_intror El)) as [H1 H2]. split; [exact H1|exact H2|].
    apply (quiet_step w i waiting locked); auto; by intros ? [=].
  - cbn [count_users gets]. intros [= <-]. fold (users_of (w_db w)).
    assert (w_lock w = Some i) as El by (by apply (Hlock i locked)).
    destruct (lock_step w i _ (counted (users_of (w_db w))) Hok Hi (or_introl El)) as [H1 H2]. rewrite El.
    split; [exact H1|exact H2|]. apply (quiet_step w i locked (counted (users_of (w_db w)))); auto; [by intros n [= <-]|by intros ? [=]].
  - assert (w_lock w = Some i) as El by (by apply (Hlock i (counted n))).
    fold (commit (processes i) n). destruct (commit (processes i) n (w_db w)) as [[r|e] db'] eqn:Ec; intros [= <-].
    + destruct (lock_step w i _ (finished (Ok r)) Hok Hi (or_introl El)) as [H1 H2]. split; [exact H1|exact H2|].
      pose proof (commit_Ok _ _ _ _ _ Ec) as (Hn & Hr & -> & Hfree). right. exists i, r.
      destruct Hstate as [[Hdb Hnone Hc _]|(k & r' & [_ _ _ _ Hpos])]; [|specialize (Hpos i n Hi); lia].
      pose proof (Hc i n Hi) as ->. split; cbn [w_db w_phase].
      * rewrite list_lookup_insert_eq; [done|]. by eapply lookup_lt_Some.
      * intros j x Hj Hx. destruct (moved_phase _ _ _ _ _ _ Hi Hj) as [[-> _]|[_ Hj']]; [done|]. by apply Hnone in Hj'.
      * rewrite alone_commits, <- Hdb. rewrite <- Hdb in Ec. exact Ec.
      * rewrite first_owner_users by done. unfold users_of. lia.
      * intros j m Hj. destruct (moved_phase _ _ _ _ _ _ Hi Hj) as [[_ [=]]|[Hne Hj']].
        exfalso. apply Hne. assert (w_lock w = Some j) by (by apply (Hlock j (counted m))). congruence.
    + pose proof (commit_Throw _ _ _ _ _ Ec) as ->.
      destruct (lock_step w i _ (finished (Throw e)) Hok Hi (or_introl El)) as [H1 H2]. split; [exact H1|exact H2|].
      apply (quiet_step w i (counted n)); auto; [by intros ? [=]|]. intros ? [= <-] [Hdb _ Hc _].
      rewrite alone_commits, <- (Hc i n Hi), <- Hdb. exact Ec.
Qed.

Lemma reachable_ok n w : star (moves processes) (started n db0) w → boot_ok w.
Proof.
  intros Hr. apply (star_invariant (moves processes) boot_ok) with (2 := Hr); [|apply started_ok].
  intros a b Ha [i Hi]. by eapply boot_step_ok.
Qed.

(** Three steps a process, and none is left to wait for ever. *)
Definition phase_weight (ph : Phase) : nat :=
  match ph with waiting => 3 | locked => 2 | counted _ => 1 | finished _ => 0 end.
Definition weight (w : World) : nat := sum_list (map phase_weight (w_phase w)).

Lemma weight_insert (l : list Phase) i old ph :
  l !! i = Some old → (phase_weight ph < phase_weight old)%nat →
  (sum_list (map phase_weight (<[i := ph]> l)) < sum_list (map phase_weight l))%nat.
Proof.
  revert i. induction l as [|x l IH]; intros [|i] Hi Hp; try done.
  - injection Hi as ->. cbn [insert list_insert map sum_list sum_list_with]. cbn. lia.
  - specialize (IH i Hi Hp). change (sum_list (map phase_weight (<[S i:=ph]> (x :: l))))
      with (phase_weight x + sum_list (map phase_weight (<[i:=ph]> l)))%nat.
    change (sum_list (map phase_weight (x :: l))) with (phase_weight x + sum_list (map phase_weight l))%nat. lia.
Qed.

Lemma step_weight w i w' : boot_step processes i w = Some w' → (weight w' < weight w)%nat.
Proof.
  unfold boot_step, weight. destruct (w_phase w !! i) as [[| |n|?]|] eqn:Hi; try done.
  - destruct (w_lock w); [done|]. intros [= <-]. eapply weight_insert; [done|cbn; lia].
  - intros [= <-]. eapply weight_insert; [done|cbn; lia].
  - destruct (transact _ _) as [r db']. intros [= <-]. eapply weight_insert; [done|cbn; lia].
Qed.

Lemma not_stuck w i ph :
  boot_ok w → w_phase w !! i = Some ph → (∀ r, ph ≠ finished r) → ∃ w', moves processes w w'.
Proof.
  intros [Hlock Hholder _] Hi Hph. destruct (w_lock w) as [j|] eqn:El.
  - destruct (Hholder j eq_refl) as [x Hx]. assert (holds_lock x) as Hh by (by apply (Hlock j x Hx)).
    destruct x as [| |n|]; try done; unfold moves, boot_step.
    + eexists. exists j. rewrite Hx. reflexivity.
    + destruct (transact (create_first (pr_input (processes j)) (pr_slug (processes j)) (pr_hash (processes j))
                  (pr_draw (processes j)) (pr_now (processes j)) n) (w_db w)) as [r db'] eqn:Et.
      eexists. exists j. rewrite Hx, Et. reflexivity.
  - assert (ph = waiting) as ->.
    { destruct ph as [| |n|r]; [done|..|by destruct (Hph r)]; by discriminate (proj1 (Hlock i _ Hi) I). }
    eexists. exists i. unfold boot_step. rewrite Hi, El. reflexivity.
Qed.
End Reachable.

(** C26. There is one first owner.  However many processes run the command and however
    their steps interleave: at most one succeeds, and only where the table of users
    was empty; its organization, its owner with a confirmed address and the
    membership are then the whole difference to the database before, and until then
    the database is untouched; every step brings the processes closer to the end
    and one is possible until all have finished, so the command ends in every
    process; and when all have ended, some process has succeeded if every one of
    them would have succeeded by itself.  The slug of the organization has the form
    every other slug has. *)
Theorem one_first_owner (processes : nat → Process) (db0 : Db) (n : nat) (w : World)
  (Hr : star (moves processes) (started n db0) w) :
  (∀ i j r r', w_phase w !! i = Some (finished (Ok r)) → w_phase w !! j = Some (finished (Ok r')) → i = j)
  ∧ (∀ i r, w_phase w !! i = Some (finished (Ok r)) →
       users db0 = ∅ ∧ w_db w = first_owner (processes i) db0)
  ∧ ((∀ i r, w_phase w !! i ≠ Some (finished (Ok r))) → w_db w = db0)
  ∧ (∀ i w', boot_step processes i w = Some w' → (weight w' < weight w)%nat)
  ∧ ((∀ w', ¬ moves processes w w') → ∀ i ph, w_phase w !! i = Some ph → ∃ r, ph = finished r)
  ∧ ((∀ i, ∃ r db', alone (processes i) db0 = (Ok r, db')) → (0 < length (w_phase w))%nat →
       (∀ i ph, w_phase w !! i = Some ph → ∃ r, ph = finished r) → ∃ i r, w_phase w !! i = Some (finished (Ok r)))
  ∧ (∀ lower name slug, slugifyOrgName lower name = Ok slug → SLUG_PATTERN slug = true).
Proof.
  pose proof (reachable_ok _ _ _ _ Hr) as Hok. pose proof Hok as [_ _ Hstate]. split_and!.
  - intros i j r r' Hi Hj. destruct Hstate as [[_ Hnone _ _]|(k & r0 & [_ Honly _ _ _])].
    + by destruct (Hnone i _ Hi).
    + by rewrite (Honly i _ Hi I), (Honly j _ Hj I).
  - intros i r Hi. destruct Hstate as [[_ Hnone _ _]|(k & r0 & [_ Honly Hdb _ _])]; [by destruct (Hnone i _ Hi)|].
    rewrite (Honly i _ Hi I). rewrite alone_commits in Hdb. apply commit_Ok in Hdb as (Hn & _ & Hw & _).
    split; [|done]. apply map_size_empty_inv. unfold users_of in Hn. lia.
  - intros Hno. destruct Hstate as [[Hdb _ _ _]|(k & r0 & [Hk _ _ _ _])]; [done|by destruct (Hno k r0)].
  - intros i w'. apply step_weight.
  - intros Hstop i ph Hi. destruct ph as [| |m|r]; [..|eauto];
      (exfalso; edestruct (not_stuck processes db0 w i) as [w' Hw']; [done..|by eapply Hstop]).
  - intros Hall Hlen Hdone. destruct Hstate as [[_ Hnone _ Hfailed]|(k & r0 & [Hk _ _ _ _])]; [|eauto].
    destruct (lookup_lt_is_Some_2 (w_phase w) 0 Hlen) as [ph Hph]. destruct (Hdone _ _ Hph) as [[r|e] ->]; [by destruct (Hnone _ _ Hph)|].
    destruct (Hall 0%nat) as (r & db' & Ha). rewrite (Hfailed _ _ Hph) in Ha. done.
  - intros lower name slug. apply slug_of_name.
Qed.

(** ** Witnesses *)

(** Two operators type the command at once. *)
Definition operator (i : nat) : Process :=
  MkProcess (MkInput (js "ann@x.io") (js "correct horse") (js "Acme")) (js "acme") (js "hash")
    (if i is O then MkBootDraw "org_1" "usr_1" "mem_1" else MkBootDraw "org_2" "usr_2" "mem_2") 1.
Definition first_done : World :=
  MkWorld (first_owner (operator 0) empty_db) None [finished (Ok (MkBooted "org_1" "usr_1" (js "acme"))); waiting].

Lemma one_first_owner_witness :
  users empty_db = ∅ ∧ ∀ w', boot_step operator 1 first_done = Some w' → (weight w' < weight first_done)%nat.
Proof.
  assert (star (moves operator) (started 2 empty_db) first_done) as Hr.
  { eapply star_step; [exists 0%nat; reflexivity|]. eapply star_step; [exists 0%nat; reflexivity|].
    eapply star_step; [exists 0%nat; vm_compute; reflexivity|]. vm_compute. apply star_refl. }
  destruct (one_first_owner operator empty_db 2 first_done Hr) as (_ & Hone & _ & Hweight & _). split.
  - exact (proj1 (Hone 0%nat (MkBooted "org_1" "usr_1" (js "acme")) eq_refl)).
  - exact (Hweight 1%nat).
Defined.
