(* ===== verification/Schedulers.v ===== *)
(** The timers behind the sweeps: maintenance/auto-disable.scheduler.ts and
    usage.scheduler.ts, with the locks of endpoint-auto-disable.service.ts and
    usage-aggregator.service.ts.

    Every replica of the control plane runs both timers; a pass of a sweep first tries
    the advisory lock of that sweep and returns when it is held elsewhere.  The two
    locks differ: auto-disable holds its lock for a transaction, which is the pass;
    the usage sweep takes a lock of the database session, over whichever connection of
    the replica's pool carries the statement, and nothing gives it back but the end of
    that connection.  A fleet is the replicas, the lock of one sweep and the clock; what
    can happen to it is a sequence of events.  What a pass does while it holds the lock is
    AutoDisable's and Usage's. *)
From Stdlib Require Import ZArith Lia.
From S2P Require Import Prelude.
Open Scope Z_scope.

Inductive Sweep : Type := auto_disable | usage.
#[export] Instance Sweep_eq_dec : EqDecision Sweep.
Proof. solve_decision. Defined.

(** A pass in flight: before it has tried the lock, with it, without it, and one whose
    transaction the database has ended. *)
Inductive Pass : Type := trying | sweeping | passed_over | cut_off.
#[export] Instance Pass_eq_dec : EqDecision Pass.
Proof. solve_decision. Defined.

(** The fields of a scheduler: when the interval fires next, the flag, and the calls
    of [tick] that have not returned.  [booted] and [period] are what the interval
    was created with. *)
Record Scheduler : Type := MkScheduler {
  timer : option Z; running : bool; passes : list Pass; booted : Z; period : Z
}.
#[export] Instance Scheduler_eq_dec : EqDecision Scheduler.
Proof. solve_decision. Defined.
Definition fresh : Scheduler := MkScheduler None false [] 0 0.

Definition DEFAULT_INTERVAL_MINUTES : Z := 15.
(** [Number(...)] of the variable; None stands for NaN and for a fraction. *)
Definition usage_intervalMinutes (raw : option Z) : Z :=
  match raw with
  | Some n => if 0 <? n then n else DEFAULT_INTERVAL_MINUTES
  | None => DEFAULT_INTERVAL_MINUTES
  end.
Definition autoDisable_intervalMinutes (configured : option Z) : Z := default 15 configured.

Definition setInterval (now everyMs : Z) (s : Scheduler) : Scheduler :=
  MkScheduler (Some (now + everyMs)) (running s) (passes s) now everyMs.
Definition autoDisable_bootstrap (enabled : bool) (minutes now : Z) (s : Scheduler) : Scheduler :=
  if negb enabled then s else setInterval now (minutes * 60000) s.
Definition usage_bootstrap (minutes now : Z) (s : Scheduler) : Scheduler := setInterval now (minutes * 60000) s.
Definition onApplicationShutdown (s : Scheduler) : Scheduler :=
  MkScheduler None (running s) (passes s) (booted s) (period s).

(** [tick] and [pass] up to their first await. *)
Definition tick (s : Scheduler) : Scheduler :=
  if running s then s
  else MkScheduler (timer s) true (passes s ++ [trying]) (booted s) (period s).
(** The interval fires: the next time is set, the callback runs. *)
Definition fire (now : Z) (s : Scheduler) : Scheduler :=
  tick (MkScheduler (Some (now + period s)) (running s) (passes s) (booted s) (period s)).
(** The sweep of a call returns or throws: both reach the [finally]. *)
Definition finish (k : nat) (s : Scheduler) : Scheduler :=
  MkScheduler (timer s) false (delete k (passes s)) (booted s) (period s).

(** ** The fleet *)

(** The lock's holder is a replica, by one of its connections to the database. *)
Record Fleet : Type := MkFleet { clock : Z; lock : option (nat * nat); replicas : list Scheduler }.

(** The variables a replica starts with. *)
Record SweepConfig : Type := MkSweepConfig { sc_enabled : bool; sc_minutes : option Z }.

Inductive Event : Type :=
| e_wait (ms : Z)
| e_boot (config : SweepConfig)
| e_fire
| e_try (k connection : nat)
| e_end (k : nat)
| e_disconnect (connection : nat)
| e_shutdown.

Definition set_replica (i : nat) (s : Scheduler) (f : Fleet) : Fleet := MkFleet (clock f) (lock f) (<[i := s]> (replicas f)).
Definition set_lock (l : option (nat * nat)) (f : Fleet) : Fleet := MkFleet (clock f) l (replicas f).
Definition set_pass (k : nat) (p : Pass) (s : Scheduler) : Scheduler :=
  MkScheduler (timer s) (running s) (<[k := p]> (passes s)) (booted s) (period s).

(** The minutes the schema accepts are positive; the usage sweep has no switch. *)
Definition starts (kind : Sweep) (config : SweepConfig) : bool :=
  match kind with auto_disable => sc_enabled config | usage => true end.
Definition onApplicationBootstrap (kind : Sweep) (config : SweepConfig) (now : Z) (s : Scheduler) : Scheduler :=
  match kind with
  | auto_disable => autoDisable_bootstrap (sc_enabled config) (autoDisable_intervalMinutes (sc_minutes config)) now s
  | usage => usage_bootstrap (usage_intervalMinutes (sc_minutes config)) now s
  end.

(** [pg_try_advisory_xact_lock] and [pg_try_advisory_lock]: the second succeeds again for
    the session that has it. *)
Definition lock_granted (kind : Sweep) (me : nat * nat) (held : option (nat * nat)) : bool :=
  match held with
  | None => true
  | Some h => match kind with auto_disable => false | usage => bool_decide (h = me) end
  end.
(** The transaction ends with the pass; the session does not. *)
Definition lock_after (kind : Sweep) (held : option (nat * nat)) : option (nat * nat) :=
  match kind with auto_disable => None | usage => held end.
(** The transaction of a pass ends with its connection. *)
Definition cut (kind : Sweep) (s : Scheduler) : Scheduler :=
  match kind with
  | auto_disable => MkScheduler (timer s) (running s) (map (λ p, if p is sweeping then cut_off else p) (passes s)) (booted s) (period s)
  | usage => s
  end.

(** One event of replica [i]; None where it cannot happen. *)
Definition fleet_step (kind : Sweep) (i : nat) (e : Event) (f : Fleet) : option Fleet :=
  s ← replicas f !! i;
  match e with
  | e_wait ms => if 0 <=? ms then Some (MkFleet (clock f + ms) (lock f) (replicas f)) else None
  | e_boot config =>
      if bool_decide (s = fresh) && (0 <? default 1 (sc_minutes config))
      then Some (set_replica i (onApplicationBootstrap kind config (clock f) s) f) else None
  | e_fire =>
      match timer s with
      | Some t => if t <=? clock f then Some (set_replica i (fire (clock f) s) f) else None
      | None => None
      end
  | e_try k connection =>
      match passes s !! k with
      | Some trying =>
          if lock_granted kind (i, connection) (lock f)
          then Some (set_lock (Some (i, connection)) (set_replica i (set_pass k sweeping s) f))
          else Some (set_replica i (set_pass k passed_over s) f)
      | _ => None
      end
  | e_end k =>
      match passes s !! k with
      | Some sweeping => Some (set_lock (lock_after kind (lock f)) (set_replica i (finish k s) f))
      | Some _ => Some (set_replica i (finish k s) f)
      | None => None
      end
  | e_disconnect connection =>
      if bool_decide (lock f = Some (i, connection))
      then Some (set_lock None (set_replica i (cut kind s) f)) else Some f
  | e_shutdown => Some (set_replica i (onApplicationShutdown s) f)
  end.

Fixpoint fleet_run (kind : Sweep) (events : list (nat * Event)) (f : Fleet) : option Fleet :=
  match events with
  | [] => Some f
  | (i, e) :: events => f' ← fleet_step kind i e f; fleet_run kind events f'
  end.
Definition deployed (n : nat) (now : Z) : Fleet := MkFleet now None (replicate n fresh).

Lemma fleet_run_invariant kind (P : Fleet → Prop) events f f' :
  (∀ i e g g', (i, e) ∈ events → P g → fleet_step kind i e g = Some g' → P g') →
  P f → fleet_run kind events f = Some f' → P f'.
Proof.
  revert f. induction events as [|[i e] events IH]; intros f Hstep Hf; cbn [fleet_run]; [by intros [= <-]|].
  destruct (fleet_step kind i e f) as [g|] eqn:E; [|done]. cbn [mbind option_bind].
  apply IH; [|by eapply Hstep; [left| |]]. intros j e' a b Hin. apply Hstep. by right.
Qed.

(** ** What the fleet keeps *)

Record scheduler_ok (now : Z) (s : Scheduler) : Prop := {
  so_one : passes s = [] ∧ running s = false ∨ ∃ p, passes s = [p] ∧ running s = true;
  so_timer t : timer s = Some t → booted s + period s <= t;
  so_pass : passes s ≠ [] → booted s + period s <= now;
  so_period : 0 <= period s
}.
(** The lock of the auto-disable sweep is held by the replica that sweeps, and by no other. *)
Record fleet_ok (kind : Sweep) (f : Fleet) : Prop := {
  fo_each i s : replicas f !! i = Some s → scheduler_ok (clock f) s;
  fo_held i c : lock f = Some (i, c) → is_Some (replicas f !! i);
  fo_lock i s : kind = auto_disable → replicas f !! i = Some s → sweeping ∈ passes s ↔ ∃ c, lock f = Some (i, c)
}.
(** The lock of the usage sweep is with the replica that sweeps: until a connection ends. *)
Definition usage_held (f : Fleet) : Prop :=
  ∀ i s, replicas f !! i = Some s → sweeping ∈ passes s → ∃ c, lock f = Some (i, c).

Lemma scheduler_later now now' s : scheduler_ok now s → now <= now' → scheduler_ok now' s.
Proof. intros [H1 H2 H3 H4] Hle. split; [done..| |done]. intros Hp. specialize (H3 Hp). lia. Qed.

(** Replacing one replica. *)
Lemma fleet_replace kind f i s s' l :
  fleet_ok kind f → replicas f !! i = Some s → scheduler_ok (clock f) s' →
  (∀ j c, l = Some (j, c) → lock f = Some (j, c) ∨ j = i) →
  (kind = auto_disable → (sweeping ∈ passes s' ↔ ∃ c, l = Some (i, c))
     ∧ ∀ j, j ≠ i → (∃ c, lock f = Some (j, c)) ↔ ∃ c, l = Some (j, c)) →
  fleet_ok kind (set_lock l (set_replica i s' f)).
Proof.
  intros [Heach Hheld Hlock] Hi Hs Hl Hsweep. pose proof (lookup_lt_Some _ _ _ Hi) as Hlt.
  split; cbn [set_lock set_replica replicas clock lock].
  - intros j x Hj. destruct (decide (j = i)) as [->|Hne].
    + rewrite list_lookup_insert_eq in Hj by done. by injection Hj as <-.
    + rewrite list_lookup_insert_ne in Hj by done. by eapply Heach.
  - intros j c Hj. destruct (Hl j c Hj) as [Hf| ->]; [|rewrite list_lookup_insert_eq by done; by eexists].
    destruct (decide (j = i)) as [->|Hne]; [rewrite list_lookup_insert_eq by done; by eexists|].
    rewrite list_lookup_insert_ne by done. by eapply Hheld.
  - intros j x Hk Hj. destruct (Hsweep Hk) as [Hmine Hothers]. destruct (decide (j = i)) as [->|Hne].
    + rewrite list_lookup_insert_eq in Hj by done. by injection Hj as <-.
    + rewrite list_lookup_insert_ne in Hj by done. rewrite (Hlock j x Hk Hj). by apply Hothers.
Qed.

Lemma fleet_quiet kind f i s s' :
  fleet_ok kind f → replicas f !! i = Some s → scheduler_ok (clock f) s' →
  (sweeping ∈ passes s' ↔ sweeping ∈ passes s) → fleet_ok kind (set_replica i s' f).
Proof.
  intros Hf Hi Hs Hsame. change (set_replica i s' f) with (set_lock (lock f) (set_replica i s' f)).
  apply (fleet_replace kind f i s); [done..|by left|]. intros Hk. split; [|done]. rewrite Hsame. by apply (fo_lock kind f Hf).
Qed.

Lemma fire_ok now s t :
  scheduler_ok now s → timer s = Some t → t <= now →
  scheduler_ok now (fire now s) ∧ (sweeping ∈ passes (fire now s) ↔ sweeping ∈ passes s).
Proof.
  intros [Hone Htimer Hpass Hper] Ht Hle. specialize (Htimer t Ht). unfold fire, tick. cbn [running passes timer booted period].
  destruct Hone as [[Hp Hr]|(p & Hp & Hr)]; rewrite Hr; cbn [passes]; rewrite Hp; (split; [|set_solver]);
    (split; cbn [passes running timer booted period];
     [try (left; done); right; by eexists|intros t' [= <-]; lia|intros _; lia|done]).
Qed.

Lemma finish_ok now s k :
  scheduler_ok now s → is_Some (passes s !! k) → scheduler_ok now (finish k s) ∧ passes (finish k s) = [].
Proof.
  intros [Hone Htimer Hpass Hper] [p Hk]. unfold finish. destruct Hone as [[Hp Hr]|(q & Hp & Hr)]; rewrite Hp in Hk |- *; [done|].
  destruct k as [|k]; [|done]. cbn [delete list_delete]. split; [|done]. split; cbn [passes running timer booted period]; auto; done.
Qed.

Lemma one_pass now s k p : scheduler_ok now s → passes s !! k = Some p → passes s = [p] ∧ k = 0%nat ∧ running s = true.
Proof.
  intros [Hone _ _ _] Hk. destruct Hone as [[Hp _]|(q & Hp & Hr)]; rewrite Hp in Hk |- *; [done|].
  destruct k as [|k]; [|done]. by injection Hk as ->.
Qed.

Lemma set_pass_ok now s k q x :
  scheduler_ok now s → passes s !! k = Some q → scheduler_ok now (set_pass k x s) ∧ passes (set_pass k x s) = [x].
Proof.
  intros Hs Hk. destruct (one_pass _ _ _ _ Hs Hk) as (Hp & -> & Hr). destruct Hs as [_ Htimer Hpass Hper].
  unfold set_pass. rewrite Hp. cbn. split; [|done]. split; cbn; eauto. intros _. apply Hpass. by rewrite Hp.
Qed.

Lemma cut_ok kind now s : scheduler_ok now s → scheduler_ok now (cut kind s).
Proof.
  intros [H1 H2 H3 H4]. destruct kind; [|by split]. split; cbn; [|done| |done].
  - destruct H1 as [[-> ?]|(p & -> & ?)]; [by left|right; by eexists].
  - intros Hp. apply H3. by intros Hnil; rewrite Hnil in Hp.
Qed.
Lemma cut_sweeping s : sweeping ∉ passes (cut auto_disable s).
Proof. cbn. intros (p & Hp & _)%list_elem_of_fmap. by destruct p. Qed.

Lemma boot_ok kind config now s : 0 <? default 1 (sc_minutes config) = true → s = fresh →
  scheduler_ok now (onApplicationBootstrap kind config now s) ∧ passes (onApplicationBootstrap kind config now s) = [].
Proof.
  intros Hm%Z.ltb_lt ->. assert (∀ m, 0 <= m → scheduler_ok now (setInterval now (m * 60000) fresh)) as H.
  { intros m Hle. split; cbn; auto; [intros t [= <-]; lia|done|lia]. }
  assert (scheduler_ok now fresh) as Hf by (split; cbn; auto; done).
  destruct kind; cbn [onApplicationBootstrap].
  - unfold autoDisable_bootstrap. destruct (sc_enabled config); cbn [negb]; (split; [|done]); [|done]. apply H.
    unfold autoDisable_intervalMinutes. destruct (sc_minutes config); cbn in *; lia.
  - split; [|done]. apply H. unfold usage_intervalMinutes, DEFAULT_INTERVAL_MINUTES.
    destruct (sc_minutes config) as [m|]; [|lia]. destruct (Z.ltb_spec 0 m); lia.
Qed.

Lemma try_ok kind i k c f s f' : fleet_ok kind f → replicas f !! i = Some s →
  fleet_step kind i (e_try k c) f = Some f' → fleet_ok kind f'.
Proof.
  intros Hf Hi. unfold fleet_step. rewrite Hi. cbn [mbind option_bind]. pose proof (fo_each kind f Hf i s Hi) as Hs.
  destruct (passes s !! k) as [[]|] eqn:Ek; try done. destruct (one_pass _ _ _ _ Hs Ek) as (Hp & _ & _).
  destruct (lock_granted kind (i, c) (lock f)) eqn:Eg; intros [= <-].
  - destruct (set_pass_ok _ _ _ _ sweeping Hs Ek) as [H1 H2].
    apply (fleet_replace kind f i s); [done..|by intros j d [= <- <-]; right|]. intros ->. rewrite H2.
    assert (lock f = None) as -> by (unfold lock_granted in Eg; by destruct (lock f)). split.
    + split; [by eexists|]. intros _. left.
    + intros j Hj. split; [by intros [? ?]|]. intros [? [= ? ?]]. congruence.
  - destruct (set_pass_ok _ _ _ _ passed_over Hs Ek) as [H1 H2]. apply (fleet_quiet kind f i s); [done..|]. rewrite H2, Hp. set_solver.
Qed.
Lemma end_ok kind i k f s f' : fleet_ok kind f → replicas f !! i = Some s →
  fleet_step kind i (e_end k) f = Some f' → fleet_ok kind f'.
Proof.
  intros Hf Hi. unfold fleet_step. rewrite Hi. cbn [mbind option_bind]. pose proof (fo_each kind f Hf i s Hi) as Hs.
  destruct (passes s !! k) as [p|] eqn:Ek; [|done]. destruct (one_pass _ _ _ _ Hs Ek) as (Hp & _ & _).
  destruct (finish_ok _ _ k Hs ltac:(by eexists)) as [H1 H2].
  assert (sweeping ∉ passes (finish k s)) as Hno by (rewrite H2; apply not_elem_of_nil).
  assert (p ≠ sweeping → fleet_ok kind (set_replica i (finish k s) f)) as Hq.
  { intros Hne. apply (fleet_quiet kind f i s); [done..|]. split; [by intros ?|]. rewrite Hp. intros Hin%list_elem_of_singleton. by destruct Hne. }
  destruct p; intros [= <-]; [by apply Hq| |by apply Hq|by apply Hq].
  apply (fleet_replace kind f i s); [done..| |].
  - intros j d Hl. left. by destruct kind.
  - intros ->. cbn [lock_after]. split; [split; [done|by intros [? ?]]|]. intros j Hj.
    destruct (proj1 (fo_lock _ f Hf i s eq_refl Hi)) as [c ->]; [rewrite Hp; left|].
    split; [intros [? [= ? ?]]; congruence|by intros [? ?]].
Qed.
Lemma disconnect_ok kind i c f s f' : fleet_ok kind f → replicas f !! i = Some s →
  fleet_step kind i (e_disconnect c) f = Some f' → fleet_ok kind f'.
Proof.
  intros Hf Hi. unfold fleet_step. rewrite Hi. cbn [mbind option_bind]. case_bool_decide as El; intros [= <-]; [|done].
  apply (fleet_replace kind f i s); [done|done|apply cut_ok; by eapply fo_each|by intros ? ?|]. intros ->. split.
  - split; [by intros ?%cut_sweeping|by intros [? ?]].
  - intros j Hj. rewrite El. split; [intros [? [= ? ?]]; congruence|by intros [? ?]].
Qed.

Lemma fleet_step_ok kind i e f f' : fleet_ok kind f → fleet_step kind i e f = Some f' → fleet_ok kind f'.
Proof.
  intros Hf Hstep. destruct (replicas f !! i) as [s|] eqn:Hi; [|unfold fleet_step in Hstep; by rewrite Hi in Hstep].
  pose proof (fo_each kind f Hf i s Hi) as Hs. destruct e as [ms|config| |k c|k|c|].
  all: try (by eapply try_ok); try (by eapply end_ok); try (by eapply disconnect_ok).
  all: unfold fleet_step in Hstep; rewrite Hi in Hstep; cbn [mbind option_bind] in Hstep; revert Hstep.
  - destruct (Z.leb_spec 0 ms); [|done]. intros [= <-]. destruct Hf as [Heach Hheld Hlock].
    split; cbn [replicas clock lock]; [|done|done]. intros j x Hj. eapply scheduler_later; [by eapply Heach|lia].
  - case_bool_decide as Hfresh; [|done]. cbn [andb]. destruct (0 <? _) eqn:Em; [|done]. intros [= <-].
    destruct (boot_ok kind config (clock f) s Em Hfresh) as [H1 H2]. apply (fleet_quiet kind f i s); [done..|]. by rewrite H2, Hfresh.
  - destruct (timer s) as [t|] eqn:Et; [|done]. destruct (Z.leb_spec t (clock f)); [|done]. intros [= <-].
    destruct (fire_ok _ _ _ Hs Et ltac:(done)) as [H1 H2]. by apply (fleet_quiet kind f i s).
  - intros [= <-]. apply (fleet_quiet kind f i s); [done|done|..|done]. destruct Hs as [H1 H2 H3 H4]. split; cbn; auto; done.
Qed.

Lemma deployed_ok kind n now : fleet_ok kind (deployed n now).
Proof.
  split; cbn [deployed replicas clock lock]; [|done|].
  - intros i s [-> _]%lookup_replicate. split; cbn; auto; done.
  - intros i s _ [-> _]%lookup_replicate. split; [by intros ?%not_elem_of_nil|by intros [? ?]].
Qed.

Lemma reachable_fleet kind n now events f : fleet_run kind events (deployed n now) = Some f → fleet_ok kind f.
Proof.
  apply (fleet_run_invariant kind (fleet_ok kind)); [|apply deployed_ok]. intros i e g g' _. apply fleet_step_ok.
Qed.

(** Away from the ends of connections, the usage sweep's lock is with the replica that sweeps. *)
Lemma usage_step i e f f' : (∀ c, e ≠ e_disconnect c) → fleet_ok usage f → usage_held f →
  fleet_step usage i e f = Some f' → usage_held f'.
Proof.
  intros He Hf Hu Hstep. destruct (replicas f !! i) as [s|] eqn:Hi; [|unfold fleet_step in Hstep; by rewrite Hi in Hstep].
  pose proof (fo_each usage f Hf i s Hi) as Hs. pose proof (lookup_lt_Some _ _ _ Hi) as Hlt.
  assert (∀ l s', (∀ j c, j ≠ i → lock f = Some (j, c) → l = Some (j, c)) → (sweeping ∈ passes s' → ∃ c, l = Some (i, c)) →
            usage_held (set_lock l (set_replica i s' f))) as Hgo.
  { intros l s' Hl Hs' j x Hj Hx. cbn [set_lock set_replica replicas lock] in *. destruct (decide (j = i)) as [->|Hne].
    - rewrite list_lookup_insert_eq in Hj by done. injection Hj as <-. by apply Hs'.
    - rewrite list_lookup_insert_ne in Hj by done. destruct (Hu j x Hj Hx) as [c Hc]. exists c. by apply Hl. }
  assert (∀ s', (sweeping ∈ passes s' → sweeping ∈ passes s) → usage_held (set_replica i s' f)) as Hquiet.
  { intros s' Hs'. change (set_replica i s' f) with (set_lock (lock f) (set_replica i s' f)). apply Hgo; [done|].
    intros Hx. by apply (Hu i s Hi), Hs'. }
  unfold fleet_step in Hstep. rewrite Hi in Hstep. cbn [mbind option_bind] in Hstep. revert Hstep.
  destruct e as [ms|config| |k c|k|c|]; [| | | | |by destruct (He c)|].
  - destruct (0 <=? ms); [|done]. by intros [= <-].
  - case_bool_decide as Hfresh; [|done]. cbn [andb]. destruct (0 <? _); [|done]. intros [= <-]. by apply Hquiet.
  - destruct (timer s) as [t|] eqn:Et; [|done]. destruct (Z.leb_spec t (clock f)); [|done]. intros [= <-].
    apply Hquiet, (fire_ok _ _ _ Hs Et). done.
  - destruct (passes s !! k) as [[]|] eqn:Ek; try done. destruct (lock_granted _ _ _) eqn:Eg; intros [= <-].
    + apply Hgo; [|by eexists]. intros j d Hj Hl. rewrite Hl in Eg. cbn in Eg. by apply bool_decide_eq_true in Eg as [= -> ->].
    + apply Hquiet. destruct (set_pass_ok _ _ _ _ passed_over Hs Ek) as [_ ->]. by intros ?%list_elem_of_singleton.
  - destruct (passes s !! k) as [p|] eqn:Ek; [|done]. destruct (finish_ok _ _ k Hs ltac:(by eexists)) as [_ Hp].
    destruct p; intros [= <-]; try (apply Hquiet; rewrite Hp; by intros ?%not_elem_of_nil).
  - intros [= <-]. by apply Hquiet.
Qed.

(** What a replica that is never switched on does. *)
Definition idle (i : nat) (f : Fleet) : Prop := ∀ s, replicas f !! i = Some s → timer s = None ∧ passes s = [].
Lemma idle_step kind i j e f f' : (∀ config, (j, e) = (i, e_boot config) → starts kind config = false) →
  idle i f → fleet_step kind j e f = Some f' → idle i f'.
Proof.
  intros Hoff Hidle Hstep. destruct (replicas f !! j) as [s|] eqn:Hj; [|unfold fleet_step in Hstep; by rewrite Hj in Hstep].
  pose proof (lookup_lt_Some _ _ _ Hj) as Hlt.
  assert (∀ l s', (j = i → timer s' = None ∧ passes s' = []) → idle i (set_lock l (set_replica j s' f))) as Hgo.
  { intros l s' Hs' x Hx. cbn [set_lock set_replica replicas] in Hx. destruct (decide (i = j)) as [->|Hne].
    - rewrite list_lookup_insert_eq in Hx by done. injection Hx as <-. by apply Hs'.
    - rewrite list_lookup_insert_ne in Hx by done. by apply Hidle. }
  assert (∀ s', (j = i → timer s' = None ∧ passes s' = []) → idle i (set_replica j s' f)) as Hgo' by (intros s'; apply (Hgo (lock f))).
  assert (j = i → timer s = None ∧ passes s = []) as Hme by (intros ->; by apply Hidle).
  unfold fleet_step in Hstep. rewrite Hj in Hstep. cbn [mbind option_bind] in Hstep. revert Hstep.
  destruct e as [ms|config| |k c|k|c|].
  - destruct (0 <=? ms); [|done]. by intros [= <-].
  - case_bool_decide as Hfresh; [|done]. cbn [andb]. destruct (0 <? _); [|done]. intros [= <-]. apply Hgo'. intros ->.
    specialize (Hoff config eq_refl). destruct kind; [|done]. cbn in *. unfold autoDisable_bootstrap. rewrite Hoff. by apply Hme.
  - destruct (timer s) as [t|] eqn:Et; [|done]. destruct (t <=? clock f); [|done]. intros [= <-]. apply Hgo'. intros Hji.
    by destruct (Hme Hji).
  - destruct (passes s !! k) as [[]|] eqn:Ek; try done. destruct (lock_granted _ _ _); intros [= <-]; [apply Hgo|apply Hgo'];
      intros Hji; destruct (Hme Hji) as [_ Hp]; by rewrite Hp in Ek.
  - destruct (passes s !! k) as [p|] eqn:Ek; [|done].
    assert (j = i → False) as Hno by (intros Hji; destruct (Hme Hji) as [_ Hp]; by rewrite Hp in Ek).
    destruct p; intros [= <-]; try (apply Hgo'; by intros ?%Hno); apply Hgo; by intros ?%Hno.
  - case_bool_decide; intros [= <-]; [|done]. apply Hgo. intros Hji. destruct (Hme Hji) as [Ht Hp]. destruct kind; [|done]. cbn. by rewrite Hp.
  - intros [= <-]. apply Hgo'. intros Hji. destruct (Hme Hji) as [Ht Hp]. by cbn.
Qed.

(** The session keeps the lock of the usage sweep. *)
Lemma lock_kept i c j e f f' : (j, e) ≠ (i, e_disconnect c) → lock f = Some (i, c) → fleet_step usage j e f = Some f' → lock f' = Some (i, c).
Proof.
  intros He Hl. unfold fleet_step. destruct (replicas f !! j) as [s|]; [|done]. cbn [mbind option_bind].
  destruct e as [ms|config| |k d|k|d|]; intros Hstep; repeat case_match; try discriminate Hstep; injection Hstep as <-; cbn [set_lock set_replica lock lock_after]; try done.
  - match goal with H : lock_granted _ _ _ = true |- _ => rewrite Hl in H; cbn in H; by apply bool_decide_eq_true in H as [= -> ->] end.
  - match goal with H : bool_decide _ = true |- _ => apply bool_decide_eq_true in H; rewrite Hl in H; injection H as -> -> end. done.
Qed.

(** C29. The background passes do not pile up.  For either sweep, in a fleet of any number
    of replicas and after any sequence of events: a replica has at most one pass in
    flight, and its flag says so; no pass runs before a whole interval has gone by
    since the replica started; a tick during a pass starts nothing; once the pass has
    ended, however it ended, the next tick starts one; and a replica whose sweep is
    switched off at its start never has a timer or a pass.  Across replicas: the lock of
    the auto-disable sweep is held exactly while a replica sweeps, and by that replica,
    so that at most one does.  The usage sweep has the same of a fleet that has lost no
    connection; but its lock, once taken, stays with the connection that took it
    through every later event but the end of that connection, however many passes have
    ended, and a pass that asks over any other connection, of the same replica too, does
    not sweep. *)
Theorem passes_do_not_pile_up (kind : Sweep) (n : nat) (now : Z) (events : list (nat * Event)) (f : Fleet)
    (Hr : fleet_run kind events (deployed n now) = Some f) :
  (∀ i s, replicas f !! i = Some s →
     (length (passes s) <= 1)%nat ∧ (running s = true ↔ passes s ≠ [])
     ∧ (passes s ≠ [] → booted s + period s <= clock f)
     ∧ (running s = true → passes (tick s) = passes s)
     ∧ (∀ k, is_Some (passes s !! k) → passes (tick (finish k s)) = [trying])
     ∧ ((∀ config, (i, e_boot config) ∈ events → starts kind config = false) → timer s = None ∧ passes s = []))
  ∧ (kind = auto_disable →
       (∀ i s, replicas f !! i = Some s → sweeping ∈ passes s ↔ ∃ c, lock f = Some (i, c))
       ∧ (∀ i c, lock f = Some (i, c) → is_Some (replicas f !! i))
       ∧ ∀ i j s t, replicas f !! i = Some s → replicas f !! j = Some t → sweeping ∈ passes s → sweeping ∈ passes t → i = j)
  ∧ (kind = usage →
       ((∀ i c, (i, e_disconnect c) ∉ events) →
          ∀ i j s t, replicas f !! i = Some s → replicas f !! j = Some t → sweeping ∈ passes s → sweeping ∈ passes t → i = j)
       ∧ ∀ i c later f', lock f = Some (i, c) → (i, e_disconnect c) ∉ later → fleet_run usage later f = Some f' →
           lock f' = Some (i, c)
           ∧ ∀ j d k g t, (j, d) ≠ (i, c) → fleet_step usage j (e_try k d) f' = Some g → replicas g !! j = Some t →
               sweeping ∉ passes t).
Proof.
  pose proof (reachable_fleet _ _ _ _ _ Hr) as Hf. pose proof Hf as [Heach Hheld Hlock]. split; [|split].
  - intros i s Hi. pose proof (Heach i s Hi) as Hs. pose proof Hs as [Hone Htimer Hpass _]. split_and!; try done.
    + destruct Hone as [[-> _]|(p & -> & _)]; cbn; lia.
    + destruct Hone as [[-> ->]|(p & -> & ->)]; split; done.
    + intros Hrun. unfold tick. by rewrite Hrun.
    + intros k Hk. destruct (finish_ok _ _ k Hs Hk) as [_ Hp]. unfold tick. cbn [running finish]. cbn [passes] in *. by rewrite Hp.
    + intros Hoff. clear Hs Hone Htimer Hpass. revert s Hi.
      apply (fleet_run_invariant kind (idle i) events (deployed n now)); [|intros s [-> _]%lookup_replicate; done|done].
      intros j e g g' Hin. apply idle_step. intros config [= -> ->]. by apply Hoff.
  - intros ->. split; [intros i s Hi; by apply Hlock|]. split; [done|]. intros i j s t Hi Hj Hs Ht.
    apply (Hlock i s eq_refl Hi) in Hs as [c Hs]. apply (Hlock j t eq_refl Hj) in Ht as [d Ht]. congruence.
  - intros ->. split.
    + intros Hno. assert (fleet_ok usage f ∧ usage_held f) as [_ Hu].
      { apply (fleet_run_invariant usage (λ g, fleet_ok usage g ∧ usage_held g) events (deployed n now)); [| |done].
        - intros i e g g' Hin [Hg1 Hg2] Hstep. split; [by eapply fleet_step_ok|]. eapply usage_step; [|done..]. intros c ->. by apply (Hno i c).
        - split; [apply deployed_ok|]. intros i s [-> _]%lookup_replicate. by intros ?%not_elem_of_nil. }
      intros i j s t Hi Hj Hs Ht. destruct (Hu i s Hi Hs) as [c Hc], (Hu j t Hj Ht) as [d Hd]. congruence.
    + intros i c later f' Hl Hno Hrun.
      assert (fleet_ok usage f' ∧ lock f' = Some (i, c)) as [Hf' Hl'].
      { apply (fleet_run_invariant usage (λ g, fleet_ok usage g ∧ lock g = Some (i, c)) later f); [|done..].
        intros j e g g' Hin [Hg1 Hg2] Hstep. split; [by eapply fleet_step_ok|]. eapply lock_kept; [|done..]. intros E. by rewrite E in Hin. }
      split; [done|]. intros j d k g t Hne. unfold fleet_step. destruct (replicas f' !! j) as [s|] eqn:Hj; [|done]. cbn [mbind option_bind].
      destruct (passes s !! k) as [[]|] eqn:Ek; try done. rewrite Hl'. cbn [lock_granted]. rewrite bool_decide_eq_false_2 by congruence.
      intros [= <-]. cbn [set_replica replicas]. rewrite list_lookup_insert_eq by (by eapply lookup_lt_Some). intros [= <-].
      destruct (set_pass_ok _ _ _ _ passed_over (fo_each usage f' Hf' j s Hj) Ek) as [_ ->]. by intros ?%list_elem_of_singleton.
Qed.

(** ** Two replicas *)

Definition on15 : SweepConfig := MkSweepConfig true (Some 15).
Definition off15 : SweepConfig := MkSweepConfig false (Some 15).
(** The first replica sweeps over its connection 3 while the second tries, and ends; then the
    second tries, and the first over another connection. *)
Definition first_round : list (nat * Event) :=
  [(0%nat, e_boot on15); (1%nat, e_boot on15); (0%nat, e_wait 900000); (0%nat, e_fire); (1%nat, e_fire); (0%nat, e_try 0 3);
   (1%nat, e_try 0 0); (1%nat, e_end 0); (0%nat, e_end 0)].
Definition second_round : list (nat * Event) :=
  [(0%nat, e_wait 900000); (0%nat, e_fire); (1%nat, e_fire); (1%nat, e_try 0 1); (0%nat, e_try 0 2)].
Definition after (kind : Sweep) (events : list (nat * Event)) : option (option (nat * nat) * list (list Pass)) :=
  (λ f, (lock f, map passes (replicas f))) <$> fleet_run kind events (deployed 2 0).

(** The lock of the auto-disable sweep goes round; that of the usage sweep is lost with an
    idle connection: nobody bills. *)
Example auto_disable_goes_on :
  after auto_disable (first_round ++ second_round) = Some (Some (1%nat, 1%nat), [[passed_over]; [sweeping]]).
Proof. vm_compute. reflexivity. Qed.
Example nobody_bills : after usage (first_round ++ second_round) = Some (Some (0%nat, 3%nat), [[passed_over]; [passed_over]]).
Proof. vm_compute. reflexivity. Qed.
(** And a connection that ends during a pass lets a second replica in. *)
Example both_bill :
  after usage (take 6 first_round ++ [(0%nat, e_disconnect 3); (1%nat, e_try 0 0)]) = Some (Some (1%nat, 0%nat), [[sweeping]; [sweeping]]).
Proof. vm_compute. reflexivity. Qed.

Lemma passes_do_not_pile_up_witness :
  (∃ f, fleet_run usage first_round (deployed 2 0) = Some f ∧ lock f = Some (0%nat, 3%nat)
     ∧ ∀ f', fleet_run usage second_round f = Some f' → lock f' = Some (0%nat, 3%nat))
  ∧ ∃ f s, fleet_run auto_disable [(0%nat, e_boot off15); (0%nat, e_wait 900000)] (deployed 2 0) = Some f
     ∧ replicas f !! 0%nat = Some s ∧ timer s = None.
Proof.
  split.
  - assert (∃ f, fleet_run usage first_round (deployed 2 0) = Some f ∧ lock f = Some (0%nat, 3%nat)) as (f & Hf & Hl)
      by (eexists; split; vm_compute; reflexivity).
    exists f. split; [exact Hf|]. split; [exact Hl|]. intros f' Hf'.
    apply (proj2 (proj2 (proj2 (passes_do_not_pile_up usage 2 0 first_round f Hf)) eq_refl) 0%nat 3%nat second_round f' Hl); [|exact Hf'].
    intros Hin. repeat (apply elem_of_cons in Hin as [Hin|Hin]; [discriminate Hin|]). by apply not_elem_of_nil in Hin.
  - assert (∃ f s, fleet_run auto_disable [(0%nat, e_boot off15); (0%nat, e_wait 900000)] (deployed 2 0) = Some f
      ∧ replicas f !! 0%nat = Some s) as (f & s & Hf & Hs) by (do 2 eexists; split; vm_compute; reflexivity).
    exists f, s. split; [exact Hf|]. split; [exact Hs|].
    apply (proj1 (passes_do_not_pile_up auto_disable 2 0 _ f Hf) 0%nat s Hs). intros config Hin.
    apply elem_of_cons in Hin as [[= ->]|Hin]; [reflexivity|]. apply elem_of_cons in Hin as [[=]|Hin]. by apply not_elem_of_nil in Hin.
Defined.
