(* ===== verification/Tracing.v ===== *)
(** What a request leaves in traces and logs: common/request-id.ts,
    tracing/span-attributes.ts, http-trace.middleware.ts, prisma-tracing.ts,
    tracing.config.ts and otel-diagnostics.ts, with config/cors.ts and
    trust-proxy.ts.

    A span is a record of its name, attributes, status and how often it was ended;
    the tracing library keeps it elsewhere.  The guard is Resolver's. *)
From Stdlib Require Import ZArith Lia QArith Lqa.
From S2P Require Import Prelude Js Permissions RetryRules AuditTrail Db Scope Members Resolver.
Open Scope Z_scope.

(** ** request-id.ts *)

Definition id_char (c : N) : bool := is_upper c || is_lower c || is_digit c || (c =? 45)%N || (c =? 95)%N.
(** One to 64 letters, digits, underscores and hyphens. *)
Definition REQUEST_ID_PATTERN (s : jsstr) : bool := (0 <? jslen s) && (jslen s <=? 64) && forallb id_char s.
Definition isValidRequestId (value : jsval) : bool := if value is JStr s then REQUEST_ID_PATTERN s else false.
(** The first of a repeated header. *)
Definition headerValue (header : jsval) : jsval :=
  match header with JArr l => default JUndefined (head l) | h => h end.
(** [randomUUID()] is drawn. *)
Definition resolveRequestId (header : jsval) (uuid : jsstr) : jsstr :=
  match headerValue header with
  | JStr s => if REQUEST_ID_PATTERN s then s else js "req_" ++ uuid
  | _ => js "req_" ++ uuid
  end.
Definition requestIdForResponse (id header : jsval) : jsstr :=
  match id with
  | JStr s => if REQUEST_ID_PATTERN s then s else
      match headerValue header with JStr h => if REQUEST_ID_PATTERN h then h else js "unknown" | _ => js "unknown" end
  | _ => match headerValue header with JStr h => if REQUEST_ID_PATTERN h then h else js "unknown" | _ => js "unknown" end
  end.

(** ** span-attributes.ts *)

Definition ATTR_WEBHOOK_ORGANIZATION_ID : jsstr := js "webhook.organization_id".
Definition ATTR_WEBHOOK_PROJECT_ID : jsstr := js "webhook.project_id".
Definition ATTR_WEBHOOK_MEMBER_ROLE : jsstr := js "webhook.member_role".
Definition ATTR_WEBHOOK_USER_ID : jsstr := js "webhook.user_id".
Definition ATTR_WEBHOOK_REQUEST_ID : jsstr := js "webhook.request_id".
Definition MAX_ATTRIBUTE_LENGTH : nat := 256.

(** A value of an attribute. *)
Inductive AttrValue : Type := AStr (s : jsstr) | AInt (z : Z) | ANum (x : jsnum) | ABool (b : bool).

Definition safeAttributeValue (key : jsstr) (value : jsval) : option AttrValue :=
  if isCredentialKey key then None else
  match value with
  | JNum x => if Js.isFinite x then Some (ANum x) else None
  | JBool b => Some (ABool b)
  | JStr s =>
      let trimmed := trim s in
      if bool_decide (trimmed = []) then None
      else Some (AStr (if (MAX_ATTRIBUTE_LENGTH <? length trimmed)%nat
                       then take (MAX_ATTRIBUTE_LENGTH - 1) trimmed ++ [8230%N] else trimmed))
  | _ => None
  end.

(** Keys of the semantic conventions, and our own. *)
Inductive AttrKey : Type :=
| http_request_method | client_address | user_agent_original | http_route | http_response_status_code | error_type
| own (key : jsstr).
Record Span : Type := MkSpan {
  sp_name : jsstr; sp_attributes : list (AttrKey * AttrValue); sp_error : bool; sp_ends : nat
}.
(** Attributes in the order they were set; a reader takes the last. *)
Definition setAttribute (key : AttrKey) (value : AttrValue) (span : Span) : Span :=
  MkSpan (sp_name span) (sp_attributes span ++ [(key, value)]) (sp_error span) (sp_ends span).
Definition setSafeAttribute (key : jsstr) (value : jsval) (span : Span) : Span :=
  match safeAttributeValue key value with
  | Some safe => setAttribute (own key) safe span
  | None => span
  end.
Definition tenantAttributes (tenantContext : option Ctx) : list (AttrKey * AttrValue) :=
  match tenantContext with
  | None => []
  | Some context =>
      omap (λ kv : jsstr * jsval, (λ safe, (own kv.1, safe)) <$> safeAttributeValue kv.1 kv.2)
        [(ATTR_WEBHOOK_ORGANIZATION_ID, JStr (js (ctx_org context)));
         (ATTR_WEBHOOK_PROJECT_ID, if ctx_project context is Some p then JStr (js p) else JUndefined);
         (ATTR_WEBHOOK_MEMBER_ROLE, JStr (js (role_name (ctx_role context))));
         (ATTR_WEBHOOK_USER_ID, JStr (js (ctx_user context)))]
  end.

(** ** http-trace.middleware.ts *)

(** What the middleware reads of a request; [rq_route] is [req.route?.path]. *)
Record Req : Type := MkReq {
  rq_method : jsstr; rq_originalUrl : jsstr; rq_url : jsstr; rq_ip : jsstr; rq_user_agent : jsval;
  rq_route : jsval; rq_id : jsval; rq_request_id : jsval; rq_tenantContext : option Ctx
}.

Definition UNTRACED_PATHS : list jsstr := [js "/health/live"; js "/health/ready"].
Fixpoint before_query (url : jsstr) : jsstr :=
  match url with
  | [] => []
  | c :: url => if (c =? 63)%N then [] else c :: before_query url
  end.
Definition requestPath (req : Req) : jsstr :=
  before_query (if bool_decide (rq_originalUrl req = []) then rq_url req else rq_originalUrl req).

Definition routeTemplate (req : Req) : option jsstr :=
  match rq_route req with
  | JStr path => if bool_decide (path = []) then None else Some path
  | JArr l =>
      paths ← mapM (λ v, if v is JStr s then Some s else None) l;
      if bool_decide (paths = []) then None else Some (Js.join 44 paths)
  | _ => None
  end.

Definition startAttributes (req : Req) : list (AttrKey * AttrValue) :=
  [(http_request_method, AStr (rq_method req))]
  ++ (if bool_decide (rq_ip req = []) then [] else [(client_address, AStr (rq_ip req))])
  ++ match rq_user_agent req with
     | JStr agent => let value := trim agent in
                     if bool_decide (value = []) then [] else [(user_agent_original, AStr value)]
     | _ => []
     end.

Definition completeSpan (req : Req) (status : Z) (span : Span) : Span :=
  let span := match routeTemplate req with
              | Some ((_ :: _) as route) =>
                  setAttribute http_route (AStr route)
                    (MkSpan (rq_method req ++ js " " ++ route) (sp_attributes span) (sp_error span) (sp_ends span))
              | _ => span
              end in
  let span := setAttribute http_response_status_code (AInt status) span in
  let span := setSafeAttribute ATTR_WEBHOOK_REQUEST_ID (JStr (requestIdForResponse (rq_id req) (rq_request_id req))) span in
  let span := MkSpan (sp_name span) (sp_attributes span ++ tenantAttributes (rq_tenantContext req)) (sp_error span) (sp_ends span) in
  if 500 <=? status
  then setAttribute error_type (AStr (int_toString status)) (MkSpan (sp_name span) (sp_attributes span) true (sp_ends span))
  else span.

(** [finish], on the response's finish and on its close. *)
Definition finish (req : Req) (status : Z) (st : bool * Span) : bool * Span :=
  let '(ended, span) := st in
  if ended then st
  else let span := completeSpan req status span in
       (true, MkSpan (sp_name span) (sp_attributes span) (sp_error span) (S (sp_ends span))).

(** A request from start to end: None where nothing is traced.  [events] is how many
    of the two events arrive, the first with the response as it then is. *)
Definition traced (enabled : bool) (req : Req) (status : Z) (events : nat) : option Span :=
  if negb enabled || bool_decide (requestPath req ∈ UNTRACED_PATHS) then None
  else Some (snd (Nat.iter events (finish req status) (false, MkSpan (js "HTTP " ++ rq_method req) (startAttributes req) false 0))).

(** ** prisma-tracing.ts *)

Definition prisma_spanName (action : jsstr) (model : option jsstr) : jsstr :=
  match model with Some ((_ :: _) as m) => action ++ js " " ++ m | _ => action end.
(** The properties of a thrown object that are read; None: not an object. *)
Definition errorType (err : option (jsval * jsval)) : jsstr :=
  match err with
  | Some (code, constructor_name) =>
      match code with
      | JStr ((_ :: _) as c) => c
      | _ => match constructor_name with JStr ((_ :: _) as n) => n | _ => js "unknown" end
      end
  | None => js "unknown"
  end.

(** ** tracing.config.ts *)

Definition TRACES_SIGNAL_PATH : jsstr := js "/v1/traces".
Definition resolveTracesUrl (endpoint : jsstr) : jsstr :=
  let trimmed := strip_trailing_slashes (trim endpoint) in
  if endsWith trimmed TRACES_SIGNAL_PATH then trimmed else trimmed ++ TRACES_SIGNAL_PATH.
Definition num_max (x y : num) : num :=
  match x, y with NaN, _ | _, NaN => NaN | _, _ => if num_ltb x y then y else x end.
(** Of the value as a number. *)
Definition clampRatio (n : num) : num :=
  if negb (RetryRules.isFinite n) then int 1 else num_min (int 1) (num_max (int 0) n).

Record TracingSettings : Type := MkTracing {
  ts_enabled : bool; ts_tracesUrl : option jsstr; ts_serviceName : jsstr; ts_serviceNamespace : jsstr;
  ts_environment : jsstr; ts_samplerRatio : num
}.
Definition readTracingSettings (endpoint serviceName namespace environment : option jsstr) (ratio : num) : TracingSettings :=
  let enabled := match endpoint with Some e => negb (bool_decide (trim e = [])) | None => false end in
  MkTracing enabled (if enabled then resolveTracesUrl <$> endpoint else None)
    (default (js "control-api") serviceName) (default (js "hookubit") namespace) (default (js "development") environment)
    (clampRatio ratio).

(** ** otel-diagnostics.ts *)

Definition DEFAULT_DIAG_THROTTLE_MS : Z := 60000.
Record DiagState : Type := MkDiag { lastLoggedAt : gmap jsstr Z; suppressed : gmap jsstr nat }.
(** A line of the sink: its key, when, and how many it stands for besides itself. *)
Record DiagLine : Type := MkLine { dl_key : jsstr; dl_at : Z; dl_hidden : nat }.
Definition emit (throttleMs : Z) (key : jsstr) (at_ : Z) (st : DiagState) : option DiagLine * DiagState :=
  match lastLoggedAt st !! key with
  | Some last =>
      if at_ - last <? throttleMs
      then (None, MkDiag (lastLoggedAt st) (<[key := S (default 0%nat (suppressed st !! key))]> (suppressed st)))
      else (Some (MkLine key at_ (default 0%nat (suppressed st !! key))),
            MkDiag (<[key := at_]> (lastLoggedAt st)) (delete key (suppressed st)))
  | None =>
      (Some (MkLine key at_ (default 0%nat (suppressed st !! key))),
       MkDiag (<[key := at_]> (lastLoggedAt st)) (delete key (suppressed st)))
  end.
Fixpoint emits (throttleMs : Z) (calls : list (jsstr * Z)) (st : DiagState) : list DiagLine * DiagState :=
  match calls with
  | [] => ([], st)
  | (key, at_) :: calls =>
      let '(line, st) := emit throttleMs key at_ st in
      let '(lines, st) := emits throttleMs calls st in
      (option_list line ++ lines, st)
  end.
Definition quiet_diag : DiagState := MkDiag ∅ ∅.

(** ** cors.ts and trust-proxy.ts *)

(** None: no cross-origin request is allowed. *)
Definition corsOptions (rawOrigins : option jsstr) : option (list jsstr) :=
  let origins := filter (λ o, o ≠ []) (map trim (split 44 (default [] rawOrigins))) in
  if bool_decide (origins = []) then None else Some origins.
(** The hop count that is set: of the value as a number. *)
Definition applyTrustProxy (hops : num) : num :=
  if isInteger hops && num_leb (int 0) hops then hops else int 0.

(** ** Identifiers *)

Lemma id_pattern s : REQUEST_ID_PATTERN s = true ↔ (0 < length s <= 64)%nat ∧ forallb id_char s = true.
Proof.
  unfold REQUEST_ID_PATTERN, jslen. rewrite !andb_true_iff, Z.ltb_lt, Z.leb_le. split; [intros [[? ?] ?]; split; [lia|done]|intros [? ?]; split; [split; lia|done]].
Qed.

(** An identifier that reaches a log, a header or an error body is an identifier.
    The one a request is given is one to 64 letters, digits, hyphens and underscores
    whatever the client sent, and is the client's own when that has the form; the
    one an error answer repeats has the form too, and is the request's own where
    the request has one. *)
Theorem request_ids_are_ids (uuid : jsstr) (Hlen : length uuid = 36%nat) (Hchars : forallb id_char uuid = true) :
  (∀ header, REQUEST_ID_PATTERN (resolveRequestId header uuid) = true)
  ∧ (∀ s, REQUEST_ID_PATTERN s = true → resolveRequestId (JStr s) uuid = s ∧ resolveRequestId (JArr [JStr s]) uuid = s)
  ∧ (∀ id header, REQUEST_ID_PATTERN (requestIdForResponse id header) = true)
  ∧ (∀ header header', requestIdForResponse (JStr (resolveRequestId header uuid)) header' = resolveRequestId header uuid).
Proof.
  assert (REQUEST_ID_PATTERN (js "req_" ++ uuid) = true) as Hfresh.
  { apply id_pattern. rewrite length_app, forallb_app, Hlen, Hchars. change (length (js "req_")) with 4%nat. split; [lia|reflexivity]. }
  assert (∀ header, REQUEST_ID_PATTERN (resolveRequestId header uuid) = true) as Hresolve.
  { intros header. unfold resolveRequestId. destruct (headerValue header) as [| | | |s| |]; try done.
    by destruct (REQUEST_ID_PATTERN s) eqn:E. }
  split_and!; [done|..].
  - intros s Hs. unfold resolveRequestId. cbn. by rewrite Hs.
  - assert (∀ h, REQUEST_ID_PATTERN match headerValue h with JStr x => if REQUEST_ID_PATTERN x then x else js "unknown" | _ => js "unknown" end = true) as Hh.
    { intros h. destruct (headerValue h) as [| | | |x| |]; try done. by destruct (REQUEST_ID_PATTERN x) eqn:E. }
    intros id header. unfold requestIdForResponse. destruct id as [| | | |s| |]; try apply Hh.
    destruct (REQUEST_ID_PATTERN s) eqn:E; [done|apply Hh].
  - intros header header'. unfold requestIdForResponse. by rewrite Hresolve.
Qed.

(** ** Spans *)

Definition attrs := sp_attributes.

(** A value that [safeAttributeValue] lets through. *)
Lemma safe_value key value v :
  safeAttributeValue key value = Some v →
  isCredentialKey key = false ∧ match v with AStr s => (0 < length s <= 256)%nat | _ => True end.
Proof.
  unfold safeAttributeValue. destruct (isCredentialKey key); [done|]. destruct value as [| |b|x|s| |]; try done.
  - by intros [= <-].
  - destruct (Js.isFinite x); [|done]. by intros [= <-].
  - case_bool_decide as Hne; [done|]. intros [= <-]. split; [done|]. unfold MAX_ATTRIBUTE_LENGTH.
    destruct (Nat.ltb_spec 256 (length (trim s))).
    + rewrite length_app, length_take. change (length [8230%N]) with 1%nat. lia.
    + destruct (trim s); [done|cbn in *; lia].
Qed.

Definition tenant_fields (c : Ctx) : list (jsstr * jsval) :=
  [(ATTR_WEBHOOK_ORGANIZATION_ID, JStr (js (ctx_org c)));
   (ATTR_WEBHOOK_PROJECT_ID, if ctx_project c is Some p then JStr (js p) else JUndefined);
   (ATTR_WEBHOOK_MEMBER_ROLE, JStr (js (role_name (ctx_role c))));
   (ATTR_WEBHOOK_USER_ID, JStr (js (ctx_user c)))].

Lemma tenantAttributes_elem c key v :
  (key, v) ∈ tenantAttributes c ↔
  ∃ ctx k x, c = Some ctx ∧ key = own k ∧ (k, x) ∈ tenant_fields ctx ∧ safeAttributeValue k x = Some v.
Proof.
  unfold tenantAttributes. destruct c as [ctx|]; [|split; [by intros ?%not_elem_of_nil|by intros (? & ? & ? & ? & _)]].
  rewrite list_elem_of_omap. split.
  - intros ([k x] & Hin & Hv). cbn [fst snd] in Hv. destruct (safeAttributeValue k x) as [w|] eqn:E; [|done]. injection Hv as <- <-.
    by exists ctx, k, x.
  - intros (ctx' & k & x & [= <-] & -> & Hin & Hv). exists (k, x). split; [exact Hin|]. cbn [fst snd]. by rewrite Hv.
Qed.

(** What completion adds. *)
Lemma complete_elem req status span key v :
  (key, v) ∈ attrs (completeSpan req status span) ↔
  (key, v) ∈ attrs span
  ∨ (∃ route, routeTemplate req = Some route ∧ route ≠ [] ∧ key = http_route ∧ v = AStr route)
  ∨ (key = http_response_status_code ∧ v = AInt status)
  ∨ (key = own ATTR_WEBHOOK_REQUEST_ID
     ∧ safeAttributeValue ATTR_WEBHOOK_REQUEST_ID (JStr (requestIdForResponse (rq_id req) (rq_request_id req))) = Some v)
  ∨ (key, v) ∈ tenantAttributes (rq_tenantContext req)
  ∨ (500 <= status ∧ key = error_type ∧ v = AStr (int_toString status)).
Proof.
  unfold completeSpan, attrs, setSafeAttribute, setAttribute.
  destruct (safeAttributeValue ATTR_WEBHOOK_REQUEST_ID _) as [w|];
    destruct (routeTemplate req) as [[|r0 route]|]; destruct (Z.leb_spec 500 status); cbn [sp_attributes];
    rewrite ?elem_of_app, ?list_elem_of_singleton; naive_solver (done || lia).
Qed.

Lemma setSafe_frame key value span :
  let span' := setSafeAttribute key value span in
  sp_name span' = sp_name span ∧ sp_error span' = sp_error span ∧ sp_ends span' = sp_ends span.
Proof. cbv zeta. unfold setSafeAttribute. by destruct (safeAttributeValue key value). Qed.
Lemma complete_frame req status span :
  sp_name (completeSpan req status span) = match routeTemplate req with Some ((_ :: _) as r) => rq_method req ++ js " " ++ r | _ => sp_name span end
  ∧ sp_error (completeSpan req status span) = (500 <=? status) || sp_error span
  ∧ sp_ends (completeSpan req status span) = sp_ends span.
Proof.
  unfold completeSpan. cbv zeta. generalize (JStr (requestIdForResponse (rq_id req) (rq_request_id req))). intros value.
  set (t := match routeTemplate req with Some ((_ :: _) as route) => _ | _ => span end).
  assert (sp_name t = match routeTemplate req with Some ((_ :: _) as r) => rq_method req ++ js " " ++ r | _ => sp_name span end
          ∧ sp_error t = sp_error span ∧ sp_ends t = sp_ends span) as (Hn & He & Hc) by (subst t; by destruct (routeTemplate req) as [[|]|]).
  destruct (setSafe_frame ATTR_WEBHOOK_REQUEST_ID value (setAttribute http_response_status_code (AInt status) t)) as (H1 & H2 & H3).
  cbn [sp_name sp_error sp_ends setAttribute] in H1, H2, H3.
  destruct (500 <=? status); cbn [sp_name sp_error sp_ends setAttribute orb]; by rewrite ?H1, ?H2, ?H3, ?Hn, ?He, ?Hc.
Qed.

Lemma traced_span enabled req status events span :
  traced enabled req status (S events) = Some span →
  enabled = true ∧ requestPath req ∉ UNTRACED_PATHS ∧ sp_ends span = 1%nat
  ∧ attrs span = attrs (completeSpan req status (MkSpan (js "HTTP " ++ rq_method req) (startAttributes req) false 0))
  ∧ sp_error span = (500 <=? status) || false
  ∧ sp_name span = match routeTemplate req with Some ((_ :: _) as r) => rq_method req ++ js " " ++ r | _ => js "HTTP " ++ rq_method req end.
Proof.
  unfold traced. destruct enabled; [|done]. cbn [negb orb]. case_bool_decide as Hp; [done|]. intros Hspan. apply (inj Some) in Hspan as <-.
  assert (∀ s, ∃ t, Nat.iter (S events) (finish req status) (false, s) = (true, t) ∧ sp_ends t = S (sp_ends (completeSpan req status s))
    ∧ attrs t = attrs (completeSpan req status s) ∧ sp_error t = sp_error (completeSpan req status s)
    ∧ sp_name t = sp_name (completeSpan req status s)) as Hiter.
  { intros s. induction events as [|n (t & IH & Hrest)]; [by eexists|]. exists t.
    change (Nat.iter (S (S n)) (finish req status) (false, s)) with (finish req status (Nat.iter (S n) (finish req status) (false, s))).
    by rewrite IH. }
  destruct (Hiter (MkSpan (js "HTTP " ++ rq_method req) (startAttributes req) false 0)) as (t & -> & He & Ha & Hx & Hn).
  cbn [snd]. rewrite He, Ha, Hx, Hn.
  destruct (complete_frame req status (MkSpan (js "HTTP " ++ rq_method req) (startAttributes req) false 0)) as (-> & -> & ->).
  split_and!; done.
Qed.

Lemma start_elem req key v :
  (key, v) ∈ startAttributes req ↔
  (key = http_request_method ∧ v = AStr (rq_method req))
  ∨ (key = client_address ∧ v = AStr (rq_ip req) ∧ rq_ip req ≠ [])
  ∨ (∃ agent, key = user_agent_original ∧ rq_user_agent req = JStr agent ∧ trim agent ≠ [] ∧ v = AStr (trim agent)).
Proof.
  unfold startAttributes. rewrite !elem_of_app, list_elem_of_singleton.
  destruct (rq_user_agent req) as [| | | |agent| |]; repeat case_bool_decide;
    rewrite ?list_elem_of_singleton, ?elem_of_nil; naive_solver.
Qed.

(** The guard puts the tenant on the request only when it lets it in. *)
Definition guarded (answer : result Resolved) (req : Req) : Req :=
  MkReq (rq_method req) (rq_originalUrl req) (rq_url req) (rq_ip req) (rq_user_agent req) (rq_route req)
    (rq_id req) (rq_request_id req) (match answer with Ok r => Some (rc r) | Throw _ => None end).

(** A span says who was let in and nothing about who was not.  The span of a traced
    request is ended once however many of the response's events arrive; it is an
    error exactly from status 500 on; of our own attributes a request the guard
    refused carries the request id alone, and an admitted one the ids and the role
    the guard resolved; each is short, not blank and under a key that is no
    credential's.  The user agent, though, is recorded whole, however long. *)
Theorem span_of_a_request (answer : result Resolved) (req : Req) (status : Z) (events : nat) (span : Span)
  (Ht : traced true (guarded answer req) status (S events) = Some span) :
  sp_ends span = 1%nat
  ∧ (sp_error span = true ↔ 500 <= status)
  ∧ (∀ k v, (own k, v) ∈ attrs span →
       isCredentialKey k = false ∧ (match v with AStr s => (0 < length s <= 256)%nat | _ => True end)
       ∧ (k = ATTR_WEBHOOK_REQUEST_ID
          ∨ ∃ r x, answer = Ok r ∧ (k, x) ∈ tenant_fields (rc r) ∧ safeAttributeValue k x = Some v))
  ∧ (∀ agent, rq_user_agent req = JStr agent → trim agent ≠ [] → (user_agent_original, AStr (trim agent)) ∈ attrs span)
  ∧ (http_response_status_code, AInt status) ∈ attrs span.
Proof.
  apply traced_span in Ht as (_ & _ & Hends & Hattrs & Herr & _). split_and!; [done|..].
  - rewrite Herr, orb_false_r. apply Z.leb_le.
  - intros k v. rewrite Hattrs, complete_elem. unfold attrs at 1. cbn [sp_attributes]. rewrite start_elem.
    intros [[[? _]|[[? _]|(? & ? & _)]]|[(? & _ & _ & ? & _)|[[? _]|[[Hk Hv]|[Htenant|(_ & ? & _)]]]]]; try done.
    + injection Hk as ->. destruct (safe_value _ _ _ Hv) as [? ?]. auto.
    + apply tenantAttributes_elem in Htenant as (c & k' & x & Hc & [= <-] & Hx & Hv).
      destruct (safe_value _ _ _ Hv) as [? ?]. split; [done|]. split; [done|]. right.
      destruct answer as [r|e]; [|done]. injection Hc as <-. eauto.
  - intros agent Ha Hne. rewrite Hattrs, complete_elem. left. unfold attrs. cbn [sp_attributes]. rewrite start_elem.
    right. right. exists agent. done.
  - rewrite Hattrs, complete_elem. auto.
Qed.

(** ** The throttled logger *)

Section Diag.
  Context (throttleMs : Z) (key : jsstr).

Definition calls_of (calls : list (jsstr * Z)) : nat := length (filter (λ c, c.1 = key) calls).
Definition lines_of (lines : list DiagLine) : list DiagLine := filter (λ l, dl_key l = key) lines.
Definition stands_for (lines : list DiagLine) : nat := sum_list_with (λ l, S (dl_hidden l)) (lines_of lines).
Definition held (st : DiagState) : nat := default 0%nat (suppressed st !! key).

Lemma emits_count calls st lines st' :
  emits throttleMs calls st = (lines, st') → (calls_of calls + held st = stands_for lines + held st')%nat.
Proof.
  revert st lines. induction calls as [|[k t] calls IH]; intros st lines; cbn [emits]; [intros [= <- <-]; done|].
  destruct (emit throttleMs k t st) as [line st1] eqn:E. destruct (emits throttleMs calls st1) as [ls st2] eqn:Es.
  intros [= <- <-]. specialize (IH st1 ls Es). unfold calls_of, stands_for, lines_of in *.
  rewrite filter_app, sum_list_with_app. rewrite filter_cons. cbn [fst]. unfold emit in E.
  assert (∀ m, held (MkDiag m (delete k (suppressed st))) = if decide (k = key) then 0%nat else held st) as Hdel.
  { intros m. unfold held. cbn [suppressed]. case_decide as Hk; [subst; by rewrite lookup_delete_eq|by rewrite lookup_delete_ne]. }
  assert (∀ m n, held (MkDiag m (<[k := n]> (suppressed st))) = if decide (k = key) then n else held st) as Hins.
  { intros m n. unfold held. cbn [suppressed]. case_decide as Hk; [subst; by rewrite lookup_insert_eq|by rewrite lookup_insert_ne]. }
  assert (k = key → default 0%nat (suppressed st !! k) = held st) as Hheld by (by intros ->).
  assert (∀ l, sum_list_with (λ l, S (dl_hidden l)) (filter (λ l, dl_key l = key) (option_list (Some l)))
               = if decide (dl_key l = key) then S (dl_hidden l) else 0%nat) as Hone.
  { intros l. change (option_list (Some l)) with [l]. rewrite filter_cons, filter_nil. repeat case_decide; try done; apply Nat.add_0_r. }
  assert (sum_list_with (λ l, S (dl_hidden l)) (filter (λ l, dl_key l = key) (option_list None)) = 0%nat) as Hnone by done.
  destruct (lastLoggedAt st !! k) as [last|]; [destruct (t - last <? throttleMs)|]; injection E as <- <-;
    rewrite ?Hdel, ?Hins in IH; rewrite ?Hone, ?Hnone; cbn [dl_key dl_hidden];
    case_decide; cbn [length]; try (rewrite Hheld in * by done); lia.
Qed.

(** The lines of a key are far enough apart, and after the last one before them. *)
Definition spaced (from : option Z) (lines : list DiagLine) : Prop :=
  match lines_of lines with
  | [] => True
  | l :: ls =>
      (match from with Some t => throttleMs <= dl_at l - t | None => True end)
      ∧ ∀ i a b, (l :: ls) !! i = Some a → (l :: ls) !! S i = Some b → throttleMs <= dl_at b - dl_at a
  end.

Lemma emits_spaced calls st lines st' :
  emits throttleMs calls st = (lines, st') → spaced (lastLoggedAt st !! key) lines.
Proof.
  revert st lines. induction calls as [|[k t] calls IH]; intros st lines; cbn [emits]; [by intros [= <- <-]|].
  destruct (emit throttleMs k t st) as [line st1] eqn:E. destruct (emits throttleMs calls st1) as [ls st2] eqn:Es.
  intros [= <- <-]. specialize (IH st1 ls Es). unfold spaced, lines_of in *. rewrite filter_app.
  unfold emit in E. destruct (decide (k = key)) as [->|Hk].
  - destruct (lastLoggedAt st !! key) as [last|] eqn:El.
    + destruct (Z.ltb_spec (t - last) throttleMs); injection E as <- <-; change (option_list (@None DiagLine)) with (@nil DiagLine) || change (option_list (Some ?l)) with [l]; cbn [lastLoggedAt] in *.
      * rewrite filter_nil. cbn [app]. by rewrite El in IH.
      * rewrite filter_cons_True, filter_nil by done. cbn [app]. rewrite lookup_insert_eq in IH. split; [cbn; lia|].
        destruct (filter _ ls) as [|l2 ls2]; intros [|i] a b Ha Hb; try done; destruct IH as [H1 H2].
        -- injection Ha as <-. injection Hb as <-. exact H1.
        -- exact (H2 i a b Ha Hb).
    + injection E as <- <-. change (option_list (@None DiagLine)) with (@nil DiagLine) || change (option_list (Some ?l)) with [l]; cbn [lastLoggedAt] in *.
      rewrite filter_cons_True, filter_nil by done. cbn [app]. rewrite lookup_insert_eq in IH. split; [done|].
      destruct (filter _ ls) as [|l2 ls2]; intros [|i] a b Ha Hb; try done; destruct IH as [H1 H2].
      -- injection Ha as <-. injection Hb as <-. exact H1.
      -- exact (H2 i a b Ha Hb).
  - assert (filter (λ l, dl_key l = key) (option_list line) = [] ∧ lastLoggedAt st1 !! key = lastLoggedAt st !! key) as [-> Hl].
    { destruct (lastLoggedAt st !! k) as [last|]; [destruct (t - last <? throttleMs)|]; injection E as <- <-;
        cbn [lastLoggedAt]; try change (option_list (Some ?l)) with [l]; rewrite ?filter_cons_False, ?filter_nil, ?lookup_insert_ne by done; done. }
    rewrite <- Hl. exact IH.
Qed.
End Diag.

(** The throttled logger shouts no more often than it may and hides nothing.  For
    any sequence of diagnostics and each message: two lines in a row are at least
    the interval apart, and every call is accounted for, as a line, in the count a
    line states, or in the count the next line will. *)
Theorem diagnostics_are_throttled (throttleMs : Z) (calls : list (jsstr * Z)) (key : jsstr) :
  let '(lines, st) := emits throttleMs calls quiet_diag in
  calls_of key calls = (stands_for key lines + held key st)%nat
  ∧ ∀ i a b, lines_of key lines !! i = Some a → lines_of key lines !! S i = Some b → throttleMs <= dl_at b - dl_at a.
Proof.
  destruct (emits throttleMs calls quiet_diag) as [lines st] eqn:E. split.
  - rewrite <- (emits_count _ _ _ _ _ _ E). change (held key quiet_diag) with 0%nat. lia.
  - pose proof (emits_spaced _ key _ _ _ _ E) as Hs. unfold spaced in Hs.
    destruct (lines_of key lines) as [|l ls]; [done|]. apply Hs.
Qed.

(** ** Settings *)

Lemma strip_leading_elem s c : c ∈ strip_leading_slashes s → c ∈ s.
Proof.
  induction s as [|x s IH]; cbn; [done|]. destruct (x =? 47)%N; [|done]. intros Hc. right. by apply IH.
Qed.
Lemma strip_leading_slashes_id s : (∀ c, head s = Some c → c ≠ 47%N) → strip_leading_slashes s = s.
Proof. destruct s as [|x s]; cbn; [done|]. intros Hx. by rewrite (proj2 (N.eqb_neq x 47) (Hx x eq_refl)). Qed.
Lemma strip_trailing_slashes_id s : (∀ c, last s = Some c → c ≠ 47%N) → strip_trailing_slashes s = s.
Proof.
  intros Hl. unfold strip_trailing_slashes. rewrite strip_leading_slashes_id; [apply reverse_involutive|].
  intros c Hc. apply Hl. by rewrite <- head_reverse.
Qed.
Lemma strip_trailing_head s : strip_trailing_slashes s = [] ∨ head (strip_trailing_slashes s) = head s.
Proof.
  unfold strip_trailing_slashes. assert (∃ w, reverse s = w ++ strip_leading_slashes (reverse s)) as [w Hw].
  { generalize (reverse s). intros l. induction l as [|x l [w IH]]; [by exists []|]. cbn.
    destruct (x =? 47)%N; [exists (x :: w); cbn; by f_equal|by exists []]. }
  apply (f_equal reverse) in Hw. rewrite reverse_involutive, reverse_app in Hw.
  destruct (reverse (strip_leading_slashes (reverse s))) as [|x l]; [by left|right]. by rewrite Hw.
Qed.

Lemma signal_path_last u : endsWith u TRACES_SIGNAL_PATH = true → last u = Some 115%N.
Proof.
  intros [t ->]%endsWith_spec. change TRACES_SIGNAL_PATH with (js "/v1/trace" ++ [115%N]). by rewrite app_assoc, last_snoc.
Qed.

(** A number between zero and one. *)
Definition in_unit (x : num) : Prop := ∃ q, x = Fin q ∧ (0 <= q <= 1)%Q.

Lemma clampRatio_unit n : in_unit (clampRatio n).
Proof.
  unfold clampRatio. destruct n as [q| |neg]; cbn; [|exists 1%Q; split; [done|lra]..].
  destruct (Qle_bool q (inject_Z 0)) eqn:E0; cbn.
  - exists (inject_Z 0). split; [done|]. change (inject_Z 0) with 0%Q. lra.
  - assert (¬ (q <= 0)%Q) as Hq by (intros Hq; apply Qle_bool_iff in Hq; change 0%Q with (inject_Z 0) in Hq; congruence).
    destruct (Qle_bool (inject_Z 1) q) eqn:E1; cbn.
    + exists (inject_Z 1). split; [done|]. change (inject_Z 1) with 1%Q. lra.
    + exists q. split; [done|]. assert (¬ (1 <= q)%Q) by (intros Hq1; apply Qle_bool_iff in Hq1; change 1%Q with (inject_Z 1) in Hq1; congruence). lra.
Qed.

(** Configuration is read the same however it is written.  A collector's base URL
    and its traces URL, with or without slashes, name the same signal, and naming
    it again changes nothing; tracing is on exactly when an endpoint is given; the
    sampling ratio is between zero and one whatever was configured; the number of
    trusted proxies is a whole number and not negative; and the origins allowed to
    call are the ones listed, none when nothing is. *)
Theorem settings_are_normalised (endpoint : jsstr) :
  resolveTracesUrl (resolveTracesUrl endpoint) = resolveTracesUrl endpoint
  ∧ endsWith (resolveTracesUrl endpoint) TRACES_SIGNAL_PATH = true
  ∧ (∀ e a b c r, let s := readTracingSettings e a b c r in
       (ts_enabled s = true ↔ ∃ u, e = Some u ∧ trim u ≠ [] ∧ ts_tracesUrl s = Some (resolveTracesUrl u))
       ∧ in_unit (ts_samplerRatio s))
  ∧ (∀ hops, isInteger (applyTrustProxy hops) = true ∧ num_leb (int 0) (applyTrustProxy hops) = true
       ∧ (isInteger hops = true → num_leb (int 0) hops = true → applyTrustProxy hops = hops))
  ∧ (∀ raw, match corsOptions raw with
            | Some origins => origins ≠ [] ∧ ∀ o, o ∈ origins ↔ o ≠ [] ∧ ∃ w, w ∈ split 44 (default [] raw) ∧ o = trim w
            | None => ∀ w, w ∈ split 44 (default [] raw) → trim w = []
            end).
Proof.
  assert (endsWith (resolveTracesUrl endpoint) TRACES_SIGNAL_PATH = true) as Hend.
  { unfold resolveTracesUrl. destruct (endsWith (strip_trailing_slashes (trim endpoint)) TRACES_SIGNAL_PATH) eqn:E; [done|].
    apply endsWith_spec. by eexists. }
  split_and!; [|done|..].
  - pose proof (signal_path_last _ Hend) as Hlast.
    assert (∀ c, head (resolveTracesUrl endpoint) = Some c → is_ws c = false) as Hhead.
    { intros c. unfold resolveTracesUrl. set (t := strip_trailing_slashes (trim endpoint)).
      assert (∀ d, head t = Some d → is_ws d = false) as Ht.
      { intros d Hd. subst t. destruct (strip_trailing_head (trim endpoint)) as [E|E]; rewrite E in Hd; [done|].
        destruct (trim_fixed_ends (trim endpoint) (trim_idemp endpoint)) as [Hh _]; [by intros Hn; rewrite Hn in Hd|by apply Hh]. }
      destruct (endsWith t TRACES_SIGNAL_PATH); [apply Ht|]. destruct t as [|d t]; [by intros [= <-]|]. apply Ht. }
    unfold resolveTracesUrl at 1. rewrite trim_ends by (try done; rewrite Hlast; by intros c [= <-]).
    rewrite strip_trailing_slashes_id by (rewrite Hlast; by intros c [= <-]). by rewrite Hend.
  - intros e a b c r. cbv zeta. unfold readTracingSettings. cbn [ts_enabled ts_tracesUrl ts_samplerRatio].
    split; [|apply clampRatio_unit]. destruct e as [u|]; [|split; [done|by intros (? & ? & _)]].
    rewrite negb_true_iff, bool_decide_eq_false. split.
    + intros Hu. exists u. by rewrite bool_decide_eq_false_2.
    + by intros (u' & [= <-] & Hu & _).
  - intros hops. unfold applyTrustProxy. destruct (isInteger hops && num_leb (int 0) hops) eqn:E.
    + by apply andb_true_iff in E as [-> ->].
    + split_and!; [done..|]. intros H1 H2. by rewrite H1, H2 in E.
  - intros raw. unfold corsOptions. case_bool_decide as Ho.
    + intros w Hw. destruct (decide (trim w = [])) as [|Hn]; [done|exfalso].
      assert (trim w ∈ filter (λ o, o ≠ []) (map trim (split 44 (default [] raw)))) as Hin.
      { apply list_elem_of_filter. split; [done|]. apply list_elem_of_fmap. eauto. }
      rewrite Ho in Hin. by apply not_elem_of_nil in Hin.
    + split; [done|]. intros o. rewrite list_elem_of_filter, list_elem_of_fmap. naive_solver.
Qed.

(** ** Witnesses *)

Lemma request_ids_are_ids_witness :
  REQUEST_ID_PATTERN (resolveRequestId (JStr (js "<script>")) (js "4f9c2a10-0000-4000-8000-000000000001")) = true.
Proof.
  apply (request_ids_are_ids (js "4f9c2a10-0000-4000-8000-000000000001") eq_refl eq_refl).
Defined.

(** A refused request with a user agent of three hundred characters. *)
Definition tr_req : Req :=
  MkReq (js "GET") (js "/v1/projects/p1/endpoints") [] (js "10.0.0.1") (JStr (replicate 300 120%N))
    (JStr (js "/v1/projects/:projectId/endpoints")) (JStr (js "req_1")) JUndefined None.

Lemma span_of_a_request_witness :
  ∃ span, traced true (guarded (throw not_found CROSS_TENANT_MESSAGE) tr_req) 404 2 = Some span
    ∧ sp_ends span = 1%nat ∧ (user_agent_original, AStr (trim (replicate 300 120%N))) ∈ attrs span.
Proof.
  destruct (traced true (guarded (throw not_found CROSS_TENANT_MESSAGE) tr_req) 404 2) as [span|] eqn:E;
    [|vm_compute in E; discriminate E].
  exists span. split; [reflexivity|].
  destruct (span_of_a_request (throw not_found CROSS_TENANT_MESSAGE) tr_req 404 1 span E) as (He & _ & _ & Ha & _).
  split; [exact He|]. apply Ha; [reflexivity|vm_compute; discriminate].
Defined.
