(* ===== verification/ConsoleDeliveries.v ===== *)
(** The console's reading of a delivery: dashboard lib/delivery-status.ts,
    lib/format.ts (the byte counts), lib/pagination.ts,
    features/events/rollup.ts and features/deliveries/payload-preview.ts.

    The console shows what the control plane answers; the theorems set its reading
    beside the responses of Ledger, Replay and TenantScope.  Texts are the UTF-8
    bytes of what is on the screen. *)
From Stdlib Require Import ZArith Lia.
From stdpp Require Import pretty.
From S2P Require Import Prelude Js Permissions RetryRules AuditTrail Db TenantScope EventPayload Replay Ledger.
Open Scope Z_scope.

Definition plural (n : Z) (noun : string) : string :=
  pretty n +:+ " " +:+ noun +:+ (if n =? 1 then "" else "s").

(** ** Statuses *)

Inductive StatusTone : Type := tone_ok | tone_warn | tone_danger | tone_info | tone_neutral.
Inductive StatusPhase : Type := waiting | in_flight | phase_succeeded | failing | dead.
#[export] Instance StatusPhase_eq_dec : EqDecision StatusPhase.
Proof. solve_decision. Defined.

Record StatusMeta : Type := MkMeta {
  sm_label : string; sm_tone : StatusTone; sm_phase : StatusPhase; sm_terminal : bool
}.

Definition DELIVERY_STATUS_META (s : DeliveryStatus.t) : StatusMeta :=
  match s with
  | DeliveryStatus.pending => MkMeta "Pending" tone_neutral waiting false
  | DeliveryStatus.scheduled => MkMeta "Scheduled" tone_neutral waiting false
  | DeliveryStatus.queued => MkMeta "Queued" tone_neutral waiting false
  | DeliveryStatus.processing => MkMeta "Processing" tone_info in_flight false
  | DeliveryStatus.succeeded => MkMeta "Succeeded" tone_ok phase_succeeded true
  | DeliveryStatus.failed => MkMeta "Failed" tone_danger failing false
  | DeliveryStatus.retrying => MkMeta "Retrying" tone_warn failing false
  | DeliveryStatus.exhausted => MkMeta "Exhausted" tone_danger dead true
  | DeliveryStatus.cancelled => MkMeta "Cancelled" tone_neutral dead true
  end.
Definition EVENT_STATUS_META (s : EventStatus.t) : StatusMeta :=
  match s with
  | EventStatus.received => MkMeta "Received" tone_neutral waiting false
  | EventStatus.processing => MkMeta "Processing" tone_info in_flight false
  | EventStatus.processed => MkMeta "Processed" tone_ok phase_succeeded true
  | EventStatus.failed => MkMeta "Failed" tone_danger dead true
  end.
Definition deliveryStatusMeta (s : DeliveryStatus.t) : StatusMeta := DELIVERY_STATUS_META s.
Definition eventStatusMeta (s : EventStatus.t) : StatusMeta := EVENT_STATUS_META s.

Definition console_isTerminal (s : DeliveryStatus.t) : bool := sm_terminal (DELIVERY_STATUS_META s).
Definition canReplay (s : DeliveryStatus.t) : bool :=
  bool_decide (s = DeliveryStatus.exhausted) || bool_decide (s = DeliveryStatus.cancelled).

(** ** One delivery *)

Record DeliveryOutcome : Type := MkOutcome {
  do_status : DeliveryStatus.t; do_attempt_count : Z; do_max_attempts : Z;
  do_last_error : option string; do_last_status_code : option Z; do_terminal : option bool
}.

(** The number and the status code of an attempt. *)
Definition attempt : Type := Z * option Z.

Definition deliveryOutcome (status : DeliveryStatus.t) (attempt_count max_attempts : Z) (last_error : option string)
    (terminal : bool) (attempts : list attempt) : DeliveryOutcome :=
  let last := foldl (λ best a, match best with
                               | None => Some a
                               | Some b => if b.1 <? a.1 then Some a else Some b
                               end) None attempts in
  MkOutcome status attempt_count max_attempts last_error (last ≫= snd) (Some terminal).

Definition attemptsRemaining (d : DeliveryOutcome) : Z :=
  if console_isTerminal (do_status d) then 0 else Z.max 0 (do_max_attempts d - do_attempt_count d).

Definition attemptProgressLabel (d : DeliveryOutcome) : string :=
  "Attempt " +:+ pretty (do_attempt_count d) +:+ " of " +:+ pretty (do_max_attempts d).

(** A code of zero and an empty text are falsy. *)
Definition truthy_code (c : option Z) : option Z := if c is Some 0 then None else c.
Definition truthy_text (t : option string) : option string := if t is Some EmptyString then None else t.

Definition describeCause (code : option Z) (error : option string) : string :=
  match truthy_code code with
  | Some c => " — HTTP " +:+ pretty c
  | None => match truthy_text error with
            | Some e => " — " +:+ e
            | None => ""
            end
  end.

Definition describeDelivery (d : DeliveryOutcome) : string :=
  let code := do_last_status_code d in
  let error := do_last_error d in
  match do_status d with
  | DeliveryStatus.succeeded =>
      match truthy_code code with
      | Some c => "Delivered with HTTP " +:+ pretty c +:+ " after " +:+ plural (do_attempt_count d) "attempt"
      | None => "Delivered"
      end
  | DeliveryStatus.exhausted => "Gave up after " +:+ plural (do_attempt_count d) "attempt" +:+ describeCause code error
  | DeliveryStatus.retrying => "Retrying, " +:+ plural (attemptsRemaining d) "attempt" +:+ " left" +:+ describeCause code error
  | DeliveryStatus.failed => "Attempt " +:+ pretty (do_attempt_count d) +:+ " failed" +:+ describeCause code error
  | DeliveryStatus.cancelled => "Cancelled before delivery"
  | DeliveryStatus.processing => "Request in flight"
  | DeliveryStatus.queued => "Queued for a worker"
  | DeliveryStatus.scheduled => "Scheduled for a later attempt"
  | DeliveryStatus.pending => "Awaiting dispatch"
  end.

Definition isRetryableStatusCode (code : option Z) : bool :=
  match code with
  | None => true
  | Some c => (500 <=? c) || (c =? 408) || (c =? 429)
  end.

(** The label and the tone of one attempt. *)
Definition attemptOutcome (http_status : option Z) (error_message : option string) (status : string) : string * StatusTone :=
  match http_status with
  | None => (default status error_message, tone_danger)
  | Some c =>
      if (200 <=? c) && (c <? 300) then (pretty c, tone_ok)
      else (pretty c, if isRetryableStatusCode http_status then tone_warn else tone_danger)
  end.

(** ** Sets of deliveries *)

Record DeliverySummary : Type := MkSummary { su_total : nat; su_succeeded : nat; su_failed : nat; su_pending : nat; su_exhausted : nat }.

Definition count_status (su : DeliverySummary) (status : DeliveryStatus.t) : DeliverySummary :=
  let '(MkSummary total succeeded failed pending exhausted) := su in
  let phase := sm_phase (DELIVERY_STATUS_META status) in
  if bool_decide (phase = phase_succeeded) then MkSummary total (S succeeded) failed pending exhausted
  else if bool_decide (status = DeliveryStatus.exhausted) then MkSummary total succeeded failed pending (S exhausted)
  else if bool_decide (phase = dead) then MkSummary total succeeded (S failed) pending exhausted
  else if bool_decide (phase = failing) then MkSummary total succeeded (S failed) pending exhausted
  else MkSummary total succeeded failed (S pending) exhausted.
Definition summarizeDeliveries (deliveries : list DeliveryStatus.t) : DeliverySummary :=
  foldl count_status (MkSummary (length deliveries) 0 0 0 0) deliveries.

Definition severity : list DeliveryStatus.t :=
  [DeliveryStatus.exhausted; DeliveryStatus.failed; DeliveryStatus.retrying; DeliveryStatus.cancelled;
   DeliveryStatus.pending; DeliveryStatus.scheduled; DeliveryStatus.queued; DeliveryStatus.processing;
   DeliveryStatus.succeeded].
Definition worstStatus (statuses : list DeliveryStatus.t) : option DeliveryStatus.t :=
  head (filter (λ candidate, candidate ∈ statuses) severity).

(** ** Diagnosis *)

Inductive FailureKind : Type := fk_none | fk_transport | fk_http_retryable | fk_http_permanent.
#[export] Instance FailureKind_eq_dec : EqDecision FailureKind.
Proof. solve_decision. Defined.

Definition classifyFailure (code : option Z) (error : option string) : FailureKind :=
  match code with
  | None => if truthy_text error is Some _ then fk_transport else fk_none
  | Some c =>
      if (200 <=? c) && (c <? 300) then fk_none
      else if isRetryableStatusCode code then fk_http_retryable else fk_http_permanent
  end.

Definition failureKindLabel (kind : FailureKind) : string :=
  match kind with
  | fk_transport => "No HTTP response"
  | fk_http_retryable => "Temporary HTTP failure"
  | fk_http_permanent => "Permanent HTTP failure"
  | fk_none => "No failure"
  end.

(** [${code}] of a code that may be null *)
Definition show_code (code : option Z) : string := if code is Some c then pretty c else "null".

Definition explainFailure (kind : FailureKind) (code : option Z) : string :=
  match kind with
  | fk_transport => "The request never reached an HTTP server, so there is no status code — the name did not resolve, the connection was refused or timed out, or the TLS handshake failed. Check DNS, firewall rules and the certificate on the receiving host."
  | fk_http_retryable => "The endpoint answered " +:+ show_code code +:+ ". Codes 408, 429 and 5xx are treated as temporary, so this delivery is retried with exponential backoff."
  | fk_http_permanent => "The endpoint answered " +:+ show_code code +:+ ". Every 4xx other than 408 and 429 is treated as permanent — retrying would produce the same answer — so the chain stops here. A 401 or 403 usually means signature verification is failing on the consumer."
  | fk_none => "The endpoint accepted the delivery."
  end.

Definition DELIVERY_STATUS_SENTENCE (s : DeliveryStatus.t) : string :=
  match s with
  | DeliveryStatus.pending => "Created, but not yet handed to the queue."
  | DeliveryStatus.scheduled => "Waiting for a specific time before its next attempt — usually a retry backoff."
  | DeliveryStatus.queued => "Waiting for a free worker. No request has been made yet."
  | DeliveryStatus.processing => "A request is in flight to the endpoint right now."
  | DeliveryStatus.succeeded => "The endpoint answered 2xx. Nothing further will happen."
  | DeliveryStatus.failed => "The latest attempt failed and more attempts remain. It will be retried."
  | DeliveryStatus.retrying => "A previous attempt failed and the next one is already scheduled."
  | DeliveryStatus.exhausted => "Every attempt was used and none succeeded. Nothing further will happen without a replay."
  | DeliveryStatus.cancelled => "Stopped before it finished — the endpoint was deleted, or an operator cancelled it."
  end.

Record DeliveryDiagnosis : Type := MkDiagnosis {
  dg_headline : string; dg_kind : FailureKind; dg_explanation : string; dg_next : string; dg_tone : StatusTone
}.

Definition NO_FURTHER_EXHAUSTED : string := "No further attempt will be made. Replay it once the endpoint is fixed — only this endpoint is retried, not the others on the same event.".
Definition A_RETRY_IS_EXPECTED : string := "A retry is expected shortly.".

Definition diagnoseDelivery (d : DeliveryOutcome) : DeliveryDiagnosis :=
  let kind := classifyFailure (do_last_status_code d) (do_last_error d) in
  let tone := sm_tone (deliveryStatusMeta (do_status d)) in
  let explanation := explainFailure kind (do_last_status_code d) in
  let count := pretty (do_attempt_count d) in
  match do_status d with
  | DeliveryStatus.succeeded =>
      MkDiagnosis ("Delivered after " +:+ plural (do_attempt_count d) "attempt" +:+ ".") fk_none
        "The endpoint answered 2xx." "Nothing further. This delivery is complete." tone_ok
  | DeliveryStatus.exhausted =>
      MkDiagnosis ("Gave up after all " +:+ pretty (do_max_attempts d) +:+ " attempts.") kind explanation
        NO_FURTHER_EXHAUSTED tone_danger
  | DeliveryStatus.cancelled =>
      MkDiagnosis "Cancelled before it completed." kind
        "The chain was stopped deliberately — the endpoint was deleted or disabled, or an operator cancelled it."
        "No further attempt will be made. Replay it if it should still be delivered." tone_neutral
  | DeliveryStatus.retrying | DeliveryStatus.scheduled =>
      MkDiagnosis ("Attempt " +:+ count +:+ " failed. " +:+ plural (attemptsRemaining d) "attempt" +:+ " left.") kind explanation
        "Another attempt is scheduled. If every remaining attempt fails, the delivery becomes exhausted and stops." tone_warn
  | DeliveryStatus.failed =>
      MkDiagnosis ("Attempt " +:+ count +:+ " failed.") kind explanation
        (if bool_decide (kind = fk_http_permanent)
         then "This response is not retried. The chain will not continue on its own." else A_RETRY_IS_EXPECTED) tone_danger
  | DeliveryStatus.processing =>
      MkDiagnosis "A request is in flight right now." fk_none "The endpoint has been called and has not answered yet."
        ("The result lands as attempt " +:+ count +:+ " of " +:+ pretty (do_max_attempts d) +:+ ".") tone
  | _ =>
      MkDiagnosis (describeDelivery d) fk_none "No attempt has been made yet."
        "The first attempt happens as soon as a worker picks it up." tone
  end.

(** ** The deliveries of an event *)

Record RollupSummary : Type := MkRollupSummary { rs_label : string; rs_tone : StatusTone; rs_detail : string }.

Definition LABELS (s : EventRollupState) : string * StatusTone :=
  match s with
  | rs_received => ("Received", tone_neutral)
  | rs_in_progress => ("In progress", tone_info)
  | rs_delivered => ("Delivered", tone_ok)
  | rs_partly_delivered => ("Partly delivered", tone_warn)
  | rs_all_failed => ("All failed", tone_danger)
  | rs_dropped => ("Dropped", tone_danger)
  end.
#[export] Instance EventRollupState_eq_dec : EqDecision EventRollupState.
Proof. solve_decision. Defined.

Definition show_nat (n : nat) : string := pretty n.

(** [parts.push] of a count that is not zero *)
Definition part (n : nat) (what : string) : list string :=
  if (0 <? n)%nat then [show_nat n +:+ what] else [].

Fixpoint join_with (sep : string) (l : list string) : string :=
  match l with
  | [] => ""
  | [x] => x
  | x :: xs => x +:+ sep +:+ join_with sep xs
  end.

Definition detailFor (r : DeliveryRollup) : string :=
  if bool_decide (ru_state r = rs_dropped) then "No subscription matched — nothing was created"
  else if bool_decide (ru_state r = rs_received) then "Creating deliveries…"
  else if (ru_total r =? 0)%nat then "—"
  else if bool_decide (ru_state r = rs_delivered)
  then show_nat (ru_total r) +:+ " of " +:+ show_nat (ru_total r) +:+ " delivered"
  else if bool_decide (ru_state r = rs_all_failed) && (ru_cancelled r =? 0)%nat
  then "0 of " +:+ show_nat (ru_total r) +:+ " delivered"
  else join_with " · " (part (ru_succeeded r) " delivered" ++ part (ru_in_flight r) " still going"
                        ++ part (ru_failed r) " failed" ++ part (ru_cancelled r) " cancelled").

Definition describeRollup (rollup : option DeliveryRollup) : RollupSummary :=
  match rollup with
  | None => MkRollupSummary "Received" tone_neutral "—"
  | Some r => MkRollupSummary (LABELS (ru_state r)).1 (LABELS (ru_state r)).2 (detailFor r)
  end.

(** ** Byte counts *)

(** [Number.prototype.toFixed] of a fraction, for one digit or none: the nearest
    multiple, the larger of two. *)
Definition toFixed0 (num den : Z) : string := pretty ((2 * num + den) / (2 * den)).
Definition toFixed1 (num den : Z) : string :=
  let n := (2 * (10 * num) + den) / (2 * den) in
  pretty (n / 10) +:+ "." +:+ pretty (n mod 10).

(** Divisions by 1024 are exact: the value is [bytes / den]. *)
Definition formatBytes (bytes : Z) : string :=
  if bytes <? 1024 then pretty bytes +:+ " B"
  else
    let '(den, unit) :=
      if bytes <? 1024 * 1024 then (1024, "KB")
      else if bytes <? 1024 * 1024 * 1024 then (1024 * 1024, "MB")
      else (1024 * 1024 * 1024, "GB") in
    (if bytes <? 10 * den then toFixed1 bytes den else toFixed0 bytes den) +:+ " " +:+ unit.

(** ** The preview of a body *)

Definition PREVIEW_MAX_CHARS : Z := 160.
Definition INLINE_MAX_BYTES : Z := 65536.

Inductive AbsentReason : Type := offloaded | unreadable | unknown_size.
Inductive PayloadPreviewState : Type :=
| pv_body (text : jsstr) (truncated : bool) (size : option Z)
| pv_empty (size : option Z)
| pv_absent (reason : AbsentReason) (size : option Z).

Definition payloadPreviewState (row : PayloadPreview) : PayloadPreviewState :=
  let size := pv_size row in
  match pv_preview row with
  | None =>
      pv_absent (match size with
                 | None => unknown_size
                 | Some n => if INLINE_MAX_BYTES <=? n then offloaded else unreadable
                 end) size
  | Some [] => pv_empty size
  | Some text => pv_body text (pv_truncated row) size
  end.

Record PayloadPreviewCopy : Type := MkCopy { cp_label : option string; cp_note : string; cp_title : string }.

Definition NOT_THE_SIGNED_BYTES : string :=
  "A preview, decoded as text — not the bytes the signature was computed over.".

(** [${bytes}] of a size that may be null *)
Definition show_bytes (size : option Z) : string := if size is Some n then formatBytes n else "null".

Definition absentCopy (reason : AbsentReason) (size : option Z) : PayloadPreviewCopy :=
  let bytes := show_bytes size in
  match reason with
  | offloaded =>
      MkCopy (Some "No preview") (bytes +:+ " · held in object storage")
        ("This body is " +:+ bytes +:+ ", at or above the " +:+ formatBytes INLINE_MAX_BYTES +:+
         " inline limit, so it lives in object storage and the list does not fetch it — 200 rows would be 200 object reads. The size is exact, recorded at ingest. Open the event to read the body.")
  | unreadable =>
      MkCopy (Some "No preview") (bytes +:+ " · reclaimed, or not UTF-8")
        ("The body is " +:+ bytes +:+ " and small enough to have been stored inline, but no preview could be produced: either retention has reclaimed the bytes, or they are not valid UTF-8 — a gzipped or binary body, which would decode to replacement characters that look like data. This list cannot tell those two apart; the event page can.")
  | unknown_size =>
      MkCopy (Some "No preview") "the event could not be read"
        "Neither a preview nor a size came back for this delivery, which per the API means the event row itself could not be read. The delivery is still on the ledger."
  end.

Definition describePayloadPreview (state : PayloadPreviewState) : PayloadPreviewCopy :=
  match state with
  | pv_body _ true size =>
      MkCopy None
        (match size with
         | None => "first " +:+ pretty PREVIEW_MAX_CHARS +:+ " chars"
         | Some n => "first " +:+ pretty PREVIEW_MAX_CHARS +:+ " chars of " +:+ formatBytes n
         end)
        ("Truncated: the first " +:+ pretty PREVIEW_MAX_CHARS +:+ " characters of the body. It is cut by character count, not at a structural boundary, so it is very often invalid JSON. " +:+ NOT_THE_SIGNED_BYTES +:+ " Open the delivery for the whole payload.")
  | pv_body _ false size =>
      MkCopy None (match size with None => "the whole body" | Some n => formatBytes n end)
        ("The whole body, short enough to fit. " +:+ NOT_THE_SIGNED_BYTES)
  | pv_empty _ =>
      MkCopy (Some "Empty body") "published with no body"
        "This event was published with an empty body — zero bytes, which is a fact about the event and not a preview that could not be produced."
  | pv_absent reason size => absentCopy reason size
  end.

(** ** Pages *)

Section Pages.
  Context {R : Type}.

(** A list response: the fields a deployment may leave out are options. *)
Record Envelope : Type := MkEnvelope {
  en_data : option (list R); en_has_more : option bool; en_next_offset : option Z
}.
Record Paged : Type := MkPaged { pg_rows : list R; pg_hasMore : bool; pg_nextOffset : option Z }.

Definition emptyPage : Paged := MkPaged [] false None.
Definition offsetPage (page : option Envelope) : Paged :=
  MkPaged (default [] (page ≫= en_data)) (bool_decide (page ≫= en_has_more = Some true)) (page ≫= en_next_offset).

(** [pageParams]: the limit and the offset of the request. *)
Definition pageParams (offset : Z) (limit : option Z) : Z * option Z :=
  (default DEFAULT_PAGE_SIZE limit, if 0 <? offset then Some offset else None).

Definition pageRange (offset : Z) (page : Paged) : string :=
  match pg_rows page with
  | [] => "No results"
  | rows =>
      let first := offset + 1 in
      let last := offset + Z.of_nat (length rows) in
      let span := if first =? last then pretty first else pretty first +:+ "–" +:+ pretty last in
      if pg_hasMore page then span +:+ " of more" else span +:+ " of " +:+ pretty last
  end.
End Pages.
Arguments Envelope : clear implicits.
Arguments Paged : clear implicits.

Definition booleanParam (value : option bool) : option string :=
  (λ b : bool, if b then "true" else "false") <$> value.

(** ** What the screen says of a delivery *)

(** What the detail page reads of the control plane's answer. *)
Definition outcome_of (d : DeliveryDto) (last_error : option string) (attempts : list attempt) : DeliveryOutcome :=
  deliveryOutcome (dd_status d) (dd_attempt_count d) (dd_max_attempts d) last_error (dd_terminal d) attempts.

(** The screen and the ledger disagree on one state.  For every state but
    [failed], the console calls a delivery finished exactly when the control plane
    does, offers a replay exactly for the finished ones that did not succeed, and
    counts the attempts left as zero once it is finished.  A delivery in [failed] is
    finished for the control plane, a failure no retry can fix; the console says of
    it that attempts are left and, when no permanent status code is in hand, that a
    retry is expected shortly, and it does not offer the replay the control plane
    would accept. *)
Theorem console_terminal (id : string) (d : Delivery.t) (error : option string) (attempts : list attempt) :
  let dto := toDeliveryDto id d in
  let o := outcome_of dto error attempts in
  (dd_status dto ≠ DeliveryStatus.failed →
     console_isTerminal (dd_status dto) = dd_terminal dto
     ∧ canReplay (dd_status dto) = dd_terminal dto && negb (bool_decide (dd_status dto = DeliveryStatus.succeeded))
     ∧ (dd_terminal dto = true → attemptsRemaining o = 0))
  ∧ (dd_status dto = DeliveryStatus.failed →
     dd_terminal dto = true ∧ console_isTerminal (dd_status dto) = false ∧ canReplay (dd_status dto) = false
     ∧ attemptsRemaining o = Z.max 0 (dd_max_attempts dto - dd_attempt_count dto)
     ∧ (dg_kind (diagnoseDelivery o) ≠ fk_http_permanent → dg_next (diagnoseDelivery o) = A_RETRY_IS_EXPECTED)
     ∧ (∀ e : Endpoint.t, isDeliverable e = true → Endpoint.status e ≠ EndpointStatus.deleted → assertReplayable e = Ok tt)).
Proof.
  cbv zeta. unfold outcome_of, attemptsRemaining. cbn [dd_status dd_terminal toDeliveryDto do_status deliveryOutcome].
  split.
  - intros Hs. destruct (Delivery.status d); try done; vm_compute; repeat split; intros; try done; congruence.
  - intros ->. split_and!; try reflexivity.
    + unfold diagnoseDelivery. cbn [do_status deliveryOutcome outcome_of dg_kind dg_next dd_status toDeliveryDto].
      intros Hk. by rewrite bool_decide_eq_false_2.
    + intros e He Hd. unfold assertReplayable. rewrite bool_decide_eq_false_2 by done. by rewrite He.
Qed.

(** ** Sets of deliveries *)

#[local] Ltac decide_states := repeat first [rewrite decide_False by done | rewrite decide_True by done].

Definition count_of (l : list DeliveryStatus.t) (s : DeliveryStatus.t) : nat := length (filter (λ x, x = s) l).

Lemma count_of_cons x l s : count_of (x :: l) s = ((if decide (x = s) then 1 else 0) + count_of l s)%nat.
Proof. unfold count_of. rewrite filter_cons. by case_decide. Qed.

Lemma summary_eq m a b c e a' b' c' e' :
  a = a' → b = b' → c = c' → e = e' → MkSummary m a b c e = MkSummary m a' b' c' e'.
Proof. by intros -> -> -> ->. Qed.

(** The summary of the console by states. *)
Lemma summarize_counts l :
  let su := summarizeDeliveries l in
  let n := count_of l in
  su_total su = length l
  ∧ su_succeeded su = n DeliveryStatus.succeeded
  ∧ su_exhausted su = n DeliveryStatus.exhausted
  ∧ su_failed su = (n DeliveryStatus.cancelled + n DeliveryStatus.failed + n DeliveryStatus.retrying)%nat
  ∧ su_pending su = (n DeliveryStatus.pending + n DeliveryStatus.scheduled + n DeliveryStatus.queued
                     + n DeliveryStatus.processing)%nat.
Proof.
  cbv zeta. unfold summarizeDeliveries. generalize (length l) as m.
  assert (∀ m a b c e,
    foldl count_status (MkSummary m a b c e) l =
    MkSummary m (a + count_of l DeliveryStatus.succeeded)
      (b + (count_of l DeliveryStatus.cancelled + count_of l DeliveryStatus.failed + count_of l DeliveryStatus.retrying))
      (c + (count_of l DeliveryStatus.pending + count_of l DeliveryStatus.scheduled + count_of l DeliveryStatus.queued
            + count_of l DeliveryStatus.processing))
      (e + count_of l DeliveryStatus.exhausted)) as H.
  { induction l as [|x l IH]; intros m a b c e; [cbn; apply summary_eq; lia|].
    cbn [foldl]. rewrite !count_of_cons.
    destruct x; match goal with |- context [foldl _ (count_status ?su ?st) _] =>
      let v := eval cbv in (count_status su st) in change (count_status su st) with v end;
      rewrite IH; decide_states; apply summary_eq; lia. }
  intros m. rewrite H. cbn. lia.
Qed.

Lemma length_counts l :
  length l = foldl (λ n s, n + count_of l s)%nat 0%nat ALL_STATUSES.
Proof.
  induction l as [|x l IH]; [done|]. cbn [length]. rewrite IH. cbn [ALL_STATUSES foldl]. rewrite !count_of_cons.
  destruct x; decide_states; lia.
Qed.

(** Two counts of the same deliveries.  The health line the console computes from
    the states of an event's deliveries agrees with the rollup the control plane sends:
    the total and the delivered are the same, every delivery is counted once, and the
    two groupings differ only in that the console counts the retrying among the
    failed and the cancelled with them. *)
Theorem summary_agrees_with_rollup (l : list DeliveryStatus.t) (st : EventStatus.t) :
  let su := summarizeDeliveries l in
  let ru := rollUp st (count_of l) in
  su_total su = ru_total ru
  ∧ su_succeeded su = ru_succeeded ru
  ∧ su_total su = (su_succeeded su + su_failed su + su_pending su + su_exhausted su)%nat
  ∧ (su_failed su + su_exhausted su = ru_failed ru + ru_cancelled ru + count_of l DeliveryStatus.retrying)%nat
  ∧ (su_pending su + count_of l DeliveryStatus.retrying = ru_in_flight ru)%nat.
Proof.
  cbv zeta. destruct (summarize_counts l) as (-> & -> & -> & -> & ->).
  unfold rollUp. pose proof (length_counts l) as Hl. cbn [ALL_STATUSES IN_FLIGHT foldl] in *.
  assert (∀ (b1 b2 b3 b4 b5 : bool) (st1 st2 st3 st4 st5 st6 : EventRollupState) t s f i c,
    let r := if b1 then MkRollup (if b2 then st1 else st2) t s f i c
             else if b3 then MkRollup st3 t s f i c else if b4 then MkRollup st4 t s f i c
             else if b5 then MkRollup st5 t s f i c else MkRollup st6 t s f i c in
    ru_total r = t ∧ ru_succeeded r = s ∧ ru_failed r = f ∧ ru_in_flight r = i ∧ ru_cancelled r = c) as H
    by (intros; subst r; repeat case_match; cbn; done).
  edestruct H as (-> & -> & -> & -> & ->). lia.
Qed.

(** A badge never hides the worst: the state an event row leads with is one of its
    deliveries' states, no other of them is more severe, and only an event without
    deliveries has none. *)
Theorem worst_first (l : list DeliveryStatus.t) :
  match worstStatus l with
  | None => l = []
  | Some s => s ∈ l ∧ ∀ i j s', severity !! i = Some s → severity !! j = Some s' → s' ∈ l → (i <= j)%nat
  end.
Proof.
  unfold worstStatus.
  assert (∀ cands i0, (∀ i s, cands !! i = Some s → severity !! (i0 + i)%nat = Some s) →
    (∀ j s', (j < i0)%nat → severity !! j = Some s' → s' ∉ l) →
    match head (filter (λ candidate, candidate ∈ l) cands) with
    | None => ∀ s, s ∈ cands → s ∉ l
    | Some s => s ∈ l ∧ ∃ i, severity !! i = Some s ∧ ∀ j s', (j < i)%nat → severity !! j = Some s' → s' ∉ l
    end) as H.
  { induction cands as [|x cands IH]; intros i0 Hs Hb; [by intros s ?%not_elem_of_nil|].
    rewrite filter_cons. case_decide as Hx; cbn [head].
    - split; [done|]. exists i0. split; [by rewrite <- (Hs 0%nat x eq_refl); f_equal; lia|done].
    - specialize (IH (S i0)). destruct (head _) as [s|].
      + apply IH; [intros i s' Hi; rewrite <- (Hs (S i) s' Hi); f_equal; lia|].
        intros j s' Hj Hl. destruct (decide (j = i0)) as [->|]; [|by apply (Hb j); [lia|]].
        pose proof (Hs 0%nat x eq_refl) as H0. rewrite Nat.add_0_r in H0. congruence.
      + intros s [->|Hin]%elem_of_cons; [done|]. revert s Hin.
        apply IH; [intros i s' Hi; rewrite <- (Hs (S i) s' Hi); f_equal; lia|].
        intros j s' Hj Hl. destruct (decide (j = i0)) as [->|]; [|by apply (Hb j); [lia|]].
        pose proof (Hs 0%nat x eq_refl) as H0. rewrite Nat.add_0_r in H0. congruence. }
  specialize (H severity 0%nat ltac:(done) ltac:(intros; lia)). destruct (head _) as [s|].
  - destruct H as (Hin & i & Hi & Hb). split; [done|]. intros i' j s' Hi' Hj Hs'.
    assert (i' = i) as ->.
    { assert (NoDup severity) as Hnd by (apply (bool_decide_eq_true_1 _); vm_compute; reflexivity).
      by eapply NoDup_lookup. }
    destruct (decide (i <= j)%nat) as [|Hlt]; [done|]. exfalso. by apply (Hb j s'); [lia|done|done].
  - destruct l as [|s l]; [done|]. exfalso. apply (H s); [|by left].
    apply (bool_decide_eq_true_1 _). destruct s; vm_compute; reflexivity.
Qed.

(** ** The deliveries of an event *)

Lemma rollUp_total st n :
  ru_total (rollUp st n)
  = (ru_succeeded (rollUp st n) + ru_in_flight (rollUp st n) + ru_failed (rollUp st n) + ru_cancelled (rollUp st n))%nat.
Proof.
  unfold rollUp. cbn [ALL_STATUSES IN_FLIGHT foldl]. repeat case_match; cbn; lia.
Qed.

Lemma join_with_blank sep l : join_with sep l = "" → ∀ x, head l = Some x → x = "".
Proof.
  destruct l as [|x [|y l]]; cbn; [done|by intros -> x' [= <-]|].
  intros Hb x' [= <-]. by destruct x.
Qed.

Lemma show_nat_text n (s : string) : s ≠ "" → show_nat n +:+ s ≠ "".
Proof. intros Hs. by destruct (show_nat n). Qed.

(** An event row is never blank: whatever deliveries the control plane rolled up,
    the console's sentence about them says something. *)
Theorem rollup_sentence (st : EventStatus.t) (n : DeliveryStatus.t → nat) :
  rs_detail (describeRollup (Some (rollUp st n))) ≠ "".
Proof.
  cbn [describeRollup rs_detail]. pose proof (rollUp_total st n) as Ht.
  generalize dependent (rollUp st n). intros r Ht. unfold detailFor.
  case_match; [done|]. case_match; [done|]. destruct (Nat.eqb_spec (ru_total r) 0) as [|Hn]; [done|].
  case_match; [by apply show_nat_text|]. case_match; [done|].
  assert (∃ k w l, (part (ru_succeeded r) " delivered" ++ part (ru_in_flight r) " still going"
                    ++ part (ru_failed r) " failed" ++ part (ru_cancelled r) " cancelled") = (show_nat k +:+ w) :: l ∧ w ≠ "")
    as (k & w & l & -> & Hw).
  { unfold part. destruct (Nat.ltb_spec 0 (ru_succeeded r)); [by eexists _, _, _|].
    destruct (Nat.ltb_spec 0 (ru_in_flight r)); [by eexists _, _, _|].
    destruct (Nat.ltb_spec 0 (ru_failed r)); [by eexists _, _, _|].
    destruct (Nat.ltb_spec 0 (ru_cancelled r)); [by eexists _, _, _|]. lia. }
  intros Hb. by apply (show_nat_text k w Hw), (join_with_blank _ _ Hb).
Qed.

(** The four meanings of a preview stay apart.  From the cell alone the row's
    preview and size can be read back, a truncation mark appears only beside a text,
    and the three reasons for a missing preview are told by the size: none, at least
    64 KiB, or less. *)
Theorem preview_states (row : PayloadPreview) :
  match payloadPreviewState row with
  | pv_body t tr n => pv_preview row = Some t ∧ t ≠ [] ∧ pv_truncated row = tr ∧ pv_size row = n
  | pv_empty n => pv_preview row = Some [] ∧ pv_size row = n
  | pv_absent reason n =>
      pv_preview row = None ∧ pv_size row = n
      ∧ match reason with
        | unknown_size => n = None
        | offloaded => ∃ k, n = Some k ∧ 65536 <= k
        | unreadable => ∃ k, n = Some k ∧ k < 65536
        end
  end.
Proof.
  destruct row as [[[|c t]|] size tr]; cbn; [done|done|].
  destruct size as [k|]; [|done]. unfold INLINE_MAX_BYTES. destruct (Z.leb_spec 65536 k); eauto.
Qed.

(** ** Paging through a list *)

Section Pager.
  Context {R : Type} (rows : list R).

(** The control plane's answer to a list request. *)
Definition list_response (params : Z * option Z) : Envelope R :=
  let page := findPage rows (Some (int params.1)) (int <$> params.2) in
  MkEnvelope (Some (p_rows page)) (Some (p_hasMore page)) (p_nextSkip page).

(** Pressing "next" until the page says it is the last. *)
Fixpoint pager (fuel : nat) (limit : option Z) (offset : Z) : list (Paged R) :=
  match fuel with
  | O => []
  | S fuel =>
      let page := offsetPage (Some (list_response (pageParams offset limit))) in
      page :: match pg_nextOffset page with
              | Some next => pager fuel limit next
              | None => []
              end
  end.

Lemma offset_params skip : 0 <= skip → default 0 (offset (int <$> (if 0 <? skip then Some skip else None))) = skip.
Proof.
  intros Hs. destruct (Z.ltb_spec 0 skip); cbn [fmap option_fmap option_map].
  - by rewrite offset_int by done.
  - cbn. lia.
Qed.

Lemma page_facts limit skip (p := offsetPage (Some (list_response (pageParams skip limit))))
    (n := pageSize (Some (int (default DEFAULT_PAGE_SIZE limit)))) :
  0 <= skip →
  pg_rows p = take (Z.to_nat n) (drop (Z.to_nat skip) rows)
  ∧ (pg_hasMore p = true ↔ (Z.to_nat skip + Z.to_nat n < length rows)%nat)
  ∧ pg_nextOffset p = if pg_hasMore p then Some (skip + n) else None.
Proof.
  intros Hs. subst p n.
  destruct (findPage_facts rows (Some (int (default DEFAULT_PAGE_SIZE limit)))
              (int <$> (if 0 <? skip then Some skip else None))) as (Hr & Hm & Hn).
  rewrite offset_params in Hr, Hm, Hn by done.
  assert (∀ b : bool, bool_decide (Some b = Some true) = b) as Hb by (by intros []).
  cbn. rewrite Hb. split_and!; [exact Hr|exact Hm|exact Hn].
Qed.

Lemma pager_facts limit : ∀ fuel skip, 0 <= skip → (length rows < fuel + Z.to_nat skip)%nat → (0 < fuel)%nat →
  let ps := pager fuel limit skip in
  concat (pg_rows <$> ps) = drop (Z.to_nat skip) rows
  ∧ (0 < length ps)%nat
  ∧ ∀ i page, ps !! i = Some page →
      pg_hasMore page = negb (bool_decide (S i = length ps))
      ∧ (pg_hasMore page = false → pg_nextOffset page = None).
Proof.
  pose proof (pageSize_bounds (Some (int (default DEFAULT_PAGE_SIZE limit)))) as Hn.
  induction fuel as [|fuel IH]; intros skip Hs Hf H0; [lia|]. cbn [pager].
  destruct (page_facts limit skip Hs) as (Hr & Hm & Hx).
  set (page := offsetPage _) in *. set (n := pageSize _) in *. rewrite Hx.
  destruct (pg_hasMore page) eqn:E.
  - pose proof (proj1 Hm eq_refl) as Hlt.
    destruct (IH (skip + n)) as (Hc & Hl & Hp); [lia|clear -Hf Hlt Hn Hs; lia|clear -Hf Hlt Hn Hs; lia|].
    split_and!; [|cbn; lia|].
    + cbn [fmap list_fmap concat]. rewrite Hc, Hr.
      replace (Z.to_nat (skip + n)) with (Z.to_nat skip + Z.to_nat n)%nat by lia.
      rewrite <- drop_drop. apply take_drop.
    + intros [|i] pg Hi; cbn in Hi.
      * injection Hi as <-. rewrite E, bool_decide_eq_false_2 by (cbn [length]; lia). done.
      * destruct (Hp i pg Hi) as [-> Hb]. split; [|done]. f_equal. apply bool_decide_ext. cbn [length]. lia.
  - assert (length rows <= Z.to_nat skip + Z.to_nat n)%nat.
    { destruct (decide (Z.to_nat skip + Z.to_nat n < length rows)%nat) as [Hlt|]; [|lia].
      apply Hm in Hlt. congruence. }
    split_and!; [|cbn; lia|].
    + change (pg_rows page ++ [] = drop (Z.to_nat skip) rows). rewrite app_nil_r, Hr. apply take_ge. rewrite length_drop. lia.
    + intros [|i] pg Hi; [|done]. cbn in Hi. injection Hi as <-. by rewrite E, Hx.
Qed.

(** Following the pager shows everything once.  From the first page, whatever page
    size is asked for, the pages shown hold every row of the list exactly once and in
    order, a page says there is more exactly when another one follows, and the last
    one offers no next. *)
Theorem pager_shows_all (limit : option Z) (fuel : nat) (Hfuel : (length rows < fuel)%nat) :
  concat (pg_rows <$> pager fuel limit 0) = rows
  ∧ ∀ i page, pager fuel limit 0 !! i = Some page →
      pg_hasMore page = negb (bool_decide (S i = length (pager fuel limit 0)))
      ∧ (pg_hasMore page = false → pg_nextOffset page = None).
Proof.
  destruct (pager_facts limit fuel 0) as (Hc & _ & Hp); [lia..|]. split; [|exact Hp].
  by rewrite Hc.
Qed.
End Pager.

Lemma pager_shows_all_witness :
  concat (pg_rows <$> pager [1; 2; 3; 4; 5] 6 (Some 2) 0) = [1; 2; 3; 4; 5].
Proof. apply (pager_shows_all [1; 2; 3; 4; 5] (Some 2) 6). cbn. lia. Defined.
