(* ===== verification/ConsoleEndpoints.v ===== *)
(** The console's reading of an endpoint: dashboard features/endpoints/breaker.ts,
    endpoint-state.ts and secrets.ts.

    An endpoint is shown by its [enabled] and [status] columns and by whether a
    secret signs for it; a secret by the two fields the list carries.  The theorems
    set the reading beside what the services and the sweep can write. *)
From Stdlib Require Import ZArith Lia QArith.
From stdpp Require Import pretty.
From S2P Require Import Prelude Js Permissions RetryRules AuditTrail Db Scope EndpointSecrets AutoDisable Endpoints Replay.
Open Scope Z_scope.

(** ** breaker.ts *)

Inductive EndpointCondition : Type := delivering | auto_disabled | operator_paused | cond_deleted.
#[export] Instance EndpointCondition_eq_dec : EqDecision EndpointCondition.
Proof. solve_decision. Defined.

Definition endpointCondition (enabled : bool) (status : EndpointStatus.t) : EndpointCondition :=
  if bool_decide (status = EndpointStatus.deleted) then cond_deleted
  else if enabled && bool_decide (status = EndpointStatus.active) then delivering
  else if enabled then auto_disabled
  else operator_paused.

Record EndpointControls : Type := MkControls {
  ec_condition : EndpointCondition; ec_resumeLabel : option string; ec_pauseLabel : option string;
  ec_resumeTitle : string; ec_resumeConfirmLabel : string; ec_resumeIsRisky : bool
}.
Definition endpointControls (enabled : bool) (status : EndpointStatus.t) : EndpointControls :=
  match endpointCondition enabled status with
  | cond_deleted => MkControls cond_deleted None None "Resume deliveries?" "Resume" false
  | auto_disabled =>
      MkControls auto_disabled (Some "Resume deliveries anyway") (Some "Pause it instead")
        "Resume deliveries anyway?" "Resume anyway" true
  | operator_paused => MkControls operator_paused (Some "Resume deliveries") None "Resume deliveries?" "Resume" false
  | delivering => MkControls delivering None (Some "Pause deliveries") "Resume deliveries?" "Resume" false
  end.

(** ** endpoint-state.ts *)

Inductive StateTone : Type := st_ok | st_warn | st_danger | st_neutral.
Inductive FactSource : Type := yours | platform_source | none_source.

Record EndpointFacts : Type := MkFacts {
  ef_intent : string * StateTone; ef_platform : string * StateTone; ef_source : FactSource; ef_remedy : option string
}.

Definition PAUSED_BY_YOU : EndpointFacts :=
  MkFacts ("Paused by you", st_warn) ("Not sending", st_neutral) yours
    (Some "Your decision. Resume it when you are ready — new events create nothing for it.").
Definition STOPPED_BY_US : EndpointFacts :=
  MkFacts ("On", st_ok) ("Stopped by us", st_danger) platform_source
    (Some "You still want this endpoint delivering; we stopped sending because it kept failing. Starting it again is what resumes delivery — you do not need to change your setting.").

Definition endpointFacts (status : EndpointStatus.t) (enabled has_live_secret : bool) : EndpointFacts :=
  if bool_decide (status = EndpointStatus.deleted)
  then MkFacts ("Deleted", st_neutral) ("Kept for the record", st_neutral) yours None
  else if negb enabled || bool_decide (status = EndpointStatus.paused) then PAUSED_BY_YOU
  else if negb has_live_secret
  then MkFacts ("On", st_ok) ("No secret yet", st_warn) platform_source
         (Some "We will not make an unsigned request. Issue a signing secret and it starts sending.")
  else if bool_decide (status = EndpointStatus.disabled) then STOPPED_BY_US
  else MkFacts ("On", st_ok) ("Delivering", st_ok) none_source None.

Definition SOURCE_LABEL (s : FactSource) : option string :=
  match s with
  | yours => Some "YOUR DECISION"
  | platform_source => Some "PLATFORM DECISION"
  | none_source => None
  end.

(** ** secrets.ts *)

Definition SECRET_ROLES : list MemberRole := [admin; owner].
Definition MIN_OVERLAP_SECONDS : Z := 0.
Definition MAX_OVERLAP_SECONDS : Z := 30 * 24 * 60 * 60.

Definition mayManageSecrets (role : option MemberRole) : bool :=
  match role with
  | None => true
  | Some r => bool_decide (r ∈ SECRET_ROLES)
  end.

Inductive SecretCondition : Type := signing | expiring | retired.
(** A row of the list: whether it signs and whether an end is set. *)
Record SecretView : Type := MkSecretView { sv_id : string; sv_active : bool; sv_expires_at : option jsstr }.
Definition secretCondition (s : SecretView) : SecretCondition :=
  if negb (sv_active s) then retired
  else if sv_expires_at s is Some (_ :: _) then expiring else signing.
Definition SECRET_CONDITION_LABEL (s : SecretCondition) : string :=
  match s with signing => "signing" | expiring => "signing until" | retired => "retired" end.

(** The value a person typed: a number or something else. *)
Definition rejectOverlapSeconds (value : option num) : option string :=
  match value with
  | Some v =>
      if negb (isInteger v) then Some "must be an integer number"
      else if num_ltb v (int MIN_OVERLAP_SECONDS) then Some ("must not be less than " +:+ pretty MIN_OVERLAP_SECONDS)
      else if num_gtb v (int MAX_OVERLAP_SECONDS) then Some ("must not be greater than " +:+ pretty MAX_OVERLAP_SECONDS)
      else None
  | None => Some "must be an integer number"
  end.

Definition UNITS : list (Z * string) := [(86400, "day"); (3600, "hour"); (60, "minute"); (1, "second")].
Fixpoint describe_units (units : list (Z * string)) (seconds : Z) : string :=
  match units with
  | [] => pretty seconds +:+ " seconds"
  | (size, name) :: units =>
      if seconds mod size =? 0
      then let count := seconds / size in pretty count +:+ " " +:+ name +:+ (if count =? 1 then "" else "s")
      else describe_units units seconds
  end.
(** Of a whole number of seconds. *)
Definition describeSeconds (seconds : Z) : string :=
  if seconds =? 0 then "no time at all" else describe_units UNITS seconds.

Definition describeOverlap (seconds : Z) : string * string :=
  if seconds =? 0 then
    ("The current secrets stop signing immediately.",
     "Only the new secret will sign from now on. A consumer that is still verifying with the old one will reject every delivery until it is switched. Use this for a leaked secret, not for a routine rotation.")
  else
    ("The current secrets keep signing for " +:+ describeSeconds seconds +:+ ", then stop.",
     "During that window every delivery carries one signature per active secret, and a consumer verifying with either one succeeds — so the consumer can be switched to the new secret without dropping a delivery. Switch it before the window closes.").

Definition isDefaultOverlap (seconds : Z) : bool := seconds =? DEFAULT_OVERLAP_SECONDS.

(** [None] when the page does not carry the count. *)
Definition wouldBeLastActive (target : SecretView) (rows : list SecretView) (hasMore : bool)
    (endpointStatus : EndpointStatus.t) : option bool :=
  if negb (sv_active target) then Some false
  else if bool_decide (endpointStatus = EndpointStatus.deleted) then Some false
  else if hasMore then None
  else Some (negb (existsb (λ s, negb (bool_decide (sv_id s = sv_id target)) && sv_active s) rows)).

(** ** What the screen says of an endpoint *)

(** The screen never tells a stop by the platform.  From coherent rows, through any
    sequence of requests and sweeps, no endpoint is ever shown as stopped by the
    platform: every one that is neither live nor deleted is shown as paused by the
    reader, without the warning that resuming sends a burst to a consumer that is
    still broken, because the sweep that stops an endpoint also clears the column the
    screen reads as the reader's intent.  Of the live ones the screen is right: an
    endpoint is shown delivering exactly when the control plane would deliver to it
    and a secret signs for it. *)
Theorem console_condition (db db' : Db) (id : string) (e : Endpoint.t) (secret : bool)
  (Hs : star any_step db db') (Hc : ∀ i r, endpoints db !! i = Some r → coherent r)
  (He : endpoints db' !! id = Some e) :
  let condition := endpointCondition (Endpoint.enabled e) (Endpoint.status e) in
  let facts := endpointFacts (Endpoint.status e) (Endpoint.enabled e) secret in
  condition ≠ auto_disabled ∧ facts ≠ STOPPED_BY_US
  ∧ (condition = delivering ↔ isDeliverable e = true)
  ∧ (ef_source facts = none_source ↔ isDeliverable e = true ∧ secret = true)
  ∧ (isDeliverable e = false → Endpoint.status e ≠ EndpointStatus.deleted →
       condition = operator_paused ∧ facts = PAUSED_BY_YOU
       ∧ ec_resumeIsRisky (endpointControls (Endpoint.enabled e) (Endpoint.status e)) = false).
Proof.
  cbv zeta. pose proof (steps_coherent db db' Hs Hc id e He) as [He1 He2].
  unfold isDeliverable, endpointControls.
  destruct (Endpoint.enabled e), (Endpoint.status e), secret;
    try (by specialize (He1 eq_refl)); try (by specialize (He2 eq_refl));
    vm_compute; split_and!; try done; naive_solver.
Qed.

(** The same of an endpoint the sweep has just stopped. *)
Lemma swept_reads_paused (cd : Candidate) (now : Z) (e : Endpoint.t) (secret : bool) :
  endpointFacts (Endpoint.status (switched_off cd now e)) (Endpoint.enabled (switched_off cd now e)) secret = PAUSED_BY_YOU.
Proof. reflexivity. Qed.

(** ** The last secret *)

Definition secret_view (now : Z) (s : secret_row) : SecretView :=
  MkSecretView s.1 (isEffectivelyActive s.2 now) (toISOString <$> EndpointSecret.expiresAt s.2).

Definition ONLY_SIGNING : string := "This is the only secret currently signing for this endpoint.".

(** Whether another secret of the list signs. *)
Definition another_signs (now : Z) (rows : list secret_row) (id : string) : bool :=
  existsb (λ s : secret_row, negb (bool_decide (s.1 = id)) && isEffectivelyActive s.2 now) rows.

Lemma survivors_nil now rows id `{∀ s : secret_row, Decision (s.1 ≠ id ∧ isEffectivelyActive s.2 now = true)} :
  filter (λ s : secret_row, s.1 ≠ id ∧ isEffectivelyActive s.2 now = true) rows = [] ↔ another_signs now rows id = false.
Proof.
  unfold another_signs. induction rows as [|s rows IH]; [done|]. rewrite filter_cons. cbn [existsb].
  case_decide as Hs; [destruct Hs as [Hn Ha]|].
  - by rewrite bool_decide_eq_false_2, Ha by done.
  - rewrite IH. destruct (isEffectivelyActive s.2 now) eqn:E; [|by rewrite andb_false_r].
    case_bool_decide; [done|]. destruct Hs. by split.
Qed.

Lemma wouldBe_view now rows target status :
  isEffectivelyActive target.2 now = true →
  wouldBeLastActive (secret_view now target) (secret_view now <$> rows) false status
  = Some (negb (bool_decide (status = EndpointStatus.deleted)) && negb (another_signs now rows target.1)).
Proof.
  intros Ha. unfold wouldBeLastActive. cbn [sv_active sv_id secret_view]. rewrite Ha. cbn [negb].
  case_bool_decide; [done|]. cbn [negb andb]. do 2 f_equal. unfold another_signs.
  induction rows as [|s rows IH]; [done|]. cbn [existsb fmap list_fmap sv_id sv_active secret_view]. by f_equal.
Qed.

(** The update answers with the number of rows. *)
#[local] Ltac run_update s :=
  match goal with |- context [updateMany ?c ?p ?f ?d] =>
    let E := fresh in destruct (updateMany c p f d) as [[?n|?x] s] eqn:E; [|by unfold updateMany in E]
  end.

Lemma revoke_verdict c eid id now db ep rows :
  requireEndpoint c eid db = (Ok ep, db) → secretsFor c eid db = (Ok rows, db) → id ∈ rows.*1 →
  (revoke c eid id now db).1 = throw conflict ONLY_SIGNING
  ↔ another_signs now rows id = false ∧ Endpoint.status ep ≠ EndpointStatus.deleted.
Proof.
  intros He Hr Hin. unfold revoke, transact. unfold mbind at 1, M_bind at 1. rewrite He.
  unfold mbind at 1, M_bind at 1. rewrite Hr.
  match goal with |- context [head ?l] => destruct (head l) as [t|] eqn:Et end.
  2:{ exfalso. apply list_elem_of_fmap in Hin as (s & -> & Hs).
      apply head_None in Et. apply (not_elem_of_nil s). refine (eq_ind _ (λ l, s ∈ l) _ _ Et).
      by apply list_elem_of_filter. }
  cbv zeta. unfold mbind at 1, M_bind at 1. unfold guardM, lift, throw_if, endpoint_deleted.
  repeat case_bool_decide; cbn [andb negb]; rewrite survivors_nil in *.
  2: { split; intros _; [by split|reflexivity]. }
  all: split; [|naive_solver]; unfold mbind at 1, M_bind at 1; run_update db1;
    unfold mbind at 1, M_bind at 1; unfold assertStillSigning, endpoint_deleted.
  1, 2: by rewrite bool_decide_eq_true_2 by done.
  rewrite bool_decide_eq_false_2 by done. unfold mbind at 1, M_bind at 1.
  destruct (secretsFor c eid db1) as [[l|x] db2] eqn:Es; [|by unfold secretsFor in Es].
  unfold guardM, lift, throw_if. destruct (negb _); intros Hx; discriminate Hx.
Qed.

(** The last secret.  When the list shows every secret of the endpoint, the warning
    on a secret that signs is right: the dialog says the revocation would be refused
    exactly when the control plane refuses it.  Of a secret that no longer signs it
    always says the revocation goes through, although the control plane refuses it
    too when no other secret signs. *)
Theorem last_secret_warning (c : Ctx) (eid : string) (target : secret_row) (now : Z) (db : Db) (ep : Endpoint.t)
  (rows : list secret_row)
  (He : requireEndpoint c eid db = (Ok ep, db)) (Hr : secretsFor c eid db = (Ok rows, db)) (Ht : target ∈ rows) :
  let refused := (revoke c eid target.1 now db).1 = throw conflict ONLY_SIGNING in
  let warned := wouldBeLastActive (secret_view now target) (secret_view now <$> rows) false (Endpoint.status ep) in
  (isEffectivelyActive target.2 now = true → (warned = Some true ↔ refused))
  ∧ (isEffectivelyActive target.2 now = false →
       warned = Some false
       ∧ (refused ↔ another_signs now rows target.1 = false ∧ Endpoint.status ep ≠ EndpointStatus.deleted)).
Proof.
  cbv zeta. pose proof (revoke_verdict c eid target.1 now db ep rows He Hr ltac:(by apply list_elem_of_fmap; eauto)) as Hv.
  split; intros Ha.
  - rewrite Hv, wouldBe_view by done.
    case_bool_decide; destruct (another_signs now rows target.1); cbn; naive_solver.
  - split; [|exact Hv]. unfold wouldBeLastActive. cbn [sv_active secret_view]. by rewrite Ha.
Qed.

(** ** A stop by the platform *)

Definition stopped_db : Db := w_db (sweep ad_options ad_now true true ad_world).2.

Lemma console_condition_witness :
  ∃ e, endpoints stopped_db !! "e1" = Some e ∧ Endpoint.status e = EndpointStatus.disabled
       ∧ endpointFacts (Endpoint.status e) (Endpoint.enabled e) true = PAUSED_BY_YOU.
Proof.
  destruct (endpoints stopped_db !! "e1") as [e|] eqn:He; [|vm_compute in He; discriminate He].
  exists e. split; [reflexivity|].
  assert (star any_step ad_db stopped_db) as Hs.
  { eapply star_step; [|apply star_refl]. exists ad_now. apply st_sweep. }
  assert (∀ i r, endpoints ad_db !! i = Some r → coherent r) as Hc.
  { intros i r Hr. change (<["e1" := ep "p1"]> ({["e2" := ep "p2"]} : gmap string Endpoint.t) !! i = Some r) in Hr.
    apply lookup_insert_Some in Hr as [[_ <-]|[_ Hr]]; [done|].
    apply lookup_singleton_Some in Hr as [_ <-]. done. }
  destruct (console_condition ad_db stopped_db "e1" e true Hs Hc He) as (_ & _ & _ & _ & H).
  assert (Endpoint.status e = EndpointStatus.disabled) as Est
    by (vm_compute in He; injection He as <-; reflexivity).
  split; [exact Est|]. apply H.
  - unfold isDeliverable. rewrite Est. by destruct (Endpoint.enabled e).
  - rewrite Est. discriminate.
Defined.

Lemma last_secret_warning_witness :
  (revoke es_ctx "e1" "s1" 5 es_db1).1 = throw conflict ONLY_SIGNING.
Proof.
  destruct (requireEndpoint es_ctx "e1" es_db1) as [[ep|x] d] eqn:He; [|vm_compute in He; discriminate He].
  assert (d = es_db1) as -> by (vm_compute in He; apply pair_equal_spec in He as [_ <-]; reflexivity).
  destruct (secretsFor es_ctx "e1" es_db1) as [[rows|x] d] eqn:Hr; [|vm_compute in Hr; discriminate Hr].
  assert (d = es_db1) as -> by (vm_compute in Hr; apply pair_equal_spec in Hr as [_ <-]; reflexivity).
  destruct rows as [|t [|]]; [vm_compute in Hr; discriminate Hr| |vm_compute in Hr; discriminate Hr].
  destruct (last_secret_warning es_ctx "e1" t 5 es_db1 ep [t] He Hr ltac:(left)) as [H _].
  assert (t.1 = "s1" ∧ isEffectivelyActive t.2 5 = true ∧ Endpoint.status ep = EndpointStatus.active) as (E1 & E2 & E3).
  { vm_compute in Hr, He. injection Hr as <-. apply pair_equal_spec in He as [He _]. injection He as <-. done. }
  rewrite E1 in H. apply (H E2). rewrite E3. unfold wouldBeLastActive. cbn [sv_active secret_view].
  rewrite E2. cbn. by repeat case_bool_decide.
Defined.
