(* ===== verification/ConsoleOutbox.v ===== *)
(** The bulk requeue of the console: dashboard features/outbox/requeue-loop.ts, the
    press of features/outbox/RequeueDialogs.tsx, the notice of stuck-summary.ts, and
    what parked.ts says of a row that is stuck.

    A press sends one request; it is answered, refused before the control plane
    does anything, or answered to nobody because the connection was lost after the
    control plane committed.  The control plane is Outbox's. *)
From Stdlib Require Import ZArith Lia.
From stdpp Require Import pretty.
From S2P Require Import Prelude Js Permissions RetryRules AuditTrail Db Scope TenantScope Replay Outbox ConsoleDeliveries.

(** ** requeue-loop.ts *)

Record RequeuePass : Type := MkPass { rp_requeued : nat; rp_has_more : bool }.
Inductive RequeueRunStatus : Type := idle | running | more | drained | run_failed.
#[export] Instance RequeueRunStatus_eq_dec : EqDecision RequeueRunStatus.
Proof. solve_decision. Defined.

Record RequeueRun (E : Type) : Type := MkRun { run_status : RequeueRunStatus; run_passes : list RequeuePass; run_error : option E }.
Arguments MkRun {E}.
Arguments run_status {E}.
Arguments run_passes {E}.
Arguments run_error {E}.

Section Loop.
  Context {E : Type}.

Definition idleRun : RequeueRun E := MkRun idle [] None.
Definition startPass (run : RequeueRun E) : RequeueRun E := MkRun running (run_passes run) None.
(** [has_more === true]: the field may be absent. *)
Definition completePass (run : RequeueRun E) (requeued : nat) (has_more : option bool) : RequeueRun E :=
  let pass := MkPass requeued (bool_decide (has_more = Some true)) in
  MkRun (if rp_has_more pass then more else drained) (run_passes run ++ [pass]) None.
Definition failPass (run : RequeueRun E) (error : E) : RequeueRun E := MkRun run_failed (run_passes run) (Some error).

Definition totalRequeued (run : RequeueRun E) : nat := foldl (λ sum pass, (sum + rp_requeued pass)%nat) 0%nat (run_passes run).
Definition canContinue (run : RequeueRun E) : bool :=
  bool_decide (run_status run = idle) || bool_decide (run_status run = more) || bool_decide (run_status run = run_failed).

Definition rows_text (n : nat) : string := pretty n +:+ " row" +:+ (if (n =? 1)%nat then "" else "s").
Definition passes_text (n : nat) : string := pretty n +:+ " pass" +:+ (if (n =? 1)%nat then "" else "es").

Definition NOTHING_WAS_REQUEUED : string := "The pass failed and nothing was requeued.".

Definition describeRun (run : RequeueRun E) (batch : nat) : string :=
  let total := totalRequeued run in
  let count := length (run_passes run) in
  match run_status run with
  | idle => "Returns up to " +:+ pretty batch +:+ " parked rows to the queue, oldest first. If more are parked than one pass allows, you will be told and can send the next pass."
  | running =>
      if (count =? 0)%nat then "Sending the first pass…"
      else "Sending pass " +:+ pretty (count + 1)%nat +:+ "… " +:+ rows_text total +:+ " returned so far."
  | more => rows_text total +:+ " returned to the queue across " +:+ passes_text count +:+ " — more are still parked. Send the next pass to continue."
  | drained =>
      if (total =? 0)%nat then "Nothing was parked, so nothing was requeued. The audit log records the attempt."
      else rows_text total +:+ " returned to the queue across " +:+ passes_text count +:+ ". That was all of them — nothing in this scope is still parked."
  | run_failed =>
      if (count =? 0)%nat then NOTHING_WAS_REQUEUED
      else "The last pass failed. The " +:+ rows_text total +:+ " from the " +:+ passes_text count +:+ " before it are already back in the queue — that work committed and is not lost."
  end.

Definition passButtonLabel (run : RequeueRun E) (batch : nat) : string :=
  match run_status run with
  | idle => "Requeue up to " +:+ pretty batch
  | running => "Requeueing…"
  | more => "Requeue the next " +:+ pretty batch
  | drained => "Done"
  | run_failed => if (length (run_passes run) =? 0)%nat then "Try again" else "Retry the next pass"
  end.
End Loop.

(** ** stuck-summary.ts *)

Inductive StuckState : Type :=
| silent
| unknown_state
| stuck (count : nat) (atLeast : bool) (noun verb pronoun : string).

Definition stuckEventsState {R} (page : option (Paged R)) (failed : bool) : StuckState :=
  match page with
  | Some page =>
      let count := length (pg_rows page) in
      if (count =? 0)%nat then silent
      else
        let one := (count =? 1)%nat in
        stuck count (pg_hasMore page) (if one then "event" else "events") (if one then "was" else "were")
          (if one then "It has" else "They have")
  | None => if failed then unknown_state else silent
  end.

(** ** RequeueDialogs.tsx: one press *)

Inductive Fate : Type := answered | refused | lost.
#[export] Instance Fate_eq_dec : EqDecision Fate.
Proof. solve_decision. Defined.

Section Press.
  Context (by_created unordered : list outbox_row → list outbox_row) (c : Ctx).
  Context (scopeEventId : option string) (reason : option jsstr).

Definition sendPass (now : Z) (fate : Fate) (run : RequeueRun unit) (db : Db) : RequeueRun unit * Db :=
  let current := startPass run in
  match fate with
  | refused => (failPass current tt, db)
  | _ =>
      let '(result, db) := requeueParked by_created unordered c scopeEventId reason now db in
      match fate, result with
      | answered, Ok r => (completePass current (rr_requeued r) (Some (rr_has_more r)), db)
      | _, _ => (failPass current tt, db)
      end
  end.

(** The button is disabled unless the run can continue. *)
Definition press (now : Z) (fate : Fate) (st : RequeueRun unit * Db) : RequeueRun unit * Db :=
  if canContinue st.1 then sendPass now fate st.1 st.2 else st.

Definition presses (l : list (Z * Fate)) (st : RequeueRun unit * Db) : RequeueRun unit * Db :=
  foldl (λ st p, press p.1 p.2 st) st l.
End Press.

(** ** The loop and the queue *)

Lemma total_app {E} (passes : list RequeuePass) p s s' (e e' : option E) :
  totalRequeued (MkRun s (passes ++ [p]) e) = (totalRequeued (MkRun s' passes e') + rp_requeued p)%nat.
Proof. unfold totalRequeued. cbn [run_passes]. by rewrite foldl_app. Qed.

Section LoopFacts.
  Context (by_created unordered : list outbox_row → list outbox_row)
    (Hperm : ∀ l, unordered l ≡ₚ l) (Hsort : ∀ l, by_created l ≡ₚ l)
    (c : Ctx) (Hproject : is_Some (ctx_project c)) (ev : option string) (reason : option jsstr).
  Local Notation waiting_rows db := (length (queue_of by_created c ev db)).
  Local Notation press_button := (press by_created unordered c ev reason).
  Local Notation press_all := (presses by_created unordered c ev reason).

Lemma owned_after rows now db a :
  event_owned c ev (upd_auditLogs a (requeued_db rows now db)) = event_owned c ev db.
Proof.
  unfold event_owned, owned_opt, owned. destruct ev as [e|]; [|done].
  unfold find. cbn [tbl Event_table]. unfold requeued_db.
  cbn [events upd_auditLogs upd_events upd_eventOutbox]. rewrite revive_lookup.
  destruct (events db !! e) as [r|]; [|done]. cbn. unfold in_tenant. cbn.
  destruct (_ && _); [|done]. cbn. by repeat case_match.
Qed.

(** What a request that reaches the control plane does to the queue. *)
Lemma server_pass now db :
  event_owned c ev db = true →
  ∃ res db', requeueParked by_created unordered c ev reason now db = (Ok res, db')
    ∧ rr_requeued res = Nat.min 100 (waiting_rows db)
    ∧ rr_has_more res = (100 <? waiting_rows db)%nat
    ∧ waiting_rows db' = (waiting_rows db - 100)%nat
    ∧ event_owned c ev db' = true.
Proof.
  intros He. destruct (requeueParked_run by_created unordered Hperm Hsort c ev reason now db Hproject He) as (a & E & _).
  eexists _, _. split; [exact E|]. cbn [rr_requeued rr_has_more]. split_and!.
  - by rewrite length_take.
  - done.
  - by apply (queue_after_length by_created Hsort).
  - by rewrite owned_after.
Qed.

(** What holds between presses. *)
Record loop_ok (st : RequeueRun unit * Db) : Prop := {
  lo_owned : event_owned c ev st.2 = true;
  lo_status : run_status st.1 ≠ running;
  lo_drained : run_status st.1 = drained → waiting_rows st.2 = 0%nat
}.

Lemma press_ok now fate st :
  loop_ok st →
  loop_ok (press_button now fate st)
  ∧ (totalRequeued (press_button now fate st).1 + waiting_rows (press_button now fate st).2
     <= totalRequeued st.1 + waiting_rows st.2)%nat
  ∧ (fate ≠ lost →
     totalRequeued (press_button now fate st).1 + waiting_rows (press_button now fate st).2
     = totalRequeued st.1 + waiting_rows st.2)%nat
  ∧ (fate = answered → canContinue st.1 = true →
     waiting_rows (press_button now fate st).2 = (waiting_rows st.2 - 100)%nat
     ∧ (run_status (press_button now fate st).1 = drained ↔ waiting_rows st.2 <= 100)%nat
     ∧ run_status (press_button now fate st).1 ≠ run_failed).
Proof.
  intros [Ho Hs Hd]. destruct st as [run db]. cbn [fst snd] in *. unfold press. cbn [fst snd].
  destruct (canContinue run) eqn:Ec; [|split_and!; try done; lia].
  destruct (server_pass now db Ho) as (res & db' & Er & Hn & Hm & Hq & Ho').
  unfold sendPass. rewrite Er. destruct fate.
  - cbn [fst snd]. unfold completePass. cbn [rp_has_more run_passes startPass].
    assert (∀ s, totalRequeued (E:=unit) (MkRun s (run_passes run ++ [MkPass (rr_requeued res) (bool_decide (Some (rr_has_more res) = Some true))]) None)
            = (totalRequeued run + rr_requeued res)%nat) as Ht.
    { intros s. rewrite (total_app _ _ _ (run_status run) _ (run_error run)). by destruct run. }
    rewrite Ht, Hn, Hq, Hm. destruct (Nat.ltb_spec 100 (waiting_rows db)).
    + split_and!; [split; cbn; done|lia|lia|]. intros _ _. split_and!; [done| |done]. cbn. split; [done|lia].
    + split_and!; [split; cbn; [done|done|lia]|lia|lia|]. intros _ _. split_and!; [done| |done]. cbn. split; [lia|done].
  - cbn [fst snd]. split_and!; [by split|done|done|done].
  - cbn [fst snd]. change (totalRequeued (failPass (startPass run) tt)) with (totalRequeued run). rewrite Hq.
    split_and!; [by split|lia|done|done].
Qed.

Lemma presses_ok l : ∀ st, loop_ok st →
  loop_ok (press_all l st)
  ∧ (totalRequeued (press_all l st).1 + waiting_rows (press_all l st).2 <= totalRequeued st.1 + waiting_rows st.2)%nat
  ∧ ((∀ p, p ∈ l → p.2 ≠ lost) →
     totalRequeued (press_all l st).1 + waiting_rows (press_all l st).2 = totalRequeued st.1 + waiting_rows st.2)%nat.
Proof.
  induction l as [|[now fate] l IH]; intros st Hst; [cbn; auto|].
  change (press_all ((now, fate) :: l) st) with (press_all l (press_button now fate st)).
  destruct (press_ok now fate st Hst) as (H1 & H2 & H3 & _). destruct (IH _ H1) as (K1 & K2 & K3).
  split_and!; [done|lia|].
  intros Hl. rewrite K3, H3; [done| |]; [apply (Hl (now, fate)); left|intros p Hp; apply Hl; by right].
Qed.

Lemma drained_stays l : ∀ st, run_status st.1 = drained → press_all l st = st.
Proof.
  induction l as [|[now fate] l IH]; intros st Hd; [done|].
  change (press_all ((now, fate) :: l) st) with (press_all l (press_button now fate st)).
  assert (press_button now fate st = st) as -> by (unfold press, canContinue; by rewrite Hd). by apply IH.
Qed.

Lemma answered_drains times : ∀ st, loop_ok st → canContinue st.1 = true → times ≠ [] →
  (waiting_rows st.2 <= 100 * length times)%nat →
  run_status (press_all (map (λ now, (now, answered)) times) st).1 = drained.
Proof.
  induction times as [|now times IH]; intros st Hst Hc Hne Hq; [done|].
  change (press_all (map (λ now, (now, answered)) (now :: times)) st)
    with (press_all (map (λ now, (now, answered)) times) (press_button now answered st)).
  destruct (press_ok now answered st Hst) as (H1 & _ & _ & H4). destruct (H4 eq_refl Hc) as (Hw & Hd & Hf).
  destruct (decide (waiting_rows st.2 <= 100)%nat) as [Hle|Hgt].
  - apply Hd in Hle. by rewrite drained_stays.
  - apply IH; [done| |destruct times; [cbn in Hq; lia|done]|cbn in Hq; lia].
    unfold canContinue. destruct (run_status (press_button now answered st).1) eqn:E; try done.
    + by destruct (lo_status _ H1).
    + exfalso. apply Hgt, Hd. done.
Qed.

(** C32. The operator knows whether the incident is closed.  From a fresh dialog, however
    the presses go: the screen says drained only when nothing in the scope is still
    parked, and then the button sends nothing more; the tally never exceeds what went
    back to the queue and is exact when no answer was lost; and pressing as often as
    there are hundreds of parked rows, every request answered, ends drained with the
    whole queue in the tally.  A request whose answer was lost is reported as if it
    had done nothing, although the control plane returned up to a hundred rows. *)
Theorem requeue_loop (db : Db) (l : list (Z * Fate)) (Ho : event_owned c ev db = true) :
  let st := press_all l (idleRun, db) in
  (run_status st.1 = drained → queue_of by_created c ev st.2 = [] ∧ canContinue st.1 = false)
  ∧ (totalRequeued st.1 <= waiting_rows db - waiting_rows st.2)%nat
  ∧ ((∀ p, p ∈ l → p.2 ≠ lost) → totalRequeued st.1 + waiting_rows st.2 = waiting_rows db)%nat
  ∧ (∀ times, times ≠ [] → l = map (λ now, (now, answered)) times → (waiting_rows db <= 100 * length times)%nat →
       run_status st.1 = drained ∧ totalRequeued st.1 = waiting_rows db)
  ∧ (∀ now, l = [(now, lost)] →
       describeRun st.1 100 = NOTHING_WAS_REQUEUED
       ∧ waiting_rows st.2 = (waiting_rows db - Nat.min 100 (waiting_rows db))%nat).
Proof.
  cbv zeta. assert (loop_ok (idleRun, db)) as H0 by (by split).
  destruct (presses_ok l (idleRun, db) H0) as (H1 & H2 & H3).
  change (totalRequeued (idleRun (E:=unit), db).1) with 0%nat in *. cbn [snd] in H2, H3.
  split_and!; [|lia|exact H3| |].
  - intros Hd. split; [by apply length_zero_iff_nil, (lo_drained _ H1)|]. unfold canContinue. by rewrite Hd.
  - intros times Hne -> Hq. pose proof (answered_drains times (idleRun, db) H0 eq_refl Hne Hq) as Hd. split; [exact Hd|].
    pose proof (lo_drained _ H1 Hd) as Hz. cbn [snd] in Hz. rewrite Hz in H3.
    assert (∀ p, p ∈ map (λ now, (now, answered)) times → p.2 ≠ lost) as Hl by (by intros p (now & -> & _)%list_elem_of_fmap).
    specialize (H3 Hl). lia.
  - intros now ->. change (press_all [(now, lost)] (idleRun, db)) with
      (sendPass by_created unordered c ev reason now lost idleRun db).
    unfold sendPass.
    destruct (server_pass now db Ho) as (res & db' & -> & _ & _ & Hq & _). cbn [fst snd]. split; [done|]. rewrite Hq. lia.
Qed.
End LoopFacts.

Lemma requeue_loop_witness :
  run_status (presses oldest_first id rep_ctx None None [(50, answered)] (idleRun, parked_db)).1 = drained
  ∧ totalRequeued (presses oldest_first id rep_ctx None None [(50, answered)] (idleRun, parked_db)).1 = 2%nat.
Proof.
  destruct (requeue_loop oldest_first id (λ l, Permutation_refl l) (sort_by_perm _) rep_ctx (ex_intro _ "p1" eq_refl)
    None None parked_db [(50, answered)] eq_refl) as (_ & _ & _ & H & _).
  assert (length (queue_of oldest_first rep_ctx None parked_db) = 2%nat) as Hq by (vm_compute; reflexivity).
  rewrite Hq in H. apply (H [50]); [discriminate|reflexivity|cbn; lia].
Defined.

(** The notice of stuck events tells three states apart: a page in hand is always
    counted, never more than it holds and as a floor exactly when more rows follow; a
    failed request without a page says that nothing is known; silence means that the
    page is empty or that nothing has been asked yet. *)
Theorem stuck_notice {R} (page : option (Paged R)) (failed : bool) :
  match stuckEventsState page failed with
  | stuck n atLeast noun _ _ => ∃ p, page = Some p ∧ n = length (pg_rows p) ∧ (0 < n)%nat ∧ atLeast = pg_hasMore p
      ∧ (noun = "event" ↔ n = 1%nat)
  | unknown_state => page = None ∧ failed = true
  | silent => (∃ p, page = Some p ∧ pg_rows p = []) ∨ (page = None ∧ failed = false)
  end.
Proof.
  destruct page as [[rows m n]|]; cbn; [|destruct failed; auto].
  destruct rows as [|x [|y rows]]; cbn.
  - left. by eexists.
  - eexists. split_and!; try done; cbn; lia.
  - eexists. split_and!; try done; cbn; lia.
Qed.

(** ** parked.ts: why a row parked *)

Inductive ParkReason : Type :=
| attempts_exhausted | retry_duration_exceeded | unknown_outbox_type | event_missing | unknown_reason.
Inductive RequeueOutlook : Type := safe | caution | futile.
#[export] Instance ParkReason_eq_dec : EqDecision ParkReason.
Proof. solve_decision. Defined.
#[export] Instance RequeueOutlook_eq_dec : EqDecision RequeueOutlook.
Proof. solve_decision. Defined.

(** The four reasons the router writes. *)
Definition KNOWN_REASONS : list (jsstr * ParkReason) :=
  [(js "attempts_exhausted", attempts_exhausted); (js "retry_duration_exceeded", retry_duration_exceeded);
   (js "unknown_outbox_type", unknown_outbox_type); (js "event_missing", event_missing)].

(** [/^([a-z_]+):/]: the group. *)
Definition reason_char (c : N) : bool := is_lower c || (c =? 95)%N.
Fixpoint reason_prefix (s : jsstr) : option jsstr :=
  match s with
  | [] => None
  | c :: s =>
      if (c =? 58)%N then Some []
      else if reason_char c then cons c <$> reason_prefix s else None
  end.
Definition known_reason (s : option jsstr) : option ParkReason :=
  match reason_prefix (default [] s) with
  | Some ((_ :: _) as prefix) => snd <$> List.find (λ r, bool_decide (r.1 = prefix)) KNOWN_REASONS
  | _ => None
  end.

Definition truthy (s : option jsstr) : bool := if s is Some (_ :: _) then true else false.
Definition parkReasonOf (entry : OutboxEntryDto) : ParkReason :=
  match known_reason (oe_last_error entry) with
  | Some r => r
  | None =>
      if (0 <? oe_unaccounted_attempts entry)%Z then attempts_exhausted
      else if truthy (oe_failing_since entry) then retry_duration_exceeded
      else unknown_reason
  end.

Definition claims (n : Z) : string := pretty n +:+ " claim" +:+ (if (n =? 1)%Z then "" else "s").
Record ParkedExplanation : Type := MkParked {
  pe_reason : ParkReason; pe_headline : jsstr; pe_evidence : list jsstr; pe_partial : bool; pe_outlook : RequeueOutlook
}.
(** The paragraph under the headline is left out. *)
Definition explainParked (entry : OutboxEntryDto) : ParkedExplanation :=
  let reason := parkReasonOf entry in
  let partial_ := bool_decide (oe_routing_cursor entry ≠ None) in
  let evidence := [js (claims (oe_attempts entry) +:+ " in total, " +:+ pretty (oe_unaccounted_attempts entry)
                       +:+ " of them ending with nothing recorded")] in
  match reason with
  | attempts_exhausted => MkParked reason (js "The router kept dying on this event") evidence partial_ caution
  | retry_duration_exceeded =>
      MkParked reason (js "Kept failing for longer than the retry window")
        (if truthy (oe_failing_since entry)
         then evidence ++ [js "failing continuously since " ++ default [] (oe_failing_since entry)] else evidence)
        partial_ safe
  | unknown_outbox_type =>
      MkParked reason (js "The router does not handle " ++ [34%N] ++ oe_type entry ++ [34%N] ++ js " rows") evidence partial_ futile
  | event_missing => MkParked reason (js "The event this row points at no longer exists") evidence partial_ futile
  | unknown_reason => MkParked reason (js "Parked, and the router did not say why") evidence partial_ caution
  end.
Definition isParked (entry : OutboxEntryDto) : bool := bool_decide (oe_status entry = OutboxStatus.failed).
(** Count, total and ids; None where there is nothing to warn about. *)
Definition futileSummary (entries : list OutboxEntryDto) : option (nat * nat * list string) :=
  let futile_ := filter (λ e, pe_outlook (explainParked e) = futile) entries in
  if bool_decide (futile_ = []) then None
  else Some (length futile_, length entries, filter (λ i, i ≠ ""%string) (map oe_id futile_)).

Lemma reason_prefix_of r rest : forallb reason_char r = true → reason_prefix (r ++ js ":" ++ rest) = Some r.
Proof.
  induction r as [|c r IH]; [done|]. cbn [forallb app reason_prefix]. intros [Hc Hr]%andb_true_iff.
  destruct (N.eqb_spec c 58) as [->|]; [done|]. by rewrite Hc, (IH Hr).
Qed.

(** The outbox page says what the router said.  An error written as a reason, a colon
    and a detail is explained by that reason, whatever the detail and the counters;
    without one the counters decide, unaccounted claims before the time; the button
    is offered for exactly the rows the control plane puts back; and the rows
    called futile are those the router has no code for or whose event is gone, each
    of them counted. *)
Theorem parked_explained (entry : OutboxEntryDto) (row : outbox_row) (entries : list OutboxEntryDto) :
  (∀ name reason detail, (name, reason) ∈ KNOWN_REASONS →
     oe_last_error entry = Some (name ++ js ":" ++ detail) → parkReasonOf entry = reason)
  ∧ (known_reason (oe_last_error entry) = None →
       parkReasonOf entry = if (0 <? oe_unaccounted_attempts entry)%Z then attempts_exhausted
                            else if truthy (oe_failing_since entry) then retry_duration_exceeded else unknown_reason)
  ∧ (isParked (toOutboxEntryDto row) = true ↔ assertRequeueable row.2 = Ok tt)
  ∧ (pe_outlook (explainParked entry) = futile ↔ parkReasonOf entry = unknown_outbox_type ∨ parkReasonOf entry = event_missing)
  ∧ match futileSummary entries with
    | None => ∀ e, e ∈ entries → pe_outlook (explainParked e) ≠ futile
    | Some (n, total, _) => (0 < n)%nat ∧ total = length entries
        ∧ n = length (filter (λ e, pe_outlook (explainParked e) = futile) entries)
    end.
Proof.
  split_and!.
  - intros name reason detail Hin He. unfold parkReasonOf, known_reason. rewrite He. cbn [default from_option]. unfold id.
    unfold KNOWN_REASONS in Hin.
    repeat (apply elem_of_cons in Hin as [[= -> ->]|Hin]; [rewrite reason_prefix_of by reflexivity; reflexivity|]).
    by apply not_elem_of_nil in Hin.
  - intros Hn. unfold parkReasonOf. by rewrite Hn.
  - destruct row as [i r]. unfold isParked, assertRequeueable, REQUEUEABLE_STATUS. cbn. rewrite bool_decide_eq_true.
    case_bool_decide as Hs; [by split|]. split; [done|]. destruct (bool_decide _); done.
  - unfold explainParked. destruct (parkReasonOf entry); cbn; naive_solver.
  - unfold futileSummary. case_bool_decide as Hf.
    + intros e He Hfe. apply (not_elem_of_nil e). rewrite <- Hf. by apply list_elem_of_filter.
    + split_and!; [|done|done]. destruct (filter _ entries); [done|cbn; lia].
Qed.

Definition parked_row : outbox_row :=
  ("obx_1", EventOutbox.mk "e1" (js "event.route") OutboxStatus.failed 63 0 (Some 0) None 0 None None
              (Some (js "event_missing: no such event")) None 0).
Lemma parked_explained_witness :
  parkReasonOf (toOutboxEntryDto parked_row) = event_missing ∧ isParked (toOutboxEntryDto parked_row) = true.
Proof.
  destruct (parked_explained (toOutboxEntryDto parked_row) parked_row [toOutboxEntryDto parked_row]) as (Hr & _ & Hp & _). split.
  - apply (Hr (js "event_missing") event_missing (js " no such event")); [right; right; right; left|vm_compute; reflexivity].
  - apply Hp. vm_compute. reflexivity.
Defined.
