(* ===== verification/ConsoleTeam.v ===== *)
(** The console's reading of roles: dashboard features/team/lattice.ts,
    lib/role-gate.ts and the permissions.ts of the features.

    A control is greyed out when the console is sure that the control plane would
    refuse.  The theorems set each gate beside the permission check of the routes
    it stands for, and the lattice beside the rules of Permissions. *)
From Stdlib Require Import ZArith Lia Ascii.
From S2P Require Import Prelude Js Permissions RetryRules AuditTrail Db Scope Members Resolver Sessions Throttle Routes Slugs Projects Organizations ConsoleEndpoints.
Open Scope Z_scope.

(** ** lattice.ts *)

Definition console_rank (r : MemberRole) : Z :=
  match r with owner => 40 | admin => 30 | developer => 20 | viewer => 10 | billing => 10 end.
Definition ROLES : list MemberRole := [owner; admin; developer; viewer; billing].
Definition MEMBERS_WRITE_ROLES : list MemberRole := [owner; admin].
Definition holdsMembersWrite (role : MemberRole) : bool := bool_decide (role ∈ MEMBERS_WRITE_ROLES).
Definition console_mayAssignRole (actor target : MemberRole) : bool :=
  holdsMembersWrite actor && (console_rank target <=? console_rank actor).
Definition assignableRoles (actor : MemberRole) : list MemberRole :=
  filter (λ role, console_mayAssignRole actor role = true) ROLES.

Inductive LatticeVerdict : Type :=
| lv_allowed
| lv_unknown
| lv_denied (code : error_code) (reason : string).

Record LatticeContext : Type := MkLattice {
  lc_actorRole : option MemberRole; lc_actorUserId : option string; lc_ownerCount : option Z
}.
(** The target of a change: its user and its role. *)
Record LatticeTarget : Type := MkTarget { lt_user_id : string; lt_role : MemberRole }.

Definition ONE_OWNER : string := "An organization must always have at least one owner. Promote another member first.".

Definition ownerSurvives (currentRole : MemberRole) (nextRole : option MemberRole) (ownerCount : option Z) : LatticeVerdict :=
  if negb (bool_decide (currentRole = owner)) || bool_decide (nextRole = Some owner) then lv_allowed
  else match ownerCount with
       | None => lv_unknown
       | Some n => if n <=? 1 then lv_denied conflict ONE_OWNER else lv_allowed
       end.

(** What the row, the select and the removal have in common. *)
Definition lattice_verdict (context : LatticeContext) (target : LatticeTarget) (no_write self : string)
    (checks : MemberRole → LatticeVerdict) : LatticeVerdict :=
  match lc_actorRole context, lc_actorUserId context with
  | Some actorRole, Some actorUserId =>
      if negb (holdsMembersWrite actorRole) then lv_denied forbidden no_write
      else if bool_decide (lt_user_id target = actorUserId) then lv_denied forbidden self
      else checks actorRole
  | _, _ => lv_unknown
  end.

Definition roleChangeVerdict (context : LatticeContext) (target : LatticeTarget) (nextRole : MemberRole) : LatticeVerdict :=
  lattice_verdict context target "You may not change member roles."
    "You cannot change your own role. Ask another owner or admin to do it."
    (λ actorRole,
       if negb (console_mayAssignRole actorRole nextRole)
       then lv_denied forbidden ("You may not assign the role " +:+ quote (role_name nextRole) +:+ ".")
       else if negb (console_mayAssignRole actorRole (lt_role target))
       then lv_denied forbidden ("You may not change the role of an " +:+ role_name (lt_role target) +:+ ".")
       else ownerSurvives (lt_role target) (Some nextRole) (lc_ownerCount context)).

Definition removalVerdict (context : LatticeContext) (target : LatticeTarget) : LatticeVerdict :=
  lattice_verdict context target "You may not remove members."
    "You cannot remove your own membership. Ask another owner or admin to do it."
    (λ actorRole,
       if negb (console_mayAssignRole actorRole (lt_role target))
       then lv_denied forbidden ("You may not remove an " +:+ role_name (lt_role target) +:+ ".")
       else ownerSurvives (lt_role target) None (lc_ownerCount context)).

Definition rowVerdict (context : LatticeContext) (target : LatticeTarget) : LatticeVerdict :=
  lattice_verdict context target "You may not change member roles."
    "You cannot change your own role. Ask another owner or admin to do it."
    (λ actorRole,
       if negb (console_mayAssignRole actorRole (lt_role target))
       then lv_denied forbidden ("You may not change the role of an " +:+ role_name (lt_role target) +:+ ".")
       else lv_allowed).

Definition isDenied (v : LatticeVerdict) : bool := if v is lv_denied _ _ then true else false.

Definition ownerCountOf (rows : list MemberRole) (hasMore : bool) (offset : Z) : option Z :=
  if hasMore || (0 <? offset) then None
  else Some (Z.of_nat (length (filter (λ r, r = owner) rows))).

(** ** role-gate.ts *)

(** What the console knows of an organization: the caller's role and whether it
    is suspended. *)
Record OrgView : Type := MkOrgView { ov_role : MemberRole; ov_suspended : bool }.

Inductive RoleGate : Type :=
| rg_allowed
| rg_unknown
| rg_denied_role (role : MemberRole) (required : list MemberRole)
| rg_denied_suspended.

Definition roleGate (organization : option OrgView) (required : list MemberRole) : RoleGate :=
  match organization with
  | None => rg_unknown
  | Some o =>
      if ov_suspended o then rg_denied_suspended
      else if bool_decide (ov_role o ∈ required) then rg_allowed
      else rg_denied_role (ov_role o) required
  end.
Definition mayAct (gate : RoleGate) : bool :=
  match gate with rg_denied_role _ _ | rg_denied_suspended => false | _ => true end.

Fixpoint comma (l : list string) : string :=
  match l with [] => "" | [x] => x | x :: l => x +:+ ", " +:+ comma l end.
(** Of a list that is not empty. *)
Definition formatRoleList (roles : list MemberRole) : string :=
  match rev (map role_name roles) with
  | [] => " or undefined"
  | [r] => r
  | last :: before => comma (rev before) +:+ " or " +:+ last
  end.
Definition deniedReason (gate : RoleGate) (action : string) : option string :=
  match gate with
  | rg_denied_suspended => Some "This organization is suspended, so nothing can be changed until it is reinstated."
  | rg_denied_role role required =>
      Some (action +:+ " needs the " +:+ formatRoleList required +:+ " role. You are a " +:+ role_name role +:+ " in this organization.")
  | _ => None
  end.

(** ** The gates *)

Definition PROJECT_WRITE_ROLES : list MemberRole := [admin; owner].
Definition projectWriteGate (o : option OrgView) : RoleGate := roleGate o PROJECT_WRITE_ROLES.
Definition ORGANIZATION_DELETE_ROLES : list MemberRole := [owner].
Definition organizationDeleteGate (o : option OrgView) : RoleGate := roleGate o ORGANIZATION_DELETE_ROLES.
Definition SUBSCRIPTION_WRITE_ROLES : list MemberRole := [developer; admin; owner].
Definition subscriptionWriteGate (o : option OrgView) : RoleGate := roleGate o SUBSCRIPTION_WRITE_ROLES.

(** The gate of the notifications page. *)
Definition NOTIFICATION_WRITE_ROLES : list MemberRole := [owner; admin; developer].
Definition notificationsGate (o : option OrgView) : RoleGate := roleGate o NOTIFICATION_WRITE_ROLES.

(** The two gates written before role-gate.ts are the same with their list fixed. *)
Definition REQUEUE_ROLES : list MemberRole := [developer; admin; owner].
Definition requeueGate (organization : option OrgView) : RoleGate :=
  match organization with
  | None => rg_unknown
  | Some o =>
      if ov_suspended o then rg_denied_suspended
      else if negb (bool_decide (ov_role o ∈ REQUEUE_ROLES)) then rg_denied_role (ov_role o) REQUEUE_ROLES
      else rg_allowed
  end.
Definition mayRequeue (gate : RoleGate) : bool := mayAct gate.
Definition requeueDeniedReason (gate : RoleGate) : option string :=
  match gate with
  | rg_denied_suspended => Some "This organization is suspended, so nothing can be requeued until it is reinstated."
  | rg_denied_role role _ =>
      Some ("Requeueing needs the developer, admin or owner role. You are a " +:+ role_name role +:+ " in this organization.")
  | _ => None
  end.

Definition POLICY_WRITE_ROLES : list MemberRole := [developer; admin; owner].
Definition policyWriteGate (organization : option OrgView) : RoleGate :=
  match organization with
  | None => rg_unknown
  | Some o =>
      if ov_suspended o then rg_denied_suspended
      else if negb (bool_decide (ov_role o ∈ POLICY_WRITE_ROLES)) then rg_denied_role (ov_role o) POLICY_WRITE_ROLES
      else rg_allowed
  end.
Definition mayWritePolicies (gate : RoleGate) : bool := mayAct gate.
Definition policyWriteDeniedReason (gate : RoleGate) : option string :=
  match gate with
  | rg_denied_suspended => Some "This organization is suspended, so its policies cannot be changed until it is reinstated."
  | rg_denied_role role _ =>
      Some ("Changing policies needs the developer, admin or owner role. You are a " +:+ role_name role +:+ " in this organization.")
  | _ => None
  end.

(** onboarding/permissions.ts: the gated steps of the checklist. *)
Inductive GatedSetupStepId : Type := gs_api_key | gs_endpoint | gs_subscription | gs_event.
Definition SETUP_INPUT_READ_ROLES (step : GatedSetupStepId) : list MemberRole :=
  match step with
  | gs_api_key => [owner; admin; developer]
  | gs_endpoint | gs_subscription | gs_event => [owner; admin; developer; viewer]
  end.
Definition GATED_SETUP_STEPS : list GatedSetupStepId := [gs_api_key; gs_endpoint; gs_subscription; gs_event].
Definition maySetupInputBeRead (step : GatedSetupStepId) (role : option MemberRole) : bool :=
  match role with
  | None => true
  | Some r => bool_decide (r ∈ SETUP_INPUT_READ_ROLES step)
  end.
(** The steps the role may not read, each with its sentence. *)
Definition unreadableSetupInputs (role : option MemberRole) : list (GatedSetupStepId * string) :=
  omap (λ step,
    if maySetupInputBeRead step role then None
    else Some (step, "Reading this needs the " +:+ formatRoleList (SETUP_INPUT_READ_ROLES step) +:+ " role. You are a "
                     +:+ (if role is Some r then role_name r else "undefined") +:+ " in this organization."))
    GATED_SETUP_STEPS.

(** ** The lattice and the rules *)

(** The console and the control plane look at the same change. *)
Record same_change (context : LatticeContext) (target : LatticeTarget) (c : RoleChange) : Prop := {
  sc_actor : lc_actorRole context = Some (actorRole c);
  sc_user : ∃ u, lc_actorUserId context = Some u
              ∧ (lt_user_id target = u ↔ actorMembershipId c = targetMembershipId c);
  sc_role : lt_role target = currentRole c;
  sc_count : ∀ n, lc_ownerCount context = Some n → n = ownerCount c
}.

Definition agrees (v : LatticeVerdict) (r : result unit) (open : Prop) : Prop :=
  match v with
  | lv_allowed => r = Ok tt
  | lv_denied code reason => r = throw code reason
  | lv_unknown => open
  end.

Lemma agrees_open v r (P Q : Prop) : agrees v r P → (P → Q) → agrees v r Q.
Proof. destruct v; cbn; auto. Qed.

Lemma holds_write r : holdsMembersWrite r = roleHasPermission r members_write.
Proof. destruct r; vm_compute; reflexivity. Qed.
Lemma same_assign a t : console_mayAssignRole a t = mayAssignRole a t.
Proof. destruct a, t; vm_compute; reflexivity. Qed.

Lemma ownerSurvives_agrees current next count n :
  (∀ k, count = Some k → k = n) →
  agrees (ownerSurvives current next count) (assertOwnerSurvives current next n)
    (count = None ∧ current = owner ∧ next ≠ Some owner).
Proof.
  intros Hc. unfold ownerSurvives, assertOwnerSurvives. destruct (negb _ || _) eqn:E; [done|].
  apply orb_false_iff in E as [E1 E2]. apply negb_false_iff, bool_decide_eq_true in E1. apply bool_decide_eq_false in E2.
  destruct count as [k|]; [|by cbn]. rewrite (Hc k eq_refl). by destruct (n <=? 1).
Qed.

(** C30. The team page greys out what the control plane refuses.  For a change of role and
    for a removal, whatever the roles: what the page allows is allowed, what it denies
    is refused with the code and, word for word, the sentence it shows, and it leaves the answer open
    only for the departure of an owner whose number it does not know; the count of
    owners it reads off a list is right when it gives one. *)
Theorem lattice_agrees (context : LatticeContext) (target : LatticeTarget) (c : RoleChange)
  (Hsame : same_change context target c) :
  agrees (roleChangeVerdict context target (nextRole c)) (assertRoleChangeAllowed c)
    (lc_ownerCount context = None ∧ currentRole c = owner ∧ nextRole c ≠ owner)
  ∧ agrees (removalVerdict context target) (assertMemberRemovalAllowed c)
    (lc_ownerCount context = None ∧ currentRole c = owner)
  ∧ (isDenied (rowVerdict context target) = true → ∀ next, isDenied (roleChangeVerdict context target next) = true)
  ∧ (∀ rows hasMore offset n, ownerCountOf rows hasMore offset = Some n →
       hasMore = false ∧ offset <= 0 ∧ n = Z.of_nat (length (filter (λ r, r = owner) rows))).
Proof.
  destruct Hsame as [Ha (u & Hu & Hself) Hr Hn].
  unfold roleChangeVerdict, removalVerdict, rowVerdict, lattice_verdict. rewrite Ha, Hu, holds_write, Hr.
  unfold assertRoleChangeAllowed, assertMemberRemovalAllowed. rewrite !same_assign.
  rewrite <- (bool_decide_ext (lt_user_id target = u) _ Hself).
  pose proof (ownerSurvives_agrees (currentRole c) (Some (nextRole c)) _ _ Hn) as Hchange.
  pose proof (ownerSurvives_agrees (currentRole c) None _ _ Hn) as Hremove.
  split_and!.
  - destruct (negb (roleHasPermission _ _)); [done|]. case_bool_decide; [done|].
    destruct (negb (mayAssignRole _ (nextRole c))); [done|]. destruct (negb (mayAssignRole _ (currentRole c))); [done|].
    eapply agrees_open; [exact Hchange|]. intros (? & ? & ?). split_and!; congruence.
  - destruct (negb (roleHasPermission _ _)); [done|]. case_bool_decide; [done|].
    destruct (negb (mayAssignRole _ (currentRole c))); [done|].
    eapply agrees_open; [exact Hremove|]. intros (? & ? & ?). by split.
  - intros Hd next. destruct (negb (roleHasPermission _ _)); [done|]. case_bool_decide; [done|].
    rewrite same_assign. destruct (negb (mayAssignRole _ next)); [done|]. by destruct (negb (mayAssignRole _ (currentRole c))).
  - intros rows hasMore offset n. unfold ownerCountOf. destruct hasMore; [done|]. cbn [orb].
    destruct (Z.ltb_spec 0 offset); [done|]. intros [= <-]. auto.
Qed.

(** ** The gates and the guard *)

(** The gates of the console, each with the routes of the controls it greys out. *)
Definition GATES : list ((option OrgView → RoleGate) * list Route) :=
  [(projectWriteGate, [route_projects_create; route_projects_update; route_projects_remove]);
   (organizationDeleteGate, [route_organizations_remove]);
   (subscriptionWriteGate, [route_subscriptions_create; route_subscriptions_update; route_subscriptions_enable;
                            route_subscriptions_disable; route_subscriptions_remove]);
   (requeueGate, [route_outbox_requeue; route_outbox_requeueParked]);
   (policyWriteGate, [route_retry_policies_create; route_retry_policies_update; route_retry_policies_setDefault;
                      route_retry_policies_remove; route_rate_limits_create; route_rate_limits_update; route_rate_limits_remove]);
   (notificationsGate, [route_notification_destinations_create; route_notification_destinations_update;
                        route_notification_destinations_remove; route_notification_destinations_resend;
                        route_notification_destinations_test])].

(** What a route declares: its permissions and how its tenant is found. *)
Definition required_by (r : Route) : list Permission := default [] (permissions_metadata (r_decorators r)).
Definition tenant_by (r : Route) : TenantSpec := default from_params (tenant_spec_metadata (r_decorators r)).

(** The role check a handler makes itself: [OrganizationsService.remove]. *)
Definition handler_admits (r : Route) (role : MemberRole) : bool :=
  negb (bool_decide (r_calls r = "organizations.remove")) || bool_decide (role = owner).
Lemma orgs_remove_owner c org db :
  handler_admits route_organizations_remove (ctx_role c) = false → ∃ m, (orgs_remove c org db).1 = throw forbidden m.
Proof.
  unfold handler_admits. rewrite bool_decide_eq_true_2 by done. intros Hf. unfold orgs_remove. cbn in Hf. rewrite Hf. by eexists.
Qed.

(** What the proofs need of a gate and a route, by the tables. *)
Definition gate_table_ok (g : option OrgView → RoleGate) (r : Route) : bool :=
  mayAct (g None)
  && forallb (λ role, forallb (λ suspended,
       Bool.eqb (mayAct (g (Some (MkOrgView role suspended))))
         (negb suspended && forallb (roleHasPermission role) (required_by r) && handler_admits r role)) [true; false]) MEMBER_ROLES
  && forallb (λ p, negb (isReadPermission p) && negb (bool_decide (p = billing_write))) (required_by r)
  && negb (bool_decide (required_by r = [])).

Lemma gates_checked : forallb (λ gr : (option OrgView → RoleGate) * list Route, forallb (gate_table_ok gr.1) gr.2) GATES = true.
Proof. vm_compute. reflexivity. Qed.
Lemma gate_checked g rs r : (g, rs) ∈ GATES → r ∈ rs → gate_table_ok g r = true.
Proof.
  intros Hg Hr. pose proof gates_checked as H. rewrite forallb_forall in H.
  specialize (H (g, rs) ltac:(by apply list_elem_of_In)). cbn in H. rewrite forallb_forall in H. apply H. by apply list_elem_of_In.
Qed.

(** A gate's verdict by the matrix. *)
Lemma gate_matrix g rs r role suspended : (g, rs) ∈ GATES → r ∈ rs →
  mayAct (g (Some (MkOrgView role suspended)))
  = negb suspended && forallb (roleHasPermission role) (required_by r) && handler_admits r role.
Proof.
  intros Hg Hr. pose proof (gate_checked _ _ _ Hg Hr) as H. unfold gate_table_ok in H. rewrite !andb_true_iff in H.
  destruct H as [[[_ H] _] _]. rewrite forallb_forall in H.
  specialize (H role ltac:(destruct role; cbn; tauto)). rewrite forallb_forall in H.
  specialize (H suspended ltac:(destruct suspended; cbn; tauto)). by apply eqb_prop in H.
Qed.

(** Every permission behind a gate writes. *)
Lemma gate_writes g rs r p : (g, rs) ∈ GATES → r ∈ rs → p ∈ required_by r → isReadPermission p = false ∧ p ≠ billing_write.
Proof.
  intros Hg Hr Hp. pose proof (gate_checked _ _ _ Hg Hr) as H. unfold gate_table_ok in H. rewrite !andb_true_iff in H.
  destruct H as [[_ H] _]. rewrite forallb_forall in H. specialize (H p ltac:(by apply list_elem_of_In)).
  apply andb_true_iff in H as [H1%negb_true_iff H2%negb_true_iff]. by apply bool_decide_eq_false in H2.
Qed.

(** The guard answers with the context or with forbidden, and with the context
    where nothing is suspended and the role holds what the route requires. *)
Lemma guard_answers db user params spec ctx required :
  resolve db user params spec = Ok ctx →
  (canActivate db (Some user) params spec required = Ok ctx
   ∨ ∃ m, canActivate db (Some user) params spec required = throw forbidden m)
  ∧ (rc_suspended ctx = false → (∀ p, p ∈ required → roleHasPermission (ctx_role (rc ctx)) p = true) →
       canActivate db (Some user) params spec required = Ok ctx).
Proof.
  intros Hr. cbn [canActivate]. rewrite Hr. cbn [mbind result_bind]. split; [case_bool_decide; eauto|].
  intros Hs Hall. rewrite bool_decide_true; [done|]. apply filter_none. intros p Hp Hn. apply Hn.
  destruct (resolve_Ok _ _ _ _ _ Hr) as (co & i & m & o & _ & _ & _ & _ & _ & _ & Hrc & Hperm).
  rewrite Hperm, Hs. specialize (Hall p Hp). rewrite Hrc in Hall. by apply bool_decide_eq_true in Hall.
Qed.

(** C31. A greyed-out button would have been refused.  For every gate of the console and
    every route of the controls it greys out, and a caller whose tenant the route's
    guard resolves: when the gate, shown the caller's role and the state of the
    organization, says no, the guard answers forbidden to the permissions the route
    declares, or, where an organization is to be deleted, the handler does; when the
    gate says yes both let the request in, unless the project alone is suspended,
    which the gate does not look at; and a console that does not know the organization
    never greys the button out. *)
Theorem gates_agree (db : Db) (user : string) (params : Params) (ctx : Resolved) (o : Organization.t)
  (gate : option OrgView → RoleGate) (routes : list Route) (r : Route)
  (Hg : (gate, routes) ∈ GATES) (Hin : r ∈ routes)
  (Hr : resolve db user params (tenant_by r) = Ok ctx) (Ho : organizations db !! ctx_org (rc ctx) = Some o) :
  let seen := MkOrgView (ctx_role (rc ctx)) (bool_decide (Organization.status o = OrganizationStatus.suspended)) in
  let answer := canActivate db (Some user) params (tenant_by r) (required_by r) in
  mayAct (gate None) = true
  ∧ (mayAct (gate (Some seen)) = false →
       (∃ m, answer = throw forbidden m)
       ∨ r_calls r = "organizations.remove" ∧ ∀ org, ∃ m, (orgs_remove (rc ctx) org db).1 = throw forbidden m)
  ∧ (mayAct (gate (Some seen)) = true →
       (r_calls r = "organizations.remove" → ctx_role (rc ctx) = owner)
       ∧ (answer = Ok ctx
          ∨ ∃ p pr, ctx_project (rc ctx) = Some p ∧ projects db !! p = Some pr ∧ Project.status pr = ProjectStatus.suspended)).
Proof.
  cbv zeta. pose proof (resolve_suspended _ _ _ _ _ Hr) as Hsus.
  rewrite (gate_matrix _ _ _ _ _ Hg Hin). destruct (guard_answers _ _ _ _ _ (required_by r) Hr) as [Hone Hgrant].
  pose proof (gate_checked _ _ _ Hg Hin) as Hok. unfold gate_table_ok in Hok. rewrite !andb_true_iff in Hok.
  destruct Hok as [[[Hnone _] _] Hne%negb_true_iff%bool_decide_eq_false]. split_and!; [done| |].
  - intros [Hd|Hd]%andb_false_iff.
    + left. destruct Hone as [Hok|?]; [exfalso|done].
      pose proof (required_granted _ _ _ _ _ _ Hok) as Hall. apply andb_false_iff in Hd as [Hd|Hd].
      * apply negb_false_iff, bool_decide_eq_true in Hd. destruct (required_by r) as [|p ps] eqn:Ep; [done|].
        destruct (gate_writes _ _ _ p Hg Hin) as [Hw Hb]; [rewrite Ep; by left|].
        destruct (Hall p) as [_ [?|?]]; [by left| |congruence..]. apply Hsus. left. by exists o.
      * apply not_true_iff_false in Hd. apply Hd, forallb_forall. intros p Hp%list_elem_of_In. by apply Hall.
    + right. assert (r_calls r = "organizations.remove") as Hcall.
      { unfold handler_admits in Hd. apply orb_false_iff in Hd as [Hd _]. by apply negb_false_iff, bool_decide_eq_true in Hd. }
      split; [done|]. intros org. apply orgs_remove_owner. unfold handler_admits in Hd |- *. by rewrite Hcall in Hd.
  - intros [[Hns Hall]%andb_true_iff Hh]%andb_true_iff. apply negb_true_iff, bool_decide_eq_false in Hns. split.
    + intros Hcall. unfold handler_admits in Hh. rewrite bool_decide_eq_true_2 in Hh by done. by apply bool_decide_eq_true in Hh.
    + destruct (rc_suspended ctx) eqn:Es; [right; destruct (proj1 Hsus eq_refl) as [(o' & Ho' & E)|]; [congruence|done]|left].
      apply Hgrant; [done|]. intros p Hp%list_elem_of_In. rewrite forallb_forall in Hall. by apply Hall.
Qed.

(** ** Witnesses *)

(** An admin before an owner: not to be touched; the console says so. *)
Definition ct_change : RoleChange :=
  {| actorRole := admin; actorMembershipId := "m1"; targetMembershipId := "m2";
     currentRole := owner; nextRole := viewer; ownerCount := 2 |}.
Definition ct_context : LatticeContext := MkLattice (Some admin) (Some "u1") (Some 2).

Lemma lattice_agrees_witness :
  agrees (roleChangeVerdict ct_context (MkTarget "u2" owner) viewer) (assertRoleChangeAllowed ct_change) False.
Proof.
  destruct (lattice_agrees ct_context (MkTarget "u2" owner) ct_change) as [Hc _].
  - split; [reflexivity|exists "u1"; split; [reflexivity|cbn; split; discriminate]|reflexivity|].
    intros n Hn. injection Hn as <-. reflexivity.
  - exact Hc.
Defined.

Definition ct_params : Params := λ n, if String.eqb n "projectId" then Some "p1" else None.
Lemma gates_agree_witness :
  ∃ ctx, resolve rs_db "u1" ct_params (tenant_by route_projects_update) = Ok ctx
    ∧ ∃ m, canActivate rs_db (Some "u1") ct_params (tenant_by route_projects_update) (required_by route_projects_update)
           = throw forbidden m.
Proof.
  destruct (resolve rs_db "u1" ct_params (tenant_by route_projects_update)) as [ctx|e] eqn:E; [|vm_compute in E; discriminate E].
  exists ctx. split; [reflexivity|]. pose proof E as E'. vm_compute in E'. injection E' as Hctx.
  destruct (organizations rs_db !! ctx_org (rc ctx)) as [o|] eqn:Eo; [|rewrite <- Hctx in Eo; vm_compute in Eo; discriminate Eo].
  assert ((projectWriteGate, [route_projects_create; route_projects_update; route_projects_remove]) ∈ GATES) as Hg by left.
  assert (route_projects_update ∈ [route_projects_create; route_projects_update; route_projects_remove]) as Hin by (right; left).
  destruct (proj1 (proj2 (gates_agree rs_db "u1" ct_params ctx o _ _ _ Hg Hin E Eo))) as [Hf|[Hf _]].
  - rewrite <- Hctx in Eo. rewrite <- Hctx. vm_compute in Eo. injection Eo as <-. reflexivity.
  - exact Hf.
  - discriminate Hf.
Defined.
