(* ===== verification/ConsolePolicies.v ===== *)
(** The console's policy forms: dashboard features/retry-policies/retry-policy-rules.ts
    and features/rate-limits/rate-limit-rules.ts.

    A form says what the control plane would say before it is asked.  The theorems
    set each rule beside the rule of RetryRules and RateLimits that it restates, and
    read the schedule a retry form previews. *)
From Stdlib Require Import ZArith Lia QArith Lqa.
From stdpp Require Import pretty.
From S2P Require Import Prelude Js Permissions RetryRules AuditTrail Db Scope RateLimits.
Open Scope Z_scope.

(** ** retry-policy-rules.ts *)

Inductive RetrySettingsField : Type :=
| f_initial_delay_ms | f_max_retry_duration_ms | f_multiplier.
Record CoherenceIssue : Type := MkIssue { ci_field : RetrySettingsField; ci_reason : string }.

(** A word in double quotes. *)
Definition quoted (s : string) : string :=
  String (Ascii.ascii_of_nat 34) (s +:+ String (Ascii.ascii_of_nat 34) EmptyString).

Section Text.
  (** A number in a template literal. *)
  Context (show_num : num → string).

(** The two rules the numbers appear in, then the third. *)
Definition retryPolicyCoherenceIssues (s : RetrySettings) : list CoherenceIssue :=
  (if num_gtb (initialDelayMs s) (maxDelayMs s)
   then [MkIssue f_initial_delay_ms
           ("initial_delay_ms (" +:+ show_num (initialDelayMs s) +:+ ") must not exceed max_delay_ms (" +:+ show_num (maxDelayMs s)
            +:+ "); every retry would be clamped to the ceiling, so the strategy and multiplier would have no effect.")]
   else [])
  ++ (if num_gtb (maxAttempts s) (int 1) && num_ltb (maxRetryDurationMs s) (initialDelayMs s)
      then [MkIssue f_max_retry_duration_ms
              ("max_retry_duration_ms (" +:+ show_num (maxRetryDurationMs s) +:+ ") is shorter than initial_delay_ms ("
               +:+ show_num (initialDelayMs s) +:+ "), so the retry budget expires before the first retry is due and max_attempts ("
               +:+ show_num (maxAttempts s) +:+ ") can never be reached. Raise the budget or lower the first delay.")]
      else [])
  ++ (if is_exponential (strategy s) && num_leb (multiplier s) (int 1)
      then [MkIssue f_multiplier
              ("multiplier must be greater than 1 for the exponential strategy: the delivery workers substitute 2 for any multiplier <= 1, so this policy would not behave the way it reads. Use strategy " +:+ quoted "constant" +:+ " for a flat delay, or " +:+ quoted "linear" +:+ " for a fixed step.")]
      else []).
End Text.

Section Schedule.
  (** [x * y], [Math.pow(x, n)] and [x + y] on doubles. *)
  Context (fmul : num → num → num) (fpow : num → Z → num) (fadd : num → num → num).

Definition console_delayMsForAttempt (s : RetrySettings) (attempt : Z) : num :=
  if attempt <=? 1 then int 0 else
  let n := attempt - 2 in
  let delay :=
    match strategy s with
    | constant => initialDelayMs s
    | linear => fmul (initialDelayMs s) (int (n + 1))
    | exponential =>
        let m := if num_leb (multiplier s) (int 1) then int 2 else multiplier s in
        fmul (initialDelayMs s) (fpow m n)
    end in
  let delay := if isNaN delay || num_ltb delay (int 0) then int 0 else delay in
  num_min delay (maxDelayMs s).

(** The locals of the loop, and one round of it. *)
Record ScheduleState : Type := MkSchedule {
  ss_delays : list num; ss_elapsed : num; ss_exhaustedAt : option Z
}.
Definition schedule_step (s : RetrySettings) (maxShown : nat) (st : ScheduleState) (attempt : Z) : ScheduleState :=
  let delay := console_delayMsForAttempt s attempt in
  let elapsed := fadd (ss_elapsed st) delay in
  MkSchedule (if (length (ss_delays st) <? maxShown)%nat then ss_delays st ++ [delay] else ss_delays st)
    elapsed
    (if bool_decide (ss_exhaustedAt st = None) && num_gtb elapsed (maxRetryDurationMs s)
     then Some attempt else ss_exhaustedAt st).

(** [for (let attempt = 2; attempt <= max_attempts; attempt += 1)]; None when the
    fuel runs out. *)
Fixpoint schedule_loop (s : RetrySettings) (maxShown : nat) (fuel : nat) (attempt : Z) (st : ScheduleState)
    : option ScheduleState :=
  if num_leb (int attempt) (maxAttempts s)
  then match fuel with
       | O => None
       | S fuel => schedule_loop s maxShown fuel (attempt + 1) (schedule_step s maxShown st attempt)
       end
  else Some st.

Record RetrySchedule : Type := MkRetrySchedule {
  rs_delays : list num; rs_truncated : bool; rs_exhaustedAt : option Z
}.
Definition retrySchedule (s : RetrySettings) (maxShown : nat) (fuel : nat) : option RetrySchedule :=
  st ← schedule_loop s maxShown fuel 2 (MkSchedule [] (int 0) None);
  Some (MkRetrySchedule (ss_delays st)
          (num_gtb (fadd (maxAttempts s) (int (-1))) (int (Z.of_nat maxShown))) (ss_exhaustedAt st)).
End Schedule.

(** Milliseconds that are an integer. *)
Definition formatBudget (ms : Z) : string :=
  if ms mod 86400000 =? 0 then pretty (ms / 86400000) +:+ "d"
  else if ms mod 3600000 =? 0 then pretty (ms / 3600000) +:+ "h"
  else if ms mod 60000 =? 0 then pretty (ms / 60000) +:+ "m"
  else if ms mod 1000 =? 0 then pretty (ms / 1000) +:+ "s"
  else pretty ms +:+ "ms".

(** ** rate-limit-rules.ts *)

Definition rateLimitCoherenceIssues (show_num : num → string) (s : RateLimitSettings) : list string :=
  match burst s with
  | Some b =>
      if num_ltb b (limit s)
      then ["burst (" +:+ show_num b +:+ ") must be at least limit (" +:+ show_num (limit s)
            +:+ "): the bucket would never hold one window’s worth of tokens, so the configured limit could never actually be reached."]
      else []
  | None => []
  end.

Record ScopeEnforcement : Type := MkEnforcement { se_ingest : bool; se_delivery : bool }.
Definition RATE_LIMIT_ENFORCEMENT (scope : RateLimitScope.t) : ScopeEnforcement :=
  match scope with
  | RateLimitScope.ingest => MkEnforcement true false
  | RateLimitScope.project => MkEnforcement true false
  | RateLimitScope.organization => MkEnforcement true false
  | RateLimitScope.endpoint => MkEnforcement false false
  end.
Inductive EnforcementVerdict : Type := ev_enforced | ev_partial | ev_inert.
Definition enforcementVerdict (scope : RateLimitScope.t) : EnforcementVerdict :=
  let where_ := RATE_LIMIT_ENFORCEMENT scope in
  if bool_decide (scope = RateLimitScope.ingest) && se_ingest where_ then ev_enforced
  else if se_ingest where_ && negb (se_delivery where_) then ev_partial
  else if negb (se_ingest where_) && negb (se_delivery where_) then ev_inert
  else ev_enforced.

(** The label of the row and whether its id was found on the loaded page; the
    lists are rows of ids and names. *)
Record ResolvedResource : Type := MkResolved { rr_label : jsstr; rr_unresolved : bool }.
Definition find_name (id : string) (rows : list (string * jsstr)) : option jsstr :=
  snd <$> List.find (λ row, bool_decide (row.1 = id)) rows.
Definition named (id : string) (rows : list (string * jsstr)) : ResolvedResource :=
  match find_name id rows with
  | Some name => MkResolved name false
  | None => MkResolved (js id) true
  end.
Definition describeResource (scope : RateLimitScope.t) (resource_id : option string)
    (endpoints apiKeys : list (string * jsstr)) : ResolvedResource :=
  match scope, resource_id with
  | RateLimitScope.endpoint, None => MkResolved (js "Every endpoint in this project") false
  | RateLimitScope.ingest, None => MkResolved (js "Every API key in this project (one shared budget)") false
  | RateLimitScope.project, _ => MkResolved (js "This project") false
  | RateLimitScope.organization, _ => MkResolved (js "This organization") false
  | RateLimitScope.endpoint, Some id => named id endpoints
  | RateLimitScope.ingest, Some id => named id apiKeys
  end.

(** [limit.toLocaleString()] is the locale's. *)
Definition formatRate (toLocaleString : num → string) (limit : num) (windowSeconds : Z) : string :=
  let window :=
    if windowSeconds mod 3600 =? 0 then pretty (windowSeconds / 3600) +:+ "h"
    else if windowSeconds mod 60 =? 0 then pretty (windowSeconds / 60) +:+ "m"
    else pretty windowSeconds +:+ "s" in
  toLocaleString limit +:+ " / " +:+ window.

(** ** The retry form *)

(** What the control plane says for each of the three. *)
Definition server_sentence (f : RetrySettingsField) : string :=
  match f with
  | f_initial_delay_ms => "initial_delay_ms must not exceed max_delay_ms"
  | f_max_retry_duration_ms => "max_retry_duration_ms is shorter than initial_delay_ms"
  | f_multiplier => "multiplier must be greater than 1 for the exponential strategy"
  end.

Lemma num_leb_int a b : num_leb (int a) (int b) = (a <=? b).
Proof.
  unfold num_leb, num_ltb, int. rewrite negb_involutive. apply eq_iff_eq_true.
  by rewrite Qle_bool_iff, <- Zle_Qle, Z.leb_le.
Qed.

(** The control plane refuses with the first rule that is broken. *)
Lemma coherence_agrees show_num s :
  assertCoherent s
  = match retryPolicyCoherenceIssues show_num s with
    | [] => Ok tt
    | issue :: _ => throw invalid_request (server_sentence (ci_field issue))
    end.
Proof.
  unfold assertCoherent, retryPolicyCoherenceIssues.
  destruct (num_gtb (initialDelayMs s) (maxDelayMs s)); [done|].
  destruct (num_gtb (maxAttempts s) (int 1) && _); [done|].
  by destruct (is_exponential (strategy s) && _).
Qed.

Section Loop.
  Context (fmul : num → num → num) (fpow : num → Z → num) (fadd : num → num → num)
          (s : RetrySettings) (maxShown : nat).
  Notation delay := (delayMsForAttempt fmul fpow s).
  Notation step := (schedule_step fmul fpow fadd s maxShown).

Lemma console_delay attempt : console_delayMsForAttempt fmul fpow s attempt = delay attempt.
Proof. reflexivity. Qed.

(** The attempts from the second on, and the time that has passed when the last
    of them is due. *)
Definition retries (m : nat) : list Z := seqZ 2 (Z.of_nat m).
Definition elapsed (m : nat) : num := foldl (λ e a, fadd e (delay a)) (int 0) (retries m).
Definition over (attempt : Z) : Prop := num_gtb (elapsed (Z.to_nat (attempt - 1))) (maxRetryDurationMs s) = true.
Definition before_loop : ScheduleState := MkSchedule [] (int 0) None.

Lemma retries_S m : retries (S m) = (retries m ++ [Z.of_nat m + 2])%list.
Proof.
  unfold retries. rewrite Nat2Z.inj_succ, <- Z.add_1_r, seqZ_app by lia. f_equal.
  by rewrite (Z.add_comm 2).
Qed.
Lemma length_retries m : length (retries m) = m.
Proof. unfold retries. rewrite length_seqZ. lia. Qed.

Lemma loop_runs n fuel attempt st :
  maxAttempts s = int n → n + 1 - attempt <= Z.of_nat fuel →
  schedule_loop fmul fpow fadd s maxShown fuel attempt st = Some (foldl step st (seqZ attempt (n + 1 - attempt))).
Proof.
  intros Hn. revert attempt st. induction fuel as [|fuel IH]; intros attempt st Hf; cbn [schedule_loop];
    rewrite Hn, num_leb_int; destruct (Z.leb_spec attempt n).
  - lia.
  - by rewrite seqZ_nil by lia.
  - rewrite IH by lia. rewrite (seqZ_cons attempt (n + 1 - attempt)) by lia. cbn [foldl]. do 2 f_equal. f_equal; lia.
  - by rewrite seqZ_nil by lia.
Qed.

(** Where the loop stands after [m] retries. *)
Lemma loop_state m :
  let st := foldl step before_loop (retries m) in
  ss_elapsed st = elapsed m
  ∧ ss_delays st = take maxShown (map delay (retries m))
  ∧ ∀ k, ss_exhaustedAt st = Some k ↔ (2 <= k < Z.of_nat m + 2 ∧ over k ∧ ∀ j, 2 <= j < k → ¬ over j).
Proof.
  cbv zeta. induction m as [|m (He & Hd & Hx)]; [split_and!; [done|by destruct maxShown|intros k; split; [done|intros (? & _); lia]]|].
  unfold elapsed. rewrite retries_S, map_app, !foldl_snoc. fold (elapsed m).
  set (st := foldl step before_loop (retries m)) in *. unfold schedule_step. rewrite console_delay, He, Hd.
  cbn [ss_elapsed ss_delays ss_exhaustedAt].
  assert (num_gtb (fadd (elapsed m) (delay (Z.of_nat m + 2))) (maxRetryDurationMs s) = true ↔ over (Z.of_nat m + 2)) as Hover.
  { unfold over. replace (Z.to_nat (Z.of_nat m + 2 - 1)) with (S m) by lia.
    unfold elapsed at 2. by rewrite retries_S, foldl_snoc. }
  split_and!; [done| |].
  - rewrite length_take, length_map, length_retries. destruct (Nat.ltb_spec (maxShown `min` m) maxShown).
    + rewrite !take_ge; [done|..]; rewrite ?length_app, length_map, length_retries; cbn; lia.
    + rewrite take_app_le; [done|]. rewrite length_map, length_retries. lia.
  - intros k. rewrite Nat2Z.inj_succ. destruct (ss_exhaustedAt st) as [k'|] eqn:Ek.
    + rewrite bool_decide_false by done. cbn [andb]. rewrite Hx. split; [intros (? & ? & ?); split_and!; (done || lia)|].
      intros (Hk & Ho & Hl). split_and!; try done; try lia. destruct (proj1 (Hx k') eq_refl) as (Hk' & Ho' & _).
      destruct (Z.lt_ge_cases k' k) as [?|?]; [exfalso; apply (Hl k'); [lia|done]|lia].
    + rewrite bool_decide_true by done. cbn [andb].
      assert (∀ j, 2 <= j < Z.of_nat m + 2 → ¬ over j) as Hnone.
      { intros j. induction j as [j IH] using (well_founded_induction (Z.lt_wf 2)). intros Hj Ho.
        assert (None = Some j) as [=]. apply Hx. split_and!; [lia|lia|done|]. intros i Hi. apply IH; lia. }
      destruct (num_gtb _ _) eqn:Eo.
      * apply proj1 in Hover. specialize (Hover eq_refl). split; [intros [= <-]; split_and!; try done; lia|]. intros (Hk & Ho & Hl). f_equal.
        destruct (Z.lt_ge_cases k (Z.of_nat m + 2)) as [?|?]; [exfalso; apply (Hnone k); [lia|done]|lia].
      * split; [done|]. intros (Hk & Ho & Hl). exfalso.
        destruct (Z.lt_ge_cases k (Z.of_nat m + 2)) as [?|?]; [apply (Hnone k); [lia|done]|].
        assert (k = Z.of_nat m + 2) as -> by lia. by apply Hover in Ho.
Qed.
End Loop.

(** What IEEE arithmetic gives for the neutral elements. *)
Record neutral (fmul : num → num → num) (fpow : num → Z → num) (fadd : num → num → num) : Prop := {
  ne_add x : fadd (int 0) (Fin x) = Fin x;
  ne_mul x : fmul (Fin x) (int 1) = Fin x;
  ne_pow m : fpow (Fin m) 0 = int 1
}.

(** The first retry of an accepted policy waits for the first delay. *)
Lemma first_delay fmul fpow fadd s i :
  neutral fmul fpow fadd → assertRetrySettings s = Ok s → initialDelayMs s = Fin i →
  delayMsForAttempt fmul fpow s 2 = Fin i.
Proof.
  intros [_ Hmul Hpow] (_ & a & i' & dm & m & j & b & Hs)%assertRetrySettings_Ok Hi.
  destruct Hs as [_ [Hi' Hi1] [Hm [Him _]] [Hmu _] _ _ _ _ Hg]. rewrite Hi in Hi'. injection Hi' as <-.
  unfold delayMsForAttempt. change (2 <=? 1) with false. cbv iota zeta. change (2 - 2) with 0. change (0 + 1) with 1.
  assert (match strategy s with
          | exponential => fmul (initialDelayMs s) (fpow (if num_leb (multiplier s) (int 1) then int 2 else multiplier s) 0)
          | linear => fmul (initialDelayMs s) (int 1)
          | constant => initialDelayMs s
          end = Fin i) as ->.
  { rewrite Hi, Hmu. destruct (strategy s); [|apply Hmul|done].
    assert (∃ q, (if num_leb (Fin m) (int 1) then int 2 else Fin m) = Fin q) as [q ->] by (case_match; eexists; reflexivity).
    rewrite Hpow. apply Hmul. }
  rewrite (clamp_at_least i) by (cbn; lra). rewrite Hm. cbn.
  by rewrite (proj2 (Qle_bool_iff i dm) Him).
Qed.

(** The retry form says what the control plane would.  Its list of issues is empty
    exactly when the settings are coherent there, and otherwise its first issue is
    the rule the refusal names; the delays it previews are the delays of the
    control plane's own computation, cut to the number shown; the preview ends for
    every whole number of attempts, and the attempt it calls unreachable is the
    first one due after the budget has run out, if there is one.  For a policy the
    control plane accepts that is never the first retry. *)
Theorem retry_form (show_num : num → string) (fmul : num → num → num) (fpow : num → Z → num) (fadd : num → num → num)
  (s : RetrySettings) (maxShown fuel : nat) (n : Z)
  (Hn : maxAttempts s = int n) (Hfuel : n <= Z.of_nat fuel) (H1 : 1 <= n) :
  assertCoherent s
  = match retryPolicyCoherenceIssues show_num s with
    | [] => Ok tt
    | issue :: _ => throw invalid_request (server_sentence (ci_field issue))
    end
  ∧ ∃ r, retrySchedule fmul fpow fadd s maxShown fuel = Some r
      ∧ rs_delays r = take maxShown (map (delayMsForAttempt fmul fpow s) (seqZ 2 (n - 1)))
      ∧ (∀ k, rs_exhaustedAt r = Some k ↔
           2 <= k <= n ∧ over fmul fpow fadd s k ∧ ∀ j, 2 <= j < k → ¬ over fmul fpow fadd s j)
      ∧ (neutral fmul fpow fadd → assertRetrySettings s = Ok s → rs_exhaustedAt r ≠ Some 2).
Proof.
  split; [apply coherence_agrees|].
  pose proof (loop_state fmul fpow fadd s maxShown (Z.to_nat (n - 1))) as (_ & Hd & Hx).
  unfold retrySchedule. rewrite (loop_runs _ _ _ _ _ n) by (done || lia).
  unfold retries in Hd, Hx. rewrite Z2Nat.id in Hd, Hx by lia. replace (n + 1 - 2) with (n - 1) by lia.
  eexists. split; [reflexivity|]. cbn [rs_delays rs_exhaustedAt]. split; [exact Hd|].
  assert (∀ k, ss_exhaustedAt (foldl (schedule_step fmul fpow fadd s maxShown) before_loop (seqZ 2 (n - 1))) = Some k ↔
           2 <= k <= n ∧ over fmul fpow fadd s k ∧ ∀ j, 2 <= j < k → ¬ over fmul fpow fadd s j) as Hx'.
  { intros k. rewrite Hx. split; intros (? & ? & ?); (split; [lia|done]). }
  split; [exact Hx'|]. intros Hne Hok He. apply Hx' in He as (Hk & Ho & _).
  pose proof Hok as (_ & a & i & dm & m & j & b & Hs)%assertRetrySettings_Ok.
  destruct Hs as [[Ha _] [Hi _] _ _ _ [Hb _] _ Hf _].
  unfold over, elapsed in Ho. change (retries (Z.to_nat (2 - 1))) with [2] in Ho. cbn [foldl] in Ho.
  rewrite (first_delay _ _ _ _ _ Hne Hok Hi), (ne_add _ _ _ Hne), Hb in Ho. cbn in Ho. apply negb_Qle in Ho.
  apply (Qlt_not_le _ _ Ho), Hf. rewrite Hn in Ha. injection Ha as <-.
  change 1%Q with (inject_Z 1). rewrite <- Zlt_Qlt. lia.
Qed.

(** ** The rate-limit form *)

(** The rate-limit form says what the control plane would.  For values inside their
    ranges the settings are accepted exactly when the form shows no issue; the
    verdict in the table is that a row at endpoint scope bounds nothing and that no
    other scope bounds deliveries; and an id is called unresolved only when the row
    names an endpoint or a key that is not on the loaded page, in which case the
    id itself is printed. *)
Theorem rate_limit_form (show_num : num → string) (s : RateLimitSettings)
  (Hl : in_range 1 10000000 (limit s)) (Hw : in_range 1 86400 (windowSeconds s))
  (Hb : ∀ b, burst s = Some b → in_range 1 10000000 b) :
  (assertRateLimitSettings (MkUnchecked (Some (limit s)) (Some (windowSeconds s)) (burst s)) = Ok s
   ↔ rateLimitCoherenceIssues show_num s = [])
  ∧ (∀ scope, enforcementVerdict scope = ev_inert ↔ scope = RateLimitScope.endpoint)
  ∧ (∀ scope id endpoints apiKeys,
       rr_unresolved (describeResource scope id endpoints apiKeys) = true ↔
       ∃ i, id = Some i
         ∧ (scope = RateLimitScope.endpoint ∧ i ∉ endpoints.*1 ∨ scope = RateLimitScope.ingest ∧ i ∉ apiKeys.*1)
         ∧ describeResource scope id endpoints apiKeys = MkResolved (js i) true).
Proof.
  split_and!.
  - rewrite assertRateLimitSettings_Ok. unfold rateLimitCoherenceIssues. split.
    + intros (_ & _ & _ & [_ _ Hv]). destruct (burst s) as [b|]; [|done].
      destruct (Hv b eq_refl) as [Hr Hle]. rewrite (range_leb _ _ _ _ _ _ Hl Hr) in Hle.
      by rewrite (proj1 (negb_true_iff _) Hle).
    + intros Hi. split_and!; try done. split; [done..|]. intros b Eb. rewrite Eb in Hi. split; [auto|].
      rewrite (range_leb _ _ _ _ _ _ Hl (Hb b Eb)). by destruct (num_ltb b (limit s)).
  - by intros [].
  - assert (∀ i rows, (named i rows = MkResolved (js i) true ∧ i ∉ rows.*1) ∨ rr_unresolved (named i rows) = false) as Hnamed.
    { intros i rows. unfold named, find_name. destruct (List.find _ rows) as [row|] eqn:E; [by right|left].
      split; [done|]. intros ([i' x] & -> & Hin)%list_elem_of_fmap. apply list_elem_of_In in Hin.
      apply (List.find_none _ _ E) in Hin. by rewrite bool_decide_true in Hin by done. }
    intros scope id endpoints apiKeys. split.
    + destruct scope, id as [i|]; try discriminate; cbn [describeResource]; intros Hu; exists i;
        [destruct (Hnamed i endpoints) as [[? ?]|?]|destruct (Hnamed i apiKeys) as [[? ?]|?]]; try congruence;
        (split; [done|]; split; [|done]); [by left|by right].
    + by intros (i & _ & _ & ->).
Qed.

(** ** Witnesses *)

Definition exact_add (x y : num) : num :=
  match x, y with Fin a, Fin b => Fin (a + b) | _, _ => NaN end.

Lemma exact_neutral : neutral exact_mul exact_pow exact_add.
Proof.
  split; [| |reflexivity]; intros [n d]; unfold exact_add, exact_mul, int, inject_Z, Qplus, Qmult; cbn.
  - by rewrite Z.mul_1_r.
  - by rewrite Z.mul_1_r, Pos.mul_1_r.
Qed.

(** Eight exponential attempts in a minute: 5 + 10 + 20 + 40 seconds are too many,
    so the fifth attempt is never made. *)
Definition cp_settings : RetrySettings := {|
  strategy := exponential; maxAttempts := int 8; initialDelayMs := int 5000; maxDelayMs := int 3600000;
  multiplier := int 2; jitterRatio := int 0; maxRetryDurationMs := int 60000
|}.

Lemma retry_form_witness :
  retryPolicyCoherenceIssues (λ _, "") cp_settings = []
  ∧ ∃ r, retrySchedule exact_mul exact_pow exact_add cp_settings 8 50 = Some r
      ∧ rs_exhaustedAt r = Some 5 ∧ rs_exhaustedAt r ≠ Some 2.
Proof.
  split; [vm_compute; reflexivity|].
  destruct (retry_form (λ _, "") exact_mul exact_pow exact_add cp_settings 8 50 8) as (_ & r & Hr & _ & _ & Hnot);
    [reflexivity|lia|lia|].
  exists r. split; [exact Hr|]. split.
  - assert (rs_exhaustedAt <$> retrySchedule exact_mul exact_pow exact_add cp_settings 8 50 = Some (Some 5)) as E
      by (vm_compute; reflexivity).
    rewrite Hr in E. injection E as E. exact E.
  - apply Hnot; [exact exact_neutral|vm_compute; reflexivity].
Defined.

Lemma rate_limit_form_witness :
  assertRateLimitSettings (MkUnchecked (Some (int 100)) (Some (int 1)) (Some (int 100)))
  = Ok (MkSettings (int 100) (int 1) (Some (int 100))).
Proof.
  apply (proj1 (rate_limit_form (λ _, "") (MkSettings (int 100) (int 1) (Some (int 100)))
           ltac:(exists (inject_Z 100), 100; split; [reflexivity|split; [reflexivity|lia]])
           ltac:(exists (inject_Z 1), 1; split; [reflexivity|split; [reflexivity|lia]])
           ltac:(intros b Hb; injection Hb as <-; exists (inject_Z 100), 100; split; [reflexivity|split; [reflexivity|lia]]))).
  vm_compute. reflexivity.
Defined.
