(* ===== verification/ConsoleForms.v ===== *)
(** The console's text areas: dashboard features/subscriptions/event-types.ts and
    payload-filter.ts, and features/endpoints/custom-headers.ts.

    Each turns a text into the value of a request and a stored value into a text,
    and refuses what the control plane would.  The theorems say that the rules are
    the control plane's, and which stored values survive being shown and saved. *)
From Stdlib Require Import ZArith Lia.
From S2P Require Import Prelude Js EventTypes PayloadFilter EndpointHeaders.
Open Scope Z_scope.

(** ** event-types.ts *)

Definition console_rejectDottedName (value : jsstr) : option dotted_rejection :=
  let segments := split dot value in
  if EventTypes.MAX_EVENT_TYPE_SEGMENTS <? Z.of_nat (length segments)
  then Some (TooManySegments (Z.of_nat (length segments)))
  else (fix each segments := match segments with
        | [] => None
        | segment :: rest =>
            if jslen segment =? 0 then Some EmptySegment
            else if negb (SEGMENT segment) then Some (BadSegment segment)
            else each rest
        end) segments.

Definition console_rejectEventTypePattern (value : jsval) : option pattern_rejection :=
  match value with
  | JStr v =>
      if jslen v =? 0 then Some EmptyPattern
      else if EventTypes.MAX_EVENT_TYPE_LENGTH <? jslen v then Some (PatternTooLong (jslen v))
      else if negb (seqb v (trim v)) then Some SurroundingWhitespace
      else if seqb v WILDCARD_ALL then None
      else if endsWith v WILDCARD_SUFFIX
           then let prefix := slice_end v (length WILDCARD_SUFFIX) in
                if jslen prefix =? 0 then Some BareDotStar
                else if includes prefix asterisk then Some (StarInsidePrefix prefix)
                else Dotted <$> console_rejectDottedName prefix
           else if includes v asterisk then Some StarNotAWildcard
                else Dotted <$> console_rejectDottedName v
  | _ => Some NotAString
  end.

Fixpoint console_entries (index : nat) (seen : list jsstr) (l : list jsval) : list_rejection + list jsstr :=
  match l with
  | [] => inr seen
  | pattern :: rest =>
      match console_rejectEventTypePattern pattern, pattern with
      | Some rejection, _ => inl (AtIndex index rejection)
      | None, JStr key =>
          if existsb (seqb key) seen then inl (Repeats index key)
          else console_entries (S index) (key :: seen) rest
      | None, _ => inl (AtIndex index NotAString)
      end
  end.
Definition console_rejectEventTypes (value : jsval) : option list_rejection :=
  match value with
  | JArr l =>
      if bool_decide (l = []) then Some EmptyList
      else if MAX_EVENT_TYPES_PER_SUBSCRIPTION <? Z.of_nat (length l) then Some (TooManyEntries (Z.of_nat (length l)))
      else match console_entries 0 [] l with
           | inl r => Some r
           | inr seen =>
               if existsb (seqb WILDCARD_ALL) seen && (1 <? Z.of_nat (length seen)) then Some WildcardWithOthers else None
           end
  | _ => Some NotAnArray
  end.

(** [text.split(/[\n,]/)] is a split at line feeds and then at commas. *)
Definition parseEventTypesInput (text : jsstr) : list jsstr :=
  filter (λ entry, entry ≠ []) (map trim (flat_map (split 44) (split 10 text))).
Definition formatEventTypesInput (eventTypes : list jsstr) : jsstr := join 10 eventTypes.
(** None: [true]. *)
Definition validateEventTypesInput (text : jsstr) : option list_rejection :=
  console_rejectEventTypes (JArr (JStr <$> parseEventTypesInput text)).

(** ** custom-headers.ts *)

(** The headers of an object are its entries; [__proto__] is the one name whose
    assignment adds none. *)
Inductive header_problem : Type :=
| hp_too_many | hp_shape (line : jsstr) | hp_name (name : jsstr) | hp_reserved (name : jsstr) | hp_twice (name : jsstr)
| hp_long (name : jsstr) | hp_value (name : jsstr).
Inductive HeaderParse : Type :=
| parsed (headers : option (list (jsstr * jsstr)))
| unparsed (reason : header_problem).

Definition console_isReservedHeader (name : jsstr) : bool :=
  let lower := toLowerCase (trim name) in
  startsWith lower RESERVED_HEADER_PREFIX || bool_decide (lower ∈ RESERVED_HEADER_NAMES).

Definition header_line (h : jsstr * jsstr) : jsstr := h.1 ++ js ": " ++ h.2.
Definition formatCustomHeaders (headers : option (list (jsstr * jsstr))) : jsstr :=
  match headers with None => [] | Some hs => join 10 (map header_line hs) end.

Definition PROTO : jsstr := js "__proto__".
(** [headers[name] = value] for a name the object does not have. *)
Definition set_header (headers : list (jsstr * jsstr)) (name value : jsstr) : list (jsstr * jsstr) :=
  if bool_decide (name = PROTO) then headers else headers ++ [(name, value)].

Fixpoint parse_lines (lines : list jsstr) (seen : list jsstr) (headers : list (jsstr * jsstr)) : HeaderParse :=
  match lines with
  | [] => parsed (Some headers)
  | line :: rest =>
      match take_until 58 line with
      | ((_ :: _) as before, Some after) =>
          let name := trim before in
          let value := trim after in
          if negb (HEADER_NAME name) then unparsed (hp_name name)
          else if console_isReservedHeader name then unparsed (hp_reserved name)
          else
            let lower := toLowerCase name in
            if bool_decide (lower ∈ seen) then unparsed (hp_twice name)
            else if MAX_HEADER_VALUE_LENGTH <? jslen value then unparsed (hp_long name)
            else if negb (HEADER_VALUE value) then unparsed (hp_value name)
            else parse_lines rest (lower :: seen) (set_header headers name value)
      | _ => unparsed (hp_shape line)
      end
  end.
Definition parseCustomHeaders (text : jsstr) : HeaderParse :=
  let lines := filter (λ line, line ≠ []) (map trim (split 10 text)) in
  if bool_decide (lines = []) then parsed None
  else if MAX_CUSTOM_HEADERS <? Z.of_nat (length lines) then unparsed hp_too_many
  else parse_lines lines [] [].

(** ** payload-filter.ts *)

Section Filters.
  (** [JSON.parse], and [JSON.stringify(v, null, 2)]. *)
  Context (parse : jsstr → option jsval) (pretty : jsval → jsstr).

Inductive ParsedPayloadFilter : Type :=
| filter_ok (value : jsval)
| filter_not_json | filter_not_object | filter_empty | filter_large (bytes : Z).
Definition parsePayloadFilterInput (text : jsstr) : ParsedPayloadFilter :=
  if bool_decide (trim text = []) then filter_ok JNull
  else match parse text with
       | None => filter_not_json
       | Some (JObj entries) =>
           if bool_decide (entries = []) then filter_empty
           else let bytes := byteLength (default [] (stringify (JObj entries))) in
                if PayloadFilter.maxBytes <? bytes then filter_large bytes else filter_ok (JObj entries)
       | Some _ => filter_not_object
       end.
Definition formatPayloadFilterInput (filter : jsval) : jsstr := match filter with JNull => [] | v => pretty v end.
Definition validatePayloadFilterInput (text : jsstr) : bool :=
  match parsePayloadFilterInput text with filter_ok _ => true | _ => false end.
End Filters.

(** ** The mirror of the patterns *)

Lemma mirror_patterns v : console_rejectEventTypePattern v = rejectEventTypePattern v.
Proof. reflexivity. Qed.
Lemma mirror_lists v : console_rejectEventTypes v = rejectEventTypes v.
Proof. reflexivity. Qed.

Lemma grammar_chars s c : pattern_grammar s → c ∈ s → segment_char c = true ∨ c = dot ∨ c = asterisk.
Proof.
  assert (∀ w, dotted_name w → c ∈ w → segment_char c = true ∨ c = dot) as Hdotted.
  { intros w (ws & _ & _ & Hw & ->) [->|(x & Hin & Hc)]%join_elem; [by right|left].
    apply Hw in Hin. apply all_plus_spec in Hin as [_ Hin]. by apply Hin. }
  intros [->|[(p & -> & Hp)|Hs]] Hc.
  - apply list_elem_of_singleton in Hc. auto.
  - apply elem_of_app in Hc as [Hc|Hc]; [destruct (Hdotted p Hp Hc); auto|].
    apply elem_of_cons in Hc as [->| ->%list_elem_of_singleton]; auto.
  - destruct (Hdotted s Hs Hc); auto.
Qed.

Lemma accepted_text p : accepted p → p ≠ [] ∧ trim p = p ∧ 10%N ∉ p ∧ 44%N ∉ p.
Proof.
  intros (s & [= <-] & _ & Hg)%rejectEventTypePattern_spec. split_and!.
  - destruct Hg as [->|[(q & -> & _)|Hd]]; [done|by destruct q|by apply dotted_name_ne].
  - by apply grammar_trim.
  - intros Hc. by destruct (grammar_chars p 10 Hg Hc) as [?|[?|?]].
  - intros Hc. by destruct (grammar_chars p 44 Hg Hc) as [?|[?|?]].
Qed.

Lemma flat_split c (ps : list jsstr) : (∀ p, p ∈ ps → c ∉ p) → flat_map (split c) ps = ps.
Proof.
  induction ps as [|p ps IH]; intros Hps; [done|]. cbn [flat_map]. rewrite split_no by (apply Hps; left).
  rewrite IH; [done|]. intros q Hq. apply Hps. by right.
Qed.

Lemma map_fixed (f : jsstr → jsstr) (l : list jsstr) : (∀ x, x ∈ l → f x = x) → map f l = l.
Proof.
  induction l as [|x l IH]; intros Hl; [done|]. cbn. rewrite (Hl x) by left. rewrite IH; [done|]. intros y Hy. apply Hl. by right.
Qed.

(** The subscription form and the control plane agree on event types.  For every
    value the form gives the verdict of the control plane, message for message;
    what it reads out of a text are trimmed entries without separators, and the
    text is valid exactly when the list that will be sent is accepted; and a stored
    list survives being shown and saved unchanged. *)
Theorem event_types_form :
  (∀ v, console_rejectEventTypes v = rejectEventTypes v)
  ∧ (∀ text p, p ∈ parseEventTypesInput text → p ≠ [] ∧ trim p = p ∧ 10%N ∉ p ∧ 44%N ∉ p)
  ∧ (∀ text, validateEventTypesInput text = None ↔ rejectEventTypes (JArr (JStr <$> parseEventTypesInput text)) = None)
  ∧ (∀ ps, rejectEventTypes (JArr (JStr <$> ps)) = None → parseEventTypesInput (formatEventTypesInput ps) = ps).
Proof.
  split_and!; [exact mirror_lists| |done|].
  - intros text p. unfold parseEventTypesInput. rewrite list_elem_of_filter, list_elem_of_fmap.
    intros [Hne (w & -> & Hw)]. rewrite list_elem_of_In, in_flat_map in Hw. destruct Hw as (l & Hl & Hw).
    apply list_elem_of_In in Hl, Hw. split_and!; [done|apply trim_idemp|..]; intros Hc%trim_elem.
    + apply (split_no_sep 10 text l Hl). by eapply split_elem.
    + by apply (split_no_sep 44 l w Hw).
  - intros ps (ps' & Heq & Hlen & _ & Ha & _)%rejectEventTypes_None. injection Heq as Heq. apply (inj (fmap JStr)) in Heq as <-.
    assert (∀ p, p ∈ ps → p ≠ [] ∧ trim p = p ∧ 10%N ∉ p ∧ 44%N ∉ p) as Hps.
    { intros p Hp. apply accepted_text. by apply (proj1 (Forall_forall _ _) Ha). }
    unfold parseEventTypesInput, formatEventTypesInput.
    rewrite split_join; [|destruct ps; [cbn in Hlen; lia|done]|intros w Hw; by apply Hps].
    rewrite flat_split by (intros p Hp; by apply Hps). rewrite map_fixed by (intros p Hp; by apply Hps).
    apply filter_everything. intros p Hp. by apply Hps.
Qed.

(** ** Headers *)

Lemma reserved_agrees name : console_isReservedHeader name = isReservedHeader name.
Proof.
  unfold console_isReservedHeader, isReservedHeader. f_equal. apply eq_iff_eq_true.
  rewrite bool_decide_eq_true, existsb_True. setoid_rewrite seqb_eq. naive_solver.
Qed.

(** What the form requires of one header: all the control plane does but the
    length of the name. *)
Definition form_ok (h : jsstr * jsstr) : Prop :=
  HEADER_NAME h.1 = true ∧ isReservedHeader h.1 = false ∧ jslen h.2 <= 1024 ∧ HEADER_VALUE h.2 = true.

Lemma form_header_ok h : form_ok h → jslen h.1 <= 128 → header_ok h.
Proof.
  intros (Hn & Hr & Hl & Hv) Hlen. apply (isReservedHeader_spec _ Hn) in Hr as [? ?].
  pose proof Hn as [Hne Hc]%all_plus_spec. unfold header_ok. split_and!; try done.
  - destruct h.1; [done|]. unfold jslen in *. cbn in *. lia.
  - intros c Hc'. by apply (proj1 (forallb_True value_char h.2) Hv).
Qed.
Lemma header_form_ok h : header_ok h → form_ok h.
Proof.
  intros ((Hl & _) & Hc & Hp & Hr & Hv & Hvc).
  assert (HEADER_NAME h.1 = true) as Hn.
  { apply all_plus_spec. split; [|done]. intros E. rewrite E in Hl. by cbn in Hl. }
  unfold form_ok. split_and!; [done|by apply isReservedHeader_spec|done|]. by apply (proj2 (forallb_True value_char h.2)).
Qed.

Lemma parse_lines_ok lines : ∀ seen headers hs,
  parse_lines lines seen headers = parsed (Some hs) →
  ∃ added, hs = headers ++ added ∧ Forall form_ok added ∧ NoDup ((toLowerCase ∘ fst) <$> added)
    ∧ (∀ h, h ∈ added → toLowerCase h.1 ∉ seen) ∧ (length added <= length lines)%nat.
Proof.
  induction lines as [|line lines IH]; intros seen headers hs; cbn [parse_lines].
  { intros [= <-]. exists []. rewrite app_nil_r. split_and!; try done; [constructor|by intros h ?%not_elem_of_nil]. }
  destruct (take_until 58 line) as [[|b0 before] [after|]]; try done.
  set (name := trim (b0 :: before)). set (value := trim after).
  destruct (HEADER_NAME name) eqn:En; [|done]. rewrite reserved_agrees. destruct (isReservedHeader name) eqn:Er; [done|].
  cbn [negb]. case_bool_decide as Hseen; [done|]. destruct (Z.ltb_spec MAX_HEADER_VALUE_LENGTH (jslen value)); [done|].
  destruct (HEADER_VALUE value) eqn:Ev; [|done]. cbn [negb]. intros (added & -> & Hf & Hnd & Hs & Hl)%IH.
  unfold set_header. case_bool_decide.
  - exists added. split_and!; try done; [|cbn; lia]. intros h Hh Hin. apply (Hs h Hh). by right.
  - exists ((name, value) :: added). rewrite <- app_assoc. split_and!; [done| |..].
    + constructor; [|done]. by split_and!.
    + cbn. constructor; [|done]. intros (h & Heq & Hin)%list_elem_of_fmap. apply (Hs h Hin). change (toLowerCase name = toLowerCase h.1) in Heq. rewrite Heq. left.
    + intros h [->|Hh]%elem_of_cons; [done|]. intros Hin. apply (Hs h Hh). by right.
    + cbn. lia.
Qed.

(** A header as a line of the text, and the line trimmed. *)
Definition shown (h : jsstr * jsstr) : Prop := header_ok h ∧ trim h.2 = h.2 ∧ h.1 ≠ PROTO.
Definition shown_line (h : jsstr * jsstr) : jsstr := if bool_decide (h.2 = []) then h.1 ++ [58%N] else header_line h.

Lemma token_not c : c ∈ [10; 58]%N → token_char c = false.
Proof. intros [->|[->|[]%not_elem_of_nil]%elem_of_cons]%elem_of_cons; reflexivity. Qed.

Lemma name_facts h : header_ok h → h.1 ≠ [] ∧ trim h.1 = h.1 ∧ (∀ c, c ∈ h.1 → is_ws c = false) ∧ 10%N ∉ h.1 ∧ 58%N ∉ h.1.
Proof.
  intros ((Hl & _) & Hc & _). assert (∀ c, c ∈ h.1 → is_ws c = false) as Hws by (intros c Hin; by apply token_char_not_ws, Hc).
  split_and!; [|by apply trim_id|done|..].
  - intros E. rewrite E in Hl. by cbn in Hl.
  - intros Hin%Hc. by rewrite token_not in Hin by left.
  - intros Hin%Hc. by rewrite token_not in Hin by (right; left).
Qed.

Lemma line_no_feed h : header_ok h → 10%N ∉ header_line h.
Proof.
  intros Hok Hin. destruct (name_facts h Hok) as (_ & _ & _ & Hn & _). unfold header_line in Hin.
  apply elem_of_app in Hin as [?|Hin]; [done|]. apply elem_of_app in Hin as [Hin|Hin].
  - by apply elem_of_cons in Hin as [?|?%list_elem_of_singleton].
  - destruct Hok as (_ & _ & _ & _ & _ & Hv). by apply Hv in Hin.
Qed.

Lemma trim_snoc_space s : (∀ c, head s = Some c → is_ws c = false) → (∀ c, last s = Some c → is_ws c = false) → s ≠ [] → trim (s ++ [32%N]) = s.
Proof.
  intros Hh Hl Hne. unfold trim. rewrite (trimStart_id (s ++ [32%N])) by (destruct s; [done|exact Hh]).
  rewrite reverse_snoc. cbn [trimStart]. change (is_ws 32) with true. cbv iota.
  rewrite trimStart_id; [apply reverse_involutive|]. intros c Hc. apply Hl. by rewrite <- head_reverse.
Qed.

Lemma trim_line h : shown h → trim (header_line h) = shown_line h.
Proof.
  intros (Hok & Ht & _). destruct (name_facts h Hok) as (Hne & _ & Hws & _). unfold shown_line, header_line.
  assert (∀ rest c, head (h.1 ++ rest) = Some c → is_ws c = false) as Hhead.
  { intros rest c Hc. apply Hws. destruct h.1; [done|]. injection Hc as <-. left. }
  case_bool_decide as Hv.
  - rewrite Hv, app_nil_r. change (js ": ") with ([58%N] ++ [32%N]). rewrite app_assoc. apply trim_snoc_space.
    + apply Hhead.
    + rewrite last_snoc. by intros c [= <-].
    + by destruct h.1.
  - apply trim_ends; [apply Hhead|]. intros c Hc. destruct (trim_fixed_ends h.2 Ht Hv) as [_ Hl]. apply Hl.
    rewrite app_assoc, last_app in Hc. destruct (last h.2) eqn:E; [done|by apply last_None in E].
Qed.

Lemma parse_shown hs : ∀ seen headers,
  Forall shown hs → NoDup ((toLowerCase ∘ fst) <$> hs) → (∀ h, h ∈ hs → toLowerCase h.1 ∉ seen) →
  parse_lines (map shown_line hs) seen headers = parsed (Some (headers ++ hs)).
Proof.
  induction hs as [|h hs IH]; intros seen headers Hf Hnd Hs; [by rewrite app_nil_r|].
  apply Forall_cons in Hf as [Hh Hf]. cbn in Hnd. apply NoDup_cons in Hnd as [Hn Hnd].
  pose proof Hh as (Hok & Ht & Hproto). destruct (name_facts h Hok) as (Hne & Htn & _ & _ & Hcolon).
  pose proof (header_form_ok h Hok) as (HN & HR & HL & HV). cbn [map parse_lines].
  assert (∃ rest, take_until 58 (shown_line h) = (h.1, Some rest) ∧ trim rest = h.2) as (rest & -> & Hrest).
  { unfold shown_line, header_line. case_bool_decide as Hv.
    - exists []. rewrite take_until_app by done. by rewrite Hv.
    - exists (32%N :: h.2). change (js ": " ++ h.2) with (58%N :: 32%N :: h.2). rewrite take_until_app by done. split; [done|exact Ht]. }
  destruct h as [n v]. cbn [fst snd] in *. destruct n as [|n0 n]; [done|].
  rewrite Htn, Hrest, HN, reserved_agrees, HR. cbn [negb]. rewrite bool_decide_false by (apply (Hs (n0 :: n, v)); left).
  destruct (Z.ltb_spec MAX_HEADER_VALUE_LENGTH (jslen v)); [unfold MAX_HEADER_VALUE_LENGTH in *; lia|]. rewrite HV. cbn [negb].
  unfold set_header. rewrite bool_decide_false by done. rewrite IH; [by rewrite <- app_assoc|done..|].
  intros h' Hin. rewrite not_elem_of_cons. split; [|apply Hs; by right].
  intros E. apply Hn. apply list_elem_of_fmap. by exists h'.
Qed.

(** The header form and the control plane.  Headers the form accepts are refused by
    the control plane only for a name over 128 characters or a total over 8192
    bytes, the two limits it does not repeat; and stored headers survive being
    shown and saved where each value is free of white space at its ends and no name
    is [__proto__].  Where a value does have such white space, which the control
    plane stores, opening the form and saving it loses it. *)
Theorem header_form (hs : list (jsstr * jsstr)) :
  (∀ text, parseCustomHeaders text = parsed (Some hs) →
     (length hs <= 20)%nat ∧ Forall form_ok hs
     ∧ (rejectCustomHeaders (JObj (to_entry <$> hs)) = None
        ↔ Forall (λ h, jslen h.1 <= 128) hs ∧ headers_bytes hs <= 8192))
  ∧ (hs ≠ [] → rejectCustomHeaders (JObj (to_entry <$> hs)) = None →
     Forall (λ h, trim h.2 = h.2 ∧ h.1 ≠ PROTO) hs →
     parseCustomHeaders (formatCustomHeaders (Some hs)) = parsed (Some hs))
  ∧ parseCustomHeaders (formatCustomHeaders None) = parsed None
  ∧ (let padded := [(js "X-Tenant", js " shaq")] in
     rejectCustomHeaders (JObj (to_entry <$> padded)) = None
     ∧ parseCustomHeaders (formatCustomHeaders (Some padded)) = parsed (Some [(js "X-Tenant", js "shaq")])).
Proof.
  split_and!; [..|reflexivity|split; vm_compute; reflexivity].
  - intros text. unfold parseCustomHeaders. case_bool_decide; [done|].
    destruct (Z.ltb_spec MAX_CUSTOM_HEADERS (Z.of_nat (length (filter (λ line, line ≠ []) (map trim (split 10 text)))))); [done|].
    intros (added & -> & Hf & Hnd & _ & Hl)%parse_lines_ok. cbn [app]. unfold MAX_CUSTOM_HEADERS in *.
    assert (length added <= 20)%nat by lia. split_and!; [done|done|]. rewrite rejectCustomHeaders_None. split.
    + intros [?|[?|(hs' & [= Heq] & _ & Hok & _ & Hb)]]; [done..|].
      assert (added = hs') as <-.
      { clear -Heq. revert hs' Heq. induction added as [|[n v] added IH]; intros [|[n' v'] hs'] Heq; try done.
        injection Heq as -> -> Heq. f_equal. by apply IH. }
      split; [|done]. apply (Forall_impl _ _ _ Hok). intros h ([_ ?] & _). done.
    + intros [Hlen Hb]. right. right. exists added. split_and!; try done.
      apply Forall_forall. intros h Hh. apply form_header_ok; [by apply (proj1 (Forall_forall _ _) Hf)|by apply (proj1 (Forall_forall _ _) Hlen)].
  - intros Hne Hrej Hshow. apply rejectCustomHeaders_None in Hrej as [?|[?|(hs' & [= Heq] & Hlen & Hok & Hnd & _)]]; [done..|].
    assert (hs = hs') as <-.
    { clear -Heq. revert hs' Heq. induction hs as [|[n v] hs IH]; intros [|[n' v'] hs'] Heq; try done.
      injection Heq as -> -> Heq. f_equal. by apply IH. }
    assert (Forall shown hs) as Hall.
    { apply Forall_forall. intros h Hh. split; [by apply (proj1 (Forall_forall _ _) Hok)|by apply (proj1 (Forall_forall _ _) Hshow)]. }
    assert (∀ w, w ∈ map header_line hs → 10%N ∉ w) as Hnl.
    { intros w (h & -> & Hh)%list_elem_of_fmap. apply line_no_feed. by apply (proj1 (Forall_forall _ _) Hok). }
    unfold parseCustomHeaders, formatCustomHeaders. rewrite split_join; [|by destruct hs|done].
    assert (filter (λ line, line ≠ []) (map trim (map header_line hs)) = map shown_line hs) as ->.
    { rewrite map_map, (map_ext_in (λ x, trim (header_line x)) shown_line).
      - apply filter_everything. intros l (h & -> & Hh)%list_elem_of_fmap. unfold shown_line, header_line.
        case_bool_decide; by destruct h.1.
      - intros h Hh. apply trim_line. apply (proj1 (Forall_forall _ _) Hall). by apply list_elem_of_In. }
    rewrite bool_decide_false by (by destruct hs). rewrite length_map. unfold MAX_CUSTOM_HEADERS.
    destruct (Z.ltb_spec 20 (Z.of_nat (length hs))); [lia|].
    rewrite parse_shown; [done..|by intros h _ ?%not_elem_of_nil].
Qed.

(** ** Filters *)

(** The filter form refuses what the control plane refuses before it reads the
    grammar, and nothing else.  A value it lets through is no filter or an object
    that is neither empty nor too large, so that only the grammar is left to
    judge; a text that parses is refused only where the control plane would refuse
    the value; and a stored filter survives being shown and saved, where reading
    back what was printed gives the same value. *)
Theorem filter_form (parse : jsstr → option jsval) (pretty : jsval → jsstr) :
  (∀ text v, parsePayloadFilterInput parse text = filter_ok v →
     v = JNull ∨ ∃ entries, v = JObj entries ∧ entries ≠ []
       ∧ rejectPayloadFilter v = (rejectFilterObject maxDepth v 0).1)
  ∧ (∀ text v, trim text ≠ [] → parse text = Some v → v ≠ JNull → v ≠ JUndefined →
       validatePayloadFilterInput parse text = false → rejectPayloadFilter v ≠ None)
  ∧ (∀ v, rejectPayloadFilter v = None → v ≠ JUndefined →
       (v ≠ JNull → parse (pretty v) = Some v ∧ trim (pretty v) ≠ []) →
       parsePayloadFilterInput parse (formatPayloadFilterInput pretty v) = filter_ok v).
Proof.
  split_and!.
  - intros text v. unfold parsePayloadFilterInput. case_bool_decide; [intros [= <-]; by left|].
    destruct (parse text) as [[| | | | | |entries]|]; try done. case_bool_decide as Hne; [done|].
    destruct (Z.ltb_spec PayloadFilter.maxBytes (byteLength (default [] (stringify (JObj entries))))) as [|Hb]; [done|].
    intros [= <-]. right. exists entries. split_and!; try done. unfold rejectPayloadFilter.
    by rewrite (proj2 (Z.ltb_ge _ _) Hb).
  - intros text v Ht Hp Hn Hu. unfold validatePayloadFilterInput, parsePayloadFilterInput.
    rewrite bool_decide_false by done. rewrite Hp. destruct v as [| | | | | |entries]; try done.
    case_bool_decide as He; [subst; done|]. unfold rejectPayloadFilter.
    destruct (PayloadFilter.maxBytes <? _); done.
  - intros v Hv Hu Hpretty. destruct v as [| | | | | |entries]; try done. unfold formatPayloadFilterInput, parsePayloadFilterInput.
    assert (entries ≠ []) as Hne by (by intros ->). destruct (Hpretty ltac:(done)) as [Hp Ht].
    rewrite bool_decide_false by done. rewrite Hp, bool_decide_false by done. unfold rejectPayloadFilter in Hv.
    by destruct (PayloadFilter.maxBytes <? _).
Qed.

(** ** Witnesses *)

Lemma event_types_form_witness :
  parseEventTypesInput (formatEventTypesInput [js "payment.*"; js "user.created"]) = [js "payment.*"; js "user.created"].
Proof. apply event_types_form. vm_compute. reflexivity. Defined.

Lemma header_form_witness :
  parseCustomHeaders (formatCustomHeaders (Some [(js "X-Tenant", js "shaq"); (js "X-Empty", [])]))
  = parsed (Some [(js "X-Tenant", js "shaq"); (js "X-Empty", [])]).
Proof.
  apply (header_form [(js "X-Tenant", js "shaq"); (js "X-Empty", [])]); [discriminate|vm_compute; reflexivity|].
  repeat constructor; discriminate.
Defined.

Definition cf_filter : jsval := JObj [(js "amount", JObj [(js "$gt", JNum (NFin false 5 1))])].
Lemma filter_form_witness :
  parsePayloadFilterInput (λ _, Some cf_filter) (formatPayloadFilterInput (λ _, js "{}") cf_filter) = filter_ok cf_filter.
Proof.
  apply filter_form; [vm_compute; reflexivity|discriminate|]. intros _. split; [reflexivity|discriminate].
Defined.
