(* ===== verification/Errors.v ===== *)
(** The error envelope of the control plane: common/errors.ts, its codes with their
    statuses and the filter that turns whatever was thrown into a response.

    A response body is the object that JSON carries: a field whose value is
    [undefined] is not in it. *)
From Stdlib Require Import ZArith Lia.
From S2P Require Import Prelude Js.
Open Scope Z_scope.

(** The name of a code, and [ERROR_CODES]. *)
Definition code_text (code : error_code) : jsstr :=
  js match code with
     | invalid_request => "invalid_request" | unauthenticated => "unauthenticated" | forbidden => "forbidden"
     | email_not_verified => "email_not_verified" | not_found => "not_found" | conflict => "conflict"
     | limit_exceeded => "limit_exceeded" | idempotency_key_reused => "idempotency_key_reused"
     | payload_too_large => "payload_too_large" | rate_limited => "rate_limited" | internal_error => "internal_error"
     end.
Definition ERROR_CODES (code : error_code) : Z :=
  match code with
  | invalid_request => 400 | unauthenticated => 401 | forbidden => 403 | email_not_verified => 403 | not_found => 404
  | conflict => 409 | limit_exceeded => 409 | idempotency_key_reused => 409 | payload_too_large => 413
  | rate_limited => 429 | internal_error => 500
  end.
Definition ALL_CODES : list error_code :=
  [invalid_request; unauthenticated; forbidden; email_not_verified; not_found; conflict; limit_exceeded;
   idempotency_key_reused; payload_too_large; rate_limited; internal_error].

(** What was thrown: an [AppError] with its details, another exception of the
    framework with its response (a string or an object), or anything else. *)
Inductive Exception : Type :=
| app_exception (code : error_code) (message : jsstr) (details : option (list (jsstr * jsval)))
| http_exception (status : Z) (response : jsval) (message : jsstr)
| unhandled (value : jsval).

(** [value[key]] of a value that came as JSON. *)
Definition field (key : jsstr) (value : jsval) : jsval :=
  match value with
  | JObj l => from_option (λ kv : nat * (jsstr * jsval), kv.2.2) JUndefined (list_find (λ kv : jsstr * jsval, kv.1 = key) l)
  | _ => JUndefined
  end.
Definition nullish (v : jsval) : bool := match v with JUndefined | JNull => true | _ => false end.
(** The fields of an object literal that survive [JSON.stringify]. *)
Definition defined (v : jsval) : bool := match v with JUndefined => false | _ => true end.
Definition carried (l : list (jsstr * jsval)) : jsval := JObj (filter (λ kv, defined kv.2 = true) l).

Definition error_body (code : error_code) (message : jsval) (details : jsval) (requestId : jsstr) : jsval :=
  JObj [(js "error", carried [(js "code", JStr (code_text code)); (js "message", message);
                              (js "details", details); (js "request_id", JStr requestId)])].

(** The message of an exception of the framework. *)
Definition http_message (response : jsval) (message : jsstr) : jsval :=
  match response with
  | JStr _ => response
  | _ => let m := field (js "message") response in if nullish m then JStr message else m
  end.

(** [AppExceptionFilter.catch]: the status and the body. *)
Definition catch (requestId : jsstr) (exception : Exception) : Z * jsval :=
  match exception with
  | app_exception code message details =>
      (ERROR_CODES code, error_body code (JStr message) (from_option JObj JUndefined details) requestId)
  | http_exception status response message =>
      (status,
       error_body (if status =? 400 then invalid_request else internal_error) (http_message response message) JUndefined requestId)
  | unhandled _ => (500, error_body internal_error (JStr (js "An unexpected error occurred")) JUndefined requestId)
  end.

Lemma code_text_inj c c' : code_text c = code_text c' → c = c'.
Proof. destruct c, c'; try done; vm_compute; discriminate. Qed.
Lemma all_codes c : c ∈ ALL_CODES.
Proof. destruct c; unfold ALL_CODES; rewrite !elem_of_cons; tauto. Qed.

(** The fields of the error in a body. *)
Lemma body_fields code message details requestId : defined message = true →
  let error := field (js "error") (error_body code message details requestId) in
  field (js "code") error = JStr (code_text code) ∧ field (js "message") error = message
  ∧ field (js "details") error = details ∧ field (js "request_id") error = JStr requestId.
Proof.
  intros Hm. cbv zeta. unfold error_body, carried. cbn [field list_find fst].
  rewrite !filter_cons. cbn [snd defined]. rewrite !(decide_True (P:=true = true)), (decide_True (P:=defined message = true)) by done.
  destruct (defined details) eqn:Hd; [rewrite (decide_True (P:=true = true)) by done|rewrite (decide_False (P:=false = true)) by done; destruct details; try done];
    split_and!; vm_compute; reflexivity.
Qed.

Lemma message_defined response message : defined (http_message response message) = true.
Proof. unfold http_message. destruct response; try done; cbv zeta; by destruct (field _ _). Qed.

(** The list the clients hold: each code's name on the wire and its status. *)
Definition contract : list (error_code * string * Z) :=
  [(invalid_request, "invalid_request"%string, 400); (unauthenticated, "unauthenticated"%string, 401);
   (forbidden, "forbidden"%string, 403); (email_not_verified, "email_not_verified"%string, 403);
   (not_found, "not_found"%string, 404); (conflict, "conflict"%string, 409); (limit_exceeded, "limit_exceeded"%string, 409);
   (idempotency_key_reused, "idempotency_key_reused"%string, 409); (payload_too_large, "payload_too_large"%string, 413);
   (rate_limited, "rate_limited"%string, 429); (internal_error, "internal_error"%string, 500)].
Lemma contract_kept code : ∃ name, (code, name, ERROR_CODES code) ∈ contract ∧ code_text code = js name.
Proof. destruct code; eexists; (split; [unfold contract; rewrite !elem_of_cons; eauto 20|reflexivity]). Qed.

(** C34. Every error leaves the control plane as the same envelope.  Whatever was thrown,
    the body is one error with a code of the list, which no other code reads as, a
    message and the id of the request.  An error of the application keeps its code, by
    its name, its message and its details under the status the list gives the code:
    409 for exactly three of them, 403 for exactly two.  An exception of the framework
    keeps its status, is invalid_request when that is 400 and internal_error
    otherwise, and says what its response says: the response when it is a text, the
    message in it when there is one, the exception's own otherwise.  Of an exception
    nobody foresaw nothing is told but that it happened, with status 500. *)
Theorem every_error_is_enveloped (requestId : jsstr) (exception : Exception) :
  let response := catch requestId exception in
  let error := field (js "error") response.2 in
  (∃ code, field (js "code") error = JStr (code_text code) ∧ ∀ code', field (js "code") error = JStr (code_text code') → code' = code)
  ∧ field (js "request_id") error = JStr requestId
  ∧ defined (field (js "message") error) = true
  ∧ (∀ code message details, exception = app_exception code message details →
       (∃ name, (code, name, response.1) ∈ contract ∧ field (js "code") error = JStr (js name))
       ∧ (response.1 = 409 ↔ code ∈ [conflict; limit_exceeded; idempotency_key_reused])
       ∧ (response.1 = 403 ↔ code ∈ [forbidden; email_not_verified])
       ∧ field (js "message") error = JStr message ∧ field (js "details") error = from_option JObj JUndefined details)
  ∧ (∀ status body message, exception = http_exception status body message →
       response.1 = status
       ∧ field (js "code") error = JStr (js (if status =? 400 then "invalid_request" else "internal_error"))
       ∧ (∀ text, body = JStr text → field (js "message") error = JStr text)
       ∧ (∀ l, body = JObj l → field (js "message") body ≠ JUndefined → field (js "message") body ≠ JNull →
            field (js "message") error = field (js "message") body)
       ∧ (∀ l, body = JObj l → field (js "message") body ∈ [JUndefined; JNull] → field (js "message") error = JStr message))
  ∧ (∀ value value', exception = unhandled value → response = catch requestId (unhandled value') ∧ response.1 = 500
       ∧ field (js "code") error = JStr (js "internal_error")).
Proof.
  cbv zeta. destruct exception as [code message details|status response message|value]; cbn [catch fst snd].
  - destruct (body_fields code (JStr message) (from_option JObj JUndefined details) requestId eq_refl) as (-> & -> & -> & ->).
    split_and!; try done; [exists code; split; [done|by intros c [= H%code_text_inj]]|]. intros c m d [= <- <- <-]. split_and!; try done.
    + destruct (contract_kept code) as (name & Hn & ->). by exists name.
    + destruct code; rewrite !elem_of_cons, elem_of_nil; cbn; naive_solver.
    + destruct code; rewrite !elem_of_cons, elem_of_nil; cbn; naive_solver.
  - destruct (body_fields (if status =? 400 then invalid_request else internal_error) _ JUndefined requestId (message_defined response message))
      as (-> & -> & -> & ->).
    split_and!; try done; [eexists; split; [done|by intros c [= H%code_text_inj]]|apply message_defined|]. intros st body m [= <- <- <-].
    split_and!; [done|by destruct (status =? 400)|by intros ? ->| |]; intros l ->; unfold http_message.
    + intros H1 H2. cbv zeta. by destruct (field (js "message") (JObj l)).
    + intros [-> | ->%list_elem_of_singleton]%elem_of_cons; done.
  - destruct (body_fields internal_error (JStr (js "An unexpected error occurred")) JUndefined requestId eq_refl) as (-> & -> & -> & ->).
    split_and!; try done. exists internal_error. split; [done|]. by intros c [= H%code_text_inj].
Qed.

(** What the framework says of a path nobody serves, and of a body too large. *)
Lemma every_error_is_enveloped_witness :
  (catch (js "r1") (app_exception conflict (js "taken") None)).1 = 409
  ∧ field (js "message") (field (js "error") (catch (js "r1") (http_exception 404 (JObj [(js "message", JStr (js "Cannot GET /x"))]) (js "Not Found"))).2)
    = JStr (js "Cannot GET /x").
Proof.
  split.
  - apply (every_error_is_enveloped (js "r1") (app_exception conflict (js "taken") None)) with (code := conflict) (message := js "taken") (details := None).
    + reflexivity.
    + left.
  - destruct (every_error_is_enveloped (js "r1") (http_exception 404 (JObj [(js "message", JStr (js "Cannot GET /x"))]) (js "Not Found")))
      as (_ & _ & _ & _ & H & _).
    destruct (H 404 (JObj [(js "message", JStr (js "Cannot GET /x"))]) (js "Not Found") eq_refl) as (_ & _ & _ & Hm & _).
    rewrite (Hm _ eq_refl); [reflexivity|discriminate|discriminate].
Defined.
