(* ===== verification/ConsoleSetup.v ===== *)
(** The console's guided setup: dashboard features/onboarding/setup.ts (the
    checklist), api.ts (the state it is derived from), setup-visibility.ts (whether it
    is on screen), and tour-storage.ts and tour-store.ts (the product tour).

    The lists of the project are read one page each; the theorems say what the
    console may conclude from those pages about the whole lists, what a session
    remembers of a project, and when the tour opens by itself. *)
From Stdlib Require Import ZArith Lia.
From stdpp Require Import pretty gmap.
From S2P Require Import Prelude Permissions ConsoleDeliveries ConsoleTeam.
Open Scope Z_scope.

(** ** setup.ts *)

Inductive SetupStepId : Type := st_organization | st_project | st_api_key | st_endpoint | st_subscription | st_event.
Inductive SetupStepState : Type := step_done | attention | current | todo | unavailable.
#[export] Instance SetupStepState_eq_dec : EqDecision SetupStepState.
Proof. solve_decision. Defined.
#[export] Instance GatedSetupStepId_eq_dec : EqDecision GatedSetupStepId.
Proof. solve_decision. Defined.

(** An absent [watching] is false. *)
Record SetupStep : Type := MkStep {
  step_id : SetupStepId; title : string; satisfied : bool; concept : string; action : string;
  state : SetupStepState; evidence : option string; warning : option string; watching : bool
}.

Record SetupInputs : Type := MkInputs {
  organizationName : option string; projectName : option string; projectEnvironment : option string;
  activeApiKeyCount : nat; deliverableEndpointCount : nat; blockedEndpointCount : nat;
  enabledSubscriptionCount : nat; disabledSubscriptionCount : nat; eventCount : nat;
  unreadable : list (GatedSetupStepId * string)
}.

Definition count (n : nat) (noun : string) : string := pretty n +:+ " " +:+ noun +:+ (if (n =? 1)%nat then "" else "s").
(** [Boolean(text)] *)
Definition given (text : option string) : bool := if text is Some s then negb (bool_decide (s = "")) else false.
Definition done_if (b : bool) : SetupStepState := if b then step_done else todo.

Definition ENDPOINT_CONCEPT : string := "The URL we POST to, plus its timeout, rate limit and signing secret.".
Definition endpointStep (inputs : SetupInputs) : SetupStep :=
  let live := deliverableEndpointCount inputs in
  let blocked := blockedEndpointCount inputs in
  if (0 <? live)%nat then
    MkStep st_endpoint "Endpoint" true ENDPOINT_CONCEPT "Add the URL that should receive webhooks."
      (if (0 <? blocked)%nat then attention else step_done)
      (Some (count live "endpoint" +:+ " delivering"))
      (if (0 <? blocked)%nat
       then Some (count blocked "other endpoint" +:+ " exists but is paused, disabled by the circuit breaker, or still waiting for a signing secret.")
       else None) false
  else if (0 <? blocked)%nat then
    MkStep st_endpoint "Endpoint" false ENDPOINT_CONCEPT
      "Enable an endpoint, or give it a signing secret, so it can receive deliveries." attention
      (Some (count blocked "endpoint" +:+ ", none delivering"))
      (Some "Every endpoint in this project is paused, disabled, or waiting for a signing secret. Nothing will be delivered until one is live.") false
  else
    MkStep st_endpoint "Endpoint" false ENDPOINT_CONCEPT "Add the URL that should receive webhooks." todo None None false.

Definition SUBSCRIPTION_CONCEPT : string :=
  "The routing rule: which event types an endpoint should receive. Without one, events are accepted and nothing is delivered.".
Definition subscriptionStep (inputs : SetupInputs) : SetupStep :=
  let enabled := enabledSubscriptionCount inputs in
  let disabled := disabledSubscriptionCount inputs in
  if (0 <? enabled)%nat then
    MkStep st_subscription "Subscription" true SUBSCRIPTION_CONCEPT "Bind an endpoint to the event types it cares about."
      step_done (Some (count enabled "active subscription")) None false
  else if (0 <? disabled)%nat then
    MkStep st_subscription "Subscription" false SUBSCRIPTION_CONCEPT
      "Enable a subscription so events start routing to your endpoint." attention
      (Some (count disabled "subscription" +:+ ", all disabled"))
      (Some "Events published now are accepted and stored, then dropped — no subscription is switched on to route them.") false
  else
    MkStep st_subscription "Subscription" false SUBSCRIPTION_CONCEPT "Bind an endpoint to the event types it cares about."
      todo None None false.

Definition gated (id : SetupStepId) : option GatedSetupStepId :=
  match id with
  | st_api_key => Some gs_api_key | st_endpoint => Some gs_endpoint
  | st_subscription => Some gs_subscription | st_event => Some gs_event
  | st_organization | st_project => None
  end.
Definition reason_for (id : SetupStepId) (l : list (GatedSetupStepId * string)) : option string :=
  (λ kv, kv.2.2) <$> list_find (λ kv, gated id = Some kv.1) l.
Definition withReadability (unreadable : list (GatedSetupStepId * string)) (step : SetupStep) : SetupStep :=
  match reason_for (step_id step) unreadable with
  | Some reason =>
      if bool_decide (reason = "") then step
      else MkStep (step_id step) (title step) false (concept step) (action step) unavailable (Some reason) None false
  | None => step
  end.

Definition set_state (s : SetupStepState) (step : SetupStep) : SetupStep :=
  MkStep (step_id step) (title step) (satisfied step) (concept step) (action step) s (evidence step) (warning step) (watching step).
Definition markCurrent (steps : list SetupStep) : list SetupStep :=
  match list_find (λ step, state step = todo) steps with
  | None => steps
  | Some (index, _) => imap (λ position step, if (position =? index)%nat then set_state current step else step) steps
  end.

Definition deriveSetupSteps (inputs : SetupInputs) : list SetupStep :=
  let keys := (0 <? activeApiKeyCount inputs)%nat in
  let events := (0 <? eventCount inputs)%nat in
  let steps := [
    MkStep st_organization "Organization" (given (organizationName inputs))
      "The billing and people boundary. Everything else lives inside one." "Create an organization."
      (done_if (given (organizationName inputs))) (organizationName inputs) None false;
    MkStep st_project "Project" (given (projectName inputs))
      "One environment of one system. It owns its own keys, endpoints and delivery history, and nothing crosses between projects."
      "Create a project inside this organization." (done_if (given (projectName inputs)))
      (if projectName inputs is Some name
       then if given (Some name)
            then Some (name +:+ (if projectEnvironment inputs is Some env
                                 then if given (Some env) then " · " +:+ env else "" else ""))
            else None
       else None) None false;
    MkStep st_api_key "API key" keys "What your backend authenticates with when it publishes an event."
      "Create a key. The secret is shown once and cannot be recovered." (done_if keys)
      (if keys then Some (count (activeApiKeyCount inputs) "active key") else None) None false;
    endpointStep inputs;
    subscriptionStep inputs;
    MkStep st_event "First event" events
      "You publish an event once. It routes to one delivery per matching subscription, and each delivery retries on its own."
      "Publish a test event with the request below." (done_if events)
      (if events then Some (count (eventCount inputs) "event" +:+ " received") else None) None
      (eventCount inputs =? 0)%nat] in
  markCurrent (map (withReadability (unreadable inputs)) steps).

Definition setupStepApplies (step : SetupStep) : bool := negb (bool_decide (state step = unavailable)).
Definition isSetupComplete (steps : list SetupStep) : bool := forallb satisfied (filter (λ s, setupStepApplies s = true) steps).
(** Done, of a total. *)
Definition setupProgress (steps : list SetupStep) : nat * nat :=
  let scope := filter (λ s, setupStepApplies s = true) steps in
  (length (filter (λ s, satisfied s = true) scope), length scope).

Definition COMPLETE_HEADLINE : string := "Setup is complete — webhooks are flowing.".
Definition setupHeadline (steps : list SetupStep) : string :=
  match list_find (λ s, state s = current) steps, list_find (λ s, state s = attention) steps with
  | Some (_, s), _ => "Next: " +:+ action s
  | None, Some (_, s) => default "Something in this project is not delivering." (warning s)
  | None, None => COMPLETE_HEADLINE
  end.

(** ** api.ts *)

(** What a query of the page has: its data, and whether it is in flight or failed. *)
Record Query (A : Type) : Type := MkQuery { q_data : option A; q_isPending : bool; q_isError : bool }.
Arguments MkQuery {A}.
Arguments q_data {A}.
Arguments q_isPending {A}.
Arguments q_isError {A}.

Record OrgRow : Type := MkOrgRow { or_id : string; or_name : string; or_role : MemberRole }.
Record ProjectView : Type := MkProjectView { pv_name : string; pv_environment : string }.
Record EndpointRow : Type := MkEndpointRow { er_status : string; er_enabled : bool }.

Definition console_isDeliverable (endpoint : EndpointRow) : bool :=
  er_enabled endpoint && bool_decide (er_status endpoint = "active").

(** The count, and whether the page contained the answer. *)
Definition answerFromPage {R} (page : option (Paged R)) (satisfies : R → bool) : nat * bool :=
  match page with
  | None => (0%nat, true)
  | Some page =>
      let count := length (filter (λ row, satisfies row = true) (pg_rows page)) in
      (count, (0 <? count)%nat || negb (pg_hasMore page))
  end.

Record SetupState : Type := MkSetupState {
  ss_steps : list SetupStep; ss_isPending : bool; ss_isError : bool; ss_isUndetermined : bool
}.

(** The queries of the page; keys and subscriptions are rows of which the page reads
    one property, the key's [status === 'active'] and the subscription's [enabled]. *)
Record Queries : Type := MkQueries {
  q_organizations : Query (Paged OrgRow); q_project : Query ProjectView;
  q_apiKeys : Query (Paged bool); q_endpoints : Query (Paged EndpointRow);
  q_subscriptions : Query (Paged bool); q_events : Query (Paged unit)
}.

Definition rows_of {R} (q : Query (Paged R)) : list R := if q_data q is Some page then pg_rows page else [].

Definition organization_row (orgId : string) (q : Queries) : option OrgRow :=
  snd <$> list_find (λ row, or_id row = orgId) (rows_of (q_organizations q)).

Definition setup_inputs (orgId : string) (q : Queries) : SetupInputs :=
  let organization := organization_row orgId q in
  MkInputs (or_name <$> organization) (pv_name <$> q_data (q_project q)) (pv_environment <$> q_data (q_project q))
    (answerFromPage (q_data (q_apiKeys q)) id).1
    (answerFromPage (q_data (q_endpoints q)) console_isDeliverable).1
    (length (filter (λ e, er_status e ≠ "deleted" ∧ console_isDeliverable e = false) (rows_of (q_endpoints q))))
    (answerFromPage (q_data (q_subscriptions q)) id).1
    (length (filter (λ enabled : bool, enabled = false) (rows_of (q_subscriptions q))))
    (length (rows_of (q_events q)))
    (unreadableSetupInputs (or_role <$> organization)).

Definition useSetupState (orgId : string) (q : Queries) : SetupState :=
  let role := or_role <$> organization_row orgId q in
  let asked (step : GatedSetupStepId) (b : bool) := maySetupInputBeRead step role && b in
  let some_query (f : ∀ A, Query A → bool) :=
    f _ (q_organizations q) || f _ (q_project q) || asked gs_api_key (f _ (q_apiKeys q))
    || asked gs_endpoint (f _ (q_endpoints q)) || asked gs_subscription (f _ (q_subscriptions q))
    || asked gs_event (f _ (q_events q)) in
  MkSetupState (deriveSetupSteps (setup_inputs orgId q)) (some_query (@q_isPending)) (some_query (@q_isError))
    (negb (answerFromPage (q_data (q_apiKeys q)) id).2
     || negb (answerFromPage (q_data (q_endpoints q)) console_isDeliverable).2
     || negb (answerFromPage (q_data (q_subscriptions q)) id).2).

(** ** setup-visibility.ts *)

Inductive SetupAffordance : Type := aff_show | aff_hide | aff_unknown.
#[export] Instance SetupAffordance_eq_dec : EqDecision SetupAffordance.
Proof. solve_decision. Defined.
Record SetupCheck : Type := MkCheck { isPending : bool; isError : bool; isUndetermined : bool; isComplete : bool }.
Record SetupMemory : Type := MkMemory { complete : option bool; failed : bool }.
Definition NOTHING_KNOWN : SetupMemory := MkMemory None false.

Definition of_completeness (b : bool) : SetupAffordance := if b then aff_hide else aff_show.
Definition resolveSetupAffordance (check : SetupCheck) (memory : SetupMemory) : SetupAffordance :=
  if negb (isPending check) && negb (isError check) && negb (isUndetermined check) then of_completeness (isComplete check)
  else match complete memory with
       | Some b => of_completeness b
       | None => if isError check || failed memory then aff_show else aff_unknown
       end.

Inductive OverviewSurface : Type := sf_health | sf_checklist | sf_waiting.
Definition resolveOverviewSurface (affordance : SetupAffordance) (isError : bool) : OverviewSurface :=
  if isError then sf_health
  else match affordance with aff_show => sf_checklist | aff_hide => sf_health | aff_unknown => sf_waiting end.

(** [memories], by project id. *)
Notation Memories := (gmap string SetupMemory).
Definition entry (projectId : string) (memories : Memories) : SetupMemory := default NOTHING_KNOWN (memories !! projectId).
Definition rememberSetupCompleteness (projectId : string) (b : bool) (memories : Memories) : Memories :=
  if bool_decide (projectId = "") then memories
  else <[projectId := MkMemory (Some b) (failed (entry projectId memories))]> memories.
Definition rememberSetupCheckFailed (projectId : string) (memories : Memories) : Memories :=
  if bool_decide (projectId = "") then memories
  else <[projectId := MkMemory (complete (entry projectId memories)) true]> memories.
Definition recordSetupCheck (projectId : string) (check : SetupCheck) (memories : Memories) : Memories :=
  if isError check then rememberSetupCheckFailed projectId memories
  else if isPending check || isUndetermined check then memories
  else rememberSetupCompleteness projectId (isComplete check) memories.
Definition setupMemory (projectId : string) (memories : Memories) : SetupMemory :=
  if bool_decide (projectId = "") then NOTHING_KNOWN else default NOTHING_KNOWN (memories !! projectId).
Definition forgetSetupCompleteness (projectId : option string) (memories : Memories) : Memories :=
  match projectId with None => ∅ | Some p => delete p memories end.

Definition setup_check (s : SetupState) : SetupCheck :=
  MkCheck (ss_isPending s) (ss_isError s) (ss_isUndetermined s) (isSetupComplete (ss_steps s)).
(** One render: what is shown, and the memory after the effect. *)
Definition useSetupAffordance (orgId projectId : string) (q : Queries) (memories : Memories) : SetupAffordance * Memories :=
  let check := setup_check (useSetupState orgId q) in
  (resolveSetupAffordance check (setupMemory projectId memories), recordSetupCheck projectId check memories).

(** ** tour-storage.ts and tour-store.ts *)

(** The browser's storage: refused, or the raw value under the key. *)
Inductive Storage : Type := denied | stored (raw : option string).
Definition readTourRecord (st : Storage) : option string :=
  match st with
  | stored (Some raw) => if bool_decide (raw = "completed") || bool_decide (raw = "skipped") then Some raw else None
  | _ => None
  end.
Definition writeTourRecord (record : string) (st : Storage) : Storage :=
  match st with denied => denied | stored _ => stored (Some record) end.
Definition shouldAutoOpenTour (onboardingCompletedAt : option string) (st : Storage) : bool :=
  match onboardingCompletedAt with
  | Some _ => false
  | None => bool_decide (readTourRecord st = None)
  end.

(** [TOUR_STEPS.length] *)
Definition TOUR_LENGTH : Z := 5.
Record TourState : Type := MkTour { tour_open : bool; tour_step : Z; autoOpenChecked : bool }.
Definition initialTour : TourState := MkTour false 0 false.

Inductive TourAction : Type :=
| openTour | maybeAutoOpen (onboardingCompletedAt : option string) | next | previous | goTo (step : Z) | skip | complete_tour
(** The page is loaded again: the store starts over, the storage stays. *)
| reload.
Definition tour_act (a : TourAction) (w : TourState * Storage) : TourState * Storage :=
  let (t, st) := w in
  match a with
  | openTour => (MkTour true 0 (autoOpenChecked t), st)
  | maybeAutoOpen at_ =>
      if autoOpenChecked t then (t, st) else (MkTour (shouldAutoOpenTour at_ st) 0 true, st)
  | next => (MkTour (tour_open t) (Z.min (tour_step t + 1) (TOUR_LENGTH - 1)) (autoOpenChecked t), st)
  | previous => (MkTour (tour_open t) (Z.max (tour_step t - 1) 0) (autoOpenChecked t), st)
  | goTo step => (MkTour (tour_open t) (Z.max 0 (Z.min step (TOUR_LENGTH - 1))) (autoOpenChecked t), st)
  | skip => (MkTour false (tour_step t) (autoOpenChecked t), writeTourRecord "skipped" st)
  | complete_tour => (MkTour false (tour_step t) (autoOpenChecked t), writeTourRecord "completed" st)
  | reload => (initialTour, st)
  end.
Definition tour_acts (l : list TourAction) (w : TourState * Storage) : TourState * Storage := foldl (λ w a, tour_act a w) w l.

(** ** The checklist *)

(** What a state says of a step: only [attention] leaves it open. *)
Definition coherent_step (s : SetupStep) : Prop :=
  match state s with
  | step_done => satisfied s = true
  | attention => True
  | current | todo | unavailable => satisfied s = false
  end.

Lemma done_if_coherent id t b c a e w v : coherent_step (MkStep id t b c a (done_if b) e w v).
Proof. by destruct b. Qed.
Lemma endpointStep_coherent inputs : coherent_step (endpointStep inputs) ∧ state (endpointStep inputs) ≠ current.
Proof. unfold endpointStep. destruct (0 <? _)%nat, (0 <? _)%nat; done. Qed.
Lemma subscriptionStep_coherent inputs : coherent_step (subscriptionStep inputs) ∧ state (subscriptionStep inputs) ≠ current.
Proof. unfold subscriptionStep. destruct (0 <? _)%nat; [done|]. destruct (0 <? _)%nat; done. Qed.
Lemma readable_coherent l s : coherent_step s ∧ state s ≠ current → coherent_step (withReadability l s) ∧ state (withReadability l s) ≠ current.
Proof. intros H. unfold withReadability. destruct (reason_for _ _); [|done]. by case_bool_decide. Qed.
Lemma done_if_current b : done_if b ≠ current.
Proof. by destruct b. Qed.

(** The steps before the current one is marked. *)
Lemma unmarked inputs : ∃ steps, deriveSetupSteps inputs = markCurrent steps
  ∧ map step_id steps = [st_organization; st_project; st_api_key; st_endpoint; st_subscription; st_event]
  ∧ ∀ s, s ∈ steps → coherent_step s ∧ state s ≠ current.
Proof.
  eexists. split; [reflexivity|]. split.
  - cbn [map]. unfold endpointStep, subscriptionStep.
    assert (∀ s, step_id (withReadability (unreadable inputs) s) = step_id s) as Hid.
    { intros s. unfold withReadability. destruct (reason_for _ _); [|done]. by case_bool_decide. }
    rewrite !Hid. by destruct (0 <? deliverableEndpointCount inputs)%nat, (0 <? blockedEndpointCount inputs)%nat,
      (0 <? enabledSubscriptionCount inputs)%nat, (0 <? disabledSubscriptionCount inputs)%nat.
  - intros s (s0 & -> & H)%list_elem_of_fmap. apply readable_coherent.
    repeat (apply elem_of_cons in H as [->|H]; [first
      [split; [apply done_if_coherent|apply done_if_current]|apply endpointStep_coherent|apply subscriptionStep_coherent]|]).
    by apply not_elem_of_nil in H.
Qed.

Lemma markCurrent_lookup steps i s : markCurrent steps !! i = Some s →
  ∃ s0, steps !! i = Some s0
    ∧ ((s = s0 ∧ (state s0 = todo → ∃ j s1, (j < i)%nat ∧ steps !! j = Some s1 ∧ state s1 = todo))
       ∨ (s = set_state current s0 ∧ state s0 = todo ∧ ∀ j s1, (j < i)%nat → steps !! j = Some s1 → state s1 ≠ todo)).
Proof.
  unfold markCurrent. destruct (list_find _ steps) as [[k s']|] eqn:Hf.
  - apply list_find_Some in Hf as (Hk & Ht & Hb). rewrite list_lookup_imap. destruct (steps !! i) as [s0|] eqn:Hi; [|done].
    intros [= <-]. exists s0. split; [done|]. destruct (Nat.eqb_spec i k) as [->|Hne].
    + right. rewrite Hk in Hi. injection Hi as <-. split_and!; [done..|]. intros j s1 Hj Hs. by eapply Hb.
    + left. split; [done|]. intros Hs. exists k, s'. split_and!; try done.
      destruct (Nat.lt_total k i) as [?|[?|Hlt]]; [done|congruence|]. by destruct (Hb i s0 Hi Hlt).
  - intros Hi. exists s. split; [done|]. left. split; [done|]. intros Hs. apply list_find_None in Hf.
    by destruct (proj1 (Forall_forall _ _) Hf s); [eapply list_elem_of_lookup_2|].
Qed.

Definition counted (s : SetupStep) : bool := satisfied s || negb (setupStepApplies s).
Lemma complete_counted steps : isSetupComplete steps = forallb counted steps.
Proof.
  unfold isSetupComplete, counted. induction steps as [|s steps IH]; [done|]. rewrite filter_cons.
  case_decide as H; cbn [forallb]; rewrite IH; [by rewrite H, orb_false_r|].
  destruct (setupStepApplies s); [done|]. by rewrite orb_true_r.
Qed.
Lemma filter_all (l : list SetupStep) :
  (length (filter (λ s, satisfied s = true) l) <= length l)%nat
  ∧ (length (filter (λ s, satisfied s = true) l) = length l ↔ forallb satisfied l = true).
Proof.
  induction l as [|s l [IH1 IH2]]; [done|]. rewrite filter_cons. destruct (satisfied s) eqn:E; cbn [forallb]; rewrite E.
  - rewrite decide_True by done. cbn. split; [lia|]. rewrite <- IH2. lia.
  - rewrite decide_False by done. cbn. split; [lia|]. split; [lia|done].
Qed.

Lemma marked_same (f : SetupStep → bool) steps : (∀ s, f (set_state current s) = f s ∨ state s ≠ todo) → forallb f (markCurrent steps) = forallb f steps.
Proof.
  intros Hf. apply eq_iff_eq_true. rewrite !forallb_True. split; intros H s Hin; apply list_elem_of_lookup in Hin as [i Hi].
  - destruct (lookup_lt_is_Some_2 (markCurrent steps) i) as [s' Hs'].
    { unfold markCurrent. destruct (list_find _ steps) as [[]|]; [rewrite length_imap|]; by eapply lookup_lt_Some. }
    pose proof (H s' (list_elem_of_lookup_2 _ _ _ Hs')) as Hc. apply markCurrent_lookup in Hs' as (s0 & Hs0 & Hcase).
    rewrite Hi in Hs0. injection Hs0 as <-. destruct Hcase as [[-> _]|(-> & Ht & _)]; [done|]. by destruct (Hf s) as [<-|].
  - apply markCurrent_lookup in Hi as (s0 & Hs0 & Hcase). apply list_elem_of_lookup_2, H in Hs0.
    destruct Hcase as [[-> _]|(-> & Ht & _)]; [done|]. by destruct (Hf s0) as [->|].
Qed.

Lemma marked_ids steps : map step_id (markCurrent steps) = map step_id steps.
Proof.
  unfold markCurrent. destruct (list_find _ steps) as [[k ?]|]; [|done]. apply list_eq. intros i.
  rewrite !list_lookup_fmap, list_lookup_imap. destruct (steps !! i); [|done]. cbn. by destruct (i =? k)%nat.
Qed.

Section Marked.
  Context (steps : list SetupStep) (Hok : ∀ s, s ∈ steps → coherent_step s ∧ state s ≠ current).

Lemma marked_coherent s : s ∈ markCurrent steps → coherent_step s.
Proof.
  intros [i (s0 & Hs0%list_elem_of_lookup_2%Hok & Hcase)%markCurrent_lookup]%list_elem_of_lookup. destruct Hs0 as [Hc _].
  destruct Hcase as [[-> _]|(-> & Ht & _)]; [done|]. unfold coherent_step in *. by rewrite Ht in Hc.
Qed.

Lemma marked_current i s : markCurrent steps !! i = Some s → state s = current →
  ∀ j s', markCurrent steps !! j = Some s' → (j < i)%nat → state s' = step_done ∨ state s' = attention ∨ state s' = unavailable.
Proof.
  intros (s0 & Hs0%list_elem_of_lookup_2%Hok & [[-> _]|(-> & Ht & Hb)])%markCurrent_lookup Hst; [by destruct Hs0|].
  intros j s' (s1 & Hs1 & [[-> _]|(-> & Ht' & _)])%markCurrent_lookup Hj; [|by destruct (Hb j s1 Hj Hs1)].
  pose proof (Hb j s1 Hj Hs1). apply list_elem_of_lookup_2, Hok in Hs1 as [_ ?]. destruct (state s1); try done; auto.
Qed.

Lemma marked_todo i s : markCurrent steps !! i = Some s → state s = todo →
  ∃ j s', (j < i)%nat ∧ markCurrent steps !! j = Some s' ∧ state s' = current.
Proof.
  intros (s0 & Hs0 & [[-> Hb]|(-> & Ht & _)])%markCurrent_lookup Hst; [|done].
  destruct (Hb Hst) as (j & s1 & Hj & Hs1 & Ht1). unfold markCurrent.
  destruct (list_find _ steps) as [[k sk]|] eqn:Hf.
  - apply list_find_Some in Hf as (Hk & Htk & Hbk). exists k, (set_state current sk).
    rewrite list_lookup_imap, Hk. cbn. rewrite Nat.eqb_refl. split_and!; try done.
    destruct (Nat.lt_total k j) as [?|[->|Hlt]]; [lia|done|]. by destruct (Hbk j s1 Hs1 Hlt).
  - apply list_find_None in Hf. by destruct (proj1 (Forall_forall _ _) Hf s1); [eapply list_elem_of_lookup_2|].
Qed.
End Marked.

Lemma incomplete_step steps : isSetupComplete steps = false → ∃ s, s ∈ steps ∧ satisfied s = false ∧ state s ≠ unavailable.
Proof.
  rewrite complete_counted. intros H. apply not_true_iff_false in H. rewrite forallb_True in H.
  destruct (existsb (λ s, negb (counted s)) steps) eqn:E.
  - apply existsb_True in E as (s & Hin & Hc). exists s. split; [done|]. apply negb_true_iff, orb_false_iff in Hc as [? Hc].
    split; [done|]. by intros Hst; unfold setupStepApplies in Hc; rewrite Hst in Hc.
  - destruct H. intros s Hin. destruct (counted s) eqn:Hc; [done|]. apply not_true_iff_false in E. destruct E.
    apply existsb_True. exists s. by rewrite Hc.
Qed.

(** A member who may read none of the lists. *)
Lemma reader_of_nothing inputs :
  given (organizationName inputs) = true → given (projectName inputs) = true →
  unreadable inputs = unreadableSetupInputs (Some billing) →
  setupHeadline (deriveSetupSteps inputs) = COMPLETE_HEADLINE ∧ setupProgress (deriveSetupSteps inputs) = (2, 2)%nat.
Proof.
  intros Ho Hp Hu. unfold deriveSetupSteps, endpointStep, subscriptionStep. rewrite Ho, Hp, Hu.
  destruct (0 <? deliverableEndpointCount inputs)%nat, (0 <? blockedEndpointCount inputs)%nat,
    (0 <? enabledSubscriptionCount inputs)%nat, (0 <? disabledSubscriptionCount inputs)%nat; vm_compute; done.
Qed.

(** The checklist has one next step.  The six steps come in their order; at most one
    is current, it is not met, and the steps before it are done, in need of attention
    or not for the reader's role to see; a step is left for later only behind a
    current one.  When every readable step is met none is current; when one is unmet,
    one is current or needs attention.  The count is full exactly when setup is
    complete.  A member who may read none of the project's lists is told that setup
    is complete and webhooks are flowing, whatever the project holds. *)
Theorem checklist_shape (inputs : SetupInputs) :
  let steps := deriveSetupSteps inputs in
  map step_id steps = [st_organization; st_project; st_api_key; st_endpoint; st_subscription; st_event]
  ∧ (∀ i s, steps !! i = Some s → state s = current →
       satisfied s = false
       ∧ ∀ j s', steps !! j = Some s' → (j < i)%nat → state s' = step_done ∨ state s' = attention ∨ state s' = unavailable)
  ∧ (∀ i s, steps !! i = Some s → state s = todo → ∃ j s', (j < i)%nat ∧ steps !! j = Some s' ∧ state s' = current)
  ∧ (isSetupComplete steps = true → ∀ s, s ∈ steps → state s ≠ current)
  ∧ (isSetupComplete steps = false → ∃ s, s ∈ steps ∧ (state s = current ∨ state s = attention))
  ∧ ((setupProgress steps).1 <= (setupProgress steps).2)%nat
  ∧ ((setupProgress steps).1 = (setupProgress steps).2 ↔ isSetupComplete steps = true)
  ∧ (given (organizationName inputs) = true → given (projectName inputs) = true →
     unreadable inputs = unreadableSetupInputs (Some billing) → setupHeadline steps = COMPLETE_HEADLINE).
Proof.
  cbv zeta. destruct (unmarked inputs) as (steps & E & Hids & Hok).
  split_and!; [rewrite E, marked_ids; exact Hids|..|apply (filter_all (filter _ _))|apply (filter_all (filter _ _))|].
  - rewrite E. intros i s Hi Hst. split; [|by eapply marked_current].
    apply list_elem_of_lookup_2, (marked_coherent steps Hok) in Hi. unfold coherent_step in Hi. by rewrite Hst in Hi.
  - rewrite E. by apply marked_todo.
  - rewrite E, complete_counted, forallb_True. intros H s Hin Hst. pose proof (H s Hin) as Hc.
    apply (marked_coherent steps Hok) in Hin. unfold coherent_step, counted, setupStepApplies in *. by rewrite Hst, Hin in *.
  - rewrite E. intros (s & Hin & Hs & Hu)%incomplete_step. pose proof (marked_coherent steps Hok s Hin) as Hc.
    unfold coherent_step in Hc. destruct (state s) eqn:Hst; [congruence|eauto|eauto| |done].
    apply list_elem_of_lookup in Hin as [i Hi]. destruct (marked_todo steps i s Hi Hst) as (j & s' & _ & Hj & Hst').
    exists s'. split; [by eapply list_elem_of_lookup_2|auto].
  - intros Ho Hp Hu. by apply reader_of_nothing.
Qed.

(** ** What the pages say of the lists *)

(** The requirement of a gated step, where the role may read its list. *)
Definition required (role : option MemberRole) (step : GatedSetupStepId) (met : bool) : bool :=
  implb (maySetupInputBeRead step role) met.

Lemma reason_nonempty step role s : reason_for step (unreadableSetupInputs role) = Some s → s ≠ "".
Proof. destruct step, role as [[]|]; vm_compute; try done; intros Hs; injection Hs as <-; discriminate. Qed.
Lemma reason_when step g role : gated step = Some g →
  is_Some (reason_for step (unreadableSetupInputs role)) ↔ maySetupInputBeRead g role = false.
Proof. destruct step, role as [[]|]; try done; intros [= <-]; vm_compute; split; intros H; first [done|by eexists|by destruct H]. Qed.

Lemma counted_gated role step g s : step_id s = step → gated step = Some g → state s ≠ unavailable →
  counted (withReadability (unreadableSetupInputs role) s) = required role g (satisfied s).
Proof.
  intros <- Hg Hst. unfold withReadability, required. pose proof (reason_when _ g role Hg) as Hr.
  pose proof (reason_nonempty (step_id s) role) as Hn. destruct (reason_for (step_id s) _) as [txt|].
  - rewrite (proj1 Hr) by eauto. rewrite bool_decide_false by (by apply Hn). done.
  - destruct (maySetupInputBeRead g role); [|by destruct (proj2 Hr)].
    unfold counted, setupStepApplies. rewrite bool_decide_false by done. by rewrite orb_false_r.
Qed.
Lemma counted_plain role s : gated (step_id s) = None → state s ≠ unavailable →
  counted (withReadability (unreadableSetupInputs role) s) = satisfied s.
Proof.
  intros Hg Hst. unfold withReadability. assert (reason_for (step_id s) (unreadableSetupInputs role) = None) as ->.
  { destruct (step_id s), role as [[]|]; try done; vm_compute; done. }
  unfold counted, setupStepApplies. rewrite bool_decide_false by done. by rewrite orb_false_r.
Qed.

Lemma endpointStep_met inputs : satisfied (endpointStep inputs) = (0 <? deliverableEndpointCount inputs)%nat.
Proof. unfold endpointStep. by destruct (0 <? deliverableEndpointCount inputs)%nat, (0 <? blockedEndpointCount inputs)%nat. Qed.
Lemma subscriptionStep_met inputs : satisfied (subscriptionStep inputs) = (0 <? enabledSubscriptionCount inputs)%nat.
Proof. unfold subscriptionStep. by destruct (0 <? enabledSubscriptionCount inputs)%nat, (0 <? disabledSubscriptionCount inputs)%nat. Qed.
Lemma endpointStep_open inputs : step_id (endpointStep inputs) = st_endpoint ∧ state (endpointStep inputs) ≠ unavailable.
Proof. unfold endpointStep. by destruct (0 <? deliverableEndpointCount inputs)%nat, (0 <? blockedEndpointCount inputs)%nat. Qed.
Lemma subscriptionStep_open inputs : step_id (subscriptionStep inputs) = st_subscription ∧ state (subscriptionStep inputs) ≠ unavailable.
Proof. unfold subscriptionStep. by destruct (0 <? enabledSubscriptionCount inputs)%nat, (0 <? disabledSubscriptionCount inputs)%nat. Qed.
Lemma done_if_open b : done_if b ≠ unavailable.
Proof. by destruct b. Qed.

Lemma complete_inputs inputs role : unreadable inputs = unreadableSetupInputs role →
  isSetupComplete (deriveSetupSteps inputs)
  = given (organizationName inputs) && given (projectName inputs)
    && required role gs_api_key (0 <? activeApiKeyCount inputs)%nat
    && required role gs_endpoint (0 <? deliverableEndpointCount inputs)%nat
    && required role gs_subscription (0 <? enabledSubscriptionCount inputs)%nat
    && required role gs_event (0 <? eventCount inputs)%nat.
Proof.
  intros Hu. rewrite complete_counted. unfold deriveSetupSteps. rewrite marked_same.
  - rewrite Hu. cbn [map forallb].
    rewrite !counted_plain by (done || apply done_if_open). rewrite (counted_gated role st_api_key gs_api_key) by (done || apply done_if_open).
    rewrite (counted_gated role st_endpoint gs_endpoint) by (done || apply endpointStep_open).
    rewrite (counted_gated role st_subscription gs_subscription) by (done || apply subscriptionStep_open).
    rewrite (counted_gated role st_event gs_event) by (done || apply done_if_open).
    rewrite endpointStep_met, subscriptionStep_met. cbn [satisfied]. by rewrite andb_true_r, !andb_assoc.
  - intros s. destruct (decide (state s = todo)) as [Ht|]; [left|by right].
    unfold counted, setupStepApplies. cbn. by rewrite Ht.
Qed.

(** The first page of a list. *)
Definition page_of {R} (limit : nat) (l : list R) : Paged R := MkPaged (take limit l) (limit <? length l)%nat None.

Lemma answer_page {R} (f : R → bool) limit l :
  let answer := answerFromPage (Some (page_of limit l)) f in
  ((0 <? answer.1)%nat = true → existsb f l = true)
  ∧ (answer.2 = true → (0 <? answer.1)%nat = existsb f l)
  ∧ (answer.2 = false → (0 <? answer.1)%nat = false).
Proof.
  cbv zeta. cbn [answerFromPage fst snd pg_rows pg_hasMore page_of]. assert ((0 <? length (filter (λ row, f row = true) (take limit l)))%nat = existsb f (take limit l)) as ->.
  { induction (take limit l) as [|x t IH]; [done|]. rewrite filter_cons. cbn [existsb]. case_decide as H; [by rewrite H|].
    apply not_true_iff_false in H. by rewrite H. }
  assert (existsb f (take limit l) = true → existsb f l = true) as Hsub.
  { rewrite !existsb_True. intros (x & Hx & Hf). exists x. split; [|done]. by apply elem_of_take in Hx as (i & ? & _); eapply list_elem_of_lookup_2. }
  split_and!; [exact Hsub|..].
  - intros [H|H]%orb_true_iff; [by rewrite H, Hsub|]. apply negb_true_iff, Nat.ltb_ge in H. by rewrite take_ge.
  - by intros [? _]%orb_false_iff.
Qed.

Section Judged.
  (** The lists of a project, of which every query shows the first page. *)
  Context (limit : nat) (keys : list bool) (endpoints : list EndpointRow) (subscriptions : list bool) (events : list unit).
  Context (orgId : string) (q : Queries).
Let role : option MemberRole := or_role <$> organization_row orgId q.

(** A query that the role may make has its page; the others are never sent. *)
Definition read_as {R} (step : GatedSetupStepId) (query : Query (Paged R)) (l : list R) : Prop :=
  q_data query = if maySetupInputBeRead step role then Some (page_of limit l) else None.

(** Everything the role may see is in place. *)
Definition ready : Prop :=
  (maySetupInputBeRead gs_api_key role = true → true ∈ keys)
  ∧ (maySetupInputBeRead gs_endpoint role = true → ∃ e, e ∈ endpoints ∧ console_isDeliverable e = true)
  ∧ (maySetupInputBeRead gs_subscription role = true → true ∈ subscriptions)
  ∧ (maySetupInputBeRead gs_event role = true → events ≠ []).

Lemma judged_list {R} (f : R → bool) step query l : read_as step query l →
  let answer := answerFromPage (q_data query) f in
  (required role step (0 <? answer.1)%nat = true → maySetupInputBeRead step role = true → existsb f l = true)
  ∧ (answer.2 = true → required role step (0 <? answer.1)%nat = required role step (existsb f l))
  ∧ (answer.2 = false → required role step (0 <? answer.1)%nat = false).
Proof.
  unfold read_as, required. intros ->. destruct (maySetupInputBeRead step role); [|done].
  destruct (answer_page f limit l) as (H1 & H2 & H3). cbv zeta. unfold implb. split_and!; [by intros H _; apply H1|exact H2|exact H3].
Qed.

Lemma events_page query : (0 < limit)%nat → read_as gs_event query events →
  required role gs_event (0 <? length (rows_of query))%nat = required role gs_event (negb (bool_decide (events = []))).
Proof.
  unfold read_as, rows_of, required. intros Hl ->. destruct (maySetupInputBeRead gs_event role); [|done]. cbn [pg_rows page_of].
  destruct events, limit; done || lia.
Qed.

(** C35. Setup is judged complete exactly when it is.  The lists are read one page each.
    When the console calls the setup complete, every list the reader's role may see
    holds a row that meets its requirement: an active key, an endpoint that delivers,
    an enabled subscription, an event.  When the pages suffice to answer, the
    converse holds; when they do not, the console says so and the setup is not called
    complete.  All this of an organization on the page of the member's
    organizations; of any other nothing is ever complete, however ready it is. *)
Theorem setup_is_judged
  (Hlimit : (0 < limit)%nat) (Hk : read_as gs_api_key (q_apiKeys q) keys) (He : read_as gs_endpoint (q_endpoints q) endpoints)
  (Hs : read_as gs_subscription (q_subscriptions q) subscriptions) (Hv : read_as gs_event (q_events q) events) :
  let setup := useSetupState orgId q in
  let complete := isSetupComplete (ss_steps setup) in
  (complete = true → ready)
  ∧ (ss_isUndetermined setup = true → complete = false)
  ∧ (ss_isUndetermined setup = false → ready → given (or_name <$> organization_row orgId q) = true →
     given (pv_name <$> q_data (q_project q)) = true → complete = true)
  ∧ (organization_row orgId q = None → complete = false).
Proof.
  cbv zeta. cbn [ss_steps ss_isUndetermined useSetupState]. rewrite (complete_inputs _ role) by done. cbn [setup_inputs organizationName projectName
    activeApiKeyCount deliverableEndpointCount enabledSubscriptionCount eventCount].
  destruct (judged_list id _ _ _ Hk) as (K1 & K2 & K3). destruct (judged_list console_isDeliverable _ _ _ He) as (E1 & E2 & E3).
  destruct (judged_list id _ _ _ Hs) as (S1 & S2 & S3). rewrite (events_page _ Hlimit Hv). split_and!.
  - rewrite !andb_true_iff. intros (((((_ & _) & A) & B) & C) & D). split_and!; intros Hr.
    + by destruct (proj1 (existsb_True _ _) (K1 A Hr)) as ([] & ? & ?).
    + by apply existsb_True, E1.
    + by destruct (proj1 (existsb_True _ _) (S1 C Hr)) as ([] & ? & ?).
    + unfold required in D. rewrite Hr in D. by apply negb_true_iff, bool_decide_eq_false in D.
  - rewrite !orb_true_iff, !negb_true_iff. intros [[H|H]|H]; [rewrite (K3 H)|rewrite (E3 H)|rewrite (S3 H)]; by rewrite ?andb_false_r.
  - rewrite !orb_false_iff, !negb_false_iff. intros [[H1 H2] H3] (R1 & R2 & R3 & R4) -> ->. rewrite (K2 H1), (E2 H2), (S2 H3).
    unfold required, implb. rewrite !andb_true_iff. split_and!; try done.
    + destruct (maySetupInputBeRead gs_api_key role); [|done]. apply existsb_True. exists true. by split; [apply R1|].
    + destruct (maySetupInputBeRead gs_endpoint role); [|done]. by apply existsb_True, R2.
    + destruct (maySetupInputBeRead gs_subscription role); [|done]. apply existsb_True. exists true. by split; [apply R3|].
    + destruct (maySetupInputBeRead gs_event role); [|done]. by rewrite bool_decide_false by (by apply R4).
  - by intros ->.
Qed.
End Judged.

(** ** What a session remembers *)

Section Memory.
  Context (projectId : string) (Hid : projectId ≠ "").

Definition observe (h : list (string * SetupCheck)) : Memories := foldl (λ m pc, recordSetupCheck pc.1 pc.2 m) ∅ h.
Definition resolved (check : SetupCheck) : bool := negb (isPending check) && negb (isError check) && negb (isUndetermined check).
(** The answers and the failures of the project, of a history of checks. *)
Definition answers (h : list (string * SetupCheck)) : list bool :=
  omap (λ pc : string * SetupCheck, if bool_decide (pc.1 = projectId) && resolved pc.2 then Some (isComplete pc.2) else None) h.
Definition refused (h : list (string * SetupCheck)) : bool :=
  existsb (λ pc, bool_decide (pc.1 = projectId) && isError pc.2) h.

Lemma entry_memory m : setupMemory projectId m = entry projectId m.
Proof. unfold setupMemory. by rewrite bool_decide_false. Qed.

Lemma record_entry p check m :
  entry projectId (recordSetupCheck p check m)
  = let e := entry projectId m in
    if bool_decide (p = projectId)
    then if isError check then MkMemory (complete e) true
         else if resolved check then MkMemory (Some (isComplete check)) (failed e) else e
    else e.
Proof.
  unfold recordSetupCheck, rememberSetupCheckFailed, rememberSetupCompleteness, resolved, entry. cbv zeta.
  destruct (decide (p = projectId)) as [->|Hp];
    [rewrite (bool_decide_true (projectId = projectId)), (bool_decide_false (projectId = "")) by done
    |rewrite (bool_decide_false (p = projectId)) by done].
  - destruct (isError check); [by rewrite lookup_insert_eq|].
    destruct (isPending check), (isUndetermined check); cbn [orb negb andb]; try done; by rewrite lookup_insert_eq.
  - destruct (isError check), (isPending check || isUndetermined check); try done; case_bool_decide; try done;
      by rewrite lookup_insert_ne.
Qed.

Lemma memory_of_history h : setupMemory projectId (observe h) = MkMemory (last (answers h)) (refused h).
Proof.
  rewrite entry_memory. induction h as [|[p check] h IH] using rev_ind; [done|].
  unfold observe, answers, refused in *. rewrite foldl_app, omap_app, existsb_app. cbn [foldl existsb omap list_omap fst snd].
  rewrite record_entry, IH. cbv zeta. cbn [complete failed]. case_bool_decide as Hp; cbn [andb]; [|by rewrite app_nil_r, !orb_false_r].
  destruct (isError check) eqn:Ee.
  - unfold resolved. rewrite Ee, andb_false_r. cbn. by rewrite app_nil_r, orb_true_r.
  - rewrite !orb_false_r. destruct (resolved check); [by rewrite last_snoc|by rewrite app_nil_r].
Qed.

Definition affordance (h : list (string * SetupCheck)) (check : SetupCheck) : SetupAffordance :=
  resolveSetupAffordance check (setupMemory projectId (observe h)).

Lemma known_affordance h check :
  affordance h check = aff_unknown ↔ resolved check = false ∧ isError check = false ∧ answers h = [] ∧ refused h = false.
Proof.
  unfold affordance, resolveSetupAffordance. rewrite memory_of_history. fold (resolved check). cbn [complete failed].
  destruct (resolved check); [split; [by destruct (isComplete check)|by intros []]|].
  destruct (last (answers h)) as [b|] eqn:El.
  - split; [by destruct b|]. intros (_ & _ & Ha & _). by rewrite Ha in El.
  - apply last_None in El. destruct (isError check), (refused h); cbn; naive_solver.
Qed.

(** C36. The checklist is hidden only on knowledge.  In any session, whatever checks of
    whatever projects came before: the checklist of a project is hidden exactly when
    the check in hand resolved and found it complete, or the check in hand did not
    resolve and the last one of that project that did found it complete; nothing is
    claimed exactly while no check of it has resolved and none has failed, and once
    something has been shown it never goes back to nothing.  The overview turns into
    the checklist only where the checklist is on offer and no check is failing. *)
Theorem hidden_on_knowledge (h h' : list (string * SetupCheck)) (check check' : SetupCheck) :
  (affordance h check = aff_hide ↔
     (resolved check = true ∧ isComplete check = true) ∨ (resolved check = false ∧ last (answers h) = Some true))
  ∧ (affordance h check = aff_unknown ↔ resolved check = false ∧ isError check = false ∧ answers h = [] ∧ refused h = false)
  ∧ (affordance h check ≠ aff_unknown → affordance (h ++ (projectId, check) :: h') check' ≠ aff_unknown)
  ∧ (resolveOverviewSurface (affordance h check) (isError check) = sf_checklist ↔
       affordance h check = aff_show ∧ isError check = false).
Proof.
  split_and!; [|apply known_affordance| |].
  - unfold affordance, resolveSetupAffordance. rewrite memory_of_history. fold (resolved check). cbn [complete failed].
    destruct (resolved check); [destruct (isComplete check); cbn; naive_solver|].
    destruct (last (answers h)) as [[]|]; cbn; try naive_solver. destruct (isError check || refused h); naive_solver.
  - intros Hk (_ & _ & Ha & Hr)%known_affordance. apply Hk, known_affordance.
    unfold answers, refused in *. rewrite omap_app in Ha. apply app_nil in Ha as [Ha1 Ha]. cbn in Ha.
    rewrite existsb_app in Hr. apply orb_false_iff in Hr as [Hr1 Hr]. cbn in Hr.
    rewrite (bool_decide_true (projectId = projectId)) in Ha, Hr by done. cbn [andb] in Ha, Hr.
    apply orb_false_iff in Hr as [Hr _]. split_and!; try done. by destruct (resolved check).
  - destruct (isError check), (affordance h check); cbn; naive_solver.
Qed.
End Memory.

(** ** The tour *)

Definition tour_ok (w : TourState * Storage) : Prop := 0 <= tour_step w.1 < TOUR_LENGTH.
Lemma tour_act_ok a w : tour_ok w → tour_ok (tour_act a w).
Proof.
  destruct w as [t st]. unfold tour_ok. destruct a; cbn [tour_act fst tour_step initialTour]; unfold TOUR_LENGTH; try lia.
  destruct (autoOpenChecked t); cbn [fst tour_step]; lia.
Qed.
Lemma tour_acts_ok l w : tour_ok w → tour_ok (tour_acts l w).
Proof. revert w. induction l as [|a l IH]; intros w Hw; [done|]. by apply IH, tour_act_ok. Qed.

(** A closed tour leaves a record, which nothing removes. *)
Lemma record_stays l w : readTourRecord w.2 ≠ None → readTourRecord (tour_acts l w).2 ≠ None.
Proof.
  revert w. induction l as [|a l IH]; intros [t st] Hr; [done|]. apply IH. destruct a, st as [|raw]; try done.
  - cbn. by destruct (autoOpenChecked t).
Qed.
Lemma storage_stays l w : w.2 ≠ denied → (tour_acts l w).2 ≠ denied.
Proof.
  revert w. induction l as [|a l IH]; intros [t st] Hr; [done|]. apply IH. destruct a, st as [|raw]; try done.
  cbn. by destruct (autoOpenChecked t).
Qed.
Lemma closing_records l w : w.2 ≠ denied → skip ∈ l ∨ complete_tour ∈ l → readTourRecord (tour_acts l w).2 ≠ None.
Proof.
  intros Hd Hin. assert (∃ a l1 l2, l = l1 ++ a :: l2 ∧ (a = skip ∨ a = complete_tour)) as (a & l1 & l2 & -> & Ha).
  { destruct Hin as [(l1 & l2 & ->)%list_elem_of_split|(l1 & l2 & ->)%list_elem_of_split]; eauto 6. }
  unfold tour_acts. rewrite foldl_app. cbn [foldl]. apply record_stays. pose proof (storage_stays l1 w Hd) as Hs.
  fold (tour_acts l1 w). destruct (tour_acts l1 w) as [t [|raw]]; [done|]. by destruct Ha as [-> | ->].
Qed.
Lemma checked_stays l w : (∀ a, a ∈ l → a ≠ reload) → autoOpenChecked w.1 = true → autoOpenChecked (tour_acts l w).1 = true.
Proof.
  revert w. induction l as [|a l IH]; intros [t st] Hl Hc; [done|]. apply IH; [intros b Hb; apply Hl; by right|].
  cbn in Hc. destruct a; cbn; rewrite ?Hc; try done. by destruct (Hl reload); [left|].
Qed.

(** The tour opens by itself once, and never for somebody who has seen it.  Whatever
    the reader does, the step is one of the five.  Opening by itself is considered
    once per load of the page; it does not happen when the control plane has a
    completion, nor, in a browser that stores anything, ever again after the tour was
    skipped or completed there.  In a browser that refuses storage it opens again at
    every load until the control plane has the completion. *)
Theorem tour_once (l l' : list TourAction) (at_ : option string) (t : TourState) (st : Storage) (Ht : tour_ok (t, st)) :
  0 <= tour_step (tour_acts l (t, st)).1 < 5
  ∧ ((∀ a, a ∈ l' → a ≠ reload) →
     let w := tour_acts (l ++ maybeAutoOpen at_ :: l') (t, st) in ∀ at', tour_act (maybeAutoOpen at') w = w)
  ∧ (∀ time, tour_open (tour_acts (l ++ [reload; maybeAutoOpen (Some time)]) (t, st)).1 = false)
  ∧ (st ≠ denied → skip ∈ l ∨ complete_tour ∈ l → tour_open (tour_acts (l ++ [reload; maybeAutoOpen at_]) (t, st)).1 = false)
  ∧ tour_open (tour_acts (l ++ [reload; maybeAutoOpen None]) (t, denied)).1 = true.
Proof.
  split; [by apply tour_acts_ok|]. split_and!.
  - intros Hl. cbv zeta. intros at'. unfold tour_acts. rewrite foldl_app. cbn [foldl]. fold (tour_acts l (t, st)).
    set (w := tour_act (maybeAutoOpen at_) (tour_acts l (t, st))). fold (tour_acts l' w).
    assert (autoOpenChecked (tour_acts l' w).1 = true) as Hc.
    { apply checked_stays; [done|]. unfold w. destruct (tour_acts l (t, st)) as [t1 st1]. cbn. by destruct (autoOpenChecked t1) eqn:E. }
    destruct (tour_acts l' w) as [t2 st2]. cbn in *. by rewrite Hc.
  - intros time. unfold tour_acts. rewrite foldl_app. cbn [foldl]. by destruct (foldl _ _ l).
  - intros Hd Hin. pose proof (closing_records l (t, st) Hd Hin) as Hr. unfold tour_acts in *. rewrite foldl_app. cbn [foldl].
    destruct (foldl _ _ l) as [t1 st1]. cbn in *. unfold shouldAutoOpenTour. destruct at_; [done|]. by apply bool_decide_false.
  - unfold tour_acts. rewrite foldl_app. cbn [foldl]. fold (tour_acts l (t, denied)).
    assert ((tour_acts l (t, denied)).2 = denied) as Hd.
    { clear. revert t. induction l as [|a l IH]; intros t; [done|]. unfold tour_acts. cbn [foldl].
      assert (∃ t', tour_act a (t, denied) = (t', denied)) as [t' ->].
      { destruct a; cbn; eauto. destruct (autoOpenChecked t); eauto. }
      apply IH. }
    destruct (tour_acts l (t, denied)) as [t1 st1]. cbn in *. by rewrite Hd.
Qed.

(** ** Witnesses *)

(** A project that delivers, on a page of one row, and a second key beyond it. *)
Definition cs_queries : Queries :=
  MkQueries (MkQuery (Some (page_of 1 [MkOrgRow "o1" "Acme" owner])) false false)
    (MkQuery (Some (MkProjectView "Billing" "production")) false false)
    (MkQuery (Some (page_of 1 [true; false])) false false)
    (MkQuery (Some (page_of 1 [MkEndpointRow "active" true])) false false)
    (MkQuery (Some (page_of 1 [true])) false false) (MkQuery (Some (page_of 1 [tt])) false false).

Lemma setup_is_judged_witness : isSetupComplete (ss_steps (useSetupState "o1" cs_queries)) = true.
Proof.
  refine (proj1 (proj2 (proj2 (setup_is_judged 1 [true; false] [MkEndpointRow "active" true] [true] [tt] "o1" cs_queries _ _ _ _ _))) _ _ _ _);
    try reflexivity; [lia|].
  split_and!; intros _; [left|exists (MkEndpointRow "active" true); split; [left|reflexivity]|left|discriminate].
Defined.

Definition cs_check : SetupCheck := MkCheck true false false false.
Lemma hidden_on_knowledge_witness :
  affordance "p1" [("p1", MkCheck false false false true); ("p2", MkCheck false true false false)] cs_check = aff_hide.
Proof. apply (hidden_on_knowledge "p1" ltac:(discriminate) _ [] cs_check cs_check). right. split; reflexivity. Defined.

Lemma tour_once_witness :
  tour_open (tour_acts ([maybeAutoOpen None; next; skip] ++ [reload; maybeAutoOpen None]) (initialTour, stored None)).1 = false.
Proof.
  assert (tour_ok (initialTour, stored None)) as Ht by (unfold tour_ok, TOUR_LENGTH; cbn; lia).
  destruct (tour_once [maybeAutoOpen None; next; skip] [] None initialTour (stored None) Ht) as (_ & _ & _ & H & _).
  apply H; [discriminate|]. left. by do 2 right; left.
Defined.

(** An organization beyond the first page of the member's organizations. *)
Example beyond_the_page :
  resolveSetupAffordance (setup_check (useSetupState "o2" cs_queries)) NOTHING_KNOWN = aff_show.
Proof. vm_compute. reflexivity. Qed.
(** An endpoint that cannot deliver, and the next step is the subscription. *)
Example past_an_unmet_step :
  (λ s, (step_id s, satisfied s, state s)) <$> deriveSetupSteps (MkInputs (Some "Acme") (Some "Billing") None 1 0 1 0 0 0 [])
  = [(st_organization, true, step_done); (st_project, true, step_done); (st_api_key, true, step_done);
     (st_endpoint, false, attention); (st_subscription, false, current); (st_event, false, todo)].
Proof. vm_compute. reflexivity. Qed.
