(* ===== verification/ConsoleApi.v ===== *)
(** The console's side of the wire: dashboard lib/api.ts (the HTTP client and its
    errors), lib/api-errors.ts (what a failed write means), lib/api-base-url.ts (where
    the control plane lives), features/policies/write-errors.ts (where a form puts a
    refusal) and the retry rule of main.tsx.

    The browser's fetch and URL parser are parameters; the errors a response carries
    are the ones of Errors, and the theorems say what becomes of them. *)
From Stdlib Require Import ZArith Lia.
From S2P Require Import Prelude Js Errors.
Open Scope Z_scope.

(** ** lib/api.ts: errors *)

Record ApiError : Type := MkApiError {
  ae_code : error_code; ae_message : jsstr; ae_messages : list jsstr; ae_details : option jsval; ae_request_id : option jsstr
}.

(** [isApiErrorCode], and the code it narrows to. *)
Definition isApiErrorCode (value : jsval) : option error_code :=
  match value with
  | JStr s => snd <$> list_find (λ code, code_text code = s) ALL_CODES
  | _ => None
  end.

Definition as_string (v : jsval) : option jsstr := if v is JStr s then Some s else None.
Definition is_object (v : jsval) : bool := match v with JObj _ | JArr _ => true | _ => false end.
Definition UNEXPECTED : jsstr := js "An unexpected error occurred.".

Definition normaliseApiError (raw : jsval) : ApiError :=
  let messages := match field (js "message") raw with
                  | JArr l => omap as_string l
                  | JStr s => [s]
                  | _ => []
                  end in
  MkApiError (default internal_error (isApiErrorCode (field (js "code") raw)))
    (let joined := join 32 messages in if bool_decide (joined = []) then UNEXPECTED else joined)
    messages
    (let details := field (js "details") raw in if is_object details then Some details else None)
    (as_string (field (js "request_id") raw)).
(** An [ApiError] where an unknown value is expected. *)
Definition as_raw (e : ApiError) : jsval :=
  carried [(js "code", JStr (code_text (ae_code e))); (js "message", JStr (ae_message e));
           (js "messages", JArr (JStr <$> ae_messages e)); (js "details", default JUndefined (ae_details e));
           (js "request_id", from_option JStr JUndefined (ae_request_id e))].

Inductive TransportFailureKind : Type := timed_out | unreachable.
(** What a request throws: [ApiRequestError], [ApiTransportError], another [Error], of
    class [TypeError] or not, or some other value. *)
Inductive Thrown : Type :=
| api_error (status : Z) (body : ApiError)
| transport_error (kind : TransportFailureKind) (status : Z) (body : ApiError)
| js_error (name : jsstr) (type_error : bool) (message : jsstr)
| js_value.

Definition ApiRequestError (status : Z) (body : jsval) : Thrown := api_error status (normaliseApiError body).
Definition ApiTransportError (kind : TransportFailureKind) (status : Z) (message : jsstr) : Thrown :=
  transport_error kind status
    (normaliseApiError (JObj [(js "code", JStr (code_text internal_error)); (js "message", JStr message)])).
(** The status and the envelope of an [ApiRequestError], of the subclass too. *)
Definition request_error (e : Thrown) : option (Z * ApiError) :=
  match e with api_error s b | transport_error _ s b => Some (s, b) | _ => None end.
Definition retryable (status : Z) : bool := (500 <=? status) || (status =? 429).

Definition API_REQUEST_TIMEOUT_MS : Z := 10000 + 5000 + 750.
Definition TIMEOUT_STATUS : Z := 408.
Definition UNREACHABLE_STATUS : Z := 503.
Definition TIMEOUT_FOR_HUMANS : jsstr := js "15.8 s".
Definition timeoutMessage : jsstr :=
  js "The control API accepted the request but did not answer within " ++ TIMEOUT_FOR_HUMANS
  ++ js ", so the dashboard stopped waiting. It is reachable, so this is the API or its database being slow rather than a connection problem " ++ [8212%N] ++ js " check the API's logs and whether its database connection pool is exhausted. The request may still be running on the server.".
Definition unreachableMessage (origin url : jsstr) : jsstr :=
  js "The browser could not reach the control API at " ++ url
  ++ js ". fetch() does not report a reason for this, by design, so it is one of: the API is down, its hostname does not resolve, TLS failed, or the browser blocked the response because the API's CORS_ORIGINS does not list "
  ++ origin
  ++ js ". A CORS rejection is indistinguishable from an outage from here " ++ [8212%N] ++ js " the browser console names which one it was, and this message cannot.".

Definition isTimeoutAbort (error : Thrown) : bool :=
  match error with
  | js_error name _ _ => bool_decide (name = js "TimeoutError") || bool_decide (name = js "AbortError")
  | _ => false
  end.

(** ** lib/api.ts: the transport *)

(** What fetch and the reading of the body do: nothing arrives, or a status with a
    body that is a JSON value or cannot be read. *)
Inductive Exchange : Type :=
| nothing (error : Thrown)
| responded (status : Z) (statusText : jsstr) (json : Thrown + jsval).

(** The body of the [try]. *)
Definition exchange_result (x : Exchange) : Thrown + jsval :=
  match x with
  | nothing error => inl error
  | responded status statusText json =>
      if negb ((200 <=? status) && (status <=? 299)) then
        let payload := match json with inr v => v | inl _ => JNull end in
        let error := field (js "error") payload in
        inl (ApiRequestError status (as_raw (normaliseApiError
          (if nullish error then JObj [(js "code", JStr (code_text internal_error)); (js "message", JStr statusText)] else error))))
      else if status =? 204 then inr JUndefined
      else json
  end.
Definition httpTransport (origin url : jsstr) (x : Exchange) : Thrown + jsval :=
  match exchange_result x with
  | inr v => inr v
  | inl error =>
      inl (if request_error error is Some _ then error
           else if isTimeoutAbort error then ApiTransportError timed_out TIMEOUT_STATUS timeoutMessage
           else match error with
                | js_error _ true _ => ApiTransportError unreachable UNREACHABLE_STATUS (unreachableMessage origin url)
                | _ => error
                end)
  end.

(** main.tsx: whether a query is sent again after its n-th failure. *)
Definition retry (failureCount : Z) (error : Thrown) : bool :=
  (failureCount <? 2) && match request_error error with Some (status, _) => retryable status | None => true end.

(** [queryString]; the encoding of a parameter is the browser's. *)
Inductive QueryValue : Type := qv_text (s : jsstr) | qv_number (x : jsnum) | qv_null | qv_undefined.
Definition show_num (x : jsnum) : jsstr :=
  match x with
  | NFin neg s n => num_toString neg s n
  | NNaN => js "NaN" | NInf false => js "Infinity" | NInf true => js "-Infinity"
  end.
Definition query_entry (kv : jsstr * QueryValue) : option (jsstr * jsstr) :=
  match kv.2 with
  | qv_undefined | qv_null => None
  | qv_text s => if bool_decide (s = []) then None else Some (kv.1, s)
  | qv_number x => Some (kv.1, show_num x)
  end.
Definition queryString (encode : jsstr → jsstr) (params : list (jsstr * QueryValue)) : jsstr :=
  let serialised := join 38 (map (λ kv, encode kv.1 ++ js "=" ++ encode kv.2) (omap query_entry params)) in
  if bool_decide (serialised = []) then [] else js "?" ++ serialised.

(** ** lib/api-errors.ts *)

Record ValidationIssue : Type := MkIssue { is_field : option jsstr; is_reason : jsstr; is_message : jsstr }.
Inductive WriteFailure : Type :=
| throttled (retryAfterSeconds : option jsnum) (message : jsstr)
| ceiling (limit current : option jsnum) (resource : option jsstr) (message : jsstr)
| wf_conflict (message : jsstr)
| wf_forbidden (message : jsstr)
| invalid (message : jsstr) (issues : list ValidationIssue)
| other (message : jsstr).

Definition numberOrNull (value : jsval) : option jsnum := match value with JNum x => if Js.isFinite x then Some x else None | _ => None end.
Definition stringOrNull (value : jsval) : option jsstr := match value with JStr s => if bool_decide (s = []) then None else Some s | _ => None end.

Definition name_start (c : N) : bool := is_lower c || is_upper c || (c =? 95)%N.
Definition name_char (c : N) : bool := name_start c || is_digit c.
(** [PROPERTY_PREFIX.exec]: the property and the reason. *)
Definition PROPERTY_PREFIX (message : jsstr) : option (jsstr * jsstr) :=
  match take_until 58 message with
  | ((c :: name) as property, Some ((w :: _) as rest)) =>
      if name_start c && forallb name_char name && is_ws w then Some (property, trimStart rest) else None
  | _ => None
  end.
Definition issue_of (message : jsstr) : ValidationIssue :=
  match PROPERTY_PREFIX message with
  | None => MkIssue None message message
  | Some (property, reason) => MkIssue (Some property) reason message
  end.
Definition parseValidationIssues (body : ApiError) : list ValidationIssue :=
  map issue_of (filter (λ message, message ≠ []) (ae_messages body)).

Definition detail (key : jsstr) (body : ApiError) : jsval := field key (default JUndefined (ae_details body)).
Definition classifyWriteError (error : Thrown) : WriteFailure :=
  match request_error error with
  | None => other (match error with js_error _ _ message => message | _ => UNEXPECTED end)
  | Some (status, body) =>
      let code := ae_code body in
      let message := ae_message body in
      if (status =? 429) || bool_decide (code = rate_limited)
      then throttled (numberOrNull (detail (js "retry_after_seconds") body)) message
      else if bool_decide (code = limit_exceeded)
      then ceiling (numberOrNull (detail (js "limit") body)) (numberOrNull (detail (js "current") body))
             (stringOrNull (detail (js "resource") body)) message
      else if (status =? 409) || bool_decide (code = conflict) then wf_conflict message
      else if bool_decide (code = forbidden) || (status =? 403) then wf_forbidden message
      else if bool_decide (code = invalid_request) || (status =? 400) then invalid message (parseValidationIssues body)
      else other message
  end.

Definition writeFailureTitle (failure : WriteFailure) : string :=
  match failure with
  | throttled _ _ => "Too many requests — slow down"
  | ceiling _ _ _ _ => "You have reached a limit"
  | wf_conflict _ => "That conflicts with something that already exists"
  | wf_forbidden _ => "You do not have permission to do this"
  | invalid _ _ => "Check the details and try again"
  | other _ => "Request failed"
  end.
Definition is_one (x : jsnum) : bool := match x with NFin false 1 1 => true | _ => false end.
Definition writeFailureRemedy (failure : WriteFailure) : jsstr :=
  match failure with
  | throttled None _ => js "Wait a moment, then try again. Nothing was created."
  | throttled (Some seconds) _ =>
      js "Wait about " ++ show_num seconds ++ js " " ++ js (if is_one seconds then "second" else "seconds")
      ++ js ", then try again. Nothing was created."
  | ceiling limit current resource _ =>
      js "Waiting will not help " ++ [8212%N] ++ js " this limit does not reset."
      ++ match limit, current with
         | Some limit, Some current => js " You are at " ++ show_num current ++ js " of " ++ show_num limit ++ js "."
         | _, _ => []
         end
      ++ js " Delete" ++ match resource with Some r => js " one of your " ++ r | None => js " something" end
      ++ js " you no longer need, or ask an operator to raise the limit."
  | wf_conflict message | wf_forbidden message | invalid message _ | other message => message
  end.

(** ** features/policies/write-errors.ts *)

Definition fieldNamedByServer (error : Thrown) : option jsstr :=
  (request_error error) ≫= λ e, stringOrNull (detail (js "field") e.2).

(** The calls of [setError], in their order; the focus goes to the first, and the
    fields claimed are theirs. *)
Definition placeServerErrors (error : Thrown) (fields : list jsstr) : list (jsstr * jsstr) :=
  match classifyWriteError error with
  | invalid message issues =>
      let claimed := omap (λ issue, is_field issue ≫= λ f, if bool_decide (f ∈ fields) then Some (f, is_reason issue) else None) issues in
      if bool_decide (claimed = [])
      then match fieldNamedByServer error with
           | Some named => if bool_decide (named ∈ fields) then [(named, message)] else []
           | None => []
           end
      else claimed
  | _ => []
  end.
Definition isForbidden (error : Thrown) : bool :=
  match request_error error with
  | Some (status, body) => (status =? 403) || bool_decide (ae_code body = forbidden)
  | None => false
  end.

(** ** lib/api-base-url.ts *)

Record UrlParts : Type := MkUrl { u_protocol : jsstr; u_origin : jsstr; u_pathname : jsstr; u_search : jsstr; u_hash : jsstr }.

Inductive BaseUrlError : Type :=
| not_set | not_absolute (value : jsstr) | not_http (protocol : jsstr) | carries_query (value : jsstr) | includes_v1 (suggestion value : jsstr).

Definition V1 : jsstr := js "/v1".
Section BaseUrl.
  (** [new URL]; None: it throws. *)
  Context (newUrl : jsstr → option UrlParts).

Definition resolveApiBaseUrl (raw : option jsstr) (production : bool) : BaseUrlError + jsstr :=
  let value := trim (default [] raw) in
  if bool_decide (value = []) then (if production then inl not_set else inr [])
  else match newUrl value with
       | None => inl (not_absolute value)
       | Some url =>
           if negb (bool_decide (u_protocol url = js "http:")) && negb (bool_decide (u_protocol url = js "https:"))
           then inl (not_http (u_protocol url))
           else if negb (bool_decide (u_search url = [])) || negb (bool_decide (u_hash url = []))
           then inl (carries_query value)
           else
             let normalised := strip_trailing_slashes (u_origin url ++ u_pathname url) in
             if endsWith normalised V1
             then inl (includes_v1 (let shorter := slice_end normalised (length V1) in
                                    if bool_decide (shorter = []) then u_origin url else shorter) value)
             else inr normalised
       end.
Definition joinApiUrl (base path : jsstr) : jsstr := base ++ (if startsWith path (js "/") then [] else js "/") ++ path.

Definition API_BASE_URL_VAR : jsstr := js "VITE_API_BASE_URL".
(** The message of the error thrown. *)
Definition base_url_message (e : BaseUrlError) : jsstr :=
  API_BASE_URL_VAR ++
  match e with
  | not_set => js " is not set. A production build of the dashboard has no dev proxy, so a relative API path resolves to the hostname serving index.html and returns the SPA shell with a 200 instead of JSON. Set "
               ++ API_BASE_URL_VAR ++ js " to the control API's origin, e.g. https://api.hookubit.com."
  | not_absolute value => js " must be an absolute URL including the scheme, e.g. https://api.hookubit.com " ++ [8212%N] ++ js " got " ++ quote value ++ js "."
  | not_http protocol => js " must use http or https " ++ [8212%N] ++ js " got " ++ quote protocol ++ js "."
  | carries_query value => js " must not carry a query string or fragment " ++ [8212%N] ++ js " got " ++ quote value ++ js "."
  | includes_v1 suggestion value =>
      js " must not include the /v1 prefix " ++ [8212%N] ++ js " the dashboard adds it to every path. Use " ++ quote suggestion
      ++ js " instead of " ++ quote value ++ js "."
  end.

(** [ApiConfig], and [apiUrl] over it; inl: an [Error] with the message. *)
Definition resolveApiConfig (raw : option jsstr) (production : bool) : jsstr + jsstr :=
  match resolveApiBaseUrl raw production with inl e => inl (base_url_message e) | inr base => inr base end.
Definition apiUrl (config : jsstr + jsstr) (path : jsstr) : jsstr + jsstr :=
  match config with inl error => inl error | inr base => inr (joinApiUrl base path) end.
End BaseUrl.

(** ** Errors of the control plane, as the console has them *)

Lemma as_code code : isApiErrorCode (JStr (code_text code)) = Some code.
Proof. by destruct code; vm_compute. Qed.

Lemma normalise_fields raw raw' :
  field (js "code") raw = field (js "code") raw' → field (js "message") raw = field (js "message") raw' →
  field (js "details") raw = field (js "details") raw' → field (js "request_id") raw = field (js "request_id") raw' →
  normaliseApiError raw = normaliseApiError raw'.
Proof. unfold normaliseApiError. by intros -> -> -> ->. Qed.

Lemma as_raw_fields e :
  field (js "code") (as_raw e) = JStr (code_text (ae_code e)) ∧ field (js "message") (as_raw e) = JStr (ae_message e)
  ∧ field (js "details") (as_raw e) = default JUndefined (ae_details e)
  ∧ field (js "request_id") (as_raw e) = from_option JStr JUndefined (ae_request_id e).
Proof.
  unfold as_raw, carried. rewrite !filter_cons. cbn [snd defined].
  rewrite !(decide_True (P:=true = true)) by done.
  destruct (ae_details e) as [d|]; cbn [default from_option]; destruct (ae_request_id e) as [r|]; cbn [default from_option defined].
  all: try (destruct (defined d) eqn:Hd; [|destruct d; try done]; unfold id; rewrite ?Hd).
  all: repeat (case_decide; [|done || idtac]); split_and!; vm_compute; done.
Qed.

Lemma join_ne c (ws : list jsstr) : ws ≠ [] → (∀ w, w ∈ ws → w ≠ []) → join c ws ≠ [].
Proof.
  destruct ws as [|w ws]; [done|]. intros _ H. assert (w ≠ []) by (apply H; left).
  destruct ws; [done|]. rewrite join_cons by done. by destruct w.
Qed.
Lemma strings_of (ms : list jsstr) : omap as_string (JStr <$> ms) = ms.
Proof. induction ms as [|m ms IH]; [done|]. cbn. by rewrite IH. Qed.
Lemma keep_nonempty (ms : list jsstr) : (∀ m, m ∈ ms → m ≠ []) → filter (λ m, m ≠ []) ms = ms.
Proof.
  induction ms as [|m ms IH]; intros H; [done|]. rewrite filter_cons, decide_True by (apply H; left).
  rewrite IH; [done|]. intros x Hx. apply H. by right.
Qed.

Lemma issues_of body : (∀ m, m ∈ ae_messages body → m ≠ []) → parseValidationIssues body = map issue_of (ae_messages body).
Proof. intros H. unfold parseValidationIssues. by rewrite keep_nonempty. Qed.
Lemma issue_single body m : ae_messages body = [m] → m ≠ [] → parseValidationIssues body = [issue_of m].
Proof. intros Hb Hm. rewrite issues_of; rewrite Hb; [done|]. by intros x ->%list_elem_of_singleton. Qed.

Lemma surjective_normal raw : normaliseApiError raw = MkApiError
  (default internal_error (isApiErrorCode (field (js "code") raw)))
  (let joined := join 32 (match field (js "message") raw with JArr l => omap as_string l | JStr s => [s] | _ => [] end) in
   if bool_decide (joined = []) then UNEXPECTED else joined)
  (match field (js "message") raw with JArr l => omap as_string l | JStr s => [s] | _ => [] end)
  (if is_object (field (js "details") raw) then Some (field (js "details") raw) else None)
  (as_string (field (js "request_id") raw)).
Proof. reflexivity. Qed.

Section Envelope.
  Context (requestId statusText origin url : jsstr).

(** The response the filter writes, as fetch delivers it, and what is thrown. *)
Definition delivered (exception : Exception) : Exchange :=
  let (status, body) := catch requestId exception in responded status statusText (inr body).

(** What the error of an envelope becomes: normalised twice. *)
Lemma delivered_error status code message details :
  (200 <=? status) && (status <=? 299) = false → defined message = true →
  httpTransport origin url (responded status statusText (inr (error_body code message details requestId)))
  = inl (ApiRequestError status (as_raw (MkApiError code
      (let joined := join 32 (match message with JArr l => omap as_string l | JStr s => [s] | _ => [] end) in
       if bool_decide (joined = []) then UNEXPECTED else joined)
      (match message with JArr l => omap as_string l | JStr s => [s] | _ => [] end)
      (if is_object details then Some details else None) (Some requestId)))).
Proof.
  intros Hs Hm. unfold httpTransport, exchange_result. rewrite Hs. cbn [negb].
  destruct (body_fields code message details requestId Hm) as (Hc & Hmsg & Hd & Hr).
  assert (nullish (field (js "error") (error_body code message details requestId)) = false) as -> by reflexivity.
  rewrite (surjective_normal (field (js "error") _)), Hc, Hmsg, Hd, Hr, as_code. reflexivity.
Qed.

Lemma renormalised e : ae_message e ≠ [] → (∀ d, ae_details e = Some d → is_object d = true) →
  normaliseApiError (as_raw e) = MkApiError (ae_code e) (ae_message e) [ae_message e] (ae_details e) (ae_request_id e).
Proof.
  intros Hm Hd. destruct (as_raw_fields e) as (H1 & H2 & H3 & H4). unfold normaliseApiError. rewrite H1, H2, H3, H4, as_code.
  cbn [join default from_option]. cbv zeta. rewrite bool_decide_false by done.
  destruct (ae_details e) as [d|]; cbn [default from_option]; unfold id; rewrite ?(Hd d eq_refl); by destruct (ae_request_id e).
Qed.

Definition console_error (code : error_code) (message : jsstr) (details : option (list (jsstr * jsval))) : ApiError :=
  MkApiError code message [message] (JObj <$> details) (Some requestId).

Lemma app_error_delivered code message details : message ≠ [] →
  httpTransport origin url (delivered (app_exception code message details))
  = inl (api_error (ERROR_CODES code) (console_error code message details)).
Proof.
  intros Hm. unfold delivered. cbn [catch]. rewrite delivered_error by (by destruct code). cbn [join]. cbv zeta.
  rewrite bool_decide_false by done. unfold ApiRequestError. rewrite renormalised; cbn [ae_message ae_code ae_details ae_request_id]; [|done|].
  - by destruct details.
  - intros d. destruct details; cbn; [by intros [= <-]|done].
Qed.

Definition refusal (ms : list jsstr) (rest : list (jsstr * jsval)) : Exception :=
  http_exception 400 (JObj ((js "message", JArr (JStr <$> ms)) :: rest)) (js "Bad Request Exception").

Lemma refusal_delivered ms rest : ms ≠ [] → (∀ m, m ∈ ms → m ≠ []) →
  httpTransport origin url (delivered (refusal ms rest))
  = inl (api_error 400 (MkApiError invalid_request (join 32 ms) [join 32 ms] None (Some requestId))).
Proof.
  intros Hne Hms. pose proof (join_ne 32 ms Hne Hms) as Hj. unfold delivered, refusal. cbn [catch].
  change (http_message (JObj ((js "message", JArr (JStr <$> ms)) :: rest)) (js "Bad Request Exception")) with (JArr (JStr <$> ms)).
  change (if 400 =? 400 then invalid_request else internal_error) with invalid_request.
  rewrite delivered_error by done. cbv zeta. rewrite strings_of, bool_decide_false by done.
  unfold ApiRequestError. by rewrite renormalised.
Qed.

(** C33. What the console makes of an error of the control plane.  Whatever error of the
    application is thrown with a message, the console has its code, its status, its
    message, its details and its request id.  It reads a throttle exactly in
    rate_limited, a ceiling exactly in limit_exceeded, with the numbers and the
    resource of the details, and a rejected value exactly in invalid_request; two of
    its readings join codes the control plane keeps apart: a conflict is conflict or
    idempotency_key_reused, and a refusal of the role is forbidden or
    email_not_verified; every other code is none of these.  A query is sent again, at
    most twice, only for a throttle or an internal error.  Of a request whose values were
    refused the response carries one message per refusal, and one reading of it would
    find them all; the console reads it twice, which leaves one message that runs them
    together, so a form marks one field at most. *)
Theorem error_contract (code : error_code) (message : jsstr) (details : option (list (jsstr * jsval)))
  (ms : list jsstr) (rest : list (jsstr * jsval)) (fields : list jsstr)
  (Hm : message ≠ []) (Hne : ms ≠ []) (Hms : ∀ m, m ∈ ms → m ≠ []) :
  let body := console_error code message details in
  let refused := api_error 400 (MkApiError invalid_request (join 32 ms) [join 32 ms] None (Some requestId)) in
  httpTransport origin url (delivered (app_exception code message details)) = inl (api_error (ERROR_CODES code) body)
  ∧ classifyWriteError (api_error (ERROR_CODES code) body)
    = match code with
      | rate_limited => throttled (numberOrNull (detail (js "retry_after_seconds") body)) message
      | limit_exceeded => ceiling (numberOrNull (detail (js "limit") body)) (numberOrNull (detail (js "current") body))
                            (stringOrNull (detail (js "resource") body)) message
      | conflict | idempotency_key_reused => wf_conflict message
      | forbidden | email_not_verified => wf_forbidden message
      | invalid_request => invalid message [issue_of message]
      | unauthenticated | not_found | payload_too_large | internal_error => other message
      end
  ∧ (∀ n, retry n (api_error (ERROR_CODES code) body) = true ↔ n < 2 ∧ (code = rate_limited ∨ code = internal_error))
  ∧ httpTransport origin url (delivered (refusal ms rest)) = inl refused
  ∧ parseValidationIssues (normaliseApiError (field (js "error") (catch requestId (refusal ms rest)).2)) = map issue_of ms
  ∧ classifyWriteError refused = invalid (join 32 ms) [issue_of (join 32 ms)]
  ∧ (length (placeServerErrors refused fields) <= 1)%nat.
Proof.
  cbv zeta. pose proof (join_ne 32 ms Hne Hms) as Hj.
  assert (classifyWriteError (api_error 400 (MkApiError invalid_request (join 32 ms) [join 32 ms] None (Some requestId)))
          = invalid (join 32 ms) [issue_of (join 32 ms)]) as Hc.
  { rewrite <- (issue_single (MkApiError invalid_request (join 32 ms) [join 32 ms] None (Some requestId))) by done. reflexivity. }
  split_and!; [by apply app_error_delivered| | |by apply refusal_delivered| |exact Hc|].
  - destruct code; try reflexivity. by rewrite <- (issue_single (console_error invalid_request message details)).
  - intros n. unfold retry. cbn [request_error]. rewrite andb_true_iff, Z.ltb_lt. destruct code; vm_compute retryable; naive_solver.
  - unfold refusal. cbn [catch snd].
    change (http_message (JObj ((js "message", JArr (JStr <$> ms)) :: rest)) (js "Bad Request Exception")) with (JArr (JStr <$> ms)).
    change (if 400 =? 400 then invalid_request else internal_error) with invalid_request.
    destruct (body_fields invalid_request (JArr (JStr <$> ms)) JUndefined requestId eq_refl) as (_ & Hmsg & _).
    rewrite surjective_normal, issues_of; cbn [ae_messages]; by rewrite Hmsg, strings_of.
  - unfold placeServerErrors. rewrite Hc. cbn [omap list_omap].
    destruct (is_field (issue_of (join 32 ms)) ≫= _) as [p|]; [by case_bool_decide|].
    rewrite bool_decide_true by done. destruct (fieldNamedByServer _); [case_bool_decide|]; cbn; lia.
Qed.
End Envelope.

(** What the browser throws: its own errors. *)
Definition from_browser (x : Exchange) : Prop :=
  match x with
  | nothing e | responded _ _ (inl e) => request_error e = None
  | responded _ _ (inr _) => True
  end.

(** A failure says who failed.  A response outside the two hundreds is an error of
    the control plane with its status, whether its body can be read or not; a readable
    response inside them is never an error.  When the exchange ended without an
    answer, a deadline is told from a host that cannot be reached; the first is never
    sent again, so nobody waits for a deadline more than once, the second at most
    twice.  A body that is not JSON is neither. *)
Theorem failures_are_told_apart (origin url : jsstr) (x : Exchange) (Hx : from_browser x) :
  (∀ status text json, x = responded status text json → (200 <=? status) && (status <=? 299) = false →
     ∃ body, httpTransport origin url x = inl (api_error status body))
  ∧ (∀ status text value, x = responded status text (inr value) → (200 <=? status) && (status <=? 299) = true →
     httpTransport origin url x = inr (if status =? 204 then JUndefined else value))
  ∧ (∀ error, exchange_result x = inl error → request_error error = None →
     (isTimeoutAbort error = true → ∃ body, httpTransport origin url x = inl (transport_error timed_out 408 body))
     ∧ (isTimeoutAbort error = false → ∀ name message, error = js_error name true message →
          ∃ body, httpTransport origin url x = inl (transport_error unreachable 503 body))
     ∧ (isTimeoutAbort error = false → (∀ name message, error ≠ js_error name true message) → httpTransport origin url x = inl error))
  ∧ (∀ n body, retry n (transport_error timed_out 408 body) = false)
  ∧ (∀ n body, retry n (transport_error unreachable 503 body) = true ↔ n < 2)
  ∧ (∀ status body, httpTransport origin url x = inl (api_error status body) → (200 <=? status) && (status <=? 299) = false).
Proof.
  unfold httpTransport. split_and!.
  - intros status text json -> Hs. unfold exchange_result. rewrite Hs. eexists. reflexivity.
  - intros status text value -> Hs. unfold exchange_result. rewrite Hs. cbn [negb]. by destruct (status =? 204).
  - intros error -> Hr. rewrite Hr. split_and!.
    + intros ->. eexists. reflexivity.
    + intros -> name message ->. eexists. reflexivity.
    + intros -> Hne. f_equal. destruct error as [| |? [] ?|]; try done. by destruct (Hne name message).
  - intros n body. unfold retry. by rewrite andb_false_r.
  - intros n body. unfold retry. cbn [request_error]. change (retryable 503) with true. by rewrite andb_true_r, Z.ltb_lt.
  - intros status body. destruct x as [e|st text json].
    + cbn [exchange_result]. cbn in Hx. rewrite Hx. destruct (isTimeoutAbort e); [done|]. destruct e as [| |? [] ?|]; try done.
    + unfold exchange_result. destruct ((200 <=? st) && (st <=? 299)) eqn:Hs; cbn [negb].
      * destruct (st =? 204); [done|]. destruct json as [e|v]; [|done]. cbn in Hx. rewrite Hx.
        destruct (isTimeoutAbort e); [done|]. destruct e as [| |? [] ?|]; try done.
      * cbn [request_error ApiRequestError]. by intros [= <- _].
Qed.

(** ** The base URL *)

Lemma leading_all s : strip_leading_slashes s = [] → ∀ c, c ∈ s → c = 47%N.
Proof.
  induction s as [|d s IH]; [by intros _ c ?%not_elem_of_nil|]. cbn [strip_leading_slashes].
  destruct (N.eqb_spec d 47) as [->|]; [|done]. intros H c [->|Hc]%elem_of_cons; [done|by apply IH].
Qed.
Lemma trailing_last s : last (strip_trailing_slashes s) ≠ Some 47%N.
Proof. unfold strip_trailing_slashes. rewrite last_reverse. by intros H%strip_leading_head. Qed.
Lemma trailing_all s : strip_trailing_slashes s = [] → ∀ c, c ∈ s → c = 47%N.
Proof.
  unfold strip_trailing_slashes. intros H c Hc. apply (leading_all (reverse s)); [|by apply elem_of_reverse].
  by rewrite <- (reverse_involutive (strip_leading_slashes (reverse s))), H.
Qed.

Lemma message_shows e value :
  e = not_absolute value ∨ e = carries_query value ∨ (∃ suggestion, e = includes_v1 suggestion value) →
  ∃ before after, base_url_message e = before ++ quote value ++ after.
Proof.
  intros [->|[->|[suggestion ->]]]; unfold base_url_message;
    lazymatch goal with
    | |- ∃ _ _, ?A ++ ?B ++ ?C ++ ?D ++ quote ?X ++ ?F ++ quote value ++ ?G = _ => exists (A ++ B ++ C ++ D ++ quote X ++ F), G
    | |- ∃ _ _, ?A ++ ?B ++ ?C ++ ?D ++ quote value ++ ?G = _ => exists (A ++ B ++ C ++ D), G
    end; by rewrite <- !app_assoc.
Qed.

(** A build that cannot reach the control plane does not pretend to.  A base that is
    accepted has no slash at its end and not the prefix that every path already has,
    so joining it to a path of the API is concatenation; in a production build it is
    never empty, which would ask the host of the page itself; a configuration that is
    refused yields no address at all.  The message of a refusal, which the page shows,
    holds the refused value, although it was meant to hold none. *)
Theorem base_is_usable (newUrl : jsstr → option UrlParts) (raw : option jsstr) (production : bool)
  (Horigin : ∀ v u, newUrl v = Some u → u_protocol u = js "http:" ∨ u_protocol u = js "https:" →
               ∃ c, c ∈ u_origin u ∧ c ≠ 47%N) :
  (∀ base, resolveApiBaseUrl newUrl raw production = inr base →
     (production = true → base ≠ []) ∧ last base ≠ Some 47%N ∧ endsWith base V1 = false
     ∧ (∀ path, startsWith path (js "/") = true →
          apiUrl (resolveApiConfig newUrl raw production) path = inr (base ++ path)))
  ∧ (∀ e, resolveApiBaseUrl newUrl raw production = inl e →
       (∀ path, apiUrl (resolveApiConfig newUrl raw production) path = inl (base_url_message e))
       ∧ (e ≠ not_set →
          (∃ protocol, e = not_http protocol)
          ∨ ∃ before after, base_url_message e = before ++ quote (trim (default [] raw)) ++ after)).
Proof.
  unfold resolveApiConfig. split; intros r Hr.
  - assert ((production = true → r ≠ []) ∧ last r ≠ Some 47%N ∧ endsWith r V1 = false) as (H1 & H2 & H3).
    { unfold resolveApiBaseUrl in Hr. case_bool_decide; [by destruct production; [done|injection Hr as <-]|].
      destruct (newUrl _) as [u|] eqn:Hu; [|done]. destruct (_ && _) eqn:Hp; [done|]. destruct (_ || _); [done|].
      destruct (endsWith _ V1) eqn:He; [done|]. injection Hr as <-. split_and!; [|apply trailing_last|done].
      intros _ Hall. assert (u_protocol u = js "http:" ∨ u_protocol u = js "https:") as Hscheme.
      { apply andb_false_iff in Hp as [Hp|Hp]; apply negb_false_iff, bool_decide_eq_true in Hp; auto. }
      destruct (Horigin _ u Hu Hscheme) as (c & Hc & Hne). apply Hne, (trailing_all _ Hall), elem_of_app. by left. }
    split_and!; try done. intros path Hpath. rewrite Hr. cbn [apiUrl]. unfold joinApiUrl. by rewrite Hpath.
  - split; [by intros path; rewrite Hr|]. intros Hne. unfold resolveApiBaseUrl in Hr.
    case_bool_decide; [by destruct production; [injection Hr as <-|]|].
    destruct (newUrl _) as [u|]; [|injection Hr as <-; right; apply message_shows; by left].
    destruct (_ && _); [injection Hr as <-; left; by eexists|].
    destruct (_ || _); [injection Hr as <-; right; apply message_shows; by right; left|].
    destruct (endsWith _ V1); [|done]. injection Hr as <-. right. apply message_shows. right. right. by eexists.
Qed.

(** A form only ever marks its own fields, and only for a refused value. *)
Lemma placed_on_the_form error fields f message :
  (f, message) ∈ placeServerErrors error fields → f ∈ fields ∧ ∃ m issues, classifyWriteError error = invalid m issues.
Proof.
  unfold placeServerErrors. destruct (classifyWriteError error) as [| | | |m issues|]; try (by intros ?%not_elem_of_nil).
  set (claimed := omap _ issues). case_bool_decide.
  - destruct (fieldNamedByServer error); [|by intros ?%not_elem_of_nil]. case_bool_decide; [|by intros ?%not_elem_of_nil].
    intros [= -> ->]%list_elem_of_singleton. eauto.
  - intros (issue & _ & Hi)%list_elem_of_omap. destruct (is_field issue); [|done]. cbn in Hi. case_bool_decide; [|done].
    injection Hi as <- <-. eauto.
Qed.

(** ** Witnesses *)

(** Two refused values of an endpoint, of which the form shows one. *)
Definition ca_refused : list jsstr := [js "url: loopback address"; js "custom_headers: reserved"].
Lemma error_contract_witness :
  classifyWriteError (api_error 400 (MkApiError invalid_request (join 32 ca_refused) [join 32 ca_refused] None (Some (js "r1"))))
    = invalid (join 32 ca_refused)
        [MkIssue (Some (js "url")) (js "loopback address custom_headers: reserved") (join 32 ca_refused)]
  ∧ parseValidationIssues (normaliseApiError (field (js "error") (catch (js "r1") (refusal ca_refused [])).2))
    = [MkIssue (Some (js "url")) (js "loopback address") (js "url: loopback address");
       MkIssue (Some (js "custom_headers")) (js "reserved") (js "custom_headers: reserved")].
Proof.
  assert (js "taken" ≠ []) as Hm by discriminate. assert (ca_refused ≠ []) as Hne by discriminate.
  assert (∀ m, m ∈ ca_refused → m ≠ []) as Hms.
  { intros m [->|[->|[]%not_elem_of_nil]%elem_of_cons]%elem_of_cons; discriminate. }
  destruct (error_contract (js "r1") [] [] (js "/v1/x") conflict (js "taken") None ca_refused [] [] Hm Hne Hms)
    as (_ & _ & _ & _ & H1 & H2 & _).
  split; [rewrite H2|rewrite H1]; vm_compute; reflexivity.
Defined.

Lemma failures_are_told_apart_witness :
  ∃ body, httpTransport (js "https://hookubit.com") (js "/v1/projects") (responded 200 [] (inl (js_error (js "TimeoutError") false [])))
          = inl (transport_error timed_out 408 body).
Proof.
  assert (from_browser (responded 200 [] (inl (js_error (js "TimeoutError") false [])))) as Hx by reflexivity.
  destruct (failures_are_told_apart (js "https://hookubit.com") (js "/v1/projects") _ Hx) as (_ & _ & H & _).
  by apply (proj1 (H (js_error (js "TimeoutError") false []) eq_refl eq_refl)).
Defined.

Definition ca_url (v : jsstr) : option UrlParts :=
  if bool_decide (v = js "https://api.hookubit.com/") then Some (MkUrl (js "https:") (js "https://api.hookubit.com") (js "/") [] []) else None.
Lemma base_is_usable_witness :
  apiUrl (resolveApiConfig ca_url (Some (js " https://api.hookubit.com/ ")) true) (js "/v1/projects")
  = inr (js "https://api.hookubit.com/v1/projects").
Proof.
  assert (∀ v u, ca_url v = Some u → u_protocol u = js "http:" ∨ u_protocol u = js "https:" → ∃ c, c ∈ u_origin u ∧ c ≠ 47%N) as Ho.
  { intros v u Hu _. unfold ca_url in Hu. case_bool_decide; [|done]. injection Hu as <-. exists 104%N. split; [left|done]. }
  destruct (base_is_usable ca_url (Some (js " https://api.hookubit.com/ ")) true Ho) as [H _].
  destruct (H (js "https://api.hookubit.com")) as (_ & _ & _ & Hp); [vm_compute; reflexivity|].
  rewrite Hp by (vm_compute; reflexivity). vm_compute. reflexivity.
Defined.
