(* ===== verification/ConsoleShell.v ===== *)
(** The shell of the console: dashboard layouts/navigation.ts (the rail, the bottom bar
    and the name of a page), lib/theme.ts with the script of index.html that runs
    before it (light, dark or what the system asks for). *)
From Stdlib Require Import ZArith Lia.
From S2P Require Import Prelude Js ConsoleSetup.

(** ** navigation.ts *)

Inductive NavIconName : Type :=
| ic_overview | ic_deliveries | ic_events | ic_endpoints | ic_subscriptions | ic_policies | ic_api_keys | ic_analytics
| ic_audit | ic_project_settings | ic_notifications | ic_team | ic_billing | ic_organization | ic_setup | ic_stuck.
Record NavItem : Type := MkItem { to : jsstr; label : string; icon : NavIconName }.
Record NavGroup : Type := MkGroup { group_title : option string; items : list NavItem }.

Definition org_path (orgId : jsstr) : jsstr := js "/orgs/" ++ orgId.
Definition project_path (orgId projectId : jsstr) : jsstr := org_path orgId ++ js "/projects/" ++ projectId.

Definition setupItem (base : jsstr) : NavItem := MkItem (base ++ js "/get-started") "Setup" ic_setup.
Definition setupNavPath (orgId projectId : jsstr) : jsstr := to (setupItem (project_path orgId projectId)).
Definition auditLog (org : jsstr) : NavItem := MkItem (org ++ js "/audit") "Audit log" ic_audit.
Definition organizationItems (org : jsstr) : list NavItem :=
  [MkItem (org ++ js "/team") "Team" ic_team; MkItem (org ++ js "/billing") "Billing" ic_billing;
   MkItem (org ++ js "/settings") "Organization settings" ic_organization].

(** An empty project id is no project. *)
Definition navigationGroups (orgId : jsstr) (projectId : option jsstr) (setup : SetupAffordance) : list NavGroup :=
  let org := org_path orgId in
  match projectId with
  | Some ((_ :: _) as projectId) =>
      let base := project_path orgId projectId in
      match setup with aff_show => [MkGroup None [setupItem base]] | _ => [] end ++
      [MkGroup (Some "Record")
         [MkItem (base ++ js "/overview") "Overview" ic_overview; MkItem (base ++ js "/deliveries") "Deliveries" ic_deliveries;
          MkItem (base ++ js "/events") "Events" ic_events];
       MkGroup (Some "Routing")
         [MkItem (base ++ js "/endpoints") "Endpoints" ic_endpoints;
          MkItem (base ++ js "/subscriptions") "Subscriptions" ic_subscriptions;
          MkItem (base ++ js "/policies") "Policies" ic_policies; MkItem (base ++ js "/api-keys") "API keys" ic_api_keys];
       MkGroup (Some "Insight") [MkItem (base ++ js "/analytics") "Analytics" ic_analytics; auditLog org];
       MkGroup (Some "Project")
         [MkItem (base ++ js "/settings") "Project settings" ic_project_settings;
          MkItem (base ++ js "/notifications") "Notifications" ic_notifications];
       MkGroup (Some "Organization") (organizationItems org)]
  | _ => [MkGroup (Some "Insight") [auditLog org]; MkGroup (Some "Organization") (organizationItems org)]
  end.
Definition unlistedProjectNav (orgId projectId : jsstr) : list NavItem :=
  [MkItem (project_path orgId projectId ++ js "/outbox") "Stuck events" ic_stuck].
Definition bottomNav (orgId projectId : jsstr) : list NavItem :=
  let base := project_path orgId projectId in
  [MkItem (base ++ js "/overview") "Overview" ic_overview; MkItem (base ++ js "/deliveries") "Deliveries" ic_deliveries;
   MkItem (base ++ js "/events") "Events" ic_events; MkItem (base ++ js "/endpoints") "Endpoints" ic_endpoints].

Definition candidates (orgId : jsstr) (projectId : option jsstr) : list NavItem :=
  (navigationGroups orgId projectId aff_show ≫= items)
  ++ match projectId with Some ((_ :: _) as projectId) => unlistedProjectNav orgId projectId | _ => [] end.
Definition under (pathname : jsstr) (item : NavItem) : bool :=
  seqb pathname (to item) || startsWith pathname (to item ++ js "/").
Definition better (pathname : jsstr) (best : option NavItem) (item : NavItem) : option NavItem :=
  if under pathname item
  then match best with
       | None => Some item
       | Some b => if (length (to b) <? length (to item))%nat then Some item else best
       end
  else best.
Definition currentSectionLabel (pathname orgId : jsstr) (projectId : option jsstr) : option string :=
  label <$> foldl (better pathname) None (candidates orgId projectId).

(** ** theme.ts *)

Inductive ThemePreference : Type := th_system | th_light | th_dark.
Inductive ResolvedTheme : Type := light | dark.
#[export] Instance ThemePreference_eq_dec : EqDecision ThemePreference.
Proof. solve_decision. Defined.
#[export] Instance ResolvedTheme_eq_dec : EqDecision ResolvedTheme.
Proof. solve_decision. Defined.
Definition THEME_PREFERENCES : list ThemePreference := [th_system; th_light; th_dark].
Definition preference_text (p : ThemePreference) : string :=
  match p with th_system => "system" | th_light => "light" | th_dark => "dark" end.

(** [isPreference], and the preference it narrows to. *)
Definition isPreference (raw : string) : option ThemePreference :=
  snd <$> list_find (λ p, preference_text p = raw) THEME_PREFERENCES.
Definition resolveTheme (preference : ThemePreference) (systemPrefersDark : bool) : ResolvedTheme :=
  match preference with th_system => if systemPrefersDark then dark else light | th_light => light | th_dark => dark end.

Definition readThemePreference (st : Storage) : ThemePreference :=
  match st with stored (Some raw) => default th_system (isPreference raw) | _ => th_system end.
Definition writeThemePreference (preference : ThemePreference) (st : Storage) : Storage :=
  match st with
  | denied => denied
  | stored _ => stored (if bool_decide (preference = th_system) then None else Some (preference_text preference))
  end.

(** A page in a browser: what is stored, what the system asks for, whether the page is
    drawn dark, the state of the store, and whether somebody listens to the system. *)
Record ThemePage : Type := MkPage {
  tp_storage : Storage; tp_systemDark : bool; tp_drawnDark : bool;
  tp_preference : ThemePreference; tp_resolved : ResolvedTheme; tp_listening : bool
}.
(** The script of index.html. *)
Definition bootstrap_script (st : Storage) (systemDark : bool) : bool :=
  let raw := match st with stored raw => raw | denied => None end in
  bool_decide (raw = Some "dark") || (negb (bool_decide (raw = Some "light")) && systemDark).
(** A load of the page: the script, and the store as the module creates it. *)
Definition load (st : Storage) (systemDark : bool) : ThemePage :=
  let preference := readThemePreference st in
  MkPage st systemDark (bootstrap_script st systemDark) preference (resolveTheme preference systemDark) false.
Definition is_dark (r : ResolvedTheme) : bool := bool_decide (r = dark).
Definition setPreference (chosen : ThemePreference) (p : ThemePage) : ThemePage :=
  let applied := resolveTheme chosen (tp_systemDark p) in
  MkPage (writeThemePreference chosen (tp_storage p)) (tp_systemDark p) (is_dark applied) chosen applied (tp_listening p).
(** The system changes its mind; only a listener hears of it. *)
Definition system_changes (matches : bool) (p : ThemePage) : ThemePage :=
  if tp_listening p && bool_decide (tp_preference p = th_system)
  then let applied := resolveTheme th_system matches in
       MkPage (tp_storage p) matches (is_dark applied) (tp_preference p) applied (tp_listening p)
  else MkPage (tp_storage p) matches (tp_drawnDark p) (tp_preference p) (tp_resolved p) (tp_listening p).
Definition listen (on : bool) (p : ThemePage) : ThemePage :=
  MkPage (tp_storage p) (tp_systemDark p) (tp_drawnDark p) (tp_preference p) (tp_resolved p) on.

Inductive ThemeEvent : Type := ev_choose (chosen : ThemePreference) | ev_system (matches : bool) | ev_listen (on : bool) | ev_reload.
Definition theme_event (e : ThemeEvent) (p : ThemePage) : ThemePage :=
  match e with
  | ev_choose chosen => setPreference chosen p
  | ev_system matches => system_changes matches p
  | ev_listen on => listen on p
  | ev_reload => load (tp_storage p) (tp_systemDark p)
  end.
(** A history in which the system changes only while somebody listens. *)
Fixpoint heard (l : list ThemeEvent) (p : ThemePage) : Prop :=
  match l with
  | [] => True
  | e :: l => (∀ matches, e = ev_system matches → tp_listening p = true) ∧ heard l (theme_event e p)
  end.
Definition theme_events (l : list ThemeEvent) (p : ThemePage) : ThemePage := foldl (λ p e, theme_event e p) p l.

(** ** The name of a page *)

Lemma under_inv pathname item : under pathname item = true → ∃ rest, pathname = to item ++ rest ∧ (rest = [] ∨ ∃ r, rest = 47%N :: r).
Proof.
  unfold under. intros [H|H]%orb_true_iff.
  - apply seqb_eq in H as ->. exists []. rewrite app_nil_r. auto.
  - apply bool_decide_eq_true in H as [r ->]. exists (47%N :: r). rewrite <- app_assoc. eauto.
Qed.
Lemma under_self item rest : rest = [] ∨ (∃ r, rest = 47%N :: r) → under (to item ++ rest) item = true.
Proof.
  unfold under. intros [->|[r ->]]; apply orb_true_iff; [left; apply seqb_eq; by rewrite app_nil_r|right].
  apply bool_decide_eq_true. exists r. by rewrite <- app_assoc.
Qed.

Lemma only_match pathname item l best :
  (∀ i, i ∈ l → under pathname i = true → i = item) → best = Some item ∨ (best = None ∧ item ∈ l ∧ under pathname item = true) →
  foldl (better pathname) best l = Some item.
Proof.
  revert best. induction l as [|i l IH]; intros best Hl Hb; cbn [foldl]; [by destruct Hb as [->|(_ & ?%not_elem_of_nil & _)]|].
  apply IH; [intros j Hj; apply Hl; by right|]. unfold better.
  destruct (under pathname i) eqn:Hu.
  - rewrite (Hl i) by (left || done). left. destruct Hb as [->|[-> _]]; [|done]. by rewrite Nat.ltb_irrefl.
  - destruct Hb as [->|(-> & [->|Hin]%elem_of_cons & Hm)]; [by left|congruence|by right].
Qed.

(** Two items of the model over which one path lies are one item. *)
Lemma one_item orgId projectId i j rest rest' :
  i ∈ candidates orgId projectId → j ∈ candidates orgId projectId → to i ++ rest = to j ++ rest' → j = i.
Proof.
  intros Hi Hj Heq. destruct projectId as [[|p0 p]|]; unfold candidates, navigationGroups, unlistedProjectNav, organizationItems, auditLog, setupItem,
    project_path in Hi, Hj; cbn [mbind list_bind items app bool_decide] in Hi, Hj.
  all: repeat first [apply elem_of_cons in Hi as [->|Hi] | by apply not_elem_of_nil in Hi].
  all: repeat first [apply elem_of_cons in Hj as [->|Hj] | by apply not_elem_of_nil in Hj].
  all: first [reflexivity|exfalso; cbn [to] in Heq; rewrite <- !app_assoc in Heq; apply app_inv_head in Heq].
  all: first [discriminate Heq|vm_compute in Heq; discriminate Heq|do 2 apply app_inv_head in Heq; vm_compute in Heq; discriminate Heq].
Qed.

Local Opaque js org_path project_path.
Lemma rail_items orgId projectId item setup : item ∈ candidates orgId projectId →
  item ∈ navigationGroups orgId projectId setup ≫= items ↔ icon item ≠ ic_stuck ∧ (icon item = ic_setup → setup = aff_show).
Proof.
  intros Hi. unfold candidates, navigationGroups, unlistedProjectNav, organizationItems, auditLog, setupItem in *.
  destruct projectId as [[|p0 p]|], setup; cbn [mbind list_bind items app bool_decide] in *.
  all: repeat first [apply elem_of_cons in Hi as [->|Hi] | by apply not_elem_of_nil in Hi].
  all: cbn [icon]; split;
    [intros H; split; [intros E; first [discriminate E|clear E]|intros E; first [reflexivity|discriminate E|clear E]];
       repeat (apply elem_of_cons in H as [H|H]; [discriminate H|]); by apply not_elem_of_nil in H
    |intros [H1 H2]; first [by destruct H1|by discriminate (H2 eq_refl)|repeat first [left|right]]].
Qed.

(** A page has the name of its place in the rail.  Whatever ids the address holds, an
    address at a destination of the model or below it bears that destination's label
    and no other, so that which candidate comes first never matters; the page of the
    stuck events, which no rail lists, and the Setup page, which the rail may omit,
    are named too.  What the rail offers besides Setup does not depend on the state
    of the setup, and everything the bottom bar offers is in it. *)
Theorem pages_are_named (orgId : jsstr) (projectId : option jsstr) (item : NavItem) (rest : jsstr) (setup : SetupAffordance)
  (Hi : item ∈ candidates orgId projectId) (Hrest : rest = [] ∨ ∃ r, rest = 47%N :: r) :
  currentSectionLabel (to item ++ rest) orgId projectId = Some (label item)
  ∧ (item ∈ navigationGroups orgId projectId setup ≫= items ↔
       icon item ≠ ic_stuck ∧ (icon item = ic_setup → setup = aff_show))
  ∧ (∀ p i, projectId = Some p → p ≠ [] → i ∈ bottomNav orgId p → i ∈ navigationGroups orgId projectId setup ≫= items).
Proof.
  split_and!.
  - unfold currentSectionLabel. erewrite (only_match _ item); [done| |].
    + intros i Hin (rest' & Heq & _)%under_inv. by eapply one_item.
    + right. split_and!; [done..|]. by apply under_self.
  - by apply rail_items.
  - intros p i -> Hp Hin. destruct p as [|p0 p]; [done|]. unfold bottomNav in Hin.
    destruct setup; unfold navigationGroups; cbn [mbind list_bind items app bool_decide];
      repeat (apply elem_of_cons in Hin as [->|Hin]; [repeat first [left|right]|]); by apply not_elem_of_nil in Hin.
Qed.
Local Transparent js org_path project_path.

(** ** The theme *)

Record theme_ok (p : ThemePage) : Prop := {
  tk_resolved : tp_resolved p = resolveTheme (tp_preference p) (tp_systemDark p);
  tk_drawn : tp_drawnDark p = is_dark (tp_resolved p)
}.

Lemma preference_reads p : isPreference (preference_text p) = Some p.
Proof. by destruct p. Qed.
Lemma preference_written p raw : readThemePreference (writeThemePreference p (stored raw)) = p.
Proof. by destruct p. Qed.
Lemma script_agrees st systemDark : bootstrap_script st systemDark = is_dark (resolveTheme (readThemePreference st) systemDark).
Proof.
  destruct st as [|[raw|]]; [by destruct systemDark| |by destruct systemDark].
  unfold bootstrap_script, readThemePreference, isPreference, THEME_PREFERENCES. cbn [list_find preference_text].
  destruct (decide (raw = "dark")) as [->|Hd]; [by destruct systemDark|].
  destruct (decide (raw = "light")) as [->|Hl]; [by destruct systemDark|].
  rewrite !bool_decide_false by congruence. cbn [orb negb andb].
  repeat case_decide; subst; try done; by destruct systemDark.
Qed.

Lemma event_ok e p : theme_ok p → (∀ matches, e = ev_system matches → tp_listening p = true) → theme_ok (theme_event e p).
Proof.
  intros [Hr Hd] Hh. destruct e as [chosen|matches|on|]; cbn [theme_event].
  - by split.
  - unfold system_changes. rewrite (Hh matches eq_refl). destruct (tp_preference p) eqn:Hp; cbn; split; cbn; try done;
      by rewrite Hr, Hp.
  - by split.
  - unfold load. split; cbn; [done|]. apply script_agrees.
Qed.

(** The page is drawn in the theme that was chosen.  From a load of the page, through
    any choices, changes of the system that somebody listens to, and further loads: the
    page is drawn dark exactly when the choice is dark, or nothing was chosen and the
    system asks for dark; the script that runs before the first paint and the module
    agree on every stored text.  A choice survives a load where the browser stores it,
    and is forgotten for the system's where it does not. *)
Theorem theme_follows (st : Storage) (systemDark : bool) (l : list ThemeEvent) (Hl : heard l (load st systemDark)) (chosen : ThemePreference) :
  let p := theme_events l (load st systemDark) in
  (tp_drawnDark p = true ↔ tp_preference p = th_dark ∨ (tp_preference p = th_system ∧ tp_systemDark p = true))
  ∧ bootstrap_script st systemDark = is_dark (resolveTheme (readThemePreference st) systemDark)
  ∧ tp_preference (theme_events [ev_choose chosen; ev_reload] p) = (if tp_storage p is denied then th_system else chosen).
Proof.
  cbv zeta. assert (theme_ok (theme_events l (load st systemDark))) as [Hr Hd].
  { assert (theme_ok (load st systemDark)) as H0 by (split; [done|apply script_agrees]).
    revert Hl H0. generalize (load st systemDark). induction l as [|e l IH]; intros p Hl Hp; [done|].
    destruct Hl as [He Hl]. by apply IH, event_ok. }
  split_and!; [|apply script_agrees|].
  - rewrite Hd, Hr. destruct (tp_preference _), (tp_systemDark _); vm_compute; naive_solver.
  - cbn. destruct (tp_storage _); [done|]. apply preference_written.
Qed.

(** ** Witnesses *)

Lemma pages_are_named_witness :
  currentSectionLabel (js "/orgs/o1/projects/p1/settings/danger") (js "o1") (Some (js "p1")) = Some "Project settings"%string.
Proof.
  refine (proj1 (pages_are_named (js "o1") (Some (js "p1"))
    (MkItem (project_path (js "o1") (js "p1") ++ js "/settings") "Project settings" ic_project_settings) (js "/danger") aff_hide _ _)).
  - unfold candidates, navigationGroups. cbn [mbind list_bind items app]. repeat first [left|right].
  - right. eexists. reflexivity.
Defined.

Lemma theme_follows_witness :
  tp_drawnDark (theme_events [ev_listen true; ev_system true] (load (stored None) false)) = true.
Proof.
  apply (theme_follows (stored None) false [ev_listen true; ev_system true]).
  - repeat split; intros matches; discriminate || reflexivity.
  - exact th_light.
  - right. split; reflexivity.
Defined.
