(* ===== verification/ConsoleCharts.v ===== *)
(** The console's charts: dashboard features/analytics/series-layout.ts, window.ts and
    the counting half of derive.ts.

    A layout is computed from the series of Analytics.  A fraction is kept as its two
    integers; the decimal logarithm and the locale's clock are parameters. *)
From Stdlib Require Import ZArith Lia.
From S2P Require Import Prelude Js RetryRules Series Binary64 Analytics.
Open Scope Z_scope.

(** ** series-layout.ts *)

Inductive BandKey : Type := k_first_try | k_after_retry | k_failed | k_in_flight.
#[export] Instance BandKey_eq_dec : EqDecision BandKey.
Proof. solve_decision. Defined.
Definition STACK : list BandKey := [k_first_try; k_after_retry; k_failed; k_in_flight].
(** The legend: every key of the stack but the last. *)
Definition BANDS : list (BandKey * string) := [(k_first_try, "Delivered"); (k_after_retry, "Retried"); (k_failed, "Failed")].

Record BarSegment : Type := MkSegment { sg_key : BandKey; sg_fraction : Z * Z; sg_count : Z }.
Record Bar : Type := MkBar { bar_start : Z; bar_end : Z; bar_count : Z; bar_segments : list BarSegment; bar_empty : bool }.
Record ChartLayout : Type := MkLayout {
  cl_bars : list Bar; cl_max : Z; cl_ticks : list Z; cl_xLabels : list (Z * jsstr); cl_totals : BandKey → Z
}.

Definition bucketValue (bucket : SeriesCounts) (key : BandKey) : Z :=
  let value := match key with
               | k_first_try => delivered_first_try bucket | k_after_retry => delivered_after_retry bucket
               | k_failed => sc_failed bucket | k_in_flight => sc_in_flight bucket
               end in
  if 0 <? value then value else 0.
Definition height (bucket : SeriesCounts) : Z := foldl (λ height key, height + bucketValue bucket key) 0 STACK.

(** [Math.round(n / 3)] *)
Definition round_third (n : Z) : Z := (2 * n + 3) / 6.
Definition ticksFor (max : Z) : list Z := [max; round_third (max * 2); round_third max; 0].

Definition bar_of (max : Z) (bn : SeriesBucket * SeriesCounts) : Bar :=
  let total := height bn.2 in
  MkBar (b_start bn.1) (b_end bn.1) total
    (omap (λ key, let count := bucketValue bn.2 key in
                  if 0 <? count then Some (MkSegment key (count, max) count) else None) STACK)
    (total =? 0).

(** The loop of [xLabelsFor]: the labelled positions. *)
Fixpoint label_loop (fuel : nat) (index stride : Z) : list Z :=
  match fuel with
  | O => []
  | S fuel => if 0 <=? index then index :: label_loop fuel (index - stride) stride else []
  end.

Section Layout.
  (** [Math.floor(Math.log10(value))], and a tick as the locale writes it: a weekday or a
      clock time. *)
  Context (floor_log10 : Z → Z) (formatTick : Z → bool → jsstr).

Definition niceMax (value : Z) : Z :=
  if value <=? 0 then 1
  else let magnitude := 10 ^ floor_log10 value in
       default (10 * magnitude) (snd <$> list_find (λ candidate, value <= candidate) (map (λ step, step * magnitude) [1; 2; 5; 10])).

Definition stride_of (count maxLabels : Z) : Z := Z.max 1 (ceil_div count maxLabels).
Definition xLabelsFor (buckets : list SeriesBucket) (bucketMs maxLabels : Z) : list (Z * jsstr) :=
  let count := Z.of_nat (length buckets) in
  let daily := 24 * 3600000 <=? bucketMs in
  omap (λ index, (λ b, (index, formatTick (b_start b) daily)) <$> buckets !! Z.to_nat index)
    (label_loop (length buckets) (count - 1) (stride_of count maxLabels)).

Definition layoutSeries (series : DeliverySeries) (maxXLabels : Z) : ChartLayout :=
  let buckets := ds_buckets series in
  let tallest := foldl (λ tallest bn, if tallest <? height bn.2 then height bn.2 else tallest) 0 buckets in
  let max := if tallest =? 0 then 1 else niceMax tallest in
  MkLayout (map (bar_of max) buckets) max (ticksFor max) (xLabelsFor (map fst buckets) (ds_bucket_ms series) maxXLabels)
    (λ key, foldl (λ sum bn, sum + bucketValue bn.2 key) 0 buckets).
End Layout.

(** A quotient of counts; None: nothing settled. *)
Definition settledRate (totals : BandKey → Z) : option (Z * Z) :=
  let settled := totals k_first_try + totals k_after_retry + totals k_failed in
  if settled =? 0 then None else Some (totals k_first_try + totals k_after_retry, settled).

(** ** derive.ts *)

Definition deliveriesPerEvent (deliveriesTotal eventsTotal : option Z) : option (Z * Z) :=
  match deliveriesTotal, eventsTotal with
  | Some d, Some e => if e <=? 0 then None else Some (d, e)
  | _, _ => None
  end.
Definition share (count total : Z) : Z * Z :=
  if (total <=? 0) || (count <=? 0) then (0, 1) else if total <=? count then (1, 1) else (count, total).

(** ** window.ts *)

Record WindowChoice : Type := MkChoice { wc_key : string; wc_hours : Z; wc_label : string; wc_previous : string; wc_bucket : string }.
Definition ANALYTICS_WINDOWS : list WindowChoice :=
  [MkChoice "1h" 1 "Last hour" "the hour before" "5m"; MkChoice "24h" 24 "Last 24 hours" "the 24 hours before" "1h";
   MkChoice "7d" 168 "Last 7 days" "the 7 days before" "1d"; MkChoice "30d" 720 "Last 30 days" "the 30 days before" "1d"].
Definition DEFAULT_WINDOW_KEY : string := "24h".
Definition find_window (raw : option string) : option WindowChoice :=
  snd <$> list_find (λ w, raw = Some (wc_key w)) ANALYTICS_WINDOWS.
Definition parseWindowKey (raw : option string) : string := from_option wc_key DEFAULT_WINDOW_KEY (find_window raw).
Definition windowFor (key : string) : WindowChoice :=
  default (MkChoice "1h" 1 "Last hour" "the hour before" "5m") (find_window (Some key)).
Definition hoursFor (key : string) : Z := wc_hours (windowFor key).
Definition bucketFor (key : string) : string := wc_bucket (windowFor key).
Definition DEFAULT_WINDOW_MATCHES_API : bool := hoursFor DEFAULT_WINDOW_KEY =? DEFAULT_WINDOW_HOURS.

(** ** Heights *)

Lemma bucketValue_nonneg n key : 0 <= bucketValue n key.
Proof. unfold bucketValue. cbv zeta. match goal with |- context [0 <? ?v] => destruct (Z.ltb_spec 0 v); lia end. Qed.
Lemma height_sum n : height n = bucketValue n k_first_try + bucketValue n k_after_retry + bucketValue n k_failed + bucketValue n k_in_flight.
Proof. unfold height, STACK. cbn [foldl]. lia. Qed.
Lemma height_nonneg n : 0 <= height n.
Proof. rewrite height_sum. pose proof (bucketValue_nonneg n) as H. pose proof (H k_first_try). pose proof (H k_after_retry).
  pose proof (H k_failed). pose proof (H k_in_flight). lia. Qed.

Definition segments_sum (l : list BarSegment) : Z := foldr (λ s acc, sg_count s + acc) 0 l.
Lemma bar_segments_sum max bn : segments_sum (bar_segments (bar_of max bn)) = height bn.2.
Proof.
  rewrite height_sum. cbn [bar_of bar_segments]. unfold STACK. pose proof (bucketValue_nonneg bn.2) as Hn.
  pose proof (Hn k_first_try). pose proof (Hn k_after_retry). pose proof (Hn k_failed). pose proof (Hn k_in_flight).
  cbn [omap list_omap].
  destruct (Z.ltb_spec 0 (bucketValue bn.2 k_first_try)), (Z.ltb_spec 0 (bucketValue bn.2 k_after_retry)),
    (Z.ltb_spec 0 (bucketValue bn.2 k_failed)), (Z.ltb_spec 0 (bucketValue bn.2 k_in_flight)); cbn [segments_sum foldr sg_count]; lia.
Qed.

Lemma tallest_spec (l : list (SeriesBucket * SeriesCounts)) : ∀ t0, 0 <= t0 →
  let t := foldl (λ tallest bn, if tallest <? height bn.2 then height bn.2 else tallest) t0 l in
  t0 <= t ∧ ∀ bn, bn ∈ l → height bn.2 <= t.
Proof.
  induction l as [|bn l IH]; intros t0 H0; cbn [foldl]; [split; [lia|by intros bn ?%not_elem_of_nil]|].
  cbv zeta. set (t1 := if t0 <? height bn.2 then height bn.2 else t0).
  assert (t0 <= t1 ∧ height bn.2 <= t1) as [H1 H2] by (unfold t1; destruct (Z.ltb_spec t0 (height bn.2)); lia).
  destruct (IH t1 ltac:(lia)) as [H3 H4]. split; [lia|]. intros bn' [->|Hin]%elem_of_cons; [lia|by apply H4].
Qed.

Lemma tallest_attained (l : list (SeriesBucket * SeriesCounts)) : ∀ t0,
  let t := foldl (λ tallest bn, if tallest <? height bn.2 then height bn.2 else tallest) t0 l in
  t = t0 ∨ ∃ bn, bn ∈ l ∧ t = height bn.2.
Proof.
  induction l as [|x l IH]; intros t0; cbn [foldl]; [by left|]. cbv zeta.
  destruct (IH (if t0 <? height x.2 then height x.2 else t0)) as [->|(b & ? & ->)].
  - destruct (t0 <? height x.2); [right; exists x; split; [left|done]|by left].
  - right. exists b. split; [by right|done].
Qed.

(** ** The top of the axis *)

Section Nice.
  Context (floor_log10 : Z → Z) (Hlog : ∀ v, 0 < v → 0 <= floor_log10 v ∧ 10 ^ floor_log10 v <= v < 10 ^ (floor_log10 v + 1)).

(** A readable top: one, two or five times a power of ten. *)
Definition readable (r : Z) : Prop := ∃ step k, step ∈ [1; 2; 5] ∧ 0 <= k ∧ r = step * 10 ^ k.

Lemma niceMax_cases v : 0 < v → let m := 10 ^ floor_log10 v in
  m <= v < 10 * m ∧ 0 < m ∧
  niceMax floor_log10 v = if v <=? m then m else if v <=? 2 * m then 2 * m else if v <=? 5 * m then 5 * m else 10 * m.
Proof.
  intros Hv m. destruct (Hlog v Hv) as (Hk & Hlo & Hhi). rewrite Z.add_1_r, Z.pow_succ_r in Hhi by done.
  fold m in Hlo, Hhi. assert (0 < m) by (unfold m; by apply Z.pow_pos_nonneg). split; [done|]. split; [done|].
  unfold niceMax. rewrite (proj2 (Z.leb_gt v 0)) by lia. cbv zeta. fold m. cbn [map list_find].
  destruct (Z.leb_spec v m), (Z.leb_spec v (2 * m)), (Z.leb_spec v (5 * m)); try lia;
    repeat (case_decide; try lia); cbn; lia.
Qed.

Lemma niceMax_spec v : 0 < v →
  v <= niceMax floor_log10 v ∧ readable (niceMax floor_log10 v) ∧ (∀ r, readable r → v <= r → niceMax floor_log10 v <= r).
Proof.
  intros Hv. destruct (niceMax_cases v Hv) as ([Hlo Hhi] & Hm & ->). destruct (Hlog v Hv) as (Hk & _).
  set (k := floor_log10 v) in *. set (m := 10 ^ k) in *.
  assert (∀ step, step ∈ [1; 2; 5] → readable (step * m)) as Hread by (intros step ?; by exists step, k).
  assert (readable (10 * m)) as Hten.
  { exists 1, (k + 1). split_and!; [left|lia|]. rewrite Z.add_1_r, Z.pow_succ_r by done. fold m. lia. }
  split_and!.
  - destruct (Z.leb_spec v m), (Z.leb_spec v (2 * m)), (Z.leb_spec v (5 * m)); lia.
  - destruct (Z.leb_spec v m); [rewrite <- (Z.mul_1_l m) at 1; apply Hread; left|].
    destruct (Z.leb_spec v (2 * m)); [apply Hread; right; left|].
    destruct (Z.leb_spec v (5 * m)); [apply Hread; right; right; left|exact Hten].
  - intros r (step & j & Hstep & Hj & ->) Hr. destruct (Z.lt_total j k) as [Hlt|[->|Hgt]].
    + assert (10 * 10 ^ j <= m) as Hp.
      { rewrite <- Z.pow_succ_r by done. apply Z.pow_le_mono_r; lia. }
      assert (step <= 5) by (repeat (apply elem_of_cons in Hstep as [->|Hstep]; [lia|]); by apply not_elem_of_nil in Hstep).
      assert (step * 10 ^ j <= 5 * 10 ^ j) by (apply Z.mul_le_mono_nonneg_r; [apply Z.pow_nonneg; lia|done]). lia.
    + fold m in Hr |- *. repeat (apply elem_of_cons in Hstep as [->|Hstep]; [
        destruct (Z.leb_spec v m), (Z.leb_spec v (2 * m)), (Z.leb_spec v (5 * m)); lia|]). by apply not_elem_of_nil in Hstep.
    + assert (10 * m <= 10 ^ j) as Hp.
      { unfold m. rewrite <- Z.pow_succ_r by done. apply Z.pow_le_mono_r; lia. }
      assert (1 <= step) by (repeat (apply elem_of_cons in Hstep as [->|Hstep]; [lia|]); by apply not_elem_of_nil in Hstep).
      assert (1 * 10 ^ j <= step * 10 ^ j) by (apply Z.mul_le_mono_nonneg_r; [apply Z.pow_nonneg; lia|done]).
      destruct (Z.leb_spec v m), (Z.leb_spec v (2 * m)), (Z.leb_spec v (5 * m)); lia.
Qed.
End Nice.

(** ** The labels *)

Lemma label_loop_elem fuel : ∀ index stride i, 1 <= stride → index < Z.of_nat fuel →
  i ∈ label_loop fuel index stride ↔ ∃ k, 0 <= k ∧ i = index - k * stride ∧ 0 <= i.
Proof.
  induction fuel as [|fuel IH]; intros index stride i Hs Hf; cbn [label_loop].
  { split; [by intros ?%not_elem_of_nil|]. intros (k & Hk & -> & Hi). nia. }
  destruct (Z.leb_spec 0 index) as [H0|H0].
  - rewrite elem_of_cons, IH by lia. split.
    + intros [->|(k & Hk & -> & Hi)]; [exists 0; lia|]. exists (k + 1). lia.
    + intros (k & Hk & -> & Hi). destruct (Z.eq_dec k 0) as [->|]; [left; lia|right]. exists (k - 1). lia.
  - split; [by intros ?%not_elem_of_nil|]. intros (k & Hk & -> & Hi). nia.
Qed.
Lemma label_loop_length fuel : ∀ index stride m, 1 <= stride → 0 <= m → index < m * stride →
  Z.of_nat (length (label_loop fuel index stride)) <= m.
Proof.
  induction fuel as [|fuel IH]; intros index stride m Hs Hm Hi; cbn [label_loop]; [done|].
  destruct (Z.leb_spec 0 index) as [H0|H0]; [|done]. cbn [length].
  assert (1 <= m) by nia. pose proof (IH (index - stride) stride (m - 1) Hs ltac:(lia) ltac:(lia)). lia.
Qed.

Lemma stride_enough count maxLabels : 1 <= maxLabels → 1 <= stride_of count maxLabels ∧ count <= maxLabels * stride_of count maxLabels.
Proof.
  intros Hm. unfold stride_of, ceil_div. split; [lia|].
  pose proof (Z.div_mod (- count) maxLabels ltac:(lia)). pose proof (Z.mod_pos_bound (- count) maxLabels ltac:(lia)). nia.
Qed.

Lemma labels_spec formatTick buckets bucketMs maxLabels : 1 <= maxLabels →
  let count := Z.of_nat (length buckets) in
  let labels := xLabelsFor formatTick buckets bucketMs maxLabels in
  Z.of_nat (length labels) <= maxLabels
  ∧ ∀ i text, (i, text) ∈ labels ↔ ∃ k b, 0 <= k ∧ i = count - 1 - k * stride_of count maxLabels ∧ 0 <= i
       ∧ buckets !! Z.to_nat i = Some b ∧ text = formatTick (b_start b) (24 * 3600000 <=? bucketMs).
Proof.
  intros Hm. cbv zeta. destruct (stride_enough (Z.of_nat (length buckets)) maxLabels Hm) as [Hs Hc]. unfold xLabelsFor. split.
  - pose proof (label_loop_length (length buckets) (Z.of_nat (length buckets) - 1) _ maxLabels Hs ltac:(lia) ltac:(lia)) as Hl.
    set (l := label_loop _ _ _) in *. set (f := λ index, _). assert (length (omap f l) <= length l)%nat; [|lia].
    clear. induction l as [|x l IH]; [done|]. cbn [omap list_omap]. destruct (f x); cbn; lia.
  - intros i text. rewrite list_elem_of_omap. split.
    + intros (j & Hj & Heq). apply label_loop_elem in Hj as (k & Hk & -> & Hi); [|lia..].
      destruct (buckets !! _) as [b|] eqn:Hb; [|done]. injection Heq as <- <-. by exists k, b.
    + intros (k & b & Hk & -> & Hi & Hb & ->). eexists. split; [|by rewrite Hb].
      apply label_loop_elem; [lia..|]. by exists k.
Qed.

(** ** The chart *)

Lemma totals_sum key (l : list (SeriesBucket * SeriesCounts)) : ∀ s,
  foldl (λ sum bn, sum + bucketValue bn.2 key) s l = s + foldr (λ bn acc, bucketValue bn.2 key + acc) 0 l.
Proof. induction l as [|bn l IH]; intros s; cbn [foldl foldr]; [lia|]. rewrite IH. lia. Qed.
(** Whole gridlines, each nearest to a third of the top. *)
Lemma round_third_near n : Z.abs (3 * round_third n - n) <= 1.
Proof.
  unfold round_third. pose proof (Z.div_mod (2 * n + 3) 6 ltac:(lia)). pose proof (Z.mod_pos_bound (2 * n + 3) 6 ltac:(lia)). lia.
Qed.
Lemma stride_least count maxLabels d : 1 <= maxLabels → 1 <= d → count <= maxLabels * d → stride_of count maxLabels <= d.
Proof.
  intros Hm Hd Hc. unfold stride_of, ceil_div. apply Z.max_lub; [done|].
  pose proof (Z.div_mod (- count) maxLabels ltac:(lia)). pose proof (Z.mod_pos_bound (- count) maxLabels ltac:(lia)). nia.
Qed.

(** The count of a bucket a key stands for, and what is drawn of a bucket. *)
Definition counted (n : SeriesCounts) (key : BandKey) : Z :=
  match key with
  | k_first_try => delivered_first_try n | k_after_retry => delivered_after_retry n
  | k_failed => sc_failed n | k_in_flight => sc_in_flight n
  end.
Definition drawn (n : SeriesCounts) : list (BandKey * Z) :=
  map (λ key, (key, Z.max 0 (counted n key))) [k_first_try; k_after_retry; k_failed; k_in_flight].
Definition drawn_sum (n : SeriesCounts) : Z := foldr (λ kc acc, kc.2 + acc) 0 (drawn n).
Lemma bucketValue_counted n key : bucketValue n key = Z.max 0 (counted n key).
Proof. unfold bucketValue, counted. cbv zeta. destruct key; match goal with |- context [0 <? ?v] => destruct (Z.ltb_spec 0 v); lia end. Qed.
Lemma height_drawn n : height n = drawn_sum n.
Proof. rewrite height_sum, !bucketValue_counted. cbn. lia. Qed.

Lemma bar_facts max (bn : SeriesBucket * SeriesCounts) : drawn_sum bn.2 <= max →
  let bar := bar_of max bn in
  bar_start bar = b_start bn.1 ∧ bar_end bar = b_end bn.1
  ∧ map (λ s, (sg_key s, sg_count s)) (bar_segments bar) = filter (λ kc : BandKey * Z, 0 < kc.2) (drawn bn.2)
  ∧ Forall (λ s, sg_fraction s = (sg_count s, max)) (bar_segments bar)
  ∧ bar_count bar = segments_sum (bar_segments bar) ∧ bar_count bar = drawn_sum bn.2 ∧ bar_count bar <= max
  ∧ (bar_empty bar = true ↔ ∀ key, counted bn.2 key <= 0).
Proof.
  intros Hm. cbv zeta. split; [done|]. split; [done|]. split; [|split; [|split; [|split; [|split]]]].
  - cbn [bar_of bar_segments]. unfold drawn, STACK. generalize [k_first_try; k_after_retry; k_failed; k_in_flight].
    intros l. induction l as [|key l IH]; [done|]. cbn [map omap list_omap]. rewrite filter_cons, bucketValue_counted. cbn [snd].
    destruct (Z.ltb_spec 0 (Z.max 0 (counted bn.2 key))); [rewrite decide_True by done; cbn [map sg_key sg_count]; by f_equal|].
    by rewrite decide_False by lia.
  - cbn [bar_of bar_segments]. apply Forall_forall. intros s (key & _ & Hs)%list_elem_of_omap. cbv zeta in Hs.
    destruct (Z.ltb_spec 0 (bucketValue bn.2 key)); [|done]. by injection Hs as <-.
  - by rewrite bar_segments_sum.
  - apply height_drawn.
  - change (bar_count (bar_of max bn)) with (height bn.2). by rewrite height_drawn.
  - change (bar_empty (bar_of max bn)) with (height bn.2 =? 0). rewrite Z.eqb_eq, height_drawn. unfold drawn_sum, drawn. cbn [map foldr snd]. split.
    + intros H key. destruct key; lia.
    + intros H. pose proof (H k_first_try). pose proof (H k_after_retry). pose proof (H k_failed). pose proof (H k_in_flight). lia.
Qed.

Lemma totals_drawn floor_log10 formatTick series maxXLabels key :
  cl_totals (layoutSeries floor_log10 formatTick series maxXLabels) key
  = foldr (λ bn acc, Z.max 0 (counted bn.2 key) + acc) 0 (ds_buckets series).
Proof.
  cbn [layoutSeries cl_totals]. rewrite totals_sum. induction (ds_buckets series) as [|bn l IH]; [done|]. cbn [foldr].
  rewrite bucketValue_counted. lia.
Qed.

Lemma settled_none (l : list (SeriesBucket * SeriesCounts)) (totals : BandKey → Z) :
  (∀ key, totals key = foldr (λ bn acc, Z.max 0 (counted bn.2 key) + acc) 0 l) →
  settledRate totals = None ↔ ∀ bn key, bn ∈ l → key ∈ [k_first_try; k_after_retry; k_failed] → counted bn.2 key <= 0.
Proof.
  intros Ht. unfold settledRate. rewrite !Ht. clear Ht totals.
  assert (∀ key l', 0 <= foldr (λ bn : SeriesBucket * SeriesCounts, λ acc, Z.max 0 (counted bn.2 key) + acc) 0 l') as Hn.
  { intros key l'. induction l' as [|bn l' IH]; cbn [foldr]; lia. }
  assert (∀ key (l' : list (SeriesBucket * SeriesCounts)),
    foldr (λ bn acc, Z.max 0 (counted bn.2 key) + acc) 0 l' = 0 ↔ ∀ bn, bn ∈ l' → counted bn.2 key <= 0) as Hiff.
  { intros key. induction l' as [|bn l' IH]; cbn [foldr]; [split; [by intros _ bn ?%not_elem_of_nil|done]|].
    pose proof (Hn key l'). split.
    - intros Hz bn' [->|Hin]%elem_of_cons; [lia|]. apply IH; [lia|done].
    - intros Ha. pose proof (Ha bn ltac:(left)). assert (∀ bn', bn' ∈ l' → counted bn'.2 key <= 0) as Hr%IH by (intros; apply Ha; by right). lia. }
  pose proof (Hn k_first_try l). pose proof (Hn k_after_retry l). pose proof (Hn k_failed l).
  cbv zeta. match goal with |- context [?v =? 0] => destruct (Z.eqb_spec v 0) as [Hz|Hz] end.
  - split; [intros _|done]. intros bn key Hin Hkey. repeat (apply elem_of_cons in Hkey as [->|Hkey]; [apply (proj1 (Hiff _ l)); [lia|done]|]).
    by apply not_elem_of_nil in Hkey.
  - split; [done|]. intros Ha. exfalso. apply Hz.
    rewrite (proj2 (Hiff k_first_try l)), (proj2 (Hiff k_after_retry l)), (proj2 (Hiff k_failed l)); [done|..];
      intros bn Hin; (apply Ha; [done|]); rewrite !elem_of_cons; tauto.
Qed.

(** C37. A chart does not lie.  There is a bar for every bucket, in their order and over its
    time: its segments are, in the order of the stack, those of the four drawn counts of
    that very bucket, delivered at once, delivered after a retry, failed and in
    flight, that are not zero, each with that count and drawn as that share of the
    axis; the bar's count is their sum, which the axis holds; and it is drawn empty
    exactly when all four are zero, whatever was cancelled in it.  The top is at least
    one, and over anything at all it is the least of one, two or five times a power of
    ten that no bar exceeds; below it the gridlines are the whole numbers nearest to
    two thirds and one third of it, and zero.  The labels are those of the newest
    bucket and of every bucket a whole number of strides before it, the stride the
    least that leaves at most as many as were asked for; the totals are the sums of
    the drawn counts, and a rate is given exactly when something settled. *)
Theorem chart_is_honest (floor_log10 : Z → Z) (formatTick : Z → bool → jsstr) (series : DeliverySeries) (maxXLabels : Z)
  (Hlog : ∀ v, 0 < v → 0 <= floor_log10 v ∧ 10 ^ floor_log10 v <= v < 10 ^ (floor_log10 v + 1)) (Hmax : 1 <= maxXLabels) :
  let buckets := ds_buckets series in
  let count := Z.of_nat (length buckets) in
  let chart := layoutSeries floor_log10 formatTick series maxXLabels in
  let total key := foldr (λ bn acc, Z.max 0 (counted bn.2 key) + acc) 0 buckets in
  (length (cl_bars chart) = length buckets
   ∧ ∀ i bn bar, buckets !! i = Some bn → cl_bars chart !! i = Some bar →
       bar_start bar = b_start bn.1 ∧ bar_end bar = b_end bn.1
       ∧ map (λ s, (sg_key s, sg_count s)) (bar_segments bar) = filter (λ kc : BandKey * Z, 0 < kc.2) (drawn bn.2)
       ∧ Forall (λ s, sg_fraction s = (sg_count s, cl_max chart)) (bar_segments bar)
       ∧ bar_count bar = segments_sum (bar_segments bar) ∧ bar_count bar = drawn_sum bn.2 ∧ bar_count bar <= cl_max chart
       ∧ (bar_empty bar = true ↔ ∀ key, counted bn.2 key <= 0))
  ∧ (1 <= cl_max chart ∧ readable (cl_max chart)
     ∧ ((∃ bn, bn ∈ buckets ∧ 0 < drawn_sum bn.2) → ∀ r, readable r → (∀ bn, bn ∈ buckets → drawn_sum bn.2 <= r) → cl_max chart <= r))
  ∧ (∃ a b, cl_ticks chart = [cl_max chart; a; b; 0] ∧ Z.abs (3 * a - 2 * cl_max chart) <= 1 ∧ Z.abs (3 * b - cl_max chart) <= 1)
  ∧ (Z.of_nat (length (cl_xLabels chart)) <= maxXLabels
     ∧ ∃ stride, 1 <= stride ∧ (∀ d, 1 <= d → count <= maxXLabels * d → stride <= d)
         ∧ ∀ i text, (i, text) ∈ cl_xLabels chart ↔
             ∃ k bn, 0 <= k ∧ i = count - 1 - k * stride ∧ 0 <= i ∧ buckets !! Z.to_nat i = Some bn
               ∧ text = formatTick (b_start bn.1) (24 * 3600000 <=? ds_bucket_ms series))
  ∧ (∀ key, cl_totals chart key = total key)
  ∧ settledRate (cl_totals chart)
    = (let settled := total k_first_try + total k_after_retry + total k_failed in
       if settled =? 0 then None else Some (total k_first_try + total k_after_retry, settled))
  ∧ (settledRate (cl_totals chart) = None ↔
       ∀ bn key, bn ∈ buckets → key ∈ [k_first_try; k_after_retry; k_failed] → counted bn.2 key <= 0).
Proof.
  cbv zeta. set (buckets := ds_buckets series).
  set (tallest := foldl (λ tallest bn, if tallest <? height bn.2 then height bn.2 else tallest) 0 buckets).
  set (max := if tallest =? 0 then 1 else niceMax floor_log10 tallest).
  destruct (tallest_spec buckets 0 ltac:(lia)) as [Ht0 Ht]. fold tallest in Ht0, Ht.
  assert (tallest <= max ∧ 1 <= max ∧ readable max) as (Hle & H1 & Hread).
  { unfold max. destruct (Z.eqb_spec tallest 0) as [E|Hne].
    - split_and!; try lia. exists 1, 0. split_and!; [left|done|done].
    - assert (0 < tallest) as Hp by lia. destruct (niceMax_spec floor_log10 Hlog tallest Hp) as (Ha & Hb & _). split_and!; [done|lia|done]. }
  assert (∀ key, cl_totals (layoutSeries floor_log10 formatTick series maxXLabels) key
            = foldr (λ bn acc, Z.max 0 (counted bn.2 key) + acc) 0 buckets) as Htot by (intros key; apply totals_drawn).
  change (cl_max (layoutSeries floor_log10 formatTick series maxXLabels)) with max.
  destruct (labels_spec formatTick (map fst buckets) (ds_bucket_ms series) maxXLabels Hmax) as [Hlen Hlab].
  cbv zeta in Hlab. rewrite length_map in Hlab. split; [split|split; [split; [done|split; [done|]]|split; [|split; [split; [exact Hlen|]|split; [done|split]]]]].
  - cbn. apply length_map.
  - intros i bn bar Hi. change (cl_bars (layoutSeries _ _ series maxXLabels)) with (map (bar_of max) buckets).
    rewrite list_lookup_fmap, Hi. intros [= <-]. apply bar_facts. apply list_elem_of_lookup_2, Ht in Hi. rewrite <- height_drawn. lia.
  - intros (bn & Hin & Hpos) r Hr Hall. rewrite <- height_drawn in Hpos. unfold max. apply Ht in Hin as Hin'.
    rewrite (proj2 (Z.eqb_neq tallest 0)) by lia.
    assert (0 < tallest) as Hp by lia. destruct (niceMax_spec floor_log10 Hlog tallest Hp) as (_ & _ & Hmin). apply Hmin; [done|].
    assert (∃ bn', bn' ∈ buckets ∧ tallest = height bn'.2) as (bn' & Hb & Heq); [|rewrite Heq, height_drawn; by apply Hall].
    pose proof (tallest_attained buckets 0) as Hatt. cbv zeta in Hatt. fold tallest in Hatt. destruct Hatt as [E|]; [lia|done].
  - exists (round_third (max * 2)), (round_third max). split; [done|].
    pose proof (round_third_near (max * 2)). pose proof (round_third_near max). split; [lia|done].
  - exists (stride_of (Z.of_nat (length buckets)) maxXLabels). split; [by apply stride_enough|].
    split; [intros d Hd Hc; by apply stride_least|]. intros i text. change (cl_xLabels _) with (xLabelsFor formatTick (map fst buckets) (ds_bucket_ms series) maxXLabels).
    rewrite Hlab. split.
    + intros (k & b & Hk & Hi & H0 & Hb & ->). rewrite list_lookup_fmap in Hb. apply fmap_Some in Hb as (bn & Hbn & ->). by exists k, bn.
    + intros (k & bn & Hk & Hi & H0 & Hb & ->). exists k, bn.1. rewrite list_lookup_fmap, Hb. done.
  - unfold settledRate. by rewrite !Htot.
  - by apply settled_none.
Qed.

(** Thirty-seven deliveries read against fifty: the axis has no step of four. *)
Example nice_37 : niceMax (λ _, 1) 37 = 50.
Proof. reflexivity. Qed.

(** ** The windows *)

Lemma find_window_spec raw w : find_window raw = Some w → w ∈ ANALYTICS_WINDOWS ∧ raw = Some (wc_key w).
Proof.
  unfold find_window. intros H. apply fmap_Some in H as ([i w'] & Hf & ->). apply list_find_Some in Hf as (Hi & Hp & _).
  cbn. split; [by eapply list_elem_of_lookup_2|done].
Qed.

Definition bars_of (w : WindowChoice) : nat :=
  if String.eqb (wc_key w) "1h" then 13 else if String.eqb (wc_key w) "24h" then 25 else if String.eqb (wc_key w) "7d" then 8 else 31.

(** A width that divides the window: one bucket more than the quotient. *)
Lemma plan_divides (w : AnalyticsWindow) (unit : string) (width n : Z) :
  bucket_width unit = Some width → 0 < width → 0 <= n → n + 1 <= MAX_BUCKETS → w_from w = w_to w - n * width →
  ∃ plan, planSeries w (Some unit) = Ok plan ∧ Z.of_nat (length (sp_buckets plan)) = n + 1 ∧ sp_widthMs plan = width.
Proof.
  intros Hu Hw Hn Hm Hf. unfold planSeries. cbn [default from_option]. unfold id. rewrite Hu, Hf. cbv zeta.
  replace (w_to w - n * width) with (w_to w + (- n) * width) by lia. rewrite Z.div_add by lia.
  replace (w_to w / width * width - (w_to w / width + - n) * width) with (n * width) by lia. rewrite Z.div_mul by lia.
  rewrite (proj2 (Z.ltb_ge _ _)) by lia. eexists. split; [done|]. cbn [sp_buckets sp_widthMs].
  rewrite length_map, length_seq. split; [lia|done].
Qed.

(** The window of a choice at an instant. *)
Lemma choice_admitted (w : WindowChoice) (now : Z) : w ∈ ANALYTICS_WINDOWS →
  ∃ window plan, resolveWindow (Some (int (wc_hours w))) now = Ok window ∧ planSeries window (Some (wc_bucket w)) = Ok plan
    ∧ length (sp_buckets plan) = bars_of w ∧ Z.of_nat (length (sp_buckets plan)) = wc_hours w * HOUR_MS / sp_widthMs plan + 1.
Proof.
  intros Hw. assert (∃ width n, bucket_width (wc_bucket w) = Some width ∧ 0 < width ∧ 0 <= n ∧ n + 1 <= MAX_BUCKETS
    ∧ wc_hours w * HOUR_MS = n * width ∧ n + 1 = Z.of_nat (bars_of w)
    ∧ resolveWindow (Some (int (wc_hours w))) now
      = Ok (MkWindow (wc_hours w) (now - wc_hours w * HOUR_MS) now (now - wc_hours w * HOUR_MS - wc_hours w * HOUR_MS) (now - wc_hours w * HOUR_MS)))
    as (width & n & Hu & Hpos & Hn & Hmax & Heq & Hbars & Hres).
  { repeat (apply elem_of_cons in Hw as [->|Hw]; [|]); [..|by apply not_elem_of_nil in Hw];
      [exists 300000, 12|exists 3600000, 24|exists 86400000, 7|exists 86400000, 30]; repeat split; vm_compute; congruence. }
  destruct (plan_divides (MkWindow (wc_hours w) (now - wc_hours w * HOUR_MS) now (now - wc_hours w * HOUR_MS - wc_hours w * HOUR_MS)
    (now - wc_hours w * HOUR_MS)) (wc_bucket w) width n Hu Hpos Hn Hmax ltac:(cbn; lia)) as (plan & Hp & Hlen & Hwidth).
  do 2 eexists. split; [exact Hres|]. split; [exact Hp|]. split; [lia|].
  rewrite Hwidth, Heq, Z.div_mul by lia. done.
Qed.

(** Every window the page offers is one the control plane draws.  Whatever the address
    says, the page opens on one of the four windows, its key in the address leads back
    to it, the control plane accepts its hours and its bucket at any instant, and the
    default of the page is the default of the control plane.  The bars are one more
    than the table promises: thirteen for the hour, twenty-five for the day, eight for
    the week, so the first and the last of the week fall on the same weekday. *)
Theorem windows_are_admitted (raw : option string) (now : Z) :
  let key := parseWindowKey raw in
  let w := windowFor key in
  w ∈ ANALYTICS_WINDOWS ∧ wc_key w = key ∧ parseWindowKey (Some key) = key
  ∧ (∀ w', w' ∈ ANALYTICS_WINDOWS → raw = Some (wc_key w') → w = w')
  ∧ (∃ window plan, resolveWindow (Some (int (hoursFor key))) now = Ok window ∧ planSeries window (Some (bucketFor key)) = Ok plan
       ∧ length (sp_buckets plan) = bars_of w ∧ Z.of_nat (length (sp_buckets plan)) = hoursFor key * HOUR_MS / sp_widthMs plan + 1)
  ∧ DEFAULT_WINDOW_MATCHES_API = true.
Proof.
  cbv zeta.
  assert (∃ w, w ∈ ANALYTICS_WINDOWS ∧ parseWindowKey raw = wc_key w ∧ (raw = Some (wc_key w) ∨ find_window raw = None)) as (w & Hw & Hk & Hraw).
  { unfold parseWindowKey. destruct (find_window raw) as [w|] eqn:Hf; cbn.
    - apply find_window_spec in Hf as [? ?]. eauto.
    - exists (MkChoice "24h" 24 "Last 24 hours" "the 24 hours before" "1h"). split_and!; [right; left|done|by right]. }
  assert (windowFor (wc_key w) = w) as Hself.
  { repeat (apply elem_of_cons in Hw as [->|Hw]; [reflexivity|]). by apply not_elem_of_nil in Hw. }
  rewrite Hk, Hself. split_and!; try done.
  - unfold parseWindowKey. repeat (apply elem_of_cons in Hw as [->|Hw]; [reflexivity|]). by apply not_elem_of_nil in Hw.
  - intros w' Hw' ->. destruct Hraw as [[= Heq]|Hn].
    + repeat (apply elem_of_cons in Hw' as [->|Hw']; [|]); [..|by apply not_elem_of_nil in Hw'];
        (repeat (apply elem_of_cons in Hw as [->|Hw]; [|]); [..|by apply not_elem_of_nil in Hw]); done.
    + repeat (apply elem_of_cons in Hw' as [->|Hw']; [done|]). by apply not_elem_of_nil in Hw'.
  - unfold hoursFor, bucketFor. rewrite Hself. by apply choice_admitted.
Qed.

(** ** Witnesses *)

Fixpoint cc_digits (fuel : nat) (v : Z) : Z :=
  match fuel with O => 0 | S fuel => if v <? 10 then 0 else 1 + cc_digits fuel (v / 10) end.
Definition cc_log10 (v : Z) : Z := cc_digits (S (Z.to_nat (Z.log2 v))) v.
Lemma cc_digits_spec fuel : ∀ v, 0 < v < 2 ^ Z.of_nat fuel → 0 <= cc_digits fuel v ∧ 10 ^ cc_digits fuel v <= v < 10 ^ (cc_digits fuel v + 1).
Proof.
  induction fuel as [|fuel IH]; intros v Hv; [cbn in Hv; lia|]. rewrite Nat2Z.inj_succ, Z.pow_succ_r in Hv by lia.
  cbn [cc_digits]. destruct (Z.ltb_spec v 10); [cbn; lia|].
  pose proof (Z.div_mod v 10 ltac:(lia)). pose proof (Z.mod_pos_bound v 10 ltac:(lia)).
  destruct (IH (v / 10) ltac:(lia)) as (Ha & Hb & Hc). split; [lia|].
  set (k := cc_digits fuel (v / 10)) in *. rewrite (Z.pow_add_r 10 k 1) in Hc by lia.
  replace (1 + k + 1) with (1 + (k + 1)) by lia. rewrite !(Z.pow_add_r 10 1), (Z.pow_add_r 10 k 1) by lia. lia.
Qed.
Lemma cc_log10_spec v : 0 < v → 0 <= cc_log10 v ∧ 10 ^ cc_log10 v <= v < 10 ^ (cc_log10 v + 1).
Proof.
  intros Hv. apply cc_digits_spec. split; [done|]. rewrite Nat2Z.inj_succ, Z2Nat.id by apply Z.log2_nonneg.
  by apply Z.log2_spec.
Qed.

Definition cc_series : DeliverySeries :=
  MkSeries day_window "1h" 3600000 false [(MkBucket 0 3600000, MkCounts 30 5 2 0 1); (MkBucket 3600000 7200000, MkCounts 0 0 0 0 4)].
(** A bucket in which everything was cancelled is drawn as one in which nothing happened. *)
Example cancelled_is_empty : map bar_empty (cl_bars (layoutSeries cc_log10 (λ _ _, []) cc_series 8)) = [false; true].
Proof. vm_compute. reflexivity. Qed.
Lemma chart_is_honest_witness :
  cl_max (layoutSeries cc_log10 (λ _ _, []) cc_series 8) = 50
  ∧ cl_totals (layoutSeries cc_log10 (λ _ _, []) cc_series 8) k_failed = 2.
Proof.
  split; [reflexivity|].
  destruct (chart_is_honest cc_log10 (λ _ _, []) cc_series 8 cc_log10_spec ltac:(lia)) as (_ & _ & _ & _ & Ht & _).
  rewrite Ht. reflexivity.
Defined.
