(* ===== verification/Requests.v ===== *)
(** What a request may carry: the request classes under */dto of the control plane, as
    the validation pipe of main.ts reads them.

    A class is the list of its properties; a property has the type its declaration
    claims, the conversion and the rules of its decorators.  Decorators and pipe are
    class-validator's, class-transformer's and Nest's: what a rule accepts, what a
    conversion yields and what the pipe admits are the operations of the class
    [Validation], with their documented behaviour as the laws of [ValidationLaws] (the
    pipe refuses a property the class does not declare, and validates the converted
    value).  The constraints and conversions the source itself defines are written out. *)
From Stdlib Require Import ZArith QArith Qround Lia.
From S2P Require Import Prelude Js Permissions EventTypes PayloadFilter EndpointHeaders EndpointUrl RetryRules TenantScope Slugs Series Errors Members.
Open Scope Z_scope.

(** ** Values *)

(** A property after conversion: a value of JSON, or a [Date] ([None] is an invalid one). *)
Inductive Value : Type := JS (v : jsval) | DateOf (t : option Z).

(** The integer a number is, when it is one ([Number.isInteger]); the decimal form of a
    number has no superfluous digits. *)
Definition integer_of (x : jsnum) : option Z :=
  match x with
  | NFin neg s n =>
      let k := jslen (digits s) in
      if (s =? 0)%N then Some 0
      else if k <=? n then Some ((if neg then Z.opp else id) (Z.of_N s * 10 ^ (n - k))) else None
  | _ => None
  end.

(** The types the declarations use; [ts_record] is [Record<string, string>],
    [ts_object] is [Record<string, unknown>]. *)
Inductive TsType : Type :=
| ts_string | ts_number | ts_boolean | ts_date | ts_literals (l : list string) | ts_strings | ts_record | ts_object
| ts_nullable (t : TsType).

Fixpoint has_type (t : TsType) (v : Value) : bool :=
  match t, v with
  | ts_nullable t, JS JNull => true
  | ts_nullable t, _ => has_type t v
  | ts_string, JS (JStr _) | ts_number, JS (JNum _) | ts_boolean, JS (JBool _) | ts_date, DateOf (Some _) | ts_object, JS (JObj _) => true
  | ts_literals l, JS (JStr s) => bool_decide (s ∈ js <$> l)
  | ts_strings, JS (JArr l) => forallb (λ x, if x is JStr _ then true else false) l
  | ts_record, JS (JObj l) => forallb (λ kv : jsstr * jsval, if kv.2 is JStr _ then true else false) l
  | _, _ => false
  end.

(** ** Decorators *)

(** The constraint classes of the source. *)
Inductive Constraint : Type := DeliverableUrlConstraint | SafeCustomHeadersConstraint | EventTypesConstraint | PayloadFilterConstraint.
(** [ValidateIfPresent] is [ValidateIf((_, value) => value !== null && value !== undefined)];
    a rule ending in [Each] has the option [each: true]. *)
Inductive Rule : Type :=
| IsOptional | ValidateIfPresent | IsString | IsInt | IsNumber | IsBoolean | IsDate | IsArray | IsObject | IsEmail | IsISO8601
| IsIn (l : list string) | IsEnum (l : list string) | Length (min max : Z) | MinLength (n : Z) | MaxLength (n : Z) | Min (z : Z) | Max (z : Z)
| ArrayMaxSize (n : Z) | ArrayUnique | IsStringEach | MaxLengthEach (n : Z) | MatchesSlug | Validate (c : Constraint).
#[export] Instance Constraint_eq_dec : EqDecision Constraint.
Proof. solve_decision. Defined.
#[export] Instance Rule_eq_dec : EqDecision Rule.
Proof. solve_decision. Defined.
(** [@Type(() => Number)], [@Type(() => Date)] and [@BooleanQuery()]. *)
Inductive Conversion : Type := as_is | to_number | to_date | boolean_query.

Record Property : Type := MkProperty { p_name : string; p_optional : bool; p_type : TsType; p_conversion : Conversion; p_rules : list Rule }.
Notation Dto := (list Property).

(** [name!: type] and [name?: type]. *)
Definition required (name : string) (t : TsType) (rules : list Rule) : Property := MkProperty name false t as_is rules.
Definition optional (name : string) (t : TsType) (rules : list Rule) : Property := MkProperty name true t as_is (IsOptional :: rules).
Definition Type_ (c : Conversion) (p : Property) : Property := MkProperty (p_name p) (p_optional p) (p_type p) c (p_rules p).

(** Nest's [PartialType] and [OmitType]: every property optional; some left out. *)
Definition PartialType (d : Dto) : Dto := map (λ p, MkProperty (p_name p) true (p_type p) (p_conversion p) (IsOptional :: p_rules p)) d.
Definition OmitType (d : Dto) (names : list string) : Dto := filter (λ p, p_name p ∉ names) d.

(** [BooleanQuery]: the conversion of endpoints/dto/list-endpoints.query.dto.ts. *)
Definition BooleanQuery (value : jsval) : jsval :=
  match value with
  | JUndefined | JNull => JUndefined
  | JStr [] => JUndefined
  | JBool b => JBool b
  | JStr s => JBool (bool_decide (s = js "true") || bool_decide (s = js "1"))
  | _ => JBool false
  end.

(** ** The classes *)

Definition ENDPOINT_timeoutMs : Z * Z := (1000, 120000).
Definition ENDPOINT_maxConcurrency : Z * Z := (1, 256).
Definition ENDPOINT_rateLimit : Z * Z := (1, 100000).
Definition ENDPOINT_rateLimitWindowSeconds : Z * Z := (1, 3600).
Definition MAX_ENDPOINT_NAME_LENGTH : Z := 200.
Definition MAX_ENDPOINT_DESCRIPTION_LENGTH : Z := 1000.
Definition within (range : Z * Z) : list Rule := [IsInt; Min range.1; Max range.2].

Definition limit_of (max : Z) : Property := Type_ to_number (optional "limit" ts_number (within (1, max))).
Definition offset_of : Property := Type_ to_number (optional "offset" ts_number [IsInt; Min 0]).
Definition page_of : Dto := [limit_of MAX_PAGE_SIZE; offset_of].
Definition text_filter (name : string) (max : Z) : Property := optional name ts_string [IsString; MaxLength max].

Definition PageQueryDto : Dto := page_of.
Definition ListApiKeysQueryDto : Dto := page_of.
Definition ListSecretsQueryDto : Dto := page_of.
Definition ListAttemptsQueryDto : Dto := page_of.
Definition PROJECT_STATUSES : list string := ["active"; "suspended"; "deleted"].
Definition ListProjectsQueryDto : Dto := optional "status" (ts_literals PROJECT_STATUSES) [IsEnum PROJECT_STATUSES] :: page_of.
Definition ENDPOINT_STATUSES : list string := ["active"; "paused"; "disabled"; "deleted"].
Definition ListEndpointsQueryDto : Dto :=
  [optional "status" (ts_literals ENDPOINT_STATUSES) [IsEnum ENDPOINT_STATUSES];
   Type_ boolean_query (optional "include_deleted" ts_boolean [IsBoolean])] ++ page_of.
Definition ListSubscriptionsQueryDto : Dto :=
  [text_filter "endpoint_id" 64; Type_ boolean_query (optional "enabled" ts_boolean [IsBoolean])] ++ page_of.
Definition ListRetryPoliciesQueryDto : Dto := Type_ boolean_query (optional "is_default" ts_boolean [IsBoolean]) :: page_of.
Definition RATE_LIMIT_SCOPES : list string := ["organization"; "project"; "endpoint"; "ingest"].
Definition ListRateLimitsQueryDto : Dto :=
  [optional "scope" (ts_literals RATE_LIMIT_SCOPES) [IsIn RATE_LIMIT_SCOPES]; text_filter "resource_id" 64] ++ page_of.
Definition OUTBOX_STATUSES : list string := ["pending"; "processing"; "processed"; "failed"].
Definition ListOutboxQueryDto : Dto :=
  [optional "status" (ts_literals OUTBOX_STATUSES) [IsEnum OUTBOX_STATUSES]; text_filter "event_id" 64] ++ page_of.
Definition EVENT_STATUSES : list string := ["received"; "processing"; "processed"; "failed"].
Definition MIN_IDEMPOTENCY_KEY_SEARCH : Z := 3.
Definition date_filter (name : string) : Property := Type_ to_date (optional name ts_date [IsDate]).
Definition ListEventsQueryDto : Dto :=
  [text_filter "event_type" 255; optional "status" (ts_literals EVENT_STATUSES) [IsEnum EVENT_STATUSES];
   date_filter "created_after"; date_filter "created_before";
   optional "idempotency_key" ts_string [IsString; MinLength MIN_IDEMPOTENCY_KEY_SEARCH; MaxLength 255]] ++ page_of.
Definition DELIVERY_STATUSES : list string :=
  ["pending"; "scheduled"; "queued"; "processing"; "succeeded"; "failed"; "retrying"; "exhausted"; "cancelled"].
Definition DELIVERY_ORIGINS : list string := ["original"; "replay"].
Definition ListDeliveriesQueryDto : Dto :=
  [optional "status" (ts_literals DELIVERY_STATUSES) [IsEnum DELIVERY_STATUSES];
   Type_ boolean_query (optional "failing_now" ts_boolean [IsBoolean]);
   text_filter "endpoint_id" 64; text_filter "event_id" 64; text_filter "event_type" 255;
   date_filter "created_after"; date_filter "created_before";
   optional "origin" (ts_literals DELIVERY_ORIGINS) [IsIn DELIVERY_ORIGINS]] ++ page_of.
Definition MAX_FILTER_LENGTH : Z := 128.
Definition ListAuditLogsQueryDto : Dto :=
  [text_filter "user_id" MAX_FILTER_LENGTH; text_filter "action" MAX_FILTER_LENGTH; text_filter "resource_type" MAX_FILTER_LENGTH;
   text_filter "resource_id" MAX_FILTER_LENGTH; optional "created_after" ts_string [IsISO8601]; optional "created_before" ts_string [IsISO8601]]
  ++ page_of.
Definition AnalyticsWindowQueryDto : Dto := [Type_ to_number (optional "window_hours" ts_number (within (1, MAX_WINDOW_HOURS)))].
Definition FailingEndpointsQueryDto : Dto := AnalyticsWindowQueryDto ++ [limit_of 50].
Definition EventVolumeQueryDto : Dto := AnalyticsWindowQueryDto ++ [limit_of 50].
Definition DeliverySeriesQueryDto : Dto := AnalyticsWindowQueryDto ++ [optional "bucket" ts_string [IsIn BUCKET_UNITS]].
Definition DeleteRetryPolicyQueryDto : Dto := [text_filter "replacement_id" 64].

Definition PASSWORD_MIN_LENGTH : Z := 12.
Definition PASSWORD_MAX_LENGTH : Z := 128.
Definition email_property : Property := required "email" ts_string [IsEmail; MaxLength 320].
Definition token_property (min max : Z) : Property := required "token" ts_string [IsString; Length min max].
Definition password_property : Property := required "password" ts_string [IsString; Length PASSWORD_MIN_LENGTH PASSWORD_MAX_LENGTH].
Definition LoginDto : Dto := [email_property; required "password" ts_string [IsString; MaxLength PASSWORD_MAX_LENGTH]].
Definition RegisterDto : Dto :=
  [email_property; password_property; optional "name" ts_string [IsString; MaxLength 200]; optional "organization_name" ts_string [IsString; Length 2 200]].
Definition VerifyEmailDto : Dto := [token_property 16 512].
Definition ResendVerificationDto : Dto := [email_property].
Definition ForgotPasswordDto : Dto := [email_property].
Definition ResetPasswordDto : Dto := [token_property 16 512; password_property].

Definition ROLE_NAMES : list string := role_name <$> MEMBER_ROLES.
Definition role_property : Property := required "role" (ts_literals ROLE_NAMES) [IsString; IsIn ROLE_NAMES].
Definition InviteMemberDto : Dto := [email_property; role_property].
Definition UpdateMemberRoleDto : Dto := [role_property].
Definition AcceptInvitationDto : Dto := [token_property 20 200].

Definition slug_of (min max : nat) : Property :=
  optional "slug" ts_string [IsString; MaxLength (Z.of_nat max); Length (Z.of_nat min) (Z.of_nat max); MatchesSlug].
Definition ORGANIZATION_NAME_MAX_LENGTH : Z := 200.
Definition CreateOrganizationDto : Dto :=
  [required "name" ts_string [IsString; Length 2 ORGANIZATION_NAME_MAX_LENGTH]; slug_of SLUG_MIN_LENGTH ORG_SLUG_MAX_LENGTH].
Definition UpdateOrganizationDto : Dto :=
  [optional "name" ts_string [IsString; Length 2 ORGANIZATION_NAME_MAX_LENGTH]; slug_of SLUG_MIN_LENGTH ORG_SLUG_MAX_LENGTH].
Definition PROJECT_NAME_MAX_LENGTH : Z := 200.
Definition ENVIRONMENTS : list string := ["test"; "live"].
Definition CreateProjectDto : Dto :=
  [required "name" ts_string [IsString; Length 1 PROJECT_NAME_MAX_LENGTH]; slug_of SLUG_MIN_LENGTH SLUG_MAX_LENGTH;
   optional "environment" (ts_literals ENVIRONMENTS) [IsEnum ENVIRONMENTS]; optional "copy_from_project_id" ts_string [IsString]].
Definition UpdateProjectDto : Dto :=
  [optional "name" ts_string [IsString; Length 1 PROJECT_NAME_MAX_LENGTH]; slug_of SLUG_MIN_LENGTH SLUG_MAX_LENGTH;
   optional "allowed_ips" ts_strings [IsArray; IsStringEach]].

Definition API_KEY_NAME_MAX_LENGTH : Z := 200.
Definition API_KEY_MAX_SCOPES : Z := 32.
Definition API_KEY_SCOPE_MAX_LENGTH : Z := 64.
Definition CreateApiKeyDto : Dto :=
  [required "name" ts_string [IsString; Length 1 API_KEY_NAME_MAX_LENGTH]; optional "expires_at" ts_string [IsISO8601; MaxLength 64];
   optional "scopes" ts_strings [IsArray; ArrayMaxSize API_KEY_MAX_SCOPES; ArrayUnique; IsStringEach; MaxLengthEach API_KEY_SCOPE_MAX_LENGTH]].

Definition MIN_OVERLAP_SECONDS : Z := 0.
Definition MAX_OVERLAP_SECONDS : Z := 30 * 24 * 60 * 60.
Definition RotateSecretDto : Dto :=
  [Type_ to_number (optional "overlap_seconds" ts_number (within (MIN_OVERLAP_SECONDS, MAX_OVERLAP_SECONDS)))].

Definition CreateEndpointDto : Dto :=
  [required "name" ts_string [IsString; Length 1 MAX_ENDPOINT_NAME_LENGTH];
   required "url" ts_string [IsString; MaxLength MAX_URL_LENGTH; Validate DeliverableUrlConstraint];
   optional "description" ts_string [IsString; MaxLength MAX_ENDPOINT_DESCRIPTION_LENGTH];
   optional "timeout_ms" ts_number (within ENDPOINT_timeoutMs);
   optional "max_concurrency" ts_number (within ENDPOINT_maxConcurrency);
   optional "rate_limit" (ts_nullable ts_number) (within ENDPOINT_rateLimit);
   optional "rate_limit_window_seconds" ts_number (within ENDPOINT_rateLimitWindowSeconds);
   optional "retry_policy_id" (ts_nullable ts_string) [IsString; MaxLength 64];
   optional "custom_headers" (ts_nullable ts_record) [IsObject; Validate SafeCustomHeadersConstraint]].
Definition UpdateEndpointDto : Dto := PartialType CreateEndpointDto.
Definition DisableEndpointDto : Dto := [text_filter "reason" 200].

Definition MAX_SUBSCRIPTION_NAME_LENGTH : Z := 200.
Definition CreateSubscriptionDto : Dto :=
  [optional "name" (ts_nullable ts_string) [IsString; MaxLength MAX_SUBSCRIPTION_NAME_LENGTH];
   required "endpoint_id" ts_string [IsString; MaxLength 64];
   required "event_types" ts_strings [IsArray; Validate EventTypesConstraint];
   optional "payload_filter" (ts_nullable ts_object) [Validate PayloadFilterConstraint];
   optional "enabled" ts_boolean [IsBoolean]].
Definition UpdateSubscriptionDto : Dto :=
  [optional "name" (ts_nullable ts_string) [IsString; MaxLength MAX_SUBSCRIPTION_NAME_LENGTH];
   optional "endpoint_id" ts_string [IsString; MaxLength 64];
   optional "event_types" ts_strings [IsArray; Validate EventTypesConstraint];
   optional "payload_filter" (ts_nullable ts_object) [Validate PayloadFilterConstraint]].
Definition DisableSubscriptionDto : Dto := [text_filter "reason" 200].

Definition MAX_RETRY_POLICY_NAME_LENGTH : Z := 200.
Definition RETRY_STRATEGIES : list string := ["exponential"; "linear"; "constant"].
Definition number_setting (name : string) (rules : list Rule) : Property := Type_ to_number (optional name ts_number rules).
Definition CreateRetryPolicyDto : Dto :=
  [required "name" ts_string [IsString; Length 1 MAX_RETRY_POLICY_NAME_LENGTH]; optional "is_default" ts_boolean [IsBoolean];
   optional "strategy" (ts_literals RETRY_STRATEGIES) [IsIn RETRY_STRATEGIES];
   number_setting "max_attempts" (within (1, 50)); number_setting "initial_delay_ms" (within (1, 86400000));
   number_setting "max_delay_ms" (within (1, 86400000)); number_setting "multiplier" [IsNumber; Min 1; Max 100];
   number_setting "jitter_ratio" [IsNumber; Min 0; Max 1]; number_setting "max_retry_duration_ms" (within (1000, 604800000))].
Definition UpdateRetryPolicyDto : Dto := PartialType (OmitType CreateRetryPolicyDto ["is_default"]).

Definition CreateRateLimitDto : Dto :=
  [required "scope" (ts_literals RATE_LIMIT_SCOPES) [IsIn RATE_LIMIT_SCOPES];
   optional "resource_id" (ts_nullable ts_string) [ValidateIfPresent; IsString; MaxLength 64];
   Type_ to_number (required "limit" ts_number (within (1, 10000000)));
   number_setting "window_seconds" (within (1, 86400));
   Type_ to_number (optional "burst" (ts_nullable ts_number) (ValidateIfPresent :: within (1, 10000000)))].
Definition UpdateRateLimitDto : Dto := PartialType CreateRateLimitDto.

Definition CreateDestinationDto : Dto :=
  [required "kind" ts_string [IsIn ["email"]]; required "target" ts_string [IsString; Length 3 320];
   optional "label" ts_string [IsString; Length 1 200]; optional "events" ts_strings [IsArray; IsStringEach]].
Definition UpdateDestinationDto : Dto :=
  [optional "label" ts_string [IsString; Length 1 200]; optional "events" ts_strings [IsArray; IsStringEach]].
Definition ConfirmDestinationDto : Dto := [token_property 10 200].

Definition ReplayDeliveryDto : Dto := [text_filter "reason" 500].
Definition ReplayEventDto : Dto := ReplayDeliveryDto ++ [text_filter "endpoint_id" 64].
Definition RequeueOutboxDto : Dto := [text_filter "reason" 500].
Definition RequeueParkedDto : Dto := RequeueOutboxDto ++ [text_filter "event_id" 64].

(** Every request class. *)
Definition QUERY_DTOS : list Dto :=
  [PageQueryDto; ListApiKeysQueryDto; ListSecretsQueryDto; ListAttemptsQueryDto; ListProjectsQueryDto; ListEndpointsQueryDto;
   ListSubscriptionsQueryDto; ListRetryPoliciesQueryDto; ListRateLimitsQueryDto; ListOutboxQueryDto; ListEventsQueryDto;
   ListDeliveriesQueryDto; ListAuditLogsQueryDto].
Definition REQUEST_DTOS : list Dto :=
  QUERY_DTOS ++
  [AnalyticsWindowQueryDto; FailingEndpointsQueryDto; EventVolumeQueryDto; DeliverySeriesQueryDto; DeleteRetryPolicyQueryDto;
   LoginDto; RegisterDto; VerifyEmailDto; ResendVerificationDto; ForgotPasswordDto; ResetPasswordDto;
   InviteMemberDto; UpdateMemberRoleDto; AcceptInvitationDto; CreateOrganizationDto; UpdateOrganizationDto; CreateProjectDto; UpdateProjectDto;
   CreateApiKeyDto; RotateSecretDto; CreateEndpointDto; UpdateEndpointDto; DisableEndpointDto;
   CreateSubscriptionDto; UpdateSubscriptionDto; DisableSubscriptionDto; CreateRetryPolicyDto; UpdateRetryPolicyDto;
   CreateRateLimitDto; UpdateRateLimitDto; CreateDestinationDto; UpdateDestinationDto; ConfirmDestinationDto;
   ReplayDeliveryDto; ReplayEventDto; RequeueOutboxDto; RequeueParkedDto].

(** ** The pipe *)

Section Pipe.
  (** The URL parser and the policy of [rejectEndpointUrl]. *)
  Context (toInteger : jsstr → option Z) (parseURL : jsstr → option url) (policy : EgressPolicy).

(** The [validate] of the constraint classes. *)
Definition constraint_validate (c : Constraint) (value : jsval) : bool :=
  match c with
  | DeliverableUrlConstraint => bool_decide (rejectEndpointUrl toInteger parseURL value policy = None)
  | SafeCustomHeadersConstraint => bool_decide (rejectCustomHeaders value = None)
  | EventTypesConstraint => bool_decide (rejectEventTypes value = None)
  | PayloadFilterConstraint => bool_decide (rejectPayloadFilter value = None)
  end.

(** The libraries: what a rule accepts, what a conversion yields, what the pipe admits. *)
Class Validation : Type := {
  accepts : Rule → Value → bool;
  convert : Conversion → jsval → Value;
  admits : Dto → list (jsstr * jsval) → bool
}.

(** [null] and [undefined], which [IsOptional] and [ValidateIfPresent] pass over. *)
Definition absent (v : Value) : bool := match v with JS JNull | JS JUndefined => true | _ => false end.
Definition skips (p : Property) (v : Value) : bool :=
  (bool_decide (IsOptional ∈ p_rules p) || bool_decide (ValidateIfPresent ∈ p_rules p)) && absent v.
Definition value_of `{Validation} (p : Property) (body : list (jsstr * jsval)) : Value :=
  convert (p_conversion p) (field (js (p_name p)) (JObj body)).
Definition property_ok `{Validation} (p : Property) (v : Value) : bool :=
  skips p v || forallb (λ r, bool_decide (r = IsOptional) || bool_decide (r = ValidateIfPresent) || accepts r v) (p_rules p).

Class ValidationLaws `{Validation} : Prop := {
  (** whitelist, forbidNonWhitelisted, transform *)
  admits_iff d body : admits d body = true ↔
    (∀ k v, (k, v) ∈ body → ∃ p, p ∈ d ∧ k = js (p_name p)) ∧ ∀ p, p ∈ d → property_ok p (value_of p body) = true;
  convert_as_is v : convert as_is v = JS v;
  convert_boolean v : convert boolean_query v = JS (BooleanQuery v);
  convert_absent c v : c = to_number ∨ c = to_date → nullish v = true → convert c v = JS v;
  accepts_IsString v : accepts IsString v = true ↔ ∃ s, v = JS (JStr s);
  accepts_IsEmail v : accepts IsEmail v = true → ∃ s, v = JS (JStr s);
  accepts_IsISO8601 v : accepts IsISO8601 v = true → ∃ s, v = JS (JStr s);
  accepts_IsInt v : accepts IsInt v = true ↔ ∃ x z, v = JS (JNum x) ∧ integer_of x = Some z;
  accepts_IsNumber v : accepts IsNumber v = true ↔ ∃ x, v = JS (JNum x) ∧ Js.isFinite x = true;
  accepts_IsBoolean v : accepts IsBoolean v = true ↔ ∃ b, v = JS (JBool b);
  accepts_IsDate v : accepts IsDate v = true ↔ ∃ t, v = DateOf (Some t);
  accepts_IsArray v : accepts IsArray v = true ↔ ∃ l, v = JS (JArr l);
  accepts_IsObject v : accepts IsObject v = true ↔ ∃ l, v = JS (JObj l);
  accepts_IsIn l v : accepts (IsIn l) v = true ↔ ∃ s, v = JS (JStr s) ∧ s ∈ js <$> l;
  accepts_IsEnum l v : accepts (IsEnum l) v = true ↔ ∃ s, v = JS (JStr s) ∧ s ∈ js <$> l;
  accepts_IsStringEach l : accepts IsStringEach (JS (JArr l)) = true ↔ ∀ x, x ∈ l → ∃ s, x = JStr s;
  accepts_Min m x z : integer_of x = Some z → accepts (Min m) (JS (JNum x)) = (m <=? z);
  accepts_Max m x z : integer_of x = Some z → accepts (Max m) (JS (JNum x)) = (z <=? m);
  accepts_Validate c v : accepts (Validate c) (JS v) = constraint_validate c v
}.
End Pipe.
Arguments admits_iff {_ _ _ _ _}.
Arguments convert_as_is {_ _ _ _ _}.
Arguments convert_boolean {_ _ _ _ _}.
Arguments convert_absent {_ _ _ _ _}.
Arguments accepts_IsString {_ _ _ _ _}.
Arguments accepts_IsEmail {_ _ _ _ _}.
Arguments accepts_IsISO8601 {_ _ _ _ _}.
Arguments accepts_IsInt {_ _ _ _ _}.
Arguments accepts_IsNumber {_ _ _ _ _}.
Arguments accepts_IsBoolean {_ _ _ _ _}.
Arguments accepts_IsDate {_ _ _ _ _}.
Arguments accepts_IsArray {_ _ _ _ _}.
Arguments accepts_IsObject {_ _ _ _ _}.
Arguments accepts_IsIn {_ _ _ _ _}.
Arguments accepts_IsEnum {_ _ _ _ _}.
Arguments accepts_IsStringEach {_ _ _ _ _}.
Arguments accepts_Min {_ _ _ _ _}.
Arguments accepts_Max {_ _ _ _ _}.
Arguments accepts_Validate {_ _ _ _ _}.

(** ** What is admitted has the declared type *)

(** A rule that no absent value passes. *)
Definition strict (r : Rule) : bool :=
  match r with IsString | IsInt | IsNumber | IsBoolean | IsDate | IsArray | IsObject | IsEmail | IsISO8601 | IsIn _ | IsEnum _ => true | _ => false end.
Definition has_rule (rs : list Rule) (r : Rule) : bool := bool_decide (r ∈ rs).
(** The rules that give a value its type. *)
Fixpoint rules_type (t : TsType) (c : Conversion) (rs : list Rule) : bool :=
  match t with
  | ts_nullable t => rules_type t c rs
  | ts_string => existsb (λ r, match r with IsString | IsEmail | IsISO8601 | IsIn _ => true | _ => false end) rs
  | ts_number => has_rule rs IsInt || has_rule rs IsNumber
  | ts_boolean => has_rule rs IsBoolean
  | ts_date => has_rule rs IsDate
  | ts_literals l => has_rule rs (IsIn l) || has_rule rs (IsEnum l)
  | ts_strings => (has_rule rs IsArray && has_rule rs IsStringEach)
                  || (match c with as_is => true | _ => false end && has_rule rs (Validate EventTypesConstraint))
  | ts_record => match c with as_is => true | _ => false end && has_rule rs (Validate SafeCustomHeadersConstraint)
  | ts_object => match c with as_is => true | _ => false end && has_rule rs (Validate PayloadFilterConstraint)
  end.
Definition well_declared (p : Property) : bool :=
  rules_type (p_type p) (p_conversion p) (p_rules p)
  && if p_optional p then has_rule (p_rules p) IsOptional
     else negb (has_rule (p_rules p) IsOptional) && negb (has_rule (p_rules p) ValidateIfPresent) && existsb strict (p_rules p).

Section Sound.
  Context (toInteger : jsstr → option Z) (parseURL : jsstr → option url) (policy : EgressPolicy).
  Context `{V : Validation} `{L : !ValidationLaws toInteger parseURL policy}.

Lemma strict_absent r v : strict r = true → absent v = true → accepts r v = false.
Proof.
  intros Hs Ha. apply not_true_iff_false. intros H.
  destruct r; try done;
    (apply accepts_IsString in H || apply accepts_IsInt in H || apply accepts_IsNumber in H || apply accepts_IsBoolean in H
     || apply accepts_IsDate in H || apply accepts_IsArray in H || apply accepts_IsObject in H || apply accepts_IsEmail in H
     || apply accepts_IsISO8601 in H || apply accepts_IsIn in H || apply accepts_IsEnum in H);
    destruct_and?; naive_solver.
Qed.

Lemma rule_accepts p v r : property_ok p v = true → absent v = false ∨ skips p v = false → r ∈ p_rules p → r ≠ IsOptional → r ≠ ValidateIfPresent →
  accepts r v = true.
Proof.
  intros Hok Hna Hr H1 H2. unfold property_ok in Hok.
  assert (skips p v = false) as E by (destruct Hna as [Hna|]; [unfold skips; rewrite Hna; apply andb_false_r|done]).
  rewrite E in Hok. cbn in Hok. rewrite forallb_forall in Hok. specialize (Hok r ltac:(by apply list_elem_of_In)).
  by rewrite !bool_decide_eq_false_2 in Hok.
Qed.

Lemma typed_by_rules t p v : (∀ r, r ∈ p_rules p → r ≠ IsOptional → r ≠ ValidateIfPresent → accepts r v = true) →
  absent v = false → (p_conversion p = as_is → ∃ x, v = JS x) → rules_type t (p_conversion p) (p_rules p) = true → has_type t v = true.
Proof.
  intros Hr Ha Hc. induction t as [| | | |l| | | |t IH]; cbn [rules_type]; unfold has_rule.
  - intros (r & Hin%list_elem_of_In & Hm)%existsb_exists. assert (∃ s, v = JS (JStr s)) as [s ->]; [|done].
    assert (accepts r v = true) as H by (apply Hr; [done|by intros ->|by intros ->]).
    destruct r; try done; [by apply accepts_IsString|by apply accepts_IsEmail|by apply accepts_IsISO8601|].
    apply accepts_IsIn in H as (s & -> & _). by exists s.
  - intros [H|H]%orb_true_iff; apply bool_decide_eq_true_1 in H; apply Hr in H; try done.
    + apply accepts_IsInt in H as (x & z & -> & _). done.
    + apply accepts_IsNumber in H as (x & -> & _). done.
  - intros H%bool_decide_eq_true_1. apply Hr in H; try done. by apply accepts_IsBoolean in H as [b ->].
  - intros H%bool_decide_eq_true_1. apply Hr in H; try done. by apply accepts_IsDate in H as [z ->].
  - intros [H|H]%orb_true_iff; apply bool_decide_eq_true_1 in H; apply Hr in H; try done.
    + apply accepts_IsIn in H as (s & -> & Hs). by apply bool_decide_eq_true.
    + apply accepts_IsEnum in H as (s & -> & Hs). by apply bool_decide_eq_true.
  - intros [[H1 H2]%andb_true_iff|[H1 H2]%andb_true_iff]%orb_true_iff.
    + apply bool_decide_eq_true_1, Hr in H1; try done. apply bool_decide_eq_true_1, Hr in H2; try done.
      apply accepts_IsArray in H1 as [l ->]. rewrite accepts_IsStringEach in H2. cbn. apply forallb_forall.
      intros x Hx%list_elem_of_In. by destruct (H2 x Hx) as [s ->].
    + destruct (p_conversion p); try done. destruct (Hc eq_refl) as [x ->].
      apply bool_decide_eq_true_1, Hr in H2; try done. rewrite accepts_Validate in H2.
      apply bool_decide_eq_true_1 in H2. apply rejectEventTypes_None in H2 as (ps & -> & _). cbn. apply forallb_forall.
      intros y Hy%list_elem_of_In. by apply list_elem_of_fmap in Hy as (s & -> & _).
  - intros [H1 H2]%andb_true_iff. destruct (p_conversion p); try done. destruct (Hc eq_refl) as [x ->].
    apply bool_decide_eq_true_1, Hr in H2; try done. rewrite accepts_Validate in H2.
    apply bool_decide_eq_true_1 in H2. apply rejectCustomHeaders_None in H2 as [->|[->|(hs & -> & _)]]; [done|done|].
    cbn. apply forallb_forall. intros y Hy%list_elem_of_In. apply list_elem_of_fmap in Hy as (s & -> & _). by destruct s.
  - intros [H1 H2]%andb_true_iff. destruct (p_conversion p); try done. destruct (Hc eq_refl) as [x ->].
    apply bool_decide_eq_true_1, Hr in H2; try done. rewrite accepts_Validate in H2.
    apply bool_decide_eq_true_1 in H2. destruct x; done.
  - intros H. apply IH in H. cbn. by destruct v as [[]|].
Qed.

Lemma value_as_is p body : p_conversion p = as_is → ∃ x, value_of p body = JS x.
Proof. intros E. unfold value_of. rewrite E, convert_as_is. eauto. Qed.

(** A property of an admitted body. *)
Lemma property_typed p body : well_declared p = true → property_ok p (value_of p body) = true →
  (p_optional p = true ∧ absent (value_of p body) = true) ∨ has_type (p_type p) (value_of p body) = true.
Proof.
  intros [Ht Hd]%andb_true_iff Hok. set (v := value_of p body) in *.
  destruct (absent v) eqn:Ha.
  - destruct (p_optional p); [by left|]. apply andb_true_iff in Hd as [[H1 H2]%andb_true_iff Hs].
    unfold has_rule in *. rewrite negb_true_iff, bool_decide_eq_false in H1, H2.
    apply existsb_exists in Hs as (r & Hr%list_elem_of_In & Hs).
    assert (skips p v = false) as Hsk by (unfold skips; by rewrite !bool_decide_eq_false_2).
    assert (accepts r v = true) as Hacc by (eapply (rule_accepts p); eauto; by intros ->).
    by rewrite (strict_absent r v Hs Ha) in Hacc.
  - right. apply (typed_by_rules _ p); [|done|apply value_as_is|done].
    intros r Hr H1 H2. eapply (rule_accepts p); eauto.
Qed.

(** An integer the rules bound. *)
Lemma asked_integer p body (v := value_of p body) : property_ok p v = true → absent v = false → IsInt ∈ p_rules p →
  ∃ x z, v = JS (JNum x) ∧ integer_of x = Some z ∧ (∀ m, Min m ∈ p_rules p → m <= z) ∧ (∀ m, Max m ∈ p_rules p → z <= m).
Proof.
  intros Hok Ha Hint. assert (∀ r, r ∈ p_rules p → r ≠ IsOptional → r ≠ ValidateIfPresent → accepts r v = true) as Hr
    by (intros; eapply (rule_accepts p); eauto).
  pose proof (Hr IsInt Hint ltac:(done) ltac:(done)) as (x & z & E & Hz)%accepts_IsInt. exists x, z. rewrite E in Hr.
  split_and!; try done; intros m Hm; specialize (Hr _ Hm ltac:(done) ltac:(done)).
  - rewrite (accepts_Min _ _ z) in Hr by done. lia.
  - rewrite (accepts_Max _ _ z) in Hr by done. lia.
Qed.

Lemma convert_null p : absent (convert (p_conversion p) JNull) = true.
Proof.
  destruct (p_conversion p).
  - by rewrite convert_as_is.
  - by rewrite (convert_absent to_number) by (by left || done).
  - by rewrite (convert_absent to_date) by (by right || done).
  - by rewrite convert_boolean.
Qed.
Lemma null_passes p : has_rule (p_rules p) IsOptional = true → property_ok p (convert (p_conversion p) JNull) = true.
Proof.
  intros H. unfold property_ok, skips. unfold has_rule in H. by rewrite H, convert_null.
Qed.
End Sound.

(** The names of a class are its properties', once each. *)
Definition distinct_names (d : Dto) : bool := bool_decide (NoDup (js ∘ p_name <$> d)).
Lemma dtos_checked : forallb (λ d, forallb well_declared d && distinct_names d) REQUEST_DTOS = true.
Proof. vm_compute. reflexivity. Qed.
Lemma dto_checked d : d ∈ REQUEST_DTOS → (∀ p, p ∈ d → well_declared p = true) ∧ NoDup (js ∘ p_name <$> d).
Proof.
  intros Hd. pose proof dtos_checked as H. rewrite forallb_forall in H.
  specialize (H d ltac:(by apply list_elem_of_In)). apply andb_true_iff in H as [H1 H2%bool_decide_eq_true_1]. split; [|done].
  rewrite forallb_forall in H1. intros p Hp. apply H1. by apply list_elem_of_In.
Qed.

Lemma field_cons k v body key : field key (JObj ((k, v) :: body)) = if bool_decide (k = key) then v else field key (JObj body).
Proof.
  unfold field. cbn [list_find fst]. case_decide as E; [by rewrite bool_decide_eq_true_2|].
  rewrite bool_decide_eq_false_2 by done. by destruct (list_find _ body) as [[i [k' v']]|].
Qed.

(** C40. The handlers get what their signatures say, and null besides.  Of a request the pipe
    admits, every property is one its class declares; a required property has the type
    of its declaration, an optional one has it or is absent.  Absent means undefined or
    null, whether or not the declaration allows null: adding a null for any optional
    property to an admitted request leaves it admitted. *)
Theorem declared_types_hold (toInteger : jsstr → option Z) (parseURL : jsstr → option url) (policy : EgressPolicy)
  `{V : Validation} (L : ValidationLaws toInteger parseURL policy) (d : Dto) (p : Property) (body : list (jsstr * jsval))
  (Hd : d ∈ REQUEST_DTOS) (Hp : p ∈ d) (Hbody : admits d body = true) :
  (∀ k v, (k, v) ∈ body → ∃ p', p' ∈ d ∧ k = js (p_name p'))
  ∧ (p_optional p = false → has_type (p_type p) (value_of p body) = true)
  ∧ (p_optional p = true → absent (value_of p body) = true ∨ has_type (p_type p) (value_of p body) = true)
  ∧ (p_optional p = true → js (p_name p) ∉ body.*1 → admits d ((js (p_name p), JNull) :: body) = true).
Proof.
  destruct (dto_checked d Hd) as [Hw Hnd]. pose proof (proj1 (@admits_iff toInteger parseURL policy V L d body) Hbody) as [Hk Hok].
  pose proof (property_typed toInteger parseURL policy p body (Hw p Hp) (Hok p Hp)) as Ht.
  split_and!; [done|by destruct Ht as [[E _]|]; congruence|by destruct Ht as [[_ H]|H]; auto|].
  intros Ho Hn. apply (@admits_iff toInteger parseURL policy V L). split.
  - intros k v [[= -> ->]|Hin]%elem_of_cons; eauto.
  - intros p' Hp'. unfold value_of. rewrite field_cons. case_bool_decide as E.
    + assert (p' = p) as ->.
      { apply list_elem_of_lookup in Hp as [i Hi]. apply list_elem_of_lookup in Hp' as [j Hj].
        assert (i = j) as ->; [|congruence]. eapply NoDup_lookup; [exact Hnd| |]; rewrite list_lookup_fmap; [by rewrite Hi|by rewrite Hj; cbn; rewrite E]. }
      apply (null_passes toInteger parseURL policy). specialize (Hw p Hp). unfold well_declared in Hw. rewrite Ho in Hw. by apply andb_true_iff in Hw as [_ H].
    + by apply Hok.
Qed.

(** The page that is asked for is the page that is served.  A list request the pipe
    admits asks for a whole number of rows between one and the ceiling and for a start
    that is not negative, or says nothing of either; what it asks for reaches the
    statement unclamped. *)
Theorem page_asked_is_served (toInteger : jsstr → option Z) (parseURL : jsstr → option url) (policy : EgressPolicy)
  `{V : Validation} (L : ValidationLaws toInteger parseURL policy) (d : Dto) (body : list (jsstr * jsval))
  (Hd : d ∈ QUERY_DTOS) (Hbody : admits d body = true) :
  (absent (value_of (limit_of MAX_PAGE_SIZE) body) = true
   ∨ ∃ x z, value_of (limit_of MAX_PAGE_SIZE) body = JS (JNum x) ∧ integer_of x = Some z ∧ 1 <= z <= 200 ∧ pageSize (Some (int z)) = z)
  ∧ (absent (value_of offset_of body) = true
     ∨ ∃ x z, value_of offset_of body = JS (JNum x) ∧ integer_of x = Some z ∧ 0 <= z ∧ TenantScope.offset (Some (int z)) = Some z).
Proof.
  assert (limit_of MAX_PAGE_SIZE ∈ d ∧ offset_of ∈ d) as [Hl Ho].
  { unfold QUERY_DTOS in Hd. repeat (apply elem_of_cons in Hd as [->|Hd]; [split; vm_compute; set_solver|]). by apply not_elem_of_nil in Hd. }
  apply (@admits_iff toInteger parseURL policy V L) in Hbody as [_ Hok]. pose proof (Hok _ Hl) as Hokl. pose proof (Hok _ Ho) as Hoko. clear Hok.
  split.
  - destruct (absent _) eqn:Ha; [by left|right].
    destruct (asked_integer toInteger parseURL policy _ _ Hokl Ha) as (x & z & E & Hz & Hmin & Hmax); [vm_compute; set_solver|].
    assert (1 <= z) by (apply Hmin; vm_compute; set_solver). assert (z <= MAX_PAGE_SIZE) by (apply Hmax; vm_compute; set_solver).
    exists x, z. unfold MAX_PAGE_SIZE in *. split_and!; try done. unfold pageSize, int, MAX_PAGE_SIZE. rewrite Qfloor_Z. lia.
  - destruct (absent (value_of offset_of body)) eqn:Ha; [by left|right].
    destruct (asked_integer toInteger parseURL policy _ _ Hoko Ha) as (x & z & E & Hz & Hmin & _); [vm_compute; set_solver|].
    assert (0 <= z) by (apply Hmin; vm_compute; set_solver).
    exists x, z. split_and!; try done. by apply offset_int.
Qed.

(** ** Witnesses *)

(** Rules and conversions as the libraries have them, but for the forms of an email address
    and of an instant, for which a character stands in, for the conversions of other values
    than numbers, and for the rules on the elements of an array, which accept nothing. *)
Definition rq_accepts (r : Rule) (v : Value) : bool :=
  match r, v with
  | IsString, JS (JStr _) => true
  | (IsEmail | IsISO8601), JS (JStr s) => negb (bool_decide (s = []))
  | IsInt, JS (JNum x) => if integer_of x is Some _ then true else false
  | IsNumber, JS (JNum x) => Js.isFinite x
  | IsBoolean, JS (JBool _) | IsDate, DateOf (Some _) | IsArray, JS (JArr _) | IsObject, JS (JObj _) => true
  | (IsIn l | IsEnum l), JS (JStr s) => bool_decide (s ∈ js <$> l)
  | IsStringEach, JS (JArr l) => forallb (λ x, if x is JStr _ then true else false) l
  | Length lo hi, JS (JStr s) => (lo <=? jslen s) && (jslen s <=? hi)
  | MinLength lo, JS (JStr s) => lo <=? jslen s
  | MaxLength hi, JS (JStr s) => jslen s <=? hi
  | Min m, JS (JNum x) => if integer_of x is Some z then m <=? z else false
  | Max m, JS (JNum x) => if integer_of x is Some z then z <=? m else false
  | MatchesSlug, JS (JStr s) => SLUG_PATTERN s
  | ArrayMaxSize n, JS (JArr l) => Z.of_nat (length l) <=? n
  | Validate c, JS v => constraint_validate (λ _, None) (λ _, None) (egressPolicyFromEnv None None) c v
  | _, _ => false
  end.
Definition rq_convert (c : Conversion) (v : jsval) : Value :=
  match c with
  | boolean_query => JS (BooleanQuery v)
  | to_date => if nullish v then JS v else DateOf None
  | _ => JS v
  end.
#[export] Instance rq_validation : Validation := {
  accepts := rq_accepts;
  convert := rq_convert;
  admits d body :=
    forallb (λ kv : jsstr * jsval, existsb (λ p, bool_decide (kv.1 = js (p_name p))) d) body
    && forallb (λ p, let v := rq_convert (p_conversion p) (field (js (p_name p)) (JObj body)) in
         (bool_decide (IsOptional ∈ p_rules p) || bool_decide (ValidateIfPresent ∈ p_rules p)) && absent v
         || forallb (λ r, bool_decide (r = IsOptional) || bool_decide (r = ValidateIfPresent) || rq_accepts r v) (p_rules p)) d
}.

Lemma all_strings l : forallb (λ x, if x is JStr _ then true else false) l = true ↔ ∀ x, x ∈ l → ∃ s, x = JStr s.
Proof.
  rewrite forallb_forall. setoid_rewrite <- list_elem_of_In. split; intros H x Hx; specialize (H x Hx).
  - destruct x; try done. eauto.
  - by destruct H as [s ->].
Qed.
#[export] Instance rq_laws : ValidationLaws (λ _, None) (λ _, None) (egressPolicyFromEnv None None).
Proof.
  split.
  - intros d body. cbn [admits rq_validation]. rewrite andb_true_iff, !forallb_forall. setoid_rewrite <- list_elem_of_In.
    split; intros [H1 H2]; (split; [|intros p Hp; by apply (H2 p)]).
    + intros k v Hin. specialize (H1 _ Hin). apply existsb_exists in H1 as (p & Hp%list_elem_of_In & E%bool_decide_eq_true_1). eauto.
    + intros [k v] Hin. destruct (H1 _ _ Hin) as (p & Hp & E). apply existsb_exists. exists p. split; [by apply list_elem_of_In|].
      by apply bool_decide_eq_true.
  - done.
  - done.
  - intros c v [-> | ->] Hv; cbn; [done|by rewrite Hv].
  - intros [[]|]; cbn; naive_solver.
  - intros [[]|]; cbn; naive_solver.
  - intros [[]|]; cbn; naive_solver.
  - intros [[| | |x| | |]|]; cbn; try naive_solver. destruct (integer_of x) eqn:E; naive_solver.
  - intros [[]|]; cbn; naive_solver.
  - intros [[]|]; cbn; naive_solver.
  - intros [[]|[]]; cbn; naive_solver.
  - intros [[]|]; cbn; naive_solver.
  - intros [[]|]; cbn; naive_solver.
  - intros l [[]|]; cbn; try naive_solver. rewrite bool_decide_eq_true. naive_solver.
  - intros l [[]|]; cbn; try naive_solver. rewrite bool_decide_eq_true. naive_solver.
  - exact all_strings.
  - intros m x z E. cbn. by rewrite E.
  - intros m x z E. cbn. by rewrite E.
  - done.
Qed.

(** The renaming of a project, and a page of ten events. *)
Definition rq_rename : list (jsstr * jsval) := [(js "slug", JStr (js "billing"))].
Definition rq_page : list (jsstr * jsval) := [(js "status", JStr (js "failed")); (js "limit", JNum (NFin false 1 2))].

Example renaming_with_null : admits UpdateProjectDto ((js "name", JNull) :: rq_rename) = true.
Proof. vm_compute. reflexivity. Qed.
Example creating_with_null : admits CreateProjectDto ((js "name", JNull) :: rq_rename) = false.
Proof. vm_compute. reflexivity. Qed.

Lemma declared_types_hold_witness :
  admits UpdateProjectDto rq_rename = true ∧ admits UpdateProjectDto ((js "name", JNull) :: rq_rename) = true.
Proof.
  split; [vm_compute; reflexivity|].
  refine (proj2 (proj2 (proj2 (declared_types_hold (λ _, None) (λ _, None) (egressPolicyFromEnv None None) rq_laws UpdateProjectDto
    (optional "name" ts_string [IsString; Length 1 PROJECT_NAME_MAX_LENGTH]) rq_rename _ _ _))) _ _).
  - exact (list_elem_of_lookup_2 REQUEST_DTOS 30 _ eq_refl).
  - unfold UpdateProjectDto. left.
  - vm_compute. reflexivity.
  - reflexivity.
  - apply (bool_decide_unpack _). vm_compute. reflexivity.
Defined.

Lemma page_asked_is_served_witness :
  admits ListEventsQueryDto rq_page = true
  ∧ ∃ x z, value_of (limit_of MAX_PAGE_SIZE) rq_page = JS (JNum x) ∧ integer_of x = Some z ∧ 1 <= z <= 200 ∧ pageSize (Some (int z)) = z.
Proof.
  split; [vm_compute; reflexivity|].
  destruct (proj1 (page_asked_is_served (λ _, None) (λ _, None) (egressPolicyFromEnv None None) rq_laws ListEventsQueryDto rq_page
    (list_elem_of_lookup_2 QUERY_DTOS 10 _ eq_refl) ltac:(vm_compute; reflexivity))) as [H|H]; [vm_compute in H; discriminate H|exact H].
Defined.
