(* ===== verification/ConsoleRequests.v ===== *)
(** What the console asks of the control plane: lib/query-keys.ts and the hooks of
    features/*/api.ts (projects, auth, team, organizations, members, endpoints, secrets,
    api-keys, subscriptions, retry-policies, rate-limits, notifications, events,
    deliveries, outbox, audit, analytics, billing).

    A query is a cache key, a request and whether it is sent; a mutation is a request and
    what its success does to the cache.  A path is given by its pieces; the query string
    by its names and values, of which the empty and the absent ones are not sent
    ([queryString]).  The cache is TanStack Query's: how it matches a key against the
    key of an invalidation is a parameter, with the documented law that a key of texts
    matches the keys it is a prefix of. *)
From Stdlib Require Import ZArith Lia Ascii.
From stdpp Require Import pretty.
From S2P Require Import Prelude Permissions TenantScope Routes ConsoleDeliveries.
Open Scope Z_scope.

(** ** Keys *)

(** A member of a key: a text, or an object.  The hash of a key is its JSON, in which a
    field that is [undefined] does not appear. *)
Inductive KeyValue : Type := kv_number (z : Z) | kv_boolean (b : bool) | kv_text (s : string).
Inductive KeyPart : Type := KText (s : string) | KObject (fields : list (string * KeyValue)).
Notation Key := (list KeyPart).
Definition kobject (fields : list (string * option KeyValue)) : KeyPart :=
  KObject (omap (λ kv : string * option KeyValue, pair kv.1 <$> kv.2) fields).
(** The texts a key begins with. *)
Definition texts (l : list string) : Key := KText <$> l.
Definition paged (offset : Z) : KeyPart := kobject [("offset", Some (kv_number offset))].

(** ** Requests *)

(** The body of a request is whatever the caller hands over. *)
Record ConsoleRequest (B : Type) : Type := MkConsoleRequest {
  rq_method : Method;
  rq_path : list string;                        (** the pieces after the first slash *)
  rq_query : list (string * option string);
  rq_body : option B
}.
Arguments MkConsoleRequest {B}.
Arguments rq_method {B}.
Arguments rq_path {B}.
Arguments rq_query {B}.
Arguments rq_body {B}.

(** The parameters [queryString] writes. *)
Definition rq_sent {B} (r : ConsoleRequest B) : list (string * string) :=
  omap (λ kv : string * option string, if kv.2 is Some v then if bool_decide (v = "") then None else Some (kv.1, v) else None) (rq_query r).

(** What the success of a mutation does to the cache. *)
Inductive CacheEffect : Type :=
| invalidateQueries (key : Key)
| removeQueries (key : Key)
| setQueryData (key : Key)
| clear.

(** A query has no body; [enabled: undefined] is enabled. *)
Record QueryHook : Type := MkQueryHook { queryKey : Key; queryFn : ConsoleRequest Empty_set; enabled : bool }.
Record MutationHook (B : Type) : Type := MkMutationHook { mutationFn : ConsoleRequest B; onSuccess : list CacheEffect }.
Arguments MkMutationHook {B}.
Arguments mutationFn {B}.
Arguments onSuccess {B}.

Definition api_get (path : list string) (query : list (string * option string)) : ConsoleRequest Empty_set := MkConsoleRequest GET path query None.
Definition api_post {B} (path : list string) (body : option B) : ConsoleRequest B := MkConsoleRequest POST path [] body.
Definition api_patch {B} (path : list string) (body : B) : ConsoleRequest B := MkConsoleRequest PATCH path [] (Some body).
Definition api_delete {B} (path : list string) (query : list (string * option string)) : ConsoleRequest B := MkConsoleRequest DELETE path query None.

(** [Boolean(s)] *)
Definition truthy (s : string) : bool := negb (bool_decide (s = "")).

(** ** lib/query-keys.ts *)

Definition qk_session : Key := texts ["session"].
Definition qk_organizationsRoot : Key := texts ["organizations"].
Definition qk_organizations (offset : Z) : Key := texts ["organizations"] ++ [paged offset].
Definition qk_organization (orgId : string) : Key := texts ["organization"; orgId].
Definition qk_membersRoot (orgId : string) : Key := texts ["organization"; orgId; "members"].
Definition qk_members (orgId : string) (offset : Z) : Key := texts ["organization"; orgId; "members"] ++ [paged offset].
Definition qk_auditLogsRoot (orgId : string) : Key := texts ["organization"; orgId; "audit-logs"].
Definition qk_auditLogs (orgId : string) (filters : KeyPart) (offset : Z) : Key :=
  texts ["organization"; orgId; "audit-logs"] ++ [filters; paged offset].
Definition qk_projectsRoot (orgId : string) : Key := texts ["projects"; orgId].
Definition qk_projects (orgId : string) (offset : Z) : Key := texts ["projects"; orgId] ++ [paged offset].
Definition qk_project (projectId : string) : Key := texts ["project"; projectId].
Definition qk_endpointsRoot (projectId : string) : Key := texts ["project"; projectId; "endpoints"].
Definition qk_endpoints (projectId : string) (offset : Z) (includeDeleted : option bool) : Key :=
  texts ["project"; projectId; "endpoints"] ++ [kobject [("offset", Some (kv_number offset)); ("includeDeleted", Some (kv_boolean (default false includeDeleted)))]].
Definition qk_endpoint (endpointId : string) : Key := texts ["endpoint"; endpointId].
Definition qk_endpointSecretsRoot (endpointId : string) : Key := texts ["endpoint"; endpointId; "secrets"].
Definition qk_endpointSecrets (endpointId : string) (offset : Z) : Key := texts ["endpoint"; endpointId; "secrets"] ++ [paged offset].
Definition qk_apiKeysRoot (projectId : string) : Key := texts ["project"; projectId; "api-keys"].
Definition qk_apiKeys (projectId : string) (offset : Z) : Key := texts ["project"; projectId; "api-keys"] ++ [paged offset].
Definition qk_subscriptionsRoot (projectId : string) : Key := texts ["project"; projectId; "subscriptions"].
Definition qk_subscriptions (projectId : string) (offset : Z) : Key := texts ["project"; projectId; "subscriptions"] ++ [paged offset].
Definition qk_retryPoliciesRoot (projectId : string) : Key := texts ["project"; projectId; "retry-policies"].
Definition qk_retryPolicies (projectId : string) (offset : Z) : Key := texts ["project"; projectId; "retry-policies"] ++ [paged offset].
Definition qk_retryPolicy (projectId policyId : string) : Key := texts ["project"; projectId; "retry-policy"; policyId].
Definition qk_rateLimitsRoot (projectId : string) : Key := texts ["project"; projectId; "rate-limits"].
Definition qk_rateLimits (projectId : string) (offset : Z) : Key := texts ["project"; projectId; "rate-limits"] ++ [paged offset].
Definition qk_analyticsRoot (projectId : string) : Key := texts ["project"; projectId; "analytics"].
Definition qk_analyticsDeliveries (projectId : string) (windowHours : Z) : Key :=
  texts ["project"; projectId; "analytics"; "deliveries"] ++ [kobject [("windowHours", Some (kv_number windowHours))]].
Definition qk_billing (orgId : string) : Key := texts ["org"; orgId; "billing"].
Definition qk_notificationDestinations (projectId : string) : Key := texts ["project"; projectId; "notification-destinations"].
Definition qk_analyticsSeries (projectId : string) (windowHours : Z) (bucket : option string) : Key :=
  texts ["project"; projectId; "analytics"; "deliveries"; "series"] ++ [kobject [("windowHours", Some (kv_number windowHours)); ("bucket", kv_text <$> bucket)]].
Definition qk_analyticsEndpoints (projectId : string) (windowHours limit : Z) : Key :=
  texts ["project"; projectId; "analytics"; "endpoints"] ++ [kobject [("windowHours", Some (kv_number windowHours)); ("limit", Some (kv_number limit))]].
Definition qk_analyticsLatency (projectId : string) (windowHours : Z) : Key :=
  texts ["project"; projectId; "analytics"; "latency"] ++ [kobject [("windowHours", Some (kv_number windowHours))]].
Definition qk_analyticsEvents (projectId : string) (windowHours limit : Z) : Key :=
  texts ["project"; projectId; "analytics"; "events"] ++ [kobject [("windowHours", Some (kv_number windowHours)); ("limit", Some (kv_number limit))]].
Definition qk_eventsRoot (projectId : string) : Key := texts ["project"; projectId; "events"].
Definition qk_events (projectId : string) (filters : KeyPart) (offset : Z) : Key := texts ["project"; projectId; "events"] ++ [filters; paged offset].
Definition qk_event (projectId eventId : string) : Key := texts ["project"; projectId; "event"; eventId].
Definition qk_eventDeliveries (projectId eventId : string) : Key := texts ["project"; projectId; "event"; eventId; "deliveries"].
Definition qk_deliveriesRoot (projectId : string) : Key := texts ["project"; projectId; "deliveries"].
Definition qk_deliveries (projectId : string) (filters : KeyPart) (offset : Z) : Key :=
  texts ["project"; projectId; "deliveries"] ++ [filters; paged offset].
Definition qk_delivery (projectId deliveryId : string) : Key := texts ["project"; projectId; "delivery"; deliveryId].
Definition qk_deliveryAttempts (projectId deliveryId : string) : Key := texts ["project"; projectId; "delivery"; deliveryId; "attempts"].
Definition qk_outboxRoot (projectId : string) : Key := texts ["project"; projectId; "outbox"].
Definition qk_outbox (projectId : string) (filters : KeyPart) (offset : Z) : Key := texts ["project"; projectId; "outbox"] ++ [filters; paged offset].
Definition qk_outboxEntry (projectId outboxId : string) : Key := texts ["project"; projectId; "outbox-entry"; outboxId].

(** ** The hooks *)

(** [...pageParams(offset)] of a request. *)
Definition page_query (offset : Z) : list (string * option string) :=
  let p := pageParams offset None in [("limit", Some (pretty p.1)); ("offset", pretty <$> p.2)].

(** features/auth/api.ts *)
Definition useSession : QueryHook := MkQueryHook qk_session (api_get ["v1"; "auth"; "session"] []) true.

Section Bodies.
  (** The bodies the forms hand over. *)
  Context {B : Type}.

Definition useLogin (body : B) : MutationHook B := MkMutationHook (api_post ["v1"; "auth"; "login"] (Some body)) [setQueryData qk_session].
Definition useRegister (body : B) : MutationHook B := MkMutationHook (api_post ["v1"; "auth"; "register"] (Some body)) [].
Definition useVerifyEmail (body : B) : MutationHook B := MkMutationHook (api_post ["v1"; "auth"; "verify-email"] (Some body)) [].
Definition useResendVerification (body : B) : MutationHook B := MkMutationHook (api_post ["v1"; "auth"; "resend-verification"] (Some body)) [].
Definition useCompleteOnboarding : MutationHook B :=
  MkMutationHook (api_post ["v1"; "auth"; "onboarding-completed"] None) [setQueryData qk_session; invalidateQueries qk_session].
Definition useForgotPassword (body : B) : MutationHook B := MkMutationHook (api_post ["v1"; "auth"; "forgot-password"] (Some body)) [].
Definition useResetPassword (body : B) : MutationHook B := MkMutationHook (api_post ["v1"; "auth"; "reset-password"] (Some body)) [].
Definition useLogout : MutationHook B := MkMutationHook (api_post ["v1"; "auth"; "logout"] None) [clear].

(** features/team/api.ts *)
Definition useAcceptInvitation (body : B) : MutationHook B :=
  MkMutationHook (api_post ["v1"; "invitations"; "accept"] (Some body)) [invalidateQueries qk_organizationsRoot].

(** features/organizations/api.ts *)
Definition useCreateOrganization (body : B) : MutationHook B :=
  MkMutationHook (api_post ["v1"; "organizations"] (Some body)) [invalidateQueries qk_organizationsRoot; invalidateQueries qk_session].
Definition useUpdateOrganization (orgId : string) (body : B) : MutationHook B :=
  MkMutationHook (api_patch ["v1"; "organizations"; orgId] body)
    [invalidateQueries (qk_organization orgId); invalidateQueries qk_organizationsRoot; invalidateQueries qk_session].
Definition useDeleteOrganization (orgId : string) : MutationHook B :=
  MkMutationHook (api_delete ["v1"; "organizations"; orgId] [])
    [removeQueries qk_organizationsRoot; removeQueries (qk_organization orgId); invalidateQueries qk_session].
Definition useInviteMember (orgId : string) (body : B) : MutationHook B :=
  MkMutationHook (api_post ["v1"; "organizations"; orgId; "members"] (Some body)) [invalidateQueries (qk_membersRoot orgId)].
Definition useUpdateMemberRole (orgId memberId : string) (role : B) : MutationHook B :=
  MkMutationHook (api_patch ["v1"; "organizations"; orgId; "members"; memberId] role) [invalidateQueries (qk_membersRoot orgId)].
Definition useRemoveMember (orgId memberId : string) : MutationHook B :=
  MkMutationHook (api_delete ["v1"; "organizations"; orgId; "members"; memberId] []) [invalidateQueries (qk_membersRoot orgId)].

(** features/projects/api.ts *)
Definition useCreateProject (orgId : string) (body : B) : MutationHook B :=
  MkMutationHook (api_post ["v1"; "organizations"; orgId; "projects"] (Some body)) [invalidateQueries (qk_projectsRoot orgId)].
Definition useUpdateProject (orgId projectId : string) (body : B) : MutationHook B :=
  MkMutationHook (api_patch ["v1"; "organizations"; orgId; "projects"; projectId] body)
    [invalidateQueries (qk_project projectId); invalidateQueries (qk_projectsRoot orgId)].
Definition useDeleteProject (orgId projectId : string) : MutationHook B :=
  MkMutationHook (api_delete ["v1"; "organizations"; orgId; "projects"; projectId] [])
    [removeQueries (qk_project projectId); removeQueries (qk_projectsRoot orgId)].

(** features/endpoints/api.ts *)
Definition useCreateEndpoint (projectId : string) (body : B) : MutationHook B :=
  MkMutationHook (api_post ["v1"; "projects"; projectId; "endpoints"] (Some body)) [invalidateQueries (qk_endpointsRoot projectId)].
Definition useEndpointInvalidation (projectId endpointId : string) : list CacheEffect :=
  [invalidateQueries (qk_endpoint endpointId); invalidateQueries (qk_endpointsRoot projectId)].
Definition useUpdateEndpoint (projectId endpointId : string) (body : B) : MutationHook B :=
  MkMutationHook (api_patch ["v1"; "projects"; projectId; "endpoints"; endpointId] body) (useEndpointInvalidation projectId endpointId).
Definition useEnableEndpoint (projectId endpointId : string) : MutationHook B :=
  MkMutationHook (api_post ["v1"; "projects"; projectId; "endpoints"; endpointId; "enable"] None) (useEndpointInvalidation projectId endpointId).
Definition useDisableEndpoint (projectId endpointId : string) (body : B) : MutationHook B :=
  MkMutationHook (api_post ["v1"; "projects"; projectId; "endpoints"; endpointId; "disable"] (Some body)) (useEndpointInvalidation projectId endpointId).
Definition useDeleteEndpoint (projectId endpointId : string) : MutationHook B :=
  MkMutationHook (api_delete ["v1"; "projects"; projectId; "endpoints"; endpointId] []) (useEndpointInvalidation projectId endpointId).
Definition useSecretInvalidation (endpointId : string) : list CacheEffect :=
  [invalidateQueries (qk_endpointSecretsRoot endpointId); invalidateQueries (qk_endpoint endpointId); invalidateQueries (texts ["project"])].
Definition useRotateSecret (endpointId : string) (body : B) : MutationHook B :=
  MkMutationHook (api_post ["v1"; "endpoints"; endpointId; "secrets"; "rotate"] (Some body)) (useSecretInvalidation endpointId).
Definition useRevokeSecret (endpointId secretId : string) : MutationHook B :=
  MkMutationHook (api_delete ["v1"; "endpoints"; endpointId; "secrets"; secretId] []) (useSecretInvalidation endpointId).

(** features/api-keys/api.ts *)
Definition useCreateApiKey (projectId : string) (body : B) : MutationHook B :=
  MkMutationHook (api_post ["v1"; "projects"; projectId; "api-keys"] (Some body)) [invalidateQueries (qk_apiKeysRoot projectId)].
Definition useRevokeApiKey (projectId apiKeyId : string) : MutationHook B :=
  MkMutationHook (api_post ["v1"; "projects"; projectId; "api-keys"; apiKeyId; "revoke"] None) [invalidateQueries (qk_apiKeysRoot projectId)].

(** features/subscriptions/api.ts *)
Definition useSubscriptionInvalidation (projectId : string) : list CacheEffect := [invalidateQueries (qk_subscriptionsRoot projectId)].
Definition useCreateSubscription (projectId : string) (body : B) : MutationHook B :=
  MkMutationHook (api_post ["v1"; "projects"; projectId; "subscriptions"] (Some body)) (useSubscriptionInvalidation projectId).
Definition useUpdateSubscription (projectId subscriptionId : string) (body : B) : MutationHook B :=
  MkMutationHook (api_patch ["v1"; "projects"; projectId; "subscriptions"; subscriptionId] body) (useSubscriptionInvalidation projectId).
Definition useEnableSubscription (projectId subscriptionId : string) : MutationHook B :=
  MkMutationHook (api_post ["v1"; "projects"; projectId; "subscriptions"; subscriptionId; "enable"] None) (useSubscriptionInvalidation projectId).
Definition useDisableSubscription (projectId subscriptionId : string) (body : B) : MutationHook B :=
  MkMutationHook (api_post ["v1"; "projects"; projectId; "subscriptions"; subscriptionId; "disable"] (Some body)) (useSubscriptionInvalidation projectId).
Definition useDeleteSubscription (projectId subscriptionId : string) : MutationHook B :=
  MkMutationHook (api_delete ["v1"; "projects"; projectId; "subscriptions"; subscriptionId] []) (useSubscriptionInvalidation projectId).

(** features/retry-policies/api.ts *)
Definition useRetryPolicyInvalidation (projectId : string) (policyId : option string) : list CacheEffect :=
  [invalidateQueries (qk_retryPoliciesRoot projectId)]
  ++ match policyId with
     | Some policyId => if truthy policyId then [invalidateQueries (qk_retryPolicy projectId policyId)] else []
     | None => []
     end
  ++ [invalidateQueries (qk_endpointsRoot projectId)].
Definition useCreateRetryPolicy (projectId : string) (body : B) : MutationHook B :=
  MkMutationHook (api_post ["v1"; "projects"; projectId; "retry-policies"] (Some body)) (useRetryPolicyInvalidation projectId None).
Definition useUpdateRetryPolicy (projectId policyId : string) (body : B) : MutationHook B :=
  MkMutationHook (api_patch ["v1"; "projects"; projectId; "retry-policies"; policyId] body) (useRetryPolicyInvalidation projectId (Some policyId)).
Definition useSetDefaultRetryPolicy (projectId policyId : string) : MutationHook B :=
  MkMutationHook (api_post ["v1"; "projects"; projectId; "retry-policies"; policyId; "default"] None)
    (useRetryPolicyInvalidation projectId (Some policyId)).
Definition useDeleteRetryPolicy (projectId policyId : string) (replacementId : option string) : MutationHook B :=
  MkMutationHook (api_delete ["v1"; "projects"; projectId; "retry-policies"; policyId] [("replacement_id", replacementId)])
    (useRetryPolicyInvalidation projectId (Some policyId)).

(** features/rate-limits/api.ts *)
Definition useRateLimitInvalidation (projectId : string) : list CacheEffect := [invalidateQueries (qk_rateLimitsRoot projectId)].
Definition useCreateRateLimit (projectId : string) (body : B) : MutationHook B :=
  MkMutationHook (api_post ["v1"; "projects"; projectId; "rate-limits"] (Some body)) (useRateLimitInvalidation projectId).
Definition useUpdateRateLimit (projectId policyId : string) (body : B) : MutationHook B :=
  MkMutationHook (api_patch ["v1"; "projects"; projectId; "rate-limits"; policyId] body) (useRateLimitInvalidation projectId).
Definition useDeleteRateLimit (projectId policyId : string) : MutationHook B :=
  MkMutationHook (api_delete ["v1"; "projects"; projectId; "rate-limits"; policyId] []) (useRateLimitInvalidation projectId).

(** features/notifications/api.ts *)
Definition notifications_base (projectId : string) : list string := ["v1"; "projects"; projectId; "notification-destinations"].
Definition useCreateDestination (projectId : string) (body : B) : MutationHook B :=
  MkMutationHook (api_post (notifications_base projectId) (Some body)) [invalidateQueries (qk_notificationDestinations projectId)].
Definition useUpdateDestination (projectId destinationId : string) (body : B) : MutationHook B :=
  MkMutationHook (api_patch (notifications_base projectId ++ [destinationId]) body) [invalidateQueries (qk_notificationDestinations projectId)].
Definition useDeleteDestination (projectId destinationId : string) : MutationHook B :=
  MkMutationHook (api_delete (notifications_base projectId ++ [destinationId]) []) [invalidateQueries (qk_notificationDestinations projectId)].
Definition useResendConfirmation (projectId destinationId : string) (empty : B) : MutationHook B :=
  MkMutationHook (api_post (notifications_base projectId ++ [destinationId; "resend"]) (Some empty))
    [invalidateQueries (qk_notificationDestinations projectId)].
Definition useTestDestination (projectId destinationId : string) (empty : B) : MutationHook B :=
  MkMutationHook (api_post (notifications_base projectId ++ [destinationId; "test"]) (Some empty))
    [invalidateQueries (qk_notificationDestinations projectId)].
Definition useConfirmDestination (token : B) : MutationHook B :=
  MkMutationHook (api_post ["v1"; "notification-destinations"; "confirm"] (Some token)) [].

(** features/events/api.ts *)
Definition useReplayEvent (projectId eventId : string) (body : B) : MutationHook B :=
  MkMutationHook (api_post ["v1"; "projects"; projectId; "events"; eventId; "replay"] (Some body))
    [invalidateQueries (qk_eventDeliveries projectId eventId); invalidateQueries (qk_event projectId eventId);
     invalidateQueries (qk_deliveriesRoot projectId)].

(** features/deliveries/api.ts *)
Definition useReplayDelivery (projectId deliveryId : string) (body : B) : MutationHook B :=
  MkMutationHook (api_post ["v1"; "projects"; projectId; "deliveries"; deliveryId; "replay"] (Some body))
    [invalidateQueries (qk_delivery projectId deliveryId); invalidateQueries (qk_deliveryAttempts projectId deliveryId);
     invalidateQueries (qk_deliveriesRoot projectId)].

(** features/outbox/api.ts; the event ids are those of the response. *)
Definition invalidateAfterRequeue (projectId : string) (eventIds : list string) : list CacheEffect :=
  [invalidateQueries (qk_outboxRoot projectId); invalidateQueries (qk_eventsRoot projectId); invalidateQueries (qk_deliveriesRoot projectId)]
  ++ (eventIds ≫= λ eventId, [invalidateQueries (qk_event projectId eventId); invalidateQueries (qk_eventDeliveries projectId eventId)]).
Definition useRequeueOutboxEntry (projectId outboxId : string) (body : B) (entry_event_id : string) : MutationHook B :=
  MkMutationHook (api_post ["v1"; "projects"; projectId; "outbox"; outboxId; "requeue"] (Some body))
    (invalidateAfterRequeue projectId [entry_event_id]).
Definition useRequeueParked (projectId : string) (body : B) (result_event_ids : list string) : MutationHook B :=
  MkMutationHook (api_post ["v1"; "projects"; projectId; "outbox"; "requeue"] (Some body)) (invalidateAfterRequeue projectId result_event_ids).
End Bodies.

(** *** Queries *)

Definition useOrganizations (offset : Z) : QueryHook :=
  MkQueryHook (qk_organizations offset) (api_get ["v1"; "organizations"] (page_query offset)) true.
Definition useOrganization (orgId : string) : QueryHook :=
  MkQueryHook (qk_organization orgId) (api_get ["v1"; "organizations"; orgId] []) (truthy orgId).
Definition useMembers (orgId : string) (offset : Z) : QueryHook :=
  MkQueryHook (qk_members orgId offset) (api_get ["v1"; "organizations"; orgId; "members"] (page_query offset)) (truthy orgId).

Record AuditFilters : Type := MkAuditFilters {
  af_action : option string; af_resource_type : option string; af_resource_id : option string;
  af_user_id : option string; af_created_after : option string; af_created_before : option string
}.
(** A spread of the filters: their names and values. *)
Definition audit_filters (f : AuditFilters) : list (string * option string) :=
  [("action", af_action f); ("resource_type", af_resource_type f); ("resource_id", af_resource_id f);
   ("user_id", af_user_id f); ("created_after", af_created_after f); ("created_before", af_created_before f)].
(** Filters of texts, as a member of a key. *)
Definition filter_key (l : list (string * option string)) : KeyPart :=
  kobject (map (λ kv : string * option string, (kv.1, kv_text <$> kv.2)) l).
Definition useAuditLogs (orgId : string) (filters : AuditFilters) (offset : Z) : QueryHook :=
  MkQueryHook (qk_auditLogs orgId (filter_key (audit_filters filters)) offset)
    (api_get ["v1"; "organizations"; orgId; "audit-logs"] (audit_filters filters ++ page_query offset)) (truthy orgId).

Definition useProjects (orgId : string) (offset : Z) : QueryHook :=
  MkQueryHook (qk_projects orgId offset) (api_get ["v1"; "organizations"; orgId; "projects"] (page_query offset)) (truthy orgId).
Definition useProject (orgId projectId : string) : QueryHook :=
  MkQueryHook (qk_project projectId) (api_get ["v1"; "organizations"; orgId; "projects"; projectId] []) (truthy orgId && truthy projectId).

Record EndpointListOptions : Type := MkEndpointListOptions { el_offset : option Z; el_includeDeleted : option bool; el_enabled : option bool }.
Definition useEndpoints (projectId : string) (options : EndpointListOptions) : QueryHook :=
  let offset := default 0 (el_offset options) in
  MkQueryHook (qk_endpoints projectId offset (el_includeDeleted options))
    (api_get ["v1"; "projects"; projectId; "endpoints"] (page_query offset ++ [("include_deleted", booleanParam (el_includeDeleted options))]))
    (truthy projectId && default true (el_enabled options)).
Definition useEndpoint (projectId endpointId : string) : QueryHook :=
  MkQueryHook (qk_endpoint endpointId) (api_get ["v1"; "projects"; projectId; "endpoints"; endpointId] []) (truthy projectId && truthy endpointId).
Definition useEndpointSecrets (endpointId : string) (offset : Z) (enabled : bool) : QueryHook :=
  MkQueryHook (qk_endpointSecrets endpointId offset) (api_get ["v1"; "endpoints"; endpointId; "secrets"] (page_query offset))
    (truthy endpointId && enabled).
Definition useApiKeys (projectId : string) (offset : Z) (enabled : bool) : QueryHook :=
  MkQueryHook (qk_apiKeys projectId offset) (api_get ["v1"; "projects"; projectId; "api-keys"] (page_query offset)) (truthy projectId && enabled).
Definition useSubscriptions (projectId : string) (offset : Z) (enabled : bool) : QueryHook :=
  MkQueryHook (qk_subscriptions projectId offset) (api_get ["v1"; "projects"; projectId; "subscriptions"] (page_query offset))
    (truthy projectId && enabled).
Definition useRetryPolicies (projectId : string) (offset : Z) : QueryHook :=
  MkQueryHook (qk_retryPolicies projectId offset) (api_get ["v1"; "projects"; projectId; "retry-policies"] (page_query offset)) (truthy projectId).
Definition useRetryPolicy (projectId policyId : string) : QueryHook :=
  MkQueryHook (qk_retryPolicy projectId policyId) (api_get ["v1"; "projects"; projectId; "retry-policies"; policyId] [])
    (truthy projectId && truthy policyId).
Definition useRateLimits (projectId : string) (offset : Z) : QueryHook :=
  MkQueryHook (qk_rateLimits projectId offset) (api_get ["v1"; "projects"; projectId; "rate-limits"] (page_query offset)) (truthy projectId).
Definition useDestinations (projectId : string) : QueryHook :=
  MkQueryHook (qk_notificationDestinations projectId) (api_get (notifications_base projectId) []) (truthy projectId).

Record EventFilters : Type := MkEventFilters {
  ef_event_type : option string; ef_status : option string; ef_idempotency_key : option string;
  ef_created_after : option string; ef_created_before : option string
}.
Definition event_filters (f : EventFilters) : list (string * option string) :=
  [("event_type", ef_event_type f); ("status", ef_status f); ("idempotency_key", ef_idempotency_key f);
   ("created_after", ef_created_after f); ("created_before", ef_created_before f)].
(** [options] of the caller replace [enabled] when they carry one. *)
Definition useEvents (projectId : string) (filters : EventFilters) (offset : Z) (options_enabled : option bool) : QueryHook :=
  MkQueryHook (qk_events projectId (filter_key (event_filters filters)) offset)
    (api_get ["v1"; "projects"; projectId; "events"] (event_filters filters ++ page_query offset)) (default (truthy projectId) options_enabled).
Definition useEvent (projectId eventId : string) : QueryHook :=
  MkQueryHook (qk_event projectId eventId) (api_get ["v1"; "projects"; projectId; "events"; eventId] []) (truthy projectId && truthy eventId).
Definition useEventDeliveries (projectId eventId : string) : QueryHook :=
  MkQueryHook (qk_eventDeliveries projectId eventId) (api_get ["v1"; "projects"; projectId; "events"; eventId; "deliveries"] (page_query 0))
    (truthy projectId && truthy eventId).

Record DeliveryFilters : Type := MkDeliveryFilters {
  df_status : option string; df_failing_now : option bool; df_endpoint_id : option string; df_event_id : option string;
  df_event_type : option string; df_created_after : option string; df_created_before : option string; df_origin : option string
}.
Definition delivery_filters (f : DeliveryFilters) : list (string * option string) :=
  [("status", df_status f); ("failing_now", if default false (df_failing_now f) then Some "true" else None);
   ("endpoint_id", df_endpoint_id f); ("event_id", df_event_id f); ("event_type", df_event_type f);
   ("created_after", df_created_after f); ("created_before", df_created_before f); ("origin", df_origin f)].
Definition delivery_filter_key (f : DeliveryFilters) : KeyPart :=
  kobject [("status", kv_text <$> df_status f); ("failing_now", kv_boolean <$> df_failing_now f);
           ("endpoint_id", kv_text <$> df_endpoint_id f); ("event_id", kv_text <$> df_event_id f);
           ("event_type", kv_text <$> df_event_type f); ("created_after", kv_text <$> df_created_after f);
           ("created_before", kv_text <$> df_created_before f); ("origin", kv_text <$> df_origin f)].
Definition useDeliveries (projectId : string) (filters : DeliveryFilters) (offset : Z) : QueryHook :=
  MkQueryHook (qk_deliveries projectId (delivery_filter_key filters) offset)
    (api_get ["v1"; "projects"; projectId; "deliveries"] (delivery_filters filters ++ page_query offset)) (truthy projectId).
Definition useDelivery (projectId deliveryId : string) : QueryHook :=
  MkQueryHook (qk_delivery projectId deliveryId) (api_get ["v1"; "projects"; projectId; "deliveries"; deliveryId] [])
    (truthy projectId && truthy deliveryId).
Definition useDeliveryAttempts (projectId deliveryId : string) (enabled : bool) : QueryHook :=
  MkQueryHook (qk_deliveryAttempts projectId deliveryId)
    (api_get ["v1"; "projects"; projectId; "deliveries"; deliveryId; "attempts"] (page_query 0)) (truthy projectId && truthy deliveryId && enabled).

Record OutboxFilters : Type := MkOutboxFilters { xf_status : option string; xf_event_id : option string }.
Definition outbox_filters (f : OutboxFilters) : list (string * option string) := [("status", xf_status f); ("event_id", xf_event_id f)].
Definition useOutboxEntries (projectId : string) (filters : OutboxFilters) (offset : Z) : QueryHook :=
  MkQueryHook (qk_outbox projectId (filter_key (outbox_filters filters)) offset)
    (api_get ["v1"; "projects"; projectId; "outbox"] (outbox_filters filters ++ page_query offset)) (truthy projectId).
Definition useOutboxEntry (projectId outboxId : string) : QueryHook :=
  MkQueryHook (qk_outboxEntry projectId outboxId) (api_get ["v1"; "projects"; projectId; "outbox"; outboxId] []) (truthy projectId && truthy outboxId).

(** features/analytics/api.ts *)
Definition analytics_base (projectId : string) : list string := ["v1"; "projects"; projectId; "analytics"].
Definition deliveryOutcomesQuery (projectId : string) (windowHours : Z) : QueryHook :=
  MkQueryHook (qk_analyticsDeliveries projectId windowHours)
    (api_get (analytics_base projectId ++ ["deliveries"]) [("window_hours", Some (pretty windowHours))]) (truthy projectId).
Definition deliverySeriesQuery (projectId : string) (windowHours : Z) (bucket : option string) : QueryHook :=
  MkQueryHook (qk_analyticsSeries projectId windowHours bucket)
    (api_get (analytics_base projectId ++ ["deliveries"; "series"]) [("window_hours", Some (pretty windowHours)); ("bucket", bucket)]) (truthy projectId).
Definition useFailingEndpoints (projectId : string) (windowHours limit : Z) : QueryHook :=
  MkQueryHook (qk_analyticsEndpoints projectId windowHours limit)
    (api_get (analytics_base projectId ++ ["endpoints"]) [("window_hours", Some (pretty windowHours)); ("limit", Some (pretty limit))]) (truthy projectId).
Definition useAttemptLatency (projectId : string) (windowHours : Z) : QueryHook :=
  MkQueryHook (qk_analyticsLatency projectId windowHours)
    (api_get (analytics_base projectId ++ ["latency"]) [("window_hours", Some (pretty windowHours))]) (truthy projectId).
Definition eventVolumeQuery (projectId : string) (windowHours limit : Z) : QueryHook :=
  MkQueryHook (qk_analyticsEvents projectId windowHours limit)
    (api_get (analytics_base projectId ++ ["events"]) [("window_hours", Some (pretty windowHours)); ("limit", Some (pretty limit))]) (truthy projectId).

(** features/settings/BillingPage.tsx *)
Definition useBilling (orgId : string) : QueryHook :=
  MkQueryHook (qk_billing orgId) (api_get ["v1"; "organizations"; orgId; "billing"] []) (truthy orgId).

(** ** Every hook, on a view *)

(** The ids and the settings a page passes to its hooks. *)
Record View : Type := MkView {
  v_orgId : string; v_memberId : string; v_projectId : string; v_endpointId : string; v_secretId : string;
  v_apiKeyId : string; v_subscriptionId : string; v_policyId : string; v_destinationId : string;
  v_eventId : string; v_deliveryId : string; v_outboxId : string;
  v_offset : Z; v_windowHours : Z; v_limit : Z; v_bucket : option string; v_replacement : option string;
  v_endpoints : EndpointListOptions; v_audit : AuditFilters; v_events : EventFilters; v_deliveries : DeliveryFilters; v_outbox : OutboxFilters;
  v_allowed : bool; v_options_enabled : option bool
}.

Inductive QueryName : Type :=
| q_session | q_organizations | q_organization | q_members | q_auditLogs | q_projects | q_project
| q_endpoints | q_endpoint | q_endpointSecrets | q_apiKeys | q_subscriptions | q_retryPolicies | q_retryPolicy
| q_rateLimits | q_destinations | q_events | q_event | q_eventDeliveries | q_deliveries | q_delivery | q_deliveryAttempts
| q_outbox | q_outboxEntry | q_outcomes | q_series | q_failing | q_latency | q_volume | q_billing.
Inductive MutationName : Type :=
| m_login | m_register | m_verifyEmail | m_resendVerification | m_completeOnboarding | m_forgotPassword | m_resetPassword | m_logout
| m_acceptInvitation | m_createOrganization | m_updateOrganization | m_deleteOrganization | m_inviteMember | m_updateMemberRole | m_removeMember
| m_createProject | m_updateProject | m_deleteProject
| m_createEndpoint | m_updateEndpoint | m_enableEndpoint | m_disableEndpoint | m_deleteEndpoint | m_rotateSecret | m_revokeSecret
| m_createApiKey | m_revokeApiKey
| m_createSubscription | m_updateSubscription | m_enableSubscription | m_disableSubscription | m_deleteSubscription
| m_createRetryPolicy | m_updateRetryPolicy | m_setDefaultRetryPolicy | m_deleteRetryPolicy
| m_createRateLimit | m_updateRateLimit | m_deleteRateLimit
| m_createDestination | m_updateDestination | m_deleteDestination | m_resendConfirmation | m_testDestination | m_confirmDestination
| m_replayEvent | m_replayDelivery | m_requeueEntry | m_requeueParked.
#[export] Instance QueryName_eq_dec : EqDecision QueryName.
Proof. solve_decision. Defined.
#[export] Instance MutationName_eq_dec : EqDecision MutationName.
Proof. solve_decision. Defined.

Definition query_hook (q : QueryName) (v : View) : QueryHook :=
  match q with
  | q_session => useSession | q_organizations => useOrganizations (v_offset v) | q_organization => useOrganization (v_orgId v)
  | q_members => useMembers (v_orgId v) (v_offset v) | q_auditLogs => useAuditLogs (v_orgId v) (v_audit v) (v_offset v)
  | q_projects => useProjects (v_orgId v) (v_offset v) | q_project => useProject (v_orgId v) (v_projectId v)
  | q_endpoints => useEndpoints (v_projectId v) (v_endpoints v)
  | q_endpoint => useEndpoint (v_projectId v) (v_endpointId v)
  | q_endpointSecrets => useEndpointSecrets (v_endpointId v) (v_offset v) (v_allowed v)
  | q_apiKeys => useApiKeys (v_projectId v) (v_offset v) (v_allowed v)
  | q_subscriptions => useSubscriptions (v_projectId v) (v_offset v) (v_allowed v)
  | q_retryPolicies => useRetryPolicies (v_projectId v) (v_offset v) | q_retryPolicy => useRetryPolicy (v_projectId v) (v_policyId v)
  | q_rateLimits => useRateLimits (v_projectId v) (v_offset v) | q_destinations => useDestinations (v_projectId v)
  | q_events => useEvents (v_projectId v) (v_events v) (v_offset v) (v_options_enabled v)
  | q_event => useEvent (v_projectId v) (v_eventId v) | q_eventDeliveries => useEventDeliveries (v_projectId v) (v_eventId v)
  | q_deliveries => useDeliveries (v_projectId v) (v_deliveries v) (v_offset v)
  | q_delivery => useDelivery (v_projectId v) (v_deliveryId v)
  | q_deliveryAttempts => useDeliveryAttempts (v_projectId v) (v_deliveryId v) (v_allowed v)
  | q_outbox => useOutboxEntries (v_projectId v) (v_outbox v) (v_offset v) | q_outboxEntry => useOutboxEntry (v_projectId v) (v_outboxId v)
  | q_outcomes => deliveryOutcomesQuery (v_projectId v) (v_windowHours v)
  | q_series => deliverySeriesQuery (v_projectId v) (v_windowHours v) (v_bucket v)
  | q_failing => useFailingEndpoints (v_projectId v) (v_windowHours v) (v_limit v)
  | q_latency => useAttemptLatency (v_projectId v) (v_windowHours v)
  | q_volume => eventVolumeQuery (v_projectId v) (v_windowHours v) (v_limit v)
  | q_billing => useBilling (v_orgId v)
  end.

Definition mutation_hook {B} (m : MutationName) (v : View) (body : B) : MutationHook B :=
  match m with
  | m_login => useLogin body | m_register => useRegister body | m_verifyEmail => useVerifyEmail body
  | m_resendVerification => useResendVerification body | m_completeOnboarding => useCompleteOnboarding
  | m_forgotPassword => useForgotPassword body | m_resetPassword => useResetPassword body | m_logout => useLogout
  | m_acceptInvitation => useAcceptInvitation body | m_createOrganization => useCreateOrganization body
  | m_updateOrganization => useUpdateOrganization (v_orgId v) body | m_deleteOrganization => useDeleteOrganization (v_orgId v)
  | m_inviteMember => useInviteMember (v_orgId v) body | m_updateMemberRole => useUpdateMemberRole (v_orgId v) (v_memberId v) body
  | m_removeMember => useRemoveMember (v_orgId v) (v_memberId v)
  | m_createProject => useCreateProject (v_orgId v) body | m_updateProject => useUpdateProject (v_orgId v) (v_projectId v) body
  | m_deleteProject => useDeleteProject (v_orgId v) (v_projectId v)
  | m_createEndpoint => useCreateEndpoint (v_projectId v) body | m_updateEndpoint => useUpdateEndpoint (v_projectId v) (v_endpointId v) body
  | m_enableEndpoint => useEnableEndpoint (v_projectId v) (v_endpointId v)
  | m_disableEndpoint => useDisableEndpoint (v_projectId v) (v_endpointId v) body
  | m_deleteEndpoint => useDeleteEndpoint (v_projectId v) (v_endpointId v)
  | m_rotateSecret => useRotateSecret (v_endpointId v) body | m_revokeSecret => useRevokeSecret (v_endpointId v) (v_secretId v)
  | m_createApiKey => useCreateApiKey (v_projectId v) body | m_revokeApiKey => useRevokeApiKey (v_projectId v) (v_apiKeyId v)
  | m_createSubscription => useCreateSubscription (v_projectId v) body
  | m_updateSubscription => useUpdateSubscription (v_projectId v) (v_subscriptionId v) body
  | m_enableSubscription => useEnableSubscription (v_projectId v) (v_subscriptionId v)
  | m_disableSubscription => useDisableSubscription (v_projectId v) (v_subscriptionId v) body
  | m_deleteSubscription => useDeleteSubscription (v_projectId v) (v_subscriptionId v)
  | m_createRetryPolicy => useCreateRetryPolicy (v_projectId v) body
  | m_updateRetryPolicy => useUpdateRetryPolicy (v_projectId v) (v_policyId v) body
  | m_setDefaultRetryPolicy => useSetDefaultRetryPolicy (v_projectId v) (v_policyId v)
  | m_deleteRetryPolicy => useDeleteRetryPolicy (v_projectId v) (v_policyId v) (v_replacement v)
  | m_createRateLimit => useCreateRateLimit (v_projectId v) body | m_updateRateLimit => useUpdateRateLimit (v_projectId v) (v_policyId v) body
  | m_deleteRateLimit => useDeleteRateLimit (v_projectId v) (v_policyId v)
  | m_createDestination => useCreateDestination (v_projectId v) body
  | m_updateDestination => useUpdateDestination (v_projectId v) (v_destinationId v) body
  | m_deleteDestination => useDeleteDestination (v_projectId v) (v_destinationId v)
  | m_resendConfirmation => useResendConfirmation (v_projectId v) (v_destinationId v) body
  | m_testDestination => useTestDestination (v_projectId v) (v_destinationId v) body
  | m_confirmDestination => useConfirmDestination body
  | m_replayEvent => useReplayEvent (v_projectId v) (v_eventId v) body | m_replayDelivery => useReplayDelivery (v_projectId v) (v_deliveryId v) body
  | m_requeueEntry => useRequeueOutboxEntry (v_projectId v) (v_outboxId v) body (v_eventId v)
  | m_requeueParked => useRequeueParked (v_projectId v) body [v_eventId v]
  end.

(** The route of the control plane each hook means. *)
Definition query_route (q : QueryName) : Route :=
  match q with
  | q_session => route_auth_session | q_organizations => route_organizations_list | q_organization => route_organizations_get
  | q_members => route_members_list | q_auditLogs => route_audit_logs_list | q_projects => route_projects_list | q_project => route_projects_get
  | q_endpoints => route_endpoints_list | q_endpoint => route_endpoints_get | q_endpointSecrets => route_secrets_list
  | q_apiKeys => route_api_keys_list | q_subscriptions => route_subscriptions_list
  | q_retryPolicies => route_retry_policies_list | q_retryPolicy => route_retry_policies_get
  | q_rateLimits => route_rate_limits_list | q_destinations => route_notification_destinations_list
  | q_events => route_events_list | q_event => route_events_get | q_eventDeliveries => route_events_deliveries
  | q_deliveries => route_deliveries_list | q_delivery => route_deliveries_get | q_deliveryAttempts => route_deliveries_attempts
  | q_outbox => route_outbox_list | q_outboxEntry => route_outbox_get
  | q_outcomes => route_analytics_deliveries | q_series => route_analytics_deliverySeries | q_failing => route_analytics_endpoints
  | q_latency => route_analytics_latency | q_volume => route_analytics_events | q_billing => route_billing_summary
  end.
Definition mutation_route (m : MutationName) : Route :=
  match m with
  | m_login => route_auth_login | m_register => route_auth_register | m_verifyEmail => route_auth_verifyEmail
  | m_resendVerification => route_auth_resendVerification | m_completeOnboarding => route_auth_completeOnboarding
  | m_forgotPassword => route_auth_forgotPassword | m_resetPassword => route_auth_resetPassword | m_logout => route_auth_logout
  | m_acceptInvitation => route_invitations_accept | m_createOrganization => route_organizations_create
  | m_updateOrganization => route_organizations_update | m_deleteOrganization => route_organizations_remove
  | m_inviteMember => route_members_invite | m_updateMemberRole => route_members_changeRole | m_removeMember => route_members_remove
  | m_createProject => route_projects_create | m_updateProject => route_projects_update | m_deleteProject => route_projects_remove
  | m_createEndpoint => route_endpoints_create | m_updateEndpoint => route_endpoints_update | m_enableEndpoint => route_endpoints_enable
  | m_disableEndpoint => route_endpoints_disable | m_deleteEndpoint => route_endpoints_remove
  | m_rotateSecret => route_secrets_rotate | m_revokeSecret => route_secrets_revoke
  | m_createApiKey => route_api_keys_create | m_revokeApiKey => route_api_keys_revoke
  | m_createSubscription => route_subscriptions_create | m_updateSubscription => route_subscriptions_update
  | m_enableSubscription => route_subscriptions_enable | m_disableSubscription => route_subscriptions_disable
  | m_deleteSubscription => route_subscriptions_remove
  | m_createRetryPolicy => route_retry_policies_create | m_updateRetryPolicy => route_retry_policies_update
  | m_setDefaultRetryPolicy => route_retry_policies_setDefault | m_deleteRetryPolicy => route_retry_policies_remove
  | m_createRateLimit => route_rate_limits_create | m_updateRateLimit => route_rate_limits_update | m_deleteRateLimit => route_rate_limits_remove
  | m_createDestination => route_notification_destinations_create | m_updateDestination => route_notification_destinations_update
  | m_deleteDestination => route_notification_destinations_remove | m_resendConfirmation => route_notification_destinations_resend
  | m_testDestination => route_notification_destinations_test | m_confirmDestination => route_confirmation_confirm
  | m_replayEvent => route_events_replay | m_replayDelivery => route_deliveries_replay
  | m_requeueEntry => route_outbox_requeue | m_requeueParked => route_outbox_requeueParked
  end.

(** ** Requests and routes *)

(** The id a view has for a parameter of a route. *)
Definition view_param (v : View) (name : string) : string :=
  if bool_decide (name = "orgId") then v_orgId v else if bool_decide (name = "memberId") then v_memberId v
  else if bool_decide (name = "projectId") then v_projectId v else if bool_decide (name = "endpointId") then v_endpointId v
  else if bool_decide (name = "secretId") then v_secretId v else if bool_decide (name = "apiKeyId") then v_apiKeyId v
  else if bool_decide (name = "subscriptionId") then v_subscriptionId v else if bool_decide (name = "policyId") then v_policyId v
  else if bool_decide (name = "destinationId") then v_destinationId v else if bool_decide (name = "eventId") then v_eventId v
  else if bool_decide (name = "deliveryId") then v_deliveryId v else if bool_decide (name = "outboxId") then v_outboxId v
  else "".
Definition piece (v : View) (s : Segment) : string := match s with Lit l => l | Param n => view_param v n end.

(** Each hook writes the path of its route, with the ids of the view in it. *)
Lemma query_path q v : rq_path (queryFn (query_hook q v)) = piece v <$> r_path (query_route q).
Proof. destruct q; reflexivity. Qed.
Lemma mutation_path {B} m v (body : B) : rq_path (mutationFn (mutation_hook m v body)) = piece v <$> r_path (mutation_route m).
Proof. destruct m; reflexivity. Qed.
Lemma mutation_method {B} m v (body : B) : rq_method (mutationFn (mutation_hook m v body)) = r_method (mutation_route m).
Proof. by destruct m. Qed.
Lemma query_method q v : rq_method (queryFn (query_hook q v)) = GET ∧ r_method (query_route q) = GET.
Proof. by destruct q. Qed.

Definition param_name (s : Segment) : option string := if s is Param n then Some n else None.
Lemma match_pieces fold v p : (∀ n, Param n ∈ p → view_param v n ≠ "") →
  match_path fold p (piece v <$> p) = Some ((λ n, (n, view_param v n)) <$> omap param_name p).
Proof.
  induction p as [|[l|n] p IH]; intros Hp; cbn.
  - done.
  - rewrite bool_decide_eq_true_2 by done. apply IH. intros n Hn. apply Hp. by right.
  - rewrite bool_decide_eq_false_2 by (apply Hp; by left). rewrite IH by (intros m Hm; apply Hp; by right). done.
Qed.
Lemma params_named v names n : n ∈ names → params_of ((λ n, (n, view_param v n)) <$> names) n = Some (view_param v n).
Proof.
  unfold params_of. induction names as [|m names IH]; [by intros ?%not_elem_of_nil|]. cbn [fmap list_fmap].
  rewrite filter_cons. cbn [fst]. case_decide as E; [by subst|]. intros [->|Hn]%elem_of_cons; [done|by apply IH].
Qed.

Lemma route_of_pieces fold v r m : r_method r = m → (∀ n, Param n ∈ r_path r → view_param v n ≠ "") →
  ∃ params, route_matches fold r m (piece v <$> r_path r) = Some params
            ∧ ∀ n, Param n ∈ r_path r → params n = Some (view_param v n).
Proof.
  intros Hm Hp. unfold route_matches. rewrite bool_decide_eq_true_2 by done. rewrite (match_pieces fold v _ Hp).
  eexists. split; [done|]. intros n Hn. apply params_named. apply list_elem_of_omap. by exists (Param n).
Qed.

Lemma query_route_declared q : query_route q ∈ ROUTES.
Proof. unfold ROUTES. destruct q; repeat (first [apply list_elem_of_here|apply list_elem_of_further]). Qed.
Lemma mutation_route_declared m : mutation_route m ∈ ROUTES.
Proof. unfold ROUTES. destruct m; repeat (first [apply list_elem_of_here|apply list_elem_of_further]). Qed.

Lemma truthy_ne s : truthy s = true ↔ s ≠ "".
Proof. unfold truthy. case_bool_decide; by split. Qed.

Create HintDb hooks.
#[export] Hint Unfold query_hook mutation_hook useSession useOrganizations useOrganization useMembers useAuditLogs useProjects useProject
  useEndpoints useEndpoint useEndpointSecrets useApiKeys useSubscriptions useRetryPolicies useRetryPolicy useRateLimits useDestinations
  useEvents useEvent useEventDeliveries useDeliveries useDelivery useDeliveryAttempts useOutboxEntries useOutboxEntry
  deliveryOutcomesQuery deliverySeriesQuery useFailingEndpoints useAttemptLatency eventVolumeQuery useBilling : hooks.

#[export] Hint Unfold useLogin useRegister useVerifyEmail useResendVerification useCompleteOnboarding useForgotPassword
  useResetPassword useLogout useAcceptInvitation useCreateOrganization useUpdateOrganization useDeleteOrganization
  useInviteMember useUpdateMemberRole useRemoveMember useCreateProject useUpdateProject useDeleteProject
  useCreateEndpoint useEndpointInvalidation useUpdateEndpoint useEnableEndpoint useDisableEndpoint useDeleteEndpoint
  useSecretInvalidation useRotateSecret useRevokeSecret useCreateApiKey useRevokeApiKey useSubscriptionInvalidation
  useCreateSubscription useUpdateSubscription useEnableSubscription useDisableSubscription useDeleteSubscription useRetryPolicyInvalidation
  useCreateRetryPolicy useUpdateRetryPolicy useSetDefaultRetryPolicy useDeleteRetryPolicy useRateLimitInvalidation useCreateRateLimit
  useUpdateRateLimit useDeleteRateLimit useCreateDestination useUpdateDestination useDeleteDestination useResendConfirmation
  useTestDestination useConfirmDestination useReplayEvent useReplayDelivery invalidateAfterRequeue useRequeueOutboxEntry
  useRequeueParked : hooks.
#[export] Hint Unfold qk_session qk_organizationsRoot qk_organizations qk_organization qk_membersRoot qk_members qk_auditLogsRoot qk_auditLogs
  qk_projectsRoot qk_projects qk_project qk_endpointsRoot qk_endpoints qk_endpoint qk_endpointSecretsRoot qk_endpointSecrets
  qk_apiKeysRoot qk_apiKeys qk_subscriptionsRoot qk_subscriptions qk_retryPoliciesRoot qk_retryPolicies qk_retryPolicy qk_rateLimitsRoot
  qk_rateLimits qk_analyticsRoot qk_analyticsDeliveries qk_billing qk_notificationDestinations qk_analyticsSeries qk_analyticsEndpoints qk_analyticsLatency
  qk_analyticsEvents qk_eventsRoot qk_events qk_event qk_eventDeliveries qk_deliveriesRoot qk_deliveries qk_delivery
  qk_deliveryAttempts qk_outboxRoot qk_outbox qk_outboxEntry : hooks.

(** The address a request goes to, and the pieces the router reads off it: [fetch] takes
    the path up to the query or the fragment and resolves its dots. *)
Definition address {B} (r : ConsoleRequest B) : string := "/" +:+ String.concat "/" (rq_path r).
Fixpoint before_query (url : string) : string :=
  match url with
  | EmptyString => EmptyString
  | String c url => if bool_decide (c ∈ ["?"; "#"]%char) then EmptyString else String c (before_query url)
  end.
Fixpoint resolve_dots (done : list string) (pieces : list string) : list string :=
  match pieces with
  | [] => reverse done
  | s :: rest =>
      let ended done := if rest is [] then "" :: done else done in
      if bool_decide (s = ".") then resolve_dots (ended done) rest
      else if bool_decide (s = "..") then resolve_dots (ended (tail done)) rest
      else resolve_dots (s :: done) rest
  end.
Definition address_pieces (url : string) : list string := resolve_dots [] (tail (split_slash (before_query url))).
(** An id that is one piece of an address; the hooks do not encode their ids.  Besides the
    slash, the query, the fragment and the dots, a percent sign, a backslash and the three
    characters a parser of URLs leaves out would be read as something else. *)
Definition plain_char (c : ascii) : bool :=
  bool_decide (c ∉ ["/"; "?"; "#"; "%"; "\"; "009"; "010"; "013"]%char).
Definition one_piece (s : string) : Prop := forallb plain_char (String.list_ascii_of_string s) = true ∧ s ≠ "." ∧ s ≠ "..".
#[export] Instance one_piece_dec s : Decision (one_piece s).
Proof. unfold one_piece. apply _. Defined.

(** What an address with a stray character is read as. *)
Example pieces_of_a_query : address_pieces "/v1/projects/p?x/endpoints" = ["v1"; "projects"; "p"].
Proof. reflexivity. Qed.
Example pieces_of_dots : address_pieces "/v1/projects/../endpoints/." = ["v1"; "endpoints"; ""].
Proof. reflexivity. Qed.

Lemma plain_ne c s d : forallb plain_char (String.list_ascii_of_string (String c s)) = true →
  d ∈ ["/"; "?"; "#"]%char → c ≠ d ∧ forallb plain_char (String.list_ascii_of_string s) = true.
Proof.
  cbn [String.list_ascii_of_string forallb]. intros [Hc Hs]%andb_true_iff Hd. split; [|done]. intros ->. unfold plain_char in Hc.
  apply bool_decide_eq_true_1 in Hc. apply Hc. set_solver.
Qed.
Lemma before_query_app s t : forallb plain_char (String.list_ascii_of_string s) = true → before_query (s +:+ t) = s +:+ before_query t.
Proof.
  induction s as [|c s IH]; [done|]. intros Hs. change (String c s +:+ t) with (String c (s +:+ t)). cbn [before_query].
  destruct (plain_ne c s "?"%char Hs) as [Hq Hs']; [set_solver|]. destruct (plain_ne c s "#"%char Hs) as [Hh _]; [set_solver|].
  rewrite bool_decide_eq_false_2 by (rewrite !elem_of_cons, elem_of_nil; tauto). by rewrite IH.
Qed.
Lemma string_app_nil s : s +:+ EmptyString = s.
Proof. induction s as [|c s IH]; [done|]. change (String c s +:+ EmptyString) with (String c (s +:+ EmptyString)). by rewrite IH. Qed.
Lemma before_query_concat l : Forall one_piece l → before_query (String.concat "/" l) = String.concat "/" l.
Proof.
  induction l as [|a [|b l] IH]; [done| |]; intros Hl; inversion Hl as [|? ? [Ha _] Hl']; subst.
  - change (String.concat "/" [a]) with a. rewrite <- (string_app_nil a) at 1. rewrite before_query_app by done. apply string_app_nil.
  - change (String.concat "/" (a :: b :: l)) with (a +:+ String "/"%char (String.concat "/" (b :: l))).
    rewrite before_query_app by done. cbn [before_query]. rewrite bool_decide_eq_false_2 by (rewrite !elem_of_cons, elem_of_nil; intros [?|[?|?]]; done).
    by rewrite IH.
Qed.
Lemma split_slash_plain a : forallb plain_char (String.list_ascii_of_string a) = true → split_slash a = [a].
Proof.
  induction a as [|c a IH]; [done|]. intros Ha. destruct (plain_ne c a "/"%char Ha) as [Hc Ha']; [set_solver|].
  cbn [split_slash]. rewrite bool_decide_eq_false_2 by done. by rewrite IH.
Qed.
Lemma split_slash_app a t : forallb plain_char (String.list_ascii_of_string a) = true → split_slash (a +:+ String "/"%char t) = a :: split_slash t.
Proof.
  induction a as [|c a IH]; [done|]. intros Ha. destruct (plain_ne c a "/"%char Ha) as [Hc Ha']; [set_solver|].
  change (String c a +:+ String "/"%char t) with (String c (a +:+ String "/"%char t)). cbn [split_slash].
  rewrite bool_decide_eq_false_2 by done. by rewrite IH.
Qed.
Lemma split_concat l : l ≠ [] → Forall one_piece l → split_slash (String.concat "/" l) = l.
Proof.
  induction l as [|a [|b l] IH]; [done| |]; intros _ Hl; inversion Hl as [|? ? [Ha _] Hl']; subst; [by apply split_slash_plain|].
  change (String.concat "/" (a :: b :: l)) with (a +:+ String "/"%char (String.concat "/" (b :: l))).
  rewrite split_slash_app by done. by rewrite IH.
Qed.
Lemma resolve_plain l : ∀ done, Forall one_piece l → resolve_dots done l = reverse done ++ l.
Proof.
  induction l as [|s l IH]; intros acc Hl; cbn [resolve_dots]; [by rewrite app_nil_r|].
  apply Forall_cons in Hl as [(_ & H1 & H2) Hl]. rewrite !bool_decide_eq_false_2 by done. rewrite IH by done.
  by rewrite reverse_cons, <- app_assoc.
Qed.
Lemma address_split {B} (r : ConsoleRequest B) : rq_path r ≠ [] → Forall one_piece (rq_path r) → address_pieces (address r) = rq_path r.
Proof.
  intros Hn Hl. unfold address_pieces, address. change ("/" +:+ ?s) with (String "/"%char s).
  cbn [before_query]. rewrite bool_decide_eq_false_2 by (rewrite !elem_of_cons, elem_of_nil; intros [?|[?|?]]; done).
  rewrite before_query_concat by done. change (String "/"%char ?s) with ("" +:+ String "/"%char s). rewrite split_slash_app by done.
  cbn [tail]. rewrite split_concat by done. by rewrite resolve_plain.
Qed.

(** A request reaches a route: the router finds it and no other, and binds the ids of
    the view. *)
Definition reaches {B} (fold : string → string) (v : View) (request : ConsoleRequest B) (r : Route) : Prop :=
  ∃ params, route_matches fold r (rq_method request) (address_pieces (address request)) = Some params
            ∧ (∀ n, Param n ∈ r_path r → params n = Some (view_param v n))
            ∧ ∀ r' params', r' ∈ ROUTES → route_matches fold r' (rq_method request) (address_pieces (address request)) = Some params' → r' = r.

Section Reached.
  Context (fold : string → string) (v : View).
  Context (Hfold : ∀ a b, a ∈ literals ROUTES → b ∈ literals ROUTES → fold a = fold b → a = b).
  Context (Hids : ∀ n, one_piece (view_param v n)).

Lemma literals_one_piece r l : r ∈ ROUTES → Lit l ∈ r_path r → one_piece l.
Proof.
  intros Hr Hl. assert (Forall one_piece (literals ROUTES)) as HF by (apply (bool_decide_unpack _); vm_compute; exact I).
  rewrite Forall_forall in HF. apply HF. by eapply literal_of.
Qed.
Lemma pieces_one r : r ∈ ROUTES → Forall one_piece (piece v <$> r_path r).
Proof.
  intros Hr. rewrite Forall_fmap, Forall_forall. intros [l|n] Hs; cbn; [by eapply literals_one_piece|apply Hids].
Qed.
Lemma path_nonempty r : piece v <$> r_path r ≠ [] ∨ r_path r = [].
Proof. destruct (r_path r); [by right|by left]. Qed.

Lemma reaches_route {B} (request : ConsoleRequest B) r :
  r ∈ ROUTES → r_path r ≠ [] → rq_path request = piece v <$> r_path r → rq_method request = r_method r →
  (∀ n, Param n ∈ r_path r → view_param v n ≠ "") → reaches fold v request r.
Proof.
  intros Hr Hne Hpath Hm Hp. unfold reaches. rewrite address_split, Hpath, Hm; rewrite ?Hpath.
  - destruct (route_of_pieces fold v r (r_method r) eq_refl Hp) as (params & Hmatch & Hn).
    exists params. split_and!; [done|done|]. intros r' params' Hr' Hmatch'. by eapply (single_route fold).
  - destruct (path_nonempty r); done.
  - by apply pieces_one.
Qed.
End Reached.

Lemma query_path_nonempty q : r_path (query_route q) ≠ [].
Proof. by destruct q. Qed.
Lemma mutation_path_nonempty m : r_path (mutation_route m) ≠ [].
Proof. by destruct m. Qed.

(** What a query's route takes from the view, a query that is sent has. *)
Lemma enabled_ids q v n : enabled (query_hook q v) = true → (q = q_events → v_projectId v ≠ "") →
  Param n ∈ r_path (query_route q) → view_param v n ≠ "".
Proof.
  intros He Hev Hn.
  assert (n ∈ omap param_name (r_path (query_route q))) as Hin by (apply list_elem_of_omap; by exists (Param n)). clear Hn.
  assert (Forall (λ n, view_param v n ≠ "") (omap param_name (r_path (query_route q)))) as HF; [|by rewrite Forall_forall in HF; apply HF].
  clear Hin. destruct q;
    lazymatch goal with |- Forall _ ?l => let l' := eval vm_compute in l in change l with l' end;
    autounfold with hooks in He; cbn [enabled] in He; rewrite ?andb_true_iff, ?truthy_ne in He; destruct_and?;
    repeat (apply Forall_cons_2 || apply Forall_nil_2); first [assumption | by apply Hev].
Qed.

(** The request for the events of no project. *)
Lemma no_such_route fold : Forall (λ r, route_matches fold r GET ["v1"; "projects"; ""; "events"] = None) ROUTES.
Proof.
  unfold ROUTES. repeat (apply Forall_cons_2 || apply Forall_nil_2).
  all: unfold route_matches; cbn [r_method]; try (rewrite bool_decide_eq_false_2 by discriminate; reflexivity).
  all: rewrite (bool_decide_eq_true_2 (GET = GET)) by reflexivity.
  all: match goal with |- context [match_path _ ?p _] => let p' := eval vm_compute in p in change p with p' end.
  all: cbn [match_path]; rewrite ?(bool_decide_eq_true_2 (_ = _)) by reflexivity.
  all: repeat case_bool_decide; first [reflexivity|congruence].
Qed.

(** C38. What the console asks for exists.  On a page whose ids are plain, so that each is one
    piece of an address, every query that is sent and every mutation whose ids are there
    goes to a route of the control plane, under the method it declares, and to no other;
    the route reads off the address the ids of the page.  An id that a query needs and the
    page has not is what keeps the query from being sent, with one exception: the caller
    of the events may override the check, as the guided setup does, and on a page of an
    organization it asks for the events of no project, which no route answers. *)
Theorem requests_reach_their_route {B} (fold : string → string) (v : View) (body : B)
  (Hfold : ∀ a b, a ∈ literals ROUTES → b ∈ literals ROUTES → fold a = fold b → a = b)
  (Hids : ∀ n, one_piece (view_param v n)) :
  (∀ q, enabled (query_hook q v) = true → (q = q_events → v_projectId v ≠ "") →
     query_route q ∈ ROUTES ∧ reaches fold v (queryFn (query_hook q v)) (query_route q))
  ∧ (∀ m, (∀ n, Param n ∈ r_path (mutation_route m) → view_param v n ≠ "") →
       mutation_route m ∈ ROUTES ∧ reaches fold v (mutationFn (mutation_hook m v body)) (mutation_route m))
  ∧ (v_options_enabled v = Some true → v_projectId v = "" →
       enabled (query_hook q_events v) = true
       ∧ ∀ r, r ∈ ROUTES → route_matches fold r GET (address_pieces (address (queryFn (query_hook q_events v)))) = None).
Proof.
  split_and!.
  - intros q He Hev. split; [apply query_route_declared|]. destruct (query_method q v) as [Hm Hr].
    apply reaches_route; try done; [apply query_route_declared|apply query_path_nonempty|apply query_path|congruence|].
    intros n. by apply enabled_ids.
  - intros m Hp. split; [apply mutation_route_declared|].
    apply reaches_route; try done; [apply mutation_route_declared|apply mutation_path_nonempty|apply mutation_path|apply mutation_method].
  - intros Ho Hp. split; [cbn; by rewrite Ho|]. intros r Hr. cbn [query_hook useEvents queryFn]. rewrite Hp.
    pose proof (no_such_route fold) as HF. rewrite Forall_forall in HF. by apply HF.
Qed.

(** ** The cache *)

Section Cache.
  Context (partialMatchKey : Key → Key → bool).
  (** A key of texts matches the keys it is a prefix of. *)
  Context (Hmatch : ∀ l key, partialMatchKey key (texts l) = true ↔ texts l `prefix_of` key).

(** Whether an effect reaches the entry of a key. *)
Definition effect_reaches (e : CacheEffect) (key : Key) : Prop :=
  match e with
  | invalidateQueries f | removeQueries f => partialMatchKey key f = true
  | setQueryData k => k = key
  | clear => True
  end.
Definition refreshed {B} (m : MutationHook B) (key : Key) : Prop := ∃ e, e ∈ onSuccess m ∧ effect_reaches e key.

(** Whether the texts begin a key. *)
Fixpoint text_prefix (l : list string) (key : Key) : Prop :=
  match l, key with
  | [], _ => True
  | s :: l, KText t :: key => s = t ∧ text_prefix l key
  | _, _ => False
  end.
Lemma prefix_texts l key : texts l `prefix_of` key ↔ text_prefix l key.
Proof.
  revert key. induction l as [|s l IH]; intros key; [split; [by destruct key|intros _; apply prefix_nil]|].
  destruct key as [|[t|o] key]; cbn.
  - split; [by intros ?%prefix_nil_not|done].
  - rewrite <- IH. split.
    + intros H. split; [by apply prefix_cons_inv_1 in H as [= ->]|by apply prefix_cons_inv_2 in H].
    + intros [-> H]. by apply prefix_cons.
  - split; [intros H; by apply prefix_cons_inv_1 in H|done].
Qed.
Lemma invalidate_reaches l key : effect_reaches (invalidateQueries (texts l)) key ↔ text_prefix l key.
Proof. rewrite <- prefix_texts. apply Hmatch. Qed.
Lemma remove_reaches l key : effect_reaches (removeQueries (texts l)) key ↔ text_prefix l key.
Proof. rewrite <- prefix_texts. apply Hmatch. Qed.

(** Some effect of a list reaches a key. *)
Lemma reached_cons e l key : (∃ e', e' ∈ e :: l ∧ effect_reaches e' key) ↔ effect_reaches e key ∨ ∃ e', e' ∈ l ∧ effect_reaches e' key.
Proof.
  split.
  - intros (e' & [->|He]%elem_of_cons & Hr); [by left|right; eauto].
  - intros [Hr|(e' & He & Hr)]; [exists e; split; [by left|done]|exists e'; split; [by right|done]].
Qed.
Lemma reached_nil key : (∃ e', e' ∈ [] ∧ effect_reaches e' key) ↔ False.
Proof. split; [|done]. by intros (e' & ?%not_elem_of_nil & _). Qed.
End Cache.

(** Simplifies the keys of two hooks, down to their texts. *)
Ltac compare_keys partialMatchKey Hmatch :=
  rewrite ?reached_cons, ?reached_nil;
  rewrite ?(invalidate_reaches partialMatchKey Hmatch), ?(remove_reaches partialMatchKey Hmatch);
  unfold texts; cbn [effect_reaches text_prefix fmap list_fmap app].

(** Proves the first branch of a disjunction that holds. *)
Ltac take_branch := first [exact I | reflexivity | split; take_branch | left; take_branch | right; take_branch].

Lemma policy_truthy v m : (∀ n, Param n ∈ r_path (mutation_route m) → view_param v n ≠ "") →
  bool_decide ("policyId" ∈ omap param_name (r_path (mutation_route m))) = true → truthy (v_policyId v) = true.
Proof.
  intros Hp (s & Hs & Hn)%bool_decide_eq_true_1%list_elem_of_omap. apply truthy_ne.
  destruct s as [l|n]; [done|]. injection Hn as ->. exact (Hp "policyId" Hs).
Qed.

(** The answers about the resource a mutation's own route addresses: of the queries whose
    route begins its route, those with the longest literal, the list, and its item. *)
Definition every_query : list QueryName :=
  [q_session; q_organizations; q_organization; q_members; q_auditLogs; q_projects; q_project; q_endpoints; q_endpoint;
   q_endpointSecrets; q_apiKeys; q_subscriptions; q_retryPolicies; q_retryPolicy; q_rateLimits; q_destinations; q_events; q_event;
   q_eventDeliveries; q_deliveries; q_delivery; q_deliveryAttempts; q_outbox; q_outboxEntry; q_outcomes; q_series; q_failing;
   q_latency; q_volume; q_billing].
#[export] Instance Segment_eq_dec : EqDecision Segment.
Proof. solve_decision. Defined.
(** A path up to its last literal. *)
Definition collection (p : list Segment) : list Segment :=
  match reverse p with Param _ :: r => reverse r | _ => p end.
Definition begins_with (m : MutationName) (q : QueryName) : bool := bool_decide (r_path (query_route q) `prefix_of` r_path (mutation_route m)).
Definition own_resource (m : MutationName) : list QueryName :=
  let begun := filter (λ q, begins_with m q = true) every_query in
  filter (λ q, Forall (λ q', (length (collection (r_path (query_route q'))) <= length (collection (r_path (query_route q))))%nat) begun) begun.
Example own_endpoint : own_resource m_enableEndpoint = [q_endpoints; q_endpoint].
Proof. vm_compute. reflexivity. Qed.

(** Decides whether a success reaches the entry of a query. *)
Ltac decide_reach partialMatchKey Hmatch Hids :=
  unfold refreshed; autounfold with hooks; cbn [onSuccess queryKey];
  try rewrite (policy_truthy _ _ Hids) by (vm_compute; reflexivity);
  cbn [app mbind list_bind mret]; compare_keys partialMatchKey Hmatch.

(** A mutation refreshes the resource its route addresses, the list and the item, except
    that the replay of an event leaves the list of events, and the requeue of one row
    the page of that row. *)
Theorem own_resource_refreshed {B} (partialMatchKey : Key → Key → bool) (v : View) (body : B) (m : MutationName) (q : QueryName)
  (Hmatch : ∀ l key, partialMatchKey key (texts l) = true ↔ texts l `prefix_of` key)
  (Hids : ∀ n, Param n ∈ r_path (mutation_route m) → view_param v n ≠ "") (Hq : q ∈ own_resource m) :
  refreshed partialMatchKey (mutation_hook m v body) (queryKey (query_hook q v))
  ↔ (m, q) ∉ [(m_replayEvent, q_events); (m_requeueEntry, q_outboxEntry)].
Proof.
  destruct m; lazymatch type of Hq with _ ∈ ?l => let l' := eval vm_compute in l in change l with l' in Hq end;
    repeat (apply elem_of_cons in Hq as [->|Hq]); try (by apply not_elem_of_nil in Hq).
  all: decide_reach partialMatchKey Hmatch Hids.
  all: lazymatch goal with |- _ ↔ ¬ ?stale =>
         let b := eval vm_compute in (bool_decide stale) in
         assert (bool_decide stale = b) as Hs by (vm_compute; reflexivity)
       end.
  all: lazymatch type of Hs with
       | _ = true => apply bool_decide_eq_true_1 in Hs; split; [intros Hr; exfalso; intuition discriminate|intros Hn; by destruct (Hn Hs)]
       | _ = false => apply bool_decide_eq_false_1 in Hs; split; [intros _; exact Hs|intros _; take_branch]
       end.
Qed.

(** Answers a success leaves in the cache although the rows they show have changed: of a
    replay the counts of the charts and, when one delivery is replayed, the event it
    belongs to; of the deletion of a retry policy the endpoint that loses it; of any
    mutation on record the audit log. *)
Definition left_alone : list (MutationName * QueryName) :=
  [(m_replayEvent, q_outcomes); (m_replayEvent, q_series); (m_replayDelivery, q_outcomes); (m_replayDelivery, q_series);
   (m_replayDelivery, q_event); (m_replayDelivery, q_eventDeliveries); (m_deleteRetryPolicy, q_endpoint);
   (m_updateMemberRole, q_auditLogs); (m_updateProject, q_auditLogs); (m_updateEndpoint, q_auditLogs); (m_revokeApiKey, q_auditLogs)].
Lemma left_alone_stays {B} (partialMatchKey : Key → Key → bool) (v : View) (body : B) (m : MutationName) (q : QueryName)
  (Hmatch : ∀ l key, partialMatchKey key (texts l) = true ↔ texts l `prefix_of` key)
  (Hids : ∀ n, Param n ∈ r_path (mutation_route m) → view_param v n ≠ "") :
  (m, q) ∈ left_alone → ¬ refreshed partialMatchKey (mutation_hook m v body) (queryKey (query_hook q v)).
Proof.
  intros Hin. unfold left_alone in Hin.
  repeat (apply elem_of_cons in Hin as [[= -> ->]|Hin]); [..|by apply not_elem_of_nil in Hin].
  all: decide_reach partialMatchKey Hmatch Hids; intuition discriminate.
Qed.

(** *** A key names one request *)

Lemma kobject_inj (l l' : list (string * option KeyValue)) :
  NoDup (map fst l) → map fst l = map fst l' → kobject l = kobject l' → l = l'.
Proof.
  intros Hnd Hf [= Ho]. revert l' Hf Ho. induction l as [|[n x] l IH]; intros [|[n' x'] l'] Hf Ho; try done.
  cbn [map fst] in *. injection Hf as <- Hf. apply NoDup_cons in Hnd as [Hn Hnd].
  assert (∀ k : list (string * option KeyValue), map fst k = map fst l → ∀ y, (n, y) ∉ omap (λ kv : string * option KeyValue, pair kv.1 <$> kv.2) k) as Hno.
  { intros k Hk y ([m o] & Hin & Hm)%list_elem_of_omap. cbn in Hm. destruct o; [|done]. injection Hm as -> _.
    apply Hn. rewrite <- Hk. apply list_elem_of_fmap. by eexists (_, _). }
  cbn in Ho. destruct x as [x|], x' as [x'|]; cbn in Ho.
  - injection Ho as <- Ho. f_equal. by apply IH.
  - destruct (Hno l' (eq_sym Hf) x). rewrite <- Ho. by left.
  - destruct (Hno l eq_refl x'). rewrite Ho. by left.
  - f_equal. by apply IH.
Qed.

Lemma filter_key_inj (l l' : list (string * option string)) :
  NoDup (map fst l) → map fst l = map fst l' → filter_key l = filter_key l' → l = l'.
Proof.
  intros Hnd Hf Hk. unfold filter_key in Hk. apply kobject_inj in Hk; rewrite ?map_map in *; cbn; try done.
  assert (Inj (=) (=) (λ kv : string * option string, (kv.1, kv_text <$> kv.2))) as Hinj; [|by apply (list_fmap_eq_inj _) in Hk].
  intros [n x] [n' x'] [= -> Hx]. destruct x, x'; cbn in Hx; congruence.
Qed.

Lemma cons_eq {A} (a b : A) l l' : a :: l = b :: l' → a = b ∧ l = l'.
Proof. by intros [= -> ->]. Qed.
Lemma paged_inj offset offset' : paged offset = paged offset' → offset = offset'.
Proof. by intros [= ->]. Qed.
Lemma same_request (P Q R : Prop) (r r' : ConsoleRequest Empty_set) : rq_path r = rq_path r' → rq_query r = rq_query r' →
  (P → Q → rq_path r = rq_path r') ∧ last (rq_path r) = last (rq_path r') ∧ (R → rq_sent r = rq_sent r')
  ∧ filter (λ kv, kv ≠ ("include_deleted", "false")) (rq_sent r) = filter (λ kv, kv ≠ ("include_deleted", "false")) (rq_sent r').
Proof. intros Hp Hq. unfold rq_sent. rewrite Hp, Hq. tauto. Qed.

Lemma text_key_inj (x y : option string) : kv_text <$> x = kv_text <$> y → x = y.
Proof. destruct x, y; cbn; congruence. Qed.
Lemma delivery_filters_key f f' : delivery_filter_key f = delivery_filter_key f' → delivery_filters f = delivery_filters f'.
Proof.
  intros H. apply kobject_inj in H; [|apply (bool_decide_unpack _); reflexivity|reflexivity].
  injection H as H1 H2 H3 H4 H5 H6 H7 H8. unfold delivery_filters.
  apply text_key_inj in H1, H3, H4, H5, H6, H7, H8. rewrite H1, H3, H4, H5, H6, H7, H8.
  assert (df_failing_now f = df_failing_now f') as ->; [|done]. destruct (df_failing_now f), (df_failing_now f'); cbn in H2; congruence.
Qed.
(** What the list of endpoints asks for, apart from that spelling. *)
Lemma rq_sent_get path a b : rq_sent (api_get path (a ++ b)) = rq_sent (api_get path a) ++ rq_sent (api_get path b).
Proof. unfold rq_sent. cbn [rq_query api_get]. apply omap_app. Qed.
Lemma other_names path l : Forall (λ kv : string * option string, kv.1 ≠ "include_deleted") l →
  filter (λ kv, kv ≠ ("include_deleted", "false")) (rq_sent (api_get path l)) = rq_sent (api_get path l).
Proof.
  unfold rq_sent. cbn [rq_query api_get]. induction 1 as [|[n [x|]] l Hn Hl IH]; [done| |exact IH]. cbn [omap list_omap fst snd].
  case_bool_decide; [exact IH|]. rewrite filter_cons_True, IH; [done|]. intros [= -> _]. by apply Hn.
Qed.
Lemma included_of path offset o :
  filter (λ kv, kv ≠ ("include_deleted", "false")) (rq_sent (api_get path (page_query offset ++ [("include_deleted", booleanParam o)])))
  = rq_sent (api_get path (page_query offset ++ [("include_deleted", if default false o then Some "true" else None)])).
Proof.
  rewrite !rq_sent_get, filter_app, other_names by (unfold page_query; repeat constructor; discriminate).
  by destruct o as [[]|].
Qed.

(** What an equation of two keys says of their members. *)
Ltac key_members Hk :=
  repeat (let H := fresh "Hm" in apply cons_eq in Hk as [H Hk]);
  repeat match goal with
    | H : KText _ = KText _ |- _ => injection H as H
    | H : paged _ = paged _ |- _ => apply paged_inj in H
    | H : filter_key _ = filter_key _ |- _ => apply filter_key_inj in H; [|apply (bool_decide_unpack _); reflexivity|reflexivity]
    | H : kobject _ = kobject _ |- _ => apply kobject_inj in H; [|apply (bool_decide_unpack _); reflexivity|reflexivity]
    end.

(** C39. A cache key names one request, so that a page never shows the answer to another.
    Two queries of any two pages whose keys are the same are the same query, and ask for
    the same thing: the same parameters, except that the list of the endpoints may
    spell out that deleted ones are left out; and the same address, except that the
    organization of a project and the project of an endpoint are in the address and
    not in the key, which then name the same last id. *)
Theorem key_names_request (q q' : QueryName) (v v' : View) (Hk : queryKey (query_hook q v) = queryKey (query_hook q' v')) :
  let r := queryFn (query_hook q v) in
  let r' := queryFn (query_hook q' v') in
  q = q'
  ∧ (q ≠ q_project → q ≠ q_endpoint → rq_path r = rq_path r')
  ∧ last (rq_path r) = last (rq_path r')
  ∧ (q ≠ q_endpoints → rq_sent r = rq_sent r')
  ∧ filter (λ kv, kv ≠ ("include_deleted", "false")) (rq_sent r) = filter (λ kv, kv ≠ ("include_deleted", "false")) (rq_sent r').
Proof.
  cbv zeta.
  destruct q, q'; autounfold with hooks in Hk; unfold texts in Hk; cbn in Hk; try discriminate Hk; (split; [reflexivity|]).
  all: key_members Hk; autounfold with hooks; cbn [queryFn].
  all: try (apply same_request; cbn [rq_path rq_query api_get]; congruence).
  - split_and!; try done. cbn. congruence.
  - injection Hm2 as Ho Hd.
    rewrite !included_of, Hd, Ho. cbn [rq_path api_get]. rewrite Hm0. split_and!; done.
  - split_and!; try done. cbn. congruence.
  - apply delivery_filters_key in Hm2. apply same_request; cbn [rq_path rq_query api_get]; congruence.
  - injection Hm4 as Hw Hb. apply text_key_inj in Hb. apply same_request; cbn [rq_path rq_query api_get]; congruence.
Qed.

(** ** A page of a console *)

Definition cr_view (projectId : string) : View :=
  MkView "o1" "m1" projectId "e1" "s1" "k1" "u1" "r1" "n1" "v1" "d1" "x1" 50 24 10 (Some "1h") None
    (MkEndpointListOptions None None None) (MkAuditFilters None None None None None None) (MkEventFilters None None None None None)
    (MkDeliveryFilters None None None None None None None None) (MkOutboxFilters None None) true (Some true).
#[export] Instance KeyValue_eq_dec : EqDecision KeyValue.
Proof. solve_decision. Defined.
#[export] Instance KeyPart_eq_dec : EqDecision KeyPart.
Proof. solve_decision. Defined.
Lemma cr_ids p n : p = "p1" ∨ p = "" → one_piece (view_param (cr_view p) n).
Proof. intros Hp. unfold view_param. destruct Hp as [-> | ->]; repeat case_bool_decide; apply (bool_decide_unpack _); vm_compute; exact I. Qed.
Lemma cr_params m n : bool_decide (Forall (λ n, view_param (cr_view "p1") n ≠ "") (omap param_name (r_path (mutation_route m)))) = true →
  Param n ∈ r_path (mutation_route m) → view_param (cr_view "p1") n ≠ "".
Proof.
  intros H%bool_decide_eq_true_1 Hn. rewrite Forall_forall in H. apply H. apply list_elem_of_omap. by exists (Param n).
Qed.
Lemma cr_secret : bool_decide (Forall (λ n, view_param (cr_view "p1") n ≠ "") (omap param_name (r_path (mutation_route m_revokeSecret)))) = true.
Proof. vm_compute. reflexivity. Qed.

Lemma requests_reach_their_route_witness :
  (reaches id (cr_view "p1") (queryFn (query_hook q_series (cr_view "p1"))) (query_route q_series)
   ∧ reaches id (cr_view "p1") (mutationFn (mutation_hook m_revokeSecret (cr_view "p1") tt)) (mutation_route m_revokeSecret))
  ∧ ∀ r, r ∈ ROUTES → route_matches id r GET (address_pieces (address (queryFn (query_hook q_events (cr_view ""))))) = None.
Proof.
  destruct (requests_reach_their_route id (cr_view "p1") tt (λ _ _ _ _ E, E) (λ n, cr_ids "p1" n (or_introl eq_refl))) as (Hq & Hm & _).
  destruct (requests_reach_their_route id (cr_view "") tt (λ _ _ _ _ E, E) (λ n, cr_ids "" n (or_intror eq_refl))) as (_ & _ & He).
  split; [split|].
  - apply (Hq q_series); [reflexivity|discriminate].
  - apply (Hm m_revokeSecret). intros n. exact (cr_params m_revokeSecret n cr_secret).
  - apply (He eq_refl eq_refl).
Defined.

(** The same page of endpoints, with the default spelt out. *)
Definition cr_spelt : View :=
  let v := cr_view "p1" in
  MkView (v_orgId v) (v_memberId v) (v_projectId v) (v_endpointId v) (v_secretId v) (v_apiKeyId v) (v_subscriptionId v) (v_policyId v)
    (v_destinationId v) (v_eventId v) (v_deliveryId v) (v_outboxId v) 50 24 10 (Some "1h") None
    (MkEndpointListOptions None (Some false) None) (v_audit v) (v_events v) (v_deliveries v) (v_outbox v) true (Some true).
Lemma key_names_request_witness :
  (queryKey (query_hook q_endpoints (cr_view "p1")) = queryKey (query_hook q_endpoints cr_spelt)
   ∧ rq_sent (queryFn (query_hook q_endpoints (cr_view "p1"))) ≠ rq_sent (queryFn (query_hook q_endpoints cr_spelt)))
  ∧ rq_path (queryFn (query_hook q_endpoints (cr_view "p1"))) = rq_path (queryFn (query_hook q_endpoints cr_spelt)).
Proof.
  split; [split; [reflexivity|vm_compute; discriminate]|].
  destruct (key_names_request q_endpoints q_endpoints (cr_view "p1") cr_spelt eq_refl) as (_ & Hp & _). by apply Hp.
Defined.
